(* ===== verification/_CoqProject ===== *)
-Q . S2P
Prelude.v
Crdt.v
Sensor.v
CrdtOp.v
Delta.v
DeltaDoc.v
SyncProto.v
GattProto.v
Chat.v
Config.v
Document.v
DocSync.v
Crypto.v
Session.v
Beacon.v
Discovery.v
AddressRotation.v
Identity.v
Trust.v
Phy.v
Power.v
Clock.v
Reconnect.v
Lifetime.v
ForeignManagers.v
PeerGraph.v
PeerManager.v
Topology.v
MeshManager.v
Gossip.v
Relay.v
Observer.v
Registry.v
Persistence.v
PeatMesh.v
MeshLogic.v
MeshTransport.v
MeshDelta.v
MeshNode.v
MeshConverge.v
MeshService.v
Ble.v
Bindings.v
ForeignApp.v
GattService.v
DocStore.v
Adapter.v
LinuxConnection.v
LinuxAdapter.v
WindowsAdapter.v
Esp32.v
AppleDelegates.v
AppleManagers.v
AppleAdapter.v
AppleFfi.v
BleTransport.v
Wire.v
