(* ===== verification/Prelude.v ===== *)
(** * peat-btle: verification library

    ** The program

    [peat-btle] (src/) synchronises a small replicated document between nodes
    over Bluetooth Low Energy.  A node keeps a document made of state-based
    CRDTs, merges the documents and deltas it receives, encodes what it sends
    into GATT writes of a few hundred bytes, encrypts them under the key of
    its mesh, and relays other nodes' messages over several hops.  The facade
    [PeatMesh] of src/src/peat_mesh.rs is the node as an application sees
    it: it owns one part of each kind below and is called by the platform
    with what the radio delivers and with the time.  The development models
    the protocol and the facade, which are pure or state-passing Rust, and the
    adapters for Linux, Windows, ESP32 and Apple platforms as far as they are
    code of this repository: what the radio of a platform answers is an
    argument of each operation.

    ** Files, and the code each models

    - [Prelude]: outcomes of Rust code, machine integers, byte buffers,
      ordered maps, the classes [WireCodec] and [MapOrder], tactics, hints.

    Data and synchronisation:

    - [Crdt], [Sensor], [Chat] (src/src/sync/crdt.rs): [LwwRegister],
      [GCounter], [EmergencyEvent]; the sensor payloads with their validating
      decoders; the bounded chat.
    - [CrdtOp] (src/src/sync/crdt.rs, src/src/sync/batch.rs): operations,
      batches, the accumulator.
    - [Delta], [DeltaDoc] (src/src/sync/delta.rs,
      src/src/sync/delta_document.rs, src/src/registry.rs): per-peer sent
      state, vector clocks, delta documents.
    - [SyncProto] (src/src/sync/protocol.rs): chunking and [GattSyncProtocol].
    - [Document], [DocSync] (src/src/document.rs, src/src/document_sync.rs):
      the document and its merge; the document a node owns.
    - [Registry] (src/src/registry.rs, src/src/peat_mesh.rs): the document
      types of the application, and the documents kept of them.
    - [DocStore] (src/src/persistence.rs): stores of one document.

    GATT and transport:

    - [GattProto], [GattService] (src/src/gatt): characteristics,
      fragmentation, the [SyncProtocol] state machine; the service that
      answers reads and writes.
    - [Adapter] (src/src/platform/mod.rs, mock.rs, android): the class of
      adapters, the stub, the simulated network and the stub for Android.
    - [BleTransport] (src/src/transport.rs): sending over an adapter.
    - [Ble], [Config] (src/src/lib.rs, src/src/error.rs, src/src/config.rs):
      identifiers, errors, configuration.

    Security:

    - [Crypto], [Session] (src/src/security/mesh_key.rs, peer_key.rs,
      peer_session.rs): keys and end-to-end sessions, over the ciphers of the
      class [Crypto].
    - [Identity], [Trust] (src/src/security/identity.rs, signed_payload.rs,
      genesis.rs, membership_token.rs, registry.rs): identities, tokens, and
      the registry of who was seen with which key.
    - [Persistence] (src/src/security/persistence.rs): the state that is
      saved, over the class [SecureStorage].

    Discovery and radio:

    - [Beacon], [Discovery] (src/src/discovery): beacons in clear and
      encrypted, the advertiser and the scanner.
    - [AddressRotation] (src/src/address_rotation.rs).
    - [Phy], [Power] (src/src/phy, src/src/power): the choice of the layer and
      the radio scheduler.

    Peers and routing:

    - [Clock], [Reconnect], [Lifetime] (src/src/reconnect.rs,
      src/src/peer_lifetime.rs).
    - [PeerGraph], [PeerManager] (src/src/peer.rs, src/src/peer_manager.rs):
      direct peers as state machines, indirect peers with their paths; the
      peers that are tracked.
    - [Topology], [MeshManager] (src/src/mesh): the hierarchy, routing and
      failover.
    - [Gossip], [Relay] (src/src/gossip.rs, src/src/relay.rs): fan-out
      strategies behind a class, envelopes, the seen-message cache.

    The node as a whole:

    - [Observer] (src/src/observer.rs): events and who is told.
    - [PeatMesh] (src/src/peat_mesh.rs): the state of a node, and every method
      as a step of the monad [M] on it.
    - [MeshLogic]: the laws of [M], a Hoare logic for it, and what each helper
      of the facade keeps.
    - [MeshTransport]: the four methods that take bytes from the radio.
    - [MeshDelta]: the exchange of deltas between two nodes.
    - [MeshNode]: a network of whole nodes.
    - [MeshConverge]: that the nodes of such a network come to agree.
    - [MeshService]: end-to-end sessions, restart, and the schedule of ticks.
    - [Wire]: all wire formats together.

    Linux, Windows and ESP32:

    - [LinuxConnection] (src/src/platform/linux/connection.rs): a connection
      of BlueZ, and its queue of writes as a system of steps: each call of
      [write_characteristic_queued] is a task, a step goes from one [await] or
      release of the lock to the next, and a caller may be dropped.
    - [LinuxAdapter] (src/src/platform/linux/adapter.rs): the values of the
      GATT server, the tasks that follow discovery, the adapter.
    - [WindowsAdapter] (src/src/platform/windows): the watcher, the advertiser,
      the connections with the cells that their clones share, the GATT server
      and the adapter over WinRT.
    - [Esp32] (src/src/platform/esp32.rs): the parser of advertising data, the
      statics with the callbacks that NimBLE calls on them, the adapter.

    The Apple platform:

    - [AppleDelegates], [AppleManagers], [AppleAdapter]
      (src/src/platform/apple): what CoreBluetooth calls and the events made of
      it; scanning, connecting and the GATT server; connections and the adapter.
    - [AppleFfi] (src/ios/peat-apple-ffi): the adapter and the node that are
      given to Swift.

    The surface towards other languages:

    - [Bindings], [ForeignManagers] (src/src/uniffi_bindings.rs): the records
      and enums an application exchanges, the mesh object and the identity
      objects; the managers behind a mutex, with its poisoning.
    - [ForeignApp]: sessions of an application with the mesh object.

    Each Rust type is a Module of the same name whose record is [t] and whose
    functions keep their names.  A method on [&mut self] takes the state and
    returns the new one with the result; a [&self] method is a function of
    the state.  An optional field is an [option]; [?] is [let!], [←?] or the
    [reject_if] notation.

    ** Conventions

    - [outcome] separates a normal return, [None] ([Fail]) and a panic.
      Arithmetic follows the checked profiles (dev and test): an unchecked
      operation that overflows panics, [saturating_*], [wrapping_*] and [as]
      casts are written out at their width.  [usize] has 64 bits; sizes that
      come from memory are not bounded by it.
    - Integers are [Z]; bytes are [list Z] with each element in 0..255,
      [bytes_ok] is the predicate.  A [String] or [&str] is its UTF-8 bytes.
      An [f32] is its bit pattern, compared through its IEEE 754 value.
      A 16-byte identifier is one little-endian number.
    - A [BTreeMap] is a [gmap] iterated in ascending key order ([bt_iter]).
      A [HashMap] is a [gmap] iterated in an order about which only
      [MapOrder] is assumed: it is a permutation of the bindings.  The
      instances [btree_order] and [text_order] show the class can be met.
    - Clocks, nonces and random seeds are arguments.  A cargo feature is a
      boolean argument ([legacy_chat]); otherwise the std build is modelled.
    - A lock is taken to be free and not poisoned, so that a call of a method
      is one step, the queue of writes of [LinuxConnection] apart.  [GattService] records where a callback runs under a lock.
      Callbacks and observers are logs of what they were called with.
    - Code outside src/ is an argument of the definitions that use it: the
      ciphers, signatures and hashes (class [Crypto], laws [CryptoLaws]), the
      types of an application ([AppTypes], [AppLaws]), adapters, storages and
      file systems ([BleAdapter], [SecureStorage], [FileSystem], each with its
      laws), the uuid crate ([UuidFields], [UuidText]), the text of an address
      ([AddressText]), the channels of tokio ([Channel], laws [ChannelLaws]),
      and CoreBluetooth, BlueZ, WinRT and NimBLE, whose calls and answers
      are arguments.  A theorem assumes no more than
      the laws, and its witness instantiates them ([Toy.suite] of [Crypto],
      the simulated network, the memory storage).

    Recursion is structural, over the data or over a count that bounds the
    loop: [for_range] runs as often as the code's range, [prune_fuel] and the
    section parser take the size of what they consume.  Enough fuel is always
    given by construction, and the theorems that a decoder is safe include
    that it returns.

    ** Theorems

    - Convergence ([document_converges], [app_documents_converge], and of the
      parts [gcounter_converges], [lww_converges], [emergency_converges],
      [chat_converges]): replicas that receive the same set of values, in any
      order and with repetitions, are equal.  They instantiate one lemma on
      replay of a join ([replay_converges] of [Prelude]).
    - Codecs ([wire_formats]): every wire format is an instance of [WireCodec]
      or has the same two theorems: what is encoded is read back, and a
      decoder returns on any bytes without panic and accepts only well-formed
      values.  [registry_persists] and [restart_keeps_membership] are the same
      of what is saved.
    - Transfer: [sync_end_to_end], [fragments_reassembled],
      [gatt_session_completes] and [send_to_delivers] compose the sender, the
      cutting, the loss and the reassembly; [delta_rounds_leave_out] is about
      what is left out.
    - Whole nodes: [documents_are_delivered] and [envelopes_are_delivered]
      compose building, encryption, the dispatch on arrival and the merge;
      [outsiders_change_nothing] and [members_never_crash_a_node] say what any
      bytes can do; [strict_mesh_survives] is the invariant of a network of
      nodes under every user action but sending chat and every arrival, and
      [strict_mesh_converges] says that its nodes agree once each has heard
      every other;
      [mesh_understands_every_document] and [emergency_acknowledged] are about
      the documents alone; [deltas_are_reported_not_merged],
      [e2ee_needs_both_sides] and [tick_follows_schedule] are the delta
      exchange, sessions and the clock of a node.
    - Relaying and routing: [node_relays_once], [flood_bounded],
      [broadcast_reaches_all_once], [mesh_manager_invariant],
      [failover_reconnects].
    - Peers: [peer_graph_refines_automata], [peer_manager_invariant],
      [advertised_node_syncs], [reconnect_follows_schedule],
      [lifetime_reports_silent_peers], [rotation_tracked], [member_recognised].
    - Applications: [foreign_calls_never_panic] is about any session with a
      mesh object, [foreign_reconnection_schedule] about the reconnection
      object behind its mutex.
    - Apple: [apple_adapter_promises] and [gatt_values_are_written] are about
      the adapter and its GATT server, [ios_adapter_never_connects] about what
      an application in Swift can do with it.
    - Linux, Windows, ESP32: [queued_writes_one_at_a_time] and
      [queued_writes_return] are safety of the write queue under any
      interleaving and its progress while no caller is dropped; [linux_nodes_find_each_other] composes advertising,
      discovery and connecting; [windows_connections_carry_nothing] shows what
      becomes of a connection there; [esp32_finds_listed_services] relates the
      scanner to a parser into structures, and [esp32_statics_refine] the
      statics to the links, the queue and the document they stand for.
    - Security: [session_delivers], [session_counters_increase],
      [trust_on_first_use], [signed_payload_authentic].
    - Radio: [switches_do_not_flap], [scheduler_queue_sound];
      [gatt_service_sound] for the service.
    - Errors: what the code does on inputs its authors did not mean to accept
      or lose is stated in lemmas and examples beside the properties.

    Bounds: a mesh of at most 256 nodes and a run of at most 2^26 events keep
    every sum of counts within 64 bits and every count of entries within what
    the decoders accept ([DocSyncProofs.doc_inv]); the books of a peer
    ([books_ok]) count the calls that a 32-bit counter has taken.

    ** Not modelled

    The stacks of the platforms (BlueZ, WinRT, NimBLE, CoreBluetooth) and
    src/src/platform/embedded.rs, which is empty.  The methods of the Linux
    adapter that only pass a call on to BlueZ, and the build of the ESP32 file
    for a host, are left out; the Android adapter is a stub in the source.
    Examples, tests and the Android and iOS projects are clients.  Within
    modelled files: quantities in floating point that are only displayed (battery estimates,
    duty cycles, success rates), the estimate of a distance, which is a
    parameter of the scanner, the containers of the no_std build, logging,
    and the texts of errors that are not returned.  Poisoned locks and calls
    that interleave within a method are outside the model, but for the
    managers of [ForeignManagers] and the write queue of [LinuxConnection].
*)

From Stdlib Require Import ZArith Lia Ascii String.
From stdpp Require Import base numbers list gmap sorting.

Declare Scope peat_scope.
Delimit Scope peat_scope with peat.
Open Scope Z_scope.
Open Scope peat_scope.

(** ** Outcomes of Rust code

    [Ok a] is a normal return ([Some a] for a function returning [Option]),
    [Fail] is the return of [None], [Panic] is a Rust panic: an index or a
    slice out of range, or an arithmetic overflow caught by the overflow
    checks of the dev and test profiles. *)
Inductive outcome (A : Type) : Type :=
| Ok (a : A)
| Fail
| Panic.
Arguments Ok {A} a.
Arguments Fail {A}.
Arguments Panic {A}.

#[export] Instance outcome_eq_dec {A} `{!EqDecision A} : EqDecision (outcome A).
Proof. solve_decision. Defined.

Definition obind {A B} (o : outcome A) (k : A → outcome B) : outcome B :=
  match o with Ok a => k a | Fail => Fail | Panic => Panic end.

(** [Option] values computed by a callee whose [None] is not propagated
    (no [?] at the call): a [Fail] of the callee is an ordinary [None]. *)
Definition opt {A} (o : outcome A) : outcome (option A) :=
  match o with Ok a => Ok (Some a) | Fail => Ok None | Panic => Panic end.

(** A callee of type [option] used with [?]. *)
Definition of_option {A} (o : option A) : outcome A :=
  match o with Some a => Ok a | None => Fail end.

Notation "'let!' x := o 'in' k" := (obind o (λ x, k))
  (at level 10, x pattern, k at level 200,
   format "'[v' 'let!'  x  :=  o  'in' '/' k ']'") : peat_scope.
Notation "'reject_if' b ';;' k" := (if b : bool then Fail else k)
  (at level 10, b at level 99, k at level 200,
   format "'[v' 'reject_if'  b  ';;' '/' k ']'") : peat_scope.

(** ** Machine integers *)

Abbreviation in_u w x := (0 ≤ x < 2 ^ w).
Definition u8_max : Z := 2 ^ 8 - 1.
Definition u32_max : Z := 2 ^ 32 - 1.
Definition u64_max : Z := 2 ^ 64 - 1.

(** [as u8], [as u16], [as u32]: truncation. *)
Definition wrap (w x : Z) : Z := x mod 2 ^ w.
(** [+], [-] on unsigned integers with the overflow check of the dev profile. *)
Definition add_u (w x y : Z) : outcome Z := if x + y <? 2 ^ w then Ok (x + y) else Panic.
Definition sub_u (x y : Z) : outcome Z := if y <=? x then Ok (x - y) else Panic.
Definition mul_u (w x y : Z) : outcome Z := if x * y <? 2 ^ w then Ok (x * y) else Panic.
(** [iter.sum()] with overflow checks. *)
Definition sum_u (w : Z) (l : list Z) : outcome Z :=
  foldl (λ acc x, let! a := acc in add_u w a x) (Ok 0) l.
Definition saturating_add (w x y : Z) : Z := Z.min (x + y) (2 ^ w - 1).
Definition saturating_sub (x y : Z) : Z := Z.max 0 (x - y).
Definition wrapping_add (w x y : Z) : Z := wrap w (x + y).

(** [+], [-] of [i8]. *)
Definition add_i8 (x y : Z) : outcome Z :=
  if (-128 <=? x + y) && (x + y <=? 127) then Ok (x + y) else Panic.
Definition sub_i8 (x y : Z) : outcome Z :=
  if (-128 <=? x - y) && (x - y <=? 127) then Ok (x - y) else Panic.

(** ** Byte buffers *)

Abbreviation zlen l := (Z.of_nat (length l)).
Abbreviation byte_ok b := (0 ≤ b < 2 ^ 8).
Abbreviation bytes_ok := (Forall (λ b : Z, 0 ≤ b < 2 ^ 8)).

(** [x.to_le_bytes()] on [n] bytes, and [from_le_bytes]. *)
Definition le (n x : Z) : list Z := Z_to_little_endian n 8 x.
Definition from_le (bs : list Z) : Z := little_endian_to_Z 8 bs.

Definition ztake (n : Z) {A} (l : list A) : list A := take (Z.to_nat n) l.
Definition zdrop (n : Z) {A} (l : list A) : list A := drop (Z.to_nat n) l.

(** [data[a..b].to_vec()] and [data[a..]]: both panic out of range. *)
Definition slice (data : list Z) (a b : Z) : outcome (list Z) :=
  if (0 <=? a) && (a <=? b) && (b <=? zlen data)
  then Ok (ztake (b - a) (zdrop a data)) else Panic.
Definition slice_from (data : list Z) (a : Z) : outcome (list Z) :=
  slice data a (zlen data).

(** [uN::from_le_bytes([data[off], ..])]: [n] consecutive reads. *)
Definition u_at (n : Z) (data : list Z) (off : Z) : outcome Z :=
  let! s := slice data off (off + n) in Ok (from_le s).
Abbreviation u8_at := (u_at 1).
Abbreviation u16_at := (u_at 2).
Abbreviation u32_at := (u_at 4).
Abbreviation u64_at := (u_at 8).

(** Big-endian writes and reads, byte by byte: [(x >> 8) as u8, x as u8]. *)
Definition be16 (x : Z) : list Z := [wrap 8 (Z.shiftr x 8); wrap 8 x].
Definition be32 (x : Z) : list Z :=
  [wrap 8 (Z.shiftr x 24); wrap 8 (Z.shiftr x 16); wrap 8 (Z.shiftr x 8); wrap 8 x].
Definition be16_at (data : list Z) (off : Z) : outcome Z :=
  let! hi := u8_at data off in
  let! lo := u8_at data (off + 1) in
  Ok (Z.lor (Z.shiftl hi 8) lo).
Definition be32_at (data : list Z) (off : Z) : outcome Z :=
  let! b0 := u8_at data off in
  let! b1 := u8_at data (off + 1) in
  let! b2 := u8_at data (off + 2) in
  let! b3 := u8_at data (off + 3) in
  Ok (Z.lor (Z.lor (Z.lor (Z.shiftl b0 24) (Z.shiftl b1 16)) (Z.shiftl b2 8)) b3).

(** [x as i8] of a [u8]. *)
Definition to_i8 (b : Z) : Z := if b <? 128 then b else b - 256.

(** [for i in 0..n { body }] over a mutable state that may return or panic. *)
Fixpoint for_range {T} (n : nat) (i : Z) (body : Z → T → outcome T) (s : T) : outcome T :=
  match n with
  | O => Ok s
  | S n => let! s := body i s in for_range n (i + 1) body s
  end.

(** [data.chunks(n)], for [n > 0]; [length data] pieces are fuel enough. *)
Fixpoint pieces_fuel (fuel n : nat) (data : list Z) : list (list Z) :=
  match fuel, data with
  | S fuel, _ :: _ => take n data :: pieces_fuel fuel n (drop n data)
  | _, _ => []
  end.
Definition pieces (n : Z) (data : list Z) : list (list Z) :=
  pieces_fuel (length data) (Z.to_nat n) data.

(** [a.div_ceil(b)]. *)
Definition div_ceil (a b : Z) : Z := (a + b - 1) / b.

(** Concatenation of the pieces of a partially received message in index
    order; [None] when one of the [n] is missing. *)
Definition assemble (n : Z) (parts : gmap Z (list Z)) : outcome (list Z) :=
  for_range (Z.to_nat n) 0 (λ i result,
      match parts !! i with Some data => Ok (result ++ data) | None => Fail end) [].

(** [iter.max_by(cmp)], [max_by_key]: the last of the greatest elements. *)
Definition max_by {A} (leb : A → A → bool) (l : list A) : option A :=
  foldl (λ acc x, match acc with
                  | None => Some x
                  | Some y => if leb y x then Some x else Some y end) None l.

(** [b & mask != 0]. *)
Definition has_bit (b mask : Z) : bool := negb (Z.land b mask =? 0).

(** ** Ordered and unordered maps

    A [BTreeMap<uN, V>] is a [gmap Z V] iterated in ascending key order. *)
Definition key_le {V} (a b : Z * V) : Prop := a.1 ≤ b.1.
#[export] Instance key_le_dec {V} : RelDecision (@key_le V).
Proof. unfold RelDecision, key_le. intros a b. apply _. Defined.

Definition bt_iter {V} (m : gmap Z V) : list (Z * V) :=
  merge_sort key_le (map_to_list m).
(** [map.entry(k).or_insert(d)], read back. *)
Definition or_insert {V} (m : gmap Z V) (k : Z) (d : V) : V := default d (m !! k).
Definition insert_all {V} (l : list (Z * V)) (m : gmap Z V) : gmap Z V :=
  foldl (λ m '(k, v), <[k := v]> m) m l.

(** ** UTF-8 ([core::str::from_utf8], the well-formed byte sequences of
    the Unicode standard, table 3-7). *)
Definition between (lo hi b : Z) : bool := (lo <=? b) && (b <=? hi).
Fixpoint utf8_valid (bs : list Z) : bool :=
  match bs with
  | [] => true
  | b0 :: t0 =>
    if between 0 127 b0 then utf8_valid t0 else
    match t0 with
    | [] => false
    | b1 :: t1 =>
      if between 194 223 b0 then between 128 191 b1 && utf8_valid t1 else
      match t1 with
      | [] => false
      | b2 :: t2 =>
        if between 224 239 b0 then
          between (if b0 =? 224 then 160 else 128) (if b0 =? 237 then 159 else 191) b1
          && between 128 191 b2 && utf8_valid t2
        else
        match t2 with
        | [] => false
        | b3 :: t3 =>
          between 240 244 b0
          && between (if b0 =? 240 then 144 else 128) (if b0 =? 244 then 143 else 191) b1
          && between 128 191 b2 && between 128 191 b3 && utf8_valid t3
        end
      end
    end
  end.

(** ** Text *)

(** The bytes of an ASCII string literal. *)
Definition str (s : string) : list Z :=
  map (λ a, Z.of_nat (nat_of_ascii a)) (list_ascii_of_string s).

(** [{:08X}] of a [u32]. *)
Definition hex_digit (d : Z) : Z := if d <? 10 then 48 + d else 55 + d.
Definition hex8 (n : Z) : list Z :=
  map (λ k, hex_digit (n / 16 ^ k mod 16)) [7; 6; 5; 4; 3; 2; 1; 0].
(** [uN::from_str_radix(s, 16)]: an optional [+], then at least one digit;
    [None] for an error, overflow included. *)
Definition hex_value (b : Z) : option Z :=
  if between 48 57 b then Some (b - 48)
  else if between 65 70 b then Some (b - 55)
  else if between 97 102 b then Some (b - 87)
  else None.
Fixpoint hex_digits (w : Z) (s : list Z) (acc : Z) : option Z :=
  match s with
  | [] => Some acc
  | b :: s =>
      match hex_value b with
      | Some d => if acc * 16 + d <? 2 ^ w then hex_digits w s (acc * 16 + d) else None
      | None => None
      end
  end.
Definition from_hex (w : Z) (s : list Z) : option Z :=
  match s with
  | [] => None
  | b :: rest =>
      let digits := if b =? 43 then rest else s in
      match digits with [] => None | _ => hex_digits w digits 0 end
  end.
(** [s.strip_prefix(p)], [s.split_once(c)] and [s.rfind(c)] for an ASCII
    character [c]. *)
Definition strip_prefix (p s : list Z) : option (list Z) :=
  if bool_decide (take (length p) s = p) then Some (drop (length p) s) else None.
Definition split_once (c : Z) (s : list Z) : option (list Z * list Z) :=
  match list_find (λ b, b = c) s with
  | Some (i, _) => Some (take i s, drop (S i) s)
  | None => None
  end.
Definition rfind (c : Z) (s : list Z) : option Z :=
  match list_find (λ b, b = c) (reverse s) with
  | Some (i, _) => Some (zlen s - 1 - Z.of_nat i)
  | None => None
  end.
(** [{}] of a [u8]. *)
Definition dec_u8 (n : Z) : list Z :=
  if n <? 10 then [48 + n]
  else if n <? 100 then [48 + n / 10; 48 + n mod 10]
  else [48 + n / 100; 48 + n / 10 mod 10; 48 + n mod 10].

(** ** Interfaces *)

(** The iteration order of a [HashMap<K, V>] (any order that visits each
    entry once) or of the [BTreeMap<K, V>] that replaces it without [std]. *)
Class MapOrder (K : Type) `{Countable K} := {
  map_iter : ∀ {V}, gmap K V → list (K * V);
  map_iter_perm : ∀ {V} (m : gmap K V), map_iter m ≡ₚ map_to_list m
}.

(** A state-based CRDT: on the [valid] states, [join] is the least upper
    bound operation of a semilattice.  Clients prove convergence against
    this class only. *)
Class JoinCrdt (A : Type) (valid : A → Prop) (join : A → A → A) : Prop := {
  join_valid : ∀ a b, valid a → valid b → valid (join a b);
  join_idem : ∀ a, valid a → join a a = a;
  join_comm : ∀ a b, valid a → valid b → join a b = join b a;
  join_assoc : ∀ a b c, valid a → valid b → valid c →
    join a (join b c) = join (join a b) c
}.

#[export] Instance forall_some_dec {A} (o : option A) (P : A → Prop)
  `{!∀ a, Decision (P a)} : Decision (∀ a, o = Some a → P a).
Proof.
  destruct o as [a|]; [|by left].
  destruct (decide (P a)); [left|right]; naive_solver.
Defined.

(** ** Weakest preconditions

    [wp o Q]: [o] does not panic, and if it returns a value the value
    satisfies [Q]. *)
Definition wp {A} (o : outcome A) (Q : A → Prop) : Prop :=
  match o with Ok a => Q a | Fail => True | Panic => False end.

(** A wire format: [enc] writes, [dec] reads back from a whole buffer, never
    panics, and returns well-formed values only. *)
Class WireCodec {A : Type} (enc : A → list Z) (dec : list Z → outcome A)
    (wf : A → Prop) : Prop := {
  wire_bytes : ∀ a, wf a → bytes_ok (enc a);
  wire_roundtrip : ∀ a, wf a → dec (enc a) = Ok a;
  wire_safe : ∀ data, bytes_ok data → wp (dec data) wf
}.

Section wp.
Context {A B : Type}.
Implicit Types (o : outcome A) (Q : A → Prop).

Lemma wp_ok a Q : Q a → wp (Ok a) Q.
Proof. done. Qed.
Lemma wp_fail Q : wp Fail Q.
Proof. done. Qed.
Lemma wp_bind o (k : A → outcome B) (Q : B → Prop) :
  wp o (λ a, wp (k a) Q) → wp (obind o k) Q.
Proof. by destruct o. Qed.
Lemma wp_mono o Q Q' : wp o Q → (∀ a, Q a → Q' a) → wp o Q'.
Proof. destruct o; cbn; auto. Qed.
Lemma wp_reject_if (b : bool) o Q :
  (b = false → wp o Q) → wp (if b then Fail else o) Q.
Proof. destruct b; cbn; auto. Qed.
Lemma wp_if (b : bool) o o' Q :
  (b = true → wp o Q) → (b = false → wp o' Q) → wp (if b then o else o') Q.
Proof. destruct b; auto. Qed.
Lemma wp_opt o Q :
  wp o Q → wp (opt o) (λ r, ∀ a, r = Some a → Q a).
Proof. destruct o; cbn; naive_solver. Qed.
Lemma wp_of_option (r : option A) Q :
  (∀ a, r = Some a → Q a) → wp (of_option r) Q.
Proof. destruct r; cbn; auto. Qed.
Lemma wp_safe o Q : wp o Q → o ≠ Panic.
Proof. by destruct o. Qed.
Lemma wp_elim o Q a : wp o Q → o = Ok a → Q a.
Proof. intros H ->. exact H. Qed.
End wp.

(** Loop rule: an invariant indexed by the loop counter. *)
Lemma wp_for_range {T} (n : nat) (i : Z) body (s : T) (I : Z → T → Prop) (Q : T → Prop) :
  I i s →
  (∀ j s, i ≤ j < i + Z.of_nat n → I j s → wp (body j s) (I (j + 1))) →
  (∀ s, I (i + Z.of_nat n) s → Q s) →
  wp (for_range n i body s) Q.
Proof.
  revert i s. induction n as [|n IH]; intros i s Hi Hstep Hend; cbn [for_range].
  - apply Hend. by replace (i + Z.of_nat 0) with i by lia.
  - apply wp_bind. eapply wp_mono; [apply Hstep; [lia|done]|].
    intros s' Hs'. apply IH; [done| |].
    + intros j s'' Hj. apply Hstep. lia.
    + intros s'' Hs''. apply Hend.
      by replace (i + Z.of_nat (S n)) with (i + 1 + Z.of_nat n) by lia.
Qed.

(** ** Lengths and byte bounds: the [len] and [bytes] databases *)

Lemma zlen_le n x : 0 ≤ n → zlen (le n x) = n.
Proof. apply length_Z_to_little_endian. Qed.
Lemma length_le n x : length (le n x) = Z.to_nat n.
Proof.
  destruct (decide (0 ≤ n)).
  - rewrite <-(Nat2Z.id (length _)). by rewrite zlen_le.
  - unfold le, Z_to_little_endian. destruct n; [lia|lia|done].
Qed.
Lemma length_ztake n {A} (l : list A) : length (ztake n l) = Nat.min (Z.to_nat n) (length l).
Proof. apply length_take. Qed.
Lemma length_zdrop n {A} (l : list A) : length (zdrop n l) = (length l - Z.to_nat n)%nat.
Proof. apply length_drop. Qed.
Lemma length_cons_S {A} (x : A) l : length (x :: l) = S (length l).
Proof. done. Qed.
Lemma length_nil_0 {A} : length (@nil A) = O.
Proof. done. Qed.

Create Rewrite HintDb len.
#[export] Hint Rewrite @length_app @length_cons_S @length_nil_0 length_le
  @length_ztake @length_zdrop @length_replicate @length_fmap @length_insert : len.
(** Solve a linear goal about buffer lengths. *)
Ltac len := autorewrite with len in *; lia.

Lemma le_bytes n x : 0 ≤ n → bytes_ok (le n x).
Proof. intros. by apply Z_to_little_endian_bound. Qed.
Lemma bytes_app a b : bytes_ok a → bytes_ok b → bytes_ok (a ++ b).
Proof. intros. by apply Forall_app. Qed.
Lemma bytes_cons a b : byte_ok a → bytes_ok b → bytes_ok (a :: b).
Proof. by constructor. Qed.
Lemma bytes_nil : bytes_ok [].
Proof. constructor. Qed.
Lemma bytes_ztake n l : bytes_ok l → bytes_ok (ztake n l).
Proof. apply Forall_take. Qed.
Lemma bytes_zdrop n l : bytes_ok l → bytes_ok (zdrop n l).
Proof. apply Forall_drop. Qed.

Create HintDb bytes.
#[export] Hint Resolve le_bytes bytes_app bytes_cons bytes_nil bytes_ztake bytes_zdrop : bytes.
#[export] Hint Extern 1 (_ ≤ _) => lia : bytes.
#[export] Hint Extern 1 (_ ≤ _ < _) => lia : bytes.

(** ** Reading back what was written *)

Lemma from_le_le n x : 0 ≤ n → in_u (8 * n) x → from_le (le n x) = x.
Proof.
  intros Hn Hx. unfold from_le, le.
  rewrite little_endian_to_Z_to_little_endian by lia.
  apply Z.mod_small. by rewrite Z.mul_comm.
Qed.
Lemma from_le_bound bs n : bytes_ok bs → zlen bs = n → in_u (8 * n) (from_le bs).
Proof.
  intros Hb <-. rewrite Z.mul_comm. by apply little_endian_to_Z_bound.
Qed.
Lemma le_1 b : byte_ok b → le 1 b = [b].
Proof.
  intros Hb. unfold le. rewrite (Z_to_little_endian_succ 0) by lia.
  rewrite Z_to_little_endian_0, Z.land_ones by lia. by rewrite Z.mod_small by lia.
Qed.

Lemma ztake_app_le n {A} (p q : list A) : n ≤ zlen p → ztake n (p ++ q) = ztake n p.
Proof. intros. apply take_app_le. lia. Qed.
Lemma ztake_app_exact n {A} (p q : list A) : n = zlen p → ztake n (p ++ q) = p.
Proof. intros ->. unfold ztake. by rewrite Nat2Z.id, take_app_length. Qed.
Lemma zdrop_app_ge n {A} (p q : list A) :
  zlen p ≤ n → zdrop n (p ++ q) = zdrop (n - zlen p) q.
Proof. intros. unfold zdrop. rewrite drop_app_ge by lia. f_equal. lia. Qed.
Lemma zdrop_0 {A} (l : list A) : zdrop 0 l = l.
Proof. done. Qed.
Lemma ztake_all n {A} (l : list A) : n = zlen l → ztake n l = l.
Proof. intros ->. unfold ztake. rewrite Nat2Z.id. by apply firstn_all. Qed.

Lemma slice_ok data a b :
  0 ≤ a → a ≤ b → b ≤ zlen data → slice data a b = Ok (ztake (b - a) (zdrop a data)).
Proof.
  intros. unfold slice.
  by rewrite (proj2 (Z.leb_le 0 a)), (proj2 (Z.leb_le a b)), (proj2 (Z.leb_le b _)) by lia.
Qed.
Lemma slice_panic data a b : ¬ (0 ≤ a ∧ a ≤ b ∧ b ≤ zlen data) → slice data a b = Panic.
Proof.
  intros H. unfold slice.
  destruct (0 <=? a) eqn:?, (a <=? b) eqn:?, (b <=? zlen data) eqn:?; try done; exfalso; lia.
Qed.
Lemma slice_skip p q a b :
  zlen p ≤ a → slice (p ++ q) a b = slice q (a - zlen p) (b - zlen p).
Proof.
  intros Hp. destruct (decide (a ≤ b ∧ b ≤ zlen (p ++ q))) as [[??]|Hn].
  - rewrite !slice_ok by len. rewrite zdrop_app_ge by lia. do 2 f_equal. lia.
  - by rewrite !slice_panic by len.
Qed.
Lemma slice_here p q n : n = zlen p → slice (p ++ q) 0 n = Ok p.
Proof.
  intros ->. rewrite slice_ok by len. rewrite zdrop_0. f_equal. apply ztake_app_exact. lia.
Qed.
Lemma slice_all p n : n = zlen p → slice p 0 n = Ok p.
Proof. intros ->. rewrite <-(app_nil_r p) at 1. by apply slice_here. Qed.
Lemma slice_at p q r a b :
  a = zlen p → b = a + zlen q → slice (p ++ q ++ r) a b = Ok q.
Proof. intros -> ->. rewrite slice_skip, Z.sub_diag by lia. apply slice_here. lia. Qed.
Lemma slice_from_app p q a : a = zlen p → slice_from (p ++ q) a = Ok q.
Proof.
  intros ->. unfold slice_from. rewrite slice_skip by lia.
  rewrite Z.sub_diag. apply slice_all. len.
Qed.

Lemma u_at_skip n p q off :
  zlen p ≤ off → u_at n (p ++ q) off = u_at n q (off - zlen p).
Proof.
  intros. unfold u_at. rewrite slice_skip by lia.
  by replace (off + n - zlen p) with (off - zlen p + n) by lia.
Qed.
Lemma u_at_here n x q : 0 ≤ n → in_u (8 * n) x → u_at n (le n x ++ q) 0 = Ok x.
Proof.
  intros Hn Hx. unfold u_at. rewrite slice_here by (rewrite zlen_le; lia).
  cbn [obind]. by rewrite from_le_le.
Qed.
Lemma u_at_end n x : 0 ≤ n → in_u (8 * n) x → u_at n (le n x) 0 = Ok x.
Proof. intros. rewrite <-(app_nil_r (le n x)). by apply u_at_here. Qed.
Lemma u8_at_here b q : byte_ok b → u8_at (b :: q) 0 = Ok b.
Proof. intros. change (b :: q) with ([b] ++ q). rewrite <-le_1 by done. by apply u_at_here. Qed.
Lemma u_at_cons n b q off : 1 ≤ off → u_at n (b :: q) off = u_at n q (off - 1).
Proof. intros. change (b :: q) with ([b] ++ q). rewrite u_at_skip by len. done. Qed.

(** ** Weakest preconditions of the reads *)

Lemma wp_slice data a b Q :
  0 ≤ a → a ≤ b → b ≤ zlen data → bytes_ok data →
  (∀ s, zlen s = b - a → bytes_ok s → Q s) →
  wp (slice data a b) Q.
Proof.
  intros ???? HQ. rewrite slice_ok by done. apply HQ; [|auto with bytes]. len.
Qed.
Lemma wp_u_at n data off Q :
  0 ≤ n → 0 ≤ off → off + n ≤ zlen data → bytes_ok data →
  (∀ x, in_u (8 * n) x → Q x) →
  wp (u_at n data off) Q.
Proof.
  intros ???? HQ. apply wp_bind. apply wp_slice; try done; try lia.
  intros s Hs ?. apply HQ, from_le_bound; [done|lia].
Qed.

Lemma wp_add_u w x y Q : x + y < 2 ^ w → Q (x + y) → wp (add_u w x y) Q.
Proof. intros ??. unfold add_u. by rewrite (proj2 (Z.ltb_lt _ _)). Qed.
Lemma wp_sub_u x y Q : y ≤ x → Q (x - y) → wp (sub_u x y) Q.
Proof. intros ??. unfold sub_u. by rewrite (proj2 (Z.leb_le _ _)). Qed.
Lemma add_u_ok w x y : x + y < 2 ^ w → add_u w x y = Ok (x + y).
Proof. intros. unfold add_u. by rewrite (proj2 (Z.ltb_lt _ _)). Qed.
Lemma add_u_panic w x y : 2 ^ w ≤ x + y → add_u w x y = Panic.
Proof. intros. unfold add_u. by rewrite (proj2 (Z.ltb_ge _ _)). Qed.
Lemma sub_u_ok x y : y ≤ x → sub_u x y = Ok (x - y).
Proof. intros. unfold sub_u. by rewrite (proj2 (Z.leb_le _ _)). Qed.

(** Safety lemmas of the components' decoders. *)
Create HintDb wp.

(** One step of a decoder's safety proof. *)
Ltac wp_side := first [assumption | lia | auto with bytes].
Ltac wp_step :=
  match goal with
  | |- wp (Ok _) _ => apply wp_ok
  | |- wp Fail _ => exact I
  | |- wp (obind _ _) _ => apply wp_bind
  | |- wp (if _ then Fail else _) _ => apply wp_reject_if; intro
  | |- wp (u_at _ _ _) _ => apply wp_u_at; [wp_side|wp_side|wp_side|wp_side|intros ? ?]
  | |- wp (slice _ _ _) _ => apply wp_slice; [wp_side|wp_side|wp_side|wp_side|intros ? ? ?]
  | |- wp (slice_from _ _) _ => unfold slice_from
  | |- wp (add_u _ _ _) _ => apply wp_add_u; [wp_side|]
  | |- wp (sub_u _ _) _ => apply wp_sub_u; [wp_side|]
  | |- wp (opt _) _ =>
      eapply wp_mono; [apply wp_opt; solve [eauto with wp bytes]|intros ? ?]
  | |- wp (if _ then _ else _) _ => apply wp_if; intro
  | |- wp (match (_, _) with _ => _ end) _ => cbv beta iota
  | |- wp (let _ := _ in _) _ => cbv zeta
  | |- wp _ _ =>
      eapply wp_mono;
      [solve [eauto with wp bytes]|let H := fresh in intros ? H; cbv beta in H]
  end.
Ltac wp_steps := cbv zeta; repeat wp_step.

(** ** Ordered iteration *)

#[export] Instance key_le_total {V} : Total (@key_le V).
Proof. intros a b. unfold key_le. lia. Qed.
#[export] Instance key_le_trans {V} : Transitive (@key_le V).
Proof. intros a b c. unfold key_le. lia. Qed.

Section bt_iter.
Context {V : Type}.
Implicit Types (m : gmap Z V) (l : list (Z * V)).

Lemma bt_iter_perm m : bt_iter m ≡ₚ map_to_list m.
Proof. apply merge_sort_Permutation. Qed.
Lemma bt_iter_sorted m : StronglySorted key_le (bt_iter m).
Proof. apply StronglySorted_merge_sort; apply _. Qed.
Lemma elem_of_bt_iter m k v : (k, v) ∈ bt_iter m ↔ m !! k = Some v.
Proof. rewrite bt_iter_perm. apply elem_of_map_to_list. Qed.
Lemma bt_iter_NoDup_keys m : NoDup (bt_iter m).*1.
Proof. rewrite bt_iter_perm. apply NoDup_fst_map_to_list. Qed.
Lemma bt_iter_NoDup m : NoDup (bt_iter m).
Proof. rewrite bt_iter_perm. apply NoDup_map_to_list. Qed.
Lemma length_bt_iter m : length (bt_iter m) = size m.
Proof. rewrite bt_iter_perm. apply length_map_to_list. Qed.

Lemma insert_all_lookup l m k :
  NoDup l.*1 →
  insert_all l m !! k = (list_to_map l : gmap Z V) !! k ∪ m !! k.
Proof.
  revert m. induction l as [|[k' v'] l IH]; intros m Hnd; cbn.
  { by rewrite lookup_empty, (left_id_L None _). }
  apply NoDup_cons in Hnd as [Hk' Hnd].
  change (insert_all l (<[k':=v']> m) !! k = <[k':=v']> (list_to_map l : gmap Z V) !! k ∪ m !! k).
  rewrite IH by done. destruct (decide (k' = k)) as [->|Hne].
  - rewrite !lookup_insert_eq, not_elem_of_list_to_map_1 by done. by destruct (m !! k).
  - by rewrite !lookup_insert_ne by done.
Qed.
Lemma insert_all_bt_iter m : insert_all (bt_iter m) ∅ = m.
Proof.
  apply map_eq. intros k. rewrite insert_all_lookup by apply bt_iter_NoDup_keys.
  rewrite lookup_empty, (right_id_L None _).
  rewrite (list_to_map_proper _ (map_to_list m)); [by rewrite list_to_map_to_list| |].
  - apply bt_iter_NoDup_keys.
  - apply bt_iter_perm.
Qed.

Lemma upsert_list_lookup (f : option V → V → V) l m k :
  NoDup l.*1 →
  foldl (λ m '(k, v), <[k := f (m !! k) v]> m) m l !! k
  = match (list_to_map l : gmap Z V) !! k with
    | Some v => Some (f (m !! k) v) | None => m !! k end.
Proof.
  revert m. induction l as [|[k' v'] l IH]; intros m0 Hnd; cbn.
  { by rewrite lookup_empty. }
  apply NoDup_cons in Hnd as [Hk' Hnd]. rewrite IH by done.
  destruct (decide (k' = k)) as [->|Hne].
  - rewrite !lookup_insert_eq, not_elem_of_list_to_map_1 by done. done.
  - by rewrite !lookup_insert_ne by done.
Qed.
(** The merge loop [for (k, v) in other { *self.entry(k) = f(old, v) }]. *)
Lemma upsert_all_lookup (f : option V → V → V) m m' k :
  foldl (λ m '(k, v), <[k := f (m !! k) v]> m) m (bt_iter m') !! k
  = match m' !! k with Some v => Some (f (m !! k) v) | None => m !! k end.
Proof.
  rewrite upsert_list_lookup by apply bt_iter_NoDup_keys.
  rewrite (list_to_map_proper _ (map_to_list m')); [by rewrite list_to_map_to_list| |].
  - apply bt_iter_NoDup_keys.
  - apply bt_iter_perm.
Qed.
(** Loops over the entries of a map that rewrite some of them in place. *)
Lemma update_list_lookup (upd : Z → V → option V) (l : list (Z * V)) m k :
  NoDup l.*1 →
  foldl (λ m '(k, v), match upd k v with Some w => <[k := w]> m | None => m end) m l !! k
  = match (list_to_map l : gmap Z V) !! k with
    | Some v => match upd k v with Some w => Some w | None => m !! k end
    | None => m !! k
    end.
Proof.
  revert m. induction l as [|[k0 v0] l IH]; intros m Hnd; [by rewrite list_to_map_nil, lookup_empty|].
  rewrite fmap_cons in Hnd. apply NoDup_cons in Hnd as [Hk0 Hnd]. cbn [foldl fst] in *.
  rewrite IH, list_to_map_cons by done. destruct (decide (k0 = k)) as [->|Hne].
  - rewrite not_elem_of_list_to_map_1, lookup_insert_eq by done.
    destruct (upd k v0); [by rewrite lookup_insert_eq|done].
  - rewrite lookup_insert_ne by done. destruct ((list_to_map l : gmap Z V) !! k); [destruct (upd k v)|];
      try done; destruct (upd k0 v0); by rewrite ?lookup_insert_ne.
Qed.
Lemma list_to_map_bt_iter m : list_to_map (bt_iter m) = m.
Proof.
  rewrite (list_to_map_proper _ (map_to_list m)); [apply list_to_map_to_list| |].
  - apply bt_iter_NoDup_keys.
  - apply bt_iter_perm.
Qed.
Lemma update_bt_lookup (upd : Z → V → option V) m k :
  foldl (λ m '(k, v), match upd k v with Some w => <[k := w]> m | None => m end) m (bt_iter m) !! k
  = (λ v, default v (upd k v)) <$> m !! k.
Proof.
  rewrite update_list_lookup, list_to_map_bt_iter by apply bt_iter_NoDup_keys.
  destruct (m !! k) as [v|]; [|done]. cbn. by destruct (upd k v).
Qed.
Lemma elem_of_filter_keys (P : Z * V → Prop) `{!∀ e, Decision (P e)} m k :
  k ∈ (filter P (bt_iter m)).*1 ↔ ∃ v, m !! k = Some v ∧ P (k, v).
Proof.
  rewrite list_elem_of_fmap. setoid_rewrite list_elem_of_filter. split.
  - intros ([k' v] & -> & HP & Hin%elem_of_bt_iter). eauto.
  - intros (v & Hv & HP). exists (k, v). split; [done|]. split; [done|]. by apply elem_of_bt_iter.
Qed.
End bt_iter.

Lemma delete_all_lookup {K V} `{Countable K} (l : list K) (m : gmap K V) k :
  foldl (λ m id, delete id m) m l !! k = if decide (k ∈ l) then None else m !! k.
Proof.
  revert m. induction l as [|i l IH]; intros m; cbn; [by rewrite decide_False by set_solver|].
  rewrite IH. destruct (decide (k ∈ l)); [by rewrite decide_True by set_solver|].
  destruct (decide (k = i)) as [->|].
  - by rewrite lookup_delete_eq, decide_True by set_solver.
  - by rewrite lookup_delete_ne, decide_False by set_solver.
Qed.

(** The [no_std] build iterates in key order. *)
#[export] Instance btree_order : MapOrder Z := {
  map_iter := @bt_iter;
  map_iter_perm := @bt_iter_perm
}.

Lemma elem_of_map_iter {K V} `{MapOrder K} (m : gmap K V) k v :
  (k, v) ∈ map_iter m ↔ m !! k = Some v.
Proof. rewrite map_iter_perm. apply elem_of_map_to_list. Qed.
Lemma map_iter_NoDup_keys {K V} `{MapOrder K} (m : gmap K V) : NoDup (map_iter m).*1.
Proof. rewrite map_iter_perm. apply NoDup_fst_map_to_list. Qed.
Lemma length_map_iter {K V} `{MapOrder K} (m : gmap K V) : length (map_iter m) = size m.
Proof. rewrite map_iter_perm. apply length_map_to_list. Qed.
(** Texts, compared as byte lists: some order of the [std] hash maps. *)
#[export] Instance text_order : MapOrder (list Z) := {
  map_iter _ m := map_to_list m;
  map_iter_perm _ m := reflexivity (map_to_list m)
}.

Section map_iter.
Context `{!MapOrder Z} {V : Type}.
Implicit Types (m : gmap Z V).

Lemma insert_all_map_iter m : insert_all (map_iter m) ∅ = m.
Proof.
  apply map_eq. intros k. rewrite insert_all_lookup by apply map_iter_NoDup_keys.
  rewrite lookup_empty, (right_id_L None _).
  rewrite (list_to_map_proper _ (map_to_list m)); [by rewrite list_to_map_to_list| |].
  - apply map_iter_NoDup_keys.
  - apply map_iter_perm.
Qed.
Lemma upsert_all_iter_lookup (f : option V → V → V) m m' k :
  foldl (λ m '(k, v), <[k := f (m !! k) v]> m) m (map_iter m') !! k
  = match m' !! k with Some v => Some (f (m !! k) v) | None => m !! k end.
Proof.
  rewrite upsert_list_lookup by apply map_iter_NoDup_keys.
  rewrite (list_to_map_proper _ (map_to_list m')); [by rewrite list_to_map_to_list| |].
  - apply map_iter_NoDup_keys.
  - apply map_iter_perm.
Qed.
End map_iter.

(** ** Keys as text *)

Lemma hex_digit_inj a b : 0 ≤ a < 16 → 0 ≤ b < 16 → hex_digit a = hex_digit b → a = b.
Proof. unfold hex_digit. destruct (a <? 10) eqn:?, (b <? 10) eqn:?; lia. Qed.
Lemma hex8_length n : length (hex8 n) = 8%nat.
Proof. done. Qed.
Lemma nibble_up a b k :
  0 ≤ k → a / 16 ^ (k + 1) = b / 16 ^ (k + 1) → a / 16 ^ k mod 16 = b / 16 ^ k mod 16 →
  a / 16 ^ k = b / 16 ^ k.
Proof.
  intros Hk Hd Hm. assert (0 < 16 ^ k) by (apply Z.pow_pos_nonneg; lia).
  rewrite (Z.div_mod (a / 16 ^ k) 16), (Z.div_mod (b / 16 ^ k) 16), Hm by lia.
  rewrite !Z.div_div by lia. rewrite Z.pow_add_r, Z.pow_1_r in Hd by lia. by rewrite Hd.
Qed.
Lemma hex8_inj a b : in_u 32 a → in_u 32 b → hex8 a = hex8 b → a = b.
Proof.
  intros Ha Hb H.
  assert (∀ k, k ∈ [7; 6; 5; 4; 3; 2; 1; 0] → a / 16 ^ k mod 16 = b / 16 ^ k mod 16) as Hn.
  { intros k Hk. apply hex_digit_inj; try (apply Z.mod_pos_bound; lia).
    unfold hex8 in H. cbn [map] in H. injection H.
    rewrite !elem_of_cons, elem_of_nil in Hk. intuition congruence. }
  clear H.
  assert (a / 16 ^ 8 = b / 16 ^ 8) as H8 by (rewrite !Z.div_small by lia; done).
  rewrite <-(Z.div_1_r a), <-(Z.div_1_r b). change 1 with (16 ^ 0).
  do 8 (apply nibble_up; [lia| |apply Hn; set_solver]). exact H8.
Qed.
Lemma hex_value_digit d : 0 ≤ d < 16 → hex_value (hex_digit d) = Some d.
Proof.
  intros Hd. unfold hex_value, hex_digit, between.
  destruct (Z.ltb_spec d 10).
  - rewrite (proj2 (andb_true_iff _ _)); [f_equal; lia|]. split; apply Z.leb_le; lia.
  - rewrite (proj2 (andb_false_iff _ _)) by (right; apply Z.leb_gt; lia).
    rewrite (proj2 (andb_true_iff _ _)); [f_equal; lia|]. split; apply Z.leb_le; lia.
Qed.
Lemma hex_digit_not d c : 0 ≤ d < 16 → c < 48 → hex_digit d ≠ c.
Proof. unfold hex_digit. destruct (_ <? _) eqn:E; lia. Qed.
Lemma hex_digits_nil w acc : hex_digits w [] acc = Some acc.
Proof. done. Qed.
Lemma hex_digits_cons w d s acc n :
  0 ≤ d < 16 → acc * 16 + d = n → n < 2 ^ w →
  hex_digits w (hex_digit d :: s) acc = hex_digits w s n.
Proof.
  intros Hd <- Hn. cbn [hex_digits]. rewrite hex_value_digit by done.
  by rewrite (proj2 (Z.ltb_lt _ _)).
Qed.
Lemma from_hex_digits w d s :
  0 ≤ d < 16 → from_hex w (hex_digit d :: s) = hex_digits w (hex_digit d :: s) 0.
Proof.
  intros Hd. unfold from_hex. by rewrite (proj2 (Z.eqb_neq _ _)) by (by apply hex_digit_not).
Qed.
Lemma hex_prefix n k : 0 ≤ k → n / 16 ^ (k + 1) * 16 + n / 16 ^ k mod 16 = n / 16 ^ k.
Proof.
  intros Hk. rewrite Z.pow_add_r, <-Z.div_div by lia. change (16 ^ 1) with 16.
  pose proof (Z.div_mod (n / 16 ^ k) 16). lia.
Qed.
Lemma from_hex_hex8 n : in_u 32 n → from_hex 32 (hex8 n) = Some n.
Proof.
  intros Hn. assert (∀ k, 0 ≤ n / 16 ^ k mod 16 < 16) by (intros; apply Z.mod_pos_bound; lia).
  assert (∀ k, 0 ≤ k → n / 16 ^ k < 2 ^ 32).
  { intros k Hk. apply Z.le_lt_trans with n; [|lia]. apply Z.div_le_upper_bound; [lia|].
    assert (1 ≤ 16 ^ k) by (pose proof (Z.pow_pos_nonneg 16 k); lia). nia. }
  unfold hex8. cbn [map]. rewrite from_hex_digits by done.
  rewrite (hex_digits_cons _ _ _ _ (n / 16 ^ 7)), (hex_digits_cons _ _ _ _ (n / 16 ^ 6)),
    (hex_digits_cons _ _ _ _ (n / 16 ^ 5)), (hex_digits_cons _ _ _ _ (n / 16 ^ 4)),
    (hex_digits_cons _ _ _ _ (n / 16 ^ 3)), (hex_digits_cons _ _ _ _ (n / 16 ^ 2)),
    (hex_digits_cons _ _ _ _ (n / 16 ^ 1)), (hex_digits_cons _ _ _ _ (n / 16 ^ 0));
    try done; auto with lia;
    try match goal with
    | |- _ + (n / 16 ^ ?k) mod 16 = n / 16 ^ ?k => exact (hex_prefix n k ltac:(lia))
    end.
  - rewrite hex_digits_nil. f_equal. apply Z.div_1_r.
  - change (n / 16 ^ 7 mod 16 = n / 16 ^ 7). apply Z.mod_small. split.
    + apply Z.div_pos; lia.
    + apply Z.div_lt_upper_bound; lia.
Qed.
Lemma split_once_first c p s : c ∉ p → split_once c (p ++ c :: s) = Some (p, s).
Proof.
  intros Hp. unfold split_once.
  rewrite list_find_app_r by (apply list_find_None, Forall_forall; intros x Hx ->; done).
  cbn [list_find]. rewrite decide_True by done. cbn -[drop].
  replace (length p + 0)%nat with (length p) by lia. rewrite take_app_length.
  by rewrite <-(Nat.add_1_r (length p)), drop_app_add.
Qed.
Lemma rfind_last c p s : c ∉ s → rfind c (p ++ c :: s) = Some (zlen p).
Proof.
  intros Hs. unfold rfind. rewrite reverse_app, reverse_cons, <-app_assoc.
  rewrite list_find_app_r by (apply list_find_None, Forall_forall;
    intros x Hx ->; by apply Hs, elem_of_reverse).
  cbn [app list_find]. rewrite decide_True by done. cbn. f_equal. rewrite length_reverse. len.
Qed.
Lemma strip_prefix_app p s : strip_prefix p (p ++ s) = Some s.
Proof.
  unfold strip_prefix. rewrite take_app_length, drop_app_length. by rewrite bool_decide_true.
Qed.
Lemma dec_u8_inj a b : byte_ok a → byte_ok b → dec_u8 a = dec_u8 b → a = b.
Proof.
  intros Ha Hb. unfold dec_u8.
  destruct (a <? 10) eqn:?, (a <? 100) eqn:?, (b <? 10) eqn:?, (b <? 100) eqn:?;
    intros [=]; Z.to_euclidean_division_equations; lia.
Qed.

(** ** Sums *)

Fixpoint zsum (l : list Z) : Z := match l with [] => 0 | x :: l => x + zsum l end.

#[export] Instance zsum_proper : Proper ((≡ₚ) ==> (=)) zsum.
Proof. intros l l' Hl. induction Hl; cbn in *; lia. Qed.
Lemma zsum_nonneg l : Forall (Z.le 0) l → 0 ≤ zsum l.
Proof. induction 1; cbn in *; lia. Qed.
Lemma zsum_app l l' : zsum (l ++ l') = zsum l + zsum l'.
Proof. induction l; cbn in *; lia. Qed.

Lemma sum_u_spec w l :
  0 ≤ w → Forall (Z.le 0) l →
  sum_u w l = if zsum l <? 2 ^ w then Ok (zsum l) else Panic.
Proof.
  intros Hw. unfold sum_u.
  assert (∀ l, foldl (λ acc x, let! a := acc in add_u w a x) Panic l = Panic) as Hp
    by (clear l; by induction l).
  assert (∀ l n, n < 2 ^ w → Forall (Z.le 0) l →
    foldl (λ acc x, let! a := acc in add_u w a x) (Ok n) l
    = if n + zsum l <? 2 ^ w then Ok (n + zsum l) else Panic) as Hl.
  { clear l. induction l as [|x l IH]; intros n Hn Hl; cbn.
    { rewrite Z.add_0_r. by rewrite (proj2 (Z.ltb_lt n (2 ^ w))). }
    apply Forall_cons in Hl as [Hx Hl]. pose proof (zsum_nonneg _ Hl).
    unfold add_u at 2. destruct (n + x <? 2 ^ w) eqn:E.
    - rewrite IH by (done || lia). by rewrite Z.add_assoc.
    - rewrite Hp. symmetry. by rewrite (proj2 (Z.ltb_ge _ (2 ^ w))) by lia. }
  intros. apply Hl; [|done]. by apply Z.pow_pos_nonneg.
Qed.

(** ** Convergence of state-based CRDTs, from the interface alone *)

Section convergence.
Context {A : Type} {valid : A → Prop} {join : A → A → A}.
Context `{!JoinCrdt A valid join}.

Lemma replay_valid s us :
  valid s → (∀ u, u ∈ us → valid u) → valid (foldl join s us).
Proof.
  revert s. induction us as [|u us IH]; intros s Hs Hus; [done|]. cbn.
  apply IH; [|set_solver]. apply join_valid; set_solver.
Qed.

(** [foldl join s us] is an upper bound of [s] and of every update ... *)
Lemma replay_upper s us u :
  valid s → (∀ u, u ∈ us → valid u) → u = s ∨ u ∈ us →
  join u (foldl join s us) = foldl join s us.
Proof.
  revert s u. induction us as [|u' us IH]; intros s u Hs Hus Hu; cbn.
  { destruct Hu as [->|Hu]; [by apply join_idem|set_solver]. }
  assert (valid u') as Hu' by set_solver.
  assert (valid (join s u')) as Hsu' by (by apply join_valid).
  assert (∀ x, x ∈ us → valid x) as Hus' by set_solver.
  pose proof (replay_valid _ _ Hsu' Hus') as Hr.
  assert (join (join s u') (foldl join (join s u') us) = foldl join (join s u') us) as Hle
    by (apply IH; auto).
  destruct Hu as [->|Hu].
  - rewrite <-Hle, join_assoc, (join_assoc s s u'), join_idem by auto. done.
  - apply elem_of_cons in Hu as [->|Hu]; [|apply IH; auto].
    rewrite <-Hle, join_assoc by auto. f_equal.
    rewrite (join_comm s u'), join_assoc, join_idem by auto. done.
Qed.

(** ... and the least one. *)
Lemma replay_least s us z :
  valid s → valid z → (∀ u, u ∈ us → valid u) →
  join s z = z → (∀ u, u ∈ us → join u z = z) →
  join (foldl join s us) z = z.
Proof.
  revert s. induction us as [|u us IH]; intros s Hs Hz Hus Hsz Huz; [done|]. cbn.
  apply IH; try set_solver. { apply join_valid; set_solver. }
  rewrite <-join_assoc by set_solver. rewrite Huz by set_solver. done.
Qed.

(** Strong eventual consistency: replicas that start equal and receive
    the same set of states, in any order and any number of times, agree. *)
Lemma replay_converges s us us' :
  valid s → (∀ u, u ∈ us → valid u) → (∀ u, u ∈ us ↔ u ∈ us') →
  foldl join s us = foldl join s us'.
Proof.
  intros Hs Hus Hiff. assert (∀ u, u ∈ us' → valid u) as Hus' by set_solver.
  assert (∀ us1 us2, (∀ u, u ∈ us1 → valid u) → (∀ u, u ∈ us2 → valid u) →
    (∀ u, u ∈ us1 → u ∈ us2) →
    join (foldl join s us1) (foldl join s us2) = foldl join s us2) as Hle.
  { intros us1 us2 H1 H2 H12. apply replay_least; auto using replay_valid.
    - apply replay_upper; auto.
    - intros u Hu. apply replay_upper; auto. }
  rewrite <-(Hle us us') by set_solver.
  rewrite join_comm by (apply replay_valid; done).
  symmetry. apply Hle; set_solver.
Qed.

(** *** The order of a join *)

Definition below (a b : A) : Prop := join a b = b.
Lemma below_trans a b c : valid a → valid b → valid c → below a b → below b c → below a c.
Proof. unfold below. intros ??? Hab Hbc. by rewrite <-Hbc, join_assoc, Hab by done. Qed.
Lemma below_antisym a b : valid a → valid b → below a b → below b a → a = b.
Proof. unfold below. intros ?? Hab Hba. by rewrite <-Hba, join_comm. Qed.
Lemma below_join_l a b : valid a → valid b → below a (join a b).
Proof. unfold below. intros. by rewrite join_assoc, join_idem. Qed.
Lemma below_join_r a b : valid a → valid b → below b (join a b).
Proof. intros. rewrite join_comm by done. by apply below_join_l. Qed.
Lemma join_below a b c : valid a → valid b → valid c → below a c → below b c → below (join a b) c.
Proof. unfold below. intros ??? Ha Hb. by rewrite <-join_assoc, Hb. Qed.
End convergence.

(** Products and options of CRDTs; [None] is a least element. *)
Definition prod_join {A B} (ja : A → A → A) (jb : B → B → B) (p q : A * B) : A * B :=
  (ja p.1 q.1, jb p.2 q.2).
Definition option_join {A} (j : A → A → A) (o o' : option A) : option A :=
  match o, o' with
  | Some a, Some b => Some (j a b)
  | Some a, None => Some a
  | None, o' => o'
  end.

#[export] Instance prod_join_crdt {A B} va vb (ja : A → A → A) (jb : B → B → B)
    `{!JoinCrdt A va ja, !JoinCrdt B vb jb} :
  JoinCrdt (A * B) (λ p, va p.1 ∧ vb p.2) (prod_join ja jb).
Proof.
  unfold prod_join. split.
  - intros [] [] [] []. cbn in *. split; by apply join_valid.
  - intros [] []. cbn in *. by rewrite !join_idem.
  - intros [] [] [] []. cbn in *. f_equal; by apply join_comm.
  - intros [] [] [] [] [] []. cbn in *. f_equal; by apply join_assoc.
Qed.
#[export] Instance option_join_crdt {A} va (j : A → A → A) `{!JoinCrdt A va j} :
  JoinCrdt (option A) (λ o, ∀ a, o = Some a → va a) (option_join j).
Proof.
  split.
  - intros [a|] [b|] Ha Hb x; cbn; intros [= <-]; auto. apply join_valid; auto.
  - intros [a|] Ha; cbn; [|done]. f_equal. apply join_idem; auto.
  - intros [a|] [b|] Ha Hb; cbn; try done. f_equal. apply join_comm; auto.
  - intros [a|] [b|] [c|] Ha Hb Hc; cbn; try done. f_equal. apply join_assoc; auto.
Qed.

Lemma max_by_spec {A} (leb : A → A → bool) (l : list A) :
  (∀ x y, leb x y = true ∨ leb y x = true) →
  (∀ x y z, leb x y = true → leb y z = true → leb x z = true) →
  match max_by leb l with
  | None => l = []
  | Some m => m ∈ l ∧ ∀ x, x ∈ l → leb x m = true
  end.
Proof.
  intros Htot Htrans. unfold max_by.
  assert (∀ x, leb x x = true) as Hrefl by (intros x; by destruct (Htot x x)).
  assert (∀ l y, ∃ m, foldl (λ acc x, match acc with None => Some x
    | Some y => if leb y x then Some x else Some y end) (Some y) l = Some m
    ∧ m ∈ y :: l ∧ ∀ x, x ∈ y :: l → leb x m = true) as Hgen.
  { clear l. induction l as [|z l IH]; intros y; cbn [foldl].
    - exists y. split_and!; [done|by left|]. intros x ->%list_elem_of_singleton. done.
    - destruct (leb y z) eqn:Hyz; [destruct (IH z) as (m & -> & Hm & Hmax)|
        destruct (IH y) as (m & -> & Hm & Hmax)]; exists m; (split_and!; [done|set_solver|]);
        intros x [->|[->|Hx]%elem_of_cons]%elem_of_cons.
      + eapply Htrans; [exact Hyz|]. apply Hmax. by left.
      + apply Hmax. by left.
      + apply Hmax. by right.
      + apply Hmax. by left.
      + destruct (Htot y z) as [?|Hzy]; [congruence|]. eapply Htrans; [exact Hzy|].
        apply Hmax. by left.
      + apply Hmax. by right. }
  destruct l as [|y l]; [done|]. cbn [foldl]. by destruct (Hgen l y) as (m & -> & ?).
Qed.
(** Invariant of a left fold. *)
Lemma foldl_inv {A B} (P : A → Prop) (f : A → B → A) a l :
  P a → (∀ a x, x ∈ l → P a → P (f a x)) → P (foldl f a l).
Proof.
  revert a. induction l as [|x l IH]; intros a Ha Hf; cbn; [done|].
  apply IH; [apply Hf; set_solver|]. intros. apply Hf; set_solver.
Qed.

Lemma foldl_push {A} (acc l : list A) : foldl (λ l x, l ++ [x]) acc l = acc ++ l.
Proof.
  revert acc. induction l as [|x l IH]; intros acc; cbn; [by rewrite app_nil_r|].
  by rewrite IH, <-app_assoc.
Qed.
Lemma map_const {A B} (b : B) (l : list A) : map (λ _, b) l = replicate (length l) b.
Proof. induction l; cbn; congruence. Qed.
(** Appending the results of fallible encoders. *)
Lemma foldl_encode {E} (enc : E → outcome (list Z)) (wire : E → list Z) l buf :
  (∀ e, e ∈ l → enc e = Ok (wire e)) →
  foldl (λ acc e, let! buf := acc in let! bytes := enc e in Ok (buf ++ bytes)) (Ok buf) l
  = Ok (buf ++ flat_map wire l).
Proof.
  revert buf. induction l as [|e l IH]; intros buf Hl; cbn; [by rewrite app_nil_r|].
  rewrite Hl by set_solver. cbn [obind]. rewrite IH by set_solver. by rewrite <-app_assoc.
Qed.

(** ** Symbolic execution of a decoder on encoded data *)

(** A loop that reads back a sequence of encoded elements. *)
Lemma for_range_entries {E T} (enc : E → list Z) (step : T → E → T)
    (body : Z → T * Z → outcome (T * Z)) n l pre suf data i s off :
  n = length l → off = zlen pre →
  data = pre ++ flat_map enc l ++ suf →
  (∀ e p q i s, e ∈ l → data = p ++ enc e ++ q →
    body i (s, zlen p) = Ok (step s e, zlen p + zlen (enc e))) →
  for_range n i body (s, off) = Ok (foldl step s l, off + zlen (flat_map enc l)).
Proof.
  intros -> ->. revert pre i s. induction l as [|e l IH]; intros pre i s Hdata Hbody; cbn.
  { by rewrite Z.add_0_r. }
  cbn in Hdata. rewrite <-app_assoc in Hdata.
  rewrite (Hbody e pre (flat_map enc l ++ suf)) by (set_solver || done). cbn [obind].
  replace (zlen pre + zlen (enc e)) with (zlen (pre ++ enc e)) by len.
  rewrite IH.
  - do 2 f_equal. len.
  - by rewrite Hdata, <-app_assoc.
  - intros. eapply Hbody; [set_solver|done].
Qed.

Lemma u_at_skip_le n m x q off :
  0 ≤ m → m ≤ off → u_at n (le m x ++ q) off = u_at n q (off - m).
Proof. intros. rewrite u_at_skip by (rewrite zlen_le; lia). by rewrite zlen_le. Qed.
Lemma slice_skip_le m x q a b :
  0 ≤ m → m ≤ a → slice (le m x ++ q) a b = slice q (a - m) (b - m).
Proof. intros. rewrite slice_skip by (rewrite zlen_le; lia). by rewrite zlen_le. Qed.
Lemma slice_cons x q a b : 1 ≤ a → slice (x :: q) a b = slice q (a - 1) (b - 1).
Proof. intros. change (x :: q) with ([x] ++ q). by rewrite slice_skip by len. Qed.

Lemma slice_from_skip p q a : zlen p ≤ a → slice_from (p ++ q) a = slice_from q (a - zlen p).
Proof.
  intros. unfold slice_from. rewrite slice_skip by lia. f_equal. len.
Qed.
Lemma slice_from_skip_le m x q a :
  0 ≤ m → m ≤ a → slice_from (le m x ++ q) a = slice_from q (a - m).
Proof. intros. rewrite slice_from_skip by (rewrite zlen_le; lia). by rewrite zlen_le. Qed.
Lemma slice_from_cons x q a : 1 ≤ a → slice_from (x :: q) a = slice_from q (a - 1).
Proof. intros. change (x :: q) with ([x] ++ q). by rewrite slice_from_skip by len. Qed.
Lemma slice_from_0 q : slice_from q 0 = Ok q.
Proof. unfold slice_from. by apply slice_all. Qed.

(** Normalise the offsets left by the [_skip] lemmas. *)
Ltac off_norm :=
  repeat match goal with
  | |- context [Z.sub (Zpos ?a) (Zpos ?b)] =>
      let c := eval compute in (Z.sub (Zpos a) (Zpos b)) in
      change (Z.sub (Zpos a) (Zpos b)) with c
  | |- context [Z.add (Zpos ?a) (Zpos ?b)] =>
      let c := eval compute in (Z.add (Zpos a) (Zpos b)) in
      change (Z.add (Zpos a) (Zpos b)) with c
  | H : zlen ?p = Zpos _ |- context [?k - zlen ?p] => rewrite H
  | |- context [zlen ?p - zlen ?p] => rewrite (Z.sub_diag (zlen p))
  | |- context [zlen ?p + ?k - zlen ?p] =>
      replace (zlen p + k - zlen p) with k by lia
  | |- context [Z.add 0 ?x] => change (Z.add 0 x) with x
  end.
Ltac rd_side := first [assumption | lia | len].
Ltac bdec :=
  first [apply Z.ltb_ge | apply Z.ltb_lt | apply Z.leb_gt | apply Z.leb_le
        | apply Z.eqb_neq | apply Z.eqb_eq];
  first [assumption | len].
Ltac rd_step :=
  first
  [ rewrite u_at_here by rd_side
  | rewrite u_at_end by rd_side
  | rewrite u8_at_here by rd_side
  | rewrite u_at_skip_le by rd_side
  | rewrite u_at_cons by rd_side
  | rewrite u_at_skip by rd_side
  | rewrite slice_from_0
  | rewrite slice_from_skip_le by rd_side
  | rewrite slice_from_cons by rd_side
  | rewrite slice_from_skip by rd_side
  | rewrite slice_here by rd_side
  | rewrite slice_all by rd_side
  | rewrite slice_skip_le by rd_side
  | rewrite slice_cons by rd_side
  | rewrite slice_skip by rd_side
  | match goal with
    | |- context [if ?b then Fail else _] => replace b with false by (symmetry; bdec)
    | |- context [u_at _ _ ?o] =>
        assert_fails (constr_eq o 0); replace o with 0 by rd_side
    | |- context [slice _ ?o _] =>
        assert_fails (constr_eq o 0); replace o with 0 by rd_side
    end ];
  off_norm; cbn [obind opt].
Ltac rd := cbn [obind opt]; repeat rd_step.

Lemma zlen_flat_map {E} (f : E → list Z) w l :
  (∀ e, e ∈ l → zlen (f e) = w) → zlen (flat_map f l) = w * zlen l.
Proof.
  induction l as [|e l IH]; intros Hf; cbn [flat_map]; [cbn; lia|].
  pose proof (Hf e ltac:(set_solver)). specialize (IH ltac:(set_solver)). len.
Qed.
Lemma bytes_flat_map {E} (f : E → list Z) l :
  (∀ e, e ∈ l → bytes_ok (f e)) → bytes_ok (flat_map f l).
Proof.
  induction l as [|e l IH]; intros Hf; cbn [flat_map]; [constructor|].
  apply Forall_app; split; [|apply IH]; set_solver.
Qed.
Lemma wrap_small w x : in_u w x → wrap w x = x.
Proof. apply Z.mod_small. Qed.
Lemma wrap_bound w x : 0 ≤ w → in_u w (wrap w x).
Proof. intros. apply Z.mod_pos_bound, Z.pow_pos_nonneg; lia. Qed.
Lemma map_size_insert_le {V} k v (m : gmap Z V) : (size (<[k := v]> m) ≤ S (size m))%nat.
Proof. rewrite map_size_insert. destruct (m !! k); cbn; lia. Qed.
Lemma foldr_max_start x y l : foldr Z.max (Z.max x y) l = Z.max y (foldr Z.max x l).
Proof. induction l as [|z l IH]; cbn; lia. Qed.

(** Split boolean connectives in the hypotheses. *)
Ltac bool_hyps :=
  repeat match goal with
  | H : negb _ = false |- _ => apply negb_false_iff in H
  | H : negb _ = true |- _ => apply negb_true_iff in H
  | H : _ && _ = true |- _ => apply andb_true_iff in H as [? ?]
  | H : _ || _ = false |- _ => apply orb_false_iff in H as [? ?]
  end.

(** ** Big-endian fields *)

Lemma lor_shiftl_add a b k : 0 ≤ k → 0 ≤ b < 2 ^ k → Z.lor (Z.shiftl a k) b = a * 2 ^ k + b.
Proof.
  intros Hk Hb.
  assert (Z.land (Z.shiftl a k) b = 0) as H0.
  { apply Z.bits_inj'. intros n Hn. rewrite Z.land_spec, Z.bits_0.
    destruct (decide (n < k)).
    - by rewrite Z.shiftl_spec_low.
    - destruct (decide (b = 0)) as [->|]; [by rewrite Z.testbit_0_l, andb_false_r|].
      rewrite (Z.bits_above_log2 b n), andb_false_r; [done|lia|].
      apply Z.log2_lt_pow2; [lia|]. apply Z.lt_le_trans with (2 ^ k); [lia|].
      apply Z.pow_le_mono_r; lia. }
  pose proof (Z.add_lor_land (Z.shiftl a k) b) as H. rewrite H0, Z.add_0_r in H.
  by rewrite H, Z.shiftl_mul_pow2.
Qed.
Lemma be16_join x :
  in_u 16 x → Z.lor (Z.shiftl (wrap 8 (Z.shiftr x 8)) 8) (wrap 8 x) = x.
Proof.
  intros Hx. rewrite lor_shiftl_add by (lia || by apply (wrap_bound 8)).
  rewrite Z.shiftr_div_pow2 by lia. unfold wrap.
  change (2 ^ 16) with 65536 in Hx. change (2 ^ 8) with 256.
  Z.to_euclidean_division_equations. lia.
Qed.
Lemma be32_join x :
  in_u 32 x →
  Z.lor (Z.lor (Z.lor (Z.shiftl (wrap 8 (Z.shiftr x 24)) 24) (Z.shiftl (wrap 8 (Z.shiftr x 16)) 16))
    (Z.shiftl (wrap 8 (Z.shiftr x 8)) 8)) (wrap 8 x) = x.
Proof.
  intros Hx. pose proof (wrap_bound 8 (Z.shiftr x 16) ltac:(lia)).
  pose proof (wrap_bound 8 (Z.shiftr x 8) ltac:(lia)).
  pose proof (wrap_bound 8 x ltac:(lia)).
  change (2 ^ 8) with 256 in *.
  rewrite (lor_shiftl_add _ (Z.shiftl _ 16) 24) by (rewrite ?Z.shiftl_mul_pow2 by lia; lia).
  rewrite (Z.shiftl_mul_pow2 _ 16) by lia.
  replace (wrap 8 (Z.shiftr x 24) * 2 ^ 24 + wrap 8 (Z.shiftr x 16) * 2 ^ 16)
    with (Z.shiftl (wrap 8 (Z.shiftr x 24) * 256 + wrap 8 (Z.shiftr x 16)) 16)
    by (rewrite Z.shiftl_mul_pow2 by lia; lia).
  rewrite (lor_shiftl_add _ (Z.shiftl _ 8) 16) by (rewrite ?Z.shiftl_mul_pow2 by lia; lia).
  rewrite (Z.shiftl_mul_pow2 _ 8) by lia.
  replace ((wrap 8 (Z.shiftr x 24) * 256 + wrap 8 (Z.shiftr x 16)) * 2 ^ 16
           + wrap 8 (Z.shiftr x 8) * 2 ^ 8)
    with (Z.shiftl ((wrap 8 (Z.shiftr x 24) * 256 + wrap 8 (Z.shiftr x 16)) * 256
           + wrap 8 (Z.shiftr x 8)) 8)
    by (rewrite Z.shiftl_mul_pow2 by lia; lia).
  rewrite lor_shiftl_add by lia. unfold wrap in *. rewrite !Z.shiftr_div_pow2 by lia.
  change (2 ^ 32) with 4294967296 in Hx. change (2 ^ 24) with 16777216.
  change (2 ^ 16) with 65536. change (2 ^ 8) with 256.
  clear -Hx. Z.to_euclidean_division_equations. lia.
Qed.
Lemma zlen_be16 x : zlen (be16 x) = 2.
Proof. done. Qed.
Lemma zlen_be32 x : zlen (be32 x) = 4.
Proof. done. Qed.
Lemma be16_here x q : in_u 16 x → be16_at (be16 x ++ q) 0 = Ok x.
Proof.
  intros Hx. unfold be16_at, be16. cbn [app].
  pose proof (wrap_bound 8 (Z.shiftr x 8) ltac:(lia)). pose proof (wrap_bound 8 x ltac:(lia)).
  rewrite u8_at_here by done. cbn [obind]. rewrite u_at_cons by lia.
  change (0 + 1 - 1) with 0. rewrite u8_at_here by done. cbn [obind]. by rewrite be16_join.
Qed.
Lemma be32_here x q : in_u 32 x → be32_at (be32 x ++ q) 0 = Ok x.
Proof.
  intros Hx. unfold be32_at, be32. cbn [app].
  pose proof (wrap_bound 8 (Z.shiftr x 24) ltac:(lia)).
  pose proof (wrap_bound 8 (Z.shiftr x 16) ltac:(lia)).
  pose proof (wrap_bound 8 (Z.shiftr x 8) ltac:(lia)). pose proof (wrap_bound 8 x ltac:(lia)).
  rd. by rewrite be32_join.
Qed.
Lemma be16_at_skip p q off : zlen p ≤ off → be16_at (p ++ q) off = be16_at q (off - zlen p).
Proof.
  intros. unfold be16_at. rewrite !u_at_skip by lia.
  by replace (off + 1 - zlen p) with (off - zlen p + 1) by lia.
Qed.
Lemma be16_at_cons b q off : 1 ≤ off → be16_at (b :: q) off = be16_at q (off - 1).
Proof. intros. change (b :: q) with ([b] ++ q). by rewrite be16_at_skip by len. Qed.
Lemma be32_at_skip p q off : zlen p ≤ off → be32_at (p ++ q) off = be32_at q (off - zlen p).
Proof.
  intros. unfold be32_at. rewrite !u_at_skip by lia.
  replace (off + 1 - zlen p) with (off - zlen p + 1) by lia.
  replace (off + 2 - zlen p) with (off - zlen p + 2) by lia.
  by replace (off + 3 - zlen p) with (off - zlen p + 3) by lia.
Qed.
Lemma be32_at_cons b q off : 1 ≤ off → be32_at (b :: q) off = be32_at q (off - 1).
Proof. intros. change (b :: q) with ([b] ++ q). by rewrite be32_at_skip by len. Qed.
Lemma be16_end x : in_u 16 x → be16_at (be16 x) 0 = Ok x.
Proof. intros. rewrite <-(app_nil_r (be16 x)). by apply be16_here. Qed.
Lemma be32_end x : in_u 32 x → be32_at (be32 x) 0 = Ok x.
Proof. intros. rewrite <-(app_nil_r (be32 x)). by apply be32_here. Qed.
Lemma wp_be16_at data off Q :
  0 ≤ off → off + 2 ≤ zlen data → bytes_ok data → (∀ x, in_u 16 x → Q x) →
  wp (be16_at data off) Q.
Proof.
  intros ??? HQ. unfold be16_at. apply wp_bind, wp_u_at; try done; try lia. intros a Ha.
  apply wp_bind, wp_u_at; try done; try lia. intros b Hb. apply wp_ok, HQ.
  rewrite lor_shiftl_add by lia. lia.
Qed.

(** [rd] for buffers with big-endian fields, kept folded. *)
Ltac be_rd :=
  repeat first
  [ rewrite be16_here by rd_side
  | rewrite be32_here by rd_side
  | rewrite be16_end by rd_side
  | rewrite be32_end by rd_side
  | rewrite be16_at_cons by rd_side; off_norm
  | rewrite be32_at_cons by rd_side; off_norm
  | rewrite be16_at_skip by rd_side; rewrite ?zlen_be16, ?zlen_be32; off_norm
  | rewrite be32_at_skip by rd_side; rewrite ?zlen_be16, ?zlen_be32; off_norm
  | rd_step ]; cbn [obind].

(** ** Fragmentation and reassembly *)

Lemma pieces_fuel_concat fuel n data :
  (0 < n)%nat → (length data ≤ fuel)%nat → concat (pieces_fuel fuel n data) = data.
Proof.
  intros Hn. revert data. induction fuel as [|fuel IH]; intros [|x data] Hf; cbn in *; try done; [lia|].
  destruct n as [|n]; [lia|]. cbn [take drop]. cbn. f_equal.
  rewrite IH by (rewrite length_drop; lia). apply take_drop.
Qed.
Lemma pieces_concat n data : 0 < n → concat (pieces n data) = data.
Proof. intros. apply pieces_fuel_concat; lia. Qed.

Lemma pieces_fuel_length fuel n data :
  (0 < n)%nat → (length data ≤ fuel)%nat →
  zlen (pieces_fuel fuel n data) = div_ceil (zlen data) (Z.of_nat n).
Proof.
  intros Hn. revert data. induction fuel as [|fuel IH]; intros [|x data] Hf; cbn [pieces_fuel].
  - unfold div_ceil. cbn. symmetry. apply Z.div_small. lia.
  - cbn in Hf. lia.
  - unfold div_ceil. cbn. symmetry. apply Z.div_small. lia.
  - rewrite length_cons_S, Nat2Z.inj_succ, IH by (rewrite length_drop; cbn in *; lia).
    rewrite length_drop. unfold div_ceil.
    destruct (decide (n ≤ length (x :: data))%nat).
    + rewrite <-Z.add_1_r, <-(Z.div_add _ 1) by lia. f_equal. lia.
    + replace (length (x :: data) - n)%nat with O by lia.
      rewrite Z.div_small by lia. cbn [length] in *.
      apply Z.div_unique with (zlen data); lia.
Qed.
Lemma pieces_length n data : 0 < n → zlen (pieces n data) = div_ceil (zlen data) n.
Proof. intros. unfold pieces. rewrite pieces_fuel_length by lia. f_equal. lia. Qed.

Lemma pieces_fuel_bounds fuel n data p :
  (0 < n)%nat → p ∈ pieces_fuel fuel n data → (1 ≤ length p ≤ n)%nat.
Proof.
  intros Hn. revert data. induction fuel as [|fuel IH]; intros [|x data]; cbn [pieces_fuel];
    try (by intros ?%elem_of_nil).
  intros [->|Hp]%elem_of_cons; [|by apply IH in Hp]. rewrite length_take. cbn. lia.
Qed.
Lemma pieces_bounds n data p : 0 < n → p ∈ pieces n data → 1 ≤ zlen p ≤ n.
Proof. intros Hn Hp. apply pieces_fuel_bounds in Hp; lia. Qed.

Lemma div_ceil_bound a b k : 0 < b → 0 ≤ a → div_ceil a b ≤ k ↔ a ≤ b * k.
Proof.
  intros. unfold div_ceil. split.
  - intros Hk. pose proof (Z.mul_succ_div_gt (a + b - 1) b). nia.
  - intros Hk. rewrite <-Z.lt_succ_r. apply Z.div_lt_upper_bound; lia.
Qed.

Lemma map_size_seqZ {A} (start : Z) (l : list A) :
  size (map_seqZ start l : gmap Z A) = length l.
Proof.
  revert start. induction l as [|x l IH]; intros start; [done|].
  rewrite map_seqZ_cons, map_size_insert_None by (rewrite lookup_map_seqZ_None; lia).
  by rewrite IH.
Qed.

(** All the pieces are there as soon as there are as many as announced. *)
Lemma parts_complete (parts : gmap Z (list Z)) (l : list (list Z)) :
  parts ⊆ map_seqZ 0 l → size parts = length l → parts = map_seqZ 0 l.
Proof. intros Hs Hn. apply map_subseteq_size_eq; [done|]. rewrite map_size_seqZ. lia. Qed.
Lemma parts_missing (parts : gmap Z (list Z)) (l : list (list Z)) i :
  parts ⊆ map_seqZ 0 l → parts !! i = None → 0 ≤ i < zlen l → size parts ≠ length l.
Proof.
  intros Hs Hi Hlt Hn. apply parts_complete in Hs; [|done]. subst.
  rewrite lookup_map_seqZ_None in Hi. lia.
Qed.

Lemma assemble_all (l : list (list Z)) n :
  n = zlen l → assemble n (map_seqZ 0 l) = Ok (concat l).
Proof.
  intros ->. unfold assemble. rewrite Nat2Z.id.
  assert (∀ l' (pre : list (list Z)) (m : gmap Z (list Z)) (acc : list Z), (∀ i, 0 ≤ i → m !! (zlen pre + i) = l' !! Z.to_nat i) →
    for_range (length l') (zlen pre) (λ i result,
      match m !! i with Some data => Ok (result ++ data) | None => Fail end) acc
    = Ok (acc ++ concat l')) as Hgen.
  { clear l. induction l' as [|x l' IH]; intros pre m acc Hm; cbn [for_range length concat].
    { by rewrite app_nil_r. }
    pose proof (Hm 0 ltac:(lia)) as H0. rewrite Z.add_0_r in H0.
    change ((x :: l') !! Z.to_nat 0) with (Some x) in H0. rewrite H0. cbn [obind].
    replace (zlen pre + 1) with (zlen (pre ++ [x])) by len.
    rewrite IH; [by rewrite <-app_assoc|]. intros i Hi.
    replace (zlen (pre ++ [x]) + i) with (zlen pre + (i + 1)) by len.
    rewrite Hm by lia. by replace (Z.to_nat (i + 1)) with (S (Z.to_nat i)) by lia. }
  apply (Hgen l [] (map_seqZ 0 l) []). intros i Hi. cbn. by apply lookup_map_seqZ_0.
Qed.

(** Discharge a decidable hypothesis at a concrete input. *)
Ltac by_decide := apply (bool_decide_unpack _); vm_compute; exact I.

(** Evaluate closed bit operations and comparisons. *)
Ltac zclosed :=
  repeat match goal with
  | |- context [Z.lor ?a ?b] =>
      let c := eval vm_compute in (Z.lor a b) in
      match c with Z0 => idtac | Zpos _ => idtac end; change (Z.lor a b) with c
  | |- context [Z.land ?a ?b] =>
      let c := eval vm_compute in (Z.land a b) in
      match c with Z0 => idtac | Zpos _ => idtac end; change (Z.land a b) with c
  | |- context [Z.eqb ?a ?b] =>
      let c := eval vm_compute in (Z.eqb a b) in
      match c with true => idtac | false => idtac end; change (Z.eqb a b) with c
  | |- context [Z.ltb ?a ?b] =>
      let c := eval vm_compute in (Z.ltb a b) in
      match c with true => idtac | false => idtac end; change (Z.ltb a b) with c
  end; cbn [negb andb orb].

Lemma add_u_small w x y : x + y < 2 ^ w → add_u w x y = Ok (x + y).
Proof. intros H. unfold add_u. by rewrite (proj2 (Z.ltb_lt _ _)). Qed.

(** ** Averages *)

Lemma to_i8_wrap x : -128 ≤ x < 128 → to_i8 (wrap 8 x) = x.
Proof.
  intros Hx. unfold to_i8, wrap. change (2 ^ 8) with 256.
  destruct (_ <? 128) eqn:E; Z.to_euclidean_division_equations; lia.
Qed.

Lemma sum_bounds lo hi h acc :
  Forall (λ r, lo ≤ r ≤ hi) h →
  acc + lo * zlen h ≤ foldl Z.add acc h ≤ acc + hi * zlen h.
Proof.
  intros Hh. revert acc. induction Hh as [|x h Hx Hh IH]; intros acc; cbn [foldl]; [cbn; lia|].
  specialize (IH (acc + x)). rewrite length_cons_S. lia.
Qed.
(** The truncated average of a list lies between its bounds. *)
Lemma mean_bounds lo hi h :
  h ≠ [] → Forall (λ r, lo ≤ r ≤ hi) h → lo ≤ Z.quot (foldl Z.add 0 h) (zlen h) ≤ hi.
Proof.
  intros Hne Hh. pose proof (sum_bounds lo hi _ 0 Hh) as [Hs1 Hs2].
  assert (0 < zlen h) by (destruct h; [done|cbn; lia]).
  set (n := zlen h) in *.
  pose proof (Z.quot_mul lo n ltac:(lia)). pose proof (Z.quot_mul hi n ltac:(lia)).
  pose proof (Z.quot_le_mono (lo * n) (foldl Z.add 0 h) n).
  pose proof (Z.quot_le_mono (foldl Z.add 0 h) (hi * n) n). lia.
Qed.
