(* ===== verification/Crdt.v ===== *)
(** * State-based CRDTs of src/src/sync/crdt.rs: [LwwRegister], [GCounter]
    and [EmergencyEvent], their merge functions and their wire formats. *)

From stdpp Require Import base numbers list gmap sorting.
From S2P Require Import Prelude.
Open Scope Z_scope.
Open Scope peat_scope.

Definition MIN_VALID_TIMESTAMP : Z := 1577836800000.
Definition MAX_BATTERY_PERCENT : Z := 100.
Definition MIN_HEART_RATE : Z := 20.
Definition MAX_HEART_RATE : Z := 250.
Definition MAX_EMERGENCY_ACKS : Z := 256.
Definition MAX_COUNTER_ENTRIES : Z := 256.

(** ** Last-writer-wins register *)

Module LwwRegister.

Record t (T : Type) := mk { value : T; timestamp : Z; node_id : Z }.
Arguments mk {T}.
Arguments value {T}.
Arguments timestamp {T}.
Arguments node_id {T}.

Section ops.
Context {T : Type}.
Implicit Types self other : t T.

Definition new (v : T) (ts n : Z) : t T := mk v ts n.

Definition should_update self (ts n : Z) : bool :=
  (timestamp self <? ts) || ((ts =? timestamp self) && (node_id self <? n)).

Definition set self (v : T) (ts n : Z) : t T * bool :=
  if should_update self ts n then (mk v ts n, true) else (self, false).

Definition merge self other : t T * bool :=
  if should_update self (timestamp other) (node_id other)
  then (mk (value other) (timestamp other) (node_id other), true)
  else (self, false).
End ops.

End LwwRegister.

(** ** Grow-only counter *)

Module GCounter.

Record t := mk { counts : gmap Z Z }.

Definition new : t := mk ∅.

(** [self.counts.values().sum()]: [u64] additions in key order. *)
Definition value (self : t) : outcome Z :=
  sum_u 64 (bt_iter (counts self)).*2.

Definition increment (self : t) (node_id amount : Z) : t :=
  let count := or_insert (counts self) node_id 0 in
  mk (<[node_id := saturating_add 64 count amount]> (counts self)).

Definition node_count (self : t) (node_id : Z) : Z := default 0 (counts self !! node_id).

Definition merge (self other : t) : t :=
  mk (foldl (λ m '(node_id, count),
        <[node_id := Z.max (or_insert m node_id 0) count]> m)
      (counts self) (bt_iter (counts other))).

Definition node_count_total (self : t) : Z := Z.of_nat (size (counts self)).

Definition entries (self : t) : list (Z * Z) := bt_iter (counts self).

Definition encode_entry (e : Z * Z) : list Z := le 4 e.1 ++ le 8 e.2.

Definition encode (self : t) : list Z :=
  le 4 (wrap 32 (Z.of_nat (size (counts self))))
  ++ flat_map encode_entry (bt_iter (counts self)).

Definition decode (data : list Z) : outcome t :=
  reject_if zlen data <? 4 ;;
  let! num_entries := u32_at data 0 in
  reject_if MAX_COUNTER_ENTRIES <? num_entries ;;
  reject_if zlen data <? 4 + num_entries * 12 ;;
  let! st := for_range (Z.to_nat num_entries) 0 (λ _ '(counts, offset),
      let! node_id := u32_at data offset in
      let! count := u64_at data (offset + 4) in
      let counts := if negb (node_id =? 0) then <[node_id := count]> counts else counts in
      Ok (counts, offset + 12)) (∅, 4) in
  Ok (mk st.1).

(** The [u32]/[u64] ranges of the keys and counts, and the bounds the
    decoder enforces. *)
Definition typed (self : t) : Prop :=
  map_Forall (λ k v, in_u 32 k ∧ in_u 64 v) (counts self).
Definition wf (self : t) : Prop :=
  typed self ∧ counts self !! 0 = None ∧
  Z.of_nat (size (counts self)) ≤ MAX_COUNTER_ENTRIES.

End GCounter.

(** ** Emergency event with distributed acknowledgements *)

Module EmergencyEvent.

Record t := mk { source_node : Z; timestamp : Z; acks : gmap Z bool }.

Definition new (source_node timestamp : Z) (known_peers : list Z) : t :=
  mk source_node timestamp
    (foldl (λ acks peer_id,
        if negb (peer_id =? source_node)
        then <[peer_id := or_insert acks peer_id false]> acks else acks)
      {[source_node := true]} known_peers).

Definition has_acked (self : t) (node_id : Z) : bool := default false (acks self !! node_id).

Definition ack (self : t) (node_id : Z) : t * bool :=
  let entry := or_insert (acks self) node_id false in
  if negb entry
  then (mk (source_node self) (timestamp self) (<[node_id := true]> (acks self)), true)
  else (mk (source_node self) (timestamp self) (<[node_id := entry]> (acks self)), false).

Definition add_peer (self : t) (node_id : Z) : t :=
  mk (source_node self) (timestamp self)
    (<[node_id := or_insert (acks self) node_id false]> (acks self)).

Definition acked_nodes (self : t) : list Z :=
  (filter (λ e : Z * bool, e.2 = true) (bt_iter (acks self))).*1.
Definition pending_nodes (self : t) : list Z :=
  (filter (λ e : Z * bool, e.2 = false) (bt_iter (acks self))).*1.
Definition all_nodes (self : t) : list Z := (bt_iter (acks self)).*1.
Definition all_acked (self : t) : bool :=
  negb (Nat.eqb (size (acks self)) 0) && forallb snd (bt_iter (acks self)).
Definition peer_count (self : t) : Z := Z.of_nat (size (acks self)).
Definition ack_count (self : t) : Z :=
  zlen (filter (λ e : Z * bool, e.2 = true) (bt_iter (acks self))).

Definition merge (self other : t) : t * bool :=
  if negb (source_node self =? source_node other) || negb (timestamp self =? timestamp other)
  then
    if timestamp self <? timestamp other then (other, true) else (self, false)
  else
    let '(acks', changed) :=
      foldl (λ '(m, changed) '(node_id, other_acked),
          let entry := or_insert m node_id false in
          if other_acked && negb entry
          then (<[node_id := true]> m, true)
          else (<[node_id := entry]> m, changed))
        (acks self, false) (bt_iter (acks other)) in
    (mk (source_node self) (timestamp self) acks', changed).

Definition encode_ack (e : Z * bool) : list Z := le 4 e.1 ++ [if e.2 then 1 else 0].

Definition encode (self : t) : list Z :=
  le 4 (source_node self) ++ le 8 (timestamp self)
  ++ le 4 (wrap 32 (Z.of_nat (size (acks self))))
  ++ flat_map encode_ack (bt_iter (acks self)).

Definition decode (data : list Z) : outcome t :=
  reject_if zlen data <? 16 ;;
  let! source_node := u32_at data 0 in
  let! timestamp := u64_at data 4 in
  let! num_acks := u32_at data 12 in
  reject_if source_node =? 0 ;;
  reject_if timestamp <? MIN_VALID_TIMESTAMP ;;
  reject_if MAX_EMERGENCY_ACKS <? num_acks ;;
  reject_if zlen data <? 16 + num_acks * 5 ;;
  let! st := for_range (Z.to_nat num_acks) 0 (λ _ '(acks, offset),
      let! node_id := u32_at data offset in
      let! acks :=
        if negb (node_id =? 0)
        then let! acked := u8_at data (offset + 4) in
             Ok (<[node_id := negb (acked =? 0)]> acks)
        else Ok acks in
      Ok (acks, offset + 5)) (∅, 16) in
  Ok (mk source_node timestamp st.1).

Definition wf (self : t) : Prop :=
  in_u 32 (source_node self) ∧ source_node self ≠ 0 ∧
  in_u 64 (timestamp self) ∧ MIN_VALID_TIMESTAMP ≤ timestamp self ∧
  map_Forall (λ k _, in_u 32 k ∧ k ≠ 0) (acks self) ∧
  Z.of_nat (size (acks self)) ≤ MAX_EMERGENCY_ACKS.

End EmergencyEvent.

(** * Theorems *)

Module LwwRegisterProofs.
Import LwwRegister.

(** [content ts n] is the value node [n] wrote at time [ts]: a register is
    valid when it holds the write its stamp names. *)
Section lww.
Context {T : Type} (content : Z → Z → T).
Implicit Types a b c : t T.

Definition valid (r : t T) : Prop := value r = content (timestamp r) (node_id r).
Definition join (a b : t T) : t T := (merge a b).1.
(** The order of stamps: time first, then node identifier. *)
Definition stamp_le (a b : t T) : Prop :=
  timestamp a < timestamp b ∨ (timestamp a = timestamp b ∧ node_id a ≤ node_id b).

Lemma merge_cases a b :
  (stamp_le b a ∧ merge a b = (a, false)) ∨
  (stamp_le a b ∧ ¬ stamp_le b a ∧ merge a b = (b, true)).
Proof.
  unfold merge, should_update, stamp_le. destruct a as [va ta na], b as [vb tb nb]; cbn.
  destruct (ta <? tb) eqn:?, (tb =? ta) eqn:?, (na <? nb) eqn:?; cbn;
    first [left; split; [lia|done] | right; split_and!; [lia|lia|done]].
Qed.
Lemma stamp_antisymm a b : valid a → valid b → stamp_le a b → stamp_le b a → a = b.
Proof.
  unfold valid, stamp_le. destruct a as [va ta na], b as [vb tb nb]; cbn.
  intros -> -> ??. assert (ta = tb ∧ na = nb) as [-> ->] by lia. done.
Qed.
Lemma join_cases a b :
  (stamp_le b a ∧ join a b = a) ∨ (stamp_le a b ∧ ¬ stamp_le b a ∧ join a b = b).
Proof.
  unfold join. destruct (merge_cases a b) as [[? ->]|(?&?&->)]; [left|right]; done.
Qed.

#[global] Instance lww_join : JoinCrdt (t T) valid join.
Proof.
  split.
  - intros a b ??. by destruct (join_cases a b) as [[_ ->]|(_&_&->)].
  - intros a _. by destruct (join_cases a a) as [[_ ->]|(_&_&->)].
  - intros a b ??. destruct (join_cases a b) as [[? ->]|(?&?&->)],
      (join_cases b a) as [[? ->]|(?&?&->)]; try done; try by apply stamp_antisymm.
  - intros a b c _ _ _.
    destruct (join_cases a b) as [[? E1]|(?&?&E1)], (join_cases b c) as [[? E2]|(?&?&E2)],
      (join_cases a c) as [[? E3]|(?&?&E3)]; unfold stamp_le in *;
      rewrite ?E1, ?E2, ?E3; rewrite ?E1, ?E2; try done; exfalso; lia.
Qed.

(** The merge of a batch of registers is one of them, and its stamp is
    the greatest. *)
Lemma replay_max s us :
  foldl join s us ∈ s :: us ∧ ∀ u, u ∈ s :: us → stamp_le u (foldl join s us).
Proof.
  revert s. induction us as [|u us IH]; intros s; cbn.
  { split; [set_solver|]. intros u ->%list_elem_of_singleton. unfold stamp_le. lia. }
  destruct (IH (join s u)) as [Hin Hle]. split.
  - destruct (join_cases s u) as [[_ E]|(_&_&E)]; rewrite E in *; set_solver.
  - pose proof (Hle (join s u) ltac:(set_solver)) as Hj.
    intros x. rewrite !elem_of_cons. intros [->|[->|Hx]]; [| |apply Hle; set_solver];
      destruct (join_cases s u) as [[? E]|(?&?&E)]; rewrite E in *;
      unfold stamp_le in *; lia.
Qed.
End lww.
End LwwRegisterProofs.

Module GCounterProofs.
Import GCounter.
Implicit Types a b c : t.

Lemma merge_lookup a b k :
  counts (merge a b) !! k
  = match counts b !! k with
    | Some v => Some (Z.max (default 0 (counts a !! k)) v)
    | None => counts a !! k
    end.
Proof. apply (upsert_all_lookup (λ o v, Z.max (default 0 o) v)). Qed.

Lemma node_count_merge a b n :
  typed a → typed b → node_count (merge a b) n = Z.max (node_count a n) (node_count b n).
Proof.
  intros Ha Hb. unfold node_count. rewrite merge_lookup.
  destruct (counts a !! n) as [v|] eqn:Ea, (counts b !! n) as [w|] eqn:Eb; cbn;
    try apply Ha in Ea as [_ ?]; try apply Hb in Eb as [_ ?]; lia.
Qed.

Lemma eq_counts a b : (∀ k, counts a !! k = counts b !! k) → a = b.
Proof. destruct a, b; cbn. intros H. f_equal. by apply map_eq. Qed.

Lemma merge_typed a b : typed a → typed b → typed (merge a b).
Proof.
  intros Ha Hb k v. rewrite merge_lookup.
  destruct (counts b !! k) as [w|] eqn:Eb; [|intros E; by apply Ha].
  intros [= <-]. apply Hb in Eb as [??]. split; [done|].
  destruct (counts a !! k) as [v|] eqn:Ea; cbn; [apply Ha in Ea as [??]|]; lia.
Qed.

#[global] Instance gcounter_join : JoinCrdt t typed merge.
Proof.
  split.
  - apply merge_typed.
  - intros a Ha. apply eq_counts. intros k. rewrite merge_lookup.
    destruct (counts a !! k); cbn; [f_equal; lia|done].
  - intros a b Ha Hb. apply eq_counts. intros k. rewrite !merge_lookup.
    destruct (counts a !! k) as [v|] eqn:Ea, (counts b !! k) as [w|] eqn:Eb; cbn; try done;
      try apply Ha in Ea as [_ ?]; try apply Hb in Eb as [_ ?]; f_equal; lia.
  - intros a b c Ha Hb Hc. apply eq_counts. intros k. rewrite !merge_lookup.
    destruct (counts a !! k), (counts b !! k), (counts c !! k) as [x|] eqn:Ec; cbn; try done;
      apply Hc in Ec as [_ ?]; f_equal; lia.
Qed.

(** ** The total *)

Definition total (m : gmap Z Z) : Z := zsum (bt_iter m).*2.

Lemma total_delete m i : total m = default 0 (m !! i) + total (delete i m).
Proof.
  unfold total. rewrite !bt_iter_perm. destruct (m !! i) as [v|] eqn:E; cbn.
  - rewrite <-(map_to_list_delete m i v) by done. done.
  - by rewrite delete_id.
Qed.
Lemma total_nonneg m : map_Forall (λ _ v, 0 ≤ v) m → 0 ≤ total m.
Proof.
  intros Hm. apply zsum_nonneg, Forall_forall. intros v ([k w]&->&Hk)%list_elem_of_fmap.
  apply elem_of_bt_iter in Hk. by apply Hm in Hk.
Qed.
Lemma total_empty : total ∅ = 0.
Proof. done. Qed.

Abbreviation nonneg := (map_Forall (λ (_ v : Z), 0 ≤ v)).
Abbreviation at_key m k := (default 0 ((m : gmap Z Z) !! k)).

Lemma nonneg_delete (m : gmap Z Z) i : nonneg m → nonneg (delete i m).
Proof. intros H. by apply map_Forall_delete. Qed.

Lemma total_mono (m1 m2 : gmap Z Z) :
  nonneg m1 → nonneg m2 → (∀ k, at_key m1 k ≤ at_key m2 k) →
  total m1 ≤ total m2 ∧ (total m1 = total m2 → ∀ k, at_key m1 k = at_key m2 k).
Proof.
  revert m2. induction m1 as [|i x m1 Hi IH] using map_ind; intros m2 Hn1 Hn2 Hle.
  - clear Hn1. rewrite total_empty.
    split; [by apply total_nonneg|]. intros Hz k. rewrite lookup_empty. cbn.
    rewrite (total_delete m2 k) in Hz.
    pose proof (total_nonneg _ (nonneg_delete m2 k Hn2)).
    destruct (m2 !! k) as [v|] eqn:E; cbn in *; [apply Hn2 in E|]; lia.
  - apply map_Forall_insert in Hn1 as [Hx Hn1]; [|done].
    rewrite (total_delete (<[i:=x]> m1) i), lookup_insert_eq, delete_insert_id by done.
    rewrite (total_delete m2 i). pose proof (Hle i) as Hlei.
    rewrite lookup_insert_eq in Hlei. cbn in *.
    assert (∀ k, at_key m1 k ≤ at_key (delete i m2) k) as Hle'.
    { intros k. destruct (decide (i = k)) as [<-|Hne].
      - by rewrite Hi, lookup_delete_eq.
      - specialize (Hle k). by rewrite lookup_insert_ne in Hle; [rewrite lookup_delete_ne|]. }
    destruct (IH _ Hn1 (nonneg_delete m2 i Hn2) Hle') as [Htot Heq].
    split; [lia|]. intros Hsum k. destruct (decide (i = k)) as [<-|Hne].
    + rewrite lookup_insert_eq. cbn. lia.
    + rewrite lookup_insert_ne by done. rewrite (Heq ltac:(lia) k).
      by rewrite lookup_delete_ne.
Qed.

Lemma typed_nonneg a : typed a → nonneg (counts a).
Proof. intros Ha k v Hk. by apply Ha in Hk as [_ [? _]]. Qed.

Lemma value_spec a :
  typed a →
  value a = if total (counts a) <? 2 ^ 64 then Ok (total (counts a)) else Panic.
Proof.
  intros Ha. apply sum_u_spec; [done|]. apply Forall_forall.
  intros v ([k w]&->&Hk)%list_elem_of_fmap. apply elem_of_bt_iter in Hk.
  by apply typed_nonneg in Hk.
Qed.

(** ** Wire format *)

Lemma gcounter_zlen_entries c :
  zlen (flat_map encode_entry (bt_iter (counts c))) = 12 * Z.of_nat (size (counts c)).
Proof.
  rewrite <-length_bt_iter. apply zlen_flat_map. intros e _. unfold encode_entry. len.
Qed.
Lemma gcounter_zlen_encode c : zlen (encode c) = 4 + 12 * Z.of_nat (size (counts c)).
Proof. unfold encode. rewrite length_app, Nat2Z.inj_add, gcounter_zlen_entries. len. Qed.
Lemma gcounter_encode_bytes c : bytes_ok (encode c).
Proof.
  apply bytes_app; [auto with bytes|]. apply bytes_flat_map. intros [k v] _.
  unfold encode_entry. auto with bytes.
Qed.

Lemma gcounter_decode_encode c rest : wf c → decode (encode c ++ rest) = Ok c.
Proof.
  intros (Hty & H0 & Hsz). unfold decode, MAX_COUNTER_ENTRIES in *.
  pose proof (gcounter_zlen_entries c) as Hlen.
  unfold encode. rewrite <-app_assoc, wrap_small by lia. rd.
  erewrite (for_range_entries encode_entry (λ m '(k, v), <[k := v]> m) _ _
    (bt_iter (counts c)) (le 4 (Z.of_nat (size (counts c)))) rest).
  - cbn. f_equal. destruct c as [m]. f_equal. cbn.
    apply insert_all_bt_iter.
  - by rewrite Nat2Z.id, length_bt_iter.
  - len.
  - done.
  - intros [k v] p q i m Hin ->. apply elem_of_bt_iter in Hin.
    destruct (Hty _ _ Hin) as [Hk Hv]. unfold encode_entry. rewrite <-!app_assoc. rd.
    assert (k ≠ 0) as Hk0 by (intros ->; congruence).
    cbn [fst snd]. rewrite (proj2 (Z.eqb_neq k 0)) by done. cbn. do 2 f_equal; len.
Qed.

Lemma gcounter_decode_wp data :
  bytes_ok data → wp (decode data) (λ c, wf c ∧ 4 ≤ zlen data).
Proof.
  intros Hb. unfold decode, MAX_COUNTER_ENTRIES. wp_steps.
  set (I := λ (j : Z) (st : gmap Z Z * Z),
    st.2 = 4 + j * 12 ∧ typed (mk st.1) ∧ st.1 !! 0 = None ∧ Z.of_nat (size st.1) ≤ j).
  apply (wp_for_range _ _ _ _ I).
  - split_and!; try done.
  - intros j [m off] Hj (Hoff & Hm & Hz & Hs). cbn in *. wp_steps. subst off I.
    destruct (x0 =? 0) eqn:E; split_and!; cbn; try done; try lia.
    + by apply map_Forall_insert_2.
    + by rewrite lookup_insert_ne by lia.
    + pose proof (map_size_insert_le x0 x1 m). lia.
  - intros [m off] (Hoff & Hm & Hz & Hs). cbn in *. split; [|lia]. split_and!; cbn; [done|done|].
    unfold MAX_COUNTER_ENTRIES. lia.
Qed.

Lemma gcounter_count_read c q :
  wf c → u32_at (encode c ++ q) 0 = Ok (Z.of_nat (size (counts c))).
Proof.
  intros (_ & _ & ?). unfold encode, MAX_COUNTER_ENTRIES in *.
  rewrite <-app_assoc, wrap_small by lia. by rd.
Qed.
End GCounterProofs.

Module EmergencyEventProofs.
Import EmergencyEvent.
Implicit Types a b c e : t.

(** Pointwise disjunction of acknowledgement maps. *)
Definition or_acks (m m' : gmap Z bool) : gmap Z bool :=
  foldl (λ m '(k, v), <[k := default false (m !! k) || v]> m) m (bt_iter m').

Lemma or_acks_lookup m m' k :
  or_acks m m' !! k
  = match m' !! k with Some v => Some (default false (m !! k) || v) | None => m !! k end.
Proof. apply (upsert_all_lookup (λ o v, default false o || v)). Qed.

(** The loop of [merge] on the list of the other event's entries. *)
Definition ack_step : gmap Z bool * bool → Z * bool → gmap Z bool * bool :=
  λ '(m, changed) '(node_id, other_acked),
    let entry := or_insert m node_id false in
    if other_acked && negb entry
    then (<[node_id := true]> m, true) else (<[node_id := entry]> m, changed).

Lemma ack_loop_fst l m ch :
  (foldl ack_step (m, ch) l).1
  = foldl (λ m '(k, v), <[k := default false (m !! k) || v]> m) m l.
Proof.
  revert m ch. induction l as [|[k v] l IH]; intros m ch; [done|]. cbn. unfold or_insert.
  destruct v, (default false (m !! k)); cbn; by rewrite IH.
Qed.
Lemma ack_loop_snd l m ch :
  NoDup l.*1 →
  (foldl ack_step (m, ch) l).2
  = ch || existsb (λ '(k, v), v && negb (default false (m !! k))) l.
Proof.
  revert m ch. induction l as [|[k v] l IH]; intros m ch Hnd; cbn; [by rewrite orb_false_r|].
  apply NoDup_cons in Hnd as [Hk Hnd].
  assert (∀ x, existsb (λ '(j, w), w && negb (default false (<[k:=x]> m !! j))) l
             = existsb (λ '(j, w), w && negb (default false (m !! j))) l) as Hext.
  { intros x. clear IH. induction l as [|[j w] l IHl]; cbn in *; [done|].
    apply not_elem_of_cons in Hk as [Hne Hk]. apply NoDup_cons in Hnd as [_ Hnd].
    by rewrite lookup_insert_ne, IHl by done. }
  unfold or_insert. destruct v, (default false (m !! k)) eqn:E; cbn;
    rewrite IH by done; rewrite Hext; by destruct ch.
Qed.
Lemma ack_loop_changed l m :
  NoDup l.*1 →
  (foldl ack_step (m, false) l).2 = true ↔
  ∃ k, (k, true) ∈ l ∧ default false (m !! k) = false.
Proof.
  intros Hnd. rewrite ack_loop_snd by done. cbn. rewrite existsb_exists. split.
  - intros ([k v] & Hin%list_elem_of_In & [-> Hm%negb_true_iff]%andb_prop). by exists k.
  - intros (k & Hin%list_elem_of_In & Hm). exists (k, true). by rewrite Hm.
Qed.

Definition same_event a b : Prop := source_node a = source_node b ∧ timestamp a = timestamp b.

Lemma merge_same a b :
  same_event a b →
  (merge a b).1 = mk (source_node a) (timestamp a) (or_acks (acks a) (acks b)).
Proof.
  intros [Hs Ht]. unfold merge. rewrite Hs, Ht, !Z.eqb_refl. cbn.
  fold ack_step. unfold or_acks. rewrite <-(ack_loop_fst (bt_iter (acks b)) (acks a) false).
  by destruct (foldl _ _ _).
Qed.
Lemma merge_same_changed a b :
  same_event a b →
  (merge a b).2 = true ↔ ∃ k, acks b !! k = Some true ∧ has_acked a k = false.
Proof.
  intros [Hs Ht]. unfold merge. rewrite Hs, Ht, !Z.eqb_refl. cbn. fold ack_step.
  pose proof (ack_loop_changed (bt_iter (acks b)) (acks a) (bt_iter_NoDup_keys _)) as Hch.
  destruct (foldl _ _ _) as [m ch]. cbn in *. rewrite Hch. unfold has_acked.
  by setoid_rewrite elem_of_bt_iter.
Qed.
Lemma merge_diff a b :
  ¬ same_event a b →
  merge a b = if timestamp a <? timestamp b then (b, true) else (a, false).
Proof.
  unfold same_event, merge. intros Hd.
  destruct (source_node a =? source_node b) eqn:?, (timestamp a =? timestamp b) eqn:?; cbn;
    try done. exfalso. lia.
Qed.

(** Emergencies whose timestamps identify their source: [src ts] is the
    node that raised the emergency stamped [ts]. *)
Section lattice.
Context (src : Z → Z).
Definition valid e : Prop := source_node e = src (timestamp e).
Definition join a b : t := (merge a b).1.

Lemma join_spec a b :
  valid a → valid b →
  join a b = if timestamp a <? timestamp b then b
             else if timestamp b <? timestamp a then a
             else mk (source_node a) (timestamp a) (or_acks (acks a) (acks b)).
Proof.
  unfold valid, join. intros Ha Hb.
  destruct (decide (timestamp a = timestamp b)) as [Ht|Ht].
  - rewrite merge_same by (split; congruence). by rewrite Ht, Z.ltb_irrefl.
  - rewrite merge_diff by (intros [? ?]; congruence).
    destruct (timestamp a <? timestamp b) eqn:?, (timestamp b <? timestamp a) eqn:?;
      try done; exfalso; lia.
Qed.

Lemma or_acks_idem m : or_acks m m = m.
Proof. apply map_eq. intros k. rewrite or_acks_lookup. by destruct (m !! k) as [[]|]. Qed.
Lemma or_acks_comm m m' : or_acks m m' = or_acks m' m.
Proof.
  apply map_eq. intros k. rewrite !or_acks_lookup.
  by destruct (m !! k) as [[]|], (m' !! k) as [[]|].
Qed.
Lemma or_acks_assoc m m' m'' : or_acks m (or_acks m' m'') = or_acks (or_acks m m') m''.
Proof.
  apply map_eq. intros k. rewrite !or_acks_lookup.
  by destruct (m !! k) as [[]|], (m' !! k) as [[]|], (m'' !! k) as [[]|].
Qed.

Lemma join_valid_event a b : valid a → valid b → valid (join a b).
Proof.
  intros Ha Hb. rewrite join_spec by done. by destruct (timestamp a <? timestamp b), (timestamp b <? timestamp a).
Qed.

#[global] Instance emergency_join : JoinCrdt t valid join.
Proof.
  split.
  - apply join_valid_event.
  - intros a Ha. rewrite join_spec, Z.ltb_irrefl, or_acks_idem by done. by destruct a.
  - intros a b Ha Hb. rewrite !join_spec by done. unfold valid in *.
    destruct (timestamp a <? timestamp b) eqn:?, (timestamp b <? timestamp a) eqn:?;
      try done; try (exfalso; lia).
    assert (timestamp a = timestamp b) as Ht by lia.
    rewrite or_acks_comm. congruence.
  - intros a b c Ha Hb Hc. rewrite (join_spec a b), (join_spec b c) by done.
    destruct (timestamp a <? timestamp b) eqn:Eab, (timestamp b <? timestamp a) eqn:Eba,
      (timestamp b <? timestamp c) eqn:Ebc, (timestamp c <? timestamp b) eqn:Ecb;
      try (exfalso; lia); rewrite !join_spec by done; cbn [timestamp source_node acks];
      rewrite ?Eab, ?Eba, ?Ebc, ?Ecb; try done;
      destruct (timestamp a <? timestamp c) eqn:?, (timestamp c <? timestamp a) eqn:?;
      try done; try (exfalso; lia).
    by rewrite or_acks_assoc.
Qed.
End lattice.

(** ** Wire format *)

Lemma emergency_zlen_acks e :
  zlen (flat_map encode_ack (bt_iter (acks e))) = 5 * Z.of_nat (size (acks e)).
Proof.
  rewrite <-length_bt_iter. apply zlen_flat_map. intros [k v] _. unfold encode_ack. len.
Qed.
Lemma emergency_zlen_encode e : zlen (encode e) = 16 + 5 * Z.of_nat (size (acks e)).
Proof. unfold encode. pose proof (emergency_zlen_acks e). len. Qed.
Lemma emergency_encode_bytes e : bytes_ok (encode e).
Proof.
  unfold encode. repeat (apply bytes_app; [by auto with bytes|]).
  apply bytes_flat_map. intros [k []] _; unfold encode_ack; cbn; auto with bytes.
Qed.

Lemma emergency_decode_encode e rest : wf e → decode (encode e ++ rest) = Ok e.
Proof.
  intros (Hs & Hs0 & Ht & Htm & Hk & Hsz).
  unfold decode, MAX_EMERGENCY_ACKS, MIN_VALID_TIMESTAMP in *.
  pose proof (emergency_zlen_acks e) as Hlen.
  unfold encode. rewrite <-!app_assoc, wrap_small by lia. rd.
  erewrite (for_range_entries encode_ack (λ m '(k, v), <[k := v]> m) _ _
    (bt_iter (acks e))
    (le 4 (source_node e) ++ le 8 (timestamp e) ++ le 4 (Z.of_nat (size (acks e)))) rest).
  - cbn. f_equal. destruct e as [s ts m]. f_equal. cbn. apply insert_all_bt_iter.
  - by rewrite Nat2Z.id, length_bt_iter.
  - len.
  - by rewrite <-!app_assoc.
  - intros [k v] p q i m Hin ->. apply elem_of_bt_iter in Hin.
    destruct (Hk _ _ Hin) as [Hk32 Hk0]. unfold encode_ack. rewrite <-!app_assoc.
    cbn [fst snd app]. rd. rewrite (proj2 (Z.eqb_neq k 0)) by done. cbn [negb].
    assert (byte_ok (if v then 1 else 0)) by (destruct v; lia). rd.
    destruct v; cbn; do 2 f_equal; len.
Qed.

Lemma emergency_decode_wp data : bytes_ok data → wp (decode data) wf.
Proof.
  intros Hb. unfold decode, MAX_EMERGENCY_ACKS, MIN_VALID_TIMESTAMP. wp_steps.
  set (I := λ (j : Z) (st : gmap Z bool * Z),
    st.2 = 16 + j * 5 ∧ map_Forall (λ k _, in_u 32 k ∧ k ≠ 0) st.1 ∧
    Z.of_nat (size st.1) ≤ j).
  apply (wp_for_range _ _ _ _ I).
  - split_and!; try done.
  - intros j [m off] Hj (Hoff & Hm & Hs). cbn in *. wp_steps; subst off I; cbn.
    + split_and!; cbn; [lia| |].
      * apply map_Forall_insert_2; [lia|done].
      * pose proof (map_size_insert_le x2 (negb (x3 =? 0)) m). lia.
    + split_and!; cbn; [lia|done|lia].
  - intros [m off] (Hoff & Hm & Hs). cbn in *.
    unfold wf, MIN_VALID_TIMESTAMP, MAX_EMERGENCY_ACKS. cbn. split_and!; try lia; done.
Qed.

(** ** Creation and acknowledgements *)

Lemma new_lookup source ts peers k :
  acks (new source ts peers) !! k
  = if decide (k = source) then Some true
    else if decide (k ∈ peers) then Some false else None.
Proof.
  unfold new. cbn.
  assert (∀ m, m !! source = Some true →
    (∀ j, j ≠ source → m !! j = None ∨ m !! j = Some false) →
    foldl (λ acks peer_id, if negb (peer_id =? source)
        then <[peer_id := or_insert acks peer_id false]> acks else acks) m peers !! k
    = if decide (k = source) then Some true
      else if decide (k ∈ peers) then Some false else m !! k) as Hgen.
  { induction peers as [|p peers IH]; intros m Hm Hn; cbn.
    { destruct (decide (k = source)) as [->|]; [done|].
      by rewrite decide_False by set_solver. }
    destruct (p =? source) eqn:E; cbn.
    - rewrite IH by done. apply Z.eqb_eq in E as ->.
      destruct (decide (k = source)); [done|].
      destruct (decide (k ∈ peers)); [by rewrite decide_True by set_solver|].
      by rewrite decide_False by set_solver.
    - apply Z.eqb_neq in E. unfold or_insert.
      assert (default false (m !! p) = false) as -> by (by destruct (Hn p E) as [->| ->]).
      rewrite IH.
      + destruct (decide (k = source)); [done|].
        destruct (decide (k ∈ peers)); [by rewrite decide_True by set_solver|].
        destruct (decide (k = p)) as [->|].
        * rewrite lookup_insert_eq. by rewrite decide_True by set_solver.
        * rewrite lookup_insert_ne by done. by rewrite decide_False by set_solver.
      + by rewrite lookup_insert_ne.
      + intros j Hj. destruct (decide (p = j)) as [->|].
        * rewrite lookup_insert_eq. auto.
        * rewrite lookup_insert_ne by done. auto. }
  rewrite Hgen.
  - destruct (decide (k = source)); [done|]. by rewrite lookup_singleton_ne.
  - by rewrite lookup_singleton_eq.
  - intros j Hj. rewrite lookup_singleton_ne by done. auto.
Qed.
End EmergencyEventProofs.

(** * A network of counting replicas

    Every node [n] increments only its own slot of its own [GCounter], sends
    snapshots of its state, and merges snapshots that arrive late, out of
    order or more than once. *)

Module Replicas.

Record net := mk_net {
  replica : Z → GCounter.t;    (* the counter held by each node *)
  inflight : list GCounter.t;  (* snapshots sent so far, never withdrawn *)
  issued : Z → Z               (* what each node has added, without saturation *)
}.

Definition upd {A} (f : Z → A) (n : Z) (x : A) : Z → A := λ k, if k =? n then x else f k.

Lemma upd_spec {A} (f : Z → A) n x k : upd f n x k = if k =? n then x else f k.
Proof. done. Qed.

Inductive step : net → net → Prop :=
| step_increment n amount s :
    in_u 32 n → in_u 64 amount →
    step s (mk_net (upd (replica s) n (GCounter.increment (replica s n) n amount))
              (inflight s) (upd (issued s) n (issued s n + amount)))
| step_send n s :
    step s (mk_net (replica s) (replica s n :: inflight s) (issued s))
| step_receive n c s :
    c ∈ inflight s →
    step s (mk_net (upd (replica s) n (GCounter.merge (replica s n) c))
              (inflight s) (issued s)).

Definition init : net := mk_net (λ _, GCounter.new) [] (λ _, 0).
Definition reachable : net → Prop := rtc step init.

Definition knows_at_most (s : net) (c : GCounter.t) : Prop :=
  GCounter.typed c ∧ ∀ n, GCounter.node_count c n ≤ GCounter.node_count (replica s n) n.

Definition inv (s : net) : Prop :=
  (∀ r, knows_at_most s (replica s r)) ∧
  (∀ c, c ∈ inflight s → knows_at_most s c) ∧
  (∀ n, 0 ≤ issued s n ∧ GCounter.node_count (replica s n) n = Z.min (issued s n) u64_max).

Lemma node_count_increment c n amount k :
  GCounter.node_count (GCounter.increment c n amount) k
  = if k =? n then saturating_add 64 (GCounter.node_count c n) amount
    else GCounter.node_count c k.
Proof.
  unfold GCounter.node_count, GCounter.increment, or_insert. cbn.
  destruct (k =? n) eqn:E.
  - apply Z.eqb_eq in E as ->. by rewrite lookup_insert_eq.
  - apply Z.eqb_neq in E. by rewrite lookup_insert_ne.
Qed.
Lemma node_count_bound c n : GCounter.typed c → in_u 64 (GCounter.node_count c n).
Proof.
  intros Hc. unfold GCounter.node_count.
  destruct (GCounter.counts c !! n) eqn:E; cbn; [by apply Hc in E as [_ ?]|lia].
Qed.
Lemma increment_typed c n amount :
  in_u 32 n → in_u 64 amount → GCounter.typed c → GCounter.typed (GCounter.increment c n amount).
Proof.
  intros Hn Ha Hc. apply map_Forall_insert_2; [|done]. split; [done|].
  pose proof (node_count_bound c n Hc) as Hb. unfold GCounter.node_count in Hb.
  unfold saturating_add, or_insert. lia.
Qed.

Lemma knows_mono s s' c :
  (∀ n, GCounter.node_count (replica s n) n ≤ GCounter.node_count (replica s' n) n) →
  knows_at_most s c → knows_at_most s' c.
Proof. intros Hle [Hc Hk]. split; [done|]. intros n. specialize (Hk n). specialize (Hle n). lia. Qed.

Lemma inv_init : inv init.
Proof.
  assert (∀ n, GCounter.node_count GCounter.new n = 0) as H0 by done.
  split_and!; cbn [init replica inflight issued].
  - intros r. split; [apply map_Forall_empty|]. intros n. cbn [init replica]. by rewrite H0.
  - set_solver.
  - intros n. by rewrite H0.
Qed.

Lemma inv_step s s' : step s s' → inv s → inv s'.
Proof.
  intros Hstep (Hr & Hf & Hi). destruct Hstep as [n amount s Hn Ha|n s|n c s Hc].
  - assert (∀ k, GCounter.node_count (replica s k) k ≤ GCounter.node_count
      (upd (replica s) n (GCounter.increment (replica s n) n amount) k) k) as Hle.
    { intros k. unfold upd. destruct (k =? n) eqn:E; [|lia]. apply Z.eqb_eq in E as ->.
      rewrite node_count_increment, Z.eqb_refl. unfold saturating_add.
      pose proof (node_count_bound _ n (proj1 (Hr n))). lia. }
    split_and!; cbn.
    + intros r. rewrite (upd_spec _ _ _ r). destruct (r =? n) eqn:E.
      * split; [apply increment_typed; [done|done|apply Hr]|]. intros k. cbn. unfold upd.
        rewrite node_count_increment. destruct (k =? n) eqn:Ek.
        -- apply Z.eqb_eq in Ek as ->. by rewrite node_count_increment, Z.eqb_refl.
        -- apply Hr.
      * eapply knows_mono; [apply Hle|apply Hr].
    + intros c Hc. eapply knows_mono; [apply Hle|by apply Hf].
    + intros k. unfold upd. destruct (k =? n) eqn:E; [|apply Hi].
      apply Z.eqb_eq in E as ->. rewrite node_count_increment, Z.eqb_refl.
      destruct (Hi n) as [H1 ->]. unfold saturating_add, u64_max. lia.
  - split_and!; cbn; [done| |done].
    intros c [->|Hc]%elem_of_cons; [apply Hr|by apply Hf].
  - assert (∀ k, GCounter.node_count (GCounter.merge (replica s n) c) k
                 ≤ GCounter.node_count (replica s k) k) as Hm.
    { intros k. rewrite GCounterProofs.node_count_merge by (apply Hr || by apply Hf).
      apply Z.max_lub; [apply Hr|by apply Hf]. }
    assert (∀ k, GCounter.node_count (upd (replica s) n (GCounter.merge (replica s n) c) k) k
                 = GCounter.node_count (replica s k) k) as Heq.
    { intros k. unfold upd. destruct (k =? n) eqn:E; [|done]. apply Z.eqb_eq in E as ->.
      apply Z.le_antisymm; [apply Hm|].
      rewrite GCounterProofs.node_count_merge by (apply Hr || by apply Hf). lia. }
    split_and!; cbn.
    + intros r. rewrite (upd_spec _ _ _ r). destruct (r =? n) eqn:E.
      * split; [apply GCounterProofs.merge_typed; [apply Hr|by apply Hf]|].
        intros k. cbn. rewrite Heq. apply Hm.
      * eapply knows_mono; [|apply Hr]. intros k. cbn. rewrite Heq. lia.
    + intros c' Hc'. eapply knows_mono; [|by apply Hf]. intros k. cbn. rewrite Heq. lia.
    + intros k. rewrite Heq. apply Hi.
Qed.

Lemma reachable_inv s : reachable s → inv s.
Proof.
  unfold reachable. intros Hs.
  eapply (rtc_ind_r inv); [apply inv_init|intros ? ? _ ? ?; by eapply inv_step|done].
Qed.

End Replicas.

#[export] Hint Resolve GCounterProofs.gcounter_decode_wp
  EmergencyEventProofs.emergency_decode_wp : wp.

Module CrdtProperties.

(** GCounter convergence.  Replicas that start from the same counter and
    merge the same set of counters, in any order and with any repetitions,
    reach the same counter; and its count for a node is the largest count
    received for that node. *)
Theorem gcounter_converges (s : GCounter.t) (us us' : list GCounter.t) :
  GCounter.typed s → (∀ u, u ∈ us → GCounter.typed u) → (∀ u, u ∈ us ↔ u ∈ us') →
  foldl GCounter.merge s us = foldl GCounter.merge s us' ∧
  ∀ n, GCounter.node_count (foldl GCounter.merge s us) n
       = foldr Z.max (GCounter.node_count s n) ((λ u, GCounter.node_count u n) <$> us).
Proof.
  intros Hs Hus Hiff. split; [by apply replay_converges|]. intros n. clear Hiff us'.
  revert s Hs. induction us as [|u us IH]; intros s Hs; [done|]. cbn.
  rewrite IH by (set_solver || (apply GCounterProofs.merge_typed; set_solver)).
  rewrite GCounterProofs.node_count_merge by set_solver.
  apply foldr_max_start.
Qed.

Lemma gcounter_converges_witness :
  let a := GCounter.increment GCounter.new 1 5 in
  let b := GCounter.increment (GCounter.increment GCounter.new 2 3) 1 2 in
  foldl GCounter.merge GCounter.new [a; b] = foldl GCounter.merge GCounter.new [b; a; b] ∧
  ∀ n, GCounter.node_count (foldl GCounter.merge GCounter.new [a; b]) n
       = foldr Z.max (GCounter.node_count GCounter.new n)
           ((λ u, GCounter.node_count u n) <$> [a; b]).
Proof.
  intros a b. apply (gcounter_converges GCounter.new [a; b] [b; a; b]).
  - apply map_Forall_empty.
  - intros u. rewrite !elem_of_cons. intros [->|[->|H]]; [| |by apply not_elem_of_nil in H];
      unfold GCounter.typed; by_decide.
  - set_solver.
Defined.

(** No reachable state of the replica network invents counts: whatever
    the delays, reorderings and duplications, no node's view of [n] exceeds
    [n]'s own slot, and that slot is exactly what [n] has added, saturated
    at [u64::MAX]. *)
Theorem gcounter_network_safe (s : Replicas.net) :
  Replicas.reachable s →
  (∀ r n, GCounter.node_count (Replicas.replica s r) n
          ≤ GCounter.node_count (Replicas.replica s n) n) ∧
  (∀ n, GCounter.node_count (Replicas.replica s n) n = Z.min (Replicas.issued s n) u64_max).
Proof.
  intros Hs%Replicas.reachable_inv. destruct Hs as (Hr & _ & Hi). split.
  - intros r n. apply Hr.
  - intros n. apply Hi.
Qed.

Lemma gcounter_network_safe_witness :
  let s1 := Replicas.mk_net
    (Replicas.upd (λ _, GCounter.new) 7 (GCounter.increment GCounter.new 7 3))
    [] (Replicas.upd (λ _, 0) 7 (0 + 3)) in
  Replicas.reachable s1 ∧
  (∀ r n, GCounter.node_count (Replicas.replica s1 r) n
          ≤ GCounter.node_count (Replicas.replica s1 n) n) ∧
  (∀ n, GCounter.node_count (Replicas.replica s1 n) n = Z.min (Replicas.issued s1 n) u64_max).
Proof.
  intros s1.
  assert (Replicas.reachable s1) as Hs.
  { apply rtc_once. apply (Replicas.step_increment 7 3 Replicas.init); lia. }
  split; [exact Hs|]. exact (gcounter_network_safe s1 Hs).
Defined.

(** Last-writer-wins convergence.  When a register state is determined by
    its stamp, replicas that merge the same set of registers in any order
    agree, and the surviving register is one of those received, with the
    greatest (timestamp, node) stamp. *)
Theorem lww_converges {T} (content : Z → Z → T) (s : LwwRegister.t T) us us' :
  let join a b := (LwwRegister.merge a b).1 in
  LwwRegisterProofs.valid content s → (∀ u, u ∈ us → LwwRegisterProofs.valid content u) →
  (∀ u, u ∈ us ↔ u ∈ us') →
  foldl join s us = foldl join s us' ∧
  foldl join s us ∈ s :: us ∧
  (∀ u, u ∈ s :: us → LwwRegisterProofs.stamp_le u (foldl join s us)).
Proof.
  intros join Hs Hus Hiff. split.
  - by apply (replay_converges (valid := LwwRegisterProofs.valid content)).
  - apply LwwRegisterProofs.replay_max.
Qed.

Lemma lww_converges_witness :
  let content (ts n : Z) := ts * 100 + n in
  let r ts n := LwwRegister.new (content ts n) ts n in
  let join a b := (LwwRegister.merge a b).1 in
  foldl join (r 1 1) [r 5 2; r 5 3] = foldl join (r 1 1) [r 5 3; r 5 2; r 5 3] ∧
  foldl join (r 1 1) [r 5 2; r 5 3] ∈ r 1 1 :: [r 5 2; r 5 3] ∧
  (∀ u, u ∈ r 1 1 :: [r 5 2; r 5 3] →
    LwwRegisterProofs.stamp_le u (foldl join (r 1 1) [r 5 2; r 5 3])).
Proof.
  intros content r join.
  apply (lww_converges content (r 1 1) [r 5 2; r 5 3] [r 5 3; r 5 2; r 5 3]).
  - done.
  - intros u. rewrite !elem_of_cons. by intros [->|[->|H%not_elem_of_nil]].
  - set_solver.
Defined.

(** Emergency convergence.  When a timestamp identifies the node that
    raised the emergency, replicas that merge the same set of emergency
    states in any order and with repetitions reach the same emergency and
    the same acknowledgement map. *)
Theorem emergency_converges (src : Z → Z) (s : EmergencyEvent.t) us us' :
  let join a b := (EmergencyEvent.merge a b).1 in
  EmergencyEventProofs.valid src s → (∀ u, u ∈ us → EmergencyEventProofs.valid src u) →
  (∀ u, u ∈ us ↔ u ∈ us') →
  foldl join s us = foldl join s us'.
Proof.
  intros join Hs Hus Hiff.
  by apply (replay_converges (valid := EmergencyEventProofs.valid src)).
Qed.

Lemma emergency_converges_witness :
  let e := EmergencyEvent.new 9 1705276800000 [1; 2] in
  let e1 := (EmergencyEvent.ack e 1).1 in
  let e2 := (EmergencyEvent.ack e 2).1 in
  let join a b := (EmergencyEvent.merge a b).1 in
  foldl join e [e1; e2] = foldl join e [e2; e1; e2].
Proof.
  intros e e1 e2 join. apply (emergency_converges (λ _, 9) e [e1; e2] [e2; e1; e2]).
  - done.
  - intros u. rewrite !elem_of_cons. by intros [->|[->|H%not_elem_of_nil]].
  - set_solver.
Defined.

(** Two emergencies raised at the same millisecond by different nodes
    never converge: each replica keeps its own and reports no change,
    however often they exchange states. *)
Theorem emergency_tie_diverges (a b : EmergencyEvent.t) :
  EmergencyEvent.timestamp a = EmergencyEvent.timestamp b →
  EmergencyEvent.source_node a ≠ EmergencyEvent.source_node b →
  EmergencyEvent.merge a b = (a, false) ∧ EmergencyEvent.merge b a = (b, false).
Proof.
  intros Ht Hs. split; rewrite EmergencyEventProofs.merge_diff by (intros [? ?]; congruence);
    by rewrite Ht, Z.ltb_irrefl.
Qed.

Lemma emergency_tie_diverges_witness :
  let a := EmergencyEvent.new 1 1705276800000 [2] in
  let b := EmergencyEvent.new 2 1705276800000 [1] in
  a ≠ b ∧ EmergencyEvent.merge a b = (a, false) ∧ EmergencyEvent.merge b a = (b, false).
Proof.
  intros a b. split; [discriminate|]. apply (emergency_tie_diverges a b); [reflexivity|discriminate].
Defined.

End CrdtProperties.
