(* ===== verification/Sensor.v ===== *)
(** * Sensor payloads of src/src/sync/crdt.rs: [Position], [HealthStatus],
    [PeripheralEvent] and [Peripheral], with the validation their decoders
    perform.  An [f32] is its 32-bit pattern; comparisons go through the
    IEEE 754 value of the pattern. *)

From Corelib Require Import SpecFloat.
From stdpp Require Import base numbers list.
From S2P Require Import Prelude Crdt.
Open Scope Z_scope.
Open Scope peat_scope.

(** ** [f32] *)

Module F32.

(** The value of a binary32 pattern. *)
Definition value (bits : Z) : spec_float :=
  let s := Z.testbit bits 31 in
  let e := Z.land (Z.shiftr bits 23) 255 in
  let m := Z.land bits (2 ^ 23 - 1) in
  if e =? 255 then if m =? 0 then S754_infinity s else S754_nan
  else if e =? 0 then match m with Zpos p => S754_finite s p (-149) | _ => S754_zero s end
  else match m + 2 ^ 23 with Zpos p => S754_finite s p (e - 150) | _ => S754_nan end.

Definition is_finite (bits : Z) : bool :=
  match value bits with S754_zero _ | S754_finite _ _ _ => true | _ => false end.
Definition leb (a b : Z) : bool := SFleb (value a) (value b).
Definition ltb (a b : Z) : bool := SFltb (value a) (value b).
(** [(lo..=hi).contains(&x)]. *)
Definition in_range (lo hi x : Z) : bool := leb lo x && leb x hi.

Definition zero : Z := 0x00000000.
Definition neg_90 : Z := 0xC2B40000.
Definition pos_90 : Z := 0x42B40000.
Definition neg_180 : Z := 0xC3340000.
Definition pos_180 : Z := 0x43340000.
Definition neg_1000 : Z := 0xC47A0000.
Definition pos_100000 : Z := 0x47C35000.

End F32.

(** ** Position *)

Module Position.

Record t := mk { latitude : Z; longitude : Z; altitude : option Z; accuracy : option Z }.

Definition new (latitude longitude : Z) : t := mk latitude longitude None None.
Definition with_altitude (self : t) (alt : Z) : t :=
  mk (latitude self) (longitude self) (Some alt) (accuracy self).
Definition with_accuracy (self : t) (acc : Z) : t :=
  mk (latitude self) (longitude self) (altitude self) (Some acc).

Definition flags (self : t) : Z :=
  let flags := 0 in
  let flags := if altitude self is Some _ then Z.lor flags 1 else flags in
  if accuracy self is Some _ then Z.lor flags 2 else flags.

Definition encode (self : t) : list Z :=
  le 4 (latitude self) ++ le 4 (longitude self) ++ [flags self]
  ++ match altitude self with Some alt => le 4 alt | None => [] end
  ++ match accuracy self with Some acc => le 4 acc | None => [] end.

Definition decode (data : list Z) : outcome t :=
  reject_if zlen data <? 9 ;;
  let! latitude := u32_at data 0 in
  let! longitude := u32_at data 4 in
  let! flags := u8_at data 8 in
  reject_if negb (F32.is_finite latitude) || negb (F32.is_finite longitude) ;;
  reject_if negb (F32.in_range F32.neg_90 F32.pos_90 latitude) ;;
  reject_if negb (F32.in_range F32.neg_180 F32.pos_180 longitude) ;;
  let pos := new latitude longitude in
  let! st :=
    if has_bit flags 1 then
      reject_if zlen data <? 9 + 4 ;;
      let! alt := u32_at data 9 in
      reject_if negb (F32.is_finite alt)
                || negb (F32.in_range F32.neg_1000 F32.pos_100000 alt) ;;
      Ok (with_altitude pos alt, 9 + 4)
    else Ok (pos, 9) in
  let '(pos, offset) := st in
  if has_bit flags 2 then
    reject_if zlen data <? offset + 4 ;;
    let! acc := u32_at data offset in
    reject_if negb (F32.is_finite acc) || F32.ltb acc F32.zero ;;
    Ok (with_accuracy pos acc)
  else Ok pos.

(** The values the decoder lets through. *)
Definition altitude_ok (alt : Z) : Prop :=
  in_u 32 alt ∧ F32.is_finite alt = true ∧ F32.in_range F32.neg_1000 F32.pos_100000 alt = true.
Definition accuracy_ok (acc : Z) : Prop :=
  in_u 32 acc ∧ F32.is_finite acc = true ∧ F32.ltb acc F32.zero = false.
Definition wf (self : t) : Prop :=
  in_u 32 (latitude self) ∧ in_u 32 (longitude self) ∧
  F32.is_finite (latitude self) = true ∧ F32.is_finite (longitude self) = true ∧
  F32.in_range F32.neg_90 F32.pos_90 (latitude self) = true ∧
  F32.in_range F32.neg_180 F32.pos_180 (longitude self) = true ∧
  (∀ alt, altitude self = Some alt → altitude_ok alt) ∧
  (∀ acc, accuracy self = Some acc → accuracy_ok acc).

End Position.

(** ** Health status *)

Module HealthStatus.

Record t := mk { battery_percent : Z; heart_rate : option Z; activity : Z; alerts : Z }.

Definition ALERT_MAN_DOWN : Z := 0x01.
Definition ALERT_LOW_BATTERY : Z := 0x02.
Definition ALERT_OUT_OF_RANGE : Z := 0x04.
Definition ALERT_CUSTOM_1 : Z := 0x08.

Definition default_status : t := mk 0 None 0 0.
Definition new (battery_percent : Z) : t := mk battery_percent None 0 0.
Definition with_heart_rate (self : t) (hr : Z) : t :=
  mk (battery_percent self) (Some hr) (activity self) (alerts self).
Definition with_activity (self : t) (act : Z) : t :=
  mk (battery_percent self) (heart_rate self) act (alerts self).
Definition set_alert (self : t) (flag : Z) : t :=
  mk (battery_percent self) (heart_rate self) (activity self) (Z.lor (alerts self) flag).
(** [self.alerts &= !flag] on [u8]. *)
Definition clear_alert (self : t) (flag : Z) : t :=
  mk (battery_percent self) (heart_rate self) (activity self)
    (Z.land (alerts self) (Z.lxor flag 255)).
Definition has_alert (self : t) (flag : Z) : bool := has_bit (alerts self) flag.

Definition encode (self : t) : list Z :=
  [battery_percent self; activity self; alerts self; default 0 (heart_rate self)].

Definition decode (data : list Z) : outcome t :=
  reject_if zlen data <? 4 ;;
  let! battery_percent := u8_at data 0 in
  let! activity := u8_at data 1 in
  let! alerts := u8_at data 2 in
  let! heart_rate_raw := u8_at data 3 in
  reject_if MAX_BATTERY_PERCENT <? battery_percent ;;
  reject_if 3 <? activity ;;
  let status := mk battery_percent None activity alerts in
  if 0 <? heart_rate_raw then
    reject_if negb (between MIN_HEART_RATE MAX_HEART_RATE heart_rate_raw) ;;
    Ok (mk battery_percent (Some heart_rate_raw) activity alerts)
  else Ok status.

Definition wf (self : t) : Prop :=
  0 ≤ battery_percent self ≤ MAX_BATTERY_PERCENT ∧
  0 ≤ activity self ≤ 3 ∧ byte_ok (alerts self) ∧
  (∀ hr, heart_rate self = Some hr → MIN_HEART_RATE ≤ hr ≤ MAX_HEART_RATE).

End HealthStatus.

(** ** Device and event types *)

Module PeripheralType.

Inductive t := Unknown | SoldierSensor | FixedSensor | Relay.

Definition to_u8 (self : t) : Z :=
  match self with Unknown => 0 | SoldierSensor => 1 | FixedSensor => 2 | Relay => 3 end.
Definition from_u8 (v : Z) : t :=
  match v with 1 => SoldierSensor | 2 => FixedSensor | 3 => Relay | _ => Unknown end.

End PeripheralType.

Module EventType.

Inductive t := NoEvent | Ping | NeedAssist | Emergency | Moving | InPosition | Ack.

#[global] Instance eq_dec : EqDecision t.
Proof. solve_decision. Defined.

Definition to_u8 (self : t) : Z :=
  match self with
  | NoEvent => 0 | Ping => 1 | NeedAssist => 2 | Emergency => 3
  | Moving => 4 | InPosition => 5 | Ack => 6
  end.
Definition from_u8 (v : Z) : t :=
  match v with
  | 1 => Ping | 2 => NeedAssist | 3 => Emergency | 4 => Moving
  | 5 => InPosition | 6 => Ack | _ => NoEvent
  end.

End EventType.

Module PeripheralEvent.

Record t := mk { event_type : EventType.t; timestamp : Z }.

Definition new (event_type : EventType.t) (timestamp : Z) : t := mk event_type timestamp.

Definition encode (self : t) : list Z :=
  [EventType.to_u8 (event_type self)] ++ le 8 (timestamp self).

Definition decode (data : list Z) : outcome t :=
  reject_if zlen data <? 9 ;;
  let! tag := u8_at data 0 in
  let event_type := EventType.from_u8 tag in
  let! timestamp := u64_at data 1 in
  reject_if negb (timestamp =? 0) && (timestamp <? MIN_VALID_TIMESTAMP) ;;
  Ok (mk event_type timestamp).

Definition timestamp_ok (ts : Z) : Prop := in_u 64 ts ∧ (ts = 0 ∨ MIN_VALID_TIMESTAMP ≤ ts).
Definition wf (self : t) : Prop := timestamp_ok (timestamp self).

End PeripheralEvent.

(** ** Peripheral *)

Module Peripheral.

Record t := mk {
  id : Z; parent_node : Z; peripheral_type : PeripheralType.t; callsign : list Z;
  health : HealthStatus.t; last_event : option PeripheralEvent.t;
  location : option Position.t; timestamp : Z
}.

Definition new (id : Z) (peripheral_type : PeripheralType.t) : t :=
  mk id 0 peripheral_type (replicate 12 0) HealthStatus.default_status None None 0.

(** [buf[..len].copy_from_slice(&bytes[..len])] with [len = min(bytes.len(), 12)]. *)
Definition copy_callsign (buf bytes : list Z) : list Z :=
  let len := Z.min (zlen bytes) 12 in ztake len bytes ++ zdrop len buf.

Definition with_callsign (self : t) (cs : list Z) : t :=
  mk (id self) (parent_node self) (peripheral_type self) (copy_callsign (callsign self) cs)
    (health self) (last_event self) (location self) (timestamp self).
Definition set_callsign (self : t) (cs : list Z) : t :=
  mk (id self) (parent_node self) (peripheral_type self) (copy_callsign (replicate 12 0) cs)
    (health self) (last_event self) (location self) (timestamp self).

(** [callsign.iter().position(|&b| b == 0).unwrap_or(12)]. *)
Definition callsign_len (cs : list Z) : Z :=
  match list_find (λ b, b = 0) cs with Some (i, _) => Z.of_nat i | None => 12 end.
Definition callsign_str (self : t) : list Z :=
  let s := ztake (callsign_len (callsign self)) (callsign self) in
  if utf8_valid s then s else [].

Definition with_parent (self : t) (parent : Z) : t :=
  mk (id self) parent (peripheral_type self) (callsign self)
    (health self) (last_event self) (location self) (timestamp self).
Definition with_location (self : t) (loc : Position.t) : t :=
  mk (id self) (parent_node self) (peripheral_type self) (callsign self)
    (health self) (last_event self) (Some loc) (timestamp self).
Definition set_location (self : t) (latitude longitude : Z) (altitude : option Z) : t :=
  let pos := Position.new latitude longitude in
  with_location self (match altitude with Some alt => Position.with_altitude pos alt | None => pos end).
Definition clear_location (self : t) : t :=
  mk (id self) (parent_node self) (peripheral_type self) (callsign self)
    (health self) (last_event self) None (timestamp self).
Definition set_event (self : t) (event_type : EventType.t) (ts : Z) : t :=
  mk (id self) (parent_node self) (peripheral_type self) (callsign self)
    (health self) (Some (PeripheralEvent.new event_type ts)) (location self) ts.
Definition clear_event (self : t) : t :=
  mk (id self) (parent_node self) (peripheral_type self) (callsign self)
    (health self) None (location self) (timestamp self).

Definition encode (self : t) : list Z :=
  le 4 (id self) ++ le 4 (parent_node self)
  ++ [PeripheralType.to_u8 (peripheral_type self)] ++ callsign self
  ++ HealthStatus.encode (health self)
  ++ match last_event self with
     | Some event => [1] ++ PeripheralEvent.encode event
     | None => [0]
     end
  ++ le 8 (timestamp self)
  ++ match location self with
     | Some loc => [1] ++ Position.encode loc
     | None => [0]
     end.

Definition decode (data : list Z) : outcome t :=
  reject_if zlen data <? 34 ;;
  let! id := u32_at data 0 in
  let! parent_node := u32_at data 4 in
  let! type_tag := u8_at data 8 in
  let peripheral_type := PeripheralType.from_u8 type_tag in
  reject_if id =? 0 ;;
  let! callsign := slice data 9 21 in
  let len := callsign_len callsign in
  reject_if (0 <? len) && negb (utf8_valid (ztake len callsign)) ;;
  let! hdata := slice data 21 25 in
  let! health := HealthStatus.decode hdata in
  let! has_event := u8_at data 25 in
  let! ev :=
    if negb (has_event =? 0) then
      reject_if zlen data <? 43 ;;
      let! edata := slice data 26 35 in
      let! event := opt (PeripheralEvent.decode edata) in
      Ok (event, 35)
    else Ok (None, 26) in
  let '(last_event, timestamp_offset) := ev in
  reject_if zlen data <? timestamp_offset + 8 ;;
  let! timestamp := u64_at data timestamp_offset in
  reject_if negb (timestamp =? 0) && (timestamp <? MIN_VALID_TIMESTAMP) ;;
  let location_offset := timestamp_offset + 8 in
  let! location :=
    if location_offset <? zlen data then
      let! has_location := u8_at data location_offset in
      if negb (has_location =? 0) && (location_offset + 1 <? zlen data) then
        let! ldata := slice_from data (location_offset + 1) in
        opt (Position.decode ldata)
      else Ok None
    else Ok None in
  Ok (mk id parent_node peripheral_type callsign health last_event location timestamp).

Definition callsign_ok (cs : list Z) : Prop :=
  length cs = 12%nat ∧ bytes_ok cs ∧ utf8_valid (ztake (callsign_len cs) cs) = true.
Definition wf (self : t) : Prop :=
  in_u 32 (id self) ∧ id self ≠ 0 ∧ in_u 32 (parent_node self) ∧
  callsign_ok (callsign self) ∧ HealthStatus.wf (health self) ∧
  (∀ e, last_event self = Some e → PeripheralEvent.wf e) ∧
  (∀ l, location self = Some l → Position.wf l) ∧
  PeripheralEvent.timestamp_ok (timestamp self).

End Peripheral.

#[export] Instance position_wf_dec p : Decision (Position.wf p).
Proof. unfold Position.wf, Position.altitude_ok, Position.accuracy_ok. apply _. Defined.
#[export] Instance health_wf_dec h : Decision (HealthStatus.wf h).
Proof. unfold HealthStatus.wf. apply _. Defined.
#[export] Instance event_wf_dec e : Decision (PeripheralEvent.wf e).
Proof. unfold PeripheralEvent.wf, PeripheralEvent.timestamp_ok. apply _. Defined.
#[export] Instance peripheral_wf_dec p : Decision (Peripheral.wf p).
Proof.
  unfold Peripheral.wf, Peripheral.callsign_ok, PeripheralEvent.timestamp_ok. apply _.
Defined.

(** * Theorems *)

Module SensorProofs.

(** ** Position *)

Lemma flags_byte p : byte_ok (Position.flags p).
Proof. unfold Position.flags. by destruct (Position.altitude p), (Position.accuracy p). Qed.

Lemma position_encode_bytes p : bytes_ok (Position.encode p).
Proof.
  unfold Position.encode. pose proof (flags_byte p).
  repeat (apply bytes_app; [by auto with bytes|]).
  destruct (Position.altitude p), (Position.accuracy p); cbn; auto with bytes.
Qed.
Lemma position_encode_length p : 9 ≤ zlen (Position.encode p) ≤ 17.
Proof.
  unfold Position.encode. destruct (Position.altitude p), (Position.accuracy p); len.
Qed.

Lemma position_decode_encode p rest :
  Position.wf p → Position.decode (Position.encode p ++ rest) = Ok p.
Proof.
  destruct p as [lat lon alt acc].
  intros (Hlat & Hlon & Hflat & Hflon & Hrlat & Hrlon & Halt & Hacc). cbn in *.
  unfold Position.decode, Position.encode. pose proof (flags_byte (Position.mk lat lon alt acc)).
  cbn [Position.latitude Position.longitude Position.altitude Position.accuracy] in *.
  rewrite <-!app_assoc. rd. cbn [app]. rd.
  rewrite Hflat, Hflon, Hrlat, Hrlon. cbn [negb orb].
  destruct alt as [alt|], acc as [acc|]; unfold Position.flags, has_bit;
    zclosed; cbn [Position.altitude Position.accuracy app];
    try destruct (Halt _ eq_refl) as (? & Ha1 & Ha2);
    try destruct (Hacc _ eq_refl) as (? & Hb1 & Hb2);
    rd; rewrite ?Ha1, ?Ha2; cbn [negb orb obind]; rd; rewrite ?Hb1, ?Hb2; done.
Qed.

Lemma position_decode_wp data : bytes_ok data → wp (Position.decode data) Position.wf.
Proof.
  intros Hb. unfold Position.decode. wp_steps.
  all: repeat match goal with
    | H : negb _ || negb _ = false |- _ =>
        apply orb_false_elim in H as [?%negb_false_iff ?%negb_false_iff]
    | H : negb _ || _ = false |- _ => apply orb_false_elim in H as [?%negb_false_iff ?]
    | H : negb _ = false |- _ => apply negb_false_iff in H
    end.
  all: unfold Position.wf, Position.altitude_ok, Position.accuracy_ok; cbn.
  all: split_and!; try done; try lia; by intros ? [= <-].
Qed.

(** ** Health status *)

Lemma health_encode_bytes h : HealthStatus.wf h → bytes_ok (HealthStatus.encode h).
Proof.
  unfold HealthStatus.wf, HealthStatus.encode, MAX_BATTERY_PERCENT, MIN_HEART_RATE, MAX_HEART_RATE.
  intros (? & ? & ? & Hhr). repeat constructor; try lia;
    destruct (HealthStatus.heart_rate h) as [hr|]; cbn; try specialize (Hhr _ eq_refl); lia.
Qed.
Lemma health_encode_length h : zlen (HealthStatus.encode h) = 4.
Proof. done. Qed.

Lemma health_decode_encode h rest :
  HealthStatus.wf h → HealthStatus.decode (HealthStatus.encode h ++ rest) = Ok h.
Proof.
  destruct h as [b hr a al].
  unfold HealthStatus.wf, HealthStatus.decode, HealthStatus.encode, MAX_BATTERY_PERCENT, between,
    MIN_HEART_RATE, MAX_HEART_RATE. cbn -[zlen Z.of_nat].
  intros (Hb & Ha & Hal & Hhr).
  assert (byte_ok (default 0 hr)) by (destruct hr; cbn; [specialize (Hhr _ eq_refl)|]; lia).
  rd. destruct hr as [hr|]; cbn [default from_option id].
  - specialize (Hhr _ eq_refl). rewrite (proj2 (Z.ltb_lt 0 hr)) by lia.
    rewrite (proj2 (Z.leb_le 20 hr)), (proj2 (Z.leb_le hr 250)) by lia. done.
  - done.
Qed.

Lemma health_decode_wp data : bytes_ok data → wp (HealthStatus.decode data) HealthStatus.wf.
Proof.
  intros Hb. unfold HealthStatus.decode, MAX_BATTERY_PERCENT. wp_steps.
  all: unfold HealthStatus.wf, MAX_BATTERY_PERCENT; cbn; split_and!; try lia; try done.
  intros hr [= <-]. rename select (negb _ = false) into Hn.
  apply negb_false_iff, andb_prop in Hn as [??]. unfold MIN_HEART_RATE, MAX_HEART_RATE in *. lia.
Qed.

(** ** Events *)

Lemma event_type_roundtrip e : EventType.from_u8 (EventType.to_u8 e) = e.
Proof. by destruct e. Qed.
Lemma event_type_byte e : byte_ok (EventType.to_u8 e).
Proof. by destruct e. Qed.
Lemma peripheral_type_roundtrip p : PeripheralType.from_u8 (PeripheralType.to_u8 p) = p.
Proof. by destruct p. Qed.
Lemma peripheral_type_byte p : byte_ok (PeripheralType.to_u8 p).
Proof. by destruct p. Qed.

Lemma event_encode_bytes e : bytes_ok (PeripheralEvent.encode e).
Proof. unfold PeripheralEvent.encode. pose proof (event_type_byte (PeripheralEvent.event_type e)).
  cbn. auto with bytes. Qed.
Lemma event_encode_length e : zlen (PeripheralEvent.encode e) = 9.
Proof. unfold PeripheralEvent.encode. len. Qed.

Lemma timestamp_check ts :
  PeripheralEvent.timestamp_ok ts → negb (ts =? 0) && (ts <? MIN_VALID_TIMESTAMP) = false.
Proof. intros [_ [->|H]]; [done|]. apply andb_false_intro2. by apply Z.ltb_ge. Qed.
Lemma timestamp_check_inv ts :
  in_u 64 ts → negb (ts =? 0) && (ts <? MIN_VALID_TIMESTAMP) = false →
  PeripheralEvent.timestamp_ok ts.
Proof.
  intros Hts H. split; [done|].
  apply andb_false_iff in H as [?%negb_false_iff|?]; [left|right]; lia.
Qed.

Lemma event_decode_encode e rest :
  PeripheralEvent.wf e → PeripheralEvent.decode (PeripheralEvent.encode e ++ rest) = Ok e.
Proof.
  destruct e as [ty ts]. intros Hts.
  unfold PeripheralEvent.decode, PeripheralEvent.encode.
  pose proof (event_type_byte ty). pose proof (proj1 Hts) as Hin. cbn in Hin.
  cbn [PeripheralEvent.event_type PeripheralEvent.timestamp app]. rd.
  rewrite timestamp_check by done. by rewrite event_type_roundtrip.
Qed.
Lemma event_decode_wp data :
  bytes_ok data → wp (PeripheralEvent.decode data) PeripheralEvent.wf.
Proof.
  intros Hb. unfold PeripheralEvent.decode. wp_steps. by apply timestamp_check_inv.
Qed.

End SensorProofs.

#[export] Hint Resolve SensorProofs.position_decode_wp SensorProofs.health_decode_wp
  SensorProofs.event_decode_wp : wp.

Module PeripheralProofs.
Import SensorProofs.

Lemma callsign_len_bound cs : length cs = 12%nat → 0 ≤ Peripheral.callsign_len cs ≤ 12.
Proof.
  intros Hl. unfold Peripheral.callsign_len. destruct (list_find _ cs) as [[i b]|] eqn:E; [|lia].
  apply list_find_Some in E as [Hi%lookup_lt_Some _]. lia.
Qed.

Lemma peripheral_encode_bytes p : Peripheral.wf p → bytes_ok (Peripheral.encode p).
Proof.
  intros (? & ? & ? & (? & ? & ?) & Hh & _). unfold Peripheral.encode.
  pose proof (peripheral_type_byte (Peripheral.peripheral_type p)).
  pose proof (health_encode_bytes _ Hh).
  repeat (apply bytes_app; [by auto with bytes|]).
  apply bytes_app; [|apply bytes_app; [auto with bytes|]].
  - destruct (Peripheral.last_event p); auto using event_encode_bytes with bytes.
  - destruct (Peripheral.location p); auto using position_encode_bytes with bytes.
Qed.
Lemma peripheral_encode_length p :
  length (Peripheral.callsign p) = 12%nat → 35 ≤ zlen (Peripheral.encode p) ≤ 61.
Proof.
  intros Hl. unfold Peripheral.encode.
  pose proof (health_encode_length (Peripheral.health p)).
  destruct (Peripheral.last_event p) as [e|], (Peripheral.location p) as [l|];
    try pose proof (event_encode_length e); try pose proof (position_encode_length l); len.
Qed.

Lemma peripheral_decode_encode p rest :
  Peripheral.wf p → Peripheral.decode (Peripheral.encode p ++ rest) = Ok p.
Proof.
  destruct p as [id par ty cs h ev loc ts].
  intros (Hid & Hid0 & Hpar & (Hcl & Hcb & Hcu) & Hh & Hev & Hloc & Hts).
  cbn [Peripheral.id Peripheral.parent_node Peripheral.callsign Peripheral.health
       Peripheral.last_event Peripheral.location Peripheral.timestamp] in *.
  unfold Peripheral.decode, Peripheral.encode.
  cbn [Peripheral.id Peripheral.parent_node Peripheral.peripheral_type Peripheral.callsign
       Peripheral.health Peripheral.last_event Peripheral.location Peripheral.timestamp].
  assert (Hz : zlen cs = 12) by lia. pose proof (health_encode_length h) as Hhl.
  pose proof (peripheral_type_byte ty). pose proof (proj1 Hts) as Hts64.
  assert (Hhd : HealthStatus.decode (HealthStatus.encode h) = Ok h)
    by (rewrite <-(app_nil_r (HealthStatus.encode h)); by apply health_decode_encode).
  rewrite <-!app_assoc.
  destruct ev as [e|], loc as [l|]; cbn [app];
    try pose proof (event_encode_length e) as Hel;
    try pose proof (position_encode_length l) as Hpl;
    try (assert (Hed : PeripheralEvent.decode (PeripheralEvent.encode e) = Ok e)
      by (rewrite <-(app_nil_r (PeripheralEvent.encode e)); apply event_decode_encode; auto));
    try pose proof (position_decode_encode l rest (Hloc _ eq_refl)) as Hld;
    rewrite <-?app_assoc; rd; rewrite Hcu, andb_false_r, Hhd; cbn [obind]; rd; zclosed; rd.
  all: try (rewrite Hed; cbn [obind opt]).
  all: rd. 
  all: rewrite timestamp_check by done.
  all: rewrite (proj2 (Z.ltb_lt _ _)) by len; rd; zclosed;
    try rewrite (proj2 (Z.ltb_lt _ _)) by len; rewrite ?Hld; cbn [obind opt];
    by rewrite peripheral_type_roundtrip.
Qed.

Lemma callsign_check cs :
  zlen cs = 12 → bytes_ok cs →
  (0 <? Peripheral.callsign_len cs)
    && negb (utf8_valid (ztake (Peripheral.callsign_len cs) cs)) = false →
  Peripheral.callsign_ok cs.
Proof.
  intros Hl Hb H. assert (length cs = 12%nat) as Hl' by lia. split_and!; [done|done|].
  apply andb_false_iff in H as [H|H%negb_false_iff]; [|done].
  pose proof (callsign_len_bound _ Hl'). by replace (Peripheral.callsign_len cs) with 0 by lia.
Qed.

Lemma peripheral_decode_wp data : bytes_ok data → wp (Peripheral.decode data) Peripheral.wf.
Proof.
  intros Hb. unfold Peripheral.decode. wp_steps.
  all: match goal with H : _ && negb (utf8_valid _) = false |- _ =>
         apply callsign_check in H; [|lia|done] end.
  all: unfold Peripheral.wf; cbn.
  all: split_and!; try done; try lia; by apply timestamp_check_inv.
Qed.




(** ** Callsigns *)

Lemma list_find_None_len cs :
  list_find (λ b, b = 0) cs = None → Peripheral.callsign_len cs = 12.
Proof. intros H. unfold Peripheral.callsign_len. by rewrite H. Qed.

Lemma copy_callsign_long buf cs :
  12 ≤ zlen cs → length buf = 12%nat → Peripheral.copy_callsign buf cs = ztake 12 cs.
Proof.
  intros Hcs Hb. unfold Peripheral.copy_callsign. rewrite Z.min_r by lia.
  unfold zdrop. rewrite drop_ge by lia. apply app_nil_r.
Qed.

End PeripheralProofs.

#[export] Hint Resolve PeripheralProofs.peripheral_decode_wp : wp.

Module SensorProperties.

(** Peripheral wire format.  Decoding what a peripheral encodes, with any
    bytes after it, gives the peripheral back: location, event, callsign and
    health included. *)
Theorem peripheral_roundtrip (p : Peripheral.t) (rest : list Z) :
  Peripheral.wf p → Peripheral.decode (Peripheral.encode p ++ rest) = Ok p.
Proof. apply PeripheralProofs.peripheral_decode_encode. Qed.

(** A sensor with a callsign, an event and a position (37.78, -122.4, 10 m). *)
Definition sample : Peripheral.t :=
  Peripheral.with_location
    (Peripheral.set_event
       (Peripheral.with_callsign (Peripheral.new 0x12345678 PeripheralType.SoldierSensor)
          [65; 76; 80; 72; 65; 45; 49])
       EventType.Emergency 1705276800000)
    (Position.with_altitude (Position.new 0x42171EB8 0xC2F4CCCD) 0x41200000).

Lemma sample_wf : Peripheral.wf sample.
Proof. by_decide. Defined.

Lemma peripheral_roundtrip_witness :
  Peripheral.decode (Peripheral.encode sample ++ [0; 1; 2]) = Ok sample.
Proof. exact (peripheral_roundtrip sample [0; 1; 2] sample_wf). Defined.

(** Untrusted peripheral bytes never panic the decoder, and whatever it
    accepts has finite in-range coordinates, physiological health values, a
    UTF-8 callsign, a non-zero identifier and timestamps that are zero or not
    before 2020. *)
Theorem peripheral_decode_safe (data : list Z) :
  bytes_ok data →
  Peripheral.decode data ≠ Panic ∧ ∀ p, Peripheral.decode data = Ok p → Peripheral.wf p.
Proof.
  intros Hb. pose proof (PeripheralProofs.peripheral_decode_wp data Hb) as Hwp.
  split; [by eapply wp_safe|]. intros p. by apply wp_elim.
Qed.

Lemma peripheral_decode_safe_witness :
  let data := replicate 40 255 in
  Peripheral.decode data ≠ Panic ∧ ∀ p, Peripheral.decode data = Ok p → Peripheral.wf p.
Proof. intros data. apply (peripheral_decode_safe data). by_decide. Defined.

(** The peripheral's wire format.  A well-formed peripheral is read back,
    trailing bytes ignored; untrusted bytes never panic the decoder, and
    whatever it accepts has finite in-range coordinates, physiological health
    values, a UTF-8 callsign, a non-zero identifier and timestamps that are
    zero or not before 2020. *)
Theorem peripheral_wire_format (p : Peripheral.t) (rest data : list Z) :
  Peripheral.wf p → bytes_ok data →
  Peripheral.decode (Peripheral.encode p ++ rest) = Ok p
  ∧ wp (Peripheral.decode data) Peripheral.wf.
Proof.
  intros. split; [by apply PeripheralProofs.peripheral_decode_encode|].
  by apply PeripheralProofs.peripheral_decode_wp.
Qed.
Lemma peripheral_wire_format_witness :
  Peripheral.decode (Peripheral.encode sample ++ [0; 1; 2]) = Ok sample
  ∧ wp (Peripheral.decode (replicate 40 255)) Peripheral.wf.
Proof. apply (peripheral_wire_format sample [0; 1; 2] (replicate 40 255)); by_decide. Defined.

(** A callsign of more than 12 bytes whose twelfth byte falls inside a
    multi-byte character is cut in the middle of it, and every peer then
    rejects the peripheral's whole encoding. *)
Theorem callsign_truncation_rejected (p : Peripheral.t) (cs : list Z) :
  Peripheral.wf p → 12 ≤ zlen cs →
  list_find (λ b, b = 0) (ztake 12 cs) = None → utf8_valid (ztake 12 cs) = false →
  Peripheral.decode (Peripheral.encode (Peripheral.set_callsign p cs)) = Fail.
Proof.
  intros (Hid & Hid0 & Hpar & _ & _) Hl Hz Hu. unfold Peripheral.decode, Peripheral.encode.
  pose proof (SensorProofs.peripheral_type_byte (Peripheral.peripheral_type p)).
  unfold Peripheral.set_callsign.
  cbn [Peripheral.id Peripheral.parent_node Peripheral.peripheral_type Peripheral.callsign
       Peripheral.health Peripheral.last_event Peripheral.location Peripheral.timestamp].
  rewrite PeripheralProofs.copy_callsign_long by done.
  assert (Hz12 : zlen (ztake 12 cs) = 12) by len.
  pose proof (SensorProofs.health_encode_length (Peripheral.health p)).
  destruct (Peripheral.last_event p), (Peripheral.location p); cbn [app]; rd;
    rewrite PeripheralProofs.list_find_None_len, ztake_all, Hu by done; done.
Qed.

(** "EQUIPO ALFA" followed by a two-byte character. *)
Lemma callsign_truncation_rejected_witness :
  let cs := [69; 81; 85; 73; 80; 79; 32; 65; 76; 70; 65; 195; 177] in
  utf8_valid cs = true ∧
  Peripheral.decode (Peripheral.encode (Peripheral.set_callsign sample cs)) = Fail.
Proof.
  intros cs. split; [reflexivity|].
  apply (callsign_truncation_rejected sample cs sample_wf); [by_decide|reflexivity|reflexivity].
Defined.

(** Times counted from boot are refused: a peripheral stamped with a
    non-zero time before 2020 is rejected by every peer. *)
Lemma boot_time_rejected (p : Peripheral.t) :
  Peripheral.wf p →
  ∀ ty ts, 0 < ts < MIN_VALID_TIMESTAMP →
  Peripheral.decode (Peripheral.encode (Peripheral.set_event p ty ts)) = Fail.
Proof.
  intros (Hid & Hid0 & Hpar & (Hcl & Hcb & Hcu) & Hh & _ & Hloc & _) ty ts Hts.
  unfold Peripheral.decode, Peripheral.encode, Peripheral.set_event, PeripheralEvent.new.
  cbn [Peripheral.id Peripheral.parent_node Peripheral.peripheral_type Peripheral.callsign
       Peripheral.health Peripheral.last_event Peripheral.location Peripheral.timestamp].
  unfold MIN_VALID_TIMESTAMP in Hts. assert (in_u 64 ts) by lia.
  pose proof (SensorProofs.peripheral_type_byte (Peripheral.peripheral_type p)).
  assert (Hz : zlen (Peripheral.callsign p) = 12) by lia.
  pose proof (SensorProofs.health_encode_length (Peripheral.health p)).
  pose proof (SensorProofs.event_encode_length (PeripheralEvent.mk ty ts)) as Hel.
  assert (Hhd : HealthStatus.decode (HealthStatus.encode (Peripheral.health p))
                = Ok (Peripheral.health p))
    by (rewrite <-(app_nil_r (HealthStatus.encode _)); by apply SensorProofs.health_decode_encode).
  assert (Hev : PeripheralEvent.decode (PeripheralEvent.encode (PeripheralEvent.mk ty ts)) = Fail).
  { pose proof (SensorProofs.event_type_byte ty).
    unfold PeripheralEvent.decode, PeripheralEvent.encode.
    cbn [PeripheralEvent.event_type PeripheralEvent.timestamp app]. rd.
    rewrite (proj2 (Z.eqb_neq ts 0)), (proj2 (Z.ltb_lt ts _)) by (unfold MIN_VALID_TIMESTAMP; lia).
    done. }
  destruct (Peripheral.location p); cbn [app]; rd; rewrite Hcu, andb_false_r, Hhd; rd;
    zclosed; rd; rewrite Hev; rd;
    rewrite (proj2 (Z.eqb_neq ts 0)), (proj2 (Z.ltb_lt ts _)) by (unfold MIN_VALID_TIMESTAMP; lia);
    done.
Qed.

End SensorProperties.
