(* ===== verification/CrdtOp.v ===== *)
(** * CRDT operations of src/src/sync/crdt.rs ([CrdtOperation]) and their
    batches, src/src/sync/batch.rs: [OperationBatch], [BatchConfig] and
    [BatchAccumulator]. *)

From stdpp Require Import base numbers list sets.
From S2P Require Import Prelude Crdt Sensor.
Open Scope Z_scope.
Open Scope peat_scope.

Module CrdtOperation.

Inductive t :=
| UpdatePosition (node_id : Z) (position : Position.t) (timestamp : Z)
| UpdateHealth (node_id : Z) (status : HealthStatus.t) (timestamp : Z)
| IncrementCounter (counter_id node_id amount : Z)
| UpdateRegister (key : list Z) (value : list Z) (timestamp node_id : Z).

Definition size (self : t) : Z :=
  match self with
  | UpdatePosition _ position _ => 4 + 8 + zlen (Position.encode position)
  | UpdateHealth _ status _ => 4 + 8 + zlen (HealthStatus.encode status)
  | IncrementCounter _ _ _ => 1 + 4 + 8
  | UpdateRegister key value _ _ => 4 + 8 + zlen key + zlen value
  end.

Definition encode (self : t) : list Z :=
  match self with
  | UpdatePosition node_id position timestamp =>
      [1] ++ le 4 node_id ++ le 8 timestamp ++ Position.encode position
  | UpdateHealth node_id status timestamp =>
      [2] ++ le 4 node_id ++ le 8 timestamp ++ HealthStatus.encode status
  | IncrementCounter counter_id node_id amount =>
      [3] ++ [counter_id] ++ le 4 node_id ++ le 8 amount
  | UpdateRegister key value timestamp node_id =>
      [4] ++ le 4 node_id ++ le 8 timestamp ++ [wrap 8 (zlen key)] ++ key
      ++ le 2 (wrap 16 (zlen value)) ++ value
  end.

Definition decode_position (data : list Z) : outcome t :=
  reject_if zlen data <? 13 ;;
  let! node_id := u32_at data 1 in
  let! timestamp := u64_at data 5 in
  let! rest := slice_from data 13 in
  let! position := Position.decode rest in
  Ok (UpdatePosition node_id position timestamp).

Definition decode_health (data : list Z) : outcome t :=
  reject_if zlen data <? 13 ;;
  let! node_id := u32_at data 1 in
  let! timestamp := u64_at data 5 in
  let! rest := slice_from data 13 in
  let! status := HealthStatus.decode rest in
  Ok (UpdateHealth node_id status timestamp).

Definition decode_counter (data : list Z) : outcome t :=
  reject_if zlen data <? 14 ;;
  let! counter_id := u8_at data 1 in
  let! node_id := u32_at data 2 in
  let! amount := u64_at data 6 in
  Ok (IncrementCounter counter_id node_id amount).

Definition decode_register (data : list Z) : outcome t :=
  reject_if zlen data <? 14 ;;
  let! node_id := u32_at data 1 in
  let! timestamp := u64_at data 5 in
  let! key_len := u8_at data 13 in
  reject_if zlen data <? 14 + key_len + 2 ;;
  let! key := slice data 14 (14 + key_len) in
  reject_if negb (utf8_valid key) ;;
  let! value_len := u16_at data (14 + key_len) in
  reject_if zlen data <? 16 + key_len + value_len ;;
  let! value := slice data (16 + key_len) (16 + key_len + value_len) in
  Ok (UpdateRegister key value timestamp node_id).

Definition decode (data : list Z) : outcome t :=
  reject_if zlen data =? 0 ;;
  let! tag := u8_at data 0 in
  if tag =? 1 then decode_position data
  else if tag =? 2 then decode_health data
  else if tag =? 3 then decode_counter data
  else if tag =? 4 then decode_register data
  else Fail.

Definition wf (self : t) : Prop :=
  match self with
  | UpdatePosition node_id position timestamp =>
      in_u 32 node_id ∧ in_u 64 timestamp ∧ Position.wf position
  | UpdateHealth node_id status timestamp =>
      in_u 32 node_id ∧ in_u 64 timestamp ∧ HealthStatus.wf status
  | IncrementCounter counter_id node_id amount =>
      byte_ok counter_id ∧ in_u 32 node_id ∧ in_u 64 amount
  | UpdateRegister key value timestamp node_id =>
      in_u 32 node_id ∧ in_u 64 timestamp ∧ bytes_ok key ∧ bytes_ok value ∧
      utf8_valid key = true ∧ zlen key < 2 ^ 8 ∧ zlen value < 2 ^ 16
  end.

#[global] Instance wf_dec op : Decision (wf op).
Proof. destruct op; apply _. Defined.

End CrdtOperation.

(** ** Batches *)

Module OperationBatch.

Record t := mk { operations : list CrdtOperation.t; total_bytes : Z; created_at : Z }.

Definition encode_op (op : CrdtOperation.t) : list Z :=
  let encoded := CrdtOperation.encode op in le 2 (wrap 16 (zlen encoded)) ++ encoded.

Definition encode (self : t) : list Z :=
  le 2 (wrap 16 (zlen (operations self))) ++ flat_map encode_op (operations self).

Definition decode (data : list Z) : outcome t :=
  reject_if zlen data <? 2 ;;
  let! op_count := u16_at data 0 in
  let! st := for_range (Z.to_nat op_count) 0 (λ _ '((operations, total_bytes), offset),
      reject_if zlen data <? offset + 2 ;;
      let! op_len := u16_at data offset in
      let offset := offset + 2 in
      reject_if zlen data <? offset + op_len ;;
      let! bytes := slice data offset (offset + op_len) in
      let! op := CrdtOperation.decode bytes in
      Ok ((operations ++ [op], total_bytes + CrdtOperation.size op), offset + op_len))
    (([], 0), 2) in
  let '((operations, total_bytes), _) := st in
  Ok (mk operations total_bytes 0).

End OperationBatch.

(** ** Batch accumulator *)

Module BatchConfig.
Record t := mk {
  max_wait_ms : Z; max_bytes : Z; max_operations : Z; min_interval_ms : Z
}.
Definition default_config : t := mk 5000 512 20 1000.
Definition low_power : t := mk 30000 1024 50 10000.
Definition responsive : t := mk 1000 256 10 500.
End BatchConfig.

Module BatchAccumulator.
Import BatchConfig.

Record t := mk {
  config : BatchConfig.t;
  pending : list CrdtOperation.t;
  bytes_accumulated : Z;
  first_pending_time : option Z;
  last_sync_time : Z
}.

Definition new (config : BatchConfig.t) : t := mk config [] 0 None 0.

Definition add (self : t) (op : CrdtOperation.t) (current_time_ms : Z) : t * bool :=
  let op_size := CrdtOperation.size op in
  if (max_bytes (config self) <? bytes_accumulated self + op_size)
     && negb (zlen (pending self) =? 0)
  then (self, false)
  else if max_operations (config self) <=? zlen (pending self) then (self, false)
  else
    let first :=
      match first_pending_time self with None => Some current_time_ms | some => some end in
    (mk (config self) (pending self ++ [op]) (bytes_accumulated self + op_size)
        first (last_sync_time self), true).

Definition should_flush (self : t) (current_time_ms : Z) : outcome bool :=
  if zlen (pending self) =? 0 then Ok false
  else
    let! next := add_u 64 (last_sync_time self) (min_interval_ms (config self)) in
    if current_time_ms <? next then Ok false
    else if max_bytes (config self) <=? bytes_accumulated self then Ok true
    else if max_operations (config self) <=? zlen (pending self) then Ok true
    else
      match first_pending_time self with
      | Some first_time =>
          let! limit := add_u 64 first_time (max_wait_ms (config self)) in
          Ok (limit <=? current_time_ms)
      | None => Ok false
      end.

Definition flush (self : t) (current_time_ms : Z) : t * option OperationBatch.t :=
  if zlen (pending self) =? 0 then (self, None)
  else
    (mk (config self) [] 0 None current_time_ms,
     Some (OperationBatch.mk (pending self) (bytes_accumulated self) current_time_ms)).

Definition force_flush (self : t) (current_time_ms : Z) : t * option OperationBatch.t :=
  flush self current_time_ms.
Definition pending_count (self : t) : Z := zlen (pending self).
Definition has_pending (self : t) : bool := negb (zlen (pending self) =? 0).
Definition clear (self : t) : t := mk (config self) [] 0 None (last_sync_time self).
Definition set_config (self : t) (cfg : BatchConfig.t) : t :=
  mk cfg (pending self) (bytes_accumulated self) (first_pending_time self) (last_sync_time self).

End BatchAccumulator.

(** * Theorems *)

Module CrdtOpProofs.
Import CrdtOperation.

Lemma op_encode_bytes op : wf op → bytes_ok (encode op).
Proof.
  pose proof SensorProofs.position_encode_bytes. pose proof SensorProofs.health_encode_bytes.
  destruct op; unfold encode, wf; intros; destruct_and!;
    repeat first [solve [auto] | apply bytes_app | apply le_bytes; lia | assumption
                 | (apply bytes_cons; [|apply bytes_nil]); first [lia | by apply (wrap_bound 8)]];
    auto.
Qed.

(** The encoded length against the [size] estimate the batcher uses. *)
Lemma op_encode_length op :
  zlen (encode op) = size op + match op with UpdateRegister _ _ _ _ => 4 | _ => 1 end.
Proof. destruct op; unfold encode, size; len. Qed.

Lemma op_decode_encode op rest : wf op → decode (encode op ++ rest) = Ok op.
Proof.
  destruct op as [n p ts|n h ts|c n a|k v ts n]; intros H; cbn in H; destruct_and! H;
    unfold decode, encode; rewrite <-!app_assoc; cbn [app]; rd; zclosed.
  - unfold decode_position. rd. by rewrite SensorProofs.position_decode_encode by done.
  - unfold decode_health. rd. by rewrite SensorProofs.health_decode_encode by done.
  - unfold decode_counter. by rd.
  - unfold decode_register. rewrite !wrap_small by lia. rd. rewrite H5. cbn [negb]. rd. done.
Qed.

Lemma op_decode_wp data : bytes_ok data → wp (decode data) wf.
Proof.
  intros Hb. unfold decode.
  unfold decode_position, decode_health, decode_counter, decode_register. wp_steps;
    cbn [wf]; destruct_and?; split_and!; try done; try lia.
  by apply negb_false_iff.
Qed.

End CrdtOpProofs.

#[export] Hint Resolve CrdtOpProofs.op_decode_wp : wp.

Module BatchProofs.
Import OperationBatch.

(** What the 16-bit count and the 16-bit lengths of a batch can carry. *)
Definition batch_op_ok (op : CrdtOperation.t) : Prop :=
  CrdtOperation.wf op ∧ zlen (CrdtOperation.encode op) < 2 ^ 16.
Definition batch_wf (ops : list CrdtOperation.t) : Prop :=
  Forall batch_op_ok ops ∧ zlen ops < 2 ^ 16.

#[global] Instance batch_wf_dec ops : Decision (batch_wf ops).
Proof. unfold batch_wf, batch_op_ok. apply _. Defined.

Definition batch_sizes (ops : list CrdtOperation.t) : Z := zsum (CrdtOperation.size <$> ops).

Lemma batch_sizes_app a b : batch_sizes (a ++ b) = batch_sizes a + batch_sizes b.
Proof. unfold batch_sizes. by rewrite fmap_app, zsum_app. Qed.
Lemma op_size_nonneg op : 0 ≤ CrdtOperation.size op.
Proof. destruct op; cbn [CrdtOperation.size]; lia. Qed.

Lemma batch_fold ops acc tot :
  foldl (λ '(l, n) op, (l ++ [op], n + CrdtOperation.size op)) (acc, tot) ops
  = (acc ++ ops, tot + batch_sizes ops).
Proof.
  revert acc tot. induction ops as [|op ops IH]; intros acc tot; cbn [foldl].
  - unfold batch_sizes. cbn. by rewrite app_nil_r, Z.add_0_r.
  - rewrite IH. unfold batch_sizes. cbn [fmap list_fmap zsum]. rewrite <-app_assoc. f_equal. lia.
Qed.

Lemma batch_decode_encode b rest :
  batch_wf (operations b) →
  decode (encode b ++ rest) = Ok (mk (operations b) (batch_sizes (operations b)) 0).
Proof.
  intros [Hops Hn]. unfold decode, encode. rewrite <-app_assoc, wrap_small by lia. rd.
  erewrite (for_range_entries encode_op
    (λ '(l, n) op, (l ++ [op], n + CrdtOperation.size op)) _ _
    (operations b) (le 2 (zlen (operations b))) rest).
  - cbn [obind]. rewrite batch_fold. done.
  - lia.
  - len.
  - done.
  - intros op p q i [l n] Hin ->.
    rewrite Forall_forall in Hops. destruct (Hops op Hin) as [Hwf Hlen].
    unfold encode_op. rewrite wrap_small by lia. rewrite <-!app_assoc. rd.
    rewrite <-(app_nil_r (CrdtOperation.encode op)), CrdtOpProofs.op_decode_encode by done.
    cbn [obind]. do 2 f_equal. rewrite app_nil_r. len.
Qed.

Lemma batch_decode_wp data :
  bytes_ok data →
  wp (decode data) (λ b, Forall CrdtOperation.wf (operations b) ∧
                         total_bytes b = batch_sizes (operations b) ∧
                         zlen (operations b) < 2 ^ 16).
Proof.
  intros Hb. unfold decode. wp_steps.
  apply (wp_for_range _ _ _ _ (λ j '((l, n), off),
    0 ≤ off ∧ Forall CrdtOperation.wf l ∧ n = batch_sizes l ∧ zlen l = j)).
  - split_and!; done.
  - intros j [[l n] off] Hj (Hoff & Hl & -> & Hlen). wp_steps. split_and!.
    + lia.
    + by apply Forall_app_2; [|constructor].
    + rewrite batch_sizes_app. unfold batch_sizes at 3. cbn. lia.
    + len.
  - intros [[l n] off] (_ & Hl & -> & Hlen). apply wp_ok. cbn. split_and!; [done|done|lia].
Qed.

End BatchProofs.

Module AccumulatorProofs.
Import BatchConfig BatchAccumulator.

(** A run of an accumulator: operations offered and flushes requested, each
    at a time.  [a_accepted] collects what [add] took and [a_flushed] the
    batches that left. *)
Inductive event :=
| Add (op : CrdtOperation.t) (now : Z)
| Flush (now : Z).

Record run := mk_run {
  acc : BatchAccumulator.t;
  a_accepted : list CrdtOperation.t;
  a_flushed : list OperationBatch.t
}.

Definition run_step (r : run) (e : event) : run :=
  match e with
  | Add op now =>
      let '(acc', taken) := add (acc r) op now in
      mk_run acc' (if taken then a_accepted r ++ [op] else a_accepted r) (a_flushed r)
  | Flush now =>
      let '(acc', b) := flush (acc r) now in
      mk_run acc' (a_accepted r)
        (match b with Some b => a_flushed r ++ [b] | None => a_flushed r end)
  end.

Definition run_all (cfg : BatchConfig.t) (es : list event) : run :=
  foldl run_step (mk_run (new cfg) [] []) es.

(** A list of operations that respects the limits of a configuration: it
    fits, or it is one oversized operation. *)
Definition within (cfg : BatchConfig.t) (ops : list CrdtOperation.t) : Prop :=
  zlen ops ≤ Z.max 0 (max_operations cfg) ∧
  (BatchProofs.batch_sizes ops ≤ max_bytes cfg ∨ zlen ops ≤ 1).

Definition acc_ok (a : BatchAccumulator.t) : Prop :=
  bytes_accumulated a = BatchProofs.batch_sizes (pending a) ∧
  within (config a) (pending a) ∧
  (first_pending_time a = None ↔ pending a = []).

Definition run_inv (cfg : BatchConfig.t) (r : run) : Prop :=
  config (acc r) = cfg ∧ acc_ok (acc r) ∧
  flat_map OperationBatch.operations (a_flushed r) ++ pending (acc r) = a_accepted r ∧
  Forall (λ b, OperationBatch.operations b ≠ [] ∧
    OperationBatch.total_bytes b = BatchProofs.batch_sizes (OperationBatch.operations b) ∧
    within cfg (OperationBatch.operations b)) (a_flushed r).

Lemma zlen_0 {A} (l : list A) : (zlen l =? 0) = true ↔ l = [].
Proof. rewrite Z.eqb_eq. destruct l; cbn; split; try done; lia. Qed.
Lemma zlen_n0 {A} (l : list A) : (zlen l =? 0) = false ↔ l ≠ [].
Proof. rewrite <-not_true_iff_false, zlen_0. done. Qed.

Lemma acc_new_ok cfg : acc_ok (new cfg).
Proof.
  split_and!; [done| |done]. split; cbn [new pending length config]; [lia|right; lia].
Qed.

Lemma acc_add_ok a op now : acc_ok a → acc_ok (add a op now).1.
Proof.
  intros Ha. destruct (Ha) as (Hb & [Hn Hw] & Hf). unfold add.
  destruct (_ && _) eqn:E; [done|]. destruct (_ <=? _) eqn:E2; [done|]. cbn.
  split_and!; cbn [bytes_accumulated pending first_pending_time].
  - rewrite BatchProofs.batch_sizes_app, Hb. unfold BatchProofs.batch_sizes at 3. cbn. lia.
  - split; cbn [config pending]; [len|].
    apply andb_false_iff in E as [E|E].
    + left. rewrite BatchProofs.batch_sizes_app. unfold BatchProofs.batch_sizes at 2. cbn. lia.
    + right. apply negb_false_iff, zlen_0 in E as ->. cbn. lia.
  - destruct (first_pending_time a), (pending a); done.
Qed.

Lemma acc_flush_ok a now : acc_ok a → acc_ok (flush a now).1.
Proof.
  intros Ha. unfold flush. destruct (_ =? _); [done|].
  pose proof (acc_new_ok (config a)) as (? & ? & ?). by split_and!.
Qed.

Lemma add_config a op now : config (add a op now).1 = config a.
Proof. unfold add. destruct (_ && _); [done|]. by destruct (_ <=? _). Qed.
Lemma flush_config a now : config (flush a now).1 = config a.
Proof. unfold flush. by destruct (_ =? _). Qed.

Lemma run_step_inv cfg r e : run_inv cfg r → run_inv cfg (run_step r e).
Proof.
  destruct r as [a accepted flushed]. intros (Hc & Ha & Hl & Hf). cbn [acc a_accepted a_flushed] in *.
  destruct e as [op now|now]; cbn [run_step acc a_accepted a_flushed].
  - pose proof (acc_add_ok a op now Ha) as Hok. pose proof (add_config a op now) as Hcfg.
    destruct (add a op now) as [a' taken] eqn:E. cbn [fst] in *.
    split_and!; cbn [acc a_accepted a_flushed]; [congruence|done| |done]. unfold add in E.
    destruct (_ && _); [by injection E as <- <-|].
    destruct (_ <=? _); injection E as <- <-; [done|]. cbn. by rewrite app_assoc, Hl.
  - pose proof (acc_flush_ok a now Ha) as Hok. pose proof (flush_config a now) as Hcfg.
    destruct (flush a now) as [a' b] eqn:E. cbn [fst] in *.
    unfold flush in E. destruct (zlen (pending a) =? 0) eqn:E0; injection E as <- <-.
    + by split_and!.
    + destruct Ha as (Hb & Hw & _).
      split_and!; cbn [acc a_accepted a_flushed]; [congruence|done| |].
      * rewrite flat_map_app. cbn. by rewrite !app_nil_r.
      * apply Forall_app_2; [done|]. constructor; [|constructor]. cbn.
        split_and!; [by apply zlen_n0|done|congruence].
Qed.

Lemma run_all_inv cfg es : run_inv cfg (run_all cfg es).
Proof.
  unfold run_all. apply foldl_inv.
  - split_and!; cbn; try done. apply acc_new_ok.
  - intros. by apply run_step_inv.
Qed.

End AccumulatorProofs.

Module CrdtOpProperties.

(** Batch wire format.  A batch of well-formed operations whose count and
    encoded lengths fit the 16-bit fields decodes, from a buffer that may
    hold more bytes, to the same operations in the same order, with the byte
    total recomputed from the operations and the creation time reset. *)
Theorem batch_roundtrip (b : OperationBatch.t) (rest : list Z) :
  BatchProofs.batch_wf (OperationBatch.operations b) →
  OperationBatch.decode (OperationBatch.encode b ++ rest)
  = Ok (OperationBatch.mk (OperationBatch.operations b)
          (BatchProofs.batch_sizes (OperationBatch.operations b)) 0).
Proof. apply BatchProofs.batch_decode_encode. Qed.

(** One operation of each kind. *)
Definition sample_ops : list CrdtOperation.t := [
  CrdtOperation.UpdatePosition 1 (Position.new 0x42171EB8 0xC2F4CCCD) 1000;
  CrdtOperation.UpdateHealth 2 (HealthStatus.with_heart_rate (HealthStatus.new 85) 72) 1001;
  CrdtOperation.IncrementCounter 1 3 42;
  CrdtOperation.UpdateRegister [195; 177; 97] [1; 2; 3] 1002 4 ].

Lemma batch_roundtrip_witness :
  OperationBatch.decode
    (OperationBatch.encode (OperationBatch.mk sample_ops 100 3000) ++ [7])
  = Ok (OperationBatch.mk sample_ops (BatchProofs.batch_sizes sample_ops) 0).
Proof. apply (batch_roundtrip (OperationBatch.mk sample_ops 100 3000) [7]). by_decide. Defined.

(** Bytes from the radio never panic the batch decoder; what it accepts
    holds only well-formed operations (in-range positions and health, UTF-8
    keys), and its byte total is the sum of their sizes. *)
Theorem batch_decode_safe (data : list Z) :
  bytes_ok data →
  OperationBatch.decode data ≠ Panic ∧
  ∀ b, OperationBatch.decode data = Ok b →
    Forall CrdtOperation.wf (OperationBatch.operations b) ∧
    OperationBatch.total_bytes b = BatchProofs.batch_sizes (OperationBatch.operations b).
Proof.
  intros Hb. pose proof (BatchProofs.batch_decode_wp data Hb) as Hwp.
  split; [by eapply wp_safe|]. intros b E.
  by destruct (wp_elim _ _ _ Hwp E) as (? & ? & _).
Qed.

Lemma batch_decode_safe_witness :
  let data := [2; 0; 13; 0; 2; 1; 0; 0; 0; 255; 255; 255; 255; 255; 255; 255; 255] in
  OperationBatch.decode data ≠ Panic ∧
  ∀ b, OperationBatch.decode data = Ok b →
    Forall CrdtOperation.wf (OperationBatch.operations b) ∧
    OperationBatch.total_bytes b = BatchProofs.batch_sizes (OperationBatch.operations b).
Proof. intros data. apply (batch_decode_safe data). by_decide. Defined.

(** The batch's wire format.  A batch whose operations fit the 16-bit
    fields is read back, trailing bytes ignored, with the exact byte total;
    bytes from the radio never panic the decoder, and what it accepts holds
    only well-formed operations and their exact total. *)
Theorem batch_codec (b : OperationBatch.t) (rest data : list Z) :
  BatchProofs.batch_wf (OperationBatch.operations b) → bytes_ok data →
  OperationBatch.decode (OperationBatch.encode b ++ rest)
  = Ok (OperationBatch.mk (OperationBatch.operations b)
          (BatchProofs.batch_sizes (OperationBatch.operations b)) 0)
  ∧ wp (OperationBatch.decode data) (λ b',
      Forall CrdtOperation.wf (OperationBatch.operations b')
      ∧ OperationBatch.total_bytes b' = BatchProofs.batch_sizes (OperationBatch.operations b')).
Proof.
  intros. split; [by apply BatchProofs.batch_decode_encode|].
  eapply wp_mono; [by apply BatchProofs.batch_decode_wp|]. cbn. naive_solver.
Qed.
Lemma batch_codec_witness :
  let data := [2; 0; 13; 0; 2; 1; 0; 0; 0; 255; 255; 255; 255; 255; 255; 255; 255] in
  OperationBatch.decode
    (OperationBatch.encode (OperationBatch.mk sample_ops 100 3000) ++ [7])
  = Ok (OperationBatch.mk sample_ops (BatchProofs.batch_sizes sample_ops) 0)
  ∧ wp (OperationBatch.decode data) (λ b',
      Forall CrdtOperation.wf (OperationBatch.operations b')
      ∧ OperationBatch.total_bytes b' = BatchProofs.batch_sizes (OperationBatch.operations b')).
Proof.
  intros data. apply (batch_codec (OperationBatch.mk sample_ops 100 3000) [7] data); by_decide.
Defined.

(** The accumulator loses and reorders nothing.  After any sequence of
    offers and flushes, the operations in the batches that left, followed by
    the pending ones, are exactly the operations [add] accepted, in order;
    the byte count is the sum of the pending sizes; and every batch respects
    the configured limits, an operation larger than the byte limit
    travelling alone. *)
Theorem accumulator_lossless (cfg : BatchConfig.t) (es : list AccumulatorProofs.event) :
  let r := AccumulatorProofs.run_all cfg es in
  let a := AccumulatorProofs.acc r in
  flat_map OperationBatch.operations (AccumulatorProofs.a_flushed r)
    ++ BatchAccumulator.pending a = AccumulatorProofs.a_accepted r ∧
  BatchAccumulator.bytes_accumulated a
    = BatchProofs.batch_sizes (BatchAccumulator.pending a) ∧
  AccumulatorProofs.within cfg (BatchAccumulator.pending a) ∧
  Forall (λ b, OperationBatch.operations b ≠ [] ∧
    OperationBatch.total_bytes b = BatchProofs.batch_sizes (OperationBatch.operations b) ∧
    AccumulatorProofs.within cfg (OperationBatch.operations b))
    (AccumulatorProofs.a_flushed r).
Proof.
  intros r a. destruct (AccumulatorProofs.run_all_inv cfg es) as (Hc & (Hb & Hw & _) & Hl & Hf).
  rewrite Hc in Hw. by split_and!.
Qed.

(** When to flush.  In a state the accumulator can reach, and while its
    two deadlines fit in 64 bits, a flush is due exactly when something is
    pending, the minimum interval since the last flush has passed, and the
    byte limit, the operation limit or the waiting time of the oldest
    pending operation is reached; otherwise it is [false], without panic. *)
Theorem should_flush_iff (a : BatchAccumulator.t) (now : Z) :
  let cfg := BatchAccumulator.config a in
  let due := BatchAccumulator.last_sync_time a + BatchConfig.min_interval_ms cfg in
  AccumulatorProofs.acc_ok a → due < 2 ^ 64 →
  (∀ f, BatchAccumulator.first_pending_time a = Some f →
    f + BatchConfig.max_wait_ms cfg < 2 ^ 64) →
  BatchAccumulator.should_flush a now ∈ [Ok true; Ok false] ∧
  (BatchAccumulator.should_flush a now = Ok true ↔
   BatchAccumulator.pending a ≠ [] ∧ due ≤ now ∧
   (BatchConfig.max_bytes cfg ≤ BatchAccumulator.bytes_accumulated a ∨
    BatchConfig.max_operations cfg ≤ zlen (BatchAccumulator.pending a) ∨
    ∃ f, BatchAccumulator.first_pending_time a = Some f ∧
         f + BatchConfig.max_wait_ms cfg ≤ now)).
Proof.
  intros cfg due (_ & _ & Hf) Hdue Hwait. unfold BatchAccumulator.should_flush, add_u.
  fold cfg. fold due. rewrite (proj2 (Z.ltb_lt due _)) by done. cbn [obind].
  destruct (zlen (BatchAccumulator.pending a) =? 0) eqn:E0.
  { apply AccumulatorProofs.zlen_0 in E0. set_solver. }
  apply AccumulatorProofs.zlen_n0 in E0.
  destruct (BatchAccumulator.first_pending_time a) as [f|];
    [|by destruct (E0 (proj1 Hf eq_refl))].
  rewrite (proj2 (Z.ltb_lt (f + _) _)) by auto. cbn [obind]. clear Hf Hwait.
  destruct (now <? due) eqn:E1; [split; [set_solver|split; [done|lia]]|].
  destruct (_ <=? BatchAccumulator.bytes_accumulated a) eqn:E2;
    [split; [set_solver|split; [|done]]; intros _; split_and!; [done|lia|left; lia]|].
  destruct (_ <=? zlen (BatchAccumulator.pending a)) eqn:E3;
    [split; [set_solver|split; [|done]]; intros _; split_and!; [done|lia|right; left; lia]|].
  destruct (_ <=? now) eqn:E4; (split; [set_solver|split]); try done.
  - intros _. split_and!; [done|lia|]. right; right. exists f. split; [done|lia].
  - intros (_ & _ & [?|[?|(? & [= <-] & ?)]]); lia.
Qed.

Lemma should_flush_iff_witness :
  let a := (BatchAccumulator.add (BatchAccumulator.new BatchConfig.default_config)
              (CrdtOperation.IncrementCounter 0 1 1) 1000).1 in
  BatchAccumulator.should_flush a 6000 ∈ [Ok true; Ok false] ∧
  (BatchAccumulator.should_flush a 6000 = Ok true ↔
   BatchAccumulator.pending a ≠ [] ∧ 0 + 1000 ≤ 6000 ∧
   (512 ≤ BatchAccumulator.bytes_accumulated a ∨
    20 ≤ zlen (BatchAccumulator.pending a) ∨
    ∃ f, BatchAccumulator.first_pending_time a = Some f ∧ f + 5000 ≤ 6000)).
Proof.
  intros a. apply (should_flush_iff a 6000).
  - apply AccumulatorProofs.acc_add_ok, AccumulatorProofs.acc_new_ok.
  - by_decide.
  - intros f [= <-]. by_decide.
Defined.

(** A register key of 256 bytes has its length written as 0: the operation
    is lost on the wire. *)
Example long_key_lost :
  CrdtOperation.decode
    (CrdtOperation.encode (CrdtOperation.UpdateRegister (replicate 256 97) [] 1 2)) = Fail.
Proof. reflexivity. Qed.

End CrdtOpProperties.
