(* ===== verification/Delta.v ===== *)
(** * Delta synchronisation of src/src/sync/delta.rs: what has been sent to
    each peer ([PeerSyncState], [DeltaEncoder]) and the vector clock. *)

From Stdlib Require Import String.
From stdpp Require Import base numbers list gmap sets.
From S2P Require Import Prelude Crdt Sensor CrdtOp.
Open Scope Z_scope.
Open Scope peat_scope.

(** ** Per-peer state *)

Module PeerSyncState.

Record t := mk {
  last_sent : gmap (list Z) Z;
  last_received_timestamp : Z;
  sync_count : Z;
  bytes_sent : Z;
  bytes_received : Z
}.

Definition new : t := mk ∅ 0 0 0 0.
Definition mark_sent (self : t) (key : list Z) (timestamp : Z) : t :=
  mk (<[key := timestamp]> (last_sent self)) (last_received_timestamp self)
    (sync_count self) (bytes_sent self) (bytes_received self).
Definition last_sent_timestamp (self : t) (key : list Z) : option Z := last_sent self !! key.
Definition needs_send (self : t) (key : list Z) (timestamp : Z) : bool :=
  match last_sent self !! key with
  | Some last => last <? timestamp
  | None => true
  end.
Definition reset (self : t) : t :=
  mk ∅ (last_received_timestamp self) (sync_count self) (bytes_sent self) (bytes_received self).

End PeerSyncState.

(** ** Delta encoder *)

Module DeltaEncoder.

Record t := mk {
  node_id : Z;
  peers : gmap Z PeerSyncState.t;
  current_state : gmap (list Z) (Z * Z)
}.

Definition new (node_id : Z) : t := mk node_id ∅ ∅.
Definition set_peers (self : t) (ps : gmap Z PeerSyncState.t) : t :=
  mk (node_id self) ps (current_state self).

Definition add_peer (self : t) (peer_id : Z) : t :=
  set_peers self (<[peer_id := or_insert (peers self) peer_id PeerSyncState.new]> (peers self)).
Definition remove_peer (self : t) (peer_id : Z) : t :=
  set_peers self (delete peer_id (peers self)).
Definition get_peer_state (self : t) (peer_id : Z) : option PeerSyncState.t :=
  peers self !! peer_id.
Definition update_state (self : t) (key : list Z) (value_hash timestamp : Z) : t :=
  mk (node_id self) (peers self) (<[key := (value_hash, timestamp)]> (current_state self)).

Definition operation_key_timestamp (op : CrdtOperation.t) : list Z * Z :=
  match op with
  | CrdtOperation.UpdatePosition node_id _ timestamp =>
      (str "pos:" ++ hex8 node_id, timestamp)
  | CrdtOperation.UpdateHealth node_id _ timestamp =>
      (str "health:" ++ hex8 node_id, timestamp)
  | CrdtOperation.IncrementCounter counter_id node_id _ =>
      (str "counter:" ++ dec_u8 counter_id ++ str ":" ++ hex8 node_id, u64_max)
  | CrdtOperation.UpdateRegister key _ timestamp node_id =>
      (str "reg:" ++ key ++ str ":" ++ hex8 node_id, timestamp)
  end.

Definition filter_for_peer (self : t) (peer_id : Z) (operations : list CrdtOperation.t)
    : list CrdtOperation.t :=
  match peers self !! peer_id with
  | Some peer_state =>
      filter (λ op, let '(key, timestamp) := operation_key_timestamp op in
        PeerSyncState.needs_send peer_state key timestamp = true) operations
  | None => operations
  end.

Definition mark_sent (self : t) (peer_id : Z) (operations : list CrdtOperation.t) : t :=
  match peers self !! peer_id with
  | Some peer_state =>
      set_peers self (<[peer_id :=
        foldl (λ st op, let '(key, timestamp) := operation_key_timestamp op in
          PeerSyncState.mark_sent st key timestamp) peer_state operations]> (peers self))
  | None => self
  end.

Definition record_sent (self : t) (peer_id bytes : Z) : outcome t :=
  match peers self !! peer_id with
  | Some st =>
      let! sent := add_u 64 (PeerSyncState.bytes_sent st) bytes in
      let! count := add_u 32 (PeerSyncState.sync_count st) 1 in
      Ok (set_peers self (<[peer_id := PeerSyncState.mk (PeerSyncState.last_sent st)
            (PeerSyncState.last_received_timestamp st) count sent
            (PeerSyncState.bytes_received st)]> (peers self)))
  | None => Ok self
  end.

Definition record_received (self : t) (peer_id bytes timestamp : Z) : outcome t :=
  match peers self !! peer_id with
  | Some st =>
      let! received := add_u 64 (PeerSyncState.bytes_received st) bytes in
      Ok (set_peers self (<[peer_id := PeerSyncState.mk (PeerSyncState.last_sent st)
            timestamp (PeerSyncState.sync_count st) (PeerSyncState.bytes_sent st)
            received]> (peers self)))
  | None => Ok self
  end.

Definition reset_peer (self : t) (peer_id : Z) : t :=
  match peers self !! peer_id with
  | Some st => set_peers self (<[peer_id := PeerSyncState.reset st]> (peers self))
  | None => self
  end.

End DeltaEncoder.

Module DeltaStats.
Record t := mk {
  peer_count : Z; total_bytes_sent : Z; total_bytes_received : Z;
  total_syncs : Z; tracked_keys : Z
}.
End DeltaStats.

Definition delta_stats `{!MapOrder Z} (self : DeltaEncoder.t) : outcome DeltaStats.t :=
  let! totals :=
    foldl (λ acc '(_, state),
        let! a := acc in
        let '(sent, received, syncs) := a in
        let! sent := add_u 64 sent (PeerSyncState.bytes_sent state) in
        let! received := add_u 64 received (PeerSyncState.bytes_received state) in
        let! syncs := add_u 32 syncs (PeerSyncState.sync_count state) in
        Ok (sent, received, syncs))
      (Ok (0, 0, 0)) (map_iter (DeltaEncoder.peers self)) in
  let '(sent, received, syncs) := totals in
  Ok (DeltaStats.mk (Z.of_nat (size (DeltaEncoder.peers self))) sent received syncs
        (Z.of_nat (size (DeltaEncoder.current_state self)))).

(** ** Vector clock *)

Module VectorClock.

Record t := mk { clocks : gmap Z Z }.

Section ops.
Context `{!MapOrder Z}.

Definition new : t := mk ∅.
Definition get (self : t) (node_id : Z) : Z := default 0 (clocks self !! node_id).
Definition increment (self : t) (node_id : Z) : outcome (t * Z) :=
  let! clock := add_u 64 (or_insert (clocks self) node_id 0) 1 in
  Ok (mk (<[node_id := clock]> (clocks self)), clock).
Definition update (self : t) (node_id value : Z) : t :=
  mk (<[node_id := Z.max (or_insert (clocks self) node_id 0) value]> (clocks self)).
Definition merge (self other : t) : t :=
  mk (foldl (λ m '(node_id, value),
        <[node_id := Z.max (or_insert m node_id 0) value]> m)
      (clocks self) (map_iter (clocks other))).

(** The first loop returns [None] at its [return false]. *)
Definition happens_before (self other : t) : bool :=
  let first :=
    foldl (λ acc '(node_id, our_val),
        match acc with
        | None => None
        | Some dominated =>
            let their_val := get other node_id in
            if their_val <? our_val then None
            else Some (if our_val <? their_val then true else dominated)
        end) (Some false) (map_iter (clocks self)) in
  match first with
  | None => false
  | Some dominated =>
      foldl (λ dominated '(node_id, their_val),
          if negb (bool_decide (is_Some (clocks self !! node_id))) && (0 <? their_val)
          then true else dominated)
        dominated (map_iter (clocks other))
  end.

Definition concurrent_with (self other : t) : bool :=
  negb (happens_before self other) && negb (happens_before other self).

Definition encode_entry (e : Z * Z) : list Z := le 4 e.1 ++ le 8 e.2.
Definition encode (self : t) : list Z :=
  le 4 (wrap 32 (Z.of_nat (size (clocks self))))
  ++ flat_map encode_entry (map_iter (clocks self)).

Definition decode (data : list Z) : outcome t :=
  reject_if zlen data <? 4 ;;
  let! count := u32_at data 0 in
  reject_if zlen data <? 4 + count * 12 ;;
  let! st := for_range (Z.to_nat count) 0 (λ _ '(clocks, offset),
      let! node_id := u32_at data offset in
      let! value := u64_at data (offset + 4) in
      Ok (<[node_id := value]> clocks, offset + 12)) (∅, 4) in
  Ok (mk st.1).

End ops.

Definition typed (self : t) : Prop :=
  map_Forall (λ k v, in_u 32 k ∧ in_u 64 v) (clocks self).
Definition wf (self : t) : Prop := typed self ∧ Z.of_nat (size (clocks self)) < 2 ^ 32.

End VectorClock.

(** * Theorems *)

Module VectorClockProofs.
Import VectorClock.

Section vc.
Context `{!MapOrder Z}.
Implicit Types a b c : t.

(** The pointwise order of the clocks. *)
Definition vc_le a b : Prop := ∀ n, get a n ≤ get b n.
Definition vc_lt a b : Prop := vc_le a b ∧ ∃ n, get a n < get b n.

Lemma vc_get_nonneg a n : typed a → 0 ≤ get a n.
Proof.
  intros Ha. unfold get. destruct (clocks a !! n) eqn:E; cbn; [apply Ha in E|]; lia.
Qed.

Lemma vc_first_loop b l d :
  foldl (λ acc '(node_id, our_val),
      match acc with
      | None => None
      | Some dominated =>
          if get b node_id <? our_val then None
          else Some (if our_val <? get b node_id then true else dominated)
      end) (Some d) l
  = if forallb (λ e, e.2 <=? get b e.1) l
    then Some (d || existsb (λ e, e.2 <? get b e.1) l) else None.
Proof.
  assert (∀ l, foldl (λ acc '(node_id, our_val),
      match acc with
      | None => None
      | Some dominated =>
          if get b node_id <? our_val then None
          else Some (if our_val <? get b node_id then true else dominated)
      end) None l = None) as Hnone.
  { clear l. induction l as [|[k v] l IH]; done. }
  revert d. induction l as [|[k v] l IH]; intros d; cbn; [by rewrite orb_false_r|].
  destruct (get b k <? v) eqn:E1.
  { rewrite (proj2 (Z.leb_gt v _)) by lia. apply Hnone. }
  rewrite (proj2 (Z.leb_le v _)) by lia. cbn. rewrite IH.
  destruct (forallb _ _); [|done]. f_equal. destruct (v <? get b k), d; done.
Qed.

Lemma vc_second_loop a l d :
  foldl (λ dominated '(node_id, their_val),
      if negb (bool_decide (is_Some (clocks a !! node_id))) && (0 <? their_val)
      then true else dominated) d l
  = d || existsb (λ e, negb (bool_decide (is_Some (clocks a !! e.1))) && (0 <? e.2)) l.
Proof.
  revert d. induction l as [|[k v] l IH]; intros d; cbn; [by rewrite orb_false_r|].
  rewrite IH. destruct (negb _ && _), d; done.
Qed.

Lemma happens_before_spec a b : typed a → typed b → happens_before a b = true ↔ vc_lt a b.
Proof.
  intros Ha Hb. unfold happens_before. rewrite vc_first_loop.
  destruct (forallb _ _) eqn:Hall.
  - rewrite vc_second_loop. cbn [orb].
    rewrite forallb_forall in Hall.
    assert (vc_le a b) as Hle.
    { intros n. unfold get at 1. destruct (clocks a !! n) as [v|] eqn:E; cbn.
      - specialize (Hall (n, v)). cbn in Hall. apply Z.leb_le, Hall.
        by apply list_elem_of_In, elem_of_map_iter.
      - by apply vc_get_nonneg. }
    rewrite orb_true_iff, !existsb_exists. split.
    + intros [([k v] & Hin & Hlt)|([k v] & Hin & Hlt)]; (split; [done|]); exists k;
        apply list_elem_of_In, elem_of_map_iter in Hin; cbn in Hlt; unfold get.
      * rewrite Hin. cbn. apply Z.ltb_lt, Hlt.
      * apply andb_true_iff in Hlt as [Hn Hlt]. apply negb_true_iff, bool_decide_eq_false in Hn.
        apply eq_None_not_Some in Hn. rewrite Hn, Hin. cbn. lia.
    + intros [_ [n Hn]]. unfold get in Hn.
      destruct (clocks a !! n) as [v|] eqn:Ea; cbn in Hn.
      * left. exists (n, v). split; [by apply list_elem_of_In, elem_of_map_iter|].
        cbn. by apply Z.ltb_lt.
      * right. destruct (clocks b !! n) as [w|] eqn:Eb; cbn in Hn; [|lia].
        exists (n, w). split; [by apply list_elem_of_In, elem_of_map_iter|]. cbn.
        rewrite Ea. by apply Z.ltb_lt.
  - split; [done|]. intros [Hle _]. exfalso.
    apply not_true_iff_false in Hall. apply Hall, forallb_forall.
    intros [k v] Hin. apply list_elem_of_In, elem_of_map_iter in Hin. cbn.
    specialize (Hle k). unfold get at 1 in Hle. rewrite Hin in Hle. cbn in Hle. lia.
Qed.

Lemma vc_merge_get a b n : typed a → typed b → get (merge a b) n = Z.max (get a n) (get b n).
Proof.
  intros Ha Hb. pose proof (vc_get_nonneg a n Ha). unfold get, merge in *. cbn [clocks].
  rewrite (upsert_all_iter_lookup (λ o v, Z.max (default 0 o) v)).
  destruct (clocks b !! n); cbn; lia.
Qed.

Lemma vc_increment_lt a n a' v :
  typed a → increment a n = Ok (a', v) → v = get a n + 1 ∧ vc_lt a a' ∧
  ∀ k, k ≠ n → get a' k = get a k.
Proof.
  intros Ha. unfold increment, add_u. destruct (_ <? _) eqn:E; cbn; [|done]. intros [= <- <-].
  assert (∀ k, k ≠ n → get (mk (<[n:=or_insert (clocks a) n 0 + 1]> (clocks a))) k = get a k)
    as Hk by (intros k Hk; unfold get; cbn; by rewrite lookup_insert_ne).
  assert (get (mk (<[n:=or_insert (clocks a) n 0 + 1]> (clocks a))) n = get a n + 1)
    as Hn by (unfold get; cbn; by rewrite lookup_insert_eq).
  split_and!; [done| |done]. split; [|exists n; lia].
  intros k. destruct (decide (k = n)) as [->|]; [lia|]. rewrite Hk by done. lia.
Qed.

(** ** Wire format *)

Lemma vc_zlen_entries c :
  zlen (flat_map encode_entry (map_iter (clocks c))) = 12 * Z.of_nat (size (clocks c)).
Proof.
  rewrite <-length_map_iter. apply zlen_flat_map. intros e _. unfold encode_entry. len.
Qed.
Lemma vc_zlen_encode c : zlen (encode c) = 4 + 12 * Z.of_nat (size (clocks c)).
Proof. unfold encode. rewrite length_app, Nat2Z.inj_add, vc_zlen_entries. len. Qed.
Lemma vc_encode_bytes c : bytes_ok (encode c).
Proof.
  apply bytes_app; [auto with bytes|]. apply bytes_flat_map. intros [k v] _.
  unfold encode_entry. auto with bytes.
Qed.

Lemma vc_decode_encode c rest : wf c → decode (encode c ++ rest) = Ok c.
Proof.
  intros (Hty & Hsz). unfold decode. pose proof (vc_zlen_entries c) as Hlen.
  unfold encode. rewrite <-app_assoc, wrap_small by lia. rd.
  erewrite (for_range_entries encode_entry (λ m '(k, v), <[k := v]> m) _ _
    (map_iter (clocks c)) (le 4 (Z.of_nat (size (clocks c)))) rest).
  - cbn [obind fst]. change (foldl _ _ _) with (insert_all (map_iter (clocks c)) ∅).
    rewrite insert_all_map_iter. by destruct c.
  - rewrite length_map_iter. lia.
  - len.
  - done.
  - intros [k v] p q i m Hin ->. apply elem_of_map_iter, Hty in Hin as [??].
    unfold encode_entry. cbn [fst snd]. rewrite <-!app_assoc. rd. do 2 f_equal; len.
Qed.

Lemma vc_decode_wp data : bytes_ok data → wp (decode data) (λ c, wf c ∧ 4 ≤ zlen data).
Proof.
  intros Hb. unfold decode. wp_steps.
  apply (wp_for_range _ _ _ _ (λ j st, st.2 = 4 + j * 12 ∧
    typed (mk st.1) ∧ Z.of_nat (size st.1) ≤ j)).
  - split_and!; [done|apply map_Forall_empty|done].
  - intros j [m off] Hj (Hoff & Hm & Hs). cbn in *. wp_steps. cbn. split_and!.
    + lia.
    + by apply map_Forall_insert_2.
    + etrans; [apply inj_le, map_size_insert_le|]. lia.
  - intros [m off] (Hoff & Hm & Hs). apply wp_ok. split; [split; cbn in *; [done|lia]|lia].
Qed.
End vc.

#[global] Instance vector_clock_join `{!MapOrder Z} : JoinCrdt t typed merge.
Proof.
  assert (∀ a b k, clocks (merge a b) !! k
    = match clocks b !! k with
      | Some v => Some (Z.max (default 0 (clocks a !! k)) v) | None => clocks a !! k end) as Hl.
  { intros. apply (upsert_all_iter_lookup (λ o v, Z.max (default 0 o) v)). }
  assert (∀ a b, (∀ k, clocks a !! k = clocks b !! k) → a = b) as Heq.
  { intros [a] [b] Hab. f_equal. by apply map_eq. }
  split.
  - intros a b Ha Hb k v. rewrite Hl. destruct (clocks b !! k) eqn:Eb; [|by auto].
    intros [= <-]. apply Hb in Eb as [??]. split; [done|].
    destruct (clocks a !! k) eqn:Ea; cbn; [apply Ha in Ea as [??]|]; lia.
  - intros a Ha. apply Heq. intros k. rewrite Hl.
    destruct (clocks a !! k); cbn; [f_equal; lia|done].
  - intros a b Ha Hb. apply Heq. intros k. rewrite !Hl.
    destruct (clocks a !! k) eqn:Ea, (clocks b !! k) eqn:Eb; cbn; try done;
      try apply Ha in Ea as [_ ?]; try apply Hb in Eb as [_ ?]; f_equal; lia.
  - intros a b c Ha Hb Hc. apply Heq. intros k. rewrite !Hl.
    destruct (clocks a !! k), (clocks b !! k), (clocks c !! k) eqn:Ec; cbn; try done;
      apply Hc in Ec as [_ ?]; f_equal; lia.
Qed.

End VectorClockProofs.

#[export] Hint Resolve VectorClockProofs.vc_decode_wp : wp.

Module DeltaProofs.
Import DeltaEncoder.

(** What an operation writes: the cell its key names. *)
Inductive cell :=
| PositionOf (node : Z)
| HealthOf (node : Z)
| CounterOf (counter_id node : Z)
| RegisterOf (key : list Z) (node : Z).

Definition cell_of (op : CrdtOperation.t) : cell :=
  match op with
  | CrdtOperation.UpdatePosition n _ _ => PositionOf n
  | CrdtOperation.UpdateHealth n _ _ => HealthOf n
  | CrdtOperation.IncrementCounter c n _ => CounterOf c n
  | CrdtOperation.UpdateRegister k _ _ n => RegisterOf k n
  end.
Definition op_key (op : CrdtOperation.t) : list Z := (operation_key_timestamp op).1.
Definition op_time (op : CrdtOperation.t) : Z := (operation_key_timestamp op).2.

Lemma app_suffix_inj (a b x y : list Z) :
  length x = length y → a ++ x = b ++ y → a = b ∧ x = y.
Proof. intros ? H. by apply app_inj_2 in H. Qed.

(** Keys are unambiguous: two operations share a key exactly when they
    write the same cell. *)
Lemma op_key_cell a b :
  CrdtOperation.wf a → CrdtOperation.wf b → op_key a = op_key b ↔ cell_of a = cell_of b.
Proof.
  intros Ha Hb. split.
  - intros H.
    destruct a, b; cbn in Ha, Hb; destruct_and?; unfold op_key, operation_key_timestamp in H;
      cbn [fst str map list_ascii_of_string] in H; try discriminate H.
    + apply app_inj_1 in H as [_ H]; [|done]. apply hex8_inj in H as ->; done.
    + apply app_inj_1 in H as [_ H]; [|done]. apply hex8_inj in H as ->; done.
    + apply app_inj_1 in H as [_ H]; [|done]. rewrite !app_assoc in H.
      apply app_suffix_inj in H as [H Hn]; [|done]. apply hex8_inj in Hn as ->; [|done..].
      apply app_suffix_inj in H as [H _]; [|done]. apply dec_u8_inj in H as ->; done.
    + apply app_inj_1 in H as [_ H]; [|done]. rewrite !app_assoc in H.
      apply app_suffix_inj in H as [H Hn]; [|done]. apply hex8_inj in Hn as ->; [|done..].
      by apply app_suffix_inj in H as [-> _].
  - destruct a, b; cbn; intros [=]; subst; done.
Qed.

(** [mark_sent] on the state of one peer. *)
Definition mark_all (st : PeerSyncState.t) (ops : list CrdtOperation.t) : PeerSyncState.t :=
  foldl (λ st op, let '(key, timestamp) := operation_key_timestamp op in
          PeerSyncState.mark_sent st key timestamp) st ops.

Lemma mark_all_lookup st ops k ts :
  PeerSyncState.last_sent (mark_all st ops) !! k = Some ts →
  (∃ op, op ∈ ops ∧ op_key op = k ∧ op_time op = ts) ∨
  PeerSyncState.last_sent st !! k = Some ts ∧ ∀ op, op ∈ ops → op_key op ≠ k.
Proof.
  induction ops as [|op ops IH] using rev_ind; [set_solver|].
  unfold mark_all. rewrite foldl_snoc. fold (mark_all st ops).
  destruct (operation_key_timestamp op) as [key ts'] eqn:E.
  unfold PeerSyncState.mark_sent. cbn [PeerSyncState.last_sent].
  destruct (decide (key = k)) as [->|Hne].
  - rewrite lookup_insert_eq. intros [= <-]. left. exists op.
    unfold op_key, op_time. rewrite E. set_solver.
  - rewrite lookup_insert_ne by done. intros [?|[? Hno]]%IH; [set_solver|].
    right. split; [done|]. intros x [?|Hx]%elem_of_app; [by apply Hno|].
    apply list_elem_of_singleton in Hx as ->. unfold op_key. by rewrite E.
Qed.
Lemma mark_all_some st ops op :
  op ∈ ops → is_Some (PeerSyncState.last_sent (mark_all st ops) !! op_key op).
Proof.
  induction ops as [|x ops IH] using rev_ind; [set_solver|].
  unfold mark_all. rewrite foldl_snoc. fold (mark_all st ops).
  destruct (operation_key_timestamp x) as [key ts'] eqn:E.
  unfold PeerSyncState.mark_sent. cbn [PeerSyncState.last_sent]. intros Hin.
  destruct (decide (key = op_key op)) as [->|Hne]; [rewrite lookup_insert_eq; eauto|].
  rewrite lookup_insert_ne by done. apply IH.
  apply elem_of_app in Hin as [?|Hx]; [done|]. apply list_elem_of_singleton in Hx as ->.
  unfold op_key in Hne. by rewrite E in Hne.
Qed.

(** One synchronisation round with a peer: filter, send, mark as sent. *)
Definition sync_round (peer : Z) (s : t * list CrdtOperation.t)
    (ops : list CrdtOperation.t) : t * list CrdtOperation.t :=
  let out := filter_for_peer s.1 peer ops in (mark_sent s.1 peer out, s.2 ++ out).
(** Several rounds: the encoder reached and all that was sent. *)
Definition sync_rounds (peer : Z) (enc : t) (rounds : list (list CrdtOperation.t))
    : t * list CrdtOperation.t :=
  foldl (sync_round peer) (enc, []) rounds.

Definition peer_last_sent (enc : t) (peer : Z) (k : list Z) : option Z :=
  peers enc !! peer ≫= λ st, PeerSyncState.last_sent st !! k.

Lemma elem_of_filter_for_peer enc peer ops op :
  op ∈ filter_for_peer enc peer ops ↔
  op ∈ ops ∧ ∀ ts, peer_last_sent enc peer (op_key op) = Some ts → ts < op_time op.
Proof.
  unfold filter_for_peer, peer_last_sent. destruct (peers enc !! peer) as [st|]; cbn.
  - rewrite list_elem_of_filter. unfold op_key, op_time.
    destruct (operation_key_timestamp op) as [key ts]. unfold PeerSyncState.needs_send. cbn.
    destruct (PeerSyncState.last_sent st !! key) as [last|].
    + rewrite Z.ltb_lt. naive_solver.
    + naive_solver.
  - naive_solver.
Qed.

Lemma mark_sent_peers enc peer st ops :
  peers enc !! peer = Some st →
  peers (mark_sent enc peer ops) !! peer = Some (mark_all st ops).
Proof. intros H. unfold mark_sent. rewrite H. cbn. by rewrite lookup_insert_eq. Qed.

(** The encoder remembers for each key the time of an operation it sent. *)
Definition remembers (peer : Z) (s : t * list CrdtOperation.t) : Prop :=
  is_Some (peers s.1 !! peer) ∧
  (∀ k ts, peer_last_sent s.1 peer k = Some ts →
    ∃ op, op ∈ s.2 ∧ op_key op = k ∧ op_time op = ts) ∧
  (∀ op, op ∈ s.2 → is_Some (peer_last_sent s.1 peer (op_key op))).

Lemma mark_all_keep st ops k :
  is_Some (PeerSyncState.last_sent st !! k) →
  is_Some (PeerSyncState.last_sent (mark_all st ops) !! k).
Proof.
  intros Hk. induction ops as [|x l IH] using rev_ind; [done|].
  unfold mark_all. rewrite foldl_snoc. fold (mark_all st l).
  destruct (operation_key_timestamp x) as [key ts']. cbn.
  destruct (decide (key = k)) as [->|]; [rewrite lookup_insert_eq; eauto|].
  by rewrite lookup_insert_ne.
Qed.
Lemma sync_round_remembers peer s ops : remembers peer s → remembers peer (sync_round peer s ops).
Proof.
  destruct s as [enc sent]. intros ([st Hst] & Hmem & Hkept). cbn in *.
  unfold sync_round, remembers, peer_last_sent in *. cbn [fst snd].
  rewrite (mark_sent_peers enc peer st _ Hst). rewrite Hst in Hmem, Hkept. cbn in Hmem, Hkept.
  split_and!; [eauto| |]; cbn.
  - intros k ts [(op & ? & ? & ?)|[Hk _]]%mark_all_lookup.
    + exists op. set_solver.
    + destruct (Hmem k ts Hk) as (op & ? & ? & ?). exists op. set_solver.
  - intros op [Hop|Hop]%elem_of_app; [by apply mark_all_keep, Hkept|by apply mark_all_some].
Qed.

(** Once a counter increment was sent its key stays marked [u64::MAX]. *)
Lemma counter_mark_stays peer enc c n k ops :
  in_u 32 n → byte_ok c → Forall CrdtOperation.wf ops →
  k = op_key (CrdtOperation.IncrementCounter c n 0) →
  is_Some (peers enc !! peer) ∧ peer_last_sent enc peer k = Some u64_max →
  let enc' := mark_sent enc peer (filter_for_peer enc peer ops) in
  is_Some (peers enc' !! peer) ∧ peer_last_sent enc' peer k = Some u64_max.
Proof.
  intros Hn Hc Hops Hkdef [[st Hst] Hk] enc'. unfold enc', peer_last_sent in *.
  rewrite (mark_sent_peers enc peer st _ Hst). split; [eauto|].
  rewrite Hst in Hk. cbn [mbind option_bind] in *.
  destruct (mark_all_keep st (filter_for_peer enc peer ops) k) as [ts E]; [eauto|].
  rewrite E. apply mark_all_lookup in E as [(op & Hin & Hkey & <-)|[E _]]; [|congruence].
  f_equal. rewrite Hkdef in Hkey. apply elem_of_filter_for_peer in Hin as [Hin _].
  rewrite Forall_forall in Hops. apply op_key_cell in Hkey; [|by apply Hops|].
  - by destruct op.
  - cbn. split_and!; try done; lia.
Qed.

(** A later round over well-formed operations leaves out the increments of a
    counter whose key is marked [u64::MAX]. *)
Lemma counter_rounds_skip peer c n enc rounds sent :
  in_u 32 n → byte_ok c → Forall (Forall CrdtOperation.wf) rounds →
  is_Some (peers enc !! peer) ∧
    peer_last_sent enc peer (op_key (CrdtOperation.IncrementCounter c n 0)) = Some u64_max →
  let s := foldl (sync_round peer) (enc, sent) rounds in
  ∀ a, CrdtOperation.IncrementCounter c n a ∈ s.2 → CrdtOperation.IncrementCounter c n a ∈ sent.
Proof.
  intros Hn Hc. revert enc sent. induction rounds as [|ops rounds IH];
    intros enc sent Hwf Hmark s a; [done|].
  apply Forall_cons in Hwf as [Hops Hwf]. unfold s. cbn [foldl]. unfold sync_round at 2. cbn [fst snd].
  intros Hin. apply IH in Hin; [|done|by eapply counter_mark_stays].
  apply elem_of_app in Hin as [?|Hin]; [done|].
  apply elem_of_filter_for_peer in Hin as [_ Hin].
  destruct Hmark as [_ Hmark]. apply Hin in Hmark. cbn in Hmark. unfold u64_max in Hmark. lia.
Qed.

Lemma sync_rounds_inv peer node rounds :
  Forall (Forall CrdtOperation.wf) rounds →
  let s := sync_rounds peer (add_peer (new node) peer) rounds in
  remembers peer s ∧ Forall CrdtOperation.wf s.2.
Proof.
  intros Hwf s. unfold s, sync_rounds. apply foldl_inv.
  - split; [|constructor]. split_and!; cbn.
    + rewrite lookup_insert_eq. eauto.
    + intros k ts. unfold peer_last_sent. cbn. rewrite lookup_insert_eq. done.
    + set_solver.
  - intros s' ops Hops [Hr Hs]. split; [by apply sync_round_remembers|].
    rewrite Forall_forall in Hwf. specialize (Hwf ops Hops). rewrite Forall_forall in Hwf.
    apply Forall_app. split; [done|]. apply Forall_forall. intros x Hx.
    apply Hwf. by apply elem_of_filter_for_peer in Hx as [? _].
Qed.

Lemma mark_sent_counter peer enc c n a ops :
  in_u 32 n → byte_ok c → Forall CrdtOperation.wf ops →
  is_Some (peers enc !! peer) → CrdtOperation.IncrementCounter c n a ∈ ops →
  is_Some (peers (mark_sent enc peer ops) !! peer) ∧
  peer_last_sent (mark_sent enc peer ops) peer (op_key (CrdtOperation.IncrementCounter c n 0))
  = Some u64_max.
Proof.
  intros Hn Hc Hops [st Hst] Hin. unfold peer_last_sent.
  rewrite (mark_sent_peers enc peer st _ Hst). split; [eauto|]. cbn [mbind option_bind].
  destruct (mark_all_some st ops _ Hin) as [ts E].
  change (op_key (CrdtOperation.IncrementCounter c n 0))
    with (op_key (CrdtOperation.IncrementCounter c n a)).
  rewrite Forall_forall in Hops. rewrite E.
  apply mark_all_lookup in E as [(op & Hop & Hkey & <-)|[_ Hno]]; [|by destruct (Hno _ Hin)].
  apply op_key_cell in Hkey; [|by apply Hops|by apply Hops]. by destruct op.
Qed.

End DeltaProofs.

Module DeltaProperties.

(** The time an operation carries; an increment of a counter carries none. *)
Definition written_at (op : CrdtOperation.t) : option Z :=
  match op with
  | CrdtOperation.UpdatePosition _ _ timestamp | CrdtOperation.UpdateHealth _ _ timestamp
  | CrdtOperation.UpdateRegister _ _ timestamp _ => Some timestamp
  | CrdtOperation.IncrementCounter _ _ _ => None
  end.
Lemma same_cell_time a b : DeltaProofs.cell_of a = DeltaProofs.cell_of b →
  is_Some (written_at a) ↔ is_Some (written_at b).
Proof. destruct a, b; cbn; intros [=]; split; intros []; (by eexists) || done. Qed.
Lemma counter_time op : written_at op = None → DeltaProofs.op_time op = u64_max.
Proof. by destruct op. Qed.
Lemma written_time op ts : written_at op = Some ts → DeltaProofs.op_time op = ts.
Proof. destruct op; cbn; by intros [= <-]. Qed.

(** C24: What delta rounds leave out.  After any rounds of filter, send and mark
    with a known peer, a position, a health report or a register value that the
    next round leaves out was preceded by a sent one of the same cell at least as
    recent.  An increment of a counter is sent exactly when no increment of that
    counter by that node has ever been sent: from the second on they are all left
    out, although each of them counts and the code says of counters that they
    always need to be synced. *)
Theorem delta_rounds_leave_out (node peer : Z) rounds ops op :
  Forall (Forall CrdtOperation.wf) rounds → CrdtOperation.wf op →
  let s := DeltaProofs.sync_rounds peer
             (DeltaEncoder.add_peer (DeltaEncoder.new node) peer) rounds in
  let out := DeltaEncoder.filter_for_peer s.1 peer ops in
  op ∈ ops →
  match written_at op with
  | Some ts => op ∉ out → ∃ op' ts', op' ∈ s.2 ∧ DeltaProofs.cell_of op' = DeltaProofs.cell_of op
                 ∧ written_at op' = Some ts' ∧ ts ≤ ts'
  | None => op ∈ out ↔ ∀ op', op' ∈ s.2 → DeltaProofs.cell_of op' ≠ DeltaProofs.cell_of op
  end.
Proof.
  intros Hwf Hop s out Hin.
  destruct (DeltaProofs.sync_rounds_inv peer node rounds Hwf) as [(_ & Hmem & Hkept) Hs].
  fold s in Hmem, Hkept, Hs. rewrite Forall_forall in Hs.
  assert (∀ ts, DeltaProofs.peer_last_sent s.1 peer (DeltaProofs.op_key op) = Some ts →
    ∃ op', op' ∈ s.2 ∧ DeltaProofs.cell_of op' = DeltaProofs.cell_of op ∧ DeltaProofs.op_time op' = ts) as Hcell.
  { intros ts (op' & Hin' & Hkey & Ht)%Hmem. exists op'. split_and!; [done| |done].
    apply DeltaProofs.op_key_cell; auto. }
  unfold out. destruct (written_at op) as [ts|] eqn:Hw; rewrite DeltaProofs.elem_of_filter_for_peer.
  - intros Hout. rewrite (written_time op ts Hw) in Hout.
    destruct (DeltaProofs.peer_last_sent s.1 peer (DeltaProofs.op_key op)) as [last|] eqn:E;
      [|by destruct Hout].
    destruct (Hcell last eq_refl) as (op' & Hin' & Hc & Ht).
    destruct (proj2 (same_cell_time _ _ Hc) (ex_intro _ ts Hw)) as [ts' Hw'].
    exists op', ts'. split_and!; [done..|]. rewrite (written_time op' ts' Hw') in Ht. subst last.
    destruct (decide (ts ≤ ts')); [done|]. destruct Hout. split; [done|]. intros ? [= <-]. lia.
  - rewrite (counter_time op Hw). split.
    + intros [_ Hlast] op' Hin' Hc. destruct (Hkept op' Hin') as [last E].
      assert (DeltaProofs.op_key op' = DeltaProofs.op_key op) as Hk by (apply DeltaProofs.op_key_cell; auto).
      rewrite Hk in E. pose proof (Hlast last E) as Hlt.
      destruct (Hcell last E) as (op2 & _ & Hc2 & <-). rewrite counter_time in Hlt; [lia|].
      apply eq_None_not_Some. intros Hs2%(same_cell_time _ _ Hc2). rewrite Hw in Hs2. by destruct Hs2.
    + intros Hno. split; [done|]. intros last E. destruct (Hcell last E) as (op' & Hin' & Hc & _).
      by destruct (Hno op' Hin').
Qed.

Lemma delta_rounds_leave_out_witness :
  let op ts := CrdtOperation.UpdatePosition 5 (Position.new 0 0) ts in
  let inc a := CrdtOperation.IncrementCounter 0 7 a in
  let s := DeltaProofs.sync_rounds 2 (DeltaEncoder.add_peer (DeltaEncoder.new 1) 2)
             [[op 100; inc 1]; [op 90; op 120]] in
  (∃ op' ts', op' ∈ s.2 ∧ DeltaProofs.cell_of op' = DeltaProofs.cell_of (op 110)
     ∧ written_at op' = Some ts' ∧ 110 ≤ ts')
  ∧ (inc 5 ∈ DeltaEncoder.filter_for_peer s.1 2 [inc 5]
     ↔ ∀ op', op' ∈ s.2 → DeltaProofs.cell_of op' ≠ DeltaProofs.cell_of (inc 5)).
Proof.
  intros op inc s. split.
  - apply (delta_rounds_leave_out 1 2 [[op 100; inc 1]; [op 90; op 120]] [op 110] (op 110)).
    + by_decide.
    + by_decide.
    + set_solver.
    + assert (DeltaEncoder.filter_for_peer s.1 2 [op 110] = []) as E by (vm_compute; reflexivity).
      change (op 110 ∉ DeltaEncoder.filter_for_peer s.1 2 [op 110]). rewrite E.
      apply not_elem_of_nil.
  - apply (delta_rounds_leave_out 1 2 [[op 100; inc 1]; [op 90; op 120]] [inc 5] (inc 5)).
    + by_decide.
    + by_decide.
    + set_solver.
Defined.

(** Counter increments starve.  Once one increment of a counter has been
    marked as sent to a known peer, no later increment of that counter by
    that node is ever sent to it, however many rounds follow: the time
    [u64::MAX] meant to force the counter through is never exceeded. *)
Theorem delta_counter_starves (enc : DeltaEncoder.t) (peer c n a : Z) sent rounds :
  in_u 32 n → byte_ok c → Forall CrdtOperation.wf sent →
  Forall (Forall CrdtOperation.wf) rounds →
  is_Some (DeltaEncoder.peers enc !! peer) →
  CrdtOperation.IncrementCounter c n a ∈ sent →
  ∀ a', CrdtOperation.IncrementCounter c n a'
        ∉ (DeltaProofs.sync_rounds peer (DeltaEncoder.mark_sent enc peer sent) rounds).2.
Proof.
  intros Hn Hc Hs Hr Hp Hin a' Hout.
  apply DeltaProofs.counter_rounds_skip in Hout; [set_solver|done..|].
  by apply DeltaProofs.mark_sent_counter with a.
Qed.

Lemma delta_counter_starves_witness :
  let inc a := CrdtOperation.IncrementCounter 0 7 a in
  let enc := DeltaEncoder.add_peer (DeltaEncoder.new 1) 2 in
  is_Some (DeltaEncoder.peers enc !! 2) ∧
  ∀ a', inc a' ∉ (DeltaProofs.sync_rounds 2 (DeltaEncoder.mark_sent enc 2 [inc 1])
                    [[inc 5]; [inc 9]]).2.
Proof.
  intros inc enc. split; [eexists; reflexivity|].
  apply (delta_counter_starves enc 2 0 7 1 [inc 1] [[inc 5]; [inc 9]]).
  - lia.
  - lia.
  - by_decide.
  - by_decide.
  - eexists. reflexivity.
  - set_solver.
Defined.

(** Causality.  Whatever order the clock maps are iterated in,
    [happens_before] is exactly the strict pointwise order of the counts;
    [merge] is its least upper bound; and an increment moves a clock
    strictly forward at that node only. *)
Theorem vector_clock_order `{!MapOrder Z} (a b c : VectorClock.t) :
  VectorClock.typed a → VectorClock.typed b → VectorClock.typed c →
  (VectorClock.happens_before a b = true ↔ VectorClockProofs.vc_lt a b) ∧
  VectorClockProofs.vc_le a (VectorClock.merge a b) ∧
  VectorClockProofs.vc_le b (VectorClock.merge a b) ∧
  (VectorClockProofs.vc_le a c → VectorClockProofs.vc_le b c →
   VectorClockProofs.vc_le (VectorClock.merge a b) c) ∧
  (∀ n a' v, VectorClock.increment a n = Ok (a', v) →
   v = VectorClock.get a n + 1 ∧ VectorClockProofs.vc_lt a a' ∧
   ∀ k, k ≠ n → VectorClock.get a' k = VectorClock.get a k).
Proof.
  intros Ha Hb Hc. pose proof (VectorClockProofs.vc_merge_get a b) as Hm.
  split_and!.
  - by apply VectorClockProofs.happens_before_spec.
  - intros n. rewrite Hm by done. lia.
  - intros n. rewrite Hm by done. lia.
  - intros H1 H2 n. rewrite Hm by done. specialize (H1 n). specialize (H2 n). lia.
  - intros n a' v. by apply VectorClockProofs.vc_increment_lt.
Qed.

Lemma vector_clock_order_witness :
  let a := VectorClock.update VectorClock.new 1 2 in
  let b := VectorClock.update (VectorClock.update VectorClock.new 1 2) 3 1 in
  (VectorClock.happens_before a b = true ↔ VectorClockProofs.vc_lt a b) ∧
  VectorClockProofs.vc_le a (VectorClock.merge a b) ∧
  VectorClockProofs.vc_le b (VectorClock.merge a b) ∧
  (VectorClockProofs.vc_le a a → VectorClockProofs.vc_le b a →
   VectorClockProofs.vc_le (VectorClock.merge a b) a) ∧
  (∀ n a' v, VectorClock.increment a n = Ok (a', v) →
   v = VectorClock.get a n + 1 ∧ VectorClockProofs.vc_lt a a' ∧
   ∀ k, k ≠ n → VectorClock.get a' k = VectorClock.get a k).
Proof. intros a b. apply (vector_clock_order a b a); unfold VectorClock.typed; by_decide. Defined.

End DeltaProperties.
