(* ===== verification/DeltaDoc.v ===== *)
(** * Delta documents of src/src/sync/delta_document.rs and the app-layer
    operations of src/src/registry.rs they carry. *)

From Stdlib Require Import String.
From stdpp Require Import base numbers list gmap sets pretty.
From S2P Require Import Prelude Crdt Sensor Delta.
Open Scope Z_scope.
Open Scope peat_scope.

(** ** App-layer operations *)

Definition APP_TYPE_MIN : Z := 0xC0.
Definition APP_TYPE_MAX : Z := 0xCF.
Definition APP_OP_BASE : Z := 0x10.

Module AppOperation.

Record t := mk {
  type_id : Z; op_code : Z; source_node : Z; timestamp : Z; payload : list Z
}.

Definition new (type_id op_code source_node timestamp : Z) : t :=
  mk type_id op_code source_node timestamp [].
Definition with_payload (self : t) (payload : list Z) : t :=
  mk (type_id self) (op_code self) (source_node self) (timestamp self) payload.
Definition is_app_op_type (op_type : Z) : bool :=
  (APP_OP_BASE <=? op_type) && (op_type <? APP_OP_BASE + 16).

(** [u8] arithmetic: a type identifier below [APP_TYPE_MIN] underflows. *)
Definition op_type_byte (self : t) : outcome Z :=
  let! d := sub_u (type_id self) APP_TYPE_MIN in add_u 8 APP_OP_BASE d.

Definition encode (self : t) : outcome (list Z) :=
  let! op_type := op_type_byte self in
  Ok ([op_type] ++ [op_code self] ++ le 4 (source_node self) ++ le 8 (timestamp self)
      ++ le 2 (wrap 16 (zlen (payload self))) ++ payload self).

Definition decode (data : list Z) : outcome (t * Z) :=
  reject_if zlen data <? 16 ;;
  let! op_type := u8_at data 0 in
  reject_if negb (is_app_op_type op_type) ;;
  let! d := sub_u op_type APP_OP_BASE in
  let! type_id := add_u 8 APP_TYPE_MIN d in
  let! op_code := u8_at data 1 in
  let! source_node := u32_at data 2 in
  let! timestamp := u64_at data 6 in
  let! payload_len := u16_at data 14 in
  reject_if zlen data <? 16 + payload_len ;;
  let! payload := slice data 16 (16 + payload_len) in
  Ok (mk type_id op_code source_node timestamp payload, 16 + payload_len).

Definition wf (self : t) : Prop :=
  APP_TYPE_MIN ≤ type_id self ≤ APP_TYPE_MAX ∧ byte_ok (op_code self) ∧
  in_u 32 (source_node self) ∧ in_u 64 (timestamp self) ∧
  bytes_ok (payload self) ∧ zlen (payload self) < 2 ^ 16.

#[global] Instance app_wf_dec op : Decision (wf op).
Proof. unfold wf. apply _. Defined.

End AppOperation.

(** ** Flags *)

Definition DELTA_DOCUMENT_MARKER : Z := 0xB2.

Module DeltaFlags.
Record t := mk { has_vector_clock : bool; is_response : bool }.
Definition default_flags : t := mk false false.
Definition to_byte (self : t) : Z :=
  let flags := 0 in
  let flags := if has_vector_clock self then Z.lor flags 1 else flags in
  if is_response self then Z.lor flags 2 else flags.
Definition from_byte (byte : Z) : t := mk (has_bit byte 1) (has_bit byte 2).
End DeltaFlags.

(** ** Operations *)

Module op_type.
Definition INCREMENT_COUNTER : Z := 0x01.
Definition UPDATE_PERIPHERAL : Z := 0x02.
Definition SET_EMERGENCY : Z := 0x03.
Definition ACK_EMERGENCY : Z := 0x04.
Definition CLEAR_EMERGENCY : Z := 0x05.
End op_type.

(** [{}] of an unsigned integer. *)
Definition dec (n : Z) : list Z := str (pretty n).

Module Operation.
Import op_type.

Inductive t :=
| IncrementCounter (counter_id node_id amount timestamp : Z)
| UpdatePeripheral (peripheral : Peripheral.t) (timestamp : Z)
| SetEmergency (source_node timestamp : Z) (known_peers : list Z)
| AckEmergency (node_id emergency_timestamp : Z)
| ClearEmergency (emergency_timestamp : Z)
| App (op : AppOperation.t).

Definition timestamp (self : t) : Z :=
  match self with
  | IncrementCounter _ _ _ timestamp => timestamp
  | UpdatePeripheral _ timestamp => timestamp
  | SetEmergency _ timestamp _ => timestamp
  | AckEmergency _ emergency_timestamp => emergency_timestamp
  | ClearEmergency emergency_timestamp => emergency_timestamp
  | App op => AppOperation.timestamp op
  end.

Definition key (self : t) : list Z :=
  match self with
  | IncrementCounter counter_id node_id _ _ =>
      str "counter:" ++ dec counter_id ++ str ":" ++ dec node_id
  | UpdatePeripheral peripheral _ => str "peripheral:" ++ dec (Peripheral.id peripheral)
  | SetEmergency source_node _ _ => str "emergency:" ++ dec source_node
  | AckEmergency node_id _ => str "ack:" ++ dec node_id
  | ClearEmergency _ => str "clear_emergency"
  | App op =>
      str "app:" ++ dec (AppOperation.type_id op) ++ str ":"
      ++ dec (AppOperation.source_node op) ++ str ":" ++ dec (AppOperation.timestamp op)
  end.

Definition encode (self : t) : outcome (list Z) :=
  match self with
  | IncrementCounter counter_id node_id amount timestamp =>
      Ok ([INCREMENT_COUNTER] ++ [counter_id] ++ le 4 node_id ++ le 8 amount ++ le 8 timestamp)
  | UpdatePeripheral peripheral timestamp =>
      let pdata := Peripheral.encode peripheral in
      Ok ([UPDATE_PERIPHERAL] ++ le 8 timestamp ++ le 2 (wrap 16 (zlen pdata)) ++ pdata)
  | SetEmergency source_node timestamp known_peers =>
      Ok ([SET_EMERGENCY] ++ le 4 source_node ++ le 8 timestamp
          ++ [wrap 8 (zlen known_peers)] ++ flat_map (le 4) known_peers)
  | AckEmergency node_id emergency_timestamp =>
      Ok ([ACK_EMERGENCY] ++ le 4 node_id ++ le 8 emergency_timestamp)
  | ClearEmergency emergency_timestamp =>
      Ok ([CLEAR_EMERGENCY] ++ le 8 emergency_timestamp)
  | App op => AppOperation.encode op
  end.

Definition decode_increment (data : list Z) : outcome (t * Z) :=
  reject_if zlen data <? 22 ;;
  let! counter_id := u8_at data 1 in
  let! node_id := u32_at data 2 in
  let! amount := u64_at data 6 in
  let! timestamp := u64_at data 14 in
  Ok (IncrementCounter counter_id node_id amount timestamp, 22).

Definition decode_peripheral (data : list Z) : outcome (t * Z) :=
  reject_if zlen data <? 11 ;;
  let! timestamp := u64_at data 1 in
  let! plen := u16_at data 9 in
  reject_if zlen data <? 11 + plen ;;
  let! pdata := slice data 11 (11 + plen) in
  let! peripheral := Peripheral.decode pdata in
  Ok (UpdatePeripheral peripheral timestamp, 11 + plen).

Definition decode_set_emergency (data : list Z) : outcome (t * Z) :=
  reject_if zlen data <? 14 ;;
  let! source_node := u32_at data 1 in
  let! timestamp := u64_at data 5 in
  let! peer_count := u8_at data 13 in
  reject_if zlen data <? 14 + peer_count * 4 ;;
  let! st := for_range (Z.to_nat peer_count) 0 (λ _ '(known_peers, offset),
      let! peer := u32_at data offset in
      Ok (known_peers ++ [peer], offset + 4)) ([], 14) in
  let '(known_peers, offset) := st in
  Ok (SetEmergency source_node timestamp known_peers, offset).

Definition decode_ack (data : list Z) : outcome (t * Z) :=
  reject_if zlen data <? 13 ;;
  let! node_id := u32_at data 1 in
  let! emergency_timestamp := u64_at data 5 in
  Ok (AckEmergency node_id emergency_timestamp, 13).

Definition decode_clear (data : list Z) : outcome (t * Z) :=
  reject_if zlen data <? 9 ;;
  let! emergency_timestamp := u64_at data 1 in
  Ok (ClearEmergency emergency_timestamp, 9).

Definition decode (data : list Z) : outcome (t * Z) :=
  reject_if zlen data =? 0 ;;
  let! op_type := u8_at data 0 in
  if op_type =? INCREMENT_COUNTER then decode_increment data
  else if op_type =? UPDATE_PERIPHERAL then decode_peripheral data
  else if op_type =? SET_EMERGENCY then decode_set_emergency data
  else if op_type =? ACK_EMERGENCY then decode_ack data
  else if op_type =? CLEAR_EMERGENCY then decode_clear data
  else if AppOperation.is_app_op_type op_type then
    let! r := AppOperation.decode data in
    let '(app_op, consumed) := r in
    Ok (App app_op, consumed)
  else Fail.

Definition wf (self : t) : Prop :=
  match self with
  | IncrementCounter counter_id node_id amount timestamp =>
      byte_ok counter_id ∧ in_u 32 node_id ∧ in_u 64 amount ∧ in_u 64 timestamp
  | UpdatePeripheral peripheral timestamp => Peripheral.wf peripheral ∧ in_u 64 timestamp
  | SetEmergency source_node timestamp known_peers =>
      in_u 32 source_node ∧ in_u 64 timestamp ∧
      Forall (λ p, in_u 32 p) known_peers ∧ zlen known_peers < 2 ^ 8
  | AckEmergency node_id emergency_timestamp => in_u 32 node_id ∧ in_u 64 emergency_timestamp
  | ClearEmergency emergency_timestamp => in_u 64 emergency_timestamp
  | App op => AppOperation.wf op
  end.

#[global] Instance delta_op_wf_dec op : Decision (wf op).
Proof. destruct op; apply _. Defined.

End Operation.

(** ** Documents *)

Module DeltaDocument.

Record t := mk {
  origin_node : Z; timestamp_ms : Z; flags : DeltaFlags.t;
  vector_clock : option VectorClock.t; operations : list Operation.t
}.

Section ops.
Context `{!MapOrder Z}.

Definition new (origin_node timestamp_ms : Z) : t :=
  mk origin_node timestamp_ms DeltaFlags.default_flags None [].
Definition with_vector_clock (self : t) (clock : VectorClock.t) : t :=
  mk (origin_node self) (timestamp_ms self)
    (DeltaFlags.mk true (DeltaFlags.is_response (flags self))) (Some clock) (operations self).
Definition as_response (self : t) : t :=
  mk (origin_node self) (timestamp_ms self)
    (DeltaFlags.mk (DeltaFlags.has_vector_clock (flags self)) true)
    (vector_clock self) (operations self).
Definition add_operation (self : t) (op : Operation.t) : t :=
  mk (origin_node self) (timestamp_ms self) (flags self) (vector_clock self)
    (operations self ++ [op]).
Definition is_empty (self : t) : bool := zlen (operations self) =? 0.
Definition operation_count (self : t) : Z := zlen (operations self).

Definition is_delta_document (data : list Z) : bool :=
  match data with [] => false | b :: _ => b =? DELTA_DOCUMENT_MARKER end.

Definition encode (self : t) : outcome (list Z) :=
  let header := [DELTA_DOCUMENT_MARKER] ++ [DeltaFlags.to_byte (flags self)]
    ++ le 4 (origin_node self) ++ le 8 (timestamp_ms self)
    ++ match vector_clock self with Some clock => VectorClock.encode clock | None => [] end
    ++ le 2 (wrap 16 (zlen (operations self))) in
  foldl (λ acc op, let! buf := acc in let! bytes := Operation.encode op in Ok (buf ++ bytes))
    (Ok header) (operations self).

(** The end of [decode]: the operation count and the operations. *)
Definition decode_operations (data : list Z) (offset : Z) : outcome (list Operation.t) :=
  reject_if zlen data <? offset + 2 ;;
  let! op_count := u16_at data offset in
  let! st := for_range (Z.to_nat op_count) 0 (λ _ '(operations, offset),
      reject_if zlen data <=? offset ;;
      let! rest := slice_from data offset in
      let! r := Operation.decode rest in
      let '(op, size) := r in
      Ok (operations ++ [op], offset + size)) ([], offset + 2) in
  let '(operations, _) := st in
  Ok operations.

Definition decode (data : list Z) : outcome t :=
  reject_if zlen data <? 16 ;;
  let! marker := u8_at data 0 in
  reject_if negb (marker =? DELTA_DOCUMENT_MARKER) ;;
  let! flag_byte := u8_at data 1 in
  let flags := DeltaFlags.from_byte flag_byte in
  let! origin_node := u32_at data 2 in
  let! timestamp_ms := u64_at data 6 in
  let! vc :=
    if DeltaFlags.has_vector_clock flags then
      let! rest := slice_from data 14 in
      let! clock := VectorClock.decode rest in
      let! count := u32_at data 14 in
      Ok (Some clock, 14 + (4 + count * 12))
    else Ok (None, 14) in
  let '(vector_clock, offset) := vc in
  let! operations := decode_operations data offset in
  Ok (mk origin_node timestamp_ms flags vector_clock operations).

Definition encoded_size (self : t) : outcome Z :=
  let base := 16 in
  let clock_size :=
    match vector_clock self with Some c => zlen (VectorClock.encode c) | None => 0 end in
  let! ops_size := foldl (λ acc op,
      let! n := acc in let! bytes := Operation.encode op in add_u 64 n (zlen bytes))
    (Ok 0) (operations self) in
  Ok (base + clock_size + ops_size).

End ops.

Definition wf (self : t) : Prop :=
  in_u 32 (origin_node self) ∧ in_u 64 (timestamp_ms self) ∧
  DeltaFlags.has_vector_clock (flags self) = bool_decide (is_Some (vector_clock self)) ∧
  (∀ c, vector_clock self = Some c → VectorClock.wf c) ∧
  Forall Operation.wf (operations self) ∧ zlen (operations self) < 2 ^ 16.

#[global] Instance vector_clock_wf_dec c : Decision (VectorClock.wf c).
Proof. unfold VectorClock.wf, VectorClock.typed. apply _. Defined.
#[global] Instance delta_doc_wf_dec d : Decision (wf d).
Proof. unfold wf. apply _. Defined.

End DeltaDocument.

(** * Theorems *)

Module DeltaDocProofs.

(** ** App operations *)

Definition app_wire (op : AppOperation.t) : list Z :=
  [AppOperation.type_id op - 0xB0] ++ [AppOperation.op_code op]
  ++ le 4 (AppOperation.source_node op) ++ le 8 (AppOperation.timestamp op)
  ++ le 2 (zlen (AppOperation.payload op)) ++ AppOperation.payload op.

Lemma app_encode op : AppOperation.wf op → AppOperation.encode op = Ok (app_wire op).
Proof.
  intros ([??] & _ & _ & _ & _ & ?). unfold AppOperation.encode, AppOperation.op_type_byte, app_wire.
  unfold APP_TYPE_MIN, APP_TYPE_MAX, APP_OP_BASE in *.
  rewrite sub_u_ok by lia. cbn [obind]. rewrite add_u_ok by lia. cbn [obind].
  rewrite wrap_small by lia. do 3 f_equal. lia.
Qed.

Lemma app_decode_encode op rest :
  AppOperation.wf op → AppOperation.decode (app_wire op ++ rest) = Ok (op, zlen (app_wire op)).
Proof.
  destruct op as [ty code src ts pl]. intros ([??] & ? & ? & ? & ? & ?). cbn in *.
  unfold AppOperation.decode, app_wire, APP_TYPE_MIN, APP_TYPE_MAX, APP_OP_BASE in *.
  cbn [AppOperation.type_id AppOperation.op_code AppOperation.source_node
       AppOperation.timestamp AppOperation.payload].
  rewrite <-!app_assoc. cbn [app]. rd.
  unfold AppOperation.is_app_op_type, APP_OP_BASE.
  rewrite (proj2 (Z.leb_le 16 _)), (proj2 (Z.ltb_lt (ty - 176) _)) by lia. cbn [negb andb].
  rewrite sub_u_ok by lia. cbn [obind]. rewrite add_u_ok by lia. rd.
  do 2 f_equal; [f_equal; lia|]. len.
Qed.

Lemma app_decode_wp data :
  bytes_ok data →
  wp (AppOperation.decode data) (λ r, AppOperation.wf r.1 ∧ 0 < r.2 ≤ zlen data).
Proof.
  intros Hb. unfold AppOperation.decode. do 4 wp_step.
  unfold AppOperation.is_app_op_type, APP_OP_BASE, APP_TYPE_MIN in *. bool_hyps. wp_steps.
  unfold AppOperation.wf, APP_TYPE_MIN, APP_TYPE_MAX. cbn.
  split_and!; try lia; done.
Qed.

(** ** Operations *)

Import Operation.

(** The bytes of a well-formed operation. *)
Definition op_wire (op : t) : list Z := match encode op with Ok b => b | _ => [] end.

Lemma delta_op_encode op : wf op → encode op = Ok (op_wire op).
Proof.
  intros Hwf. unfold op_wire. destruct op; try done. cbn [encode].
  by rewrite app_encode.
Qed.

Lemma delta_op_decode_encode op rest :
  wf op → decode (op_wire op ++ rest) = Ok (op, zlen (op_wire op)).
Proof.
  intros Hwf. unfold decode, op_wire.
  unfold op_type.INCREMENT_COUNTER, op_type.UPDATE_PERIPHERAL, op_type.SET_EMERGENCY,
    op_type.ACK_EMERGENCY, op_type.CLEAR_EMERGENCY.
  destruct op as [c n a ts|p ts|src ts ps|n ts|ts|op]; cbn [encode wf] in *.
  - destruct_and! Hwf. unfold op_type.INCREMENT_COUNTER. rewrite <-!app_assoc. cbn [app]. rd.
    zclosed. unfold decode_increment. rd. do 2 f_equal; len.
  - destruct Hwf as [Hp Hts]. pose proof (PeripheralProofs.peripheral_encode_length p).
    destruct (Hp) as (_ & _ & _ & (Hlen & _) & _). specialize (H Hlen).
    unfold op_type.UPDATE_PERIPHERAL. rewrite wrap_small by lia.
    rewrite <-!app_assoc. cbn [app]. rd. zclosed. unfold decode_peripheral. rd.
    rewrite <-(app_nil_r (Peripheral.encode p)), PeripheralProofs.peripheral_decode_encode by done.
    cbn [obind]. rewrite app_nil_r. do 2 f_equal; len.
  - destruct Hwf as (Hs & Hts & Hps & Hn). unfold op_type.SET_EMERGENCY.
    rewrite wrap_small by lia.
    assert (zlen (flat_map (le 4) ps) = 4 * zlen ps) as Hz
      by (apply zlen_flat_map; intros; len).
    rewrite <-!app_assoc. cbn [app]. rd. zclosed. unfold decode_set_emergency. rd.
    erewrite (for_range_entries (le 4) (λ l k, l ++ [k]) _ _ ps
      (3 :: le 4 src ++ le 8 ts ++ [zlen ps]) rest).
    + cbn [obind]. rewrite foldl_push. cbn [app]. do 2 f_equal; len.
    + lia.
    + len.
    + cbn [app]. by rewrite <-!app_assoc.
    + intros e p q i l Hin Hd. cbn [app] in Hd. rewrite Hd. clear Hd. rewrite Forall_forall in Hps. specialize (Hps e Hin).
      rd. do 2 f_equal; len.
  - destruct_and! Hwf. unfold op_type.ACK_EMERGENCY. rewrite <-!app_assoc. cbn [app]. rd.
    zclosed. unfold decode_ack. rd. do 2 f_equal; len.
  - unfold op_type.CLEAR_EMERGENCY. cbn [app]. rd.
    zclosed. unfold decode_clear. rd. do 2 f_equal; len.
  - rewrite app_encode, app_decode_encode by done.
    destruct Hwf as ([H1 H2] & _). unfold APP_TYPE_MIN, APP_TYPE_MAX in *.
    assert (∃ t, app_wire op ++ rest = (AppOperation.type_id op - 0xB0) :: t) as [t ->]
      by (unfold app_wire; cbn [app]; eauto).
    rd. unfold AppOperation.is_app_op_type, APP_OP_BASE.
    rewrite (proj2 (Z.eqb_neq _ 1)), (proj2 (Z.eqb_neq _ 2)), (proj2 (Z.eqb_neq _ 3)),
      (proj2 (Z.eqb_neq _ 4)), (proj2 (Z.eqb_neq _ 5)) by lia.
    rewrite (proj2 (Z.leb_le 16 _)), (proj2 (Z.ltb_lt (_ - 176) _)) by lia. done.
Qed.

Lemma op_wire_pos op : wf op → 0 < zlen (op_wire op).
Proof.
  intros Hwf. unfold op_wire. destruct op; cbn [encode]; try (rewrite !length_app; cbn; lia).
  rewrite app_encode by done. unfold app_wire. cbn. lia.
Qed.

Lemma delta_op_decode_wp data :
  bytes_ok data → wp (decode data) (λ r, wf r.1 ∧ 0 < r.2 ≤ zlen data).
Proof.
  intros Hb. unfold decode. wp_steps.
  - unfold decode_increment. wp_steps. cbn. split_and!; try done; lia.
  - unfold decode_peripheral. wp_steps. cbn. split_and!; try done; lia.
  - unfold decode_set_emergency. wp_steps.
    apply (wp_for_range _ _ _ _ (λ j '(l, off),
      off = 14 + j * 4 ∧ Forall (λ p, in_u 32 p) l ∧ zlen l = j)).
    + split_and!; done.
    + intros j [l off] Hj (-> & Hl & Hlen). wp_steps. split_and!; [lia| |len].
      apply Forall_app_2; [done|by constructor].
    + intros [l off] (-> & Hl & Hlen). wp_steps. cbn. split_and!; try done; lia.
  - unfold decode_ack. wp_steps. cbn. split_and!; try done; lia.
  - unfold decode_clear. wp_steps. cbn. split_and!; try done; lia.
  - eapply wp_mono; [by apply app_decode_wp|]. intros [op n] [??]. by wp_steps.
Qed.

(** ** Documents *)

Section docs.
Context `{!MapOrder Z}.
Implicit Types d : DeltaDocument.t.

Lemma delta_flags_roundtrip f : DeltaFlags.from_byte (DeltaFlags.to_byte f) = f.
Proof. by destruct f as [[] []]. Qed.
Lemma delta_flags_byte f : byte_ok (DeltaFlags.to_byte f).
Proof. by destruct f as [[] []]. Qed.

Definition doc_header d : list Z :=
  DELTA_DOCUMENT_MARKER :: DeltaFlags.to_byte (DeltaDocument.flags d)
  :: le 4 (DeltaDocument.origin_node d) ++ le 8 (DeltaDocument.timestamp_ms d).
Definition doc_clock d : list Z :=
  match DeltaDocument.vector_clock d with Some c => VectorClock.encode c | None => [] end.
Definition doc_wire d : list Z :=
  doc_header d ++ doc_clock d ++ le 2 (zlen (DeltaDocument.operations d))
  ++ flat_map op_wire (DeltaDocument.operations d).

Lemma delta_doc_encode d : DeltaDocument.wf d → DeltaDocument.encode d = Ok (doc_wire d).
Proof.
  intros (_ & _ & _ & _ & Hops & Hn). unfold DeltaDocument.encode.
  rewrite (foldl_encode encode op_wire).
  - unfold doc_wire, doc_header, doc_clock. rewrite wrap_small by lia.
    f_equal. rewrite <-!app_assoc. done.
  - intros e He. rewrite Forall_forall in Hops. by apply delta_op_encode, Hops.
Qed.

Lemma delta_doc_size d :
  DeltaDocument.wf d → zlen (flat_map op_wire (DeltaDocument.operations d)) < 2 ^ 64 →
  DeltaDocument.encoded_size d = Ok (zlen (doc_wire d)).
Proof.
  intros (_ & _ & _ & _ & Hops & _) Hlt. unfold DeltaDocument.encoded_size.
  assert (∀ l n, 0 ≤ n → Forall wf l → n + zlen (flat_map op_wire l) < 2 ^ 64 →
    foldl (λ acc op, let! n := acc in let! bytes := encode op in add_u 64 n (zlen bytes)) (Ok n) l
    = Ok (n + zlen (flat_map op_wire l))) as Hf.
  { induction l as [|op l IH]; intros n Hn Hl Hb; cbn [foldl flat_map].
    { by rewrite Z.add_0_r. }
    apply Forall_cons in Hl as [Hop Hl]. rewrite delta_op_encode by done. cbn [flat_map] in Hb.
    cbn [obind]. rewrite add_u_ok by len. rewrite IH by (done || len). f_equal. len. }
  rewrite Hf by (done || lia). cbn [obind]. f_equal.
  unfold doc_wire, doc_header, doc_clock.
  destruct (DeltaDocument.vector_clock d); len.
Qed.

(** Reading the operations back, wherever they start in the buffer. *)
Lemma delta_ops_loop ops pre suf data off n :
  Forall wf ops → n = length ops → off = zlen pre →
  data = pre ++ flat_map op_wire ops ++ suf →
  for_range n 0 (λ _ '(operations, offset),
      reject_if zlen data <=? offset ;;
      let! rest := slice_from data offset in
      let! r := decode rest in
      let '(op, size) := r in
      Ok (operations ++ [op], offset + size)) ([], off)
  = Ok (ops, off + zlen (flat_map op_wire ops)).
Proof.
  intros Hops Hn Hoff Hdata.
  rewrite (for_range_entries op_wire (λ l op, l ++ [op]) _ _ ops pre suf data) by
    (try done; intros e p q i l Hin ->; rewrite Forall_forall in Hops;
     pose proof (op_wire_pos e (Hops e Hin));
     replace (_ <=? _) with false by (symmetry; bdec); rd;
     rewrite delta_op_decode_encode by (by apply Hops); done).
  by rewrite foldl_push.
Qed.

Lemma decode_operations_ok ops pre suf data off :
  Forall wf ops → zlen ops < 2 ^ 16 → off = zlen pre →
  data = pre ++ le 2 (zlen ops) ++ flat_map op_wire ops ++ suf →
  DeltaDocument.decode_operations data off = Ok ops.
Proof.
  intros Hops Hn -> ->. unfold DeltaDocument.decode_operations. rd.
  rewrite (delta_ops_loop ops (pre ++ le 2 (zlen ops)) suf); first done; first done.
  - lia.
  - len.
  - by rewrite <-app_assoc.
Qed.

Lemma decode_operations_wp data off :
  bytes_ok data → 0 ≤ off →
  wp (DeltaDocument.decode_operations data off) (λ ops, Forall wf ops ∧ zlen ops < 2 ^ 16).
Proof.
  intros Hb Hoff. unfold DeltaDocument.decode_operations. wp_steps.
  apply (wp_for_range _ _ _ _ (λ j '(l, o), 0 ≤ o ∧ Forall wf l ∧ zlen l = j)).
  - split_and!; [lia|done|done].
  - intros j [l o] Hj (Ho & Hl & Hlen). wp_steps.
    eapply wp_mono; [by apply delta_op_decode_wp|]. intros [op n] [Hop Hsz]. wp_steps. cbn in *.
    split_and!; [lia| |len]. apply Forall_app_2; [done|by constructor].
  - intros [l o] (_ & Hl & Hlen). apply wp_ok. split; [done|lia].
Qed.

Lemma vc_count_read c q :
  VectorClock.wf c →
  u32_at (VectorClock.encode c ++ q) 0 = Ok (Z.of_nat (size (VectorClock.clocks c))).
Proof.
  intros [_ ?]. unfold VectorClock.encode. rewrite <-app_assoc, wrap_small by lia. by rd.
Qed.

Lemma delta_doc_decode_encode d rest :
  DeltaDocument.wf d → DeltaDocument.decode (doc_wire d ++ rest) = Ok d.
Proof.
  destruct d as [origin ts fl vc ops]. intros (Ho & Hts & Hfl & Hvc & Hops & Hn).
  cbn in Ho, Hts, Hfl, Hvc, Hops, Hn.
  pose proof (delta_flags_byte fl).
  unfold DeltaDocument.decode, doc_wire.
  remember (doc_header (DeltaDocument.mk origin ts fl vc ops)) as hd eqn:Ehd.
  assert (zlen hd = 14) as Hhd by (subst hd; unfold doc_header; len).
  unfold doc_clock. cbn [DeltaDocument.vector_clock DeltaDocument.operations].
  rewrite <-!app_assoc.
  set (data := hd ++ _).
  assert (u8_at data 0 = Ok DELTA_DOCUMENT_MARKER ∧ u8_at data 1 = Ok (DeltaFlags.to_byte fl) ∧
          u32_at data 2 = Ok origin ∧ u64_at data 6 = Ok ts ∧ (zlen data <? 16) = false)
    as (-> & -> & -> & -> & ->).
  { unfold data. subst hd. unfold doc_header, DELTA_DOCUMENT_MARKER.
    cbn [DeltaDocument.origin_node DeltaDocument.timestamp_ms DeltaDocument.flags app].
    rewrite <-!app_assoc. split_and!; try (by rd). bdec. }
  cbn [obind]. rewrite delta_flags_roundtrip, Hfl.
  change (negb (DELTA_DOCUMENT_MARKER =? DELTA_DOCUMENT_MARKER)) with false. cbn match.
  destruct vc as [c|]; [rewrite bool_decide_true by eauto|rewrite bool_decide_false by (by intros [])].
  - specialize (Hvc c eq_refl). pose proof (VectorClockProofs.vc_zlen_encode c) as Hlen.
    assert (slice_from data 14 = Ok (VectorClock.encode c ++ le 2 (zlen ops)
              ++ flat_map op_wire ops ++ rest)) as -> by (unfold data; rd; done).
    cbn [obind]. rewrite VectorClockProofs.vc_decode_encode by done. cbn [obind].
    assert (u32_at data 14 = Ok (Z.of_nat (size (VectorClock.clocks c)))) as ->
      by (unfold data; rd; by apply vc_count_read).
    cbn [obind]. rewrite (decode_operations_ok ops (hd ++ VectorClock.encode c) rest); try done.
    + len.
    + by rewrite <-app_assoc.
  - cbn [obind]. rewrite (decode_operations_ok ops hd rest); done.
Qed.

Lemma delta_doc_decode_wp data :
  bytes_ok data → wp (DeltaDocument.decode data) DeltaDocument.wf.
Proof.
  intros Hb. unfold DeltaDocument.decode. wp_steps.
  - destruct_and!. wp_steps. eapply wp_mono; [apply decode_operations_wp; [done|lia]|].
    intros ops [? ?]. apply wp_ok. unfold DeltaDocument.wf. cbn. split_and!; try done.
    by intros c [= <-].
  - eapply wp_mono; [apply decode_operations_wp; [done|lia]|]. intros ops [? ?].
    apply wp_ok. unfold DeltaDocument.wf. cbn. split_and!; try done; lia.
Qed.
End docs.

End DeltaDocProofs.

#[export] Hint Resolve DeltaDocProofs.delta_op_decode_wp DeltaDocProofs.delta_doc_decode_wp : wp.

Module DeltaDocProperties.

(** Delta document wire format.  Encoding a well-formed document never
    panics, its size is what [encoded_size] announces, and decoding it from
    a buffer that may hold more bytes gives it back: flags, vector clock and
    every operation, app-layer operations and peripherals included. *)
Theorem delta_document_roundtrip `{!MapOrder Z} (d : DeltaDocument.t) (rest : list Z) :
  DeltaDocument.wf d →
  zlen (flat_map DeltaDocProofs.op_wire (DeltaDocument.operations d)) < 2 ^ 64 →
  ∃ bytes, DeltaDocument.encode d = Ok bytes ∧
           DeltaDocument.encoded_size d = Ok (zlen bytes) ∧
           DeltaDocument.decode (bytes ++ rest) = Ok d.
Proof.
  intros Hwf Hsz. exists (DeltaDocProofs.doc_wire d). split_and!.
  - by apply DeltaDocProofs.delta_doc_encode.
  - by apply DeltaDocProofs.delta_doc_size.
  - by apply DeltaDocProofs.delta_doc_decode_encode.
Qed.

Definition sample_doc : DeltaDocument.t :=
  DeltaDocument.add_operation (DeltaDocument.add_operation (DeltaDocument.add_operation
    (DeltaDocument.with_vector_clock (DeltaDocument.new 7 1705276800000)
       (VectorClock.update (VectorClock.update VectorClock.new 1 5) 2 10))
    (Operation.SetEmergency 7 1705276800000 [1; 2; 3]))
    (Operation.UpdatePeripheral SensorProperties.sample 1705276800001))
    (Operation.App (AppOperation.with_payload
       (AppOperation.new 0xC3 1 7 1705276800002) [104; 105])).

Lemma delta_document_roundtrip_witness :
  ∃ bytes, DeltaDocument.encode sample_doc = Ok bytes ∧
           DeltaDocument.encoded_size sample_doc = Ok (zlen bytes) ∧
           DeltaDocument.decode (bytes ++ [1; 2]) = Ok sample_doc.
Proof. apply (delta_document_roundtrip sample_doc [1; 2]); by_decide. Defined.

(** Bytes from the radio never panic the delta decoder: neither the
    lengths and counts it reads nor the offsets it derives from them leave
    the buffer, and what it accepts is a well-formed document, whose
    encoding in turn never panics. *)
Theorem delta_document_decode_safe `{!MapOrder Z} (data : list Z) :
  bytes_ok data →
  DeltaDocument.decode data ≠ Panic ∧
  ∀ d, DeltaDocument.decode data = Ok d →
    DeltaDocument.wf d ∧ DeltaDocument.encode d ≠ Panic.
Proof.
  intros Hb. pose proof (DeltaDocProofs.delta_doc_decode_wp data Hb) as Hwp.
  split; [by eapply wp_safe|]. intros d Hd. pose proof (wp_elim _ _ _ Hwp Hd) as Hwf.
  split; [done|]. by rewrite DeltaDocProofs.delta_doc_encode.
Qed.

Lemma delta_document_decode_safe_witness :
  let data := [0xB2; 1] ++ replicate 12 0 ++ [255; 255; 255; 255; 0; 0] in
  DeltaDocument.decode data ≠ Panic ∧
  ∀ d, DeltaDocument.decode data = Ok d → DeltaDocument.wf d ∧ DeltaDocument.encode d ≠ Panic.
Proof. intros data. apply (delta_document_decode_safe data). by_decide. Defined.

(** The delta document's wire format.  Encoding succeeds, has the
    announced size and is read back, trailing bytes ignored, with a vector
    clock and every kind of operation; bytes from the radio never panic the
    decoder, and what it accepts is well formed and encodes without panic. *)
Theorem delta_document_codec `{!MapOrder Z} (d : DeltaDocument.t) (rest data : list Z) :
  DeltaDocument.wf d →
  zlen (flat_map DeltaDocProofs.op_wire (DeltaDocument.operations d)) < 2 ^ 64 →
  bytes_ok data →
  (∃ bytes, DeltaDocument.encode d = Ok bytes
     ∧ DeltaDocument.encoded_size d = Ok (zlen bytes)
     ∧ DeltaDocument.decode (bytes ++ rest) = Ok d)
  ∧ wp (DeltaDocument.decode data) (λ d', DeltaDocument.wf d' ∧ DeltaDocument.encode d' ≠ Panic).
Proof.
  intros ?? Hb. split.
  - exists (DeltaDocProofs.doc_wire d). split_and!; [by apply DeltaDocProofs.delta_doc_encode|
      by apply DeltaDocProofs.delta_doc_size|by apply DeltaDocProofs.delta_doc_decode_encode].
  - eapply wp_mono; [by apply DeltaDocProofs.delta_doc_decode_wp|]. intros d' Hd'. cbv beta in *.
    split; [done|]. by rewrite DeltaDocProofs.delta_doc_encode.
Qed.
Lemma delta_document_codec_witness :
  let data := [0xB2; 1] ++ replicate 12 0 ++ [255; 255; 255; 255; 0; 0] in
  (∃ bytes, DeltaDocument.encode sample_doc = Ok bytes
     ∧ DeltaDocument.encoded_size sample_doc = Ok (zlen bytes)
     ∧ DeltaDocument.decode (bytes ++ [1; 2]) = Ok sample_doc)
  ∧ wp (DeltaDocument.decode data) (λ d', DeltaDocument.wf d' ∧ DeltaDocument.encode d' ≠ Panic).
Proof. intros data. apply (delta_document_codec sample_doc [1; 2] data); by_decide. Defined.

(** An app operation whose type is outside the registered range panics when
    it is encoded. *)
Lemma low_app_type_panics op :
  AppOperation.type_id op < APP_TYPE_MIN → Operation.encode (Operation.App op) = Panic.
Proof.
  intros H. cbn. unfold AppOperation.encode, AppOperation.op_type_byte, sub_u.
  by rewrite (proj2 (Z.leb_gt _ _)).
Qed.

End DeltaDocProperties.
