(* ===== verification/SyncProto.v ===== *)
(** * Chunked transfer and the GATT synchronisation coordinator of
    src/src/sync/protocol.rs. *)

From stdpp Require Import base numbers list gmap sets.
From S2P Require Import Prelude Crdt Sensor CrdtOp Delta.
Open Scope Z_scope.
Open Scope peat_scope.

Definition DEFAULT_MTU : Z := 23.
Definition MAX_MTU : Z := 517.
Definition CHUNK_HEADER_SIZE : Z := 8.

Module ChunkHeader.
Record t := mk { message_id : Z; chunk_index : Z; total_chunks : Z }.
#[global] Instance chunk_header_eq_dec : EqDecision t.
Proof. solve_decision. Defined.
Definition encode (self : t) : list Z :=
  le 4 (message_id self) ++ le 2 (chunk_index self) ++ le 2 (total_chunks self).
Definition decode (data : list Z) : outcome t :=
  reject_if zlen data <? CHUNK_HEADER_SIZE ;;
  let! message_id := u32_at data 0 in
  let! chunk_index := u16_at data 4 in
  let! total_chunks := u16_at data 6 in
  Ok (mk message_id chunk_index total_chunks).
Definition wf (self : t) : Prop :=
  in_u 32 (message_id self) ∧ in_u 16 (chunk_index self) ∧ in_u 16 (total_chunks self).
End ChunkHeader.

Module SyncChunk.
Record t := mk { header : ChunkHeader.t; payload : list Z }.

#[global] Instance chunk_eq_dec : EqDecision t.
Proof. solve_decision. Defined.

Definition encode (self : t) : list Z := ChunkHeader.encode (header self) ++ payload self.
Definition decode (data : list Z) : outcome t :=
  let! header := ChunkHeader.decode data in
  let! payload := slice_from data CHUNK_HEADER_SIZE in
  Ok (mk header payload).
Definition encoded_size (self : t) : Z := CHUNK_HEADER_SIZE + zlen (payload self).
End SyncChunk.

(** ** Reassembly *)

Module PartialMessage.
Record t := mk { total_chunks : Z; chunks : gmap Z (list Z); started_at : Z }.
End PartialMessage.

Module ChunkReassembler.

Record t := mk {
  partials : gmap Z PartialMessage.t; max_partials : Z; partial_timeout_ms : Z
}.

Definition new : t := mk ∅ 8 30000.
Definition set_partials (self : t) (ps : gmap Z PartialMessage.t) : t :=
  mk ps (max_partials self) (partial_timeout_ms self).

Definition process (self : t) (chunk : SyncChunk.t) (current_time_ms : Z)
    : t * option (list Z) :=
  let header := SyncChunk.header chunk in
  let msg_id := ChunkHeader.message_id header in
  if ChunkHeader.total_chunks header =? 1 then (self, Some (SyncChunk.payload chunk))
  else
    let partial :=
      match partials self !! msg_id with
      | Some partial => partial
      | None => PartialMessage.mk (ChunkHeader.total_chunks header) ∅ current_time_ms
      end in
    let partial := PartialMessage.mk (PartialMessage.total_chunks partial)
      (<[ChunkHeader.chunk_index header := SyncChunk.payload chunk]>
         (PartialMessage.chunks partial))
      (PartialMessage.started_at partial) in
    if Z.of_nat (size (PartialMessage.chunks partial)) =? PartialMessage.total_chunks partial
    then
      (set_partials self (delete msg_id (partials self)),
       match assemble (PartialMessage.total_chunks partial) (PartialMessage.chunks partial) with
       | Ok result => Some result
       | _ => None
       end)
    else (set_partials self (<[msg_id := partial]> (partials self)), None).

(** [retain] evaluates [current_time_ms - started_at] on every partial. *)
Definition cleanup `{!MapOrder Z} (self : t) (current_time_ms : Z) : outcome t :=
  let! ps := foldl (λ acc '(msg_id, partial),
      let! ps := acc in
      let! age := sub_u current_time_ms (PartialMessage.started_at partial) in
      Ok (if age <? partial_timeout_ms self then <[msg_id := partial]> ps else ps))
    (Ok ∅) (map_iter (partials self)) in
  Ok (set_partials self ps).

Definition pending_count (self : t) : Z := Z.of_nat (size (partials self)).

End ChunkReassembler.

(** ** Splitting *)

Definition chunk_data (data : list Z) (mtu message_id : Z) : list SyncChunk.t :=
  let payload_size := saturating_sub mtu CHUNK_HEADER_SIZE in
  if payload_size =? 0 then []
  else
    let total_chunks := wrap 16 (Z.max (div_ceil (zlen data) payload_size) 1) in
    let chunks := imap (λ i chunk_data,
        SyncChunk.mk (ChunkHeader.mk message_id (wrap 16 (Z.of_nat i)) total_chunks) chunk_data)
      (pieces payload_size data) in
    match chunks with
    | [] => [SyncChunk.mk (ChunkHeader.mk message_id 0 1) []]
    | _ => chunks
    end.

(** ** The coordinator *)

Module SyncState.
Inductive t := Idle | Sending | Receiving | WaitingAck.
End SyncState.

Module SyncConfig.
Record t := mk {
  mtu : Z; batch : BatchConfig.t; sync_interval_ms : Z; enable_delta : bool; max_retries : Z
}.
Definition default_config : t := mk DEFAULT_MTU BatchConfig.default_config 5000 true 3.
Definition low_power : t := mk DEFAULT_MTU BatchConfig.low_power 30000 true 2.
Definition responsive : t := mk MAX_MTU BatchConfig.responsive 1000 true 3.
End SyncConfig.

Module SyncStats.
Record t := mk {
  bytes_sent : Z; bytes_received : Z; syncs_completed : Z; pending_operations : Z;
  pending_tx_chunks : Z; pending_rx_messages : Z
}.
End SyncStats.

Module GattSyncProtocol.

Record t := mk {
  node_id : Z;
  config : SyncConfig.t;
  state : SyncState.t;
  batch : BatchAccumulator.t;
  delta : DeltaEncoder.t;
  vector_clock : VectorClock.t;
  tx_queue : list SyncChunk.t;
  rx_reassembler : ChunkReassembler.t;
  next_message_id : Z;
  current_time_ms : Z;
  last_sync_time_ms : Z
}.

Section ops.
Context `{!MapOrder Z}.
Implicit Types self : t.

Definition new (node_id : Z) (config : SyncConfig.t) : t :=
  mk node_id config SyncState.Idle (BatchAccumulator.new (SyncConfig.batch config))
    (DeltaEncoder.new node_id) VectorClock.new [] ChunkReassembler.new 1 0 0.

Definition set_state self (st : SyncState.t) : t :=
  mk (node_id self) (config self) st (batch self) (delta self) (vector_clock self)
    (tx_queue self) (rx_reassembler self) (next_message_id self) (current_time_ms self)
    (last_sync_time_ms self).
Definition set_batch self (b : BatchAccumulator.t) : t :=
  mk (node_id self) (config self) (state self) b (delta self) (vector_clock self)
    (tx_queue self) (rx_reassembler self) (next_message_id self) (current_time_ms self)
    (last_sync_time_ms self).
Definition set_delta self (d : DeltaEncoder.t) : t :=
  mk (node_id self) (config self) (state self) (batch self) d (vector_clock self)
    (tx_queue self) (rx_reassembler self) (next_message_id self) (current_time_ms self)
    (last_sync_time_ms self).
Definition set_clock self (vc : VectorClock.t) : t :=
  mk (node_id self) (config self) (state self) (batch self) (delta self) vc
    (tx_queue self) (rx_reassembler self) (next_message_id self) (current_time_ms self)
    (last_sync_time_ms self).
Definition set_tx self (q : list SyncChunk.t) : t :=
  mk (node_id self) (config self) (state self) (batch self) (delta self) (vector_clock self)
    q (rx_reassembler self) (next_message_id self) (current_time_ms self)
    (last_sync_time_ms self).
Definition set_rx self (r : ChunkReassembler.t) : t :=
  mk (node_id self) (config self) (state self) (batch self) (delta self) (vector_clock self)
    (tx_queue self) r (next_message_id self) (current_time_ms self) (last_sync_time_ms self).
Definition set_next_id self (id : Z) : t :=
  mk (node_id self) (config self) (state self) (batch self) (delta self) (vector_clock self)
    (tx_queue self) (rx_reassembler self) id (current_time_ms self) (last_sync_time_ms self).
Definition set_last_sync self (time : Z) : t :=
  mk (node_id self) (config self) (state self) (batch self) (delta self) (vector_clock self)
    (tx_queue self) (rx_reassembler self) (next_message_id self) (current_time_ms self) time.

Definition set_time self (time_ms : Z) : t :=
  mk (node_id self) (config self) (state self) (batch self) (delta self) (vector_clock self)
    (tx_queue self) (rx_reassembler self) (next_message_id self) time_ms
    (last_sync_time_ms self).
Definition set_mtu self (mtu : Z) : t :=
  let c := config self in
  mk (node_id self)
    (SyncConfig.mk mtu (SyncConfig.batch c) (SyncConfig.sync_interval_ms c)
       (SyncConfig.enable_delta c) (SyncConfig.max_retries c))
    (state self) (batch self) (delta self) (vector_clock self) (tx_queue self)
    (rx_reassembler self) (next_message_id self) (current_time_ms self) (last_sync_time_ms self).

Definition add_peer self (peer_id : Z) : t :=
  set_delta self (DeltaEncoder.add_peer (delta self) peer_id).
Definition remove_peer self (peer_id : Z) : t :=
  set_delta self (DeltaEncoder.remove_peer (delta self) peer_id).

Definition queue_operation self (op : CrdtOperation.t) : outcome (t * bool) :=
  let! r := VectorClock.increment (vector_clock self) (node_id self) in
  let '(vc, _) := r in
  let '(b, added) := BatchAccumulator.add (batch self) op (current_time_ms self) in
  Ok (set_batch (set_clock self vc) b, added).

Definition should_sync self : outcome bool :=
  BatchAccumulator.should_flush (batch self) (current_time_ms self).

Definition prepare_sync self (peer_id : Z) : outcome (t * list SyncChunk.t) :=
  let '(b, flushed) := BatchAccumulator.flush (batch self) (current_time_ms self) in
  let self := set_batch self b in
  match flushed with
  | None => Ok (self, [])
  | Some batch =>
      let operations :=
        if SyncConfig.enable_delta (config self)
        then DeltaEncoder.filter_for_peer (delta self) peer_id (OperationBatch.operations batch)
        else OperationBatch.operations batch in
      if zlen operations =? 0 then Ok (self, [])
      else
        let! total_bytes := sum_u 64 (CrdtOperation.size <$> operations) in
        let encoded := OperationBatch.encode
          (OperationBatch.mk operations total_bytes (OperationBatch.created_at batch)) in
        let msg_id := next_message_id self in
        let self := set_next_id self (wrapping_add 32 (next_message_id self) 1) in
        let chunks := chunk_data encoded (SyncConfig.mtu (config self)) msg_id in
        let! delta := DeltaEncoder.record_sent
          (DeltaEncoder.mark_sent (delta self) peer_id operations) peer_id (zlen encoded) in
        Ok (set_last_sync (set_state (set_delta self delta) SyncState.Sending)
              (current_time_ms self), chunks)
  end.

Definition next_tx_chunk self : t * option SyncChunk.t :=
  match tx_queue self with [] => (self, None) | c :: q => (set_tx self q, Some c) end.
Definition queue_chunks self (chunks : list SyncChunk.t) : t :=
  set_tx self (tx_queue self ++ chunks).
Definition has_pending_tx self : bool := negb (zlen (tx_queue self) =? 0).

Definition op_clock_time (op : CrdtOperation.t) : Z :=
  match op with
  | CrdtOperation.UpdatePosition _ _ timestamp => timestamp
  | CrdtOperation.UpdateHealth _ _ timestamp => timestamp
  | CrdtOperation.UpdateRegister _ _ timestamp _ => timestamp
  | CrdtOperation.IncrementCounter _ _ _ => 0
  end.

(** A [None] leaves the changes made before the [?]. *)
Definition process_received self (chunk : SyncChunk.t) (peer_id : Z)
    : outcome (t * option (list CrdtOperation.t)) :=
  let self := set_state self SyncState.Receiving in
  let '(rx, complete) :=
    ChunkReassembler.process (rx_reassembler self) chunk (current_time_ms self) in
  let self := set_rx self rx in
  match complete with
  | None => Ok (self, None)
  | Some complete =>
      let! decoded := opt (OperationBatch.decode complete) in
      match decoded with
      | None => Ok (self, None)
      | Some batch =>
          let! delta := DeltaEncoder.record_received (delta self) peer_id (zlen complete)
            (current_time_ms self) in
          let vc := foldl (λ vc op,
              let timestamp := op_clock_time op in
              if 0 <? timestamp then VectorClock.update vc peer_id timestamp else vc)
            (vector_clock self) (OperationBatch.operations batch) in
          Ok (set_state (set_clock (set_delta self delta) vc) SyncState.Idle,
              Some (OperationBatch.operations batch))
      end
  end.

Definition ack_send self : t :=
  if zlen (tx_queue self) =? 0 then set_state self SyncState.Idle else self.
Definition reset self : t :=
  set_rx (set_tx (set_state self SyncState.Idle) []) ChunkReassembler.new.
Definition reset_peer self (peer_id : Z) : t :=
  set_delta self (DeltaEncoder.reset_peer (delta self) peer_id).
Definition tick self : outcome t :=
  let! rx := ChunkReassembler.cleanup (rx_reassembler self) (current_time_ms self) in
  Ok (set_rx self rx).

Definition stats self : outcome SyncStats.t :=
  let! ds := delta_stats (delta self) in
  Ok (SyncStats.mk (DeltaStats.total_bytes_sent ds) (DeltaStats.total_bytes_received ds)
        (DeltaStats.total_syncs ds) (BatchAccumulator.pending_count (batch self))
        (zlen (tx_queue self)) (ChunkReassembler.pending_count (rx_reassembler self))).

End ops.

End GattSyncProtocol.

(** * Theorems *)

Module ChunkProofs.
Import ChunkReassembler.

Lemma chunk_decode_encode c :
  ChunkHeader.wf (SyncChunk.header c) →
  SyncChunk.decode (SyncChunk.encode c) = Ok c ∧
  zlen (SyncChunk.encode c) = SyncChunk.encoded_size c.
Proof.
  destruct c as [[id i n] p]. intros (? & ? & ?). cbn in *.
  unfold SyncChunk.decode, SyncChunk.encode, ChunkHeader.decode, ChunkHeader.encode,
    SyncChunk.encoded_size, CHUNK_HEADER_SIZE. cbn. rewrite <-!app_assoc. split; [|len].
  by rd.
Qed.

(** The chunks of a message cut into [pls]. *)
Definition chunks_of (id n : Z) (pls : list (list Z)) : list SyncChunk.t :=
  imap (λ i p, SyncChunk.mk (ChunkHeader.mk id (Z.of_nat i) n) p) pls.

Lemma elem_of_chunks_of id n pls c :
  c ∈ chunks_of id n pls ↔
  ∃ i, pls !! i = Some (SyncChunk.payload c) ∧
       SyncChunk.header c = ChunkHeader.mk id (Z.of_nat i) n.
Proof.
  unfold chunks_of. rewrite list_elem_of_lookup. setoid_rewrite list_lookup_imap_Some.
  split.
  - intros (i & p & Hp & ->). exists i. done.
  - intros (i & Hp & Hh). exists i, (SyncChunk.payload c). split; [done|].
    destruct c; cbn in *. by rewrite Hh.
Qed.

Lemma chunk_data_spec data mtu id :
  let ps := mtu - CHUNK_HEADER_SIZE in
  0 < ps → data ≠ [] → div_ceil (zlen data) ps < 2 ^ 16 →
  chunk_data data mtu id = chunks_of id (zlen (pieces ps data)) (pieces ps data).
Proof.
  intros ps Hps Hne Hlt. unfold chunk_data, saturating_sub. rewrite Z.max_r by lia. fold ps.
  rewrite (proj2 (Z.eqb_neq ps 0)) by lia.
  pose proof (pieces_length ps data Hps) as Hlen.
  assert (pieces ps data ≠ []) as Hp.
  { intros E. apply Hne. by rewrite <-(pieces_concat ps data), E. }
  assert (1 ≤ zlen (pieces ps data)) as H1 by (destruct (pieces ps data); cbn; [done|lia]).
  rewrite <-Hlen, Z.max_l, (wrap_small 16) by lia.
  assert (imap (λ i p, SyncChunk.mk (ChunkHeader.mk id (wrap 16 (Z.of_nat i))
      (zlen (pieces ps data))) p) (pieces ps data)
    = chunks_of id (zlen (pieces ps data)) (pieces ps data)) as ->.
  { apply imap_ext. intros i x Hi. apply lookup_lt_Some in Hi. rewrite wrap_small by lia. done. }
  by destruct (pieces ps data).
Qed.

Lemma chunk_data_nil mtu id :
  CHUNK_HEADER_SIZE < mtu →
  chunk_data [] mtu id = [SyncChunk.mk (ChunkHeader.mk id 0 1) []].
Proof.
  intros H. unfold chunk_data, saturating_sub.
  by rewrite (proj2 (Z.eqb_neq (Z.max 0 _) 0)) by lia.
Qed.

(** ** Collecting one message *)

(** The reassembler [r] holds exactly the chunks [seen] of message [id]. *)
Definition holds (r : t) (id : Z) (pls : list (list Z)) (seen : list SyncChunk.t) : Prop :=
  match partials r !! id with
  | None => seen = []
  | Some p =>
      PartialMessage.total_chunks p = zlen pls ∧
      PartialMessage.chunks p ⊆ map_seqZ 0 pls ∧
      ∀ i, is_Some (PartialMessage.chunks p !! i) ↔
           ∃ c, c ∈ seen ∧ ChunkHeader.chunk_index (SyncChunk.header c) = i
  end.

Lemma process_other r id pls seen c now :
  ChunkHeader.message_id (SyncChunk.header c) ≠ id →
  holds r id pls seen → holds (process r c now).1 id pls seen.
Proof.
  intros Hne. unfold process, holds. destruct (_ =? 1); [done|].
  destruct (_ =? _); cbn; [by rewrite lookup_delete_ne|by rewrite lookup_insert_ne].
Qed.

(** The partial message after chunk [c] is stored. *)
Lemma holds_step r id pls seen c now :
  c ∈ chunks_of id (zlen pls) pls → holds r id pls seen →
  let p := match partials r !! id with
           | Some p => p | None => PartialMessage.mk (zlen pls) ∅ now end in
  let chunks := <[ChunkHeader.chunk_index (SyncChunk.header c) := SyncChunk.payload c]>
                  (PartialMessage.chunks p) in
  PartialMessage.total_chunks p = zlen pls ∧ chunks ⊆ map_seqZ 0 pls ∧
  ∀ i, is_Some (chunks !! i) ↔
       ∃ c', c' ∈ seen ++ [c] ∧ ChunkHeader.chunk_index (SyncChunk.header c') = i.
Proof.
  intros (k & Hk & Hh)%elem_of_chunks_of Hr p chunks.
  assert (PartialMessage.total_chunks p = zlen pls ∧
    PartialMessage.chunks p ⊆ map_seqZ 0 pls ∧
    ∀ i, is_Some (PartialMessage.chunks p !! i) ↔
         ∃ c, c ∈ seen ∧ ChunkHeader.chunk_index (SyncChunk.header c) = i) as (Ht & Hs & Hi).
  { unfold p, holds in *. destruct (partials r !! id); [done|]. subst seen. cbn.
    split_and!; [done|apply map_empty_subseteq|]. intros i. rewrite lookup_empty.
    split; [by intros []|]. by intros (? & ?%elem_of_nil & _). }
  split_and!; [done| |].
  - unfold chunks. rewrite Hh. cbn. apply insert_subseteq_l; [|done].
    rewrite lookup_map_seqZ_0 by lia. by rewrite Nat2Z.id.
  - intros i. unfold chunks. rewrite lookup_insert_is_Some, Hi. rewrite Hh. cbn. split.
    + intros [<-|[_ (c' & ? & ?)]]; [exists c|exists c']; (split; [set_solver|]); [by rewrite Hh|done].
    + intros (c' & [Hc'| ->%list_elem_of_singleton]%elem_of_app & <-).
      * destruct (decide (Z.of_nat k = ChunkHeader.chunk_index (SyncChunk.header c')));
          [by left|right]. eauto.
      * rewrite Hh. by left.
Qed.

Lemma process_incomplete r id pls seen c now miss :
  2 ≤ zlen pls → c ∈ chunks_of id (zlen pls) pls → holds r id pls seen →
  miss ∈ chunks_of id (zlen pls) pls → miss ∉ seen ++ [c] →
  (∀ x, x ∈ seen → x ∈ chunks_of id (zlen pls) pls) →
  (process r c now).2 = None ∧ holds (process r c now).1 id pls (seen ++ [c]).
Proof.
  intros Hn Hc Hr Hm Hms Hseen.
  pose proof (holds_step r id pls seen c now Hc Hr) as (Ht & Hs & Hi).
  apply elem_of_chunks_of in Hc as (k & Hk & Hh).
  unfold process. rewrite Hh. cbn [ChunkHeader.message_id ChunkHeader.total_chunks
    ChunkHeader.chunk_index] in *.
  rewrite (proj2 (Z.eqb_neq (zlen pls) 1)) by lia. rewrite Hh in Hs, Hi. cbn in Hs, Hi.
  cbn [PartialMessage.chunks PartialMessage.total_chunks] in *. rewrite Ht.
  replace (_ =? _) with false.
  - split; [done|]. unfold holds. cbn. rewrite lookup_insert_eq. cbn. done.
  - symmetry. apply Z.eqb_neq. apply elem_of_chunks_of in Hm as (km & Hkm & Hhm).
    intros E. eapply (parts_missing _ pls (Z.of_nat km) Hs); [|apply lookup_lt_Some in Hkm; lia|lia].
    apply eq_None_not_Some. intros Hsome. apply Hi in Hsome as (c' & Hc' & Hidx).
    apply Hms. enough (miss = c') as -> by done.
    assert (c' ∈ chunks_of id (zlen pls) pls) as Hin.
    { apply elem_of_app in Hc' as [?| ->%list_elem_of_singleton]; [by apply Hseen|].
      apply elem_of_chunks_of. eauto. }
    apply elem_of_chunks_of in Hin as (k' & Hk' & Hh').
    rewrite Hh' in Hidx. cbn in Hidx. assert (k' = km) as -> by lia.
    destruct miss, c'; cbn in *. congruence.
Qed.

Lemma process_complete r id pls seen c now :
  2 ≤ zlen pls → c ∈ chunks_of id (zlen pls) pls → holds r id pls seen →
  (∀ x, x ∈ chunks_of id (zlen pls) pls → x ∈ seen ++ [c]) →
  (process r c now).2 = Some (concat pls) ∧ partials (process r c now).1 !! id = None.
Proof.
  intros Hn Hc Hr Hall.
  pose proof (holds_step r id pls seen c now Hc Hr) as (Ht & Hs & Hi).
  apply elem_of_chunks_of in Hc as (k & Hk & Hh).
  unfold process. rewrite Hh. cbn [ChunkHeader.message_id ChunkHeader.total_chunks
    ChunkHeader.chunk_index] in *.
  rewrite (proj2 (Z.eqb_neq (zlen pls) 1)) by lia. rewrite Hh in Hs, Hi. cbn in Hs, Hi.
  cbn [PartialMessage.chunks PartialMessage.total_chunks] in *. rewrite Ht.
  match goal with |- context [size ?m] => set (parts := m) in * end.
  assert (parts = map_seqZ 0 pls) as ->.
  { apply map_eq. intros i. destruct (map_seqZ 0 pls !! i) as [p|] eqn:E.
    - assert (is_Some (parts !! i)) as [p' Hp'].
      { apply Hi. apply lookup_map_seqZ_Some in E as [Hi0 E].
        exists (SyncChunk.mk (ChunkHeader.mk id i (zlen pls)) p). split; [|done].
        apply Hall, elem_of_chunks_of. exists (Z.to_nat i). cbn.
        rewrite Z.sub_0_r in E. split; [done|]. f_equal. lia. }
      rewrite Hp'. rewrite map_subseteq_spec in Hs. apply Hs in Hp'. congruence.
    - destruct (parts !! i) as [p'|] eqn:Hp'; [|done].
      rewrite map_subseteq_spec in Hs. apply Hs in Hp'. congruence. }
  rewrite map_size_seqZ, Z.eqb_refl. cbn. rewrite assemble_all by done.
  split; [done|]. by rewrite lookup_delete_eq.
Qed.

(** ** A whole trace *)

(** Chunks processed in order, each at its time, with the outputs tagged by
    message. *)
Definition feed (r : t) (trace : list (SyncChunk.t * Z)) : t * list (Z * option (list Z)) :=
  foldl (λ '(r, outs) '(c, now),
      let '(r', o) := process r c now in
      (r', outs ++ [(ChunkHeader.message_id (SyncChunk.header c), o)])) (r, []) trace.

Lemma feed_snoc r trace c now :
  feed r (trace ++ [(c, now)])
  = ((process (feed r trace).1 c now).1,
     (feed r trace).2 ++ [(ChunkHeader.message_id (SyncChunk.header c),
                           (process (feed r trace).1 c now).2)]).
Proof.
  unfold feed. rewrite foldl_snoc.
  destruct (foldl _ _ trace) as [r1 o1]. cbn. by destruct (process r1 c now).
Qed.

(** The chunks of message [id] in a trace. *)
Definition own (id : Z) (trace : list (SyncChunk.t * Z)) : list SyncChunk.t :=
  filter (λ c, ChunkHeader.message_id (SyncChunk.header c) = id) trace.*1.

Lemma feed_prefix r id pls trace miss :
  2 ≤ zlen pls → partials r !! id = None →
  (∀ c, c ∈ own id trace → c ∈ chunks_of id (zlen pls) pls) →
  miss ∈ chunks_of id (zlen pls) pls → miss ∉ own id trace →
  (∀ o, (id, o) ∈ (feed r trace).2 → o = None) ∧
  holds (feed r trace).1 id pls (own id trace).
Proof.
  intros Hn Hr Hown Hm. induction trace as [|[c now] trace IH] using rev_ind; intros Hmiss.
  { split; [by intros o ?%elem_of_nil|]. unfold holds. cbn. by rewrite Hr. }
  unfold own in *. rewrite fmap_app, filter_app in *. cbn [fmap list_fmap] in *.
  rewrite feed_snoc. cbn [fst snd].
  destruct IH as [Hout Hholds]; [intros; apply Hown; set_solver|set_solver|].
  destruct (decide (ChunkHeader.message_id (SyncChunk.header c) = id)) as [Hid|Hid].
  - rewrite filter_cons_True, filter_nil in * by done.
    destruct (process_incomplete (feed r trace).1 id pls _ c now miss Hn
      ltac:(apply Hown; set_solver) Hholds Hm Hmiss ltac:(intros; apply Hown; set_solver))
      as [Ho Hh]. split; [|done].
    intros o [?|Hlast%list_elem_of_singleton]%elem_of_app; [by apply Hout|congruence].
  - rewrite filter_cons_False, filter_nil, app_nil_r in * by done.
    split; [|by apply process_other].
    intros o [?|Hlast%list_elem_of_singleton]%elem_of_app; [by apply Hout|congruence].
Qed.

Lemma feed_without r id trace :
  own id trace = [] →
  partials (feed r trace).1 !! id = partials r !! id ∧ ∀ o, (id, o) ∉ (feed r trace).2.
Proof.
  induction trace as [|[c now] trace IH] using rev_ind; intros Hown.
  { split; [done|]. intros o. apply not_elem_of_nil. }
  unfold own in *. rewrite fmap_app, filter_app in Hown. cbn [fmap list_fmap] in Hown.
  apply app_eq_nil in Hown as [Hown Hc].
  assert (ChunkHeader.message_id (SyncChunk.header c) ≠ id) as Hne.
  { intros Hid. cbn [fst] in Hc. by rewrite filter_cons_True in Hc. }
  destruct (IH Hown) as [Hp Ho]. rewrite feed_snoc. cbn [fst snd]. split.
  - rewrite <-Hp. unfold process. destruct (_ =? 1); [done|].
    destruct (_ =? _); cbn; [by rewrite lookup_delete_ne|by rewrite lookup_insert_ne].
  - intros o [?|Hlast%list_elem_of_singleton]%elem_of_app; [by apply (Ho o)|congruence].
Qed.

(** Chunks of one message in any order, possibly repeated and interleaved
    with other messages: only the last missing one completes it. *)
Lemma reassemble r data mtu id pre c now :
  CHUNK_HEADER_SIZE < mtu → div_ceil (zlen data) (mtu - CHUNK_HEADER_SIZE) < 2 ^ 16 →
  partials r !! id = None →
  let cs := chunk_data data mtu id in
  (∀ x, x ∈ own id pre → x ∈ cs) → c ∈ cs → c ∉ own id pre →
  (∀ x, x ∈ cs → x ∈ own id pre ++ [c]) →
  (∀ o, (id, o) ∈ (feed r pre).2 → o = None) ∧
  (process (feed r pre).1 c now).2 = Some data ∧
  partials (process (feed r pre).1 c now).1 !! id = None.
Proof.
  intros Hmtu Hlt Hr cs Hsub Hc Hnc Hall. unfold CHUNK_HEADER_SIZE in *.
  set (pls := pieces (mtu - 8) data).
  assert (concat pls = data) as Hcat by (apply pieces_concat; lia).
  assert (cs = [SyncChunk.mk (ChunkHeader.mk id 0 1) data] ∨
          cs = chunks_of id (zlen pls) pls ∧ 2 ≤ zlen pls) as [Hcs|[Hcs Hn]].
  { destruct (decide (data = [])) as [->|Hne]; [left; by apply chunk_data_nil|].
    unfold cs. rewrite chunk_data_spec by (unfold CHUNK_HEADER_SIZE; lia || done).
    unfold CHUNK_HEADER_SIZE. fold pls.
    destruct pls as [|p [|p' pls']]; [by destruct Hne; rewrite <-Hcat|left|right].
    - cbn in Hcat. rewrite app_nil_r in Hcat. by rewrite Hcat.
    - split; [done|cbn; lia]. }
  - rewrite Hcs in *. apply list_elem_of_singleton in Hc as ->.
    assert (own id pre = []) as Hown.
    { destruct (own id pre) as [|x l]; [done|].
      specialize (Hsub x ltac:(set_solver)). apply list_elem_of_singleton in Hsub as ->.
      set_solver. }
    destruct (feed_without r id pre Hown) as [Hp Ho]. split_and!.
    + intros o Hin. by destruct (Ho o Hin).
    + done.
    + cbn. by rewrite Hp.
  - rewrite Hcs in *.
    destruct (feed_prefix r id pls pre c Hn Hr Hsub Hc Hnc) as [Ho Hh]. split; [done|].
    destruct (process_complete (feed r pre).1 id pls _ c now Hn Hc Hh Hall) as [-> ?].
    by rewrite Hcat.
Qed.

End ChunkProofs.

Module CoordinatorProofs.
Import GattSyncProtocol ChunkProofs.

Section coord.
Context `{!MapOrder Z}.

(** A receiver processing the chunks of one sender. *)
Definition receive_all (b : t) (peer : Z) (cs : list SyncChunk.t)
    : outcome (t * list (option (list CrdtOperation.t))) :=
  foldl (λ acc c,
      let! st := acc in
      let '(b, outs) := st in
      let! r := process_received b c peer in
      let '(b', o) := r in
      Ok (b', outs ++ [o])) (Ok (b, [])) cs.

Lemma receive_all_snoc b peer cs c b' outs :
  receive_all b peer cs = Ok (b', outs) →
  receive_all b peer (cs ++ [c]) =
    (let! r := process_received b' c peer in let '(b'', o) := r in Ok (b'', outs ++ [o])).
Proof. intros Hrec. unfold receive_all in *. rewrite foldl_snoc, Hrec. done. Qed.

(** All the chunks at one time. *)
Definition at_time (now : Z) (cs : list SyncChunk.t) : list (SyncChunk.t * Z) :=
  map (λ c, (c, now)) cs.
Lemma at_time_snoc now cs c : at_time now (cs ++ [c]) = at_time now cs ++ [(c, now)].
Proof. apply map_app. Qed.

(** What chunks that complete nothing change: the reassembler. *)
Definition same_but_rx (b b' : t) (rx : ChunkReassembler.t) : Prop :=
  rx_reassembler b' = rx ∧ delta b' = delta b ∧ current_time_ms b' = current_time_ms b.

Lemma receive_prefix b peer id cs :
  (∀ c, c ∈ cs → ChunkHeader.message_id (SyncChunk.header c) = id) →
  (∀ o, (id, o) ∈ (feed (rx_reassembler b) (at_time (current_time_ms b) cs)).2 → o = None) →
  ∃ b', receive_all b peer cs = Ok (b', map (λ _, None) cs) ∧
        same_but_rx b b' (feed (rx_reassembler b) (at_time (current_time_ms b) cs)).1.
Proof.
  induction cs as [|c cs IH] using rev_ind; intros Hid Hout; [by exists b|].
  rewrite at_time_snoc, feed_snoc in *. cbn [fst snd] in *.
  destruct IH as (b' & Hrec & Hrx & Hd & Ht);
    [intros; apply Hid; set_solver|intros o Ho; apply Hout; set_solver|].
  rewrite (receive_all_snoc _ _ _ _ _ _ Hrec). unfold process_received.
  cbn [rx_reassembler set_state current_time_ms]. rewrite Hrx, Ht.
  assert ((ChunkReassembler.process (feed (rx_reassembler b)
    (at_time (current_time_ms b) cs)).1 c (current_time_ms b)).2 = None) as Hnone.
  { apply Hout. rewrite (Hid c) by set_solver. set_solver. }
  destruct (ChunkReassembler.process _ c _) as [rx o]. cbn [snd] in Hnone. subst o. cbn [obind].
  eexists. split; [by rewrite map_app|]. done.
Qed.

Lemma own_all id now cs :
  (∀ c, c ∈ cs → ChunkHeader.message_id (SyncChunk.header c) = id) →
  own id (at_time now cs) = cs.
Proof.
  intros Hid. unfold own, at_time. induction cs as [|c cs IH]; [done|]. cbn.
  rewrite decide_True by (apply Hid; set_solver). f_equal. apply IH. set_solver.
Qed.

Lemma chunk_data_id data mtu id c :
  c ∈ chunk_data data mtu id → ChunkHeader.message_id (SyncChunk.header c) = id.
Proof.
  unfold chunk_data. destruct (_ =? 0); [by intros ?%elem_of_nil|].
  destruct (imap _ _) as [|c0 cs] eqn:E.
  - by intros ->%list_elem_of_singleton.
  - rewrite <-E. intros (i & Hi)%list_elem_of_lookup.
    apply list_lookup_imap_Some in Hi as (p & _ & ->). done.
Qed.

(** The operations a sync with [peer] takes out of the pending batch. *)
Definition outgoing (a : t) (peer : Z) : list CrdtOperation.t :=
  if SyncConfig.enable_delta (config a)
  then DeltaEncoder.filter_for_peer (delta a) peer (BatchAccumulator.pending (batch a))
  else BatchAccumulator.pending (batch a).

(** The message [prepare_sync] sends. *)
Definition message (ops : list CrdtOperation.t) : list Z :=
  OperationBatch.encode (OperationBatch.mk ops 0 0).

Lemma prepare_sync_chunks a peer a' cs :
  prepare_sync a peer = Ok (a', cs) → outgoing a peer ≠ [] →
  cs = chunk_data (message (outgoing a peer)) (SyncConfig.mtu (config a)) (next_message_id a).
Proof.
  unfold prepare_sync, outgoing, BatchAccumulator.flush. intros Hp Hne.
  destruct (zlen (BatchAccumulator.pending (batch a)) =? 0) eqn:E.
  { apply AccumulatorProofs.zlen_0 in E. rewrite E in Hne. unfold DeltaEncoder.filter_for_peer in Hne.
    destruct (SyncConfig.enable_delta _); [|done].
    by destruct (DeltaEncoder.peers _ !! _). }
  cbn [OperationBatch.operations set_batch config delta] in Hp.
  set (ops := if SyncConfig.enable_delta (config a) then _ else _) in *.
  rewrite (proj2 (AccumulatorProofs.zlen_n0 ops)) in Hp by done.
  destruct (sum_u 64 _); cbn [obind] in Hp; [|done|done].
  destruct (DeltaEncoder.record_sent _ _ _); cbn [obind] in Hp; [|done|done].
  injection Hp as _ <-. done.
Qed.

Lemma prepare_sync_pending a peer a' cs :
  prepare_sync a peer = Ok (a', cs) → BatchAccumulator.pending (batch a') = [].
Proof.
  unfold prepare_sync, BatchAccumulator.flush. intros Hp.
  destruct (zlen (BatchAccumulator.pending (batch a)) =? 0) eqn:E.
  { apply AccumulatorProofs.zlen_0 in E. injection Hp as <- _. done. }
  cbv beta iota zeta in Hp. match type of Hp with context [?b =? 0] => destruct (b =? 0) end;
    [by injection Hp as <- _|].
  destruct (sum_u 64 _); cbn [obind] in Hp; [|done|done].
  destruct (DeltaEncoder.record_sent _ _ _); cbn [obind] in Hp; [|done|done].
  by injection Hp as <- _.
Qed.
End coord.
End CoordinatorProofs.

Module SyncProperties.
Import CoordinatorProofs.

(** Reassembly.  The chunks of a message may arrive in any order, more
    than once, and interleaved with the chunks of other messages: no proper
    part of them completes the message, and the last missing one returns
    exactly the bytes that were split and forgets the partial message. *)
Theorem reassembly_any_order (r : ChunkReassembler.t) (data : list Z) (mtu id : Z) pre c now :
  CHUNK_HEADER_SIZE < mtu → div_ceil (zlen data) (mtu - CHUNK_HEADER_SIZE) < 2 ^ 16 →
  ChunkReassembler.partials r !! id = None →
  let cs := chunk_data data mtu id in
  (∀ x, x ∈ ChunkProofs.own id pre → x ∈ cs) → c ∈ cs → c ∉ ChunkProofs.own id pre →
  (∀ x, x ∈ cs → x ∈ ChunkProofs.own id pre ++ [c]) →
  let '(r1, outs) := ChunkProofs.feed r pre in
  let '(r2, out) := ChunkReassembler.process r1 c now in
  (∀ o, (id, o) ∈ outs → o = None) ∧ out = Some data ∧
  ChunkReassembler.partials r2 !! id = None.
Proof.
  intros Hmtu Hlt Hr cs Hsub Hc Hnc Hall.
  pose proof (ChunkProofs.reassemble r data mtu id pre c now Hmtu Hlt Hr Hsub Hc Hnc Hall) as H.
  destruct (ChunkProofs.feed r pre) as [r1 outs]. cbn [fst snd] in H.
  by destruct (ChunkReassembler.process r1 c now).
Qed.

(** Three chunks of message 5, the last first, one repeated, with a chunk
    of message 6 in between. *)
Lemma reassembly_any_order_witness :
  let data := [1; 2; 3; 4; 5; 6; 7] in
  let ch i p := SyncChunk.mk (ChunkHeader.mk 5 i 3) p in
  let pre := [(ch 2 [7], 10); (SyncChunk.mk (ChunkHeader.mk 6 0 2) [9], 11);
              (ch 0 [1; 2; 3], 12); (ch 2 [7], 13)] in
  let '(r1, outs) := ChunkProofs.feed ChunkReassembler.new pre in
  let '(r2, out) := ChunkReassembler.process r1 (ch 1 [4; 5; 6]) 14 in
  (∀ o, (5, o) ∈ outs → o = None) ∧ out = Some data ∧
  ChunkReassembler.partials r2 !! 5 = None.
Proof.
  intros data ch pre.
  assert (chunk_data data 11 5 = [ch 0 [1; 2; 3]; ch 1 [4; 5; 6]; ch 2 [7]]) as E by reflexivity.
  apply (reassembly_any_order ChunkReassembler.new data 11 5 pre (ch 1 [4; 5; 6]) 14).
  - reflexivity.
  - reflexivity.
  - reflexivity.
  - rewrite E. change (ChunkProofs.own 5 pre) with [ch 2 [7]; ch 0 [1; 2; 3]; ch 2 [7]]. set_solver.
  - rewrite E. set_solver.
  - by_decide.
  - rewrite E. change (ChunkProofs.own 5 pre) with [ch 2 [7]; ch 0 [1; 2; 3]; ch 2 [7]]. set_solver.
Defined.



(** A pending batch reaches one peer only.  Preparing a synchronisation
    with one peer empties the batch, so that preparing one with any other
    peer before new operations are queued sends it nothing, although that
    peer has seen none of them. *)
Theorem second_peer_gets_nothing `{!MapOrder Z} (a : GattSyncProtocol.t) (p q : Z) a' cs :
  GattSyncProtocol.prepare_sync a p = Ok (a', cs) →
  ∃ a'', GattSyncProtocol.prepare_sync a' q = Ok (a'', []) ∧
         GattSyncProtocol.delta a'' = GattSyncProtocol.delta a'.
Proof.
  intros Hp. apply prepare_sync_pending in Hp. unfold GattSyncProtocol.prepare_sync at 1.
  unfold BatchAccumulator.flush. rewrite Hp. cbn. by eexists.
Qed.

Lemma second_peer_gets_nothing_witness :
  let pos n := CrdtOperation.UpdatePosition n (Position.new 0x42171EB8 0xC2F4CCCD) 1000 in
  let start := GattSyncProtocol.add_peer (GattSyncProtocol.add_peer
                 (GattSyncProtocol.new 1 SyncConfig.default_config) 2) 3 in
  let a := match GattSyncProtocol.queue_operation start (pos 1) with
           | Ok (g, _) => g | _ => start end in
  let a' := match GattSyncProtocol.prepare_sync a 2 with Ok (a', _) => a' | _ => a end in
  ∃ a'', GattSyncProtocol.prepare_sync a' 3 = Ok (a'', []) ∧
         GattSyncProtocol.delta a'' = GattSyncProtocol.delta a'.
Proof.
  intros pos start a a'.
  apply (second_peer_gets_nothing a 2 3 a' (chunk_data (message (outgoing a 2)) 23 1)).
  vm_compute. reflexivity.
Defined.

(** Messages of different senders are mixed up.  Reassembly looks only
    at the message identifier, and every node numbers its messages from 1:
    when the first of two chunks of one sender is followed by the second of
    two chunks of another with the same number, a message that nobody sent
    is returned, made of half of each. *)
Theorem senders_mixed_up (r : ChunkReassembler.t) (id now now' : Z) d1 d2 mtu a0 a1 b0 b1 :
  ChunkReassembler.partials r !! id = None →
  CHUNK_HEADER_SIZE < mtu →
  chunk_data d1 mtu id = [a0; a1] → chunk_data d2 mtu id = [b0; b1] →
  (ChunkReassembler.process (ChunkReassembler.process r a0 now).1 b1 now').2
  = Some (SyncChunk.payload a0 ++ SyncChunk.payload b1).
Proof.
  intros Hr Hmtu H1 H2.
  assert (∀ d c0 c1, chunk_data d mtu id = [c0; c1] →
    SyncChunk.header c0 = ChunkHeader.mk id 0 2 ∧ SyncChunk.header c1 = ChunkHeader.mk id 1 2)
    as Hhd.
  { intros d c0 c1. unfold CHUNK_HEADER_SIZE in *.
    unfold chunk_data, saturating_sub, CHUNK_HEADER_SIZE. rewrite Z.max_r by lia.
    rewrite (proj2 (Z.eqb_neq _ 0)) by lia.
    rewrite <-(pieces_length (mtu - 8)) by lia.
    destruct (pieces (mtu - 8) d) as [|p0 [|p1 [|p2 ps]]]; cbn; try discriminate.
    intros [= <- <-]. done. }
  destruct (Hhd _ _ _ H1) as [Ha _], (Hhd _ _ _ H2) as [_ Hb].
  destruct a0 as [ha pa], b1 as [hb pb]. cbn [SyncChunk.header SyncChunk.payload] in *. subst ha hb.
  unfold ChunkReassembler.process at 2. cbn [SyncChunk.header SyncChunk.payload
    ChunkHeader.total_chunks ChunkHeader.message_id ChunkHeader.chunk_index].
  rewrite Hr. cbn [Z.eqb Pos.eqb PartialMessage.chunks PartialMessage.total_chunks].
  rewrite map_size_insert_None, map_size_empty by apply lookup_empty. cbn [Z.of_nat Z.eqb].
  change (Z.of_nat 1 =? 2) with false. cbn match. cbn [fst].
  unfold ChunkReassembler.process. cbn [SyncChunk.header SyncChunk.payload
    ChunkHeader.total_chunks ChunkHeader.message_id ChunkHeader.chunk_index
    ChunkReassembler.partials ChunkReassembler.set_partials].
  rewrite lookup_insert_eq. cbn [PartialMessage.chunks PartialMessage.total_chunks].
  replace (<[1:=pb]> (<[0:=pa]> (∅ : gmap Z (list Z)))) with (map_seqZ 0 [pa; pb] : gmap Z (list Z))
    by (cbn; by rewrite insert_insert_ne).
  rewrite map_size_seqZ. cbn -[assemble map_seqZ].
  rewrite assemble_all by done. cbn. by rewrite app_nil_r.
Qed.

Lemma senders_mixed_up_witness :
  let ch i p := SyncChunk.mk (ChunkHeader.mk 1 i 2) p in
  (ChunkReassembler.process (ChunkReassembler.process ChunkReassembler.new
     (ch 0 [1; 2; 3]) 10).1 (ch 1 [9]) 11).2
  = Some [1; 2; 3; 9].
Proof.
  intros ch.
  apply (senders_mixed_up ChunkReassembler.new 1 10 11 [1; 2; 3; 4] [7; 8; 0; 9] 11
    (ch 0 [1; 2; 3]) (ch 1 [4]) (ch 0 [7; 8; 0]) (ch 1 [9])); reflexivity.
Defined.

End SyncProperties.
