(* ===== verification/GattProto.v ===== *)
(** * GATT characteristics (src/src/gatt/characteristics.rs) and the
    fragmenting GATT protocol (src/src/gatt/protocol.rs). *)

From stdpp Require Import base numbers list gmap sets.
From S2P Require Import Prelude.
Open Scope Z_scope.
Open Scope peat_scope.

(** ** Characteristic data *)

Module HierarchyLevel.
Inductive t := Platform | Squad | Platoon | Company.
#[global] Instance level_eq_dec : EqDecision t.
Proof. solve_decision. Defined.
Definition to_u8 (self : t) : Z :=
  match self with Platform => 0 | Squad => 1 | Platoon => 2 | Company => 3 end.
Definition from_u8 (v : Z) : t :=
  match v with 0 => Platform | 1 => Squad | 2 => Platoon | 3 => Company | _ => Platform end.
End HierarchyLevel.

Module NodeInfo.
Record t := mk {
  node_id : Z; protocol_version : Z; hierarchy_level : HierarchyLevel.t;
  capabilities : Z; battery_percent : Z
}.
Definition ENCODED_SIZE : Z := 9.
Definition new (node_id : Z) (hierarchy_level : HierarchyLevel.t) (capabilities : Z) : t :=
  mk node_id 1 hierarchy_level capabilities 255.
Definition encode (self : t) : list Z :=
  be32 (node_id self) ++ [protocol_version self] ++ [HierarchyLevel.to_u8 (hierarchy_level self)]
  ++ be16 (capabilities self) ++ [battery_percent self].
Definition decode (data : list Z) : outcome t :=
  reject_if zlen data <? ENCODED_SIZE ;;
  let! node_id := be32_at data 0 in
  let! protocol_version := u8_at data 4 in
  let! level := u8_at data 5 in
  let! capabilities := be16_at data 6 in
  let! battery_percent := u8_at data 8 in
  Ok (mk node_id protocol_version (HierarchyLevel.from_u8 level) capabilities battery_percent).
Definition wf (self : t) : Prop :=
  in_u 32 (node_id self) ∧ byte_ok (protocol_version self) ∧
  in_u 16 (capabilities self) ∧ byte_ok (battery_percent self).
End NodeInfo.

Module SyncState.
Inductive t := Idle | Syncing | Complete | Error.
Definition to_u8 (self : t) : Z :=
  match self with Idle => 0 | Syncing => 1 | Complete => 2 | Error => 3 end.
Definition from_u8 (v : Z) : t :=
  match v with 0 => Idle | 1 => Syncing | 2 => Complete | 3 => Error | _ => Idle end.
End SyncState.

Module SyncStateData.
Record t := mk { state : SyncState.t; progress : Z; pending_docs : Z; last_sync : Z }.
Definition ENCODED_SIZE : Z := 8.
Definition new (state : SyncState.t) : t := mk state 0 0 0.
Definition encode (self : t) : list Z :=
  [SyncState.to_u8 (state self)] ++ [progress self] ++ be16 (pending_docs self)
  ++ be32 (last_sync self).
Definition decode (data : list Z) : outcome t :=
  reject_if zlen data <? ENCODED_SIZE ;;
  let! state := u8_at data 0 in
  let! progress := u8_at data 1 in
  let! pending_docs := be16_at data 2 in
  let! last_sync := be32_at data 4 in
  Ok (mk (SyncState.from_u8 state) progress pending_docs last_sync).
Definition wf (self : t) : Prop :=
  byte_ok (progress self) ∧ in_u 16 (pending_docs self) ∧ in_u 32 (last_sync self).
End SyncStateData.

Module SyncDataOp.
Inductive t := Document | Vector | Ack | End_.
Definition to_u8 (self : t) : Z :=
  match self with Document => 0x01 | Vector => 0x02 | Ack => 0x03 | End_ => 0xFF end.
Definition from_u8 (v : Z) : t :=
  match v with 1 => Document | 2 => Vector | 3 => Ack | 255 => End_ | _ => Document end.
End SyncDataOp.

Module SyncDataHeader.
Record t := mk { op : SyncDataOp.t; seq : Z; total_fragments : Z; fragment_index : Z }.
Definition SIZE : Z := 5.
Definition new (op : SyncDataOp.t) (seq : Z) : t := mk op seq 1 0.
Definition encode (self : t) : list Z :=
  [SyncDataOp.to_u8 (op self)] ++ be16 (seq self)
  ++ [total_fragments self] ++ [fragment_index self].
Definition decode (data : list Z) : outcome t :=
  reject_if zlen data <? SIZE ;;
  let! op := u8_at data 0 in
  let! seq := be16_at data 1 in
  let! total_fragments := u8_at data 3 in
  let! fragment_index := u8_at data 4 in
  Ok (mk (SyncDataOp.from_u8 op) seq total_fragments fragment_index).
End SyncDataHeader.

Module CommandType.
Inductive t := StartSync | StopSync | RefreshInfo | SetHierarchy | Ping | Reset_.
Definition to_u8 (self : t) : Z :=
  match self with
  | StartSync => 0x01 | StopSync => 0x02 | RefreshInfo => 0x03
  | SetHierarchy => 0x10 | Ping => 0xFE | Reset_ => 0xFF
  end.
Definition from_u8 (v : Z) : t :=
  match v with
  | 1 => StartSync | 2 => StopSync | 3 => RefreshInfo | 16 => SetHierarchy
  | 254 => Ping | 255 => Reset_ | _ => Ping
  end.
End CommandType.

Module Command.
Record t := mk { cmd_type : CommandType.t; payload : list Z }.
Definition new (cmd_type : CommandType.t) : t := mk cmd_type [].
Definition with_payload (cmd_type : CommandType.t) (payload : list Z) : t := mk cmd_type payload.
Definition encode (self : t) : list Z := [CommandType.to_u8 (cmd_type self)] ++ payload self.
Definition decode (data : list Z) : outcome t :=
  reject_if zlen data =? 0 ;;
  let! cmd := u8_at data 0 in
  let! payload := slice_from data 1 in
  Ok (mk (CommandType.from_u8 cmd) payload).
End Command.

Module StatusFlags.
Definition CONNECTED : Z := 0x01.
Definition SYNCING : Z := 0x02.
Definition PENDING_DATA : Z := 0x04.
Definition LOW_BATTERY : Z := 0x08.
Definition ERROR : Z := 0x80.
Definition is_connected (self : Z) : bool := has_bit self CONNECTED.
Definition is_syncing (self : Z) : bool := has_bit self SYNCING.
Definition has_pending_data (self : Z) : bool := has_bit self PENDING_DATA.
Definition is_low_battery (self : Z) : bool := has_bit self LOW_BATTERY.
Definition has_error (self : Z) : bool := has_bit self ERROR.
End StatusFlags.

Module StatusData.
Record t := mk { flags : Z; child_count : Z; parent_rssi : Z; uptime_minutes : Z }.
Definition ENCODED_SIZE : Z := 5.
Definition new : t := mk 0 0 127 0.
Definition encode (self : t) : list Z :=
  [flags self] ++ [child_count self] ++ [wrap 8 (parent_rssi self)] ++ be16 (uptime_minutes self).
Definition decode (data : list Z) : outcome t :=
  reject_if zlen data <? ENCODED_SIZE ;;
  let! flags := u8_at data 0 in
  let! child_count := u8_at data 1 in
  let! rssi := u8_at data 2 in
  let! uptime_minutes := be16_at data 3 in
  Ok (mk flags child_count (to_i8 rssi) uptime_minutes).
Definition wf (self : t) : Prop :=
  byte_ok (flags self) ∧ byte_ok (child_count self) ∧ -128 ≤ parent_rssi self < 128 ∧
  in_u 16 (uptime_minutes self).
End StatusData.

(** ** Messages and fragments *)

Definition max_payload_size (mtu : Z) : Z := saturating_sub mtu (3 + SyncDataHeader.SIZE).
Definition DEFAULT_MAX_PAYLOAD : Z := 15.

Module SyncMessageType.
Inductive t := SyncVector | Document | Ack | EndSync | Error.
#[global] Instance message_type_eq_dec : EqDecision t.
Proof. solve_decision. Defined.
End SyncMessageType.

Module SyncMessage.
Record t := mk {
  msg_type : SyncMessageType.t; seq : Z; total_fragments : Z; fragment_index : Z;
  payload : list Z
}.

#[global] Instance sync_message_eq_dec : EqDecision t.
Proof. solve_decision. Defined.

Definition new (msg_type : SyncMessageType.t) (seq : Z) (payload : list Z) : t :=
  mk msg_type seq 1 0 payload.

Definition op_of (ty : SyncMessageType.t) : SyncDataOp.t :=
  match ty with
  | SyncMessageType.SyncVector => SyncDataOp.Vector
  | SyncMessageType.Document => SyncDataOp.Document
  | SyncMessageType.Ack => SyncDataOp.Ack
  | SyncMessageType.EndSync | SyncMessageType.Error => SyncDataOp.End_
  end.
Definition type_of (op : SyncDataOp.t) : SyncMessageType.t :=
  match op with
  | SyncDataOp.Vector => SyncMessageType.SyncVector
  | SyncDataOp.Document => SyncMessageType.Document
  | SyncDataOp.Ack => SyncMessageType.Ack
  | SyncDataOp.End_ => SyncMessageType.EndSync
  end.

Definition encode (self : t) : list Z :=
  SyncDataHeader.encode (SyncDataHeader.mk (op_of (msg_type self)) (seq self)
    (total_fragments self) (fragment_index self)) ++ payload self.

Definition decode (data : list Z) : outcome t :=
  let! header := SyncDataHeader.decode data in
  let! payload :=
    if SyncDataHeader.SIZE <? zlen data then slice_from data SyncDataHeader.SIZE else Ok [] in
  Ok (mk (type_of (SyncDataHeader.op header)) (SyncDataHeader.seq header)
        (SyncDataHeader.total_fragments header) (SyncDataHeader.fragment_index header) payload).

End SyncMessage.

(** [usize::div_ceil] panics on a zero divisor. *)
Definition fragment_payload (msg_type : SyncMessageType.t) (seq : Z) (payload : list Z)
    (max_fragment_size : Z) : outcome (list SyncMessage.t) :=
  if (zlen payload =? 0) || (zlen payload <=? max_fragment_size)
  then Ok [SyncMessage.new msg_type seq payload]
  else if max_fragment_size =? 0 then Panic
  else
    let total_fragments := wrap 8 (Z.min (div_ceil (zlen payload) max_fragment_size) 255) in
    Ok (imap (λ i chunk,
          SyncMessage.mk msg_type seq total_fragments (wrap 8 (Z.of_nat i)) chunk)
        (pieces max_fragment_size payload)).

Module FragmentReassembler.

Record t := mk {
  total_fragments : Z; fragments : list (option (list Z)); seq : Z;
  msg_type : SyncMessageType.t
}.

(** [fragments[i] = Some(payload)]: out of range panics. *)
Definition new (msg : SyncMessage.t) : outcome t :=
  let i := Z.to_nat (SyncMessage.fragment_index msg) in
  let fragments := replicate (Z.to_nat (SyncMessage.total_fragments msg)) None in
  if (i <? length fragments)%nat
  then Ok (mk (SyncMessage.total_fragments msg)
             (<[i := Some (SyncMessage.payload msg)]> fragments)
             (SyncMessage.seq msg) (SyncMessage.msg_type msg))
  else Panic.

Definition is_complete (self : t) : bool :=
  forallb (λ f : option (list Z), if f is Some _ then true else false) (fragments self).

Definition add_fragment (self : t) (msg : SyncMessage.t) : t * bool :=
  if negb (SyncMessage.seq msg =? seq self)
     || negb (SyncMessage.total_fragments msg =? total_fragments self)
  then (self, false)
  else
    let i := Z.to_nat (SyncMessage.fragment_index msg) in
    let self :=
      if (i <? length (fragments self))%nat
      then mk (total_fragments self) (<[i := Some (SyncMessage.payload msg)]> (fragments self))
             (seq self) (msg_type self)
      else self in
    (self, is_complete self).

Definition reassemble (self : t) : outcome (list Z) :=
  reject_if negb (is_complete self) ;;
  Ok (flat_map (λ f : option (list Z), if f is Some data then data else []) (fragments self)).

End FragmentReassembler.

(** ** The protocol state machine *)

Module SyncProtocolState.
Inductive t :=
| Idle | SendingVector | ReceivingDocuments | SendingDocuments | WaitingAck | Complete | Error.
#[global] Instance protocol_state_eq_dec : EqDecision t.
Proof. solve_decision. Defined.
End SyncProtocolState.

Module SyncProtocol.

Record t := mk {
  state : SyncProtocolState.t; seq : Z; outgoing : list SyncMessage.t;
  pending_acks : list Z; reassembler : option FragmentReassembler.t; max_payload : Z
}.

Definition new : t := mk SyncProtocolState.Idle 0 [] [] None DEFAULT_MAX_PAYLOAD.

Definition set_state (self : t) (st : SyncProtocolState.t) : t :=
  mk st (seq self) (outgoing self) (pending_acks self) (reassembler self) (max_payload self).
Definition set_seq (self : t) (n : Z) : t :=
  mk (state self) n (outgoing self) (pending_acks self) (reassembler self) (max_payload self).
Definition set_outgoing (self : t) (q : list SyncMessage.t) : t :=
  mk (state self) (seq self) q (pending_acks self) (reassembler self) (max_payload self).
Definition set_acks (self : t) (a : list Z) : t :=
  mk (state self) (seq self) (outgoing self) a (reassembler self) (max_payload self).
Definition set_reassembler (self : t) (r : option FragmentReassembler.t) : t :=
  mk (state self) (seq self) (outgoing self) (pending_acks self) r (max_payload self).

Definition set_mtu (self : t) (mtu : Z) : t :=
  mk (state self) (seq self) (outgoing self) (pending_acks self) (reassembler self)
    (max_payload_size mtu).

Definition next_seq (self : t) : t * Z := (set_seq self (wrapping_add 16 (seq self) 1), seq self).

Definition start_sync (self : t) (sync_vector : list Z) : outcome t :=
  let self := set_seq (set_state self SyncProtocolState.SendingVector) 0 in
  let '(self, n) := next_seq self in
  let! messages :=
    fragment_payload SyncMessageType.SyncVector n sync_vector (max_payload self) in
  Ok (set_outgoing self (outgoing self ++ messages)).

Definition queue_document (self : t) (doc_data : list Z) : outcome t :=
  let self :=
    if bool_decide (state self = SyncProtocolState.Idle)
    then set_state self SyncProtocolState.SendingDocuments else self in
  let '(self, n) := next_seq self in
  let! messages := fragment_payload SyncMessageType.Document n doc_data (max_payload self) in
  Ok (set_outgoing self (outgoing self ++ messages)).

Definition end_sync (self : t) : t :=
  let '(self, n) := next_seq self in
  let msg := SyncMessage.new SyncMessageType.EndSync n [] in
  set_state (set_outgoing self (outgoing self ++ [msg])) SyncProtocolState.Complete.

Definition next_outgoing (self : t) : t * option SyncMessage.t :=
  match outgoing self with [] => (self, None) | m :: q => (set_outgoing self q, Some m) end.
Definition has_outgoing (self : t) : bool := negb (zlen (outgoing self) =? 0).

(** The branch of [process_incoming] for a fragmented message. *)
Definition process_fragment (self : t) (msg : SyncMessage.t)
    : outcome (t * option (SyncMessageType.t * list Z)) :=
  let restart :=
    let! r := FragmentReassembler.new msg in
    if FragmentReassembler.is_complete r then
      let! payload := opt (FragmentReassembler.reassemble r) in
      Ok (set_reassembler self None,
          match payload with
          | Some payload => Some (FragmentReassembler.msg_type r, payload) | None => None
          end)
    else Ok (set_reassembler self (Some r), None) in
  match reassembler self with
  | Some r =>
      if FragmentReassembler.seq r =? SyncMessage.seq msg then
        let '(r, complete) := FragmentReassembler.add_fragment r msg in
        if complete then
          let! payload := opt (FragmentReassembler.reassemble r) in
          match payload with
          | Some payload =>
              Ok (set_reassembler self None, Some (FragmentReassembler.msg_type r, payload))
          | None => Ok (set_reassembler self (Some r), None)
          end
        else Ok (set_reassembler self (Some r), None)
      else restart
  | None => restart
  end.

(** A message that does not decode is a [None] without effect. *)
Definition process_incoming (self : t) (data : list Z)
    : outcome (t * option (SyncMessageType.t * list Z)) :=
  let! decoded := opt (SyncMessage.decode data) in
  match decoded with
  | None => Ok (self, None)
  | Some msg =>
      if 1 <? SyncMessage.total_fragments msg then process_fragment self msg
      else
        match SyncMessage.msg_type msg with
        | SyncMessageType.Ack =>
            Ok (set_acks self (filter (λ n, n ≠ SyncMessage.seq msg) (pending_acks self)), None)
        | SyncMessageType.SyncVector =>
            Ok (set_state self SyncProtocolState.ReceivingDocuments,
                Some (SyncMessageType.SyncVector, SyncMessage.payload msg))
        | SyncMessageType.Document =>
            let ack := SyncMessage.new SyncMessageType.Ack (SyncMessage.seq msg) [] in
            Ok (set_outgoing self (outgoing self ++ [ack]),
                Some (SyncMessageType.Document, SyncMessage.payload msg))
        | SyncMessageType.EndSync =>
            Ok (set_state self SyncProtocolState.Complete, Some (SyncMessageType.EndSync, []))
        | SyncMessageType.Error =>
            Ok (set_state self SyncProtocolState.Error,
                Some (SyncMessageType.Error, SyncMessage.payload msg))
        end
  end.

Definition reset (self : t) : t :=
  mk SyncProtocolState.Idle 0 [] [] None (max_payload self).

End SyncProtocol.

(** * Theorems *)

Module CharacteristicProofs.

Lemma level_roundtrip l : HierarchyLevel.from_u8 (HierarchyLevel.to_u8 l) = l.
Proof. by destruct l. Qed.
Lemma level_byte l : byte_ok (HierarchyLevel.to_u8 l).
Proof. by destruct l. Qed.
Lemma sync_state_roundtrip s : SyncState.from_u8 (SyncState.to_u8 s) = s.
Proof. by destruct s. Qed.
Lemma sync_state_byte s : byte_ok (SyncState.to_u8 s).
Proof. by destruct s. Qed.
Lemma data_op_roundtrip o : SyncDataOp.from_u8 (SyncDataOp.to_u8 o) = o.
Proof. by destruct o. Qed.
Lemma data_op_byte o : byte_ok (SyncDataOp.to_u8 o).
Proof. by destruct o. Qed.
Lemma command_roundtrip c : CommandType.from_u8 (CommandType.to_u8 c) = c.
Proof. by destruct c. Qed.
Lemma command_byte c : byte_ok (CommandType.to_u8 c).
Proof. by destruct c. Qed.

Lemma node_info_decode_encode i rest :
  NodeInfo.wf i → NodeInfo.decode (NodeInfo.encode i ++ rest) = Ok i.
Proof.
  destruct i as [id v l cap bat]. intros (? & ? & ? & ?). cbn in * |-.
  pose proof (level_byte l). unfold NodeInfo.decode, NodeInfo.encode, NodeInfo.ENCODED_SIZE.
  cbn [NodeInfo.node_id NodeInfo.protocol_version NodeInfo.hierarchy_level
       NodeInfo.capabilities NodeInfo.battery_percent].
  rewrite <-!app_assoc, be32_here by done. cbn [app].
  pose proof (zlen_be32 id). pose proof (zlen_be16 cap). be_rd.
  by rewrite level_roundtrip.
Qed.

Lemma sync_state_data_decode_encode s rest :
  SyncStateData.wf s → SyncStateData.decode (SyncStateData.encode s ++ rest) = Ok s.
Proof.
  destruct s as [st pr pd ls]. intros (? & ? & ?). cbn in * |-.
  pose proof (sync_state_byte st).
  unfold SyncStateData.decode, SyncStateData.encode, SyncStateData.ENCODED_SIZE.
  cbn [SyncStateData.state SyncStateData.progress SyncStateData.pending_docs
       SyncStateData.last_sync]. rewrite <-!app_assoc.
  pose proof (zlen_be32 ls). pose proof (zlen_be16 pd).
  cbn [app]. be_rd. by rewrite sync_state_roundtrip.
Qed.

Lemma status_data_decode_encode s rest :
  StatusData.wf s → StatusData.decode (StatusData.encode s ++ rest) = Ok s.
Proof.
  destruct s as [fl ch rs up]. intros (? & ? & ? & ?). cbn in * |-.
  pose proof (wrap_bound 8 rs ltac:(lia)).
  unfold StatusData.decode, StatusData.encode, StatusData.ENCODED_SIZE.
  cbn [StatusData.flags StatusData.child_count StatusData.parent_rssi
       StatusData.uptime_minutes]. rewrite <-!app_assoc.
  pose proof (zlen_be16 up). cbn [app]. be_rd. by rewrite to_i8_wrap.
Qed.

Lemma data_header_decode_encode o sq n i rest :
  in_u 16 sq → byte_ok n → byte_ok i →
  SyncDataHeader.decode (SyncDataHeader.encode (SyncDataHeader.mk o sq n i) ++ rest)
  = Ok (SyncDataHeader.mk o sq n i).
Proof.
  intros Hs Hn Hi. pose proof (data_op_byte o).
  unfold SyncDataHeader.decode, SyncDataHeader.encode, SyncDataHeader.SIZE.
  cbn [SyncDataHeader.op SyncDataHeader.seq SyncDataHeader.total_fragments
       SyncDataHeader.fragment_index]. rewrite <-!app_assoc.
  pose proof (zlen_be16 sq). cbn [app]. be_rd. by rewrite data_op_roundtrip.
Qed.

Lemma command_decode_encode c : Command.decode (Command.encode c) = Ok c.
Proof.
  destruct c as [ty p]. pose proof (command_byte ty). unfold Command.decode, Command.encode.
  cbn [Command.cmd_type Command.payload app].
  rewrite (proj2 (Z.eqb_neq _ 0)) by len. rd. by rewrite command_roundtrip.
Qed.

End CharacteristicProofs.

Module FragmentProofs.
Import SyncProtocol.

(** Messages whose type survives the wire: [Error] is sent as [End]. *)
Definition msg_wf (m : SyncMessage.t) : Prop :=
  SyncMessage.msg_type m ≠ SyncMessageType.Error ∧ in_u 16 (SyncMessage.seq m) ∧
  byte_ok (SyncMessage.total_fragments m) ∧ byte_ok (SyncMessage.fragment_index m).

Lemma message_decode_encode m : msg_wf m → SyncMessage.decode (SyncMessage.encode m) = Ok m.
Proof.
  destruct m as [ty sq n i p]. intros (Hty & Hs & Hn & Hi). cbn in * |-.
  unfold SyncMessage.decode, SyncMessage.encode.
  cbn [SyncMessage.msg_type SyncMessage.seq SyncMessage.total_fragments
       SyncMessage.fragment_index SyncMessage.payload].
  rewrite CharacteristicProofs.data_header_decode_encode by done. cbn [obind].
  assert (zlen (SyncDataHeader.encode
    (SyncDataHeader.mk (SyncMessage.op_of ty) sq n i)) = SyncDataHeader.SIZE) as Hlen by done.
  cbn [SyncDataHeader.op SyncDataHeader.seq SyncDataHeader.total_fragments
       SyncDataHeader.fragment_index].
  assert (SyncMessage.type_of (SyncMessage.op_of ty) = ty) as -> by (by destruct ty).
  destruct (SyncDataHeader.SIZE <? _) eqn:E.
  - rewrite slice_from_app by (symmetry; exact Hlen). done.
  - destruct p; [done|]. exfalso. rewrite length_app, Nat2Z.inj_add, Hlen in E.
    apply Z.ltb_ge in E. cbn [length] in E. lia.
Qed.

(** The fragments of a payload cut into [pls]. *)
Definition fragments_of (ty : SyncMessageType.t) (sq n : Z) (pls : list (list Z))
    : list SyncMessage.t :=
  imap (λ i p, SyncMessage.mk ty sq n (Z.of_nat i) p) pls.

Lemma elem_of_fragments ty sq n pls m :
  m ∈ fragments_of ty sq n pls ↔
  ∃ i p, pls !! i = Some p ∧ m = SyncMessage.mk ty sq n (Z.of_nat i) p.
Proof.
  unfold fragments_of. rewrite list_elem_of_lookup. setoid_rewrite list_lookup_imap_Some. done.
Qed.

(** The slots of a reassembler that has received the indices [seen]. *)
Definition frag_view (pls : list (list Z)) (seen : list nat) : list (option (list Z)) :=
  imap (λ i p, if bool_decide (i ∈ seen) then Some p else None) pls.

Lemma frag_view_lookup pls seen i :
  frag_view pls seen !! i
  = (λ p, if bool_decide (i ∈ seen) then Some p else None) <$> pls !! i.
Proof. apply list_lookup_imap. Qed.
Lemma frag_view_length pls seen : length (frag_view pls seen) = length pls.
Proof. apply length_imap. Qed.
Lemma frag_view_nil pls : frag_view pls [] = replicate (length pls) None.
Proof.
  apply list_eq. intros i. rewrite frag_view_lookup.
  destruct (pls !! i) as [p|] eqn:E; cbn.
  - symmetry. apply lookup_replicate. split; [done|by apply lookup_lt_Some in E].
  - symmetry. apply lookup_replicate_None. by apply lookup_ge_None.
Qed.
Lemma frag_view_insert pls seen i p :
  pls !! i = Some p → <[i := Some p]> (frag_view pls seen) = frag_view pls (i :: seen).
Proof.
  intros Hp. apply list_eq. intros j. rewrite frag_view_lookup.
  destruct (decide (i = j)) as [->|Hne].
  - rewrite list_lookup_insert_eq by (rewrite frag_view_length; by apply lookup_lt_Some in Hp).
    rewrite Hp. cbn. by rewrite bool_decide_true by set_solver.
  - rewrite list_lookup_insert_ne, frag_view_lookup by done.
    destruct (pls !! j); cbn; [|done]. f_equal.
    by rewrite (bool_decide_ext (j ∈ i :: seen) (j ∈ seen)) by set_solver.
Qed.

Definition all_seen (pls : list (list Z)) (seen : list nat) : Prop :=
  ∀ i, (i < length pls)%nat → i ∈ seen.

Lemma frag_view_complete n pls seen sq ty :
  FragmentReassembler.is_complete (FragmentReassembler.mk n (frag_view pls seen) sq ty) = true
  ↔ all_seen pls seen.
Proof.
  unfold FragmentReassembler.is_complete. cbn. rewrite forallb_forall. split.
  - intros H i Hi. apply lookup_lt_is_Some in Hi as [p Hp].
    assert (frag_view pls seen !! i
            = Some (if bool_decide (i ∈ seen) then Some p else None)) as Hl
      by (by rewrite frag_view_lookup, Hp).
    apply list_elem_of_lookup_2 in Hl. rewrite list_elem_of_In in Hl. apply H in Hl.
    case_bool_decide; done.
  - intros H f Hf%list_elem_of_In. apply list_elem_of_lookup in Hf as [i Hi].
    rewrite frag_view_lookup in Hi. destruct (pls !! i) as [p|] eqn:E; [|done]. cbn in Hi.
    rewrite bool_decide_true in Hi by (apply H; by apply lookup_lt_Some in E).
    by injection Hi as <-.
Qed.

Lemma flat_some (pls : list (list Z)) :
  flat_map (λ f : option (list Z), if f is Some data then data else []) (Some <$> pls)
  = concat pls.
Proof. induction pls as [|p pls IH]; [done|]. cbn. f_equal. apply IH. Qed.

Lemma frag_view_reassemble n pls seen sq ty :
  all_seen pls seen →
  FragmentReassembler.reassemble (FragmentReassembler.mk n (frag_view pls seen) sq ty)
  = Ok (concat pls).
Proof.
  intros Hall. unfold FragmentReassembler.reassemble.
  rewrite (proj2 (frag_view_complete n pls seen sq ty) Hall). cbn. f_equal.
  assert (frag_view pls seen = Some <$> pls) as ->.
  { apply list_eq. intros i. rewrite frag_view_lookup, list_lookup_fmap.
    destruct (pls !! i) eqn:E; cbn; [|done].
    by rewrite bool_decide_true by (apply Hall; by apply lookup_lt_Some in E). }
  apply flat_some.
Qed.

(** What the protocol holds of message [sq] after the indices [seen]. *)
Definition collecting (p : t) (ty : SyncMessageType.t) (sq : Z) (pls : list (list Z))
    (seen : list nat) : Prop :=
  match seen with
  | [] => ∀ r, reassembler p = Some r → FragmentReassembler.seq r ≠ sq
  | _ => reassembler p
         = Some (FragmentReassembler.mk (zlen pls) (frag_view pls seen) sq ty)
  end.

Section fragments.
Context (ty : SyncMessageType.t) (sq : Z) (pls : list (list Z)).
Context (Hty : ty ≠ SyncMessageType.Error) (Hsq : in_u 16 sq) (Hn : 2 ≤ zlen pls < 2 ^ 8).

Lemma fragment_wf i p :
  pls !! i = Some p → msg_wf (SyncMessage.mk ty sq (zlen pls) (Z.of_nat i) p).
Proof. intros Hi%lookup_lt_Some. split_and!; cbn; try done; lia. Qed.

(** Fragment [i] after [seen]: it is stored, and the message is returned
    exactly when nothing is missing any more. *)
Lemma process_fragment_step p seen i pl :
  pls !! i = Some pl → collecting p ty sq pls seen →
  let m := SyncMessage.mk ty sq (zlen pls) (Z.of_nat i) pl in
  (all_seen pls (i :: seen) →
   process_incoming p (SyncMessage.encode m)
   = Ok (set_reassembler p None, Some (ty, concat pls))) ∧
  (¬ all_seen pls (i :: seen) →
   ∃ p', process_incoming p (SyncMessage.encode m) = Ok (p', None) ∧
         p' = set_reassembler p (reassembler p') ∧ collecting p' ty sq pls (i :: seen)).
Proof.
  intros Hi Hcol m. unfold process_incoming.
  rewrite message_decode_encode by (by apply fragment_wf). cbn [opt obind].
  assert ((1 <? SyncMessage.total_fragments m) = true) as -> by (apply Z.ltb_lt; cbn; lia).
  unfold process_fragment.
  set (r' := FragmentReassembler.mk (zlen pls) (frag_view pls (i :: seen)) sq ty).
  assert (FragmentReassembler.is_complete r' = true ↔ all_seen pls (i :: seen)) as Hc
    by apply frag_view_complete.
  assert (seen = [] → FragmentReassembler.new m = Ok r') as Hnew.
  { intros ->. unfold FragmentReassembler.new. cbn [SyncMessage.fragment_index SyncMessage.total_fragments SyncMessage.payload
      SyncMessage.seq SyncMessage.msg_type FragmentReassembler.total_fragments
      FragmentReassembler.fragments FragmentReassembler.seq FragmentReassembler.msg_type m].
    rewrite !Nat2Z.id, length_replicate.
    rewrite (proj2 (Nat.ltb_lt i _)) by (by apply lookup_lt_Some in Hi).
    unfold r'. by rewrite <-(frag_view_insert _ _ _ _ Hi), frag_view_nil. }
  assert (seen = [] →
    (let! r := FragmentReassembler.new m in
     if FragmentReassembler.is_complete r then
       let! payload := opt (FragmentReassembler.reassemble r) in
       Ok (set_reassembler p None,
           match payload with
           | Some payload => Some (FragmentReassembler.msg_type r, payload) | None => None
           end)
     else Ok (set_reassembler p (Some r), None))
    = Ok (set_reassembler p (Some r'), None) ∧ ¬ all_seen pls (i :: seen)) as Hrestart.
  { intros Hs. rewrite Hnew by done. cbn [obind].
    assert (¬ all_seen pls (i :: seen)) as Hna.
    { subst seen. intros Hall. pose proof (Hall 0%nat ltac:(lia)). pose proof (Hall 1%nat ltac:(lia)).
      set_solver. }
    destruct (FragmentReassembler.is_complete r') eqn:E; [by destruct Hna; apply Hc|done]. }
  destruct seen as [|j seen].
  - destruct (Hrestart eq_refl) as [Hr Hna].
    assert (∀ o, match reassembler p with
      | Some r => if FragmentReassembler.seq r =? SyncMessage.seq m then o r else
          Ok (set_reassembler p (Some r'), None)
      | None => Ok (set_reassembler p (Some r'), None)
      end = Ok (set_reassembler p (Some r'), @None (SyncMessageType.t * list Z))) as Ho.
    { intros o. cbn in Hcol. destruct (reassembler p) as [r|]; [|done].
      by rewrite (proj2 (Z.eqb_neq _ _)) by (by apply Hcol). }
    split; [done|]. intros _. eexists. rewrite Hr. split; [apply Ho|]. done.
  - cbn in Hcol. rewrite Hcol. cbn [FragmentReassembler.seq]. rewrite Z.eqb_refl.
    unfold FragmentReassembler.add_fragment. cbn [SyncMessage.fragment_index SyncMessage.total_fragments SyncMessage.payload
      SyncMessage.seq SyncMessage.msg_type FragmentReassembler.total_fragments
      FragmentReassembler.fragments FragmentReassembler.seq FragmentReassembler.msg_type m].
    rewrite !Z.eqb_refl, Nat2Z.id. cbn [negb orb]. rewrite frag_view_length.
    rewrite (proj2 (Nat.ltb_lt i _)) by (by apply lookup_lt_Some in Hi).
    rewrite (frag_view_insert _ _ _ _ Hi). fold r'. cbn match.
    split.
    + intros Hall. rewrite (proj2 Hc Hall). unfold r'. rewrite frag_view_reassemble by done. done.
    + intros Hna. destruct (FragmentReassembler.is_complete r'); [by destruct Hna; apply Hc|].
      by eexists.
Qed.

(** Messages delivered in sequence, with the outputs. *)
Definition deliver (p : t) (ms : list SyncMessage.t)
    : outcome (t * list (option (SyncMessageType.t * list Z))) :=
  foldl (λ acc m,
      let! st := acc in
      let '(p, outs) := st in
      let! r := process_incoming p (SyncMessage.encode m) in
      let '(p', o) := r in
      Ok (p', outs ++ [o])) (Ok (p, [])) ms.

Lemma deliver_snoc p ms m p' outs :
  deliver p ms = Ok (p', outs) →
  deliver p (ms ++ [m]) =
    (let! r := process_incoming p' (SyncMessage.encode m) in
     let '(p'', o) := r in Ok (p'', outs ++ [o])).
Proof. intros H. unfold deliver in *. by rewrite foldl_snoc, H. Qed.

Lemma deliver_prefix p ms miss :
  (∀ r, reassembler p = Some r → FragmentReassembler.seq r ≠ sq) →
  (∀ m, m ∈ ms → m ∈ fragments_of ty sq (zlen pls) pls) →
  miss ∈ fragments_of ty sq (zlen pls) pls → miss ∉ ms →
  ∃ p' seen, deliver p ms = Ok (p', map (λ _, None) ms) ∧
    p' = set_reassembler p (reassembler p') ∧ collecting p' ty sq pls seen ∧
    ∀ i pl, pls !! i = Some pl →
      i ∈ seen ↔ SyncMessage.mk ty sq (zlen pls) (Z.of_nat i) pl ∈ ms.
Proof.
  intros Hp Hms Hmiss. induction ms as [|m ms IH] using rev_ind; intros Hnot.
  { exists p, []. split_and!; [done|by destruct p|done|]. intros i pl _.
    by rewrite !elem_of_nil. }
  destruct IH as (p1 & seen & Hd & Hp1 & Hcol & Hseen);
    [intros; apply Hms; set_solver|set_solver|].
  pose proof (Hms m ltac:(set_solver)) as (i & pl & Hi & ->)%elem_of_fragments.
  apply elem_of_fragments in Hmiss as (k & pk & Hk & Hmk).
  destruct (process_fragment_step p1 seen i pl Hi Hcol) as [_ Hstep].
  destruct Hstep as (p2 & Hproc & Hp2 & Hcol2).
  { intros Hall. specialize (Hall k ltac:(by apply lookup_lt_Some in Hk)).
    apply Hnot. rewrite Hmk. apply elem_of_cons in Hall as [->|Hin].
    - assert (pk = pl) as -> by congruence. set_solver.
    - apply (Hseen k pk Hk) in Hin. set_solver. }
  exists p2, (i :: seen). rewrite (deliver_snoc _ _ _ _ _ Hd), Hproc. cbn [obind].
  split_and!; [by rewrite map_app|by rewrite Hp2, Hp1|done|].
  intros j pj Hj. rewrite elem_of_cons, (Hseen j pj Hj), elem_of_app, list_elem_of_singleton.
  split; [intros [->|?]; [right; congruence|by left]|].
  intros [?|[= ? ->]]; [by right|left; lia].
Qed.

(** All the fragments, the last missing one last. *)
Lemma deliver_all p ms m :
  (∀ r, reassembler p = Some r → FragmentReassembler.seq r ≠ sq) →
  (∀ x, x ∈ ms → x ∈ fragments_of ty sq (zlen pls) pls) →
  m ∈ fragments_of ty sq (zlen pls) pls → m ∉ ms →
  (∀ x, x ∈ fragments_of ty sq (zlen pls) pls → x ∈ ms ++ [m]) →
  deliver p (ms ++ [m])
  = Ok (set_reassembler p None, map (λ _, None) ms ++ [Some (ty, concat pls)]).
Proof.
  intros Hp Hms Hm Hnot Hall.
  destruct (deliver_prefix p ms m Hp Hms Hm Hnot) as (p1 & seen & Hd & Hp1 & Hcol & Hseen).
  apply elem_of_fragments in Hm as (i & pl & Hi & ->).
  destruct (process_fragment_step p1 seen i pl Hi Hcol) as [Hstep _].
  rewrite (deliver_snoc _ _ _ _ _ Hd), Hstep.
  - cbn [obind]. by rewrite Hp1.
  - intros j Hj. apply lookup_lt_is_Some in Hj as [pj Hj].
    assert (SyncMessage.mk ty sq (zlen pls) (Z.of_nat j) pj ∈ fragments_of ty sq (zlen pls) pls)
      as Hin by (apply elem_of_fragments; eauto).
    apply Hall, elem_of_app in Hin as [Hin|[= Hji ->]%list_elem_of_singleton].
    + apply elem_of_cons. right. by apply (Hseen j pj Hj).
    + apply elem_of_cons. left. lia.
Qed.
End fragments.

Lemma fragment_payload_spec ty sq payload mx :
  0 < mx → mx < zlen payload →
  fragment_payload ty sq payload mx
  = Ok (imap (λ i chunk, SyncMessage.mk ty sq (Z.min (zlen (pieces mx payload)) 255)
                           (wrap 8 (Z.of_nat i)) chunk) (pieces mx payload)) ∧
  2 ≤ zlen (pieces mx payload).
Proof.
  intros Hmx Hlt. pose proof (pieces_length mx payload Hmx) as Hlen. split.
  - unfold fragment_payload.
    rewrite (proj2 (Z.eqb_neq (zlen payload) 0)), (proj2 (Z.leb_gt (zlen payload) mx)),
      (proj2 (Z.eqb_neq mx 0)) by lia. cbn [orb].
    rewrite wrap_small by lia. by rewrite Hlen.
  - rewrite Hlen. destruct (decide (2 ≤ div_ceil (zlen payload) mx)) as [|Hn]; [done|].
    assert (div_ceil (zlen payload) mx ≤ 1) as H1%div_ceil_bound by lia; lia.
Qed.

End FragmentProofs.

Module GattProperties.
Import SyncProtocol FragmentProofs.

(** C23: GATT fragmentation.  A sync vector or document of 2 to 255 fragments,
    its fragments sent through the GATT encoding in any order and with
    repetitions, to a receiver that holds no unfinished payload of the same
    number, is returned when the last missing fragment arrives, with its type
    and its bytes; nothing is returned before, and nothing of it is kept. *)
Theorem fragments_reassembled (p : t) ty sq payload mx ms m :
  ty ≠ SyncMessageType.Error → in_u 16 sq → 0 < mx → mx < zlen payload ≤ mx * 255 →
  (∀ r, reassembler p = Some r → FragmentReassembler.seq r ≠ sq) →
  ∃ frags, fragment_payload ty sq payload mx = Ok frags ∧
    ((∀ x, x ∈ ms → x ∈ frags) → m ∈ frags → m ∉ ms → (∀ x, x ∈ frags → x ∈ ms ++ [m]) →
     deliver p (ms ++ [m])
     = Ok (set_reassembler p None, map (λ _, None) ms ++ [Some (ty, payload)])).
Proof.
  intros Hty Hsq Hmx Hlen Hp.
  destruct (fragment_payload_spec ty sq payload mx Hmx ltac:(lia)) as [-> H2].
  eexists. split; [done|].
  assert (zlen (pieces mx payload) ≤ 255) as H255
    by (rewrite pieces_length by done; apply div_ceil_bound; lia).
  rewrite Z.min_l by done.
  assert (imap (λ i chunk, SyncMessage.mk ty sq (zlen (pieces mx payload))
      (wrap 8 (Z.of_nat i)) chunk) (pieces mx payload)
    = fragments_of ty sq (zlen (pieces mx payload)) (pieces mx payload)) as ->.
  { apply imap_ext. intros i x Hi%lookup_lt_Some. by rewrite wrap_small by lia. }
  intros. rewrite (deliver_all ty sq (pieces mx payload)) by (done || lia).
  by rewrite pieces_concat.
Qed.

(** Nothing remembers a payload that was returned: when all of its fragments
    come again, it is returned again.  And numbers start again with a session: a
    fragment left over from an unfinished payload is taken for one of the next
    payload with its number. *)
Example repeated_and_stale_fragments :
  let fr i p := SyncMessage.mk SyncMessageType.Document 7 2 i p in
  (deliver new [fr 0 [1; 2]; fr 1 [3]; fr 0 [1; 2]; fr 1 [3]]
   = Ok (new, [None; Some (SyncMessageType.Document, [1; 2; 3]);
               None; Some (SyncMessageType.Document, [1; 2; 3])]))
  ∧ match deliver new [fr 0 [9; 9]; fr 1 [3]; fr 0 [1; 2]] with
    | Ok (_, outs) => outs = [None; Some (SyncMessageType.Document, [9; 9; 3]); None]
    | _ => False
    end.
Proof. vm_compute. done. Qed.

(** A document of three fragments, arriving 2, 0, 2, 1. *)
Lemma fragments_reassembled_witness :
  let payload := [1; 2; 3; 4; 5] in
  let fr i p := SyncMessage.mk SyncMessageType.Document 7 3 i p in
  deliver new ([fr 2 [5]; fr 0 [1; 2]; fr 2 [5]] ++ [fr 1 [3; 4]])
  = Ok (set_reassembler new None,
        [None; None; None] ++ [Some (SyncMessageType.Document, payload)]).
Proof.
  intros payload fr.
  destruct (fragments_reassembled new SyncMessageType.Document 7 payload 2
    [fr 2 [5]; fr 0 [1; 2]; fr 2 [5]] (fr 1 [3; 4])) as (frags & Hf & H).
  - discriminate.
  - lia.
  - lia.
  - cbn. lia.
  - discriminate.
  - vm_compute in Hf. injection Hf as <-. apply H.
    + apply Forall_forall. by_decide.
    + by_decide.
    + by_decide.
    + apply Forall_forall. by_decide.
Defined.

(** More than 255 fragments.  The fragment count is capped at 255 while
    the data is not: the receiver first returns a truncated payload as if it
    were complete, and the next fragment, whose index lies outside the
    reassembler it starts, panics it. *)
Theorem oversize_payload_panics_receiver (p : t) ty sq payload mx :
  ty ≠ SyncMessageType.Error → in_u 16 sq → 0 < mx → mx * 255 < zlen payload →
  (∀ r, reassembler p = Some r → FragmentReassembler.seq r ≠ sq) →
  ∃ frags p' front rest m,
    fragment_payload ty sq payload mx = Ok frags ∧
    payload = front ++ rest ∧ rest ≠ [] ∧
    deliver p (take 255 frags) = Ok (p', replicate 254 None ++ [Some (ty, front)]) ∧
    frags !! 255%nat = Some m ∧
    process_incoming p' (SyncMessage.encode m) = Panic.
Proof.
  intros Hty Hsq Hmx Hlen Hp.
  destruct (fragment_payload_spec ty sq payload mx Hmx ltac:(lia)) as [-> H2].
  set (pls := pieces mx payload) in *.
  assert (255 < zlen pls) as Hbig.
  { unfold pls. rewrite pieces_length by done.
    destruct (decide (div_ceil (zlen payload) mx ≤ 255)) as [H%div_ceil_bound|]; lia. }
  rewrite Z.min_r by lia.
  destruct (lookup_lt_is_Some_2 pls 255) as [pl Hpl]; [lia|].
  destruct (lookup_lt_is_Some_2 pls 254) as [pl' Hpl']; [lia|].
  set (frags := imap _ pls).
  assert (zlen (take 255 pls) = 255) as H255 by (rewrite length_take; lia).
  assert (fragments_of ty sq 255 (take 255 pls) = take 255 frags) as Hfr.
  { apply list_eq. intros i. unfold fragments_of, frags. rewrite list_lookup_imap.
    destruct (decide (i < 255)%nat).
    - rewrite !lookup_take_lt, list_lookup_imap by done.
      destruct (pls !! i); cbn; [|done]. by rewrite wrap_small by lia.
    - by rewrite !lookup_take_ge by lia. }
  set (last := SyncMessage.mk ty sq 255 254 pl').
  assert (take 255 frags = take 254 frags ++ [last]) as Hsplit.
  { rewrite (take_S_r _ 254 last); [done|]. unfold frags. by rewrite list_lookup_imap, Hpl'. }
  exists frags, (set_reassembler p None), (concat (take 255 pls)), (concat (drop 255 pls)),
    (SyncMessage.mk ty sq 255 255 pl).
  assert (∀ x, x ∈ take 254 frags ++ [last] ↔ x ∈ fragments_of ty sq (zlen (take 255 pls)) (take 255 pls))
    as Hiff by (intros x; by rewrite H255, Hfr, Hsplit).
  split_and!.
  - done.
  - rewrite <-concat_app, take_drop. unfold pls. by rewrite pieces_concat.
  - rewrite (drop_S _ _ _ Hpl). cbn. intros [Hnil _]%app_eq_nil.
    apply list_elem_of_lookup_2, pieces_bounds in Hpl; [|done]. subst pl. cbn in Hpl. lia.
  - rewrite Hsplit. rewrite (deliver_all ty sq (take 255 pls) Hty Hsq ltac:(lia)).
    + rewrite map_const, length_take. unfold frags. rewrite length_imap.
      by replace (254 `min` length pls)%nat with 254%nat by lia.
    + done.
    + intros x Hx. apply Hiff. set_solver.
    + apply Hiff. set_solver.
    + intros Hin. apply list_elem_of_lookup in Hin as [i Hi].
      apply lookup_take_Some in Hi as [Hi Hlt].
      unfold frags in Hi. apply list_lookup_imap_Some in Hi as (q & _ & Hq).
      injection Hq as Hq _. rewrite wrap_small in Hq by lia. lia.
    + intros x. by rewrite Hiff.
  - unfold frags. by rewrite list_lookup_imap, Hpl.
  - unfold process_incoming. rewrite message_decode_encode by (split_and!; cbn; done || lia).
    cbn. unfold process_fragment. cbn. done.
Qed.

(** 256 bytes in fragments of one byte. *)
Lemma oversize_payload_panics_receiver_witness :
  ∃ frags p' front rest m,
    fragment_payload SyncMessageType.Document 0 (replicate 256 9) 1 = Ok frags ∧
    replicate 256 9 = front ++ rest ∧ rest ≠ [] ∧
    deliver new (take 255 frags)
    = Ok (p', replicate 254 None ++ [Some (SyncMessageType.Document, front)]) ∧
    frags !! 255%nat = Some m ∧
    process_incoming p' (SyncMessage.encode m) = Panic.
Proof.
  apply (oversize_payload_panics_receiver new SyncMessageType.Document 0 (replicate 256 9) 1).
  - discriminate.
  - lia.
  - lia.
  - rewrite length_replicate. lia.
  - discriminate.
Defined.

(** Fragmented messages skip the state machine.  A document in one piece
    is acknowledged and a sync vector in one piece moves the receiver to
    [ReceivingDocuments]; in two or more fragments neither happens: whatever
    arrives, no fragment changes the state or queues an acknowledgement. *)
Theorem fragmented_messages_unacked (p p' : t) (m : SyncMessage.t) out :
  msg_wf m →
  (SyncMessage.total_fragments m ≤ 1 → SyncMessage.msg_type m = SyncMessageType.Document →
   process_incoming p (SyncMessage.encode m)
   = Ok (set_outgoing p (outgoing p ++ [SyncMessage.new SyncMessageType.Ack (SyncMessage.seq m) []]),
         Some (SyncMessageType.Document, SyncMessage.payload m))) ∧
  (SyncMessage.total_fragments m ≤ 1 → SyncMessage.msg_type m = SyncMessageType.SyncVector →
   process_incoming p (SyncMessage.encode m)
   = Ok (set_state p SyncProtocolState.ReceivingDocuments,
         Some (SyncMessageType.SyncVector, SyncMessage.payload m))) ∧
  (1 < SyncMessage.total_fragments m →
   process_incoming p (SyncMessage.encode m) = Ok (p', out) →
   state p' = state p ∧ outgoing p' = outgoing p).
Proof.
  intros Hwf. unfold process_incoming. rewrite message_decode_encode by done. cbn [opt obind].
  split_and!.
  - intros Hn ->. by rewrite (proj2 (Z.ltb_ge 1 _)).
  - intros Hn ->. by rewrite (proj2 (Z.ltb_ge 1 _)).
  - intros Hn. rewrite (proj2 (Z.ltb_lt 1 _)) by done. unfold process_fragment, FragmentReassembler.reassemble.
    destruct (FragmentReassembler.new m) as [r0| |]; cbn [obind];
      [destruct (FragmentReassembler.is_complete r0)|..];
      (destruct (reassembler p) as [r|];
        [destruct (_ =? _);
          [destruct (FragmentReassembler.add_fragment r m) as [r1 []];
            [destruct (FragmentReassembler.is_complete r1)|]|]|]);
      cbn; intros [= <- _]; done.
Qed.

Lemma fragmented_messages_unacked_witness :
  let m := SyncMessage.mk SyncMessageType.Document 7 2 0 [1; 2] in
  let r := FragmentReassembler.mk 2 [Some [1; 2]; None] 7 SyncMessageType.Document in
  process_incoming new (SyncMessage.encode m) = Ok (set_reassembler new (Some r), None) ∧
  state (set_reassembler new (Some r)) = state new ∧
  outgoing (set_reassembler new (Some r)) = outgoing new.
Proof.
  intros m r. split; [vm_compute; reflexivity|].
  destruct (fragmented_messages_unacked new (set_reassembler new (Some r)) m None)
    as (_ & _ & H).
  - repeat split; discriminate || lia.
  - apply H; [reflexivity|vm_compute; reflexivity].
Defined.

(** Characteristic encodings.  Node information, sync state, status
    (signed RSSI included) and commands are read back from their big-endian
    encodings. *)
Theorem characteristics_roundtrip (i : NodeInfo.t) (s : SyncStateData.t) (st : StatusData.t)
    (c : Command.t) (rest : list Z) :
  NodeInfo.wf i → SyncStateData.wf s → StatusData.wf st →
  NodeInfo.decode (NodeInfo.encode i ++ rest) = Ok i ∧
  SyncStateData.decode (SyncStateData.encode s ++ rest) = Ok s ∧
  StatusData.decode (StatusData.encode st ++ rest) = Ok st ∧
  Command.decode (Command.encode c) = Ok c.
Proof.
  intros. split_and!.
  - by apply CharacteristicProofs.node_info_decode_encode.
  - by apply CharacteristicProofs.sync_state_data_decode_encode.
  - by apply CharacteristicProofs.status_data_decode_encode.
  - apply CharacteristicProofs.command_decode_encode.
Qed.

Lemma characteristics_roundtrip_witness :
  let i := NodeInfo.new 0x12345678 HierarchyLevel.Squad 0x0102 in
  let s := SyncStateData.mk SyncState.Syncing 50 300 0xDEADBEEF in
  let st := StatusData.mk 0x81 3 (-70) 1000 in
  let c := Command.with_payload CommandType.SetHierarchy [2] in
  NodeInfo.decode (NodeInfo.encode i ++ []) = Ok i ∧
  SyncStateData.decode (SyncStateData.encode s ++ []) = Ok s ∧
  StatusData.decode (StatusData.encode st ++ []) = Ok st ∧
  Command.decode (Command.encode c) = Ok c.
Proof.
  intros i s st c.
  apply (characteristics_roundtrip i s st c []); repeat split; vm_compute; discriminate || reflexivity.
Defined.

End GattProperties.
