(* ===== verification/Chat.v ===== *)
(** * The chat CRDT of src/src/sync/crdt.rs (feature [legacy-chat]):
    [ChatMessage] and the bounded add-only set [ChatCRDT]. *)

From stdpp Require Import base numbers list gmap sets sorting.
From S2P Require Import Prelude Crdt.
Open Scope Z_scope.
Open Scope peat_scope.

Definition CHAT_MAX_TEXT_LEN : Z := 128.
Definition CHAT_MAX_SENDER_LEN : Z := 12.
Definition CHAT_MAX_MESSAGES : Z := 32.
Definition CHAT_SYNC_LIMIT : Z := 8.

Module ChatMessage.

Record t := mk {
  origin_node : Z; timestamp : Z;
  sender : list Z; sender_len : Z;
  text : list Z; text_len : Z;
  is_broadcast : bool; requires_ack : bool;
  reply_to_node : Z; reply_to_timestamp : Z
}.

#[global] Instance chat_message_eq_dec : EqDecision t.
Proof. solve_decision. Defined.

Definition default_message : t :=
  mk 0 0 (replicate 12 0) 0 (replicate 128 0) 0 true false 0 0.

(** [buf[..len].copy_from_slice(&bytes[..len])]. *)
Definition copy_prefix (buf bytes : list Z) (len : Z) : list Z := ztake len bytes ++ zdrop len buf.

Definition set_sender (self : t) (s : list Z) : t :=
  let len := Z.min (zlen s) CHAT_MAX_SENDER_LEN in
  mk (origin_node self) (timestamp self) (copy_prefix (sender self) s len) (wrap 8 len)
    (text self) (text_len self) (is_broadcast self) (requires_ack self)
    (reply_to_node self) (reply_to_timestamp self).
Definition set_text (self : t) (s : list Z) : t :=
  let len := Z.min (zlen s) CHAT_MAX_TEXT_LEN in
  mk (origin_node self) (timestamp self) (sender self) (sender_len self)
    (copy_prefix (text self) s len) (wrap 8 len) (is_broadcast self) (requires_ack self)
    (reply_to_node self) (reply_to_timestamp self).
Definition set_reply_to (self : t) (node timestamp_ : Z) : t :=
  mk (origin_node self) (timestamp self) (sender self) (sender_len self)
    (text self) (text_len self) (is_broadcast self) (requires_ack self) node timestamp_.
Definition set_broadcast (self : t) (b : bool) : t :=
  mk (origin_node self) (timestamp self) (sender self) (sender_len self)
    (text self) (text_len self) b (requires_ack self)
    (reply_to_node self) (reply_to_timestamp self).

Definition new (origin timestamp_ : Z) (sender_ text_ : list Z) : t :=
  let d := default_message in
  set_text (set_sender (mk origin timestamp_ (sender d) (sender_len d) (text d) (text_len d)
    (is_broadcast d) (requires_ack d) (reply_to_node d) (reply_to_timestamp d)) sender_) text_.

Definition sender_str (self : t) : list Z :=
  let s := ztake (sender_len self) (sender self) in if utf8_valid s then s else [].
Definition text_str (self : t) : list Z :=
  let s := ztake (text_len self) (text self) in if utf8_valid s then s else [].
Definition is_reply (self : t) : bool :=
  negb (reply_to_node self =? 0) || negb (reply_to_timestamp self =? 0).

Definition make_id (origin timestamp_ : Z) : Z :=
  Z.lor (Z.shiftl origin 32) (Z.land timestamp_ 0xFFFFFFFF).
Definition message_id (self : t) : Z := make_id (origin_node self) (timestamp self).

Definition flags (self : t) : Z :=
  let flags := 0 in
  let flags := if is_broadcast self then Z.lor flags 1 else flags in
  if requires_ack self then Z.lor flags 2 else flags.

Definition encode (self : t) : list Z :=
  le 4 (origin_node self) ++ le 8 (timestamp self)
  ++ [sender_len self] ++ ztake (sender_len self) (sender self)
  ++ [text_len self] ++ ztake (text_len self) (text self)
  ++ [flags self]
  ++ le 4 (reply_to_node self) ++ le 8 (reply_to_timestamp self).

Definition decode (data : list Z) : outcome (t * Z) :=
  reject_if zlen data <? 14 ;;
  let! origin := u32_at data 0 in
  let! timestamp := u64_at data 4 in
  reject_if origin =? 0 ;;
  reject_if timestamp <? MIN_VALID_TIMESTAMP ;;
  let! sender_len := u8_at data 12 in
  reject_if (CHAT_MAX_SENDER_LEN <? sender_len) || (zlen data <? 13 + sender_len + 1) ;;
  reject_if sender_len =? 0 ;;
  let! sbytes := slice data 13 (13 + sender_len) in
  let sender := copy_prefix (replicate 12 0) sbytes sender_len in
  reject_if negb (utf8_valid (ztake sender_len sender)) ;;
  let text_offset := 13 + sender_len in
  let! text_len := u8_at data text_offset in
  reject_if (CHAT_MAX_TEXT_LEN <? text_len) || (zlen data <? text_offset + 1 + text_len + 1) ;;
  let! tbytes := slice data (text_offset + 1) (text_offset + 1 + text_len) in
  let text := copy_prefix (replicate 128 0) tbytes text_len in
  reject_if (0 <? text_len) && negb (utf8_valid (ztake text_len text)) ;;
  let flags_offset := text_offset + 1 + text_len in
  let! flags := u8_at data flags_offset in
  let is_broadcast := has_bit flags 1 in
  let requires_ack := has_bit flags 2 in
  let! reply :=
    if flags_offset + 1 + 12 <=? zlen data then
      let! node := u32_at data (flags_offset + 1) in
      let! ts := u64_at data (flags_offset + 5) in
      Ok (node, ts, flags_offset + 13)
    else Ok (0, 0, flags_offset + 1) in
  let '(reply_to_node, reply_to_timestamp, total_len) := reply in
  Ok (mk origin timestamp sender sender_len text text_len is_broadcast requires_ack
        reply_to_node reply_to_timestamp, total_len).

(** Buffers keep the bytes that count first and zeros after them. *)
Definition buffer_ok (size : Z) (buf : list Z) (len : Z) : Prop :=
  zlen buf = size ∧ 0 ≤ len ≤ size ∧ bytes_ok buf ∧
  utf8_valid (ztake len buf) = true ∧ zdrop len buf = replicate (Z.to_nat (size - len)) 0.
Definition wf (self : t) : Prop :=
  in_u 32 (origin_node self) ∧ origin_node self ≠ 0 ∧
  in_u 64 (timestamp self) ∧ MIN_VALID_TIMESTAMP ≤ timestamp self ∧
  buffer_ok CHAT_MAX_SENDER_LEN (sender self) (sender_len self) ∧ sender_len self ≠ 0 ∧
  buffer_ok CHAT_MAX_TEXT_LEN (text self) (text_len self) ∧
  in_u 32 (reply_to_node self) ∧ in_u 64 (reply_to_timestamp self).

#[global] Instance chat_message_wf_dec m : Decision (wf m).
Proof. unfold wf, buffer_ok. apply _. Defined.

End ChatMessage.

Module ChatCRDT.

Record t := mk { messages : gmap Z ChatMessage.t }.

Definition new : t := mk ∅.

(** [while len > CHAT_MAX_MESSAGES { remove the first key }]; each round
    removes one entry, so the size is fuel enough. *)
Fixpoint prune_fuel (fuel : nat) (m : gmap Z ChatMessage.t) : gmap Z ChatMessage.t :=
  match fuel with
  | O => m
  | S fuel =>
      if CHAT_MAX_MESSAGES <? Z.of_nat (size m) then
        prune_fuel fuel
          match bt_iter m with (oldest_id, _) :: _ => delete oldest_id m | [] => m end
      else m
  end.
Definition prune_if_needed (m : gmap Z ChatMessage.t) : gmap Z ChatMessage.t :=
  prune_fuel (size m) m.

Definition add_message (self : t) (message : ChatMessage.t) : t * bool :=
  let id := ChatMessage.message_id message in
  if bool_decide (is_Some (messages self !! id)) then (self, false)
  else (mk (prune_if_needed (<[id := message]> (messages self))), true).

Definition send_message (self : t) (origin timestamp : Z) (sender text : list Z) : t * bool :=
  add_message self (ChatMessage.new origin timestamp sender text).

Definition get_message (self : t) (origin timestamp : Z) : option ChatMessage.t :=
  messages self !! ChatMessage.make_id origin timestamp.
Definition all_messages (self : t) : list ChatMessage.t := (bt_iter (messages self)).*2.
Definition messages_since (self : t) (since_timestamp : Z) : list ChatMessage.t :=
  filter (λ m, since_timestamp < ChatMessage.timestamp m) (all_messages self).
Definition len (self : t) : Z := Z.of_nat (size (messages self)).
Definition is_empty (self : t) : bool := Nat.eqb (size (messages self)) 0.
Definition newest_timestamp (self : t) : option Z :=
  match map ChatMessage.timestamp (all_messages self) with
  | [] => None
  | ts :: rest => Some (foldl Z.max ts rest)
  end.

Definition merge (self other : t) : t * bool :=
  let '(m, changed) :=
    foldl (λ '(m, changed) '(id, msg),
        if bool_decide (is_Some ((m : gmap Z ChatMessage.t) !! id)) then (m, changed)
        else (<[id := msg]> m, true))
      (messages self, false) (bt_iter (messages other)) in
  (mk (if changed : bool then prune_if_needed m else m), changed).

Definition encode (self : t) : list Z :=
  le 2 (wrap 16 (Z.of_nat (size (messages self))))
  ++ flat_map ChatMessage.encode (all_messages self).

(** The loop stops at the end of the data or at the first bad message. *)
Fixpoint decode_messages (n : nat) (data : list Z) (offset : Z)
    (messages : gmap Z ChatMessage.t) : outcome (gmap Z ChatMessage.t) :=
  match n with
  | O => Ok messages
  | S n =>
      if zlen data <=? offset then Ok messages
      else
        let! rest := slice_from data offset in
        let! r := opt (ChatMessage.decode rest) in
        match r with
        | Some (msg, len) =>
            decode_messages n data (offset + len) (<[ChatMessage.message_id msg := msg]> messages)
        | None => Ok messages
        end
  end.
Definition decode (data : list Z) : outcome t :=
  reject_if zlen data <? 2 ;;
  let! num_messages := u16_at data 0 in
  let! messages := decode_messages (Z.to_nat num_messages) data 2 ∅ in
  Ok (mk messages).

Definition encoded_size (self : t) : Z :=
  2 + zsum (map (λ m, zlen (ChatMessage.encode m)) (all_messages self)).

Definition for_sync (self : t) : t :=
  if Z.of_nat (size (messages self)) <=? CHAT_SYNC_LIMIT then self
  else mk (list_to_map (take 8 (reverse (bt_iter (messages self))))).

(** Messages filed under their own identifier. *)
Definition wf (self : t) : Prop :=
  map_Forall (λ id m, ChatMessage.wf m ∧ id = ChatMessage.message_id m) (messages self) ∧
  Z.of_nat (size (messages self)) < 2 ^ 16.

#[global] Instance chat_wf_dec c : Decision (wf c).
Proof. unfold wf. apply _. Defined.

End ChatCRDT.

(** * Theorems *)

Module ChatMessageProofs.
Import ChatMessage.

Lemma chat_flags_byte m : byte_ok (flags m).
Proof. unfold flags. by destruct (is_broadcast m), (requires_ack m). Qed.
Lemma chat_flags_bits m :
  has_bit (flags m) 1 = is_broadcast m ∧ has_bit (flags m) 2 = requires_ack m.
Proof. unfold flags. by destruct (is_broadcast m), (requires_ack m). Qed.

Lemma buffer_rebuild size buf len :
  buffer_ok size buf len →
  copy_prefix (replicate (Z.to_nat size) 0) (ztake len buf) len = buf ∧
  zlen (ztake len buf) = len.
Proof.
  intros (Hs & Hl & _ & _ & Hz). unfold copy_prefix.
  assert (zlen (ztake len buf) = len) as Hlen by len. split; [|done].
  rewrite ztake_all by lia. unfold zdrop at 1.
  rewrite drop_replicate. replace (Z.to_nat size - Z.to_nat len)%nat with (Z.to_nat (size - len)) by lia.
  rewrite <-Hz. apply take_drop.
Qed.

Lemma copy_prefix_ok size s len :
  bytes_ok s → zlen s = len → len ≤ size →
  utf8_valid (ztake len (copy_prefix (replicate (Z.to_nat size) 0) s len)) = true →
  buffer_ok size (copy_prefix (replicate (Z.to_nat size) 0) s len) len.
Proof.
  intros Hb Hs Hle Hu. unfold buffer_ok. split; [|split_and!; [lia|lia| |done|]].
  - unfold copy_prefix. len.
  - unfold copy_prefix. apply bytes_app; [auto with bytes|]. apply Forall_drop.
    apply Forall_replicate. lia.
  - unfold copy_prefix. rewrite ztake_all by lia. rewrite zdrop_app_ge by lia.
    rewrite Hs, Z.sub_diag, zdrop_0. unfold zdrop. rewrite drop_replicate. f_equal. lia.
Qed.

Lemma chat_encode_bytes m : wf m → bytes_ok (encode m).
Proof.
  intros (_ & _ & _ & _ & (? & ? & ? & _) & _ & (? & ? & ? & _) & _).
  pose proof (chat_flags_byte m). unfold encode, CHAT_MAX_SENDER_LEN, CHAT_MAX_TEXT_LEN in *.
  repeat first [apply bytes_app | apply le_bytes; lia | apply bytes_ztake; assumption
               | apply bytes_cons; [lia|apply bytes_nil]].
Qed.
Lemma chat_encode_length m :
  wf m → zlen (encode m) = 27 + sender_len m + text_len m.
Proof.
  intros (_ & _ & _ & _ & (? & ? & _) & _ & (? & ? & _) & _).
  unfold encode, CHAT_MAX_SENDER_LEN, CHAT_MAX_TEXT_LEN in *. len.
Qed.

Lemma chat_message_decode_encode m rest :
  wf m → decode (encode m ++ rest) = Ok (m, zlen (encode m)).
Proof.
  intros Hwf. pose proof (chat_encode_length m Hwf) as Hlen. rewrite Hlen. clear Hlen.
  destruct m as [o ts s sl t tl b a rn rt]. pose proof (chat_flags_byte (mk o ts s sl t tl b a rn rt)).
  pose proof (chat_flags_bits (mk o ts s sl t tl b a rn rt)) as [Hb1 Hb2].
  destruct Hwf as (Ho & Ho0 & Hts & Hmin & Hs & Hsl & Ht & Hrn & Hrt). cbn in * |-.
  pose proof (buffer_rebuild _ _ _ Hs) as [Hs1 Hs2]. pose proof (buffer_rebuild _ _ _ Ht) as [Ht1 Ht2].
  destruct Hs as (Hsz & Hsr & _ & Hsu & _), Ht as (Htz & Htr & _ & Htu & _).
  unfold decode, encode, CHAT_MAX_SENDER_LEN, CHAT_MAX_TEXT_LEN, MIN_VALID_TIMESTAMP in *.
  cbn [origin_node timestamp sender sender_len text text_len reply_to_node reply_to_timestamp].
  rewrite <-!app_assoc. cbn [app]. rd.
  replace ((12 <? sl) || _) with false
    by (symmetry; apply orb_false_iff; split; [apply Z.ltb_ge; lia|bdec]).
  change (replicate 12 0) with (replicate (Z.to_nat 12) 0). rewrite Hs1, Hsu. cbn [negb].
  replace ((128 <? tl) || _) with false
    by (symmetry; apply orb_false_iff; split; [apply Z.ltb_ge; lia|bdec]).
  change (replicate 128 0) with (replicate (Z.to_nat 128) 0). rewrite Ht1, Htu.
  rewrite andb_false_r. rd.
  replace (_ <=? _) with true by (symmetry; apply Z.leb_le; len).
  rd. rewrite Hb1, Hb2. do 2 f_equal. lia.
Qed.

Lemma optional_utf8 len buf :
  0 ≤ len → (0 <? len) && negb (utf8_valid (ztake len buf)) = false →
  utf8_valid (ztake len buf) = true.
Proof.
  intros Hl H. apply andb_false_iff in H as [H|H%negb_false_iff]; [|done].
  by replace len with 0 by lia.
Qed.

Lemma chat_message_decode_wp data :
  bytes_ok data → wp (decode data) (λ r, wf r.1 ∧ 0 < r.2 ≤ zlen data).
Proof.
  intros Hb. unfold decode, CHAT_MAX_SENDER_LEN, CHAT_MAX_TEXT_LEN, MIN_VALID_TIMESTAMP in *.
  do 10 wp_step. bool_hyps. do 14 wp_step; bool_hyps; wp_steps.
  all: unfold wf, MIN_VALID_TIMESTAMP; cbn [fst snd origin_node timestamp sender sender_len text
    text_len reply_to_node reply_to_timestamp].
  all: change (replicate 12 0) with (replicate (Z.to_nat 12) 0) in *;
    change (replicate 128 0) with (replicate (Z.to_nat 128) 0) in *.
  all: split; [|lia]; split_and!; try lia.
  all: apply copy_prefix_ok; try done; try (unfold CHAT_MAX_SENDER_LEN, CHAT_MAX_TEXT_LEN; lia).
  all: apply optional_utf8; [lia|done].
Qed.
End ChatMessageProofs.

Module ChatProofs.
Import ChatCRDT.

(** How many messages have a greater identifier. *)
Definition above {V} (m : gmap Z V) (k : Z) : nat := size (filter (λ j, k < j) (dom m)).

Section above.
Context {V : Type}.
Implicit Types (m : gmap Z V).

Lemma above_lt m k : is_Some (m !! k) → (above m k < size m)%nat.
Proof.
  intros Hk. rewrite <-size_dom. apply subset_size. split; [set_solver|].
  intros Hsub. assert (k ∈ dom m) as Hin by (by apply elem_of_dom). set_solver by lia.
Qed.
Lemma above_delete m k k0 : k0 ≤ k → above (delete k0 m) k = above m k.
Proof.
  intros Hle. unfold above. f_equal. rewrite dom_delete_L. apply set_eq. intros j.
  set_solver by lia.
Qed.
Lemma above_least m k0 :
  is_Some (m !! k0) → (∀ k, is_Some (m !! k) → k0 ≤ k) → size m = S (above m k0).
Proof.
  intros Hk0 Hmin. apply elem_of_dom in Hk0.
  assert (filter (λ j, k0 < j) (dom m) = dom m ∖ {[k0]}) as E.
  { apply set_eq. intros j. rewrite elem_of_filter, elem_of_difference, elem_of_singleton.
    split; [intros [? ?]; split; [done|lia]|].
    intros [Hj ?]. split; [|done]. apply elem_of_dom, Hmin in Hj. lia. }
  unfold above. rewrite E, <-size_dom.
  rewrite size_difference by set_solver. rewrite size_singleton.
  assert (size ({[k0]} : gset Z) ≤ size (dom m))%nat as H1 by (apply subseteq_size; set_solver).
  rewrite size_singleton in H1. lia.
Qed.
Lemma above_mono m1 m2 k : dom m1 ⊆ dom m2 → (above m1 k ≤ above m2 k)%nat.
Proof. intros Hs. apply subseteq_size. set_solver. Qed.

Lemma bt_iter_head m k v l :
  bt_iter m = (k, v) :: l → m !! k = Some v ∧ ∀ k', is_Some (m !! k') → k ≤ k'.
Proof.
  intros E. pose proof (bt_iter_sorted m) as Hs. rewrite E in Hs.
  apply StronglySorted_inv in Hs as [_ Hall]. rewrite Forall_forall in Hall. split.
  - apply elem_of_bt_iter. rewrite E. set_solver.
  - intros k' [v' Hv']. apply elem_of_bt_iter in Hv'. rewrite E in Hv'.
    apply elem_of_cons in Hv' as [[= -> ->]|Hin]; [done|]. apply Hall in Hin. done.
Qed.
End above.

(** Pruning keeps exactly the 32 greatest identifiers. *)
Lemma prune_fuel_spec n m k :
  (size m ≤ n + 32)%nat →
  prune_fuel n m !! k = if decide (above m k < 32)%nat then m !! k else None.
Proof.
  assert (∀ m : gmap Z ChatMessage.t, (size m ≤ 32)%nat →
    m !! k = if decide (above m k < 32)%nat then m !! k else None) as Hsmall.
  { clear m. intros m Hm. destruct (m !! k) eqn:E; [|by destruct (decide _)].
    pose proof (above_lt m k ltac:(eauto)). by rewrite decide_True by lia. }
  revert m. induction n as [|n IH]; intros m Hn; cbn [prune_fuel]; [apply Hsmall; lia|].
  unfold CHAT_MAX_MESSAGES. destruct (32 <? Z.of_nat (size m)) eqn:E; [|apply Hsmall; lia].
  destruct (bt_iter m) as [|[k0 v0] l] eqn:Hb.
  { exfalso. pose proof (length_bt_iter m) as Hl. rewrite Hb in Hl. cbn in Hl. lia. }
  apply bt_iter_head in Hb as [Hk0 Hmin].
  rewrite IH by (rewrite map_size_delete_Some by eauto; lia).
  destruct (decide (k = k0)) as [->|Hne].
  - rewrite lookup_delete_eq.
    pose proof (above_least m k0 ltac:(eauto) Hmin). rewrite (decide_False (P := (above m k0 < 32)%nat)) by lia.
    by destruct (decide _).
  - rewrite lookup_delete_ne by done. destruct (m !! k) eqn:Hk; [|by destruct (decide _), (decide _)].
    by rewrite above_delete by eauto.
Qed.
Lemma prune_spec m k :
  prune_if_needed m !! k = if decide (above m k < 32)%nat then m !! k else None.
Proof. apply prune_fuel_spec. lia. Qed.

Lemma prune_fuel_size n m : (size m ≤ n + 32)%nat → size (prune_fuel n m) = Nat.min 32 (size m).
Proof.
  revert m. induction n as [|n IH]; intros m Hn; cbn [prune_fuel]; [lia|].
  unfold CHAT_MAX_MESSAGES. destruct (32 <? Z.of_nat (size m)) eqn:E; [|lia].
  destruct (bt_iter m) as [|[k0 v0] l] eqn:Hb.
  { exfalso. pose proof (length_bt_iter m) as Hl. rewrite Hb in Hl. cbn in Hl. lia. }
  apply bt_iter_head in Hb as [Hk0 Hmin].
  assert (size (delete k0 m) = pred (size m)) as Hd by (by rewrite map_size_delete_Some by eauto).
  rewrite IH by lia. lia.
Qed.
Lemma prune_size m : size (prune_if_needed m) = Nat.min 32 (size m).
Proof. apply prune_fuel_size. lia. Qed.
Lemma prune_small m : (size m ≤ 32)%nat → prune_if_needed m = m.
Proof.
  intros Hm. apply map_eq. intros k. rewrite prune_spec.
  destruct (m !! k) eqn:E; [|by destruct (decide _)].
  pose proof (above_lt m k ltac:(eauto)). by rewrite decide_True by lia.
Qed.
Lemma prune_sub m : prune_if_needed m ⊆ m.
Proof.
  apply map_subseteq_spec. intros k v. rewrite prune_spec. by destruct (decide _).
Qed.

(** Pruning an operand early does not change the pruned union. *)
Lemma prune_union_r a b :
  prune_if_needed (a ∪ prune_if_needed b) = prune_if_needed (a ∪ b).
Proof.
  apply map_eq. intros k. rewrite !prune_spec.
  assert (dom (a ∪ prune_if_needed b) ⊆ dom (a ∪ b)) as Hsub.
  { rewrite !dom_union_L. pose proof (subseteq_dom _ _ (prune_sub b)). set_solver. }
  destruct (decide (above (a ∪ b) k < 32)%nat) as [Hlt|Hge].
  - pose proof (above_mono _ _ k Hsub). rewrite decide_True by lia.
    rewrite !lookup_union. f_equal. rewrite prune_spec.
    assert (above b k ≤ above (a ∪ b) k)%nat by (apply above_mono; set_solver).
    by rewrite decide_True by lia.
  - destruct (decide _) as [Hlt|]; [|done]. exfalso.
    destruct (decide (set_Exists (λ j, j ∉ dom (prune_if_needed b))
      (filter (λ j, k < j) (dom b)))) as [(j & Hj & Hnj)|Hall]; cycle 1.
    + assert (∀ j, k < j → j ∈ dom b → j ∈ dom (prune_if_needed b)) as Hkeep.
      { intros j Hkj Hj. destruct (decide (j ∈ dom (prune_if_needed b))); [done|].
        destruct Hall. exists j. set_solver. }
      enough (above (a ∪ b) k ≤ above (a ∪ prune_if_needed b) k)%nat by lia.
      apply subseteq_size. rewrite !dom_union_L. set_solver.
    + apply elem_of_filter in Hj as [Hkj Hj]. apply elem_of_dom in Hj as [v Hv].
      apply not_elem_of_dom in Hnj. rewrite prune_spec in Hnj.
      destruct (decide (above b j < 32)%nat) as [|Hbj]; [congruence|].
      pose proof (above_lt b j ltac:(eauto)).
      enough (32 ≤ above (a ∪ prune_if_needed b) k)%nat by lia.
      replace 32%nat with (size (prune_if_needed b)) by (rewrite prune_size; lia).
      rewrite <-size_dom. apply subseteq_size. intros i Hi.
      apply elem_of_filter. rewrite dom_union_L. split; [|set_solver].
      apply elem_of_dom in Hi as [w Hi]. rewrite prune_spec in Hi.
      destruct (decide (above b i < 32)%nat); [|done].
      assert (j < i); [|lia]. apply Z.nle_gt. intros Hle.
      assert (above b j ≤ above b i)%nat; [|lia].
      apply subseteq_size. intros x. rewrite !elem_of_filter. intros [??]. split; [lia|done].
Qed.

(** The merge loop computes the union and whether it is larger. *)
Lemma chat_merge_loop (l : list (Z * ChatMessage.t)) (m : gmap Z ChatMessage.t) ch :
  NoDup l.*1 →
  let r := foldl (λ '(m, changed) '(id, msg),
      if bool_decide (is_Some ((m : gmap Z ChatMessage.t) !! id)) then (m, changed)
      else (<[id := msg]> m, true)) (m, ch) l in
  (∀ k, r.1 !! k = m !! k ∪ (list_to_map l : gmap Z ChatMessage.t) !! k) ∧
  (r.2 = true ↔ ch = true ∨ ∃ k, k ∈ l.*1 ∧ m !! k = None).
Proof.
  revert m ch. induction l as [|[k0 v0] l IH]; intros m ch Hnd; cbn [foldl].
  { split; [intros k; by rewrite list_to_map_nil, lookup_empty, (right_id_L None _)|].
    split; [by left|]. intros [?|(k & ?%elem_of_nil & _)]; done. }
  rewrite fmap_cons in *. cbn [fst] in *. apply NoDup_cons in Hnd as [Hk0 Hnd].
  case_bool_decide as Hin.
  - destruct (IH m ch Hnd) as [Hl Hc]. split.
    + intros k. rewrite Hl, list_to_map_cons.
      destruct (decide (k0 = k)) as [->|]; [|by rewrite lookup_insert_ne].
      destruct Hin as [v Hv]. rewrite Hv. by rewrite !union_Some_l.
    + rewrite Hc. setoid_rewrite elem_of_cons. split.
      * intros [?|(k & ? & ?)]; eauto.
      * intros [?|(k & [->|?] & Hk)]; eauto. rewrite Hk in Hin. by destruct Hin.
  - apply eq_None_not_Some in Hin. destruct (IH (<[k0:=v0]> m) true Hnd) as [Hl Hc]. split.
    + intros k. rewrite Hl, list_to_map_cons.
      destruct (decide (k0 = k)) as [->|]; [|by rewrite !lookup_insert_ne].
      rewrite !lookup_insert_eq, Hin. by rewrite not_elem_of_list_to_map_1.
    + rewrite Hc. split; [|by left]. intros _. right. exists k0. split; [set_solver|done].
Qed.

Lemma chat_merge_spec a b :
  messages (merge a b).1
  = (if (merge a b).2 then prune_if_needed (messages a ∪ messages b)
     else messages a ∪ messages b) ∧
  ((merge a b).2 = true ↔ ∃ k, is_Some (messages b !! k) ∧ messages a !! k = None).
Proof.
  unfold merge.
  destruct (chat_merge_loop (bt_iter (messages b)) (messages a) false (bt_iter_NoDup_keys _))
    as [Hl Hc]. destruct (foldl _ _ _) as [m ch]. cbn in *.
  assert (m = messages a ∪ messages b) as ->.
  { apply map_eq. intros k. rewrite Hl, lookup_union. f_equal.
    rewrite (list_to_map_proper _ (map_to_list (messages b))); [by rewrite list_to_map_to_list| |].
    - apply bt_iter_NoDup_keys.
    - apply bt_iter_perm. }
  split; [done|]. rewrite Hc. split.
  - intros [?|(k & Hk & ?)]; [done|]. exists k. split; [|done].
    apply list_elem_of_fmap in Hk as ([k' v] & -> & Hin). apply elem_of_bt_iter in Hin. eauto.
  - intros (k & [v Hv] & Hk). right. exists k. split; [|done].
    apply list_elem_of_fmap. exists (k, v). split; [done|]. by apply elem_of_bt_iter.
Qed.

(** ** The set as a CRDT *)

(** Bounded sets whose messages are determined by their identifier. *)
Definition chat_valid (content : Z → ChatMessage.t) (c : t) : Prop :=
  (size (messages c) ≤ 32)%nat ∧ map_Forall (λ id m, m = content id) (messages c).

Lemma chat_merge_prune content a b :
  chat_valid content a →
  messages (merge a b).1 = prune_if_needed (messages a ∪ messages b).
Proof.
  intros [Ha _]. destruct (chat_merge_spec a b) as [-> Hc].
  destruct (merge a b).2; [done|].
  assert (messages a ∪ messages b = messages a) as ->.
  { apply map_eq. intros k. rewrite lookup_union.
    destruct (messages a !! k) eqn:Ea, (messages b !! k) eqn:Eb; try done.
    exfalso. discriminate (proj2 Hc (ex_intro _ k (conj (ex_intro _ _ Eb) Ea))). }
  by rewrite prune_small.
Qed.

Lemma chat_union_comm content a b :
  chat_valid content a → chat_valid content b →
  messages a ∪ messages b = messages b ∪ messages a.
Proof.
  intros [_ Ha] [_ Hb]. apply map_eq. intros k. rewrite !lookup_union.
  destruct (messages a !! k) as [m|] eqn:Ea, (messages b !! k) as [m'|] eqn:Eb; try done.
  apply Ha in Ea as ->. by apply Hb in Eb as ->.
Qed.

Lemma chat_merge_valid content a b :
  chat_valid content a → chat_valid content b → chat_valid content (merge a b).1.
Proof.
  intros Ha Hb. unfold chat_valid. rewrite (chat_merge_prune content) by done. split.
  - rewrite prune_size. lia.
  - intros k m Hk. eapply lookup_weaken in Hk; [|apply prune_sub].
    apply lookup_union_Some_raw in Hk as [Hk|[_ Hk]]; [by apply Ha in Hk|by apply Hb in Hk].
Qed.

#[global] Instance chat_join content :
  JoinCrdt t (chat_valid content) (λ a b, (merge a b).1).
Proof.
  assert (∀ a b : t, messages a = messages b → a = b) as Heq by (intros [] []; cbn; congruence).
  pose proof (chat_merge_valid content) as Hv.
  split.
  - apply Hv.
  - intros a Ha. apply Heq. rewrite (chat_merge_prune content) by done.
    rewrite (idemp_L (∪)). apply prune_small, Ha.
  - intros a b Ha Hb. apply Heq. rewrite !(chat_merge_prune content) by done.
    by rewrite (chat_union_comm content a b).
  - intros a b c Ha Hb Hc. apply Heq.
    rewrite (chat_merge_prune content) by done.
    rewrite (chat_merge_prune content b c), prune_union_r by done.
    rewrite (chat_merge_prune content _ c) by auto.
    rewrite (chat_union_comm content (merge a b).1 c) by auto.
    rewrite (chat_merge_prune content a b), prune_union_r by done.
    f_equal. apply map_eq. intros k. rewrite !lookup_union.
    destruct Ha as [_ Ha], Hb as [_ Hb], Hc as [_ Hc].
    destruct (messages a !! k) eqn:Ea, (messages b !! k) eqn:Eb, (messages c !! k) eqn:Ec;
      try apply Ha in Ea as ->; try apply Hb in Eb as ->; try apply Hc in Ec as ->; done.
Qed.

(** A full set drops a message with the least identifier as it adds it. *)
Lemma chat_add_least c msg :
  size (messages c) = 32%nat →
  (∀ k, is_Some (messages c !! k) → ChatMessage.message_id msg < k) →
  add_message c msg = (c, true).
Proof.
  intros Hs Hlt. unfold add_message. set (id := ChatMessage.message_id msg) in *.
  assert (messages c !! id = None) as Hnone.
  { apply eq_None_not_Some. intros Hk. specialize (Hlt id Hk). lia. }
  rewrite bool_decide_false by (rewrite Hnone; by intros []). f_equal.
  destruct c as [m]. cbn [messages] in *. f_equal. apply map_eq. intros k. rewrite prune_spec.
  assert (∀ j, id ≤ j → above (<[id:=msg]> m) j = above m j) as Habove.
  { intros j Hj. rewrite <-(above_delete (<[id:=msg]> m) j id) by done.
    by rewrite delete_insert_id. }
  destruct (decide (k = id)) as [->|Hne].
  - rewrite Hnone, decide_False; [done|]. rewrite Habove by done.
    assert (dom m ⊆ filter (λ j, id < j) (dom m)) as Hsub.
    { intros j Hj. apply elem_of_filter. split; [|done]. by apply Hlt, elem_of_dom. }
    apply subseteq_size in Hsub. rewrite size_dom in Hsub. unfold above. lia.
  - rewrite lookup_insert_ne by done. destruct (m !! k) eqn:Hk; [|by destruct (decide _)].
    specialize (Hlt k ltac:(eauto)). rewrite Habove by lia.
    pose proof (above_lt m k ltac:(eauto)). by rewrite decide_True by lia.
Qed.

(** ** Wire format *)

Lemma all_messages_wf c : wf c → Forall ChatMessage.wf (all_messages c).
Proof.
  intros [Hm _]. apply Forall_forall. intros m Hin.
  apply list_elem_of_fmap in Hin as ([k v] & -> & Hin). apply elem_of_bt_iter in Hin.
  by apply Hm in Hin as [? _].
Qed.

Lemma chat_insert_all c :
  wf c →
  foldl (λ m msg, <[ChatMessage.message_id msg := msg]> m) (∅ : gmap Z ChatMessage.t)
    (all_messages c) = messages c.
Proof.
  intros [Hm _]. rewrite <-(insert_all_bt_iter (messages c)). unfold insert_all, all_messages.
  assert (∀ l (m0 : gmap Z ChatMessage.t),
    (∀ e, e ∈ l → e.1 = ChatMessage.message_id e.2) →
    foldl (λ m msg, <[ChatMessage.message_id msg := msg]> m) m0 l.*2
    = foldl (λ m '(k, v), <[k := v]> m) m0 l) as Hl.
  { induction l as [|[k v] l IH]; intros m0 He; [done|]. cbn.
    pose proof (He (k, v) ltac:(set_solver)) as Hk. cbn in Hk. subst k.
    apply IH. intros. apply He. set_solver. }
  apply Hl. intros [k v] Hin. apply elem_of_bt_iter in Hin. by apply Hm in Hin as [_ ?].
Qed.

Lemma decode_messages_ok l pre suf data off m :
  Forall ChatMessage.wf l → off = zlen pre →
  data = pre ++ flat_map ChatMessage.encode l ++ suf →
  decode_messages (length l) data off m
  = Ok (foldl (λ m msg, <[ChatMessage.message_id msg := msg]> m) m l).
Proof.
  intros Hl. revert pre off m. induction l as [|msg l IH]; intros pre off m -> Hdata; [done|].
  apply Forall_cons in Hl as [Hmsg Hl]. cbn [length decode_messages flat_map].
  pose proof (ChatMessageProofs.chat_encode_length msg Hmsg) as Hlen.
  assert (0 ≤ ChatMessage.sender_len msg ∧ 0 ≤ ChatMessage.text_len msg) as [? ?].
  { destruct Hmsg as (_ & _ & _ & _ & (_ & ? & _) & _ & (_ & ? & _) & _). lia. }
  cbn [flat_map] in Hdata. rewrite <-app_assoc in Hdata.
  assert (slice_from data (zlen pre)
    = Ok (ChatMessage.encode msg ++ flat_map ChatMessage.encode l ++ suf)) as ->
    by (rewrite Hdata; by rd).
  replace (zlen data <=? zlen pre) with false by (symmetry; rewrite Hdata; bdec).
  cbn [obind]. rewrite ChatMessageProofs.chat_message_decode_encode by done. cbn [opt obind].
  apply (IH Hl (pre ++ ChatMessage.encode msg)); [len|by rewrite <-app_assoc].
Qed.

Lemma chat_decode_encode c : wf c → decode (encode c) = Ok c.
Proof.
  intros Hwf. destruct (Hwf) as [_ Hn]. unfold decode, encode. rewrite wrap_small by lia. rd.
  assert (Z.to_nat (Z.of_nat (size (messages c))) = length (all_messages c)) as ->.
  { unfold all_messages. rewrite length_fmap, length_bt_iter. lia. }
  rewrite (decode_messages_ok _ (le 2 (Z.of_nat (size (messages c)))) []).
  - rewrite chat_insert_all by done. by destruct c.
  - by apply all_messages_wf.
  - len.
  - by rewrite app_nil_r.
Qed.

Lemma chat_crdt_encode_bytes c : wf c → bytes_ok (encode c).
Proof.
  intros Hwf. apply bytes_app; [auto with bytes|]. apply bytes_flat_map. intros m Hm.
  apply ChatMessageProofs.chat_encode_bytes.
  pose proof (all_messages_wf c Hwf) as Hall. rewrite Forall_forall in Hall. by apply Hall.
Qed.

Lemma decode_messages_wp n data off m :
  bytes_ok data → 0 ≤ off →
  map_Forall (λ id m, ChatMessage.wf m ∧ id = ChatMessage.message_id m) m →
  wp (decode_messages n data off m) (λ m',
    map_Forall (λ id m, ChatMessage.wf m ∧ id = ChatMessage.message_id m) m' ∧
    (size m' ≤ size m + n)%nat).
Proof.
  intros Hb. revert off m. induction n as [|n IH]; intros off m Hoff Hm; cbn [decode_messages].
  { apply wp_ok. split; [done|lia]. }
  apply wp_if; intros E; [apply wp_ok; split; [done|lia]|]. wp_steps.
  eapply wp_mono; [apply wp_opt, ChatMessageProofs.chat_message_decode_wp; done|].
  intros [[msg len]|] Hr; [|apply wp_ok; split; [done|lia]].
  destruct (Hr _ eq_refl) as [Hwf Hlen]. cbn in Hwf, Hlen.
  eapply wp_mono; [apply IH; [lia|]|].
  - by apply map_Forall_insert_2.
  - intros m' [Hm' Hs]. split; [done|].
    pose proof (map_size_insert_le (ChatMessage.message_id msg) msg m). lia.
Qed.

Lemma chat_decode_wp data : bytes_ok data → wp (decode data) wf.
Proof.
  intros Hb. unfold decode. wp_steps.
  eapply wp_mono; [apply decode_messages_wp; [done|lia|apply map_Forall_empty]|].
  intros m [Hm Hs]. apply wp_ok. split; [done|]. rewrite map_size_empty in Hs. cbn. lia.
Qed.

End ChatProofs.

#[export] Hint Resolve ChatMessageProofs.chat_message_decode_wp ChatProofs.chat_decode_wp : wp.

Module ChatProperties.

(** Chat convergence in bounded memory.  When an identifier names one
    message, replicas within the limit that merge the same sets in any order
    and with repetitions hold the same messages, never more than 32: pruning
    early or late makes no difference. *)
Theorem chat_converges (content : Z → ChatMessage.t) (s : ChatCRDT.t) us us' :
  let join a b := (ChatCRDT.merge a b).1 in
  ChatProofs.chat_valid content s → (∀ u, u ∈ us → ChatProofs.chat_valid content u) →
  (∀ u, u ∈ us ↔ u ∈ us') →
  foldl join s us = foldl join s us' ∧
  ChatCRDT.len (foldl join s us) ≤ CHAT_MAX_MESSAGES.
Proof.
  intros join Hs Hus Hiff. split.
  - by apply (replay_converges (valid := ChatProofs.chat_valid content)).
  - destruct (replay_valid (valid := ChatProofs.chat_valid content)
      (join := join) s us Hs Hus) as [Hlen _].
    unfold ChatCRDT.len, CHAT_MAX_MESSAGES. lia.
Qed.

(** Messages of node 1, one per second. *)
Definition sample_message (i : Z) : ChatMessage.t :=
  ChatMessage.new 1 (1705276800000 + 1000 * i) [65] [104; 105].
Definition sample_chat (from n : nat) : ChatCRDT.t :=
  foldl (λ c i, (ChatCRDT.add_message c (sample_message (Z.of_nat i))).1) ChatCRDT.new
    (seq from n).

Lemma chat_converges_witness :
  let content id := sample_message ((id - ChatMessage.make_id 1 1705276800000) / 1000) in
  let join a b := (ChatCRDT.merge a b).1 in
  let a := sample_chat 0 20 in
  let b := sample_chat 15 20 in
  foldl join ChatCRDT.new [a; b] = foldl join ChatCRDT.new [b; a; b] ∧
  ChatCRDT.len (foldl join ChatCRDT.new [a; b]) ≤ CHAT_MAX_MESSAGES.
Proof.
  intros content join a b. apply (chat_converges content ChatCRDT.new [a; b] [b; a; b]).
  - unfold ChatProofs.chat_valid. by_decide.
  - intros u. rewrite !elem_of_cons. intros [->|[->|H]]; [| |by apply not_elem_of_nil in H];
      unfold ChatProofs.chat_valid; by_decide.
  - set_solver.
Defined.

(** Pruning is by node, not by age.  In a full chat, a new message whose
    identifier is below all others, because its author has the least node
    number, is dropped on insertion, however recent it is, and [add_message]
    still answers that it was added. *)
Theorem chat_drops_new_message (c : ChatCRDT.t) (origin ts : Z) (sender text : list Z) :
  ChatCRDT.len c = CHAT_MAX_MESSAGES → in_u 32 origin →
  map_Forall (λ _ m, origin < ChatMessage.origin_node m) (ChatCRDT.messages c) →
  map_Forall (λ id m, id = ChatMessage.message_id m ∧ 0 ≤ ChatMessage.timestamp m)
    (ChatCRDT.messages c) →
  ChatCRDT.send_message c origin ts sender text = (c, true).
Proof.
  intros Hlen Ho Horigin Hid. unfold ChatCRDT.send_message.
  apply ChatProofs.chat_add_least.
  - unfold ChatCRDT.len, CHAT_MAX_MESSAGES in Hlen. lia.
  - intros k [m Hm]. destruct (Hid k m Hm) as [-> Hts]. apply Horigin in Hm.
    assert (∀ x, 0 ≤ Z.land x 0xFFFFFFFF < 2 ^ 32) as Hland.
    { intros x. change 0xFFFFFFFF with (Z.ones 32). rewrite Z.land_ones by lia.
      apply Z.mod_pos_bound. lia. }
    unfold ChatMessage.message_id, ChatMessage.make_id. cbn [ChatMessage.new ChatMessage.set_text
      ChatMessage.set_sender ChatMessage.origin_node ChatMessage.timestamp].
    rewrite !lor_shiftl_add by (lia || apply Hland).
    pose proof (Hland ts). pose proof (Hland (ChatMessage.timestamp m)). lia.
Qed.

(** 32 messages of node 1, then one of node 0 a day later. *)
Lemma chat_drops_new_message_witness :
  let c := sample_chat 0 32 in
  ChatCRDT.send_message c 0 1705363200000 [66] [110; 111; 119] = (c, true).
Proof.
  intros c. apply (chat_drops_new_message c 0 1705363200000 [66] [110; 111; 119]).
  - vm_compute. reflexivity.
  - lia.
  - by_decide.
  - by_decide.
Defined.

(** Two messages of one node whose times differ by 2^32 ms (49.7 days) have
    the same identifier: the second is refused as a duplicate. *)
Lemma chat_identifier_wraps (c : ChatCRDT.t) (m : ChatMessage.t) origin ts sender text :
  ChatCRDT.messages c !! ChatMessage.make_id origin ts = Some m →
  ChatCRDT.send_message c origin (ts + 2 ^ 32) sender text = (c, false).
Proof.
  intros Hm. unfold ChatCRDT.send_message, ChatCRDT.add_message, ChatMessage.message_id.
  cbn [ChatMessage.new ChatMessage.set_text ChatMessage.set_sender ChatMessage.origin_node
       ChatMessage.timestamp].
  assert (ChatMessage.make_id origin (ts + 2 ^ 32) = ChatMessage.make_id origin ts) as ->.
  { unfold ChatMessage.make_id. f_equal. change 0xFFFFFFFF with (Z.ones 32).
    rewrite !Z.land_ones by lia. replace (ts + 2 ^ 32) with (ts + 1 * 2 ^ 32) by lia.
    apply Z.mod_add. lia. }
  rewrite bool_decide_true by eauto. done.
Qed.

End ChatProperties.
