(* ===== verification/Config.v ===== *)
(** * Configuration of src/src/config.rs: the profiles and their defaults,
    the device name that carries the mesh and the node, and the secret
    embedded at build time.  Texts are their UTF-8 bytes. *)

From Stdlib Require Import String.
From stdpp Require Import base numbers list gmap.
From S2P Require Import Prelude.
Open Scope Z_scope.
Open Scope peat_scope.

Module BlePhy.
Inductive t := Le1M | Le2M | LeCodedS2 | LeCodedS8.
#[global] Instance ble_phy_eq_dec : EqDecision t.
Proof. solve_decision. Defined.
Definition default_phy : t := Le1M.
Definition bandwidth_bps (self : t) : Z :=
  match self with
  | Le1M => 1000000 | Le2M => 2000000 | LeCodedS2 => 500000 | LeCodedS8 => 125000
  end.
Definition typical_range_meters (self : t) : Z :=
  match self with Le1M => 100 | Le2M => 50 | LeCodedS2 => 200 | LeCodedS8 => 400 end.
Definition requires_ble5 (self : t) : bool := match self with Le1M => false | _ => true end.
End BlePhy.

Module PowerProfile.
Inductive t :=
| Aggressive | Balanced | LowPower
| Custom (scan_interval_ms scan_window_ms adv_interval_ms conn_interval_ms : Z).
#[global] Instance power_profile_eq_dec : EqDecision t.
Proof. solve_decision. Defined.
Definition default_profile : t := Balanced.
Definition scan_interval_ms (self : t) : Z :=
  match self with Aggressive => 100 | Balanced => 500 | LowPower => 5000 | Custom si _ _ _ => si end.
Definition scan_window_ms (self : t) : Z :=
  match self with Aggressive => 50 | Balanced => 50 | LowPower => 100 | Custom _ sw _ _ => sw end.
Definition adv_interval_ms (self : t) : Z :=
  match self with Aggressive => 100 | Balanced => 500 | LowPower => 2000 | Custom _ _ ai _ => ai end.
Definition conn_interval_ms (self : t) : Z :=
  match self with Aggressive => 15 | Balanced => 30 | LowPower => 100 | Custom _ _ _ ci => ci end.
Definition duty_cycle_percent (self : t) : outcome Z :=
  match self with
  | Aggressive => Ok 20
  | Balanced => Ok 10
  | LowPower => Ok 2
  | Custom si sw _ _ =>
      if si =? 0 then Ok 0
      else let! p := mul_u 32 sw 100 in Ok (wrap 8 (p / si))
  end.
End PowerProfile.

Module DiscoveryConfig.
Record t := mk {
  scan_interval_ms : Z; scan_window_ms : Z; adv_interval_ms : Z; tx_power_dbm : Z;
  adv_phy : BlePhy.t; scan_phy : BlePhy.t; active_scan : bool; filter_duplicates : bool
}.
Definition default_config : t := mk 500 50 500 0 BlePhy.Le1M BlePhy.Le1M true true.
Definition set_intervals (self : t) (scan_interval scan_window adv_interval : Z) : t :=
  mk scan_interval scan_window adv_interval (tx_power_dbm self) (adv_phy self) (scan_phy self)
    (active_scan self) (filter_duplicates self).
End DiscoveryConfig.

Module GattConfig.
Record t := mk { preferred_mtu : Z; min_mtu : Z; enable_server : bool; enable_client : bool }.
Definition default_config : t := mk 251 23 true true.
End GattConfig.

Definition DEFAULT_MESH_ID : list Z := str "DEMO"%string.

Module MeshConfig.

Record t := mk {
  mesh_id : list Z; max_connections : Z; max_children : Z; supervision_timeout_ms : Z;
  slave_latency : Z; conn_interval_min_ms : Z; conn_interval_max_ms : Z
}.
Definition default_config : t := mk DEFAULT_MESH_ID 7 3 4000 0 30 50.
Definition new (mesh_id : list Z) : t := mk mesh_id 7 3 4000 0 30 50.

Definition device_name (self : t) (node_id : Z) : list Z :=
  str "PEAT_"%string ++ mesh_id self ++ str "-"%string ++ hex8 node_id.
Definition parse_device_name (name : list Z) : option (option (list Z) * Z) :=
  match strip_prefix (str "PEAT_"%string) name with
  | Some rest =>
      match split_once 45 rest with
      | Some (mesh_id, node_id_str) =>
          match from_hex 32 node_id_str with
          | Some node_id => Some (Some mesh_id, node_id)
          | None => None
          end
      | None => None
      end
  | None =>
      match strip_prefix (str "PEAT-"%string) name with
      | Some node_id_str =>
          match from_hex 32 node_id_str with
          | Some node_id => Some (None, node_id)
          | None => None
          end
      | None => None
      end
  end.
Definition matches_mesh (self : t) (device_mesh_id : option (list Z)) : bool :=
  match device_mesh_id with Some id => bool_decide (id = mesh_id self) | None => true end.

End MeshConfig.

Module PhyStrategy.
Inductive t :=
| Fixed (phy : BlePhy.t)
| Adaptive (rssi_high_threshold rssi_low_threshold hysteresis_db : Z)
| MaxRange | MaxThroughput.
Definition default_strategy : t := Fixed BlePhy.Le1M.
End PhyStrategy.

Module PhyConfig.
Record t := mk { strategy : PhyStrategy.t; preferred_phy : BlePhy.t; allow_phy_update : bool }.
Definition default_config : t := mk PhyStrategy.default_strategy BlePhy.default_phy false.
End PhyConfig.

Module SecurityConfig.
Record t := mk {
  require_pairing : bool; require_encryption : bool; require_mitm_protection : bool;
  require_secure_connections : bool; app_layer_encryption : bool
}.
Definition default_config : t := mk false true false false false.
End SecurityConfig.

Module BleConfig.

Record t := mk {
  node_id : Z; capabilities : Z; hierarchy_level : Z; geohash : Z;
  discovery : DiscoveryConfig.t; gatt : GattConfig.t; mesh : MeshConfig.t;
  power_profile : PowerProfile.t; phy : PhyConfig.t; security : SecurityConfig.t
}.
Definition new (node_id : Z) : t :=
  mk node_id 0 0 0 DiscoveryConfig.default_config GattConfig.default_config
    MeshConfig.default_config PowerProfile.default_profile PhyConfig.default_config
    SecurityConfig.default_config.
Definition peat_lite (node_id : Z) : t :=
  let config := new node_id in
  let m := mesh config in
  mk node_id 0 0 0
    (DiscoveryConfig.set_intervals (discovery config) 5000 100 2000) (gatt config)
    (MeshConfig.mk (MeshConfig.mesh_id m) (MeshConfig.max_connections m) 0
       (MeshConfig.supervision_timeout_ms m) (MeshConfig.slave_latency m)
       (MeshConfig.conn_interval_min_ms m) (MeshConfig.conn_interval_max_ms m))
    PowerProfile.LowPower (phy config) (security config).
Definition apply_power_profile (self : t) : outcome t :=
  let p := power_profile self in
  let m := mesh self in
  let conn := wrap 16 (PowerProfile.conn_interval_ms p) in
  let! conn_max := add_u 16 conn 20 in
  Ok (mk (node_id self) (capabilities self) (hierarchy_level self) (geohash self)
    (DiscoveryConfig.set_intervals (discovery self) (PowerProfile.scan_interval_ms p)
       (PowerProfile.scan_window_ms p) (PowerProfile.adv_interval_ms p))
    (gatt self)
    (MeshConfig.mk (MeshConfig.mesh_id m) (MeshConfig.max_connections m)
       (MeshConfig.max_children m) (MeshConfig.supervision_timeout_ms m)
       (MeshConfig.slave_latency m) conn conn_max)
    p (phy self) (security self)).

End BleConfig.

(** ** The secret embedded at build time *)

Definition secret_digit (c : Z) : option Z :=
  if between 48 57 c then Some (c - 48)
  else if between 97 102 c then Some (c - 97 + 10)
  else if between 65 70 c then Some (c - 65 + 10)
  else None.
(** The loop stops at the first pair that is not two digits. *)
Fixpoint secret_bytes (chunks : list (list Z)) : option (list Z) :=
  match chunks with
  | [] => Some []
  | chunk :: chunks =>
      match chunk with
      | [high; low] =>
          match secret_digit high, secret_digit low with
          | Some high, Some low =>
              match secret_bytes chunks with
              | Some result => Some (Z.lor (Z.shiftl high 4) low :: result)
              | None => None
              end
          | _, _ => None
          end
      | _ => None
      end
  end.
Definition parse_hex_secret (hex : list Z) : option (list Z) :=
  if negb (zlen hex =? 64) then None else secret_bytes (pieces 2 hex).

(** * Theorems *)

Module ConfigProofs.

Lemma hex8_no_dash n : 45 ∉ hex8 n.
Proof.
  intros (k & Hk & _)%list_elem_of_fmap. symmetry in Hk. revert Hk. apply hex_digit_not; [|lia].
  apply Z.mod_pos_bound. lia.
Qed.
Lemma parse_own_name cfg n :
  45 ∉ MeshConfig.mesh_id cfg → in_u 32 n →
  MeshConfig.parse_device_name (MeshConfig.device_name cfg n) = Some (Some (MeshConfig.mesh_id cfg), n).
Proof.
  intros Hd Hn. unfold MeshConfig.parse_device_name, MeshConfig.device_name.
  rewrite strip_prefix_app. change (str "-"%string ++ hex8 n) with (45 :: hex8 n).
  by rewrite split_once_first, from_hex_hex8.
Qed.
Lemma hex_digits_no_dash w s acc n : hex_digits w s acc = Some n → 45 ∉ s.
Proof.
  revert acc. induction s as [|b s IH]; intros acc; cbn [hex_digits]; [by intros _ ?%elem_of_nil|].
  destruct (hex_value b) as [d|] eqn:Hb; [|done]. destruct (_ <? _); [|done].
  intros Hs [<-|Hin]%elem_of_cons; [done|]. by apply IH in Hs.
Qed.
Lemma from_hex_no_dash w s n : from_hex w s = Some n → 45 ∉ s.
Proof.
  unfold from_hex. destruct s as [|b s]; [done|]. destruct (Z.eqb_spec b 43) as [->|].
  - destruct s as [|b' s]; [done|]. intros Hs [?|Hin]%elem_of_cons; [done|].
    by apply hex_digits_no_dash in Hs.
  - apply hex_digits_no_dash.
Qed.
Lemma split_at_dash s : 45 ∈ s → ∃ p q, s = p ++ 45 :: q ∧ 45 ∉ p.
Proof.
  induction s as [|b s IH]; [by intros ?%elem_of_nil|]. intros Hin.
  destruct (decide (b = 45)) as [->|Hb].
  - exists [], s. split; [done|]. apply not_elem_of_nil.
  - apply elem_of_cons in Hin as [?|(p & q & -> & Hp)%IH]; [done|].
    exists (b :: p), q. split; [done|]. by apply not_elem_of_cons.
Qed.
Lemma parse_dashed_name cfg n :
  45 ∈ MeshConfig.mesh_id cfg → MeshConfig.parse_device_name (MeshConfig.device_name cfg n) = None.
Proof.
  intros (p & q & Hm & Hp)%split_at_dash. unfold MeshConfig.parse_device_name, MeshConfig.device_name.
  rewrite strip_prefix_app, Hm, <-app_assoc. cbn [app].
  rewrite split_once_first by done. destruct (from_hex 32 _) as [k|] eqn:E; [|done].
  apply from_hex_no_dash in E. destruct E. apply elem_of_app. right. by apply elem_of_cons; left.
Qed.

Lemma secret_digit_hex d : 0 ≤ d < 16 → secret_digit (hex_digit d) = Some d.
Proof.
  intros Hd. pose proof (hex_value_digit d Hd) as Hv. unfold hex_value, secret_digit, between in *.
  revert Hv. repeat case_match; intros; simplify_eq; try f_equal; lia.
Qed.
Lemma secret_pieces fuel b :
  bytes_ok b → (2 * length b ≤ fuel)%nat →
  secret_bytes (pieces_fuel fuel 2
    (flat_map (λ x, [hex_digit (x / 16); hex_digit (x mod 16)]) b)) = Some b.
Proof.
  revert fuel. induction b as [|x b IH]; intros fuel Hb Hf; [by destruct fuel|].
  inversion_clear Hb as [|? ? Hx Hb']. cbn [length] in Hf. destruct fuel as [|fuel]; [lia|].
  cbn [flat_map app pieces_fuel take drop secret_bytes]. change (2 ^ 8) with 256 in Hx.
  assert (0 ≤ x / 16 < 16) by (split; [apply Z.div_pos|apply Z.div_lt_upper_bound]; lia).
  pose proof (Z.mod_pos_bound x 16 ltac:(lia)). rewrite !secret_digit_hex by done.
  rewrite IH by (done || lia). do 2 f_equal. rewrite lor_shiftl_add by lia.
  pose proof (Z.div_mod x 16). lia.
Qed.
(** The secret is read back from its 64 digits. *)
Lemma parse_secret_hex b :
  bytes_ok b → zlen b = 32 →
  parse_hex_secret (flat_map (λ x, [hex_digit (x / 16); hex_digit (x mod 16)]) b) = Some b.
Proof.
  intros Hb Hl. pose proof (zlen_flat_map (λ x, [hex_digit (x / 16); hex_digit (x mod 16)]) 2 b
    ltac:(done)) as Hz.
  unfold parse_hex_secret. rewrite Hz, Hl. cbn [Z.mul Pos.mul Z.eqb Pos.eqb negb].
  apply secret_pieces; [done|]. lia.
Qed.
End ConfigProofs.
