(* ===== verification/Document.v ===== *)
(** * The mesh document of src/src/document.rs: its wire format and its
    merge.  [legacy_chat] is the cargo feature that adds the chat section. *)

From stdpp Require Import base numbers list gmap sets.
From S2P Require Import Prelude Crdt Sensor Chat.
Open Scope Z_scope.
Open Scope peat_scope.

Definition EXTENDED_MARKER : Z := 0xAB.
Definition EMERGENCY_MARKER : Z := 0xAC.
Definition CHAT_MARKER : Z := 0xAD.
Definition ENCRYPTED_MARKER : Z := 0xAE.
Definition PEER_E2EE_MARKER : Z := 0xAF.
Definition KEY_EXCHANGE_MARKER : Z := 0xB0.
Definition MIN_DOCUMENT_SIZE : Z := 8.
Definition MAX_MESH_SIZE : Z := 20.
Definition TARGET_DOCUMENT_SIZE : Z := 244.
Definition MAX_DOCUMENT_SIZE : Z := 512.

Module PeatDocument.

Record t := mk {
  version : Z; node_id : Z; counter : GCounter.t;
  peripheral : option Peripheral.t; emergency : option EmergencyEvent.t;
  chat : option ChatCRDT.t
}.

Definition set_version (self : t) (v : Z) : t :=
  mk v (node_id self) (counter self) (peripheral self) (emergency self) (chat self).
Definition set_counter (self : t) (c : GCounter.t) : t :=
  mk (version self) (node_id self) c (peripheral self) (emergency self) (chat self).
Definition set_peripheral (self : t) (p : option Peripheral.t) : t :=
  mk (version self) (node_id self) (counter self) p (emergency self) (chat self).
Definition set_emergency_field (self : t) (e : option EmergencyEvent.t) : t :=
  mk (version self) (node_id self) (counter self) (peripheral self) e (chat self).
Definition set_chat (self : t) (c : option ChatCRDT.t) : t :=
  mk (version self) (node_id self) (counter self) (peripheral self) (emergency self) c.

Definition default_document : t := mk 1 0 GCounter.new None None None.
Definition new (node_id : Z) : t := mk 1 node_id GCounter.new None None None.
Definition with_peripheral (self : t) (p : Peripheral.t) : t := set_peripheral self (Some p).
Definition with_emergency (self : t) (e : EmergencyEvent.t) : t := set_emergency_field self (Some e).
Definition with_chat (self : t) (c : ChatCRDT.t) : t := set_chat self (Some c).

Definition increment_version (self : t) : t :=
  set_version self (wrapping_add 32 (version self) 1).
Definition increment_counter (self : t) : t :=
  increment_version (set_counter self (GCounter.increment (counter self) (node_id self) 1)).
Definition set_event (self : t) (event_type : EventType.t) (timestamp : Z) : t :=
  match peripheral self with
  | Some p =>
      increment_counter (set_peripheral self (Some (Peripheral.set_event p event_type timestamp)))
  | None => self
  end.
Definition clear_event (self : t) : t :=
  match peripheral self with
  | Some p => increment_version (set_peripheral self (Some (Peripheral.clear_event p)))
  | None => self
  end.
Definition set_emergency (self : t) (source_node timestamp : Z) (known_peers : list Z) : t :=
  increment_counter
    (set_emergency_field self (Some (EmergencyEvent.new source_node timestamp known_peers))).
Definition ack_emergency (self : t) (node : Z) : t * bool :=
  match emergency self with
  | Some e =>
      let '(e, acked) := EmergencyEvent.ack e node in
      let self := set_emergency_field self (Some e) in
      if acked then (increment_version self, true) else (self, false)
  | None => (self, false)
  end.
Definition clear_emergency (self : t) : t :=
  match emergency self with
  | Some _ => increment_version (set_emergency_field self None)
  | None => self
  end.
Definition has_emergency (self : t) : bool := if emergency self is Some _ then true else false.

Definition get_or_create_chat (self : t) : ChatCRDT.t := default ChatCRDT.new (chat self).
Definition add_chat (self : t) (msg : ChatMessage.t) : t * bool :=
  let '(c, added) := ChatCRDT.add_message (get_or_create_chat self) msg in
  let self := set_chat self (Some c) in
  if added then (increment_counter self, true) else (self, false).
Definition add_chat_message (self : t) (origin timestamp : Z) (sender text : list Z) : t * bool :=
  add_chat self (ChatMessage.set_broadcast (ChatMessage.new origin timestamp sender text) true).
Definition add_chat_reply (self : t) (origin timestamp : Z) (sender text : list Z)
    (reply_to_node reply_to_timestamp : Z) : t * bool :=
  add_chat self (ChatMessage.set_reply_to
    (ChatMessage.set_broadcast (ChatMessage.new origin timestamp sender text) true)
    reply_to_node reply_to_timestamp).
Definition has_chat (self : t) : bool :=
  match chat self with Some c => negb (ChatCRDT.is_empty c) | None => false end.
Definition chat_count (self : t) : Z :=
  match chat self with Some c => ChatCRDT.len c | None => 0 end.

Definition current_event (self : t) : option EventType.t :=
  match peripheral self with
  | Some p => match Peripheral.last_event p with
              | Some e => Some (PeripheralEvent.event_type e) | None => None end
  | None => None
  end.

(** What the sections of a document hold. *)
Definition sections : Type :=
  option Peripheral.t * option EmergencyEvent.t * option ChatCRDT.t.

Section feature.
Context (legacy_chat : bool).

(** The three parts of [merge], each with whether it changed. *)
Definition merge_counter (self other : GCounter.t) : outcome (GCounter.t * bool) :=
  let! old_value := GCounter.value self in
  let merged := GCounter.merge self other in
  let! new_value := GCounter.value merged in
  Ok (merged, negb (new_value =? old_value)).
Definition merge_emergency (self other : option EmergencyEvent.t)
    : option EmergencyEvent.t * bool :=
  match other with
  | Some other_emergency =>
      match self with
      | Some our_emergency =>
          let '(e, changed) := EmergencyEvent.merge our_emergency other_emergency in
          (Some e, changed)
      | None => (Some other_emergency, true)
      end
  | None => (self, false)
  end.
Definition merge_chat (self other : option ChatCRDT.t) : option ChatCRDT.t * bool :=
  if legacy_chat then
    match other with
    | Some other_chat =>
        match self with
        | Some our_chat =>
            let '(c, changed) := ChatCRDT.merge our_chat other_chat in (Some c, changed)
        | None =>
            if negb (ChatCRDT.is_empty other_chat) then (Some other_chat, true) else (self, false)
        end
    | None => (self, false)
    end
  else (self, false).

Definition merge (self other : t) : outcome (t * bool) :=
  let! counters := merge_counter (counter self) (counter other) in
  let '(c, changed_counter) := counters in
  let '(e, changed_emergency) := merge_emergency (emergency self) (emergency other) in
  let '(ch, changed_chat) := merge_chat (chat self) (chat other) in
  let changed := changed_counter || changed_emergency || changed_chat in
  let self := mk (version self) (node_id self) c (peripheral self) e ch in
  Ok (if changed then increment_version self else self, changed).

(** marker, reserved byte, length, data. *)
Definition encode_section (marker : Z) (data : list Z) : list Z :=
  [marker] ++ [0] ++ le 2 (wrap 16 (zlen data)) ++ data.
Definition chat_data (self : t) : option (list Z) :=
  if legacy_chat then
    match chat self with
    | Some c => if negb (ChatCRDT.is_empty c) then Some (ChatCRDT.encode c) else None
    | None => None
    end
  else None.
Definition optional_section (marker : Z) (data : option (list Z)) : list Z :=
  match data with Some data => encode_section marker data | None => [] end.

Definition encode (self : t) : list Z :=
  le 4 (version self) ++ le 4 (node_id self) ++ GCounter.encode (counter self)
  ++ optional_section EXTENDED_MARKER (Peripheral.encode <$> peripheral self)
  ++ optional_section EMERGENCY_MARKER (EmergencyEvent.encode <$> emergency self)
  ++ optional_section CHAT_MARKER (chat_data self).
Definition to_bytes (self : t) : list Z := encode self.

(** The section at [offset]: its data and where it ends; [None] when it does
    not fit in the buffer, where the parser stops. *)
Definition read_section (data : list Z) (offset : Z) : outcome (option (list Z * Z)) :=
  if zlen data <? offset + 4 then Ok None
  else
    let! _reserved := u8_at data (offset + 1) in
    let! section_len := u16_at data (offset + 2) in
    let section_start := offset + 4 in
    if zlen data <? section_start + section_len then Ok None
    else
      let! body := slice data section_start (section_start + section_len) in
      Ok (Some (body, section_start + section_len)).

(** [while offset < data.len()].  Every round moves [offset] forward by 4 at
    least; running out of fuel is a [Panic], which the safety theorem
    excludes for the fuel [decode] gives. *)
Fixpoint parse_sections (fuel : nat) (data : list Z) (offset : Z) (st : sections)
    : outcome sections :=
  if offset <? zlen data then
    match fuel with
    | O => Panic
    | S fuel =>
        let '(peripheral, emergency, chat) := st in
        let! marker := u8_at data offset in
        if marker =? EXTENDED_MARKER then
          let! section := read_section data offset in
          match section with
          | None => Ok st
          | Some (body, next) =>
              let! peripheral := opt (Peripheral.decode body) in
              parse_sections fuel data next (peripheral, emergency, chat)
          end
        else if marker =? EMERGENCY_MARKER then
          let! section := read_section data offset in
          match section with
          | None => Ok st
          | Some (body, next) =>
              let! emergency := opt (EmergencyEvent.decode body) in
              parse_sections fuel data next (peripheral, emergency, chat)
          end
        else if marker =? CHAT_MARKER then
          let! section := read_section data offset in
          match section with
          | None => Ok st
          | Some (body, next) =>
              let! chat := if legacy_chat then opt (ChatCRDT.decode body) else Ok chat in
              parse_sections fuel data next (peripheral, emergency, chat)
          end
        else Ok st
    end
  else Ok st.

Definition decode (data : list Z) : outcome t :=
  reject_if zlen data <? MIN_DOCUMENT_SIZE ;;
  let! version := u32_at data 0 in
  let! node_id := u32_at data 4 in
  let! rest := slice_from data 8 in
  let! counter := GCounter.decode rest in
  let! num_entries := u32_at data 8 in
  let offset := 8 + 4 + num_entries * 12 in
  let! st := parse_sections (length data) data offset (None, None, None) in
  let '(peripheral, emergency, chat) := st in
  Ok (mk version node_id counter peripheral emergency chat).
Definition from_bytes (data : list Z) : outcome t := decode data.

Definition total_count (self : t) : outcome Z := GCounter.value (counter self).

Definition encoded_size (self : t) : Z :=
  let counter_size := 4 + GCounter.node_count_total (counter self) * 12 in
  let peripheral_size :=
    match peripheral self with Some p => 4 + zlen (Peripheral.encode p) | None => 0 end in
  let emergency_size :=
    match emergency self with Some e => 4 + zlen (EmergencyEvent.encode e) | None => 0 end in
  let chat_size :=
    if legacy_chat then
      match chat self with
      | Some c => if negb (ChatCRDT.is_empty c) then 4 + ChatCRDT.encoded_size c else 0
      | None => 0
      end
    else 0 in
  8 + counter_size + peripheral_size + emergency_size + chat_size.
Definition exceeds_target_size (self : t) : bool := TARGET_DOCUMENT_SIZE <? encoded_size self.
Definition exceeds_max_size (self : t) : bool := MAX_DOCUMENT_SIZE <? encoded_size self.

(** Well-formed documents of this build: the chat field exists only with the
    feature, and an empty chat is not sent. *)
Definition wf (self : t) : Prop :=
  in_u 32 (version self) ∧ in_u 32 (node_id self) ∧ GCounter.wf (counter self) ∧
  (∀ p, peripheral self = Some p → Peripheral.wf p) ∧
  (∀ e, emergency self = Some e → EmergencyEvent.wf e) ∧
  (∀ c, chat self = Some c → legacy_chat = true ∧ ChatCRDT.wf c).
Definition sendable (self : t) : Prop :=
  ∀ c, chat self = Some c →
    ChatCRDT.is_empty c = false ∧ zlen (ChatCRDT.encode c) < 2 ^ 16.

End feature.

End PeatDocument.

Module MergeResult.
Record t := mk {
  source_node : Z; event : option PeripheralEvent.t; peer_peripheral : option Peripheral.t;
  counter_changed : bool; emergency_changed : bool; chat_changed : bool; total_count : Z
}.
Definition is_emergency (self : t) : bool :=
  match event self with
  | Some e => bool_decide (PeripheralEvent.event_type e = EventType.Emergency) | None => false
  end.
Definition is_ack (self : t) : bool :=
  match event self with
  | Some e => bool_decide (PeripheralEvent.event_type e = EventType.Ack) | None => false
  end.
End MergeResult.

#[export] Instance gcounter_wf_dec c : Decision (GCounter.wf c).
Proof. unfold GCounter.wf, GCounter.typed. apply _. Defined.
#[export] Instance emergency_wf_dec e : Decision (EmergencyEvent.wf e).
Proof. unfold EmergencyEvent.wf. apply _. Defined.
#[export] Instance document_wf_dec lc d : Decision (PeatDocument.wf lc d).
Proof. unfold PeatDocument.wf. apply _. Defined.
#[export] Instance document_sendable_dec d : Decision (PeatDocument.sendable d).
Proof. unfold PeatDocument.sendable. apply _. Defined.

(** * Theorems *)

Module DocumentProofs.
Import PeatDocument.

(** ** Sections *)

Lemma read_section_ok pre marker body suf :
  zlen body < 2 ^ 16 →
  read_section (pre ++ encode_section marker body ++ suf) (zlen pre)
  = Ok (Some (body, zlen pre + zlen (encode_section marker body))).
Proof.
  intros Hb. unfold read_section, encode_section. rewrite wrap_small by lia.
  rewrite <-!app_assoc. cbn [app].
  replace (_ <? _) with false by (symmetry; bdec).
  rd. replace (_ <? _) with false by (symmetry; bdec). rd.
  do 3 f_equal. len.
Qed.
Lemma section_marker pre marker body suf :
  byte_ok marker →
  u8_at (pre ++ encode_section marker body ++ suf) (zlen pre) = Ok marker.
Proof. intros. unfold encode_section. rewrite <-!app_assoc. cbn [app]. by rd. Qed.
Lemma encode_section_length marker body :
  zlen (encode_section marker body) = 4 + zlen body.
Proof. unfold encode_section. len. Qed.

Lemma read_section_wp data offset :
  bytes_ok data → 0 ≤ offset →
  wp (read_section data offset) (λ r, ∀ body next, r = Some (body, next) →
    bytes_ok body ∧ offset + 4 ≤ next ≤ zlen data).
Proof.
  intros Hb Ho. unfold read_section. wp_steps; intros body next [=]; subst.
  split; [done|lia].
Qed.

(** The section bodies, as clients of their codecs. *)
#[global] Instance peripheral_codec :
  WireCodec Peripheral.encode Peripheral.decode Peripheral.wf.
Proof.
  split; intros.
  - by apply PeripheralProofs.peripheral_encode_bytes.
  - rewrite <-(app_nil_r (Peripheral.encode a)).
    by apply PeripheralProofs.peripheral_decode_encode.
  - by apply PeripheralProofs.peripheral_decode_wp.
Qed.
#[global] Instance emergency_codec :
  WireCodec EmergencyEvent.encode EmergencyEvent.decode EmergencyEvent.wf.
Proof.
  split; intros.
  - by apply EmergencyEventProofs.emergency_encode_bytes.
  - rewrite <-(app_nil_r (EmergencyEvent.encode a)).
    by apply EmergencyEventProofs.emergency_decode_encode.
  - by apply EmergencyEventProofs.emergency_decode_wp.
Qed.
#[global] Instance chat_codec : WireCodec ChatCRDT.encode ChatCRDT.decode ChatCRDT.wf.
Proof.
  split; intros; [by apply ChatProofs.chat_crdt_encode_bytes|by apply ChatProofs.chat_decode_encode
    |by apply ChatProofs.chat_decode_wp].
Qed.

Section feature.
Context (lc : bool).

(** What a section contributes to the parser's state. *)
Definition section_step (marker : Z) (body : list Z) (st : sections) : outcome sections :=
  let '(p, e, c) := st in
  if marker =? EXTENDED_MARKER then
    let! p := opt (Peripheral.decode body) in Ok (p, e, c)
  else if marker =? EMERGENCY_MARKER then
    let! e := opt (EmergencyEvent.decode body) in Ok (p, e, c)
  else
    let! c := if lc then opt (ChatCRDT.decode body) else Ok c in Ok (p, e, c).

Lemma parse_section fuel pre marker body suf data off st st' :
  marker ∈ [EXTENDED_MARKER; EMERGENCY_MARKER; CHAT_MARKER] →
  zlen body < 2 ^ 16 → off = zlen pre → data = pre ++ encode_section marker body ++ suf →
  section_step marker body st = Ok st' →
  parse_sections lc (S fuel) data off st
  = parse_sections lc fuel data (off + zlen (encode_section marker body)) st'.
Proof.
  intros Hm Hb -> -> Hst. cbn [parse_sections].
  pose proof (encode_section_length marker body) as Hlen.
  replace (_ <? _) with true by (symmetry; apply Z.ltb_lt; len).
  destruct st as [[p e] c].
  assert (byte_ok marker) as Hmb.
  { rewrite !elem_of_cons, elem_of_nil in Hm.
    unfold EXTENDED_MARKER, EMERGENCY_MARKER, CHAT_MARKER in Hm. lia. }
  rewrite section_marker, read_section_ok by done. cbn [obind].
  unfold section_step in Hst. rewrite !elem_of_cons, elem_of_nil in Hm.
  destruct Hm as [->|[->|[->|[]]]]; cbn [Z.eqb Pos.eqb EXTENDED_MARKER EMERGENCY_MARKER CHAT_MARKER] in *.
  - destruct (Peripheral.decode body); cbn in *; by simplify_eq.
  - destruct (EmergencyEvent.decode body); cbn in *; by simplify_eq.
  - destruct lc; [destruct (ChatCRDT.decode body)|]; cbn in *; by simplify_eq.
Qed.

Lemma parse_end fuel data off st :
  off = zlen data → parse_sections lc fuel data off st = Ok st.
Proof. intros ->. destruct fuel; cbn; by rewrite Z.ltb_irrefl. Qed.

(** An optional section is parsed, or absent; in both cases what remains
    is parsed with enough fuel. *)
Lemma parse_optional fuel pre marker (body : option (list Z)) suf data off st st' R :
  marker ∈ [EXTENDED_MARKER; EMERGENCY_MARKER; CHAT_MARKER] →
  (∀ b, body = Some b → zlen b < 2 ^ 16) → off = zlen pre →
  data = pre ++ optional_section marker body ++ suf →
  match body with Some b => section_step marker b st = Ok st' | None => st' = st end →
  (∀ fuel', (fuel ≤ fuel')%nat →
    parse_sections lc fuel' data (off + zlen (optional_section marker body)) st' = R) →
  parse_sections lc (S fuel) data off st = R.
Proof.
  intros Hm Hb -> Hdata Hst HR. destruct body as [b|]; cbn [optional_section] in *.
  - rewrite (parse_section fuel pre marker b suf data _ st st'); auto.
  - subst st'. rewrite <-(HR (S fuel)) by lia. f_equal. cbn. lia.
Qed.

Lemma document_decode_encode d :
  wf lc d → sendable d → decode lc (encode lc d) = Ok d.
Proof.
  destruct d as [v n cnt p e c]. intros (Hv & Hn & Hcnt & Hp & He & Hc) Hsend.
  cbn [version node_id counter peripheral emergency chat] in *.
  pose proof (GCounterProofs.gcounter_zlen_encode cnt) as Hlen.
  unfold decode, encode, MIN_DOCUMENT_SIZE.
  cbn [version node_id counter peripheral emergency chat].
  set (s1 := optional_section EXTENDED_MARKER _).
  set (s2 := optional_section EMERGENCY_MARKER _).
  set (s3 := optional_section CHAT_MARKER _).
  rd. rewrite GCounterProofs.gcounter_decode_encode by done. cbn [obind]. rd.
  rewrite GCounterProofs.gcounter_count_read by done. cbn [obind].
  set (pre := le 4 v ++ le 4 n ++ GCounter.encode cnt).
  assert (12 + Z.of_nat (size (GCounter.counts cnt)) * 12 = zlen pre) as -> by (unfold pre; len).
  set (data := le 4 v ++ _).
  assert (data = pre ++ s1 ++ s2 ++ s3) as Hdata by (unfold data, pre; by rewrite <-!app_assoc).
  assert (∃ fuel, length data = S (S (S fuel))) as [fuel ->].
  { assert (3 ≤ length data)%nat as H3 by (unfold data; len).
    destruct (length data) as [|[|[|fuel]]]; [lia..|by exists fuel]. }
  enough (parse_sections lc (S (S (S fuel))) data (zlen pre) (None, None, None) = Ok (p, e, c))
    as -> by done.
  apply (parse_optional _ pre EXTENDED_MARKER (Peripheral.encode <$> p) (s2 ++ s3) _ _ _ (p, None, None));
    [set_solver| |done|done| |].
  { intros b Hb. destruct p as [p|]; [|done]. injection Hb as <-.
    pose proof (PeripheralProofs.peripheral_encode_length p) as Hl.
    destruct (Hp p eq_refl) as (_ & _ & _ & (Hcs & _) & _). specialize (Hl Hcs). lia. }
  { destruct p as [p|]; [|done]. cbn [fmap option_fmap option_map section_step].
    by rewrite (wire_roundtrip (dec := Peripheral.decode)) by auto. }
  fold s1. intros fuel1 Hf1. destruct fuel1 as [|fuel1]; [lia|].
  apply (parse_optional _ (pre ++ s1) EMERGENCY_MARKER (EmergencyEvent.encode <$> e) s3 _ _ _ (p, e, None));
    [set_solver| |len|by rewrite <-app_assoc| |].
  { intros b Hb. destruct e as [e|]; [|done]. injection Hb as <-.
    rewrite EmergencyEventProofs.emergency_zlen_encode.
    destruct (He e eq_refl) as (_ & _ & _ & _ & _ & Hs). unfold MAX_EMERGENCY_ACKS in Hs. lia. }
  { destruct e as [e|]; [|done]. cbn [fmap option_fmap option_map section_step].
    by rewrite (wire_roundtrip (dec := EmergencyEvent.decode)) by auto. }
  fold s2. intros fuel2 Hf2. destruct fuel2 as [|fuel2]; [lia|].
  apply (parse_optional _ (pre ++ s1 ++ s2) CHAT_MARKER (chat_data lc (mk v n cnt p e c)) [] _ _ _ (p, e, c));
    [set_solver| |len|by rewrite app_nil_r, <-!app_assoc| |].
  { intros b Hb. unfold chat_data in Hb. cbn [chat] in Hb. destruct lc; [|done].
    destruct c as [c|]; [|done]. destruct (Hsend c eq_refl) as [Hemp Hl].
    rewrite Hemp in Hb. by injection Hb as <-. }
  { unfold chat_data. cbn [chat]. destruct c as [c|]; [|by destruct lc].
    destruct (Hc c eq_refl) as [Hlc Hwf], (Hsend c eq_refl) as [Hne _]. rewrite Hlc, Hne.
    cbn [negb section_step]. cbn [Z.eqb Pos.eqb EXTENDED_MARKER EMERGENCY_MARKER CHAT_MARKER].
    by rewrite Hlc, (wire_roundtrip (dec := ChatCRDT.decode)) by done. }
  fold s3. intros fuel3 _. apply parse_end. rewrite Hdata. len.
Qed.

Lemma parse_sections_wp fuel data off st :
  bytes_ok data → 0 ≤ off → zlen data - off ≤ 4 * Z.of_nat fuel →
  (let '(p, e, c) := st in
   (∀ x, p = Some x → Peripheral.wf x) ∧ (∀ x, e = Some x → EmergencyEvent.wf x) ∧
   (∀ x, c = Some x → lc = true ∧ ChatCRDT.wf x)) →
  wp (parse_sections lc fuel data off st) (λ '(p, e, c),
   (∀ x, p = Some x → Peripheral.wf x) ∧ (∀ x, e = Some x → EmergencyEvent.wf x) ∧
   (∀ x, c = Some x → lc = true ∧ ChatCRDT.wf x)).
Proof.
  intros Hb. revert off st. induction fuel as [|fuel IH]; intros off [[p e] c] Ho Hf Hst;
    cbn [parse_sections].
  { by rewrite (proj2 (Z.ltb_ge _ _)) by lia. }
  apply wp_if; intros E; [|done]. wp_step. wp_step.
  repeat (apply wp_if; intros ?); [..|done]; apply wp_bind;
    (eapply wp_mono; [by apply read_section_wp|]); intros [[body next]|] Hr; try done;
    destruct (Hr _ _ eq_refl) as [Hbody Hnext]; apply wp_bind.
  - eapply wp_mono; [by apply wp_opt, wire_safe|].
    intros p' Hp'. apply IH; [lia|lia|]. by destruct Hst as (_ & ? & ?).
  - eapply wp_mono; [by apply wp_opt, wire_safe|].
    intros e' He'. apply IH; [lia|lia|]. by destruct Hst as (? & _ & ?).
  - destruct lc.
    + eapply wp_mono; [by apply wp_opt, wire_safe|].
      intros c' Hc'. apply IH; [lia|lia|]. destruct Hst as (? & ? & _). split_and!; auto.
    + apply wp_ok. apply IH; [lia|lia|done].
Qed.

Lemma document_decode_wp data : bytes_ok data → wp (decode lc data) (wf lc).
Proof.
  intros Hb. unfold decode, MIN_DOCUMENT_SIZE. wp_steps. destruct_and!. wp_steps.
  eapply wp_mono; [apply parse_sections_wp; [done|lia|lia|]|].
  - split_and!; done.
  - intros [[p e] c] (Hp & He & Hc). apply wp_ok. by split_and!.
Qed.

(** ** Size *)

Lemma chat_encoded_size c : ChatCRDT.encoded_size c = zlen (ChatCRDT.encode c).
Proof.
  unfold ChatCRDT.encoded_size, ChatCRDT.encode.
  induction (ChatCRDT.all_messages c) as [|m l IH]; cbn [map zsum flat_map]; [len|].
  autorewrite with len in *. lia.
Qed.
Lemma document_size d : encoded_size lc d = zlen (encode lc d).
Proof.
  unfold encoded_size, encode, chat_data, GCounter.node_count_total.
  pose proof (GCounterProofs.gcounter_zlen_encode (counter d)).
  destruct (peripheral d), (emergency d), (chat d) as [c|], lc;
    try destruct (negb (ChatCRDT.is_empty c));
    cbn [optional_section fmap option_fmap option_map]; unfold encode_section;
    rewrite ?chat_encoded_size; len.
Qed.

(** ** Merge *)

Lemma counter_mono a b :
  GCounter.typed a → GCounter.typed b →
  GCounterProofs.total (GCounter.counts a)
    ≤ GCounterProofs.total (GCounter.counts (GCounter.merge a b)) ∧
  (GCounterProofs.total (GCounter.counts a)
     = GCounterProofs.total (GCounter.counts (GCounter.merge a b)) ↔
   ∀ n, GCounter.node_count b n ≤ GCounter.node_count a n).
Proof.
  intros Ha Hb.
  pose proof (GCounterProofs.typed_nonneg _ Ha) as Hna.
  pose proof (GCounterProofs.typed_nonneg _ (GCounterProofs.merge_typed _ _ Ha Hb)) as Hnm.
  assert (∀ n, GCounter.node_count (GCounter.merge a b) n
    = Z.max (GCounter.node_count a n) (GCounter.node_count b n)) as Hmax
    by (intros; by apply GCounterProofs.node_count_merge).
  destruct (GCounterProofs.total_mono _ _ Hna Hnm) as [Hle Heq].
  { intros k. specialize (Hmax k). unfold GCounter.node_count in Hmax. lia. }
  split; [done|]. split.
  - intros E n. specialize (Heq E n). specialize (Hmax n).
    unfold GCounter.node_count in *. lia.
  - intros Hba. apply Z.le_antisymm; [done|].
    apply (GCounterProofs.total_mono _ _ Hnm Hna). intros k.
    specialize (Hmax k). specialize (Hba k). unfold GCounter.node_count in *. lia.
Qed.

Definition counter_total (c : GCounter.t) : Z := GCounterProofs.total (GCounter.counts c).
Definition counter_news (a b : GCounter.t) : Prop :=
  ∃ n, GCounter.node_count a n < GCounter.node_count b n.

Lemma merge_counter_ok a b :
  GCounter.typed a → GCounter.typed b → counter_total (GCounter.merge a b) < 2 ^ 64 →
  ∃ changed, merge_counter a b = Ok (GCounter.merge a b, changed) ∧
             (changed = true ↔ counter_news a b).
Proof.
  intros Ha Hb Ht. unfold merge_counter, counter_total in *.
  pose proof (GCounterProofs.merge_typed _ _ Ha Hb) as Hm.
  destruct (counter_mono a b Ha Hb) as [Hle Heq].
  rewrite !GCounterProofs.value_spec by done.
  rewrite !(proj2 (Z.ltb_lt _ _)) by lia. cbn [obind]. eexists. split; [done|].
  rewrite negb_true_iff, Z.eqb_neq. split.
  - intros Hne.
    destruct (decide (set_Exists (λ n, GCounter.node_count a n < GCounter.node_count b n)
      (dom (GCounter.counts b)))) as [(n & _ & Hn)|Hno]; [by exists n|].
    destruct Hne. symmetry. apply Heq. intros n. apply Z.nlt_ge. intros Hn.
    apply Hno. exists n. split; [|done]. apply elem_of_dom.
    destruct (GCounter.counts b !! n) eqn:E; [done|].
    pose proof (Replicas.node_count_bound a n Ha) as Hna.
    unfold GCounter.node_count in Hn, Hna. rewrite E in Hn. cbn in Hn. lia.
  - intros [n Hn] E. symmetry in E. pose proof (proj1 Heq E n). lia.
Qed.
Lemma merge_counter_panics a b :
  GCounter.typed a → GCounter.typed b → 2 ^ 64 ≤ counter_total (GCounter.merge a b) →
  merge_counter a b = Panic.
Proof.
  intros Ha Hb Ht. unfold merge_counter, counter_total in *.
  pose proof (GCounterProofs.merge_typed _ _ Ha Hb) as Hm.
  rewrite !GCounterProofs.value_spec by done.
  rewrite (proj2 (Z.ltb_ge (GCounterProofs.total (GCounter.counts (GCounter.merge a b))) _)) by lia.
  by destruct (_ <? _).
Qed.

(** An emergency the receiver lacks, a later one, or an acknowledgement of
    the same one it has not seen. *)
Definition emergency_news (o o' : option EmergencyEvent.t) : Prop :=
  match o', o with
  | Some e', Some e =>
      (EmergencyEventProofs.same_event e e' ∧
       ∃ k, EmergencyEvent.acks e' !! k = Some true ∧ EmergencyEvent.has_acked e k = false) ∨
      (¬ EmergencyEventProofs.same_event e e' ∧
       EmergencyEvent.timestamp e < EmergencyEvent.timestamp e')
  | Some _, None => True
  | None, _ => False
  end.
Lemma merge_emergency_changed o o' :
  (merge_emergency o o').2 = true ↔ emergency_news o o'.
Proof.
  destruct o' as [e'|], o as [e|]; cbn; try done.
  assert ((let '(x, changed) := EmergencyEvent.merge e e' in (Some x, changed)).2
    = (EmergencyEvent.merge e e').2) as -> by by destruct (EmergencyEvent.merge e e').
  destruct (decide (EmergencyEvent.source_node e = EmergencyEvent.source_node e' ∧
    EmergencyEvent.timestamp e = EmergencyEvent.timestamp e')) as [Hs|Hs].
  - rewrite EmergencyEventProofs.merge_same_changed by done.
    unfold EmergencyEventProofs.same_event. tauto.
  - rewrite EmergencyEventProofs.merge_diff by done. unfold EmergencyEventProofs.same_event.
    destruct (_ <? _) eqn:E; cbn; intuition lia.
Qed.
Lemma merge_emergency_join o o' :
  (merge_emergency o o').1 = option_join EmergencyEventProofs.join o o'.
Proof.
  destruct o' as [e'|], o as [e|]; cbn; try done. unfold EmergencyEventProofs.join.
  by destruct (EmergencyEvent.merge e e').
Qed.

Definition chat_messages (o : option ChatCRDT.t) : gmap Z ChatMessage.t :=
  from_option ChatCRDT.messages ∅ o.
Definition chat_news (o o' : option ChatCRDT.t) : Prop :=
  lc = true ∧ ∃ k, is_Some (chat_messages o' !! k) ∧ chat_messages o !! k = None.
Lemma chat_nonempty c :
  ChatCRDT.is_empty c = false ↔ ∃ k, is_Some (ChatCRDT.messages c !! k).
Proof.
  unfold ChatCRDT.is_empty. rewrite Nat.eqb_neq. split.
  - intros Hs. destruct (map_choose (ChatCRDT.messages c)) as (k & v & Hk); [|eauto].
    intros E. rewrite E in Hs. done.
  - intros (k & v & Hk) Hs. apply map_size_empty_inv in Hs. rewrite Hs in Hk. done.
Qed.
Lemma merge_chat_changed o o' : (merge_chat lc o o').2 = true ↔ chat_news o o'.
Proof.
  unfold merge_chat, chat_news. destruct lc; [|by split; [|intros [? _]]].
  destruct o' as [c'|], o as [c|]; cbn [from_option chat_messages].
  - pose proof (proj2 (ChatProofs.chat_merge_spec c c')) as Hc.
    destruct (ChatCRDT.merge c c'). cbn in *. rewrite Hc. tauto.
  - destruct (ChatCRDT.is_empty c') eqn:E; cbn.
    + split; [done|]. intros (_ & k & Hk & _).
      assert (ChatCRDT.is_empty c' = false) by (apply chat_nonempty; eauto). congruence.
    + split; [|done]. intros _. apply chat_nonempty in E as [k Hk]. split; [done|]. by exists k.
  - split; [done|]. by intros (_ & k & [? Hk] & _).
  - split; [done|]. by intros (_ & k & [? Hk] & _).
Qed.

(** What a merge must keep: everything but the peripheral and the header. *)
Definition shared (d : t) : GCounter.t * (option EmergencyEvent.t * option ChatCRDT.t) :=
  (counter d, (emergency d, chat d)).
Definition news (d d' : t) : Prop :=
  counter_news (counter d) (counter d') ∨ emergency_news (emergency d) (emergency d')
  ∨ chat_news (chat d) (chat d').

Lemma document_merge_ok d d' :
  GCounter.typed (counter d) → GCounter.typed (counter d') →
  counter_total (GCounter.merge (counter d) (counter d')) < 2 ^ 64 →
  ∃ changed, (changed = true ↔ news d d') ∧
    merge lc d d' = Ok (mk (if changed then wrapping_add 32 (version d) 1 else version d)
      (node_id d) (GCounter.merge (counter d) (counter d')) (peripheral d)
      (merge_emergency (emergency d) (emergency d')).1
      (merge_chat lc (chat d) (chat d')).1, changed).
Proof.
  intros Hd Hd' Ht. destruct (merge_counter_ok _ _ Hd Hd' Ht) as (ch & Em & Hch).
  unfold merge. rewrite Em. cbn [obind].
  pose proof (merge_emergency_changed (emergency d) (emergency d')) as He.
  pose proof (merge_chat_changed (chat d) (chat d')) as Hc.
  destruct (merge_emergency _ _) as [e che], (merge_chat _ _) as [c chc]. cbn [fst snd] in *.
  exists (ch || che || chc). split; [|by destruct (ch || che || chc)].
  unfold news. rewrite !orb_true_iff, Hch, He, Hc. tauto.
Qed.

(** ** Convergence *)

Section valid.
Context (src : Z → Z) (content : Z → ChatMessage.t).

(** Chats that are never kept empty, of builds that have the feature. *)
Definition doc_chat_valid (c : ChatCRDT.t) : Prop :=
  lc = true ∧ ChatCRDT.is_empty c = false ∧ ChatProofs.chat_valid content c.
Definition chat_join_fn (a b : ChatCRDT.t) : ChatCRDT.t := (ChatCRDT.merge a b).1.

#[local] Instance doc_chat_join : JoinCrdt ChatCRDT.t doc_chat_valid chat_join_fn.
Proof.
  pose proof (ChatProofs.chat_join content) as HJ. unfold chat_join_fn. split.
  - intros a b (? & Ha0 & Ha) (_ & Hb0 & Hb). split_and!; [done| |by apply HJ].
    unfold ChatCRDT.is_empty. rewrite (ChatProofs.chat_merge_prune content), ChatProofs.prune_size
      by done.
    apply chat_nonempty in Ha0 as [k Hk]. apply Nat.eqb_neq.
    assert (size (ChatCRDT.messages a ∪ ChatCRDT.messages b) ≠ 0%nat); [|lia].
    intros E%map_size_empty_inv. destruct Hk as [v Hk].
    assert ((ChatCRDT.messages a ∪ ChatCRDT.messages b) !! k = Some v) as Hu
      by by apply lookup_union_Some_l.
    rewrite E in Hu. done.
  - intros a (_ & _ & Ha). by apply HJ.
  - intros a b (_ & _ & Ha) (_ & _ & Hb). by apply HJ.
  - intros a b c (_ & _ & Ha) (_ & _ & Hb) (_ & _ & Hc). by apply HJ.
Qed.

Definition shared_join := prod_join GCounter.merge
  (prod_join (option_join EmergencyEventProofs.join) (option_join chat_join_fn)).
Definition shared_valid
    (x : GCounter.t * (option EmergencyEvent.t * option ChatCRDT.t)) : Prop :=
  GCounter.typed x.1 ∧
  (∀ e, x.2.1 = Some e → EmergencyEventProofs.valid src e) ∧
  (∀ c, x.2.2 = Some c → doc_chat_valid c).

#[local] Instance shared_crdt : JoinCrdt _ shared_valid shared_join.
Proof.
  pose proof (EmergencyEventProofs.emergency_join src) as He.
  assert (JoinCrdt _ (λ y, (∀ e, y.1 = Some e → EmergencyEventProofs.valid src e) ∧
          (∀ c, y.2 = Some c → doc_chat_valid c))
    (prod_join (option_join EmergencyEventProofs.join) (option_join chat_join_fn))).
  { exact (prod_join_crdt (λ o, ∀ e, o = Some e → EmergencyEventProofs.valid src e)
      (λ o, ∀ c, o = Some c → doc_chat_valid c) _ _). }
  exact (prod_join_crdt GCounter.typed
    (λ y, (∀ e, y.1 = Some e → EmergencyEventProofs.valid src e) ∧
          (∀ c, y.2 = Some c → doc_chat_valid c)) GCounter.merge
    (prod_join (option_join EmergencyEventProofs.join) (option_join chat_join_fn))).
Qed.

Lemma merge_chat_join o o' :
  (∀ c, o = Some c → doc_chat_valid c) → (∀ c, o' = Some c → doc_chat_valid c) →
  (merge_chat lc o o').1 = option_join chat_join_fn o o'.
Proof.
  intros Ho Ho'. unfold merge_chat, chat_join_fn.
  destruct o' as [c'|], o as [c|]; cbn; try (by destruct lc).
  - destruct (Ho' _ eq_refl) as (-> & _). by destruct (ChatCRDT.merge c c').
  - destruct (Ho' _ eq_refl) as (-> & -> & _). done.
Qed.
End valid.

(** Merging a list of received documents. *)
Definition merge_all (s : t) (us : list t) : outcome t :=
  foldl (λ acc u, let! d := acc in let! r := merge lc d u in Ok r.1) (Ok s) us.

Lemma merge_all_cons s u us :
  merge_all s (u :: us) = let! r := merge lc s u in merge_all r.1 us.
Proof.
  unfold merge_all. cbn [foldl obind]. destruct (merge lc s u) as [r| |]; [done|..];
    cbn; induction us; cbn; auto.
Qed.

Lemma counter_total_upper (c : GCounter.t) us :
  GCounter.typed c → (∀ u, u ∈ us → GCounter.typed u) →
  counter_total c ≤ counter_total (foldl GCounter.merge c us).
Proof.
  revert c. induction us as [|u us IH]; intros c Hc Hus; cbn; [lia|].
  transitivity (counter_total (GCounter.merge c u)).
  - apply counter_mono; set_solver.
  - apply IH; [apply GCounterProofs.merge_typed|]; set_solver.
Qed.

Lemma merge_all_ok src content s us :
  shared_valid src content (shared s) →
  (∀ u, u ∈ us → shared_valid src content (shared u)) →
  counter_total (foldl GCounter.merge (counter s) (counter <$> us)) < 2 ^ 64 →
  ∃ d, merge_all s us = Ok d ∧ shared d = foldl shared_join (shared s) (shared <$> us) ∧
       node_id d = node_id s ∧ peripheral d = peripheral s.
Proof.
  revert s. induction us as [|u us IH]; intros s Hs Hus Ht.
  { by exists s. }
  rewrite merge_all_cons. cbn [fmap list_fmap foldl] in *.
  assert (shared_valid src content (shared u)) as Hu by (apply Hus; set_solver).
  assert (∀ c, c ∈ counter <$> us → GCounter.typed c) as Htyped.
  { intros c (x & -> & Hx)%list_elem_of_fmap. by apply Hus; set_solver. }
  assert (GCounter.typed (counter s) ∧ GCounter.typed (counter u)) as [Hcs Hcu]
    by (split; [apply Hs|apply Hu]).
  destruct (document_merge_ok s u Hcs Hcu) as (ch & _ & ->).
  { eapply Z.le_lt_trans; [|exact Ht]. apply counter_total_upper; [|done].
    by apply GCounterProofs.merge_typed. }
  cbn [obind fst].
  match goal with |- context [merge_all ?x us] => set (s1 := x) end.
  assert (shared s1 = shared_join (shared s) (shared u)) as Hs1.
  { unfold shared, s1, shared_join, prod_join. cbn. do 2 f_equal.
    - apply merge_emergency_join.
    - apply (merge_chat_join content); [apply Hs|apply Hu]. }
  destruct (IH s1) as (d & Hd & Hsh & Hn & Hp).
  - rewrite Hs1. by apply (join_valid (JoinCrdt := shared_crdt src content)).
  - intros x Hx. apply Hus. set_solver.
  - done.
  - exists d. split_and!; [done| |done|done]. by rewrite Hsh, Hs1.
Qed.

End feature.
End DocumentProofs.

#[export] Hint Resolve DocumentProofs.document_decode_wp : wp.

Module DocumentProperties.
Import DocumentProofs.

(** A document with every section; both builds of the samples below are the
    [legacy_chat] ones. *)
Definition sample_peripheral : Peripheral.t :=
  Peripheral.set_event (Peripheral.new 7 PeripheralType.SoldierSensor) EventType.NeedAssist
    1705276800000.
Definition sample_document (n : Z) : PeatDocument.t :=
  let d := PeatDocument.with_peripheral (PeatDocument.new n) sample_peripheral in
  let d := PeatDocument.set_emergency d n (1705276800000 + n) [1; 2; 3] in
  (PeatDocument.add_chat_message d n 1705276800000 [65] [104; 105]).1.

(** Document round trip.  Every well-formed document, whatever sections
    it holds, is decoded to itself from its encoding, and [encoded_size]
    announces the exact number of bytes. *)
Theorem document_roundtrip (legacy_chat : bool) (d : PeatDocument.t) :
  PeatDocument.wf legacy_chat d → PeatDocument.sendable d →
  PeatDocument.decode legacy_chat (PeatDocument.encode legacy_chat d) = Ok d ∧
  zlen (PeatDocument.encode legacy_chat d) = PeatDocument.encoded_size legacy_chat d.
Proof.
  intros. split; [by apply document_decode_encode|by rewrite document_size].
Qed.

Lemma document_roundtrip_witness :
  let d := sample_document 1 in
  PeatDocument.decode true (PeatDocument.encode true d) = Ok d ∧
  zlen (PeatDocument.encode true d) = PeatDocument.encoded_size true d.
Proof. intros d. apply (document_roundtrip true d); by_decide. Defined.

(** Decoding any received bytes ends without an out-of-bounds access or
    an overflow, and a document it returns is well formed. *)
Theorem document_decode_safe (legacy_chat : bool) (data : list Z) :
  bytes_ok data →
  PeatDocument.decode legacy_chat data ≠ Panic ∧
  ∀ d, PeatDocument.decode legacy_chat data = Ok d → PeatDocument.wf legacy_chat d.
Proof.
  intros Hb. pose proof (document_decode_wp legacy_chat data Hb) as Hwp.
  split; [by eapply wp_safe|]. intros d Hd. by eapply wp_elim.
Qed.

(** An unknown section stops the parser; the document before it is kept. *)
Lemma document_decode_safe_witness :
  let data := PeatDocument.encode true (sample_document 1) ++ [0x42; 1; 2] in
  PeatDocument.decode true data ≠ Panic ∧
  ∀ d, PeatDocument.decode true data = Ok d → PeatDocument.wf true d.
Proof. intros data. apply (document_decode_safe true data). by_decide. Defined.

(** The document's wire format.  A document is read back as it was, with
    every optional section, and its announced size is exact; decoding any
    received bytes ends without an out-of-bounds access or an overflow, and
    what it returns is well formed. *)
Theorem document_codec (legacy_chat : bool) (d : PeatDocument.t) (data : list Z) :
  PeatDocument.wf legacy_chat d → PeatDocument.sendable d → bytes_ok data →
  PeatDocument.decode legacy_chat (PeatDocument.encode legacy_chat d) = Ok d
  ∧ zlen (PeatDocument.encode legacy_chat d) = PeatDocument.encoded_size legacy_chat d
  ∧ wp (PeatDocument.decode legacy_chat data) (PeatDocument.wf legacy_chat).
Proof.
  intros. split_and!; [by apply document_decode_encode|by rewrite document_size|].
  by apply document_decode_wp.
Qed.
Lemma document_codec_witness :
  let data := PeatDocument.encode true (sample_document 1) ++ [0x42; 1; 2] in
  PeatDocument.decode true (PeatDocument.encode true (sample_document 1)) = Ok (sample_document 1)
  ∧ zlen (PeatDocument.encode true (sample_document 1))
    = PeatDocument.encoded_size true (sample_document 1)
  ∧ wp (PeatDocument.decode true data) (PeatDocument.wf true).
Proof. intros data. apply (document_codec true (sample_document 1) data); by_decide. Defined.

(** What a merge does, on every branch.  When the merged total overflows
    [u64] the merge panics.  Otherwise it reports a change exactly when the
    received document brings news (a larger count, a later or better
    acknowledged emergency, an unseen chat message), the version moves exactly
    then, every count becomes the larger one, and the node's own identity and
    peripheral are kept. *)
Theorem document_merge_behaviour (legacy_chat : bool) (d d' : PeatDocument.t) :
  GCounter.typed (PeatDocument.counter d) → GCounter.typed (PeatDocument.counter d') →
  let merged := GCounter.merge (PeatDocument.counter d) (PeatDocument.counter d') in
  if 2 ^ 64 <=? counter_total merged
  then PeatDocument.merge legacy_chat d d' = Panic
  else ∃ r changed,
    PeatDocument.merge legacy_chat d d' = Ok (r, changed) ∧
    (changed = true ↔ news legacy_chat d d') ∧
    PeatDocument.version r = (if changed : bool then wrapping_add 32 (PeatDocument.version d) 1
                              else PeatDocument.version d) ∧
    (∀ n, GCounter.node_count (PeatDocument.counter r) n
          = Z.max (GCounter.node_count (PeatDocument.counter d) n)
                  (GCounter.node_count (PeatDocument.counter d') n)) ∧
    PeatDocument.node_id r = PeatDocument.node_id d ∧
    PeatDocument.peripheral r = PeatDocument.peripheral d.
Proof.
  intros Hd Hd' merged. subst merged. destruct (2 ^ 64 <=? _) eqn:E.
  - unfold PeatDocument.merge. rewrite merge_counter_panics; [done|done|done|lia].
  - destruct (document_merge_ok legacy_chat d d' Hd Hd') as (ch & Hch & ->); [lia|].
    eexists _, ch. split_and!; try done. cbn. intros n. by apply GCounterProofs.node_count_merge.
Qed.

(** Node 2's document is news to node 1. *)
Lemma document_merge_behaviour_witness :
  let d := sample_document 1 in
  let d' := sample_document 2 in
  ∃ r changed,
    PeatDocument.merge true d d' = Ok (r, changed) ∧
    (changed = true ↔ news true d d') ∧
    PeatDocument.version r = (if changed : bool then wrapping_add 32 (PeatDocument.version d) 1
                              else PeatDocument.version d) ∧
    (∀ n, GCounter.node_count (PeatDocument.counter r) n
          = Z.max (GCounter.node_count (PeatDocument.counter d) n)
                  (GCounter.node_count (PeatDocument.counter d') n)) ∧
    PeatDocument.node_id r = PeatDocument.node_id d ∧
    PeatDocument.peripheral r = PeatDocument.peripheral d.
Proof.
  intros d d'.
  pose proof (document_merge_behaviour true d d' ltac:(unfold GCounter.typed; by_decide)
    ltac:(unfold GCounter.typed; by_decide)) as H.
  exact H.
Defined.

(** A 36-byte document with two counts of [u64::MAX] is accepted by the
    decoder and makes the merge of any receiver panic. *)
Definition poison : list Z :=
  le 4 1 ++ le 4 9 ++ le 4 2 ++ le 4 1 ++ le 8 u64_max ++ le 4 2 ++ le 8 u64_max.
Example poisoned_counter :
  match PeatDocument.decode true poison with
  | Ok d => PeatDocument.merge true (PeatDocument.new 5) d = Panic
  | _ => False
  end.
Proof. vm_compute. reflexivity. Qed.



End DocumentProperties.
