(* ===== verification/DocSync.v ===== *)
(** * The locally owned document of src/src/document_sync.rs: the state a node
    shares, its updates, the documents it builds and the ones it merges.

    The fields of [DocumentSync] are behind locks and the version is an
    atomic; each method is modelled as one step on the state. *)

From Stdlib Require Import String.
From stdpp Require Import base numbers list gmap sets.
From S2P Require Import Prelude Crdt Sensor Chat Document.
Open Scope Z_scope.
Open Scope peat_scope.

Module DocumentSync.

Record t := mk {
  node_id : Z; counter : GCounter.t; peripheral : Peripheral.t;
  emergency : option EmergencyEvent.t; chat : option ChatCRDT.t; version : Z
}.

Definition with_peripheral_type (node_id : Z) (callsign : list Z) (ptype : PeripheralType.t) : t :=
  mk node_id GCounter.new (Peripheral.with_callsign (Peripheral.new node_id ptype) callsign)
    None None 1.
Definition new (node_id : Z) (callsign : list Z) : t :=
  with_peripheral_type node_id callsign PeripheralType.SoldierSensor.

Definition set_peripheral (self : t) (p : Peripheral.t) : t :=
  mk (node_id self) (counter self) p (emergency self) (chat self) (version self).
Definition set_emergency (self : t) (e : option EmergencyEvent.t) : t :=
  mk (node_id self) (counter self) (peripheral self) e (chat self) (version self).
Definition set_chat (self : t) (c : option ChatCRDT.t) : t :=
  mk (node_id self) (counter self) (peripheral self) (emergency self) c (version self).

(** [fetch_add] wraps around. *)
Definition bump_version (self : t) : t :=
  mk (node_id self) (counter self) (peripheral self) (emergency self) (chat self)
    (wrapping_add 32 (version self) 1).
Definition increment_counter_internal (self : t) : t :=
  bump_version (mk (node_id self) (GCounter.increment (counter self) (node_id self) 1)
    (peripheral self) (emergency self) (chat self) (version self)).

Definition total_count (self : t) : outcome Z := GCounter.value (counter self).
Definition local_count (self : t) : Z := GCounter.node_count (counter self) (node_id self).
Definition current_event (self : t) : option EventType.t :=
  PeripheralEvent.event_type <$> Peripheral.last_event (peripheral self).
Definition is_emergency_active (self : t) : bool :=
  bool_decide (current_event self = Some EventType.Emergency).
Definition is_ack_active (self : t) : bool :=
  bool_decide (current_event self = Some EventType.Ack).
Definition callsign (self : t) : list Z := Peripheral.callsign_str (peripheral self).

(** ** Updates of the peripheral *)

Definition clear_event (self : t) : t :=
  bump_version (set_peripheral self (Peripheral.clear_event (peripheral self))).
Definition increment_counter (self : t) : t := increment_counter_internal self.

Definition set_health (p : Peripheral.t) (h : HealthStatus.t) : Peripheral.t :=
  Peripheral.mk (Peripheral.id p) (Peripheral.parent_node p) (Peripheral.peripheral_type p)
    (Peripheral.callsign p) h (Peripheral.last_event p) (Peripheral.location p)
    (Peripheral.timestamp p).
Definition set_battery (p : Peripheral.t) (battery_percent : Z) : Peripheral.t :=
  let h := Peripheral.health p in
  set_health p (HealthStatus.mk battery_percent (HealthStatus.heart_rate h)
    (HealthStatus.activity h) (HealthStatus.alerts h)).
Definition set_activity (p : Peripheral.t) (activity : Z) : Peripheral.t :=
  let h := Peripheral.health p in
  set_health p (HealthStatus.mk (HealthStatus.battery_percent h) (HealthStatus.heart_rate h)
    activity (HealthStatus.alerts h)).
Definition set_heart_rate (p : Peripheral.t) (heart_rate : Z) : Peripheral.t :=
  let h := Peripheral.health p in
  set_health p (HealthStatus.mk (HealthStatus.battery_percent h) (Some heart_rate)
    (HealthStatus.activity h) (HealthStatus.alerts h)).
Definition set_timestamp (p : Peripheral.t) (ts : Z) : Peripheral.t :=
  Peripheral.mk (Peripheral.id p) (Peripheral.parent_node p) (Peripheral.peripheral_type p)
    (Peripheral.callsign p) (Peripheral.health p) (Peripheral.last_event p)
    (Peripheral.location p) ts.

Definition update_health (self : t) (battery_percent : Z) : t :=
  bump_version (set_peripheral self (set_battery (peripheral self) battery_percent)).
Definition update_activity (self : t) (activity : Z) : t :=
  bump_version (set_peripheral self (set_activity (peripheral self) activity)).
Definition update_health_full (self : t) (battery_percent activity : Z) : t :=
  bump_version (set_peripheral self
    (set_activity (set_battery (peripheral self) battery_percent) activity)).
Definition update_heart_rate (self : t) (heart_rate : Z) : t :=
  bump_version (set_peripheral self (set_heart_rate (peripheral self) heart_rate)).
Definition update_location (self : t) (latitude longitude : Z) (altitude : option Z) : t :=
  bump_version (set_peripheral self
    (Peripheral.set_location (peripheral self) latitude longitude altitude)).
Definition clear_location (self : t) : t :=
  bump_version (set_peripheral self (Peripheral.clear_location (peripheral self))).
Definition update_callsign (self : t) (callsign : list Z) : t :=
  bump_version (set_peripheral self (Peripheral.set_callsign (peripheral self) callsign)).
Definition set_peripheral_event (self : t) (event_type : EventType.t) (timestamp : Z) : t :=
  bump_version (set_peripheral self (Peripheral.set_event (peripheral self) event_type timestamp)).
Definition clear_peripheral_event (self : t) : t :=
  bump_version (set_peripheral self (Peripheral.clear_event (peripheral self))).

Definition update_peripheral_state (self : t) (callsign : list Z) (battery_percent : Z)
    (heart_rate latitude longitude altitude : option Z) (event_type : option EventType.t)
    (timestamp : Z) : t :=
  let p := Peripheral.set_callsign (peripheral self) callsign in
  let p := set_battery p battery_percent in
  let p := match heart_rate with Some hr => set_heart_rate p hr | None => p end in
  let p := match latitude, longitude with
           | Some lat, Some lon => Peripheral.set_location p lat lon altitude
           | _, _ => Peripheral.clear_location p
           end in
  let p := match event_type with Some evt => Peripheral.set_event p evt timestamp | None => p end in
  bump_version (set_peripheral self (set_timestamp p timestamp)).

(** ** The emergency *)

Definition has_active_emergency (self : t) : bool :=
  if emergency self is Some _ then true else false.
Definition get_emergency_status (self : t) : option (Z * Z * Z * Z) :=
  (λ e, (EmergencyEvent.source_node e, EmergencyEvent.timestamp e, EmergencyEvent.ack_count e,
         zlen (EmergencyEvent.pending_nodes e))) <$> emergency self.
Definition has_peer_acked (self : t) (peer_id : Z) : bool :=
  match emergency self with Some e => EmergencyEvent.has_acked e peer_id | None => false end.
Definition all_peers_acked (self : t) : bool :=
  match emergency self with Some e => EmergencyEvent.all_acked e | None => true end.

Definition clear_emergency (self : t) : t :=
  match emergency self with
  | Some _ =>
      let self := set_emergency self None in
      bump_version (set_peripheral self (Peripheral.clear_event (peripheral self)))
  | None => self
  end.

(** ** Chat *)

Definition add_chat (self : t) (msg : ChatMessage.t) : t * bool :=
  let our_chat := default ChatCRDT.new (chat self) in
  let '(our_chat, added) := ChatCRDT.add_message our_chat msg in
  let self := set_chat self (Some our_chat) in
  if added then (bump_version self, true) else (self, false).
Definition add_chat_message (self : t) (sender text : list Z) (timestamp : Z) : t * bool :=
  add_chat self (ChatMessage.new (node_id self) timestamp sender text).
Definition add_chat_reply (self : t) (sender text : list Z)
    (reply_to_node reply_to_timestamp timestamp : Z) : t * bool :=
  add_chat self (ChatMessage.set_reply_to (ChatMessage.new (node_id self) timestamp sender text)
                   reply_to_node reply_to_timestamp).
Definition chat_count (self : t) : Z :=
  match chat self with Some c => ChatCRDT.len c | None => 0 end.
Definition chat_messages_since (self : t) (since_timestamp : Z)
    : list (Z * Z * list Z * list Z * Z * Z) :=
  match chat self with
  | Some c =>
      map (λ m, (ChatMessage.origin_node m, ChatMessage.timestamp m, ChatMessage.sender_str m,
                 ChatMessage.text_str m, ChatMessage.reply_to_node m,
                 ChatMessage.reply_to_timestamp m)) (ChatCRDT.messages_since c since_timestamp)
  | None => []
  end.
Definition all_chat_messages (self : t) : list (Z * Z * list Z * list Z * Z * Z) :=
  chat_messages_since self 0.

Definition chat_snapshot (self : t) : option ChatCRDT.t := chat self.
Definition counter_entries (self : t) : list (Z * Z) := GCounter.entries (counter self).
Definition peripheral_snapshot (self : t) : Peripheral.t := peripheral self.
Definition emergency_snapshot (self : t) : option EmergencyEvent.t := emergency self.

(** ** Documents *)

Section feature.
Context (legacy_chat : bool).

Definition document (self : t) : PeatDocument.t :=
  PeatDocument.mk (version self) (node_id self) (counter self) (Some (peripheral self))
    (emergency self) (if legacy_chat then ChatCRDT.for_sync <$> chat self else None).
Definition build_document (self : t) : list Z := PeatDocument.encode legacy_chat (document self).

Definition send_emergency (self : t) (timestamp : Z) : t * list Z :=
  let self := set_peripheral self
    (Peripheral.set_event (peripheral self) EventType.Emergency timestamp) in
  let self := increment_counter_internal self in
  (self, build_document self).
Definition send_ack (self : t) (timestamp : Z) : t * list Z :=
  let self := set_peripheral self
    (Peripheral.set_event (peripheral self) EventType.Ack timestamp) in
  let self := increment_counter_internal self in
  (self, build_document self).

Definition start_emergency (self : t) (timestamp : Z) (known_peers : list Z) : t * list Z :=
  let self := set_emergency self (Some (EmergencyEvent.new (node_id self) timestamp known_peers)) in
  let self := set_peripheral self
    (Peripheral.set_event (peripheral self) EventType.Emergency timestamp) in
  let self := increment_counter_internal self in
  (self, build_document self).
Definition ack_emergency (self : t) (timestamp : Z) : t * option (list Z) :=
  match emergency self with
  | Some e =>
      let '(e, changed) := EmergencyEvent.ack e (node_id self) in
      let self := set_emergency self (Some e) in
      let self :=
        if changed then
          increment_counter_internal (set_peripheral self
            (Peripheral.set_event (peripheral self) EventType.Ack timestamp))
        else self in
      (self, Some (build_document self))
  | None => (self, None)
  end.

Definition merge_document (self : t) (data : list Z) : outcome (t * option MergeResult.t) :=
  let! decoded := opt (PeatDocument.decode legacy_chat data) in
  match decoded with
  | None => Ok (self, None)
  | Some received =>
      if PeatDocument.node_id received =? node_id self then Ok (self, None)
      else
        let! old_value := GCounter.value (counter self) in
        let merged := GCounter.merge (counter self) (PeatDocument.counter received) in
        let! new_value := GCounter.value merged in
        let counter_changed := negb (new_value =? old_value) in
        let '(emergency, emergency_changed) :=
          match PeatDocument.emergency received with
          | Some received_emergency =>
              match emergency self with
              | Some our_emergency =>
                  let '(e, changed) := EmergencyEvent.merge our_emergency received_emergency in
                  (Some e, changed)
              | None => (Some received_emergency, true)
              end
          | None => (emergency self, false)
          end in
        let '(chat, chat_changed) :=
          match (if legacy_chat then PeatDocument.chat received else None) with
          | Some received_chat =>
              if negb (ChatCRDT.is_empty received_chat) then
                match chat self with
                | Some our_chat =>
                    let '(c, changed) := ChatCRDT.merge our_chat received_chat in (Some c, changed)
                | None => (Some received_chat, true)
                end
              else (chat self, false)
          | None => (chat self, false)
          end in
        let self := mk (node_id self) merged (peripheral self) emergency chat (version self) in
        let self := if counter_changed || emergency_changed || chat_changed
                    then bump_version self else self in
        let event := PeatDocument.peripheral received ≫= Peripheral.last_event in
        let! total_count := total_count self in
        Ok (self, Some (MergeResult.mk (PeatDocument.node_id received) event
                          (PeatDocument.peripheral received) counter_changed emergency_changed
                          chat_changed total_count))
  end.

Definition decode_document (data : list Z) : outcome PeatDocument.t :=
  PeatDocument.decode legacy_chat data.

End feature.

End DocumentSync.

Module DocumentCheck.
Record t := mk { node_id : Z; is_emergency : bool; is_ack : bool }.

Definition from_document (legacy_chat : bool) (data : list Z) : outcome t :=
  let! doc := PeatDocument.decode legacy_chat data in
  let '(is_emergency, is_ack) :=
    match PeatDocument.peripheral doc ≫= Peripheral.last_event with
    | Some e => (bool_decide (PeripheralEvent.event_type e = EventType.Emergency),
                 bool_decide (PeripheralEvent.event_type e = EventType.Ack))
    | None => (false, false)
    end in
  Ok (mk (PeatDocument.node_id doc) is_emergency is_ack).

End DocumentCheck.

(** ** A mesh of nodes

    Every node acts on its own document and broadcasts it after each action;
    every broadcast may reach any node, at any time, any number of times, or
    never. *)
Module Mesh.
Import DocumentSync.

Inductive op :=
| SendEmergency (timestamp : Z)
| SendAck (timestamp : Z)
| ClearEvent
| IncrementCounter
| UpdateHealthFull (battery_percent activity : Z)
| UpdateHeartRate (heart_rate : Z)
| UpdateLocation (latitude longitude : Z) (altitude : option Z)
| ClearLocation
| UpdateCallsign (callsign : list Z)
| SetPeripheralEvent (event_type : EventType.t) (timestamp : Z)
| StartEmergency (timestamp : Z) (known_peers : list Z)
| AckEmergency (timestamp : Z)
| ClearEmergency
| AddChatMessage (sender text : list Z) (timestamp : Z)
| Broadcast.

Inductive event :=
| Act (node : Z) (o : op)
| Deliver (node : Z) (index : nat).

Record net := mk_net { states : gmap Z DocumentSync.t; air : list (list Z) }.

Section mesh.
Context (legacy_chat : bool).

Definition act (self : t) (o : op) : t :=
  match o with
  | SendEmergency ts => (send_emergency legacy_chat self ts).1
  | SendAck ts => (send_ack legacy_chat self ts).1
  | ClearEvent => clear_event self
  | IncrementCounter => increment_counter self
  | UpdateHealthFull b a => update_health_full self b a
  | UpdateHeartRate hr => update_heart_rate self hr
  | UpdateLocation lat lon alt => update_location self lat lon alt
  | ClearLocation => clear_location self
  | UpdateCallsign cs => update_callsign self cs
  | SetPeripheralEvent ev ts => set_peripheral_event self ev ts
  | StartEmergency ts peers => (start_emergency legacy_chat self ts peers).1
  | AckEmergency ts => (ack_emergency legacy_chat self ts).1
  | ClearEmergency => clear_emergency self
  | AddChatMessage sender text ts => (add_chat_message self sender text ts).1
  | Broadcast => self
  end.

Definition step (s : net) (e : event) : outcome net :=
  match e with
  | Act n o =>
      match states s !! n with
      | Some st =>
          let st := act st o in
          Ok (mk_net (<[n := st]> (states s)) (air s ++ [build_document legacy_chat st]))
      | None => Ok s
      end
  | Deliver n i =>
      match states s !! n, air s !! i with
      | Some st, Some data =>
          let! r := merge_document legacy_chat st data in
          Ok (mk_net (<[n := r.1]> (states s)) (air s))
      | _, _ => Ok s
      end
  end.
Fixpoint run (s : net) (evs : list event) : outcome net :=
  match evs with
  | [] => Ok s
  | e :: evs => let! s := step s e in run s evs
  end.

Context (nodes : gset Z).
Definition mesh_ok : Prop :=
  Z.of_nat (size nodes) ≤ 256 ∧ set_Forall (λ n, in_u 32 n ∧ n ≠ 0) nodes.

(** What an application may pass. *)
Definition event_time (ts : Z) : Prop := in_u 64 ts ∧ MIN_VALID_TIMESTAMP ≤ ts.
Definition text_ok (limit : Z) (s : list Z) : Prop :=
  bytes_ok s ∧ zlen s ≤ limit ∧ utf8_valid s = true.
Definition callsign_in (cs : list Z) : Prop := text_ok 12 cs ∧ Forall (λ b, b ≠ 0) cs.
Definition op_ok (o : op) : Prop :=
  match o with
  | SendEmergency ts | SendAck ts | AckEmergency ts | SetPeripheralEvent _ ts =>
      PeripheralEvent.timestamp_ok ts
  | UpdateHealthFull b a => 0 ≤ b ≤ MAX_BATTERY_PERCENT ∧ 0 ≤ a ≤ 3
  | UpdateHeartRate hr => MIN_HEART_RATE ≤ hr ≤ MAX_HEART_RATE
  | UpdateLocation lat lon alt => Position.wf (Position.mk lat lon alt None)
  | UpdateCallsign cs => callsign_in cs
  | StartEmergency ts peers => event_time ts ∧ Forall (λ p, p ∈ nodes) peers
  | AddChatMessage sender text ts =>
      legacy_chat = true ∧ event_time ts ∧ text_ok CHAT_MAX_SENDER_LEN sender ∧ sender ≠ []
      ∧ text_ok CHAT_MAX_TEXT_LEN text
  | ClearEvent | IncrementCounter | ClearLocation | ClearEmergency | Broadcast => True
  end.
Definition event_ok (e : event) : Prop := match e with Act _ o => op_ok o | Deliver _ _ => True end.

#[global] Instance op_ok_dec o : Decision (op_ok o).
Proof.
  destruct o; cbn [op_ok];
    unfold callsign_in, text_ok, event_time, PeripheralEvent.timestamp_ok; apply _.
Defined.
#[global] Instance event_ok_dec e : Decision (event_ok e).
Proof. destruct e; cbn [event_ok]; apply _. Defined.

Definition init (callsigns : Z → list Z) : net :=
  mk_net (set_to_map (λ n, (n, DocumentSync.new n (callsigns n))) nodes) [].

End mesh.
End Mesh.

(** * Theorems *)

Module DocSyncProofs.
Import DocumentSync Mesh.

(** ** Merging is [PeatDocument::merge] *)

Section refinement.
Context (lc : bool).

(** The whole local document, with the full chat. *)
Definition view (self : t) : PeatDocument.t :=
  PeatDocument.mk (version self) (node_id self) (counter self) (Some (peripheral self))
    (emergency self) (chat self).

Lemma chat_merge_empty a b :
  ChatCRDT.is_empty b = true → ChatCRDT.merge a b = (a, false).
Proof.
  destruct b as [m]. unfold ChatCRDT.is_empty. cbn. intros Hs%Nat.eqb_eq.
  apply map_size_empty_inv in Hs as ->. by destruct a.
Qed.

Lemma received_chat_merge (ours theirs : option ChatCRDT.t) :
  match (if lc then theirs else None) with
  | Some received_chat =>
      if negb (ChatCRDT.is_empty received_chat) then
        match ours with
        | Some our_chat =>
            let '(c, changed) := ChatCRDT.merge our_chat received_chat in (Some c, changed)
        | None => (Some received_chat, true)
        end
      else (ours, false)
  | None => (ours, false)
  end = PeatDocument.merge_chat lc ours theirs.
Proof.
  unfold PeatDocument.merge_chat. destruct lc; [|done].
  destruct theirs as [c'|]; [|done]. destruct ours as [c|].
  - destruct (ChatCRDT.is_empty c') eqn:E; [|done]. by rewrite (chat_merge_empty c c' E).
  - by destruct (ChatCRDT.is_empty c').
Qed.

Lemma merge_document_refines self data d :
  PeatDocument.decode lc data = Ok d → PeatDocument.node_id d ≠ node_id self →
  merge_document lc self data
  = let! r := PeatDocument.merge lc (view self) d in
    let '(doc, changed) := r in
    let! total := GCounter.value (PeatDocument.counter doc) in
    let! counters := PeatDocument.merge_counter (counter self) (PeatDocument.counter d) in
    Ok (mk (node_id self) (PeatDocument.counter doc) (peripheral self)
          (PeatDocument.emergency doc) (PeatDocument.chat doc) (PeatDocument.version doc),
        Some (MergeResult.mk (PeatDocument.node_id d)
                (PeatDocument.peripheral d ≫= Peripheral.last_event) (PeatDocument.peripheral d)
                counters.2
                (PeatDocument.merge_emergency (emergency self) (PeatDocument.emergency d)).2
                (PeatDocument.merge_chat lc (chat self) (PeatDocument.chat d)).2 total)).
Proof.
  intros Hd Hn. unfold merge_document. rewrite Hd. cbn [opt obind].
  rewrite (proj2 (Z.eqb_neq _ _)) by done.
  unfold PeatDocument.merge, PeatDocument.merge_counter, view. cbn.
  destruct (GCounter.value (counter self)) as [old| |]; [|done..]. cbn [obind].
  destruct (GCounter.value (GCounter.merge _ _)) as [new| |] eqn:Hv; [|done..]. cbn [obind].
  change (match PeatDocument.emergency d with
    | Some e' => match emergency self with
                 | Some e => let '(e, changed) := EmergencyEvent.merge e e' in (Some e, changed)
                 | None => (Some e', true) end
    | None => (emergency self, false) end)
    with (PeatDocument.merge_emergency (emergency self) (PeatDocument.emergency d)).
  destruct (PeatDocument.merge_emergency _ _) as [e che].
  rewrite received_chat_merge.
  destruct (PeatDocument.merge_chat _ _) as [c chc]. unfold total_count. cbn [fst snd].
  destruct (_ || _ || _); cbn; by rewrite Hv.
Qed.
End refinement.

(** ** Updates keep the peripheral readable *)

Section peripheral.
Implicit Types p : Peripheral.t.

Lemma set_event_wf p ev ts :
  Peripheral.wf p → PeripheralEvent.timestamp_ok ts → Peripheral.wf (Peripheral.set_event p ev ts).
Proof. unfold Peripheral.wf. cbn. intros (? & ? & ? & ? & ? & ? & ? & ?) Hts. split_and!; naive_solver. Qed.
Lemma clear_event_wf p : Peripheral.wf p → Peripheral.wf (Peripheral.clear_event p).
Proof. unfold Peripheral.wf. cbn. naive_solver. Qed.
Lemma clear_location_wf p : Peripheral.wf p → Peripheral.wf (Peripheral.clear_location p).
Proof. unfold Peripheral.wf. cbn. naive_solver. Qed.
Lemma set_health_wf p h :
  Peripheral.wf p → HealthStatus.wf h → Peripheral.wf (set_health p h).
Proof. unfold Peripheral.wf. cbn. naive_solver. Qed.
Lemma health_full_wf p b a :
  Peripheral.wf p → 0 ≤ b ≤ MAX_BATTERY_PERCENT → 0 ≤ a ≤ 3 →
  Peripheral.wf (set_activity (set_battery p b) a).
Proof.
  intros Hp Hb Ha. apply set_health_wf; [apply set_health_wf; [done|]|];
    destruct Hp as (_ & _ & _ & _ & Hh & _); unfold HealthStatus.wf in *; cbn; [|naive_solver].
  destruct Hh as (_ & ? & ? & ?). naive_solver.
Qed.
Lemma heart_rate_wf p hr :
  Peripheral.wf p → MIN_HEART_RATE ≤ hr ≤ MAX_HEART_RATE → Peripheral.wf (set_heart_rate p hr).
Proof.
  intros Hp Hr. apply set_health_wf; [done|]. destruct Hp as (_ & _ & _ & _ & Hh & _).
  unfold HealthStatus.wf in *. cbn. naive_solver.
Qed.
Lemma set_location_wf p lat lon alt :
  Peripheral.wf p → Position.wf (Position.mk lat lon alt None) →
  Peripheral.wf (Peripheral.set_location p lat lon alt).
Proof.
  intros Hp Hl. assert (Position.wf (match alt with
    | Some a => Position.with_altitude (Position.new lat lon) a | None => Position.new lat lon end))
    by by destruct alt.
  unfold Peripheral.wf, Peripheral.set_location in *. cbn. naive_solver.
Qed.

Lemma callsign_len_padded cs n :
  Forall (λ b, b ≠ 0) cs → Peripheral.callsign_len (cs ++ replicate (S n) 0) = zlen cs.
Proof.
  intros Hnz. unfold Peripheral.callsign_len.
  assert (list_find (λ b, b = 0) (cs ++ replicate (S n) 0) = Some (length cs, 0)) as ->; [|done].
  apply list_find_Some. split_and!; [|done|].
  - by rewrite lookup_app_r, Nat.sub_diag by lia.
  - intros j y Hj Hlt. rewrite lookup_app_l in Hj by done. rewrite Forall_lookup in Hnz. eauto.
Qed.
Lemma callsign_len_full cs : Forall (λ b, b ≠ 0) cs → Peripheral.callsign_len cs = 12.
Proof.
  intros Hnz. unfold Peripheral.callsign_len. assert (list_find (λ b, b = 0) cs = None) as ->; [|done].
  by apply list_find_None.
Qed.
Lemma copy_callsign_ok cs :
  callsign_in cs → Peripheral.callsign_ok (Peripheral.copy_callsign (replicate 12 0) cs).
Proof.
  intros [(Hb & Hlen & Hu) Hnz]. unfold Peripheral.copy_callsign, Peripheral.callsign_ok.
  rewrite Z.min_l by done. rewrite ztake_all by done. unfold zdrop. rewrite drop_replicate.
  split_and!.
  - rewrite length_app, length_replicate. lia.
  - apply bytes_app; [done|]. apply Forall_replicate. lia.
  - destruct (12 - Z.to_nat (zlen cs))%nat as [|n] eqn:E.
    + cbn [replicate]. rewrite app_nil_r, callsign_len_full by done. by rewrite ztake_all by lia.
    + rewrite callsign_len_padded by done. by rewrite ztake_app_exact.
Qed.
Lemma set_callsign_wf p cs :
  Peripheral.wf p → callsign_in cs → Peripheral.wf (Peripheral.set_callsign p cs).
Proof.
  intros Hp Hcs%copy_callsign_ok. unfold Peripheral.wf in *. cbn. naive_solver.
Qed.
Lemma new_peripheral_wf n ptype cs :
  in_u 32 n → n ≠ 0 → callsign_in cs →
  Peripheral.wf (Peripheral.with_callsign (Peripheral.new n ptype) cs).
Proof.
  intros Hn Hn0 Hcs%copy_callsign_ok. unfold Peripheral.wf. cbn. split_and!; try done; try lia.
  - unfold HealthStatus.wf, MAX_BATTERY_PERCENT. cbn. split_and!; (lia || done).
Qed.
End peripheral.

(** ** The emergency stays inside the mesh *)

Section emergency.
Context (nodes : gset Z) (Hnodes : mesh_ok nodes).
Implicit Types e : EmergencyEvent.t.

Definition emergency_ok e : Prop :=
  EmergencyEvent.wf e ∧ map_Forall (λ n _, n ∈ nodes) (EmergencyEvent.acks e).

Lemma acks_size (m : gmap Z bool) :
  map_Forall (λ n _, n ∈ nodes) m → Z.of_nat (size m) ≤ 256.
Proof.
  intros Hm. destruct Hnodes as [Hs _]. rewrite <-size_dom.
  assert (dom m ⊆ nodes) as Hsub%subseteq_size; [|lia].
  intros n [b Hn]%elem_of_dom. eauto.
Qed.
Lemma emergency_ok_intro source ts acks :
  source ∈ nodes → event_time ts → map_Forall (λ n _, n ∈ nodes) acks →
  emergency_ok (EmergencyEvent.mk source ts acks).
Proof.
  intros Hs [Ht Hmin] Ha. destruct (proj2 Hnodes source Hs). split; [|done].
  unfold EmergencyEvent.wf, MAX_EMERGENCY_ACKS. cbn. split_and!; try done; try lia.
  - intros n b Hn. by apply (proj2 Hnodes), (Ha n b).
  - by apply acks_size.
Qed.
Lemma new_emergency_ok source ts peers :
  source ∈ nodes → event_time ts → Forall (λ p, p ∈ nodes) peers →
  emergency_ok (EmergencyEvent.new source ts peers).
Proof.
  intros Hs Ht Hp. apply emergency_ok_intro; [done..|].
  intros n b Hn. change (EmergencyEvent.acks (EmergencyEvent.new source ts peers) !! n = Some b) in Hn.
  rewrite EmergencyEventProofs.new_lookup in Hn. rewrite Forall_forall in Hp.
  destruct (decide (n = source)) as [->|]; [done|]. destruct (decide (n ∈ peers)); [auto|done].
Qed.
Lemma with_acks_ok e acks :
  emergency_ok e → map_Forall (λ n _, n ∈ nodes) acks →
  emergency_ok (EmergencyEvent.mk (EmergencyEvent.source_node e) (EmergencyEvent.timestamp e) acks).
Proof.
  intros [(? & ? & ? & ? & _) _] Ha. split; [|done].
  unfold EmergencyEvent.wf, MAX_EMERGENCY_ACKS. cbn. split_and!; try done; try lia.
  - intros n b Hn. by apply (proj2 Hnodes), (Ha n b).
  - by apply acks_size.
Qed.
Lemma ack_ok e n : emergency_ok e → n ∈ nodes → emergency_ok (EmergencyEvent.ack e n).1.
Proof.
  intros He Hn. unfold EmergencyEvent.ack.
  destruct (negb _); apply with_acks_ok; try done; apply map_Forall_insert_2; (done || apply He).
Qed.
Lemma emergency_merge_ok e e' :
  emergency_ok e → emergency_ok e' → emergency_ok (EmergencyEvent.merge e e').1.
Proof.
  intros He He'.
  destruct (decide (EmergencyEventProofs.same_event e e')) as [Hs|Hs].
  - rewrite EmergencyEventProofs.merge_same by done. apply with_acks_ok; [done|].
    intros n b. rewrite EmergencyEventProofs.or_acks_lookup.
    destruct (EmergencyEvent.acks e' !! n) eqn:E'; [intros _; by apply He' in E'|].
    intros E. by apply He in E.
  - rewrite EmergencyEventProofs.merge_diff by done. by destruct (_ <? _).
Qed.
End emergency.

(** ** The chat *)

Section chat.
Implicit Types c : ChatCRDT.t.

Definition chat_ok c : Prop := ChatCRDT.wf c ∧ ChatCRDT.is_empty c = false.

Lemma set_buffer_ok size s :
  text_ok size s →
  ChatMessage.buffer_ok size
    (ChatMessage.copy_prefix (replicate (Z.to_nat size) 0) s (Z.min (zlen s) size)) (zlen s).
Proof.
  intros (Hb & Hl & Hu). rewrite Z.min_l by done.
  apply ChatMessageProofs.copy_prefix_ok; [done..|].
  unfold ChatMessage.copy_prefix. rewrite (ztake_all (zlen s) s) by done.
  by rewrite ztake_app_exact.
Qed.
Lemma new_message_wf origin ts sender text :
  in_u 32 origin → origin ≠ 0 → event_time ts →
  text_ok CHAT_MAX_SENDER_LEN sender → sender ≠ [] → text_ok CHAT_MAX_TEXT_LEN text →
  ChatMessage.wf (ChatMessage.new origin ts sender text).
Proof.
  intros Ho Ho0 [Ht Hmin] Hs Hs0 Hx. pose proof (set_buffer_ok _ _ Hs) as Hbs.
  pose proof (set_buffer_ok _ _ Hx) as Hbx. destruct Hs as (_ & Hsl & _), Hx as (_ & Hxl & _).
  unfold ChatMessage.wf, ChatMessage.new, ChatMessage.set_text, ChatMessage.set_sender,
    ChatMessage.default_message, CHAT_MAX_SENDER_LEN, CHAT_MAX_TEXT_LEN in *.
  cbn [ChatMessage.origin_node ChatMessage.timestamp ChatMessage.sender ChatMessage.sender_len
       ChatMessage.text ChatMessage.text_len ChatMessage.reply_to_node
       ChatMessage.reply_to_timestamp].
  rewrite !Z.min_l in * by done. rewrite !wrap_small by lia.
  split_and!; try done; try lia. destruct sender; [done|len].
Qed.

Lemma map_chat_wf (m : gmap Z ChatMessage.t) :
  map_Forall (λ id msg, ChatMessage.wf msg ∧ id = ChatMessage.message_id msg) m →
  (size m ≤ 32)%nat → ChatCRDT.wf (ChatCRDT.mk m).
Proof. intros Hm Hs. split; [done|]. cbn. lia. Qed.
Lemma prune_forall (P : Z → ChatMessage.t → Prop) m :
  map_Forall P m → map_Forall P (ChatCRDT.prune_if_needed m).
Proof. intros Hm k v Hk. apply Hm. eapply lookup_weaken; [done|]. apply ChatProofs.prune_sub. Qed.

Lemma add_message_ok c msg :
  ChatCRDT.wf c → ChatMessage.wf msg → chat_ok (ChatCRDT.add_message c msg).1.
Proof.
  intros Hc Hm. unfold ChatCRDT.add_message. case_bool_decide as Hin; cbn [fst].
  - split; [done|]. apply DocumentProofs.chat_nonempty. eauto.
  - split.
    + apply map_chat_wf; [|rewrite ChatProofs.prune_size; lia]. apply prune_forall.
      apply map_Forall_insert_2; [done|apply Hc].
    + unfold ChatCRDT.is_empty. cbn. apply Nat.eqb_neq. rewrite ChatProofs.prune_size.
      assert (size (<[ChatMessage.message_id msg := msg]> (ChatCRDT.messages c)) ≠ 0%nat); [|lia].
      intros E%map_size_empty_inv. by apply insert_non_empty in E.
Qed.
Lemma chat_merge_ok c c' : chat_ok c → chat_ok c' → chat_ok (ChatCRDT.merge c c').1.
Proof.
  intros [[Hc Hcs] Hn] [[Hc' _] _]. destruct (ChatProofs.chat_merge_spec c c') as [Hm Hch].
  destruct (ChatCRDT.merge c c') as [[m] ch]. cbn [fst snd ChatCRDT.messages] in *.
  assert (map_Forall (λ id msg, ChatMessage.wf msg ∧ id = ChatMessage.message_id msg)
    (ChatCRDT.messages c ∪ ChatCRDT.messages c')) as Hu.
  { intros k v [Hk|[_ Hk]]%lookup_union_Some_raw; eauto. }
  apply DocumentProofs.chat_nonempty in Hn as [k [v Hk]].
  assert ((ChatCRDT.messages c ∪ ChatCRDT.messages c') !! k = Some v) as Huk
    by by apply lookup_union_Some_l.
  assert (size (ChatCRDT.messages c ∪ ChatCRDT.messages c') ≠ 0%nat) as Hne.
  { intros E%map_size_empty_inv. rewrite E in Huk. done. }
  destruct ch; subst m.
  - split.
    + apply map_chat_wf; [by apply prune_forall|]. rewrite ChatProofs.prune_size. lia.
    + unfold ChatCRDT.is_empty. cbn. apply Nat.eqb_neq. rewrite ChatProofs.prune_size. lia.
  - assert (ChatCRDT.messages c ∪ ChatCRDT.messages c' = ChatCRDT.messages c) as E.
    { apply map_eq. intros j. rewrite lookup_union.
      destruct (ChatCRDT.messages c !! j) eqn:Ej, (ChatCRDT.messages c' !! j) eqn:Ej'; try done.
      exfalso. assert (false = true); [|done]. apply Hch. eauto. }
    rewrite E in *. split; [by split|]. unfold ChatCRDT.is_empty. by apply Nat.eqb_neq.
Qed.

Lemma for_sync_ok c :
  chat_ok c →
  chat_ok (ChatCRDT.for_sync c) ∧ (size (ChatCRDT.messages (ChatCRDT.for_sync c)) ≤ 8)%nat.
Proof.
  intros Hc. unfold ChatCRDT.for_sync, CHAT_SYNC_LIMIT.
  destruct (Z.leb_spec (Z.of_nat (size (ChatCRDT.messages c))) 8); [split; [done|lia]|].
  destruct Hc as [[Hm _] _]. set (l := take 8 (reverse (bt_iter (ChatCRDT.messages c)))).
  assert (length l = 8%nat) as Hlen.
  { unfold l. rewrite length_take, length_reverse, length_bt_iter. lia. }
  assert (NoDup l.*1) as Hnd.
  { unfold l. rewrite fmap_take, fmap_reverse.
    eapply sublist_NoDup; [|apply sublist_take]. rewrite reverse_Permutation. apply bt_iter_NoDup_keys. }
  assert (size (list_to_map l : gmap Z ChatMessage.t) = 8%nat) as Hs.
  { rewrite <-Hlen, <-length_map_to_list, map_to_list_to_map by done. done. }
  cbn [ChatCRDT.messages]. split; [|lia]. split.
  - apply map_chat_wf; [|lia]. intros k v Hk%elem_of_list_to_map_2.
    apply Hm, elem_of_bt_iter. unfold l in Hk. apply elem_of_take in Hk as (i & Hi & _).
    apply elem_of_reverse. by apply (list_elem_of_lookup_2 _ i).
  - unfold ChatCRDT.is_empty. cbn. apply Nat.eqb_neq. lia.
Qed.
Lemma chat_bytes_bound c :
  ChatCRDT.wf c → (size (ChatCRDT.messages c) ≤ 8)%nat → zlen (ChatCRDT.encode c) < 2 ^ 16.
Proof.
  intros Hwf Hs. unfold ChatCRDT.encode.
  assert (zlen (flat_map ChatMessage.encode (ChatCRDT.all_messages c))
          ≤ 167 * zlen (ChatCRDT.all_messages c)) as Hb.
  { pose proof (ChatProofs.all_messages_wf c Hwf) as Hall.
    induction Hall as [|m l Hm Hl IH]; [done|]. cbn [flat_map].
    pose proof (ChatMessageProofs.chat_encode_length m Hm).
    destruct Hm as (_ & _ & _ & _ & (_ & ? & _) & _ & (_ & ? & _) & _).
    unfold CHAT_MAX_SENDER_LEN, CHAT_MAX_TEXT_LEN in *. len. }
  assert (zlen (ChatCRDT.all_messages c) ≤ 8).
  { unfold ChatCRDT.all_messages. rewrite length_fmap, length_bt_iter. lia. }
  len.
Qed.
End chat.

(** ** The invariant of the mesh *)

Section mesh.
Context (lc : bool) (nodes : gset Z) (Hnodes : mesh_ok nodes).
Implicit Types (self : DocumentSync.t) (d : PeatDocument.t) (s : net).

Definition counts_ok (n : Z) (c : GCounter.t) : Prop :=
  map_Forall (λ k count, k ∈ nodes ∧ 0 ≤ count ≤ n) (GCounter.counts c).
Definition emergency_in (o : option EmergencyEvent.t) : Prop :=
  ∀ e, o = Some e → emergency_ok nodes e.
Definition chat_in (o : option ChatCRDT.t) : Prop := ∀ c, o = Some c → lc = true ∧ chat_ok c.
(** After [n] events: the state of a node, and a broadcast document. *)
Definition node_inv (n i : Z) self : Prop :=
  node_id self = i ∧ i ∈ nodes ∧ in_u 32 (version self) ∧ Peripheral.wf (peripheral self)
  ∧ counts_ok n (counter self) ∧ emergency_in (emergency self) ∧ chat_in (chat self).
Definition doc_inv (n : Z) d : Prop :=
  PeatDocument.node_id d ∈ nodes ∧ counts_ok n (PeatDocument.counter d)
  ∧ emergency_in (PeatDocument.emergency d) ∧ chat_in (PeatDocument.chat d).
Definition inv (n : Z) s : Prop :=
  map_Forall (node_inv n) (states s)
  ∧ Forall (λ data, ∃ d, PeatDocument.decode lc data = Ok d ∧ doc_inv n d) (air s).

Lemma counts_ok_mono n n' c : n ≤ n' → counts_ok n c → counts_ok n' c.
Proof. intros Hn Hc. eapply map_Forall_impl; [exact Hc|]. cbn. intros; naive_solver lia. Qed.
Lemma inv_mono n n' s : n ≤ n' → inv n s → inv n' s.
Proof.
  intros Hn [Hs Ha]. split.
  - eapply map_Forall_impl; [exact Hs|]. unfold node_inv. cbn. intros i self ?. destruct_and!.
    split_and!; try done; try lia. by eapply counts_ok_mono.
  - eapply Forall_impl; [exact Ha|]. cbn. intros data (d & Hd & ?). exists d. unfold doc_inv in *.
    destruct_and!. split_and!; try done. by eapply counts_ok_mono.
Qed.

Lemma counts_ok_wf n c : counts_ok n c → n < 2 ^ 56 → GCounter.wf c.
Proof.
  intros Hc Hn. unfold GCounter.wf, GCounter.typed, MAX_COUNTER_ENTRIES. destruct Hnodes as [Hsz Hid].
  split_and!.
  - intros k v Hk. destruct (Hc k v Hk) as [Hin Hv]. destruct (Hid k Hin). lia.
  - destruct (GCounter.counts c !! 0) as [v|] eqn:H0; [|done].
    destruct (Hc 0 v H0) as [Hin _]. by destruct (Hid 0 Hin).
  - rewrite <-size_dom. assert (dom (GCounter.counts c) ⊆ nodes) as Hsub%subseteq_size; [|lia].
    intros k [v Hk]%elem_of_dom. by apply (Hc k v).
Qed.
Lemma counts_ok_bound n c : counts_ok n c → n < 2 ^ 56 → 0 ≤ n → 0 ≤ DocumentProofs.counter_total c ≤ 256 * n.
Proof.
  intros Hc Hn Hn0. destruct (counts_ok_wf n c Hc Hn) as (_ & _ & Hsz).
  unfold MAX_COUNTER_ENTRIES in Hsz. unfold DocumentProofs.counter_total, GCounterProofs.total.
  assert (0 ≤ zsum (bt_iter (GCounter.counts c)).*2 ≤ n * Z.of_nat (size (GCounter.counts c))); [|nia].
  rewrite <-length_bt_iter.
  assert (∀ l, (∀ e, e ∈ l → e ∈ bt_iter (GCounter.counts c)) →
    0 ≤ zsum l.*2 ≤ n * Z.of_nat (length l)) as Hl; [|by apply Hl].
  induction l as [|[k v] l IH]; intros Hin; cbn [fmap list_fmap snd zsum length]; [lia|].
  specialize (IH ltac:(intros; apply Hin; by right)).
  specialize (Hin (k, v) ltac:(left)). apply elem_of_bt_iter, Hc in Hin. lia.
Qed.
Lemma counts_ok_total n c : counts_ok n c → n < 2 ^ 56 → 0 ≤ n → DocumentProofs.counter_total c < 2 ^ 64.
Proof. intros Hc Hn Hn0. pose proof (counts_ok_bound n c Hc Hn Hn0). lia. Qed.
Lemma counts_ok_merge n c c' : counts_ok n c → counts_ok n c' → counts_ok n (GCounter.merge c c').
Proof.
  intros Hc Hc' k v Hk. rewrite GCounterProofs.merge_lookup in Hk.
  destruct (GCounter.counts c' !! k) as [v'|] eqn:E'; [|eauto].
  injection Hk as <-. destruct (Hc' k v' E') as [? ?]. split; [done|].
  unfold or_insert. destruct (GCounter.counts c !! k) as [w|] eqn:E; cbn; [|lia].
  apply Hc in E. lia.
Qed.

Lemma bump_inv n i self : node_inv n i self → node_inv n i (bump_version self).
Proof.
  unfold node_inv, bump_version, wrapping_add. cbn. intros. destruct_and!.
  pose proof (wrap_bound 32 (version self + 1) ltac:(lia)). split_and!; (done || lia).
Qed.
Lemma set_peripheral_inv n i self p :
  node_inv n i self → Peripheral.wf p → node_inv n i (set_peripheral self p).
Proof. unfold node_inv. cbn. naive_solver. Qed.
Lemma set_emergency_inv n i self o :
  node_inv n i self → emergency_in o → node_inv n i (set_emergency self o).
Proof. unfold node_inv. cbn. naive_solver. Qed.
Lemma set_chat_inv n i self o : node_inv n i self → chat_in o → node_inv n i (set_chat self o).
Proof. unfold node_inv. cbn. naive_solver. Qed.
Lemma increment_inv n i self :
  0 ≤ n → node_inv n i self → node_inv (n + 1) i (increment_counter_internal self).
Proof.
  intros Hn Hi. apply bump_inv. unfold node_inv in *. cbn. destruct_and!. split_and!; try done; try lia.
  subst i. intros k v Hk. unfold GCounter.increment in Hk. cbn in Hk.
  destruct (decide (k = node_id self)) as [->|Hne].
  - rewrite lookup_insert_eq in Hk. injection Hk as <-. split; [done|].
    unfold saturating_add, or_insert.
    destruct (GCounter.counts (counter self) !! node_id self) as [w|] eqn:E; cbn; [|lia].
    match goal with Hc : counts_ok _ _ |- _ => apply Hc in E end. lia.
  - rewrite lookup_insert_ne in Hk by done.
    match goal with Hc : counts_ok _ _ |- _ => apply Hc in Hk end. destruct Hk. split; [done|lia].
Qed.
Lemma node_inv_weaken n i self : node_inv n i self → node_inv (n + 1) i self.
Proof. unfold node_inv. intros. destruct_and!. split_and!; try done; try lia. eapply counts_ok_mono; [|done]. lia. Qed.

Lemma act_inv n i self o :
  0 ≤ n → node_inv n i self → op_ok lc nodes o → node_inv (n + 1) i (act lc self o).
Proof.
  intros Hn Hi Ho. assert (Peripheral.wf (peripheral self)) as Hp by apply Hi.
  assert (∀ p, Peripheral.wf p → node_inv (n + 1) i (bump_version (set_peripheral self p))) as Hup.
  { intros p Hp'. by apply node_inv_weaken, bump_inv, set_peripheral_inv. }
  destruct o; cbn [act op_ok] in *.
  - apply increment_inv; [done|]. apply set_peripheral_inv; [done|]. by apply set_event_wf.
  - apply increment_inv; [done|]. apply set_peripheral_inv; [done|]. by apply set_event_wf.
  - by apply Hup, clear_event_wf.
  - by apply increment_inv.
  - apply Hup. destruct Ho. by apply health_full_wf.
  - apply Hup. by apply heart_rate_wf.
  - apply Hup. by apply set_location_wf.
  - by apply Hup, clear_location_wf.
  - apply Hup. by apply set_callsign_wf.
  - apply Hup. by apply set_event_wf.
  - destruct Ho as [Ht Hps]. apply increment_inv; [done|].
    apply set_peripheral_inv; [|apply set_event_wf; [done|]].
    + apply set_emergency_inv; [done|]. intros e [= <-].
      apply new_emergency_ok; try done. replace (node_id self) with i by (symmetry; apply Hi). apply Hi.
    + destruct Ht. split; [done|by right].
  - unfold ack_emergency. destruct (emergency self) as [e|] eqn:He; [|by apply node_inv_weaken].
    assert (emergency_ok nodes (EmergencyEvent.ack e (node_id self)).1) as Ha.
    { apply ack_ok; [done|by apply Hi|]. replace (node_id self) with i by (symmetry; apply Hi). apply Hi. }
    destruct (EmergencyEvent.ack e (node_id self)) as [e' ch]. cbn [fst] in *.
    assert (node_inv n i (set_emergency self (Some e'))) as Hs.
    { apply set_emergency_inv; [done|]. by intros ? [= <-]. }
    destruct ch; [|by apply node_inv_weaken].
    apply increment_inv; [done|]. apply set_peripheral_inv; [done|]. by apply set_event_wf.
  - unfold clear_emergency. destruct (emergency self); [|by apply node_inv_weaken].
    apply node_inv_weaken, bump_inv, set_peripheral_inv; [|by apply clear_event_wf].
    by apply set_emergency_inv.
  - destruct Ho as (Hlc & Ht & Hs & Hs0 & Hx). unfold add_chat_message, add_chat.
    assert (ChatCRDT.wf (default ChatCRDT.new (chat self))) as Hc.
    { destruct (chat self) as [c|] eqn:E; [by apply Hi|]. split; [apply map_Forall_empty|done]. }
    destruct Hi as (<- & Hi). pose proof (proj2 Hnodes _ (proj1 Hi)) as [? ?].
    pose proof (add_message_ok _ (ChatMessage.new (node_id self) timestamp sender text) Hc
      ltac:(by apply new_message_wf)) as Hok.
    destruct (ChatCRDT.add_message _ _) as [c added]. cbn [fst] in Hok.
    assert (node_inv (n + 1) (node_id self) (set_chat self (Some c))) as Hsc.
    { apply node_inv_weaken, set_chat_inv; [by split|]. by intros ? [= <-]. }
    destruct added; [by apply bump_inv|done].
  - by apply node_inv_weaken.
Qed.

Lemma document_wf n i self :
  n < 2 ^ 56 → node_inv n i self →
  PeatDocument.decode lc (build_document lc self) = Ok (document lc self)
  ∧ doc_inv n (document lc self) ∧ PeatDocument.node_id (document lc self) = i.
Proof.
  intros Hn (Hid & Hi & Hv & Hp & Hc & He & Hch). destruct (proj2 Hnodes i Hi) as [Hu _].
  assert (chat_in (PeatDocument.chat (document lc self))
    ∧ PeatDocument.sendable (document lc self)) as [Hdc Hsend].
  { unfold document, PeatDocument.sendable, chat_in. cbn [PeatDocument.chat].
    destruct lc eqn:Elc; [|by split]. destruct (chat self) as [c|] eqn:Ec; [|by split].
    destruct (Hch c eq_refl) as [_ Hok]. destruct (for_sync_ok c Hok) as [Hok' Hs8].
    cbn. split; intros ? [= <-]; (split; [|]); try done; [by apply Hok'|].
    apply chat_bytes_bound; [apply Hok'|done]. }
  assert (doc_inv n (document lc self)) as Hd by (split_and!; [by subst i|done..]).
  split_and!; [|done|done]. apply DocumentProofs.document_decode_encode; [|done].
  unfold PeatDocument.wf. cbn [document PeatDocument.version PeatDocument.node_id
    PeatDocument.counter PeatDocument.peripheral PeatDocument.emergency].
  split_and!; try done; try (subst i; lia).
  - by apply (counts_ok_wf n).
  - by intros ? [= <-].
  - intros e Hee. by apply He.
  - intros c Hcc. destruct (Hdc c Hcc) as [? [? _]]. done.
Qed.

Lemma merge_inv n i self data d :
  0 ≤ n → n < 2 ^ 56 → node_inv n i self → PeatDocument.decode lc data = Ok d → doc_inv n d →
  ∃ self' r, merge_document lc self data = Ok (self', r) ∧ node_inv n i self'
    ∧ (r = None ↔ PeatDocument.node_id d = i)
    ∧ (PeatDocument.node_id d ≠ i → emergency self'
       = (PeatDocument.merge_emergency (emergency self) (PeatDocument.emergency d)).1).
Proof.
  intros Hn0 Hn Hi Hd (Hdi & Hdc & Hde & Hdch).
  destruct (decide (PeatDocument.node_id d = i)) as [Heq|Hne].
  { exists self, None. split_and!; [|done..]. unfold merge_document. rewrite Hd. cbn.
    rewrite Heq. replace (node_id self) with i by (symmetry; apply Hi). by rewrite Z.eqb_refl. }
  rewrite (merge_document_refines lc self data d) by (try done; destruct Hi as (-> & _); done).
  destruct Hi as (Hid & Hii & Hv & Hp & Hc & He & Hch).
  pose proof (counts_ok_merge n _ _ Hc Hdc) as Hm.
  pose proof (counts_ok_total n _ Hm Hn Hn0) as Ht.
  destruct (counts_ok_wf n _ Hc Hn) as [Hty _]. destruct (counts_ok_wf n _ Hdc Hn) as [Hty' _].
  destruct (DocumentProofs.document_merge_ok lc (view self) d Hty Hty' Ht) as (ch & _ & ->).
  destruct (DocumentProofs.merge_counter_ok _ _ Hty Hty' Ht) as (ch' & Hmc & _).
  cbn [obind PeatDocument.counter view]. rewrite GCounterProofs.value_spec
    by by apply GCounterProofs.merge_typed.
  rewrite (proj2 (Z.ltb_lt _ _)) by done. cbn [obind]. rewrite Hmc. cbn [obind].
  eexists _, _. split_and!; [done| |done|done].
  unfold node_inv. cbn [node_id version peripheral counter emergency chat PeatDocument.version
    PeatDocument.counter PeatDocument.emergency PeatDocument.chat view].
  split_and!; try done.
  1-2: destruct ch; [unfold wrapping_add; pose proof (wrap_bound 32 (version self + 1)); lia|lia].
  - rewrite DocumentProofs.merge_emergency_join. intros e.
    destruct (emergency self) as [e0|] eqn:E, (PeatDocument.emergency d) as [e1|] eqn:E1;
      cbn; intros [= <-]; eauto. apply emergency_merge_ok; eauto.
  - intros c. unfold PeatDocument.merge_chat. destruct lc eqn:Elc;
      [|intros Hcc; destruct (Hch _ Hcc); congruence].
    destruct (PeatDocument.chat d) as [c1|] eqn:E1;
      [|intros Hcc; destruct (Hch _ Hcc); split; congruence || done].
    destruct (chat self) as [c0|] eqn:E0.
    + pose proof (chat_merge_ok c0 c1) as Hok. destruct (ChatCRDT.merge c0 c1). cbn in *.
      intros [= <-]. split; [done|]. apply Hok; [by apply Hch|by apply Hdch].
    + destruct (negb _); cbn; intros [= <-]. split; [done|]. by apply Hdch.
Qed.

Lemma step_inv n s e :
  0 ≤ n → n + 1 < 2 ^ 56 → inv n s → event_ok lc nodes e →
  ∃ s', step lc s e = Ok s' ∧ inv (n + 1) s'.
Proof.
  intros Hn0 Hn Hinv He. pose proof Hinv as [Hs Ha]. destruct e as [i o|i k]; cbn [step event_ok] in *.
  - destruct (states s !! i) as [self|] eqn:Hi.
    2: { exists s. split; [done|]. eapply inv_mono; [|done]. lia. }
    eexists. split; [done|]. apply (inv_mono _ (n + 1)) in Hinv as [Hs' Ha']; [|lia].
    pose proof (act_inv n i self o Hn0 (Hs i self Hi) He) as Hact. split; cbn.
    + by apply map_Forall_insert_2.
    + apply Forall_app. split; [done|]. apply Forall_singleton.
      destruct (document_wf _ _ _ Hn Hact) as (? & ? & _). eauto.
  - assert (∃ s', Ok s = Ok s' ∧ inv (n + 1) s') as Hskip.
    { exists s. split; [done|]. eapply inv_mono; [|done]. lia. }
    destruct (states s !! i) as [self|] eqn:Hi; [|done].
    destruct (air s !! k) as [data|] eqn:Hk; [|done].
    rewrite Forall_lookup in Ha. destruct (Ha k data Hk) as (d & Hd & Hdi).
    destruct (merge_inv n i self data d) as (self' & r & -> & Hself & _); [lia|lia|eauto..|].
    cbn [obind]. eexists. split; [done|]. apply (inv_mono n); [lia|]. split; cbn; [|apply Hinv].
    by apply map_Forall_insert_2.
Qed.

Lemma run_inv evs : ∀ n s,
  0 ≤ n → n + zlen evs < 2 ^ 56 → inv n s → Forall (event_ok lc nodes) evs →
  ∃ s', run lc s evs = Ok s' ∧ inv (n + zlen evs) s'.
Proof.
  induction evs as [|e evs IH]; intros n s Hn0 Hn Hs Hev.
  { exists s. split; [done|]. eapply inv_mono; [|done]. len. }
  apply Forall_cons in Hev as [He Hev]. cbn [run].
  destruct (step_inv n s e) as (s' & -> & Hs'); [lia|len|done|done|]. cbn [obind].
  destruct (IH (n + 1) s') as (s'' & -> & Hs''); [lia|len|done|done|].
  exists s''. split; [done|]. eapply inv_mono; [|done]. len.
Qed.

Lemma init_inv cs : (∀ i, i ∈ nodes → callsign_in (cs i)) → inv 0 (init nodes cs).
Proof.
  intros Hcs. split; [|by apply Forall_nil].
  intros i self Hi. cbn in Hi.
  apply lookup_set_to_map in Hi as (j & Hj & [= <- <-]); [|by intros ?? _ _].
  destruct (proj2 Hnodes j Hj) as [Hu H0]. unfold node_inv. cbn. split_and!; try done; try lia.
  by apply new_peripheral_wf, Hcs.
Qed.

(** ** An emergency and its acknowledgements *)

(** A peer that receives the alarm and acknowledges it. *)
Definition reply (peer : DocumentSync.t) (alarm : list Z) (ts : Z)
    : outcome (option (list Z)) :=
  let! r := merge_document lc peer alarm in
  Ok (ack_emergency lc r.1 ts).2.
Fixpoint merge_all self (replies : list (list Z)) : outcome DocumentSync.t :=
  match replies with
  | [] => Ok self
  | data :: replies => let! r := merge_document lc self data in merge_all r.1 replies
  end.

(** The acknowledgements the source has, [acked] having answered. *)
Definition acks_are (i : Z) (peers acked : list Z) (m : gmap Z bool) : Prop :=
  ∀ q, m !! q = if decide (q = i ∨ q ∈ acked) then Some true
                else if decide (q ∈ peers) then Some false else None.

Lemma reply_ok n i (s : DocumentSync.t) ts peers p peer :
  0 ≤ n → n + 2 < 2 ^ 56 → node_inv n i s → event_time ts → Forall (λ p, p ∈ nodes) peers →
  p ≠ i → node_inv n p peer →
  (∀ e, emergency peer = Some e → EmergencyEvent.timestamp e < ts) →
  ∃ data d m, reply peer (start_emergency lc s ts peers).2 ts = Ok (Some data)
    ∧ PeatDocument.decode lc data = Ok d ∧ doc_inv (n + 2) d ∧ PeatDocument.node_id d = p
    ∧ PeatDocument.emergency d = Some (EmergencyEvent.mk i ts m) ∧ acks_are i peers [p] m.
Proof.
  intros Hn0 Hn Hs Ht Hps Hpi Hpeer Hold.
  pose proof (act_inv n i s (StartEmergency ts peers) Hn0 Hs ltac:(done)) as Hs1. cbn [act] in Hs1.
  destruct (document_wf (n + 1) i _ ltac:(lia) Hs1) as (Hdec & Hdoc & Hdid).
  unfold reply. change (start_emergency lc s ts peers).2
    with (build_document lc (start_emergency lc s ts peers).1).
  apply (node_inv_weaken n) in Hpeer.
  destruct (merge_inv (n + 1) p peer _ _ ltac:(lia) ltac:(lia) Hpeer Hdec Hdoc)
    as (peer' & r & -> & Hpeer' & _ & Hem). cbn [obind fst].
  rewrite Hdid in Hem. specialize (Hem ltac:(congruence)).
  set (e0 := EmergencyEvent.new i ts peers).
  assert (emergency peer' = Some e0) as He.
  { rewrite Hem. change (PeatDocument.emergency (document lc (start_emergency lc s ts peers).1))
      with (Some (EmergencyEvent.new (node_id s) ts peers)).
    replace (node_id s) with i by (symmetry; apply Hs). fold e0.
    destruct (emergency peer) as [e|] eqn:E; [|done]. specialize (Hold e eq_refl).
    cbn. rewrite EmergencyEventProofs.merge_diff.
    - change (EmergencyEvent.timestamp e0) with ts. by rewrite (proj2 (Z.ltb_lt _ _)) by done.
    - intros [_ Heq]. change (EmergencyEvent.timestamp e0) with ts in Heq. lia. }
  assert (∀ q, EmergencyEvent.acks e0 !! q
    = if decide (q = i) then Some true else if decide (q ∈ peers) then Some false else None) as Hl
    by (intros q; apply EmergencyEventProofs.new_lookup).
  pose proof (act_inv (n + 1) p peer' (AckEmergency ts) ltac:(lia) Hpeer'
    ltac:(destruct Ht; split; [done|by right])) as Hack. cbn [act] in Hack.
  replace (n + 1 + 1) with (n + 2) in Hack by lia.
  destruct (document_wf (n + 2) p _ ltac:(lia) Hack) as (Hdec' & Hdoc' & Hdid').
  assert (node_id peer' = p) as Hpid by apply Hpeer'.
  exists (build_document lc (ack_emergency lc peer' ts).1), (document lc (ack_emergency lc peer' ts).1),
    (<[p := true]> (EmergencyEvent.acks e0)).
  assert (or_insert (EmergencyEvent.acks e0) p false = false) as Hor.
  { unfold or_insert. rewrite Hl, decide_False by done. by destruct (decide _). }
  split_and!; [|done..| |].
  - unfold ack_emergency. rewrite He. unfold EmergencyEvent.ack. rewrite Hpid, Hor. done.
  - unfold ack_emergency. rewrite He. unfold EmergencyEvent.ack. rewrite Hpid, Hor. done.
  - intros q. destruct (decide (q = p)) as [->|Hqp].
    + rewrite lookup_insert_eq, decide_True; [done|]. right. set_solver.
    + rewrite lookup_insert_ne, Hl by done. destruct (decide (q = i)) as [->|].
      * by rewrite decide_True by by left.
      * rewrite (decide_False (P := q = i ∨ q ∈ [p])); [done|]. set_solver.
Qed.

Lemma source_merges n i (s1 : DocumentSync.t) peers acked0 ts data d m m0 p :
  0 ≤ n → n < 2 ^ 56 → node_inv n i s1 →
  emergency s1 = Some (EmergencyEvent.mk i ts m0) → acks_are i peers acked0 m0 →
  PeatDocument.decode lc data = Ok d → doc_inv n d → PeatDocument.node_id d = p → p ≠ i →
  PeatDocument.emergency d = Some (EmergencyEvent.mk i ts m) → acks_are i peers [p] m →
  ∃ (s2 : DocumentSync.t) r m1, merge_document lc s1 data = Ok (s2, r) ∧ node_inv n i s2
    ∧ emergency s2 = Some (EmergencyEvent.mk i ts m1) ∧ acks_are i peers (p :: acked0) m1.
Proof.
  intros Hn0 Hn Hs1 He0 Hm0 Hd Hdi Hdp Hpi Hde Hm.
  destruct (merge_inv n i s1 data d Hn0 Hn Hs1 Hd Hdi) as (s2 & r & -> & Hs2 & _ & Hem).
  specialize (Hem ltac:(congruence)).
  exists s2, r, (EmergencyEventProofs.or_acks m0 m). split_and!; [done|done| |].
  - rewrite Hem, He0, Hde, DocumentProofs.merge_emergency_join. cbn.
    unfold EmergencyEventProofs.join. by rewrite EmergencyEventProofs.merge_same.
  - intros q. rewrite EmergencyEventProofs.or_acks_lookup, Hm, Hm0.
    repeat destruct (decide _); try done; exfalso; set_solver.
Qed.

Lemma merge_replies n i (source s1 : DocumentSync.t) peers ts (peer : Z → DocumentSync.t) acked :
  ∀ acked0 m0,
  0 ≤ n → n + 2 < 2 ^ 56 → node_inv n i source → event_time ts → Forall (λ p, p ∈ nodes) peers →
  Forall (λ p, p ≠ i ∧ node_inv n p (peer p)
    ∧ ∀ e, emergency (peer p) = Some e → EmergencyEvent.timestamp e < ts) acked →
  node_inv (n + 2) i s1 → emergency s1 = Some (EmergencyEvent.mk i ts m0) →
  acks_are i peers acked0 m0 →
  ∃ replies (final : DocumentSync.t) m,
    Forall2 (λ p data, reply (peer p) (start_emergency lc source ts peers).2 ts = Ok (Some data))
      acked replies
    ∧ merge_all s1 replies = Ok final
    ∧ emergency final = Some (EmergencyEvent.mk i ts m)
    ∧ acks_are i peers (acked ++ acked0) m.
Proof.
  revert s1. induction acked as [|p acked IH]; intros s1 acked0 m0 Hn0 Hn Hs Ht Hps Hall Hs1 He Hm0.
  { by exists [], s1, m0. }
  apply Forall_cons in Hall as [(Hpi & Hpeer & Hold) Hall].
  destruct (reply_ok n i source ts peers p (peer p)) as (data & d & m & Hr & Hd & Hdi & Hdp & Hde & Hm);
    [done..|].
  destruct (source_merges (n + 2) i s1 peers acked0 ts data d m m0 p)
    as (s2 & r & m1 & Hmd & Hs2 & He2 & Hm1); [lia|lia|done..|].
  destruct (IH s2 (p :: acked0) m1) as (replies & final & mf & Hrs & Hf & Hfe & Hmf); [done..|].
  exists (data :: replies), final, mf. split_and!; [by constructor| |done|].
  - cbn [merge_all]. rewrite Hmd. done.
  - intros q. rewrite (Hmf q). repeat destruct (decide _); try done; exfalso; set_solver.
Qed.

Lemma all_acked_iff i ts peers acked m :
  acks_are i peers acked m →
  EmergencyEvent.all_acked (EmergencyEvent.mk i ts m) = true ↔ ∀ p, p ∈ peers → p = i ∨ p ∈ acked.
Proof.
  intros Hm. unfold EmergencyEvent.all_acked. cbn.
  assert (m !! i = Some true) as Hi by (rewrite Hm, decide_True by (by left); done).
  assert (Nat.eqb (size m) 0 = false) as ->.
  { apply Nat.eqb_neq. intros E%map_size_empty_inv. rewrite E in Hi. done. }
  cbn [negb andb]. rewrite forallb_forall. split.
  - intros Hf p Hp. destruct (decide (p = i ∨ p ∈ acked)) as [|Hno]; [done|exfalso].
    assert ((p, false) ∈ bt_iter m) as Hin%list_elem_of_In.
    { apply elem_of_bt_iter. rewrite Hm, decide_False, decide_True by done. done. }
    by apply Hf in Hin.
  - intros Hp [q b] Hin%list_elem_of_In%elem_of_bt_iter. cbn. rewrite Hm in Hin.
    destruct (decide (q = i ∨ q ∈ acked)) as [|Hno]; [by simplify_eq|].
    destruct (decide (q ∈ peers)) as [Hq|]; [|done]. by destruct (Hno (Hp q Hq)).
Qed.
End mesh.
End DocSyncProofs.

Module DocSyncProperties.
Import DocumentSync Mesh DocSyncProofs.

(** C2: in a mesh of at most 256 nodes whose applications pass values in
    range, whatever the nodes do and however their broadcasts are delayed,
    duplicated, reordered or lost, for up to 2^56 events: no node panics,
    every document ever broadcast is decoded by every node to the content its
    author held, and a node that receives one merges it unless it is its
    own. *)
Theorem mesh_understands_every_document legacy_chat nodes callsigns evs
    (Hnodes : mesh_ok nodes) (Hcs : set_Forall (λ i, callsign_in (callsigns i)) nodes)
    (Hevs : Forall (event_ok legacy_chat nodes) evs) (Hlen : zlen evs < 2 ^ 56) :
  ∃ s, run legacy_chat (init nodes callsigns) evs = Ok s
    ∧ map_Forall (λ i self,
        PeatDocument.decode legacy_chat (build_document legacy_chat self)
        = Ok (document legacy_chat self)) (states s)
    ∧ Forall (λ data, ∃ d, PeatDocument.decode legacy_chat data = Ok d
        ∧ PeatDocument.node_id d ∈ nodes
        ∧ map_Forall (λ i self, ∃ self' r, merge_document legacy_chat self data = Ok (self', r)
            ∧ (r = None ↔ PeatDocument.node_id d = i)) (states s)) (air s).
Proof.
  destruct (run_inv legacy_chat nodes Hnodes evs 0 (init nodes callsigns)) as (s & Hrun & Hs & Ha);
    [lia|lia|by apply init_inv|done|]. exists s. split; [done|]. split.
  - intros i self Hi. eapply document_wf; [done| |by apply Hs]. lia.
  - eapply Forall_impl; [exact Ha|]. cbn. intros data (d & Hd & Hdi). exists d.
    split_and!; [done|apply Hdi|]. intros i self Hi.
    destruct (merge_inv legacy_chat nodes Hnodes (0 + zlen evs) i self data d)
      as (self' & r & Hm & _ & Hr & _); [len|lia|by apply Hs|done|done|]. eauto.
Qed.

Definition sample_callsign (i : Z) : list Z := str "NODE-"%string ++ [48 + i].
Definition sample_events : list event :=
  let ts := MIN_VALID_TIMESTAMP + 1000 in
  [Act 1 (UpdateHealthFull 80 1); Act 2 (UpdateHeartRate 72); Deliver 2 0;
   Act 1 (StartEmergency ts [2; 3]); Deliver 2 2; Deliver 3 2; Act 2 (AckEmergency (ts + 5));
   Deliver 1 3; Act 3 (AddChatMessage (str "N3"%string) (str "on my way"%string) (ts + 7)); Deliver 1 4;
   Deliver 1 4; Act 3 ClearEmergency; Deliver 2 5].

Lemma mesh_understands_every_document_witness :
  let nodes : gset Z := list_to_set [1; 2; 3] in
  ∃ s, run true (init nodes sample_callsign) sample_events = Ok s
    ∧ map_Forall (λ i self,
        PeatDocument.decode true (build_document true self) = Ok (document true self)) (states s)
    ∧ Forall (λ data, ∃ d, PeatDocument.decode true data = Ok d
        ∧ PeatDocument.node_id d ∈ nodes
        ∧ map_Forall (λ i self, ∃ self' r, merge_document true self data = Ok (self', r)
            ∧ (r = None ↔ PeatDocument.node_id d = i)) (states s)) (air s).
Proof.
  intros nodes. apply (mesh_understands_every_document true nodes sample_callsign sample_events).
  - unfold mesh_ok. by_decide.
  - unfold set_Forall, callsign_in, text_ok. intros i Hi.
    assert (i ∈ [1; 2; 3]) as Hl by (revert Hi; apply elem_of_list_to_set).
    rewrite !elem_of_cons, elem_of_nil in Hl.
    destruct Hl as [->|[->|[->|[]]]]; by_decide.
  - by_decide.
  - vm_compute. reflexivity.
Defined.



(** The updates do not check their arguments, and the receiver drops a
    section it cannot decode without a trace: a battery level above 100 hides
    the whole peripheral, and an emergency raised by a node without a clock
    set (a timestamp before 2020) is never seen by anybody. *)
Example invalid_update_hides_peripheral :
  let s := update_health (new 1 (sample_callsign 1)) 101 in
  (let! d := PeatDocument.decode true (build_document true s) in
   Ok (PeatDocument.peripheral d)) = Ok None.
Proof. vm_compute. reflexivity. Qed.
Example boot_time_emergency_unseen :
  let s := (start_emergency true (new 1 (sample_callsign 1)) 5000 [2; 3]).1 in
  has_active_emergency s = true
  ∧ (let! d := PeatDocument.decode true (build_document true s) in
     Ok (PeatDocument.emergency d, PeatDocument.peripheral d)) = Ok (None, None).
Proof. vm_compute. split; reflexivity. Qed.

End DocSyncProperties.
