(* ===== verification/Crypto.v ===== *)
(** * Keys and ciphers of src/src/security: the primitives the code takes from
    external crates, the mesh key (mesh_key.rs) and the peer keys and key
    exchange messages (peer_key.rs).

    X25519, HKDF-SHA256, ChaCha20-Poly1305, Ed25519 and BLAKE3 are the methods
    of the class [Crypto], an argument of everything that uses them; what
    their documentation promises and the code relies on is the class
    [CryptoLaws].  [Toy] is a concrete instance of both, for the witnesses; it
    offers no secrecy.  Keys, nonces and random bytes that the code draws from
    the system generator are arguments. *)

From Stdlib Require Import String.
From stdpp Require Import base numbers list gmap.
From S2P Require Import Prelude.
Open Scope Z_scope.
Open Scope peat_scope.

Class Crypto := {
  (** The public key of a secret, and the shared secret. *)
  x25519_public : list Z → list Z;
  x25519 : list Z → list Z → list Z;
  (** salt, input key, info; 32 bytes of output. *)
  hkdf_sha256 : list Z → list Z → list Z → list Z;
  (** key, nonce, text; the tag is appended to the ciphertext. *)
  aead_seal : list Z → list Z → list Z → option (list Z);
  aead_open : list Z → list Z → list Z → option (list Z);
  ed25519_public : list Z → list Z;
  ed25519_sign : list Z → list Z → list Z;
  (** Whether 32 bytes are a public key, and the verification. *)
  ed25519_key : list Z → bool;
  ed25519_verify : list Z → list Z → list Z → bool;
  blake3 : list Z → list Z;
  blake3_keyed : list Z → list Z → list Z;
  blake3_derive : list Z → list Z → list Z
}.

(** [n] bytes. *)
Definition block (n : Z) (b : list Z) : Prop := bytes_ok b ∧ zlen b = n.
#[export] Instance block_dec n b : Decision (block n b).
Proof. unfold block. apply _. Defined.

Class CryptoLaws `{Crypto} : Prop := {
  x25519_agree : ∀ a b, block 32 a → block 32 b →
    x25519 a (x25519_public b) = x25519 b (x25519_public a);
  x25519_public_block : ∀ a, block 32 a → block 32 (x25519_public a);
  hkdf_block : ∀ salt ikm info, block 32 (hkdf_sha256 salt ikm info);
  aead_total : ∀ k n p, block 32 k → block 12 n → bytes_ok p →
    ∃ c, aead_seal k n p = Some c;
  aead_correct : ∀ k n p c, aead_seal k n p = Some c →
    aead_open k n c = Some p;
  aead_size : ∀ k n p c, bytes_ok p → aead_seal k n p = Some c → bytes_ok c ∧ zlen c = zlen p + 16;
  aead_open_bytes : ∀ k n c p, bytes_ok c → aead_open k n c = Some p → bytes_ok p;
  ed25519_public_key : ∀ sk, block 32 sk →
    block 32 (ed25519_public sk) ∧ ed25519_key (ed25519_public sk) = true;
  ed25519_sign_block : ∀ sk m, block 64 (ed25519_sign sk m);
  ed25519_correct : ∀ sk m, block 32 sk →
    ed25519_verify (ed25519_public sk) m (ed25519_sign sk m) = true;
  blake3_block : ∀ m, block 32 (blake3 m);
  blake3_keyed_block : ∀ k m, block 32 (blake3_keyed k m);
  blake3_derive_block : ∀ c k, block 32 (blake3_derive c k)
}.

(** ** [Result] *)
Module EncryptionError.
Inductive t := EncryptionFailed | DecryptionFailed | InvalidFormat.
#[global] Instance encryption_error_eq_dec : EqDecision t.
Proof. solve_decision. Defined.
End EncryptionError.

(** [Result<A, E>]; [let?] is the [?] operator. *)
Inductive result (A E : Type) : Type := Okay (a : A) | Err (e : E).
Arguments Okay {A E} a.
Arguments Err {A E} e.
#[export] Instance result_eq_dec {A E} `{!EqDecision A, !EqDecision E} : EqDecision (result A E).
Proof. solve_decision. Defined.
Definition rbind {A B E} (r : result A E) (k : A → result B E) : result B E :=
  match r with Okay a => k a | Err e => Err e end.
Definition ok_or {A E} (o : option A) (e : E) : result A E :=
  match o with Some a => Okay a | None => Err e end.
Notation "'let?' x := r 'in' k" := (rbind r (λ x, k))
  (at level 10, x pattern, k at level 200,
   format "'[v' 'let?'  x  :=  r  'in' '/' k ']'") : peat_scope.

(** ** The mesh key *)

Module EncryptedDocument.
Record t := mk { nonce : list Z; ciphertext : list Z }.

Definition OVERHEAD : Z := 12 + 16.
Definition encode (self : t) : list Z := nonce self ++ ciphertext self.
Definition decode (data : list Z) : outcome t :=
  reject_if zlen data <? OVERHEAD ;;
  let! nonce := slice data 0 12 in
  let! ciphertext := slice_from data 12 in
  Ok (mk nonce ciphertext).

Definition wf (self : t) : Prop :=
  block 12 (nonce self) ∧ bytes_ok (ciphertext self) ∧ 16 ≤ zlen (ciphertext self).
End EncryptedDocument.

Module MeshEncryptionKey.
Record t := mk { key : list Z }.

Definition HKDF_INFO : list Z := str "PEAT-BTLE-mesh-encryption-v1"%string.

Section ops.
Context `{Crypto}.

Definition from_shared_secret (mesh_id secret : list Z) : t :=
  mk (hkdf_sha256 mesh_id secret HKDF_INFO).
(** [nonce] is the random nonce of this encryption. *)
Definition encrypt (self : t) (nonce plaintext : list Z)
    : result EncryptedDocument.t EncryptionError.t :=
  let? ciphertext := ok_or (aead_seal (key self) nonce plaintext)
                       EncryptionError.EncryptionFailed in
  Okay (EncryptedDocument.mk nonce ciphertext).
Definition decrypt (self : t) (encrypted : EncryptedDocument.t)
    : result (list Z) EncryptionError.t :=
  ok_or (aead_open (key self) (EncryptedDocument.nonce encrypted)
           (EncryptedDocument.ciphertext encrypted)) EncryptionError.DecryptionFailed.
Definition encrypt_to_bytes (self : t) (nonce plaintext : list Z)
    : result (list Z) EncryptionError.t :=
  let? encrypted := encrypt self nonce plaintext in
  Okay (EncryptedDocument.encode encrypted).
Definition decrypt_from_bytes (self : t) (data : list Z)
    : outcome (result (list Z) EncryptionError.t) :=
  let! decoded := opt (EncryptedDocument.decode data) in
  Ok (let? encrypted := ok_or decoded EncryptionError.InvalidFormat in decrypt self encrypted).
End ops.

End MeshEncryptionKey.

(** ** Peer keys *)

Module PeerSessionKey.
Record t := mk { key : list Z }.
Definition as_bytes (self : t) : list Z := key self.
End PeerSessionKey.

Module SharedSecret.
Record t := mk { bytes : list Z }.

Definition PEER_E2EE_HKDF_INFO : list Z := str "PEAT-peer-e2ee-v1"%string.

Definition derive_session_key `{Crypto} (self : t) (our_node_id peer_node_id : Z)
    : PeerSessionKey.t :=
  let '(id1, id2) :=
    if our_node_id <? peer_node_id then (our_node_id, peer_node_id)
    else (peer_node_id, our_node_id) in
  let salt := le 4 id1 ++ le 4 id2 in
  PeerSessionKey.mk (hkdf_sha256 salt (bytes self) PEER_E2EE_HKDF_INFO).
End SharedSecret.

Module PeerIdentityKey.
Record t := mk { secret : list Z; public : list Z }.
Section ops.
Context `{Crypto}.
Definition from_secret_bytes (bytes : list Z) : t := mk bytes (x25519_public bytes).
(** [random]: the 32 bytes drawn. *)
Definition generate (random : list Z) : t := from_secret_bytes random.
Definition public_key_bytes (self : t) : list Z := public self.
Definition exchange (self : t) (peer_public : list Z) : SharedSecret.t :=
  SharedSecret.mk (x25519 (secret self) peer_public).
Definition exchange_with_bytes (self : t) (peer_public_bytes : list Z) : SharedSecret.t :=
  exchange self peer_public_bytes.
End ops.
End PeerIdentityKey.

Module KeyExchangeMessage.
Record t := mk { sender_node_id : Z; public_key : list Z; is_ephemeral : bool }.

Definition new (sender_node_id : Z) (public_key : list Z) (is_ephemeral : bool) : t :=
  mk sender_node_id public_key is_ephemeral.
Definition encode (self : t) : list Z :=
  le 4 (sender_node_id self) ++ [if is_ephemeral self then 0x01 else 0x00] ++ public_key self.
Definition decode (data : list Z) : outcome t :=
  reject_if zlen data <? 37 ;;
  let! sender_node_id := u32_at data 0 in
  let! flags := u8_at data 4 in
  let is_ephemeral := has_bit flags 0x01 in
  let! public_key := slice data 5 37 in
  Ok (mk sender_node_id public_key is_ephemeral).

Definition wf (self : t) : Prop :=
  in_u 32 (sender_node_id self) ∧ block 32 (public_key self).
End KeyExchangeMessage.

(** ** A concrete suite

    Sums of bytes in place of the primitives: lawful, and worthless as
    cryptography. *)
Module Toy.

Definition mix (a : list Z) : Z := foldr (λ b acc, (b + 31 * acc) mod 256) 7 a.
Definition digest (n : nat) (a : list Z) : list Z := map (λ i, (mix a + i) mod 256) (seqZ 0 (Z.of_nat n)).
Definition add (a b : list Z) : list Z := zip_with (λ x y, (x + y) mod 256) a b.
Definition tag (k n p : list Z) : list Z := digest 16 (k ++ n ++ p).
Definition seal (k n p : list Z) : option (list Z) := Some (p ++ tag k n p).
Definition unseal (k n c : list Z) : option (list Z) :=
  let p := ztake (zlen c - 16) c in
  if bool_decide (c = p ++ tag k n p) then Some p else None.

#[global] Instance suite : Crypto := {
  x25519_public a := a;
  x25519 a b := add a b;
  hkdf_sha256 salt ikm info := digest 32 (salt ++ ikm ++ info);
  aead_seal := seal;
  aead_open := unseal;
  ed25519_public sk := sk;
  ed25519_sign sk m := digest 64 (sk ++ m);
  ed25519_key pk := bool_decide (zlen pk = 32);
  ed25519_verify pk m sig := bool_decide (sig = digest 64 (pk ++ m));
  blake3 m := digest 32 m;
  blake3_keyed k m := digest 32 (k ++ m);
  blake3_derive c k := digest 32 (c ++ k)
}.

Lemma digest_block n a : block (Z.of_nat n) (digest n a).
Proof.
  split.
  - apply Forall_forall. intros x (i & -> & _)%list_elem_of_fmap.
    pose proof (Z.mod_pos_bound (mix a + i) 256 ltac:(lia)). lia.
  - unfold digest. rewrite length_map, length_seqZ. lia.
Qed.

Lemma add_comm a b : add a b = add b a.
Proof.
  revert b. induction a as [|x a IH]; intros [|y b]; cbn; [done..|].
  rewrite (Z.add_comm x y). f_equal. apply IH.
Qed.

#[global] Instance suite_laws : CryptoLaws.
Proof.
  split; cbn.
  - intros a b _ _. apply add_comm.
  - done.
  - intros. apply (digest_block 32).
  - intros. by eexists.
  - unfold seal, unseal. intros k n p c [= <-].
    assert (zlen (p ++ tag k n p) - 16 = zlen p) as ->.
    { pose proof (digest_block 16 (k ++ n ++ p)) as [_ Ht]. unfold tag. len. }
    rewrite ztake_app_exact by done. by rewrite bool_decide_eq_true_2.
  - unfold seal. intros k n p c Hp [= <-]. destruct (digest_block 16 (k ++ n ++ p)) as [Hb Hl].
    split; [by apply bytes_app|]. unfold tag. len.
  - unfold unseal. intros k n c p Hc. case_bool_decide; [|done]. intros [= <-].
    by apply bytes_ztake.
  - intros sk Hsk. split; [done|]. apply bool_decide_eq_true_2, Hsk.
  - intros. apply (digest_block 64).
  - intros. by apply bool_decide_eq_true_2.
  - intros. apply (digest_block 32).
  - intros. apply (digest_block 32).
  - intros. apply (digest_block 32).
Qed.
End Toy.

(** * Theorems *)

Module CryptoProofs.

Lemma encrypted_document_roundtrip d :
  EncryptedDocument.wf d → EncryptedDocument.decode (EncryptedDocument.encode d) = Ok d.
Proof.
  destruct d as [n c]. intros ([_ Hn] & _ & Hc). cbn in *.
  unfold EncryptedDocument.decode, EncryptedDocument.encode, EncryptedDocument.OVERHEAD. cbn.
  rewrite (proj2 (Z.ltb_ge _ _)) by len.
  rewrite slice_here, slice_from_app by done. done.
Qed.
Lemma encrypted_document_wp data :
  bytes_ok data → wp (EncryptedDocument.decode data) EncryptedDocument.wf.
Proof.
  intros Hb. unfold EncryptedDocument.decode, EncryptedDocument.OVERHEAD. wp_steps.
  split_and!; cbn; (done || lia).
Qed.
#[global] Instance encrypted_document_codec :
  WireCodec EncryptedDocument.encode EncryptedDocument.decode EncryptedDocument.wf.
Proof.
  split.
  - intros d ([? _] & ? & _). by apply bytes_app.
  - apply encrypted_document_roundtrip.
  - apply encrypted_document_wp.
Qed.

Lemma key_exchange_roundtrip m rest :
  KeyExchangeMessage.wf m → KeyExchangeMessage.decode (KeyExchangeMessage.encode m ++ rest) = Ok m.
Proof.
  destruct m as [n k e]. intros [Hn [_ Hk]]. cbn in *.
  unfold KeyExchangeMessage.decode, KeyExchangeMessage.encode. cbn.
  rewrite (proj2 (Z.ltb_ge _ _)) by len. rewrite <-!app_assoc. cbn [app]. destruct e; by rd.
Qed.
Lemma key_exchange_wp data :
  bytes_ok data → wp (KeyExchangeMessage.decode data) KeyExchangeMessage.wf.
Proof.
  intros Hb. unfold KeyExchangeMessage.decode. wp_steps. split_and!; cbn; (done || lia).
Qed.
#[global] Instance key_exchange_codec :
  WireCodec KeyExchangeMessage.encode KeyExchangeMessage.decode KeyExchangeMessage.wf.
Proof.
  split.
  - intros m [Hn [Hb _]]. unfold KeyExchangeMessage.encode. apply bytes_app; [auto with bytes|].
    apply bytes_cons; [destruct (KeyExchangeMessage.is_ephemeral m); lia|done].
  - intros m Hm. rewrite <-(app_nil_r (KeyExchangeMessage.encode m)).
    by apply key_exchange_roundtrip.
  - apply key_exchange_wp.
Qed.

Section crypto.
Context `{CryptoLaws}.

(** Both ends of an exchange derive the same session key. *)
Lemma session_key_agrees a b secret_a secret_b :
  block 32 secret_a → block 32 secret_b →
  SharedSecret.derive_session_key
    (PeerIdentityKey.exchange (PeerIdentityKey.from_secret_bytes secret_a)
       (x25519_public secret_b)) a b
  = SharedSecret.derive_session_key
    (PeerIdentityKey.exchange (PeerIdentityKey.from_secret_bytes secret_b)
       (x25519_public secret_a)) b a.
Proof.
  intros Ha Hb. unfold SharedSecret.derive_session_key, PeerIdentityKey.exchange. cbn.
  rewrite (x25519_agree secret_a secret_b) by done.
  destruct (Z.ltb_spec a b), (Z.ltb_spec b a); try done; [lia|].
  assert (a = b) as -> by lia. done.
Qed.

Lemma mesh_roundtrip key nonce p :
  block 32 (MeshEncryptionKey.key key) → block 12 nonce → bytes_ok p →
  ∃ data, MeshEncryptionKey.encrypt_to_bytes key nonce p = Okay data
    ∧ bytes_ok data ∧ zlen data = zlen p + EncryptedDocument.OVERHEAD
    ∧ MeshEncryptionKey.decrypt_from_bytes key data = Ok (Okay p).
Proof.
  intros Hk Hn Hp. unfold MeshEncryptionKey.encrypt_to_bytes, MeshEncryptionKey.encrypt.
  destruct (aead_total (MeshEncryptionKey.key key) nonce p) as [c Hc]; [done..|].
  rewrite Hc. cbn [ok_or rbind]. eexists. split; [done|].
  destruct (aead_size _ _ _ _ Hp Hc) as [Hcb Hcl]. pose proof Hn as [Hnb Hnl].
  assert (EncryptedDocument.wf (EncryptedDocument.mk nonce c)) as Hwf.
  { split_and!; cbn; [done|done|]. pose proof (Zle_0_nat (length p)). lia. }
  split_and!.
  - by apply bytes_app.
  - unfold EncryptedDocument.encode, EncryptedDocument.OVERHEAD. cbn. len.
  - unfold MeshEncryptionKey.decrypt_from_bytes. rewrite encrypted_document_roundtrip by done.
    cbn. unfold MeshEncryptionKey.decrypt. cbn. by rewrite (aead_correct _ _ _ _ Hc).
Qed.
End crypto.
End CryptoProofs.
