(* ===== verification/Session.v ===== *)
(** * End-to-end sessions between two peers: src/src/security/peer_session.rs. *)

From stdpp Require Import base numbers list gmap sorting.
From S2P Require Import Prelude Crypto.
Open Scope Z_scope.
Open Scope peat_scope.

Definition DEFAULT_SESSION_TIMEOUT_MS : Z := 30 * 60 * 1000.
Definition DEFAULT_MAX_SESSIONS : Z := 16.

Module SessionState.
Inductive t := AwaitingPeerKey | Established | Closed.
#[global] Instance session_state_eq_dec : EqDecision t.
Proof. solve_decision. Defined.
End SessionState.

Module PeerSession.

Record t := mk {
  peer_node_id : Z; state : SessionState.t; session_key : option PeerSessionKey.t;
  peer_public_key : option (list Z); created_at_ms : Z; last_activity_ms : Z;
  outbound_counter : Z; inbound_counter : Z
}.

Definition new_initiator (peer_node_id now_ms : Z) : t :=
  mk peer_node_id SessionState.AwaitingPeerKey None None now_ms now_ms 0 0.
Definition new_responder (peer_node_id : Z) (session_key : PeerSessionKey.t)
    (peer_public_key : list Z) (now_ms : Z) : t :=
  mk peer_node_id SessionState.Established (Some session_key) (Some peer_public_key)
    now_ms now_ms 0 0.
Definition complete_handshake (self : t) (session_key : PeerSessionKey.t)
    (peer_public_key : list Z) (now_ms : Z) : t :=
  mk (peer_node_id self) SessionState.Established (Some session_key) (Some peer_public_key)
    (created_at_ms self) now_ms (outbound_counter self) (inbound_counter self).
Definition is_established (self : t) : bool :=
  bool_decide (state self = SessionState.Established) && bool_decide (is_Some (session_key self)).
Definition is_expired (self : t) (now_ms timeout_ms : Z) : bool :=
  timeout_ms <? saturating_sub now_ms (last_activity_ms self).
Definition next_outbound_counter (self : t) : t * Z :=
  (mk (peer_node_id self) (state self) (session_key self) (peer_public_key self)
     (created_at_ms self) (last_activity_ms self) (wrapping_add 64 (outbound_counter self) 1)
     (inbound_counter self), outbound_counter self).
Definition validate_inbound_counter (self : t) (counter : Z) : t * bool :=
  if inbound_counter self <=? counter then
    (mk (peer_node_id self) (state self) (session_key self) (peer_public_key self)
       (created_at_ms self) (last_activity_ms self) (outbound_counter self)
       (saturating_add 64 counter 1), true)
  else (self, false).
Definition touch (self : t) (now_ms : Z) : t :=
  mk (peer_node_id self) (state self) (session_key self) (peer_public_key self)
    (created_at_ms self) now_ms (outbound_counter self) (inbound_counter self).
Definition close (self : t) : t :=
  mk (peer_node_id self) SessionState.Closed (session_key self) (peer_public_key self)
    (created_at_ms self) (last_activity_ms self) (outbound_counter self) (inbound_counter self).

End PeerSession.

Module PeerEncryptedMessage.

Record t := mk {
  recipient_node_id : Z; sender_node_id : Z; counter : Z; nonce : list Z; ciphertext : list Z
}.
Definition OVERHEAD : Z := 4 + 4 + 8 + 12 + 16.

Definition encode (self : t) : list Z :=
  le 4 (recipient_node_id self) ++ le 4 (sender_node_id self) ++ le 8 (counter self)
  ++ nonce self ++ ciphertext self.
Definition decode (data : list Z) : outcome t :=
  reject_if zlen data <? 44 ;;
  let! recipient_node_id := u32_at data 0 in
  let! sender_node_id := u32_at data 4 in
  let! counter := u64_at data 8 in
  let! nonce := slice data 16 28 in
  let! ciphertext := slice_from data 28 in
  Ok (mk recipient_node_id sender_node_id counter nonce ciphertext).

Definition wf (self : t) : Prop :=
  in_u 32 (recipient_node_id self) ∧ in_u 32 (sender_node_id self) ∧ in_u 64 (counter self)
  ∧ block 12 (nonce self) ∧ bytes_ok (ciphertext self) ∧ 16 ≤ zlen (ciphertext self).

End PeerEncryptedMessage.

Module PeerSessionManager.

Record t := mk {
  our_node_id : Z; identity_key : PeerIdentityKey.t; sessions : gmap Z PeerSession.t;
  max_sessions : Z; session_timeout_ms : Z
}.
Definition set_sessions (self : t) (m : gmap Z PeerSession.t) : t :=
  mk (our_node_id self) (identity_key self) m (max_sessions self) (session_timeout_ms self).

Definition with_identity_key (our_node_id : Z) (identity_key : PeerIdentityKey.t) : t :=
  mk our_node_id identity_key ∅ DEFAULT_MAX_SESSIONS DEFAULT_SESSION_TIMEOUT_MS.
Definition with_max_sessions (self : t) (max : Z) : t :=
  mk (our_node_id self) (identity_key self) (sessions self) max (session_timeout_ms self).
Definition with_session_timeout (self : t) (timeout_ms : Z) : t :=
  mk (our_node_id self) (identity_key self) (sessions self) (max_sessions self) timeout_ms.
Definition our_public_key (self : t) : list Z := PeerIdentityKey.public_key_bytes (identity_key self).
Definition session_count (self : t) : Z := Z.of_nat (size (sessions self)).
Definition has_session (self : t) (peer_node_id : Z) : bool :=
  match sessions self !! peer_node_id with
  | Some s => PeerSession.is_established s | None => false
  end.
Definition session_state (self : t) (peer_node_id : Z) : option SessionState.t :=
  PeerSession.state <$> sessions self !! peer_node_id.
Definition close_session (self : t) (peer_node_id : Z) : t :=
  match sessions self !! peer_node_id with
  | Some session => set_sessions self (<[peer_node_id := PeerSession.close session]> (sessions self))
  | None => self
  end.
Definition remove_session (self : t) (peer_node_id : Z) : t * option PeerSession.t :=
  (set_sessions self (delete peer_node_id (sessions self)), sessions self !! peer_node_id).

(** [min_by_key] on the times of last activity: the first of the least. *)
Definition oldest (l : list (Z * PeerSession.t)) : option Z :=
  fst <$> foldl (λ best e,
      match best with
      | Some b => if PeerSession.last_activity_ms e.2 <? PeerSession.last_activity_ms b.2
                  then Some e else best
      | None => Some e
      end) None l.

Section iteration.
Context `{!MapOrder Z}.

Definition established_count (self : t) : Z :=
  zlen (filter (λ e, PeerSession.is_established e.2 = true) (map_iter (sessions self))).
Definition cleanup_expired (self : t) (now_ms : Z) : t * list Z :=
  let timeout := session_timeout_ms self in
  let expired :=
    (filter (λ e, PeerSession.is_expired e.2 now_ms timeout = true) (map_iter (sessions self))).*1 in
  (set_sessions self (foldl (λ m id, delete id m) (sessions self) expired), expired).

(** The loop removes a session per round, or breaks. *)
Fixpoint evict (fuel : nat) (max : Z) (m : gmap Z PeerSession.t) : gmap Z PeerSession.t :=
  match fuel with
  | O => m
  | S fuel =>
      if max <? Z.of_nat (size m) then
        match oldest (filter (λ e, PeerSession.state e.2 = SessionState.Closed) (map_iter m)) with
        | Some id => evict fuel max (delete id m)
        | None =>
            match oldest (filter (λ e, PeerSession.is_established e.2 = false) (map_iter m)) with
            | Some id => evict fuel max (delete id m)
            | None => m
            end
        end
      else m
  end.
Definition enforce_session_limit (self : t) (now_ms : Z) : t :=
  let '(self, _) := cleanup_expired self now_ms in
  set_sessions self (evict (size (sessions self)) (max_sessions self) (sessions self)).

Context `{Crypto}.

Definition new (our_node_id : Z) (random : list Z) : t :=
  with_identity_key our_node_id (PeerIdentityKey.generate random).

Definition initiate_session (self : t) (peer_node_id now_ms : Z) : t * KeyExchangeMessage.t :=
  let session := PeerSession.new_initiator peer_node_id now_ms in
  let self := set_sessions self (<[peer_node_id := session]> (sessions self)) in
  let self := enforce_session_limit self now_ms in
  (self, KeyExchangeMessage.new (our_node_id self) (our_public_key self) false).

(** What remains of [handle_key_exchange] once a new peer can be taken. *)
Definition accept_peer (self : t) (peer_node_id : Z) (session_key : PeerSessionKey.t)
    (public_key : list Z) (now_ms : Z) : t * option (KeyExchangeMessage.t * bool) :=
  let session := PeerSession.new_responder peer_node_id session_key public_key now_ms in
  (set_sessions self (<[peer_node_id := session]> (sessions self)),
   Some (KeyExchangeMessage.new (our_node_id self) (our_public_key self) false, true)).

Definition handle_key_exchange (self : t) (msg : KeyExchangeMessage.t) (now_ms : Z)
    : t * option (KeyExchangeMessage.t * bool) :=
  let peer_node_id := KeyExchangeMessage.sender_node_id msg in
  let shared_secret :=
    PeerIdentityKey.exchange (identity_key self) (KeyExchangeMessage.public_key msg) in
  let session_key := SharedSecret.derive_session_key shared_secret (our_node_id self) peer_node_id in
  match sessions self !! peer_node_id with
  | Some session =>
      if decide (PeerSession.state session = SessionState.AwaitingPeerKey) then
        let session := PeerSession.complete_handshake session session_key
                         (KeyExchangeMessage.public_key msg) now_ms in
        (set_sessions self (<[peer_node_id := session]> (sessions self)),
         Some (KeyExchangeMessage.new (our_node_id self) (our_public_key self) false, true))
      else (self, None)
  | None =>
      if max_sessions self <=? session_count self then
        let '(self, _) := cleanup_expired self now_ms in
        if max_sessions self <=? session_count self then (self, None)
        else accept_peer self peer_node_id session_key (KeyExchangeMessage.public_key msg) now_ms
      else accept_peer self peer_node_id session_key (KeyExchangeMessage.public_key msg) now_ms
  end.

(** [nonce]: the 12 random bytes of this message. *)
Definition encrypt_for_peer (self : t) (peer_node_id : Z) (nonce plaintext : list Z) (now_ms : Z)
    : t * result PeerEncryptedMessage.t EncryptionError.t :=
  match sessions self !! peer_node_id with
  | None => (self, Err EncryptionError.EncryptionFailed)
  | Some session =>
      if negb (PeerSession.is_established session)
      then (self, Err EncryptionError.EncryptionFailed)
      else
        match PeerSession.session_key session with
        | None => (self, Err EncryptionError.EncryptionFailed)
        | Some key =>
            let '(session, counter) := PeerSession.next_outbound_counter session in
            let session := PeerSession.touch session now_ms in
            let self := set_sessions self (<[peer_node_id := session]> (sessions self)) in
            (self,
             let? ciphertext := ok_or (aead_seal (PeerSessionKey.as_bytes key) nonce plaintext)
                                  EncryptionError.EncryptionFailed in
             Okay (PeerEncryptedMessage.mk peer_node_id (our_node_id self) counter nonce ciphertext))
        end
  end.

Definition decrypt_from_peer (self : t) (msg : PeerEncryptedMessage.t) (now_ms : Z)
    : t * result (list Z) EncryptionError.t :=
  let failed := Err EncryptionError.DecryptionFailed in
  if negb (PeerEncryptedMessage.recipient_node_id msg =? our_node_id self) then (self, failed)
  else
    let sender := PeerEncryptedMessage.sender_node_id msg in
    match sessions self !! sender with
    | None => (self, failed)
    | Some session =>
        if negb (PeerSession.is_established session) then (self, failed)
        else
          let '(session, valid) :=
            PeerSession.validate_inbound_counter session (PeerEncryptedMessage.counter msg) in
          if negb valid then (set_sessions self (<[sender := session]> (sessions self)), failed)
          else
            match PeerSession.session_key session with
            | None => (set_sessions self (<[sender := session]> (sessions self)), failed)
            | Some key =>
                let session := PeerSession.touch session now_ms in
                (set_sessions self (<[sender := session]> (sessions self)),
                 ok_or (aead_open (PeerSessionKey.as_bytes key) (PeerEncryptedMessage.nonce msg)
                          (PeerEncryptedMessage.ciphertext msg)) EncryptionError.DecryptionFailed)
            end
    end.
End iteration.

End PeerSessionManager.

(** ** Runs *)
Module SessionRuns.
Import PeerSessionManager.

Section runs.
Context `{!MapOrder Z} `{Crypto}.

(** What a node does with its sessions between handshakes: messages arrive,
    from anybody, and messages are sent. *)
Inductive event :=
| Recv (msg : PeerEncryptedMessage.t) (now_ms : Z)
| Send (peer : Z) (nonce plaintext : list Z) (now_ms : Z).

(** The senders and counters of the messages that are decrypted. *)
Fixpoint accepted (self : t) (evs : list event) : list (Z * Z) :=
  match evs with
  | [] => []
  | Recv msg now :: evs =>
      let '(self, r) := decrypt_from_peer self msg now in
      match r with
      | Okay _ => (PeerEncryptedMessage.sender_node_id msg, PeerEncryptedMessage.counter msg)
                    :: accepted self evs
      | Err _ => accepted self evs
      end
  | Send peer nonce plaintext now :: evs =>
      accepted (encrypt_for_peer self peer nonce plaintext now).1 evs
  end.

(** A key exchange, over the wire. *)
Definition handshake (a b : t) (now : Z) : outcome (t * t) :=
  let '(a, hello) := initiate_session a (our_node_id b) now in
  let! hello := KeyExchangeMessage.decode (KeyExchangeMessage.encode hello) in
  let '(b, answer) := handle_key_exchange b hello now in
  match answer with
  | Some (answer, _) =>
      let! answer := KeyExchangeMessage.decode (KeyExchangeMessage.encode answer) in
      let '(a, _) := handle_key_exchange a answer now in
      Ok (a, b)
  | None => Ok (a, b)
  end.

(** A message from [a] to [b], over the wire. *)
Definition tell (a b : t) (nonce plaintext : list Z) (now : Z)
    : outcome (t * t * result (list Z) EncryptionError.t) :=
  let '(a, sent) := encrypt_for_peer a (our_node_id b) nonce plaintext now in
  match sent with
  | Okay msg =>
      let! msg := PeerEncryptedMessage.decode (PeerEncryptedMessage.encode msg) in
      let '(b, r) := decrypt_from_peer b msg now in
      Ok (a, b, r)
  | Err e => Ok (a, b, Err e)
  end.

(** [true]: from [a] to [b]. *)
Fixpoint talk (a b : t) (now : Z) (lines : list (bool * list Z * list Z))
    : outcome (list (result (list Z) EncryptionError.t)) :=
  match lines with
  | [] => Ok []
  | (dir, nonce, plaintext) :: lines =>
      let! r := if dir : bool then tell a b nonce plaintext now
                else let! r := tell b a nonce plaintext now in Ok (r.1.2, r.1.1, r.2) in
      let '(a, b, r) := r in
      let! rs := talk a b now lines in
      Ok (r :: rs)
  end.
End runs.
End SessionRuns.

(** * Theorems *)

Module SessionProofs.
Import PeerSessionManager SessionRuns.

(** ** Wire format *)

Lemma peer_message_decode_encode m :
  PeerEncryptedMessage.wf m → PeerEncryptedMessage.decode (PeerEncryptedMessage.encode m) = Ok m.
Proof.
  destruct m as [r s c n ct]. intros (Hr & Hs & Hc & [_ Hn] & _ & Hct). cbn in *.
  unfold PeerEncryptedMessage.decode, PeerEncryptedMessage.encode. cbn.
  rewrite (proj2 (Z.ltb_ge _ _)) by len. by rd.
Qed.
Lemma message_decode_wp data :
  bytes_ok data → wp (PeerEncryptedMessage.decode data) PeerEncryptedMessage.wf.
Proof.
  intros Hb. unfold PeerEncryptedMessage.decode. wp_steps. split_and!; cbn; (done || lia).
Qed.
#[global] Instance message_codec :
  WireCodec PeerEncryptedMessage.encode PeerEncryptedMessage.decode PeerEncryptedMessage.wf.
Proof.
  split.
  - intros m (_ & _ & _ & [? _] & ? & _). unfold PeerEncryptedMessage.encode. auto 10 with bytes.
  - apply peer_message_decode_encode.
  - apply message_decode_wp.
Qed.

Section crypto.
Context `{!MapOrder Z} `{Crypto}.

(** ** Replays *)

Definition inbound (self : t) (p : Z) : Z :=
  match sessions self !! p with Some s => PeerSession.inbound_counter s | None => 0 end.

(** What a decryption does to the state: it looks at the counter first. *)
Definition counted (self : t) (msg : PeerEncryptedMessage.t) : Prop :=
  PeerEncryptedMessage.recipient_node_id msg = our_node_id self
  ∧ ∃ s, sessions self !! PeerEncryptedMessage.sender_node_id msg = Some s
      ∧ PeerSession.is_established s = true
      ∧ PeerSession.inbound_counter s ≤ PeerEncryptedMessage.counter msg.

Lemma established_key s :
  PeerSession.is_established s = true → ∃ k, PeerSession.session_key s = Some k.
Proof.
  unfold PeerSession.is_established. intros [_ Hk]%andb_prop. by apply bool_decide_eq_true in Hk.
Qed.

Lemma decrypt_counted self msg now s :
  PeerEncryptedMessage.recipient_node_id msg = our_node_id self →
  sessions self !! PeerEncryptedMessage.sender_node_id msg = Some s →
  PeerSession.is_established s = true →
  PeerSession.inbound_counter s ≤ PeerEncryptedMessage.counter msg →
  ∃ k, PeerSession.session_key s = Some k ∧
  decrypt_from_peer self msg now
  = (set_sessions self (<[PeerEncryptedMessage.sender_node_id msg :=
       PeerSession.mk (PeerSession.peer_node_id s) (PeerSession.state s)
         (PeerSession.session_key s) (PeerSession.peer_public_key s) (PeerSession.created_at_ms s)
         now (PeerSession.outbound_counter s)
         (saturating_add 64 (PeerEncryptedMessage.counter msg) 1)]> (sessions self)),
     ok_or (aead_open (PeerSessionKey.as_bytes k) (PeerEncryptedMessage.nonce msg)
              (PeerEncryptedMessage.ciphertext msg)) EncryptionError.DecryptionFailed).
Proof.
  intros Hr Hs He Hc. destruct (established_key s He) as [k Hk]. exists k. split; [done|].
  unfold decrypt_from_peer. rewrite Hr, Z.eqb_refl, Hs, He. cbn [negb].
  unfold PeerSession.validate_inbound_counter. rewrite (proj2 (Z.leb_le _ _)) by done.
  cbn [negb PeerSession.session_key]. rewrite Hk. done.
Qed.
Lemma decrypt_rejected self msg now :
  ¬ counted self msg →
  (∀ p, inbound (decrypt_from_peer self msg now).1 p = inbound self p)
  ∧ (decrypt_from_peer self msg now).2 = Err EncryptionError.DecryptionFailed.
Proof.
  intros Hn. unfold decrypt_from_peer.
  destruct (Z.eqb_spec (PeerEncryptedMessage.recipient_node_id msg) (our_node_id self)); [|done].
  cbn [negb]. destruct (sessions self !! _) as [s|] eqn:Hs; [|done].
  destruct (PeerSession.is_established s) eqn:He; [|done]. cbn [negb].
  unfold PeerSession.validate_inbound_counter.
  destruct (Z.leb_spec (PeerSession.inbound_counter s) (PeerEncryptedMessage.counter msg)).
  { destruct Hn. split; [done|]. eauto. }
  cbn [negb]. split; [|done]. intros p. unfold inbound. cbn.
  rewrite insert_id by done. done.
Qed.
Lemma counted_dec self msg : counted self msg ∨ ¬ counted self msg.
Proof.
  unfold counted.
  destruct (decide (PeerEncryptedMessage.recipient_node_id msg = our_node_id self)) as [Hr|];
    [|right; by intros [? _]].
  destruct (sessions self !! _) as [s|]; [|right; by intros (_ & ? & ? & _)].
  destruct (PeerSession.is_established s) eqn:He;
    [|right; intros (_ & ? & [= ->] & ? & _); congruence].
  destruct (decide (PeerSession.inbound_counter s ≤ PeerEncryptedMessage.counter msg)); [left; eauto|].
  right. by intros (_ & ? & [= ->] & _ & ?).
Qed.

Lemma send_inbound self peer nonce plaintext now p :
  inbound (encrypt_for_peer self peer nonce plaintext now).1 p = inbound self p.
Proof.
  unfold encrypt_for_peer. destruct (sessions self !! peer) as [s|] eqn:Hs; [|done].
  destruct (PeerSession.is_established s); [|done]. cbn [negb].
  destruct (PeerSession.session_key s); [|done]. cbn. unfold inbound. cbn.
  destruct (decide (p = peer)) as [->|]; [by rewrite lookup_insert_eq, Hs|].
  by rewrite lookup_insert_ne.
Qed.

(** Strictly increasing per sender, up to the last counter. *)
Definition later (x y : Z * Z) : Prop :=
  x.1 = y.1 → x.2 < y.2 ∨ (x.2 = u64_max ∧ y.2 = u64_max).
Definition event_ok (ev : event) : Prop :=
  match ev with Recv msg _ => in_u 64 (PeerEncryptedMessage.counter msg) | Send _ _ _ _ => True end.

Lemma accepted_sorted evs : ∀ self,
  Forall event_ok evs →
  Forall (λ x, inbound self x.1 ≤ x.2 ∧ x.2 ≤ u64_max) (accepted self evs)
  ∧ StronglySorted later (accepted self evs).
Proof.
  induction evs as [|[msg now|peer nonce pt now] evs IH]; intros self Hok; cbn [accepted].
  - split; constructor.
  - apply Forall_cons in Hok as [Hc Hok]. cbn in Hc.
    destruct (counted_dec self msg) as [(Hr & s & Hs & He & Hle)|Hn].
    2: { destruct (decrypt_rejected self msg now Hn) as [Hi Hf].
         destruct (decrypt_from_peer self msg now) as [self' r]. cbn in *. subst r.
         destruct (IH self' Hok) as [Hall Hsort]. split; [|done].
         eapply Forall_impl; [exact Hall|]. intros x; cbn. by rewrite Hi. }
    destruct (decrypt_counted self msg now s Hr Hs He Hle) as (k & _ & ->).
    set (sender := PeerEncryptedMessage.sender_node_id msg) in *.
    set (c := PeerEncryptedMessage.counter msg) in *.
    match goal with |- context [set_sessions self ?m] => set (self' := set_sessions self m) end.
    destruct (IH self' Hok) as [Hall Hsort].
    assert (inbound self sender ≤ c) as Hin by (unfold inbound; by rewrite Hs).
    assert (∀ x, inbound self' x.1 ≤ x.2 ∧ x.2 ≤ u64_max →
      (inbound self x.1 ≤ x.2 ∧ x.2 ≤ u64_max) ∧ later (sender, c) x) as Hnext.
    { intros [p c'] [Hp Hu]. unfold inbound, self' in Hp. cbn in *.
      destruct (decide (p = sender)) as [->|Hne].
      - rewrite lookup_insert_eq in Hp. cbn in Hp. unfold saturating_add, u64_max in *.
        split; [lia|]. unfold later, u64_max. cbn. lia.
      - rewrite lookup_insert_ne in Hp by done. split; [by split|]. by intros [=]. }
    assert (Forall (λ x, inbound self x.1 ≤ x.2 ∧ x.2 ≤ u64_max) (accepted self' evs)) as Hall'.
    { eapply Forall_impl; [exact Hall|]. intros x Hx. by apply Hnext. }
    destruct (ok_or _ _) as [p|e]; [|by split].
    split; constructor; try done.
    + cbn. unfold u64_max. lia.
    + eapply Forall_impl; [exact Hall|]. intros x Hx. by apply Hnext.
  - apply Forall_cons in Hok as [_ Hok]. destruct (IH (encrypt_for_peer self peer nonce pt now).1 Hok)
      as [Hall Hsort]. split; [|done]. eapply Forall_impl; [exact Hall|]. intros x; cbn.
    by rewrite send_inbound.
Qed.
End crypto.

(** ** From the handshake to the conversation *)

Section session.
Context `{!MapOrder Z} `{CryptoLaws}.

(** Both sessions are established on one key, and each side expects the
    counter the other sends next; [n] more messages can be numbered. *)
Definition linked (n : Z) (a b : t) : Prop :=
  ∃ k sa sb,
    sessions a !! our_node_id b = Some sa ∧ sessions b !! our_node_id a = Some sb
    ∧ PeerSession.state sa = SessionState.Established
    ∧ PeerSession.state sb = SessionState.Established
    ∧ PeerSession.session_key sa = Some k ∧ PeerSession.session_key sb = Some k
    ∧ block 32 (PeerSessionKey.key k)
    ∧ 0 ≤ PeerSession.inbound_counter sb ∧ 0 ≤ PeerSession.inbound_counter sa
    ∧ PeerSession.inbound_counter sb = PeerSession.outbound_counter sa
    ∧ PeerSession.inbound_counter sa = PeerSession.outbound_counter sb
    ∧ PeerSession.outbound_counter sa + n < 2 ^ 64
    ∧ PeerSession.outbound_counter sb + n < 2 ^ 64
    ∧ in_u 32 (our_node_id a) ∧ in_u 32 (our_node_id b).

Lemma linked_sym n a b : linked n a b → linked n b a.
Proof. unfold linked. intros (k & sa & sb & ?). exists k, sb, sa. naive_solver. Qed.

Lemma tell_steps n a b nonce p now :
  0 ≤ n → linked (n + 1) a b → block 12 nonce → bytes_ok p →
  ∃ a' b' msg, encrypt_for_peer a (our_node_id b) nonce p now = (a', Okay msg)
    ∧ PeerEncryptedMessage.wf msg ∧ PeerEncryptedMessage.sender_node_id msg = our_node_id a
    ∧ decrypt_from_peer b msg now = (b', Okay p) ∧ linked n a' b'
    ∧ our_node_id a' = our_node_id a ∧ our_node_id b' = our_node_id b.
Proof.
  intros Hn0 (k & sa & sb & Hsa & Hsb & Hea & Heb & Hka & Hkb & Hk & Hab0 & Hba0 & Hab & Hba
    & Hna & Hnb & Hia & Hib)
    Hnonce Hp.
  assert (∀ s, PeerSession.state s = SessionState.Established →
    PeerSession.session_key s = Some k → PeerSession.is_established s = true) as Hest.
  { intros s Hs Hsk. unfold PeerSession.is_established. rewrite Hs, Hsk.
    by rewrite !bool_decide_eq_true_2 by (done || eauto). }
  destruct (aead_total (PeerSessionKey.key k) nonce p) as [c Hc]; [done..|].
  destruct (aead_size _ _ _ _ Hp Hc) as [Hcb Hcl].
  unfold encrypt_for_peer. rewrite Hsa, Hest by done. cbn [negb]. rewrite Hka.
  unfold PeerSession.next_outbound_counter, PeerSession.touch, PeerSessionKey.as_bytes.
  rewrite Hc. cbn [ok_or rbind]. unfold set_sessions. cbn [our_node_id identity_key sessions
    max_sessions session_timeout_ms PeerSession.peer_node_id PeerSession.state
    PeerSession.session_key PeerSession.peer_public_key PeerSession.created_at_ms
    PeerSession.outbound_counter PeerSession.inbound_counter].
  eexists _, _, _. split; [reflexivity|]. split; [|split; [done|]].
  { split_and!; cbn; try done; try lia; try apply Hnonce. }
  match goal with |- context [decrypt_from_peer b ?m now] =>
    destruct (decrypt_counted b m now sb) as (k' & Hk' & ->) end;
    [done|done|by apply Hest|cbn; lia|].
  simplify_eq. cbn [PeerEncryptedMessage.nonce PeerEncryptedMessage.ciphertext
    PeerEncryptedMessage.sender_node_id PeerEncryptedMessage.counter].
  unfold PeerSessionKey.as_bytes. rewrite (aead_correct _ _ _ _ Hc). cbn [ok_or].
  split; [done|]. split; [|done]. unfold linked, set_sessions. cbn [our_node_id sessions].
  eexists k, _, _. rewrite !lookup_insert_eq. split_and!; [done|done|..];
    cbn [PeerSession.state PeerSession.session_key PeerSession.inbound_counter
         PeerSession.outbound_counter]; try done; try lia;
    unfold saturating_add, wrapping_add; rewrite ?wrap_small by lia; lia.
Qed.
Lemma tell_ok n a b nonce p now :
  0 ≤ n → linked (n + 1) a b → block 12 nonce → bytes_ok p →
  ∃ a' b', tell a b nonce p now = Ok (a', b', Okay p) ∧ linked n a' b'.
Proof.
  intros Hn Hl Hnonce Hp.
  destruct (tell_steps n a b nonce p now) as (a' & b' & msg & He & Hwf & _ & Hd & Hl' & _); [done..|].
  exists a', b'. split; [|done]. unfold tell.
  rewrite He, peer_message_decode_encode by done. cbn [obind]. by rewrite Hd.
Qed.

Lemma talk_ok now lines : ∀ a b,
  Forall (λ l, block 12 l.1.2 ∧ bytes_ok l.2) lines → linked (zlen lines) a b →
  talk a b now lines = Ok (map (λ l, Okay l.2) lines).
Proof.
  induction lines as [|[[dir nonce] p] lines IH]; intros a b Hl Hlink; [done|].
  apply Forall_cons in Hl as [[Hn Hp] Hl]. cbn [fst snd] in Hn, Hp. cbn [talk].
  assert (linked (zlen lines + 1) a b) as Hlink'
    by (replace (zlen lines + 1) with (zlen ((dir, nonce, p) :: lines)) by len; done).
  destruct dir.
  - destruct (tell_ok (zlen lines) a b nonce p now) as (a' & b' & -> & Hab); [lia|done..|].
    cbn [obind]. by rewrite IH.
  - destruct (tell_ok (zlen lines) b a nonce p now) as (b' & a' & -> & Hab);
      [lia|by apply linked_sym|done..|].
    cbn [obind fst snd]. rewrite IH; [done..|]. by apply linked_sym.
Qed.

(** A fresh session is neither expired nor evicted when there is room. *)
Lemma initiate_keeps self peer now :
  0 ≤ session_timeout_ms self → sessions self !! peer = None →
  session_count self < max_sessions self →
  sessions (initiate_session self peer now).1 !! peer = Some (PeerSession.new_initiator peer now)
  ∧ our_node_id (initiate_session self peer now).1 = our_node_id self
  ∧ identity_key (initiate_session self peer now).1 = identity_key self
  ∧ (initiate_session self peer now).2
    = KeyExchangeMessage.new (our_node_id self) (our_public_key self) false.
Proof.
  intros Ht Hnone Hroom. unfold initiate_session, enforce_session_limit, cleanup_expired.
  cbn [set_sessions sessions our_node_id identity_key fst session_timeout_ms max_sessions].
  set (expired := (filter _ (map_iter _)).*1).
  set (m := <[peer := PeerSession.new_initiator peer now]> (sessions self)) in *.
  assert (∀ k, foldl (λ m id, delete id m) m expired !! k
    = if decide (k ∈ expired) then None else m !! k) as Hl by (intros; apply delete_all_lookup).
  assert (size (foldl (λ m id, delete id m) m expired) ≤ size m)%nat as Hsz.
  { apply map_subseteq_size. apply map_subseteq_spec. intros k v. rewrite Hl.
    by destruct (decide _). }
  assert (size m = S (size (sessions self))) as Hm by by apply map_size_insert_None.
  unfold session_count in Hroom.
  assert (∀ fuel, evict fuel (max_sessions self) (foldl (λ m id, delete id m) m expired)
    = foldl (λ m id, delete id m) m expired) as ->.
  { intros [|fuel]; [done|]. cbn [evict]. by rewrite (proj2 (Z.ltb_ge _ _)) by lia. }
  split_and!; [|done..]. rewrite Hl, decide_False; [unfold m; by rewrite lookup_insert_eq|].
  unfold expired. intros ([k s] & Heq & Hin)%list_elem_of_fmap. cbn in Heq. subst k.
  apply list_elem_of_filter in Hin as [He Hin%elem_of_map_iter].
  unfold m in Hin. rewrite lookup_insert_eq in Hin. injection Hin as <-.
  unfold PeerSession.is_expired in He. cbn in He. unfold saturating_sub in He. lia.
Qed.

Definition fresh (self : t) (peer : Z) : Prop :=
  sessions self !! peer = None ∧ session_count self < max_sessions self
  ∧ 0 ≤ session_timeout_ms self ∧ in_u 32 (our_node_id self)
  ∧ ∃ secret, block 32 secret ∧ identity_key self = PeerIdentityKey.from_secret_bytes secret.

Lemma handshake_links a b now n :
  n < 2 ^ 64 → fresh a (our_node_id b) → fresh b (our_node_id a) →
  ∃ a' b', handshake a b now = Ok (a', b') ∧ linked n a' b'
    ∧ our_node_id a' = our_node_id a ∧ our_node_id b' = our_node_id b.
Proof.
  intros Hn (Han & Har & Hat & Hai & sa & Hsa & Hak) (Hbn & Hbr & Hbt & Hbi & sb & Hsb & Hbk).
  destruct (initiate_keeps a (our_node_id b) now Hat Han Har) as (Hs1 & Hid1 & Hkey1 & Hhello).
  unfold handshake. destruct (initiate_session a (our_node_id b) now) as [a1 hello].
  cbn [fst] in *.
  cbn [snd] in Hhello. subst hello. unfold our_public_key at 1. rewrite Hak.
  cbn [PeerIdentityKey.public_key_bytes PeerIdentityKey.from_secret_bytes PeerIdentityKey.public].
  rewrite (wire_roundtrip (KeyExchangeMessage.new _ _ _))
    by (split; cbn; [done|by apply x25519_public_block]).
  cbn [obind]. unfold handle_key_exchange at 1. cbn [KeyExchangeMessage.sender_node_id
    KeyExchangeMessage.public_key KeyExchangeMessage.new].
  rewrite Hbn. rewrite (proj2 (Z.leb_gt _ _)) by done. unfold accept_peer. cbn [set_sessions].
  unfold our_public_key. rewrite Hbk. cbn [PeerIdentityKey.public_key_bytes
    PeerIdentityKey.from_secret_bytes PeerIdentityKey.public].
  rewrite (wire_roundtrip (KeyExchangeMessage.new _ _ _))
    by (split; cbn; [done|by apply x25519_public_block]).
  cbn [obind]. unfold handle_key_exchange. cbn [KeyExchangeMessage.sender_node_id
    KeyExchangeMessage.public_key KeyExchangeMessage.new].
  rewrite Hs1. cbn [PeerSession.new_initiator PeerSession.state]. rewrite decide_True by done.
  eexists _, _. split; [done|].
  split; [|by cbn].
  exists (SharedSecret.derive_session_key
    (PeerIdentityKey.exchange (identity_key a1) (x25519_public sb)) (our_node_id a1) (our_node_id b)).
  cbn [our_node_id sessions set_sessions].
  eexists _, _. rewrite Hid1, !lookup_insert_eq. split; [done|]. split; [done|].
  cbn. split_and!; try done; try lia.
  - rewrite Hkey1, Hak. f_equal. symmetry. by apply CryptoProofs.session_key_agrees.
  - unfold SharedSecret.derive_session_key. destruct (_ <? _); apply hkdf_block.
Qed.
End session.
End SessionProofs.

Module SessionProperties.
Import PeerSessionManager SessionRuns SessionProofs.

(** C11: two nodes with room for each other exchange keys over the wire; every
    message of any conversation they then hold, encrypted, encoded, decoded
    and decrypted, arrives as it was sent, for up to 2^64 messages.  Of the
    ciphers only their documented laws are assumed. *)
Theorem session_delivers `{!MapOrder Z} `{CryptoLaws} a b now lines
    (Ha : fresh a (our_node_id b)) (Hb : fresh b (our_node_id a))
    (Hlines : Forall (λ l, block 12 l.1.2 ∧ bytes_ok l.2) lines) (Hlen : zlen lines < 2 ^ 64) :
  ∃ a' b', handshake a b now = Ok (a', b')
    ∧ has_session a' (our_node_id b) = true ∧ has_session b' (our_node_id a) = true
    ∧ talk a' b' now lines = Ok (map (λ l, Okay l.2) lines).
Proof.
  destruct (handshake_links a b now (zlen lines)) as (a' & b' & Hh & Hl & Ha' & Hb'); [done..|].
  exists a', b'. split; [done|]. split; [|split; [|by apply talk_ok]].
  all: destruct Hl as (k & sa & sb & Hsa & Hsb & Hea & Heb & Hka & Hkb & _).
  all: rewrite ?Ha', ?Hb' in *; unfold has_session, PeerSession.is_established.
  - by rewrite Hsa, Hea, Hka.
  - by rewrite Hsb, Heb, Hkb.
Qed.

Definition sample_node (i : Z) : t :=
  with_identity_key i (PeerIdentityKey.from_secret_bytes (replicate 32 i)).

Lemma session_delivers_witness :
  let a := sample_node 1 in
  let b := sample_node 2 in
  let nonce := replicate 12 9 in
  let lines := [(true, nonce, [1; 2; 3]); (false, nonce, []); (true, nonce, [255])] in
  ∃ a' b', handshake a b 100 = Ok (a', b')
    ∧ has_session a' (our_node_id b) = true ∧ has_session b' (our_node_id a) = true
    ∧ talk a' b' 100 lines = Ok (map (λ l, Okay l.2) lines).
Proof.
  intros a b nonce lines. apply (session_delivers a b 100 lines).
  - split_and!; try (vm_compute; done). exists (replicate 32 1). split; [split; by_decide|done].
  - split_and!; try (vm_compute; done). exists (replicate 32 2). split; [split; by_decide|done].
  - repeat apply Forall_cons_2; try apply Forall_nil_2; (split; [split|]); by_decide.
  - vm_compute. reflexivity.
Defined.

(** C12: While the sessions of a node stay as they were agreed, whatever messages
    reach it, genuine, forged or repeated, and whatever it sends in between, the
    counters of the messages it decrypts from one sender strictly increase, so
    no copy of a message is decrypted twice.  The last counter, 2^64 - 1, is
    excepted, and nothing is said of a new key exchange or of an expiry, after
    which a session with the same key counts from the beginning. *)
Theorem session_counters_increase `{!MapOrder Z} `{Crypto} self evs
    (Hevs : Forall event_ok evs) :
  StronglySorted later (accepted self evs)
  ∧ Forall (λ x, inbound self x.1 ≤ x.2 ≤ u64_max) (accepted self evs).
Proof. destruct (accepted_sorted evs self Hevs). by split. Qed.

Lemma session_counters_increase_witness :
  let key := PeerSessionKey.mk (replicate 32 5) in
  let session := PeerSession.new_responder 1 key (replicate 32 1) 0 in
  let self := set_sessions (sample_node 2) {[1 := session]} in
  let m c := PeerEncryptedMessage.mk 2 1 c (replicate 12 0)
               ([c] ++ Toy.tag (replicate 32 5) (replicate 12 0) [c]) in
  let evs := [Recv (m 0) 1; Recv (m 0) 2; Recv (m 3) 3; Recv (m 2) 4; Recv (m 4) 5] in
  accepted self evs = [(1, 0); (1, 3); (1, 4)]
  ∧ StronglySorted later (accepted self evs)
  ∧ Forall (λ x, inbound self x.1 ≤ x.2 ≤ u64_max) (accepted self evs).
Proof.
  intros key session self m evs. split; [vm_compute; reflexivity|].
  apply (session_counters_increase self evs).
  repeat apply Forall_cons_2; try apply Forall_nil_2; cbn; lia.
Defined.

(** The counter is outside the authenticated data and is taken into
    account before the message is authenticated.  Without any key, an outsider
    who sends one message with the sender's number and the last counter makes
    the receiver reject everything the sender says from then on; and a message
    that was decrypted once is decrypted again when its counter is replaced
    by a later one. *)
Theorem counter_is_forgeable `{!MapOrder Z} `{Crypto} self session key peer nonce ciphertext now
    (Hs : sessions self !! peer = Some session)
    (He : PeerSession.is_established session = true)
    (Hk : PeerSession.session_key session = Some key)
    (Hin : PeerSession.inbound_counter session ≤ u64_max) :
  let m c n ct := PeerEncryptedMessage.mk (our_node_id self) peer c n ct in
  (let silenced := (decrypt_from_peer self (m u64_max nonce ciphertext) now).1 in
   ∀ c n ct, 0 ≤ c < u64_max →
     (decrypt_from_peer silenced (m c n ct) now).2 = Err EncryptionError.DecryptionFailed)
  ∧ ∀ c c' p, PeerSession.inbound_counter session ≤ c → c < c' ≤ u64_max →
      (decrypt_from_peer self (m c nonce ciphertext) now).2 = Okay p →
      (decrypt_from_peer (decrypt_from_peer self (m c nonce ciphertext) now).1
         (m c' nonce ciphertext) now).2 = Okay p.
Proof.
  intros m. split.
  - intros silenced c n ct Hc. subst silenced.
    destruct (decrypt_counted self (m u64_max nonce ciphertext) now session) as (k & Hk' & ->);
      [done..|]. cbn [fst].
    match goal with |- context [set_sessions self ?x] => set (self' := set_sessions self x) end.
    apply (decrypt_rejected self' (m c n ct) now).
    intros (_ & s & Hs' & _ & Hle). cbn in Hs', Hle. rewrite lookup_insert_eq in Hs'.
    injection Hs' as <-. cbn in Hle. unfold u64_max, saturating_add in *. lia.
  - intros c c' p Hle Hlt.
    destruct (decrypt_counted self (m c nonce ciphertext) now session) as (k & Hk' & ->);
      [done..|]. cbn [fst snd]. intros Hp.
    match goal with |- context [set_sessions self ?x] => set (self' := set_sessions self x) end.
    edestruct (decrypt_counted self' (m c' nonce ciphertext) now) as (k' & Hk'' & ->).
    + done.
    + cbn. by rewrite lookup_insert_eq.
    + done.
    + cbn. unfold saturating_add, u64_max in *. lia.
    + cbn in *. congruence.
Qed.

Lemma counter_is_forgeable_witness :
  let key := PeerSessionKey.mk (replicate 32 5) in
  let session := PeerSession.new_responder 1 key (replicate 32 1) 0 in
  let self := set_sessions (sample_node 2) {[1 := session]} in
  let nonce := replicate 12 0 in
  let ciphertext := [7] ++ Toy.tag (replicate 32 5) nonce [7] in
  let m c n ct := PeerEncryptedMessage.mk (our_node_id self) 1 c n ct in
  (decrypt_from_peer self (m 0 nonce ciphertext) 10).2 = Okay [7]
  ∧ (let silenced := (decrypt_from_peer self (m u64_max nonce ciphertext) 10).1 in
     ∀ c n ct, 0 ≤ c < u64_max →
       (decrypt_from_peer silenced (m c n ct) 10).2 = Err EncryptionError.DecryptionFailed)
  ∧ ∀ c c' p, PeerSession.inbound_counter session ≤ c → c < c' ≤ u64_max →
      (decrypt_from_peer self (m c nonce ciphertext) 10).2 = Okay p →
      (decrypt_from_peer (decrypt_from_peer self (m c nonce ciphertext) 10).1
         (m c' nonce ciphertext) 10).2 = Okay p.
Proof.
  intros key session self nonce ciphertext m. split; [vm_compute; reflexivity|].
  apply (counter_is_forgeable self session key 1 nonce ciphertext 10);
    [vm_compute; reflexivity..|vm_compute; discriminate].
Defined.

End SessionProperties.
