(* ===== verification/Beacon.v ===== *)
(** * Beacons of src/src/discovery: the plain beacon in its two sizes
    (beacon.rs) and the encrypted beacon (encrypted_beacon.rs), whose hash is
    a method of [Crypto]. *)

From Stdlib Require Import String.
From stdpp Require Import base numbers list gmap.
From S2P Require Import Prelude GattProto Crypto.
Open Scope Z_scope.
Open Scope peat_scope.

Module Capabilities.
Definition LITE_NODE : Z := 0x0001.
Definition SENSOR_ACCEL : Z := 0x0002.
Definition SENSOR_TEMP : Z := 0x0004.
Definition SENSOR_BUTTON : Z := 0x0008.
Definition ACTUATOR_LED : Z := 0x0010.
Definition ACTUATOR_VIBRATE : Z := 0x0020.
Definition HAS_DISPLAY : Z := 0x0040.
Definition CAN_RELAY : Z := 0x0080.
Definition CODED_PHY : Z := 0x0100.
Definition HAS_GPS : Z := 0x0200.
End Capabilities.

Definition BEACON_VERSION : Z := 1.
Definition BEACON_SIZE : Z := 16.
Definition BEACON_COMPACT_SIZE : Z := 10.

Module PeatBeacon.

Record t := mk {
  version : Z; capabilities : Z; node_id : Z; hierarchy_level : HierarchyLevel.t;
  geohash : Z; battery_percent : Z; seq_num : Z
}.
#[global] Instance beacon_eq_dec : EqDecision t.
Proof. solve_decision. Defined.

Definition new (node_id : Z) : t := mk BEACON_VERSION 0 node_id HierarchyLevel.Platform 0 255 0.
Definition peat_lite (node_id : Z) : t :=
  mk BEACON_VERSION Capabilities.LITE_NODE node_id HierarchyLevel.Platform 0 255 0.
Definition with_capabilities (self : t) (capabilities : Z) : t :=
  mk (version self) capabilities (node_id self) (hierarchy_level self) (geohash self)
    (battery_percent self) (seq_num self).
Definition with_hierarchy_level (self : t) (level : HierarchyLevel.t) : t :=
  mk (version self) (capabilities self) (node_id self) level (geohash self)
    (battery_percent self) (seq_num self).
Definition with_geohash (self : t) (geohash : Z) : t :=
  mk (version self) (capabilities self) (node_id self) (hierarchy_level self)
    (Z.land geohash 0x00FFFFFF) (battery_percent self) (seq_num self).
Definition with_battery (self : t) (percent : Z) : t :=
  mk (version self) (capabilities self) (node_id self) (hierarchy_level self) (geohash self)
    (Z.min percent 100) (seq_num self).
Definition increment_seq (self : t) : t :=
  mk (version self) (capabilities self) (node_id self) (hierarchy_level self) (geohash self)
    (battery_percent self) (wrapping_add 16 (seq_num self) 1).

(** The first seven bytes of both sizes. *)
Definition encode_head (self : t) : list Z :=
  [Z.lor (Z.shiftl (Z.land (version self) 0x0F) 4)
     (Z.land (wrap 8 (Z.shiftr (capabilities self) 8)) 0x0F);
   wrap 8 (Z.land (capabilities self) 0xFF)]
  ++ be32 (node_id self) ++ [HierarchyLevel.to_u8 (hierarchy_level self)].
Definition encode (self : t) : list Z :=
  encode_head self
  ++ [wrap 8 (Z.shiftr (geohash self) 16); wrap 8 (Z.shiftr (geohash self) 8);
      wrap 8 (geohash self)]
  ++ [battery_percent self] ++ be16 (seq_num self) ++ [0; 0; 0].
Definition encode_compact (self : t) : list Z :=
  encode_head self ++ [battery_percent self] ++ be16 (seq_num self).

(** Version, capabilities, node and level. *)
Definition decode_head (data : list Z) : outcome (Z * Z * Z * HierarchyLevel.t) :=
  let! b0 := u8_at data 0 in
  let! b1 := u8_at data 1 in
  let! node_id := be32_at data 2 in
  let! level := u8_at data 6 in
  Ok (Z.land (Z.shiftr b0 4) 0x0F, Z.lor (Z.shiftl (Z.land b0 0x0F) 8) b1, node_id,
      HierarchyLevel.from_u8 level).
Definition decode (data : list Z) : outcome t :=
  reject_if zlen data <? BEACON_SIZE ;;
  let! (version, capabilities, node_id, hierarchy_level) := decode_head data in
  let! g2 := u8_at data 7 in
  let! g1 := u8_at data 8 in
  let! g0 := u8_at data 9 in
  let geohash := Z.lor (Z.lor (Z.shiftl g2 16) (Z.shiftl g1 8)) g0 in
  let! battery_percent := u8_at data 10 in
  let! seq_num := be16_at data 11 in
  Ok (mk version capabilities node_id hierarchy_level geohash battery_percent seq_num).
Definition decode_compact (data : list Z) : outcome t :=
  reject_if zlen data <? BEACON_COMPACT_SIZE ;;
  let! (version, capabilities, node_id, hierarchy_level) := decode_head data in
  let! battery_percent := u8_at data 7 in
  let! seq_num := be16_at data 8 in
  Ok (mk version capabilities node_id hierarchy_level 0 battery_percent seq_num).

Definition is_lite_node (self : t) : bool := has_bit (capabilities self) Capabilities.LITE_NODE.
Definition can_relay (self : t) : bool := has_bit (capabilities self) Capabilities.CAN_RELAY.
Definition supports_coded_phy (self : t) : bool :=
  has_bit (capabilities self) Capabilities.CODED_PHY.

(** The widths of the fields, and of what the wire carries of them. *)
Definition typed (self : t) : Prop :=
  in_u 8 (version self) ∧ in_u 16 (capabilities self) ∧ in_u 32 (node_id self)
  ∧ in_u 32 (geohash self) ∧ in_u 8 (battery_percent self) ∧ in_u 16 (seq_num self).
Definition wf (self : t) : Prop :=
  in_u 4 (version self) ∧ in_u 12 (capabilities self) ∧ in_u 32 (node_id self)
  ∧ in_u 24 (geohash self) ∧ in_u 8 (battery_percent self) ∧ in_u 16 (seq_num self).
#[global] Instance beacon_typed_dec self : Decision (typed self).
Proof. unfold typed. apply _. Defined.
#[global] Instance beacon_wf_dec self : Decision (wf self).
Proof. unfold wf. apply _. Defined.

End PeatBeacon.

(** ** The encrypted beacon *)

Definition ENCRYPTED_BEACON_VERSION : Z := 0x02.
Definition ENCRYPTED_BEACON_SIZE : Z := 21.
Definition ENCRYPTED_IDENTITY_SIZE : Z := 8.
Definition MAC_SIZE : Z := 4.
Definition NONCE_SIZE : Z := 4.
Definition ENCRYPTED_DEVICE_NAME : list Z := str "PEAT"%string.

Definition mesh_id_to_bytes `{Crypto} (mesh_id : list Z) : list Z := ztake 4 (blake3 mesh_id).

Module BeaconKey.
Record t := mk { key : list Z }.
Definition from_base (base : list Z) : t := mk base.
Definition derive_keystream `{Crypto} (self : t) (nonce : list Z) : list Z :=
  ztake ENCRYPTED_IDENTITY_SIZE (blake3 (key self ++ nonce)).
Definition compute_mac `{Crypto} (self : t) (nonce encrypted : list Z) : list Z :=
  ztake MAC_SIZE (blake3_keyed (key self) (nonce ++ encrypted)).
End BeaconKey.

Module EncryptedBeacon.

Record t := mk { node_id : Z; capabilities : Z; hierarchy_level : Z; battery_percent : Z }.
#[global] Instance encrypted_beacon_eq_dec : EqDecision t.
Proof. solve_decision. Defined.
Definition new (node_id capabilities hierarchy_level battery_percent : Z) : t :=
  mk node_id capabilities hierarchy_level battery_percent.

Definition xor (a b : list Z) : list Z := zip_with Z.lxor a b.

(** [nonce]: the four random bytes drawn. *)
Definition encrypt `{Crypto} (self : t) (key : BeaconKey.t) (mesh_id_bytes nonce : list Z) : list Z :=
  let plaintext := mesh_id_bytes ++ be32 (node_id self) in
  let encrypted := xor plaintext (BeaconKey.derive_keystream key nonce) in
  [ENCRYPTED_BEACON_VERSION] ++ nonce ++ encrypted ++ BeaconKey.compute_mac key nonce encrypted
  ++ be16 (capabilities self) ++ [hierarchy_level self; battery_percent self].

Definition decrypt `{Crypto} (data : list Z) (key : BeaconKey.t) : outcome (t * list Z) :=
  reject_if zlen data <? ENCRYPTED_BEACON_SIZE ;;
  let! version := u8_at data 0 in
  reject_if negb (version =? ENCRYPTED_BEACON_VERSION) ;;
  let! nonce := slice data 1 5 in
  let! encrypted := slice data 5 13 in
  let! received_mac := slice data 13 17 in
  let expected_mac := BeaconKey.compute_mac key nonce encrypted in
  reject_if negb (bool_decide (received_mac = expected_mac)) ;;
  let plaintext := xor encrypted (BeaconKey.derive_keystream key nonce) in
  let! mesh_id_bytes := slice plaintext 0 4 in
  let! node_id := be32_at plaintext 4 in
  let! capabilities := be16_at data 17 in
  let! hierarchy_level := u8_at data 19 in
  let! battery_percent := u8_at data 20 in
  Ok (mk node_id capabilities hierarchy_level battery_percent, mesh_id_bytes).

Definition is_encrypted_beacon (data : list Z) : bool :=
  (ENCRYPTED_BEACON_SIZE <=? zlen data)
  && match data with b :: _ => b =? ENCRYPTED_BEACON_VERSION | [] => false end.

Definition wf (self : t) : Prop :=
  in_u 32 (node_id self) ∧ in_u 16 (capabilities self) ∧ in_u 8 (hierarchy_level self)
  ∧ in_u 8 (battery_percent self).
#[global] Instance encrypted_beacon_wf_dec self : Decision (wf self).
Proof. unfold wf. apply _. Defined.

End EncryptedBeacon.

(** * Theorems *)

Module BeaconProofs.
Import PeatBeacon.

Lemma length_be16 x : length (be16 x) = 2%nat.
Proof. done. Qed.
Lemma length_be32 x : length (be32 x) = 4%nat.
Proof. done. Qed.
#[global] Hint Rewrite length_be16 length_be32 : len.

Lemma wp_be32_at data off Q :
  0 ≤ off → off + 4 ≤ zlen data → bytes_ok data → (∀ x, in_u 32 x → Q x) →
  wp (be32_at data off) Q.
Proof.
  intros ??? HQ. unfold be32_at.
  do 4 (apply wp_bind, wp_u_at; try done; try lia; intros ? ?). apply wp_ok, HQ.
  change (2 ^ (8 * 1)) with 256 in *.
  assert (∀ a b, 0 ≤ a < 256 → 0 ≤ b < 256 → 
    Z.lor (Z.shiftl a 24) (Z.shiftl b 16) = Z.shiftl (a * 256 + b) 16) as Hj.
  { intros a b ??. rewrite lor_shiftl_add by (rewrite ?Z.shiftl_mul_pow2 by lia; lia).
    rewrite !Z.shiftl_mul_pow2 by lia. lia. }
  rewrite Hj by done. clear Hj.
  assert (∀ a b, 0 ≤ a → 0 ≤ b < 256 → Z.lor (Z.shiftl a 16) (Z.shiftl b 8) = Z.shiftl (a * 256 + b) 8) as Hj.
  { intros a b ??. rewrite lor_shiftl_add by (rewrite ?Z.shiftl_mul_pow2 by lia; lia).
    rewrite !Z.shiftl_mul_pow2 by lia. lia. }
  rewrite Hj by lia. rewrite lor_shiftl_add by lia. lia.
Qed.

(** Bytes whose bits come from two nibbles. *)
Lemma nibbles_all :
  Forall (λ v, Forall (λ c,
    Z.land (Z.shiftr (Z.lor (Z.shiftl v 4) c) 4) 0x0F = v
    ∧ Z.land (Z.lor (Z.shiftl v 4) c) 0x0F = c ∧ byte_ok (Z.lor (Z.shiftl v 4) c))
    (seqZ 0 16)) (seqZ 0 16).
Proof. by_decide. Qed.
Lemma nibbles v c :
  0 ≤ v < 16 → 0 ≤ c < 16 →
  let b := Z.lor (Z.shiftl v 4) c in
  Z.land (Z.shiftr b 4) 0x0F = v ∧ Z.land b 0x0F = c ∧ byte_ok b.
Proof.
  intros Hv Hc. pose proof (proj1 (Forall_forall _ _) nibbles_all v) as H.
  specialize (H ltac:(apply elem_of_seqZ; lia)).
  apply (proj1 (Forall_forall _ _) H c). apply elem_of_seqZ. lia.
Qed.
(** What the wire carries of a beacon: the low bits of the wider fields. *)
Definition carried (b : t) : t :=
  mk (wrap 4 (version b)) (wrap 12 (capabilities b)) (node_id b) (hierarchy_level b)
    (wrap 24 (geohash b)) (battery_percent b) (seq_num b).
Lemma carried_wf b : typed b → wf (carried b).
Proof.
  intros (Hv & Hc & Hn & Hg & Hb & Hs). unfold wf, carried. cbn.
  split_and!; try lia; apply wrap_bound; lia.
Qed.
Lemma carried_id b : wf b → carried b = b.
Proof.
  destruct b. intros (Hv & Hc & Hn & Hg & Hb & Hs). unfold carried. cbn in *.
  by rewrite !wrap_small.
Qed.
Lemma wrap_wrap k n x : 0 ≤ k ≤ n → wrap k (wrap n x) = wrap k x.
Proof.
  intros. unfold wrap. apply Z.mod_mod_divide.
  - exists (2 ^ (n - k)). rewrite <-Z.pow_add_r by lia. f_equal. lia.
Qed.

Lemma head_decode_encode b q :
  typed b →
  decode_head (encode_head b ++ q)
  = Ok (version (carried b), capabilities (carried b), node_id b, hierarchy_level b).
Proof.
  intros (Hv & Hc & Hn & Hg & Hb & Hs). unfold decode_head, encode_head.
  assert (Z.land (version b) 0x0F = wrap 4 (version b)) as -> by (apply (Z.land_ones _ 4); lia).
  assert (Z.land (wrap 8 (Z.shiftr (capabilities b) 8)) 0x0F = wrap 4 (Z.shiftr (capabilities b) 8))
    as -> by (rewrite (Z.land_ones _ 4) by lia; by apply (wrap_wrap 4 8)).
  assert (wrap 8 (Z.land (capabilities b) 0xFF) = wrap 8 (capabilities b)) as ->
    by (rewrite (Z.land_ones _ 8) by lia; by apply (wrap_wrap 8 8)).
  destruct (nibbles (wrap 4 (version b)) (wrap 4 (Z.shiftr (capabilities b) 8))) as (Hhi & Hlo & Hbyte);
    [by apply (wrap_bound 4)..|].
  rewrite <-!app_assoc. cbn [app]. pose proof (wrap_bound 8 (capabilities b) ltac:(lia)).
  pose proof (CharacteristicProofs.level_byte (hierarchy_level b)).
  rewrite u8_at_here by done. cbn [obind]. rd. be_rd. rd.
  rewrite Hhi, Hlo, CharacteristicProofs.level_roundtrip. do 3 f_equal.
  rewrite lor_shiftl_add by (lia || by apply (wrap_bound 8)). cbn [capabilities carried].
  unfold wrap. rewrite Z.shiftr_div_pow2 by lia. change (2 ^ 12) with (2 ^ 8 * 2 ^ 4).
  rewrite Z.rem_mul_r by done. f_equal; lia.
Qed.
Lemma head_bytes b : typed b → bytes_ok (encode_head b).
Proof.
  intros (Hv & Hc & Hn & Hg & Hb & Hs). unfold encode_head.
  assert (Z.land (version b) 0x0F = wrap 4 (version b)) as -> by (apply (Z.land_ones _ 4); lia).
  assert (Z.land (wrap 8 (Z.shiftr (capabilities b) 8)) 0x0F = wrap 4 (Z.shiftr (capabilities b) 8))
    as -> by (rewrite (Z.land_ones _ 4) by lia; by apply (wrap_wrap 4 8)).
  destruct (nibbles (wrap 4 (version b)) (wrap 4 (Z.shiftr (capabilities b) 8))) as (_ & _ & ?);
    [by apply (wrap_bound 4)..|].
  pose proof (CharacteristicProofs.level_byte (hierarchy_level b)).
  unfold be32. cbn [app]. repeat apply bytes_cons;
    try done; try (by apply (wrap_bound 8)); constructor.
Qed.

Lemma geohash_join g :
  Z.lor (Z.lor (Z.shiftl (wrap 8 (Z.shiftr g 16)) 16) (Z.shiftl (wrap 8 (Z.shiftr g 8)) 8)) (wrap 8 g)
  = wrap 24 g.
Proof.
  pose proof (wrap_bound 8 (Z.shiftr g 8) ltac:(lia)). pose proof (wrap_bound 8 g ltac:(lia)).
  change (2 ^ 8) with 256 in *.
  rewrite (lor_shiftl_add _ (Z.shiftl _ 8) 16) by (rewrite ?Z.shiftl_mul_pow2 by lia; lia).
  rewrite (Z.shiftl_mul_pow2 _ 8) by lia.
  replace (wrap 8 (Z.shiftr g 16) * 2 ^ 16 + wrap 8 (Z.shiftr g 8) * 2 ^ 8)
    with (Z.shiftl (wrap 8 (Z.shiftr g 16) * 256 + wrap 8 (Z.shiftr g 8)) 8)
    by (rewrite Z.shiftl_mul_pow2 by lia; lia).
  rewrite lor_shiftl_add by lia. unfold wrap. rewrite !Z.shiftr_div_pow2 by lia.
  change (2 ^ 24) with (2 ^ 8 * (2 ^ 8 * 2 ^ 8)). rewrite !Z.rem_mul_r by done.
  change (2 ^ 16) with (2 ^ 8 * 2 ^ 8). rewrite <-Z.div_div by done. lia.
Qed.
Lemma head_length b : length (encode_head b) = 7%nat.
Proof. done. Qed.
#[local] Hint Rewrite head_length : len.

(** Read back up to what the wire carries. *)
Lemma beacon_decode_encode b rest : typed b → decode (encode b ++ rest) = Ok (carried b).
Proof.
  intros Hty. pose proof Hty as (Hv & Hc & Hn & Hg & Hb & Hs). unfold decode, encode, BEACON_SIZE.
  rewrite <-!app_assoc. rewrite (proj2 (Z.ltb_ge _ _)) by len.
  rewrite head_decode_encode by done. cbn [obind].
  pose proof (wrap_bound 8 (Z.shiftr (geohash b) 16) ltac:(lia)).
  pose proof (wrap_bound 8 (Z.shiftr (geohash b) 8) ltac:(lia)).
  pose proof (wrap_bound 8 (geohash b) ltac:(lia)).
  assert (zlen (encode_head b) = 7) as H7 by done. cbn [app].
  rewrite !u_at_skip, !be16_at_skip by (rewrite H7; lia). rewrite H7. off_norm.
  rd. be_rd. rewrite geohash_join. by destruct b.
Qed.
Lemma beacon_compact_decode_encode b rest :
  typed b →
  decode_compact (encode_compact b ++ rest)
  = Ok (mk (version (carried b)) (capabilities (carried b)) (node_id b) (hierarchy_level b) 0
          (battery_percent b) (seq_num b)).
Proof.
  intros Hty. pose proof Hty as (Hv & Hc & Hn & Hg & Hb & Hs).
  unfold decode_compact, encode_compact, BEACON_COMPACT_SIZE.
  rewrite <-!app_assoc. rewrite (proj2 (Z.ltb_ge _ _)) by len.
  rewrite head_decode_encode by done. cbn [obind].
  assert (zlen (encode_head b) = 7) as H7 by done. cbn [app].
  rewrite !u_at_skip, !be16_at_skip by (rewrite H7; lia). rewrite H7. off_norm.
  rd. be_rd. done.
Qed.

Lemma land_15 x : in_u 4 (Z.land x 0x0F).
Proof. change 0x0F with (Z.ones 4). rewrite Z.land_ones by lia. by apply (wrap_bound 4). Qed.
Lemma head_wp data :
  7 ≤ zlen data → bytes_ok data →
  wp (decode_head data) (λ '(v, c, n, l), in_u 4 v ∧ in_u 12 c ∧ in_u 32 n).
Proof.
  intros Hl Hb. unfold decode_head. wp_step; wp_step. wp_step; wp_step.
  apply wp_bind, wp_be32_at; try done; try lia. intros n Hn. wp_steps.
  pose proof (land_15 (Z.shiftr x 4)). pose proof (land_15 x).
  split_and!; try lia; rewrite lor_shiftl_add by lia; lia.
Qed.
Lemma beacon_decode_wp data : bytes_ok data → wp (decode data) wf.
Proof.
  intros Hb. unfold decode, BEACON_SIZE. apply wp_reject_if. intros Hl%Z.ltb_ge.
  apply wp_bind. eapply wp_mono; [apply head_wp; [lia|done]|].
  intros [[[v c] n] l] (Hv & Hc & Hn). do 4 (wp_step; wp_step).
  apply wp_bind, wp_be16_at; try done; try lia. intros s Hs. apply wp_ok.
  change (2 ^ (8 * 1)) with 256 in *. split_and!; cbn; try lia.
  - rewrite (lor_shiftl_add _ (Z.shiftl _ 8) 16) by (rewrite ?Z.shiftl_mul_pow2 by lia; lia).
    apply Z.lor_nonneg. rewrite !Z.shiftl_mul_pow2 by lia. lia.
  - rewrite (lor_shiftl_add _ (Z.shiftl _ 8) 16) by (rewrite ?Z.shiftl_mul_pow2 by lia; lia).
    rewrite (Z.shiftl_mul_pow2 _ 8) by lia.
    replace (x * 2 ^ 16 + x0 * 2 ^ 8) with (Z.shiftl (x * 256 + x0) 8)
      by (rewrite Z.shiftl_mul_pow2 by lia; lia).
    rewrite lor_shiftl_add by lia. lia.
Qed.
Lemma beacon_compact_wp data : bytes_ok data → wp (decode_compact data) wf.
Proof.
  intros Hb. unfold decode_compact, BEACON_COMPACT_SIZE. apply wp_reject_if. intros Hl%Z.ltb_ge.
  apply wp_bind. eapply wp_mono; [apply head_wp; [lia|done]|].
  intros [[[v c] n] l] (Hv & Hc & Hn). wp_step; wp_step.
  apply wp_bind, wp_be16_at; [lia|lia|done|]. intros s Hs. apply wp_ok.
  split_and!; cbn; lia.
Qed.
End BeaconProofs.

Module EncryptedBeaconProofs.
Import EncryptedBeacon BeaconProofs.

Lemma xor_length a b : length a = length b → length (xor a b) = length b.
Proof. intros H. unfold xor. rewrite length_zip_with. lia. Qed.
Lemma xor_involutive a k : length a = length k → xor (xor a k) k = a.
Proof.
  revert k. induction a as [|x a IH]; intros [|y k] Hl; try done. cbn. f_equal.
  - by rewrite Z.lxor_assoc, Z.lxor_nilpotent, Z.lxor_0_r.
  - apply IH. by injection Hl.
Qed.
Lemma lxor_byte x y : byte_ok x → byte_ok y → byte_ok (Z.lxor x y).
Proof.
  intros Hx Hy. change (2 ^ 8) with 256 in *.
  assert (0 ≤ Z.lxor x y) by (apply Z.lxor_nonneg; lia). split; [done|].
  destruct (decide (Z.lxor x y = 0)) as [->|Hn]; [lia|].
  change 256 with (2 ^ 8). apply Z.log2_lt_pow2; [lia|].
  pose proof (Z.log2_lxor x y ltac:(lia) ltac:(lia)).
  assert (∀ z, 0 ≤ z < 256 → Z.log2 z < 8) as Hlog.
  { intros z Hz. destruct (decide (z = 0)) as [->|]; [done|]. apply Z.log2_lt_pow2; lia. }
  pose proof (Hlog x Hx). pose proof (Hlog y Hy). lia.
Qed.
Lemma xor_bytes a b : bytes_ok a → bytes_ok b → bytes_ok (xor a b).
Proof.
  intros Ha. revert b. induction Ha as [|x a Hx Ha IH]; intros b Hb; [constructor|].
  destruct Hb as [|y b Hy Hb]; [constructor|]. cbn. constructor; [by apply lxor_byte|by apply IH].
Qed.

Section crypto.
Context `{CryptoLaws}.

Lemma keystream_block key nonce : block 8 (BeaconKey.derive_keystream key nonce).
Proof.
  destruct (blake3_block (BeaconKey.key key ++ nonce)) as [Hb Hl].
  unfold BeaconKey.derive_keystream, ENCRYPTED_IDENTITY_SIZE. split; [by apply bytes_ztake|len].
Qed.
Lemma mac_block key nonce e : block 4 (BeaconKey.compute_mac key nonce e).
Proof.
  destruct (blake3_keyed_block (BeaconKey.key key) (nonce ++ e)) as [Hb Hl].
  unfold BeaconKey.compute_mac, MAC_SIZE. split; [by apply bytes_ztake|len].
Qed.

(** [decrypt] on a buffer in its parts. *)
Lemma decrypt_parts key nonce encrypted mac c h b mesh n rest :
  zlen nonce = 4 → zlen encrypted = 8 → zlen mac = 4 → in_u 16 c → byte_ok h → byte_ok b →
  xor encrypted (BeaconKey.derive_keystream key nonce) = mesh ++ be32 n →
  zlen mesh = 4 → in_u 32 n →
  decrypt ([ENCRYPTED_BEACON_VERSION] ++ nonce ++ encrypted ++ mac ++ be16 c ++ [h; b] ++ rest) key
  = if bool_decide (mac = BeaconKey.compute_mac key nonce encrypted)
    then Ok (mk n c h b, mesh) else Fail.
Proof.
  intros Hnon Henc Hmac Hc Hh Hb Hx Hmesh Hn. unfold decrypt, ENCRYPTED_BEACON_SIZE,
    ENCRYPTED_BEACON_VERSION. rewrite (proj2 (Z.ltb_ge _ _)) by len. cbn [app].
  rewrite u8_at_here by lia. cbn [obind Z.eqb Pos.eqb negb]. rd.
  case_bool_decide; cbn [negb]; [|done]. rewrite Hx. rd. be_rd. rd. done.
Qed.

Lemma encrypt_parts beacon key mesh nonce :
  encrypt beacon key mesh nonce
  = [ENCRYPTED_BEACON_VERSION] ++ nonce
    ++ xor (mesh ++ be32 (node_id beacon)) (BeaconKey.derive_keystream key nonce)
    ++ BeaconKey.compute_mac key nonce
         (xor (mesh ++ be32 (node_id beacon)) (BeaconKey.derive_keystream key nonce))
    ++ be16 (capabilities beacon) ++ [hierarchy_level beacon; battery_percent beacon].
Proof. done. Qed.

Lemma decrypt_changed beacon key mesh nonce c h b rest :
  wf beacon → block 4 mesh → block 4 nonce → in_u 16 c → byte_ok h → byte_ok b →
  decrypt (ztake 17 (encrypt beacon key mesh nonce) ++ be16 c ++ [h; b] ++ rest) key
  = Ok (mk (node_id beacon) c h b, mesh).
Proof.
  intros (Hn & _ & _ & _) [Hmb Hm] [Hnb Hnl] Hc Hh Hb. rewrite encrypt_parts.
  set (e := xor _ _). set (mac := BeaconKey.compute_mac key nonce e).
  destruct (keystream_block key nonce) as [_ Hk]. destruct (mac_block key nonce e) as [_ Hmac].
  assert (length (mesh ++ be32 (node_id beacon)) = length (BeaconKey.derive_keystream key nonce)) as Hlen
    by len.
  assert (zlen e = 8) as He by (unfold e; rewrite xor_length by done; lia).
  fold mac in Hmac.
  assert (ztake 17 ([ENCRYPTED_BEACON_VERSION] ++ nonce ++ e ++ mac
    ++ be16 (capabilities beacon) ++ [hierarchy_level beacon; battery_percent beacon])
    = [ENCRYPTED_BEACON_VERSION] ++ nonce ++ e ++ mac) as ->.
  { rewrite !app_assoc. rewrite <-app_assoc. apply ztake_app_exact. len. }
  rewrite <-!app_assoc.
  rewrite (decrypt_parts key nonce e mac c h b mesh (node_id beacon)) by
    (done || by apply xor_involutive).
  by rewrite bool_decide_eq_true_2.
Qed.

Lemma encrypt_length b key mesh nonce :
  block 4 mesh → block 4 nonce → zlen (encrypt b key mesh nonce) = ENCRYPTED_BEACON_SIZE.
Proof.
  intros [_ Hm] [_ Hn]. rewrite encrypt_parts. unfold ENCRYPTED_BEACON_SIZE.
  destruct (keystream_block key nonce) as [_ Hk]. set (e := xor _ _).
  assert (zlen e = 8) by (unfold e; rewrite xor_length; len).
  destruct (mac_block key nonce e) as [_ Hmac]. len.
Qed.
Lemma encrypt_tail b key mesh nonce :
  block 4 mesh → block 4 nonce →
  encrypt b key mesh nonce
  = ztake 17 (encrypt b key mesh nonce) ++ be16 (capabilities b)
    ++ [hierarchy_level b; battery_percent b].
Proof.
  intros Hm Hn. pose proof (encrypt_length b key mesh nonce Hm Hn) as Hl.
  rewrite encrypt_parts in Hl |- *. rewrite !app_assoc in Hl |- *.
  rewrite <-(app_assoc _ (be16 _)) in Hl |- *. rewrite ztake_app_exact; [done|].
  unfold ENCRYPTED_BEACON_SIZE in Hl. len.
Qed.
Lemma decrypt_encrypt b key mesh nonce rest :
  wf b → block 4 mesh → block 4 nonce →
  decrypt (encrypt b key mesh nonce ++ rest) key = Ok (b, mesh).
Proof.
  intros Hb Hm Hn. pose proof Hb as (_ & ? & ? & ?). rewrite encrypt_tail by done.
  rewrite <-!app_assoc. cbn [app].
  change (hierarchy_level b :: battery_percent b :: rest)
    with ([hierarchy_level b; battery_percent b] ++ rest).
  rewrite decrypt_changed by done. by destruct b.
Qed.

Lemma decrypt_wp data key : bytes_ok data → wp (decrypt data key) (λ r, wf r.1 ∧ block 4 r.2).
Proof.
  intros Hb. unfold decrypt, ENCRYPTED_BEACON_SIZE. apply wp_reject_if. intros Hl%Z.ltb_ge.
  wp_step; wp_step. wp_step. wp_step; wp_step. wp_step; wp_step. wp_step; wp_step. wp_step.
  set (k := BeaconKey.derive_keystream key _). destruct (keystream_block key s) as [Hkb Hk].
  fold k in Hkb, Hk. assert (length s0 = length k) as Hlen by lia.
  assert (bytes_ok (xor s0 k)) as Hxb by (by apply xor_bytes).
  assert (zlen (xor s0 k) = 8) as Hxl by (rewrite xor_length by done; lia).
  apply wp_bind, wp_slice; [lia|lia|lia|done|]. intros mesh Hml Hmb.
  apply wp_bind, wp_be32_at; [lia|lia|done|]. intros n Hn.
  apply wp_bind, wp_be16_at; [lia|lia|done|]. intros c Hc. wp_steps.
  split; [split_and!; cbn; lia|split; [done|cbn [snd]; lia]].
Qed.
End crypto.
End EncryptedBeaconProofs.

Module BeaconProperties.
Import BeaconProofs EncryptedBeaconProofs.

(** The plain beacon's two formats.  A beacon is read back from the full
    format as what the wire carries of it (four bits of the version, twelve
    of the capabilities, 24 of the geohash), and so is the same beacon without
    its geohash from the compact one; any bytes are read without a panic as a
    beacon in those ranges, or refused. *)
Theorem beacon_codecs b rest data :
  PeatBeacon.typed b → bytes_ok data →
  PeatBeacon.decode (PeatBeacon.encode b ++ rest) = Ok (carried b)
  ∧ PeatBeacon.decode_compact (PeatBeacon.encode_compact b ++ rest)
    = Ok (carried (PeatBeacon.with_geohash b 0))
  ∧ (PeatBeacon.wf b → carried b = b)
  ∧ zlen (PeatBeacon.encode b) = BEACON_SIZE
  ∧ zlen (PeatBeacon.encode_compact b) = BEACON_COMPACT_SIZE
  ∧ wp (PeatBeacon.decode data) PeatBeacon.wf
  ∧ wp (PeatBeacon.decode_compact data) PeatBeacon.wf.
Proof.
  intros Hb Hd. split_and!; [by apply beacon_decode_encode|by rewrite beacon_compact_decode_encode
    |apply carried_id|done|done|by apply beacon_decode_wp|by apply beacon_compact_wp].
Qed.

(** The encrypted beacon.  A member of the mesh reads back the node, the
    mesh and the public fields; but only the identity is authenticated: with
    its last four bytes replaced the beacon is accepted with the replaced
    capabilities, hierarchy level and battery.  Any bytes are read without a
    panic, or refused. *)
Theorem encrypted_beacon_read `{CryptoLaws} b key mesh nonce rest data c h battery :
  EncryptedBeacon.wf b → block 4 mesh → block 4 nonce → bytes_ok data →
  in_u 16 c → byte_ok h → byte_ok battery →
  let wire := EncryptedBeacon.encrypt b key mesh nonce in
  zlen wire = ENCRYPTED_BEACON_SIZE
  ∧ EncryptedBeacon.is_encrypted_beacon wire = true
  ∧ EncryptedBeacon.decrypt (wire ++ rest) key = Ok (b, mesh)
  ∧ EncryptedBeacon.decrypt (ztake 17 wire ++ be16 c ++ [h; battery]) key
    = Ok (EncryptedBeacon.mk (EncryptedBeacon.node_id b) c h battery, mesh)
  ∧ wp (EncryptedBeacon.decrypt data key) (λ r, EncryptedBeacon.wf r.1 ∧ block 4 r.2).
Proof.
  intros Hb Hm Hn Hd Hc Hh Hbat wire. pose proof (encrypt_length b key mesh nonce Hm Hn) as Hl.
  fold wire in Hl. split_and!; [done| | | |by apply decrypt_wp].
  - unfold EncryptedBeacon.is_encrypted_beacon. by rewrite Hl.
  - by apply decrypt_encrypt.
  - rewrite <-(app_nil_r [h; battery]). by apply decrypt_changed.
Qed.

Definition demo_beacon : PeatBeacon.t :=
  PeatBeacon.mk 1 0x0281 0x12345678 HierarchyLevel.Squad 0x123456 85 42.
Lemma beacon_codecs_witness :
  PeatBeacon.decode (PeatBeacon.encode demo_beacon ++ [9]) = Ok demo_beacon
  ∧ wp (PeatBeacon.decode (replicate 20 255)) PeatBeacon.wf.
Proof.
  destruct (beacon_codecs demo_beacon [9] (replicate 20 255)) as (Hd & _ & Hc & _ & _ & Hw & _);
    [by_decide..|]. rewrite Hc in Hd by by_decide. split; [exact Hd|exact Hw].
Defined.
Lemma encrypted_beacon_read_witness :
  let b := EncryptedBeacon.new 0x12345678 0x0281 1 85 in
  let key := BeaconKey.from_base (replicate 32 3) in
  EncryptedBeacon.decrypt (EncryptedBeacon.encrypt b key [1; 2; 3; 4] [5; 6; 7; 8]) key
  = Ok (b, [1; 2; 3; 4]).
Proof.
  intros b key.
  pose proof (encrypted_beacon_read b key [1; 2; 3; 4] [5; 6; 7; 8] [] [] 0 3 100
    ltac:(by_decide) ltac:(by_decide) ltac:(by_decide) ltac:(by_decide) ltac:(by_decide)
    ltac:(by_decide) ltac:(by_decide)) as (_ & _ & Hd & _).
  rewrite app_nil_r in Hd. exact Hd.
Defined.
(** Capability flags above the twelfth bit are not carried. *)
Example high_capabilities_are_lost :
  PeatBeacon.decode (PeatBeacon.encode (PeatBeacon.with_capabilities (PeatBeacon.new 1) 0x1001))
  = Ok (PeatBeacon.with_capabilities (PeatBeacon.new 1) 1).
Proof. vm_compute. reflexivity. Qed.
End BeaconProperties.
