(* ===== verification/Discovery.v ===== *)
(** * Advertising and scanning of src/src/discovery: the advertiser with its
    cached packet (advertiser.rs), and the scanner with its filter, its
    tracked devices and the choice of a parent (scanner.rs).

    The distance estimate is a floating-point power of the standard library;
    whether it exceeds a bound is the argument [farther].  The nonce of an
    encrypted beacon is the argument of the operation that builds a packet.
    The hash maps are iterated in any order ([MapOrder]). *)

From Stdlib Require Import String.
From stdpp Require Import base numbers list gmap sorting.
From S2P Require Import Prelude GattProto Crypto Beacon Config.
Open Scope Z_scope.
Open Scope peat_scope.

Definition LEGACY_ADV_MAX : Z := 31.
Definition AD_TYPE_FLAGS : Z := 0x01.
Definition AD_TYPE_SERVICE_UUID_16 : Z := 0x03.
Definition AD_TYPE_SERVICE_DATA_16 : Z := 0x16.
Definition AD_TYPE_LOCAL_NAME : Z := 0x09.
Definition AD_TYPE_SHORT_NAME : Z := 0x08.
Definition AD_TYPE_TX_POWER : Z := 0x0A.
Definition FLAGS_VALUE : Z := 0x06.
Definition PEAT_SERVICE_UUID_16BIT : Z := 0xA1B2.

Module AdvertiserState.
Inductive t := Idle | Advertising | Paused.
#[global] Instance advertiser_state_eq_dec : EqDecision t.
Proof. solve_decision. Defined.
End AdvertiserState.

Module AdvertisingPacket.
Record t := mk { adv_data : list Z; scan_rsp : option (list Z); extended : bool }.
Definition fits_legacy (self : t) : bool :=
  (zlen (adv_data self) <=? LEGACY_ADV_MAX)
  && match scan_rsp self with Some sr => zlen sr <=? LEGACY_ADV_MAX | None => true end.
Definition total_size (self : t) : Z :=
  zlen (adv_data self) + match scan_rsp self with Some sr => zlen sr | None => 0 end.
End AdvertisingPacket.

Module AdvertisingMode.
Inductive t := Plaintext | Encrypted.
#[global] Instance advertising_mode_eq_dec : EqDecision t.
Proof. solve_decision. Defined.
End AdvertisingMode.

Module Advertiser.

Record t := mk {
  config : DiscoveryConfig.t; beacon : PeatBeacon.t; state : AdvertiserState.t;
  started_at_ms : option Z; current_time_ms : Z; tx_power : option Z;
  device_name : option (list Z); use_extended : bool;
  cached_packet : option AdvertisingPacket.t; cache_dirty : bool; mode : AdvertisingMode.t;
  beacon_key : option BeaconKey.t; mesh_id_bytes : option (list Z)
}.

Definition start_with (config : DiscoveryConfig.t) (beacon : PeatBeacon.t) : t :=
  mk config beacon AdvertiserState.Idle None 0 None None false None true AdvertisingMode.Plaintext
    None None.
Definition new (config : DiscoveryConfig.t) (node_id : Z) : t :=
  start_with config (PeatBeacon.new node_id).
Definition peat_lite (config : DiscoveryConfig.t) (node_id : Z) : t :=
  start_with config (PeatBeacon.peat_lite node_id).

Definition set_time_ms (self : t) (time_ms : Z) : t :=
  mk (config self) (beacon self) (state self) (started_at_ms self) time_ms (tx_power self)
    (device_name self) (use_extended self) (cached_packet self) (cache_dirty self) (mode self)
    (beacon_key self) (mesh_id_bytes self).
(** A change of what is advertised marks the cached packet. *)
Definition changed (self : t) (beacon : PeatBeacon.t) (tx_power : option Z)
    (device_name : option (list Z)) (use_extended : bool) (mode : AdvertisingMode.t)
    (beacon_key : option BeaconKey.t) (mesh_id_bytes : option (list Z)) : t :=
  mk (config self) beacon (state self) (started_at_ms self) (current_time_ms self) tx_power
    device_name use_extended (cached_packet self) true mode beacon_key mesh_id_bytes.
Definition with_tx_power (self : t) (tx_power : Z) : t :=
  changed self (beacon self) (Some tx_power) (device_name self) (use_extended self) (mode self)
    (beacon_key self) (mesh_id_bytes self).
Definition with_name (self : t) (name : list Z) : t :=
  changed self (beacon self) (tx_power self) (Some name) (use_extended self) (mode self)
    (beacon_key self) (mesh_id_bytes self).
Definition with_extended_advertising (self : t) (enabled : bool) : t :=
  changed self (beacon self) (tx_power self) (device_name self) enabled (mode self)
    (beacon_key self) (mesh_id_bytes self).
Definition with_encryption (self : t) (key : BeaconKey.t) (mesh_id_bytes : list Z) : t :=
  changed self (beacon self) (tx_power self) (Some ENCRYPTED_DEVICE_NAME) (use_extended self)
    AdvertisingMode.Encrypted (Some key) (Some mesh_id_bytes).
Definition set_mode (self : t) (mode : AdvertisingMode.t) : t :=
  changed self (beacon self) (tx_power self) (device_name self) (use_extended self) mode
    (beacon_key self) (mesh_id_bytes self).
Definition set_beacon_key (self : t) (key : BeaconKey.t) : t :=
  changed self (beacon self) (tx_power self) (device_name self) (use_extended self) (mode self)
    (Some key) (mesh_id_bytes self).
(** A write through [beacon_mut]: the borrow ends before any other call. *)
Definition beacon_mut (self : t) (write : PeatBeacon.t → PeatBeacon.t) : t :=
  changed self (write (beacon self)) (tx_power self) (device_name self) (use_extended self)
    (mode self) (beacon_key self) (mesh_id_bytes self).
Definition set_hierarchy_level (self : t) (level : HierarchyLevel.t) : t :=
  beacon_mut self (λ b, PeatBeacon.with_hierarchy_level b level).
Definition set_capabilities (self : t) (caps : Z) : t :=
  beacon_mut self (λ b, PeatBeacon.with_capabilities b caps).
Definition set_battery (self : t) (percent : Z) : t :=
  beacon_mut self (λ b, PeatBeacon.with_battery b percent).
Definition set_geohash (self : t) (geohash : Z) : t :=
  beacon_mut self (λ b, PeatBeacon.with_geohash b geohash).
Definition increment_sequence (self : t) : t := beacon_mut self PeatBeacon.increment_seq.

Definition set_state (self : t) (state : AdvertiserState.t) (started : option Z) : t :=
  mk (config self) (beacon self) state started (current_time_ms self) (tx_power self)
    (device_name self) (use_extended self) (cached_packet self) (cache_dirty self) (mode self)
    (beacon_key self) (mesh_id_bytes self).
Definition start (self : t) : t :=
  set_state self AdvertiserState.Advertising (Some (current_time_ms self)).
Definition pause (self : t) : t := set_state self AdvertiserState.Paused (started_at_ms self).
Definition resume (self : t) : t :=
  if decide (state self = AdvertiserState.Paused)
  then set_state self AdvertiserState.Advertising (started_at_ms self) else self.
Definition stop (self : t) : t := set_state self AdvertiserState.Idle None.
Definition advertising_duration_ms (self : t) : option Z :=
  (λ t0, saturating_sub (current_time_ms self) t0) <$> started_at_ms self.

Section crypto.
Context `{Crypto}.

Definition uuid_bytes : list Z :=
  [wrap 8 (Z.land PEAT_SERVICE_UUID_16BIT 0xFF); wrap 8 (Z.shiftr PEAT_SERVICE_UUID_16BIT 8)].
Definition plain_service (self : t) : list Z :=
  [wrap 8 (2 + BEACON_COMPACT_SIZE); AD_TYPE_SERVICE_DATA_16] ++ uuid_bytes
  ++ PeatBeacon.encode_compact (beacon self).
Definition service_data (self : t) (nonce : list Z) : list Z :=
  match mode self with
  | AdvertisingMode.Plaintext => plain_service self
  | AdvertisingMode.Encrypted =>
      match beacon_key self, mesh_id_bytes self with
      | Some key, Some mesh =>
          let encrypted_beacon := EncryptedBeacon.new (PeatBeacon.node_id (beacon self))
            (PeatBeacon.capabilities (beacon self))
            (HierarchyLevel.to_u8 (PeatBeacon.hierarchy_level (beacon self)))
            (PeatBeacon.battery_percent (beacon self)) in
          [wrap 8 (2 + ENCRYPTED_BEACON_SIZE); AD_TYPE_SERVICE_DATA_16] ++ uuid_bytes
          ++ EncryptedBeacon.encrypt encrypted_beacon key mesh nonce
      | _, _ => plain_service self
      end
  end.
Definition build_packet_inner (self : t) (nonce : list Z) : AdvertisingPacket.t :=
  let adv_data := [2; AD_TYPE_FLAGS; FLAGS_VALUE] ++ [3; AD_TYPE_SERVICE_UUID_16] ++ uuid_bytes
                  ++ service_data self nonce in
  let '(adv_data, scan_rsp) :=
    match tx_power self with
    | Some p =>
        if zlen adv_data + 3 <=? LEGACY_ADV_MAX
        then (adv_data ++ [2; AD_TYPE_TX_POWER; wrap 8 p], [])
        else (adv_data, [2; AD_TYPE_TX_POWER; wrap 8 p])
    | None => (adv_data, [])
    end in
  let scan_rsp :=
    match device_name self with
    | Some name =>
        let max_name_len := LEGACY_ADV_MAX - 2 in
        if zlen name <=? max_name_len
        then scan_rsp ++ [zlen name + 1; AD_TYPE_LOCAL_NAME] ++ name
        else let short_name := ztake (Z.min max_name_len (zlen name)) name in
             scan_rsp ++ [zlen short_name + 1; AD_TYPE_SHORT_NAME] ++ short_name
    | None => scan_rsp
    end in
  let extended := use_extended self || (LEGACY_ADV_MAX <? zlen adv_data)
                  || (LEGACY_ADV_MAX <? zlen scan_rsp) in
  AdvertisingPacket.mk adv_data (match scan_rsp with [] => None | _ => Some scan_rsp end) extended.

Definition set_cache (self : t) (packet : AdvertisingPacket.t) : t :=
  mk (config self) (beacon self) (state self) (started_at_ms self) (current_time_ms self)
    (tx_power self) (device_name self) (use_extended self) (Some packet) false (mode self)
    (beacon_key self) (mesh_id_bytes self).
Definition build_packet (self : t) (nonce : list Z) : t * AdvertisingPacket.t :=
  match cached_packet self with
  | Some packet =>
      if cache_dirty self then
        let packet := build_packet_inner self nonce in (set_cache self packet, packet)
      else (self, packet)
  | None => let packet := build_packet_inner self nonce in (set_cache self packet, packet)
  end.
Definition rebuild_packet (self : t) (nonce : list Z) : t * AdvertisingPacket.t :=
  build_packet (beacon_mut self id) nonce.
Definition advertising_data (self : t) (nonce : list Z) : t * list Z :=
  let '(self, packet) := build_packet self nonce in (self, AdvertisingPacket.adv_data packet).
Definition scan_response_data (self : t) (nonce : list Z) : t * option (list Z) :=
  let '(self, packet) := build_packet self nonce in (self, AdvertisingPacket.scan_rsp packet).
End crypto.

End Advertiser.

(** ** Parsed advertisements and the scanner *)

Module ParsedAdvertisement.
Record t := mk {
  address : list Z; rssi : Z; beacon : option PeatBeacon.t;
  encrypted_service_data : option (list Z); local_name : option (list Z); tx_power : option Z;
  connectable : bool
}.
Definition is_peat_device (self : t) : bool :=
  bool_decide (is_Some (beacon self)) || bool_decide (is_Some (encrypted_service_data self)).
Definition node_id (self : t) : option Z := PeatBeacon.node_id <$> beacon self.
End ParsedAdvertisement.

Definition DEFAULT_DEVICE_TIMEOUT_MS : Z := 30000.
Definition DEDUP_INTERVAL_MS : Z := 500.

Module TrackedDevice.
Record t := mk {
  beacon : PeatBeacon.t; address : list Z; rssi : Z; rssi_history : list Z;
  first_seen_ms : Z; last_seen_ms : Z; connectable : bool
}.
Definition new (beacon : PeatBeacon.t) (address : list Z) (rssi : Z) (connectable : bool)
    (current_time_ms : Z) : t :=
  mk beacon address rssi [rssi] current_time_ms current_time_ms connectable.
Definition update (self : t) (beacon : PeatBeacon.t) (rssi : Z) (connectable : bool)
    (current_time_ms : Z) : t :=
  let history := rssi_history self ++ [rssi] in
  let history := if 10 <? zlen history then tail history else history in
  mk beacon (address self) rssi history (first_seen_ms self) current_time_ms connectable.
(** The sum of at most ten bytes is far from the limits of [i32]; [as i8]. *)
Definition average_rssi (self : t) : Z :=
  match rssi_history self with
  | [] => rssi self
  | h => to_i8 (wrap 8 (Z.quot (foldl Z.add 0 h) (zlen h)))
  end.
Definition is_stale (self : t) (timeout_ms current_time_ms : Z) : bool :=
  timeout_ms <? saturating_sub current_time_ms (last_seen_ms self).
Definition time_tracked_ms (self : t) (current_time_ms : Z) : Z :=
  saturating_sub current_time_ms (first_seen_ms self).
End TrackedDevice.

Module ScanFilter.
Record t := mk {
  peat_only : bool; min_hierarchy_level : option HierarchyLevel.t;
  required_capabilities : option Z; excluded_capabilities : option Z; min_rssi : option Z;
  max_distance : option Z; connectable_only : bool
}.
Definition default_filter : t := mk false None None None None None false.
Definition peat_nodes : t := mk true None None None None None false.
Definition potential_parents (our_level : HierarchyLevel.t) : t :=
  mk true (Some our_level) None None None None true.

Definition level_lt (a b : HierarchyLevel.t) : bool :=
  HierarchyLevel.to_u8 a <? HierarchyLevel.to_u8 b.
(** [if let Some(limit) = o { if reject(limit) { return false } }]. *)
Definition passes {A} (o : option A) (reject : A → bool) : bool :=
  match o with Some a => negb (reject a) | None => true end.

Definition matches (farther : ParsedAdvertisement.t → Z → bool) (self : t)
    (adv : ParsedAdvertisement.t) : bool :=
  if peat_only self && negb (ParsedAdvertisement.is_peat_device adv) then false
  else if negb (passes (min_rssi self) (λ m, ParsedAdvertisement.rssi adv <? m)) then false
  else if negb (passes (max_distance self) (farther adv)) then false
  else if connectable_only self && negb (ParsedAdvertisement.connectable adv) then false
  else
    match ParsedAdvertisement.beacon adv with
    | Some beacon =>
        if negb (passes (min_hierarchy_level self)
                   (level_lt (PeatBeacon.hierarchy_level beacon))) then false
        else if negb (passes (required_capabilities self)
                   (λ r, negb (Z.land (PeatBeacon.capabilities beacon) r =? r))) then false
        else passes (excluded_capabilities self)
               (λ e, negb (Z.land (PeatBeacon.capabilities beacon) e =? 0))
    | None => true
    end.
End ScanFilter.

Module ScannerState.
Inductive t := Idle | Scanning | Paused.
End ScannerState.

Module Scanner.

Record t := mk {
  config : DiscoveryConfig.t; state : ScannerState.t; devices : gmap Z TrackedDevice.t;
  address_map : gmap (list Z) Z; filter_ : ScanFilter.t; device_timeout_ms : Z;
  last_processed : gmap Z Z; current_time_ms : Z; beacon_key : option BeaconKey.t;
  mesh_id_bytes : option (list Z)
}.
Definition new (config : DiscoveryConfig.t) : t :=
  mk config ScannerState.Idle ∅ ∅ ScanFilter.default_filter DEFAULT_DEVICE_TIMEOUT_MS ∅ 0 None None.
Definition set_tables (self : t) (devices : gmap Z TrackedDevice.t)
    (address_map : gmap (list Z) Z) (last_processed : gmap Z Z) : t :=
  mk (config self) (state self) devices address_map (filter_ self) (device_timeout_ms self)
    last_processed (current_time_ms self) (beacon_key self) (mesh_id_bytes self).
Definition set_time_ms (self : t) (time_ms : Z) : t :=
  mk (config self) (state self) (devices self) (address_map self) (filter_ self)
    (device_timeout_ms self) (last_processed self) time_ms (beacon_key self) (mesh_id_bytes self).
Definition set_filter (self : t) (f : ScanFilter.t) : t :=
  mk (config self) (state self) (devices self) (address_map self) f (device_timeout_ms self)
    (last_processed self) (current_time_ms self) (beacon_key self) (mesh_id_bytes self).
Definition set_device_timeout_ms (self : t) (timeout_ms : Z) : t :=
  mk (config self) (state self) (devices self) (address_map self) (filter_ self) timeout_ms
    (last_processed self) (current_time_ms self) (beacon_key self) (mesh_id_bytes self).
Definition set_keys (self : t) (key : option BeaconKey.t) (mesh : option (list Z)) : t :=
  mk (config self) (state self) (devices self) (address_map self) (filter_ self)
    (device_timeout_ms self) (last_processed self) (current_time_ms self) key mesh.
Definition set_beacon_key (self : t) (key : BeaconKey.t) (mesh_id_bytes : list Z) : t :=
  set_keys self (Some key) (Some mesh_id_bytes).
Definition clear_beacon_key (self : t) : t := set_keys self None None.
Definition can_decrypt_beacons (self : t) : bool :=
  bool_decide (is_Some (beacon_key self)) && bool_decide (is_Some (mesh_id_bytes self)).
Definition set_state (self : t) (s : ScannerState.t) : t :=
  mk (config self) s (devices self) (address_map self) (filter_ self) (device_timeout_ms self)
    (last_processed self) (current_time_ms self) (beacon_key self) (mesh_id_bytes self).
Definition start (self : t) : t := set_state self ScannerState.Scanning.
Definition pause (self : t) : t := set_state self ScannerState.Paused.
Definition stop (self : t) : t := set_state self ScannerState.Idle.

Section crypto.
Context `{Crypto} (farther : ParsedAdvertisement.t → Z → bool).

Definition try_decrypt_beacon (self : t) (encrypted_data : list Z)
    : outcome (PeatBeacon.t * list Z) :=
  let! key := of_option (beacon_key self) in
  let! expected_mesh_id := of_option (mesh_id_bytes self) in
  let! (encrypted_beacon, mesh_id) := EncryptedBeacon.decrypt encrypted_data key in
  reject_if negb (bool_decide (mesh_id = expected_mesh_id)) ;;
  Ok (PeatBeacon.mk 1 (EncryptedBeacon.capabilities encrypted_beacon)
        (EncryptedBeacon.node_id encrypted_beacon)
        (HierarchyLevel.from_u8 (EncryptedBeacon.hierarchy_level encrypted_beacon)) 0
        (EncryptedBeacon.battery_percent encrypted_beacon) 0, mesh_id).

(** The beacon of an advertisement, decrypted if need be. *)
Definition read_beacon (self : t) (adv : ParsedAdvertisement.t) : outcome (option PeatBeacon.t) :=
  match ParsedAdvertisement.beacon adv with
  | Some b => Ok (Some b)
  | None =>
      match ParsedAdvertisement.encrypted_service_data adv with
      | Some encrypted_data =>
          let! r := opt (try_decrypt_beacon self encrypted_data) in
          Ok (match r with Some (b, _) => Some b | None => None end)
      | None => Ok None
      end
  end.
(** The tables after a beacon that is not a duplicate. *)
Definition track (self : t) (adv : ParsedAdvertisement.t) (beacon : PeatBeacon.t) : t * bool :=
  let node_id := PeatBeacon.node_id beacon in
  let now := current_time_ms self in
  let last_processed := <[node_id := now]> (last_processed self) in
  match devices self !! node_id with
  | Some device =>
      let device := TrackedDevice.update device beacon (ParsedAdvertisement.rssi adv)
                      (ParsedAdvertisement.connectable adv) now in
      (set_tables self (<[node_id := device]> (devices self)) (address_map self) last_processed,
       false)
  | None =>
      let device := TrackedDevice.new beacon (ParsedAdvertisement.address adv)
                      (ParsedAdvertisement.rssi adv) (ParsedAdvertisement.connectable adv) now in
      (set_tables self (<[node_id := device]> (devices self))
         (<[ParsedAdvertisement.address adv := node_id]> (address_map self)) last_processed,
       true)
  end.
Definition is_duplicate (self : t) (node_id : Z) : bool :=
  match last_processed self !! node_id with
  | Some last => saturating_sub (current_time_ms self) last <? DEDUP_INTERVAL_MS
  | None => false
  end.
Definition process_advertisement (self : t) (adv : ParsedAdvertisement.t) : outcome (t * bool) :=
  if negb (ScanFilter.matches farther (filter_ self) adv) then Ok (self, false)
  else
    let! beacon := read_beacon self adv in
    Ok (match beacon with
        | None => (self, false)
        | Some beacon =>
            if is_duplicate self (PeatBeacon.node_id beacon) then (self, false)
            else track self adv beacon
        end).
End crypto.

Definition get_device (self : t) (node_id : Z) : option TrackedDevice.t := devices self !! node_id.
Definition get_node_id_for_address (self : t) (address : list Z) : option Z :=
  address_map self !! address.
Definition device_count (self : t) : Z := Z.of_nat (size (devices self)).
Definition remove_device (self : t) (node_id : Z) : t :=
  match devices self !! node_id with
  | Some device =>
      set_tables self (delete node_id (devices self))
        (delete (TrackedDevice.address device) (address_map self))
        (delete node_id (last_processed self))
  | None => self
  end.
Definition clear (self : t) : t := set_tables self ∅ ∅ ∅.

Definition level_of (d : TrackedDevice.t) : Z :=
  HierarchyLevel.to_u8 (PeatBeacon.hierarchy_level (TrackedDevice.beacon d)).
(** The comparisons of the two sorts. *)
Definition stronger_first (a b : TrackedDevice.t) : Prop := TrackedDevice.rssi b ≤ TrackedDevice.rssi a.
Definition higher_first (a b : TrackedDevice.t) : Prop := level_of b ≤ level_of a.
#[global] Instance stronger_first_dec : RelDecision stronger_first.
Proof. unfold RelDecision, stronger_first. intros a b. apply _. Defined.
#[global] Instance higher_first_dec : RelDecision higher_first.
Proof. unfold RelDecision, higher_first. intros a b. apply _. Defined.

Section iteration.
Context `{!MapOrder Z}.

Definition all_devices (self : t) : list TrackedDevice.t := (map_iter (devices self)).*2.
Definition devices_by_rssi (self : t) : list TrackedDevice.t :=
  merge_sort stronger_first (all_devices self).
Definition devices_by_hierarchy (self : t) : list TrackedDevice.t :=
  merge_sort higher_first (all_devices self).
Definition stale_devices (self : t) : list Z :=
  omap (λ '(n, d), if TrackedDevice.is_stale d (device_timeout_ms self) (current_time_ms self)
                   then Some n else None) (map_iter (devices self)).
Definition remove_stale (self : t) : t * Z :=
  let stale := stale_devices self in
  (foldl remove_device self stale, zlen stale).
(** First the hierarchy level, then the average signal. *)
Definition parent_le (a b : TrackedDevice.t) : bool :=
  if level_of a =? level_of b
  then TrackedDevice.average_rssi a <=? TrackedDevice.average_rssi b
  else level_of a <? level_of b.
Definition may_be_parent (our_level : HierarchyLevel.t) (d : TrackedDevice.t) : bool :=
  (HierarchyLevel.to_u8 our_level <? level_of d) && TrackedDevice.connectable d
  && negb (PeatBeacon.is_lite_node (TrackedDevice.beacon d)).
Definition find_best_parent (self : t) (our_level : HierarchyLevel.t) : option TrackedDevice.t :=
  max_by parent_le (filter (λ d, may_be_parent our_level d = true) (all_devices self)).
End iteration.

End Scanner.

(** * Theorems *)

Module AdvertiserProofs.
Import Advertiser.

(** Everything the owner of an advertiser can do with it. *)
Inductive op :=
| SetTime (ms : Z) | TxPower (p : Z) | Name (name : list Z) | Extended (b : bool)
| Encryption (key : BeaconKey.t) (mesh : list Z) | Mode (m : AdvertisingMode.t)
| Key (key : BeaconKey.t) | Write (f : PeatBeacon.t → PeatBeacon.t)
| Start | Pause | Resume | Stop | Build (nonce : list Z) | Rebuild (nonce : list Z).

Section crypto.
Context `{Crypto}.

Definition apply_op (self : t) (o : op) : t :=
  match o with
  | SetTime ms => set_time_ms self ms
  | TxPower p => with_tx_power self p
  | Name name => with_name self name
  | Extended b => with_extended_advertising self b
  | Encryption key mesh => with_encryption self key mesh
  | Mode m => set_mode self m
  | Key key => set_beacon_key self key
  | Write f => beacon_mut self f
  | Start => start self
  | Pause => pause self
  | Resume => resume self
  | Stop => stop self
  | Build nonce => (build_packet self nonce).1
  | Rebuild nonce => (rebuild_packet self nonce).1
  end.
Definition run_ops (self : t) (ops : list op) : t := foldl apply_op self ops.

(** A clean cache holds the packet of the current state, under a nonce that
    was drawn for an earlier build. *)
Definition coherent (drawn : list Z → Prop) (self : t) : Prop :=
  cache_dirty self = false →
  ∃ nonce, drawn nonce ∧ cached_packet self = Some (build_packet_inner self nonce).

Lemma build_packet_coherent (drawn : list Z → Prop) self nonce :
  coherent drawn self → drawn nonce →
  let '(self', packet) := build_packet self nonce in
  coherent drawn self'
  ∧ (∃ nonce', drawn nonce' ∧ packet = build_packet_inner self nonce')
  ∧ ∀ n, build_packet self' n = (self', packet).
Proof.
  intros Hc Hn. unfold build_packet. destruct (cached_packet self) as [p|] eqn:Hp;
    [destruct (cache_dirty self) eqn:Hd|].
  - split_and!; [intros _; by exists nonce|by exists nonce|done].
  - destruct (Hc Hd) as (nonce' & Hn' & [= ->]%(transitivity (eq_sym Hp))).
    split_and!; [done|by exists nonce'|]. intros n. by rewrite Hp, Hd.
  - split_and!; [intros _; by exists nonce|by exists nonce|done].
Qed.
Lemma coherent_mono (drawn drawn' : list Z → Prop) self :
  (∀ n, drawn n → drawn' n) → coherent drawn self → coherent drawn' self.
Proof. intros Hd Hc Hcl. destruct (Hc Hcl) as (n & ? & ?). eauto. Qed.
Lemma apply_coherent (drawn : list Z → Prop) self o :
  coherent drawn self →
  (match o with Build n | Rebuild n => drawn n | _ => True end) →
  coherent drawn (apply_op self o).
Proof.
  intros Hc Ho. destruct o; cbn [apply_op]; try done.
  - unfold resume. by case_decide.
  - pose proof (build_packet_coherent drawn self nonce Hc Ho) as Hb.
    destruct (build_packet self nonce). apply Hb.
  - pose proof (build_packet_coherent drawn (beacon_mut self id) nonce ltac:(done) Ho) as Hb.
    unfold rebuild_packet. destruct (build_packet _ nonce). apply Hb.
Qed.
Lemma run_coherent (drawn : list Z → Prop) self ops :
  coherent drawn self →
  Forall (λ o, match o with Build n | Rebuild n => drawn n | _ => True end) ops →
  coherent drawn (run_ops self ops).
Proof.
  intros Hc Hops. revert self Hc. induction Hops as [|o ops Ho Hops IH]; intros self Hc; [done|].
  cbn. apply IH. by apply apply_coherent.
Qed.
End crypto.

(** One advertising structure of the Bluetooth Core Specification: a length,
    which counts the type and the data, the type, the data, and the rest. *)
Definition ad_next (data : list Z) : option (Z * list Z * list Z) :=
  match data with
  | l :: rest =>
      if l <=? zlen rest then
        match ztake l rest with
        | ty :: payload => Some (ty, payload, zdrop l rest)
        | [] => None
        end
      else None
  | [] => None
  end.
Lemma ad_next_app ty payload rest l :
  l = zlen payload + 1 → ad_next (l :: ty :: payload ++ rest) = Some (ty, payload, rest).
Proof.
  intros ->. unfold ad_next. rewrite (proj2 (Z.leb_le _ _)) by len.
  change (ty :: payload ++ rest) with ((ty :: payload) ++ rest).
  rewrite ztake_app_exact by len. unfold zdrop. rewrite drop_app_length' by len. done.
Qed.
Lemma adv_data_prefix `{Crypto} self nonce :
  ∃ tx, AdvertisingPacket.adv_data (build_packet_inner self nonce)
  = [2; AD_TYPE_FLAGS; FLAGS_VALUE] ++ [3; AD_TYPE_SERVICE_UUID_16] ++ uuid_bytes
    ++ service_data self nonce ++ tx.
Proof.
  unfold build_packet_inner. set (d := _ ++ _ ++ _ ++ service_data _ _).
  destruct (tx_power self) as [p|]; [destruct (_ <=? _)|]; cbn;
    [exists [2; AD_TYPE_TX_POWER; wrap 8 p]|exists []..]; by rewrite ?app_nil_r, <-?app_assoc.
Qed.
Lemma split_last_byte (l : list Z) n :
  zlen l = n + 1 → 0 ≤ n → ∃ b, l = ztake n l ++ [b].
Proof.
  intros Hl Hn. exists (List.last l 0). destruct l as [|x l] using rev_ind; [cbn in Hl; lia|].
  rewrite List.last_last. rewrite length_app in Hl. cbn in Hl.
  by rewrite ztake_app_exact by lia.
Qed.
End AdvertiserProofs.

Module AdvertiserProperties.
Import Advertiser AdvertiserProofs.

(** The cached packet.  After any sequence of changes, starts, stops and
    builds the packet that [build_packet] returns is the one of the current
    state, under a nonce drawn for this build or an earlier one; until the
    next change it stays the same, nonce included. *)
Theorem packet_is_current `{Crypto} self ops nonce :
  cache_dirty self = true →
  let self' := run_ops self ops in
  let '(self'', packet) := build_packet self' nonce in
  (∃ nonce', (nonce' = nonce ∨ Build nonce' ∈ ops ∨ Rebuild nonce' ∈ ops)
     ∧ packet = build_packet_inner self' nonce')
  ∧ ∀ later, build_packet self'' later = (self'', packet).
Proof.
  intros Hd self'.
  assert (coherent (λ n, n = nonce ∨ Build n ∈ ops ∨ Rebuild n ∈ ops) self') as Hc.
  { apply run_coherent; [intros Hcl; congruence|]. apply Forall_forall. intros o Ho.
    destruct o; try done; set_solver. }
  pose proof (build_packet_coherent _ self' nonce Hc ltac:(by left)) as Hb.
  destruct (build_packet self' nonce) as [self'' packet]. destruct Hb as (_ & ? & ?). by split.
Qed.

(** The length of the service data is one too small.  A reader of the
    advertising structures finds the flags and the service, and then a beacon
    without its last byte, which neither decoder accepts: nine bytes of ten,
    or twenty of twenty-one.  An encrypted packet does not fit legacy
    advertising either. *)
Theorem advertised_beacon_is_cut `{CryptoLaws} self nonce key mesh :
  block 4 nonce → block 4 mesh → mesh_id_bytes self = Some mesh → beacon_key self = Some key →
  let packet := build_packet_inner self nonce in
  ∃ r1 r2 r3 service,
    ad_next (AdvertisingPacket.adv_data packet) = Some (AD_TYPE_FLAGS, [FLAGS_VALUE], r1)
    ∧ ad_next r1 = Some (AD_TYPE_SERVICE_UUID_16, uuid_bytes, r2)
    ∧ ad_next r2 = Some (AD_TYPE_SERVICE_DATA_16, uuid_bytes ++ service, r3)
    ∧ match mode self with
      | AdvertisingMode.Plaintext =>
          service = ztake 9 (PeatBeacon.encode_compact (beacon self))
          ∧ PeatBeacon.decode_compact service = Fail
      | AdvertisingMode.Encrypted =>
          zlen service = 20 ∧ EncryptedBeacon.decrypt service key = Fail
          ∧ AdvertisingPacket.fits_legacy packet = false
      end.
Proof.
  intros [_ Hn] [_ Hm] Hmesh Hkey packet. destruct (adv_data_prefix self nonce) as [tx Htx].
  assert (∃ service b, service_data self nonce
    = [1 + 2 + zlen service; AD_TYPE_SERVICE_DATA_16] ++ uuid_bytes ++ service ++ [b]
    ∧ match mode self with
      | AdvertisingMode.Plaintext => service = ztake 9 (PeatBeacon.encode_compact (beacon self))
      | AdvertisingMode.Encrypted => zlen service = 20
      end) as (service & b & Hs & Hmode).
  { unfold service_data, plain_service. rewrite Hkey, Hmesh. destruct (mode self).
    - destruct (split_last_byte (PeatBeacon.encode_compact (beacon self)) 9) as [b Hb]; [done..|].
      exists (ztake 9 (PeatBeacon.encode_compact (beacon self))), b.
      split; [|done]. by rewrite <-Hb.
    - set (w := EncryptedBeacon.encrypt _ _ _ _). assert (zlen w = 20 + 1) as Hw.
      { unfold w. rewrite EncryptedBeaconProofs.encrypt_parts.
        destruct (EncryptedBeaconProofs.keystream_block key nonce) as [_ Hk].
        set (e := EncryptedBeacon.xor _ _).
        assert (zlen e = 8) by (unfold e; rewrite EncryptedBeaconProofs.xor_length; len).
        destruct (EncryptedBeaconProofs.mac_block key nonce e) as [_ Hmac]. len. }
      destruct (split_last_byte w 20) as [b Hb]; [done..|].
      assert (zlen (ztake 20 w) = 20) as Hz by len. exists (ztake 20 w), b.
      rewrite Hz. split; [|done]. by rewrite <-Hb. }
  rewrite Hs in Htx. unfold packet. rewrite Htx.
  exists ([3; AD_TYPE_SERVICE_UUID_16] ++ uuid_bytes ++ [1 + 2 + zlen service; AD_TYPE_SERVICE_DATA_16]
    ++ uuid_bytes ++ service ++ [b] ++ tx),
    ([1 + 2 + zlen service; AD_TYPE_SERVICE_DATA_16] ++ uuid_bytes ++ service ++ [b] ++ tx),
    (b :: tx), service. rewrite <-!app_assoc. split_and!.
  - by apply (ad_next_app AD_TYPE_FLAGS [FLAGS_VALUE]).
  - by apply (ad_next_app AD_TYPE_SERVICE_UUID_16 uuid_bytes).
  - pose proof (ad_next_app AD_TYPE_SERVICE_DATA_16 (uuid_bytes ++ service) (b :: tx)
      (1 + 2 + zlen service)) as Had. rewrite <-app_assoc in Had. apply Had.
    rewrite length_app. unfold uuid_bytes. cbn [length]. lia.
  - destruct (mode self).
    + split; [done|]. subst service. done.
    + split_and!; [done|unfold EncryptedBeacon.decrypt, ENCRYPTED_BEACON_SIZE; by rewrite Hmode|].
      unfold AdvertisingPacket.fits_legacy. apply andb_false_iff. left. apply Z.leb_gt.
      rewrite Htx. unfold LEGACY_ADV_MAX, uuid_bytes. len.
Qed.

Definition demo_advertiser : t := new DiscoveryConfig.default_config 0x12345678.
Lemma packet_is_current_witness :
  let ops := [Build []; Write (λ b, PeatBeacon.with_battery b 50); Build []; Start; SetTime 5] in
  ∃ nonce, (build_packet (run_ops demo_advertiser ops) []).2
    = build_packet_inner (run_ops demo_advertiser ops) nonce.
Proof.
  intros ops. pose proof (packet_is_current demo_advertiser ops [] eq_refl) as Hp. cbv zeta in Hp.
  revert Hp. destruct (build_packet (run_ops demo_advertiser ops) []) as [self' p].
  intros [(nonce & _ & Hp) _]. exists nonce. exact Hp.
Defined.
Lemma advertised_beacon_is_cut_witness :
  let self := set_mode (with_encryption demo_advertiser (BeaconKey.from_base (replicate 32 3)) [1; 2; 3; 4])
                AdvertisingMode.Plaintext in
  ∃ r1 r2 r3 service,
    ad_next (AdvertisingPacket.adv_data (build_packet_inner self [5; 6; 7; 8]))
    = Some (AD_TYPE_FLAGS, [FLAGS_VALUE], r1)
    ∧ ad_next r1 = Some (AD_TYPE_SERVICE_UUID_16, uuid_bytes, r2)
    ∧ ad_next r2 = Some (AD_TYPE_SERVICE_DATA_16, uuid_bytes ++ service, r3)
    ∧ PeatBeacon.decode_compact service = Fail.
Proof.
  intros self.
  destruct (advertised_beacon_is_cut self [5; 6; 7; 8] (BeaconKey.from_base (replicate 32 3)) [1; 2; 3; 4])
    as (r1 & r2 & r3 & service & H1 & H2 & H3 & H4); [by_decide|by_decide|reflexivity|reflexivity|].
  exists r1, r2, r3, service. split; [exact H1|]. split; [exact H2|]. split; [exact H3|].
  exact (proj2 H4).
Defined.
End AdvertiserProperties.

Module ScannerProofs.
Import Scanner.

(** The average of a window lies between its bounds. *)
Lemma average_bounds lo hi d :
  TrackedDevice.rssi_history d ≠ [] → Forall (λ r, lo ≤ r ≤ hi) (TrackedDevice.rssi_history d) →
  -128 ≤ lo → hi ≤ 127 → lo ≤ TrackedDevice.average_rssi d ≤ hi.
Proof.
  intros Hne Hh Hlo Hhi. unfold TrackedDevice.average_rssi.
  pose proof (mean_bounds lo hi _ Hne Hh).
  destruct (TrackedDevice.rssi_history d); [done|].
  rewrite to_i8_wrap by lia. done.
Qed.

(** What every history of advertisements with 8-bit signals keeps. *)
Definition device_ok (n : Z) (d : TrackedDevice.t) : Prop :=
  PeatBeacon.node_id (TrackedDevice.beacon d) = n
  ∧ 1 ≤ zlen (TrackedDevice.rssi_history d) ≤ 10
  ∧ Forall (λ r, -128 ≤ r ≤ 127) (TrackedDevice.rssi_history d).
Definition inv (self : t) : Prop :=
  map_Forall device_ok (devices self)
  ∧ ∀ n, is_Some (devices self !! n) → is_Some (last_processed self !! n).

Lemma device_update_ok n d b r c now :
  device_ok n d → PeatBeacon.node_id b = n → -128 ≤ r ≤ 127 →
  device_ok n (TrackedDevice.update d b r c now).
Proof.
  intros (_ & Hl & Hf) Hb Hr. unfold TrackedDevice.update.
  assert (Forall (λ r, -128 ≤ r ≤ 127) (TrackedDevice.rssi_history d ++ [r])) as Hf'
    by (apply Forall_app; split; [done|by constructor]).
  split; [done|]. cbn. destruct (Z.ltb_spec 10 (zlen (TrackedDevice.rssi_history d ++ [r]))) as [Hg|Hg].
  - destruct (TrackedDevice.rssi_history d) as [|x h]; [cbn in Hl; lia|]. cbn in *.
    inversion Hf'; subst. split; [len|done].
  - split; [len|done].
Qed.
Lemma track_inv self adv b :
  inv self → -128 ≤ ParsedAdvertisement.rssi adv ≤ 127 → inv (track self adv b).1.
Proof.
  intros [Hd Hl] Hr. unfold track.
  assert (∀ m d am lp, device_ok (PeatBeacon.node_id b) d → m = devices self →
    lp = <[PeatBeacon.node_id b := current_time_ms self]> (last_processed self) →
    inv (set_tables self (<[PeatBeacon.node_id b := d]> m) am lp)) as Hins.
  { intros m d am lp Hok -> ->. split; cbn.
    - by apply map_Forall_insert_2.
    - intros n. destruct (decide (n = PeatBeacon.node_id b)) as [->|];
        rewrite ?lookup_insert_eq, ?lookup_insert_ne by done; [by eexists|apply Hl]. }
  destruct (devices self !! PeatBeacon.node_id b) as [d|] eqn:E; cbn [fst]; apply Hins; try done.
  - by apply device_update_ok; [apply Hd|..].
  - split; [done|]. split; [cbn; lia|by constructor].
Qed.

Section crypto.
Context `{CryptoLaws} (farther : ParsedAdvertisement.t → Z → bool).

Lemma try_decrypt_wp self data :
  bytes_ok data → wp (try_decrypt_beacon self data) (λ r, PeatBeacon.typed r.1).
Proof.
  intros Hb. unfold try_decrypt_beacon. apply wp_bind, wp_of_option. intros key _.
  apply wp_bind, wp_of_option. intros mesh _. apply wp_bind.
  eapply wp_mono; [by apply EncryptedBeaconProofs.decrypt_wp|].
  intros [e m] [(? & ? & ? & ?) _]. cbn in *. apply wp_reject_if. intros _. apply wp_ok.
  split_and!; cbn; lia.
Qed.
Lemma process_wp self adv :
  inv self → -128 ≤ ParsedAdvertisement.rssi adv ≤ 127 →
  (∀ d, ParsedAdvertisement.encrypted_service_data adv = Some d → bytes_ok d) →
  ∃ r, process_advertisement farther self adv = Ok r ∧ inv r.1.
Proof.
  intros Hi Hr Hd. unfold process_advertisement.
  destruct (ScanFilter.matches _ _ _); cbn [negb]; [|by eexists].
  assert (∃ o, read_beacon self adv = Ok o) as [o ->].
  { unfold read_beacon. destruct (ParsedAdvertisement.beacon adv); [by eexists|].
    destruct (ParsedAdvertisement.encrypted_service_data adv) as [d|] eqn:Ed; [|by eexists].
    pose proof (try_decrypt_wp self d ltac:(by apply Hd)) as Hw.
    destruct (try_decrypt_beacon self d); [by eexists|by eexists|done]. }
  cbn [obind]. destruct o as [b|]; [|by eexists].
  destruct (is_duplicate _ _); [by eexists|]. eexists. split; [done|]. by apply track_inv.
Qed.
End crypto.

Lemma remove_device_inv self n : inv self → inv (remove_device self n).
Proof.
  intros [Hd Hl]. unfold remove_device. destruct (devices self !! n) as [d|]; [|done].
  split; cbn; [by apply map_Forall_delete|]. intros k.
  destruct (decide (k = n)) as [->|]; rewrite ?lookup_delete_eq, ?lookup_delete_ne by done;
    [by intros [? ?]|apply Hl].
Qed.
Lemma remove_stale_inv `{!MapOrder Z} self : inv self → inv (remove_stale self).1.
Proof.
  intros Hi. unfold remove_stale. cbn. apply (foldl_inv inv); [done|].
  intros ????. by apply remove_device_inv.
Qed.

Section iteration.
Context `{!MapOrder Z}.
Lemma parent_le_total a b : parent_le a b = true ∨ parent_le b a = true.
Proof.
  unfold parent_le. rewrite (Z.eqb_sym (level_of b)).
  destruct (Z.eqb_spec (level_of a) (level_of b)); rewrite ?Z.leb_le, ?Z.ltb_lt; lia.
Qed.
Lemma parent_le_trans a b c : parent_le a b = true → parent_le b c = true → parent_le a c = true.
Proof.
  unfold parent_le.
  destruct (Z.eqb_spec (level_of a) (level_of b)), (Z.eqb_spec (level_of b) (level_of c)),
    (Z.eqb_spec (level_of a) (level_of c)); rewrite ?Z.leb_le, ?Z.ltb_lt; lia.
Qed.
Lemma elem_of_all_devices self d : d ∈ all_devices self ↔ ∃ n, devices self !! n = Some d.
Proof.
  unfold all_devices. rewrite list_elem_of_fmap. split.
  - intros ([n d'] & -> & Hin%elem_of_map_iter). by exists n.
  - intros (n & Hn). exists (n, d). by rewrite elem_of_map_iter.
Qed.
End iteration.
End ScannerProofs.

Module ScannerProperties.
Import Scanner ScannerProofs.

(** What a scanner is given: the time, an advertisement, a cleanup, a filter,
    a key. *)
Inductive event :=
| Time (ms : Z) | Heard (adv : ParsedAdvertisement.t) | Stale | Clear
| Filter (f : ScanFilter.t) | Timeout_ (ms : Z) | Key (key : BeaconKey.t) (mesh : list Z) | NoKey.
Definition event_ok (ev : event) : Prop :=
  match ev with
  | Heard adv => -128 ≤ ParsedAdvertisement.rssi adv ≤ 127
      ∧ ∀ d, ParsedAdvertisement.encrypted_service_data adv = Some d → bytes_ok d
  | _ => True
  end.
#[global] Instance event_ok_dec ev : Decision (event_ok ev).
Proof. destruct ev; apply _. Defined.
Definition step `{Crypto, !MapOrder Z} (farther : ParsedAdvertisement.t → Z → bool) (self : t)
    (ev : event) : outcome t :=
  match ev with
  | Time ms => Ok (set_time_ms self ms)
  | Heard adv => let! r := process_advertisement farther self adv in Ok r.1
  | Stale => Ok (remove_stale self).1
  | Clear => Ok (clear self)
  | Filter f => Ok (set_filter self f)
  | Timeout_ ms => Ok (set_device_timeout_ms self ms)
  | Key key mesh => Ok (set_beacon_key self key mesh)
  | NoKey => Ok (clear_beacon_key self)
  end.
Fixpoint run `{Crypto, !MapOrder Z} (farther : ParsedAdvertisement.t → Z → bool) (self : t)
    (evs : list event) : outcome t :=
  match evs with
  | [] => Ok self
  | ev :: evs => let! self := step farther self ev in run farther self evs
  end.

Lemma run_scanner_inv `{CryptoLaws, !MapOrder Z} farther evs self :
  inv self → Forall event_ok evs → ∃ self', run farther self evs = Ok self' ∧ inv self'.
Proof.
  intros Hi Hev. revert self Hi. induction Hev as [|ev evs Hev _ IH]; intros self Hi; [by exists self|].
  cbn [run]. assert (∃ self', step farther self ev = Ok self' ∧ inv self') as (self' & -> & Hi');
    [|by apply IH].
  destruct ev; cbn [step]; try (by eexists).
  - destruct Hev as [Hr Hd]. destruct (process_wp farther self adv Hi Hr Hd) as (r & -> & Hr').
    by eexists.
  - eexists. split; [done|]. by apply remove_stale_inv.
  - eexists. split; [done|]. split; [apply map_Forall_empty|]. intros n [? Hn]. done.
Qed.

(** The choice of a parent.  A scanner that has heard any sequence of
    advertisements, plain or encrypted, is in order: it does not panic, files
    every device under its node, and keeps one to ten signals of it, whose
    average lies between their bounds.  The parent it proposes is connectable,
    not a lite node and above the given level, and no other such device has a
    higher level, or the same level and a stronger average; it proposes none
    only when there is none. *)
Theorem best_parent_chosen `{CryptoLaws, !MapOrder Z} farther cfg evs our_level :
  Forall event_ok evs →
  ∃ self, run farther (new cfg) evs = Ok self
  ∧ (∀ n d, devices self !! n = Some d →
      PeatBeacon.node_id (TrackedDevice.beacon d) = n
      ∧ 1 ≤ zlen (TrackedDevice.rssi_history d) ≤ 10
      ∧ ∀ lo hi, -128 ≤ lo → hi ≤ 127 → Forall (λ r, lo ≤ r ≤ hi) (TrackedDevice.rssi_history d) →
          lo ≤ TrackedDevice.average_rssi d ≤ hi)
  ∧ match find_best_parent self our_level with
    | None => ∀ n d, devices self !! n = Some d → may_be_parent our_level d = false
    | Some p =>
        may_be_parent our_level p = true
        ∧ (∃ n, devices self !! n = Some p)
        ∧ ∀ n d, devices self !! n = Some d → may_be_parent our_level d = true →
            level_of d < level_of p
            ∨ level_of d = level_of p ∧ TrackedDevice.average_rssi d ≤ TrackedDevice.average_rssi p
    end.
Proof.
  intros Hev. destruct (run_scanner_inv farther evs (new cfg)) as (self & -> & [Hd _]);
    [split; [apply map_Forall_empty|by intros n [? ?]]|done|].
  exists self. split_and!; [done| |].
  - intros n d (Hn & Hl & _)%Hd. split_and!; try done; try lia. intros lo hi ?? Hf.
    apply average_bounds; try done. intros He. rewrite He in Hl. cbn in Hl. lia.
  - unfold find_best_parent. set (l := filter _ _).
    assert (∀ d, d ∈ l ↔ may_be_parent our_level d = true ∧ ∃ n, devices self !! n = Some d) as Hl.
    { intros d. unfold l. by rewrite list_elem_of_filter, elem_of_all_devices. }
    pose proof (max_by_spec parent_le l parent_le_total parent_le_trans) as Hmax.
    destruct (max_by parent_le l) as [p|].
    + destruct Hmax as [[Hp Hin]%Hl Hmax]. split_and!; [done|done|]. intros n d Hn Hm.
      specialize (Hmax d (proj2 (Hl d) (conj Hm (ex_intro _ n Hn)))). unfold parent_le in Hmax.
      destruct (Z.eqb_spec (level_of d) (level_of p)); [apply Z.leb_le in Hmax|apply Z.ltb_lt in Hmax];
        lia.
    + intros n d Hn. destruct (may_be_parent our_level d) eqn:Hm; [|done].
      assert (d ∈ l) as Hin by (apply Hl; eauto). rewrite Hmax in Hin. by apply elem_of_nil in Hin.
Qed.

(** The beacon a scanner makes of an encrypted one. *)
Definition member_beacon (b : EncryptedBeacon.t) : PeatBeacon.t :=
  PeatBeacon.mk 1 (EncryptedBeacon.capabilities b) (EncryptedBeacon.node_id b)
    (HierarchyLevel.from_u8 (EncryptedBeacon.hierarchy_level b)) 0
    (EncryptedBeacon.battery_percent b) 0.
Definition encrypted_adv (address : list Z) (rssi : Z) (connectable : bool) (wire : list Z)
    : ParsedAdvertisement.t :=
  ParsedAdvertisement.mk address rssi None (Some wire) None None connectable.
Lemma decrypt_member `{CryptoLaws} self b key mesh nonce :
  EncryptedBeacon.wf b → block 4 mesh → block 4 nonce → beacon_key self = Some key →
  try_decrypt_beacon self (EncryptedBeacon.encrypt b key mesh nonce)
  = if bool_decide (Some mesh = mesh_id_bytes self)
    then Ok (member_beacon b, mesh) else Fail.
Proof.
  intros Hb Hm Hn Hk. unfold try_decrypt_beacon. rewrite Hk. cbn [of_option obind].
  rewrite <-(app_nil_r (EncryptedBeacon.encrypt _ _ _ _)), EncryptedBeaconProofs.decrypt_encrypt by done.
  destruct (mesh_id_bytes self) as [m|]; cbn [of_option obind].
  - destruct (decide (mesh = m)) as [->|].
    + by rewrite !bool_decide_eq_true_2.
    + by rewrite !bool_decide_eq_false_2 by congruence.
  - by rewrite bool_decide_eq_false_2.
Qed.
(** Members recognise each other.  A scanner with the mesh's beacon key
    that hears a member's encrypted beacon, not a duplicate and not filtered
    out, tracks the member with its node, level and battery, and reports it
    when it was not tracked; a copy of it changes nothing for 500 ms; a beacon
    for another mesh under the same key is ignored. *)
Theorem member_recognised `{CryptoLaws} farther self address rssi connectable b key mesh other nonce :
  EncryptedBeacon.wf b → block 4 mesh → block 4 other → block 4 nonce → other ≠ mesh →
  beacon_key self = Some key → mesh_id_bytes self = Some mesh →
  let heard id := encrypted_adv address rssi connectable (EncryptedBeacon.encrypt b key id nonce) in
  ScanFilter.matches farther (filter_ self) (heard mesh) = true →
  is_duplicate self (EncryptedBeacon.node_id b) = false →
  (∃ self' d,
    process_advertisement farther self (heard mesh)
    = Ok (self', bool_decide (devices self !! EncryptedBeacon.node_id b = None))
    ∧ devices self' !! EncryptedBeacon.node_id b = Some d
    ∧ TrackedDevice.beacon d = member_beacon b
    ∧ TrackedDevice.last_seen_ms d = current_time_ms self
    ∧ ∀ later, current_time_ms self ≤ later < current_time_ms self + 500 →
        process_advertisement farther (set_time_ms self' later) (heard mesh)
        = Ok (set_time_ms self' later, false))
  ∧ process_advertisement farther self (heard other) = Ok (self, false).
Proof.
  intros Hb Hm Ho Hn Hne Hk Hmesh heard Hf Hdup.
  assert (∀ s, filter_ s = filter_ self → beacon_key s = Some key → mesh_id_bytes s = Some mesh →
    process_advertisement farther s (heard mesh)
    = Ok (if is_duplicate s (EncryptedBeacon.node_id b) then (s, false)
          else track s (heard mesh) (member_beacon b))) as Hproc.
  { intros s Hs Hsk Hsm. unfold process_advertisement. rewrite Hs, Hf. cbn [negb].
    unfold read_beacon. cbn [heard encrypted_adv ParsedAdvertisement.beacon
      ParsedAdvertisement.encrypted_service_data].
    rewrite decrypt_member by done. rewrite Hsm, bool_decide_eq_true_2 by done. done. }
  split.
  - rewrite Hproc, Hdup by done. unfold track.
    change (PeatBeacon.node_id (member_beacon b)) with (EncryptedBeacon.node_id b).
    assert (∀ devs am later, current_time_ms self ≤ later < current_time_ms self + 500 →
      let s := set_tables self devs am
        (<[EncryptedBeacon.node_id b := current_time_ms self]> (last_processed self)) in
      process_advertisement farther (set_time_ms s later) (heard mesh)
      = Ok (set_time_ms s later, false)) as Hcopy.
    { intros devs am later Hl s. rewrite Hproc by done. unfold is_duplicate, s. cbn.
      rewrite lookup_insert_eq. rewrite (proj2 (Z.ltb_lt _ _)); [done|].
      unfold saturating_sub, DEDUP_INTERVAL_MS. lia. }
    destruct (devices self !! EncryptedBeacon.node_id b) as [d|]; eexists _, _;
      (split; [rewrite ?bool_decide_eq_true_2, ?bool_decide_eq_false_2 by done; reflexivity|]);
      (split; [cbn; by rewrite lookup_insert_eq|]); (split; [done|]); (split; [done|]);
      intros later; apply Hcopy.
  - unfold process_advertisement, read_beacon. cbn [heard encrypted_adv ParsedAdvertisement.beacon
      ParsedAdvertisement.encrypted_service_data].
    rewrite decrypt_member by done. rewrite Hmesh, bool_decide_eq_false_2 by congruence.
    by destruct (negb _).
Qed.

Definition never_farther (_ : ParsedAdvertisement.t) (_ : Z) : bool := false.
Definition demo_key : BeaconKey.t := BeaconKey.from_base (replicate 32 3).
Definition demo_member (node level : Z) : EncryptedBeacon.t := EncryptedBeacon.new node 0x0080 level 85.
Definition demo_wire (node level : Z) : list Z :=
  EncryptedBeacon.encrypt (demo_member node level) demo_key [1; 2; 3; 4] [5; 6; 7; 8].
Definition demo_scanner : t :=
  set_beacon_key (set_time_ms (new DiscoveryConfig.default_config) 1000) demo_key [1; 2; 3; 4].
Definition demo_events : list event := [
  Key demo_key [1; 2; 3; 4]; Time 1000; Heard (encrypted_adv [97] (-60) true (demo_wire 7 1));
  Time 1700; Heard (encrypted_adv [97] (-70) true (demo_wire 7 1));
  Heard (encrypted_adv [98] (-50) true (demo_wire 8 1));
  Heard (encrypted_adv [99] (-40) true (demo_wire 9 0)) ].

Lemma best_parent_chosen_witness :
  ∃ self, run never_farther (new DiscoveryConfig.default_config) demo_events = Ok self
  ∧ ∀ n d, devices self !! n = Some d → PeatBeacon.node_id (TrackedDevice.beacon d) = n.
Proof.
  destruct (best_parent_chosen never_farther DiscoveryConfig.default_config demo_events
    HierarchyLevel.Platform) as (self & Hr & Hd & _).
  - unfold demo_events. repeat (apply Forall_cons; split); try exact I; try apply Forall_nil; try exact I;
      (split; [by_decide|intros d Hs; injection Hs as <-; by_decide]).
  - exists self. split; [exact Hr|]. intros n d Hn. exact (proj1 (Hd n d Hn)).
Defined.
Example best_parent_is_the_strongest :
  (λ self, TrackedDevice.address <$> find_best_parent self HierarchyLevel.Platform)
    <$> (match run never_farther (new DiscoveryConfig.default_config) demo_events with
         | Ok s => Some s | _ => None end)
  = Some (Some [98]).
Proof. vm_compute. reflexivity. Qed.

Lemma member_recognised_witness :
  process_advertisement never_farther demo_scanner
    (encrypted_adv [97] (-60) true
       (EncryptedBeacon.encrypt (demo_member 7 1) demo_key [9; 9; 9; 9] [5; 6; 7; 8]))
  = Ok (demo_scanner, false).
Proof.
  apply (member_recognised never_farther demo_scanner [97] (-60) true (demo_member 7 1) demo_key
    [1; 2; 3; 4] [9; 9; 9; 9] [5; 6; 7; 8]); first [by_decide | done | vm_compute; done].
Defined.

(** The level and the capabilities that the filter asks for are not checked
    on encrypted beacons. *)
Example encrypted_beacon_bypasses_filter :
  let self := set_filter demo_scanner (ScanFilter.potential_parents HierarchyLevel.Company) in
  (λ r, r.2) <$> (match process_advertisement never_farther self
      (encrypted_adv [97] (-60) true (demo_wire 7 0)) with Ok r => Some r | _ => None end)
  = Some true.
Proof. vm_compute. reflexivity. Qed.

(** A copy of a member's beacon with its level raised makes the sender the
    preferred parent. *)
Example forged_level_wins :
  let forged := ztake 17 (demo_wire 7 0) ++ [0; 128; 3; 100] in
  (λ self, TrackedDevice.address <$> find_best_parent self HierarchyLevel.Platform)
    <$> (match run never_farther (new DiscoveryConfig.default_config)
        [Key demo_key [1; 2; 3; 4]; Time 1000; Heard (encrypted_adv [98] (-50) true (demo_wire 8 2));
         Heard (encrypted_adv [66] (-90) true forged)] with
         | Ok s => Some s | _ => None end)
  = Some (Some [66]).
Proof. vm_compute. reflexivity. Qed.

(** A device that changes its address keeps the first one. *)
Example new_address_is_not_recorded :
  let hear self now a := match process_advertisement never_farther (set_time_ms self now)
      (encrypted_adv a (-60) true (demo_wire 7 1)) with Ok r => r.1 | _ => self end in
  let self := hear (hear demo_scanner 1000 [97]) 5000 [98] in
  get_node_id_for_address self [98] = None
  ∧ TrackedDevice.address <$> get_device self 7 = Some [97].
Proof. vm_compute. done. Qed.
End ScannerProperties.
