(* ===== verification/AddressRotation.v ===== *)
(** * Address rotation of src/src/address_rotation.rs: four maps between the
    names, the nodes and the Bluetooth addresses of devices, by which a device
    is followed when it changes its address. *)

From Stdlib Require Import String.
From stdpp Require Import base numbers list gmap.
From S2P Require Import Prelude.
Open Scope Z_scope.
Open Scope peat_scope.

Module DevicePattern.
Inductive t := WearTak | WearOs | Peat | Unknown.
Definition rotates_addresses (self : t) : bool :=
  match self with WearTak | WearOs => true | _ => false end.
End DevicePattern.

Definition starts_with (name : list Z) (prefix : string) : bool :=
  bool_decide (is_Some (strip_prefix (str prefix) name)).
Definition detect_device_pattern (name : list Z) : DevicePattern.t :=
  if starts_with name "WT-WEAROS-"%string then DevicePattern.WearTak
  else if starts_with name "WEAROS-"%string then DevicePattern.WearOs
  else if starts_with name "PEAT_"%string || starts_with name "PEAT-"%string
  then DevicePattern.Peat
  else DevicePattern.Unknown.
Definition is_weartak_device (name : list Z) : bool :=
  starts_with name "WT-WEAROS-"%string || starts_with name "WEAROS-"%string.
Definition normalize_weartak_name (name : list Z) : list Z :=
  default name (strip_prefix (str "WT-"%string) name).

Module DeviceLookupResult.
Record t := mk {
  node_id : Z; current_address : list Z; address_changed : bool;
  previous_address : option (list Z)
}.
End DeviceLookupResult.

Module AddressRotationHandler.

Record t := mk {
  name_to_node : gmap (list Z) Z; node_to_name : gmap Z (list Z);
  node_to_address : gmap Z (list Z); address_to_node : gmap (list Z) Z
}.
Definition new : t := mk ∅ ∅ ∅ ∅.
Definition set_names (self : t) (names : gmap (list Z) Z) (nodes : gmap Z (list Z)) : t :=
  mk names nodes (node_to_address self) (address_to_node self).
Definition set_addresses (self : t) (nodes : gmap Z (list Z)) (addresses : gmap (list Z) Z) : t :=
  mk (name_to_node self) (node_to_name self) nodes addresses.
Definition is_empty (name : list Z) : bool := match name with [] => true | _ => false end.

Definition register_device (self : t) (name address : list Z) (n : Z) : t :=
  let self :=
    if is_empty name then self
    else set_names self (<[name := n]> (name_to_node self)) (<[n := name]> (node_to_name self)) in
  set_addresses self (<[n := address]> (node_to_address self))
    (<[address := n]> (address_to_node self)).
Definition lookup_by_name (self : t) (name : list Z) : option Z := name_to_node self !! name.
Definition lookup_by_address (self : t) (address : list Z) : option Z :=
  address_to_node self !! address.
Definition get_address (self : t) (n : Z) : option (list Z) := node_to_address self !! n.
Definition get_name (self : t) (n : Z) : option (list Z) := node_to_name self !! n.

Definition update_address_internal (self : t) (n : Z) (new_address : list Z)
    (old_address : option (list Z)) : t :=
  let addresses :=
    match old_address with
    | Some old => delete old (address_to_node self)
    | None => address_to_node self
    end in
  set_addresses self (<[n := new_address]> (node_to_address self)) (<[new_address := n]> addresses).

Definition on_device_discovered (self : t) (name address : list Z)
    : t * option DeviceLookupResult.t :=
  match (if is_empty name then None else name_to_node self !! name) with
  | Some n =>
      let current_address := node_to_address self !! n in
      let address_changed := negb (bool_decide (current_address = Some address)) in
      let previous_address := if address_changed then current_address else None in
      let self :=
        if address_changed then update_address_internal self n address current_address else self in
      (self, Some (DeviceLookupResult.mk n address address_changed previous_address))
  | None =>
      match address_to_node self !! address with
      | Some n => (self, Some (DeviceLookupResult.mk n address false None))
      | None => (self, None)
      end
  end.
Definition update_address (self : t) (name new_address : list Z) : t * bool :=
  match name_to_node self !! name with
  | Some n => (update_address_internal self n new_address (node_to_address self !! n), true)
  | None => (self, false)
  end.
Definition update_name (self : t) (n : Z) (new_name : list Z) : t :=
  let self :=
    match node_to_name self !! n with
    | Some old_name =>
        if negb (bool_decide (old_name = new_name))
        then set_names self (delete old_name (name_to_node self)) (node_to_name self)
        else self
    | None => self
    end in
  if is_empty new_name then self
  else set_names self (<[new_name := n]> (name_to_node self))
         (<[n := new_name]> (node_to_name self)).
Definition remove_device (self : t) (n : Z) : t :=
  let self :=
    match node_to_name self !! n with
    | Some name => set_names self (delete name (name_to_node self)) (delete n (node_to_name self))
    | None => self
    end in
  match node_to_address self !! n with
  | Some address =>
      set_addresses self (delete n (node_to_address self)) (delete address (address_to_node self))
  | None => self
  end.
Definition clear (self : t) : t := mk ∅ ∅ ∅ ∅.
Definition device_count (self : t) : Z := Z.of_nat (size (node_to_address self)).
(** Names, devices and addresses. *)
Definition stats (self : t) : Z * Z * Z :=
  (Z.of_nat (size (name_to_node self)), Z.of_nat (size (node_to_address self)),
   Z.of_nat (size (address_to_node self))).

(** The calls that change the handler. *)
Inductive op :=
| Register (name address : list Z) (n : Z)
| Discover (name address : list Z)
| UpdateAddress (name address : list Z)
| UpdateName (n : Z) (name : list Z)
| Remove (n : Z)
| Clear.
Definition step (self : t) (o : op) : t :=
  match o with
  | Register name address n => register_device self name address n
  | Discover name address => (on_device_discovered self name address).1
  | UpdateAddress name address => (update_address self name address).1
  | UpdateName n name => update_name self n name
  | Remove n => remove_device self n
  | Clear => clear self
  end.
Definition run (self : t) (ops : list op) : t := foldl step self ops.

End AddressRotationHandler.

Module AddressRotationProperties.
Import AddressRotationHandler.

(** Two maps that are inverse to each other. *)
Definition inverse {K} `{Countable K} (f : gmap K Z) (g : gmap Z K) : Prop :=
  ∀ k n, f !! k = Some n ↔ g !! n = Some k.
(** [x] is absent or bound to [v]. *)
Definition free {A} (x : option A) (v : A) : Prop := x = None ∨ x = Some v.
#[global] Instance free_dec {A} `{EqDecision A} (x : option A) (v : A) : Decision (free x v).
Proof. unfold free. apply _. Defined.

Lemma inverse_insert {K} `{Countable K} (f : gmap K Z) g k n :
  inverse f g → free (f !! k) n → free (g !! n) k → inverse (<[k := n]> f) (<[n := k]> g).
Proof.
  intros Hi Hf Hg k' n'. rewrite !lookup_insert_Some.
  pose proof (Hi k n') as H1. pose proof (Hi k' n) as H2. pose proof (Hi k' n') as H3.
  unfold free in *. destruct (decide (k = k')) as [<-|], (decide (n = n')) as [<-|]; naive_solver.
Qed.
Lemma inverse_delete {K} `{Countable K} (f : gmap K Z) g k n :
  inverse f g → g !! n = Some k → inverse (delete k f) (delete n g).
Proof.
  intros Hi Hg k' n'. rewrite !lookup_delete_Some. pose proof (Hi k' n'). pose proof (Hi k n').
  pose proof (Hi k' n). pose proof (Hi k n). naive_solver.
Qed.

(** Each name and each address belongs to the node it is recorded for. *)
Definition consistent (s : t) : Prop :=
  inverse (name_to_node s) (node_to_name s) ∧ inverse (address_to_node s) (node_to_address s).

(** A call is fair: it gives no name and no address of another device to a
    device, registers a device under another name or address only after its
    removal, and does not take a name away. *)
Definition fair (s : t) (o : op) : Prop :=
  match o with
  | Register name address n =>
      (name = [] ∨ (free (name_to_node s !! name) n ∧ free (node_to_name s !! n) name))
      ∧ free (address_to_node s !! address) n ∧ free (node_to_address s !! n) address
  | Discover name address =>
      name ≠ [] → match name_to_node s !! name with
                  | Some n => free (address_to_node s !! address) n
                  | None => True
                  end
  | UpdateAddress name address =>
      match name_to_node s !! name with
      | Some n => free (address_to_node s !! address) n
      | None => True
      end
  | UpdateName n name =>
      if is_empty name then node_to_name s !! n = None
      else free (name_to_node s !! name) n
  | Remove _ | Clear => True
  end.
Fixpoint fair_run (s : t) (ops : list op) : Prop :=
  match ops with
  | [] => True
  | o :: ops => fair s o ∧ fair_run (step s o) ops
  end.

Lemma is_empty_false name : is_empty name = false ↔ name ≠ [].
Proof. by destruct name. Qed.
Lemma free_deleted {K} `{Countable K} {A} (m : gmap K A) k k' v :
  free (m !! k) v → free (delete k' m !! k) v.
Proof. unfold free. rewrite lookup_delete. case_decide; auto. Qed.

Lemma move_consistent s n address :
  consistent s → free (address_to_node s !! address) n →
  consistent (update_address_internal s n address (node_to_address s !! n)).
Proof.
  intros [Hn Ha] Hfree. split; [done|]. unfold update_address_internal. simpl.
  destruct (node_to_address s !! n) as [old|] eqn:Hold.
  - rewrite <-(insert_delete_eq (node_to_address s)).
    apply inverse_insert; [by apply inverse_delete | by apply free_deleted |].
    left. by rewrite lookup_delete_eq.
  - apply inverse_insert; [done | done | by left].
Qed.
Lemma step_consistent s o : consistent s → fair s o → consistent (step s o).
Proof.
  intros Hs Hf. destruct o as [name address n|name address|name address|n name|n|]; simpl in *.
  - destruct Hs as [Hn Ha], Hf as (Hname & Hf1 & Hf2). unfold register_device.
    destruct (is_empty name) eqn:He; split; simpl; try done; try by apply inverse_insert.
    apply is_empty_false in He. destruct Hname as [?|[? ?]]; [done|]. by apply inverse_insert.
  - unfold on_device_discovered. destruct (is_empty name) eqn:He.
    { by destruct (address_to_node s !! address). }
    apply is_empty_false in He. specialize (Hf He).
    destruct (name_to_node s !! name) as [n|].
    + cbn. case_bool_decide; [done|]. by apply move_consistent.
    + by destruct (address_to_node s !! address).
  - unfold update_address. destruct (name_to_node s !! name) as [n|]; [|done].
    by apply move_consistent.
  - destruct Hs as [Hn Ha]. unfold update_name. destruct (is_empty name) eqn:He.
    { rewrite Hf. by split. }
    split; [|by destruct (node_to_name s !! n); [case_bool_decide|]]. simpl.
    destruct (node_to_name s !! n) as [old|] eqn:Hold; [|apply inverse_insert; [done|done|by left]].
    case_bool_decide as Heq; cbn [negb set_names name_to_node node_to_name].
    + subst old. apply inverse_insert; [done | done | by right].
    + rewrite <-(insert_delete_eq (node_to_name s)).
      apply inverse_insert; [by apply inverse_delete | by apply free_deleted |].
      left. by rewrite lookup_delete_eq.
  - destruct Hs as [Hn Ha]. unfold remove_device.
    destruct (node_to_name s !! n) eqn:Hname; simpl;
      destruct (node_to_address s !! n) eqn:Haddr; split; simpl; try done;
      by apply inverse_delete.
  - by split.
Qed.
Lemma run_consistent s ops : consistent s → fair_run s ops → consistent (run s ops).
Proof.
  revert s. induction ops as [|o ops IH]; intros s Hs Hf; [done|]. destruct Hf as [Ho Hf].
  cbn. apply IH; [by apply step_consistent | done].
Qed.
Lemma new_consistent : consistent new.
Proof. by split. Qed.

(** Discoveries, with what each is answered. *)
Fixpoint discoveries (s : t) (seen : list (list Z * list Z))
    : t * list (option DeviceLookupResult.t) :=
  match seen with
  | [] => (s, [])
  | (name, address) :: seen =>
      let '(s, r) := on_device_discovered s name address in
      let '(s, rs) := discoveries s seen in (s, r :: rs)
  end.
(** The answers that name the device, with the address it had before. *)
Fixpoint followed (name : list Z) (n : Z) (current : option (list Z))
    (seen : list (list Z * list Z)) (rs : list (option DeviceLookupResult.t))
    : option (option (list Z)) :=
  match seen, rs with
  | [], [] => Some current
  | (name', address) :: seen, r :: rs =>
      if bool_decide (name' = name) then
        let changed := negb (bool_decide (current = Some address)) in
        match r with
        | Some (DeviceLookupResult.mk n' a c p) =>
            if bool_decide (n' = n ∧ a = address ∧ c = changed
                            ∧ p = (if changed then current else None))
            then followed name n (Some address) seen rs else None
        | None => None
        end
      else followed name n current seen rs
  | _, _ => None
  end.
Definition last_address (name : list Z) (current : option (list Z))
    (seen : list (list Z * list Z)) : option (list Z) :=
  foldl (λ current p, if bool_decide (p.1 = name) then Some p.2 else current) current seen.

Lemma discovery_names s name address :
  name_to_node (on_device_discovered s name address).1 = name_to_node s.
Proof.
  unfold on_device_discovered. destruct (if is_empty name then _ else _); cbn.
  - by case_bool_decide.
  - by destruct (address_to_node s !! address).
Qed.
Lemma discovery_others s name address n :
  name_to_node s !! name ≠ Some n →
  node_to_address (on_device_discovered s name address).1 !! n = node_to_address s !! n.
Proof.
  intros Hne. unfold on_device_discovered.
  destruct (is_empty name); [by destruct (address_to_node s !! address)|].
  destruct (name_to_node s !! name) as [m|]; [|by destruct (address_to_node s !! address)].
  cbn. case_bool_decide; [done|]. cbn. rewrite lookup_insert_ne; [done|]. by intros ->.
Qed.
Lemma discovery_own s name address n :
  name ≠ [] → name_to_node s !! name = Some n →
  let current := node_to_address s !! n in
  let changed := negb (bool_decide (current = Some address)) in
  (on_device_discovered s name address).2
    = Some (DeviceLookupResult.mk n address changed (if changed then current else None))
  ∧ node_to_address (on_device_discovered s name address).1 !! n = Some address.
Proof.
  intros He Hn. unfold on_device_discovered. apply is_empty_false in He. rewrite He, Hn. cbn.
  split; [done|]. case_bool_decide; [done|]. cbn. by rewrite lookup_insert_eq.
Qed.

Lemma discoveries_follow name n seen :
  name ≠ [] → ∀ s, consistent s → name_to_node s !! name = Some n →
  fair_run s (map (λ p, Discover p.1 p.2) seen) →
  let '(s', rs) := discoveries s seen in
  let now := last_address name (node_to_address s !! n) seen in
  followed name n (node_to_address s !! n) seen rs = Some now
  ∧ consistent s' ∧ name_to_node s' !! name = Some n ∧ node_to_address s' !! n = now.
Proof.
  intros Hne. induction seen as [|[name' address] seen IH]; intros s Hs Hn Hf; [done|].
  destruct Hf as [Hf1 Hf2]. cbn [map] in Hf2. pose proof (step_consistent _ _ Hs Hf1) as Hs'.
  pose proof (discovery_names s name' address) as Hnames.
  pose proof (discovery_own s name address n Hne Hn) as Hown. cbv zeta in Hown.
  pose proof (discovery_others s name' address n) as Hoth.
  cbn [discoveries step] in *. cbn [fst snd] in *.
  destruct (decide (name' = name)) as [->|Hname].
  - destruct (on_device_discovered s name address) as [s1 r]. cbn [fst snd] in *.
    destruct Hown as [-> Hcur].
    specialize (IH s1 Hs'). rewrite Hnames in IH. specialize (IH Hn Hf2).
    destruct (discoveries s1 seen) as [s' rs]. rewrite Hcur in IH. cbv zeta in *.
    cbn [followed last_address foldl fst snd]. by rewrite !bool_decide_eq_true_2.
  - destruct (on_device_discovered s name' address) as [s1 r]. cbn [fst snd] in *.
    specialize (IH s1 Hs'). rewrite Hnames in IH. specialize (IH Hn Hf2).
    rewrite Hoth in IH.
    2: { intros Hn'. apply Hs in Hn, Hn'. congruence. }
    destruct (discoveries s1 seen) as [s' rs]. cbv zeta in *.
    cbn [followed last_address foldl fst snd]. by rewrite !bool_decide_eq_false_2.
Qed.

(** C30: A device is followed across the rotation of its address. Once it is
    registered under a name, every discovery under that name, at whatever
    address, is answered with its node, and says truly whether the address has
    changed and what it was before; after any number of discoveries, of this
    device and of others, the name still leads to the node, the node to the
    address it was last seen at, and this address back to the node. It holds
    after any calls before, as long as no call gives a device a name or an
    address that is another's. *)
Theorem rotation_tracked ops seen name n :
  fair_run new ops → name ≠ [] → lookup_by_name (run new ops) name = Some n →
  fair_run (run new ops) (map (λ p, Discover p.1 p.2) seen) →
  let s := run new ops in
  let '(s', rs) := discoveries s seen in
  let now := last_address name (get_address s n) seen in
  followed name n (get_address s n) seen rs = Some now
  ∧ lookup_by_name s' name = Some n ∧ get_name s' n = Some name ∧ get_address s' n = now
  ∧ ∀ address, lookup_by_address s' address = Some n ↔ now = Some address.
Proof.
  intros Hops Hne Hn Hf. pose proof (run_consistent _ _ new_consistent Hops) as Hs.
  pose proof (discoveries_follow name n seen Hne _ Hs Hn Hf) as H. cbv zeta.
  unfold get_address. destruct (discoveries (run new ops) seen) as [s' rs]. cbv zeta in H.
  destruct H as (Hfol & [Hnames Haddr] & Hn' & Hcur). split; [exact Hfol|]. split; [exact Hn'|].
  split; [by apply Hnames|]. split; [exact Hcur|]. intros address. rewrite <-Hcur. apply Haddr.
Qed.

Lemma rotation_tracked_witness :
  let watch := str "WEAROS-ABCD"%string in
  let ops := [Register watch [1] 7; Register (str "PEAT-1"%string) [9] 8] in
  let '(s', rs) := discoveries (run new ops)
    [(watch, [2]); (str "PEAT-1"%string, [1]); (watch, [2]); ([], [1])] in
  map (λ r, (DeviceLookupResult.node_id <$> r, DeviceLookupResult.address_changed <$> r)) rs
    = [(Some 7, Some true); (Some 8, Some true); (Some 7, Some false); (Some 8, Some false)]
  ∧ get_address s' 7 = Some [2].
Proof.
  cbv zeta. set (seen := [(_, [2]); _; _; _]). set (ops := [_; _]).
  pose proof (rotation_tracked ops seen (str "WEAROS-ABCD"%string) 7) as H.
  assert (Hrs : map (λ r, (DeviceLookupResult.node_id <$> r,
      DeviceLookupResult.address_changed <$> r)) (discoveries (run new ops) seen).2
    = [(Some 7, Some true); (Some 8, Some true); (Some 7, Some false); (Some 8, Some false)])
    by (vm_compute; reflexivity).
  cbv zeta in H. destruct (discoveries (run new ops) seen) as [s' rs] eqn:Hd.
  split; [exact Hrs|].
  destruct H as (_ & _ & _ & -> & _).
  - cbn [fair_run ops fair]. repeat split; try apply (bool_decide_unpack _); vm_compute; exact I.
  - discriminate.
  - vm_compute. reflexivity.
  - cbn [fair_run map seen fair]. repeat split; intros _; apply (bool_decide_unpack _); vm_compute; exact I.
  - vm_compute. reflexivity.
Defined.

(** A name taken away stays with the node: the old name is found no more, and
    the node still has it. *)
Example empty_name_leaves_a_trace :
  let s := run new [Register (str "A"%string) [1] 7; UpdateName 7 []] in
  lookup_by_name s (str "A"%string) = None ∧ get_name s 7 = Some (str "A"%string).
Proof. split; vm_compute; reflexivity. Qed.
(** A device registered again under another name or address keeps the old. *)
Example old_registration_stays :
  let s := run new [Register (str "A"%string) [1] 7; Register (str "B"%string) [2] 7; Remove 7] in
  lookup_by_name s (str "A"%string) = Some 7 ∧ lookup_by_address s [1] = Some 7
  ∧ get_address s 7 = None.
Proof. repeat split; vm_compute; reflexivity. Qed.
(** A device that leaves an address takes it from the one that came to it. *)
Example reused_address_is_lost :
  let s := run new [Register (str "A"%string) [1] 7; Register (str "B"%string) [2] 8;
                    Discover (str "B"%string) [1]; Discover (str "A"%string) [3]] in
  get_address s 8 = Some [1] ∧ lookup_by_address s [1] = None.
Proof. split; vm_compute; reflexivity. Qed.

Lemma detect_rotating name :
  DevicePattern.rotates_addresses (detect_device_pattern name) = is_weartak_device name.
Proof.
  unfold detect_device_pattern, is_weartak_device.
  destruct (starts_with name _); [done|]. destruct (starts_with name _); [done|].
  by destruct (_ || _).
Qed.

End AddressRotationProperties.
