(* ===== verification/Identity.v ===== *)
(** * Identities and membership of src/src/security: device identities and
    attestations (identity.rs), signed payloads (signed_payload.rs), the mesh
    genesis (genesis.rs) and membership tokens (membership_token.rs).

    Keys, signatures and hashes are the methods of [Crypto]; a secret key is
    its 32 bytes.  The system time is an argument. *)

From Stdlib Require Import String.
From stdpp Require Import base numbers list gmap.
From S2P Require Import Prelude Crypto.
Open Scope Z_scope.
Open Scope peat_scope.

(** [u32::from_le_bytes] of the first four bytes of the hash. *)
Definition node_id_from_public_key `{Crypto} (public_key : list Z) : Z :=
  from_le (ztake 4 (blake3 public_key)).
Definition verify_signature `{Crypto} (public_key message signature : list Z) : bool :=
  ed25519_key public_key && ed25519_verify public_key message signature.

Module IdentityAttestation.

Record t := mk { node_id : Z; public_key : list Z; timestamp_ms : Z; signature : list Z }.
#[global] Instance attestation_eq_dec : EqDecision t.
Proof. solve_decision. Defined.

Definition message (node_id : Z) (public_key : list Z) (timestamp_ms : Z) : list Z :=
  le 4 node_id ++ public_key ++ le 8 timestamp_ms.

Definition verify `{Crypto} (self : t) : bool :=
  let expected_id := from_le (ztake 4 (blake3 (public_key self))) in
  if negb (node_id self =? expected_id) then false
  else if negb (ed25519_key (public_key self)) then false
  else ed25519_verify (public_key self)
         (message (node_id self) (public_key self) (timestamp_ms self)) (signature self).

Definition encode (self : t) : list Z :=
  le 4 (node_id self) ++ public_key self ++ le 8 (timestamp_ms self) ++ signature self.
Definition decode (data : list Z) : outcome t :=
  reject_if negb (zlen data =? 108) ;;
  let! node_id := u32_at data 0 in
  let! public_key := slice data 4 36 in
  let! timestamp_ms := u64_at data 36 in
  let! signature := slice data 44 108 in
  Ok (mk node_id public_key timestamp_ms signature).

Definition wf (self : t) : Prop :=
  in_u 32 (node_id self) ∧ block 32 (public_key self) ∧ in_u 64 (timestamp_ms self)
  ∧ block 64 (signature self).

End IdentityAttestation.

Module DeviceIdentity.

Record t := mk { signing_key : list Z }.

Section ops.
Context `{Crypto}.
Definition from_private_key (private_key : list Z) : t := mk private_key.
Definition generate (random : list Z) : t := mk random.
Definition private_key_bytes (self : t) : list Z := signing_key self.
Definition public_key (self : t) : list Z := ed25519_public (signing_key self).
Definition node_id (self : t) : Z := from_le (ztake 4 (blake3 (public_key self))).
Definition sign (self : t) (message : list Z) : list Z := ed25519_sign (signing_key self) message.
Definition verify (self : t) (message signature : list Z) : bool :=
  ed25519_verify (public_key self) message signature.
Definition create_attestation (self : t) (timestamp_ms : Z) : IdentityAttestation.t :=
  let signature := sign self
    (IdentityAttestation.message (node_id self) (public_key self) timestamp_ms) in
  IdentityAttestation.mk (node_id self) (public_key self) timestamp_ms signature.
End ops.

End DeviceIdentity.

Module DecodedPayload.
Record t := mk { marker : Z; payload : list Z; signature : list Z }.
End DecodedPayload.

Module SignedPayload.

Definition SIGNATURE_SIZE : Z := 64.
Definition MIN_WIRE_SIZE : Z := 1 + SIGNATURE_SIZE.

Definition encode_with_signature (marker : Z) (payload signature : list Z) : list Z :=
  [marker] ++ payload ++ signature.
Definition encode `{Crypto} (marker : Z) (payload : list Z) (identity : DeviceIdentity.t) : list Z :=
  let to_sign := [marker] ++ payload in
  let signature := DeviceIdentity.sign identity to_sign in
  [marker] ++ payload ++ signature.
Definition decode (wire : list Z) : outcome DecodedPayload.t :=
  reject_if zlen wire <? MIN_WIRE_SIZE ;;
  let! marker := u8_at wire 0 in
  let! payload_end := sub_u (zlen wire) SIGNATURE_SIZE in
  let! payload := slice wire 1 payload_end in
  let! signature := slice_from wire payload_end in
  Ok (DecodedPayload.mk marker payload signature).
Definition verify `{Crypto} (wire public_key : list Z) : outcome bool :=
  let! decoded := opt (decode wire) in
  match decoded with
  | None => Ok false
  | Some decoded =>
      let! signed_len := sub_u (zlen wire) SIGNATURE_SIZE in
      let! to_verify := slice wire 0 signed_len in
      Ok (verify_signature public_key to_verify (DecodedPayload.signature decoded))
  end.
Definition decode_verified `{Crypto} (wire public_key : list Z) : outcome DecodedPayload.t :=
  let! verified := verify wire public_key in
  reject_if negb verified ;;
  decode wire.
Definition payload_size (wire_size : Z) : Z := saturating_sub wire_size MIN_WIRE_SIZE.
Definition wire_size (payload_size : Z) : Z := 1 + payload_size + SIGNATURE_SIZE.
Definition peek_marker (wire : list Z) : option Z := head wire.
Definition extract_signature (wire : list Z) : outcome (list Z) :=
  reject_if zlen wire <? MIN_WIRE_SIZE ;;
  let! sig_start := sub_u (zlen wire) SIGNATURE_SIZE in
  slice_from wire sig_start.

End SignedPayload.

Module MembershipPolicy.
Inductive t := Open | Controlled | Strict.
#[global] Instance policy_eq_dec : EqDecision t.
Proof. solve_decision. Defined.
Definition to_u8 (self : t) : Z := match self with Open => 0 | Controlled => 1 | Strict => 2 end.
End MembershipPolicy.

(** [{:02X}] of four bytes. *)
Definition hex_bytes (b : list Z) : list Z :=
  flat_map (λ x, [hex_digit (x / 16); hex_digit (x mod 16)]) b.

Module MeshGenesis.

Record t := mk {
  mesh_name : list Z; mesh_seed : list Z; creator_identity : DeviceIdentity.t;
  created_at_ms : Z; policy : MembershipPolicy.t
}.
Definition ENCRYPTION_CONTEXT : list Z := str "PEAT-mesh-encryption-v1"%string.
Definition BEACON_CONTEXT : list Z := str "PEAT-beacon-key-v1"%string.

Definition with_seed (mesh_name seed : list Z) (creator : DeviceIdentity.t)
    (policy : MembershipPolicy.t) (now_ms : Z) : t :=
  mk mesh_name seed creator now_ms policy.
(** [random]: the 32 bytes drawn for the seed. *)
Definition create (mesh_name : list Z) (creator : DeviceIdentity.t) (policy : MembershipPolicy.t)
    (random : list Z) (now_ms : Z) : t :=
  mk mesh_name random creator now_ms policy.

Section ops.
Context `{Crypto}.
Definition mesh_id (self : t) : list Z :=
  hex_bytes (ztake 4 (blake3_keyed (mesh_seed self) (mesh_name self))).
Definition encryption_secret (self : t) : list Z := blake3_derive ENCRYPTION_CONTEXT (mesh_seed self).
Definition beacon_key_base (self : t) : list Z := blake3_derive BEACON_CONTEXT (mesh_seed self).
Definition creator_public_key (self : t) : list Z := DeviceIdentity.public_key (creator_identity self).
Definition is_creator (self : t) (identity : DeviceIdentity.t) : bool :=
  bool_decide (DeviceIdentity.public_key (creator_identity self)
               = DeviceIdentity.public_key identity).

Definition encode (self : t) : list Z :=
  le 2 (wrap 16 (zlen (mesh_name self))) ++ mesh_name self ++ mesh_seed self
  ++ DeviceIdentity.public_key (creator_identity self)
  ++ DeviceIdentity.private_key_bytes (creator_identity self)
  ++ le 8 (created_at_ms self) ++ [MembershipPolicy.to_u8 (policy self)].
End ops.

Definition decode (data : list Z) : outcome t :=
  reject_if zlen data <? 107 ;;
  let! name_len := u16_at data 0 in
  reject_if zlen data <? 107 + name_len ;;
  let! mesh_name := slice data 2 (2 + name_len) in
  reject_if negb (utf8_valid mesh_name) ;;
  let offset := 2 + name_len in
  let! mesh_seed := slice data offset (offset + 32) in
  let! _public_key := slice data (offset + 32) (offset + 64) in
  let! private_key := slice data (offset + 64) (offset + 96) in
  let creator_identity := DeviceIdentity.from_private_key private_key in
  let! created_at_ms := u64_at data (offset + 96) in
  let! tag := u8_at data (offset + 104) in
  let! policy :=
    if tag =? 0 then Ok MembershipPolicy.Open
    else if tag =? 1 then Ok MembershipPolicy.Controlled
    else if tag =? 2 then Ok MembershipPolicy.Strict
    else Fail in
  Ok (mk mesh_name mesh_seed creator_identity created_at_ms policy).

Definition wf (self : t) : Prop :=
  bytes_ok (mesh_name self) ∧ zlen (mesh_name self) < 2 ^ 16
  ∧ utf8_valid (mesh_name self) = true ∧ block 32 (mesh_seed self)
  ∧ block 32 (DeviceIdentity.signing_key (creator_identity self)) ∧ in_u 64 (created_at_ms self).

End MeshGenesis.

Module MeshCredentials.
Record t := mk {
  mesh_id : list Z; mesh_name : list Z; encryption_secret : list Z; creator_public_key : list Z;
  policy : MembershipPolicy.t
}.
Definition from_genesis `{Crypto} (genesis : MeshGenesis.t) : t :=
  mk (MeshGenesis.mesh_id genesis) (MeshGenesis.mesh_name genesis)
    (MeshGenesis.encryption_secret genesis) (MeshGenesis.creator_public_key genesis)
    (MeshGenesis.policy genesis).
End MeshCredentials.

Module MembershipToken.

Definition MAX_CALLSIGN_LEN : Z := 12.
Definition MESH_ID_SIZE : Z := 4.
Definition TOKEN_WIRE_SIZE : Z := 32 + 4 + 12 + 8 + 8 + 64.

Record t := mk {
  public_key : list Z; mesh_id : list Z; callsign : list Z; issued_at_ms : Z;
  expires_at_ms : Z; authority_signature : list Z
}.

Definition signable_bytes (self : t) : list Z :=
  public_key self ++ mesh_id self ++ callsign self ++ le 8 (issued_at_ms self)
  ++ le 8 (expires_at_ms self).
Definition mesh_id_bytes (hex : list Z) : list Z :=
  if zlen hex =? 8 then
    map (λ chunk, default 0 (from_hex 8 chunk)) (pieces 2 hex)
  else replicate 4 0.

Section ops.
Context `{Crypto}.

(** The assertion on the length of the callsign panics. *)
Definition issue_at (authority : DeviceIdentity.t) (mesh_id member_public_key callsign : list Z)
    (issued_at_ms expires_at_ms : Z) : outcome t :=
  if MAX_CALLSIGN_LEN <? zlen callsign then Panic
  else
    let callsign_bytes := callsign ++ zdrop (zlen callsign) (replicate 12 0) in
    let token := mk member_public_key mesh_id callsign_bytes issued_at_ms expires_at_ms
                   (replicate 64 0) in
    let signable := signable_bytes token in
    Ok (mk member_public_key mesh_id callsign_bytes issued_at_ms expires_at_ms
          (DeviceIdentity.sign authority signable)).
Definition issue (authority : DeviceIdentity.t) (genesis : MeshGenesis.t)
    (member_public_key callsign : list Z) (validity_ms now_ms : Z) : outcome t :=
  let mesh_id := mesh_id_bytes (MeshGenesis.mesh_id genesis) in
  let expires_at_ms := if validity_ms =? 0 then 0 else saturating_add 64 now_ms validity_ms in
  issue_at authority mesh_id member_public_key callsign now_ms expires_at_ms.

Definition verify (self : t) (authority_public_key : list Z) : bool :=
  verify_signature authority_public_key (signable_bytes self) (authority_signature self).
Definition is_expired (self : t) (now_ms : Z) : bool :=
  negb (expires_at_ms self =? 0) && (expires_at_ms self <? now_ms).
Definition is_valid (self : t) (authority_public_key : list Z) (now_ms : Z) : bool :=
  verify self authority_public_key && negb (is_expired self now_ms).
End ops.

Definition callsign_len (cs : list Z) : Z :=
  match list_find (λ b, b = 0) cs with Some (i, _) => Z.of_nat i | None => MAX_CALLSIGN_LEN end.
Definition callsign_str (self : t) : list Z :=
  let s := ztake (callsign_len (callsign self)) (callsign self) in
  if utf8_valid s then s else [].
Definition mesh_id_hex (self : t) : list Z := hex_bytes (mesh_id self).

Definition encode (self : t) : list Z :=
  public_key self ++ mesh_id self ++ callsign self ++ le 8 (issued_at_ms self)
  ++ le 8 (expires_at_ms self) ++ authority_signature self.
Definition decode (data : list Z) : outcome t :=
  reject_if negb (zlen data =? TOKEN_WIRE_SIZE) ;;
  let! public_key := slice data 0 32 in
  let! mesh_id := slice data 32 36 in
  let! callsign := slice data 36 48 in
  let! issued_at_ms := u64_at data 48 in
  let! expires_at_ms := u64_at data 56 in
  let! authority_signature := slice data 64 128 in
  Ok (mk public_key mesh_id callsign issued_at_ms expires_at_ms authority_signature).

Definition wf (self : t) : Prop :=
  block 32 (public_key self) ∧ block 4 (mesh_id self) ∧ block 12 (callsign self)
  ∧ in_u 64 (issued_at_ms self) ∧ in_u 64 (expires_at_ms self)
  ∧ block 64 (authority_signature self).

End MembershipToken.

(** * Theorems *)

Module IdentityProofs.

(** ** Wire formats *)

#[global] Instance attestation_codec :
  WireCodec IdentityAttestation.encode IdentityAttestation.decode IdentityAttestation.wf.
Proof.
  unfold IdentityAttestation.encode, IdentityAttestation.decode. split.
  - intros a (_ & [Hk _] & _ & [Hs _]). auto 6 with bytes.
  - intros [n k t s] (Hn & [_ Hk] & Ht & [_ Hs]). cbn in *.
    rewrite (proj2 (Z.eqb_eq _ _)) by len. cbn [negb]. by rd.
  - intros data Hb. wp_steps. split_and!; cbn; first [done | lia | split; [done|lia]].
Qed.

#[global] Instance token_codec :
  WireCodec MembershipToken.encode MembershipToken.decode MembershipToken.wf.
Proof.
  unfold MembershipToken.encode, MembershipToken.decode, MembershipToken.TOKEN_WIRE_SIZE. split.
  - intros a ([? _] & [? _] & [? _] & _ & _ & [? _]). auto 8 with bytes.
  - intros [k m c i e s] ([_ Hk] & [_ Hm] & [_ Hc] & Hi & He & [_ Hs]). cbn in *.
    rewrite (proj2 (Z.eqb_eq _ _)) by len. cbn [negb]. by rd.
  - intros data Hb. wp_steps. split_and!; cbn; first [done | lia | split; [done|lia]].
Qed.

Lemma policy_byte p : byte_ok (MembershipPolicy.to_u8 p).
Proof. destruct p; cbn; lia. Qed.

#[global] Instance genesis_codec `{CryptoLaws} :
  WireCodec MeshGenesis.encode MeshGenesis.decode MeshGenesis.wf.
Proof.
  unfold MeshGenesis.encode, MeshGenesis.decode. split.
  - intros [n s [k] t p] (Hn & _ & _ & [Hs _] & Hk & _).
    cbn in *. destruct (ed25519_public_key k Hk) as [[? _] _]. destruct Hk as [? _].
    pose proof (policy_byte p). auto 12 with bytes.
  - intros [n s [k] t p] (_ & Hn & Hu & [_ Hs] & Hk & Ht). cbn in *.
    destruct (ed25519_public_key k Hk) as [[_ Hpk] _]. destruct Hk as [_ Hk].
    unfold DeviceIdentity.public_key, DeviceIdentity.private_key_bytes. cbn.
    rewrite wrap_small by lia. rd. rewrite Hu. cbn [negb]. rd.
    pose proof (policy_byte p). rewrite u8_at_here by done. by destruct p.
  - intros data Hb. wp_steps; bool_hyps; split_and!; cbn;
      first [done | lia | split; [done|lia]].
Qed.

(** ** Signatures *)

Section crypto.
Context `{CryptoLaws}.

Lemma node_id_bound pk : in_u 32 (node_id_from_public_key pk).
Proof.
  destruct (blake3_block pk) as [Hb Hl]. unfold node_id_from_public_key.
  apply (from_le_bound _ 4); [by apply bytes_ztake|len].
Qed.

Lemma signature_verifies sk m :
  block 32 sk → verify_signature (ed25519_public sk) m (ed25519_sign sk m) = true.
Proof.
  intros Hsk. unfold verify_signature.
  by rewrite (proj2 (ed25519_public_key sk Hsk)), (ed25519_correct sk m Hsk).
Qed.

(** An attestation verifies exactly when the identifier is derived from the
    key and the key signed it. *)
Lemma attestation_verify_iff a :
  IdentityAttestation.verify a = true ↔
  IdentityAttestation.node_id a = node_id_from_public_key (IdentityAttestation.public_key a)
  ∧ verify_signature (IdentityAttestation.public_key a)
      (IdentityAttestation.message (IdentityAttestation.node_id a)
         (IdentityAttestation.public_key a) (IdentityAttestation.timestamp_ms a))
      (IdentityAttestation.signature a) = true.
Proof.
  unfold IdentityAttestation.verify, verify_signature, node_id_from_public_key.
  rewrite andb_true_iff. cbv zeta. destruct (Z.eqb_spec (IdentityAttestation.node_id a)
    (from_le (ztake 4 (blake3 (IdentityAttestation.public_key a))))) as [He|]; cbn [negb];
    [|naive_solver].
  destruct (ed25519_key _); cbn [negb]; naive_solver.
Qed.

Lemma created_attestation d now :
  block 32 (DeviceIdentity.signing_key d) → in_u 64 now →
  IdentityAttestation.verify (DeviceIdentity.create_attestation d now) = true
  ∧ IdentityAttestation.wf (DeviceIdentity.create_attestation d now).
Proof.
  intros Hd Hn. split.
  - apply attestation_verify_iff. split; [done|]. by apply signature_verifies.
  - split_and!; cbn; try apply node_id_bound; try (by apply ed25519_public_key);
      try apply ed25519_sign_block; lia.
Qed.

(** ** Signed payloads *)

Lemma signed_payload_decode marker payload signature :
  byte_ok marker → zlen signature = SignedPayload.SIGNATURE_SIZE →
  SignedPayload.decode (SignedPayload.encode_with_signature marker payload signature)
  = Ok (DecodedPayload.mk marker payload signature).
Proof.
  unfold SignedPayload.decode, SignedPayload.encode_with_signature, SignedPayload.MIN_WIRE_SIZE,
    SignedPayload.SIGNATURE_SIZE. intros Hm Hs. cbn [app].
  rewrite (proj2 (Z.ltb_ge _ _)) by len. rewrite u8_at_here by done. cbn [obind].
  rewrite sub_u_ok by len. cbn [obind].
  replace (zlen (marker :: payload ++ signature) - 64) with (1 + zlen payload) by len.
  rewrite slice_cons by lia. replace (1 + zlen payload - 1) with (zlen payload) by lia.
  change (1 - 1) with 0. rewrite slice_here by done. cbn [obind].
  rewrite slice_from_cons by lia. rewrite slice_from_app by lia. done.
Qed.

(** What [verify] checks on a wire of one marker, a payload and a signature. *)
Lemma signed_payload_verify marker payload signature public_key :
  byte_ok marker → zlen signature = SignedPayload.SIGNATURE_SIZE →
  SignedPayload.verify (SignedPayload.encode_with_signature marker payload signature) public_key
  = Ok (verify_signature public_key (marker :: payload) signature).
Proof.
  intros Hm Hs. unfold SignedPayload.verify. rewrite signed_payload_decode by done. cbn [opt obind].
  unfold SignedPayload.SIGNATURE_SIZE, SignedPayload.encode_with_signature in *.
  rewrite sub_u_ok by len. cbn [obind].
  rewrite app_assoc, slice_here; [done|len].
Qed.

Lemma signed_payload_decode_verified marker payload signature public_key :
  byte_ok marker → zlen signature = SignedPayload.SIGNATURE_SIZE →
  SignedPayload.decode_verified
    (SignedPayload.encode_with_signature marker payload signature) public_key
  = if verify_signature public_key (marker :: payload) signature
    then Ok (DecodedPayload.mk marker payload signature) else Fail.
Proof.
  intros Hm Hs. unfold SignedPayload.decode_verified. rewrite signed_payload_verify by done.
  cbn [obind]. destruct (verify_signature _ _ _); [|done]. cbn [negb].
  by rewrite signed_payload_decode.
Qed.
Lemma signed_payload_short wire public_key :
  zlen wire < SignedPayload.MIN_WIRE_SIZE → SignedPayload.decode_verified wire public_key = Fail.
Proof.
  intros Hs. unfold SignedPayload.decode_verified, SignedPayload.verify, SignedPayload.decode.
  by rewrite (proj2 (Z.ltb_lt _ _)).
Qed.
Lemma signed_payload_split wire :
  SignedPayload.MIN_WIRE_SIZE ≤ zlen wire → bytes_ok wire →
  ∃ marker payload signature, byte_ok marker ∧ bytes_ok payload ∧ block 64 signature
    ∧ wire = SignedPayload.encode_with_signature marker payload signature.
Proof.
  unfold SignedPayload.MIN_WIRE_SIZE, SignedPayload.SIGNATURE_SIZE.
  destruct wire as [|m rest]; [len|]. intros Hl Hb. inversion_clear Hb.
  exists m, (take (length rest - 64) rest), (drop (length rest - 64) rest). split_and!; try lia.
  - by apply Forall_take.
  - split; [by apply Forall_drop|]. rewrite length_drop. len.
  - unfold SignedPayload.encode_with_signature. cbn. by rewrite take_drop.
Qed.

End crypto.

(** ** Tokens *)

Lemma from_hex_byte b :
  byte_ok b → from_hex 8 [hex_digit (b / 16); hex_digit (b mod 16)] = Some b.
Proof.
  intros Hb. change (2 ^ 8) with 256 in Hb.
  assert (0 ≤ b / 16 < 16) by (split; [apply Z.div_pos|apply Z.div_lt_upper_bound]; lia).
  pose proof (Z.mod_pos_bound b 16 ltac:(lia)). rewrite from_hex_digits by done.
  by rewrite (hex_digits_cons _ _ _ _ (b / 16)), (hex_digits_cons _ _ _ _ b), hex_digits_nil
    by (change (2 ^ 8) with 256; pose proof (Z.div_mod b 16); lia).
Qed.
(** The token's four bytes are the ones the genesis prints. *)
Lemma mesh_id_bytes_hex b : block 4 b → MembershipToken.mesh_id_bytes (hex_bytes b) = b.
Proof.
  intros [Hb Hl]. destruct b as [|b0 [|b1 [|b2 [|b3 [|]]]]]; try (cbn in Hl; lia).
  decompose_Forall_hyps.
  change (map (λ chunk, default 0 (from_hex 8 chunk))
    (map (λ b, [hex_digit (b / 16); hex_digit (b mod 16)]) [b0; b1; b2; b3]) = [b0; b1; b2; b3]).
  cbn [map]. by rewrite !from_hex_byte by done.
Qed.

(** A callsign without NUL, padded to its field. *)
Lemma token_callsign_len cs n :
  0 ∉ cs → zlen cs + Z.of_nat n = MembershipToken.MAX_CALLSIGN_LEN →
  MembershipToken.callsign_len (cs ++ replicate n 0) = zlen cs.
Proof.
  intros Hz Hn. unfold MembershipToken.callsign_len.
  rewrite list_find_app_r by (apply list_find_None, Forall_forall; intros x Hx ->; done).
  destruct n as [|n]; cbn; [lia|]. rewrite decide_True by done. cbn. lia.
Qed.

Section crypto.
Context `{CryptoLaws}.

Lemma id_block k m : block 4 (ztake 4 (blake3_keyed k m)).
Proof. destruct (blake3_keyed_block k m) as [Hb Hl]. split; [by apply bytes_ztake|len]. Qed.

Lemma issue_at_spec authority mesh_id member cs issued expires :
  zlen cs ≤ 12 →
  MembershipToken.issue_at authority mesh_id member cs issued expires
  = Ok (MembershipToken.mk member mesh_id (cs ++ replicate (12 - length cs) 0) issued expires
      (DeviceIdentity.sign authority (MembershipToken.signable_bytes
        (MembershipToken.mk member mesh_id (cs ++ replicate (12 - length cs) 0)
           issued expires (replicate 64 0))))).
Proof.
  intros Hl. unfold MembershipToken.issue_at, MembershipToken.MAX_CALLSIGN_LEN.
  rewrite (proj2 (Z.ltb_ge _ _)) by lia. unfold zdrop. rewrite Nat2Z.id.
  by rewrite drop_replicate.
Qed.

Lemma issued_token_wf authority mesh_id member cs issued expires token :
  block 32 member → block 4 mesh_id → bytes_ok cs → in_u 64 issued → in_u 64 expires →
  MembershipToken.issue_at authority mesh_id member cs issued expires = Ok token →
  MembershipToken.wf token.
Proof.
  intros ?? Hc ?? Ht. unfold MembershipToken.issue_at in Ht.
  destruct (_ <? _) eqn:E; [done|]. apply Z.ltb_ge in E.
  unfold MembershipToken.MAX_CALLSIGN_LEN in E. injection Ht as <-.
  split_and!; cbn -[replicate]; try done; try lia; [split|apply ed25519_sign_block].
  - apply bytes_app; [done|]. apply bytes_zdrop. by_decide.
  - rewrite length_app, length_zdrop. cbn [length]. lia.
Qed.
End crypto.
End IdentityProofs.

Module IdentityProperties.
Import IdentityProofs.

Section crypto.
Context `{CryptoLaws}.

(** A signed payload is accepted exactly when it is a marker, a payload
    and a signature of both that the given key verifies; what an identity
    encodes is accepted under its key and read back; any other bytes are
    refused without a panic. *)
Theorem signed_payload_authentic wire public_key :
  bytes_ok wire →
  SignedPayload.decode_verified wire public_key ≠ Panic
  ∧ (∀ d, SignedPayload.decode_verified wire public_key = Ok d ↔
      wire = SignedPayload.encode_with_signature (DecodedPayload.marker d)
               (DecodedPayload.payload d) (DecodedPayload.signature d)
      ∧ zlen (DecodedPayload.signature d) = SignedPayload.SIGNATURE_SIZE
      ∧ verify_signature public_key (DecodedPayload.marker d :: DecodedPayload.payload d)
          (DecodedPayload.signature d) = true)
  ∧ (∀ marker payload identity, byte_ok marker → block 32 (DeviceIdentity.signing_key identity) →
      SignedPayload.decode_verified (SignedPayload.encode marker payload identity)
        (DeviceIdentity.public_key identity)
      = Ok (DecodedPayload.mk marker payload
              (DeviceIdentity.sign identity (marker :: payload)))).
Proof.
  intros Hb. assert (∀ m p id, byte_ok m → block 32 (DeviceIdentity.signing_key id) →
    SignedPayload.decode_verified (SignedPayload.encode m p id) (DeviceIdentity.public_key id)
    = Ok (DecodedPayload.mk m p (DeviceIdentity.sign id (m :: p)))) as Hown.
  { intros m p id Hm Hid.
    change (SignedPayload.encode m p id)
      with (SignedPayload.encode_with_signature m p (DeviceIdentity.sign id (m :: p))).
    rewrite signed_payload_decode_verified by (done || apply ed25519_sign_block).
    unfold DeviceIdentity.public_key, DeviceIdentity.sign. by rewrite signature_verifies. }
  destruct (decide (zlen wire < SignedPayload.MIN_WIRE_SIZE)) as [Hs|Hs].
  - rewrite signed_payload_short by done. split_and!; [done| |exact Hown].
    intros [m p s]. split; [done|]. cbn. intros (-> & Hl & _). exfalso. revert Hs.
    unfold SignedPayload.encode_with_signature, SignedPayload.MIN_WIRE_SIZE. len.
  - destruct (signed_payload_split wire) as (m & p & s & ? & ? & [? ?] & ->); [lia|done|].
    rewrite signed_payload_decode_verified by done. split_and!; [by case_match| |exact Hown].
    intros [m' p' s']. cbn. split.
    + destruct (verify_signature _ _ _) eqn:Hv; [|done]. by intros [= <- <- <-].
    + intros (He & Hl & Hv). unfold SignedPayload.encode_with_signature in He.
      injection He as -> [-> ->]%app_inj_2; [by rewrite Hv|].
      unfold SignedPayload.SIGNATURE_SIZE in Hl. lia.
Qed.

(** A token that the authority of a genesis issues to a member survives
    the wire, names the mesh of that genesis and the member's callsign, and is
    valid under the authority's key until [now + validity] (saturating), for
    ever when [validity] is zero.  A longer callsign panics. *)
Theorem issued_token_admits genesis member callsign validity now :
  MeshGenesis.wf genesis → block 32 member → bytes_ok callsign → utf8_valid callsign = true →
  0 ∉ callsign → in_u 64 validity → in_u 64 now →
  let authority := MeshGenesis.creator_identity genesis in
  if zlen callsign <=? MembershipToken.MAX_CALLSIGN_LEN then
    ∃ token, MembershipToken.issue authority genesis member callsign validity now = Ok token
      ∧ MembershipToken.wf token
      ∧ MembershipToken.decode (MembershipToken.encode token) = Ok token
      ∧ MembershipToken.mesh_id_hex token = MeshGenesis.mesh_id genesis
      ∧ MembershipToken.callsign_str token = callsign
      ∧ (∀ t, in_u 64 t →
          MembershipToken.is_valid token (DeviceIdentity.public_key authority) t
          = (validity =? 0) || (t <=? saturating_add 64 now validity))
  else MembershipToken.issue authority genesis member callsign validity now = Panic.
Proof.
  intros (_ & _ & _ & _ & Hauth & _) Hm Hcs Hu Hz Hv Hn authority.
  assert (MembershipToken.mesh_id_bytes (MeshGenesis.mesh_id genesis)
    = ztake 4 (blake3_keyed (MeshGenesis.mesh_seed genesis) (MeshGenesis.mesh_name genesis))) as Hid.
  { apply mesh_id_bytes_hex, id_block. }
  unfold MembershipToken.issue. cbv zeta. rewrite Hid.
  set (mesh_id := ztake 4 _) in *.
  set (expires := if validity =? 0 then 0 else saturating_add 64 now validity).
  assert (in_u 64 expires) as He.
  { unfold expires, saturating_add. destruct (_ =? _); lia. }
  destruct (Z.leb_spec (zlen callsign) MembershipToken.MAX_CALLSIGN_LEN) as [Hl|Hl].
  - rewrite issue_at_spec by done. eexists. split; [done|].
    assert (MembershipToken.wf _) as Hwf
      by (eapply issued_token_wf; [exact Hm|apply id_block|exact Hcs|exact Hn|exact He|];
          by apply issue_at_spec).
    split_and!; [exact Hwf|by apply wire_roundtrip|done| |].
    + unfold MembershipToken.callsign_str. cbn [MembershipToken.callsign].
      unfold MembershipToken.MAX_CALLSIGN_LEN in Hl.
      rewrite token_callsign_len by (done || unfold MembershipToken.MAX_CALLSIGN_LEN; lia).
      rewrite ztake_app_exact by done. by rewrite Hu.
    + intros t Ht. unfold MembershipToken.is_valid, MembershipToken.verify,
        MembershipToken.is_expired, DeviceIdentity.public_key, DeviceIdentity.sign.
      cbn [MembershipToken.authority_signature MembershipToken.expires_at_ms].
      unfold MembershipToken.signable_bytes. cbn -[le replicate].
      rewrite signature_verifies by done. cbn [andb].
      unfold expires, saturating_add. destruct (Z.eqb_spec validity 0) as [->|]; [done|].
      cbn [orb]. rewrite (proj2 (Z.eqb_neq _ _)) by lia. cbn [negb andb].
      by rewrite <-Z.leb_antisym.
  - unfold MembershipToken.issue_at. by rewrite (proj2 (Z.ltb_lt _ _)).
Qed.
End crypto.

Definition demo_identity : DeviceIdentity.t := DeviceIdentity.mk (replicate 32 7).
Definition demo_genesis : MeshGenesis.t :=
  MeshGenesis.mk (str "ALPHA"%string) (replicate 32 9) demo_identity 1000
    MembershipPolicy.Controlled.

Lemma signed_payload_authentic_witness :
  SignedPayload.decode_verified (SignedPayload.encode 181 [1; 2; 3] demo_identity)
    (DeviceIdentity.public_key demo_identity)
  = Ok (DecodedPayload.mk 181 [1; 2; 3] (DeviceIdentity.sign demo_identity [181; 1; 2; 3])).
Proof. apply (signed_payload_authentic [] []); by_decide. Defined.

Lemma issued_token_admits_witness :
  ∃ token, MembershipToken.issue demo_identity demo_genesis (replicate 32 5)
             (str "SCOUT-1"%string) 500 2000 = Ok token
    ∧ MembershipToken.decode (MembershipToken.encode token) = Ok token
    ∧ MembershipToken.callsign_str token = str "SCOUT-1"%string.
Proof.
  destruct (issued_token_admits demo_genesis (replicate 32 5) (str "SCOUT-1"%string) 500 2000)
    as (token & ? & _ & ? & _ & ? & _); [by_decide..|]. by exists token.
Defined.
End IdentityProperties.
