(* ===== verification/Trust.v ===== *)
(** * The identity registry of src/src/security/registry.rs: trust on first
    use, membership, and persistence in two formats.

    The hash map is iterated in any order ([MapOrder]). *)

From Stdlib Require Import String.
From stdpp Require Import base numbers list gmap.
From S2P Require Import Prelude Crypto Identity.
Open Scope Z_scope.
Open Scope peat_scope.

Module RegistryResult.
Inductive t := Registered | Verified | InvalidSignature | KeyMismatch (node_id : Z).
#[global] Instance registry_result_eq_dec : EqDecision t.
Proof. solve_decision. Defined.
Definition is_trusted (self : t) : bool :=
  match self with Registered | Verified => true | _ => false end.
Definition is_violation (self : t) : bool :=
  match self with InvalidSignature | KeyMismatch _ => true | _ => false end.
End RegistryResult.

Module IdentityRecord.

Record t := mk {
  public_key : list Z; first_seen_ms : Z; last_seen_ms : Z; verification_count : Z;
  callsign : option (list Z); token_expires_ms : option Z
}.
#[global] Instance record_eq_dec : EqDecision t.
Proof. solve_decision. Defined.

Definition callsign_str (self : t) : option (list Z) :=
  match callsign self with
  | None => None
  | Some cs =>
      let s := ztake (MembershipToken.callsign_len cs) cs in
      Some (if utf8_valid s then s else [])
  end.
Definition is_token_expired (self : t) (now_ms : Z) : bool :=
  match token_expires_ms self with
  | Some expires => if expires =? 0 then false else expires <? now_ms
  | None => false
  end.

(** The ranges of the fields, and what the registry's own operations keep:
    an expiry comes with a callsign. *)
Definition wf (self : t) : Prop :=
  block 32 (public_key self) ∧ in_u 64 (first_seen_ms self) ∧ in_u 64 (last_seen_ms self)
  ∧ in_u 32 (verification_count self)
  ∧ match callsign self, token_expires_ms self with
    | None, None => True
    | Some cs, Some e => block 12 cs ∧ in_u 64 e
    | _, _ => False
    end.

#[global] Instance record_wf_dec r : Decision (wf r).
Proof. destruct r as [pk f l v [cs|] [e|]]; unfold wf; cbn; apply _. Defined.

End IdentityRecord.
Import IdentityRecord (callsign, token_expires_ms, first_seen_ms, last_seen_ms, verification_count).

Module IdentityRegistry.

Record t := mk { known : gmap Z IdentityRecord.t; max_identities : Z }.

Definition DEFAULT_MAX_IDENTITIES : Z := 256.
Definition new : t := mk ∅ DEFAULT_MAX_IDENTITIES.
Definition with_capacity (max_identities : Z) : t := mk ∅ max_identities.
Definition with_known (self : t) (known : gmap Z IdentityRecord.t) : t :=
  mk known (max_identities self).

Definition is_known (self : t) (node_id : Z) : bool := bool_decide (is_Some (known self !! node_id)).
Definition get_public_key (self : t) (node_id : Z) : option (list Z) :=
  IdentityRecord.public_key <$> known self !! node_id.
Definition get_record (self : t) (node_id : Z) : option IdentityRecord.t := known self !! node_id.
Definition len (self : t) : Z := Z.of_nat (size (known self)).
Definition is_empty (self : t) : bool := bool_decide (known self = ∅).
Definition remove (self : t) (node_id : Z) : t * option IdentityRecord.t :=
  (with_known self (delete node_id (known self)), known self !! node_id).
Definition clear (self : t) : t := with_known self ∅.
Definition pre_register (self : t) (node_id : Z) (public_key : list Z) (now_ms : Z) : t :=
  with_known self
    (<[node_id := IdentityRecord.mk public_key now_ms now_ms 0 None None]> (known self)).
Definition get_callsign (self : t) (node_id : Z) : option (list Z) :=
  match known self !! node_id with Some r => IdentityRecord.callsign_str r | None => None end.

Section ops.
Context `{Crypto}.

(** The branch on the capacity is empty in the code. *)
Definition verify_or_register_at (self : t) (attestation : IdentityAttestation.t) (now_ms : Z)
    : t * RegistryResult.t :=
  if negb (IdentityAttestation.verify attestation) then (self, RegistryResult.InvalidSignature)
  else
    let node_id := IdentityAttestation.node_id attestation in
    match known self !! node_id with
    | Some record =>
        if bool_decide (IdentityRecord.public_key record
                        = IdentityAttestation.public_key attestation) then
          (with_known self (<[node_id := IdentityRecord.mk
              (IdentityRecord.public_key record) (first_seen_ms record) now_ms
              (saturating_add 32 (verification_count record) 1) (callsign record)
              (token_expires_ms record)]> (known self)), RegistryResult.Verified)
        else (self, RegistryResult.KeyMismatch node_id)
    | None =>
        (with_known self (<[node_id := IdentityRecord.mk
            (IdentityAttestation.public_key attestation) now_ms now_ms 1 None None]>
            (known self)), RegistryResult.Registered)
    end.
Definition verify_or_register (self : t) (attestation : IdentityAttestation.t)
    : t * RegistryResult.t :=
  verify_or_register_at self attestation (IdentityAttestation.timestamp_ms attestation).

Definition register_member (self : t) (token : MembershipToken.t) (authority_public_key : list Z)
    (now_ms : Z) : t * result Z RegistryResult.t :=
  if negb (MembershipToken.verify token authority_public_key) then
    (self, Err RegistryResult.InvalidSignature)
  else if MembershipToken.is_expired token now_ms then (self, Err RegistryResult.InvalidSignature)
  else
    let node_id := node_id_from_public_key (MembershipToken.public_key token) in
    let mismatch :=
      match known self !! node_id with
      | Some existing =>
          negb (bool_decide (IdentityRecord.public_key existing = MembershipToken.public_key token))
      | None => false
      end in
    if mismatch then (self, Err (RegistryResult.KeyMismatch node_id))
    else
      (with_known self (<[node_id := IdentityRecord.mk (MembershipToken.public_key token)
          now_ms now_ms 1 (Some (MembershipToken.callsign token))
          (Some (MembershipToken.expires_at_ms token))]> (known self)), Okay node_id).
End ops.

Section iteration.
Context `{!MapOrder Z}.

Definition known_nodes (self : t) : list Z := (map_iter (known self)).*1.
Definition find_by_callsign (self : t) (callsign : list Z) : option Z :=
  match list_find (λ e : Z * IdentityRecord.t, IdentityRecord.callsign_str e.2 = Some callsign)
          (map_iter (known self)) with
  | Some (_, (node_id, _)) => Some node_id
  | None => None
  end.

Definition encode_entry (e : Z * IdentityRecord.t) : list Z :=
  let '(node_id, record) := e in
  le 4 node_id ++ IdentityRecord.public_key record ++ le 8 (first_seen_ms record)
  ++ le 8 (last_seen_ms record) ++ le 4 (verification_count record)
  ++ match callsign record with
     | Some callsign => [1] ++ callsign ++ le 8 (default 0 (token_expires_ms record))
     | None => [0] ++ replicate 12 0 ++ le 8 0
     end.
Definition encode (self : t) : list Z :=
  [2] ++ le 4 (wrap 32 (Z.of_nat (size (known self))))
  ++ flat_map encode_entry (map_iter (known self)).
End iteration.

Definition decode_v1 (data : list Z) : outcome t :=
  reject_if zlen data <? 4 ;;
  let! count := u32_at data 0 in
  reject_if zlen data <? 4 + count * 56 ;;
  let! st := for_range (Z.to_nat count) 0 (λ _ '(known, offset),
      let! node_id := u32_at data offset in
      let! public_key := slice data (offset + 4) (offset + 36) in
      let! first_seen_ms := u64_at data (offset + 36) in
      let! last_seen_ms := u64_at data (offset + 44) in
      let! verification_count := u32_at data (offset + 52) in
      Ok (<[node_id := IdentityRecord.mk public_key first_seen_ms last_seen_ms
              verification_count None None]> known, offset + 56)) (∅, 4) in
  Ok (mk st.1 DEFAULT_MAX_IDENTITIES).

Definition decode_v2 (data : list Z) : outcome t :=
  reject_if zlen data <? 5 ;;
  let! count := u32_at data 1 in
  let entry_size := 77 in
  reject_if zlen data <? 5 + count * entry_size ;;
  let! st := for_range (Z.to_nat count) 0 (λ _ '(known, offset),
      let! node_id := u32_at data offset in
      let! public_key := slice data (offset + 4) (offset + 36) in
      let! first_seen_ms := u64_at data (offset + 36) in
      let! last_seen_ms := u64_at data (offset + 44) in
      let! verification_count := u32_at data (offset + 52) in
      let! flag := u8_at data (offset + 56) in
      let has_callsign := negb (flag =? 0) in
      let! badge :=
        if has_callsign then
          let! cs := slice data (offset + 57) (offset + 69) in
          let! expires := u64_at data (offset + 69) in
          Ok (Some cs, Some expires)
        else Ok (None, None) in
      Ok (<[node_id := IdentityRecord.mk public_key first_seen_ms last_seen_ms
              verification_count badge.1 badge.2]> known, offset + 77)) (∅, 5) in
  Ok (mk st.1 DEFAULT_MAX_IDENTITIES).

Definition decode (data : list Z) : outcome t :=
  reject_if bool_decide (data = []) ;;
  let! version := u8_at data 0 in
  if version =? 2 then decode_v2 data else decode_v1 data.

Definition typed (self : t) : Prop :=
  map_Forall (λ k r, in_u 32 k ∧ IdentityRecord.wf r) (known self).

#[global] Instance typed_dec r : Decision (typed r).
Proof. unfold typed. apply _. Defined.

(** ** Histories *)

(** What a registry is asked to do, with the time of the call. *)
Inductive event :=
| Attest (attestation : IdentityAttestation.t)
| AttestAt (attestation : IdentityAttestation.t) (now_ms : Z)
| Member (token : MembershipToken.t) (authority_public_key : list Z) (now_ms : Z).
Definition step `{Crypto} (self : t) (ev : event) : t :=
  match ev with
  | Attest a => (verify_or_register self a).1
  | AttestAt a now => (verify_or_register_at self a now).1
  | Member tk pk now => (register_member self tk pk now).1
  end.
Definition run `{Crypto} (self : t) (evs : list event) : t := foldl step self evs.

End IdentityRegistry.

(** * Theorems *)

Module TrustProofs.
Import IdentityRegistry IdentityProofs.

Lemma zlen_entry `{!MapOrder Z} e :
  IdentityRecord.wf e.2 → zlen (encode_entry e) = 77.
Proof.
  destruct e as [k [pk f l v cs ex]]. intros ([_ Hp] & _ & _ & _ & Hcs). cbn in *.
  destruct cs as [cs|], ex; try done; [destruct Hcs as [[_ ?] _]|]; len.
Qed.

Lemma entries_length `{!MapOrder Z} r :
  typed r →
  zlen (flat_map encode_entry (map_iter (known r))) = 77 * Z.of_nat (size (known r)).
Proof.
  intros Hty. rewrite <-length_map_iter. apply zlen_flat_map. intros [k v] Hin.
  apply elem_of_map_iter in Hin. by apply zlen_entry, (Hty k).
Qed.

(** Reading back what was saved gives the same identities; the capacity is
    the default one. *)
Lemma registry_roundtrip `{!MapOrder Z} r :
  typed r → Z.of_nat (size (known r)) < 2 ^ 32 →
  decode (encode r) = Ok (mk (known r) DEFAULT_MAX_IDENTITIES).
Proof.
  intros Hty Hsz. pose proof (entries_length r Hty) as Hlen. unfold decode, encode.
  rewrite wrap_small by lia. cbn [app]. rewrite bool_decide_eq_false_2 by done.
  rewrite u8_at_here by lia. cbn [obind Z.eqb Pos.eqb]. unfold decode_v2. rd.
  erewrite (for_range_entries encode_entry (λ m '(k, v), <[k := v]> m) _ _
    (map_iter (known r)) (2 :: le 4 (Z.of_nat (size (known r)))) []
    (2 :: le 4 (Z.of_nat (size (known r))) ++ flat_map encode_entry (map_iter (known r)))).
  - cbn [obind fst]. change (foldl _ _ _) with (insert_all (map_iter (known r)) ∅).
    by rewrite insert_all_map_iter.
  - rewrite length_map_iter. lia.
  - len.
  - by rewrite app_nil_r.
  - intros [k [pk f l v cs ex]] p q i m Hin ->.
    apply elem_of_map_iter, Hty in Hin as [Hk ([Hpb Hp] & Hf & Hl & Hv & Hcs)]. cbn in *.
    destruct cs as [cs|], ex as [ex|]; try done.
    + destruct Hcs as [[Hcb Hcl] He].
      cbn [default from_option id]. rewrite <-!app_assoc. cbn [app]. rd.
      cbn [negb Z.eqb]. rewrite <-!app_assoc. rd. cbn [fst snd]. do 2 f_equal; len.
    + rewrite <-!app_assoc. cbn [app]. rd. cbn [negb Z.eqb obind fst snd].
      do 2 f_equal; len.
Qed.

Ltac block_solve := first [done | lia | split; block_solve].

Lemma decode_v1_wp data : bytes_ok data → wp (decode_v1 data) typed.
Proof.
  intros Hb. unfold decode_v1. wp_steps.
  apply (wp_for_range _ _ _ _ (λ j st, st.2 = 4 + j * 56 ∧
    map_Forall (λ k r, in_u 32 k ∧ IdentityRecord.wf r) st.1)).
  - split; [done|apply map_Forall_empty].
  - intros j [m off] Hj [Hoff Hm]. cbn in *. wp_steps. cbn. split; [lia|].
    apply map_Forall_insert_2; [|done]. split; [done|]. split_and!; cbn; block_solve.
  - intros [m off] [_ Hm]. by apply wp_ok.
Qed.
Lemma decode_v2_wp data : bytes_ok data → wp (decode_v2 data) typed.
Proof.
  intros Hb. unfold decode_v2. wp_steps.
  apply (wp_for_range _ _ _ _ (λ j st, st.2 = 5 + j * 77 ∧
    map_Forall (λ k r, in_u 32 k ∧ IdentityRecord.wf r) st.1)).
  - split; [done|apply map_Forall_empty].
  - intros j [m off] Hj [Hoff Hm]. cbn in *. wp_steps; cbn; (split; [lia|]);
      (apply map_Forall_insert_2; [|done]); (split; [done|]); split_and!; cbn; block_solve.
  - intros [m off] [_ Hm]. by apply wp_ok.
Qed.
Lemma registry_decode_wp data : bytes_ok data → wp (decode data) typed.
Proof.
  intros Hb. unfold decode. apply wp_reject_if. intros Hne%bool_decide_eq_false.
  assert (0 < zlen data) by (destruct data; [done|cbn; lia]).
  apply wp_bind, wp_u_at; try done; try lia. intros v _.
  apply wp_if; intros _; [by apply decode_v2_wp|by apply decode_v1_wp].
Qed.

(** ** Bindings *)

Section crypto.
Context `{Crypto}.

(** What an event vouches for: an identifier and its key. *)
Definition vouches (ev : event) (node_id : Z) (key : list Z) : Prop :=
  match ev with
  | Attest a | AttestAt a _ =>
      IdentityAttestation.verify a = true ∧ IdentityAttestation.node_id a = node_id
      ∧ IdentityAttestation.public_key a = key
  | Member tk authority now =>
      MembershipToken.is_valid tk authority now = true ∧ MembershipToken.public_key tk = key
      ∧ node_id_from_public_key key = node_id
  end.

Lemma verify_or_register_key r a now id :
  get_public_key (verify_or_register_at r a now).1 id
  = match get_public_key r id with
    | Some key => Some key
    | None => if IdentityAttestation.verify a && (id =? IdentityAttestation.node_id a)
              then Some (IdentityAttestation.public_key a) else None
    end.
Proof.
  unfold verify_or_register_at, get_public_key.
  destruct (IdentityAttestation.verify a); cbn [negb andb fst]; [|by destruct (known r !! id)].
  destruct (Z.eqb_spec id (IdentityAttestation.node_id a)) as [->|Hne].
  - destruct (known r !! IdentityAttestation.node_id a) as [rec|] eqn:E.
    + case_bool_decide; cbn; [by rewrite lookup_insert_eq|by rewrite E].
    + cbn. by rewrite lookup_insert_eq.
  - destruct (known r !! IdentityAttestation.node_id a) as [rec|] eqn:E.
    + case_bool_decide; cbn; rewrite ?lookup_insert_ne by done; by destruct (known r !! id).
    + cbn. rewrite lookup_insert_ne by done. by destruct (known r !! id).
Qed.
Lemma register_member_key r tk pk now id :
  get_public_key (register_member r tk pk now).1 id
  = match get_public_key r id with
    | Some key => Some key
    | None => if MembershipToken.is_valid tk pk now
                 && (id =? node_id_from_public_key (MembershipToken.public_key tk))
              then Some (MembershipToken.public_key tk) else None
    end.
Proof.
  unfold register_member, get_public_key, MembershipToken.is_valid.
  destruct (MembershipToken.verify tk pk); cbn [negb andb fst]; [|by destruct (known r !! id)].
  destruct (MembershipToken.is_expired tk now); cbn [negb andb fst]; [by destruct (known r !! id)|].
  set (n := node_id_from_public_key _). destruct (Z.eqb_spec id n) as [->|Hne].
  - destruct (known r !! n) as [rec|] eqn:E.
    + case_bool_decide as Hk; cbn; [rewrite lookup_insert_eq; cbn; congruence|by rewrite E].
    + cbn. by rewrite lookup_insert_eq.
  - destruct (known r !! n) as [rec|] eqn:E.
    + case_bool_decide; cbn; rewrite ?lookup_insert_ne by done; by destruct (known r !! id).
    + cbn. rewrite lookup_insert_ne by done. by destruct (known r !! id).
Qed.

Lemma step_key r ev id key :
  get_public_key (step r ev) id = Some key ↔
  get_public_key r id = Some key ∨ get_public_key r id = None ∧ vouches ev id key.
Proof.
  assert (∀ a now, get_public_key (verify_or_register_at r a now).1 id = Some key ↔
    get_public_key r id = Some key ∨ get_public_key r id = None ∧
    IdentityAttestation.verify a = true ∧ IdentityAttestation.node_id a = id
    ∧ IdentityAttestation.public_key a = key) as Ha.
  { intros a now. rewrite verify_or_register_key. destruct (get_public_key r id); [naive_solver|].
    destruct (IdentityAttestation.verify a); [|naive_solver]. cbn [andb].
    destruct (Z.eqb_spec id (IdentityAttestation.node_id a)); naive_solver. }
  destruct ev as [a|a now|tk pk now]; cbn [step vouches]; [apply Ha..|].
  rewrite register_member_key. destruct (get_public_key r id); [naive_solver|].
  destruct (MembershipToken.is_valid tk pk now); [|naive_solver]. cbn [andb].
  destruct (Z.eqb_spec id (node_id_from_public_key (MembershipToken.public_key tk))); naive_solver.
Qed.

(** A binding of a registry is an old one, or was vouched for by an event. *)
Lemma run_key r evs id key :
  get_public_key (run r evs) id = Some key →
  get_public_key r id = Some key
  ∨ get_public_key r id = None ∧ ∃ ev, ev ∈ evs ∧ vouches ev id key.
Proof.
  revert r. induction evs as [|ev evs IH]; intros r; [by left|].
  intros [Hs|[Hs (ev' & ? & ?)]]%IH.
  - apply step_key in Hs as [?|[??]]; [by left|]. right. split; [done|]. exists ev. set_solver.
  - destruct (get_public_key r id) as [k|] eqn:E.
    + rewrite (proj2 (step_key r ev id k)) in Hs by by left. done.
    + right. split; [done|]. exists ev'. set_solver.
Qed.
Lemma run_keeps r evs id key :
  get_public_key r id = Some key → get_public_key (run r evs) id = Some key.
Proof.
  intros Hr. unfold run. apply (foldl_inv (λ r, get_public_key r id = Some key)); [done|].
  intros r' ev _ Hr'. apply step_key. by left.
Qed.

Lemma vouches_derived ev id key : vouches ev id key → id = node_id_from_public_key key.
Proof.
  destruct ev; cbn; [intros (Hv & <- & <-)..|by intros (_ & _ & <-)];
    by apply attestation_verify_iff in Hv as [? _].
Qed.

Lemma trusted_iff r a now :
  RegistryResult.is_trusted (verify_or_register_at r a now).2 = true ↔
  IdentityAttestation.verify a = true
  ∧ (get_public_key r (IdentityAttestation.node_id a) = None
     ∨ get_public_key r (IdentityAttestation.node_id a)
       = Some (IdentityAttestation.public_key a)).
Proof.
  unfold verify_or_register_at, get_public_key.
  destruct (IdentityAttestation.verify a); cbn [negb]; [|naive_solver].
  destruct (known r !! _) as [rec|]; [|cbn; naive_solver].
  cbv beta iota zeta.
  case_bool_decide; cbn; (split; [|intros [_ [?|?]]; congruence]); [|done].
  intros _. split; [done|]. right. congruence.
Qed.
Lemma violation_unchanged r a now :
  RegistryResult.is_trusted (verify_or_register_at r a now).2 = false →
  (verify_or_register_at r a now).1 = r.
Proof.
  unfold verify_or_register_at. destruct (IdentityAttestation.verify a); cbn [negb]; [|done].
  destruct (known r !! _) as [rec|]; [|done].
  cbv beta iota zeta. by case_bool_decide.
Qed.
End crypto.
End TrustProofs.

Module TrustProperties.
Import IdentityRegistry IdentityProofs TrustProofs.
Import IdentityProperties (demo_identity, demo_genesis).

(** C13: Trust on first use.  Whatever attestations and tokens a registry is
    shown, a key once bound to an identifier stays bound to it; a new binding
    was vouched for by a verified attestation or a valid token, and its
    identifier is derived from its key.  An attestation is trusted exactly
    when it verifies and its identifier is free or bound to the same key;
    one that is not trusted changes nothing. *)
Theorem trust_on_first_use `{Crypto} r evs :
  let r' := run r evs in
  (∀ id key, get_public_key r id = Some key → get_public_key r' id = Some key)
  ∧ (∀ id key, get_public_key r id = None → get_public_key r' id = Some key →
      id = node_id_from_public_key key ∧ ∃ ev, ev ∈ evs ∧ vouches ev id key)
  ∧ (∀ a now, RegistryResult.is_trusted (verify_or_register_at r' a now).2 = true ↔
      IdentityAttestation.verify a = true
      ∧ (get_public_key r' (IdentityAttestation.node_id a) = None
         ∨ get_public_key r' (IdentityAttestation.node_id a)
           = Some (IdentityAttestation.public_key a)))
  ∧ (∀ a now, RegistryResult.is_trusted (verify_or_register_at r' a now).2 = false →
      (verify_or_register_at r' a now).1 = r').
Proof.
  intros r'. split_and!.
  - intros id key. apply run_keeps.
  - intros id key Hr [?|[_ (ev & Hin & Hv)]]%run_key; [congruence|].
    split; [by apply (vouches_derived ev)|by exists ev].
  - intros a now. apply trusted_iff.
  - intros a now. apply violation_unchanged.
Qed.

(** A registry saved and loaded, at any later start of the device, knows
    the same identities with the same records, and refuses and accepts the
    same attestations; loading never panics, whatever the bytes, and gives
    records of the right shape. *)
Theorem registry_persists `{Crypto, !MapOrder Z} r data :
  typed r → Z.of_nat (size (known r)) < 2 ^ 32 → bytes_ok data →
  wp (decode data) typed
  ∧ ∃ r', decode (encode r) = Ok r' ∧ known r' = known r
    ∧ ∀ a now, (verify_or_register_at r' a now).2 = (verify_or_register_at r a now).2.
Proof.
  intros Hty Hsz Hb. split; [by apply registry_decode_wp|].
  eexists. split; [by apply registry_roundtrip|]. split; [done|]. intros a now.
  unfold verify_or_register_at. cbn [known].
  destruct (IdentityAttestation.verify a); cbn [negb]; [|done].
  destruct (known r !! _); [|done]. by case_bool_decide.
Qed.

(** A member who presents the token its mesh's authority issued is
    registered under the identifier of its key, with its callsign, as long as
    the token has not expired and that identifier is free or bound to the same
    key; otherwise it is refused and the registry unchanged. *)
Theorem issued_token_registers `{CryptoLaws} r authority mesh_id member callsign issued expires
    token now :
  block 32 (DeviceIdentity.signing_key authority) →
  utf8_valid callsign = true → 0 ∉ callsign →
  MembershipToken.issue_at authority mesh_id member callsign issued expires = Ok token →
  let id := node_id_from_public_key member in
  let '(r', res) := register_member r token (DeviceIdentity.public_key authority) now in
  if negb (MembershipToken.is_expired token now)
     && bool_decide (default member (get_public_key r id) = member)
  then res = Okay id ∧ get_public_key r' id = Some member
       ∧ get_callsign r' id = Some callsign
       ∧ ∀ other, other ≠ id → known r' !! other = known r !! other
  else r' = r ∧ ∃ e, res = Err e ∧ RegistryResult.is_violation e = true.
Proof.
  intros Hauth Hu Hz Ht id.
  assert (zlen callsign ≤ 12) as Hl.
  { unfold MembershipToken.issue_at in Ht. destruct (_ <? _) eqn:E; [done|].
    by apply Z.ltb_ge in E. }
  rewrite issue_at_spec in Ht by done. injection Ht as <-.
  unfold register_member, MembershipToken.verify, MembershipToken.is_expired,
    DeviceIdentity.public_key, DeviceIdentity.sign.
  cbn [MembershipToken.authority_signature MembershipToken.expires_at_ms
       MembershipToken.public_key MembershipToken.callsign].
  unfold MembershipToken.signable_bytes. cbn -[le replicate andb negb Z.ltb Z.eqb bool_decide].
  rewrite signature_verifies by done. cbn [negb].
  destruct (negb (expires =? 0) && (expires <? now)); cbn [negb andb];
    [split; [done|by exists RegistryResult.InvalidSignature]|].
  assert (get_callsign (with_known r (<[id := IdentityRecord.mk member now now 1
    (Some (callsign ++ replicate (12 - length callsign) 0)) (Some expires)]> (known r))) id
    = Some callsign) as Hcs.
  { unfold get_callsign, IdentityRecord.callsign_str. cbn. rewrite lookup_insert_eq. cbn -[replicate].
    rewrite token_callsign_len by (done || unfold MembershipToken.MAX_CALLSIGN_LEN; lia).
    rewrite ztake_app_exact by done. by rewrite Hu. }
  unfold get_public_key. fold id. destruct (known r !! id) as [rec|] eqn:E;
    cbn [fmap option_fmap option_map default from_option Datatypes.id].
  - destruct (bool_decide_reflect (IdentityRecord.public_key rec = member)); cbn [negb].
    + split_and!; [done|cbn; by rewrite lookup_insert_eq|done|].
      intros other Ho. cbn. by rewrite lookup_insert_ne.
    + split; [done|]. by eexists.
  - rewrite bool_decide_eq_true_2 by done.
    split_and!; [done|cbn; by rewrite lookup_insert_eq|done|].
    intros other Ho. cbn. by rewrite lookup_insert_ne.
Qed.

Definition demo_token : MembershipToken.t :=
  match MembershipToken.issue demo_identity demo_genesis (replicate 32 5) (str "SCOUT-1"%string) 500 2000
  with Ok tk => tk | _ => MembershipToken.mk [] [] [] 0 0 [] end.
Definition other_mesh : MeshGenesis.t :=
  MeshGenesis.mk (str "BRAVO"%string) (replicate 32 11) demo_identity 1000 MembershipPolicy.Strict.
Definition demo_registry : t :=
  (register_member new demo_token (DeviceIdentity.public_key demo_identity) 2100).1.

Lemma registry_persists_witness :
  wp (decode [2; 1; 0; 0; 0; 9]) typed
  ∧ ∃ r', decode (encode demo_registry) = Ok r' ∧ known r' = known demo_registry.
Proof.
  destruct (registry_persists demo_registry [2; 1; 0; 0; 0; 9]) as [? (r' & ? & ? & _)];
    [by_decide..|]. split; [assumption|]. exists r'. split; assumption.
Defined.

Lemma issued_token_registers_witness :
  get_callsign demo_registry (node_id_from_public_key (replicate 32 5))
  = Some (str "SCOUT-1"%string).
Proof.
  pose proof (issued_token_registers new demo_identity
    (MembershipToken.mesh_id_bytes (MeshGenesis.mesh_id demo_genesis)) (replicate 32 5)
    (str "SCOUT-1"%string) 2000 2500 demo_token 2100) as Hreg.
  specialize (Hreg ltac:(by_decide) ltac:(vm_compute; reflexivity) ltac:(by_decide)
    ltac:(vm_compute; reflexivity)).
  vm_compute in Hreg. vm_compute. apply Hreg.
Defined.

(** The capacity given to a registry is never looked at. *)
Example registry_exceeds_its_capacity :
  let attest k := DeviceIdentity.create_attestation (DeviceIdentity.mk (k :: replicate 31 0)) 5 in
  len (run (with_capacity 1) [Attest (attest 1); Attest (attest 2); Attest (attest 3)]) = 3.
Proof. vm_compute. reflexivity. Qed.

(** A token is accepted whatever mesh it is for: the registry does not know
    its own. *)
Example foreign_mesh_token_registers :
  ∃ token, MembershipToken.issue demo_identity other_mesh (replicate 32 5)
             (str "SCOUT-1"%string) 500 2000 = Ok token
    ∧ MembershipToken.mesh_id_hex token ≠ MeshGenesis.mesh_id demo_genesis
    ∧ (register_member new token (MeshGenesis.creator_public_key demo_genesis) 2100).2
      = Okay (node_id_from_public_key (replicate 32 5)).
Proof. eexists. split; [vm_compute; reflexivity|]. by_decide. Qed.

(** A token received again restarts the history of its member. *)
Example renewed_token_resets_history :
  let pk := DeviceIdentity.public_key demo_identity in
  let r := (register_member demo_registry demo_token pk 2300).1 in
  (λ rec, (first_seen_ms rec, verification_count rec))
    <$> known r !! node_id_from_public_key (replicate 32 5) = Some (2300, 1).
Proof. vm_compute. reflexivity. Qed.

(** Bytes of the first format, of [n] entries with the identifiers [ids]. *)
Definition v1_bytes (ids : list Z) : list Z :=
  le 4 (zlen ids) ++ flat_map (λ id, le 4 id ++ replicate 52 7) ids.
(** Two saved identities of the first format are read by the second one:
    [None], or an empty registry when the low byte of the first is zero.
    Three are read as they were written. *)
Example first_format_of_two_is_lost :
  decode (v1_bytes [0x1101; 0x1102]) = Fail
  ∧ decode (v1_bytes [0x1100; 0x1102]) = Ok new
  ∧ (λ r, len r) <$> (match decode (v1_bytes [0x1100; 0x1102; 0x1103]) with
      Ok r => Some r | _ => None end) = Some 3.
Proof. vm_compute. done. Qed.
End TrustProperties.
