(* ===== verification/Phy.v ===== *)
(** * The physical layers of src/src/phy: their figures (types.rs), the
    strategies that choose one from the signal (strategy.rs) and the controller
    that negotiates and switches (controller.rs). The figures that are
    floating-point numbers (relative power, success rate) are left out. *)

From stdpp Require Import base numbers list sets.
From S2P Require Import Prelude.
Open Scope Z_scope.
Open Scope peat_scope.

Module Phy.

Inductive t := Le1M | Le2M | LeCodedS2 | LeCodedS8.
#[global] Instance phy_eq_dec : EqDecision t.
Proof. solve_decision. Defined.

Definition data_rate_bps (self : t) : Z :=
  match self with
  | Le1M => 1000000 | Le2M => 2000000 | LeCodedS2 => 500000 | LeCodedS8 => 125000
  end.
Definition data_rate_kbps (self : t) : Z := data_rate_bps self / 1000.
Definition typical_range_m (self : t) : Z :=
  match self with Le1M => 100 | Le2M => 50 | LeCodedS2 => 200 | LeCodedS8 => 400 end.
Definition typical_latency_ms (self : t) : Z :=
  match self with Le1M => 30 | Le2M => 20 | LeCodedS2 => 50 | LeCodedS8 => 100 end.
Definition is_coded (self : t) : bool :=
  match self with LeCodedS2 | LeCodedS8 => true | _ => false end.
Definition requires_ble5 (self : t) : bool := match self with Le1M => false | _ => true end.
Definition coding_scheme (self : t) : option Z :=
  match self with LeCodedS2 => Some 2 | LeCodedS8 => Some 8 | _ => None end.
Definition transmit_time_us (self : t) (bytes : Z) : outcome Z :=
  let! framed := add_u 64 bytes 10 in
  let! bits := mul_u 64 framed 8 in
  let! scaled := mul_u 64 bits 1000000 in
  Ok (scaled / data_rate_bps self).

End Phy.

Module PhyCapabilities.

Record t := mk { le_2m : bool; le_coded : bool }.
#[global] Instance phy_capabilities_eq_dec : EqDecision t.
Proof. solve_decision. Defined.
Definition default_caps : t := mk false false.
Definition le_1m_only : t := mk false false.
Definition ble5_full : t := mk true true.
Definition ble5_no_coded : t := mk true false.
Definition supports (self : t) (phy : Phy.t) : bool :=
  match phy with
  | Phy.Le1M => true
  | Phy.Le2M => le_2m self
  | Phy.LeCodedS2 | Phy.LeCodedS8 => le_coded self
  end.
Definition best_for_range (self : t) : Phy.t :=
  if le_coded self then Phy.LeCodedS8 else Phy.Le1M.
Definition best_for_throughput (self : t) : Phy.t :=
  if le_2m self then Phy.Le2M else Phy.Le1M.

End PhyCapabilities.

Module PhyPreference.
Record t := mk { tx : Phy.t; rx : Phy.t }.
Definition default_preference : t := mk Phy.Le1M Phy.Le1M.
Definition symmetric (phy : Phy.t) : t := mk phy phy.
Definition is_symmetric (self : t) : bool := bool_decide (tx self = rx self).
End PhyPreference.

(** ** Strategies *)

Module PhyStrategy.

Inductive t :=
| Fixed (phy : Phy.t)
| Adaptive (rssi_threshold_high rssi_threshold_low hysteresis_db : Z) (coded_phy : Phy.t)
| MaxRange
| MaxThroughput
| PowerOptimized (rssi_threshold : Z).
Definition default_strategy : t := Adaptive (-50) (-75) 5 Phy.LeCodedS2.
Definition fixed (phy : Phy.t) : t := Fixed phy.
Definition adaptive (high_threshold low_threshold hysteresis : Z) : t :=
  Adaptive high_threshold low_threshold hysteresis Phy.LeCodedS2.
Definition adaptive_max_range : t := Adaptive (-50) (-70) 5 Phy.LeCodedS8.

(** The thresholds with the hysteresis of the current layer. *)
Definition thresholds (high low hysteresis_db : Z) (current_phy : Phy.t) : outcome (Z * Z) :=
  if bool_decide (current_phy = Phy.Le2M) then
    let! high := sub_i8 high (to_i8 hysteresis_db) in Ok (high, low)
  else if Phy.is_coded current_phy then
    let! low := add_i8 low (to_i8 hysteresis_db) in Ok (high, low)
  else Ok (high, low).
Definition select_phy (self : t) (current_phy : Phy.t) (rssi : Z) (caps : PhyCapabilities.t)
    : outcome Phy.t :=
  let! selected :=
    match self with
    | Fixed phy => Ok phy
    | Adaptive high low hysteresis_db coded_phy =>
        let! (high_thresh, low_thresh) := thresholds high low hysteresis_db current_phy in
        Ok (if high_thresh <? rssi then Phy.Le2M
            else if rssi <? low_thresh then coded_phy
            else Phy.Le1M)
    | MaxRange => Ok (if PhyCapabilities.le_coded caps then Phy.LeCodedS8 else Phy.Le1M)
    | MaxThroughput => Ok (if PhyCapabilities.le_2m caps then Phy.Le2M else Phy.Le1M)
    | PowerOptimized rssi_threshold =>
        Ok (if (rssi_threshold <? rssi) && PhyCapabilities.le_2m caps then Phy.Le2M
            else Phy.Le1M)
    end in
  Ok (if PhyCapabilities.supports caps selected then selected else Phy.Le1M).
Definition requires_capability_check (self : t) : bool :=
  match self with Fixed Phy.Le1M => false | _ => true end.

End PhyStrategy.

Module PhySwitchDecision.
Inductive t := Keep | Switch (phy : Phy.t).
Definition should_switch (self : t) : bool := match self with Switch _ => true | Keep => false end.
Definition target (self : t) : option Phy.t :=
  match self with Keep => None | Switch phy => Some phy end.
End PhySwitchDecision.

Definition evaluate_phy_switch (strategy : PhyStrategy.t) (current_phy : Phy.t) (rssi : Z)
    (caps : PhyCapabilities.t) : outcome PhySwitchDecision.t :=
  let! recommended := PhyStrategy.select_phy strategy current_phy rssi caps in
  Ok (if negb (bool_decide (recommended = current_phy)) then PhySwitchDecision.Switch recommended
      else PhySwitchDecision.Keep).

(** ** The controller *)

Module PhyControllerState.
Inductive t := Idle | Negotiating | Active | Switching | Error.
#[global] Instance phy_controller_state_eq_dec : EqDecision t.
Proof. solve_decision. Defined.
End PhyControllerState.

Module PhyUpdateResult.
Inductive t := Success (tx_phy rx_phy : Phy.t) | Rejected | NotSupported | Timeout | Failed.
End PhyUpdateResult.

Module PhyControllerEvent.
Inductive t :=
| NegotiationComplete (local peer : PhyCapabilities.t)
| SwitchRecommended (from to : Phy.t) (rssi : Z)
| UpdateComplete (result : PhyUpdateResult.t)
| RssiUpdate (rssi : Z).
End PhyControllerEvent.

Module PhyStats.
Record t := mk {
  switches : Z; successful_switches : Z; failed_switches : Z; rssi_samples : Z;
  time_in_le1m : Z; time_in_le2m : Z; time_in_coded : Z
}.
Definition default_stats : t := mk 0 0 0 0 0 0 0.
Definition record_time (self : t) (phy : Phy.t) (time_units : Z) : outcome t :=
  let '(mk s ss fs r t1 t2 tc) := self in
  match phy with
  | Phy.Le1M => let! t1 := add_u 64 t1 time_units in Ok (mk s ss fs r t1 t2 tc)
  | Phy.Le2M => let! t2 := add_u 64 t2 time_units in Ok (mk s ss fs r t1 t2 tc)
  | Phy.LeCodedS2 | Phy.LeCodedS8 =>
      let! tc := add_u 64 tc time_units in Ok (mk s ss fs r t1 t2 tc)
  end.
Definition count_switch (self : t) : outcome t :=
  let! n := add_u 64 (switches self) 1 in
  Ok (mk n (successful_switches self) (failed_switches self) (rssi_samples self)
        (time_in_le1m self) (time_in_le2m self) (time_in_coded self)).
Definition count_success (self : t) : outcome t :=
  let! n := add_u 64 (successful_switches self) 1 in
  Ok (mk (switches self) n (failed_switches self) (rssi_samples self)
        (time_in_le1m self) (time_in_le2m self) (time_in_coded self)).
Definition count_failure (self : t) : outcome t :=
  let! n := add_u 64 (failed_switches self) 1 in
  Ok (mk (switches self) (successful_switches self) n (rssi_samples self)
        (time_in_le1m self) (time_in_le2m self) (time_in_coded self)).
Definition count_sample (self : t) : outcome t :=
  let! n := add_u 64 (rssi_samples self) 1 in
  Ok (mk (switches self) (successful_switches self) (failed_switches self) n
        (time_in_le1m self) (time_in_le2m self) (time_in_coded self)).
End PhyStats.

Module PhyControllerConfig.
Record t := mk {
  strategy : PhyStrategy.t; min_samples_for_switch : Z; rssi_window_size : Z;
  switch_cooldown_ms : Z; auto_switch : bool
}.
Definition default_config : t := mk PhyStrategy.default_strategy 5 10 5000 true.
End PhyControllerConfig.

Module PhyController.

Record t := mk {
  config : PhyControllerConfig.t; state : PhyControllerState.t; tx_phy : Phy.t; rx_phy : Phy.t;
  local_caps : PhyCapabilities.t; peer_caps : PhyCapabilities.t; rssi_samples : list Z;
  last_switch_time : Z; stats : PhyStats.t
}.
Definition new (config : PhyControllerConfig.t) (local_caps : PhyCapabilities.t) : t :=
  mk config PhyControllerState.Idle Phy.Le1M Phy.Le1M local_caps PhyCapabilities.default_caps []
    0 PhyStats.default_stats.
Definition with_defaults (local_caps : PhyCapabilities.t) : t :=
  new PhyControllerConfig.default_config local_caps.
Definition current_preference (self : t) : PhyPreference.t :=
  PhyPreference.mk (tx_phy self) (rx_phy self).
Definition effective_capabilities (self : t) : PhyCapabilities.t :=
  PhyCapabilities.mk
    (PhyCapabilities.le_2m (local_caps self) && PhyCapabilities.le_2m (peer_caps self))
    (PhyCapabilities.le_coded (local_caps self) && PhyCapabilities.le_coded (peer_caps self)).

Definition set_state (self : t) (state : PhyControllerState.t) : t :=
  mk (config self) state (tx_phy self) (rx_phy self) (local_caps self) (peer_caps self)
    (rssi_samples self) (last_switch_time self) (stats self).
Definition set_peer (self : t) (peer_caps : PhyCapabilities.t) : t :=
  mk (config self) (state self) (tx_phy self) (rx_phy self) (local_caps self) peer_caps
    (rssi_samples self) (last_switch_time self) (stats self).
Definition set_samples (self : t) (samples : list Z) : t :=
  mk (config self) (state self) (tx_phy self) (rx_phy self) (local_caps self) (peer_caps self)
    samples (last_switch_time self) (stats self).
Definition set_stats (self : t) (stats : PhyStats.t) : t :=
  mk (config self) (state self) (tx_phy self) (rx_phy self) (local_caps self) (peer_caps self)
    (rssi_samples self) (last_switch_time self) stats.
Definition set_phys (self : t) (tx rx : Phy.t) (now : Z) : t :=
  mk (config self) (state self) tx rx (local_caps self) (peer_caps self)
    (rssi_samples self) now (stats self).
Definition set_config (self : t) (config : PhyControllerConfig.t) : t :=
  mk config (state self) (tx_phy self) (rx_phy self) (local_caps self) (peer_caps self)
    (rssi_samples self) (last_switch_time self) (stats self).

Definition start_negotiation (self : t) : t :=
  set_samples (set_state self PhyControllerState.Negotiating) [].
Definition complete_negotiation (self : t) (peer_caps : PhyCapabilities.t)
    : t * PhyControllerEvent.t :=
  let self := set_state (set_peer self peer_caps) PhyControllerState.Active in
  (self, PhyControllerEvent.NegotiationComplete (local_caps self) peer_caps).

(** The sum of the samples, fewer than 2^24 of them, is one of [i32]. *)
Definition average_rssi (self : t) : Z :=
  match rssi_samples self with
  | [] => -100
  | samples => to_i8 (wrap 8 (Z.quot (foldl Z.add 0 samples) (zlen samples)))
  end.
Definition evaluate_switch (self : t) (rssi : Z) : outcome PhySwitchDecision.t :=
  evaluate_phy_switch (PhyControllerConfig.strategy (config self)) (tx_phy self) rssi
    (effective_capabilities self).
(** [&&] is lazy: the sum of the times is the last condition. *)
Definition may_switch (self : t) (current_time : Z) : outcome bool :=
  if PhyControllerConfig.auto_switch (config self)
     && bool_decide (state self = PhyControllerState.Active)
     && (PhyControllerConfig.min_samples_for_switch (config self) <=? zlen (rssi_samples self))
  then
    let! after :=
      add_u 64 (last_switch_time self) (PhyControllerConfig.switch_cooldown_ms (config self)) in
    Ok (after <=? current_time)
  else Ok false.
Definition record_rssi (self : t) (rssi current_time : Z)
    : outcome (t * option PhyControllerEvent.t) :=
  let samples := rssi_samples self ++ [rssi] in
  let! stats := PhyStats.count_sample (stats self) in
  let samples :=
    if PhyControllerConfig.rssi_window_size (config self) <? zlen samples
    then drop 1 samples else samples in
  let self := set_stats (set_samples self samples) stats in
  let! switch := may_switch self current_time in
  if switch : bool then
    let avg_rssi := average_rssi self in
    let! decision := evaluate_switch self avg_rssi in
    match decision with
    | PhySwitchDecision.Switch to_phy =>
        Ok (self, Some (PhyControllerEvent.SwitchRecommended (tx_phy self) to_phy avg_rssi))
    | PhySwitchDecision.Keep => Ok (self, None)
    end
  else Ok (self, None).
Definition request_switch (self : t) (to_phy : Phy.t) : outcome (t * option PhyPreference.t) :=
  if negb (bool_decide (state self = PhyControllerState.Active)) then Ok (self, None)
  else if negb (PhyCapabilities.supports (effective_capabilities self) to_phy)
  then Ok (self, None)
  else
    let self := set_state self PhyControllerState.Switching in
    let! stats := PhyStats.count_switch (stats self) in
    Ok (set_stats self stats, Some (PhyPreference.symmetric to_phy)).
Definition handle_update_result (self : t) (result : PhyUpdateResult.t) (current_time : Z)
    : outcome (t * PhyControllerEvent.t) :=
  let! self :=
    match result with
    | PhyUpdateResult.Success tx_phy rx_phy =>
        let self := set_state (set_phys self tx_phy rx_phy current_time)
                      PhyControllerState.Active in
        let! stats := PhyStats.count_success (stats self) in
        Ok (set_stats self stats)
    | _ =>
        let self := set_state self PhyControllerState.Active in
        let! stats := PhyStats.count_failure (stats self) in
        Ok (set_stats self stats)
    end in
  Ok (self, PhyControllerEvent.UpdateComplete result).
Definition reset (self : t) : t :=
  mk (config self) PhyControllerState.Idle Phy.Le1M Phy.Le1M (local_caps self)
    PhyCapabilities.default_caps [] 0 (stats self).
Definition set_strategy (self : t) (strategy : PhyStrategy.t) : t :=
  let c := config self in
  set_config self (PhyControllerConfig.mk strategy (PhyControllerConfig.min_samples_for_switch c)
    (PhyControllerConfig.rssi_window_size c) (PhyControllerConfig.switch_cooldown_ms c)
    (PhyControllerConfig.auto_switch c)).
Definition set_auto_switch (self : t) (enabled : bool) : t :=
  let c := config self in
  set_config self (PhyControllerConfig.mk (PhyControllerConfig.strategy c)
    (PhyControllerConfig.min_samples_for_switch c) (PhyControllerConfig.rssi_window_size c)
    (PhyControllerConfig.switch_cooldown_ms c) enabled).

End PhyController.

Module PhyProperties.

(** The layers a link goes through as its signal is measured, when every
    recommended switch is made. *)
Fixpoint switches (strategy : PhyStrategy.t) (caps : PhyCapabilities.t) (current : Phy.t)
    (rssis : list Z) : outcome (list Phy.t) :=
  match rssis with
  | [] => Ok []
  | rssi :: rssis =>
      let! decision := evaluate_phy_switch strategy current rssi caps in
      match decision with
      | PhySwitchDecision.Keep => switches strategy caps current rssis
      | PhySwitchDecision.Switch phy =>
          let! l := switches strategy caps phy rssis in Ok (phy :: l)
      end
  end.

(** The sums of the thresholds and the hysteresis stay in [i8], the bands do
    not overlap, and the layer for weak signals is a coded one. *)
Definition tame (high low hysteresis : Z) (coded_phy : Phy.t) : Prop :=
  -128 ≤ low ∧ high ≤ 127 ∧ 0 ≤ hysteresis ≤ high - low ∧ hysteresis ≤ 127
  ∧ Phy.is_coded coded_phy = true.

Section adaptive.
Context (high low h : Z) (coded_phy : Phy.t) (caps : PhyCapabilities.t).
Context (Htame : tame high low h coded_phy).

Let strategy := PhyStrategy.Adaptive high low h coded_phy.
Let supported (p : Phy.t) : Phy.t := if PhyCapabilities.supports caps p then p else Phy.Le1M.

Lemma select_adaptive current rssi :
  PhyStrategy.select_phy strategy current rssi caps
  = Ok (supported
      (if (if bool_decide (current = Phy.Le2M) then high - h else high) <? rssi then Phy.Le2M
       else if rssi <? (if Phy.is_coded current then low + h else low) then coded_phy
       else Phy.Le1M)).
Proof.
  destruct Htame as (Hlow & Hhigh & Hh & Hh' & _).
  unfold strategy, PhyStrategy.select_phy, PhyStrategy.thresholds, sub_i8, add_i8, to_i8.
  rewrite (proj2 (Z.ltb_lt h 128)) by lia.
  destruct (bool_decide_reflect (current = Phy.Le2M)) as [->|_].
  - rewrite (proj2 (Z.leb_le _ _)), (proj2 (Z.leb_le _ _)) by lia. done.
  - destruct (Phy.is_coded current); [|done].
    rewrite (proj2 (Z.leb_le _ _)), (proj2 (Z.leb_le _ _)) by lia. done.
Qed.

Lemma switches_step current rssi rssis next :
  PhyStrategy.select_phy strategy current rssi caps = Ok next →
  switches strategy caps current (rssi :: rssis)
  = if bool_decide (next = current) then switches strategy caps current rssis
    else let! l := switches strategy caps next rssis in Ok (next :: l).
Proof.
  intros H. cbn. unfold evaluate_phy_switch. rewrite H. cbn. by case_bool_decide.
Qed.
Lemma settled current rssis :
  Forall (λ r, PhyStrategy.select_phy strategy current r caps = Ok current) rssis →
  switches strategy caps current rssis = Ok [].
Proof.
  induction 1 as [|r rssis Hr _ IH]; [done|]. erewrite switches_step by done.
  by rewrite bool_decide_eq_true_2.
Qed.

Context (lo : Z).
Let within (r : Z) : Prop := lo ≤ r ≤ lo + h.

Lemma settled_2m rssis :
  PhyCapabilities.supports caps Phy.Le2M = true → high - h < lo → Forall within rssis →
  switches strategy caps Phy.Le2M rssis = Ok [].
Proof.
  intros Hs Hlo Hr. apply settled. eapply Forall_impl; [exact Hr|]. intros r [Hr1 Hr2].
  rewrite select_adaptive. cbn [bool_decide]. rewrite bool_decide_eq_true_2 by done.
  rewrite (proj2 (Z.ltb_lt _ _)) by lia. unfold supported. by rewrite Hs.
Qed.
Lemma settled_coded rssis :
  PhyCapabilities.supports caps coded_phy = true → lo + h < low + h → Forall within rssis →
  switches strategy caps coded_phy rssis = Ok [].
Proof.
  destruct Htame as (_ & _ & Hh & _ & Hc). intros Hs Hlo Hr. apply settled.
  eapply Forall_impl; [exact Hr|]. intros r [Hr1 Hr2]. rewrite select_adaptive, Hc.
  rewrite bool_decide_eq_false_2 by (intros E; by rewrite E in Hc).
  rewrite (proj2 (Z.ltb_ge _ _)), (proj2 (Z.ltb_lt _ _)) by lia. unfold supported. by rewrite Hs.
Qed.

(** From the middle layer the link switches at most once. *)
Lemma from_1m rssis :
  Forall within rssis →
  ∃ l, switches strategy caps Phy.Le1M rssis = Ok l
    ∧ (l = [] ∨ (l = [Phy.Le2M] ∧ high < lo + h) ∨ (l = [coded_phy] ∧ lo < low)).
Proof.
  intros Hr. induction Hr as [|r rssis [Hr1 Hr2] Hr IH]; [exists []; by split; [|left]|].
  pose proof (select_adaptive Phy.Le1M r) as Hsel. cbn in Hsel.
  rewrite bool_decide_eq_false_2 in Hsel by done.
  rewrite (switches_step _ _ _ _ Hsel). clear Hsel. unfold supported.
  destruct (Z.ltb_spec high r).
  - destruct (PhyCapabilities.supports caps Phy.Le2M) eqn:Hs; [|by rewrite bool_decide_eq_true_2].
    rewrite bool_decide_eq_false_2, settled_2m by (done || lia). exists [Phy.Le2M].
    split; [done|]. right; left. split; [done|lia].
  - destruct (Z.ltb_spec r low); [|by rewrite bool_decide_eq_true_2].
    destruct (PhyCapabilities.supports caps coded_phy) eqn:Hs; [|by rewrite bool_decide_eq_true_2].
    assert (coded_phy ≠ Phy.Le1M) by (destruct Htame as (_ & _ & _ & _ & Hc); intros E; by rewrite E in Hc).
    rewrite bool_decide_eq_false_2, settled_coded by (done || lia). exists [coded_phy].
    split; [done|]. right; right. split; [done|lia].
Qed.

(** From an outer layer it may pass the middle one, and then does not turn. *)
Lemma from_2m rssis :
  PhyCapabilities.supports caps Phy.Le2M = true → Forall within rssis →
  ∃ l, switches strategy caps Phy.Le2M rssis = Ok l
    ∧ (l = [] ∨ l = [Phy.Le1M] ∨ l = [coded_phy] ∨ l = [Phy.Le1M; coded_phy]).
Proof.
  intros Hs Hr. induction Hr as [|r rssis [Hr1 Hr2] Hr IH]; [exists []; by split; [|left]|].
  pose proof (select_adaptive Phy.Le2M r) as Hsel. cbn in Hsel.
  rewrite bool_decide_eq_true_2 in Hsel by done.
  rewrite (switches_step _ _ _ _ Hsel). clear Hsel. unfold supported.
  destruct (Z.ltb_spec (high - h) r); [by rewrite Hs, bool_decide_eq_true_2|].
  assert (Hmid : ∃ l, (let! l := switches strategy caps Phy.Le1M rssis in Ok (Phy.Le1M :: l))
    = Ok l ∧ (l = [] ∨ l = [Phy.Le1M] ∨ l = [coded_phy] ∨ l = [Phy.Le1M; coded_phy])).
  { destruct (from_1m rssis Hr) as (l & -> & [->|[[-> ?]|[-> _]]]); cbn; [|lia|];
      eexists; (split; [reflexivity|]); auto. }
  destruct (Z.ltb_spec r low); [|by rewrite bool_decide_eq_false_2].
  destruct (PhyCapabilities.supports caps coded_phy) eqn:Hc; [|by rewrite bool_decide_eq_false_2].
  assert (coded_phy ≠ Phy.Le2M)
    by (destruct Htame as (_ & _ & _ & _ & Hc'); intros E; by rewrite E in Hc').
  rewrite bool_decide_eq_false_2, settled_coded by (done || lia).
  exists [coded_phy]. split; [done|]. auto.
Qed.
Lemma from_coded rssis :
  PhyCapabilities.supports caps coded_phy = true → Forall within rssis →
  ∃ l, switches strategy caps coded_phy rssis = Ok l
    ∧ (l = [] ∨ l = [Phy.Le1M] ∨ l = [Phy.Le2M] ∨ l = [Phy.Le1M; Phy.Le2M]).
Proof.
  pose proof Htame as (_ & _ & Hh & _ & Hcoded).
  assert (coded_phy ≠ Phy.Le2M) by (intros E; by rewrite E in Hcoded).
  assert (coded_phy ≠ Phy.Le1M) by (intros E; by rewrite E in Hcoded).
  intros Hs Hr. induction Hr as [|r rssis [Hr1 Hr2] Hr IH]; [exists []; by split; [|left]|].
  pose proof (select_adaptive coded_phy r) as Hsel.
  rewrite Hcoded, bool_decide_eq_false_2 in Hsel by done.
  rewrite (switches_step _ _ _ _ Hsel). clear Hsel. unfold supported.
  assert (Hmid : low + h ≤ r →
    ∃ l, (let! l := switches strategy caps Phy.Le1M rssis in Ok (Phy.Le1M :: l))
    = Ok l ∧ (l = [] ∨ l = [Phy.Le1M] ∨ l = [Phy.Le2M] ∨ l = [Phy.Le1M; Phy.Le2M])).
  { intros ?. destruct (from_1m rssis Hr) as (l & -> & [->|[[-> _]|[-> ?]]]); cbn; [| |lia];
      eexists; (split; [reflexivity|]); auto. }
  destruct (Z.ltb_spec high r).
  - destruct (PhyCapabilities.supports caps Phy.Le2M) eqn:H2.
    + rewrite bool_decide_eq_false_2, settled_2m by (done || lia).
      exists [Phy.Le2M]. split; [done|]. auto.
    + rewrite bool_decide_eq_false_2 by done. apply Hmid. lia.
  - destruct (Z.ltb_spec r (low + h)); [by rewrite Hs, bool_decide_eq_true_2|].
    rewrite bool_decide_eq_false_2 by done. by apply Hmid.
Qed.
End adaptive.

(** C32: Hysteresis works. Under an adaptive strategy with a coded layer for
    weak signals, whose bands do not overlap and whose hysteresis is at most
    127 dB ([tame]), a link whose signal fluctuates within the hysteresis
    switches its layer at most twice, never back to one it has left, and
    without a panic. *)
Theorem switches_do_not_flap high low h coded_phy caps current rssis lo :
  tame high low h coded_phy → PhyCapabilities.supports caps current = true →
  (Phy.is_coded current = true → current = coded_phy) →
  Forall (λ r, lo ≤ r ≤ lo + h) rssis →
  ∃ l, switches (PhyStrategy.Adaptive high low h coded_phy) caps current rssis = Ok l
    ∧ zlen l ≤ 2 ∧ NoDup (current :: l).
Proof.
  intros Ht Hs Hcur Hr. pose proof Ht as (_ & _ & _ & _ & Hc).
  assert (coded_phy ≠ Phy.Le2M) by (intros E; by rewrite E in Hc).
  assert (coded_phy ≠ Phy.Le1M) by (intros E; by rewrite E in Hc).
  assert (Hcases : ∃ l, switches (PhyStrategy.Adaptive high low h coded_phy) caps current rssis = Ok l
    ∧ (current = Phy.Le1M ∧ (l = [] ∨ l = [Phy.Le2M] ∨ l = [coded_phy])
       ∨ current = Phy.Le2M
         ∧ (l = [] ∨ l = [Phy.Le1M] ∨ l = [coded_phy] ∨ l = [Phy.Le1M; coded_phy])
       ∨ current = coded_phy
         ∧ (l = [] ∨ l = [Phy.Le1M] ∨ l = [Phy.Le2M] ∨ l = [Phy.Le1M; Phy.Le2M]))).
  { destruct (Phy.is_coded current) eqn:Hcc.
    - rewrite (Hcur eq_refl) in *.
      destruct (from_coded _ _ _ _ caps Ht lo rssis Hs Hr) as (l & -> & Hl). eauto 6.
    - destruct current; try done.
      + destruct (from_1m _ _ _ _ caps Ht lo rssis Hr) as (l & -> & Hl). naive_solver.
      + destruct (from_2m _ _ _ _ caps Ht lo rssis Hs Hr) as (l & -> & Hl). eauto 6. }
  destruct Hcases as (l & -> & Hl). exists l. split; [done|].
  destruct Hl as [[-> [->|[->| ->]]]|[[-> [->|[->|[->| ->]]]]|[-> [->|[->|[->| ->]]]]]];
    (split; [cbn; lia|]); repeat (apply NoDup_cons; split; [set_solver|]); by constructor.
Qed.

Lemma switches_do_not_flap_witness :
  ∃ l, switches PhyStrategy.default_strategy PhyCapabilities.ble5_full Phy.Le2M
         [-56; -58; -53; -57; -55] = Ok l ∧ zlen l ≤ 2 ∧ NoDup (Phy.Le2M :: l).
Proof.
  apply (switches_do_not_flap (-50) (-75) 5 Phy.LeCodedS2 PhyCapabilities.ble5_full Phy.Le2M
    [-56; -58; -53; -57; -55] (-58)).
  - unfold tame. split_and!; (lia || reflexivity).
  - reflexivity.
  - discriminate.
  - repeat (apply Forall_cons; split; [lia|]). by apply Forall_nil.
Defined.

(** With a wider fluctuation the link does flap. *)
Example wide_fluctuation_flaps :
  switches PhyStrategy.default_strategy PhyCapabilities.ble5_full Phy.Le1M
    [-49; -56; -49; -56] = Ok [Phy.Le2M; Phy.Le1M; Phy.Le2M; Phy.Le1M].
Proof. reflexivity. Qed.
(** A hysteresis above 127 is taken for a negative number. *)
Example large_hysteresis_overflows :
  PhyStrategy.select_phy (PhyStrategy.adaptive (-50) (-75) 200) Phy.LeCodedS2 (-60)
    PhyCapabilities.ble5_full = Panic.
Proof. reflexivity. Qed.

(** *** The controller *)

Inductive op :=
| StartNegotiation | CompleteNegotiation (peer_caps : PhyCapabilities.t)
| RecordRssi (rssi now : Z) | RequestSwitch (phy : Phy.t)
| UpdateResult (result : PhyUpdateResult.t) (now : Z)
| Reset | SetStrategy (strategy : PhyStrategy.t) | SetAutoSwitch (enabled : bool).
(** The controller, the event and the request to the stack after a call. *)
Definition step (self : PhyController.t) (o : op)
    : outcome (PhyController.t * option PhyControllerEvent.t * option PhyPreference.t) :=
  match o with
  | StartNegotiation => Ok (PhyController.start_negotiation self, None, None)
  | CompleteNegotiation peer_caps =>
      let '(self, event) := PhyController.complete_negotiation self peer_caps in
      Ok (self, Some event, None)
  | RecordRssi rssi now =>
      let! (self, event) := PhyController.record_rssi self rssi now in Ok (self, event, None)
  | RequestSwitch phy =>
      let! (self, request) := PhyController.request_switch self phy in Ok (self, None, request)
  | UpdateResult result now =>
      let! (self, event) := PhyController.handle_update_result self result now in
      Ok (self, Some event, None)
  | Reset => Ok (PhyController.reset self, None, None)
  | SetStrategy strategy => Ok (PhyController.set_strategy self strategy, None, None)
  | SetAutoSwitch enabled => Ok (PhyController.set_auto_switch self enabled, None, None)
  end.

(** The thresholds of a strategy and their hysteresis stay in [i8]. *)
Definition calm (strategy : PhyStrategy.t) : bool :=
  match strategy with
  | PhyStrategy.Adaptive high low h _ =>
      (-128 <=? high - to_i8 h) && (high - to_i8 h <=? 127)
      && (-128 <=? low + to_i8 h) && (low + to_i8 h <=? 127)
  | _ => true
  end.
(** The stack answers requests only, signals are [i8], times below 2^63. *)
Definition admissible (self : PhyController.t) (o : op) : Prop :=
  match o with
  | RecordRssi rssi now => -128 ≤ rssi ≤ 127 ∧ 0 ≤ now < 2 ^ 63
  | UpdateResult _ now =>
      PhyController.state self = PhyControllerState.Switching ∧ 0 ≤ now < 2 ^ 63
  | SetStrategy strategy => calm strategy = true
  | _ => True
  end.
Inductive reachable (config : PhyControllerConfig.t) (caps : PhyCapabilities.t)
    : nat → PhyController.t → Prop :=
| reachable_new : reachable config caps 0 (PhyController.new config caps)
| reachable_step n self o self' event request :
    reachable config caps n self → admissible self o →
    step self o = Ok (self', event, request) → reachable config caps (S n) self'.

(** The switches that were asked for and not answered. *)
Definition outstanding (self : PhyController.t) : Z :=
  let s := PhyController.stats self in
  PhyStats.switches s - PhyStats.successful_switches s - PhyStats.failed_switches s.
Definition is_switching (self : PhyController.t) : Z :=
  if bool_decide (PhyController.state self = PhyControllerState.Switching) then 1 else 0.
Definition inv (config : PhyControllerConfig.t) (n : nat) (self : PhyController.t) : Prop :=
  let c := PhyController.config self in
  let s := PhyController.stats self in
  (PhyControllerConfig.rssi_window_size c = PhyControllerConfig.rssi_window_size config
   ∧ PhyControllerConfig.min_samples_for_switch c
     = PhyControllerConfig.min_samples_for_switch config
   ∧ PhyControllerConfig.switch_cooldown_ms c = PhyControllerConfig.switch_cooldown_ms config
   ∧ calm (PhyControllerConfig.strategy c) = true)
  ∧ (zlen (PhyController.rssi_samples self) ≤ PhyControllerConfig.rssi_window_size config
     ∧ Forall (λ r, -128 ≤ r ≤ 127) (PhyController.rssi_samples self)
     ∧ 0 ≤ PhyController.last_switch_time self < 2 ^ 63)
  ∧ (PhyStats.switches s ≤ Z.of_nat n ∧ PhyStats.successful_switches s ≤ Z.of_nat n
     ∧ PhyStats.failed_switches s ≤ Z.of_nat n ∧ PhyStats.rssi_samples s ≤ Z.of_nat n)
  ∧ is_switching self ≤ outstanding self.

(** What a call may answer. *)
Definition answer_ok (config : PhyControllerConfig.t) (self : PhyController.t) (o : op)
    (self' : PhyController.t) (event : option PhyControllerEvent.t)
    (request : option PhyPreference.t) : Prop :=
  (∀ from to rssi, event = Some (PhyControllerEvent.SwitchRecommended from to rssi) →
     PhyController.state self = PhyControllerState.Active
     ∧ from = PhyController.tx_phy self ∧ to ≠ from
     ∧ PhyCapabilities.supports (PhyController.local_caps self) to = true
     ∧ PhyCapabilities.supports (PhyController.peer_caps self) to = true
     ∧ PhyControllerConfig.min_samples_for_switch config
       ≤ zlen (PhyController.rssi_samples self')
     ∧ (∃ r now, o = RecordRssi r now
        ∧ PhyController.last_switch_time self + PhyControllerConfig.switch_cooldown_ms config
          ≤ now)
     ∧ ∀ lo hi, PhyController.rssi_samples self' ≠ [] → -128 ≤ lo → hi ≤ 127 →
         Forall (λ r, lo ≤ r ≤ hi) (PhyController.rssi_samples self') → lo ≤ rssi ≤ hi)
  ∧ (∀ preference, request = Some preference →
     ∃ phy, o = RequestSwitch phy ∧ preference = PhyPreference.symmetric phy
     ∧ PhyController.state self = PhyControllerState.Active
     ∧ PhyController.state self' = PhyControllerState.Switching
     ∧ PhyCapabilities.supports (PhyController.local_caps self) phy = true
     ∧ PhyCapabilities.supports (PhyController.peer_caps self) phy = true).

Lemma effective_supports self phy :
  PhyCapabilities.supports (PhyController.effective_capabilities self) phy
  = PhyCapabilities.supports (PhyController.local_caps self) phy
    && PhyCapabilities.supports (PhyController.peer_caps self) phy.
Proof. by destruct phy. Qed.
Lemma calm_selects strategy current rssi caps :
  calm strategy = true →
  ∃ phy, PhyStrategy.select_phy strategy current rssi caps = Ok phy
    ∧ PhyCapabilities.supports caps phy = true.
Proof.
  intros Hc.
  assert (Hdone : ∀ phy, ∃ phy', (Ok (if PhyCapabilities.supports caps phy then phy else Phy.Le1M)
    : outcome Phy.t) = Ok phy' ∧ PhyCapabilities.supports caps phy' = true).
  { intros phy. eexists. split; [reflexivity|]. by destruct (PhyCapabilities.supports caps phy) eqn:?. }
  destruct strategy as [| high low h coded_phy | | |]; try apply Hdone.
  cbn [calm] in Hc. apply andb_true_iff in Hc as [Hc Hl2]. apply andb_true_iff in Hc as [Hc Hl1].
  apply andb_true_iff in Hc as [Hh1 Hh2].
  unfold PhyStrategy.select_phy, PhyStrategy.thresholds, sub_i8, add_i8. rewrite Hh1, Hh2, Hl1, Hl2.
  destruct (bool_decide _), (Phy.is_coded current); cbn [andb obind]; apply Hdone.
Qed.
Lemma controller_average_bounds self lo hi :
  PhyController.rssi_samples self ≠ [] → -128 ≤ lo → hi ≤ 127 →
  Forall (λ r, lo ≤ r ≤ hi) (PhyController.rssi_samples self) →
  lo ≤ PhyController.average_rssi self ≤ hi.
Proof.
  intros Hne Hlo Hhi Hf. pose proof (mean_bounds lo hi _ Hne Hf) as Hm.
  unfold PhyController.average_rssi. destruct (PhyController.rssi_samples self); [done|].
  rewrite to_i8_wrap by lia. done.
Qed.

Section controller.
Context (config : PhyControllerConfig.t).
Context (Hcool : PhyControllerConfig.switch_cooldown_ms config < 2 ^ 63).

Lemma may_switch_ok n self now :
  inv config n self →
  ∃ b, PhyController.may_switch self now = Ok b ∧
    (b = true → PhyController.state self = PhyControllerState.Active
     ∧ PhyControllerConfig.min_samples_for_switch config ≤ zlen (PhyController.rssi_samples self)
     ∧ PhyController.last_switch_time self + PhyControllerConfig.switch_cooldown_ms config ≤ now).
Proof.
  intros ((_ & Hmin & Hcd & _) & (_ & _ & Hlast) & _). unfold PhyController.may_switch.
  destruct (_ && _) eqn:Hand; [|by exists false].
  apply andb_true_iff in Hand as [Hand Hlen]. apply andb_true_iff in Hand as [_ Hact].
  apply bool_decide_eq_true in Hact. apply Z.leb_le in Hlen.
  rewrite add_u_small by lia. eexists. split; [reflexivity|]. rewrite Z.leb_le.
  rewrite <-Hmin, <-Hcd. auto.
Qed.

Lemma record_rssi_ok n self rssi now :
  Z.of_nat n < 2 ^ 63 → inv config n self → -128 ≤ rssi ≤ 127 →
  ∃ self' event, PhyController.record_rssi self rssi now = Ok (self', event)
    ∧ inv config (S n) self' ∧ answer_ok config self (RecordRssi rssi now) self' event None.
Proof.
  intros Hn Hinv Hr. pose proof Hinv as (Hcfg & (Hlen & Hf & Hlast) & Hcount & Hout).
  unfold PhyController.record_rssi, PhyStats.count_sample. rewrite add_u_small by lia. cbn [obind].
  set (samples := if _ <? _ then _ else _). set (stats := PhyStats.mk _ _ _ _ _ _ _).
  set (self' := PhyController.set_stats _ _).
  assert (Hinv' : inv config (S n) self').
  { split; [exact Hcfg|]. split; [split; [|split; [|exact Hlast]]|split; [|exact Hout]].
    - destruct Hcfg as [Hw _]. cbn. unfold samples. rewrite Hw.
      rewrite length_app. destruct (Z.ltb_spec (PhyControllerConfig.rssi_window_size config)
        (Z.of_nat (length (PhyController.rssi_samples self) + length [rssi])));
        rewrite ?length_drop, ?length_app; cbn [length] in *; lia.
    - cbn. assert (Hall : Forall (λ r, -128 ≤ r ≤ 127) (PhyController.rssi_samples self ++ [rssi]))
        by (apply Forall_app; split; [done|]; apply Forall_cons; split; [done | apply Forall_nil; done]).
      unfold samples. destruct (_ <? _); [by apply Forall_drop | done].
    - cbn. lia. }
  destruct (may_switch_ok (S n) self' now Hinv') as (b & -> & Hb). cbn [obind].
  assert (Hnone : answer_ok config self (RecordRssi rssi now) self' None None) by done.
  destruct b; [|by exists self', None]. destruct (Hb eq_refl) as (Hact & Hmin & Hcd).
  unfold PhyController.evaluate_switch, evaluate_phy_switch.
  destruct (calm_selects (PhyControllerConfig.strategy (PhyController.config self'))
    (PhyController.tx_phy self') (PhyController.average_rssi self')
    (PhyController.effective_capabilities self')) as (to & -> & Hto); [apply Hcfg|].
  cbn [obind]. case_bool_decide as Hne; cbn [negb]; [by exists self', None|].
  eexists self', _. split; [reflexivity|]. split; [done|]. split; [|done].
  intros from to' avg [= <- <- <-]. rewrite effective_supports in Hto.
  apply andb_true_iff in Hto as [Hto1 Hto2]. split_and!; try done.
  - by exists rssi, now.
  - intros. by apply controller_average_bounds.
Qed.

Lemma request_switch_ok n self phy :
  Z.of_nat n < 2 ^ 63 → inv config n self →
  ∃ self' request, PhyController.request_switch self phy = Ok (self', request)
    ∧ inv config (S n) self' ∧ answer_ok config self (RequestSwitch phy) self' None request.
Proof.
  intros Hn (Hcfg & Hsamples & Hcount & Hout). unfold PhyController.request_switch.
  assert (Hsame : inv config (S n) self).
  { split; [exact Hcfg|]. split; [exact Hsamples|]. split; [lia | exact Hout]. }
  case_bool_decide as Hact; [|by exists self, None]. cbn [negb].
  destruct (PhyCapabilities.supports _ _) eqn:Hs; [|by exists self, None]. cbn [negb].
  unfold PhyStats.count_switch. cbn. rewrite add_u_small by lia. cbn [obind].
  eexists _, _. split; [reflexivity|]. split.
  - split; [exact Hcfg|]. split; [exact Hsamples|]. split; [cbn; lia|].
    unfold is_switching, outstanding in *. rewrite Hact in Hout. cbn in *.
    rewrite bool_decide_eq_true_2 by done. rewrite bool_decide_eq_false_2 in Hout by done. lia.
  - split; [done|]. intros preference [= <-]. exists phy. rewrite effective_supports in Hs.
    apply andb_true_iff in Hs as [? ?]. by split_and!.
Qed.

Lemma update_result_ok n self result now :
  Z.of_nat n < 2 ^ 63 → inv config n self →
  PhyController.state self = PhyControllerState.Switching → 0 ≤ now < 2 ^ 63 →
  ∃ self' event, PhyController.handle_update_result self result now = Ok (self', event)
    ∧ inv config (S n) self'
    ∧ answer_ok config self (UpdateResult result now) self' (Some event) None.
Proof.
  intros Hn (Hcfg & (Hlen & Hf & Hlast) & Hcount & Hout) Hst Hnow.
  unfold is_switching, outstanding in Hout. rewrite Hst, bool_decide_eq_true_2 in Hout by done.
  unfold PhyController.handle_update_result, PhyStats.count_success, PhyStats.count_failure.
  destruct result; cbn; rewrite add_u_small by lia; cbn [obind];
    (eexists _, _; split; [reflexivity|]; split; [|split; [by intros|by intros]];
     split; [exact Hcfg|]; split; [split_and!; cbn; (done || lia)|]; split; [cbn; lia|];
     unfold is_switching, outstanding; cbn; rewrite bool_decide_eq_false_2 by done; lia).
Qed.

Lemma controller_step_ok n self o :
  Z.of_nat n < 2 ^ 63 → inv config n self → admissible self o →
  ∃ self' event request, step self o = Ok (self', event, request)
    ∧ inv config (S n) self' ∧ answer_ok config self o self' event request.
Proof.
  intros Hn Hinv Ha. pose proof Hinv as (Hcfg & (Hlen & Hf & Hlast) & Hcount & Hout).
  assert (Hw : 0 ≤ PhyControllerConfig.rssi_window_size config) by lia.
  assert (Hout0 : 0 ≤ outstanding self) by (unfold is_switching in Hout; case_bool_decide; lia).
  destruct o as [|caps|rssi now|phy|result now| |strategy|enabled]; cbn [step admissible] in *.
  - eexists _, _, _. split; [reflexivity|]. split; [|by split].
    split; [exact Hcfg|]. split; [split_and!; cbn; (done || lia || constructor)|].
    split; [cbn; lia | exact Hout0].
  - eexists _, _, _. split; [reflexivity|]. split; [|by split].
    split; [exact Hcfg|]. split; [done|]. split; [cbn; lia | exact Hout0].
  - destruct Ha as [Hr _]. destruct (record_rssi_ok n self rssi now Hn Hinv Hr) as (self' & e & -> & ?).
    by exists self', e, None.
  - destruct (request_switch_ok n self phy Hn Hinv) as (self' & r & -> & ?).
    by exists self', None, r.
  - destruct Ha as [Hst Hnow].
    destruct (update_result_ok n self result now Hn Hinv Hst Hnow) as (self' & e & -> & ?).
    by exists self', (Some e), None.
  - eexists _, _, _. split; [reflexivity|]. split; [|by split].
    split; [exact Hcfg|]. split; [split_and!; cbn; (done || lia || constructor)|].
    split; [cbn; lia | exact Hout0].
  - eexists _, _, _. split; [reflexivity|]. split; [|by split].
    split; [|split; [done|]; split; [cbn; lia | exact Hout]].
    destruct Hcfg as (? & ? & ? & ?). by split_and!.
  - eexists _, _, _. split; [reflexivity|]. split; [|by split].
    split; [|split; [done|]; split; [cbn; lia | exact Hout]].
    destruct Hcfg as (? & ? & ? & ?). by split_and!.
Qed.
End controller.

(** The controller of a link is safe. Whatever sequence of negotiations,
    measurements, requests, answers and changes of strategy it has seen, the
    next call succeeds; it recommends a switch only in an active link, with
    enough samples, after the cooldown, to another layer that both sides
    support and on an average that lies between its samples; it asks the stack
    only for a supported layer and is then switching; its window never exceeds
    its size, and it never counts more answers than requests. *)
Theorem phy_controller_safe config caps n self o :
  PhyControllerConfig.switch_cooldown_ms config < 2 ^ 63 →
  0 ≤ PhyControllerConfig.rssi_window_size config →
  calm (PhyControllerConfig.strategy config) = true →
  reachable config caps n self → Z.of_nat n < 2 ^ 63 → admissible self o →
  zlen (PhyController.rssi_samples self) ≤ PhyControllerConfig.rssi_window_size config
  ∧ 0 ≤ outstanding self
  ∧ ∃ self' event request, step self o = Ok (self', event, request)
      ∧ answer_ok config self o self' event request.
Proof.
  intros Hcool Hw Hcalm Hreach Hn Ha.
  assert (Hinv : inv config n self).
  { clear Ha o. revert Hn. induction Hreach as [|n self o self' event request Hreach IH Ha Hstep].
    - intros _. split; [done|]. split; [split_and!; cbn; (done || lia || constructor)|].
      split; [cbn; lia | done].
    - intros Hn. destruct (controller_step_ok config Hcool n self o) as (s & e & r & Hs & Hi & _);
        [lia | apply IH; lia | done |]. rewrite Hs in Hstep. by injection Hstep as <- _ _. }
  pose proof Hinv as (_ & (Hlen & _) & _ & Hout). split; [exact Hlen|]. split.
  { unfold is_switching in Hout. case_bool_decide; lia. }
  destruct (controller_step_ok config Hcool n self o Hn Hinv Ha) as (s & e & r & Hs & _ & Hok).
  by exists s, e, r.
Qed.

Definition demo_config : PhyControllerConfig.t :=
  PhyControllerConfig.mk PhyStrategy.default_strategy 1 3 1000 true.
Lemma phy_controller_safe_witness :
  ∃ self, reachable demo_config PhyCapabilities.ble5_full 1 self
    ∧ zlen (PhyController.rssi_samples self) ≤ 3
    ∧ ∃ self' event request, step self (RecordRssi (-40) 2000) = Ok (self', event, request)
      ∧ event = Some (PhyControllerEvent.SwitchRecommended Phy.Le1M Phy.Le2M (-40)).
Proof.
  set (self := (PhyController.complete_negotiation
    (PhyController.new demo_config PhyCapabilities.ble5_full) PhyCapabilities.ble5_full).1).
  assert (Hr : reachable demo_config PhyCapabilities.ble5_full 1 self).
  { eapply (reachable_step _ _ _ _ (CompleteNegotiation PhyCapabilities.ble5_full));
      [apply reachable_new | exact I | reflexivity]. }
  exists self. split; [exact Hr|].
  destruct (phy_controller_safe demo_config PhyCapabilities.ble5_full 1 self
    (RecordRssi (-40) 2000)) as (Hlen & _ & self' & event & request & Hstep & _).
  - reflexivity.
  - discriminate.
  - reflexivity.
  - exact Hr.
  - reflexivity.
  - split; split; (discriminate || reflexivity).
  - split; [exact Hlen|]. exists self', event, request. split; [exact Hstep|].
    vm_compute in Hstep. by injection Hstep as _ <- _.
Defined.

(** A new connection to a device without the layer in use keeps it. *)
Example renegotiation_keeps_the_layer :
  ∃ self, reachable demo_config PhyCapabilities.ble5_full 5 self
    ∧ PhyController.tx_phy self = Phy.Le2M
    ∧ PhyCapabilities.supports (PhyController.effective_capabilities self) Phy.Le2M = false.
Proof.
  eexists. split.
  - eapply (reachable_step _ _ _ _ (CompleteNegotiation PhyCapabilities.le_1m_only));
      [|exact I|reflexivity].
    eapply (reachable_step _ _ _ _ StartNegotiation); [|exact I|reflexivity].
    eapply (reachable_step _ _ _ _ (UpdateResult (PhyUpdateResult.Success Phy.Le2M Phy.Le2M) 9)).
    + eapply (reachable_step _ _ _ _ (RequestSwitch Phy.Le2M)).
      * eapply (reachable_step _ _ _ _ (CompleteNegotiation PhyCapabilities.ble5_full));
          [apply reachable_new|exact I|reflexivity].
      * exact I.
      * reflexivity.
    + split; [reflexivity|]. split; (discriminate || reflexivity).
    + reflexivity.
  - split; reflexivity.
Qed.

End PhyProperties.
