(* ===== verification/Power.v ===== *)
(** * Power management of src/src/power: the profiles with their radio timing
    and the battery (profile.rs), and the scheduler of the radio (scheduler.rs).
    The estimates of duty cycle and battery life are floating-point numbers and
    are left out. *)

From stdpp Require Import base numbers list sets.
From S2P Require Import Prelude.
Open Scope Z_scope.
Open Scope peat_scope.

Module RadioTiming.
Record t := mk {
  scan_interval_ms : Z; scan_window_ms : Z; adv_interval_ms : Z; conn_interval_ms : Z;
  supervision_timeout_ms : Z; slave_latency : Z
}.
#[global] Instance radio_timing_eq_dec : EqDecision t.
Proof. solve_decision. Defined.
End RadioTiming.

Module RadioProfile.

Inductive t := Aggressive | Balanced | LowPower | Custom (timing : RadioTiming.t).
#[global] Instance radio_profile_eq_dec : EqDecision t.
Proof. solve_decision. Defined.
Definition timing (self : t) : RadioTiming.t :=
  match self with
  | Aggressive => RadioTiming.mk 100 50 100 15 4000 0
  | Balanced => RadioTiming.mk 500 50 500 30 4000 2
  | LowPower => RadioTiming.mk 5000 100 2000 100 6000 4
  | Custom timing => timing
  end.
Definition custom (timing : RadioTiming.t) : t := Custom timing.

End RadioProfile.

Module BatteryState.

Record t := mk {
  level_percent : Z; is_charging : bool; low_threshold : Z; critical_threshold : Z
}.
Definition default_state : t := mk 100 false 20 10.
Definition new (level_percent : Z) (is_charging : bool) : t :=
  mk (Z.min level_percent 100) is_charging 20 10.
Definition is_low (self : t) : bool :=
  negb (is_charging self) && (level_percent self <=? low_threshold self).
Definition is_critical (self : t) : bool :=
  negb (is_charging self) && (level_percent self <=? critical_threshold self).
Definition suggested_profile (self : t) (current : RadioProfile.t) : RadioProfile.t :=
  if is_charging self then current
  else if is_critical self then RadioProfile.LowPower
  else if is_low self then
    match current with
    | RadioProfile.Aggressive => RadioProfile.Balanced
    | _ => RadioProfile.LowPower
    end
  else current.

End BatteryState.

(** ** The scheduler *)

Module SyncPriority.
Inductive t := Low | Normal | High | Critical.
#[global] Instance sync_priority_eq_dec : EqDecision t.
Proof. solve_decision. Defined.
Definition rank (self : t) : Z :=
  match self with Low => 0 | Normal => 1 | High => 2 | Critical => 3 end.
End SyncPriority.

Module PendingSync.

Record t := mk {
  peer_id : Z; priority : SyncPriority.t; data_size : Z; queued_at : Z; max_age_ms : Z
}.
#[global] Instance pending_sync_eq_dec : EqDecision t.
Proof. solve_decision. Defined.
Definition new (peer_id : Z) (priority : SyncPriority.t) (data_size queued_at : Z) : t :=
  mk peer_id priority data_size queued_at
    (match priority with
     | SyncPriority.Low => 60000 | SyncPriority.Normal => 30000
     | SyncPriority.High => 10000 | SyncPriority.Critical => 5000
     end).
Definition is_expired (self : t) (current_time : Z) : outcome bool :=
  let! limit := add_u 64 (queued_at self) (max_age_ms self) in Ok (limit <? current_time).

End PendingSync.

Module RadioState.
Inductive t := Idle | Scanning | Advertising | Syncing | Transitioning.
#[global] Instance radio_state_eq_dec : EqDecision t.
Proof. solve_decision. Defined.
End RadioState.

Module SchedulerEvent.
Inductive t := StartScan | StopScan | StartAdvertising | StopAdvertising | SyncNow
  | ProfileChanged | EnterSleep.
End SchedulerEvent.

Module SchedulerConfig.
Record t := mk {
  max_pending_syncs : Z; sync_coalesce_ms : Z; profile_change_cooldown_ms : Z
}.
Definition default_config : t := mk 16 500 10000.
End SchedulerConfig.

Module SchedulerStats.
Record t := mk {
  scan_windows : Z; adv_events : Z; syncs_performed : Z; syncs_dropped : Z; critical_syncs : Z;
  profile_changes : Z
}.
Definition default_stats : t := mk 0 0 0 0 0 0.
Definition add_scan (self : t) : outcome t :=
  let '(mk s a p d c f) := self in let! s := add_u 64 s 1 in Ok (mk s a p d c f).
Definition add_adv (self : t) : outcome t :=
  let '(mk s a p d c f) := self in let! a := add_u 64 a 1 in Ok (mk s a p d c f).
Definition add_performed (self : t) : outcome t :=
  let '(mk s a p d c f) := self in let! p := add_u 64 p 1 in Ok (mk s a p d c f).
Definition add_dropped (self : t) (n : Z) : outcome t :=
  let '(mk s a p d c f) := self in let! d := add_u 64 d n in Ok (mk s a p d c f).
Definition add_critical (self : t) : outcome t :=
  let '(mk s a p d c f) := self in let! c := add_u 64 c 1 in Ok (mk s a p d c f).
Definition add_change (self : t) : outcome t :=
  let '(mk s a p d c f) := self in let! f := add_u 64 f 1 in Ok (mk s a p d c f).
End SchedulerStats.

Module RadioScheduler.

Record t := mk {
  profile : RadioProfile.t; timing : RadioTiming.t; state : RadioState.t;
  pending_syncs : list PendingSync.t; config : SchedulerConfig.t; next_scan_time : Z;
  next_adv_time : Z; last_state_change : Z; last_profile_change : Z; battery : BatteryState.t;
  auto_adjust_enabled : bool; stats : SchedulerStats.t
}.
Definition new (profile : RadioProfile.t) (config : SchedulerConfig.t) : t :=
  mk profile (RadioProfile.timing profile) RadioState.Idle [] config 0 0 0 0
    BatteryState.default_state true SchedulerStats.default_stats.
Definition with_profile (profile : RadioProfile.t) : t :=
  new profile SchedulerConfig.default_config.

Definition set_radio (self : t) (state : RadioState.t) (next_scan next_adv last_change : Z) : t :=
  mk (profile self) (timing self) state (pending_syncs self) (config self) next_scan next_adv
    last_change (last_profile_change self) (battery self) (auto_adjust_enabled self) (stats self).
Definition enter (self : t) (state : RadioState.t) (now : Z) : t :=
  set_radio self state (next_scan_time self) (next_adv_time self) now.
Definition set_queue (self : t) (pending : list PendingSync.t) (stats : SchedulerStats.t) : t :=
  mk (profile self) (timing self) (state self) pending (config self) (next_scan_time self)
    (next_adv_time self) (last_state_change self) (last_profile_change self) (battery self)
    (auto_adjust_enabled self) stats.
Definition set_stats (self : t) (stats : SchedulerStats.t) : t :=
  set_queue self (pending_syncs self) stats.
Definition set_battery (self : t) (battery : BatteryState.t) : t :=
  mk (profile self) (timing self) (state self) (pending_syncs self) (config self)
    (next_scan_time self) (next_adv_time self) (last_state_change self)
    (last_profile_change self) battery (auto_adjust_enabled self) (stats self).
Definition pending_sync_count (self : t) : Z := zlen (pending_syncs self).

Definition change_profile (self : t) (profile : RadioProfile.t) (current_time : Z)
    (stats : SchedulerStats.t) : t :=
  mk profile (RadioProfile.timing profile) (state self) (pending_syncs self) (config self)
    (next_scan_time self) (next_adv_time self) (last_state_change self) current_time
    (battery self) (auto_adjust_enabled self) stats.
Definition set_profile (self : t) (profile : RadioProfile.t) (current_time : Z)
    : outcome (t * bool) :=
  let! cooldown_elapsed :=
    if SchedulerStats.profile_changes (stats self) =? 0 then Ok true
    else
      let! until := add_u 64 (last_profile_change self)
                      (SchedulerConfig.profile_change_cooldown_ms (config self)) in
      Ok (until <=? current_time) in
  if negb cooldown_elapsed then Ok (self, false)
  else
    let! stats := SchedulerStats.add_change (stats self) in
    Ok (change_profile self profile current_time stats, true).
Definition update_battery (self : t) (battery : BatteryState.t) (current_time : Z) : outcome t :=
  let self := set_battery self battery in
  if auto_adjust_enabled self then
    let suggested := BatteryState.suggested_profile battery (profile self) in
    if negb (bool_decide (suggested = profile self)) then
      let! (self, _) := set_profile self suggested current_time in Ok self
    else Ok self
  else Ok self.
Definition set_auto_adjust (self : t) (enabled : bool) : t :=
  mk (profile self) (timing self) (state self) (pending_syncs self) (config self)
    (next_scan_time self) (next_adv_time self) (last_state_change self)
    (last_profile_change self) (battery self) enabled (stats self).

(** [iter().map(|s| s.priority).min()], by rank, and [max()]. *)
Definition lowest (l : list PendingSync.t) : option Z :=
  foldl (λ acc s, let r := SyncPriority.rank (PendingSync.priority s) in
                  Some (match acc with Some a => Z.min a r | None => r end)) None l.
Definition highest (l : list PendingSync.t) : option Z :=
  foldl (λ acc s, let r := SyncPriority.rank (PendingSync.priority s) in
                  Some (match acc with Some a => Z.max a r | None => r end)) None l.
(** [position(|s| s.priority == p)] and [remove]: the element and the rest. *)
Fixpoint take_first (rank : Z) (l : list PendingSync.t) : option (PendingSync.t * list PendingSync.t) :=
  match l with
  | [] => None
  | s :: l =>
      if SyncPriority.rank (PendingSync.priority s) =? rank then Some (s, l)
      else match take_first rank l with
           | Some (found, rest) => Some (found, s :: rest)
           | None => None
           end
  end.

Definition queue_sync (self : t) (peer_id : Z) (priority : SyncPriority.t)
    (data_size current_time : Z) : outcome (t * bool) :=
  let sync := PendingSync.new peer_id priority data_size current_time in
  if SchedulerConfig.max_pending_syncs (config self) <=? zlen (pending_syncs self) then
    let lowest_priority := default (SyncPriority.rank SyncPriority.Critical)
                             (lowest (pending_syncs self)) in
    if SyncPriority.rank priority <=? lowest_priority then Ok (self, false)
    else
      match take_first lowest_priority (pending_syncs self) with
      | Some (_, rest) =>
          let! stats := SchedulerStats.add_dropped (stats self) 1 in
          Ok (set_queue self (rest ++ [sync]) stats, true)
      | None => Ok (set_queue self (pending_syncs self ++ [sync]) (stats self), true)
      end
  else Ok (set_queue self (pending_syncs self ++ [sync]) (stats self), true).

Definition has_critical_sync (self : t) : bool :=
  existsb (λ s, bool_decide (PendingSync.priority s = SyncPriority.Critical)) (pending_syncs self).

Definition next_event (self : t) (current_time : Z) : outcome (option (SchedulerEvent.t * Z)) :=
  if has_critical_sync self then Ok (Some (SchedulerEvent.SyncNow, current_time))
  else
    match state self with
    | RadioState.Idle =>
        let scan_due := next_scan_time self <=? current_time in
        let adv_due := next_adv_time self <=? current_time in
        let sync_due := negb (bool_decide (pending_syncs self = [])) in
        Ok (Some (if scan_due then (SchedulerEvent.StartScan, current_time)
                  else if adv_due then (SchedulerEvent.StartAdvertising, current_time)
                  else if sync_due then (SchedulerEvent.SyncNow, current_time)
                  else (SchedulerEvent.EnterSleep,
                        Z.min (next_scan_time self) (next_adv_time self))))
    | RadioState.Scanning =>
        let! scan_end :=
          add_u 64 (last_state_change self) (RadioTiming.scan_window_ms (timing self)) in
        Ok (if scan_end <=? current_time then Some (SchedulerEvent.StopScan, current_time)
            else None)
    | RadioState.Advertising => Ok (Some (SchedulerEvent.StopAdvertising, current_time))
    | RadioState.Syncing => Ok None
    | RadioState.Transitioning => Ok None
    end.
Definition process_event (self : t) (event : SchedulerEvent.t) (current_time : Z) : outcome t :=
  match event with
  | SchedulerEvent.StartScan =>
      let self := enter self RadioState.Scanning current_time in
      let! stats := SchedulerStats.add_scan (stats self) in
      Ok (set_stats self stats)
  | SchedulerEvent.StopScan =>
      let! next := add_u 64 current_time (RadioTiming.scan_interval_ms (timing self)) in
      Ok (set_radio self RadioState.Idle next (next_adv_time self) current_time)
  | SchedulerEvent.StartAdvertising =>
      let self := enter self RadioState.Advertising current_time in
      let! stats := SchedulerStats.add_adv (stats self) in
      Ok (set_stats self stats)
  | SchedulerEvent.StopAdvertising =>
      let! next := add_u 64 current_time (RadioTiming.adv_interval_ms (timing self)) in
      Ok (set_radio self RadioState.Idle (next_scan_time self) next current_time)
  | SchedulerEvent.SyncNow => Ok (enter self RadioState.Syncing current_time)
  | SchedulerEvent.ProfileChanged => Ok self
  | SchedulerEvent.EnterSleep => Ok (enter self RadioState.Idle (last_state_change self))
  end.

(** [retain(|s| !s.is_expired(now))]. *)
Fixpoint unexpired (now : Z) (l : list PendingSync.t) : outcome (list PendingSync.t) :=
  match l with
  | [] => Ok []
  | s :: l =>
      let! expired := PendingSync.is_expired s now in
      let! l := unexpired now l in
      Ok (if expired : bool then l else s :: l)
  end.
Definition next_pending_sync (self : t) (current_time : Z) : outcome (t * option PendingSync.t) :=
  let! pending := unexpired current_time (pending_syncs self) in
  let! stats := SchedulerStats.add_dropped (stats self)
                  (zlen (pending_syncs self) - zlen pending) in
  let self := set_queue self pending stats in
  match highest pending with
  | None => Ok (self, None)
  | Some max_priority =>
      match take_first max_priority pending with
      | None => Ok (self, None)
      | Some (sync, rest) =>
          let! stats :=
            if bool_decide (PendingSync.priority sync = SyncPriority.Critical)
            then SchedulerStats.add_critical stats else Ok stats in
          let! stats := SchedulerStats.add_performed stats in
          Ok (set_queue self rest stats, Some sync)
      end
  end.
Definition complete_sync (self : t) (current_time : Z) : t :=
  enter self RadioState.Idle current_time.
Definition reset (self : t) (current_time : Z) : t :=
  set_queue (set_radio self RadioState.Idle current_time current_time current_time) [] (stats self).
Definition time_until_next_activity (self : t) (current_time : Z) : Z :=
  if has_critical_sync self then 0
  else if negb (bool_decide (pending_syncs self = [])) then 0
  else Z.min (saturating_sub (next_scan_time self) current_time)
             (saturating_sub (next_adv_time self) current_time).

End RadioScheduler.

Module PowerProperties.
Import RadioScheduler.

Abbreviation rank s := (SyncPriority.rank (PendingSync.priority s)).

(** *** The queue *)

Lemma take_first_spec r l :
  match take_first r l with
  | Some (s, rest) =>
      ∃ l1 l2, l = l1 ++ s :: l2 ∧ rest = l1 ++ l2 ∧ rank s = r ∧ Forall (λ x, rank x ≠ r) l1
  | None => Forall (λ x, rank x ≠ r) l
  end.
Proof.
  induction l as [|s l IH]; [by constructor|]. cbn [take_first].
  destruct (Z.eqb_spec (rank s) r) as [Heq|Hne]; [by exists [], l|].
  destruct (take_first r l) as [[s' rest]|]; [|by constructor].
  destruct IH as (l1 & l2 & -> & -> & Hr & Hf). exists (s :: l1), l2. split_and!; try done.
  by constructor.
Qed.

Lemma extreme_spec (f : Z → Z → Z) (le : Z → Z → Prop) (l : list PendingSync.t) :
  (∀ a b, f a b = a ∨ f a b = b) → (∀ a b, le (f a b) a ∧ le (f a b) b) →
  (∀ a b c, le a b → le b c → le a c) → (∀ a, le a a) →
  match foldl (λ acc s, Some (match acc with Some a => f a (rank s) | None => rank s end)) None l with
  | None => l = []
  | Some m => (∃ s, s ∈ l ∧ rank s = m) ∧ ∀ s, s ∈ l → le m (rank s)
  end.
Proof.
  intros Hsel Hle Htrans Hrefl.
  assert (Hgen : ∀ l a, ∃ m,
    foldl (λ acc s, Some (match acc with Some a => f a (rank s) | None => rank s end)) (Some a) l
    = Some m ∧ (m = a ∨ ∃ s, s ∈ l ∧ rank s = m) ∧ le m a ∧ ∀ s, s ∈ l → le m (rank s)).
  { clear l. induction l as [|s l IH]; intros a; cbn [foldl].
    - exists a. split_and!; [done | by left | done | intros s []%elem_of_nil].
    - destruct (IH (f a (rank s))) as (m & -> & Hm & Hma & Hmin). destruct (Hle a (rank s)).
      exists m. split_and!; [done | | by eapply Htrans |].
      + destruct Hm as [->|(s' & ? & ?)]; [|right; exists s'; set_solver].
        destruct (Hsel a (rank s)) as [->|Heq]; [by left|]. right. exists s. set_solver.
      + intros s' [->|Hs']%elem_of_cons; [by eapply Htrans | by apply Hmin]. }
  destruct l as [|s l]; [done|]. cbn [foldl].
  destruct (Hgen l (rank s)) as (m & -> & Hm & Hms & Hmin). split.
  - destruct Hm as [->|(s' & ? & ?)]; [exists s | exists s']; set_solver.
  - intros s' [->|Hs']%elem_of_cons; [done | by apply Hmin].
Qed.
Lemma lowest_spec l :
  match lowest l with
  | None => l = []
  | Some m => (∃ s, s ∈ l ∧ rank s = m) ∧ ∀ s, s ∈ l → m ≤ rank s
  end.
Proof. apply (extreme_spec Z.min Z.le); lia. Qed.
Lemma highest_spec l :
  match highest l with
  | None => l = []
  | Some m => (∃ s, s ∈ l ∧ rank s = m) ∧ ∀ s, s ∈ l → rank s ≤ m
  end.
Proof. apply (extreme_spec Z.max (λ a b, b ≤ a)); lia. Qed.

(** *** Runs *)

Inductive op :=
| Queue (peer_id : Z) (priority : SyncPriority.t) (data_size now : Z)
| Next (now : Z) | Process (event : SchedulerEvent.t) (now : Z) | Complete (now : Z)
| SetProfile (profile : RadioProfile.t) (now : Z) | Battery (battery : BatteryState.t) (now : Z)
| SetAuto (enabled : bool) | Reset (now : Z).
(** Whether a sync was accepted, and how many were cleared. *)
Definition step (self : t) (o : op) : outcome (t * Z * Z) :=
  match o with
  | Queue peer_id priority data_size now =>
      let! (self, ok) := queue_sync self peer_id priority data_size now in
      Ok (self, if ok : bool then 1 else 0, 0)
  | Next now => let! (self, _) := next_pending_sync self now in Ok (self, 0, 0)
  | Process event now => let! self := process_event self event now in Ok (self, 0, 0)
  | Complete now => Ok (complete_sync self now, 0, 0)
  | SetProfile profile now =>
      let! (self, _) := set_profile self profile now in Ok (self, 0, 0)
  | Battery battery now => let! self := update_battery self battery now in Ok (self, 0, 0)
  | SetAuto enabled => Ok (set_auto_adjust self enabled, 0, 0)
  | Reset now => Ok (reset self now, 0, zlen (pending_syncs self))
  end.
Definition op_time (o : op) : Z :=
  match o with
  | Queue _ _ _ now | Next now | Process _ now | Complete now | SetProfile _ now
  | Battery _ now | Reset now => now
  | SetAuto _ => 0
  end.
(** After [n] calls [accepted] syncs were accepted and [cleared] of them
    cleared by a reset. *)
Inductive reachable (profile : RadioProfile.t) (config : SchedulerConfig.t)
    : nat → Z → Z → t → Prop :=
| reachable_new : reachable profile config 0 0 0 (new profile config)
| reachable_step n accepted cleared self o self' a c :
    reachable profile config n accepted cleared self → 0 ≤ op_time o < 2 ^ 63 →
    step self o = Ok (self', a, c) →
    reachable profile config (S n) (accepted + a) (cleared + c) self'.

Definition aged (s : PendingSync.t) : Prop :=
  0 ≤ PendingSync.queued_at s < 2 ^ 63 ∧ 0 ≤ PendingSync.max_age_ms s ≤ 60000.
Definition inv (cfg : SchedulerConfig.t) (n : nat) (accepted cleared : Z) (self : t) : Prop :=
  let s := stats self in
  config self = cfg
  ∧ (zlen (pending_syncs self) ≤ SchedulerConfig.max_pending_syncs cfg
     ∧ Forall aged (pending_syncs self))
  ∧ accepted = SchedulerStats.syncs_performed s + SchedulerStats.syncs_dropped s
               + zlen (pending_syncs self) + cleared
  ∧ (0 ≤ SchedulerStats.critical_syncs s ≤ SchedulerStats.syncs_performed s
     ∧ 0 ≤ SchedulerStats.syncs_dropped s ∧ 0 ≤ cleared ∧ accepted ≤ Z.of_nat n).

Definition live (now : Z) (s : PendingSync.t) : bool :=
  now <=? PendingSync.queued_at s + PendingSync.max_age_ms s.
Lemma unexpired_ok now l : Forall aged l → unexpired now l = Ok (List.filter (live now) l).
Proof.
  induction 1 as [|s l [Hq Ha] Hl IH]; [done|]. cbn [unexpired List.filter].
  unfold PendingSync.is_expired, add_u, live in *.
  rewrite (proj2 (Z.ltb_lt _ _)) by lia. cbn [obind]. rewrite IH. cbn [obind].
  rewrite Z.leb_antisym. by destruct (_ <? now).
Qed.
Lemma filter_aged p l : Forall aged l → Forall aged (List.filter p l).
Proof.
  rewrite !Forall_forall. intros H s Hs. apply H. apply list_elem_of_In, filter_In in Hs as [Hs _].
  by apply list_elem_of_In.
Qed.
Lemma filter_le {A} (p : A → bool) l : zlen (List.filter p l) ≤ zlen l.
Proof. induction l as [|x l IH]; cbn; [lia|]. destruct (p x); cbn in *; lia. Qed.

(** What [queue_sync] does to the queue. *)
Definition queued (self : t) (sync : PendingSync.t) (self' : t) (ok : bool) : Prop :=
  let l := pending_syncs self in
  let max := SchedulerConfig.max_pending_syncs (config self) in
  if ok then
    (zlen l < max ∧ pending_syncs self' = l ++ [sync])
    ∨ max ≤ zlen l ∧ ∃ l1 s l2, l = l1 ++ s :: l2 ∧ pending_syncs self' = (l1 ++ l2) ++ [sync]
        ∧ rank s < rank sync ∧ (∀ x, x ∈ l → rank s ≤ rank x)
        ∧ Forall (λ x, rank s < rank x) l1
  else max ≤ zlen l ∧ self' = self ∧ ∀ x, x ∈ l → rank sync ≤ rank x.
(** What [next_pending_sync] does to it. *)
Definition served (self : t) (now : Z) (self' : t) (r : option PendingSync.t) : Prop :=
  let l := List.filter (live now) (pending_syncs self) in
  match r with
  | None => l = [] ∧ pending_syncs self' = []
  | Some s =>
      ∃ l1 l2, l = l1 ++ s :: l2 ∧ pending_syncs self' = l1 ++ l2
        ∧ (∀ x, x ∈ l → rank x ≤ rank s) ∧ Forall (λ x, rank x < rank s) l1
  end.

Lemma queue_sync_ok cfg n acc clr self peer priority size now :
  Z.of_nat n < 2 ^ 63 → 0 < SchedulerConfig.max_pending_syncs cfg →
  inv cfg n acc clr self → 0 ≤ now < 2 ^ 63 →
  ∃ self' ok, queue_sync self peer priority size now = Ok (self', ok)
    ∧ inv cfg (S n) (acc + if ok : bool then 1 else 0) clr self'
    ∧ queued self (PendingSync.new peer priority size now) self' ok.
Proof.
  intros Hn Hmax (Hcfg & (Hlen & Haged) & Hacc & Hcounts) Hnow. unfold queue_sync.
  set (sync := PendingSync.new _ _ _ _).
  assert (Hsync : aged sync) by (unfold aged, sync; destruct priority; cbn; lia).
  rewrite Hcfg. destruct (Z.leb_spec (SchedulerConfig.max_pending_syncs cfg)
    (zlen (pending_syncs self))) as [Hfull|Hroom].
  - pose proof (lowest_spec (pending_syncs self)) as Hlow.
    destruct (lowest (pending_syncs self)) as [m|]; [|rewrite Hlow in Hfull; cbn in Hfull; lia].
    destruct Hlow as [(s0 & Hs0 & <-) Hmin]. cbn [from_option id].
    destruct (Z.leb_spec (SyncPriority.rank priority) (rank s0)) as [Hlow|Hhigh].
    + exists self, false. split; [done|]. split.
      * split; [done|]. split; [done|]. split; lia.
      * unfold queued. rewrite Hcfg. split; [done|]. split; [done|]. intros x Hx.
        specialize (Hmin x Hx). cbn. lia.
    + pose proof (take_first_spec (rank s0) (pending_syncs self)) as Htake.
      destruct (take_first (rank s0) (pending_syncs self)) as [[s rest]|].
      2: { rewrite Forall_forall in Htake. by destruct (Htake s0 Hs0). }
      destruct Htake as (l1 & l2 & Hl & -> & Hrs & Hl1).
      unfold SchedulerStats.add_dropped. destruct (stats self) as [sc ad pe dr cr pc] eqn:Hst.
      cbn in Hacc, Hcounts. unfold add_u. rewrite (proj2 (Z.ltb_lt _ _)) by lia. cbn [obind].
      eexists _, true. split; [reflexivity|]. rewrite Hl in *.
      rewrite length_app in *. cbn [length] in *. split.
      * split; [done|]. split; [split|split].
        -- cbn. rewrite !length_app. cbn. lia.
        -- cbn. rewrite !Forall_app in *. rewrite Forall_cons in Haged. naive_solver.
        -- cbn. rewrite !length_app. cbn. lia.
        -- cbn. lia.
      * right. rewrite Hcfg, Hl, length_app. cbn [length]. split; [done|].
        exists l1, s, l2. split; [done|]. split; [done|]. split; [cbn; lia|]. split.
        -- intros x Hx. rewrite Hrs. by apply Hmin.
        -- rewrite Forall_forall in *. intros x Hx. specialize (Hl1 x Hx).
           assert (rank s0 ≤ rank x) by (apply Hmin; set_solver). lia.
  - eexists _, true. split; [reflexivity|]. split.
    + split; [done|]. split; [split|split].
      * cbn. rewrite length_app. cbn. lia.
      * cbn. apply Forall_app_2; [done | by apply Forall_singleton].
      * cbn. rewrite length_app. cbn. lia.
      * cbn. lia.
    + left. rewrite Hcfg. done.
Qed.

Lemma next_pending_sync_ok cfg n acc clr self now :
  Z.of_nat n < 2 ^ 63 → inv cfg n acc clr self →
  ∃ self' r, next_pending_sync self now = Ok (self', r)
    ∧ inv cfg (S n) acc clr self' ∧ served self now self' r.
Proof.
  intros Hn (Hcfg & (Hlen & Haged) & Hacc & Hcounts). unfold next_pending_sync, served.
  rewrite unexpired_ok by done. cbn [obind].
  pose proof (filter_aged (live now) _ Haged) as Haged'.
  pose proof (filter_le (live now) (pending_syncs self)) as Hle.
  set (l := List.filter (live now) (pending_syncs self)) in *.
  unfold SchedulerStats.add_dropped. destruct (stats self) as [sc ad pe dr cr pc] eqn:Hst.
  cbn in Hacc, Hcounts. unfold add_u at 1. rewrite (proj2 (Z.ltb_lt _ _)) by lia. cbn [obind].
  pose proof (highest_spec l) as Hhigh. destruct (highest l) as [m|].
  - destruct Hhigh as [(s0 & Hs0 & <-) Hmax]. pose proof (take_first_spec (rank s0) l) as Htake.
    destruct (take_first (rank s0) l) as [[s rest]|].
    2: { rewrite Forall_forall in Htake. by destruct (Htake s0 Hs0). }
    destruct Htake as (l1 & l2 & Hl & -> & Hrs & Hl1).
    assert (Hcrit : ∃ cr', (if bool_decide (PendingSync.priority s = SyncPriority.Critical)
        then SchedulerStats.add_critical (SchedulerStats.mk sc ad pe
               (dr + (zlen (pending_syncs self) - zlen l)) cr pc)
        else Ok (SchedulerStats.mk sc ad pe (dr + (zlen (pending_syncs self) - zlen l)) cr pc))
      = Ok (SchedulerStats.mk sc ad pe (dr + (zlen (pending_syncs self) - zlen l)) cr' pc)
      ∧ 0 ≤ cr' ≤ pe + 1).
    { case_bool_decide; [|exists cr; split; [done|lia]]. exists (cr + 1). cbn. unfold add_u.
      rewrite (proj2 (Z.ltb_lt _ _)) by lia. split; [done|lia]. }
    destruct Hcrit as (cr' & -> & Hcr'). cbn [obind]. unfold SchedulerStats.add_performed, add_u.
    rewrite (proj2 (Z.ltb_lt _ _)) by lia. cbn [obind].
    eexists _, (Some s). split; [reflexivity|].
    assert (Hln : zlen l = zlen (l1 ++ l2) + 1) by (rewrite Hl, !length_app; cbn; lia).
    split.
    + split; [done|]. split; [split|split]; cbn; try lia.
      rewrite Hl, Forall_app, Forall_cons in Haged'. apply Forall_app. naive_solver.
    + exists l1, l2. split; [done|]. split; [done|]. split.
      * intros x Hx. rewrite Hrs. by apply Hmax.
      * rewrite Forall_forall in *. intros x Hx. specialize (Hl1 x Hx).
        assert (rank x ≤ rank s0) by (apply Hmax; rewrite Hl; set_solver). lia.
  - rewrite Hhigh in *. eexists _, None. split; [reflexivity|]. split; [|done].
    split; [done|]. split; [split|split]; cbn in *; (done || lia).
Qed.

(** The other calls leave queue and counts alone. *)
Lemma inv_kept cfg n acc clr self self' :
  inv cfg n acc clr self → config self' = config self → pending_syncs self' = pending_syncs self →
  SchedulerStats.syncs_performed (stats self') = SchedulerStats.syncs_performed (stats self) →
  SchedulerStats.syncs_dropped (stats self') = SchedulerStats.syncs_dropped (stats self) →
  SchedulerStats.critical_syncs (stats self') = SchedulerStats.critical_syncs (stats self) →
  inv cfg (S n) (acc + 0) (clr + 0) self'.
Proof.
  intros (Hcfg & (Hlen & Haged) & Hacc & Hcounts) H1 H2 H3 H4 H5.
  unfold inv. rewrite H1, H2, H3, H4, H5. split; [done|]. split; [done|]. split; lia.
Qed.
Lemma set_profile_kept self profile now self' ok :
  set_profile self profile now = Ok (self', ok) →
  config self' = config self ∧ pending_syncs self' = pending_syncs self
  ∧ SchedulerStats.syncs_performed (stats self') = SchedulerStats.syncs_performed (stats self)
  ∧ SchedulerStats.syncs_dropped (stats self') = SchedulerStats.syncs_dropped (stats self)
  ∧ SchedulerStats.critical_syncs (stats self') = SchedulerStats.critical_syncs (stats self).
Proof.
  unfold set_profile. destruct (if _ =? _ then _ else _) as [b| |]; cbn [obind]; try done.
  destruct b; cbn [negb]; [|by intros [= <- <-]]. unfold SchedulerStats.add_change, add_u.
  destruct (stats self) as [sc ad pe dr cr pc]. destruct (_ <? _); cbn [obind]; [|done].
  by intros [= <- <-].
Qed.
Lemma process_event_kept self event now self' :
  process_event self event now = Ok self' →
  config self' = config self ∧ pending_syncs self' = pending_syncs self
  ∧ SchedulerStats.syncs_performed (stats self') = SchedulerStats.syncs_performed (stats self)
  ∧ SchedulerStats.syncs_dropped (stats self') = SchedulerStats.syncs_dropped (stats self)
  ∧ SchedulerStats.critical_syncs (stats self') = SchedulerStats.critical_syncs (stats self).
Proof.
  destruct event; cbn [process_event]; unfold SchedulerStats.add_scan, SchedulerStats.add_adv, add_u;
    cbn; destruct (stats self) as [sc ad pe dr cr pc] eqn:Hst; try destruct (_ <? _);
    cbn [obind]; intros [= <-]; cbn; rewrite ?Hst; done.
Qed.

Lemma scheduler_inv profile cfg n acc clr self :
  0 < SchedulerConfig.max_pending_syncs cfg → Z.of_nat n < 2 ^ 63 →
  reachable profile cfg n acc clr self → inv cfg n acc clr self.
Proof.
  intros Hmax Hn Hr. revert Hn. induction Hr as [|n acc clr self o self' a c Hr IH Htime Hstep];
    intros Hn.
  { split; [done|]. split; [split|split]; cbn; (lia || constructor). }
  specialize (IH ltac:(lia)).
  destruct o as [peer priority size now|now|event now|now|p now|b now|enabled|now];
    cbn [step op_time] in *.
  - destruct (queue_sync_ok cfg n acc clr self peer priority size now) as (s & ok & Hq & Hi & _);
      [lia | done | done | done |]. rewrite Hq in Hstep. injection Hstep as <- <- <-.
    by rewrite Z.add_0_r.
  - destruct (next_pending_sync_ok cfg n acc clr self now) as (s & r & Hq & Hi & _); [lia | done |].
    rewrite Hq in Hstep. injection Hstep as <- <- <-. by rewrite !Z.add_0_r.
  - destruct (process_event self event now) as [s| |] eqn:He; [|done..].
    injection Hstep as <- <- <-. apply process_event_kept in He as (? & ? & ? & ? & ?).
    by eapply inv_kept.
  - injection Hstep as <- <- <-. by eapply inv_kept.
  - destruct (set_profile self p now) as [[s ok]| |] eqn:He; [|done..].
    injection Hstep as <- <- <-. apply set_profile_kept in He as (? & ? & ? & ? & ?).
    by eapply inv_kept.
  - unfold update_battery in Hstep. destruct (auto_adjust_enabled _);
      [|injection Hstep as <- <- <-; by eapply inv_kept].
    destruct (negb _); [|injection Hstep as <- <- <-; by eapply inv_kept].
    destruct (set_profile _ _ _) as [[s ok]| |] eqn:He; [|done..].
    injection Hstep as <- <- <-. apply set_profile_kept in He as (? & ? & ? & ? & ?).
    by eapply inv_kept.
  - injection Hstep as <- <- <-. by eapply inv_kept.
  - injection Hstep as <- <- <-. destruct IH as (Hcfg & (Hlen & Haged) & Hacc & Hcounts).
    split; [done|]. split; [split|split]; cbn; (lia || constructor).
Qed.

(** The queue of the scheduler is sound. Whatever it was asked before, it
    holds at most the configured number of syncs, and every sync it accepted
    was performed, dropped, cleared by a reset, or is still there. A new sync
    is accepted exactly when there is room or one of lower priority, of which
    the lowest and oldest then makes room; and the sync served next is the
    oldest of the highest priority among those that have not expired, which
    are forgotten. *)
Theorem scheduler_queue_sound profile cfg n accepted cleared self :
  0 < SchedulerConfig.max_pending_syncs cfg → Z.of_nat n < 2 ^ 63 →
  reachable profile cfg n accepted cleared self →
  zlen (pending_syncs self) ≤ SchedulerConfig.max_pending_syncs cfg
  ∧ accepted = SchedulerStats.syncs_performed (stats self)
               + SchedulerStats.syncs_dropped (stats self) + zlen (pending_syncs self) + cleared
  ∧ ∀ now, 0 ≤ now < 2 ^ 63 →
      (∀ peer priority size, ∃ self' ok,
         queue_sync self peer priority size now = Ok (self', ok)
         ∧ queued self (PendingSync.new peer priority size now) self' ok)
      ∧ ∃ self' r, next_pending_sync self now = Ok (self', r) ∧ served self now self' r.
Proof.
  intros Hmax Hn Hr. pose proof (scheduler_inv _ _ _ _ _ _ Hmax Hn Hr) as Hinv.
  split; [apply Hinv|]. split; [apply Hinv|]. intros now Hnow. split.
  - intros peer priority size.
    destruct (queue_sync_ok _ _ _ _ self peer priority size now Hn Hmax Hinv Hnow)
      as (self' & ok & H & _ & Hq). by exists self', ok.
  - destruct (next_pending_sync_ok _ _ _ _ self now Hn Hinv) as (self' & r & H & _ & Hs).
    by exists self', r.
Qed.

Lemma scheduler_queue_sound_witness :
  ∃ self, reachable RadioProfile.Balanced (SchedulerConfig.mk 1 500 10000) 1 1 0 self
    ∧ ∃ self' ok, queue_sync self 9 SyncPriority.High 10 5 = Ok (self', ok) ∧ ok = true
      ∧ map PendingSync.peer_id (pending_syncs self') = [9].
Proof.
  set (start := new RadioProfile.Balanced (SchedulerConfig.mk 1 500 10000)).
  set (self := set_queue start [PendingSync.new 7 SyncPriority.Low 10 4] (stats start)).
  assert (Hr : reachable RadioProfile.Balanced (SchedulerConfig.mk 1 500 10000) 1 1 0 self).
  { apply (reachable_step _ _ 0 0 0 start (Queue 7 SyncPriority.Low 10 4) self 1 0);
      [apply reachable_new | cbn; lia | reflexivity]. }
  exists self. split; [exact Hr|].
  destruct (scheduler_queue_sound _ (SchedulerConfig.mk 1 500 10000) 1 1 0 self ltac:(cbn; lia)
    ltac:(lia) Hr) as (_ & _ & Hnow).
  destruct (Hnow 5 ltac:(lia)) as [Hq _].
  destruct (Hq 9 SyncPriority.High 10) as (self' & ok & H & _). exists self', ok.
  split; [exact H|]. vm_compute in H. injection H as <- <-. by split.
Defined.

(** *** The radio cycle *)

(** A driver that is polled at a time asks for the next event and processes
    it until there is none, the radio sleeps, or it is time to sync. *)
Fixpoint poll (fuel : nat) (self : t) (now : Z) : outcome (t * bool) :=
  match fuel with
  | O => Ok (self, false)
  | S fuel =>
      let! event := next_event self now in
      match event with
      | None => Ok (self, false)
      | Some (SchedulerEvent.SyncNow, _) =>
          let! self := process_event self SchedulerEvent.SyncNow now in Ok (self, true)
      | Some (SchedulerEvent.EnterSleep, _) =>
          let! self := process_event self SchedulerEvent.EnterSleep now in Ok (self, false)
      | Some (event, _) => let! self := process_event self event now in poll fuel self now
      end
  end.

(** The radio as it is between two syncs. *)
Definition cycling (self : t) (now : Z) : Prop :=
  (state self = RadioState.Idle ∨ state self = RadioState.Scanning
   ∨ state self = RadioState.Advertising)
  ∧ last_state_change self ≤ now
  ∧ (0 ≤ RadioTiming.scan_window_ms (timing self) < 2 ^ 32
     ∧ 0 < RadioTiming.scan_interval_ms (timing self) < 2 ^ 32
     ∧ 0 < RadioTiming.adv_interval_ms (timing self) < 2 ^ 32)
  ∧ SchedulerStats.adv_events (stats self) < 2 ^ 63.

Section cycle.
Context (now : Z) (Hnow : 0 ≤ now < 2 ^ 63).

(** What stays when the radio is only cycled. *)
Definition same_queue (self self' : t) : Prop :=
  pending_syncs self' = pending_syncs self ∧ timing self' = timing self
  ∧ SchedulerStats.adv_events (stats self') = SchedulerStats.adv_events (stats self).

Lemma poll_critical fuel self :
  has_critical_sync self = true → ∃ self', poll (S fuel) self now = Ok (self', true).
Proof. intros H. cbn. unfold next_event. rewrite H. cbn. by eexists. Qed.

Lemma poll_sync fuel self :
  state self = RadioState.Idle → pending_syncs self ≠ [] →
  now < next_scan_time self → now < next_adv_time self →
  ∃ self', poll (S fuel) self now = Ok (self', true).
Proof.
  intros Hs Hp H1 H2. cbn. unfold next_event. destruct (has_critical_sync self); [by eexists|].
  rewrite Hs, (proj2 (Z.leb_gt _ _)), (proj2 (Z.leb_gt _ _)), bool_decide_eq_false_2 by done.
  by eexists.
Qed.
Definition cycles (event : SchedulerEvent.t) : bool :=
  match event with SchedulerEvent.SyncNow | SchedulerEvent.EnterSleep => false | _ => true end.
Lemma poll_event fuel self event at_time self' :
  next_event self now = Ok (Some (event, at_time)) → cycles event = true →
  process_event self event now = Ok self' → poll (S fuel) self now = poll fuel self' now.
Proof. intros H1 H2 H3. cbn [poll]. rewrite H1. cbn [obind]. by destruct event; rewrite ?H3. Qed.
Lemma poll_none fuel self : next_event self now = Ok None → poll (S fuel) self now = Ok (self, false).
Proof. intros H. cbn [poll]. by rewrite H. Qed.

(** An advertisement that starts or is under way ends at once. *)
Lemma poll_advertising fuel self :
  state self = RadioState.Advertising → pending_syncs self ≠ [] →
  0 < RadioTiming.adv_interval_ms (timing self) < 2 ^ 32 → now < next_scan_time self →
  ∃ self', poll (S (S fuel)) self now = Ok (self', true).
Proof.
  intros Hs Hp Ha H1.
  destruct (has_critical_sync self) eqn:Hc; [by apply poll_critical|].
  erewrite poll_event; [|unfold next_event; by rewrite Hc, Hs | done
    | cbn; by rewrite add_u_small by lia]. apply poll_sync; cbn; (done || lia).
Qed.
Lemma poll_idle_no_scan fuel self :
  state self = RadioState.Idle → pending_syncs self ≠ [] → cycling self now →
  now < next_scan_time self →
  ∃ self', poll (S (S (S fuel))) self now = Ok (self', true).
Proof.
  intros Hs Hp Hcyc H1. pose proof Hcyc as (_ & _ & (Hw & Hi & Ha) & Hae).
  destruct (has_critical_sync self) eqn:Hc; [by apply poll_critical|].
  destruct (Z.leb_spec (next_adv_time self) now); [|by apply poll_sync].
  destruct (stats self) as [sc ad pe dr cr pc] eqn:Hst. cbn in Hae.
  erewrite poll_event;
    [|unfold next_event;
      by rewrite Hc, Hs, (proj2 (Z.leb_gt _ _)), (proj2 (Z.leb_le _ _)) by done
     | done | cbn; rewrite Hst; cbn; by rewrite add_u_small by lia].
  by apply poll_advertising.
Qed.
(** A scan window that is over ends, and then the sync comes. *)
Lemma poll_scanned fuel self :
  state self = RadioState.Scanning → pending_syncs self ≠ [] → cycling self now →
  last_state_change self + RadioTiming.scan_window_ms (timing self) ≤ now →
  ∃ self', poll (S (S (S (S fuel)))) self now = Ok (self', true).
Proof.
  intros Hs Hp Hcyc H1. pose proof Hcyc as (_ & Hlast & (Hw & Hi & Ha) & Hae).
  destruct (has_critical_sync self) eqn:Hc; [by apply poll_critical|].
  erewrite poll_event;
    [|unfold next_event; rewrite Hc, Hs, add_u_small by lia; cbn [obind];
      by rewrite (proj2 (Z.leb_le _ _)) by done
     | done | cbn; by rewrite add_u_small by lia].
  apply poll_idle_no_scan; [done | done | | cbn; lia].
  split; [by left|]. split; [cbn; lia|]. split; [done|]. done.
Qed.
(** One poll syncs, or leaves the radio in a scan window begun by then. *)
Lemma poll_idle fuel self :
  state self = RadioState.Idle → pending_syncs self ≠ [] → cycling self now →
  SchedulerStats.scan_windows (stats self) < 2 ^ 63 →
  ∃ self' synced, poll (S (S (S (S (S fuel))))) self now = Ok (self', synced)
    ∧ (synced = true ∨ state self' = RadioState.Scanning ∧ last_state_change self' = now
       ∧ same_queue self self').
Proof.
  intros Hs Hp Hcyc Hsw. pose proof Hcyc as (_ & Hlast & (Hw & Hi & Ha) & Hae).
  destruct (Z.leb_spec (next_scan_time self) now) as [Hdue|Hnot].
  2: { destruct (poll_idle_no_scan (S (S fuel)) self Hs Hp Hcyc Hnot) as (s & ->).
       exists s, true. auto. }
  destruct (has_critical_sync self) eqn:Hc.
  { destruct (poll_critical (S (S (S (S fuel)))) self Hc) as (s & ->). exists s, true. auto. }
  destruct (stats self) as [sc ad pe dr cr pc] eqn:Hst. cbn in Hsw, Hae.
  erewrite poll_event;
    [|unfold next_event; by rewrite Hc, Hs, (proj2 (Z.leb_le _ _)) by done
     | done | cbn; rewrite Hst; cbn; by rewrite add_u_small by lia].
  set (self1 := set_stats _ _).
  assert (Hcyc1 : cycling self1 now).
  { split; [by right; left|]. split; [done|]. split; [done|]. cbn. lia. }
  assert (Hc1 : has_critical_sync self1 = false) by done.
  destruct (Z.leb_spec (last_state_change self1 + RadioTiming.scan_window_ms (timing self1)) now)
    as [Hover|Hopen].
  - destruct (poll_scanned fuel self1) as (s & ->); try done. exists s, true. auto.
  - rewrite poll_none.
    2: { unfold next_event. rewrite Hc1. change (state self1) with RadioState.Scanning. cbn beta iota.
         rewrite add_u_small by (cbn; lia). cbn [obind].
         by rewrite (proj2 (Z.leb_gt _ _)) by done. }
    exists self1, false. split; [done|]. right. split; [done|]. split; [done|].
    unfold same_queue. cbn. rewrite Hst. cbn. split_and!; (done || lia).
Qed.
Lemma poll_first fuel self :
  pending_syncs self ≠ [] → cycling self now →
  SchedulerStats.scan_windows (stats self) < 2 ^ 63 →
  ∃ self' synced, poll (S (S (S (S (S (S fuel)))))) self now = Ok (self', synced)
    ∧ (synced = true ∨ state self' = RadioState.Scanning ∧ last_state_change self' ≤ now
       ∧ same_queue self self').
Proof.
  intros Hp Hcyc Hsw. pose proof Hcyc as ([Hs|[Hs|Hs]] & Hlast & (Hw & Hi & Ha) & Hae).
  - destruct (poll_idle (S fuel) self Hs Hp Hcyc Hsw) as (s & b & H & Hb). exists s, b.
    split; [exact H|]. destruct Hb as [->|(? & -> & ?)]; [by left|].
    right. split; [done|]. split; [lia | done].
  - destruct (Z.leb_spec (last_state_change self + RadioTiming.scan_window_ms (timing self)) now)
      as [Hover|Hopen].
    { destruct (poll_scanned (S (S fuel)) self Hs Hp Hcyc Hover) as (s & ->). exists s, true. auto. }
    destruct (has_critical_sync self) eqn:Hc.
    { destruct (poll_critical (S (S (S (S (S fuel))))) self Hc) as (s & ->). exists s, true. auto. }
    rewrite poll_none.
    2: { unfold next_event. rewrite Hc, Hs, add_u_small by lia. cbn [obind].
         by rewrite (proj2 (Z.leb_gt _ _)) by done. }
    exists self, false. split; [done|]. right.
    split; [done|]. split; [done|]. unfold same_queue. split_and!; (done || lia).
  - destruct (has_critical_sync self) eqn:Hc.
    { destruct (poll_critical (S (S (S (S (S fuel))))) self Hc) as (s & ->). exists s, true. auto. }
    erewrite poll_event; [|unfold next_event; by rewrite Hc, Hs | done
      | cbn; by rewrite add_u_small by lia].
    set (self1 := set_radio _ _ _ _ _).
    destruct (poll_idle fuel self1) as (s & b & H & Hb); [done | done | | done |].
    { split; [by left|]. split; [cbn; lia|]. done. }
    exists s, b. split; [exact H|]. destruct Hb as [->|(? & -> & ?)]; [by left|].
    right. split; [done|]. split; [lia | done].
Qed.
End cycle.

(** A queued sync is reached. With positive intervals, whatever the radio is
    doing between syncs, a driver that processes the events due at a poll
    comes to sync at that poll, or at the next one if it comes a scan window
    later; for a critical sync at the first, as the first event. *)
Theorem queued_sync_is_reached self t1 t2 :
  pending_syncs self ≠ [] → cycling self t1 →
  SchedulerStats.scan_windows (stats self) < 2 ^ 63 →
  0 ≤ t1 → t1 + RadioTiming.scan_window_ms (timing self) ≤ t2 < 2 ^ 63 →
  ∃ self1 synced1, poll 6 self t1 = Ok (self1, synced1)
    ∧ (synced1 = false → ∃ self2, poll 6 self1 t2 = Ok (self2, true))
    ∧ (has_critical_sync self = true →
       synced1 = true ∧ next_event self t1 = Ok (Some (SchedulerEvent.SyncNow, t1))).
Proof.
  intros Hp Hcyc Hsw H1 H2. pose proof Hcyc as (_ & _ & Htiming & Hae).
  destruct (poll_first t1 ltac:(lia) 0 self Hp Hcyc Hsw) as (self1 & b & Hpoll & Hb).
  exists self1, b. split; [exact Hpoll|]. split.
  - intros ->. destruct Hb as [?|(Hs & Hlast & Hq & Ht & Hc)]; [done|].
    destruct (poll_scanned t2 ltac:(lia) 2 self1) as (self2 & H); [done | by rewrite Hq | | |].
    + split; [by right; left|]. split; [lia|]. rewrite Ht, Hc. done.
    + rewrite Ht. lia.
    + by exists self2.
  - intros Hc. destruct (poll_critical t1 5 self Hc) as (s & Hpc).
    rewrite Hpc in Hpoll. injection Hpoll as <- <-. split; [done|].
    unfold next_event. by rewrite Hc.
Qed.

Definition demo_scheduler : t :=
  set_queue (with_profile RadioProfile.LowPower) [PendingSync.new 7 SyncPriority.Normal 64 0]
    SchedulerStats.default_stats.
Lemma queued_sync_is_reached_witness :
  ∃ self1 synced1, poll 6 demo_scheduler 10 = Ok (self1, synced1)
    ∧ synced1 = false ∧ ∃ self2, poll 6 self1 150 = Ok (self2, true).
Proof.
  destruct (queued_sync_is_reached demo_scheduler 10 150) as (self1 & b & H1 & H2 & _).
  - discriminate.
  - split; [by left|]. split; [discriminate|]. repeat split; discriminate.
  - reflexivity.
  - discriminate.
  - split; [discriminate | reflexivity].
  - exists self1, b. split; [exact H1|]. vm_compute in H1. injection H1 as <- <-.
    split; [reflexivity|]. by apply H2.
Defined.

(** A driver that processes one event per poll, a scan interval apart, only
    ever scans: the queued sync waits for ever. *)
Fixpoint one_event (polls : nat) (self : t) (now period : Z) : list SchedulerEvent.t :=
  match polls with
  | O => []
  | S polls =>
      match next_event self now with
      | Ok (Some (event, _)) =>
          match process_event self event now with
          | Ok self => event :: one_event polls self (now + period) period
          | _ => []
          end
      | _ => one_event polls self (now + period) period
      end
  end.
Example one_event_per_poll_starves :
  let self := set_queue (with_profile RadioProfile.Aggressive)
    [PendingSync.new 7 SyncPriority.Normal 64 0] SchedulerStats.default_stats in
  one_event 100 self 0 100
  = concat (replicate 50 [SchedulerEvent.StartScan; SchedulerEvent.StopScan]).
Proof. vm_compute. reflexivity. Qed.
(** A critical sync that has expired still makes the radio sync, with nothing
    to send. *)
Example expired_critical_sync :
  let self := set_queue (with_profile RadioProfile.LowPower)
    [PendingSync.new 7 SyncPriority.Critical 64 0] SchedulerStats.default_stats in
  next_event self 6000 = Ok (Some (SchedulerEvent.SyncNow, 6000))
  ∧ ∃ self', next_pending_sync self 6000 = Ok (self', None).
Proof. split; [reflexivity|]. eexists. vm_compute. reflexivity. Qed.
(** A step down for a low battery within the cooldown is not made up for. *)
Example low_battery_in_cooldown :
  ∃ s1 s2, update_battery (with_profile RadioProfile.Aggressive) (BatteryState.new 15 false) 1000
      = Ok s1
    ∧ profile s1 = RadioProfile.Balanced
    ∧ update_battery s1 (BatteryState.new 5 false) 2000 = Ok s2
    ∧ profile s2 = RadioProfile.Balanced.
Proof. do 2 eexists. split; [reflexivity|]. split; [reflexivity|]. split; reflexivity. Qed.

(** A battery that is not charging never gets a hungrier profile. *)
Lemma suggested_profile_saves battery current :
  let p := BatteryState.suggested_profile battery current in
  p = current
  ∨ BatteryState.is_low battery = true
    ∧ (p = RadioProfile.LowPower ∨ p = RadioProfile.Balanced ∧ current = RadioProfile.Aggressive)
  ∨ BatteryState.is_critical battery = true ∧ p = RadioProfile.LowPower.
Proof.
  cbv zeta. unfold BatteryState.suggested_profile.
  destruct (BatteryState.is_charging battery); [by left|].
  destruct (BatteryState.is_critical battery); [by right; right|].
  destruct (BatteryState.is_low battery); [|by left]. right; left. split; [done|].
  destruct current; auto.
Qed.

End PowerProperties.
