(* ===== verification/Clock.v ===== *)
(** * Instants, durations and tables of peers: what the managers of
    connections share.

    A [Duration] and an [Instant] are numbers of nanoseconds.  An operation
    that reads the clock takes the reading [now] as an argument; the readings
    of one call are taken to be equal.  An address is the UTF-8 bytes of the
    platform's string. *)

From stdpp Require Import base numbers list gmap.
From S2P Require Import Prelude.
Open Scope Z_scope.
Open Scope peat_scope.

Module Duration.

Definition max : Z := (2 ^ 64 - 1) * 10 ^ 9 + 999999999.
Definition from_secs (s : Z) : Z := s * 10 ^ 9.
Definition from_millis (ms : Z) : Z := ms * 10 ^ 6.
Definition as_millis (d : Z) : Z := d / 10 ^ 6.
(** [Instant::elapsed]: zero when the instant is in the future. *)
Definition elapsed (now since : Z) : Z := saturating_sub now since.

End Duration.

(** [filter_map] with a closure that may panic, and [collect]. *)
Fixpoint filter_map {A B} (f : A → outcome (option B)) (l : list A) : outcome (list B) :=
  match l with
  | [] => Ok []
  | a :: l =>
      let! b := f a in
      let! bs := filter_map f l in
      Ok (match b with Some b => b :: bs | None => bs end)
  end.

Lemma filter_map_ok {A B} (f : A → outcome (option B)) (g : A → option B) l :
  (∀ a, a ∈ l → f a = Ok (g a)) → filter_map f l = Ok (omap g l).
Proof.
  induction l as [|a l IH]; intros Hf; [done|]. cbn [filter_map omap list_omap].
  rewrite Hf by set_solver. cbn [obind]. rewrite IH by set_solver. cbn [obind].
  by destruct (g a).
Qed.

(** The keys selected from a table, each once. *)
Section selected.
Context {K V : Type} `{MapOrder K} (P : K → V → bool).

Definition keys_where (m : gmap K V) : list K :=
  omap (λ '(k, v), if P k v then Some k else None) (map_iter m).

Lemma elem_of_keys_where m k : k ∈ keys_where m ↔ ∃ v, m !! k = Some v ∧ P k v = true.
Proof.
  unfold keys_where. rewrite list_elem_of_omap. split.
  - intros ([k' v] & Hin%elem_of_map_iter & Hs). destruct (P k' v) eqn:HP; simplify_eq. eauto.
  - intros (v & Hk & HP). exists (k, v). rewrite HP. by rewrite elem_of_map_iter.
Qed.
Lemma omap_keys_sub {B} (f : K * V → option B) (key : B → K) l :
  (∀ kv b, f kv = Some b → key b = kv.1) → key <$> omap f l `sublist_of` l.*1.
Proof.
  intros Hf. induction l as [|kv l IH]; [done|]. cbn. destruct (f kv) as [b|] eqn:Hb; cbn.
  - rewrite (Hf _ _ Hb). by apply sublist_skip.
  - by apply sublist_cons.
Qed.
Lemma keys_where_NoDup m : NoDup (keys_where m).
Proof.
  eapply sublist_NoDup; [apply (map_iter_NoDup_keys m)|].
  rewrite <-(list_fmap_id (keys_where m)). unfold keys_where.
  apply (omap_keys_sub _ id). intros [k v] b. cbn. destruct (P k v); naive_solver.
Qed.
End selected.

(** Sequences of timed events under a clock that never goes back. *)
Section timed.
Context {E : Type}.

Fixpoint ordered (t : Z) (evs : list (Z * E)) : Prop :=
  match evs with [] => True | (now, _) :: evs => t ≤ now ∧ ordered now evs end.
Fixpoint last_time (t : Z) (evs : list (Z * E)) : Z :=
  match evs with [] => t | (now, _) :: evs => last_time now evs end.
#[global] Instance ordered_dec t evs : Decision (ordered t evs).
Proof. revert t. induction evs as [|[now ev] evs IH]; intros t; cbn; apply _. Defined.

(** A state machine whose steps keep an invariant that later times preserve
    keeps it along every ordered sequence. *)
Lemma timed_invariant {S} (Inv : Z → S → Prop) (step : S → Z * E → S) :
  (∀ t t' s, t ≤ t' → Inv t s → Inv t' s) →
  (∀ now s ev, Inv now s → Inv now (step s (now, ev))) →
  ∀ evs t s, Inv t s → ordered t evs → Inv (last_time t evs) (foldl step s evs).
Proof.
  intros Hmono Hstep. induction evs as [|[now ev] evs IH]; intros t s Hs Ho; [done|].
  destruct Ho as [Hle Ho]. cbn [foldl last_time]. apply IH; [|done]. eauto.
Qed.
End timed.
