(* ===== verification/Reconnect.v ===== *)
(** * The reconnection manager of src/src/reconnect.rs: which lost peers are
    due for another attempt, with exponential backoff. *)

From stdpp Require Import base numbers list gmap.
From S2P Require Import Prelude Clock.
Open Scope Z_scope.
Open Scope peat_scope.

Module ReconnectionConfig.

Record t := mk {
  base_delay : Z; max_delay : Z; max_attempts : Z; check_interval : Z;
  use_flat_delay : bool; reset_on_exhaustion : bool
}.

Definition default_config : t :=
  mk (Duration.from_secs 2) (Duration.from_secs 60) 10 (Duration.from_secs 5) false false.
Definition new (base_delay max_delay max_attempts check_interval : Z) : t :=
  mk base_delay max_delay max_attempts check_interval false false.
Definition fast : t :=
  mk (Duration.from_millis 500) (Duration.from_secs 5) 5 (Duration.from_secs 1) false false.
Definition conservative : t :=
  mk (Duration.from_secs 5) (Duration.from_secs 120) 5 (Duration.from_secs 10) false false.
Definition kotlin_normal : t :=
  mk (Duration.from_millis 1000) (Duration.from_millis 15000) 20 (Duration.from_secs 5) false false.
Definition kotlin_high_priority : t :=
  mk (Duration.from_millis 1000) (Duration.from_millis 15000) 20 (Duration.from_secs 5) true true.

End ReconnectionConfig.

Module PeerReconnectionState.
Record t := mk { attempts : Z; last_attempt : Z; disconnected_at : Z }.
Definition new (now : Z) : t := mk 0 now now.
End PeerReconnectionState.

Module ReconnectionStatus.
Inductive t :=
| Ready | Waiting (remaining : Z) | Exhausted (attempts : Z) | NotTracked.
#[global] Instance reconnection_status_eq_dec : EqDecision t.
Proof. solve_decision. Defined.
End ReconnectionStatus.

Module PeerReconnectionStats.
Record t := mk {
  attempts : Z; max_attempts : Z; disconnected_duration : Z; next_attempt_delay : Z
}.
End PeerReconnectionStats.

Module ReconnectionManager.
Import ReconnectionConfig PeerReconnectionState.

Record t := mk {
  config : ReconnectionConfig.t;
  peers : gmap (list Z) PeerReconnectionState.t
}.

Definition new (cfg : ReconnectionConfig.t) : t := mk cfg ∅.
Definition with_defaults : t := new default_config.

Definition track_disconnection (self : t) (address : list Z) (now : Z) : t :=
  match peers self !! address with
  | Some _ => self
  | None => mk (config self) (<[address := PeerReconnectionState.new now]> (peers self))
  end.

Definition is_tracked (self : t) (address : list Z) : bool :=
  bool_decide (is_Some (peers self !! address)).

Definition calculate_delay (self : t) (attempts : Z) : outcome Z :=
  if use_flat_delay (config self) then Ok (base_delay (config self))
  else
    let multiplier := Z.shiftl 1 (Z.min attempts 30) in
    let! delay_ms := mul_u 64 (wrap 64 (Duration.as_millis (base_delay (config self)))) multiplier in
    let max_ms := wrap 64 (Duration.as_millis (max_delay (config self))) in
    Ok (Duration.from_millis (Z.min delay_ms max_ms)).

Definition get_status (self : t) (address : list Z) (now : Z) : outcome ReconnectionStatus.t :=
  match peers self !! address with
  | None => Ok ReconnectionStatus.NotTracked
  | Some state =>
      if max_attempts (config self) <=? attempts state then
        if reset_on_exhaustion (config self) then Ok ReconnectionStatus.Ready
        else Ok (ReconnectionStatus.Exhausted (attempts state))
      else if attempts state =? 0 then Ok ReconnectionStatus.Ready
      else
        let! delay := calculate_delay self (attempts state) in
        let elapsed := Duration.elapsed now (last_attempt state) in
        Ok (if delay <=? elapsed then ReconnectionStatus.Ready
            else ReconnectionStatus.Waiting (delay - elapsed))
  end.

(** The first loop of [get_peers_to_reconnect]. *)
Definition reset_exhausted (self : t) (now : Z) : t :=
  if reset_on_exhaustion (config self) then
    let max := max_attempts (config self) in
    mk (config self)
      ((λ state, if max <=? attempts state
                 then PeerReconnectionState.mk 0 now (disconnected_at state) else state)
       <$> peers self)
  else self.

(** The closure of its second. *)
Definition due_peer (self : t) (now : Z) (entry : list Z * PeerReconnectionState.t)
    : outcome (option (list Z)) :=
  let '(address, state) := entry in
  if max_attempts (config self) <=? attempts state then Ok None
  else if attempts state =? 0 then Ok (Some address)
  else
    let! delay := calculate_delay self (attempts state) in
    Ok (if delay <=? Duration.elapsed now (last_attempt state) then Some address else None).

Definition get_peers_to_reconnect `{!MapOrder (list Z)} (self : t) (now : Z)
    : outcome (t * list (list Z)) :=
  let self := reset_exhausted self now in
  let! due := filter_map (due_peer self now) (map_iter (peers self)) in
  Ok (self, due).

(** The delay computed at the end is only logged. *)
Definition record_attempt (self : t) (address : list Z) (now : Z) : outcome t :=
  match peers self !! address with
  | Some state =>
      let! n := add_u 32 (attempts state) 1 in
      let self := mk (config self)
        (<[address := PeerReconnectionState.mk n now (disconnected_at state)]> (peers self)) in
      let! _next_delay := calculate_delay self n in
      Ok self
  | None => Ok self
  end.

Definition on_connection_success (self : t) (address : list Z) : t :=
  mk (config self) (delete address (peers self)).
Definition stop_tracking (self : t) (address : list Z) : t :=
  mk (config self) (delete address (peers self)).
Definition clear (self : t) : t := mk (config self) ∅.
Definition tracked_count (self : t) : Z := Z.of_nat (size (peers self)).

Definition get_peer_stats (self : t) (address : list Z) (now : Z)
    : outcome (option PeerReconnectionStats.t) :=
  match peers self !! address with
  | None => Ok None
  | Some state =>
      let! next_attempt_delay :=
        if max_attempts (config self) <=? attempts state then Ok Duration.max
        else if attempts state =? 0 then Ok 0
        else calculate_delay self (attempts state) in
      Ok (Some (PeerReconnectionStats.mk (attempts state) (max_attempts (config self))
                  (Duration.elapsed now (disconnected_at state)) next_attempt_delay))
  end.
Definition check_interval (self : t) : Z := ReconnectionConfig.check_interval (config self).

End ReconnectionManager.

(** ** The client's loop and the schedule it follows

    The loop of the module's documentation: peers that disconnect are
    tracked; at each poll every listed peer is recorded and tried; a success
    or a removal ends the tracking. *)
Module ReconnectLoop.
Import ReconnectionManager.

Inductive event :=
| Track (address : list Z)
| Poll
| Connected (address : list Z)
| Removed (address : list Z).

Fixpoint record_all (self : t) (now : Z) (l : list (list Z)) : outcome t :=
  match l with
  | [] => Ok self
  | address :: l => let! self := record_attempt self address now in record_all self now l
  end.

Definition step `{!MapOrder (list Z)} (self : t) (ev : Z * event) : outcome t :=
  let '(now, ev) := ev in
  match ev with
  | Track address => Ok (track_disconnection self address now)
  | Poll =>
      let! r := get_peers_to_reconnect self now in
      let '(self, due) := r in
      record_all self now due
  | Connected address => Ok (on_connection_success self address)
  | Removed address => Ok (stop_tracking self address)
  end.

Fixpoint run `{!MapOrder (list Z)} (self : t) (evs : list (Z * event)) : outcome t :=
  match evs with
  | [] => Ok self
  | ev :: evs => let! self := step self ev in run self evs
  end.

(** The specification keeps, for each tracked peer, the times of the attempts
    of the current cycle, the latest first. *)
Section schedule.
Context (cfg : ReconnectionConfig.t).

Definition backoff (n : Z) : Z :=
  if ReconnectionConfig.use_flat_delay cfg then ReconnectionConfig.base_delay cfg
  else Duration.from_millis
         (Z.min (Duration.as_millis (ReconnectionConfig.base_delay cfg) * 2 ^ Z.min n 30)
            (Duration.as_millis (ReconnectionConfig.max_delay cfg))).
Definition renew (times : list Z) : list Z :=
  if ReconnectionConfig.reset_on_exhaustion cfg
     && (ReconnectionConfig.max_attempts cfg <=? zlen times) then [] else times.
Definition due (now : Z) (times : list Z) : bool :=
  match times with
  | [] => true
  | last :: _ =>
      (zlen times <? ReconnectionConfig.max_attempts cfg) && (backoff (zlen times) <=? now - last)
  end.
Definition attempt (now : Z) (times : list Z) : list Z :=
  let times := renew times in if due now times then now :: times else times.
Definition spec_step (h : gmap (list Z) (list Z)) (ev : Z * event) : gmap (list Z) (list Z) :=
  match ev.2 with
  | Track address => if bool_decide (is_Some (h !! address)) then h else <[address := []]> h
  | Poll => attempt ev.1 <$> h
  | Connected address | Removed address => delete address h
  end.
Definition spec_status (now : Z) (h : option (list Z)) : ReconnectionStatus.t :=
  match h with
  | None => ReconnectionStatus.NotTracked
  | Some times =>
      match renew times with
      | [] => ReconnectionStatus.Ready
      | (last :: _) as times =>
          if ReconnectionConfig.max_attempts cfg <=? zlen times
          then ReconnectionStatus.Exhausted (zlen times)
          else if backoff (zlen times) <=? now - last then ReconnectionStatus.Ready
          else ReconnectionStatus.Waiting (backoff (zlen times) - (now - last))
      end
  end.

(** No more attempts than allowed, and each at least the backoff after the
    one before. *)
Fixpoint spaced (times : list Z) : Prop :=
  match times with
  | [] => True
  | t :: rest =>
      match rest with [] => True | t' :: _ => backoff (zlen rest) ≤ t - t' end ∧ spaced rest
  end.

(** Configurations for which the delay fits 64 bits. *)
Definition config_ok : Prop :=
  1 ≤ ReconnectionConfig.max_attempts cfg ∧ in_u 32 (ReconnectionConfig.max_attempts cfg)
  ∧ 0 ≤ ReconnectionConfig.base_delay cfg ∧ 0 ≤ ReconnectionConfig.max_delay cfg
  ∧ in_u 64 (Duration.as_millis (ReconnectionConfig.max_delay cfg))
  ∧ Duration.as_millis (ReconnectionConfig.base_delay cfg) * 2 ^ 30 < 2 ^ 64.
#[global] Instance config_ok_dec : Decision config_ok.
Proof. unfold config_ok. apply _. Defined.

End schedule.

End ReconnectLoop.

(** * Theorems *)

Module ReconnectProofs.
Import ReconnectionManager ReconnectLoop.

Section proofs.
Context `{!MapOrder (list Z)} (cfg : ReconnectionConfig.t) (Hcfg : config_ok cfg).
Implicit Types (m : ReconnectionManager.t) (st : PeerReconnectionState.t)
  (times : list Z) (h : gmap (list Z) (list Z)).

Lemma calculate_delay_ok m n :
  config m = cfg → 0 ≤ n → calculate_delay m n = Ok (backoff cfg n).
Proof.
  intros Hm Hn. unfold calculate_delay, backoff. rewrite Hm.
  destruct Hcfg as (_ & _ & Hb & Hl & Hu & Hmul).
  destruct (ReconnectionConfig.use_flat_delay cfg); [done|].
  assert (0 ≤ Duration.as_millis (ReconnectionConfig.base_delay cfg))
    by (unfold Duration.as_millis; by apply Z.div_pos).
  rewrite !wrap_small by lia.
  rewrite Z.shiftl_mul_pow2, Z.mul_1_l by lia.
  assert (2 ^ Z.min n 30 ≤ 2 ^ 30) by (apply Z.pow_le_mono_r; lia).
  unfold mul_u. rewrite (proj2 (Z.ltb_lt _ _)) by nia. done.
Qed.

(** What the manager knows of a peer, and what the history says. *)
Definition peer_rel (now : Z) (st : PeerReconnectionState.t) (times : list Z) : Prop :=
  PeerReconnectionState.attempts st = zlen times
  ∧ (∀ last, head times = Some last → PeerReconnectionState.last_attempt st = last ∧ last ≤ now)
  ∧ zlen times ≤ ReconnectionConfig.max_attempts cfg ∧ spaced cfg times.
Definition follows (now : Z) (m : ReconnectionManager.t) (h : gmap (list Z) (list Z)) : Prop :=
  config m = cfg ∧ map_relation (λ _, peer_rel now) (λ _ _, False) (λ _ _, False) (peers m) h.

Lemma follows_lookup now m h a :
  follows now m h →
  (peers m !! a = None ∧ h !! a = None)
  ∨ ∃ st times, peers m !! a = Some st ∧ h !! a = Some times ∧ peer_rel now st times.
Proof.
  intros [_ Hr]. specialize (Hr a). destruct (peers m !! a), (h !! a); cbn in Hr; naive_solver.
Qed.
Lemma follows_intro now m h :
  config m = cfg →
  (∀ a, (peers m !! a = None ∧ h !! a = None)
        ∨ ∃ st times, peers m !! a = Some st ∧ h !! a = Some times ∧ peer_rel now st times) →
  follows now m h.
Proof.
  intros Hm Hr. split; [done|]. intros a.
  destruct (Hr a) as [[-> ->]|(st & times & -> & -> & ?)]; done.
Qed.
Lemma peer_rel_later now now' st times : now ≤ now' → peer_rel now st times → peer_rel now' st times.
Proof. unfold peer_rel. naive_solver lia. Qed.
Lemma follows_later now now' m h : now ≤ now' → follows now m h → follows now' m h.
Proof.
  intros Hn Hf. apply follows_intro; [apply Hf|]. intros a.
  destruct (follows_lookup _ _ _ a Hf) as [?|(st & times & ? & ? & ?)]; [by left|right].
  eauto 8 using peer_rel_later.
Qed.

Lemma reset_follows now m h :
  follows now m h → follows now (reset_exhausted m now) (renew cfg <$> h).
Proof.
  intros Hf. pose proof Hf as [Hm _]. unfold reset_exhausted, renew. rewrite Hm.
  apply follows_intro; [by destruct ReconnectionConfig.reset_on_exhaustion|]. intros a.
  rewrite lookup_fmap.
  destruct (follows_lookup _ _ _ a Hf) as [[Ha ->]|(st & times & Ha & -> & Hp)];
    destruct ReconnectionConfig.reset_on_exhaustion; cbn [peers andb];
    rewrite ?lookup_fmap, Ha; cbn; [by left..| |right; eauto].
  right. destruct Hp as (Hat & Hlast & Hmax & Hsp). rewrite Hat.
  destruct (ReconnectionConfig.max_attempts cfg <=? zlen times); eexists _, _; (split_and!; [done..|]).
  - destruct Hcfg as (? & _). split_and!; cbn; (done || lia).
  - done.
Qed.

(** Below, the peer is past the renewal. *)
Lemma due_peer_ok now m st times a :
  config m = cfg → peer_rel now st times →
  due_peer m now (a, st) = Ok (if due cfg now times then Some a else None).
Proof.
  intros Hm (Hat & Hlast & Hmax & _). unfold due_peer. rewrite Hm, Hat.
  destruct Hcfg as (Hpos & _). destruct times as [|last rest]; cbn [due head] in *.
  { change (zlen []) with 0. rewrite (proj2 (Z.leb_gt _ _)) by lia. done. }
  destruct (Hlast _ eq_refl) as [-> Hle]. assert (1 ≤ zlen (last :: rest)) by len.
  destruct (Z.leb_spec (ReconnectionConfig.max_attempts cfg) (zlen (last :: rest)));
    [by rewrite (proj2 (Z.ltb_ge _ _)) by lia|].
  rewrite (proj2 (Z.eqb_neq _ _)), (proj2 (Z.ltb_lt _ _)) by lia.
  rewrite calculate_delay_ok by (done || lia). cbn [obind andb].
  unfold Duration.elapsed, saturating_sub. by rewrite Z.max_r by lia.
Qed.

(** The listed peers, as a function of the table. *)
Definition due_state (now : Z) (st : PeerReconnectionState.t) : bool :=
  (PeerReconnectionState.attempts st <? ReconnectionConfig.max_attempts cfg)
  && ((PeerReconnectionState.attempts st =? 0)
      || (backoff cfg (PeerReconnectionState.attempts st)
          <=? Duration.elapsed now (PeerReconnectionState.last_attempt st))).

Lemma due_state_rel now st times : peer_rel now st times → due_state now st = due cfg now times.
Proof.
  intros (Hat & Hlast & Hmax & _). unfold due_state. rewrite Hat.
  destruct Hcfg as (Hpos & _). destruct times as [|last rest]; cbn [due head] in *.
  { change (zlen []) with 0. rewrite (proj2 (Z.ltb_lt _ _)) by lia. done. }
  destruct (Hlast _ eq_refl) as [-> Hle]. assert (1 ≤ zlen (last :: rest)) by len.
  rewrite (proj2 (Z.eqb_neq _ _)) by lia. cbn [orb].
  unfold Duration.elapsed, saturating_sub. by rewrite Z.max_r by lia.
Qed.

Lemma due_list_ok now m h :
  follows now m h →
  filter_map (due_peer m now) (map_iter (peers m))
  = Ok (keys_where (λ _, due_state now) (peers m)).
Proof.
  intros Hf. unfold keys_where. apply filter_map_ok. intros [a st] Hin%elem_of_map_iter.
  destruct (follows_lookup _ _ _ a Hf) as [[Ha _]|(st' & times & Ha & _ & Hp)]; simplify_eq.
  rewrite (due_peer_ok _ _ _ times) by (done || apply Hf). by rewrite (due_state_rel _ _ times).
Qed.

Lemma poll_list now m h :
  follows now m h →
  ∃ m' l, get_peers_to_reconnect m now = Ok (m', l) ∧ NoDup l
    ∧ follows now m' (renew cfg <$> h)
    ∧ ∀ a, a ∈ l ↔ ∃ times, h !! a = Some times ∧ due cfg now (renew cfg times) = true.
Proof.
  intros Hf%reset_follows. unfold get_peers_to_reconnect. set (m' := reset_exhausted m now) in *.
  rewrite (due_list_ok _ _ _ Hf). cbn [obind].
  eexists _, _. split_and!; [done|apply keys_where_NoDup|done|]. intros a.
  rewrite elem_of_keys_where. specialize (follows_lookup _ _ _ a Hf). rewrite lookup_fmap.
  intros [[Ha Hh]|(st & times & Ha & Hh & Hp)]; rewrite Ha.
  - destruct (h !! a); naive_solver.
  - destruct (h !! a) as [times0|]; simplify_eq/=.
    pose proof (due_state_rel _ _ _ Hp). naive_solver.
Qed.

Lemma attempt_rel now st times :
  peer_rel now st times → due cfg now times = true →
  peer_rel now (PeerReconnectionState.mk (PeerReconnectionState.attempts st + 1) now
                  (PeerReconnectionState.disconnected_at st)) (now :: times)
  ∧ PeerReconnectionState.attempts st + 1 < 2 ^ 32.
Proof.
  intros (Hat & Hlast & Hmax & Hsp) Hdue. destruct Hcfg as (Hpos & Hu & _).
  assert (zlen times < ReconnectionConfig.max_attempts cfg).
  { destruct times; [change (zlen []) with 0; lia|]. cbn [due] in Hdue. bool_hyps. lia. }
  rewrite Hat. split; [|lia].
  split_and!; cbn [head spaced PeerReconnectionState.attempts PeerReconnectionState.last_attempt];
    [len|naive_solver lia|len|split; [|done]].
  destruct times; [done|]. cbn [due] in Hdue. bool_hyps. lia.
Qed.

Lemma record_all_ok now l : ∀ m h,
  follows now m h → NoDup l →
  (∀ a, a ∈ l → ∃ times, h !! a = Some times ∧ due cfg now times = true) →
  ∃ m', record_all m now l = Ok m'
    ∧ follows now m' (map_imap (λ a times, Some (if bool_decide (a ∈ l) then now :: times else times)) h).
Proof.
  induction l as [|a l IH]; intros m h Hf Hnd Hl; cbn [record_all].
  { exists m. split; [done|]. replace (map_imap _ h) with h; [done|].
    apply map_eq. intros a. rewrite map_lookup_imap. by destruct (h !! a). }
  apply NoDup_cons in Hnd as [Hnin Hnd]. destruct (Hl a ltac:(left)) as (times & Hh & Hdue).
  destruct (follows_lookup _ _ _ a Hf) as [[_ ?]|(st & times' & Ha & ? & Hp)]; simplify_eq.
  destruct (attempt_rel _ _ _ Hp Hdue) as [Hp' Hlt].
  unfold record_attempt. rewrite Ha, add_u_ok by done. cbn [obind].
  rewrite calculate_delay_ok by (first [exact (proj1 Hf) | destruct Hp as [Hn _]; rewrite Hn; len]).
  cbn [obind].
  match goal with |- context [<[a := ?st']> (peers m)] =>
    destruct (IH (mk (config m) (<[a := st']> (peers m))) (<[a := now :: times]> h))
      as (m' & -> & Hf'); [|done| |] end.
  - apply follows_intro; [apply Hf|]. intros b. cbn [peers].
    destruct (decide (b = a)) as [->|?].
    + right. rewrite !lookup_insert_eq. eauto.
    + rewrite !lookup_insert_ne by done. by apply follows_lookup.
  - intros b Hb. rewrite lookup_insert_ne by set_solver. apply Hl. by right.
  - exists m'. split; [done|]. refine (eq_rect _ (follows now m') Hf' _ _).
    apply map_eq. intros b. rewrite !map_lookup_imap.
    destruct (decide (b = a)) as [->|?].
    + rewrite lookup_insert_eq, Hh. cbn.
      rewrite bool_decide_eq_false_2 by done. by rewrite bool_decide_eq_true_2 by left.
    + rewrite lookup_insert_ne by done. destruct (h !! b); [|done]. cbn.
      rewrite (bool_decide_ext (b ∈ a :: l) (b ∈ l)) by set_solver. done.
Qed.

Lemma delete_follows now m h a :
  follows now m h → follows now (mk (config m) (delete a (peers m))) (delete a h).
Proof.
  intros Hf. apply follows_intro; [apply Hf|]. intros b. cbn [peers].
  destruct (decide (b = a)) as [->|?].
  - rewrite !lookup_delete_eq. by left.
  - rewrite !lookup_delete_ne by done. by apply follows_lookup.
Qed.

Lemma step_follows t now m h ev :
  follows t m h → t ≤ now →
  ∃ m', step m (now, ev) = Ok m' ∧ follows now m' (spec_step cfg h (now, ev)).
Proof.
  intros Hf Hle. apply (follows_later _ now) in Hf; [|done]. unfold step, spec_step. cbn [fst snd].
  destruct ev as [a| |a|a].
  - eexists; split; [done|]. unfold track_disconnection.
    destruct (follows_lookup _ _ _ a Hf) as [[Ha Hh]|(st & times & Ha & Hh & Hp)]; rewrite Ha, Hh.
    2: { by rewrite bool_decide_eq_true_2 by eauto. }
    rewrite bool_decide_eq_false_2 by (intros [? ?]; done).
    apply follows_intro; [apply Hf|]. intros b. cbn [peers]. destruct (decide (b = a)) as [->|?].
    + right. rewrite !lookup_insert_eq. destruct Hcfg as (Hpos & _).
      eexists _, _. split_and!; [done..|]. split_and!; cbn; (done || lia).
    + rewrite !lookup_insert_ne by done. by apply follows_lookup.
  - destruct (poll_list _ _ _ Hf) as (m' & l & -> & Hnd & Hf' & Hl). cbn [obind].
    destruct (record_all_ok now l m' _ Hf' Hnd) as (m'' & -> & Hf'').
    { intros a (times & Hh & Hd)%Hl. exists (renew cfg times). by rewrite lookup_fmap, Hh. }
    exists m''. split; [done|]. refine (eq_rect _ (follows now m'') Hf'' _ _). apply map_eq. intros a.
    rewrite map_lookup_imap, !lookup_fmap. destruct (h !! a) as [times|] eqn:Hh; [|done]. cbn.
    unfold attempt. f_equal. specialize (Hl a). rewrite Hh in Hl.
    destruct (due cfg now (renew cfg times)) eqn:Hd.
    + rewrite bool_decide_eq_true_2; [done|]. apply Hl. eauto.
    + rewrite bool_decide_eq_false_2; [done|]. intros (? & ? & ?)%Hl. simplify_eq. congruence.
  - eexists; split; [done|]. by apply delete_follows.
  - eexists; split; [done|]. by apply delete_follows.
Qed.

Lemma run_follows evs : ∀ t m h,
  follows t m h → ordered t evs →
  ∃ m', run m evs = Ok m' ∧ follows (last_time t evs) m' (foldl (spec_step cfg) h evs).
Proof.
  induction evs as [|[now ev] evs IH]; intros t m h Hf Hord; [by exists m|].
  destruct Hord as [Hle Hord]. cbn [run last_time foldl].
  destruct (step_follows _ _ _ _ ev Hf Hle) as (m' & -> & Hf'). cbn [obind].
  by apply IH.
Qed.

Lemma status_follows now m h a :
  follows now m h → get_status m a now = Ok (spec_status cfg now (h !! a)).
Proof.
  intros Hf. unfold get_status, spec_status, renew.
  destruct (follows_lookup _ _ _ a Hf) as [[-> ->]|(st & times & -> & -> & Hp)]; [done|].
  destruct Hf as [Hm _], Hp as (Hat & Hlast & Hmax & _). rewrite Hm, Hat.
  destruct Hcfg as (Hpos & _).
  destruct ReconnectionConfig.reset_on_exhaustion, times as [|last rest]; cbn [andb head] in *;
    change (zlen []) with 0.
  all: try (rewrite (proj2 (Z.leb_gt _ _)) by lia; done).
  all: destruct (Hlast _ eq_refl) as [-> Hle]; assert (1 ≤ zlen (last :: rest)) by len.
  all: destruct (_ <=? _) eqn:Hcmp; [done|].
  all: rewrite ?Hcmp, (proj2 (Z.eqb_neq _ _)) by lia.
  all: rewrite calculate_delay_ok by (done || lia); cbn [obind].
  all: unfold Duration.elapsed, saturating_sub; rewrite Z.max_r by lia; done.
Qed.

Lemma due_ready now times :
  zlen times ≤ ReconnectionConfig.max_attempts cfg →
  due cfg now (renew cfg times) = true ↔ spec_status cfg now (Some times) = ReconnectionStatus.Ready.
Proof.
  intros Hmax. unfold spec_status. destruct (renew cfg times) as [|last rest]; [done|].
  cbn [due]. destruct (Z.leb_spec (ReconnectionConfig.max_attempts cfg) (zlen (last :: rest))).
  { rewrite (proj2 (Z.ltb_ge _ _)) by lia. by split. }
  rewrite (proj2 (Z.ltb_lt _ _)) by lia. cbn [andb]. by destruct (_ <=? _).
Qed.
End proofs.
End ReconnectProofs.

Module ReconnectProperties.
Import ReconnectionManager ReconnectLoop ReconnectProofs.

(** C22: With a configuration of at least one attempt and a base delay below
    2^34 ms ([config_ok]), the client's loop, run on any sequence of
    disconnections, polls, successes and removals under a clock that does not
    go back, never panics and follows the schedule of the specification: the
    status of every peer is the one the history of its attempts gives, a poll
    lists exactly the peers that are ready, each once, and a peer is never
    tried more than [max_attempts] times in a cycle nor earlier than the
    exponential backoff after its last attempt. *)
Theorem reconnect_follows_schedule `{!MapOrder (list Z)} cfg evs t now
    (Hcfg : config_ok cfg) (Hord : ordered t evs) (Hnow : last_time t evs ≤ now) :
  let history := foldl (spec_step cfg) ∅ evs in
  ∃ m, run (new cfg) evs = Ok m
    ∧ (∀ a, get_status m a now = Ok (spec_status cfg now (history !! a)))
    ∧ (∃ m' l, get_peers_to_reconnect m now = Ok (m', l) ∧ NoDup l
         ∧ ∀ a, a ∈ l ↔ get_status m a now = Ok ReconnectionStatus.Ready)
    ∧ map_Forall (λ _ times,
        zlen times ≤ ReconnectionConfig.max_attempts cfg ∧ spaced cfg times) history.
Proof.
  intros history.
  destruct (run_follows cfg Hcfg evs t (new cfg) ∅) as (m & Hrun & Hf); [|done|].
  { apply follows_intro; [done|]. intros a. left. by rewrite !lookup_empty. }
  apply (follows_later _ _ now) in Hf; [|done]. fold history in Hf.
  exists m. split; [done|].
  assert (∀ a, get_status m a now = Ok (spec_status cfg now (history !! a))) as Hst
    by (intros a; by apply status_follows).
  split; [done|]. split.
  - destruct (poll_list cfg Hcfg _ _ _ Hf) as (m' & l & -> & Hnd & _ & Hl).
    exists m', l. split_and!; [done..|]. intros a. rewrite Hl, Hst.
    destruct (follows_lookup _ _ _ _ a Hf) as [[_ Hh]|(st & times & _ & Hh & (_ & _ & Hmax & _))];
      rewrite Hh; [naive_solver|].
    pose proof (due_ready cfg now times Hmax) as Hd. split.
    + intros (? & ? & ?). simplify_eq. by rewrite (proj1 Hd).
    + intros Hr. eexists. split; [done|]. apply Hd. congruence.
  - intros a times Hh. destruct (follows_lookup _ _ _ _ a Hf) as [[_ ?]|(? & ? & _ & ? & Hp)];
      [congruence|]. simplify_eq. split; apply Hp.
Qed.

Lemma reconnect_follows_schedule_witness :
  let cfg := ReconnectionConfig.kotlin_normal in
  let s := Duration.from_secs in
  let evs := [(s 0, Track [65]); (s 1, Poll); (s 2, Poll); (s 4, Poll); (s 5, Track [66]);
              (s 8, Poll)] in
  let history := foldl (spec_step cfg) ∅ evs in
  history !! [65] = Some [s 8; s 4; s 1]
  ∧ history !! [66] = Some [s 8]
  ∧ ∃ m, run (new cfg) evs = Ok m
    ∧ (∀ a, get_status m a (s 9) = Ok (spec_status cfg (s 9) (history !! a)))
    ∧ (∃ m' l, get_peers_to_reconnect m (s 9) = Ok (m', l) ∧ NoDup l
         ∧ ∀ a, a ∈ l ↔ get_status m a (s 9) = Ok ReconnectionStatus.Ready)
    ∧ map_Forall (λ _ times,
        zlen times ≤ ReconnectionConfig.max_attempts cfg ∧ spaced cfg times) history.
Proof.
  intros cfg s evs history. split; [vm_compute; reflexivity|]. split; [vm_compute; reflexivity|].
  apply (reconnect_follows_schedule cfg evs 0 (s 9)); [by_decide| |].
  - repeat split; vm_compute; discriminate.
  - vm_compute. discriminate.
Defined.

(** A base delay of more than 2^34 ms makes the backoff overflow at the
    thirtieth attempt, in spite of the bound on the shift. *)
Example long_base_delay_overflows :
  let cfg := ReconnectionConfig.new (Duration.from_millis (2 ^ 34)) (Duration.from_secs 60) 40 0 in
  calculate_delay (new cfg) 29 = Ok (Duration.from_secs 60)
  ∧ calculate_delay (new cfg) 30 = Panic.
Proof. vm_compute. split; reflexivity. Qed.

(** With [max_attempts = 0] and automatic reset a peer is reported as ready
    but never listed. *)
Example ready_but_never_listed :
  let cfg := ReconnectionConfig.mk 0 0 0 0 true true in
  let m := track_disconnection (new cfg) [65] 0 in
  get_status m [65] 10 = Ok ReconnectionStatus.Ready
  ∧ (let! r := get_peers_to_reconnect m 10 in Ok r.2) = Ok [].
Proof. vm_compute. split; reflexivity. Qed.

End ReconnectProperties.
