(* ===== verification/Lifetime.v ===== *)
(** * The peer lifetime manager of src/src/peer_lifetime.rs: which peers have
    been silent for too long. *)

From stdpp Require Import base numbers list gmap.
From S2P Require Import Prelude Clock.
Open Scope Z_scope.
Open Scope peat_scope.

Module PeerLifetimeConfig.

Record t := mk { disconnected_timeout : Z; connected_timeout : Z; cleanup_interval : Z }.

Definition default_config : t :=
  mk (Duration.from_secs 30) (Duration.from_secs 60) (Duration.from_secs 10).
Definition new (disconnected_timeout connected_timeout cleanup_interval : Z) : t :=
  mk disconnected_timeout connected_timeout cleanup_interval.
Definition fast : t := mk (Duration.from_secs 5) (Duration.from_secs 10) (Duration.from_secs 2).
Definition relaxed : t :=
  mk (Duration.from_secs 60) (Duration.from_secs 120) (Duration.from_secs 30).

End PeerLifetimeConfig.

Module PeerState.
Record t := mk { connected : bool; last_seen : Z; first_seen : Z; disconnected_at : option Z }.
Definition new (connected : bool) (now : Z) : t :=
  mk connected now now (if connected then None else Some now).
End PeerState.

Module StaleReason.
Inductive t := DisconnectedTimeout | ConnectedTimeout.
#[global] Instance stale_reason_eq_dec : EqDecision t.
Proof. solve_decision. Defined.
End StaleReason.

Module StalePeerInfo.
Record t := mk {
  address : list Z; reason : StaleReason.t; time_since_last_seen : Z; was_connected : bool
}.
#[global] Instance stale_peer_info_eq_dec : EqDecision t.
Proof. solve_decision. Defined.
End StalePeerInfo.

Module PeerLifetimeStats.
Record t := mk { total_tracked : Z; connected : Z; disconnected : Z }.
End PeerLifetimeStats.

Module PeerInfo.
Record t := mk {
  connected : bool; time_since_last_seen : Z; time_since_first_seen : Z;
  time_since_disconnect : option Z
}.
End PeerInfo.

Module PeerLifetimeManager.
Import PeerLifetimeConfig.

Record t := mk { config : PeerLifetimeConfig.t; peers : gmap (list Z) PeerState.t }.

Definition new (cfg : PeerLifetimeConfig.t) : t := mk cfg ∅.
Definition with_defaults : t := new default_config.
Definition set_peers (self : t) (m : gmap (list Z) PeerState.t) : t := mk (config self) m.

(** The update of a known peer by [on_peer_activity]. *)
Definition refresh (state : PeerState.t) (connected : bool) (now : Z) : PeerState.t :=
  let '(PeerState.mk was _ first_seen disconnected_at) := state in
  if connected && negb was then PeerState.mk true now first_seen None
  else if negb connected && was then PeerState.mk false now first_seen (Some now)
  else PeerState.mk was now first_seen disconnected_at.

Definition on_peer_activity (self : t) (address : list Z) (connected : bool) (now : Z) : t :=
  match peers self !! address with
  | Some state => set_peers self (<[address := refresh state connected now]> (peers self))
  | None => set_peers self (<[address := PeerState.new connected now]> (peers self))
  end.

Definition on_peer_disconnected (self : t) (address : list Z) (now : Z) : t :=
  match peers self !! address with
  | Some state =>
      if PeerState.connected state then
        set_peers self (<[address :=
          PeerState.mk false (PeerState.last_seen state) (PeerState.first_seen state) (Some now)]>
          (peers self))
      else self
  | None => self
  end.

Definition is_tracked (self : t) (address : list Z) : bool :=
  bool_decide (is_Some (peers self !! address)).
Definition is_connected (self : t) (address : list Z) : bool :=
  match peers self !! address with Some s => PeerState.connected s | None => false end.

(** The closure of [get_stale_peers]. *)
Definition stale_info (self : t) (now : Z) (entry : list Z * PeerState.t)
    : option StalePeerInfo.t :=
  let '(address, state) := entry in
  let time_since_last_seen := Duration.elapsed now (PeerState.last_seen state) in
  let '(is_stale, reason) :=
    if PeerState.connected state
    then (connected_timeout (config self) <? time_since_last_seen, StaleReason.ConnectedTimeout)
    else (disconnected_timeout (config self) <? time_since_last_seen,
          StaleReason.DisconnectedTimeout) in
  if is_stale
  then Some (StalePeerInfo.mk address reason time_since_last_seen (PeerState.connected state))
  else None.

Section iteration.
Context `{!MapOrder (list Z)}.

Definition get_stale_peers (self : t) (now : Z) : list StalePeerInfo.t :=
  omap (stale_info self now) (map_iter (peers self)).
Definition get_stale_peer_addresses (self : t) (now : Z) : list (list Z) :=
  map StalePeerInfo.address (get_stale_peers self now).

Definition cleanup_stale_peers (self : t) (now : Z) : t * list StalePeerInfo.t :=
  let stale := get_stale_peers self now in
  (set_peers self (foldl (λ m info, delete (StalePeerInfo.address info) m) (peers self) stale),
   stale).

Definition stats (self : t) : outcome PeerLifetimeStats.t :=
  let! counts := foldl (λ acc '(_, state),
      let! acc := acc in
      let '(connected, disconnected) := acc in
      if PeerState.connected state
      then let! c := add_u 64 connected 1 in Ok (c, disconnected)
      else let! d := add_u 64 disconnected 1 in Ok (connected, d))
    (Ok (0, 0)) (map_iter (peers self)) in
  Ok (PeerLifetimeStats.mk (Z.of_nat (size (peers self))) counts.1 counts.2).
End iteration.

Definition remove_peer (self : t) (address : list Z) : t * bool :=
  (set_peers self (delete address (peers self)),
   bool_decide (is_Some (peers self !! address))).
Definition get_peer_info (self : t) (address : list Z) (now : Z) : option PeerInfo.t :=
  (λ state, PeerInfo.mk (PeerState.connected state)
     (Duration.elapsed now (PeerState.last_seen state))
     (Duration.elapsed now (PeerState.first_seen state))
     (Duration.elapsed now <$> PeerState.disconnected_at state)) <$> peers self !! address.
Definition clear (self : t) : t := set_peers self ∅.
Definition tracked_count (self : t) : Z := Z.of_nat (size (peers self)).
Definition cleanup_interval (self : t) : Z := PeerLifetimeConfig.cleanup_interval (config self).

End PeerLifetimeManager.

(** ** Events, and what the manager is for

    Of the whole past of a peer, the specification keeps when it was last
    heard of and whether it is connected. *)
Module LifetimeTrace.
Import PeerLifetimeManager.

Inductive event :=
| Activity (address : list Z) (connected : bool)
| Disconnected (address : list Z)
| Removed (address : list Z)
| Cleanup.

Definition step `{!MapOrder (list Z)} (self : t) (ev : Z * event) : t :=
  let '(now, ev) := ev in
  match ev with
  | Activity address connected => on_peer_activity self address connected now
  | Disconnected address => on_peer_disconnected self address now
  | Removed address => (remove_peer self address).1
  | Cleanup => (cleanup_stale_peers self now).1
  end.

Section spec.
Context (cfg : PeerLifetimeConfig.t).

(** Connected, and the time of the last sign of life. *)
Definition silent_too_long (now : Z) (s : bool * Z) : bool :=
  let '(connected, heard) := s in
  (if connected then PeerLifetimeConfig.connected_timeout cfg
   else PeerLifetimeConfig.disconnected_timeout cfg) <? now - heard.
Definition spec_step (h : gmap (list Z) (bool * Z)) (ev : Z * event) : gmap (list Z) (bool * Z) :=
  let '(now, ev) := ev in
  match ev with
  | Activity address connected => <[address := (connected, now)]> h
  | Disconnected address =>
      match h !! address with
      | Some (_, heard) => <[address := (false, heard)]> h | None => h end
  | Removed address => delete address h
  | Cleanup => filter (λ e, silent_too_long now e.2 = false) h
  end.
End spec.

End LifetimeTrace.

(** * Theorems *)

Module LifetimeProofs.
Import PeerLifetimeManager LifetimeTrace.

Section proofs.
Context `{!MapOrder (list Z)}.
Implicit Types (m : PeerLifetimeManager.t) (h : gmap (list Z) (bool * Z)).

Definition peer_ok (now : Z) (st : PeerState.t) : Prop :=
  (PeerState.disconnected_at st = None ↔ PeerState.connected st = true)
  ∧ PeerState.first_seen st ≤ PeerState.last_seen st ≤ now
  ∧ (∀ d, PeerState.disconnected_at st = Some d → PeerState.first_seen st ≤ d ≤ now).
Definition heard (st : PeerState.t) : bool * Z := (PeerState.connected st, PeerState.last_seen st).
(** The manager and the specification, side by side. *)
Definition follows (now : Z) (s : PeerLifetimeManager.t * gmap (list Z) (bool * Z)) : Prop :=
  s.2 = heard <$> peers s.1 ∧ map_Forall (λ _, peer_ok now) (peers s.1).

Lemma stale_address_sub m now l : map StalePeerInfo.address (omap (stale_info m now) l) `sublist_of` l.*1.
Proof.
  apply omap_keys_sub. intros [a st] info Hi. unfold stale_info in Hi.
  destruct (PeerState.connected st), (_ <? _); by simplify_eq/=.
Qed.

Definition info_of (a : list Z) (now : Z) (s : bool * Z) : StalePeerInfo.t :=
  StalePeerInfo.mk a
    (if s.1 then StaleReason.ConnectedTimeout else StaleReason.DisconnectedTimeout)
    (now - s.2) s.1.

Lemma stale_info_spec now m a st :
  peer_ok now st →
  stale_info m now (a, st)
  = if silent_too_long (config m) now (heard st) then Some (info_of a now (heard st)) else None.
Proof.
  destruct st as [c last first d]. intros (_ & Hle & _). cbn in Hle.
  unfold stale_info, silent_too_long, heard, info_of, Duration.elapsed, saturating_sub. cbn.
  rewrite Z.max_r by lia. destruct c; cbn; by case_match.
Qed.

Lemma stale_spec now m h info :
  follows now (m, h) →
  info ∈ get_stale_peers m now
  ↔ ∃ a s, h !! a = Some s ∧ silent_too_long (config m) now s = true ∧ info = info_of a now s.
Proof.
  intros [Hh Hok]. cbn in Hh, Hok. subst h. unfold get_stale_peers. rewrite list_elem_of_omap.
  split.
  - intros ([a st] & Hin%elem_of_map_iter & Hs). rewrite stale_info_spec in Hs by eauto.
    destruct (silent_too_long _ _ _) eqn:Hq; simplify_eq.
    exists a, (heard st). by rewrite lookup_fmap, Hin.
  - intros (a & s & Ha & Hq & ->). rewrite lookup_fmap in Ha.
    destruct (peers m !! a) as [st|] eqn:Hst; [|done]. injection Ha as <-.
    exists (a, st). rewrite elem_of_map_iter, stale_info_spec by eauto. by rewrite Hq.
Qed.

Lemma cleanup_lookup now m h a :
  follows now (m, h) →
  peers (cleanup_stale_peers m now).1 !! a
  = match peers m !! a with
    | Some st => if silent_too_long (config m) now (heard st) then None else Some st
    | None => None
    end.
Proof.
  intros Hf. unfold cleanup_stale_peers. cbn [fst set_peers peers].
  rewrite <-(foldl_fmap (λ (m : gmap (list Z) PeerState.t) k, delete k m) (peers m)
    (get_stale_peers m now) StalePeerInfo.address).
  rewrite delete_all_lookup. pose proof (stale_spec now m h) as Hs.
  destruct (decide _) as [Hin|Hnin].
  - apply list_elem_of_fmap in Hin as (info & -> & (a & s & Ha & Hq & ->)%Hs); [|done].
    cbn [info_of StalePeerInfo.address] in *.
    destruct Hf as [Hh _]. cbn in Hh. subst h. rewrite lookup_fmap in Ha.
    destruct (peers m !! a); [|done]. injection Ha as <-. by rewrite Hq.
  - destruct (peers m !! a) as [st|] eqn:Hst; [|done].
    destruct (silent_too_long _ _ _) eqn:Hq; [|done]. destruct Hnin.
    apply list_elem_of_fmap. exists (info_of a now (heard st)). split; [done|].
    apply Hs; [done|]. exists a, (heard st). destruct Hf as [Hh _]. cbn in Hh. subst h.
    by rewrite lookup_fmap, Hst.
Qed.

Lemma lifetime_config_step m ev : config (step m ev) = config m.
Proof.
  destruct ev as [now [a c|a|a|]]; cbn; [| |done..].
  - unfold on_peer_activity. by destruct (peers m !! a).
  - unfold on_peer_disconnected. destruct (peers m !! a) as [st|]; [|done].
    by destruct (PeerState.connected st).
Qed.

Lemma insert_follows now m h a st :
  follows now (m, h) → peer_ok now st →
  follows now (set_peers m (<[a := st]> (peers m)), <[a := heard st]> h).
Proof.
  intros [Hh Hok] Hp. cbn in *. split; cbn.
  - by rewrite fmap_insert, Hh.
  - by apply map_Forall_insert_2.
Qed.

Lemma refresh_ok now st c :
  peer_ok now st → peer_ok now (refresh st c now) ∧ heard (refresh st c now) = (c, now).
Proof.
  destruct st as [was last first d]. unfold peer_ok, heard. cbn. intros (Hd & Hle & Hdl).
  destruct c, was; cbn; (split; [split_and!|done]); naive_solver lia.
Qed.

Lemma lifetime_step_follows cfg now m h ev :
  config m = cfg → follows now (m, h) →
  follows now (step m (now, ev), spec_step cfg h (now, ev)).
Proof.
  intros Hcfg Hf. pose proof Hf as [Hh Hok]. cbn in Hh, Hok.
  destruct ev as [a c|a|a|]; cbn [step spec_step].
  - unfold on_peer_activity. destruct (peers m !! a) as [st|] eqn:Ha.
    + destruct (refresh_ok now st c) as [Hr Hq]; [eauto|]. rewrite <-Hq. by apply insert_follows.
    + replace (c, now) with (heard (PeerState.new c now)) by done. apply insert_follows; [done|].
      unfold peer_ok. destruct c; cbn; naive_solver lia.
  - unfold on_peer_disconnected. subst h. rewrite lookup_fmap.
    destruct (peers m !! a) as [[c last first d]|] eqn:Ha; [|done]. cbn.
    specialize (Hok a _ Ha). destruct c.
    + apply (insert_follows now m _ a (PeerState.mk false last first (Some now))); [done|].
      unfold peer_ok in *. cbn in *. naive_solver lia.
    + rewrite insert_id; [done|]. by rewrite lookup_fmap, Ha.
  - split; cbn; [by rewrite fmap_delete, Hh|]. by apply map_Forall_delete.
  - split; cbn [fst snd].
    + apply map_eq. intros a. rewrite lookup_fmap, (cleanup_lookup _ _ h) by done. subst h cfg.
      rewrite map_lookup_filter, lookup_fmap. destruct (peers m !! a) as [st|]; [|done].
      destruct (silent_too_long (config m) now (heard st)) eqn:Hq;
        cbn -[silent_too_long heard]; case_guard; (congruence || done).
    + intros a st. rewrite (cleanup_lookup _ _ h) by done.
      destruct (peers m !! a) eqn:Ha; [|done]. destruct (silent_too_long _ _ _); [done|].
      intros; simplify_eq. by apply (Hok a).
Qed.

Lemma run_lifetime_follows cfg evs t :
  ordered t evs →
  let m := foldl step (new cfg) evs in
  config m = cfg ∧ follows (last_time t evs) (m, foldl (spec_step cfg) ∅ evs).
Proof.
  intros Ho.
  pose (both := λ s ev, (step s.1 ev, spec_step cfg s.2 ev)
    : PeerLifetimeManager.t * gmap (list Z) (bool * Z)).
  assert (foldl both (new cfg, ∅) evs = (foldl step (new cfg) evs, foldl (spec_step cfg) ∅ evs)) as Hb.
  { clear Ho. generalize (new cfg) (∅ : gmap (list Z) (bool * Z)).
    induction evs as [|ev evs IH]; intros; [done|]. cbn. apply (IH (step _ _) (spec_step cfg _ _)). }
  apply (timed_invariant (λ now s, config s.1 = cfg ∧ follows now s) both) with (s := (new cfg, ∅)) in Ho.
  - rewrite Hb in Ho. exact Ho.
  - intros t1 t2 [m h] Hle [? [? Hok]]. split_and!; [done..|]. split; [done|].
    eapply map_Forall_impl; [exact Hok|]. unfold peer_ok. naive_solver lia.
  - intros now [m h] ev [Hc Hf]. cbn [both fst snd]. rewrite lifetime_config_step.
    split; [done|]. by apply lifetime_step_follows.
  - split; [done|]. split; cbn; [by rewrite fmap_empty|apply map_Forall_empty].
Qed.
End proofs.
End LifetimeProofs.

Module LifetimeProperties.
Import PeerLifetimeManager LifetimeTrace LifetimeProofs.

(** After any sequence of activity, disconnections, removals and cleanups
    under a clock that does not go back, the manager has kept, of each peer,
    whether it is connected and when it was last heard of (a disconnection is
    not a sign of life), a disconnection time for exactly the disconnected
    peers, and times that are ordered; it reports as stale, each once and
    with the right reason, exactly the peers silent for longer than the
    timeout of their state; and a cleanup removes these and only these. *)
Theorem lifetime_reports_silent_peers `{!MapOrder (list Z)} cfg evs t now
    (Hord : ordered t evs) (Hnow : last_time t evs ≤ now) :
  let m := foldl step (new cfg) evs in
  let last_heard := foldl (spec_step cfg) ∅ evs in
  heard <$> peers m = last_heard
  ∧ map_Forall (λ _, peer_ok now) (peers m)
  ∧ NoDup (get_stale_peer_addresses m now)
  ∧ (∀ info, info ∈ get_stale_peers m now ↔
       ∃ a s, last_heard !! a = Some s ∧ silent_too_long cfg now s = true ∧ info = info_of a now s)
  ∧ get_stale_peers (cleanup_stale_peers m now).1 now = []
  ∧ ∀ a, peers (cleanup_stale_peers m now).1 !! a
         = if decide (a ∈ get_stale_peer_addresses m now) then None else peers m !! a.
Proof.
  intros m last_heard. destruct (run_lifetime_follows cfg evs t Hord) as [Hc Hf].
  fold m last_heard in Hc, Hf.
  assert (follows now (m, last_heard)) as [Hh Hok].
  { destruct Hf as [? Hok]. split; [done|]. eapply map_Forall_impl; [exact Hok|].
    unfold peer_ok. naive_solver lia. }
  split_and!; [done|done|..].
  - eapply sublist_NoDup; [apply (map_iter_NoDup_keys (peers m))|]. apply stale_address_sub.
  - intros info. rewrite <-Hc. by apply stale_spec.
  - set (m' := (cleanup_stale_peers m now).1).
    assert (follows now (m', spec_step cfg last_heard (now, Cleanup))) as Hf'
      by (by apply (lifetime_step_follows cfg now m last_heard Cleanup)).
    destruct (get_stale_peers m' now) as [|info l] eqn:Hs; [done|]. exfalso.
    assert (info ∈ get_stale_peers m' now) as Hin by (rewrite Hs; left).
    apply (stale_spec now m' _ info Hf') in Hin as (a & s & Ha & Hq & _).
    cbn [spec_step] in Ha. apply map_lookup_filter_Some in Ha as [_ Ha]. cbn [snd] in Ha.
    change (config m') with (config m) in Hq. congruence.
  - intros a. unfold cleanup_stale_peers, get_stale_peer_addresses. cbn [fst set_peers peers].
    rewrite <-(foldl_fmap (λ (m : gmap (list Z) PeerState.t) k, delete k m) (peers m)
      (get_stale_peers m now) StalePeerInfo.address). apply delete_all_lookup.
Qed.

Lemma lifetime_reports_silent_peers_witness :
  let cfg := PeerLifetimeConfig.fast in
  let s := Duration.from_secs in
  let evs := [(s 0, Activity [65] true); (s 1, Activity [66] false); (s 2, Disconnected [65]);
              (s 4, Activity [67] true)] in
  let m := foldl step (new cfg) evs in
  let last_heard := foldl (spec_step cfg) ∅ evs in
  get_stale_peer_addresses m (s 6) = [[65]]
  ∧ heard <$> peers m = last_heard
  ∧ map_Forall (λ _, peer_ok (s 6)) (peers m)
  ∧ NoDup (get_stale_peer_addresses m (s 6))
  ∧ (∀ info, info ∈ get_stale_peers m (s 6) ↔
       ∃ a st, last_heard !! a = Some st ∧ silent_too_long cfg (s 6) st = true
               ∧ info = info_of a (s 6) st)
  ∧ get_stale_peers (cleanup_stale_peers m (s 6)).1 (s 6) = []
  ∧ ∀ a, peers (cleanup_stale_peers m (s 6)).1 !! a
         = if decide (a ∈ get_stale_peer_addresses m (s 6)) then None else peers m !! a.
Proof.
  intros cfg s evs m last_heard. split; [vm_compute; reflexivity|].
  apply (lifetime_reports_silent_peers cfg evs 0 (s 6)); [by_decide|vm_compute; discriminate].
Defined.

End LifetimeProperties.
