(* ===== verification/ForeignManagers.v ===== *)
(** * The managers behind the foreign-function surface of
    src/src/uniffi_bindings.rs: reconnection, peer lifetime and address
    rotation, each behind a mutex, with their times in milliseconds and their
    counts in 32 bits.

    A method locks the mutex with [lock().unwrap()] and calls the manager while
    the guard lives.  When the manager panics, the panic is reported to the
    foreign caller and the mutex is poisoned: every later method panics at its
    [unwrap].

    As in [Bindings], a module has the name of the type it models, and the type
    of the crate is named with its file. *)

From Stdlib Require Import String.
From stdpp Require Import base numbers list gmap.
From S2P Require Import Prelude AddressRotation Clock Reconnect Lifetime.
Open Scope Z_scope.
Open Scope peat_scope.

(** [as u32] and [as_millis() as u64] *)
Definition count_u32 (n : Z) : Z := wrap 32 n.
Definition millis_u64 (d : Z) : Z := wrap 64 (Duration.as_millis d).

Module Mutex.
Record t (A : Type) := mk { inner : A; poisoned : bool }.
#[global] Arguments mk {A}.
#[global] Arguments inner {A}.
#[global] Arguments poisoned {A}.

Section mutex.
Context {A : Type}.
Definition new (a : A) : t A := mk a false.
(** Nobody reads what a panic leaves behind. *)
Definition call {R} (self : t A) (f : A → outcome (A * R)) : t A * outcome R :=
  if poisoned self then (self, Panic)
  else match f (inner self) with
       | Ok (a, r) => (mk a false, Ok r)
       | Fail => (self, Fail)
       | Panic => (mk (inner self) true, Panic)
       end.
Definition update (self : t A) (f : A → A) : t A * outcome unit := call self (λ a, Ok (f a, tt)).
Definition query {R} (self : t A) (f : A → R) : t A * outcome R := call self (λ a, Ok (a, f a)).
End mutex.
End Mutex.

(** ** Reconnection *)

Module ReconnectionConfig.
Record t := mk {
  base_delay_ms : Z; max_delay_ms : Z; max_attempts : Z; check_interval_ms : Z;
  use_flat_delay : bool; reset_on_exhaustion : bool
}.
Definition default_config : t := mk 2000 60000 10 5000 false false.
Definition to_internal (c : t) : Reconnect.ReconnectionConfig.t :=
  let config := Reconnect.ReconnectionConfig.new (Duration.from_millis (base_delay_ms c))
    (Duration.from_millis (max_delay_ms c)) (max_attempts c)
    (Duration.from_millis (check_interval_ms c)) in
  Reconnect.ReconnectionConfig.mk (Reconnect.ReconnectionConfig.base_delay config)
    (Reconnect.ReconnectionConfig.max_delay config)
    (Reconnect.ReconnectionConfig.max_attempts config)
    (Reconnect.ReconnectionConfig.check_interval config)
    (use_flat_delay c) (reset_on_exhaustion c).
End ReconnectionConfig.

Module ReconnectionStatus.
Inductive t :=
| Ready | Waiting (remaining_ms : Z) | Exhausted (attempts : Z) | NotTracked.
Definition of_internal (s : Reconnect.ReconnectionStatus.t) : t :=
  match s with
  | Reconnect.ReconnectionStatus.Ready => Ready
  | Reconnect.ReconnectionStatus.Waiting remaining => Waiting (millis_u64 remaining)
  | Reconnect.ReconnectionStatus.Exhausted attempts => Exhausted attempts
  | Reconnect.ReconnectionStatus.NotTracked => NotTracked
  end.
End ReconnectionStatus.

Module PeerReconnectionStats.
Record t := mk {
  attempts : Z; max_attempts : Z; disconnected_duration_ms : Z; next_attempt_delay_ms : Z
}.
Definition of_internal (s : Reconnect.PeerReconnectionStats.t) : t :=
  mk (Reconnect.PeerReconnectionStats.attempts s) (Reconnect.PeerReconnectionStats.max_attempts s)
    (millis_u64 (Reconnect.PeerReconnectionStats.disconnected_duration s))
    (millis_u64 (Reconnect.PeerReconnectionStats.next_attempt_delay s)).
End PeerReconnectionStats.

Module ReconnectionObject.
Definition t : Type := Mutex.t Reconnect.ReconnectionManager.t.

Definition new (config : ReconnectionConfig.t) : t :=
  Mutex.new (Reconnect.ReconnectionManager.new (ReconnectionConfig.to_internal config)).
Definition with_defaults : t := Mutex.new Reconnect.ReconnectionManager.with_defaults.
Definition track_disconnection (self : t) (address : list Z) (now : Z) : t * outcome unit :=
  Mutex.update self (λ m, Reconnect.ReconnectionManager.track_disconnection m address now).
Definition is_tracked (self : t) (address : list Z) : t * outcome bool :=
  Mutex.query self (λ m, Reconnect.ReconnectionManager.is_tracked m address).
Definition get_status (self : t) (address : list Z) (now : Z)
    : t * outcome ReconnectionStatus.t :=
  Mutex.call self (λ m,
    let! s := Reconnect.ReconnectionManager.get_status m address now in
    Ok (m, ReconnectionStatus.of_internal s)).
Definition get_peers_to_reconnect `{!MapOrder (list Z)} (self : t) (now : Z)
    : t * outcome (list (list Z)) :=
  Mutex.call self (λ m, Reconnect.ReconnectionManager.get_peers_to_reconnect m now).
Definition record_attempt (self : t) (address : list Z) (now : Z) : t * outcome unit :=
  Mutex.call self (λ m, let! m := Reconnect.ReconnectionManager.record_attempt m address now in Ok (m, tt)).
Definition on_connection_success (self : t) (address : list Z) : t * outcome unit :=
  Mutex.update self (λ m, Reconnect.ReconnectionManager.on_connection_success m address).
Definition stop_tracking (self : t) (address : list Z) : t * outcome unit :=
  Mutex.update self (λ m, Reconnect.ReconnectionManager.stop_tracking m address).
Definition clear (self : t) : t * outcome unit := Mutex.update self Reconnect.ReconnectionManager.clear.
Definition tracked_count (self : t) : t * outcome Z :=
  Mutex.query self (λ m, count_u32 (Reconnect.ReconnectionManager.tracked_count m)).
Definition get_peer_stats (self : t) (address : list Z) (now : Z)
    : t * outcome (option PeerReconnectionStats.t) :=
  Mutex.call self (λ m,
    let! s := Reconnect.ReconnectionManager.get_peer_stats m address now in
    Ok (m, PeerReconnectionStats.of_internal <$> s)).
Definition check_interval_ms (self : t) : t * outcome Z :=
  Mutex.query self (λ m, millis_u64 (Reconnect.ReconnectionManager.check_interval m)).
End ReconnectionObject.

(** ** Peer lifetime *)

Module PeerLifetimeConfig.
Record t := mk { disconnected_timeout_ms : Z; connected_timeout_ms : Z; cleanup_interval_ms : Z }.
Definition default_config : t := mk 30000 60000 10000.
Definition to_internal (c : t) : Lifetime.PeerLifetimeConfig.t :=
  Lifetime.PeerLifetimeConfig.new (Duration.from_millis (disconnected_timeout_ms c))
    (Duration.from_millis (connected_timeout_ms c)) (Duration.from_millis (cleanup_interval_ms c)).
End PeerLifetimeConfig.

Module StaleReason.
Inductive t := DisconnectedTimeout | ConnectedTimeout.
Definition of_internal (r : Lifetime.StaleReason.t) : t :=
  match r with
  | Lifetime.StaleReason.DisconnectedTimeout => DisconnectedTimeout
  | Lifetime.StaleReason.ConnectedTimeout => ConnectedTimeout
  end.
End StaleReason.

Module StalePeerInfo.
Record t := mk {
  address : list Z; reason : StaleReason.t; time_since_last_seen_ms : Z; was_connected : bool
}.
Definition of_internal (p : Lifetime.StalePeerInfo.t) : t :=
  mk (Lifetime.StalePeerInfo.address p) (StaleReason.of_internal (Lifetime.StalePeerInfo.reason p))
    (millis_u64 (Lifetime.StalePeerInfo.time_since_last_seen p)) (Lifetime.StalePeerInfo.was_connected p).
End StalePeerInfo.

Module PeerLifetimeStats.
Record t := mk { total_tracked : Z; connected : Z; disconnected : Z }.
Definition of_internal (s : Lifetime.PeerLifetimeStats.t) : t :=
  mk (count_u32 (Lifetime.PeerLifetimeStats.total_tracked s)) (count_u32 (Lifetime.PeerLifetimeStats.connected s))
    (count_u32 (Lifetime.PeerLifetimeStats.disconnected s)).
End PeerLifetimeStats.

Module PeerInfo.
Record t := mk {
  connected : bool; time_since_last_seen_ms : Z; time_since_first_seen_ms : Z;
  time_since_disconnect_ms : option Z
}.
Definition of_internal (p : Lifetime.PeerInfo.t) : t :=
  mk (Lifetime.PeerInfo.connected p) (millis_u64 (Lifetime.PeerInfo.time_since_last_seen p))
    (millis_u64 (Lifetime.PeerInfo.time_since_first_seen p))
    (millis_u64 <$> Lifetime.PeerInfo.time_since_disconnect p).
End PeerInfo.

Module LifetimeObject.
Definition t : Type := Mutex.t Lifetime.PeerLifetimeManager.t.

Definition new (config : PeerLifetimeConfig.t) : t :=
  Mutex.new (Lifetime.PeerLifetimeManager.new (PeerLifetimeConfig.to_internal config)).
Definition with_defaults : t := Mutex.new Lifetime.PeerLifetimeManager.with_defaults.
Definition on_peer_activity (self : t) (address : list Z) (connected : bool) (now : Z)
    : t * outcome unit :=
  Mutex.update self (λ m, Lifetime.PeerLifetimeManager.on_peer_activity m address connected now).
Definition on_peer_disconnected (self : t) (address : list Z) (now : Z) : t * outcome unit :=
  Mutex.update self (λ m, Lifetime.PeerLifetimeManager.on_peer_disconnected m address now).
Definition is_tracked (self : t) (address : list Z) : t * outcome bool :=
  Mutex.query self (λ m, Lifetime.PeerLifetimeManager.is_tracked m address).
Definition is_connected (self : t) (address : list Z) : t * outcome bool :=
  Mutex.query self (λ m, Lifetime.PeerLifetimeManager.is_connected m address).
Definition get_stale_peers `{!MapOrder (list Z)} (self : t) (now : Z)
    : t * outcome (list StalePeerInfo.t) :=
  Mutex.query self (λ m,
    map StalePeerInfo.of_internal (Lifetime.PeerLifetimeManager.get_stale_peers m now)).
Definition get_stale_peer_addresses `{!MapOrder (list Z)} (self : t) (now : Z)
    : t * outcome (list (list Z)) :=
  Mutex.query self (λ m, Lifetime.PeerLifetimeManager.get_stale_peer_addresses m now).
Definition remove_peer (self : t) (address : list Z) : t * outcome bool :=
  Mutex.call self (λ m, Ok (Lifetime.PeerLifetimeManager.remove_peer m address)).
Definition cleanup_stale_peers `{!MapOrder (list Z)} (self : t) (now : Z)
    : t * outcome (list StalePeerInfo.t) :=
  Mutex.call self (λ m,
    let '(m, stale) := Lifetime.PeerLifetimeManager.cleanup_stale_peers m now in
    Ok (m, map StalePeerInfo.of_internal stale)).
Definition stats `{!MapOrder (list Z)} (self : t) : t * outcome PeerLifetimeStats.t :=
  Mutex.call self (λ m,
    let! s := Lifetime.PeerLifetimeManager.stats m in Ok (m, PeerLifetimeStats.of_internal s)).
Definition get_peer_info (self : t) (address : list Z) (now : Z) : t * outcome (option PeerInfo.t) :=
  Mutex.query self (λ m,
    PeerInfo.of_internal <$> Lifetime.PeerLifetimeManager.get_peer_info m address now).
Definition clear (self : t) : t * outcome unit := Mutex.update self Lifetime.PeerLifetimeManager.clear.
Definition tracked_count (self : t) : t * outcome Z :=
  Mutex.query self (λ m, count_u32 (Lifetime.PeerLifetimeManager.tracked_count m)).
Definition cleanup_interval_ms (self : t) : t * outcome Z :=
  Mutex.query self (λ m, millis_u64 (Lifetime.PeerLifetimeManager.cleanup_interval m)).
End LifetimeObject.

(** ** Address rotation *)

Module DevicePattern.
Inductive t := WearTak | WearOs | Peat | Unknown.
Definition of_internal (p : AddressRotation.DevicePattern.t) : t :=
  match p with
  | AddressRotation.DevicePattern.WearTak => WearTak
  | AddressRotation.DevicePattern.WearOs => WearOs
  | AddressRotation.DevicePattern.Peat => Peat
  | AddressRotation.DevicePattern.Unknown => Unknown
  end.
Definition rotates_addresses (self : t) : bool :=
  match self with WearTak | WearOs => true | _ => false end.
End DevicePattern.

Module DeviceLookupResult.
Record t := mk {
  node_id : Z; current_address : list Z; address_changed : bool; previous_address : option (list Z)
}.
Definition of_internal (r : AddressRotation.DeviceLookupResult.t) : t :=
  mk (AddressRotation.DeviceLookupResult.node_id r)
    (AddressRotation.DeviceLookupResult.current_address r)
    (AddressRotation.DeviceLookupResult.address_changed r)
    (AddressRotation.DeviceLookupResult.previous_address r).
End DeviceLookupResult.

Module AddressRotationStats.
Record t := mk { devices_with_names : Z; total_devices : Z; address_mappings : Z }.
(** [AddressRotation] has the three counts as a triple. *)
Definition of_internal (s : Z * Z * Z) : t :=
  let '(devices_with_names, total_devices, address_mappings) := s in
  mk (count_u32 devices_with_names) (count_u32 total_devices) (count_u32 address_mappings).
End AddressRotationStats.

Module AddressRotationObject.
Definition t : Type := Mutex.t AddressRotation.AddressRotationHandler.t.

Definition new : t := Mutex.new AddressRotation.AddressRotationHandler.new.
Definition register_device (self : t) (name address : list Z) (node_id : Z) : t * outcome unit :=
  Mutex.update self (λ m,
    AddressRotation.AddressRotationHandler.register_device m name address node_id).
Definition lookup_by_name (self : t) (name : list Z) : t * outcome (option Z) :=
  Mutex.query self (λ m, AddressRotation.AddressRotationHandler.lookup_by_name m name).
Definition lookup_by_address (self : t) (address : list Z) : t * outcome (option Z) :=
  Mutex.query self (λ m, AddressRotation.AddressRotationHandler.lookup_by_address m address).
Definition get_address (self : t) (node_id : Z) : t * outcome (option (list Z)) :=
  Mutex.query self (λ m, AddressRotation.AddressRotationHandler.get_address m node_id).
Definition get_name (self : t) (node_id : Z) : t * outcome (option (list Z)) :=
  Mutex.query self (λ m, AddressRotation.AddressRotationHandler.get_name m node_id).
Definition on_device_discovered (self : t) (name address : list Z)
    : t * outcome (option DeviceLookupResult.t) :=
  Mutex.call self (λ m,
    let '(m, r) := AddressRotation.AddressRotationHandler.on_device_discovered m name address in
    Ok (m, DeviceLookupResult.of_internal <$> r)).
Definition update_address (self : t) (name new_address : list Z) : t * outcome bool :=
  Mutex.call self (λ m,
    Ok (AddressRotation.AddressRotationHandler.update_address m name new_address)).
Definition update_name (self : t) (node_id : Z) (new_name : list Z) : t * outcome unit :=
  Mutex.update self (λ m, AddressRotation.AddressRotationHandler.update_name m node_id new_name).
Definition remove_device (self : t) (node_id : Z) : t * outcome unit :=
  Mutex.update self (λ m, AddressRotation.AddressRotationHandler.remove_device m node_id).
Definition clear (self : t) : t * outcome unit :=
  Mutex.update self AddressRotation.AddressRotationHandler.clear.
Definition device_count (self : t) : t * outcome Z :=
  Mutex.query self (λ m, count_u32 (AddressRotation.AddressRotationHandler.device_count m)).
Definition stats (self : t) : t * outcome AddressRotationStats.t :=
  Mutex.query self (λ m,
    AddressRotationStats.of_internal (AddressRotation.AddressRotationHandler.stats m)).
End AddressRotationObject.

Definition detect_device_pattern (name : list Z) : DevicePattern.t :=
  DevicePattern.of_internal (AddressRotation.detect_device_pattern name).
Definition is_weartak_device (name : list Z) : bool := AddressRotation.is_weartak_device name.
Definition normalize_weartak_name (name : list Z) : list Z :=
  AddressRotation.normalize_weartak_name name.
Definition device_pattern_rotates_addresses (pattern : DevicePattern.t) : bool :=
  DevicePattern.rotates_addresses pattern.

(** ** The client's loop of [Reconnect], through the object *)

Module ForeignLoop.
Import ReconnectLoop ReconnectionObject.

(** What follows a call only if it returns. *)
Definition and_then {A B R} (r : A * outcome R) (k : A → R → A * outcome B) : A * outcome B :=
  match r with
  | (self, Ok x) => k self x
  | (self, Fail) => (self, Fail)
  | (self, Panic) => (self, Panic)
  end.
Fixpoint record_all (self : t) (now : Z) (l : list (list Z)) : t * outcome unit :=
  match l with
  | [] => (self, Ok tt)
  | address :: l => and_then (record_attempt self address now) (λ self _, record_all self now l)
  end.
Definition step `{!MapOrder (list Z)} (self : t) (ev : Z * event) : t * outcome unit :=
  let '(now, ev) := ev in
  match ev with
  | Track address => track_disconnection self address now
  | Poll => and_then (get_peers_to_reconnect self now) (λ self due, record_all self now due)
  | Connected address => on_connection_success self address
  | Removed address => stop_tracking self address
  end.
Fixpoint run `{!MapOrder (list Z)} (self : t) (evs : list (Z * event)) : t * outcome unit :=
  match evs with
  | [] => (self, Ok tt)
  | ev :: evs => and_then (step self ev) (λ self _, run self evs)
  end.
End ForeignLoop.

(** * Theorems *)

Module MutexProofs.
Import Mutex.

Lemma call_ok {A R} (a a' : A) (f : A → outcome (A * R)) r :
  f a = Ok (a', r) → call (new a) f = (new a', Ok r).
Proof. intros Hf. unfold call. cbn. by rewrite Hf. Qed.
(** A panic is the last thing the object does. *)
Lemma poisoned_forever {A R} (self : t A) (f : A → outcome (A * R)) :
  (call self f).2 = Panic →
  ∀ (R' : Type) (g : A → outcome (A * R')), call (call self f).1 g = ((call self f).1, Panic).
Proof.
  unfold call. destruct (poisoned self) eqn:E; [intros _ R' g; cbn; by rewrite ?E|].
  destruct (f (inner self)) as [[a r]| |]; done.
Qed.
End MutexProofs.

Module ForeignLoopProofs.
Import MutexProofs ReconnectLoop ReconnectProofs.
Import Reconnect.ReconnectionManager.

Section loop.
Context `{!MapOrder (list Z)}.

Lemma record_all_refines now l : ∀ m m',
  ReconnectLoop.record_all m now l = Ok m' →
  ForeignLoop.record_all (Mutex.new m) now l = (Mutex.new m', Ok tt).
Proof.
  induction l as [|a l IH]; intros m m' Hr; cbn in *; [by injection Hr as <-|].
  unfold ReconnectionObject.record_attempt, Mutex.call. cbn.
  destruct (record_attempt m a now) as [m1| |]; cbn in *; [|done..]. by apply IH.
Qed.
Lemma step_refines m m' ev :
  ReconnectLoop.step m ev = Ok m' → ForeignLoop.step (Mutex.new m) ev = (Mutex.new m', Ok tt).
Proof.
  destruct ev as [now [a| |a|a]]; cbn; [by intros [= <-]| |by intros [= <-]..].
  intros Hr. unfold ReconnectionObject.get_peers_to_reconnect, Mutex.call. cbn.
  destruct (get_peers_to_reconnect m now) as [[m1 due]| |]; cbn in *; [|done..].
  by apply record_all_refines.
Qed.
Lemma run_refines evs : ∀ m m',
  ReconnectLoop.run m evs = Ok m' → ForeignLoop.run (Mutex.new m) evs = (Mutex.new m', Ok tt).
Proof.
  induction evs as [|ev evs IH]; intros m m' Hr; cbn in *; [by injection Hr as <-|].
  destruct (ReconnectLoop.step m ev) as [m1| |] eqn:E; cbn in *; [|done..].
  rewrite (step_refines _ _ _ E). cbn. by apply IH.
Qed.
End loop.

(** Milliseconds and durations. *)
Lemma from_millis_u64 ms : in_u 64 ms → millis_u64 (Duration.from_millis ms) = ms.
Proof.
  intros Hm. unfold millis_u64, Duration.as_millis, Duration.from_millis.
  rewrite Z.div_mul by lia. by apply wrap_small.
Qed.

(** What a foreign caller may configure: types in range, at least one attempt,
    and a delay whose doubling fits 64 bits. *)
Definition foreign_config_ok (c : ReconnectionConfig.t) : Prop :=
  1 ≤ ReconnectionConfig.max_attempts c < 2 ^ 32
  ∧ 0 ≤ ReconnectionConfig.base_delay_ms c < 2 ^ 34 ∧ in_u 64 (ReconnectionConfig.max_delay_ms c).
Lemma internal_config_ok c : foreign_config_ok c → config_ok (ReconnectionConfig.to_internal c).
Proof.
  intros (Ha & Hb & Hm). unfold config_ok, ReconnectionConfig.to_internal. cbn -[Z.pow].
  unfold Duration.as_millis, Duration.from_millis. rewrite !Z.div_mul by lia.
  split; [lia|]. split; [lia|]. split; [lia|]. split; [lia|]. split; [done|]. nia.
Qed.

Section schedule.
Context (c : ReconnectionConfig.t) (Hc : foreign_config_ok c).
Local Notation cfg := (ReconnectionConfig.to_internal c).

Lemma backoff_millis n : 0 ≤ n → ∃ ms, backoff cfg n = Duration.from_millis ms ∧ in_u 64 ms.
Proof.
  intros Hn. destruct Hc as (_ & Hb & Hm). unfold backoff.
  destruct (Reconnect.ReconnectionConfig.use_flat_delay cfg).
  - exists (ReconnectionConfig.base_delay_ms c). split; [done|lia].
  - eexists. split; [reflexivity|]. cbn -[Z.pow]. unfold Duration.as_millis, Duration.from_millis.
    rewrite !Z.div_mul by lia. assert (0 < 2 ^ Z.min n 30) by (apply Z.pow_pos_nonneg; lia). nia.
Qed.

(** The time left is rounded down to milliseconds: at no time before is the
    peer ready, and one millisecond after it is. *)
Lemma waiting_rounds now later times ms :
  (∀ last, head times = Some last → last ≤ now) → now ≤ later →
  ReconnectionStatus.of_internal (spec_status cfg now (Some times)) = ReconnectionStatus.Waiting ms →
  (later < now + Duration.from_millis ms →
     ReconnectionStatus.of_internal (spec_status cfg later (Some times)) ≠ ReconnectionStatus.Ready)
  ∧ (now + Duration.from_millis (ms + 1) ≤ later →
     ReconnectionStatus.of_internal (spec_status cfg later (Some times)) = ReconnectionStatus.Ready).
Proof.
  unfold spec_status. destruct (renew cfg times) as [|last rest] eqn:E; [done|].
  assert (head times = Some last) as Hh by (unfold renew in E; by destruct (_ && _); subst).
  intros Hlast Hlater. specialize (Hlast last Hh).
  destruct (_ <=? zlen (last :: rest)); [done|].
  destruct (backoff_millis (zlen (last :: rest)) ltac:(len)) as (d & -> & Hd).
  destruct (Z.leb_spec (Duration.from_millis d) (now - last)) as [|Hlt]; [done|]. intros [= <-].
  assert (millis_u64 (Duration.from_millis d - (now - last))
    = (Duration.from_millis d - (now - last)) / 10 ^ 6) as ->.
  { unfold millis_u64, Duration.as_millis. apply wrap_small.
    unfold Duration.from_millis in *. split; [apply Z.div_pos; lia|].
    apply Z.div_lt_upper_bound; lia. }
  pose proof (Z.div_mod (Duration.from_millis d - (now - last)) (10 ^ 6) ltac:(lia)) as Hdm.
  pose proof (Z.mod_pos_bound (Duration.from_millis d - (now - last)) (10 ^ 6) ltac:(lia)) as Hm.
  revert Hdm Hm. generalize ((Duration.from_millis d - (now - last)) / 10 ^ 6).
  generalize ((Duration.from_millis d - (now - last)) mod 10 ^ 6). intros r q Hdm Hm.
  unfold Duration.from_millis in *. split; intros Hl.
  - rewrite (proj2 (Z.leb_gt _ _)) by lia. done.
  - rewrite (proj2 (Z.leb_le _ _)) by lia. done.
Qed.
End schedule.

End ForeignLoopProofs.

Module ForeignManagerProperties.
Import ReconnectLoop ReconnectProofs ForeignLoopProofs MutexProofs.
Import Reconnect.ReconnectionManager (peers).

(** What [get_peer_stats] says of the attempts made at a peer. *)
Definition delay_ms (c : ReconnectionConfig.t) (times : list Z) : Z :=
  if ReconnectionConfig.max_attempts c <=? zlen times then 2 ^ 64 - 1
  else if zlen times =? 0 then 0
  else Duration.as_millis (backoff (ReconnectionConfig.to_internal c) (zlen times)).

Lemma stats_follow `{!MapOrder (list Z)} c (Hc : foreign_config_ok c) now m h a times :
  follows (ReconnectionConfig.to_internal c) now m h → h !! a = Some times →
  ∃ d, ReconnectionObject.get_peer_stats (Mutex.new m) a now
    = (Mutex.new m, Ok (Some (PeerReconnectionStats.mk (zlen times)
         (ReconnectionConfig.max_attempts c) d (delay_ms c times)))).
Proof.
  intros Hf Hh. unfold ReconnectionObject.get_peer_stats, Reconnect.ReconnectionManager.get_peer_stats.
  destruct (follows_lookup _ _ _ _ a Hf) as [[_ ?]|(st & times' & Ha & ? & Hp)]; simplify_eq.
  destruct Hp as (Hat & _). destruct Hf as [Hm _]. unfold Mutex.call. cbn [Mutex.new Mutex.poisoned Mutex.inner].
  rewrite Ha, Hm, Hat. change (Reconnect.ReconnectionConfig.max_attempts
    (ReconnectionConfig.to_internal c)) with (ReconnectionConfig.max_attempts c).
  unfold delay_ms. destruct (_ <=? zlen times) eqn:E; [|destruct (zlen times =? 0)].
  - eexists. reflexivity.
  - eexists. reflexivity.
  - rewrite (calculate_delay_ok (ReconnectionConfig.to_internal c)) by (done || by apply internal_config_ok || len).
    destruct (backoff_millis c Hc (zlen times) ltac:(len)) as (d & -> & Hd). eexists.
    cbn [obind fmap option_fmap option_map PeerReconnectionStats.of_internal
      Reconnect.PeerReconnectionStats.next_attempt_delay]. unfold PeerReconnectionStats.of_internal.
    cbn [Reconnect.PeerReconnectionStats.next_attempt_delay Reconnect.PeerReconnectionStats.attempts
      Reconnect.PeerReconnectionStats.max_attempts]. rewrite from_millis_u64 by done.
    unfold Duration.as_millis, Duration.from_millis. rewrite Z.div_mul by lia. reflexivity.
Qed.

(** The reconnection object of the foreign-function surface.  A client on
    the other side runs its loop of disconnections, polls, attempts, successes
    and removals on a configuration in milliseconds whose base delay is below
    2^34: no call ever fails, so that the mutex is never poisoned, and the
    status of every peer is the one the schedule gives in the crate.  A
    waiting time in milliseconds is honest: at no time before it has passed is
    the peer ready, and one millisecond after it the peer is.  The statistics
    tell the attempts, and the delay of the schedule: zero before the first
    attempt and, although the conversion to 64 bits truncates, exactly the
    largest number when the attempts are exhausted. *)
Theorem foreign_reconnection_schedule `{!MapOrder (list Z)} c evs t now
    (Hc : foreign_config_ok c) (Hord : ordered t evs) (Hnow : last_time t evs ≤ now) :
  let cfg := ReconnectionConfig.to_internal c in
  let history := foldl (spec_step cfg) ∅ evs in
  ∃ obj, ForeignLoop.run (ReconnectionObject.new c) evs = (obj, Ok tt)
    ∧ Mutex.poisoned obj = false
    ∧ (∀ a, ReconnectionObject.get_status obj a now
            = (obj, Ok (ReconnectionStatus.of_internal (spec_status cfg now (history !! a)))))
    ∧ (∀ a ms later, now ≤ later →
         (ReconnectionObject.get_status obj a now).2 = Ok (ReconnectionStatus.Waiting ms) →
         (later < now + Duration.from_millis ms →
            (ReconnectionObject.get_status obj a later).2 ≠ Ok ReconnectionStatus.Ready)
         ∧ (now + Duration.from_millis (ms + 1) ≤ later →
            (ReconnectionObject.get_status obj a later).2 = Ok ReconnectionStatus.Ready))
    ∧ ∀ a times, history !! a = Some times → ∃ d,
        ReconnectionObject.get_peer_stats obj a now
        = (obj, Ok (Some (PeerReconnectionStats.mk (zlen times)
             (ReconnectionConfig.max_attempts c) d (delay_ms c times)))).
Proof.
  intros cfg history. pose proof (internal_config_ok c Hc) as Hcfg.
  destruct (run_follows cfg Hcfg evs t (Reconnect.ReconnectionManager.new cfg) ∅) as (m & Hrun & Hf); [|done|].
  { apply follows_intro; [done|]. intros a. left. by rewrite !lookup_empty. }
  fold history in Hf.
  assert (∀ a at_, now ≤ at_ → ReconnectionObject.get_status (Mutex.new m) a at_
    = (Mutex.new m, Ok (ReconnectionStatus.of_internal (spec_status cfg at_ (history !! a))))) as Hst.
  { intros a at_ Hat. apply (follows_later _ _ at_) in Hf as Hf'; [|lia].
    apply call_ok. by rewrite (status_follows cfg Hcfg at_ m history a Hf'). }
  exists (Mutex.new m). split_and!.
  - by apply run_refines.
  - done.
  - intros a. by apply Hst.
  - intros a ms later Hlater. rewrite !Hst by done. cbn [snd]. intros [= Hw].
    destruct (follows_lookup _ _ _ _ a Hf) as [[_ Hh]|(st & times & _ & Hh & (_ & Hlast & _))];
      rewrite Hh in *; [done|].
    destruct (waiting_rounds c Hc now later times ms) as [Hb Ha]; [|done|done|].
    { intros last Hl. destruct (Hlast last Hl). lia. }
    split; intros Hl; [intros [= Hr]; by apply Hb|f_equal; by apply Ha].
  - intros a times Hh. apply (stats_follow c Hc now m history); [|done].
    eapply follows_later; [|exact Hf]. done.
Qed.

Lemma foreign_reconnection_schedule_witness :
  let c := ReconnectionConfig.mk 1000 15000 3 5000 false false in
  let cfg := ReconnectionConfig.to_internal c in
  let s := Duration.from_secs in
  let evs := [(s 0, Track [65]); (s 1, Poll); (s 2, Poll); (s 4, Poll); (s 5, Track [66]);
              (s 8, Poll); (s 20, Poll)] in
  let history := foldl (spec_step cfg) ∅ evs in
  delay_ms c [s 8; s 4; s 1] = 2 ^ 64 - 1
  ∧ ∃ obj, ForeignLoop.run (ReconnectionObject.new c) evs = (obj, Ok tt)
    ∧ Mutex.poisoned obj = false
    ∧ (∀ a, ReconnectionObject.get_status obj a (s 21)
            = (obj, Ok (ReconnectionStatus.of_internal (spec_status cfg (s 21) (history !! a)))))
    ∧ (∀ a ms later, s 21 ≤ later →
         (ReconnectionObject.get_status obj a (s 21)).2 = Ok (ReconnectionStatus.Waiting ms) →
         (later < s 21 + Duration.from_millis ms →
            (ReconnectionObject.get_status obj a later).2 ≠ Ok ReconnectionStatus.Ready)
         ∧ (s 21 + Duration.from_millis (ms + 1) ≤ later →
            (ReconnectionObject.get_status obj a later).2 = Ok ReconnectionStatus.Ready))
    ∧ ∀ a times, history !! a = Some times → ∃ d,
        ReconnectionObject.get_peer_stats obj a (s 21)
        = (obj, Ok (Some (PeerReconnectionStats.mk (zlen times) 3 d (delay_ms c times)))).
Proof.
  intros c cfg s evs history. split; [vm_compute; reflexivity|].
  apply (foreign_reconnection_schedule c evs 0 (s 21)).
  - unfold foreign_config_ok, c. cbn -[Z.pow]. split_and!; lia.
  - cbn. unfold s, Duration.from_secs. split_and!; lia.
  - vm_compute. discriminate.
Defined.

(** A base delay that overflows: the first recorded attempt panics in a build
    that checks overflow, and the object is of no use any more. *)
Example huge_delay_poisons :
  let c := ReconnectionConfig.mk (2 ^ 63) (2 ^ 63) 3 5000 false false in
  let obj := (ReconnectionObject.track_disconnection (ReconnectionObject.new c) [65] 0).1 in
  let '(obj, r) := ReconnectionObject.record_attempt obj [65] 1 in
  r = Panic ∧ (ReconnectionObject.tracked_count obj).2 = Panic
  ∧ (ReconnectionObject.clear obj).2 = Panic.
Proof. vm_compute. done. Qed.

End ForeignManagerProperties.
