(* ===== verification/PeerGraph.v ===== *)
(** * Peers of src/src/peer.rs: the connection state of each direct peer as a
    state machine, and the peers reached through relays.  Times are
    milliseconds given by the caller; texts are their UTF-8 bytes. *)

From stdpp Require Import base numbers list gmap sets relations.
From S2P Require Import Prelude.
Open Scope Z_scope.
Open Scope peat_scope.

Module SignalStrength.
Inductive t := Excellent | Good | Fair | Weak.
#[global] Instance signal_eq_dec : EqDecision t.
Proof. solve_decision. Defined.

(** The [match] on the RSSI of both [signal_strength] methods. *)
Definition of_rssi (r : Z) : t :=
  if -50 <=? r then Excellent else if -70 <=? r then Good else if -85 <=? r then Fair else Weak.
End SignalStrength.

Module PeatPeer.

Record t := mk {
  node_id : Z; identifier : list Z; mesh_id : option (list Z); name : option (list Z);
  rssi : Z; is_connected : bool; last_seen_ms : Z
}.

Definition new (node_id : Z) (identifier : list Z) (mesh_id name : option (list Z)) (rssi : Z) : t :=
  mk node_id identifier mesh_id name rssi false 0.
Definition default_peer : t := mk 0 [] None None (-100) false 0.
Definition touch (self : t) (now_ms : Z) : t :=
  mk (node_id self) (identifier self) (mesh_id self) (name self) (rssi self)
    (is_connected self) now_ms.
Definition is_stale (self : t) (now_ms timeout_ms : Z) : bool :=
  if last_seen_ms self =? 0 then false
  else timeout_ms <? saturating_sub now_ms (last_seen_ms self).
Definition display_name (self : t) : list Z := default (identifier self) (name self).
Definition signal_strength (self : t) : SignalStrength.t := SignalStrength.of_rssi (rssi self).

End PeatPeer.

Module ConnectionState.
Inductive t :=
| Discovered | Connecting | Connected | Degraded | Disconnecting | Disconnected | Lost.
#[global] Instance connection_state_eq_dec : EqDecision t.
Proof. solve_decision. Defined.

Definition is_connected (self : t) : bool :=
  match self with Connected | Degraded => true | _ => false end.
Definition was_connected (self : t) : bool :=
  match self with
  | Connected | Degraded | Disconnecting | Disconnected | Lost => true | _ => false
  end.
Definition is_degraded_or_worse (self : t) : bool :=
  match self with Degraded | Disconnecting | Disconnected | Lost => true | _ => false end.
End ConnectionState.

Module DisconnectReason.
Inductive t := LocalRequest | RemoteRequest | Timeout_ | LinkLoss | ConnectionFailed | Unknown.
#[global] Instance disconnect_reason_eq_dec : EqDecision t.
Proof. solve_decision. Defined.
End DisconnectReason.

Module PeerConnectionState.

Record t := mk {
  node_id : Z; identifier : list Z; state : ConnectionState.t;
  discovered_at : Z; connected_at : option Z; disconnected_at : option Z;
  disconnect_reason : option DisconnectReason.t; last_rssi : option Z;
  connection_count : Z; documents_synced : Z; bytes_received : Z; bytes_sent : Z;
  last_seen_ms : Z; name : option (list Z); mesh_id : option (list Z)
}.
#[global] Instance peer_connection_eq_dec : EqDecision t.
Proof. solve_decision. Defined.

Definition new_discovered (node_id : Z) (identifier : list Z) (now_ms : Z) : t :=
  mk node_id identifier ConnectionState.Discovered now_ms None None None None 0 0 0 0 now_ms
    None None.

Definition from_peer (peer : PeatPeer.t) (now_ms : Z) : t :=
  let connected := PeatPeer.is_connected peer in
  mk (PeatPeer.node_id peer) (PeatPeer.identifier peer)
    (if connected then ConnectionState.Connected else ConnectionState.Discovered)
    now_ms (if connected then Some now_ms else None) None None (Some (PeatPeer.rssi peer))
    (if connected then 1 else 0) 0 0 0 (PeatPeer.last_seen_ms peer)
    (PeatPeer.name peer) (PeatPeer.mesh_id peer).

(** The fields an operation assigns. *)
Definition with_state (self : t) (s : ConnectionState.t) (now_ms : Z) : t :=
  mk (node_id self) (identifier self) s (discovered_at self) (connected_at self)
    (disconnected_at self) (disconnect_reason self) (last_rssi self) (connection_count self)
    (documents_synced self) (bytes_received self) (bytes_sent self) now_ms (name self)
    (mesh_id self).

Definition set_connecting (self : t) (now_ms : Z) : t :=
  with_state self ConnectionState.Connecting now_ms.

Definition set_connected (self : t) (now_ms : Z) : outcome t :=
  let! count := add_u 32 (connection_count self) 1 in
  Ok (mk (node_id self) (identifier self) ConnectionState.Connected (discovered_at self)
        (Some now_ms) (disconnected_at self) None (last_rssi self) count
        (documents_synced self) (bytes_received self) (bytes_sent self) now_ms (name self)
        (mesh_id self)).

Definition set_degraded (self : t) (now_ms : Z) : t :=
  if decide (state self = ConnectionState.Connected)
  then with_state self ConnectionState.Degraded now_ms else self.

Definition set_disconnected (self : t) (now_ms : Z) (reason : DisconnectReason.t) : t :=
  mk (node_id self) (identifier self) ConnectionState.Disconnected (discovered_at self)
    (connected_at self) (Some now_ms) (Some reason) (last_rssi self) (connection_count self)
    (documents_synced self) (bytes_received self) (bytes_sent self) now_ms (name self)
    (mesh_id self).

Definition set_lost (self : t) (now_ms : Z) : t :=
  if decide (state self = ConnectionState.Disconnected)
  then with_state self ConnectionState.Lost now_ms else self.

Definition with_rssi (self : t) (rssi now_ms : Z) : t :=
  mk (node_id self) (identifier self) (state self) (discovered_at self) (connected_at self)
    (disconnected_at self) (disconnect_reason self) (Some rssi) (connection_count self)
    (documents_synced self) (bytes_received self) (bytes_sent self) now_ms (name self)
    (mesh_id self).

Definition update_rssi (self : t) (rssi now_ms degraded_threshold : Z) : t * bool :=
  let self := with_rssi self rssi now_ms in
  if bool_decide (state self = ConnectionState.Connected) && (rssi <? degraded_threshold)
  then (with_state self ConnectionState.Degraded now_ms, true)
  else if bool_decide (state self = ConnectionState.Degraded) && (degraded_threshold <=? rssi)
  then (with_state self ConnectionState.Connected now_ms, false)
  else (self, false).

Definition record_transfer (self : t) (received sent : Z) : outcome t :=
  let! received := add_u 64 (bytes_received self) received in
  let! sent := add_u 64 (bytes_sent self) sent in
  Ok (mk (node_id self) (identifier self) (state self) (discovered_at self)
        (connected_at self) (disconnected_at self) (disconnect_reason self) (last_rssi self)
        (connection_count self) (documents_synced self) received sent
        (last_seen_ms self) (name self) (mesh_id self)).

Definition record_sync (self : t) : outcome t :=
  let! synced := add_u 32 (documents_synced self) 1 in
  Ok (mk (node_id self) (identifier self) (state self) (discovered_at self)
        (connected_at self) (disconnected_at self) (disconnect_reason self) (last_rssi self)
        (connection_count self) synced (bytes_received self) (bytes_sent self)
        (last_seen_ms self) (name self) (mesh_id self)).

Definition time_since_connected (self : t) (now_ms : Z) : option Z :=
  saturating_sub now_ms <$> connected_at self.
Definition time_since_disconnected (self : t) (now_ms : Z) : option Z :=
  saturating_sub now_ms <$> disconnected_at self.
Definition connection_duration (self : t) (now_ms : Z) : option Z :=
  if ConnectionState.is_connected (state self)
  then saturating_sub now_ms <$> connected_at self else None.
Definition signal_strength (self : t) : option SignalStrength.t :=
  SignalStrength.of_rssi <$> last_rssi self.

End PeerConnectionState.

Definition MAX_TRACKED_DEGREE : Z := 3.

Module PeerDegree.
Inductive t := Direct | OneHop | TwoHop | ThreeHop.
#[global] Instance peer_degree_eq_dec : EqDecision t.
Proof. solve_decision. Defined.
Definition from_hops (hops : Z) : option t :=
  if hops =? 0 then Some Direct else if hops =? 1 then Some OneHop
  else if hops =? 2 then Some TwoHop else if hops =? 3 then Some ThreeHop else None.
Definition hops (self : t) : Z :=
  match self with Direct => 0 | OneHop => 1 | TwoHop => 2 | ThreeHop => 3 end.
End PeerDegree.

Module IndirectPeer.

Record t := mk {
  node_id : Z; min_hops : Z; via_peers : gmap Z Z; discovered_at : Z; last_seen_ms : Z;
  messages_received : Z; callsign : option (list Z)
}.

Definition new (node_id via_peer hop_count now_ms : Z) : t :=
  mk node_id hop_count {[via_peer := hop_count]} now_ms now_ms 1 None.

(** [via_peers.values().copied().min().unwrap_or(d)]. *)
Definition least_hops (via : gmap Z Z) (d : Z) : Z :=
  match (bt_iter via).*2 with [] => d | h :: hs => foldl Z.min h hs end.

Definition update_path (self : t) (via_peer hop_count now_ms : Z) : outcome (t * bool) :=
  let! received := add_u 32 (messages_received self) 1 in
  let is_better := hop_count <? min_hops self in
  let via := <[via_peer := hop_count]> (via_peers self) in
  Ok (mk (node_id self) (if is_better then hop_count else least_hops via hop_count) via
        (discovered_at self) now_ms received (callsign self), is_better).

Definition degree (self : t) : option PeerDegree.t := PeerDegree.from_hops (min_hops self).
Definition is_stale (self : t) (now_ms timeout_ms : Z) : bool :=
  timeout_ms <? saturating_sub now_ms (last_seen_ms self).
Definition paths (self : t) : list (Z * Z) := bt_iter (via_peers self).

End IndirectPeer.

Module StateCountSummary.
Record t := mk {
  discovered : Z; connecting : Z; connected : Z; degraded : Z; disconnecting : Z;
  disconnected : Z; lost : Z
}.
Definition zero : t := mk 0 0 0 0 0 0 0.
Definition count (c : t) (s : ConnectionState.t) : t :=
  let 'mk a b d e f g h := c in
  match s with
  | ConnectionState.Discovered => mk (a + 1) b d e f g h
  | ConnectionState.Connecting => mk a (b + 1) d e f g h
  | ConnectionState.Connected => mk a b (d + 1) e f g h
  | ConnectionState.Degraded => mk a b d (e + 1) f g h
  | ConnectionState.Disconnecting => mk a b d e (f + 1) g h
  | ConnectionState.Disconnected => mk a b d e f (g + 1) h
  | ConnectionState.Lost => mk a b d e f g (h + 1)
  end.
Definition active_connections (self : t) : Z := connected self + degraded self.
Definition total (self : t) : Z :=
  discovered self + connecting self + connected self + degraded self + disconnecting self
  + disconnected self + lost self.
End StateCountSummary.

Module FullStateCountSummary.
Record t := mk { direct : StateCountSummary.t; one_hop : Z; two_hop : Z; three_hop : Z }.
Definition total (self : t) : Z :=
  StateCountSummary.total (direct self) + one_hop self + two_hop self + three_hop self.
Definition total_indirect (self : t) : Z := one_hop self + two_hop self + three_hop self.
End FullStateCountSummary.

Module ConnectionStateGraph.

Record t := mk {
  peers : gmap Z PeerConnectionState.t; indirect_peers : gmap Z IndirectPeer.t;
  rssi_degraded_threshold : Z; lost_timeout_ms : Z; indirect_peer_timeout_ms : Z
}.

Definition new : t := mk ∅ ∅ (-80) 30000 120000.
Definition with_config (rssi_degraded_threshold lost_timeout_ms : Z) : t :=
  mk ∅ ∅ rssi_degraded_threshold lost_timeout_ms 120000.

Definition set_peers (self : t) (m : gmap Z PeerConnectionState.t) : t :=
  mk m (indirect_peers self) (rssi_degraded_threshold self) (lost_timeout_ms self)
    (indirect_peer_timeout_ms self).
Definition set_indirect (self : t) (m : gmap Z IndirectPeer.t) : t :=
  mk (peers self) m (rssi_degraded_threshold self) (lost_timeout_ms self)
    (indirect_peer_timeout_ms self).

Definition values (self : t) : list PeerConnectionState.t := (bt_iter (peers self)).*2.
Definition get_all (self : t) : list PeerConnectionState.t := values self.
Definition get_peer (self : t) (node_id : Z) : option PeerConnectionState.t := peers self !! node_id.
Definition get_connected (self : t) : list PeerConnectionState.t :=
  filter (λ p, ConnectionState.is_connected (PeerConnectionState.state p) = true) (values self).
Definition get_degraded (self : t) : list PeerConnectionState.t :=
  filter (λ p, PeerConnectionState.state p = ConnectionState.Degraded) (values self).
Definition get_recently_disconnected (self : t) (within_ms now_ms : Z)
    : list PeerConnectionState.t :=
  filter (λ p, PeerConnectionState.state p = ConnectionState.Disconnected ∧
      match PeerConnectionState.disconnected_at p with
      | Some t => saturating_sub now_ms t <=? within_ms | None => false end = true)
    (values self).
Definition get_lost (self : t) : list PeerConnectionState.t :=
  filter (λ p, PeerConnectionState.state p = ConnectionState.Lost) (values self).
Definition get_with_history (self : t) : list PeerConnectionState.t :=
  filter (λ p, ConnectionState.was_connected (PeerConnectionState.state p) = true) (values self).
Definition state_counts (self : t) : StateCountSummary.t :=
  foldl (λ c p, StateCountSummary.count c (PeerConnectionState.state p))
    StateCountSummary.zero (values self).
Definition len (self : t) : Z := Z.of_nat (size (peers self)).
Definition is_empty (self : t) : bool := Nat.eqb (size (peers self)) 0.

Definition on_discovered (self : t) (node_id : Z) (identifier : list Z)
    (name mesh_id : option (list Z)) (rssi now_ms : Z) : t :=
  let entry := default (PeerConnectionState.new_discovered node_id identifier now_ms)
                 (peers self !! node_id) in
  let entry := PeerConnectionState.with_rssi entry rssi now_ms in
  let 'PeerConnectionState.mk n i s d c dd r l cc ds br bs ls nm mi := entry in
  let nm := match name with Some _ => name | None => nm end in
  let mi := match mesh_id with Some _ => mesh_id | None => mi end in
  let s := if decide (s = ConnectionState.Lost) then ConnectionState.Disconnected else s in
  set_peers self
    (<[node_id := PeerConnectionState.mk n i s d c dd r l cc ds br bs ls nm mi]> (peers self)).

(** [if let Some(peer) = self.peers.get_mut(&node_id) { ... }]. *)
Definition update (self : t) (node_id : Z)
    (f : PeerConnectionState.t → outcome PeerConnectionState.t) : outcome t :=
  match peers self !! node_id with
  | Some p => let! p := f p in Ok (set_peers self (<[node_id := p]> (peers self)))
  | None => Ok self
  end.

Definition on_connecting (self : t) (node_id now_ms : Z) : outcome t :=
  update self node_id (λ p, Ok (PeerConnectionState.set_connecting p now_ms)).
Definition on_connected (self : t) (node_id now_ms : Z) : outcome t :=
  update self node_id (λ p, PeerConnectionState.set_connected p now_ms).
Definition on_disconnected (self : t) (node_id : Z) (reason : DisconnectReason.t) (now_ms : Z)
    : outcome t :=
  update self node_id (λ p, Ok (PeerConnectionState.set_disconnected p now_ms reason)).
Definition update_rssi (self : t) (node_id rssi now_ms : Z) : t * bool :=
  match peers self !! node_id with
  | Some p =>
      let '(p, b) := PeerConnectionState.update_rssi p rssi now_ms (rssi_degraded_threshold self) in
      (set_peers self (<[node_id := p]> (peers self)), b)
  | None => (self, false)
  end.
Definition record_transfer (self : t) (node_id received sent : Z) : outcome t :=
  update self node_id (λ p, PeerConnectionState.record_transfer p received sent).
Definition record_sync (self : t) (node_id : Z) : outcome t :=
  update self node_id PeerConnectionState.record_sync.

Definition lost_now (self : t) (now_ms : Z) (p : PeerConnectionState.t) : bool :=
  match PeerConnectionState.state p, PeerConnectionState.disconnected_at p with
  | ConnectionState.Disconnected, Some disconnected_at =>
      lost_timeout_ms self <? saturating_sub now_ms disconnected_at
  | _, _ => false
  end.
Definition tick (self : t) (now_ms : Z) : t * list Z :=
  let '(m, newly_lost) :=
    foldl (λ '(m, newly_lost) '(node_id, peer),
        if lost_now self now_ms peer
        then (<[node_id := PeerConnectionState.set_lost peer now_ms]> m, newly_lost ++ [node_id])
        else (m, newly_lost))
      (peers self, []) (bt_iter (peers self)) in
  (set_peers self m, newly_lost).

Definition cleanup_lost (self : t) (older_than_ms now_ms : Z) : t * list Z :=
  let to_remove :=
    (filter (λ e, PeerConnectionState.state e.2 = ConnectionState.Lost ∧
               older_than_ms < saturating_sub now_ms (PeerConnectionState.last_seen_ms e.2))
       (bt_iter (peers self))).*1 in
  (set_peers self (foldl (λ m id, delete id m) (peers self) to_remove), to_remove).

Definition import_peer (self : t) (peer : PeatPeer.t) (now_ms : Z) : t :=
  set_peers self
    (<[PeatPeer.node_id peer := PeerConnectionState.from_peer peer now_ms]> (peers self)).

Definition on_relay_received (self : t) (source_peer origin_node hop_count now_ms : Z)
    : outcome (t * bool) :=
  if MAX_TRACKED_DEGREE <? hop_count then Ok (self, false)
  else if bool_decide (is_Some (peers self !! origin_node)) then Ok (self, false)
  else
    match indirect_peers self !! origin_node with
    | Some existing =>
        let! r := IndirectPeer.update_path existing source_peer hop_count now_ms in
        Ok (set_indirect self (<[origin_node := r.1]> (indirect_peers self)), false)
    | None =>
        Ok (set_indirect self (<[origin_node :=
              IndirectPeer.new origin_node source_peer hop_count now_ms]> (indirect_peers self)),
            true)
    end.

Definition get_indirect_peers (self : t) : list IndirectPeer.t := (bt_iter (indirect_peers self)).*2.
Definition get_indirect_peer (self : t) (node_id : Z) : option IndirectPeer.t :=
  indirect_peers self !! node_id.
Definition get_peers_by_degree (self : t) (degree : PeerDegree.t) : list Z :=
  match degree with
  | PeerDegree.Direct => (bt_iter (peers self)).*1
  | _ => (filter (λ e, IndirectPeer.degree e.2 = Some degree) (bt_iter (indirect_peers self))).*1
  end.
Definition peer_degree (self : t) (node_id : Z) : option PeerDegree.t :=
  if bool_decide (is_Some (peers self !! node_id)) then Some PeerDegree.Direct
  else match indirect_peers self !! node_id with
       | Some p => IndirectPeer.degree p | None => None end.
Definition get_paths_to (self : t) (node_id : Z) : list (Z * Z) :=
  match indirect_peers self !! node_id with Some p => IndirectPeer.paths p | None => [] end.
Definition is_known (self : t) (node_id : Z) : bool :=
  bool_decide (is_Some (peers self !! node_id)) ||
  bool_decide (is_Some (indirect_peers self !! node_id)).

Definition cleanup_indirect (self : t) (now_ms : Z) : t * list Z :=
  let to_remove :=
    (filter (λ e, IndirectPeer.is_stale e.2 now_ms (indirect_peer_timeout_ms self) = true)
       (bt_iter (indirect_peers self))).*1 in
  (set_indirect self (foldl (λ m id, delete id m) (indirect_peers self) to_remove), to_remove).

Definition remove_via_peer (self : t) (via_peer : Z) : t :=
  let '(m, to_remove) :=
    foldl (λ '(m, to_remove) '(node_id, indirect),
        let 'IndirectPeer.mk n h v d l r c := indirect in
        let v := delete via_peer v in
        if Nat.eqb (size v) 0
        then (<[node_id := IndirectPeer.mk n h v d l r c]> m, to_remove ++ [node_id])
        else (<[node_id := IndirectPeer.mk n (IndirectPeer.least_hops v 255) v d l r c]> m,
              to_remove))
      (indirect_peers self, []) (bt_iter (indirect_peers self)) in
  set_indirect self (foldl (λ m id, delete id m) m to_remove).

Definition full_state_counts (self : t) : FullStateCountSummary.t :=
  let hops h := zlen (filter (λ p, IndirectPeer.min_hops p = h) (get_indirect_peers self)) in
  FullStateCountSummary.mk (state_counts self) (hops 1) (hops 2) (hops 3).
Definition indirect_peer_count (self : t) : Z := Z.of_nat (size (indirect_peers self)).
Definition set_indirect_callsign (self : t) (node_id : Z) (callsign : list Z) : t :=
  match indirect_peers self !! node_id with
  | Some (IndirectPeer.mk n h v d l r _) =>
      set_indirect self
        (<[node_id := IndirectPeer.mk n h v d l r (Some callsign)]> (indirect_peers self))
  | None => self
  end.

End ConnectionStateGraph.

(** * The graph as a machine

    An [event] is one call of an operation that changes the graph. *)

Module GraphEvent.
Inductive t :=
| Discovered (n : Z) (identifier : list Z) (name mesh_id : option (list Z)) (rssi now : Z)
| Connecting (n now : Z)
| Connected (n now : Z)
| Disconnected (n : Z) (reason : DisconnectReason.t) (now : Z)
| Rssi (n rssi now : Z)
| Transfer (n received sent : Z)
| Sync (n : Z)
| Tick (now : Z)
| CleanupLost (older_than now : Z)
| Import (peer : PeatPeer.t) (now : Z)
| Relay (source origin hops now : Z)
| CleanupIndirect (now : Z)
| RemoveVia (via : Z)
| Callsign (n : Z) (callsign : list Z).

Definition apply (g : ConnectionStateGraph.t) (e : t) : outcome ConnectionStateGraph.t :=
  match e with
  | Discovered n i nm mi r now => Ok (ConnectionStateGraph.on_discovered g n i nm mi r now)
  | Connecting n now => ConnectionStateGraph.on_connecting g n now
  | Connected n now => ConnectionStateGraph.on_connected g n now
  | Disconnected n r now => ConnectionStateGraph.on_disconnected g n r now
  | Rssi n r now => Ok (ConnectionStateGraph.update_rssi g n r now).1
  | Transfer n a b => ConnectionStateGraph.record_transfer g n a b
  | Sync n => ConnectionStateGraph.record_sync g n
  | Tick now => Ok (ConnectionStateGraph.tick g now).1
  | CleanupLost o now => Ok (ConnectionStateGraph.cleanup_lost g o now).1
  | Import p now => Ok (ConnectionStateGraph.import_peer g p now)
  | Relay s o h now => let! r := ConnectionStateGraph.on_relay_received g s o h now in Ok r.1
  | CleanupIndirect now => Ok (ConnectionStateGraph.cleanup_indirect g now).1
  | RemoveVia via => Ok (ConnectionStateGraph.remove_via_peer g via)
  | Callsign n c => Ok (ConnectionStateGraph.set_indirect_callsign g n c)
  end.

Definition run (g : ConnectionStateGraph.t) (es : list t) : outcome ConnectionStateGraph.t :=
  foldl (λ acc e, let! g := acc in apply g e) (Ok g) es.

(** Bytes an event adds, and the ranges of its arguments. *)
Definition bytes (e : t) : Z := match e with Transfer _ a b => a + b | _ => 0 end.
Definition typed (e : t) : Prop :=
  match e with Transfer _ a b => 0 ≤ a ∧ 0 ≤ b | Relay _ _ h _ => 0 ≤ h | _ => True end.
End GraphEvent.

(** The specification: each direct peer is an automaton of its own, driven
    by the events that name it and by the two timers. *)
Module PeerAutomaton.

Record status := mk_status { st : ConnectionState.t; down_since : option Z; seen : Z }.

Definition status_of (g : ConnectionStateGraph.t) (n : Z) : option status :=
  (λ p, mk_status (PeerConnectionState.state p) (PeerConnectionState.disconnected_at p)
          (PeerConnectionState.last_seen_ms p)) <$> ConnectionStateGraph.peers g !! n.

Definition rssi_state (threshold rssi : Z) (s : ConnectionState.t) : ConnectionState.t :=
  match s with
  | ConnectionState.Connected =>
      if rssi <? threshold then ConnectionState.Degraded else ConnectionState.Connected
  | ConnectionState.Degraded =>
      if threshold <=? rssi then ConnectionState.Connected else ConnectionState.Degraded
  | s => s
  end.
Definition timed_out (lost_timeout now : Z) (s : status) : bool :=
  match st s, down_since s with
  | ConnectionState.Disconnected, Some d => lost_timeout <? saturating_sub now d
  | _, _ => false
  end.
Definition forgotten (older_than now : Z) (s : status) : bool :=
  match st s with
  | ConnectionState.Lost => older_than <? saturating_sub now (seen s) | _ => false
  end.

Definition next (threshold lost_timeout : Z) (e : GraphEvent.t) (n : Z) (s : option status)
    : option status :=
  match e with
  | GraphEvent.Discovered id _ _ _ _ now =>
      if n =? id then
        match s with
        | None => Some (mk_status ConnectionState.Discovered None now)
        | Some s =>
            Some (mk_status (match st s with ConnectionState.Lost => ConnectionState.Disconnected
                             | x => x end) (down_since s) now)
        end
      else s
  | GraphEvent.Connecting id now =>
      if n =? id then (λ s, mk_status ConnectionState.Connecting (down_since s) now) <$> s else s
  | GraphEvent.Connected id now =>
      if n =? id then (λ s, mk_status ConnectionState.Connected (down_since s) now) <$> s else s
  | GraphEvent.Disconnected id _ now =>
      if n =? id then (λ _, mk_status ConnectionState.Disconnected (Some now) now) <$> s else s
  | GraphEvent.Rssi id rssi now =>
      if n =? id
      then (λ s, mk_status (rssi_state threshold rssi (st s)) (down_since s) now) <$> s else s
  | GraphEvent.Tick now =>
      (λ s, if timed_out lost_timeout now s
            then mk_status ConnectionState.Lost (down_since s) now else s) <$> s
  | GraphEvent.CleanupLost older now =>
      match s with
      | Some s => if forgotten older now s then None else Some s | None => None
      end
  | GraphEvent.Import p now =>
      if n =? PeatPeer.node_id p
      then Some (mk_status (if PeatPeer.is_connected p then ConnectionState.Connected
                            else ConnectionState.Discovered) None (PeatPeer.last_seen_ms p))
      else s
  | _ => s
  end.

End PeerAutomaton.

(** * Theorems *)

Module PeerGraphProofs.
Import ConnectionStateGraph GraphEvent PeerAutomaton.

(** ** What every reachable graph satisfies *)

Definition peer_ok (bound bytes : Z) (n : Z) (p : PeerConnectionState.t) : Prop :=
  PeerConnectionState.node_id p = n ∧
  0 ≤ PeerConnectionState.connection_count p ≤ bound ∧
  0 ≤ PeerConnectionState.documents_synced p ≤ bound ∧
  0 ≤ PeerConnectionState.bytes_received p ∧ 0 ≤ PeerConnectionState.bytes_sent p ∧
  PeerConnectionState.bytes_received p + PeerConnectionState.bytes_sent p ≤ bytes ∧
  (is_Some (PeerConnectionState.connected_at p) ↔ 1 ≤ PeerConnectionState.connection_count p) ∧
  match PeerConnectionState.state p with
  | ConnectionState.Discovered => PeerConnectionState.connection_count p = 0
  | ConnectionState.Connecting => True
  | ConnectionState.Connected | ConnectionState.Degraded =>
      1 ≤ PeerConnectionState.connection_count p ∧ PeerConnectionState.disconnect_reason p = None
  | ConnectionState.Disconnected | ConnectionState.Lost =>
      is_Some (PeerConnectionState.disconnected_at p) ∧
      is_Some (PeerConnectionState.disconnect_reason p)
  | ConnectionState.Disconnecting => False
  end.

(** [h] is the least hop count of the paths. *)
Definition least (via : gmap Z Z) (h : Z) : Prop :=
  (∃ v, via !! v = Some h) ∧ ∀ v h', via !! v = Some h' → h ≤ h'.
Definition indirect_ok (bound n : Z) (p : IndirectPeer.t) : Prop :=
  IndirectPeer.node_id p = n ∧ least (IndirectPeer.via_peers p) (IndirectPeer.min_hops p) ∧
  (∀ v h, IndirectPeer.via_peers p !! v = Some h → 0 ≤ h ≤ MAX_TRACKED_DEGREE) ∧
  1 ≤ IndirectPeer.messages_received p ≤ bound.

Definition graph_ok (bound bytes : Z) (g : ConnectionStateGraph.t) : Prop :=
  map_Forall (peer_ok bound bytes) (peers g) ∧ map_Forall (indirect_ok bound) (indirect_peers g).

Lemma least_hops_spec via d : via ≠ ∅ → least via (IndirectPeer.least_hops via d).
Proof.
  intros Hne. unfold IndirectPeer.least_hops, least.
  destruct (bt_iter via) as [|[v0 h0] l] eqn:E.
  { apply (f_equal length) in E. rewrite length_bt_iter in E. by apply map_size_empty_inv in E. }
  cbn [fmap list_fmap snd].
  assert (∀ hs h, foldl Z.min h hs ∈ h :: hs ∧ ∀ x, x ∈ h :: hs → foldl Z.min h hs ≤ x) as Hmin.
  { clear. induction hs as [|y hs IH]; intros h; cbn; [split; [set_solver|]|].
    - intros x ->%list_elem_of_singleton. lia.
    - destruct (IH (Z.min h y)) as [Hin Hle]. split.
      + apply elem_of_cons in Hin as [Hin|Hin]; [|set_solver].
        rewrite Hin. destruct (Z.min_spec h y) as [[_ ->]|[_ ->]]; set_solver.
      + pose proof (Hle (Z.min h y) ltac:(set_solver)).
        intros x. rewrite !elem_of_cons. intros [->|[->|Hx]]; [lia..|apply Hle; set_solver]. }
  destruct (Hmin l.*2 h0) as [Hin Hle].
  assert (∀ x, x ∈ h0 :: l.*2 ↔ ∃ v, via !! v = Some x) as Hel.
  { intros x. setoid_rewrite <-elem_of_bt_iter. rewrite E.
    change (h0 :: l.*2) with ((v0, h0) :: l).*2. rewrite list_elem_of_fmap. split.
    - intros ([v y] & -> & Hy). eauto.
    - intros [v Hv]. by exists (v, x). }
  split; [by apply Hel|]. intros v h' Hv. apply Hle, Hel. eauto.
Qed.

Lemma peer_ok_mono bound bytes bound' bytes' n p :
  bound ≤ bound' → bytes ≤ bytes' → peer_ok bound bytes n p → peer_ok bound' bytes' n p.
Proof.
  intros ?? (?&[??]&[??]&?&?&?&?&?). unfold peer_ok. split_and!; try done; lia.
Qed.
Lemma graph_ok_mono bound bytes bound' bytes' g :
  bound ≤ bound' → bytes ≤ bytes' → graph_ok bound bytes g → graph_ok bound' bytes' g.
Proof.
  intros Hb Hy [Hp Hi]. split.
  - eapply map_Forall_impl; [exact Hp|]. intros n p. by apply peer_ok_mono.
  - eapply map_Forall_impl; [exact Hi|]. intros n p (?&?&?&[??]). unfold indirect_ok.
    split_and!; try done; lia.
Qed.

(** ** One event *)

Section event.
Context (bound bytes : Z) (g : ConnectionStateGraph.t).
Context (Hb : 0 ≤ bound ∧ bound + 1 < 2 ^ 32) (Hy : 0 ≤ bytes) (Hg : graph_ok bound bytes g).

Abbreviation ok' := (graph_ok (bound + 1)).

Lemma insert_peer_ok bytes' n p :
  bytes ≤ bytes' → peer_ok (bound + 1) bytes' n p →
  ok' bytes' (set_peers g (<[n := p]> (peers g))).
Proof.
  intros Hle Hp. destruct (graph_ok_mono bound bytes (bound + 1) bytes' g) as [Hps His];
    [lia|done|done|]. split; [|done]. by apply map_Forall_insert_2.
Qed.
Lemma update_peer_ok bytes' n f :
  bytes ≤ bytes' →
  (∀ p, peer_ok bound bytes n p → ∃ p', f p = Ok p' ∧ peer_ok (bound + 1) bytes' n p') →
  ∃ g', update g n f = Ok g' ∧ ok' bytes' g'.
Proof.
  intros Hle Hf. unfold update. destruct (peers g !! n) as [p|] eqn:E.
  - destruct (Hf p) as (p' & -> & Hp'); [by apply Hg|]. cbn [obind].
    eexists. split; [done|]. by apply insert_peer_ok.
  - exists g. split; [done|]. by apply (graph_ok_mono bound bytes); [lia|..].
Qed.

(** Solves the field conditions of a rewritten peer. *)
Local Ltac peer_fields :=
  repeat match goal with H : peer_ok _ _ _ _ |- _ => destruct H as (?&?&?&?&?&?&?&?) end;
  unfold peer_ok; cbn -[Z.add]; split_and!; try done; try lia; try (split; [intros _|]; by eauto || lia).

Lemma refind_ok n i p :
  p = default i (peers g !! n) →
  peer_ok (bound + 1) bytes n i → peer_ok (bound + 1) bytes n p.
Proof.
  intros -> Hi. destruct (peers g !! n) as [p|] eqn:E; cbn; [|done].
  apply (peer_ok_mono bound bytes); [lia|done|by apply Hg].
Qed.
Lemma discovered_ok n i nm mi r now : ok' bytes (on_discovered g n i nm mi r now).
Proof.
  unfold on_discovered.
  destruct (default _ _) as [n' i' s d c dd rs l cc ds br bs ls nm' mi'] eqn:E. cbn.
  apply insert_peer_ok; [done|]. symmetry in E. apply refind_ok in E; [by destruct s|]. clear E.
  peer_fields.
Qed.
Lemma update_rssi_peer_ok n p r now thr :
  peer_ok bound bytes n p →
  peer_ok (bound + 1) bytes n (PeerConnectionState.update_rssi p r now thr).1.
Proof.
  intros Hp. apply (peer_ok_mono _ _ (bound + 1) bytes) in Hp; [|lia|done].
  destruct p as [n' i s d c dd rs l cc ds br bs ls nm' mi'].
  unfold PeerConnectionState.update_rssi, PeerConnectionState.with_rssi,
    PeerConnectionState.with_state. cbn.
  by destruct s, (r <? thr), (thr <=? r).
Qed.
Lemma update_rssi_ok n r now : ok' bytes (update_rssi g n r now).1.
Proof.
  unfold update_rssi. destruct (peers g !! n) as [p|] eqn:E.
  - apply (proj1 Hg), (update_rssi_peer_ok _ _ r now (rssi_degraded_threshold g)) in E.
    destruct (PeerConnectionState.update_rssi _ _ _ _) as [p' b]. by apply insert_peer_ok.
  - by apply (graph_ok_mono bound bytes); [lia|..].
Qed.

Lemma tick_lookup now n :
  peers (tick g now).1 !! n
  = (λ p, if lost_now g now p then PeerConnectionState.set_lost p now else p) <$> peers g !! n.
Proof.
  unfold tick.
  set (upd := λ (_ : Z) (p : PeerConnectionState.t),
    if lost_now g now p then Some (PeerConnectionState.set_lost p now) else None).
  assert (∀ l (m : gmap Z PeerConnectionState.t) (ids : list Z),
    (foldl (λ '(m, newly_lost) '(node_id, peer),
        if lost_now g now peer
        then (<[node_id := PeerConnectionState.set_lost peer now]> m, newly_lost ++ [node_id])
        else (m, newly_lost)) (m, ids) l).1
    = foldl (λ m '(k, v), match upd k v with Some w => <[k := w]> m | None => m end) m l) as Hl.
  { induction l as [|[k v] l IH]; intros m ids; [done|]. cbn. unfold upd at 2.
    destruct (lost_now g now v); apply IH. }
  specialize (Hl (bt_iter (peers g)) (peers g) []).
  destruct (foldl _ (peers g, []) _) as [m ids]. cbn in Hl |- *. subst m.
  rewrite update_bt_lookup. destruct (peers g !! n) as [p|]; [|done]. cbn. f_equal.
  unfold upd. by destruct (lost_now g now p).
Qed.
Lemma tick_indirect now : indirect_peers (tick g now).1 = indirect_peers g.
Proof. unfold tick. by destruct (foldl _ _ _). Qed.
Lemma tick_ok now : ok' bytes (tick g now).1.
Proof.
  destruct (graph_ok_mono bound bytes (bound + 1) bytes g) as [Hps His]; [lia|done|done|].
  split; [|by rewrite tick_indirect]. intros n p. rewrite tick_lookup.
  intros (p0 & Hp0 & ->)%fmap_Some_1. apply Hps in Hp0.
  destruct (lost_now g now p0); [|done]. unfold PeerConnectionState.set_lost.
  destruct (decide _) as [Hs|]; [|done].
  destruct p0 as [n' i s d c dd rs l cc ds br bs ls nm' mi']. cbn in Hs. by subst s.
Qed.
Lemma cleanup_lost_ok o now : ok' bytes (cleanup_lost g o now).1.
Proof.
  destruct (graph_ok_mono bound bytes (bound + 1) bytes g) as [Hps His]; [lia|done|done|].
  split; [|done]. intros n p. unfold cleanup_lost. cbn. rewrite delete_all_lookup.
  destruct (decide _); [done|]. apply Hps.
Qed.

Lemma peers_event_ok e :
  typed e → bytes + GraphEvent.bytes e < 2 ^ 64 →
  match e with Relay _ _ _ _ | CleanupIndirect _ | RemoveVia _ | Callsign _ _ => False
  | _ => True end →
  ∃ g', apply g e = Ok g' ∧ ok' (bytes + GraphEvent.bytes e) g'.
Proof.
  intros Hty Hbytes He.
  destruct e as [n i nm mi r now|n now|n now|n r now|n r now|n a b|n|now|o now|p now| | | |];
    try done; cbn [apply GraphEvent.bytes] in *; rewrite ?Z.add_0_r in *.
  - eexists. split; [done|]. apply discovered_ok.
  - apply update_peer_ok; [lia|]. intros p Hp. eexists. split; [done|]. peer_fields.
  - apply update_peer_ok; [lia|]. intros p Hp. unfold PeerConnectionState.set_connected.
    assert (PeerConnectionState.connection_count p + 1 < 2 ^ 32) by (unfold peer_ok in Hp; lia).
    rewrite add_u_ok by done. eexists. split; [done|]. peer_fields.
  - apply update_peer_ok; [lia|]. intros p Hp. eexists. split; [done|]. peer_fields.
  - eexists. split; [done|]. apply update_rssi_ok.
  - apply update_peer_ok; [cbn in Hty; lia|]. intros p Hp. cbn in Hty.
    unfold PeerConnectionState.record_transfer.
    pose proof Hp as (_ & _ & _ & ? & ? & ? & _).
    rewrite !add_u_ok by lia. eexists. split; [done|].
    apply (peer_ok_mono _ _ (bound + 1) bytes) in Hp; [|lia|done].
    peer_fields.
  - apply update_peer_ok; [lia|]. intros p Hp. unfold PeerConnectionState.record_sync.
    assert (PeerConnectionState.documents_synced p + 1 < 2 ^ 32) by (unfold peer_ok in Hp; lia).
    rewrite add_u_ok by done. eexists. split; [done|].
    peer_fields.
  - eexists. split; [done|]. apply tick_ok.
  - eexists. split; [done|]. apply cleanup_lost_ok.
  - eexists. split; [done|]. apply insert_peer_ok; [done|].
    unfold PeerConnectionState.from_peer. destruct (PeatPeer.is_connected p); peer_fields.
Qed.

(** ** Indirect peers *)

Lemma insert_indirect_ok n p :
  indirect_ok (bound + 1) n p → ok' bytes (set_indirect g (<[n := p]> (indirect_peers g))).
Proof.
  intros Hp. destruct (graph_ok_mono bound bytes (bound + 1) bytes g) as [Hps His];
    [lia|done|done|]. split; [done|]. by apply map_Forall_insert_2.
Qed.

Lemma relay_ok s o h now :
  0 ≤ h → ∃ r, on_relay_received g s o h now = Ok r ∧ ok' bytes r.1.
Proof.
  intros Hh. unfold on_relay_received.
  assert (ok' bytes g) as Hsame by (apply (graph_ok_mono bound bytes); [lia|done|done]).
  destruct (MAX_TRACKED_DEGREE <? h) eqn:Eh; [by eexists|].
  case_bool_decide; [by eexists|].
  destruct (indirect_peers g !! o) as [p|] eqn:E.
  - apply (proj2 Hg) in E as (Hn & Hl & Hh3 & Hm). unfold IndirectPeer.update_path.
    rewrite add_u_ok by lia. cbn [obind fst]. eexists. split; [done|]. apply insert_indirect_ok.
    assert (<[s:=h]> (IndirectPeer.via_peers p) ≠ ∅) as Hne by apply insert_non_empty.
    unfold indirect_ok. cbn -[Z.add]. split_and!; [done| | |lia|lia].
    + destruct (h <? IndirectPeer.min_hops p) eqn:Eb; [|by apply least_hops_spec].
      split; [exists s; by rewrite lookup_insert_eq|]. intros v h'.
      destruct (decide (s = v)) as [->|]; [rewrite lookup_insert_eq; intros [= <-]; lia|].
      rewrite lookup_insert_ne by done. intros Hv%(proj2 Hl). lia.
    + intros v h'. destruct (decide (s = v)) as [->|];
        [rewrite lookup_insert_eq; intros [= <-]; lia|].
      rewrite lookup_insert_ne by done. apply Hh3.
  - eexists. split; [done|]. apply insert_indirect_ok. unfold indirect_ok, IndirectPeer.new.
    cbn -[Z.add]. split_and!; [done| |intros v h'|lia|lia].
    + split; [exists s; by rewrite lookup_singleton_eq|].
      intros v h' [_ <-]%lookup_singleton_Some. lia.
    + intros [_ <-]%lookup_singleton_Some. lia.
Qed.
Lemma cleanup_indirect_ok now : ok' bytes (cleanup_indirect g now).1.
Proof.
  destruct (graph_ok_mono bound bytes (bound + 1) bytes g) as [Hps His]; [lia|done|done|].
  split; [done|]. intros n p. unfold cleanup_indirect. cbn. rewrite delete_all_lookup.
  destruct (decide _); [done|]. apply His.
Qed.
Lemma callsign_ok n c : ok' bytes (set_indirect_callsign g n c).
Proof.
  unfold set_indirect_callsign.
  destruct (graph_ok_mono bound bytes (bound + 1) bytes g) as [Hps His]; [lia|done|done|].
  destruct (indirect_peers g !! n) as [[n' h v d l r c']|] eqn:E; [|done].
  apply insert_indirect_ok. by apply His in E.
Qed.

(** What [remove_via_peer] does to one entry. *)
Definition no_path (via : Z) (p : IndirectPeer.t) : bool :=
  Nat.eqb (size (delete via (IndirectPeer.via_peers p))) 0.
Definition without_via (via : Z) (p : IndirectPeer.t) : IndirectPeer.t :=
  let v := delete via (IndirectPeer.via_peers p) in
  IndirectPeer.mk (IndirectPeer.node_id p)
    (if no_path via p then IndirectPeer.min_hops p else IndirectPeer.least_hops v 255) v
    (IndirectPeer.discovered_at p) (IndirectPeer.last_seen_ms p)
    (IndirectPeer.messages_received p) (IndirectPeer.callsign p).

Lemma remove_via_lookup via n :
  indirect_peers (remove_via_peer g via) !! n
  = match indirect_peers g !! n with
    | Some p => if no_path via p then None else Some (without_via via p)
    | None => None
    end.
Proof.
  unfold remove_via_peer.
  match goal with |- context [foldl ?f _ (bt_iter _)] => set (step := f) end.
  assert (∀ m ids k p, step (m, ids) (k, p)
    = (<[k := without_via via p]> m, ids ++ (if no_path via p then [k] else []))) as Hstep.
  { intros m ids k [i h v d l0 r c]. cbn. unfold without_via, no_path. cbn.
    destruct (Nat.eqb _ _); [done|by rewrite app_nil_r]. }
  assert (∀ l (m : gmap Z IndirectPeer.t) (ids : list Z),
    foldl step (m, ids) l
    = (foldl (λ m '(k, v), <[k := without_via via v]> m) m l,
       ids ++ (filter (λ e, no_path via e.2 = true) l).*1)) as Hl.
  { clearbody step. induction l as [|[k p] l IH]; intros m ids; [by rewrite app_nil_r|].
    cbn [foldl]. rewrite Hstep, IH, filter_cons. cbn [snd].
    destruct (no_path via p); cbn; by rewrite <-app_assoc. }
  rewrite Hl. cbn [set_indirect indirect_peers app]. rewrite delete_all_lookup,
    (upsert_all_lookup (λ _ v, without_via via v)).
  destruct (indirect_peers g !! n) as [p|] eqn:E; cbn; [|by destruct (decide _)].
  destruct (no_path via p) eqn:Ep.
  - rewrite decide_True; [done|]. apply elem_of_filter_keys. eauto.
  - rewrite decide_False; [done|]. intros (p' & Hp & Hgone)%elem_of_filter_keys.
    cbn in Hgone. congruence.
Qed.
Lemma remove_via_ok via : ok' bytes (remove_via_peer g via).
Proof.
  destruct (graph_ok_mono bound bytes (bound + 1) bytes g) as [Hps His]; [lia|done|done|].
  split; [unfold remove_via_peer; by destruct (foldl _ _ _)|].
  intros n p. rewrite remove_via_lookup.
  destruct (indirect_peers g !! n) as [p0|] eqn:E; [|done].
  destruct (no_path via p0) eqn:Es; [done|]. intros [= <-].
  apply His in E as (Hn & _ & Hh & Hm). unfold indirect_ok, without_via. rewrite Es.
  cbn -[Z.add] in *.
  split_and!; [done| |intros v' h' [_ Hv]%lookup_delete_Some; by apply (Hh v')|lia|lia].
  apply least_hops_spec. intros Hemp. unfold no_path in Es.
  by rewrite Hemp, map_size_empty in Es.
Qed.

Lemma event_ok e :
  typed e → bytes + GraphEvent.bytes e < 2 ^ 64 →
  ∃ g', apply g e = Ok g' ∧ ok' (bytes + GraphEvent.bytes e) g'.
Proof.
  intros Hty Hbytes. destruct e; try by apply peers_event_ok.
  all: cbn [apply GraphEvent.bytes typed] in *; rewrite Z.add_0_r.
  - destruct (relay_ok source origin hops now Hty) as (r & -> & Hr). by exists r.1.
  - eexists. split; [done|]. apply cleanup_indirect_ok.
  - eexists. split; [done|]. apply remove_via_ok.
  - eexists. split; [done|]. apply callsign_ok.
Qed.

End event.

(** ** Refinement *)

Definition same_config (g g' : ConnectionStateGraph.t) : Prop :=
  rssi_degraded_threshold g = rssi_degraded_threshold g' ∧ lost_timeout_ms g = lost_timeout_ms g'.
Definition refines (g g' : ConnectionStateGraph.t) (e : GraphEvent.t) : Prop :=
  same_config g g' ∧
  ∀ n, status_of g' n = next (rssi_degraded_threshold g) (lost_timeout_ms g) e n (status_of g n).

Lemma status_insert g n p k :
  status_of (set_peers g (<[n := p]> (peers g))) k
  = if k =? n
    then Some (mk_status (PeerConnectionState.state p) (PeerConnectionState.disconnected_at p)
                 (PeerConnectionState.last_seen_ms p))
    else status_of g k.
Proof.
  unfold status_of. cbn. destruct (k =? n) eqn:E.
  - apply Z.eqb_eq in E as ->. by rewrite lookup_insert_eq.
  - apply Z.eqb_neq in E. by rewrite lookup_insert_ne.
Qed.
Lemma update_refines g g' n f :
  update g n f = Ok g' →
  (∀ k, status_of g' k = if k =? n then
      match peers g !! n with
      | Some p => match f p with
                  | Ok p' => Some (mk_status (PeerConnectionState.state p')
                               (PeerConnectionState.disconnected_at p')
                               (PeerConnectionState.last_seen_ms p'))
                  | _ => None end
      | None => None end
    else status_of g k) ∧ same_config g g'.
Proof.
  unfold update. destruct (peers g !! n) as [p|] eqn:E.
  - destruct (f p) as [p'| |]; cbn; intros [= <-]. split; [|done]. intros k. apply status_insert.
  - intros [= <-]. split; [|done]. intros k. destruct (k =? n) eqn:Ek; [|done].
    apply Z.eqb_eq in Ek as ->. unfold status_of. by rewrite E.
Qed.

Lemma update_event_refines g g' e n f :
  update g n f = Ok g' →
  (∀ p p', peers g !! n = Some p → f p = Ok p' → next (rssi_degraded_threshold g)
     (lost_timeout_ms g) e n (status_of g n)
   = Some (mk_status (PeerConnectionState.state p') (PeerConnectionState.disconnected_at p')
             (PeerConnectionState.last_seen_ms p'))) →
  (∀ k s, k ≠ n → next (rssi_degraded_threshold g) (lost_timeout_ms g) e k s = s) →
  (next (rssi_degraded_threshold g) (lost_timeout_ms g) e n None = None) →
  refines g g' e.
Proof.
  intros Hu Hn Hk Hnone. pose proof Hu as Hu'. apply update_refines in Hu as [Hst Hc].
  split; [done|]. intros k. rewrite Hst. destruct (k =? n) eqn:E.
  - apply Z.eqb_eq in E as ->. destruct (peers g !! n) as [p|] eqn:Ep.
    + unfold update in Hu'. rewrite Ep in Hu'. destruct (f p) as [p'| |] eqn:Ef; try done.
      by rewrite (Hn p p').
    + unfold status_of. by rewrite Ep.
  - apply Z.eqb_neq in E. by rewrite Hk.
Qed.

Lemma discovered_refines g n i nm mi r now :
  refines g (on_discovered g n i nm mi r now) (Discovered n i nm mi r now).
Proof.
  split; [unfold on_discovered; by destruct (PeerConnectionState.with_rssi _ _ _)|].
  intros k. unfold on_discovered. cbn [next].
  destruct (default _ _) as [n' i' s d c dd rs l cc ds br bs ls nm' mi'] eqn:E. cbn.
  rewrite status_insert. cbn. destruct (k =? n) eqn:Ek; [|done].
  apply Z.eqb_eq in Ek as ->. unfold status_of.
  destruct (peers g !! n) as [p|]; cbn in *; subst.
  - by destruct s.
  - by injection E as <- <- <- <- <- <- <- <- <- <- <- <- <- <- <-.
Qed.
Lemma rssi_fields p r now thr :
  let p' := (PeerConnectionState.update_rssi p r now thr).1 in
  PeerConnectionState.state p' = rssi_state thr r (PeerConnectionState.state p) ∧
  PeerConnectionState.disconnected_at p' = PeerConnectionState.disconnected_at p ∧
  PeerConnectionState.last_seen_ms p' = now.
Proof.
  destruct p as [n' i' s d c dd rs l cc ds br bs ls nm' mi'].
  unfold PeerConnectionState.update_rssi, PeerConnectionState.with_rssi,
    PeerConnectionState.with_state, rssi_state. cbn.
  split_and!; destruct s, (r <? thr), (thr <=? r); reflexivity.
Qed.
Lemma rssi_refines g n r now : refines g (update_rssi g n r now).1 (Rssi n r now).
Proof.
  unfold update_rssi. destruct (peers g !! n) as [p|] eqn:E.
  - pose proof (rssi_fields p r now (rssi_degraded_threshold g)) as (Hs & Hd & Hl).
    destruct (PeerConnectionState.update_rssi _ _ _ _) as [p' b]. cbn in *.
    split; [done|]. intros k. rewrite status_insert, Hs, Hd, Hl. cbn [next].
    destruct (k =? n) eqn:Ek; [|done]. apply Z.eqb_eq in Ek as ->. unfold status_of. by rewrite E.
  - split; [done|]. intros k. cbn. destruct (k =? n) eqn:Ek; [|done].
    apply Z.eqb_eq in Ek as ->. unfold status_of. by rewrite E.
Qed.
Lemma tick_refines g now : refines g (tick g now).1 (Tick now).
Proof.
  split; [unfold tick; by destruct (foldl _ _ _)|].
  intros k. unfold status_of. rewrite tick_lookup. cbn [next].
  destruct (peers g !! k) as [p|]; [|done]. cbn. f_equal.
  unfold lost_now, timed_out, PeerConnectionState.set_lost. cbn [st down_since].
  destruct (PeerConnectionState.state p) eqn:Es; cbn; rewrite ?Es; try done.
  destruct (PeerConnectionState.disconnected_at p) eqn:Ed; cbn; rewrite ?Es, ?Ed; [|done].
  destruct (_ <? _); [rewrite decide_True by done|]; cbn; by rewrite ?Es, ?Ed.
Qed.
Lemma cleanup_refines g o now : refines g (cleanup_lost g o now).1 (CleanupLost o now).
Proof.
  split; [done|]. intros k. unfold cleanup_lost, status_of. cbn. rewrite delete_all_lookup.
  destruct (peers g !! k) as [p|] eqn:E; cbn; [|by destruct (decide _)].
  unfold forgotten. cbn [st seen].
  destruct (decide _) as [Hin|Hout].
  - apply elem_of_filter_keys in Hin as (p' & Hp' & Hs & Hlt). cbn in Hs, Hlt.
    rewrite E in Hp'. injection Hp' as <-. rewrite Hs. by rewrite (proj2 (Z.ltb_lt _ _)).
  - destruct (PeerConnectionState.state p) eqn:Es; try (by cbn; rewrite Es).
    destruct (_ <? _) eqn:Hlt; [|by cbn; rewrite Es]. exfalso. apply Hout.
    apply elem_of_filter_keys. exists p. cbn. split; [done|]. split; [done|lia].
Qed.

Lemma event_refines g g' e : apply g e = Ok g' → refines g g' e.
Proof.
  destruct e as [n i nm mi r now|n now|n now|n r now|n r now|n a b|n|now|o now|p now|s o h now|now|via|n c];
    cbn [apply].
  - intros [= <-]. apply discovered_refines.
  - intros Hu. eapply update_event_refines; [exact Hu|..]; cbn.
    + intros p p' Hp [= <-]. rewrite Z.eqb_refl. unfold status_of. by rewrite Hp.
    + intros k st ->%Z.eqb_neq. done.
    + by rewrite Z.eqb_refl.
  - intros Hu. eapply update_event_refines; [exact Hu|..]; cbn.
    + intros p p' Hp. unfold PeerConnectionState.set_connected.
      destruct (add_u _ _ _); [|done..]. intros [= <-]. rewrite Z.eqb_refl. unfold status_of.
      by rewrite Hp.
    + intros k st ->%Z.eqb_neq. done.
    + by rewrite Z.eqb_refl.
  - intros Hu. eapply update_event_refines; [exact Hu|..]; cbn.
    + intros p p' Hp [= <-]. rewrite Z.eqb_refl. unfold status_of. by rewrite Hp.
    + intros k st ->%Z.eqb_neq. done.
    + by rewrite Z.eqb_refl.
  - intros [= <-]. apply rssi_refines.
  - intros Hu. eapply update_event_refines; [exact Hu|..]; cbn; [|done|done].
    intros p p' Hp. unfold PeerConnectionState.record_transfer.
    destruct (add_u _ _ a); cbn; [|done..]. destruct (add_u _ _ b); cbn; [|done..].
    intros [= <-]. unfold status_of. by rewrite Hp.
  - intros Hu. eapply update_event_refines; [exact Hu|..]; cbn; [|done|done].
    intros p p' Hp. unfold PeerConnectionState.record_sync.
    destruct (add_u _ _ _); cbn; [|done..]. intros [= <-]. unfold status_of. by rewrite Hp.
  - intros [= <-]. apply tick_refines.
  - intros [= <-]. apply cleanup_refines.
  - intros [= <-]. split; [done|]. intros k. unfold import_peer. rewrite status_insert. cbn.
    by destruct (PeatPeer.is_connected p).
  - destruct (on_relay_received g s o h now) as [[g1 b]| |] eqn:E; cbn; intros [= <-].
    unfold on_relay_received in E.
    repeat (match type of E with context [if ?c then _ else _] => destruct c eqn:? end);
      try by injection E as <- <-.
    destruct (indirect_peers g !! o); [|by injection E as <- <-].
    destruct (IndirectPeer.update_path _ _ _ _); cbn in E; [by injection E as <- <-|done..].
  - by intros [= <-].
  - intros [= <-]. unfold remove_via_peer. by destruct (foldl _ _ _).
  - intros [= <-]. unfold set_indirect_callsign. by destruct (indirect_peers g !! n) as [[]|].
Qed.

(** ** Runs *)

Lemma run_cons g e es : run g (e :: es) = let! g := apply g e in run g es.
Proof.
  unfold run. cbn. destruct (apply g e); [done|..]; cbn; induction es; cbn; auto.
Qed.

Lemma run_ok es : ∀ bound bytes g,
  0 ≤ bound → 0 ≤ bytes → graph_ok bound bytes g → Forall typed es →
  bound + zlen es < 2 ^ 32 → bytes + zsum (map GraphEvent.bytes es) < 2 ^ 64 →
  ∃ g', run g es = Ok g' ∧
    graph_ok (bound + zlen es) (bytes + zsum (map GraphEvent.bytes es)) g' ∧
    same_config g g' ∧
    ∀ n, status_of g' n = foldl (λ s e, next (rssi_degraded_threshold g) (lost_timeout_ms g) e n s)
                            (status_of g n) es.
Proof.
  induction es as [|e es IH]; intros bound by_ g Hb Hy Hg Hty Hbound Hbytes.
  { exists g. cbn. rewrite !Z.add_0_r. done. }
  apply Forall_cons in Hty as [Hty Htys]. cbn [map zsum] in *.
  assert (0 ≤ zsum (map GraphEvent.bytes es)) as Hpos.
  { apply zsum_nonneg, Forall_fmap. eapply Forall_impl; [exact Htys|]. intros []; cbn; lia. }
  assert (0 ≤ GraphEvent.bytes e) by (destruct e; cbn in *; lia).
  assert (zlen (e :: es) = 1 + zlen es) as Hl by len. rewrite Hl in *.
  destruct (event_ok bound by_ g ltac:(lia) Hy Hg e Hty ltac:(lia)) as (g1 & E1 & Hg1).
  apply event_refines in E1 as Hr. destruct Hr as [[Hthr Hlt] Hst].
  destruct (IH (bound + 1) (by_ + GraphEvent.bytes e) g1 ltac:(lia) ltac:(lia) Hg1 Htys ltac:(lia) ltac:(lia))
    as (g' & E' & Hg' & [Hthr' Hlt'] & Hst').
  exists g'. rewrite run_cons, E1. cbn [obind]. split_and!.
  - done.
  - by rewrite !Z.add_assoc.
  - split; congruence.
  - intros n. cbn [foldl]. rewrite Hst', Hst. by rewrite Hthr, Hlt.
Qed.
End PeerGraphProofs.

Module PeerGraphProperties.
Import ConnectionStateGraph GraphEvent PeerAutomaton PeerGraphProofs.

(** C21: Refinement of the connection graph.  A graph fed any sequence of
    events (shorter than the [u32] counters, moving less than the [u64] byte
    counters) does not panic, and each peer in it has exactly the status of
    its own automaton: [Degraded] only by a weak signal while connected,
    [Lost] only by the timeout after a disconnection, gone only once lost. *)
Theorem peer_graph_refines_automata (threshold lost_timeout : Z) (es : list GraphEvent.t) :
  Forall typed es → zlen es < 2 ^ 32 → zsum (map GraphEvent.bytes es) < 2 ^ 64 →
  ∃ g, run (with_config threshold lost_timeout) es = Ok g ∧
       ∀ n, status_of g n = foldl (λ s e, next threshold lost_timeout e n s) None es.
Proof.
  intros Hty Hn Hb.
  destruct (run_ok es 0 0 (with_config threshold lost_timeout)) as (g & Hg & _ & _ & Hst);
    [lia|lia|split; apply map_Forall_empty|done|lia|lia|].
  exists g. split; [done|]. intros n. by rewrite Hst.
Qed.

(** Peer 5 connects, weakens, is dropped, times out and comes back. *)
Definition sample_events : list GraphEvent.t :=
  [Discovered 5 [77] None None (-60) 1000; Connecting 5 1100; Connected 5 1200;
   Transfer 5 100 40; Rssi 5 (-90) 2000; Relay 5 9 1 2100; Relay 6 9 2 2200;
   Disconnected 5 DisconnectReason.LinkLoss 3000; RemoveVia 5; Tick 33001;
   Discovered 5 [77] None None (-70) 40000].

Lemma peer_graph_refines_automata_witness :
  ∃ g, run (with_config (-80) 30000) sample_events = Ok g ∧
       ∀ n, status_of g n = foldl (λ s e, next (-80) 30000 e n s) None sample_events.
Proof.
  apply (peer_graph_refines_automata (-80) 30000 sample_events).
  - repeat constructor; cbn; lia.
  - vm_compute. reflexivity.
  - vm_compute. reflexivity.
Defined.

(** What holds in every reachable graph.  Peers are filed under their own
    number; a connected or degraded peer has been connected and carries no
    disconnect reason; a disconnected or lost one has a time and a reason; no
    peer is ever [Disconnecting]; every indirect peer has a path, at most
    [MAX_TRACKED_DEGREE] hops long, and [min_hops] is its shortest. *)
Theorem peer_graph_invariant (threshold lost_timeout : Z) (es : list GraphEvent.t) :
  Forall typed es → zlen es < 2 ^ 32 → zsum (map GraphEvent.bytes es) < 2 ^ 64 →
  ∃ g, run (with_config threshold lost_timeout) es = Ok g ∧
    (∀ n p, peers g !! n = Some p →
      PeerConnectionState.node_id p = n ∧
      PeerConnectionState.state p ≠ ConnectionState.Disconnecting ∧
      (is_Some (PeerConnectionState.connected_at p)
       ↔ 1 ≤ PeerConnectionState.connection_count p) ∧
      (ConnectionState.is_connected (PeerConnectionState.state p) = true →
       is_Some (PeerConnectionState.connected_at p) ∧
       PeerConnectionState.disconnect_reason p = None) ∧
      (PeerConnectionState.state p ∈ [ConnectionState.Disconnected; ConnectionState.Lost] →
       is_Some (PeerConnectionState.disconnected_at p) ∧
       is_Some (PeerConnectionState.disconnect_reason p))) ∧
    (∀ n p, indirect_peers g !! n = Some p →
      IndirectPeer.node_id p = n ∧
      (∃ via, IndirectPeer.via_peers p !! via = Some (IndirectPeer.min_hops p)) ∧
      (∀ via h, IndirectPeer.via_peers p !! via = Some h →
        IndirectPeer.min_hops p ≤ h ≤ MAX_TRACKED_DEGREE)).
Proof.
  intros Hty Hn Hb.
  destruct (run_ok es 0 0 (with_config threshold lost_timeout)) as (g & Hg & [Hp Hi] & _);
    [lia|lia|split; apply map_Forall_empty|done|lia|lia|].
  exists g. split_and!; [done| |].
  - intros n p E. apply Hp in E as (Hid & _ & _ & _ & _ & _ & Hc & Hst).
    split_and!; [done| |done| |].
    + intros E. by rewrite E in Hst.
    + intros E. destruct (PeerConnectionState.state p); try done; destruct Hst; split;
        try done; by apply Hc.
    + rewrite !elem_of_cons, elem_of_nil. by intros [E|[E|[]]]; rewrite E in Hst.
  - intros n p E. apply Hi in E as (Hid & [Hex Hle] & Hh & _).
    split_and!; [done|done|]. intros via h Hv. split; [by apply (Hle via)|by apply (Hh via)].
Qed.

Lemma peer_graph_invariant_witness :
  ∃ g, run (with_config (-80) 30000) sample_events = Ok g ∧
    (∀ n p, peers g !! n = Some p →
      PeerConnectionState.node_id p = n ∧
      PeerConnectionState.state p ≠ ConnectionState.Disconnecting ∧
      (is_Some (PeerConnectionState.connected_at p)
       ↔ 1 ≤ PeerConnectionState.connection_count p) ∧
      (ConnectionState.is_connected (PeerConnectionState.state p) = true →
       is_Some (PeerConnectionState.connected_at p) ∧
       PeerConnectionState.disconnect_reason p = None) ∧
      (PeerConnectionState.state p ∈ [ConnectionState.Disconnected; ConnectionState.Lost] →
       is_Some (PeerConnectionState.disconnected_at p) ∧
       is_Some (PeerConnectionState.disconnect_reason p))) ∧
    (∀ n p, indirect_peers g !! n = Some p →
      IndirectPeer.node_id p = n ∧
      (∃ via, IndirectPeer.via_peers p !! via = Some (IndirectPeer.min_hops p)) ∧
      (∀ via h, IndirectPeer.via_peers p !! via = Some h →
        IndirectPeer.min_hops p ≤ h ≤ MAX_TRACKED_DEGREE)).
Proof.
  apply (peer_graph_invariant (-80) 30000 sample_events).
  - repeat constructor; cbn; lia.
  - vm_compute. reflexivity.
  - vm_compute. reflexivity.
Defined.

(** A peer first heard through a relay and then met directly stays in both
    maps, and the summary counts it twice. *)
Example known_twice :
  match run new [Relay 5 9 1 1000; Discovered 9 [77] None None (-60) 2000] with
  | Ok g => FullStateCountSummary.total (full_state_counts g) = 2 ∧
            is_known g 9 = true ∧ get_peers_by_degree g PeerDegree.Direct = [9] ∧
            get_peers_by_degree g PeerDegree.OneHop = [9]
  | _ => False
  end.
Proof. vm_compute. done. Qed.

End PeerGraphProperties.
