(* ===== verification/PeerManager.v ===== *)
(** * The peer manager of src/src/peer_manager.rs and its configuration in
    src/src/peer.rs: discovered and connected peers, the map from platform
    identifiers to nodes, and the history of syncs.

    The three tables are behind locks that every operation takes in the same
    order for its whole duration; an operation is one step. *)

From Stdlib Require Import String.
From stdpp Require Import base numbers list gmap.
From S2P Require Import Prelude Config Clock PeerGraph.
Open Scope Z_scope.
Open Scope peat_scope.

Module PeerManagerConfig.

Record t := mk {
  peer_timeout_ms : Z; cleanup_interval_ms : Z; sync_interval_ms : Z; sync_cooldown_ms : Z;
  auto_connect : bool; mesh_id : list Z; max_peers : Z; rssi_degraded_threshold : Z;
  lost_timeout_ms : Z
}.
Definition with_mesh_id (mesh_id : list Z) : t :=
  mk 45000 10000 5000 30000 true mesh_id 8 (-80) 30000.
Definition default_config : t := with_mesh_id (str "DEMO"%string).
Definition peer_timeout (self : t) (timeout_ms : Z) : t :=
  mk timeout_ms (cleanup_interval_ms self) (sync_interval_ms self) (sync_cooldown_ms self)
    (auto_connect self) (mesh_id self) (max_peers self) (rssi_degraded_threshold self)
    (lost_timeout_ms self).
Definition sync_interval (self : t) (interval_ms : Z) : t :=
  mk (peer_timeout_ms self) (cleanup_interval_ms self) interval_ms (sync_cooldown_ms self)
    (auto_connect self) (mesh_id self) (max_peers self) (rssi_degraded_threshold self)
    (lost_timeout_ms self).
Definition set_auto_connect (self : t) (enabled : bool) : t :=
  mk (peer_timeout_ms self) (cleanup_interval_ms self) (sync_interval_ms self)
    (sync_cooldown_ms self) enabled (mesh_id self) (max_peers self)
    (rssi_degraded_threshold self) (lost_timeout_ms self).
Definition set_max_peers (self : t) (max : Z) : t :=
  mk (peer_timeout_ms self) (cleanup_interval_ms self) (sync_interval_ms self)
    (sync_cooldown_ms self) (auto_connect self) (mesh_id self) max
    (rssi_degraded_threshold self) (lost_timeout_ms self).
Definition matches_mesh (self : t) (device_mesh_id : option (list Z)) : bool :=
  match device_mesh_id with Some id => bool_decide (id = mesh_id self) | None => true end.

End PeerManagerConfig.

(** [&name[hyphen_pos + 1..]]: the hyphen is one byte, so the slice is in
    bounds and on a character boundary. *)
Definition parse_node_id_from_name (name : option (list Z)) : option Z :=
  match name with
  | None => None
  | Some name =>
      match rfind 45 name with
      | None => None
      | Some hyphen_pos =>
          let hex_part := zdrop (hyphen_pos + 1) name in
          if negb (zlen hex_part =? 8) then None else from_hex 32 hex_part
      end
  end.

Module PeerManager.
Import PeerManagerConfig (peer_timeout_ms, sync_cooldown_ms, max_peers).

Record t := mk {
  config : PeerManagerConfig.t; node_id : Z; peers : gmap Z PeatPeer.t;
  identifier_map : gmap (list Z) Z; sync_history : gmap Z Z
}.
Definition new (node_id : Z) (config : PeerManagerConfig.t) : t := mk config node_id ∅ ∅ ∅.
Definition set_peers (self : t) (peers : gmap Z PeatPeer.t) : t :=
  mk (config self) (node_id self) peers (identifier_map self) (sync_history self).
Definition set_tables (self : t) (peers : gmap Z PeatPeer.t) (ids : gmap (list Z) Z) : t :=
  mk (config self) (node_id self) peers ids (sync_history self).

Definition mesh_id (self : t) : list Z := PeerManagerConfig.mesh_id (config self).
Definition matches_mesh (self : t) (device_mesh_id : option (list Z)) : bool :=
  PeerManagerConfig.matches_mesh (config self) device_mesh_id.
(** [peers.len() >= max_peers && !peers.contains_key(&node_id)]. *)
Definition at_capacity (self : t) (peers : gmap Z PeatPeer.t) (node_id : Z) : bool :=
  (max_peers (config self) <=? Z.of_nat (size peers))
  && negb (bool_decide (is_Some (peers !! node_id))).

Definition set_connected (p : PeatPeer.t) (connected : bool) : PeatPeer.t :=
  PeatPeer.mk (PeatPeer.node_id p) (PeatPeer.identifier p) (PeatPeer.mesh_id p) (PeatPeer.name p)
    (PeatPeer.rssi p) connected (PeatPeer.last_seen_ms p).
Definition set_sighting (p : PeatPeer.t) (rssi now_ms : Z) (name : option (list Z)) : PeatPeer.t :=
  PeatPeer.mk (PeatPeer.node_id p) (PeatPeer.identifier p) (PeatPeer.mesh_id p)
    (match name with Some n => Some n | None => PeatPeer.name p end)
    rssi (PeatPeer.is_connected p) now_ms.
Definition set_identifier (p : PeatPeer.t) (identifier : list Z) : PeatPeer.t :=
  PeatPeer.mk (PeatPeer.node_id p) identifier (PeatPeer.mesh_id p) (PeatPeer.name p)
    (PeatPeer.rssi p) (PeatPeer.is_connected p) (PeatPeer.last_seen_ms p).

(** An early return after the old mapping was dropped keeps the removal. *)
Definition on_discovered (self : t) (identifier : list Z) (name : option (list Z)) (rssi : Z)
    (mesh_id : option (list Z)) (now_ms : Z) : t * option (Z * bool) :=
  if negb (matches_mesh self mesh_id) then (self, None)
  else
    match parse_node_id_from_name name with
    | None => (self, None)
    | Some n =>
        if n =? node_id self then (self, None)
        else
          let ps :=
            match identifier_map self !! identifier with
            | Some existing => if negb (existing =? n) then delete existing (peers self)
                               else peers self
            | None => peers self
            end in
          if at_capacity self ps n then (set_peers self ps, None)
          else
            let is_new := negb (bool_decide (is_Some (ps !! n))) in
            let peer := default (PeatPeer.new n identifier mesh_id name rssi) (ps !! n) in
            let peer := set_sighting peer rssi now_ms name in
            (set_tables self (<[n := peer]> ps) (<[identifier := n]> (identifier_map self)),
             Some (n, is_new))
    end.

Definition on_connected (self : t) (identifier : list Z) (now_ms : Z) : t * option Z :=
  match identifier_map self !! identifier with
  | None => (self, None)
  | Some n =>
      (match peers self !! n with
       | Some peer =>
           set_peers self (<[n := PeatPeer.touch (set_connected peer true) now_ms]> (peers self))
       | None => self
       end, Some n)
  end.
Definition on_disconnected_by_node_id (self : t) (n : Z) (_reason : DisconnectReason.t) : t * bool :=
  match peers self !! n with
  | Some peer => (set_peers self (<[n := set_connected peer false]> (peers self)), true)
  | None => (self, false)
  end.
Definition on_disconnected (self : t) (identifier : list Z) (reason : DisconnectReason.t)
    : t * option (Z * DisconnectReason.t) :=
  match identifier_map self !! identifier with
  | None => (self, None)
  | Some n =>
      (match peers self !! n with
       | Some peer => set_peers self (<[n := set_connected peer false]> (peers self))
       | None => self
       end, Some (n, reason))
  end.
Definition on_incoming_connection (self : t) (identifier : list Z) (n now_ms : Z) : t * bool :=
  if n =? node_id self then (self, false)
  else if at_capacity self (peers self) n then (self, false)
  else
    let is_new := negb (bool_decide (is_Some (peers self !! n))) in
    let peer := default (PeatPeer.new n identifier (Some (mesh_id self)) None (-70))
                  (peers self !! n) in
    let peer := PeatPeer.touch (set_connected peer true) now_ms in
    let '(ids, peer) :=
      if negb (bool_decide (PeatPeer.identifier peer = identifier)) then
        (delete (PeatPeer.identifier peer) (identifier_map self), set_identifier peer identifier)
      else (identifier_map self, peer) in
    (set_tables self (<[n := peer]> (peers self)) (<[identifier := n]> ids), is_new).

Definition should_sync_with (self : t) (n now_ms : Z) : bool :=
  match sync_history self !! n with
  | Some last_sync => sync_cooldown_ms (config self) <=? saturating_sub now_ms last_sync
  | None => true
  end.
Definition record_sync (self : t) (n now_ms : Z) : t :=
  mk (config self) (node_id self) (peers self) (identifier_map self)
    (<[n := now_ms]> (sync_history self)).

Definition remove_stale (st : t * list Z) (n : Z) : t * list Z :=
  let '(self, removed) := st in
  match peers self !! n with
  | Some peer =>
      (mk (config self) (node_id self) (delete n (peers self))
         (delete (PeatPeer.identifier peer) (identifier_map self)) (delete n (sync_history self)),
       removed ++ [n])
  | None => (self, removed)
  end.
Definition stale_peers (self : t) (now_ms : Z) : list Z :=
  omap (λ '(n, peer), if PeatPeer.is_stale peer now_ms (peer_timeout_ms (config self))
                      then Some n else None) (bt_iter (peers self)).
Definition cleanup_stale (self : t) (now_ms : Z) : t * list Z :=
  foldl remove_stale (self, []) (stale_peers self now_ms).

Definition get_peers (self : t) : list PeatPeer.t := (bt_iter (peers self)).*2.
Definition get_connected_peers (self : t) : list PeatPeer.t :=
  filter (λ p, PeatPeer.is_connected p = true) (get_peers self).
Definition get_peer (self : t) (n : Z) : option PeatPeer.t := peers self !! n.
Definition get_node_id (self : t) (identifier : list Z) : option Z :=
  identifier_map self !! identifier.
Definition get_peer_by_identifier (self : t) (identifier : list Z) : option PeatPeer.t :=
  match get_node_id self identifier with Some n => peers self !! n | None => None end.
Definition register_identifier (self : t) (identifier : list Z) (n : Z) : t :=
  set_tables self (peers self) (<[identifier := n]> (identifier_map self)).
Definition peer_count (self : t) : Z := Z.of_nat (size (peers self)).
Definition connected_count (self : t) : Z := zlen (get_connected_peers self).
Definition get_connected_identifiers (self : t) : list (list Z) :=
  PeatPeer.identifier <$> get_connected_peers self.
Definition peers_needing_sync (self : t) (now_ms : Z) : list PeatPeer.t :=
  filter (λ p, negb (PeatPeer.is_connected p) = false
               ∧ should_sync_with self (PeatPeer.node_id p) now_ms = true) (get_peers self).
(** [PeatEvent::MeshStateChanged]. *)
Definition generate_state_event (self : t) : Z * Z := (peer_count self, connected_count self).

(** ** Histories *)

Inductive event :=
| Discovered (identifier : list Z) (name : option (list Z)) (rssi : Z) (mesh_id : option (list Z))
| Connected (identifier : list Z)
| Disconnected (identifier : list Z) (reason : DisconnectReason.t)
| DisconnectedNode (n : Z) (reason : DisconnectReason.t)
| Incoming (identifier : list Z) (n : Z)
| Synced (n : Z)
| Registered (identifier : list Z) (n : Z)
| Cleanup.
Definition step (self : t) (e : Z * event) : t :=
  let '(now, ev) := e in
  match ev with
  | Discovered id name rssi mesh => (on_discovered self id name rssi mesh now).1
  | Connected id => (on_connected self id now).1
  | Disconnected id r => (on_disconnected self id r).1
  | DisconnectedNode n r => (on_disconnected_by_node_id self n r).1
  | Incoming id n => (on_incoming_connection self id n now).1
  | Synced n => record_sync self n now
  | Registered id n => register_identifier self id n
  | Cleanup => (cleanup_stale self now).1
  end.
Definition run (self : t) (evs : list (Z * event)) : t := foldl step self evs.

End PeerManager.

(** * Theorems *)

Module PeerManagerProofs.
Import PeerManager.

Lemma parse_own_node mesh n :
  in_u 32 n →
  parse_node_id_from_name (Some (MeshConfig.device_name (MeshConfig.new mesh) n)) = Some n.
Proof.
  intros Hn. unfold parse_node_id_from_name, MeshConfig.device_name. cbn [MeshConfig.mesh_id MeshConfig.new].
  change (str "-"%string ++ hex8 n) with (45 :: hex8 n). rewrite app_assoc.
  rewrite rfind_last by apply ConfigProofs.hex8_no_dash.
  assert (zdrop (zlen (str "PEAT_"%string ++ mesh) + 1) ((str "PEAT_"%string ++ mesh) ++ 45 :: hex8 n)
    = hex8 n) as ->.
  { rewrite zdrop_app_ge by lia.
    by replace (zlen (str "PEAT_"%string ++ mesh) + 1 - zlen (str "PEAT_"%string ++ mesh)) with 1 by lia. }
  rewrite hex8_length. cbn [negb Z.of_nat Z.eqb Pos.eqb Pos.of_succ_nat Pos.succ].
  by apply from_hex_hex8.
Qed.

(** What every history keeps: the node itself is not tracked, the capacity
    holds, and peers are filed under their identifier, seen in the past. *)
Definition inv (cfg : PeerManagerConfig.t) (me t : Z) (self : PeerManager.t) : Prop :=
  config self = cfg ∧ node_id self = me
  ∧ map_Forall (λ n p, n ≠ me ∧ PeatPeer.node_id p = n ∧ PeatPeer.last_seen_ms p ≤ t) (peers self)
  ∧ Z.of_nat (size (peers self)) ≤ Z.max 0 (PeerManagerConfig.max_peers cfg).

Section inv.
Context (cfg : PeerManagerConfig.t) (me : Z).
Implicit Types self : PeerManager.t.

Lemma inv_later t t' self : t ≤ t' → inv cfg me t self → inv cfg me t' self.
Proof.
  intros Ht (? & ? & Hp & ?). split_and!; [done..| |done].
  intros n p (? & ? & ?)%Hp. split_and!; [done..|lia].
Qed.
Lemma inv_drop t self ps ids hist :
  inv cfg me t self → ps ⊆ peers self → inv cfg me t (mk (config self) (node_id self) ps ids hist).
Proof.
  intros (? & ? & Hp & Hs) Hsub. split_and!; [done..| |].
  - intros n p Hn. apply Hp. by eapply lookup_weaken.
  - apply map_subseteq_size in Hsub. cbn. lia.
Qed.
Lemma at_capacity_size self ps n p :
  config self = cfg → at_capacity self ps n = false →
  Z.of_nat (size ps) ≤ Z.max 0 (PeerManagerConfig.max_peers cfg) →
  Z.of_nat (size (<[n := p]> ps)) ≤ Z.max 0 (PeerManagerConfig.max_peers cfg).
Proof.
  unfold at_capacity. intros <- Hc Hs. rewrite map_size_insert.
  destruct (ps !! n) as [q|] eqn:E; cbn; [lia|].
  rewrite (bool_decide_eq_false_2 (is_Some None)), andb_true_r in Hc by (by apply is_Some_None).
  apply Z.leb_gt in Hc. lia.
Qed.
Lemma inv_insert t self ps ids n p :
  inv cfg me t self → ps ⊆ peers self → at_capacity self ps n = false →
  n ≠ me → PeatPeer.node_id p = n → PeatPeer.last_seen_ms p ≤ t →
  inv cfg me t (set_tables self (<[n := p]> ps) ids).
Proof.
  intros Hi Hsub Hc Hn Hid Hl. pose proof (inv_drop t self ps ids (sync_history self) Hi Hsub)
    as (? & ? & Hp & Hs). cbn in *. split_and!; [done..| |].
  - apply map_Forall_insert_2; [done|]. exact Hp.
  - by apply (at_capacity_size self).
Qed.
(** A known peer is changed in place. *)
Lemma inv_change t self ids n p q :
  inv cfg me t self → peers self !! n = Some p → PeatPeer.node_id q = PeatPeer.node_id p →
  PeatPeer.last_seen_ms q ≤ t → inv cfg me t (set_tables self (<[n := q]> (peers self)) ids).
Proof.
  intros Hi Hp Hid Hl. pose proof Hi as (_ & _ & Hf & _). apply Hf in Hp as Hn.
  destruct Hn as (Hn & <- & _). apply inv_insert; try done.
  unfold at_capacity. rewrite bool_decide_eq_true_2 by (rewrite Hp; by eexists).
  by rewrite andb_false_r.
Qed.
Lemma peer_default t self ps n d :
  inv cfg me t self → ps ⊆ peers self → PeatPeer.node_id d = n →
  PeatPeer.node_id (default d (ps !! n)) = n.
Proof.
  intros (_ & _ & Hf & _) Hsub Hd. destruct (ps !! n) as [p|] eqn:E; [|done].
  cbn. eapply lookup_weaken in E; [|done]. by apply Hf in E as (_ & ? & _).
Qed.

Lemma remove_all l self acc :
  NoDup l → (∀ n, n ∈ l → is_Some (peers self !! n)) →
  let r := foldl remove_stale (self, acc) l in
  r.2 = acc ++ l ∧ config r.1 = config self ∧ node_id r.1 = node_id self
  ∧ (∀ k, peers r.1 !! k = if decide (k ∈ l) then None else peers self !! k)
  ∧ (∀ k, sync_history r.1 !! k = if decide (k ∈ l) then None else sync_history self !! k).
Proof.
  revert self acc. induction l as [|n l IH]; intros self acc Hnd Hin.
  { cbn. split_and!; [by rewrite app_nil_r|done|done|..]; intros k;
      by rewrite decide_False by apply not_elem_of_nil. }
  apply NoDup_cons in Hnd as [Hn Hnd]. cbn [foldl remove_stale].
  destruct (Hin n) as [p Hp]; [by left|]. rewrite Hp.
  destruct (IH (mk (config self) (node_id self) (delete n (peers self))
    (delete (PeatPeer.identifier p) (identifier_map self)) (delete n (sync_history self))) (acc ++ [n]))
    as (-> & -> & -> & Hps & Hhs); [done| |].
  { intros k Hk. cbn. rewrite lookup_delete_ne by (by intros ->). apply Hin. by right. }
  cbn in *. split_and!; [by rewrite <-app_assoc|done|done|..]; intros k; rewrite ?Hps, ?Hhs;
    destruct (decide (k = n)) as [->|];
    rewrite ?lookup_delete_eq, ?lookup_delete_ne by done; repeat case_decide; set_solver.
Qed.
Lemma elem_of_stale self now n :
  n ∈ stale_peers self now ↔
  ∃ p, peers self !! n = Some p
    ∧ PeatPeer.is_stale p now (PeerManagerConfig.peer_timeout_ms (config self)) = true.
Proof.
  unfold stale_peers. rewrite list_elem_of_omap. split.
  - intros ([k p] & Hk%elem_of_bt_iter & Hs). destruct (PeatPeer.is_stale _ _ _) eqn:E; simplify_eq.
    eauto.
  - intros (p & Hp & Hs). exists (n, p). rewrite Hs. by rewrite elem_of_bt_iter.
Qed.
Lemma stale_NoDup self now : NoDup (stale_peers self now).
Proof.
  eapply sublist_NoDup; [apply (bt_iter_NoDup_keys (peers self))|].
  rewrite <-(list_fmap_id (stale_peers self now)). unfold stale_peers.
  apply (omap_keys_sub _ id). intros [k p] b. destruct (PeatPeer.is_stale _ _ _); naive_solver.
Qed.
Lemma cleanup_spec self now :
  let '(self', removed) := cleanup_stale self now in
  removed = stale_peers self now ∧ config self' = config self ∧ node_id self' = node_id self
  ∧ (∀ k, peers self' !! k = if decide (k ∈ stale_peers self now) then None else peers self !! k)
  ∧ (∀ k, sync_history self' !! k
          = if decide (k ∈ stale_peers self now) then None else sync_history self !! k).
Proof.
  unfold cleanup_stale. pose proof (remove_all (stale_peers self now) self []) as Hr.
  destruct (foldl _ _ _) as [self' removed]. apply Hr; [apply stale_NoDup|].
  intros n (p & Hp & _)%elem_of_stale. by exists p.
Qed.

Lemma discovered_inv t self id name rssi mesh now :
  inv cfg me t self → t ≤ now → inv cfg me now (on_discovered self id name rssi mesh now).1.
Proof.
  intros Hi Ht. apply (inv_later t now) in Hi; [|done]. unfold on_discovered.
  destruct (matches_mesh self mesh); [|done]. destruct (parse_node_id_from_name name) as [n|]; [|done].
  cbn [negb]. destruct (Z.eqb_spec n (node_id self)) as [|Hn]; [done|].
  set (ps := match identifier_map self !! id with Some _ => _ | None => _ end).
  assert (ps ⊆ peers self) as Hsub.
  { unfold ps. destruct (identifier_map self !! id) as [k|]; [|done].
    destruct (k =? n); cbn; [done|apply delete_subseteq]. }
  destruct (at_capacity self ps n) eqn:Hc; cbn [fst]; [by apply inv_drop|].
  apply inv_insert; try done.
  - by destruct Hi as (_ & <- & _).
  - unfold set_sighting. cbn [PeatPeer.node_id]. by eapply peer_default.
Qed.
Lemma incoming_inv t self id n now :
  inv cfg me t self → t ≤ now → inv cfg me now (on_incoming_connection self id n now).1.
Proof.
  intros Hi Ht. apply (inv_later t now) in Hi; [|done]. unfold on_incoming_connection.
  destruct (Z.eqb_spec n (node_id self)) as [|Hn]; [done|].
  destruct (at_capacity self (peers self) n) eqn:Hc; [done|].
  assert (n ≠ me) by (by destruct Hi as (_ & <- & _)).
  set (p := default _ _). assert (PeatPeer.node_id p = n) by (by eapply peer_default).
  destruct (bool_decide _); cbn [negb fst]; by apply inv_insert.
Qed.
Lemma step_inv_manager now self ev :
  inv cfg me now self → inv cfg me now (step self (now, ev)).
Proof.
  intros Hi. pose proof Hi as (_ & _ & Hf & _). destruct ev; cbn [step].
  - by eapply discovered_inv.
  - unfold on_connected. destruct (identifier_map self !! identifier) as [n|]; [|done]. cbn.
    destruct (peers self !! n) as [p|] eqn:Hp; [|done]. by eapply inv_change.
  - unfold on_disconnected. destruct (identifier_map self !! identifier) as [n|]; [|done]. cbn.
    destruct (peers self !! n) as [p|] eqn:Hp; [|done]. eapply inv_change; try done.
    by apply Hf in Hp as (_ & _ & ?).
  - unfold on_disconnected_by_node_id. destruct (peers self !! n) as [p|] eqn:Hp; [|done].
    eapply inv_change; try done. by apply Hf in Hp as (_ & _ & ?).
  - by eapply incoming_inv.
  - by apply (inv_drop _ self (peers self)).
  - by apply (inv_drop _ self (peers self)).
  - pose proof (cleanup_spec self now) as Hcl.
    destruct (cleanup_stale self now) as [self' removed]. cbn.
    destruct Hcl as (_ & Hcfg & Hme & Hps & _). destruct self' as [c m ps ids hist]. cbn in *. subst.
    apply (inv_drop now self ps ids hist); [done|]. apply map_subseteq_spec. intros k p.
    rewrite Hps. by case_decide.
Qed.
Lemma run_inv_manager evs t self :
  inv cfg me t self → ordered t evs → inv cfg me (last_time t evs) (run self evs).
Proof.
  apply timed_invariant; [intros ????; by apply inv_later|intros ???; apply step_inv_manager].
Qed.
End inv.

Lemma new_inv cfg me t : inv cfg me t (new me cfg).
Proof. split_and!; [done..|apply map_Forall_empty|].
  cbn [peers new]. rewrite map_size_empty. lia.
Qed.

Lemma needing_sync_iff cfg me t self now n :
  inv cfg me t self →
  (∃ p, p ∈ peers_needing_sync self now ∧ PeatPeer.node_id p = n) ↔
  (∃ p, peers self !! n = Some p ∧ PeatPeer.is_connected p = true)
  ∧ should_sync_with self n now = true.
Proof.
  intros (_ & _ & Hf & _). unfold peers_needing_sync, get_peers. split.
  - intros (p & [[Hc Hs] Hin]%list_elem_of_filter & <-).
    apply list_elem_of_fmap in Hin as ([k q] & -> & Hk%elem_of_bt_iter). cbn in *.
    apply Hf in Hk as Hk'. destruct Hk' as (_ & <- & _). apply negb_false_iff in Hc. eauto.
  - intros [(p & Hp & Hc) Hs]. exists p. apply Hf in Hp as Hp'. destruct Hp' as (_ & <- & _).
    split; [|done]. apply list_elem_of_filter. rewrite Hc. split; [done|].
    apply list_elem_of_fmap. exists (PeatPeer.node_id p, p). by rewrite elem_of_bt_iter.
Qed.
End PeerManagerProofs.

Module PeerManagerProperties.
Import PeerManager PeerManagerProofs.

(** After any history of discoveries, connections, disconnections, syncs
    and cleanups, in order of time, the manager does not track its own node,
    holds its capacity, and files every peer under its identifier with a time
    of sighting in the past.  A cleanup then removes exactly the stale peers,
    reports each of them once, forgets their syncs and keeps everything else. *)
Theorem peer_manager_invariant cfg me t evs now :
  ordered t evs → last_time t evs ≤ now →
  let self := run (new me cfg) evs in
  inv cfg me now self
  ∧ let '(self', removed) := cleanup_stale self now in
    inv cfg me now self' ∧ NoDup removed
    ∧ (∀ n, n ∈ removed ↔ ∃ p, peers self !! n = Some p
         ∧ PeatPeer.is_stale p now (PeerManagerConfig.peer_timeout_ms cfg) = true)
    ∧ (∀ n, peers self' !! n = if decide (n ∈ removed) then None else peers self !! n)
    ∧ (∀ n, sync_history self' !! n
            = if decide (n ∈ removed) then None else sync_history self !! n).
Proof.
  intros Ho Hl self.
  assert (inv cfg me now self) as Hi.
  { eapply inv_later; [exact Hl|]. apply run_inv_manager; [apply new_inv|done]. }
  split; [done|]. pose proof (step_inv_manager cfg me now self Cleanup Hi) as Hi'. cbn in Hi'.
  pose proof (cleanup_spec self now) as Hc. destruct (cleanup_stale self now) as [self' removed].
  destruct Hc as (-> & _ & _ & Hps & Hhs). split_and!; try done.
  - apply stale_NoDup.
  - intros n. rewrite elem_of_stale. by destruct Hi as (-> & _).
Qed.

(** A node that advertises its device name is found, connected and synced.
    The name is read back as the mesh and the node unless the mesh identifier
    holds a hyphen.  The manager of a node of the same mesh accepts the
    sighting when there is room and answers the connection with the node's
    identifier; from then on the node is due for a sync exactly when the last
    one is a cooldown ago. *)
Theorem advertised_node_syncs cfg me t self n id rssi now now' :
  inv cfg me t self → t ≤ now → now ≤ now' → in_u 32 n → n ≠ me →
  let mesh := PeerManagerConfig.mesh_id cfg in
  let name := MeshConfig.device_name (MeshConfig.new mesh) n in
  MeshConfig.parse_device_name name = (if decide (45 ∈ mesh) then None else Some (Some mesh, n))
  ∧ let '(self1, found) := on_discovered self id (Some name) rssi (Some mesh) now in
    match found with
    | None => PeerManagerConfig.max_peers cfg ≤ Z.of_nat (size (peers self1)) ∧ peers self1 !! n = None
    | Some (k, is_new) =>
        k = n
        ∧ let '(self2, c) := on_connected self1 id now' in
          c = Some n
          ∧ (∀ t', (∃ p, p ∈ peers_needing_sync self2 t' ∧ PeatPeer.node_id p = n) ↔
              ∀ s, sync_history self !! n = Some s →
                   PeerManagerConfig.sync_cooldown_ms cfg ≤ saturating_sub t' s)
          ∧ (∀ s t', (∃ p, p ∈ peers_needing_sync (record_sync self2 n s) t'
                           ∧ PeatPeer.node_id p = n) ↔
              PeerManagerConfig.sync_cooldown_ms cfg ≤ saturating_sub t' s)
    end.
Proof.
  intros Hi Ht Hn' Hn Hme mesh name. split.
  { case_decide; [by apply (ConfigProofs.parse_dashed_name (MeshConfig.new mesh))|
      by apply (ConfigProofs.parse_own_name (MeshConfig.new mesh))]. }
  pose proof (discovered_inv cfg me t self id (Some name) rssi (Some mesh) now Hi Ht) as Hi1.
  pose proof Hi as (Hcfg & Hself & _). unfold on_discovered in *.
  assert (matches_mesh self (Some mesh) = true) as Hm.
  { unfold matches_mesh, PeerManagerConfig.matches_mesh. rewrite Hcfg. by apply bool_decide_eq_true_2. }
  assert (parse_node_id_from_name (Some name) = Some n) as Hp by (by apply parse_own_node).
  rewrite Hm, Hp, Hself, (proj2 (Z.eqb_neq n me) Hme) in Hi1 |- *. cbn [negb] in Hi1 |- *. set (ps := match identifier_map self !! id with Some _ => _ | None => _ end) in *.
  destruct (at_capacity self ps n) eqn:Hc.
  - unfold at_capacity in Hc. rewrite Hcfg in Hc. apply andb_true_iff in Hc as [Hs Hnone].
    split; [by apply Z.leb_le in Hs|]. cbn. apply negb_true_iff, bool_decide_eq_false in Hnone.
    by apply eq_None_not_Some.
  - split; [done|]. cbn [fst] in Hi1. unfold on_connected. cbn [identifier_map set_tables].
    rewrite lookup_insert_eq. cbn [peers set_tables]. rewrite lookup_insert_eq. split; [done|].
    set (p := set_sighting _ _ _ _) in *.
    set (self2 := set_peers _ _).
    assert (inv cfg me now' self2) as Hi2.
    { apply (inv_later _ _ now now') in Hi1; [|done].
      apply (inv_change cfg me now' _ (<[id:=n]> (identifier_map self)) n p
        (PeatPeer.touch (set_connected p true) now') Hi1); [|done|done].
      cbn. by rewrite lookup_insert_eq. }
    assert (∃ q, peers self2 !! n = Some q ∧ PeatPeer.is_connected q = true) as Hq.
    { eexists. split; [cbn; by rewrite lookup_insert_eq|done]. }
    split.
    + intros t'. rewrite (needing_sync_iff cfg me now') by done.
      unfold should_sync_with. cbn [sync_history self2 set_peers set_tables config]. rewrite Hcfg.
      destruct (sync_history self !! n) as [s|]; [|naive_solver].
      rewrite Z.leb_le. naive_solver.
    + intros s t'. rewrite (needing_sync_iff cfg me now').
      2: { by apply (inv_drop _ _ now' self2 (peers self2)). }
      unfold should_sync_with. cbn [sync_history record_sync config self2 set_peers set_tables].
      rewrite lookup_insert_eq, Hcfg, Z.leb_le. naive_solver.
Qed.

Definition sighting (node : Z) (id : list Z) (now : Z) : Z * event :=
  (now, Discovered id (Some (MeshConfig.device_name MeshConfig.default_config node)) (-65)
          (Some DEFAULT_MESH_ID)).
Definition demo_history : list (Z * event) := [
  sighting 2 [97] 1000; (1500, Connected [97]); sighting 3 [98] 2000; (3000, Synced 2);
  (40000, Incoming [99] 4); sighting 5 [97] 41000 ].
Definition demo_config : PeerManagerConfig.t := PeerManagerConfig.default_config.

Lemma peer_manager_invariant_witness :
  let self := run (new 1 demo_config) demo_history in
  let '(self', removed) := cleanup_stale self 60000 in
  inv demo_config 1 60000 self'
  ∧ ∀ n, n ∈ removed ↔ ∃ p, peers self !! n = Some p
      ∧ PeatPeer.is_stale p 60000 (PeerManagerConfig.peer_timeout_ms demo_config) = true.
Proof.
  assert (ordered 0 demo_history) as Ho by by_decide.
  assert (last_time 0 demo_history ≤ 60000) as Hl by by_decide.
  pose proof (peer_manager_invariant demo_config 1 0 demo_history 60000 Ho Hl) as Hc.
  cbv zeta in Hc |- *. revert Hc. generalize (run (new 1 demo_config) demo_history).
  intros self [_ Hc]. revert Hc.
  destruct (cleanup_stale self 60000) as [self' removed]. intros (Hi & _ & Hr & _).
  split; [exact Hi|exact Hr].
Defined.
(** Node 3, silent for 58 s, is removed; node 2 lost its place when node 5
    appeared under its identifier. *)
Example demo_cleanup :
  let self := run (new 1 demo_config) demo_history in
  (cleanup_stale self 60000).2 = [3]
  ∧ (bt_iter (peers (cleanup_stale self 60000).1)).*1 = [4; 5].
Proof. vm_compute. done. Qed.

Lemma advertised_node_syncs_witness :
  let self := new 1 demo_config in
  MeshConfig.parse_device_name (str "PEAT_DEMO-0000ABCD"%string) = Some (Some DEFAULT_MESH_ID, 0xABCD)
  ∧ let '(self1, found) :=
      on_discovered self [97] (Some (str "PEAT_DEMO-0000ABCD"%string)) (-65)
        (Some DEFAULT_MESH_ID) 1000 in
    found = Some (0xABCD, true)
    ∧ ∃ p, p ∈ peers_needing_sync (on_connected self1 [97] 2000).1 2000
           ∧ PeatPeer.node_id p = 0xABCD.
Proof.
  pose proof (advertised_node_syncs demo_config 1 0 (new 1 demo_config) 0xABCD [97] (-65) 1000 2000
    (new_inv _ _ _) ltac:(by_decide) ltac:(by_decide) ltac:(by_decide) ltac:(by_decide)) as [Hn Hd].
  split; [exact Hn|]. split; [vm_compute; reflexivity|].
  apply (proj1 (proj2 (proj2 Hd)) 2000). intros s Hs. discriminate Hs.
Defined.

(** A peer that connects under an identifier another peer had loses it when
    that other peer is cleaned up: its disconnection is not recognised, and it
    stays connected. *)
Example cleanup_unmaps_other_peer :
  let self := run (new 1 demo_config)
    [sighting 2 [120] 1000; (50000, Incoming [120] 3); (60000, Cleanup)] in
  (PeatPeer.is_connected <$> peers self !! 3) = Some true
  ∧ on_disconnected self [120] DisconnectReason.LinkLoss = (self, None).
Proof. vm_compute. done. Qed.

(** A node found under the identifier of another one removes it, but not its
    other identifiers, whose connections are then answered for a node that is
    not tracked. *)
Example identifier_of_removed_peer_dangles :
  let self := run (new 1 demo_config)
    [sighting 2 [97] 1000; (1100, Registered [98] 2); sighting 3 [97] 2000] in
  peers self !! 2 = None ∧ (on_connected self [98] 3000).2 = Some 2.
Proof. vm_compute. done. Qed.

(** The two parsers of device names disagree on the mesh "A-B". *)
Example dashed_mesh_name :
  let name := MeshConfig.device_name (MeshConfig.new (str "A-B"%string)) 7 in
  MeshConfig.parse_device_name name = None ∧ parse_node_id_from_name (Some name) = Some 7.
Proof. vm_compute. done. Qed.
End PeerManagerProperties.
