(* ===== verification/Topology.v ===== *)
(** * The mesh topology of src/src/mesh: roles and limits of the connections
    of a node (topology.rs), and the router that decides the next hops of a
    message (routing.rs). *)

From stdpp Require Import base numbers list gmap.
From S2P Require Import Prelude GattProto.
Open Scope Z_scope.
Open Scope peat_scope.

(** The derived order of the levels. *)
Definition level_gt (a b : HierarchyLevel.t) : bool :=
  HierarchyLevel.to_u8 b <? HierarchyLevel.to_u8 a.

Module MeshConnectionState.
Inductive t := Disconnected | Connecting | Connected | Disconnecting.
#[global] Instance mesh_connection_state_eq_dec : EqDecision t.
Proof. solve_decision. Defined.
End MeshConnectionState.

Module PeerRole.
Inductive t := Parent | Child | Peer.
#[global] Instance peer_role_eq_dec : EqDecision t.
Proof. solve_decision. Defined.
End PeerRole.

Module PeerInfo.

Record t := mk {
  node_id : Z; role : PeerRole.t; state : MeshConnectionState.t;
  hierarchy_level : HierarchyLevel.t; rssi : option Z; connected_at : option Z;
  messages_received : Z; messages_sent : Z; failure_count : Z; last_seen_ms : Z
}.
Definition new (node_id : Z) (role : PeerRole.t) (level : HierarchyLevel.t) : t :=
  mk node_id role MeshConnectionState.Disconnected level None None 0 0 0 0.
Definition is_connected (self : t) : bool :=
  bool_decide (state self = MeshConnectionState.Connected).
Definition update_rssi (self : t) (rssi : Z) : t :=
  mk (node_id self) (role self) (state self) (hierarchy_level self) (Some rssi)
    (connected_at self) (messages_received self) (messages_sent self) (failure_count self)
    (last_seen_ms self).
Definition set_failures (self : t) (n : Z) : t :=
  mk (node_id self) (role self) (state self) (hierarchy_level self) (rssi self)
    (connected_at self) (messages_received self) (messages_sent self) n (last_seen_ms self).
Definition record_failure (self : t) : t :=
  set_failures self (saturating_add 8 (failure_count self) 1).
Definition reset_failures (self : t) : t := set_failures self 0.
(** The assignments of the manager after [new]. *)
Definition connected (self : t) (rssi : option Z) (now : Z) : t :=
  mk (node_id self) (role self) MeshConnectionState.Connected (hierarchy_level self) rssi
    (Some now) (messages_received self) (messages_sent self) (failure_count self) now.
Definition seen (self : t) (now : Z) : t :=
  mk (node_id self) (role self) (state self) (hierarchy_level self) (rssi self)
    (connected_at self) (messages_received self) (messages_sent self) (failure_count self) now.

End PeerInfo.

Module MeshTopology.

Record t := mk {
  parent : option Z; children : list Z; peers : list Z; my_level : HierarchyLevel.t;
  max_children : Z; max_connections : Z
}.
#[global] Instance topology_eq_dec : EqDecision t.
Proof. solve_decision. Defined.
Definition new (my_level : HierarchyLevel.t) (max_children max_connections : Z) : t :=
  mk None [] [] my_level max_children max_connections.
Definition set (self : t) (parent : option Z) (children peers : list Z) : t :=
  mk parent children peers (my_level self) (max_children self) (max_connections self).

Definition connection_count (self : t) : Z :=
  (match parent self with Some _ => 1 | None => 0 end) + zlen (children self) + zlen (peers self).
Definition can_accept_connection (self : t) : bool := connection_count self <? max_connections self.
Definition can_accept_child (self : t) : bool :=
  (zlen (children self) <? max_children self) && can_accept_connection self.
Definition has_parent (self : t) : bool := bool_decide (is_Some (parent self)).
Definition contains (l : list Z) (node_id : Z) : bool := bool_decide (node_id ∈ l).

Definition set_parent (self : t) (node_id : Z) : t * bool :=
  if has_parent self then (self, false)
  else if negb (can_accept_connection self) then (self, false)
  else (set self (Some node_id) (children self) (peers self), true).
Definition clear_parent (self : t) : t * option Z :=
  (set self None (children self) (peers self), parent self).
Definition add_child (self : t) (node_id : Z) : t * bool :=
  if negb (can_accept_child self) then (self, false)
  else if contains (children self) node_id then (self, false)
  else (set self (parent self) (children self ++ [node_id]) (peers self), true).
(** [Vec::remove] of the first occurrence. *)
Fixpoint remove_first (l : list Z) (x : Z) : list Z :=
  match l with [] => [] | y :: l => if y =? x then l else y :: remove_first l x end.
Definition remove_child (self : t) (node_id : Z) : t * bool :=
  if contains (children self) node_id
  then (set self (parent self) (remove_first (children self) node_id) (peers self), true)
  else (self, false).
Definition add_peer (self : t) (node_id : Z) : t * bool :=
  if negb (can_accept_connection self) then (self, false)
  else if contains (peers self) node_id then (self, false)
  else (set self (parent self) (children self) (peers self ++ [node_id]), true).
Definition remove_peer (self : t) (node_id : Z) : t * bool :=
  if contains (peers self) node_id
  then (set self (parent self) (children self) (remove_first (peers self) node_id), true)
  else (self, false).
Definition all_connected (self : t) : list Z :=
  (match parent self with Some p => [p] | None => [] end) ++ children self ++ peers self.
Definition is_connected (self : t) (node_id : Z) : bool :=
  bool_decide (parent self = Some node_id) || contains (children self) node_id
  || contains (peers self) node_id.
Definition get_role (self : t) (node_id : Z) : option PeerRole.t :=
  if bool_decide (parent self = Some node_id) then Some PeerRole.Parent
  else if contains (children self) node_id then Some PeerRole.Child
  else if contains (peers self) node_id then Some PeerRole.Peer
  else None.

End MeshTopology.

(** ** Routing *)

Module RouteDirection.
Inductive t := Upward | Downward | Broadcast | Targeted (target_id : Z).
End RouteDirection.

Module RouteFailure.
Inductive t := NoParent | NoChildren | TargetNotFound | NoPeers | TtlExpired | MessageTooLarge.
End RouteFailure.

Module RouteDecision.
Record t := mk {
  next_hops : list Z; local_copy : bool; routed : bool; failure_reason : option RouteFailure.t
}.
Definition success (next_hops : list Z) (local_copy : bool) : t := mk next_hops local_copy true None.
Definition failed (reason : RouteFailure.t) : t := mk [] false false (Some reason).
Definition local_only : t := mk [] true true None.
End RouteDecision.

Module MeshRouter.

Record t := mk { node_id : Z; my_level : HierarchyLevel.t }.
Definition new (node_id : Z) (my_level : HierarchyLevel.t) : t := mk node_id my_level.

Definition route_upward (self : t) (topology : MeshTopology.t) : RouteDecision.t :=
  match MeshTopology.parent topology with
  | Some parent_id => RouteDecision.success [parent_id] true
  | None => RouteDecision.failed RouteFailure.NoParent
  end.
Definition route_downward (self : t) (topology : MeshTopology.t) : RouteDecision.t :=
  match MeshTopology.children topology with
  | [] => RouteDecision.failed RouteFailure.NoChildren
  | children => RouteDecision.success children true
  end.
Definition route_broadcast (self : t) (topology : MeshTopology.t) : RouteDecision.t :=
  match MeshTopology.all_connected topology with
  | [] => RouteDecision.failed RouteFailure.NoPeers
  | all => RouteDecision.success all true
  end.
Definition route_targeted (self : t) (target : Z) (topology : MeshTopology.t) : RouteDecision.t :=
  if MeshTopology.is_connected topology target then RouteDecision.success [target] false
  else
    match MeshTopology.parent topology with
    | Some parent => RouteDecision.success [parent] false
    | None =>
        match MeshTopology.children topology with
        | [] => RouteDecision.failed RouteFailure.TargetNotFound
        | children => RouteDecision.success children false
        end
    end.
Definition route (self : t) (direction : RouteDirection.t) (topology : MeshTopology.t)
    : RouteDecision.t :=
  match direction with
  | RouteDirection.Upward => route_upward self topology
  | RouteDirection.Downward => route_downward self topology
  | RouteDirection.Broadcast => route_broadcast self topology
  | RouteDirection.Targeted target_id => route_targeted self target_id topology
  end.

(** [retain(|n| n != source)]. *)
Definition except (source : Z) (l : list Z) : list Z := filter (λ n, n ≠ source) l.
Definition handle_received (self : t) (source : Z) (destination : option Z)
    (direction : RouteDirection.t) (topology : MeshTopology.t) : RouteDecision.t :=
  if bool_decide (destination = Some (node_id self)) then RouteDecision.local_only
  else
    match direction with
    | RouteDirection.Upward => route_upward self topology
    | RouteDirection.Downward =>
        match except source (MeshTopology.children topology) with
        | [] => RouteDecision.local_only
        | children => RouteDecision.success children true
        end
    | RouteDirection.Broadcast =>
        RouteDecision.success (except source (MeshTopology.all_connected topology)) true
    | RouteDirection.Targeted target_id =>
        if target_id =? node_id self then RouteDecision.local_only
        else route_targeted self target_id topology
    end.
Definition aggregation_route (self : t) (topology : MeshTopology.t) : option Z :=
  MeshTopology.parent topology.
Definition dissemination_routes (self : t) (topology : MeshTopology.t) : list Z :=
  MeshTopology.children topology.

End MeshRouter.

Module HopTracker.
Record t := mk { max_hops : Z; visited : list Z }.
Definition new (max_hops : Z) : t := mk max_hops [].
Definition visit (self : t) (node_id : Z) : t * bool :=
  if bool_decide (node_id ∈ visited self) then (self, false)
  else if max_hops self <=? zlen (visited self) then (self, false)
  else (mk (max_hops self) (visited self ++ [node_id]), true).
Definition has_visited (self : t) (node_id : Z) : bool := bool_decide (node_id ∈ visited self).
Definition remaining_hops (self : t) : Z :=
  saturating_sub (max_hops self) (wrap 8 (zlen (visited self))).
Definition is_expired (self : t) : bool := max_hops self <=? zlen (visited self).
End HopTracker.

(** ** A network of routers

    [net] gives the topology of each node. *)

Section network.
Context (net : gmap Z MeshTopology.t).

(** What a node sends on when it receives a message from [source]. *)
Definition forward (direction : RouteDirection.t) (node source : Z) : list Z :=
  match net !! node with
  | Some topology =>
      RouteDecision.next_hops (MeshRouter.handle_received
        (MeshRouter.new node (MeshTopology.my_level topology)) source None direction topology)
  | None => []
  end.
(** The messages of one round are all delivered: a message is the node it
    arrives at and the one it comes from. *)
Definition round (direction : RouteDirection.t) (packets : list (Z * Z)) : list (Z * Z) :=
  flat_map (λ p, map (λ w, (w, p.1)) (forward direction p.1 p.2)) packets.

(** The nodes that receive the message, each as often as it arrives there,
    when it arrives at [node] from [source]. *)
Inductive spread (direction : RouteDirection.t) : Z → Z → list Z → Prop :=
| spread_at node source received :
    Forall2 (λ w l, spread direction w node l) (forward direction node source) received →
    spread direction node source (node :: concat received).
End network.

(** A hierarchy, as the nodes are placed in it. *)
Inductive tree := Node (id : Z) (below : list tree).
Definition root (t : tree) : Z := match t with Node id _ => id end.
Fixpoint ids (t : tree) : list Z :=
  match t with Node id below => id :: flat_map ids below end.
(** The topologies of the nodes are those of the hierarchy. *)
Inductive placed (net : gmap Z MeshTopology.t) : option Z → tree → Prop :=
| placed_at parent id below topology :
    net !! id = Some topology → MeshTopology.parent topology = parent →
    MeshTopology.children topology = map root below → MeshTopology.peers topology = [] →
    Forall (placed net (Some id)) below → placed net parent (Node id below).

Module TreeInduction.

Lemma tree_below_ind (P : tree → Prop)
    (step : ∀ id below, Forall P below → P (Node id below)) : ∀ t, P t.
Proof.
  fix IH 1. intros [id below]. apply step.
  induction below as [|t below IHb]; constructor; [apply IH | exact IHb].
Qed.

End TreeInduction.

Module RouterProperties.
Import TreeInduction.

(** What a node sends when it starts a message. *)
Definition start (net : gmap Z MeshTopology.t) (direction : RouteDirection.t) (node : Z)
    : list Z :=
  match net !! node with
  | Some topology =>
      RouteDecision.next_hops (MeshRouter.route
        (MeshRouter.new node (MeshTopology.my_level topology)) direction topology)
  | None => []
  end.
(** The nodes that receive a message of [node]. *)
Definition delivered (net : gmap Z MeshTopology.t) (direction : RouteDirection.t) (node : Z)
    (received : list Z) : Prop :=
  ∃ parts, Forall2 (λ w l, spread net direction w node l) (start net direction node) parts
    ∧ received = concat parts.

Lemma except_absent (x : Z) (l : list Z) : x ∉ l → MeshRouter.except x l = l.
Proof.
  induction l as [|y l IH]; [done|]. intros [? ?]%not_elem_of_cons. unfold MeshRouter.except.
  rewrite filter_cons_True by done. f_equal. by apply IH.
Qed.
Lemma except_here (x : Z) (l1 l2 : list Z) :
  x ∉ l1 → x ∉ l2 → MeshRouter.except x (l1 ++ x :: l2) = l1 ++ l2.
Proof.
  intros H1 H2. unfold MeshRouter.except. rewrite filter_app, filter_cons_False by (intros ?; done).
  change (MeshRouter.except x l1 ++ MeshRouter.except x l2 = l1 ++ l2).
  by rewrite !except_absent.
Qed.
Lemma ids_of (l : list tree) (t : tree) :
  t ∈ l → (∀ x, x ∈ ids t → x ∈ flat_map ids l) ∧ (NoDup (flat_map ids l) → NoDup (ids t)).
Proof.
  intros (l1 & l2 & ->)%list_elem_of_split. rewrite flat_map_app. simpl. split; [set_solver|].
  intros (_ & _ & Hd)%NoDup_app. by apply NoDup_app in Hd as (? & _ & _).
Qed.
Lemma root_in_ids (t : tree) : root t ∈ ids t.
Proof. destruct t; simpl. by apply list_elem_of_here. Qed.
Lemma roots_in_ids (l : list tree) (x : Z) : x ∈ map root l → x ∈ flat_map ids l.
Proof.
  intros (t & -> & Ht)%list_elem_of_fmap. apply list_elem_of_In, in_flat_map. exists t.
  split; apply list_elem_of_In; [done | apply root_in_ids].
Qed.

(** The part of the network that a message from [source] finds behind a node
    is a tree. *)
Inductive seen (net : gmap Z MeshTopology.t) : Z → tree → Prop :=
| seen_at source id below :
    forward net RouteDirection.Broadcast id source = map root below →
    Forall (seen net id) below → seen net source (Node id below).

Lemma seen_spreads net t :
  ∀ source, seen net source t → spread net RouteDirection.Broadcast (root t) source (ids t).
Proof.
  induction t as [id below IH] using tree_below_ind. intros source Hs.
  inversion Hs as [? ? ? Hf Hb]; subst. simpl. rewrite flat_map_concat_map.
  constructor. rewrite Hf. clear Hs Hf.
  induction Hb as [|t below Ht Hb IHb]; constructor; inversion IH; subst; auto.
Qed.

Lemma spread_unique net direction :
  ∀ node source l1, spread net direction node source l1 →
    ∀ l2, spread net direction node source l2 → l1 = l2.
Proof.
  fix IH 4. intros node source l1 [? ? r1 H1] l2 H2. inversion H2 as [? ? r2 H3]; subst.
  f_equal. f_equal. clear H2. revert r2 H3.
  induction H1 as [|w l ws r Hw Hr IHr]; intros r2 H3; inversion H3; subst; [done|].
  f_equal; [by eapply IH | by apply IHr].
Qed.

Lemma all_spread_unique net direction node ws parts1 parts2 :
  Forall2 (λ w l, spread net direction w node l) ws parts1 →
  Forall2 (λ w l, spread net direction w node l) ws parts2 → parts1 = parts2.
Proof.
  intros H. revert parts2. induction H as [|w l ws parts Hw _ IH]; intros parts2 H2;
    inversion H2; subst; [done|].
  f_equal; [by eapply spread_unique | by apply IH].
Qed.

Lemma forward_broadcast net id topology source :
  net !! id = Some topology →
  forward net RouteDirection.Broadcast id source
  = MeshRouter.except source (MeshTopology.all_connected topology).
Proof. intros H. unfold forward. by rewrite H. Qed.
Lemma start_broadcast net id topology :
  net !! id = Some topology →
  start net RouteDirection.Broadcast id = MeshTopology.all_connected topology.
Proof.
  intros H. unfold start. rewrite H. simpl. unfold MeshRouter.route_broadcast.
  by destruct (MeshTopology.all_connected topology).
Qed.

(** Below its parent a placed tree is seen as it is. *)
Lemma placed_seen net t :
  ∀ p, placed net (Some p) t → p ∉ ids t → NoDup (ids t) → seen net p t.
Proof.
  induction t as [id below IH] using tree_below_ind. intros p Hp Hn Hd.
  inversion Hp as [? ? ? topology Hnet Hpar Hch Hpe Hbelow]; subst.
  simpl in *. apply not_elem_of_cons in Hn as [Hne Hn]. apply NoDup_cons in Hd as [Hid Hd].
  constructor.
  - rewrite (forward_broadcast _ _ _ _ Hnet). unfold MeshTopology.all_connected.
    rewrite Hpar, Hch, Hpe, app_nil_r. change ([p] ++ ?l) with ([] ++ p :: l).
    rewrite except_here; [done | set_solver |]. intros ?%roots_in_ids. done.
  - rewrite Forall_forall in IH, Hbelow |- *. intros t Ht.
    destruct (ids_of _ _ Ht) as [Hsub Hnd]. apply IH; [done | by apply Hbelow | | by apply Hnd].
    by intros ?%Hsub.
Qed.
Lemma placed_all_seen net p l :
  Forall (placed net (Some p)) l → p ∉ flat_map ids l → NoDup (flat_map ids l) →
  Forall (seen net p) l.
Proof.
  rewrite !Forall_forall. intros Hl Hn Hd t Ht. destruct (ids_of _ _ Ht) as [Hsub Hnd].
  apply placed_seen; [by apply Hl | by intros ?%Hsub | by apply Hnd].
Qed.

(** Seen from any of its nodes the network is a tree, the part above a placed
    tree being [up]. *)
Lemma rerooted net t :
  ∀ parent up,
    placed net parent t → map root up = option_list parent →
    Forall (seen net (root t)) up → NoDup (ids t ++ flat_map ids up) →
    ∀ v, v ∈ ids t →
    ∃ below, start net RouteDirection.Broadcast v = map root below ∧
      Forall (seen net v) below ∧ v :: flat_map ids below ≡ₚ ids t ++ flat_map ids up.
Proof.
  induction t as [id below IH] using tree_below_ind. intros parent up Hp Hroot Hup Hd v Hv.
  inversion Hp as [? ? ? topology Hnet Hpar Hch Hpe Hbelow]; subst.
  assert (Hall : MeshTopology.all_connected topology = map root (up ++ below)).
  { unfold MeshTopology.all_connected. rewrite Hch, Hpe, app_nil_r, map_app, Hroot.
    by destruct (MeshTopology.parent topology). }
  simpl in *. pose proof Hd as Hwhole.
  apply NoDup_cons in Hd as [Hid Hd]. apply not_elem_of_app in Hid as [Hidb Hidu].
  pose proof Hd as (Hdb & Hdis & Hdu)%NoDup_app.
  apply elem_of_cons in Hv as [->|Hv].
  - exists (up ++ below). rewrite (start_broadcast _ _ _ Hnet), Hall. split; [done|]. split.
    + apply Forall_app. split; [done|]. by apply placed_all_seen.
    + rewrite flat_map_app. by rewrite (Permutation_app_comm (flat_map ids up)).
  - apply list_elem_of_In, in_flat_map in Hv as (c & Hc%list_elem_of_In & Hv%list_elem_of_In).
    destruct (list_elem_of_split _ _ Hc) as (l1 & l2 & ->).
    rewrite Forall_app, Forall_cons in IH, Hbelow. destruct IH as (_ & IHc & _).
    destruct Hbelow as (Hp1 & Hpc & Hp2).
    rewrite flat_map_app in *. simpl in *.
    apply NoDup_app in Hdb as (Hd1 & Hdis1 & Hd2). apply NoDup_app in Hd2 as (Hdc & Hdisc & Hd2).
    assert (Hrc := root_in_ids c).
    set (U := flat_map ids up) in *. set (L1 := flat_map ids l1) in *.
    set (L2 := flat_map ids l2) in *.
    assert (Hmove : ids c ++ id :: (U ++ L1 ++ L2) ++ [] ≡ₚ id :: (L1 ++ ids c ++ L2) ++ U)
      by (rewrite app_nil_r; solve_Permutation).
    destruct (IHc (Some id) [Node id (up ++ l1 ++ l2)] Hpc) with (v := v)
      as (below' & Hs & Hb & Hperm); [done | | | done |].
    + constructor; [|done]. constructor.
      * rewrite (forward_broadcast _ _ _ _ Hnet), Hall, !map_app. simpl. rewrite app_assoc.
        rewrite except_here; [by rewrite app_assoc | |].
        -- intros [H%roots_in_ids|H%roots_in_ids]%elem_of_app; [|set_solver].
           eapply Hdis; [|exact H]. set_solver.
        -- intros H%roots_in_ids. set_solver.
      * rewrite !Forall_app. split; [done|]. split; apply placed_all_seen; set_solver.
    + simpl. rewrite !flat_map_app. fold U L1 L2. by rewrite Hmove.
    + exists below'. split; [done|]. split; [done|]. rewrite Hperm. simpl.
      rewrite !flat_map_app. exact Hmove.
Qed.

Lemma seen_all_spread net node below :
  Forall (seen net node) below →
  Forall2 (λ w l, spread net RouteDirection.Broadcast w node l) (map root below)
    (map ids below).
Proof. induction 1; constructor; [by apply seen_spreads | done]. Qed.

(** C27: In a mesh whose nodes are connected as a hierarchy - each node has its
    parent and its children, no node twice - a broadcast of any node reaches
    every other node exactly once, and it ends: no node receives it a second
    time or gets it back. *)
Theorem broadcast_reaches_all_once net t v :
  placed net None t → NoDup (ids t) → v ∈ ids t →
  ∃ received, delivered net RouteDirection.Broadcast v received
    ∧ v :: received ≡ₚ ids t
    ∧ ∀ received', delivered net RouteDirection.Broadcast v received' → received' = received.
Proof.
  intros Hp Hd Hv.
  destruct (rerooted net t None [] Hp) with (v := v) as (below & Hs & Hb & Hperm);
    [done | by constructor | by rewrite app_nil_r | done |].
  simpl in Hperm. rewrite app_nil_r, flat_map_concat_map in Hperm.
  exists (concat (map ids below)). split; [|split; [done|]].
  - exists (map ids below). rewrite Hs. split; [by apply seen_all_spread | done].
  - intros received' (parts & Hparts & ->). f_equal. rewrite Hs in Hparts.
    by eapply all_spread_unique; [|apply seen_all_spread].
Qed.

(** A platoon of six nodes. *)
Definition demo_tree : tree :=
  Node 1 [Node 2 [Node 4 []; Node 5 []]; Node 3 [Node 6 []]].
Definition demo_net : gmap Z MeshTopology.t :=
  let node parent children :=
    MeshTopology.mk parent children [] HierarchyLevel.Squad 3 7 in
  list_to_map [(1, node None [2; 3]); (2, node (Some 1) [4; 5]); (3, node (Some 1) [6]);
               (4, node (Some 2) []); (5, node (Some 2) []); (6, node (Some 3) [])].
Lemma demo_placed : placed demo_net None demo_tree.
Proof.
  repeat first
    [ apply Forall_nil; exact I
    | apply Forall_cons; split
    | eapply placed_at; [vm_compute; reflexivity | reflexivity | reflexivity | reflexivity |] ].
Qed.
Lemma broadcast_reaches_all_once_witness :
  ∃ received, delivered demo_net RouteDirection.Broadcast 4 received
    ∧ 4 :: received ≡ₚ ids demo_tree
    ∧ ∀ received', delivered demo_net RouteDirection.Broadcast 4 received' →
      received' = received.
Proof.
  apply (broadcast_reaches_all_once demo_net demo_tree 4).
  - exact demo_placed.
  - apply (bool_decide_unpack _). vm_compute. exact I.
  - apply (bool_decide_unpack _). vm_compute. exact I.
Defined.

(** A node with children and no parent sends a targeted message that it cannot
    place to all its children, the one it came from included; a leaf sends it
    back to its parent. *)
Definition star (net : gmap Z MeshTopology.t) (hub : Z) (leaves : list Z) : Prop :=
  (∃ topology, net !! hub = Some topology ∧ MeshTopology.parent topology = None
    ∧ MeshTopology.children topology = leaves ∧ MeshTopology.peers topology = [])
  ∧ Forall (λ leaf, ∃ topology, net !! leaf = Some topology
      ∧ MeshTopology.parent topology = Some hub
      ∧ MeshTopology.children topology = [] ∧ MeshTopology.peers topology = []) leaves.

Lemma star_hub net hub leaves target source :
  star net hub leaves → leaves ≠ [] → target ≠ hub → target ∉ leaves →
  forward net (RouteDirection.Targeted target) hub source = leaves.
Proof.
  intros [(topology & Hnet & Hp & Hc & Hpe) _] Hne Ht Hl. unfold forward. rewrite Hnet. simpl.
  unfold MeshRouter.handle_received. simpl. rewrite (proj2 (Z.eqb_neq _ _) Ht).
  unfold MeshRouter.route_targeted, MeshTopology.is_connected, MeshTopology.contains.
  rewrite Hp, Hc, Hpe, !bool_decide_eq_false_2 by set_solver. by destruct leaves.
Qed.
Lemma star_leaf net hub leaves target leaf source :
  star net hub leaves → leaf ∈ leaves → target ≠ hub → target ∉ leaves →
  forward net (RouteDirection.Targeted target) leaf source = [hub].
Proof.
  intros [_ Hleaves] Hin Ht Hl. rewrite Forall_forall in Hleaves.
  destruct (Hleaves _ Hin) as (topology & Hnet & Hp & Hc & Hpe). unfold forward. rewrite Hnet.
  unfold MeshRouter.handle_received. simpl.
  rewrite (proj2 (Z.eqb_neq target leaf)) by set_solver.
  unfold MeshRouter.route_targeted, MeshTopology.is_connected, MeshTopology.contains.
  rewrite Hp, Hc, Hpe, !bool_decide_eq_false_2 by set_solver. done.
Qed.

Lemma star_two_rounds net hub leaves target packets :
  star net hub leaves → leaves ≠ [] → target ≠ hub → target ∉ leaves →
  Forall (λ p, p.1 = hub) packets →
  let next := round net (RouteDirection.Targeted target)
    (round net (RouteDirection.Targeted target) packets) in
  Forall (λ p, p.1 = hub) next ∧ length next = (length packets * length leaves)%nat.
Proof.
  intros Hs Hne Ht Hl. induction 1 as [|[h s] packets Hh _ [IHf IHl]]; [done|].
  simpl in Hh. subst h. cbv zeta in *. unfold round in *. simpl.
  rewrite (star_hub _ _ _ _ _ Hs Hne Ht Hl), flat_map_app, Forall_app, length_app, IHl.
  assert (Hall : ∀ l, (∀ x, x ∈ l → x ∈ leaves) →
    flat_map (λ p, map (λ w, (w, p.1)) (forward net (RouteDirection.Targeted target) p.1 p.2))
      (map (λ w, (w, hub)) l) = map (λ w, (hub, w)) l).
  { induction l as [|w l IH]; intros Hin; [done|]. simpl.
    rewrite (star_leaf _ _ _ _ w _ Hs) by set_solver. simpl. f_equal. apply IH. set_solver. }
  rewrite Hall by done. rewrite length_map. split; [|lia]. split; [|done].
  apply Forall_forall. intros p (w & -> & _)%list_elem_of_fmap. done.
Qed.

(** A targeted message for a node that is not in the mesh multiplies. In
    the smallest hierarchy, a root and its leaves, the root sends it to all
    its children and each of them sends it back: every two rounds the number
    of copies is multiplied by the number of children, without end, for the
    router neither leaves out the sender nor counts hops. *)
Theorem targeted_message_multiplies net hub leaves target source rounds :
  star net hub leaves → leaves ≠ [] → target ≠ hub → target ∉ leaves →
  length (Nat.iter (2 * rounds) (round net (RouteDirection.Targeted target)) [(hub, source)])
  = (length leaves ^ rounds)%nat.
Proof.
  intros Hs Hne Ht Hl.
  enough (H : let packets :=
      Nat.iter (2 * rounds) (round net (RouteDirection.Targeted target)) [(hub, source)] in
    Forall (λ p, p.1 = hub) packets ∧ length packets = (length leaves ^ rounds)%nat)
    by apply H.
  induction rounds as [|rounds [IHf IHl]]; cbv zeta.
  - split; [by constructor | done].
  - replace (2 * S rounds)%nat with (S (S (2 * rounds))) by lia. rewrite !Nat.iter_succ.
    destruct (star_two_rounds net hub leaves target _ Hs Hne Ht Hl IHf) as [Hf Hlen].
    cbv zeta in Hf, Hlen. split; [exact Hf|]. rewrite Hlen, IHl, Nat.pow_succ_r'. lia.
Qed.

Lemma targeted_message_multiplies_witness :
  let node parent children :=
    MeshTopology.mk parent children [] HierarchyLevel.Squad 3 7 in
  let net : gmap Z MeshTopology.t :=
    list_to_map [(1, node None [2; 3]); (2, node (Some 1) []); (3, node (Some 1) [])] in
  length (Nat.iter 20 (round net (RouteDirection.Targeted 99)) [(1, 2)]) = 1024%nat.
Proof.
  cbv zeta.
  rewrite (targeted_message_multiplies _ 1 [2; 3] 99 2 10); [reflexivity | | done | done |].
  - split; [eexists; split; [vm_compute; reflexivity | done]|].
    repeat (apply Forall_cons; split;
      [eexists; split; [vm_compute; reflexivity | done]|]).
    by apply Forall_nil.
  - apply (bool_decide_unpack _). vm_compute. exact I.
Defined.

(** ** The limits of a topology, and the hop tracker *)

(** What the operations of the topology keep. *)
Definition within (topology : MeshTopology.t) : Prop :=
  zlen (MeshTopology.children topology) ≤ MeshTopology.max_children topology
  ∧ MeshTopology.connection_count topology ≤ MeshTopology.max_connections topology
  ∧ NoDup (MeshTopology.children topology) ∧ NoDup (MeshTopology.peers topology).

Lemma remove_first_sublist l x : sublist (MeshTopology.remove_first l x) l.
Proof.
  induction l as [|y l IH]; simpl; [constructor|]. destruct (y =? x); by constructor.
Qed.
Lemma remove_first_spec l x : NoDup l → MeshTopology.remove_first l x = MeshRouter.except x l.
Proof.
  induction 1 as [|y l Hy Hd IH]; [done|]. simpl. unfold MeshRouter.except in *.
  destruct (Z.eqb_spec y x) as [->|Hne].
  - rewrite filter_cons_False by (intros ?; done). symmetry. by apply except_absent.
  - rewrite filter_cons_True by done. by f_equal.
Qed.

(** The hop tracker admits each node once and not more of them than its limit. *)
Lemma hop_tracker_visits (tracker : HopTracker.t) node_id :
  NoDup (HopTracker.visited tracker) →
  zlen (HopTracker.visited tracker) ≤ Z.max 0 (HopTracker.max_hops tracker) →
  let '(tracker', admitted) := HopTracker.visit tracker node_id in
  NoDup (HopTracker.visited tracker')
  ∧ zlen (HopTracker.visited tracker') ≤ Z.max 0 (HopTracker.max_hops tracker')
  ∧ ((admitted = true) ↔ (node_id ∉ HopTracker.visited tracker
                          ∧ zlen (HopTracker.visited tracker) < HopTracker.max_hops tracker)).
Proof.
  intros Hd Hl. unfold HopTracker.visit. case_bool_decide as Hin; [naive_solver|].
  destruct (Z.leb_spec (HopTracker.max_hops tracker) (zlen (HopTracker.visited tracker))).
  - split; [done|]. split; [done|]. split; [done|]. intros [_ ?]. lia.
  - cbn [HopTracker.visited HopTracker.max_hops]. split; [|split].
    + apply NoDup_app. split; [done|]. split; [set_solver | apply NoDup_singleton].
    + rewrite length_app, Nat2Z.inj_add. change (Z.of_nat (length [node_id])) with 1. lia.
    + done.
Qed.

End RouterProperties.
