(* ===== verification/MeshManager.v ===== *)
(** * The mesh manager of src/src/mesh/manager.rs: the node's parent and
    children, the candidates for a parent that beacons announce, failover from
    a lost parent, and the events its listeners see; with the candidate, the
    configuration and the events of src/src/mesh/topology.rs.

    Each table is behind a lock of its own; an operation is one step here. The
    clock is an [AtomicUsize], 64 bits wide here. *)

From stdpp Require Import base numbers list gmap.
From S2P Require Import Prelude GattProto Beacon Topology.
Open Scope Z_scope.
Open Scope peat_scope.

(** [mesh::topology::DisconnectReason], not that of the platform. *)
Module LinkReason.
Inductive t := Requested | Timeout | RemoteDisconnect | SupervisionTimeout | LinkLoss
  | LocalError | Unknown.
#[global] Instance link_reason_eq_dec : EqDecision t.
Proof. solve_decision. Defined.
End LinkReason.

Module TopologyEvent.
Inductive t :=
| ParentConnected (node_id : Z) (level : HierarchyLevel.t) (rssi : option Z)
| ParentDisconnected (node_id : Z) (reason : LinkReason.t)
| ChildConnected (node_id : Z) (level : HierarchyLevel.t)
| ChildDisconnected (node_id : Z) (reason : LinkReason.t)
| PeerConnected (node_id : Z)
| PeerDisconnected (node_id : Z) (reason : LinkReason.t)
| TopologyChanged (child_count peer_count : Z) (has_parent : bool)
| ParentFailoverStarted (old_parent : Z)
| ParentFailoverCompleted (old_parent : Z) (new_parent : option Z)
| ConnectionQualityChanged (node_id rssi : Z).
End TopologyEvent.

Module ParentCandidate.

Record t := mk {
  node_id : Z; level : HierarchyLevel.t; rssi : Z; age_ms : Z; failure_count : Z
}.
Definition ideal_level (my_level : HierarchyLevel.t) : HierarchyLevel.t :=
  match my_level with
  | HierarchyLevel.Platform => HierarchyLevel.Squad
  | HierarchyLevel.Squad => HierarchyLevel.Platoon
  | HierarchyLevel.Platoon => HierarchyLevel.Company
  | HierarchyLevel.Company => HierarchyLevel.Company
  end.
(** An [i32], of which no term leaves the range. *)
Definition score (self : t) (my_level : HierarchyLevel.t) : Z :=
  let score := 0 + (rssi self + 100) * 2 in
  let score :=
    if age_ms self <? 1000 then score + 20
    else if age_ms self <? 3000 then score + 10
    else if age_ms self <? 5000 then score + 5
    else score in
  let score := score - failure_count self * 15 in
  if bool_decide (level self = ideal_level my_level) then score + 30
  else if level_gt (level self) my_level then score + 15
  else score.
Definition set_beacon (self : t) (rssi : Z) (level : HierarchyLevel.t) : t :=
  mk (node_id self) level rssi 0 (failure_count self).
Definition set_age (self : t) (age_ms : Z) : t :=
  mk (node_id self) (level self) (rssi self) age_ms (failure_count self).
Definition set_failures (self : t) (n : Z) : t :=
  mk (node_id self) (level self) (rssi self) (age_ms self) n.

End ParentCandidate.

Module TopologyConfig.

Record t := mk {
  max_children : Z; max_connections : Z; min_parent_rssi : Z; max_beacon_age_ms : Z;
  parent_timeout_ms : Z; connect_timeout_ms : Z; max_failures : Z; failover_delay_ms : Z;
  rssi_hysteresis : Z
}.
Definition default_config : t := mk 3 7 (-85) 10000 5000 10000 3 1000 6.

End TopologyConfig.

Module ManagerState.
Inductive t := Stopped | Starting | Running | Failover | Stopping.
#[global] Instance manager_state_eq_dec : EqDecision t.
Proof. solve_decision. Defined.
End ManagerState.

Module MeshError.
Inductive t := InvalidState | ConnectionFailed.
End MeshError.

Module MeshManager.

Record t := mk {
  node_id : Z; my_level : HierarchyLevel.t; config : TopologyConfig.t;
  topology : MeshTopology.t; peers : gmap Z PeerInfo.t; candidates : list ParentCandidate.t;
  state : ManagerState.t; time_ms : Z;
  (** What a listener registered at the start has been called with. *)
  events : list TopologyEvent.t
}.
(** [Result<()>]. *)
Definition result : Type := option MeshError.t.

Definition set_topology (self : t) (topology : MeshTopology.t) : t :=
  mk (node_id self) (my_level self) (config self) topology (peers self) (candidates self)
    (state self) (time_ms self) (events self).
Definition set_peers (self : t) (peers : gmap Z PeerInfo.t) : t :=
  mk (node_id self) (my_level self) (config self) (topology self) peers (candidates self)
    (state self) (time_ms self) (events self).
Definition set_candidates (self : t) (candidates : list ParentCandidate.t) : t :=
  mk (node_id self) (my_level self) (config self) (topology self) (peers self) candidates
    (state self) (time_ms self) (events self).
Definition set_state (self : t) (state : ManagerState.t) : t :=
  mk (node_id self) (my_level self) (config self) (topology self) (peers self) (candidates self)
    state (time_ms self) (events self).
Definition set_time_ms (self : t) (time_ms : Z) : t :=
  mk (node_id self) (my_level self) (config self) (topology self) (peers self) (candidates self)
    (state self) time_ms (events self).
Definition emit_event (self : t) (event : TopologyEvent.t) : t :=
  mk (node_id self) (my_level self) (config self) (topology self) (peers self) (candidates self)
    (state self) (time_ms self) (events self ++ [event]).
Definition emit_topology_changed (self : t) : t :=
  emit_event self (TopologyEvent.TopologyChanged
    (zlen (MeshTopology.children (topology self))) (zlen (MeshTopology.peers (topology self)))
    (MeshTopology.has_parent (topology self))).

Definition new (node_id : Z) (my_level : HierarchyLevel.t) (config : TopologyConfig.t) : t :=
  mk node_id my_level config
    (MeshTopology.new my_level (TopologyConfig.max_children config)
       (TopologyConfig.max_connections config))
    ∅ [] ManagerState.Stopped 0 [].

Definition start (self : t) : t * result :=
  match state self with
  | ManagerState.Stopped => (set_state self ManagerState.Running, None)
  | _ => (self, Some MeshError.InvalidState)
  end.
Definition stop (self : t) : t * result :=
  let self := set_state self ManagerState.Stopped in
  let self := set_topology self (MeshTopology.set (topology self) None [] []) in
  let self := set_peers self ∅ in
  (set_candidates self [], None).

(** [iter_mut().find(p)], with what is done to the element found. *)
Fixpoint update_first (n : Z) (f : ParentCandidate.t → ParentCandidate.t)
    (l : list ParentCandidate.t) : list ParentCandidate.t :=
  match l with
  | [] => []
  | c :: l => if ParentCandidate.node_id c =? n then f c :: l else c :: update_first n f l
  end.
Definition is_candidate (l : list ParentCandidate.t) (n : Z) : bool :=
  bool_decide (n ∈ map ParentCandidate.node_id l).

Definition process_beacon (self : t) (beacon : PeatBeacon.t) (rssi : Z) : t :=
  let n := PeatBeacon.node_id beacon in
  let level := PeatBeacon.hierarchy_level beacon in
  if level_gt level (my_level self) then
    let candidate := ParentCandidate.mk n level rssi 0
      (match peers self !! n with Some p => PeerInfo.failure_count p | None => 0 end) in
    set_candidates self
      (if is_candidate (candidates self) n
       then update_first n (λ c, ParentCandidate.set_beacon c rssi level) (candidates self)
       else candidates self ++ [candidate])
  else self.

Definition eligible (self : t) (c : ParentCandidate.t) : bool :=
  (TopologyConfig.min_parent_rssi (config self) <=? ParentCandidate.rssi c)
  && (ParentCandidate.age_ms c <=? TopologyConfig.max_beacon_age_ms (config self))
  && (ParentCandidate.failure_count c <? TopologyConfig.max_failures (config self)).
Definition score_of (self : t) (c : ParentCandidate.t) : Z :=
  ParentCandidate.score c (my_level self).
Definition select_best_parent (self : t) : option ParentCandidate.t :=
  max_by (λ a b, score_of self a <=? score_of self b)
    (List.filter (eligible self) (candidates self)).

Definition connect_parent (self : t) (n : Z) (level : HierarchyLevel.t) (rssi : Z) : t * result :=
  if MeshTopology.has_parent (topology self) then (self, Some MeshError.InvalidState)
  else
    match MeshTopology.set_parent (topology self) n with
    | (topology, false) => (set_topology self topology, Some MeshError.ConnectionFailed)
    | (topology, true) =>
        let self := set_topology self topology in
        let peer_info :=
          PeerInfo.connected (PeerInfo.new n PeerRole.Parent level) (Some rssi) (time_ms self) in
        let self := set_peers self (<[n := peer_info]> (peers self)) in
        let self := emit_event self (TopologyEvent.ParentConnected n level (Some rssi)) in
        (emit_topology_changed self, None)
    end.
Definition disconnect_parent (self : t) (reason : LinkReason.t) : t * option Z :=
  let '(topology, old_parent) := MeshTopology.clear_parent (topology self) in
  let self := set_topology self topology in
  (match old_parent with
   | Some parent_id =>
       let self := set_peers self (delete parent_id (peers self)) in
       let self := emit_event self (TopologyEvent.ParentDisconnected parent_id reason) in
       emit_topology_changed self
   | None => self
   end, old_parent).
Definition accept_child (self : t) (n : Z) (level : HierarchyLevel.t) : t * result :=
  match MeshTopology.add_child (topology self) n with
  | (topology, false) => (set_topology self topology, Some MeshError.ConnectionFailed)
  | (topology, true) =>
      let self := set_topology self topology in
      let peer_info :=
        PeerInfo.connected (PeerInfo.new n PeerRole.Child level) None (time_ms self) in
      let self := set_peers self (<[n := peer_info]> (peers self)) in
      let self := emit_event self (TopologyEvent.ChildConnected n level) in
      (emit_topology_changed self, None)
  end.
Definition remove_child (self : t) (n : Z) (reason : LinkReason.t) : t * bool :=
  let '(topology, removed) := MeshTopology.remove_child (topology self) n in
  let self := set_topology self topology in
  (if removed then
     let self := set_peers self (delete n (peers self)) in
     let self := emit_event self (TopologyEvent.ChildDisconnected n reason) in
     emit_topology_changed self
   else self, removed).

Definition start_failover (self : t) : t * result :=
  if negb (bool_decide (state self = ManagerState.Running))
  then (self, Some MeshError.InvalidState)
  else
    let '(self, old_parent) := disconnect_parent self LinkReason.LinkLoss in
    match old_parent with
    | Some old_parent_id =>
        let self := set_state self ManagerState.Failover in
        (emit_event self (TopologyEvent.ParentFailoverStarted old_parent_id), None)
    | None => (self, None)
    end.
Definition complete_failover (self : t) (new_parent : option (Z * HierarchyLevel.t * Z))
    : t * result :=
  let old_parent :=
    match candidates self with c :: _ => ParentCandidate.node_id c | [] => 0 end in
  match new_parent with
  | Some (n, level, rssi) =>
      match connect_parent self n level rssi with
      | (self, Some error) => (self, Some error)
      | (self, None) =>
          let self := set_state self ManagerState.Running in
          (emit_event self (TopologyEvent.ParentFailoverCompleted old_parent (Some n)), None)
      end
  | None =>
      let self := set_state self ManagerState.Running in
      (emit_event self (TopologyEvent.ParentFailoverCompleted old_parent None), None)
  end.

Definition update_rssi (self : t) (n rssi : Z) : t :=
  let self :=
    match peers self !! n with
    | Some peer =>
        set_peers self (<[n := PeerInfo.seen (PeerInfo.update_rssi peer rssi) (time_ms self)]>
                          (peers self))
    | None => self
    end in
  emit_event self (TopologyEvent.ConnectionQualityChanged n rssi).
Definition record_failure (self : t) (n : Z) : t :=
  let self :=
    match peers self !! n with
    | Some peer => set_peers self (<[n := PeerInfo.record_failure peer]> (peers self))
    | None => self
    end in
  set_candidates self
    (update_first n
       (λ c, ParentCandidate.set_failures c
               (saturating_add 8 (ParentCandidate.failure_count c) 1)) (candidates self)).
(** The bound is computed for each candidate. *)
Definition age_candidates (self : t) (elapsed_ms : Z) : outcome t :=
  let aged := map (λ c, ParentCandidate.set_age c
                          (saturating_add 64 (ParentCandidate.age_ms c) elapsed_ms))
                (candidates self) in
  match aged with
  | [] => Ok self
  | _ =>
      let! bound := mul_u 64 (TopologyConfig.max_beacon_age_ms (config self)) 2 in
      Ok (set_candidates self (List.filter (λ c, ParentCandidate.age_ms c <=? bound) aged))
  end.

Definition should_switch_parent (self : t) : outcome (option ParentCandidate.t) :=
  match MeshTopology.parent (topology self) with
  | None => Ok None
  | Some current_parent =>
      match peers self !! current_parent ≫= PeerInfo.rssi with
      | None => Ok None
      | Some current_rssi =>
          match select_best_parent self with
          | None => Ok None
          | Some best =>
              let! bound :=
                add_i8 current_rssi (to_i8 (TopologyConfig.rssi_hysteresis (config self))) in
              Ok (if bound <? ParentCandidate.rssi best then Some best else None)
          end
      end
  end.

(** ** A manager's run *)

Inductive op :=
| Start | Stop | SetTime (time_ms : Z) | Beacon (beacon : PeatBeacon.t) (rssi : Z)
| ConnectParent (n : Z) (level : HierarchyLevel.t) (rssi : Z)
| DisconnectParent (reason : LinkReason.t)
| AcceptChild (n : Z) (level : HierarchyLevel.t) | RemoveChild (n : Z) (reason : LinkReason.t)
| StartFailover | CompleteFailover (new_parent : option (Z * HierarchyLevel.t * Z))
| UpdateRssi (n rssi : Z) | RecordFailure (n : Z) | Age (elapsed_ms : Z) | ShouldSwitchParent.

Definition step (self : t) (o : op) : outcome t :=
  match o with
  | Start => Ok (start self).1
  | Stop => Ok (stop self).1
  | SetTime time_ms => Ok (set_time_ms self time_ms)
  | Beacon beacon rssi => Ok (process_beacon self beacon rssi)
  | ConnectParent n level rssi => Ok (connect_parent self n level rssi).1
  | DisconnectParent reason => Ok (disconnect_parent self reason).1
  | AcceptChild n level => Ok (accept_child self n level).1
  | RemoveChild n reason => Ok (remove_child self n reason).1
  | StartFailover => Ok (start_failover self).1
  | CompleteFailover new_parent => Ok (complete_failover self new_parent).1
  | UpdateRssi n rssi => Ok (update_rssi self n rssi)
  | RecordFailure n => Ok (record_failure self n)
  | Age elapsed_ms => age_candidates self elapsed_ms
  | ShouldSwitchParent => let! _ := should_switch_parent self in Ok self
  end.
Fixpoint run (self : t) (ops : list op) : outcome t :=
  match ops with
  | [] => Ok self
  | o :: ops => let! self := step self o in run self ops
  end.

End MeshManager.

Module MeshManagerProperties.
Import MeshManager.

(** What a listener makes of an event: the parent and the children it knows,
    or nothing any more when an event contradicts them. *)
Definition view : Type := option Z * list Z.
Definition hear (v : option view) (event : TopologyEvent.t) : option view :=
  match v with
  | None => None
  | Some (parent, children) =>
      match event with
      | TopologyEvent.ParentConnected n _ _ =>
          if bool_decide (parent = None) then Some (Some n, children) else None
      | TopologyEvent.ParentDisconnected n _ =>
          if bool_decide (parent = Some n) then Some (None, children) else None
      | TopologyEvent.ChildConnected n _ =>
          if bool_decide (n ∈ children) then None else Some (parent, children ++ [n])
      | TopologyEvent.ChildDisconnected n _ =>
          if bool_decide (n ∈ children)
          then Some (parent, MeshTopology.remove_first children n) else None
      | TopologyEvent.TopologyChanged child_count peer_count has_parent =>
          if bool_decide (child_count = zlen children ∧ peer_count = 0
                          ∧ has_parent = bool_decide (is_Some parent))
          then v else None
      | _ => v
      end
  end.
Definition heard (m : MeshManager.t) : option view := foldl hear (Some (None, [])) (events m).
(** The listener knows what the node is connected to. *)
Definition told (m : MeshManager.t) : Prop :=
  heard m = Some (MeshTopology.parent (topology m), MeshTopology.children (topology m)).

(** The invariant of the manager. *)
Definition settled (s : ManagerState.t) : bool :=
  match s with
  | ManagerState.Stopped | ManagerState.Running | ManagerState.Failover => true
  | _ => false
  end.
Definition connected_in (topology : MeshTopology.t) (peers : gmap Z PeerInfo.t) : Prop :=
  ∀ n info, peers !! n = Some info →
    n ∈ MeshTopology.all_connected topology ∧ PeerInfo.node_id info = n
    ∧ PeerInfo.state info = MeshConnectionState.Connected.
Definition above (my_level : HierarchyLevel.t) (l : list ParentCandidate.t) : Prop :=
  NoDup (map ParentCandidate.node_id l)
  ∧ Forall (λ c, level_gt (ParentCandidate.level c) my_level = true) l.
Definition limited (m : MeshManager.t) (t : MeshTopology.t) : Prop :=
  RouterProperties.within t ∧ MeshTopology.peers t = []
  ∧ MeshTopology.max_children t = TopologyConfig.max_children (config m)
  ∧ MeshTopology.max_connections t = TopologyConfig.max_connections (config m).
Definition inv (m : MeshManager.t) : Prop :=
  limited m (topology m) ∧ connected_in (topology m) (peers m)
  ∧ above (my_level m) (candidates m) ∧ settled (state m) = true.

(** The signals of links that a call reports, and those that are kept, leave
    room for the hysteresis in an [i8]. *)
Definition roomy (config : TopologyConfig.t) (rssi : Z) : Prop :=
  -128 ≤ rssi + to_i8 (TopologyConfig.rssi_hysteresis config) ≤ 127.
Definition signal (o : op) : option Z :=
  match o with
  | ConnectParent _ _ rssi | UpdateRssi _ rssi | CompleteFailover (Some (_, _, rssi)) => Some rssi
  | _ => None
  end.
Definition signal_ok (config : TopologyConfig.t) (o : op) : Prop :=
  ∀ rssi, signal o = Some rssi → roomy config rssi.
Definition signals_kept (m : MeshManager.t) : Prop :=
  map_Forall (λ _ info, ∀ rssi, PeerInfo.rssi info = Some rssi → roomy (config m) rssi) (peers m).

(** *** The topology *)

Lemma clear_parent_limited m t :
  limited m t → limited m (MeshTopology.clear_parent t).1.
Proof.
  intros ((Hc & Hn & Hd & Hp) & ?). split; [|done]. unfold RouterProperties.within.
  split_and!; try done.
  unfold MeshTopology.connection_count in *. simpl. destruct (MeshTopology.parent t); lia.
Qed.
Lemma set_parent_spec m t n t' ok :
  limited m t → MeshTopology.set_parent t n = (t', ok) →
  limited m t' ∧
  if ok : bool then MeshTopology.parent t = None
         ∧ t' = MeshTopology.set t (Some n) (MeshTopology.children t) (MeshTopology.peers t)
  else t' = t.
Proof.
  intros Hl. unfold MeshTopology.set_parent, MeshTopology.has_parent.
  case_bool_decide as Hp; [intros [= <- <-]; done|].
  unfold MeshTopology.can_accept_connection.
  destruct (Z.ltb_spec (MeshTopology.connection_count t) (MeshTopology.max_connections t));
    intros [= <- <-]; [|done].
  apply eq_None_not_Some in Hp. destruct Hl as ((? & ? & ? & ?) & ?).
  split; [split; [unfold RouterProperties.within; split_and!|done]
    | by rewrite ?RouterProperties.remove_first_spec]; try done.
  unfold MeshTopology.connection_count in *. rewrite Hp in *. simpl. lia.
Qed.
Lemma add_child_spec m t n t' ok :
  limited m t → MeshTopology.add_child t n = (t', ok) →
  limited m t' ∧
  if ok : bool then (n ∉ MeshTopology.children t)
         ∧ t' = MeshTopology.set t (MeshTopology.parent t) (MeshTopology.children t ++ [n])
                  (MeshTopology.peers t)
  else t' = t.
Proof.
  intros Hl. unfold MeshTopology.add_child, MeshTopology.can_accept_child,
    MeshTopology.can_accept_connection, MeshTopology.contains.
  destruct (Z.ltb_spec (zlen (MeshTopology.children t)) (MeshTopology.max_children t));
    [|intros [= <- <-]; done].
  destruct (Z.ltb_spec (MeshTopology.connection_count t) (MeshTopology.max_connections t));
    [|intros [= <- <-]; done].
  cbn [negb andb]. case_bool_decide as Hin; intros [= <- <-]; [done|].
  destruct Hl as ((? & ? & ? & ?) & ?). split; [split; [unfold RouterProperties.within; split_and!|done]
    | by rewrite ?RouterProperties.remove_first_spec]; try done;
    unfold MeshTopology.connection_count in *; simpl; rewrite ?length_app; simpl; try lia.
  apply NoDup_app. split; [done|]. split; [set_solver | apply NoDup_singleton].
Qed.
Lemma remove_child_spec m t n t' ok :
  limited m t → MeshTopology.remove_child t n = (t', ok) →
  limited m t' ∧
  if ok : bool then (n ∈ MeshTopology.children t)
         ∧ t' = MeshTopology.set t (MeshTopology.parent t)
                  (MeshRouter.except n (MeshTopology.children t)) (MeshTopology.peers t)
  else t' = t.
Proof.
  intros Hl. unfold MeshTopology.remove_child, MeshTopology.contains.
  destruct Hl as ((Hc & Hn & Hd & Hp) & Hrest).
  case_bool_decide as Hin; intros [= <- <-]; [|done].
  pose proof (RouterProperties.remove_first_sublist (MeshTopology.children t) n) as Hsub.
  pose proof (sublist_length _ _ Hsub) as Hlen.
  split; [split; [unfold RouterProperties.within; split_and!|done]
    | by rewrite ?RouterProperties.remove_first_spec]; try done; simpl; try lia.
  { unfold MeshTopology.connection_count in *. simpl. lia. }
  exact (sublist_NoDup _ _ Hd Hsub).
Qed.

(** *** The tables *)

Lemma connected_insert t t' peers n role level rssi now :
  connected_in t peers →
  (∀ x, x ∈ MeshTopology.all_connected t → x ∈ MeshTopology.all_connected t') →
  n ∈ MeshTopology.all_connected t' →
  connected_in t' (<[n := PeerInfo.connected (PeerInfo.new n role level) rssi now]> peers).
Proof.
  intros Hc Hsub Hn x info. rewrite lookup_insert_Some. intros [[<- <-]|[_ Hx]]; [done|].
  destruct (Hc _ _ Hx) as (? & ? & ?). auto.
Qed.
Lemma connected_delete t t' peers n :
  connected_in t peers →
  (∀ x, x ≠ n → x ∈ MeshTopology.all_connected t → x ∈ MeshTopology.all_connected t') →
  connected_in t' (delete n peers).
Proof.
  intros Hc Hsub x info [Hne Hx]%lookup_delete_Some.
  destruct (Hc _ _ Hx) as (? & ? & ?). split; [by apply Hsub | done].
Qed.
Lemma connected_update t peers n (f : PeerInfo.t → PeerInfo.t) info :
  connected_in t peers → peers !! n = Some info →
  (∀ i, PeerInfo.node_id (f i) = PeerInfo.node_id i ∧ PeerInfo.state (f i) = PeerInfo.state i) →
  connected_in t (<[n := f info]> peers).
Proof.
  intros Hc Hn Hf x i. rewrite lookup_insert_Some. intros [[<- <-]|[_ Hx]]; [|by apply Hc].
  destruct (Hf info) as [-> ->]. by apply Hc.
Qed.

Lemma update_first_ids n f l :
  (∀ c, ParentCandidate.node_id (f c) = ParentCandidate.node_id c) →
  map ParentCandidate.node_id (update_first n f l) = map ParentCandidate.node_id l.
Proof.
  intros Hf. induction l as [|c l IH]; [done|]. simpl.
  destruct (_ =? _); simpl; by rewrite ?Hf, ?IH.
Qed.
Lemma update_first_above level n f l :
  (∀ c, ParentCandidate.node_id (f c) = ParentCandidate.node_id c
        ∧ (level_gt (ParentCandidate.level c) level = true →
           level_gt (ParentCandidate.level (f c)) level = true)) →
  above level l → above level (update_first n f l).
Proof.
  intros Hf [Hd Hl]. split; [rewrite update_first_ids; [done | apply Hf]|].
  clear Hd. induction Hl as [|c l Hc Hl IH]; [constructor|]. simpl.
  destruct (_ =? _); constructor; try done. by apply Hf.
Qed.
Lemma filter_above level (p : ParentCandidate.t → bool) l :
  above level l → above level (List.filter p l).
Proof.
  intros [Hd Hl]. split.
  - clear Hl. induction l as [|c l IH]; [done|]. apply NoDup_cons in Hd as [Hc Hd]. simpl.
    destruct (p c); [|by apply IH]. simpl. apply NoDup_cons. split; [|by apply IH].
    rewrite list_elem_of_In, in_map_iff. intros (c' & He & [Hin _]%filter_In). apply Hc.
    apply list_elem_of_In, in_map_iff. by exists c'.
  - rewrite Forall_forall in *. intros c Hc. apply Hl.
    apply list_elem_of_In, filter_In in Hc as [Hc _]. by apply list_elem_of_In.
Qed.

(** *** The operations keep the invariant *)

Lemma connect_parent_inv m n level rssi : inv m → inv (connect_parent m n level rssi).1.
Proof.
  intros (Hl & Hc & Ha & Hs). unfold connect_parent.
  destruct (MeshTopology.has_parent (topology m)); [done|].
  destruct (MeshTopology.set_parent (topology m) n) as [t' ok] eqn:Ht.
  pose proof (set_parent_spec _ _ _ _ _ Hl Ht) as [Hl' Hspec]. destruct ok; simpl.
  - destruct Hspec as [Hnone Heq]. split; [done|]. split; [|done]. simpl.
    eapply connected_insert; [exact Hc | |]; rewrite Heq;
      unfold MeshTopology.all_connected; rewrite ?Hnone; set_solver.
  - by subst t'.
Qed.
Lemma accept_child_inv m n level : inv m → inv (accept_child m n level).1.
Proof.
  intros (Hl & Hc & Ha & Hs). unfold accept_child.
  destruct (MeshTopology.add_child (topology m) n) as [t' ok] eqn:Ht.
  pose proof (add_child_spec _ _ _ _ _ Hl Ht) as [Hl' Hspec]. destruct ok; simpl.
  - destruct Hspec as [_ Heq]. split; [done|]. split; [|done]. simpl.
    eapply connected_insert; [exact Hc | |]; rewrite Heq;
      unfold MeshTopology.all_connected; set_solver.
  - by subst t'.
Qed.
Lemma disconnect_parent_inv m reason : inv m → inv (disconnect_parent m reason).1.
Proof.
  intros (Hl & Hc & Ha & Hs). unfold disconnect_parent. simpl.
  apply clear_parent_limited in Hl.
  destruct (MeshTopology.parent (topology m)) as [p|] eqn:Hp.
  - split; [done|]. split; [|done]. simpl. eapply connected_delete; [exact Hc|].
    unfold MeshTopology.all_connected. rewrite Hp. simpl. set_solver.
  - split; [done|]. split; [|done]. intros n info Hn. destruct (Hc _ _ Hn) as [Hin ?].
    split; [|done]. unfold MeshTopology.all_connected in *. rewrite Hp in Hin. done.
Qed.
Lemma remove_child_inv m n reason : inv m → inv (remove_child m n reason).1.
Proof.
  intros (Hl & Hc & Ha & Hs). unfold remove_child.
  destruct (MeshTopology.remove_child (topology m) n) as [t' ok] eqn:Ht.
  pose proof (remove_child_spec _ _ _ _ _ Hl Ht) as [Hl' Hspec]. destruct ok; simpl.
  - destruct Hspec as [_ Heq]. split; [done|]. split; [|done]. simpl.
    eapply connected_delete; [exact Hc|]. rewrite Heq. unfold MeshTopology.all_connected. simpl.
    intros x Hx. unfold MeshRouter.except. rewrite !elem_of_app, list_elem_of_filter. tauto.
  - by subst t'.
Qed.
Lemma process_beacon_inv m beacon rssi : inv m → inv (process_beacon m beacon rssi).
Proof.
  intros (Hl & Hc & Ha & Hs). unfold process_beacon. destruct (level_gt _ _) eqn:Hlevel; [|done].
  split; [done|]. split; [done|]. split; [|done]. simpl. unfold is_candidate.
  case_bool_decide as Hin; [by apply update_first_above|]. destruct Ha as [Hd Hf].
  split; [|by apply Forall_app; split; [|repeat constructor]].
  rewrite map_app. apply NoDup_app. split; [done|]. split; [|apply NoDup_singleton].
  intros x Hx ->%list_elem_of_singleton. done.
Qed.
Lemma record_failure_inv m n : inv m → inv (record_failure m n).
Proof.
  intros (Hl & Hc & Ha & Hs). unfold record_failure. split; [|split; [|split]].
  - by destruct (peers m !! n).
  - simpl. destruct (peers m !! n) eqn:Hn; [|done]. by apply connected_update.
  - simpl. destruct (peers m !! n); by apply update_first_above.
  - by destruct (peers m !! n).
Qed.
Lemma update_rssi_inv m n rssi : inv m → inv (update_rssi m n rssi).
Proof.
  intros (Hl & Hc & Ha & Hs). unfold update_rssi. destruct (peers m !! n) as [info|] eqn:Hn; [|done].
  split; [done|]. split; [|done]. simpl.
  by apply (connected_update _ _ _ (λ i, PeerInfo.seen (PeerInfo.update_rssi i rssi) (time_ms m))).
Qed.
Lemma complete_failover_inv m new_parent : inv m → inv (complete_failover m new_parent).1.
Proof.
  intros Hm. unfold complete_failover. destruct new_parent as [[[n level] rssi]|].
  - pose proof (connect_parent_inv m n level rssi Hm) as H.
    destruct (connect_parent m n level rssi) as [m' [error|]]; [exact H|].
    destruct H as (? & ? & ? & ?). by split_and!.
  - destruct Hm as (? & ? & ? & ?). by split_and!.
Qed.
Lemma start_failover_inv m : inv m → inv (start_failover m).1.
Proof.
  intros Hm. unfold start_failover. case_bool_decide; [|done]. cbn [negb].
  pose proof (disconnect_parent_inv m LinkReason.LinkLoss Hm) as H'.
  destruct (disconnect_parent m LinkReason.LinkLoss) as [m' [p|]]; [|exact H'].
  destruct H' as (? & ? & ? & ?). by split_and!.
Qed.
Lemma stop_inv m : inv m → inv (stop m).1.
Proof.
  intros (((Hc & Hn & Hd & Hp) & ? & ? & ?) & _ & _ & _). split; [|split; [|split; [|done]]].
  - split; [|done]. unfold RouterProperties.within, MeshTopology.connection_count in *. simpl.
    split_and!; [lia | destruct (MeshTopology.parent (topology m)); lia | by constructor..].
  - intros n info. simpl. by rewrite lookup_empty.
  - split; constructor.
Qed.
Lemma age_candidates_inv m elapsed :
  TopologyConfig.max_beacon_age_ms (config m) < 2 ^ 63 → inv m →
  ∃ m', age_candidates m elapsed = Ok m' ∧ inv m' ∧ config m' = config m
    ∧ topology m' = topology m ∧ events m' = events m.
Proof.
  intros Hb (Hl & Hc & Ha & Hs). unfold age_candidates.
  set (aged := map _ _).
  assert (Haged : above (my_level m) aged).
  { destruct Ha as [Hd Hf]. split.
    - unfold aged. by rewrite map_map.
    - by apply Forall_map. }
  destruct aged as [|c aged]; [exists m; by split_and!|].
  unfold mul_u. destruct (Z.ltb_spec (TopologyConfig.max_beacon_age_ms (config m) * 2) (2 ^ 64));
    [|lia].
  eexists. split; [reflexivity|]. split; [|done]. split; [done|]. split; [done|].
  split; [|done]. by apply filter_above.
Qed.

(** *** What a listener knows *)

Lemma heard_emit m event : heard (emit_event m event) = hear (heard m) event.
Proof. unfold heard. simpl. by rewrite foldl_app. Qed.
Lemma heard_changed m p ch :
  heard m = Some (p, ch) → MeshTopology.peers (topology m) = [] →
  MeshTopology.parent (topology m) = p → MeshTopology.children (topology m) = ch →
  told (emit_topology_changed m).
Proof.
  intros Hh Hpe <- <-. unfold told, emit_topology_changed. rewrite heard_emit, Hh. cbn [hear].
  rewrite bool_decide_eq_true_2; [done|]. by rewrite Hpe.
Qed.

Lemma connect_parent_told m n level rssi :
  inv m → told m → told (connect_parent m n level rssi).1.
Proof.
  intros (Hl & _) Ht. unfold connect_parent.
  destruct (MeshTopology.has_parent (topology m)); [done|].
  destruct (MeshTopology.set_parent (topology m) n) as [t' ok] eqn:Hset.
  pose proof (set_parent_spec _ _ _ _ _ Hl Hset) as [Hl' Hspec]. destruct ok; simpl.
  - destruct Hspec as [Hnone ->]. eapply heard_changed; [|apply Hl|done|done].
    rewrite heard_emit. unfold heard. simpl. unfold told, heard in Ht. rewrite Ht, Hnone. done.
  - by subst t'.
Qed.
Lemma disconnect_parent_told m reason : inv m → told m → told (disconnect_parent m reason).1.
Proof.
  intros (Hl & _) Ht. unfold disconnect_parent. simpl. unfold told, heard in Ht.
  destruct (MeshTopology.parent (topology m)) as [p|] eqn:Hp.
  - eapply heard_changed; [|apply Hl|done|done]. rewrite heard_emit. unfold heard. simpl.
    rewrite Ht. simpl. by rewrite bool_decide_eq_true_2.
  - unfold told, heard. simpl. by rewrite Ht.
Qed.
Lemma accept_child_told m n level : inv m → told m → told (accept_child m n level).1.
Proof.
  intros (Hl & _) Ht. unfold accept_child.
  destruct (MeshTopology.add_child (topology m) n) as [t' ok] eqn:Hadd.
  pose proof (add_child_spec _ _ _ _ _ Hl Hadd) as [Hl' Hspec]. destruct ok; simpl.
  - destruct Hspec as [Hnin ->]. eapply heard_changed; [|apply Hl|done|done].
    rewrite heard_emit. unfold heard. simpl. unfold told, heard in Ht. rewrite Ht. simpl.
    by rewrite bool_decide_eq_false_2.
  - by subst t'.
Qed.
Lemma remove_child_told m n reason : inv m → told m → told (remove_child m n reason).1.
Proof.
  intros (Hl & _) Ht. unfold remove_child.
  destruct (MeshTopology.remove_child (topology m) n) as [t' ok] eqn:Hrem.
  pose proof (remove_child_spec _ _ _ _ _ Hl Hrem) as [Hl' Hspec]. destruct ok; simpl.
  - destruct Hspec as [Hin ->]. eapply heard_changed; [|apply Hl|done|done].
    rewrite heard_emit. unfold heard. simpl. unfold told, heard in Ht. rewrite Ht. simpl.
    rewrite bool_decide_eq_true_2 by done.
    rewrite RouterProperties.remove_first_spec by apply Hl. done.
  - by subst t'.
Qed.

(** *** Runs *)

Lemma complete_failover_told m new_parent :
  inv m → told m → told (complete_failover m new_parent).1.
Proof.
  intros Hm Ht. unfold complete_failover. destruct new_parent as [[[n level] rssi]|].
  - pose proof (connect_parent_told m n level rssi Hm Ht) as H.
    destruct (connect_parent m n level rssi) as [m' [error|]]; [exact H|].
    unfold told in *. cbn [fst]. by rewrite heard_emit, (H : heard (set_state m' _) = _).
  - unfold told in *. cbn [fst]. by rewrite heard_emit, (Ht : heard (set_state m _) = _).
Qed.
Lemma start_failover_told m : inv m → told m → told (start_failover m).1.
Proof.
  intros Hm Ht. unfold start_failover. case_bool_decide; [|done]. cbn [negb].
  pose proof (disconnect_parent_told m LinkReason.LinkLoss Hm Ht) as H'.
  destruct (disconnect_parent m LinkReason.LinkLoss) as [m' [p|]]; [|exact H'].
  unfold told in *. cbn [fst]. by rewrite heard_emit, (H' : heard (set_state m' _) = _).
Qed.

Lemma config_kept m o m' : step m o = Ok m' → config m' = config m ∧ my_level m' = my_level m.
Proof.
  destruct o; simpl;
    try (intros [= <-]; unfold start, stop, connect_parent, disconnect_parent, accept_child,
      remove_child, start_failover, complete_failover, update_rssi, record_failure, process_beacon;
      unfold disconnect_parent, connect_parent; simpl; repeat (case_match; simplify_eq/=); done).
  - unfold age_candidates. destruct (map _ _); [by intros [= <-]|].
    destruct (mul_u _ _ _); intros [= <-]; done.
  - by destruct (should_switch_parent m); intros [= <-].
Qed.

Lemma disconnect_signals m reason : signals_kept m → signals_kept (disconnect_parent m reason).1.
Proof.
  intros Hk. unfold disconnect_parent. cbn. destruct (MeshTopology.parent (topology m)); [|exact Hk].
  by apply map_Forall_delete.
Qed.
Lemma connect_signals m n level rssi : signals_kept m → roomy (config m) rssi →
  signals_kept (connect_parent m n level rssi).1.
Proof.
  intros Hk Hr. unfold connect_parent. destruct (MeshTopology.has_parent _); [exact Hk|].
  destruct (MeshTopology.set_parent _ _) as [t []]; [|exact Hk].
  apply map_Forall_insert_2; [|exact Hk]. by intros ? [= <-].
Qed.
Lemma step_signals m o m' : signals_kept m → signal_ok (config m) o → step m o = Ok m' →
  signals_kept m'.
Proof.
  intros Hk Ho. destruct o as [| | | | | | | | |[[[n l] r]|]| | | |]; cbn [step];
    try intros [= <-]; try exact Hk.
  - unfold start. by destruct (state m).
  - apply map_Forall_empty.
  - unfold process_beacon. by destruct (level_gt _ _).
  - by apply connect_signals, Ho.
  - by apply disconnect_signals.
  - unfold accept_child. destruct (MeshTopology.add_child _ _) as [t []]; [|exact Hk].
    by apply map_Forall_insert_2.
  - unfold remove_child. destruct (MeshTopology.remove_child _ _) as [t []]; [|exact Hk].
    by apply map_Forall_delete.
  - unfold start_failover. case_match; [exact Hk|].
    pose proof (disconnect_signals m LinkReason.LinkLoss Hk) as H'.
    by destruct (disconnect_parent m LinkReason.LinkLoss) as [m' [p|]].
  - unfold complete_failover. pose proof (connect_signals m n l r Hk (Ho r eq_refl)) as H'.
    by destruct (connect_parent m n l r) as [m' []].
  - unfold update_rssi. destruct (peers m !! n) as [info|]; [|exact Hk].
    apply map_Forall_insert_2; [|exact Hk]. intros r [= <-]. by apply Ho.
  - unfold record_failure. destruct (peers m !! n) as [info|] eqn:Hn; [|exact Hk].
    apply map_Forall_insert_2; [|exact Hk]. exact (Hk n info Hn).
  - unfold age_candidates. destruct (map _ _); [by intros [= <-]|].
    destruct (mul_u _ _ _); cbn; [by intros [= <-]|done..].
  - destruct (should_switch_parent m); cbn; [by intros [= <-]|done..].
Qed.
Lemma switch_returns m : signals_kept m → ∃ best, should_switch_parent m = Ok best.
Proof.
  intros Hk. unfold should_switch_parent. destruct (MeshTopology.parent _) as [p|]; [|by eexists].
  destruct (peers m !! p) as [info|] eqn:Hp; cbn; [|by eexists].
  destruct (PeerInfo.rssi info) as [rssi|] eqn:Hr; [|by eexists].
  destruct (select_best_parent m); [|by eexists]. pose proof (Hk p info Hp rssi Hr) as [? ?].
  unfold add_i8. rewrite (proj2 (Z.leb_le _ _)), (proj2 (Z.leb_le _ _)) by done. by eexists.
Qed.

Lemma manager_step_inv m o :
  TopologyConfig.max_beacon_age_ms (config m) < 2 ^ 63 → inv m →
  (o = ShouldSwitchParent → signals_kept m) →
  ∃ m', step m o = Ok m' ∧ inv m' ∧ (o ≠ Stop → told m → told m').
Proof.
  intros Hb Hm Hsig.
  destruct o; simpl; try (eexists; split; [reflexivity|]).
  - split; [|intros _ Ht; unfold start; destruct (state m); exact Ht]. unfold start.
    destruct (state m); [|exact Hm..]. destruct Hm as (? & ? & ? & ?). by split_and!.
  - split; [by apply stop_inv | done].
  - done.
  - split; [by apply process_beacon_inv|]. intros _ Ht.
    unfold process_beacon. destruct (level_gt _ _); exact Ht.
  - split; [by apply connect_parent_inv | intros _; by apply connect_parent_told].
  - split; [by apply disconnect_parent_inv | intros _; by apply disconnect_parent_told].
  - split; [by apply accept_child_inv | intros _; by apply accept_child_told].
  - split; [by apply remove_child_inv | intros _; by apply remove_child_told].
  - split; [by apply start_failover_inv | intros _; by apply start_failover_told].
  - split; [by apply complete_failover_inv | intros _; by apply complete_failover_told].
  - split; [by apply update_rssi_inv|]. intros _ Ht. unfold told, update_rssi in *.
    rewrite heard_emit. destruct (peers m !! n); [|by rewrite Ht].
    unfold heard in *. simpl. by rewrite Ht.
  - split; [by apply record_failure_inv|]. intros _ Ht. unfold record_failure.
    destruct (peers m !! n); exact Ht.
  - destruct (age_candidates_inv m elapsed_ms Hb Hm) as (m' & He & Hi & _ & Htop & Hev).
    exists m'. split; [done|]. split; [done|]. intros _ Ht. unfold told, heard. by rewrite Hev, Htop.
  - destruct (switch_returns m (Hsig eq_refl)) as [best ->]. by exists m.
Qed.

Lemma manager_run_inv ops :
  ∀ m, TopologyConfig.max_beacon_age_ms (config m) < 2 ^ 63 → inv m →
  (ShouldSwitchParent ∈ ops → signals_kept m ∧ Forall (signal_ok (config m)) ops) →
  ∃ m', run m ops = Ok m' ∧ inv m' ∧ (Stop ∉ ops → told m → told m').
Proof.
  induction ops as [|o ops IH]; intros m Hb Hm Hsig; [by exists m|].
  destruct (manager_step_inv m o Hb Hm) as (m' & Hstep & Hm' & Ht').
  { intros ->. by apply Hsig, list_elem_of_here. }
  destruct (config_kept _ _ _ Hstep) as [Hcfg _].
  destruct (IH m') as (m2 & Hrun & Hm2 & Ht2); [by rewrite Hcfg | done | |].
  { intros Hin. destruct (Hsig ltac:(by right)) as [Hk [Ho Hos]%Forall_cons].
    rewrite Hcfg. split; [by eapply step_signals|done]. }
  exists m2. cbn [run]. rewrite Hstep. split; [done|]. split; [done|].
  intros [? ?]%not_elem_of_cons Ht. auto.
Qed.

Lemma manager_new_inv node_id my_level config :
  0 ≤ TopologyConfig.max_children config → 0 ≤ TopologyConfig.max_connections config →
  inv (new node_id my_level config).
Proof.
  intros Hch Hco. split; [|split; [|split; [by split; constructor | done]]].
  - split; [|done]. split; [done|]. split; [done|]. split; constructor.
  - intros n i. simpl. by rewrite lookup_empty.
Qed.

(** C28: Whatever a manager is asked to do, in any order, it does without a
    panic as long as twice the configured age of a beacon is an [u64] and, if
    it is asked whether to switch its parent, the signals reported of links
    leave room for the hysteresis in an [i8]; and it stays well formed: not
    more children and connections than configured, no child twice, information
    only on nodes it is connected to, only candidates of a higher level, each
    once. Until it is stopped, a listener that follows its events knows the
    parent and the children it has, and no event ever contradicts another. *)
Theorem mesh_manager_invariant node_id my_level config ops :
  TopologyConfig.max_beacon_age_ms config < 2 ^ 63 →
  0 ≤ TopologyConfig.max_children config → 0 ≤ TopologyConfig.max_connections config →
  (ShouldSwitchParent ∈ ops → Forall (signal_ok config) ops) →
  ∃ m, run (new node_id my_level config) ops = Ok m ∧ inv m ∧ (Stop ∉ ops → told m).
Proof.
  intros Hb Hch Hco Hsig.
  destruct (manager_run_inv ops (new node_id my_level config) Hb) as (m & Hrun & Hm & Ht);
    [by apply manager_new_inv|intros Hin; split; [apply map_Forall_empty|by apply Hsig]|]. exists m. split; [done|].
  split; [done|]. intros Hs. by apply Ht.
Qed.

Definition demo_ops : list op :=
  [Start; ConnectParent 20 HierarchyLevel.Squad (-60); AcceptChild 30 HierarchyLevel.Platform;
   Beacon (PeatBeacon.mk 1 0 40 HierarchyLevel.Squad 0 100 1) (-50); AcceptChild 30 HierarchyLevel.Platform;
   Age 500; StartFailover; CompleteFailover (Some (40, HierarchyLevel.Squad, -50)); UpdateRssi 40 (-70);
   ShouldSwitchParent].
Lemma mesh_manager_invariant_witness :
  ∃ m, run (new 10 HierarchyLevel.Platform TopologyConfig.default_config) demo_ops = Ok m
    ∧ inv m ∧ told m ∧ MeshTopology.parent (topology m) = Some 40.
Proof.
  destruct (mesh_manager_invariant 10 HierarchyLevel.Platform TopologyConfig.default_config demo_ops)
    as (m & Hrun & Hm & Ht); [reflexivity | discriminate | discriminate | |].
  { intros _. unfold demo_ops.
    repeat (apply Forall_cons; split; [intros rssi [= <-]; by vm_compute|]). constructor. }
  exists m. split; [exact Hrun|]. split; [exact Hm|]. split.
  - apply Ht. intros H. repeat (apply elem_of_cons in H as [H|H]; [discriminate|]).
    by apply elem_of_nil in H.
  - vm_compute in Hrun. injection Hrun as <-. reflexivity.
Defined.

(** A node that is parent and child at once loses its information with the
    first of the two links. *)
Example double_role_loses_information :
  ∃ m, run (new 10 HierarchyLevel.Squad TopologyConfig.default_config)
         [Start; ConnectParent 20 HierarchyLevel.Platoon (-60);
          AcceptChild 20 HierarchyLevel.Platoon;
          RemoveChild 20 LinkReason.Requested] = Ok m
    ∧ MeshTopology.parent (topology m) = Some 20 ∧ peers m !! 20 = None.
Proof. eexists. split; [vm_compute; reflexivity|]. split; reflexivity. Qed.
(** [stop] tells the listeners nothing. *)
Example stop_is_not_told :
  ∃ m, run (new 10 HierarchyLevel.Platform TopologyConfig.default_config)
         [Start; ConnectParent 20 HierarchyLevel.Squad (-60); Stop] = Ok m
    ∧ heard m = Some (Some 20, []) ∧ MeshTopology.parent (topology m) = None.
Proof. eexists. split; [vm_compute; reflexivity|]. split; reflexivity. Qed.
(** The failures of a node are forgotten when it is no longer connected. *)
Example failures_are_forgotten :
  ∃ m, run (new 10 HierarchyLevel.Platform TopologyConfig.default_config)
         [Start; ConnectParent 20 HierarchyLevel.Squad (-60);
          RecordFailure 20; RecordFailure 20; RecordFailure 20; StartFailover;
          Beacon (PeatBeacon.mk 1 0 20 HierarchyLevel.Squad 0 100 1) (-50)] = Ok m
    ∧ ParentCandidate.node_id <$> select_best_parent m = Some 20.
Proof. eexists. split; [vm_compute; reflexivity|]. reflexivity. Qed.
(** A failover whose new parent cannot be connected stays in its state. *)
Example failed_failover_stays :
  ∃ m, run (new 10 HierarchyLevel.Platform TopologyConfig.default_config)
         [Start; ConnectParent 20 HierarchyLevel.Squad (-60); StartFailover;
          ConnectParent 30 HierarchyLevel.Squad (-60);
          CompleteFailover (Some (40, HierarchyLevel.Squad, -50)); StartFailover] = Ok m
    ∧ state m = ManagerState.Failover ∧ MeshTopology.parent (topology m) = Some 30.
Proof. eexists. split; [vm_compute; reflexivity|]. split; reflexivity. Qed.
(** A weak parent of a node with a wide hysteresis: the sum leaves [i8]. *)
Example hysteresis_overflows :
  ∃ m, run (new 10 HierarchyLevel.Platform
              (TopologyConfig.mk 3 7 (-85) 10000 5000 10000 3 1000 200))
         [Start; ConnectParent 20 HierarchyLevel.Squad (-90);
          Beacon (PeatBeacon.mk 1 0 40 HierarchyLevel.Squad 0 100 1) (-50)] = Ok m
    ∧ should_switch_parent m = Panic.
Proof. eexists. split; [vm_compute; reflexivity|]. vm_compute. reflexivity. Qed.

(** *** Failover *)

Lemma select_best_spec m :
  match select_best_parent m with
  | None => ∀ c, c ∈ candidates m → eligible m c = false
  | Some best =>
      best ∈ candidates m ∧ eligible m best = true
      ∧ ∀ c, c ∈ candidates m → eligible m c = true → score_of m c ≤ score_of m best
  end.
Proof.
  unfold select_best_parent.
  pose proof (max_by_spec (λ a b, score_of m a <=? score_of m b)
    (List.filter (eligible m) (candidates m))) as H.
  destruct (max_by _ _) as [best|]; cbn beta iota in H.
  - destruct H as [Hin Hmax]; [intros; lia | intros; lia |].
    apply list_elem_of_In, filter_In in Hin as [Hin He]. rewrite <-list_elem_of_In in Hin.
    split; [done|]. split; [done|]. intros c Hc Hec. apply Z.leb_le, Hmax.
    apply list_elem_of_In, filter_In. by rewrite <-list_elem_of_In.
  - intros c Hc. destruct (eligible m c) eqn:He; [|done].
    assert (Hin : c ∈ List.filter (eligible m) (candidates m))
      by (apply list_elem_of_In, filter_In; by rewrite <-list_elem_of_In).
    rewrite H in Hin; [by apply elem_of_nil in Hin | intros; lia | intros; lia].
Qed.

(** C29: When the parent is lost, a running manager that fails over to the best
    candidate is connected again: it is running, its parent is the candidate
    that is fresh, strong and reliable enough and has the best score of all
    that are (the lost parent not excluded), its children are still there,
    and the listeners have been told of the loss, of the failover and of the
    new parent, in this order. Without a candidate it runs on without a
    parent. As the old parent the last event names the first candidate. *)
Theorem failover_reconnects m p :
  inv m → state m = ManagerState.Running → MeshTopology.parent (topology m) = Some p →
  let target := select_best_parent m in
  let '(m1, started) := start_failover m in
  let '(m2, completed) := complete_failover m1
    ((λ c, (ParentCandidate.node_id c, ParentCandidate.level c, ParentCandidate.rssi c))
       <$> target) in
  let children := MeshTopology.children (topology m) in
  let changed := TopologyEvent.TopologyChanged (zlen children) 0 in
  started = None ∧ completed = None
  ∧ state m2 = ManagerState.Running
  ∧ MeshTopology.parent (topology m2) = ParentCandidate.node_id <$> target
  ∧ MeshTopology.children (topology m2) = children
  ∧ events m2 = events m
      ++ [TopologyEvent.ParentDisconnected p LinkReason.LinkLoss; changed false;
          TopologyEvent.ParentFailoverStarted p]
      ++ (match target with
          | Some c => [TopologyEvent.ParentConnected (ParentCandidate.node_id c)
                         (ParentCandidate.level c) (Some (ParentCandidate.rssi c)); changed true]
          | None => []
          end)
      ++ [TopologyEvent.ParentFailoverCompleted
            (default 0 (ParentCandidate.node_id <$> head (candidates m)))
            (ParentCandidate.node_id <$> target)]
  ∧ match target with
    | Some best => best ∈ candidates m ∧ eligible m best = true
        ∧ ∀ c, c ∈ candidates m → eligible m c = true → score_of m c ≤ score_of m best
    | None => ∀ c, c ∈ candidates m → eligible m c = false
    end.
Proof.
  intros (((Hch & Hco & _ & _) & Hpe & _ & _) & _) Hs Hp.
  pose proof (select_best_spec m) as Hbest. cbv zeta.
  unfold start_failover, disconnect_parent. simpl.
  rewrite bool_decide_eq_true_2, Hp by done. cbn [negb]. unfold emit_topology_changed. simpl.
  rewrite Hpe. simpl.
  destruct (select_best_parent m) as [best|]; simpl.
  - unfold complete_failover. simpl. unfold connect_parent. simpl. unfold MeshTopology.set_parent.
    simpl. unfold MeshTopology.can_accept_connection, MeshTopology.connection_count in *. simpl.
    rewrite Hp, Hpe in *. simpl in *.
    rewrite (proj2 (Z.ltb_lt _ _)) by lia. simpl. split_and!; try done; try apply Hbest.
    rewrite <-!app_assoc. simpl. by destruct (candidates m).
  - split_and!; try done. rewrite <-!app_assoc. simpl. by destruct (candidates m).
Qed.

Definition demo_manager : MeshManager.t :=
  match run (new 10 HierarchyLevel.Platform TopologyConfig.default_config)
    [Start; ConnectParent 20 HierarchyLevel.Squad (-60); AcceptChild 30 HierarchyLevel.Platform;
     Beacon (PeatBeacon.mk 1 0 40 HierarchyLevel.Platoon 0 100 1) (-50);
     Beacon (PeatBeacon.mk 1 0 50 HierarchyLevel.Squad 0 100 1) (-55)] with
  | Ok m => m
  | _ => new 10 HierarchyLevel.Platform TopologyConfig.default_config
  end.
Lemma failover_reconnects_witness :
  let '(m1, started) := start_failover demo_manager in
  let '(m2, completed) := complete_failover m1 (Some (50, HierarchyLevel.Squad, -55)) in
  completed = None ∧ MeshTopology.parent (topology m2) = Some 50.
Proof.
  assert (Hm : inv demo_manager).
  { destruct (manager_run_inv [Start; ConnectParent 20 HierarchyLevel.Squad (-60);
      AcceptChild 30 HierarchyLevel.Platform;
      Beacon (PeatBeacon.mk 1 0 40 HierarchyLevel.Platoon 0 100 1) (-50);
      Beacon (PeatBeacon.mk 1 0 50 HierarchyLevel.Squad 0 100 1) (-55)]
      (new 10 HierarchyLevel.Platform TopologyConfig.default_config)) as (m & Hrun & Hm & _);
      [reflexivity | | |].
    - apply manager_new_inv; discriminate.
    - intros H. repeat (apply elem_of_cons in H as [H|H]; [discriminate|]). by apply elem_of_nil in H.
    - unfold demo_manager. rewrite Hrun. exact Hm. }
  pose proof (failover_reconnects demo_manager 20 Hm eq_refl eq_refl) as H.
  assert (Hb : select_best_parent demo_manager
    = Some (ParentCandidate.mk 50 HierarchyLevel.Squad (-55) 0 0)) by (vm_compute; reflexivity).
  rewrite Hb in H. destruct (start_failover demo_manager) as [m1 started].
  cbn [fmap option_fmap option_map ParentCandidate.node_id ParentCandidate.level
    ParentCandidate.rssi] in H.
  destruct (complete_failover m1 (Some (50, HierarchyLevel.Squad, -55))) as [m2 completed].
  split; apply H.
Defined.

End MeshManagerProperties.
