(* ===== verification/Gossip.v ===== *)
(** * Gossip strategies of src/src/gossip.rs: which peers are sent a message,
    and whether a merge is worth forwarding.  The build with [std] is
    modelled; the wall clock that seeds [RandomFanout] is a parameter. *)

From stdpp Require Import base numbers list gmap sets sorting.
From S2P Require Import Prelude PeerGraph Document.
Open Scope Z_scope.
Open Scope peat_scope.

(** The trait.  [clock i] is the system time, in nanoseconds as [u64], when a
    strategy reads it for the [i]-th time; [should_forward] may switch the
    strategy's mode. *)
Class GossipStrategy (A : Type) := {
  select_peers : A → (Z → Z) → list PeatPeer.t → outcome (list PeatPeer.t);
  should_forward : A → MergeResult.t → A * bool
}.

(** The default method of the trait. *)
Definition default_should_forward (result : MergeResult.t) : bool :=
  MergeResult.counter_changed result || MergeResult.emergency_changed result
  || MergeResult.chat_changed result.

Module RandomFanout.

Record t := mk { fanout : Z; seed : option Z }.

Definition new (fanout : Z) : t := mk (Z.max fanout 1) None.
Definition with_seed (fanout seed : Z) : t := mk (Z.max fanout 1) (Some seed).
Definition default_strategy : t := new 2.

(** [now] is the clock at this call. *)
Definition random_index (self : t) (now max iteration : Z) : Z :=
  let seed := default now (seed self) in
  let mixed := wrapping_add 64 (wrap 64 (seed * 6364136223846793005)) iteration in
  mixed mod max.

(** [for i in 0..self.fanout * 3]. *)
Fixpoint select_loop (self : t) (clock : Z → Z) (peers : list PeatPeer.t) (n : nat) (i : Z)
    (selected : list PeatPeer.t) (used : gset Z) : outcome (list PeatPeer.t) :=
  match n with
  | O => Ok selected
  | S n =>
      if fanout self <=? zlen selected then Ok selected
      else
        let idx := random_index self (clock i) (zlen peers) i in
        if bool_decide (idx ∈ used)
        then select_loop self clock peers n (i + 1) selected used
        else
          match peers !! Z.to_nat idx with
          | Some peer =>
              select_loop self clock peers n (i + 1) (selected ++ [peer]) ({[idx]} ∪ used)
          | None => Panic
          end
  end.

Definition select_peers_random (self : t) (clock : Z → Z) (peers : list PeatPeer.t)
    : outcome (list PeatPeer.t) :=
  if zlen peers =? 0 then Ok []
  else if zlen peers <=? fanout self then Ok peers
  else select_loop self clock peers (Z.to_nat (fanout self * 3)) 0 [] ∅.

#[global] Instance random_fanout_strategy : GossipStrategy t := {
  select_peers := select_peers_random;
  should_forward self r := (self, default_should_forward r)
}.

End RandomFanout.

Module BroadcastAll.
Inductive t := new.
#[global] Instance broadcast_all_strategy : GossipStrategy t := {
  select_peers _ _ peers := Ok peers;
  should_forward self r := (self, default_should_forward r)
}.
End BroadcastAll.

Module SignalBasedFanout.

Record t := mk { fanout : Z; rssi_threshold : Z }.

Definition new (fanout rssi_threshold : Z) : t := mk (Z.max fanout 1) rssi_threshold.
Definition default_strategy : t := new 2 10.

(** [sort_by(|a, b| b.rssi.cmp(&a.rssi))]: strongest first, stable. *)
Definition stronger (a b : PeatPeer.t) : Prop := PeatPeer.rssi b ≤ PeatPeer.rssi a.
#[global] Instance stronger_dec : RelDecision stronger.
Proof. unfold stronger. solve_decision. Defined.

(** The pass over [sorted.iter().skip(1)]. *)
Fixpoint near_loop (self : t) (l selected : list PeatPeer.t) : outcome (list PeatPeer.t) :=
  match l with
  | [] => Ok selected
  | peer :: l =>
      if fanout self <=? zlen selected then Ok selected
      else
        let last_rssi := default (-100) (PeatPeer.rssi <$> last selected) in
        let! limit := sub_i8 last_rssi (rssi_threshold self) in
        if (limit <=? PeatPeer.rssi peer) || (zlen selected <? fanout self / 2 + 1)
        then near_loop self l (selected ++ [peer]) else near_loop self l selected
  end.

(** The pass that fills the remaining slots. *)
Fixpoint fill_loop (self : t) (l selected : list PeatPeer.t) : list PeatPeer.t :=
  match l with
  | [] => selected
  | peer :: l =>
      if fanout self <=? zlen selected then selected
      else if existsb (λ p, PeatPeer.node_id p =? PeatPeer.node_id peer) selected
      then fill_loop self l selected
      else fill_loop self l (selected ++ [peer])
  end.

Definition select_peers_signal (self : t) (peers : list PeatPeer.t)
    : outcome (list PeatPeer.t) :=
  if zlen peers =? 0 then Ok []
  else if zlen peers <=? fanout self then Ok peers
  else
    let sorted := merge_sort stronger peers in
    let selected := take 1 sorted in
    let! selected := near_loop self (drop 1 sorted) selected in
    Ok (fill_loop self sorted selected).

#[global] Instance signal_based_strategy : GossipStrategy t := {
  select_peers self _ peers := select_peers_signal self peers;
  should_forward self r := (self, default_should_forward r)
}.

End SignalBasedFanout.

Module EmergencyAware.

Record t := mk { normal_fanout : Z; emergency_fanout : Z; emergency_mode : bool }.

(** [usize::MAX] is 2^64 - 1. *)
Definition new (normal_fanout : Z) : t := mk (Z.max normal_fanout 1) u64_max false.
Definition default_strategy : t := new 2.
Definition set_emergency (self : t) (active : bool) : t :=
  mk (normal_fanout self) (emergency_fanout self) active.
Definition is_emergency (self : t) : bool := emergency_mode self.
Definition effective_fanout (self : t) : Z :=
  if is_emergency self then emergency_fanout self else normal_fanout self.
Definition select_peers_emergency (self : t) (peers : list PeatPeer.t) : list PeatPeer.t :=
  let fanout := effective_fanout self in
  if zlen peers <=? fanout then peers else ztake fanout peers.
Definition should_forward_emergency (self : t) (result : MergeResult.t) : t * bool :=
  if is_emergency self then (self, true)
  else
    let self := if MergeResult.is_emergency result || MergeResult.emergency_changed result
                then set_emergency self true else self in
    (self, MergeResult.counter_changed result || MergeResult.emergency_changed result).

#[global] Instance emergency_aware_strategy : GossipStrategy t := {
  select_peers self _ peers := Ok (select_peers_emergency self peers);
  should_forward := should_forward_emergency
}.

End EmergencyAware.

(** * Theorems *)

(** What a client may rely on: the chosen peers are some of those given, no
    more than [limit], and at least one when there is one. *)
Class GossipLaws (A : Type) `{!GossipStrategy A} (limit : A → Z)
    (ok : A → list PeatPeer.t → Prop) : Prop := {
  select_laws : ∀ s clock peers, ok s peers →
    ∃ sel, select_peers s clock peers = Ok sel ∧ sel ⊆+ peers ∧
           zlen sel ≤ limit s ∧ (peers ≠ [] → sel ≠ [])
}.

Module GossipProofs.

(** ** Choosing by index *)

Lemma omap_lookup_seq {A} (l1 l2 : list A) :
  omap (λ i, (l1 ++ l2) !! i) (seq (length l1) (length l2)) = l2.
Proof.
  revert l1. induction l2 as [|x l2 IH]; intros l1; [done|]. cbn [length seq].
  cbn [omap list_omap]. rewrite lookup_app_r, Nat.sub_diag by lia. cbn [lookup list_lookup]. f_equal.
  specialize (IH (l1 ++ [x])). rewrite length_app in IH. cbn [length] in IH.
  rewrite Nat.add_1_r, <-app_assoc in IH. exact IH.
Qed.
Lemma omap_submseteq {A B} (f : A → option B) l k : l ⊆+ k → omap f l ⊆+ omap f k.
Proof.
  intros [k' Hk]%submseteq_Permutation. rewrite Hk, omap_app. by apply submseteq_inserts_r.
Qed.

(** The elements of [l] at given indices. *)
Definition at_indices {A} (l : list A) (ixs : list Z) : list A := omap (λ i, l !! Z.to_nat i) ixs.

Lemma at_indices_sub {A} (l : list A) ixs :
  NoDup ixs → (∀ i, i ∈ ixs → 0 ≤ i < zlen l) → at_indices l ixs ⊆+ l.
Proof.
  intros Hnd Hr. unfold at_indices.
  replace (omap (λ i, l !! Z.to_nat i) ixs) with (omap (λ i, l !! i) (Z.to_nat <$> ixs)).
  - transitivity (omap (λ i, l !! i) (seq 0 (length l)));
      [|pose proof (omap_lookup_seq [] l) as E; cbn in E; by rewrite E].
    apply omap_submseteq, NoDup_submseteq.
    + apply NoDup_fmap_2_strong; [|done]. intros x y Hx Hy. apply Hr in Hx, Hy. lia.
    + intros x (i & -> & Hi)%list_elem_of_fmap. apply Hr in Hi. apply elem_of_seq. lia.
  - clear. induction ixs as [|i ixs IH]; cbn; [done|]. destruct (l !! Z.to_nat i); by rewrite IH.
Qed.
Lemma at_indices_length {A} (l : list A) ixs :
  (∀ i, i ∈ ixs → 0 ≤ i < zlen l) → zlen (at_indices l ixs) = zlen ixs.
Proof.
  induction ixs as [|i ixs IH]; intros Hr; [done|]. cbn.
  destruct (lookup_lt_is_Some_2 l (Z.to_nat i)) as [x ->].
  { specialize (Hr i ltac:(set_solver)). lia. }
  cbn. specialize (IH ltac:(set_solver)). unfold at_indices in IH. lia.
Qed.

(** ** [RandomFanout] *)

Section random.
Context (self : RandomFanout.t) (clock : Z → Z) (peers : list PeatPeer.t).
Context (Hn : 0 < zlen peers).

Abbreviation idx i := (RandomFanout.random_index self (clock i) (zlen peers) i).

Lemma random_index_bound i : 0 ≤ idx i < zlen peers.
Proof. unfold RandomFanout.random_index. by apply Z.mod_pos_bound. Qed.

Lemma select_loop_spec n i ixs :
  NoDup ixs → (∀ x, x ∈ ixs → 0 ≤ x < zlen peers) → zlen ixs ≤ RandomFanout.fanout self →
  ∃ ixs', RandomFanout.select_loop self clock peers n i (at_indices peers ixs) (list_to_set ixs)
         = Ok (at_indices peers ixs') ∧
    NoDup ixs' ∧ (∀ x, x ∈ ixs' → 0 ≤ x < zlen peers) ∧
    zlen ixs ≤ zlen ixs' ≤ RandomFanout.fanout self ∧
    (zlen ixs' < RandomFanout.fanout self → ∀ j, i ≤ j < i + Z.of_nat n → idx j ∈ ixs') ∧
    (∀ x, x ∈ ixs → x ∈ ixs').
Proof.
  revert i ixs. induction n as [|n IH]; intros i ixs Hnd Hr Hl; cbn [RandomFanout.select_loop].
  { exists ixs. split_and!; try done; intros; lia. }
  rewrite at_indices_length by done.
  destruct (RandomFanout.fanout self <=? zlen ixs) eqn:E.
  { exists ixs. split_and!; try done; lia. }
  cbv zeta. pose proof (random_index_bound i) as Hi.
  case_bool_decide as Hin.
  - destruct (IH (i + 1) ixs Hnd Hr Hl) as (ixs' & -> & ? & ? & ? & Hall & Hsub).
    exists ixs'. split_and!; try done; try lia. intros Hlt j Hj.
    destruct (decide (j = i)) as [->|]; [apply Hsub; set_solver|]. apply Hall; [done|lia].
  - destruct (lookup_lt_is_Some_2 peers (Z.to_nat (idx i))) as [p Hp]; [lia|]. rewrite Hp.
    assert (at_indices peers ixs ++ [p] = at_indices peers (ixs ++ [idx i])) as ->.
    { unfold at_indices. rewrite omap_app. cbn. by rewrite Hp. }
    assert (({[idx i]} ∪ list_to_set ixs : gset Z) = list_to_set (ixs ++ [idx i])) as ->
      by set_solver.
    destruct (IH (i + 1) (ixs ++ [idx i])) as (ixs' & -> & ? & ? & Hlen & Hall & Hsub).
    + apply NoDup_app. split_and!; [done|set_solver|apply NoDup_singleton].
    + intros x. rewrite elem_of_app, list_elem_of_singleton. intros [?| ->]; auto.
    + len.
    + rewrite length_app in Hlen. cbn in Hlen.
      exists ixs'. split_and!; try done; try lia.
      * intros Hlt j Hj. destruct (decide (j = i)) as [->|]; [apply Hsub; set_solver|].
        apply Hall; [done|lia].
      * intros x Hx. apply Hsub. set_solver.
Qed.

(** With a fixed seed, some [fanout] consecutive draws are distinct. *)
Lemma seeded_window sd :
  RandomFanout.seed self = Some sd → 0 < RandomFanout.fanout self < zlen peers →
  RandomFanout.fanout self < 2 ^ 64 →
  ∃ s, 0 ≤ s ∧ s + RandomFanout.fanout self ≤ RandomFanout.fanout self * 3 ∧
    ∀ a b, 0 ≤ a < RandomFanout.fanout self → 0 ≤ b < RandomFanout.fanout self →
      idx (s + a) = idx (s + b) → a = b.
Proof.
  intros Hs Hf Hf64. set (f := RandomFanout.fanout self) in *.
  set (c := wrap 64 (sd * 6364136223846793005)).
  assert (0 ≤ c < 2 ^ 64) as Hc by (apply wrap_bound; lia).
  assert (∀ i, idx i = (c + i) mod 2 ^ 64 mod zlen peers) as Hidx.
  { intros i. unfold RandomFanout.random_index. by rewrite Hs. }
  assert (∀ m a b, 0 ≤ a < f → 0 ≤ b < f →
    (m + a) mod zlen peers = (m + b) mod zlen peers → a = b) as Hinj.
  { intros m a b Ha Hb' E. clear -Ha Hb' E Hf.
    pose proof (Z.div_mod (m + a) (zlen peers) ltac:(lia)).
    pose proof (Z.div_mod (m + b) (zlen peers) ltac:(lia)).
    assert ((m + a) / zlen peers = (m + b) / zlen peers) by nia. nia. }
  destruct (decide (c + f ≤ 2 ^ 64)).
  - exists 0. split_and!; [lia|lia|]. intros a b Ha Hb'. rewrite !Hidx, !Z.add_0_l.
    rewrite !(Z.mod_small _ (2 ^ 64)) by lia. by apply Hinj.
  - exists (2 ^ 64 - c). split_and!; [lia|lia|]. intros a b Ha Hb'. rewrite !Hidx.
    replace (c + (2 ^ 64 - c + a)) with (a + 1 * 2 ^ 64) by lia.
    replace (c + (2 ^ 64 - c + b)) with (b + 1 * 2 ^ 64) by lia.
    rewrite !Z.mod_add, !(Z.mod_small _ (2 ^ 64)) by lia. by apply (Hinj 0).
Qed.

Lemma select_random_spec :
  1 ≤ RandomFanout.fanout self < 2 ^ 64 →
  ∃ sel, RandomFanout.select_peers_random self clock peers = Ok sel ∧ sel ⊆+ peers ∧
    1 ≤ zlen sel ≤ RandomFanout.fanout self ∧
    (is_Some (RandomFanout.seed self) → zlen sel = Z.min (RandomFanout.fanout self) (zlen peers)).
Proof.
  intros Hf. unfold RandomFanout.select_peers_random.
  rewrite (proj2 (Z.eqb_neq _ 0)) by lia.
  destruct (zlen peers <=? RandomFanout.fanout self) eqn:E.
  { exists peers. split_and!; try done; lia. }
  destruct (select_loop_spec (Z.to_nat (RandomFanout.fanout self * 3)) 0 [])
    as (ixs' & Hsel & Hnd & Hr & Hlen & Hall & _); [constructor|set_solver|cbn; lia|].
  cbn in Hsel. rewrite Hsel. exists (at_indices peers ixs').
  rewrite at_indices_length by done. split_and!; [done|by apply at_indices_sub| |lia|].
  - destruct (decide (zlen ixs' < RandomFanout.fanout self)) as [Hlt|]; [|lia].
    specialize (Hall Hlt 0 ltac:(lia)). destruct ixs'; [set_solver|cbn; lia].
  - intros [sd Hs]. rewrite Z.min_l by lia.
    destruct (decide (zlen ixs' < RandomFanout.fanout self)) as [Hlt|]; [|lia]. exfalso.
    destruct (seeded_window sd Hs ltac:(lia) ltac:(lia)) as (s & Hs0 & Hs3 & Hinj).
    set (w := (λ a, idx (s + a)) <$> seqZ 0 (RandomFanout.fanout self)).
    assert (w ⊆+ ixs') as Hsub.
    { apply NoDup_submseteq.
      - apply NoDup_fmap_2_strong; [|apply NoDup_seqZ].
        intros a b Ha%elem_of_seqZ Hb%elem_of_seqZ. apply Hinj; lia.
      - intros x (a & -> & Ha%elem_of_seqZ)%list_elem_of_fmap. apply Hall; [done|lia]. }
    apply submseteq_length in Hsub. unfold w in Hsub. rewrite length_fmap, length_seqZ in Hsub. lia.
Qed.
End random.

(** ** [SignalBasedFanout] *)

Section signal.
Import SignalBasedFanout.
Context (self : t).

Abbreviation ids l := (PeatPeer.node_id <$> (l : list PeatPeer.t)).
(** No [i8] overflow in the comparison with the threshold. *)
Definition rssi_ok (l : list PeatPeer.t) : Prop :=
  ∀ p, p ∈ l → -128 ≤ PeatPeer.rssi p - rssi_threshold self ≤ 127.

Lemma near_loop_spec l sel :
  sel ≠ [] → rssi_ok (sel ++ l) → NoDup (ids (sel ++ l)) → zlen sel ≤ fanout self →
  ∃ sel', near_loop self l sel = Ok (sel ++ sel') ∧ sublist sel' l ∧
          zlen (sel ++ sel') ≤ fanout self.
Proof.
  revert sel. induction l as [|p l IH]; intros sel Hne Hr Hnd Hl; cbn [near_loop].
  { exists []. rewrite app_nil_r. split_and!; [done|constructor|done]. }
  destruct (fanout self <=? zlen sel) eqn:E.
  { exists []. rewrite app_nil_r. split_and!; [done|by apply sublist_nil_l|done]. }
  destruct (last sel) as [q|] eqn:Eq; [|by apply last_None in Eq]. cbn [fmap option_fmap option_map from_option]. unfold id.
  assert (-128 ≤ PeatPeer.rssi q - rssi_threshold self ≤ 127) as Hq.
  { apply Hr. apply last_Some in Eq as [l' ->]. set_solver. }
  assert (sub_i8 (PeatPeer.rssi q) (rssi_threshold self)
          = Ok (PeatPeer.rssi q - rssi_threshold self)) as ->.
  { unfold sub_i8. by rewrite (proj2 (Z.leb_le (-128) _)), (proj2 (Z.leb_le _ 127)) by lia. }
  cbn [obind].
  destruct (_ || _).
  - destruct (IH (sel ++ [p])) as (sel' & -> & Hs & Hlen).
    + by destruct sel.
    + by rewrite <-app_assoc.
    + by rewrite <-app_assoc.
    + len.
    + exists (p :: sel'). rewrite <-!app_assoc in *. split_and!; [done|by constructor|done].
  - destruct (IH sel) as (sel' & -> & Hs & Hlen); try done.
    + intros x Hx. apply Hr. set_solver.
    + eapply sublist_NoDup; [exact Hnd|]. rewrite !fmap_app, fmap_cons.
      apply sublist_app; [done|by constructor].
    + exists sel'. split_and!; [done|by constructor|done].
Qed.

Lemma fill_loop_spec l sel :
  NoDup (ids sel) → zlen sel ≤ fanout self →
  ∃ more, fill_loop self l sel = sel ++ more ∧ NoDup (ids (sel ++ more)) ∧
    (∀ x, x ∈ more → x ∈ l) ∧ zlen (sel ++ more) ≤ fanout self ∧
    (zlen (sel ++ more) < fanout self → ∀ x, x ∈ ids l → x ∈ ids (sel ++ more)).
Proof.
  revert sel. induction l as [|p l IH]; intros sel Hnd Hl; cbn [fill_loop].
  { exists []. rewrite app_nil_r. split_and!; set_solver. }
  destruct (fanout self <=? zlen sel) eqn:E.
  { exists []. rewrite app_nil_r. split_and!; try done; [set_solver|lia]. }
  destruct (existsb _ sel) eqn:Eex.
  - destruct (IH sel Hnd Hl) as (more & -> & ? & ? & ? & Hall).
    exists more. split_and!; try done; [set_solver|]. intros Hlt x.
    rewrite fmap_cons, elem_of_cons. intros [->|Hx]; [|by apply Hall].
    apply existsb_exists in Eex as (q & Hq%list_elem_of_In & Heq%Z.eqb_eq).
    rewrite fmap_app, elem_of_app. left. rewrite <-Heq. by apply list_elem_of_fmap_2.
  - destruct (IH (sel ++ [p])) as (more & -> & Hnd' & Hin & Hlen & Hall).
    + rewrite fmap_app. apply NoDup_app. split_and!; [done| |apply NoDup_singleton].
      intros x Hx ->%list_elem_of_singleton. apply list_elem_of_fmap in Hx as (q & Hq & Hin).
      assert (existsb (λ p0, PeatPeer.node_id p0 =? PeatPeer.node_id p) sel = true) as Ht;
        [|congruence].
      apply existsb_exists. exists q. split; [by apply list_elem_of_In|]. rewrite Hq. lia.
    + len.
    + exists (p :: more). rewrite <-!app_assoc in *. cbn [app] in *.
      split_and!; try done; [set_solver|]. intros Hlt x.
      rewrite fmap_cons, elem_of_cons. intros [->|Hx]; [|by apply Hall].
      rewrite fmap_app, fmap_cons. set_solver.
Qed.

#[local] Instance stronger_total : Total stronger.
Proof. intros a b. unfold stronger. lia. Qed.
#[local] Instance stronger_trans : Transitive stronger.
Proof. intros a b c. unfold stronger. lia. Qed.

Lemma select_signal_spec peers :
  1 ≤ fanout self → NoDup (ids peers) → rssi_ok peers → peers ≠ [] →
  ∃ best sel, select_peers_signal self peers = Ok sel ∧ sel ⊆+ peers ∧
    zlen sel = Z.min (fanout self) (zlen peers) ∧
    best ∈ sel ∧ ∀ p, p ∈ peers → PeatPeer.rssi p ≤ PeatPeer.rssi best.
Proof.
  intros Hf Hnd Hr Hne.
  pose proof (merge_sort_Permutation stronger peers) as Hperm.
  pose proof (StronglySorted_merge_sort stronger peers) as Hsort.
  destruct (merge_sort stronger peers) as [|best sorted] eqn:Es.
  { apply Permutation_nil_l in Hperm. done. }
  assert (∀ p, p ∈ peers → PeatPeer.rssi p ≤ PeatPeer.rssi best) as Hbest.
  { intros p Hp. rewrite <-Hperm in Hp. apply elem_of_cons in Hp as [->|Hp]; [done|].
    apply StronglySorted_inv in Hsort as [_ Hall]. rewrite Forall_forall in Hall. by apply Hall. }
  assert (0 < zlen peers) by (destruct peers; [done|cbn; lia]).
  assert (best ∈ peers) as Hbin by (rewrite <-Hperm; set_solver).
  exists best. unfold select_peers_signal. rewrite (proj2 (Z.eqb_neq _ 0)) by lia.
  destruct (zlen peers <=? fanout self) eqn:E.
  { exists peers. split_and!; try done. lia. }
  rewrite Es. cbn [take drop]. rewrite ?drop_0, ?take_0.
  assert (NoDup (ids (best :: sorted))) as Hnds by by rewrite Hperm.
  destruct (near_loop_spec sorted [best]) as (near & -> & Hsub & Hlen); [done| |done|cbn; lia|].
  { intros p Hp. apply Hr. by rewrite <-Hperm. }
  cbn [obind].
  destruct (fill_loop_spec (best :: sorted) ([best] ++ near)) as (more & -> & Hnd' & Hmore & Hlen' & Hall).
  { eapply sublist_NoDup; [exact Hnds|]. apply fmap_sublist. by constructor. }
  { done. }
  exists (([best] ++ near) ++ more). split_and!; [done| | |set_solver|done].
  - apply NoDup_submseteq; [by eapply NoDup_fmap_1|].
    intros x. rewrite <-Hperm, !elem_of_app. intros [[Hx|Hx]|Hx]; [set_solver| |by apply Hmore].
    apply elem_of_cons. right. by eapply elem_of_sublist.
  - rewrite Z.min_l by lia. destruct (decide (zlen (([best] ++ near) ++ more) < fanout self)) as [Hlt|];
      [|lia]. exfalso.
    pose proof (NoDup_submseteq _ _ Hnds (Hall Hlt)) as Hle%submseteq_length.
    rewrite !length_fmap in Hle. apply Permutation_length in Hperm. lia.
Qed.
End signal.

End GossipProofs.

#[export] Instance random_fanout_laws :
  GossipLaws RandomFanout.t RandomFanout.fanout (λ s _, 1 ≤ RandomFanout.fanout s < 2 ^ 64).
Proof.
  split. intros s clock peers Hs. cbn. destruct (decide (0 < zlen peers)) as [Hn|].
  - destruct (GossipProofs.select_random_spec s clock peers Hn Hs) as (sel & -> & ? & ? & _).
    exists sel. split_and!; try done; [lia|]. intros _ ->. cbn in *. lia.
  - destruct peers; [|cbn in *; lia]. exists []. split_and!; try done. cbn. lia.
Qed.
#[export] Instance broadcast_all_laws :
  GossipLaws BroadcastAll.t (λ _, u64_max) (λ _ peers, zlen peers ≤ u64_max).
Proof. split. intros s clock peers Hs. exists peers. by split_and!. Qed.
#[export] Instance signal_based_laws :
  GossipLaws SignalBasedFanout.t SignalBasedFanout.fanout
    (λ s peers, 1 ≤ SignalBasedFanout.fanout s ∧ NoDup (PeatPeer.node_id <$> peers) ∧
                GossipProofs.rssi_ok s peers).
Proof.
  split. intros s clock peers (Hf & Hnd & Hr). cbn. destruct (decide (peers = [])) as [->|Hne].
  - exists []. split_and!; try done. cbn. lia.
  - destruct (GossipProofs.select_signal_spec s peers Hf Hnd Hr Hne)
      as (best & sel & -> & ? & ? & Hb & _).
    exists sel. split_and!; try done; [lia|]. intros _ ->. set_solver.
Qed.
#[export] Instance emergency_aware_laws :
  GossipLaws EmergencyAware.t EmergencyAware.effective_fanout
    (λ s _, 1 ≤ EmergencyAware.effective_fanout s).
Proof.
  split. intros s clock peers Hs. cbn. unfold EmergencyAware.select_peers_emergency.
  destruct (_ <=? _) eqn:E.
  - exists peers. split_and!; try done. lia.
  - eexists. split_and!; [done|apply sublist_submseteq, sublist_take|len|].
    intros Hne Hnil. apply (f_equal length) in Hnil. cbn in E. len.
Qed.

Module GossipProperties.
Import GossipProofs.

(** Random fanout.  Whatever the clock says, the strategy returns between
    one and [fanout] of the connected peers, none twice, without an index
    error; with a fixed seed it returns exactly [fanout] of them, or all. *)
Theorem random_fanout_selects (self : RandomFanout.t) (clock : Z → Z) (peers : list PeatPeer.t) :
  1 ≤ RandomFanout.fanout self < 2 ^ 64 → 0 < zlen peers →
  ∃ sel, select_peers self clock peers = Ok sel ∧ sel ⊆+ peers ∧
    1 ≤ zlen sel ≤ RandomFanout.fanout self ∧
    (is_Some (RandomFanout.seed self) → zlen sel = Z.min (RandomFanout.fanout self) (zlen peers)).
Proof. intros Hf Hn. by apply select_random_spec. Qed.

Definition sample_peer (n rssi : Z) : PeatPeer.t := PeatPeer.new n [77; n] None None rssi.
Definition sample_peers : list PeatPeer.t :=
  [sample_peer 1 (-70); sample_peer 2 (-50); sample_peer 3 (-90); sample_peer 4 (-55)].

Lemma random_fanout_selects_witness :
  ∃ sel, select_peers (RandomFanout.with_seed 2 42) (λ _, 0) sample_peers = Ok sel ∧
    sel ⊆+ sample_peers ∧ 1 ≤ zlen sel ≤ 2 ∧
    (is_Some (Some 42) → zlen sel = Z.min 2 (zlen sample_peers)).
Proof.
  apply (random_fanout_selects (RandomFanout.with_seed 2 42) (λ _, 0) sample_peers); cbn; lia.
Defined.

(** Signal-based fanout.  With distinct node numbers and no [i8] overflow
    the strategy returns exactly [fanout] of the peers, or all of them, none
    twice, and a peer of the strongest signal is among them. *)
Theorem signal_fanout_selects (self : SignalBasedFanout.t) (clock : Z → Z)
    (peers : list PeatPeer.t) :
  1 ≤ SignalBasedFanout.fanout self → NoDup (PeatPeer.node_id <$> peers) →
  rssi_ok self peers → peers ≠ [] →
  ∃ best sel, select_peers self clock peers = Ok sel ∧ sel ⊆+ peers ∧
    zlen sel = Z.min (SignalBasedFanout.fanout self) (zlen peers) ∧
    best ∈ sel ∧ ∀ p, p ∈ peers → PeatPeer.rssi p ≤ PeatPeer.rssi best.
Proof. intros. by apply select_signal_spec. Qed.

Lemma signal_fanout_selects_witness :
  ∃ best sel, select_peers SignalBasedFanout.default_strategy (λ _, 0) sample_peers = Ok sel ∧
    sel ⊆+ sample_peers ∧ zlen sel = Z.min 2 (zlen sample_peers) ∧
    best ∈ sel ∧ ∀ p, p ∈ sample_peers → PeatPeer.rssi p ≤ PeatPeer.rssi best.
Proof.
  apply (signal_fanout_selects SignalBasedFanout.default_strategy (λ _, 0) sample_peers).
  - cbn. lia.
  - by_decide.
  - unfold rssi_ok. apply Forall_forall. by_decide.
  - discriminate.
Defined.

(** The fanout strategies.  Of the connected peers, distinct nodes, the
    random strategy returns, whatever the clock says, between one and [fanout]
    (with a fixed seed exactly [fanout], or all), and the signal-based one,
    when its [i8] comparisons do not overflow, exactly [fanout] or all, a peer
    of the strongest signal among them; neither returns a peer twice. *)
Theorem fanout_strategies_select (random : RandomFanout.t) (signal : SignalBasedFanout.t)
    (clock : Z → Z) (peers : list PeatPeer.t) :
  peers ≠ [] → 1 ≤ RandomFanout.fanout random < 2 ^ 64 → 1 ≤ SignalBasedFanout.fanout signal →
  NoDup (PeatPeer.node_id <$> peers) → rssi_ok signal peers →
  (∃ sel, select_peers random clock peers = Ok sel ∧ sel ⊆+ peers
    ∧ 1 ≤ zlen sel ≤ RandomFanout.fanout random
    ∧ (is_Some (RandomFanout.seed random) →
       zlen sel = Z.min (RandomFanout.fanout random) (zlen peers)))
  ∧ (∃ best sel, select_peers signal clock peers = Ok sel ∧ sel ⊆+ peers
    ∧ zlen sel = Z.min (SignalBasedFanout.fanout signal) (zlen peers)
    ∧ best ∈ sel ∧ ∀ p, p ∈ peers → PeatPeer.rssi p ≤ PeatPeer.rssi best).
Proof.
  intros Hne Hr Hs Hd Hok. split; [|by apply select_signal_spec].
  apply select_random_spec; [|exact Hr]. destruct peers; [by destruct Hne | cbn; lia].
Qed.
Lemma fanout_strategies_select_witness :
  (∃ sel, select_peers (RandomFanout.with_seed 2 42) (λ _, 0) sample_peers = Ok sel
    ∧ zlen sel = 2)
  ∧ ∃ best sel, select_peers SignalBasedFanout.default_strategy (λ _, 0) sample_peers = Ok sel
    ∧ best ∈ sel.
Proof.
  destruct (fanout_strategies_select (RandomFanout.with_seed 2 42)
    SignalBasedFanout.default_strategy (λ _, 0) sample_peers) as [Hr Hs].
  - discriminate.
  - cbn. lia.
  - cbn. lia.
  - by_decide.
  - unfold rssi_ok. apply Forall_forall. by_decide.
  - split.
    + destruct Hr as (sel & Hsel & _ & _ & Hlen). exists sel. split; [exact Hsel|].
      rewrite Hlen by (eexists; reflexivity). reflexivity.
    + destruct Hs as (best & sel & Hsel & _ & _ & Hb & _). by exists best, sel.
Defined.

(** With the default threshold of 10 dB, a strongest peer at -120 dBm makes
    the comparison overflow. *)
Example signal_fanout_overflows :
  select_peers SignalBasedFanout.default_strategy (λ _, 0)
    [sample_peer 1 (-120); sample_peer 2 (-121); sample_peer 3 (-122)] = Panic.
Proof. reflexivity. Qed.

(** Outside an emergency, [EmergencyAware] does not forward new chat
    messages, which every other strategy does. *)
Lemma emergency_aware_drops_chat (n fanout : Z) :
  let r := MergeResult.mk n None None false false true 0 in
  (should_forward (EmergencyAware.new fanout) r).2 = false ∧
  (should_forward (RandomFanout.new fanout) r).2 = true.
Proof. done. Qed.

End GossipProperties.
