(* ===== verification/Relay.v ===== *)
(** * Multi-hop relay: the envelopes and the seen-message cache of
    src/src/relay.rs, and the relay handler of src/src/peat_mesh.rs.  The
    build with [std] is modelled.  A [MessageId] of 16 bytes is the 128-bit
    number they spell in little-endian order. *)

From stdpp Require Import base numbers list gmap sets sorting relations.
From S2P Require Import Prelude PeerGraph Gossip.
Open Scope Z_scope.
Open Scope peat_scope.

Definition RELAY_ENVELOPE_MARKER : Z := 0xB1.
Definition DEFAULT_MAX_HOPS : Z := 7.
Definition DEFAULT_SEEN_TTL_MS : Z := 300000.
Definition MAX_CACHE_SIZE : Z := 1000.

Module MessageId.

(** The bytes [8..16] of a new identifier, drawn from the seed. *)
Fixpoint lcg_bytes (n : nat) (seed : Z) : list Z :=
  match n with
  | O => []
  | S n =>
      let seed := wrapping_add 64 (wrap 64 (seed * 6364136223846793005)) 1 in
      wrap 8 (Z.shiftr seed 32) :: lcg_bytes n seed
  end.
(** [now] is the system time in nanoseconds. *)
Definition new (now : Z) : Z := from_le (le 8 (wrap 64 now) ++ lcg_bytes 8 (wrap 64 now)).
Definition from_content (origin timestamp_ms payload_hash : Z) : Z :=
  from_le (le 4 origin ++ le 8 timestamp_ms ++ le 4 payload_hash).

End MessageId.

Module RelayFlags.

Record t := mk { requires_ack : bool; is_broadcast : bool }.

Definition default_flags : t := mk false false.
Definition to_byte (self : t) : Z :=
  let flags := 0 in
  let flags := if requires_ack self then Z.lor flags 0x01 else flags in
  if is_broadcast self then Z.lor flags 0x02 else flags.
Definition from_byte (byte : Z) : t := mk (has_bit byte 0x01) (has_bit byte 0x02).

End RelayFlags.

Module RelayEnvelope.

Record t := mk {
  message_id : Z; hop_count : Z; max_hops : Z; origin_node : Z; flags : RelayFlags.t;
  payload : list Z
}.

(** [now]: the clock that names the message. *)
Definition new (now origin_node : Z) (payload : list Z) : t :=
  mk (MessageId.new now) 0 DEFAULT_MAX_HOPS origin_node RelayFlags.default_flags payload.
Definition broadcast (now origin_node : Z) (payload : list Z) : t :=
  mk (MessageId.new now) 0 DEFAULT_MAX_HOPS origin_node (RelayFlags.mk false true) payload.
Definition with_max_hops (self : t) (max_hops : Z) : t :=
  mk (message_id self) (hop_count self) max_hops (origin_node self) (flags self) (payload self).
Definition can_relay (self : t) : bool := hop_count self <? max_hops self.
Definition remaining_hops (self : t) : Z := saturating_sub (max_hops self) (hop_count self).
Definition relay (self : t) : outcome (option t) :=
  if negb (can_relay self) then Ok None
  else
    let! hop_count := add_u 8 (hop_count self) 1 in
    Ok (Some (mk (message_id self) hop_count (max_hops self) (origin_node self) (flags self)
                (payload self))).

Definition encode (self : t) : list Z :=
  [RELAY_ENVELOPE_MARKER] ++ [RelayFlags.to_byte (flags self)] ++ le 16 (message_id self)
  ++ [hop_count self] ++ [max_hops self] ++ le 4 (origin_node self)
  ++ le 4 (wrap 32 (zlen (payload self))) ++ payload self.

Definition decode (data : list Z) : outcome t :=
  reject_if zlen data <? 28 ;;
  let! marker := u8_at data 0 in
  reject_if negb (marker =? RELAY_ENVELOPE_MARKER) ;;
  let! flags := u8_at data 1 in
  let! message_id := u_at 16 data 2 in
  let! hop_count := u8_at data 18 in
  let! max_hops := u8_at data 19 in
  let! origin_node := u32_at data 20 in
  let! payload_len := u32_at data 24 in
  reject_if zlen data <? 28 + payload_len ;;
  let! payload := slice data 28 (28 + payload_len) in
  Ok (mk message_id hop_count max_hops origin_node (RelayFlags.from_byte flags) payload).

Definition is_relay_envelope (data : list Z) : bool :=
  match data with [] => false | b :: _ => b =? RELAY_ENVELOPE_MARKER end.

Definition wf (self : t) : Prop :=
  in_u 128 (message_id self) ∧ byte_ok (hop_count self) ∧ byte_ok (max_hops self) ∧
  in_u 32 (origin_node self) ∧ bytes_ok (payload self) ∧ zlen (payload self) < 2 ^ 32.

End RelayEnvelope.

Module SeenEntry.
Record t := mk { first_seen_ms : Z; count : Z; origin : Z }.
End SeenEntry.

Module SeenMessageCache.

Record t := mk { cache : gmap Z SeenEntry.t; ttl_ms : Z; last_cleanup_ms : Z }.

Definition new : t := mk ∅ DEFAULT_SEEN_TTL_MS 0.
Definition with_ttl (ttl_ms : Z) : t := mk ∅ ttl_ms 0.
Definition has_seen (self : t) (message_id : Z) : bool :=
  bool_decide (is_Some (cache self !! message_id)).

Definition older (a b : Z * SeenEntry.t) : Prop :=
  SeenEntry.first_seen_ms a.2 ≤ SeenEntry.first_seen_ms b.2.
#[global] Instance older_dec : RelDecision older.
Proof. unfold older. solve_decision. Defined.

Section ops.
Context `{!MapOrder Z}.

Definition cleanup (self : t) (now_ms : Z) : t :=
  let live := filter (λ e : Z * SeenEntry.t,
      saturating_sub now_ms (SeenEntry.first_seen_ms e.2) < ttl_ms self) (cache self) in
  let live :=
    if MAX_CACHE_SIZE <? Z.of_nat (size live) then
      let entries := merge_sort older (map_iter live) in
      let to_remove := (ztake (Z.of_nat (size live) - MAX_CACHE_SIZE / 2) entries).*1 in
      foldl (λ m id, delete id m) live to_remove
    else live in
  mk live (ttl_ms self) now_ms.

Definition mark_seen (self : t) (message_id origin now_ms : Z) : outcome (t * bool) :=
  let self :=
    if ttl_ms self / 2 <? saturating_sub now_ms (last_cleanup_ms self)
    then cleanup self now_ms else self in
  match cache self !! message_id with
  | Some entry =>
      let! count := add_u 32 (SeenEntry.count entry) 1 in
      let entry := SeenEntry.mk (SeenEntry.first_seen_ms entry) count (SeenEntry.origin entry) in
      Ok (mk (<[message_id := entry]> (cache self)) (ttl_ms self) (last_cleanup_ms self), false)
  | None =>
      Ok (mk (<[message_id := SeenEntry.mk now_ms 1 origin]> (cache self)) (ttl_ms self)
            (last_cleanup_ms self), true)
  end.
Definition check_and_mark (self : t) (message_id origin now_ms : Z) : outcome (t * bool) :=
  mark_seen self message_id origin now_ms.
End ops.

Definition len (self : t) : Z := Z.of_nat (size (cache self)).
Definition is_empty (self : t) : bool := Nat.eqb (size (cache self)) 0.
Definition clear (self : t) : t := mk ∅ (ttl_ms self) (last_cleanup_ms self).
Definition get_stats (self : t) (message_id : Z) : option (Z * Z * Z) :=
  (λ e, (SeenEntry.first_seen_ms e, SeenEntry.count e, SeenEntry.origin e))
    <$> cache self !! message_id.

End SeenMessageCache.

(** The part of [PeatMesh] that relays. *)
Module MeshRelay.

Module Decision.
Record t := mk {
  payload : list Z; origin_node : Z; hop_count : Z; should_relay : bool;
  relay_envelope : option RelayEnvelope.t
}.
Definition relay_data (self : t) : option (list Z) :=
  RelayEnvelope.encode <$> relay_envelope self.
End Decision.

(** The events the handler notifies. *)
Inductive event :=
| DuplicateMessageDropped (origin_node seen_count : Z)
| MessageTtlExpired (origin_node hop_count : Z).

Record t := mk {
  node_id : Z; enable_relay : bool; max_relay_hops : Z;
  seen_cache : SeenMessageCache.t; connection_graph : ConnectionStateGraph.t
}.

Definition set_cache (self : t) (c : SeenMessageCache.t) : t :=
  mk (node_id self) (enable_relay self) (max_relay_hops self) c (connection_graph self).
Definition set_graph (self : t) (g : ConnectionStateGraph.t) : t :=
  mk (node_id self) (enable_relay self) (max_relay_hops self) (seen_cache self) g.
Definition set_relay (self : t) (b : bool) : t :=
  mk (node_id self) b (max_relay_hops self) (seen_cache self) (connection_graph self).

Definition is_relay_enabled (self : t) : bool := enable_relay self.
Definition has_seen_message (self : t) (message_id : Z) : bool :=
  SeenMessageCache.has_seen (seen_cache self) message_id.
Definition seen_cache_size (self : t) : Z := SeenMessageCache.len (seen_cache self).
Definition clear_seen_cache (self : t) : t := set_cache self (SeenMessageCache.clear (seen_cache self)).

Definition wrap_for_relay (self : t) (now : Z) (payload : list Z) : list Z :=
  RelayEnvelope.encode
    (RelayEnvelope.with_max_hops (RelayEnvelope.broadcast now (node_id self) payload)
       (max_relay_hops self)).

(** [connected] are the connected peers of the peer manager. *)
Definition get_relay_targets {A} `{!GossipStrategy A} (gossip_strategy : A) (clock : Z → Z)
    (connected : list PeatPeer.t) (exclude_peer : option Z) : outcome (list PeatPeer.t) :=
  let filtered :=
    match exclude_peer with
    | Some exclude => filter (λ p, PeatPeer.node_id p ≠ exclude) connected
    | None => connected
    end in
  select_peers gossip_strategy clock filtered.

Section handler.
Context `{!MapOrder Z}.

Definition mark_message_seen (self : t) (message_id origin now_ms : Z) : outcome (t * bool) :=
  let! r := SeenMessageCache.check_and_mark (seen_cache self) message_id origin now_ms in
  Ok (set_cache self r.1, r.2).

Definition process_relay_envelope (self : t) (data : list Z) (source_peer now_ms : Z)
    : outcome (t * list event * option Decision.t) :=
  let! decoded := opt (RelayEnvelope.decode data) in
  match decoded with
  | None => Ok (self, [], None)
  | Some envelope =>
      let! graph :=
        if negb (RelayEnvelope.origin_node envelope =? source_peer)
           && negb (RelayEnvelope.origin_node envelope =? node_id self)
        then
          let! r := ConnectionStateGraph.on_relay_received (connection_graph self) source_peer
                      (RelayEnvelope.origin_node envelope) (RelayEnvelope.hop_count envelope)
                      now_ms in
          Ok r.1
        else Ok (connection_graph self) in
      let self := set_graph self graph in
      let! r := mark_message_seen self (RelayEnvelope.message_id envelope)
                  (RelayEnvelope.origin_node envelope) now_ms in
      let '(self, is_new) := r in
      if negb is_new then
        let seen_count :=
          match SeenMessageCache.get_stats (seen_cache self) (RelayEnvelope.message_id envelope) with
          | Some (_, count, _) => count | None => 1 end in
        Ok (self, [DuplicateMessageDropped (RelayEnvelope.origin_node envelope) seen_count], None)
      else if negb (RelayEnvelope.can_relay envelope) then
        Ok (self,
            [MessageTtlExpired (RelayEnvelope.origin_node envelope)
               (RelayEnvelope.hop_count envelope)],
            Some (Decision.mk (RelayEnvelope.payload envelope) (RelayEnvelope.origin_node envelope)
                    (RelayEnvelope.hop_count envelope) false None))
      else
        let should_relay := enable_relay self in
        let! relay_envelope := if should_relay then RelayEnvelope.relay envelope else Ok None in
        Ok (self, [],
            Some (Decision.mk (RelayEnvelope.payload envelope) (RelayEnvelope.origin_node envelope)
                    (RelayEnvelope.hop_count envelope) should_relay relay_envelope))
  end.
End handler.

End MeshRelay.

(** * Theorems *)

Module EnvelopeProofs.
Import RelayEnvelope.

Lemma relay_flags_byte f : byte_ok (RelayFlags.to_byte f).
Proof. by destruct f as [[] []]. Qed.
Lemma relay_flags_roundtrip f : RelayFlags.from_byte (RelayFlags.to_byte f) = f.
Proof. by destruct f as [[] []]. Qed.

Lemma envelope_encode_bytes e : wf e → bytes_ok (encode e).
Proof.
  intros (_ & ? & ? & _ & ? & _). pose proof (relay_flags_byte (flags e)).
  unfold encode, RELAY_ENVELOPE_MARKER. repeat apply bytes_app; auto with bytes.
Qed.
Lemma envelope_decode_encode e rest : wf e → decode (encode e ++ rest) = Ok e.
Proof.
  intros (Hid & Hh & Hm & Ho & _ & Hp). pose proof (relay_flags_byte (flags e)).
  unfold decode, encode, RELAY_ENVELOPE_MARKER. rewrite wrap_small by lia.
  rewrite <-!app_assoc. cbn [app]. rd. rewrite relay_flags_roundtrip. by destruct e.
Qed.
Lemma envelope_decode_wp data : bytes_ok data → wp (decode data) wf.
Proof.
  intros Hb. unfold decode. wp_steps. unfold wf. cbn. split_and!; try done; lia.
Qed.

#[global] Instance envelope_codec : WireCodec encode decode wf.
Proof.
  split; [apply envelope_encode_bytes| |apply envelope_decode_wp].
  intros e Hwf. rewrite <-(app_nil_r (encode e)). by apply envelope_decode_encode.
Qed.

Lemma relay_spec e :
  byte_ok (max_hops e) →
  relay e = Ok (if can_relay e
    then Some (mk (message_id e) (hop_count e + 1) (max_hops e) (origin_node e) (flags e)
                 (payload e))
    else None).
Proof.
  intros Hm. unfold relay. destruct (can_relay e) eqn:E; [|done]. unfold can_relay in E. cbn.
  by rewrite add_u_ok by lia.
Qed.
End EnvelopeProofs.

Module SeenProofs.
Import SeenMessageCache.

Section seen.
Context `{!MapOrder Z}.

(** A list of offered messages: identifier, origin, time. *)
Fixpoint offer (self : t) (ms : list (Z * Z * Z)) : outcome (t * list bool) :=
  match ms with
  | [] => Ok (self, [])
  | (id, origin, now) :: ms =>
      let! r := check_and_mark self id origin now in
      let! rs := offer r.1 ms in
      Ok (rs.1, r.2 :: rs.2)
  end.

(** The contract, [h] holding when each identifier was last accepted: a
    message never accepted is new; within the time to live it is a
    duplicate; half a time to live after that it is new again. *)
Fixpoint dedup_spec (ttl : Z) (h : gmap Z Z) (ms : list (Z * Z * Z)) (bs : list bool) : Prop :=
  match ms, bs with
  | [], [] => True
  | (id, _, now) :: ms, b :: bs =>
      (∀ t, h !! id = Some t → now - t < ttl → b = false) ∧
      ((∀ t, h !! id = Some t → t + ttl + ttl / 2 < now) → b = true) ∧
      dedup_spec ttl (if b : bool then <[id := now]> h else h) ms bs
  | _, _ => False
  end.

Definition cache_inv (self : t) (h : gmap Z Z) (now n : Z) : Prop :=
  (∀ id e, cache self !! id = Some e →
    h !! id = Some (SeenEntry.first_seen_ms e) ∧ 1 ≤ SeenEntry.count e ≤ n ∧
    (last_cleanup_ms self ≤ SeenEntry.first_seen_ms e ∨
     last_cleanup_ms self - SeenEntry.first_seen_ms e < ttl_ms self)) ∧
  (∀ id t, h !! id = Some t →
    t ≤ now ∧ (now - t < ttl_ms self → is_Some (cache self !! id))) ∧
  Z.of_nat (size (cache self)) ≤ n ∧ 0 ≤ last_cleanup_ms self ≤ now.

Lemma filter_size_le (P : Z * SeenEntry.t → Prop) `{!∀ e, Decision (P e)} (m : gmap Z SeenEntry.t) :
  (size (filter P m) ≤ size m)%nat.
Proof. apply map_subseteq_size, map_filter_subseteq. Qed.

Lemma cleanup_inv self h now n now' :
  cache_inv self h now n → now ≤ now' → n ≤ MAX_CACHE_SIZE → 0 ≤ now →
  cache_inv (cleanup self now') h now' n ∧ last_cleanup_ms (cleanup self now') = now' ∧
  ttl_ms (cleanup self now') = ttl_ms self.
Proof.
  intros (He & Hh & Hs & Hc) Hle Hn H0. unfold cleanup.
  set (live := filter _ _).
  assert (Z.of_nat (size live) ≤ n) as Hlive.
  { pose proof (filter_size_le (λ e : Z * SeenEntry.t, saturating_sub now'
      (SeenEntry.first_seen_ms e.2) < ttl_ms self) (cache self)). unfold live. lia. }
  rewrite (proj2 (Z.ltb_ge _ _)) by lia. cbn [cache ttl_ms last_cleanup_ms].
  split; [|done]. split_and!; cbn [cache ttl_ms last_cleanup_ms]; [| |done|lia|lia].
  - intros id e Hid. apply map_lookup_filter_Some in Hid as [Hid Hlt]. cbn in Hlt.
    destruct (He id e Hid) as (?&?&_). split_and!; try done; try lia.
    right. unfold saturating_sub in Hlt. lia.
  - intros id t Ht. destruct (Hh id t Ht) as [Hle' Hin]. split; [lia|]. intros Hlt.
    destruct Hin as [e Hid]; [lia|]. exists e. apply map_lookup_filter_Some. split; [done|].
    cbn. destruct (He id e Hid) as (Ht' & _). rewrite Ht in Ht'. injection Ht' as <-.
    unfold saturating_sub. lia.
Qed.

Lemma cache_inv_later self h now n now' :
  cache_inv self h now n → now ≤ now' → cache_inv self h now' n.
Proof.
  intros (He & Hh & Hs & Hc) Hle. split_and!; try done; [|lia|lia].
  intros id t Ht. destruct (Hh id t Ht) as [? Hin]. split; [lia|]. intros. apply Hin. lia.
Qed.

Lemma mark_inv self h now n id origin now' :
  cache_inv self h now n → now ≤ now' → n < MAX_CACHE_SIZE → 0 ≤ now → 0 ≤ ttl_ms self →
  ∃ self' b, check_and_mark self id origin now' = Ok (self', b) ∧
    ttl_ms self' = ttl_ms self ∧
    cache_inv self' (if b : bool then <[id := now']> h else h) now' (n + 1) ∧
    (∀ t, h !! id = Some t → now' - t < ttl_ms self → b = false) ∧
    ((∀ t, h !! id = Some t → t + ttl_ms self + ttl_ms self / 2 < now') → b = true).
Proof.
  intros Hinv Hle Hn H0 Httl. pose proof (Z.div_pos (ttl_ms self) 2 Httl ltac:(lia)).
  unfold check_and_mark, mark_seen.
  match goal with |- context [cache ?c !! id] => set (self1 := c) end.
  assert (cache_inv self1 h now' n ∧ ttl_ms self1 = ttl_ms self ∧
    now' ≤ last_cleanup_ms self1 + ttl_ms self / 2) as (Hinv1 & Httl1 & Hrecent).
  { unfold self1. destruct (_ <? _) eqn:E.
    - destruct (cleanup_inv self h now n now') as (? & Hc & ?); [done|lia|lia|lia|].
      split_and!; try done. rewrite Hc. lia.
    - split_and!; [by eapply cache_inv_later|done|unfold saturating_sub in E; lia]. }
  clearbody self1. destruct Hinv1 as (He & Hh & Hs & Hc).
  destruct (cache self1 !! id) as [e|] eqn:E.
  - destruct (He id e E) as (Hht & Hcount & Hclean).
    rewrite add_u_ok by (unfold MAX_CACHE_SIZE in *; lia). cbn [obind].
    eexists _, false. split; [done|]. split; [done|]. split; [split_and!|split]; cbn.
    + intros id' e'. destruct (decide (id = id')) as [<-|].
      * rewrite lookup_insert_eq. intros [= <-]. cbn. split_and!; [done|lia..].
      * rewrite lookup_insert_ne by done. intros Hid'. destruct (He id' e' Hid') as (?&?&?).
        split_and!; try done; lia.
    + intros id' t Ht. destruct (Hh id' t Ht) as [? Hin]. split; [done|]. intros Hlt.
      destruct (decide (id = id')) as [<-|]; [by rewrite lookup_insert_eq|].
      rewrite lookup_insert_ne by done. by apply Hin.
    + rewrite map_size_insert_Some by eauto. lia.
    + lia.
    + lia.
    + done.
    + intros Hold. specialize (Hold _ Hht). lia.
  - eexists _, true. split; [done|]. split; [done|]. split; [split_and!|split]; cbn.
    + intros id' e'. destruct (decide (id = id')) as [<-|].
      * rewrite !lookup_insert_eq. intros [= <-]. cbn. split_and!; [done|lia..].
      * rewrite !lookup_insert_ne by done. intros Hid'. destruct (He id' e' Hid') as (?&?&?).
        split_and!; try done; lia.
    + intros id' t. destruct (decide (id = id')) as [<-|].
      * rewrite !lookup_insert_eq. intros [= <-]. split; [lia|eauto].
      * rewrite !lookup_insert_ne by done. apply Hh.
    + pose proof (map_size_insert_le id (SeenEntry.mk now' 1 origin) (cache self1)). lia.
    + lia.
    + lia.
    + intros t Ht Hlt. destruct (Hh id t Ht) as [_ Hin]. rewrite <-Httl1 in Hlt.
      destruct (Hin Hlt). congruence.
    + done.
Qed.

(** Times that never go back. *)
Definition times_ok (now : Z) (ms : list (Z * Z * Z)) : Prop :=
  0 ≤ now ∧ StronglySorted Z.le (now :: ms.*2).

Lemma offer_refines ms : ∀ self h now n,
  cache_inv self h now n → times_ok now ms → n + zlen ms ≤ MAX_CACHE_SIZE → 0 ≤ ttl_ms self →
  ∃ self' bs, offer self ms = Ok (self', bs) ∧ dedup_spec (ttl_ms self) h ms bs.
Proof.
  induction ms as [|[[id o] now'] ms IH]; intros self h now n Hinv [H0 Hs] Hn Httl.
  { by exists self, []. }
  cbn [offer]. apply StronglySorted_inv in Hs as [Hs Hall]. rewrite fmap_cons in Hs, Hall.
  apply Forall_cons in Hall as [Hle _]. cbn [snd] in *.
  assert (zlen ((id, o, now') :: ms) = 1 + zlen ms) as Hl by len. rewrite Hl in Hn.
  destruct (mark_inv self h now n id o now' Hinv Hle ltac:(lia) H0 Httl)
    as (self1 & b & -> & Httl1 & Hinv1 & Hdup & Hnew). cbn [obind fst snd].
  destruct (IH self1 _ now' (n + 1) Hinv1) as (self2 & bs & -> & Hspec);
    [split; [lia|done]|lia|lia|].
  cbn [obind fst snd]. exists self2, (b :: bs). split; [done|]. cbn. rewrite <-Httl1 in *. done.
Qed.

Lemma spec_dup ttl ms : ∀ h bs j id o t t0,
  dedup_spec ttl h ms bs → StronglySorted Z.le (t0 :: ms.*2) → h !! id = Some t0 →
  ms !! j = Some (id, o, t) → t - t0 < ttl → bs !! j = Some false.
Proof.
  induction ms as [|[[id' o'] now'] ms IH]; intros h [|b bs] j id o t t0 Hs Hst Hh Hj Hlt; try done.
  destruct Hs as (Hdup & _ & Hs). rewrite fmap_cons in Hst. cbn [snd] in Hst.
  apply StronglySorted_inv in Hst as [Hst Hall]. apply Forall_cons in Hall as [Hle Hall].
  destruct j as [|j]; cbn in Hj |- *.
  - injection Hj as -> -> ->. f_equal. by eapply Hdup.
  - apply StronglySorted_inv in Hst as Hst'. destruct Hst' as [Hst' _].
    destruct b; [|by eapply (IH _ _ _ _ _ _ t0 Hs); [constructor|..]].
    destruct (decide (id' = id)) as [->|].
    + eapply (IH _ _ _ _ _ _ now' Hs Hst); [by rewrite lookup_insert_eq|done|lia].
    + eapply (IH _ _ _ _ _ _ t0 Hs); [by constructor|by rewrite lookup_insert_ne|done|done].
Qed.
Lemma spec_dup_index ttl ms : ∀ h bs i j id o o' ti tj now,
  dedup_spec ttl h ms bs → StronglySorted Z.le (now :: ms.*2) → (i < j)%nat →
  ms !! i = Some (id, o, ti) → ms !! j = Some (id, o', tj) → bs !! i = Some true →
  tj - ti < ttl → bs !! j = Some false.
Proof.
  induction ms as [|[[id0 o0] now0] ms IH]; intros h [|b bs] i j id o o' ti tj now Hs Hst Hij Hi Hj Hb Hlt;
    try done.
  destruct Hs as (_ & _ & Hs). apply StronglySorted_inv in Hst as [Hst _].
  rewrite fmap_cons in Hst. cbn [snd] in Hst.
  destruct j as [|j]; [lia|]. cbn in Hj |- *. destruct i as [|i]; cbn in Hi, Hb.
  - injection Hi as -> -> ->. injection Hb as ->.
    by eapply (spec_dup _ _ _ _ _ _ _ _ ti Hs Hst); [rewrite lookup_insert_eq|..].
  - by eapply (IH _ _ i j _ _ _ _ _ now0 Hs Hst); [lia|..].
Qed.
Lemma spec_new ttl ms : ∀ h bs j id o t,
  dedup_spec ttl h ms bs → ms !! j = Some (id, o, t) →
  (∀ t0, h !! id = Some t0 → t0 + ttl + ttl / 2 < t) →
  (∀ i o' t', (i < j)%nat → ms !! i = Some (id, o', t') → t' + ttl + ttl / 2 < t) →
  bs !! j = Some true.
Proof.
  induction ms as [|[[id0 o0] now0] ms IH]; intros h [|b bs] j id o t Hs Hj Hh Hall; try done.
  destruct Hs as (_ & Hnew & Hs). destruct j as [|j]; cbn in Hj |- *.
  - injection Hj as -> -> ->. f_equal. by apply Hnew.
  - eapply (IH _ _ _ _ _ _ Hs Hj).
    + intros t0. destruct b; [|apply Hh]. destruct (decide (id0 = id)) as [->|].
      * rewrite lookup_insert_eq. intros [= <-]. by apply (Hall 0%nat o0); [lia|].
      * rewrite lookup_insert_ne by done. apply Hh.
    + intros i o' t' Hi Hms. apply (Hall (S i) o'); [lia|done].
Qed.
End seen.
End SeenProofs.

Module RelayProofs.
Import MeshRelay.

Section relay.
Context `{!MapOrder Z}.

(** The copy of [e] that is passed on. *)
Definition hop (e : RelayEnvelope.t) : RelayEnvelope.t :=
  RelayEnvelope.mk (RelayEnvelope.message_id e) (RelayEnvelope.hop_count e + 1)
    (RelayEnvelope.max_hops e) (RelayEnvelope.origin_node e) (RelayEnvelope.flags e)
    (RelayEnvelope.payload e).

(** The answer to an envelope that is new, or not. *)
Definition answer (self : t) (e : RelayEnvelope.t) (is_new : bool) (count : Z)
    : list event * option Decision.t :=
  if is_new then
    let d := Decision.mk (RelayEnvelope.payload e) (RelayEnvelope.origin_node e)
               (RelayEnvelope.hop_count e) in
    if RelayEnvelope.can_relay e
    then ([], Some (d (enable_relay self) (if enable_relay self then Some (hop e) else None)))
    else ([MessageTtlExpired (RelayEnvelope.origin_node e) (RelayEnvelope.hop_count e)],
          Some (d false None))
  else ([DuplicateMessageDropped (RelayEnvelope.origin_node e) count], None).

(** The graph after a message of [e] came from [source]. *)
Definition learn (self : t) (e : RelayEnvelope.t) (source now : Z)
    : outcome ConnectionStateGraph.t :=
  if bool_decide (RelayEnvelope.origin_node e = source ∨ RelayEnvelope.origin_node e = node_id self)
  then Ok (connection_graph self)
  else let! r := ConnectionStateGraph.on_relay_received (connection_graph self) source
                   (RelayEnvelope.origin_node e) (RelayEnvelope.hop_count e) now in
       Ok r.1.

Lemma process_spec self data source now e :
  RelayEnvelope.decode data = Ok e → byte_ok (RelayEnvelope.max_hops e) →
  process_relay_envelope self data source now
  = let! g := learn self e source now in
    let! r := SeenMessageCache.check_and_mark (seen_cache self) (RelayEnvelope.message_id e)
                (RelayEnvelope.origin_node e) now in
    let count := from_option (λ st, st.1.2) 1
                   (SeenMessageCache.get_stats r.1 (RelayEnvelope.message_id e)) in
    let '(evs, d) := answer self e r.2 count in
    Ok (set_cache (set_graph self g) r.1, evs, d).
Proof.
  intros He Hm. unfold process_relay_envelope, mark_message_seen, learn. rewrite He. cbn [opt obind].
  assert (negb (RelayEnvelope.origin_node e =? source)
          && negb (RelayEnvelope.origin_node e =? node_id self)
    = negb (bool_decide (RelayEnvelope.origin_node e = source
                         ∨ RelayEnvelope.origin_node e = node_id self))) as ->.
  { case_bool_decide as Hor; destruct (_ =? source) eqn:E1, (_ =? node_id self) eqn:E2; cbn; lia. }
  destruct (bool_decide _); cbn [negb].
  2: destruct (ConnectionStateGraph.on_relay_received _ _ _ _ _) as [r| |]; cbn [obind]; try done.
  all: cbn [obind set_graph seen_cache];
    destruct (SeenMessageCache.check_and_mark _ _ _ _) as [[c []]| |]; cbn [obind fst snd negb];
    try done; unfold answer; cbn [set_cache seen_cache enable_relay].
  all: try (by destruct (SeenMessageCache.get_stats _ _) as [[[? ?] ?]|]).
  all: rewrite EnvelopeProofs.relay_spec by done;
    destruct (RelayEnvelope.can_relay e); cbn [negb set_graph enable_relay];
    [by destruct (enable_relay self)|done].
Qed.

Lemma process_relay_copy self self' data source now evs d e' :
  bytes_ok data → process_relay_envelope self data source now = Ok (self', evs, Some d) →
  Decision.relay_envelope d = Some e' →
  ∃ e, RelayEnvelope.decode data = Ok e ∧ RelayEnvelope.wf e ∧
       RelayEnvelope.hop_count e < RelayEnvelope.max_hops e ∧ e' = hop e.
Proof.
  intros Hb Hp Hd. pose proof (EnvelopeProofs.envelope_decode_wp data Hb) as Hwp.
  destruct (RelayEnvelope.decode data) as [e| |] eqn:He.
  2: { unfold process_relay_envelope in Hp. rewrite He in Hp. done. }
  2: done.
  cbn in Hwp. exists e. rewrite (process_spec _ _ _ _ e He) in Hp by apply Hwp.
  destruct (learn _ _ _ _); cbn [obind] in Hp; try done.
  destruct (SeenMessageCache.check_and_mark _ _ _ _) as [[c b]| |]; cbn [obind fst snd] in Hp; try done.
  unfold answer in Hp. destruct b; [|done].
  destruct (RelayEnvelope.can_relay e) eqn:Ec; injection Hp as _ _ <-; cbn in Hd; [|done].
  destruct (enable_relay self); [|done]. injection Hd as <-.
  unfold RelayEnvelope.can_relay in Ec. split_and!; try done. lia.
Qed.
Lemma hop_wf e :
  RelayEnvelope.wf e → RelayEnvelope.hop_count e < RelayEnvelope.max_hops e →
  RelayEnvelope.wf (hop e).
Proof. intros (?&?&?&?&?&?) ?. unfold RelayEnvelope.wf, hop. cbn. split_and!; try done; lia. Qed.

(** ** The mesh as a transition system *)

Section flood.
Context {A : Type} `{!GossipStrategy A} (limit : A → Z) (ok : A → list PeatPeer.t → Prop).
Context `{!GossipLaws A limit ok} (strategy : A).

(** The nodes, and the messages on their way: receiver, sender, bytes. *)
Record mesh := mk_mesh { node : Z → t; wire : list (Z * Z * list Z) }.

Definition copies (dst : Z) (d : option Decision.t) (targets : list PeatPeer.t)
    : list (Z * Z * list Z) :=
  match d with
  | Some d =>
      match Decision.relay_data d with
      | Some bytes => map (λ p, (PeatPeer.node_id p, dst, bytes)) targets
      | None => []
      end
  | None => []
  end.

(** One message, any of those on their way, is handled at its receiver; the
    copy to relay, if any, is sent to the targets the strategy picks among
    the receiver's peers. *)
Inductive deliver : mesh → mesh → Prop :=
| deliver_one s l1 dst src data l2 now self' evs d clock peers targets :
    wire s = l1 ++ (dst, src, data) :: l2 →
    process_relay_envelope (node s dst) data src now = Ok (self', evs, d) →
    ok strategy (filter (λ p, PeatPeer.node_id p ≠ src) peers) →
    get_relay_targets strategy clock peers (Some src) = Ok targets →
    deliver s (mk_mesh (λ n, if n =? dst then self' else node s n)
                 (l1 ++ l2 ++ copies dst d targets)).

(** How many deliveries a message with [r] hops left can cause. *)
Fixpoint weight (fanout : Z) (r : nat) : Z :=
  match r with O => 1 | S r => 1 + fanout * weight fanout r end.
Definition cost (bytes : list Z) : Z :=
  match RelayEnvelope.decode bytes with
  | Ok e => weight (limit strategy) (Z.to_nat (RelayEnvelope.remaining_hops e))
  | _ => 1
  end.
Definition budget (s : mesh) : Z := zsum (map (λ m, cost m.2) (wire s)).
Definition wire_ok (s : mesh) : Prop := Forall (λ m, bytes_ok m.2) (wire s).

Lemma weight_pos r : 0 ≤ limit strategy → 1 ≤ weight (limit strategy) r.
Proof. intros Hl. induction r as [|r IH]; cbn; [lia|nia]. Qed.
Lemma cost_pos bytes : 0 ≤ limit strategy → 1 ≤ cost bytes.
Proof.
  intros Hl. unfold cost. destruct (RelayEnvelope.decode bytes); [by apply weight_pos|lia..].
Qed.

(** Delivering a message costs more than what it causes. *)
Lemma copies_cost self self' data src dst now evs d targets :
  0 ≤ limit strategy → zlen targets ≤ limit strategy → bytes_ok data →
  process_relay_envelope self data src now = Ok (self', evs, d) →
  1 + zsum (map (λ m, cost m.2) (copies dst d targets)) ≤ cost data ∧
  Forall (λ m, bytes_ok m.2) (copies dst d targets).
Proof.
  intros Hl Ht Hb Hp. pose proof (cost_pos data Hl).
  destruct d as [d|]; cbn [copies]; [|cbn; split; [lia|done]].
  unfold Decision.relay_data. destruct (Decision.relay_envelope d) as [e'|] eqn:Ed;
    cbn [fmap option_fmap option_map]; [|cbn; split; [lia|done]].
  destruct (process_relay_copy _ _ _ _ _ _ _ _ Hb Hp Ed) as (e & He & Hwf & Hlt & ->).
  pose proof (hop_wf e Hwf Hlt) as Hwf'. pose proof Hwf as (_ & ? & ? & _).
  split.
  - rewrite map_map. cbn [snd].
    assert (cost (RelayEnvelope.encode (hop e))
      = weight (limit strategy) (Z.to_nat (RelayEnvelope.remaining_hops (hop e)))) as Hc.
    { unfold cost. by rewrite (wire_roundtrip (dec := RelayEnvelope.decode)) by done. }
    rewrite Hc. unfold cost. rewrite He.
    assert (Z.to_nat (RelayEnvelope.remaining_hops e)
      = S (Z.to_nat (RelayEnvelope.remaining_hops (hop e)))) as ->.
    { unfold RelayEnvelope.remaining_hops, saturating_sub, hop. cbn. lia. }
    cbn [weight]. rewrite map_const.
    assert (∀ n x, zsum (replicate n x) = Z.of_nat n * x) as Hrep.
    { clear. induction n as [|n IH]; intros x; [done|]. cbn [replicate zsum]. rewrite IH. lia. }
    rewrite Hrep. pose proof (weight_pos (Z.to_nat (RelayEnvelope.remaining_hops (hop e))) Hl). nia.
  - apply Forall_map, Forall_true. intros p. cbn [snd]. by apply EnvelopeProofs.envelope_encode_bytes.
Qed.

Lemma deliver_cost s s' :
  0 ≤ limit strategy → wire_ok s → deliver s s' → wire_ok s' ∧ 1 + budget s' ≤ budget s.
Proof.
  intros Hl Hw Hstep. destruct Hstep as [s l1 dst src data l2 now self' evs d clock peers targets
    Hwire Hp Hok Hsel].
  unfold wire_ok, budget in *. cbn [wire]. rewrite Hwire in *.
  apply Forall_app in Hw as [Hw1 Hw2]. apply Forall_cons in Hw2 as [Hb Hw2]. cbn [snd] in Hb.
  assert (zlen targets ≤ limit strategy) as Ht.
  { unfold get_relay_targets in Hsel.
    destruct (select_laws strategy clock _ Hok) as (sel & Hs & _ & Hlen & _). congruence. }
  destruct (copies_cost _ _ _ _ dst _ _ _ _ Hl Ht Hb Hp) as [Hc Hcb].
  split; [by rewrite !Forall_app|]. rewrite !map_app, map_cons, !zsum_app. cbn [zsum snd]. lia.
Qed.

Lemma deliver_steps n s s' :
  0 ≤ limit strategy → wire_ok s → nsteps deliver n s s' →
  Z.of_nat n + budget s' ≤ budget s.
Proof.
  intros Hl Hw Hn. revert Hw. induction Hn as [s|n s s1 s2 Hstep _ IH]; intros Hw; [lia|].
  destruct (deliver_cost s s1 Hl Hw Hstep) as [Hw1 Hc]. specialize (IH Hw1). lia.
Qed.
Lemma budget_nonneg s : 0 ≤ limit strategy → 0 ≤ budget s.
Proof.
  intros Hl. apply zsum_nonneg, Forall_map, Forall_true. intros m. pose proof (cost_pos m.2 Hl). lia.
Qed.
End flood.
(** ** One node over time *)

(** A list of received envelopes: what came, from which peer, when. *)
Fixpoint handle_all (self : t) (rs : list (RelayEnvelope.t * Z * Z))
    : outcome (t * list (option Decision.t)) :=
  match rs with
  | [] => Ok (self, [])
  | (e, source, now) :: rs =>
      let! r := process_relay_envelope self (RelayEnvelope.encode e) source now in
      let! rest := handle_all r.1.1 rs in
      Ok (rest.1, r.2 :: rest.2)
  end.
Definition offered (rs : list (RelayEnvelope.t * Z * Z)) : list (Z * Z * Z) :=
  map (λ '(e, _, now), (RelayEnvelope.message_id e, RelayEnvelope.origin_node e, now)) rs.

Lemma learn_ok self e source now n :
  0 ≤ n → n + 1 < 2 ^ 32 → PeerGraphProofs.graph_ok n 0 (connection_graph self) →
  RelayEnvelope.wf e →
  ∃ g, learn self e source now = Ok g ∧ PeerGraphProofs.graph_ok (n + 1) 0 g.
Proof.
  intros H0 Hn Hg (_ & Hh & _). unfold learn. case_bool_decide.
  - eexists. split; [done|]. by apply (PeerGraphProofs.graph_ok_mono n 0); [lia|..].
  - destruct (PeerGraphProofs.relay_ok n 0 (connection_graph self) ltac:(lia) Hg source
      (RelayEnvelope.origin_node e) (RelayEnvelope.hop_count e) now ltac:(lia)) as (r & -> & Hr).
    by exists r.1.
Qed.

Lemma answer_decision self self' e b k k' :
  enable_relay self = enable_relay self' → (answer self e b k).2 = (answer self' e b k').2.
Proof. intros He. unfold answer. rewrite He. by destruct b, (RelayEnvelope.can_relay e). Qed.

Lemma handle_all_refines rs : ∀ self h now n,
  SeenProofs.cache_inv (seen_cache self) h now n → SeenProofs.times_ok now (offered rs) →
  PeerGraphProofs.graph_ok n 0 (connection_graph self) → 0 ≤ n →
  n + zlen rs ≤ MAX_CACHE_SIZE → 0 ≤ SeenMessageCache.ttl_ms (seen_cache self) →
  Forall (λ r, RelayEnvelope.wf r.1.1) rs →
  ∃ self' bs, handle_all self rs
    = Ok (self', zip_with (λ r b, (answer self r.1.1 b 0).2) rs bs) ∧
    SeenProofs.dedup_spec (SeenMessageCache.ttl_ms (seen_cache self)) h (offered rs) bs.
Proof.
  induction rs as [|[[e source] now'] rs IH]; intros self h now n Hinv [H0 Hs] Hg Hn0 Hn Httl Hwf.
  { by exists self, []. }
  apply Forall_cons in Hwf as [He Hwf]. cbn [fst] in He. cbn [handle_all offered map] in *.
  apply StronglySorted_inv in Hs as [Hs Hall]. rewrite fmap_cons in Hs, Hall.
  apply Forall_cons in Hall as [Hle _]. cbn [snd] in *.
  assert (zlen ((e, source, now') :: rs) = 1 + zlen rs) as Hl by len. rewrite Hl in Hn.
  assert (byte_ok (RelayEnvelope.max_hops e)) as Hm by apply He.
  rewrite (process_spec _ _ _ _ e) by (by rewrite ?(wire_roundtrip (dec := RelayEnvelope.decode))).
  destruct (learn_ok self e source now' n Hn0) as (g & -> & Hg'); [unfold MAX_CACHE_SIZE in *; lia|done..|].
  cbn [obind].
  destruct (SeenProofs.mark_inv (seen_cache self) h now n (RelayEnvelope.message_id e)
    (RelayEnvelope.origin_node e) now' Hinv Hle ltac:(lia) H0 Httl)
    as (c & b & -> & Httl' & Hinv' & Hdup & Hnew). cbn [obind fst snd].
  match goal with |- context [answer self e b ?k] => set (count := k) end.
  destruct (answer self e b count) as [evs d] eqn:Ea. cbn [obind fst snd].
  destruct (IH (set_cache (set_graph self g) c) (if b then <[RelayEnvelope.message_id e := now']> h else h)
    now' (n + 1)) as (self' & bs & -> & Hspec); cbn [seen_cache set_cache set_graph connection_graph];
    [done|split; [lia|done]|done|lia|lia|lia|done|].
  cbn [obind fst snd]. exists self', (b :: bs). split.
  - cbn [zip_with fst]. do 3 f_equal.
    + change d with (evs, d).2. rewrite <-Ea. by apply answer_decision.
  - cbn [SeenProofs.dedup_spec]. cbn [seen_cache set_cache] in Hspec. rewrite Httl' in Hspec. done.
Qed.

Lemma offered_lookup rs i e source now :
  rs !! i = Some (e, source, now) →
  offered rs !! i = Some (RelayEnvelope.message_id e, RelayEnvelope.origin_node e, now).
Proof. intros Hi. unfold offered. by rewrite list_lookup_fmap, Hi. Qed.
Lemma dedup_length ttl h ms bs : SeenProofs.dedup_spec ttl h ms bs → length ms = length bs.
Proof.
  revert h bs. induction ms as [|[[? ?] ?] ms IH]; intros h [|b bs]; try done.
  intros (_ & _ & Hs). cbn. f_equal. by eapply IH.
Qed.

Lemma lcg_bytes_ok n seed : bytes_ok (MessageId.lcg_bytes n seed) ∧ zlen (MessageId.lcg_bytes n seed) = Z.of_nat n.
Proof.
  revert seed. induction n as [|n IH]; intros seed; cbn [MessageId.lcg_bytes]; [split; [auto with bytes|done]|].
  destruct (IH (wrapping_add 64 (wrap 64 (seed * 6364136223846793005)) 1)) as [Hb Hl]. split.
  - apply bytes_cons; [by apply wrap_bound|done].
  - len.
Qed.
Lemma message_id_bound now : in_u 128 (MessageId.new now).
Proof.
  unfold MessageId.new. destruct (lcg_bytes_ok 8 (wrap 64 now)) as [Hb Hl].
  apply (from_le_bound _ 16); [auto with bytes|len].
Qed.
End relay.
End RelayProofs.

#[export] Hint Resolve EnvelopeProofs.envelope_decode_wp : wp.

Module RelayProperties.
Import MeshRelay RelayProofs.

(** Relay envelopes.  A well-formed envelope is read back from its bytes,
    with anything after them; arbitrary bytes are decoded without panic, into
    a well-formed envelope or none. *)
Theorem relay_envelope_codec (e : RelayEnvelope.t) (rest data : list Z) :
  RelayEnvelope.wf e → bytes_ok data →
  RelayEnvelope.decode (RelayEnvelope.encode e ++ rest) = Ok e ∧
  RelayEnvelope.decode data ≠ Panic ∧
  ∀ e', RelayEnvelope.decode data = Ok e' → RelayEnvelope.wf e'.
Proof.
  intros He Hb. pose proof (EnvelopeProofs.envelope_decode_wp data Hb) as Hwp. split_and!.
  - by apply EnvelopeProofs.envelope_decode_encode.
  - by eapply wp_safe.
  - intros e' He'. by eapply wp_elim.
Qed.

Definition sample_envelope (id hops : Z) : RelayEnvelope.t :=
  RelayEnvelope.mk id hops 7 9 (RelayFlags.mk false true) [1; 2; 3].
#[local] Instance envelope_wf_dec e : Decision (RelayEnvelope.wf e).
Proof. unfold RelayEnvelope.wf. apply _. Defined.

Lemma relay_envelope_codec_witness :
  let e := sample_envelope 77 1 in
  let data := ztake 30 (RelayEnvelope.encode e) in
  RelayEnvelope.decode (RelayEnvelope.encode e ++ [5]) = Ok e ∧
  RelayEnvelope.decode data ≠ Panic ∧
  ∀ e', RelayEnvelope.decode data = Ok e' → RelayEnvelope.wf e'.
Proof. intros e data. apply (relay_envelope_codec e [5] data); by_decide. Defined.

(** C19: Loop suppression at a node.  A node that has seen no message yet handles
    any sequence of at most [MAX_CACHE_SIZE] envelopes, in order of time and
    from any peers, without panic, and
    - a copy of a message it accepted less than a time to live ago is
      dropped: it is neither processed nor relayed again;
    - a message with no copy in the last one and a half times to live is
      processed with its own payload and origin, and relayed exactly when
      relaying is enabled and hops are left, one hop further.
    In between it depends on when the cache was last cleaned. *)
Theorem node_relays_once `{!MapOrder Z} (self : t) (rs : list (RelayEnvelope.t * Z * Z)) (ttl : Z) :
  seen_cache self = SeenMessageCache.with_ttl ttl → 0 ≤ ttl →
  (∃ threshold lost, connection_graph self = ConnectionStateGraph.with_config threshold lost) →
  Forall (λ r, RelayEnvelope.wf r.1.1) rs → SeenProofs.times_ok 0 (offered rs) →
  zlen rs ≤ MAX_CACHE_SIZE →
  ∃ self' ds, handle_all self rs = Ok (self', ds) ∧
    (∀ i j ei ej si sj ti tj d, (i < j)%nat →
      rs !! i = Some (ei, si, ti) → rs !! j = Some (ej, sj, tj) →
      RelayEnvelope.message_id ei = RelayEnvelope.message_id ej →
      ds !! i = Some (Some d) → tj - ti < ttl → ds !! j = Some None) ∧
    (∀ j ej sj tj, rs !! j = Some (ej, sj, tj) →
      (∀ i ei si ti, (i < j)%nat → rs !! i = Some (ei, si, ti) →
         RelayEnvelope.message_id ei = RelayEnvelope.message_id ej → ti + ttl + ttl / 2 < tj) →
      ∃ d, ds !! j = Some (Some d) ∧
        Decision.payload d = RelayEnvelope.payload ej ∧
        Decision.origin_node d = RelayEnvelope.origin_node ej ∧
        Decision.relay_envelope d
        = if enable_relay self && (RelayEnvelope.hop_count ej <? RelayEnvelope.max_hops ej)
          then Some (hop ej) else None).
Proof.
  intros Hc Httl (thr & lost & Hg) Hwf Hst Hlen.
  destruct (handle_all_refines rs self ∅ 0 0) as (self' & bs & Hrun & Hspec);
    rewrite ?Hc, ?Hg; cbn [SeenMessageCache.ttl_ms SeenMessageCache.with_ttl];
    [split_and!; cbn; [by intros ??|by intros ??|done|done..]|done
    |split; apply map_Forall_empty|done|done|done|done|].
  rewrite Hc in Hspec. cbn [SeenMessageCache.ttl_ms SeenMessageCache.with_ttl] in Hspec.
  assert (∀ j e s now b, rs !! j = Some (e, s, now) → bs !! j = Some b →
    zip_with (λ r b, (answer self r.1.1 b 0).2) rs bs !! j = Some (answer self e b 0).2) as Hds.
  { intros j e s now b Hj Hb. by rewrite lookup_zip_with, Hj, Hb. }
  eexists self', _. split; [exact Hrun|]. split.
  - intros i j ei ej si sj ti tj d Hij Hi Hj Hid Hd Hlt.
    assert (bs !! i = Some true) as Hbi.
    { rewrite lookup_zip_with, Hi in Hd. destruct (bs !! i) as [[]|]; done. }
    apply offered_lookup in Hi as Hoi. apply offered_lookup in Hj as Hoj. rewrite Hid in Hoi.
    pose proof (SeenProofs.spec_dup_index ttl (offered rs) ∅ bs i j _ _ _ ti tj 0 Hspec (proj2 Hst)
      Hij Hoi Hoj Hbi Hlt) as Hbj.
    by rewrite (Hds j ej sj tj false).
  - intros j ej sj tj Hj Hold. apply offered_lookup in Hj as Hoj.
    assert (bs !! j = Some true) as Hbj.
    { eapply (SeenProofs.spec_new ttl (offered rs) ∅ bs j _ _ tj Hspec Hoj); [done|].
      intros i o' t' Hij Hoi. unfold offered in Hoi.
      apply list_lookup_fmap_Some in Hoi as ([[ei si] ti] & E & Hi). injection E as Hid _ ->.
      by apply (Hold i ei si ti). }
    rewrite (Hds j ej sj tj true) by done. unfold answer, RelayEnvelope.can_relay.
    destruct (_ <? _); (eexists; split; [done|]); cbn; split_and!; try done;
      by destruct (enable_relay self).
Qed.

Definition sample_node : t :=
  mk 1 true 7 (SeenMessageCache.with_ttl 300000) (ConnectionStateGraph.with_config (-80) 30000).

(** The message of node 9 comes from peers 2 and 3; another one follows. *)
Lemma node_relays_once_witness :
  let rs := [(sample_envelope 77 1, 2, 1000); (sample_envelope 77 2, 3, 1500);
             (sample_envelope 78 7, 2, 2000)] in
  ∃ self' ds, handle_all sample_node rs = Ok (self', ds) ∧
    (∀ i j ei ej si sj ti tj d, (i < j)%nat →
      rs !! i = Some (ei, si, ti) → rs !! j = Some (ej, sj, tj) →
      RelayEnvelope.message_id ei = RelayEnvelope.message_id ej →
      ds !! i = Some (Some d) → tj - ti < 300000 → ds !! j = Some None) ∧
    (∀ j ej sj tj, rs !! j = Some (ej, sj, tj) →
      (∀ i ei si ti, (i < j)%nat → rs !! i = Some (ei, si, ti) →
         RelayEnvelope.message_id ei = RelayEnvelope.message_id ej →
         ti + 300000 + 300000 / 2 < tj) →
      ∃ d, ds !! j = Some (Some d) ∧
        Decision.payload d = RelayEnvelope.payload ej ∧
        Decision.origin_node d = RelayEnvelope.origin_node ej ∧
        Decision.relay_envelope d
        = if enable_relay sample_node && (RelayEnvelope.hop_count ej <? RelayEnvelope.max_hops ej)
          then Some (hop ej) else None).
Proof.
  intros rs. apply (node_relays_once sample_node rs 300000).
  - reflexivity.
  - lia.
  - by exists (-80), 30000.
  - repeat constructor; by_decide.
  - split; [lia|]. repeat constructor; cbn; lia.
  - vm_compute. discriminate.
Defined.

(** C20: Flooding ends.  Whatever the topology, the timing, the order of
    delivery and the state of the caches, a document wrapped for relay and
    handed to the peers [ps] causes at most [zlen ps * weight fanout hops]
    deliveries in the whole mesh, where [fanout] bounds the gossip strategy
    and [hops] is the sender's hop limit: 255 per first peer for the default
    fanout of 2 and 7 hops. *)
Theorem flood_bounded `{!MapOrder Z} {A} `{!GossipStrategy A} (limit : A → Z)
    (ok : A → list PeatPeer.t → Prop) `{!GossipLaws A limit ok} (strategy : A)
    (self : t) (clock : Z) (payload : list Z) (ps : list Z) (s s' : mesh) (n : nat) :
  0 ≤ limit strategy → in_u 32 (node_id self) → byte_ok (max_relay_hops self) →
  bytes_ok payload → zlen payload < 2 ^ 32 →
  wire s = map (λ p, (p, node_id self, wrap_for_relay self clock payload)) ps →
  nsteps (deliver ok strategy) n s s' →
  Z.of_nat n ≤ zlen ps * weight (limit strategy) (Z.to_nat (max_relay_hops self)).
Proof.
  intros Hl Hid Hh Hp Hp32 Hw Hn.
  set (e := RelayEnvelope.with_max_hops (RelayEnvelope.broadcast clock (node_id self) payload)
              (max_relay_hops self)).
  assert (RelayEnvelope.wf e) as Hwf.
  { pose proof (message_id_bound clock). unfold RelayEnvelope.wf, e.
    cbn -[MessageId.new]. split_and!; try done; lia. }
  assert (wire_ok s) as Hok.
  { unfold wire_ok. rewrite Hw. apply Forall_map, Forall_true. intros p. cbn [snd].
    by apply EnvelopeProofs.envelope_encode_bytes. }
  pose proof (deliver_steps limit ok strategy n s s' Hl Hok Hn) as Hc.
  pose proof (budget_nonneg limit strategy s' Hl).
  enough (budget limit strategy s
    = zlen ps * weight (limit strategy) (Z.to_nat (max_relay_hops self))) by lia.
  unfold budget. rewrite Hw, map_map. cbn [snd].
  assert (cost limit strategy (wrap_for_relay self clock payload)
    = weight (limit strategy) (Z.to_nat (max_relay_hops self))) as ->.
  { unfold cost, wrap_for_relay. fold e.
    rewrite (wire_roundtrip (dec := RelayEnvelope.decode)) by done.
    unfold e, RelayEnvelope.remaining_hops, saturating_sub. cbn. do 2 f_equal. lia. }
  clear. induction ps as [|p ps IH]; [done|]. cbn [map zsum].
  rewrite IH. assert (zlen (p :: ps) = 1 + zlen ps) as -> by len. lia.
Qed.

(** Node 1 floods to peer 2 with the default strategy; one delivery. *)
Lemma flood_bounded_witness :
  let data := wrap_for_relay sample_node 1705276800000000000 [1; 2; 3] in
  let s := mk_mesh (λ _, sample_node) [(2, 1, data)] in
  ∃ s', nsteps (deliver (λ s _, 1 ≤ RandomFanout.fanout s < 2 ^ 64)
                  RandomFanout.default_strategy) 1 s s' ∧ Z.of_nat 1 ≤ 1 * 255.
Proof.
  intros data s.
  assert (∃ s', deliver (λ s _, 1 ≤ RandomFanout.fanout s < 2 ^ 64)
    RandomFanout.default_strategy s s') as [s' Hstep].
  { destruct (process_relay_envelope sample_node data 1 1000) as [[[self' evs] d]| |] eqn:Hp;
      [|by vm_compute in Hp..].
    eexists. apply (deliver_one _ _ s [] 2 1 data [] 1000 self' evs d (λ _, 0) [] []);
      [done|exact Hp|cbn; lia|done]. }
  assert (nsteps (deliver (λ s _, 1 ≤ RandomFanout.fanout s < 2 ^ 64)
    RandomFanout.default_strategy) 1 s s') as Hn by (by apply nsteps_once).
  exists s'. split; [exact Hn|].
  apply (flood_bounded RandomFanout.fanout (λ s _, 1 ≤ RandomFanout.fanout s < 2 ^ 64)
    RandomFanout.default_strategy sample_node 1705276800000000000 [1; 2; 3] [2] s s' 1);
    try done; try (cbn; lia); by_decide.
Defined.

(** After a burst of 1001 messages the next cleanup forgets 501 of them,
    long before their time: a copy of the first is processed again. *)
Example live_entry_evicted :
  let burst := map (λ i, (Z.of_nat i, 9, 1000)) (seq 0 1001) in
  match SeenProofs.offer (SeenMessageCache.mk ∅ 300000 1000) (burst ++ [(0, 9, 151001)]) with
  | Ok (_, bs) => bs = replicate 1002 true
  | _ => False
  end.
Proof. vm_compute. reflexivity. Qed.

End RelayProperties.
