(* ===== verification/Observer.v ===== *)
(** * Events and observers of src/src/observer.rs.

    An [Arc<dyn PeatObserver>] is the number that stands for its address.
    [calls] is the sequence of [on_event] calls made so far, which is all an
    observer can see of the mesh. *)

From stdpp Require Import base numbers list.
From S2P Require Import Prelude Sensor PeerGraph.
Open Scope Z_scope.
Open Scope peat_scope.

Module SecurityViolationKind.
Inductive t := UnencryptedInStrictMode | DecryptionFailed | ReplayDetected | UnauthorizedNode.
#[global] Instance violation_kind_eq_dec : EqDecision t.
Proof. solve_decision. Defined.
End SecurityViolationKind.

Module PeatEvent.

Inductive t :=
| PeerDiscovered (peer : PeatPeer.t)
| PeerConnected (node_id : Z)
| PeerDisconnected (node_id : Z) (reason : DisconnectReason.t)
| PeerLost (node_id : Z)
| EmergencyReceived (from_node : Z)
| AckReceived (from_node : Z)
| EventReceived (from_node : Z) (event_type : EventType.t)
| DocumentSynced (from_node total_count : Z)
| AppDocumentReceived (type_id source_node timestamp : Z) (changed : bool)
| MeshStateChanged (peer_count connected_count : Z)
| AllPeersAcked (ack_count : Z)
| PeerE2eeEstablished (peer_node_id : Z)
| PeerE2eeClosed (peer_node_id : Z)
| PeerE2eeMessageReceived (from_node : Z) (data : list Z)
| PeerE2eeFailed (peer_node_id : Z) (error : list Z)
| SecurityViolation (kind : SecurityViolationKind.t) (source : option (list Z))
| MessageRelayed (origin_node relay_count hop_count : Z)
| DuplicateMessageDropped (origin_node seen_count : Z)
| MessageTtlExpired (origin_node hop_count : Z).

End PeatEvent.

(** The observer that keeps what it is called with. *)
Module CollectingObserver.
Record t := mk { events : list PeatEvent.t }.
Definition new : t := mk [].
Definition clear (self : t) : t := mk [].
Definition count (self : t) : Z := zlen (events self).
Definition on_event (self : t) (event : PeatEvent.t) : t := mk (events self ++ [event]).
End CollectingObserver.

Module ObserverManager.

Record t := mk { observers : list Z; calls : list (Z * PeatEvent.t) }.

Definition new : t := mk [] [].
Definition add (self : t) (observer : Z) : t := mk (observers self ++ [observer]) (calls self).
Definition remove (self : t) (observer : Z) : t :=
  mk (filter (λ o, o ≠ observer) (observers self)) (calls self).
Definition notify (self : t) (event : PeatEvent.t) : t :=
  mk (observers self) (calls self ++ map (λ o, (o, event)) (observers self)).
Definition count (self : t) : Z := zlen (observers self).

Definition notify_all (self : t) (events : list PeatEvent.t) : t := foldl notify self events.

(** The calls of one observer, and the state of a collecting one. *)
Definition heard (o : Z) (self : t) : list PeatEvent.t :=
  omap (λ c, if decide (c.1 = o) then Some c.2 else None) (calls self).
Definition collected (o : Z) (self : t) : CollectingObserver.t :=
  foldl CollectingObserver.on_event CollectingObserver.new (heard o self).

End ObserverManager.

(** * Theorems *)

Module ObserverProofs.
Import ObserverManager.

Lemma notify_all_app self es es' :
  notify_all self (es ++ es') = notify_all (notify_all self es) es'.
Proof. apply foldl_app. Qed.
Lemma notify_all_observers self es : observers (notify_all self es) = observers self.
Proof. revert self. induction es as [|e es IH]; intros self; [done|]. apply (IH (notify self e)). Qed.

Lemma collected_events o self : CollectingObserver.events (collected o self) = heard o self.
Proof.
  unfold collected. rewrite <-(app_nil_l (heard o self)) at 2.
  change [] with (CollectingObserver.events CollectingObserver.new). generalize CollectingObserver.new.
  induction (heard o self) as [|e es IH]; intros c; cbn [foldl]; [by rewrite app_nil_r|].
  rewrite IH. cbn. by rewrite <-app_assoc.
Qed.

Lemma heard_copies o os e :
  omap (λ c : Z * PeatEvent.t, if decide (c.1 = o) then Some c.2 else None)
    (map (λ o', (o', e)) os)
  = replicate (length (filter (λ o', o' = o) os)) e.
Proof.
  induction os as [|o' os IH]; [done|]. rewrite filter_cons. cbn [map].
  csimpl. rewrite IH. by destruct (decide (o' = o)).
Qed.
Lemma heard_notify o self e :
  heard o (notify self e)
  = heard o self ++ replicate (length (filter (λ o', o' = o) (observers self))) e.
Proof. unfold heard, notify. cbn. by rewrite omap_app, heard_copies. Qed.

Lemma filter_none {A} (P : A → Prop) `{!∀ x, Decision (P x)} l :
  (∀ x, x ∈ l → ¬ P x) → filter P l = [].
Proof.
  intros Hn. induction l as [|x l IH]; [done|]. rewrite filter_cons, decide_False.
  - apply IH. intros y Hy. apply Hn. by right.
  - apply Hn. by left.
Qed.

(** An observer added once hears exactly what is notified from then on, in
    order; one that is not registered hears nothing. *)
Lemma added_observer_hears o self es :
  o ∉ observers self →
  heard o (notify_all (add self o) es) = heard o self ++ es.
Proof.
  intros Ho. induction es as [|e es IH] using rev_ind; [by rewrite app_nil_r|].
  rewrite notify_all_app. cbn [notify_all foldl]. rewrite heard_notify, IH.
  rewrite notify_all_observers, <-app_assoc. cbn [add observers].
  rewrite filter_app, (filter_none (λ o', o' = o)) by (by intros x Hx ->).
  cbn [app]. rewrite filter_cons, decide_True by done. done.
Qed.
Lemma removed_observer_is_deaf o self es :
  heard o (notify_all (remove self o) es) = heard o self.
Proof.
  induction es as [|e es IH] using rev_ind; [done|].
  rewrite notify_all_app. cbn [notify_all foldl]. rewrite heard_notify, IH.
  rewrite notify_all_observers. cbn [remove observers].
  rewrite (filter_none (λ o', o' = o)); [by rewrite app_nil_r|].
  intros x [Hx _]%list_elem_of_filter. done.
Qed.

End ObserverProofs.
