(* ===== verification/Registry.v ===== *)
(** * The document registry of src/src/registry.rs and the store of
    application documents of src/src/peat_mesh.rs.

    An application defines its document types outside the repository: the
    class [AppTypes] is the set of Rust types that implement [DocumentType],
    each with the operations of that trait.  A [Box<dyn Any>] is a document
    paired with its type, and a downcast compares the types.  A boxed
    [TypedHandler<T>] has no state, and is represented by [T]. *)

From stdpp Require Import base numbers list gmap.
From Stdlib Require Import Eqdep_dec.
From S2P Require Import Prelude Delta DeltaDoc.
Open Scope Z_scope.
Open Scope peat_scope.

(** ** The trait [DocumentType] *)

Module DocumentType.
Class AppTypes := {
  app_type : Type;
  app_type_eq_dec : EqDecision app_type;
  (** the documents of a type *)
  doc : app_type → Type;
  TYPE_ID : app_type → Z;
  TYPE_NAME : app_type → list Z;
  identity : ∀ T, doc T → Z * Z;
  encode : ∀ T, doc T → list Z;
  decode : ∀ T, list Z → option (doc T);
  (** [&mut self] methods return the document and their result *)
  merge : ∀ T, doc T → doc T → doc T * bool;
  to_delta_op : ∀ T, doc T → option AppOperation.t;
  apply_delta_op : ∀ T, doc T → AppOperation.t → doc T * bool
}.
Arguments identity {_ T} _.
Arguments encode {_ T} _.
Arguments merge {_ T} _ _.
Arguments to_delta_op {_ T} _.
Arguments apply_delta_op {_ T} _ _.
#[global] Existing Instance app_type_eq_dec.
End DocumentType.
Import DocumentType (AppTypes, app_type, doc, TYPE_ID, TYPE_NAME).

(** [Box<dyn Any + Send + Sync>]. *)
Module Any.
Section any.
Context `{AppTypes}.

Record t := mk { type_of : app_type; value : doc type_of }.

(** [downcast_ref::<T>()]. *)
Definition downcast (T : app_type) (self : t) : option (doc T) :=
  match decide (type_of self = T) with
  | left e => Some (eq_rect _ doc (value self) _ e)
  | right _ => None
  end.
End any.
End Any.

(** ** [TypedHandler<T>] *)

Module TypedHandler.
Section handler.
Context `{AppTypes} (T : app_type).

Definition type_name : list Z := TYPE_NAME T.
Definition decode (data : list Z) : option Any.t := Any.mk T <$> DocumentType.decode T data.
(** [merge] and [apply_delta_op] change [doc] in place. *)
Definition merge (doc other : Any.t) : Any.t * bool :=
  match Any.downcast T doc, Any.downcast T other with
  | Some d, Some o => let '(d, changed) := DocumentType.merge d o in (Any.mk T d, changed)
  | _, _ => (doc, false)
  end.
Definition encode (doc : Any.t) : list Z :=
  default [] ((λ d, DocumentType.encode d) <$> Any.downcast T doc).
Definition identity (doc : Any.t) : Z * Z :=
  default (0, 0) ((λ d, DocumentType.identity d) <$> Any.downcast T doc).
Definition to_delta_op (doc : Any.t) : option AppOperation.t :=
  match Any.downcast T doc with Some d => DocumentType.to_delta_op d | None => None end.
Definition apply_delta_op (doc : Any.t) (op : AppOperation.t) : Any.t * bool :=
  match Any.downcast T doc with
  | Some d => let '(d, changed) := DocumentType.apply_delta_op d op in (Any.mk T d, changed)
  | None => (doc, false)
  end.
End handler.
End TypedHandler.

(** ** The registry *)

Module DocumentRegistry.
Section registry.
Context `{AppTypes}.

Record t := mk { handlers : gmap Z app_type }.

Definition new : t := mk ∅.
Definition is_app_type (type_id : Z) : bool :=
  (APP_TYPE_MIN <=? type_id) && (type_id <=? APP_TYPE_MAX).
Definition is_registered (self : t) (type_id : Z) : bool :=
  bool_decide (is_Some (handlers self !! type_id)).

(** Both assertions panic. *)
Definition register (self : t) (T : app_type) : outcome t :=
  if negb (is_app_type (TYPE_ID T)) then Panic
  else if is_registered self (TYPE_ID T) then Panic
  else Ok (mk (<[TYPE_ID T := T]> (handlers self))).
Definition try_register (self : t) (T : app_type) : t * bool :=
  if negb (is_app_type (TYPE_ID T)) then (self, false)
  else if is_registered self (TYPE_ID T) then (self, false)
  else (mk (<[TYPE_ID T := T]> (handlers self)), true).

Definition type_name (self : t) (type_id : Z) : option (list Z) :=
  TypedHandler.type_name <$> handlers self !! type_id.
Definition registered_types `{!MapOrder Z} (self : t) : list Z := (map_iter (handlers self)).*1.
Definition decode (self : t) (type_id : Z) (data : list Z) : option Any.t :=
  match handlers self !! type_id with Some h => TypedHandler.decode h data | None => None end.
Definition merge (self : t) (type_id : Z) (doc other : Any.t) : Any.t * bool :=
  match handlers self !! type_id with
  | Some h => TypedHandler.merge h doc other | None => (doc, false)
  end.
Definition encode (self : t) (type_id : Z) (doc : Any.t) : list Z :=
  match handlers self !! type_id with Some h => TypedHandler.encode h doc | None => [] end.
Definition identity (self : t) (type_id : Z) (doc : Any.t) : option (Z * Z) :=
  (λ h, TypedHandler.identity h doc) <$> handlers self !! type_id.
Definition to_delta_op (self : t) (type_id : Z) (doc : Any.t) : option AppOperation.t :=
  match handlers self !! type_id with Some h => TypedHandler.to_delta_op h doc | None => None end.
Definition apply_delta_op (self : t) (type_id : Z) (doc : Any.t) (op : AppOperation.t)
    : Any.t * bool :=
  match handlers self !! type_id with
  | Some h => TypedHandler.apply_delta_op h doc op | None => (doc, false)
  end.
End registry.
End DocumentRegistry.

(** ** Headers *)

Definition decode_typed `{AppTypes} (T : app_type) (data : list Z) : option (doc T) := DocumentType.decode T data.
Definition encode_with_header `{AppTypes} {T : app_type} (d : doc T) : list Z :=
  let payload := DocumentType.encode d in
  [TYPE_ID T] ++ [0x00] ++ le 2 (wrap 16 (zlen payload)) ++ payload.
Definition decode_header (data : list Z) : outcome (Z * list Z) :=
  reject_if zlen data <? 4 ;;
  let! type_id := u8_at data 0 in
  reject_if negb (DocumentRegistry.is_app_type type_id) ;;
  let! length := u16_at data 2 in
  reject_if zlen data <? 4 + length ;;
  let! payload := slice data 4 (4 + length) in
  Ok (type_id, payload).

(** ** The store of a mesh node *)

Module AppDocuments.
(** The key is the type identifier, the source node and the timestamp. *)
Abbreviation t := (gmap (Z * Z * Z) Any.t).

Section store.
Context `{AppTypes}.

Definition store_app_document_boxed (registry : DocumentRegistry.t) (docs : t)
    (type_id source_node timestamp : Z) (d : Any.t) : t * bool :=
  let key := (type_id, source_node, timestamp) in
  match docs !! key with
  | Some existing =>
      let '(merged, changed) := DocumentRegistry.merge registry type_id existing d in
      (<[key := merged]> docs, changed)
  | None => (<[key := d]> docs, true)
  end.
Definition store_app_document (registry : DocumentRegistry.t) (docs : t) {T} (d : doc T)
    : t * bool :=
  let '(source_node, timestamp) := DocumentType.identity d in
  store_app_document_boxed registry docs (TYPE_ID T) source_node timestamp (Any.mk T d).

Definition get_app_document (docs : t) (T : app_type) (source_node timestamp : Z)
    : option (doc T) :=
  match docs !! (TYPE_ID T, source_node, timestamp) with
  | Some d => Any.downcast T d | None => None
  end.
Definition app_document_count (docs : t) : Z := Z.of_nat (size docs).

(** What a received operation does to the store. *)
Definition apply_app_op (registry : DocumentRegistry.t) (docs : t) (op : AppOperation.t)
    : t * bool :=
  let doc_timestamp := Z.land (AppOperation.timestamp op) 0x0000FFFFFFFFFFFF in
  let doc_key := (AppOperation.type_id op, AppOperation.source_node op, doc_timestamp) in
  match docs !! doc_key with
  | Some existing =>
      let '(d, changed) :=
        DocumentRegistry.apply_delta_op registry (AppOperation.type_id op) existing op in
      (<[doc_key := d]> docs, changed)
  | None =>
      match DocumentRegistry.decode registry (AppOperation.type_id op)
              (AppOperation.payload op) with
      | Some decoded => (<[doc_key := decoded]> docs, true)
      | None => (docs, false)
      end
  end.

Context `{!MapOrder (Z * Z * Z)}.

Definition get_all_app_documents_of_type (docs : t) (T : app_type) : list (doc T) :=
  omap (λ e, if e.1.1.1 =? TYPE_ID T then Any.downcast T e.2 else None) (map_iter docs).
Definition app_document_delta_ops (registry : DocumentRegistry.t) (docs : t)
    : list AppOperation.t :=
  omap (λ e, DocumentRegistry.to_delta_op registry e.1.1.1 e.2) (map_iter docs).
Definition app_document_keys (docs : t) (type_id : Z) : list (Z * Z) :=
  omap (λ e, if e.1.1.1 =? type_id then Some (e.1.1.2, e.1.2) else None) (map_iter docs).
End store.
End AppDocuments.

(** * Theorems *)

Module RegistryProofs.

(** What the library relies on of the documents of an application: on the
    [valid] documents of one identity, a merge is the join of a semilattice,
    and it says whether it changed the document. *)
Definition merged `{AppTypes} {T} (a b : doc T) : doc T := (DocumentType.merge a b).1.
Definition versions `{AppTypes} (valid : ∀ T, doc T → Prop) T (i : Z * Z) (d : doc T) : Prop :=
  valid T d ∧ DocumentType.identity d = i.
Class AppLaws `{AppTypes} (valid : ∀ T, doc T → Prop) : Prop := {
  merge_join :: ∀ T i, JoinCrdt (doc T) (versions valid T i) merged;
  merge_reports : ∀ T (a b : doc T), valid T a → valid T b →
    DocumentType.identity a = DocumentType.identity b →
    (DocumentType.merge a b).2 = false ↔ merged a b = a
}.

(** A map whose values are joined. *)
Section map_join.
Context {K V : Type} `{Countable K} (P : K → V → Prop) (j : V → V → V).
Context `{!∀ k, JoinCrdt V (P k) j}.

Definition map_join (a b : gmap K V) : gmap K V := union_with (λ x y, Some (j x y)) a b.

Lemma lookup_map_join a b k :
  map_join a b !! k
  = match a !! k, b !! k with
    | Some x, Some y => Some (j x y)
    | Some x, None | None, Some x => Some x
    | None, None => None
    end.
Proof. unfold map_join. rewrite lookup_union_with. by destruct (a !! k), (b !! k). Qed.

#[export] Instance map_join_crdt : JoinCrdt (gmap K V) (map_Forall P) map_join.
Proof.
  split.
  - intros a b Ha Hb k x. rewrite lookup_map_join.
    destruct (a !! k) eqn:Ea, (b !! k) eqn:Eb; intros [= <-]; eauto.
    eapply join_valid; eauto.
  - intros a Ha. apply map_eq. intros k. rewrite lookup_map_join.
    destruct (a !! k) eqn:Ea; [|done]. f_equal. eapply (join_idem (valid := P k)); eauto.
  - intros a b Ha Hb. apply map_eq. intros k. rewrite !lookup_map_join.
    destruct (a !! k) eqn:Ea, (b !! k) eqn:Eb; [|done..]. f_equal.
    eapply (join_comm (valid := P k)); eauto.
  - intros a b c Ha Hb Hc. apply map_eq. intros k. rewrite !lookup_map_join.
    destruct (a !! k) eqn:Ea, (b !! k) eqn:Eb, (c !! k) eqn:Ec; [|done..]. f_equal.
    eapply (join_assoc (valid := P k)); eauto.
Qed.
End map_join.

Section any.
Context `{AppTypes}.

Lemma downcast_same T (d : doc T) : Any.downcast T (Any.mk T d) = Some d.
Proof.
  unfold Any.downcast. cbn. destruct (decide (T = T)) as [e|]; [|done].
  by rewrite (UIP_dec (λ a b, decide (a = b)) e eq_refl).
Qed.
Lemma downcast_other T T' (d : doc T) : T ≠ T' → Any.downcast T' (Any.mk T d) = None.
Proof. intros HT. unfold Any.downcast. cbn. by destruct (decide (T = T')). Qed.

(** The handlers of a registry are filed under their own identifiers, which
    are in the range of the application types. *)
Definition registry_ok (reg : DocumentRegistry.t) : Prop :=
  map_Forall (λ id T, id = TYPE_ID T ∧ DocumentRegistry.is_app_type id = true)
    (DocumentRegistry.handlers reg).

Lemma new_registry_ok : registry_ok DocumentRegistry.new.
Proof. apply map_Forall_empty. Qed.
Lemma try_register_spec reg T :
  registry_ok reg →
  let '(reg', added) := DocumentRegistry.try_register reg T in
  registry_ok reg'
  ∧ DocumentRegistry.handlers reg ⊆ DocumentRegistry.handlers reg'
  ∧ (added = true ↔ DocumentRegistry.is_app_type (TYPE_ID T) = true
                    ∧ DocumentRegistry.is_registered reg (TYPE_ID T) = false)
  ∧ (added = true → DocumentRegistry.handlers reg' !! TYPE_ID T = Some T)
  ∧ DocumentRegistry.register reg T = if added then Ok reg' else Panic.
Proof.
  intros Hreg. unfold DocumentRegistry.try_register, DocumentRegistry.register.
  destruct (DocumentRegistry.is_app_type (TYPE_ID T)) eqn:Ht; cbn [negb]; [|naive_solver].
  destruct (DocumentRegistry.is_registered reg (TYPE_ID T)) eqn:Hr; [naive_solver|].
  unfold DocumentRegistry.is_registered in Hr. apply bool_decide_eq_false in Hr.
  cbn. split_and!; try done.
  - by apply map_Forall_insert_2.
  - apply insert_subseteq. by apply eq_None_not_Some.
  - intros _. by rewrite lookup_insert_eq.
Qed.
End any.

(** ** Headers *)

Lemma decode_header_encode `{AppTypes} {T} (d : doc T) rest :
  DocumentRegistry.is_app_type (TYPE_ID T) = true → bytes_ok (DocumentType.encode d) →
  zlen (DocumentType.encode d) < 2 ^ 16 →
  decode_header (encode_with_header d ++ rest) = Ok (TYPE_ID T, DocumentType.encode d).
Proof.
  intros Ht Hb Hl. pose proof Ht as Hr. unfold DocumentRegistry.is_app_type in Hr.
  apply andb_true_iff in Hr as [?%Z.leb_le ?%Z.leb_le]. unfold APP_TYPE_MIN, APP_TYPE_MAX in *.
  unfold decode_header, encode_with_header. rewrite wrap_small by lia.
  rewrite <-!app_assoc. cbn [app]. rd. rewrite Ht. cbn [negb]. rd. done.
Qed.
Lemma decode_header_wp data :
  bytes_ok data →
  wp (decode_header data) (λ r, DocumentRegistry.is_app_type r.1 = true
                                ∧ bytes_ok r.2 ∧ zlen r.2 ≤ zlen data - 4).
Proof.
  intros Hd. unfold decode_header. wp_steps; cbn; bool_hyps. split_and!; (done || lia).
Qed.

(** ** The store *)

Section store.
Context `{AppTypes} (valid : ∀ T, doc T → Prop) `{!AppLaws valid}.
Context (reg : DocumentRegistry.t).

Definition any_join (a b : Any.t) : Any.t := (TypedHandler.merge (Any.type_of a) a b).1.
Definition any_key (a : Any.t) : Z * Z * Z :=
  (TYPE_ID (Any.type_of a), (DocumentType.identity (Any.value a)).1,
   (DocumentType.identity (Any.value a)).2).
(** A document under its own key, whose type is the registered one. *)
Definition filed (k : Z * Z * Z) (a : Any.t) : Prop :=
  any_key a = k ∧ DocumentRegistry.handlers reg !! k.1.1 = Some (Any.type_of a)
  ∧ valid (Any.type_of a) (Any.value a).
Definition storable (a : Any.t) : Prop := filed (any_key a) a.

Lemma filed_storable k a : filed k a → storable a ∧ any_key a = k.
Proof. intros (<- & ? & ?). done. Qed.

Lemma any_join_same T (a b : doc T) :
  any_join (Any.mk T a) (Any.mk T b) = Any.mk T (merged a b).
Proof.
  unfold any_join, TypedHandler.merge, merged. cbn [Any.type_of]. rewrite !downcast_same.
  by destruct (DocumentType.merge a b).
Qed.

(** Documents filed under one key have one type and one identity. *)
Lemma filed_inv k a : filed k a →
  ∃ T x, a = Any.mk T x ∧ DocumentRegistry.handlers reg !! k.1.1 = Some T
         ∧ TYPE_ID T = k.1.1 ∧ valid T x ∧ DocumentType.identity x = (k.1.2, k.2).
Proof.
  destruct a as [T x]. intros (<- & Hh & Hv). cbn in *. exists T, x. split_and!; try done.
  by destruct (DocumentType.identity x).
Qed.
Lemma filed_intro k T (x : doc T) :
  DocumentRegistry.handlers reg !! k.1.1 = Some T → TYPE_ID T = k.1.1 → valid T x →
  DocumentType.identity x = (k.1.2, k.2) → filed k (Any.mk T x).
Proof.
  intros Hh Ht Hv Hi. split; [|done]. unfold any_key. cbn. rewrite Ht, Hi.
  by destruct k as [[??] ?].
Qed.

#[export] Instance any_join_crdt k : JoinCrdt Any.t (filed k) any_join.
Proof.
  assert (Hjoin : ∀ T, JoinCrdt (doc T) (versions valid T (k.1.2, k.2)) merged) by apply _.
  split.
  - intros a b (T & x & -> & Hh & Ht & Hx & Hi)%filed_inv (T' & y & -> & Hh' & _ & Hy & Hi')%filed_inv.
    rewrite Hh in Hh'. injection Hh' as <-. rewrite any_join_same.
    destruct (Hjoin T) as [Hv _ _ _]. destruct (Hv x y) as [??]; [by split..|].
    by apply filed_intro.
  - intros a (T & x & -> & Hh & Ht & Hx & Hi)%filed_inv. rewrite any_join_same. f_equal.
    destruct (Hjoin T) as [_ Hv _ _]. by apply Hv.
  - intros a b (T & x & -> & Hh & Ht & Hx & Hi)%filed_inv (T' & y & -> & Hh' & _ & Hy & Hi')%filed_inv.
    rewrite Hh in Hh'. injection Hh' as <-. rewrite !any_join_same. f_equal.
    destruct (Hjoin T) as [_ _ Hv _]. by apply Hv.
  - intros a b c (T & x & -> & Hh & Ht & Hx & Hi)%filed_inv (T' & y & -> & Hh' & _ & Hy & Hi')%filed_inv
      (T'' & z & -> & Hh'' & _ & Hz & Hi'')%filed_inv.
    rewrite Hh in Hh', Hh''. injection Hh' as <-. injection Hh'' as <-.
    rewrite !any_join_same. f_equal.
    destruct (Hjoin T) as [_ _ _ Hv]. by apply Hv.
Qed.

Definition store (docs : AppDocuments.t) (a : Any.t) : AppDocuments.t * bool :=
  AppDocuments.store_app_document reg docs (Any.value a).
Definition store_all (docs : AppDocuments.t) (l : list Any.t) : AppDocuments.t :=
  foldl (λ docs a, (store docs a).1) docs l.
Definition store_ok (docs : AppDocuments.t) : Prop := map_Forall filed docs.

(** Storing is joining with the store of that one document. *)
Lemma store_is_join docs a :
  store_ok docs → storable a →
  (store docs a).1 = map_join any_join docs {[any_key a := a]}.
Proof.
  intros Hdocs Ha. destruct a as [T x].
  unfold store, AppDocuments.store_app_document, AppDocuments.store_app_document_boxed. cbn [Any.value].
  pose proof Ha as (_ & Hh & _). cbn in Hh.
  unfold any_key. cbn [Any.type_of Any.value].
  destruct (DocumentType.identity x) as [src ts] eqn:Ei. cbn [fst snd].
  assert (Hlookup : ∀ k v, docs !! (TYPE_ID T, src, ts) = v →
    (map_join any_join docs {[(TYPE_ID T, src, ts) := Any.mk T x]} : gmap _ _) !! k
    = if decide (k = (TYPE_ID T, src, ts))
      then Some (match v with Some e => any_join e (Any.mk T x) | None => Any.mk T x end)
      else docs !! k).
  { intros k v Hv. rewrite lookup_map_join. case_decide as Hk.
    - subst k. rewrite lookup_singleton_eq, Hv. by destruct v.
    - rewrite lookup_singleton_ne by done. by destruct (docs !! k). }
  destruct (docs !! (TYPE_ID T, src, ts)) as [e|] eqn:Ee; apply map_eq; intros k;
    rewrite (Hlookup k _ eq_refl).
  - destruct (filed_inv _ _ (Hdocs _ _ Ee)) as (T' & y & -> & Hh' & _). cbn in Hh'.
    rewrite Hh in Hh'. injection Hh' as <-.
    unfold DocumentRegistry.merge. rewrite Hh.
    destruct (TypedHandler.merge T (Any.mk T y) (Any.mk T x)) as [m c] eqn:Em. cbn [fst].
    unfold any_join. cbn [Any.type_of]. rewrite Em. case_decide as Hk; [subst; by rewrite lookup_insert_eq|].
    by rewrite lookup_insert_ne.
  - cbn [fst]. case_decide as Hk; [subst; by rewrite lookup_insert_eq|]. by rewrite lookup_insert_ne.
Qed.

Lemma single_ok a : storable a → store_ok {[any_key a := a]}.
Proof. intros Ha. by apply map_Forall_singleton. Qed.
Lemma store_all_is_replay docs l :
  store_ok docs → Forall storable l →
  store_all docs l = foldl (map_join any_join) docs (map (λ a, {[any_key a := a]}) l)
  ∧ store_ok (store_all docs l).
Proof.
  intros Hdocs Hl. revert docs Hdocs. induction Hl as [|a l Ha _ IH]; intros docs Hdocs; [done|].
  cbn. rewrite store_is_join by done. apply IH.
  apply (join_valid (valid := store_ok)); [done | by apply single_ok].
Qed.

Lemma stores_converge docs l l' :
  store_ok docs → Forall storable l → (∀ a, a ∈ l ↔ a ∈ l') →
  store_all docs l = store_all docs l'.
Proof.
  intros Hdocs Hl Hiff.
  assert (Hl' : Forall storable l').
  { apply Forall_forall. intros a Ha. rewrite Forall_forall in Hl. by apply Hl, Hiff. }
  rewrite !(λ d l H H', proj1 (store_all_is_replay d l H H')) by done.
  apply (replay_converges (valid := store_ok)); [done| |].
  - intros u (a & -> & Ha)%list_elem_of_fmap. apply single_ok. rewrite Forall_forall in Hl. by apply Hl.
  - intros u. rewrite !list_elem_of_fmap. by setoid_rewrite Hiff.
Qed.

Lemma store_all_absorbs docs l a :
  store_ok docs → Forall storable l → a ∈ l →
  store (store_all docs l) a = (store_all docs l, false).
Proof.
  intros Hdocs Hl Ha. destruct (store_all_is_replay docs l Hdocs Hl) as [Heq Hok].
  assert (Hsa : storable a) by (rewrite Forall_forall in Hl; by apply Hl).
  assert (Hfix : (store (store_all docs l) a).1 = store_all docs l).
  { rewrite store_is_join by done. rewrite (join_comm (valid := store_ok)) by (done || by apply single_ok).
    rewrite Heq. apply (replay_upper (valid := store_ok)); [done| |].
    - intros u (b & -> & Hb)%list_elem_of_fmap. apply single_ok. rewrite Forall_forall in Hl. by apply Hl.
    - right. apply list_elem_of_fmap. by exists a. }
  rewrite (surjective_pairing (store _ a)), Hfix. f_equal.
  revert Hfix. generalize dependent (store_all docs l). clear Hl Ha. intros s _ Hs Hfix.
  destruct (filed_inv _ _ Hsa) as (T & x & -> & Hh & _ & Hx & Hi). cbn in Hh, Hi.
  unfold store, AppDocuments.store_app_document, AppDocuments.store_app_document_boxed in *.
  cbn [Any.value Any.type_of] in *. destruct (DocumentType.identity x) as [src ts] eqn:Ei.
  destruct (s !! (TYPE_ID T, src, ts)) as [e|] eqn:Ee.
  - destruct (filed_inv _ _ (Hs _ _ Ee)) as (T' & y & -> & Hh' & _ & Hy & Hi'). cbn in Hh', Hi'.
    rewrite Hh in Hh'. injection Hh' as <-. revert Hfix.
    unfold DocumentRegistry.merge. rewrite Hh. unfold TypedHandler.merge. rewrite !downcast_same.
    pose proof (merge_reports T y x Hy Hx ltac:(congruence)) as Hrep. unfold merged in Hrep.
    destruct (DocumentType.merge y x) as [m c]. cbn [fst snd] in *. intros Hfix. apply Hrep.
    rewrite <-Hfix, lookup_insert_eq in Ee. apply (inj Some) in Ee.
    apply (f_equal (Any.downcast T)) in Ee. rewrite !downcast_same in Ee. by injection Ee.
  - cbn [fst] in Hfix. by rewrite <-Hfix, lookup_insert_eq in Ee.
Qed.
Lemma store_all_keys docs l k :
  store_ok docs → Forall storable l →
  is_Some (store_all docs l !! k) ↔ is_Some (docs !! k) ∨ ∃ a, a ∈ l ∧ any_key a = k.
Proof.
  intros Hdocs Hl. revert docs Hdocs. induction Hl as [|a l Ha Hl IH]; intros docs Hdocs.
  { set_solver. }
  cbn. assert (Hok : store_ok (store docs a).1).
  { rewrite store_is_join by done. apply (join_valid (valid := store_ok)); [done|by apply single_ok]. }
  rewrite (IH _ Hok), store_is_join, lookup_map_join by done.
  destruct (decide (any_key a = k)) as [<-|Hk].
  - rewrite lookup_singleton_eq. split; [|by destruct (docs !! any_key a); left].
    intros _. right. exists a. set_solver.
  - rewrite lookup_singleton_ne by done. split.
    + intros [?|(b & ? & ?)]; [by destruct (docs !! k); left|]. right. exists b. set_solver.
    + intros [?|(b & [->|?]%elem_of_cons & ?)]; [by destruct (docs !! k); left|done|].
      right. by exists b.
Qed.
End store.

End RegistryProofs.

Module RegistryProperties.
Import RegistryProofs.


(** An application with two types: a count that grows, and a note. *)
Inductive demo_type := Count | Note.
Definition demo_doc : Type := Z * Z * Z.
Definition demo_apps : AppTypes := {|
  DocumentType.app_type := demo_type;
  DocumentType.app_type_eq_dec := ltac:(intros [] []; (by left) || (by right));
  DocumentType.doc _ := demo_doc;
  DocumentType.TYPE_ID T := match T with Count => 0xC0 | Note => 0xC1 end;
  DocumentType.TYPE_NAME _ := [];
  DocumentType.identity _ d := d.1;
  DocumentType.encode _ d := le 4 d.1.1 ++ le 8 d.1.2 ++ le 8 d.2;
  DocumentType.decode _ data :=
    if zlen data =? 20 then Some (from_le (ztake 4 data), from_le (ztake 8 (zdrop 4 data)),
                                  from_le (zdrop 12 data)) else None;
  DocumentType.merge _ a b := ((a.1, Z.max a.2 b.2), a.2 <? b.2);
  DocumentType.to_delta_op _ d :=
    Some (AppOperation.mk 0xC0 0 d.1.1 d.1.2 (le 4 d.1.1 ++ le 8 d.1.2 ++ le 8 d.2));
  DocumentType.apply_delta_op _ d op :=
    ((d.1, Z.max d.2 (AppOperation.op_code op)), d.2 <? AppOperation.op_code op)
|}.
#[local] Existing Instance demo_apps.
Definition demo_valid (T : app_type) (d : doc T) : Prop := True.
#[local] Instance demo_laws : AppLaws demo_valid.
Proof.
  split.
  - intros T [src ts]. unfold versions, merged. split.
    + intros [[s t] c] [[s' t'] c'] [_ E] [_ _]. cbn in *. done.
    + intros [[s t] c] _. cbn. by rewrite Z.max_id.
    + intros [[s t] c] [[s' t'] c'] [_ E] [_ E']. cbn in *. f_equal; [congruence|lia].
    + intros [[s t] c] [[s' t'] c'] [[s'' t''] c''] _ _ _. cbn. f_equal. lia.
  - intros T [[s t] c] [[s' t'] c'] _ _ _. unfold merged. cbn. rewrite Z.ltb_ge. split.
    + intros ?. f_equal. lia.
    + intros [= ?]. lia.
Qed.

Definition demo_registry : DocumentRegistry.t := DocumentRegistry.mk {[0xC0 := Count; 0xC1 := Note]}.
Definition demo_count (src ts c : Z) : Any.t := Any.mk (Count : app_type) ((src, ts, c) : demo_doc).
Definition demo_note (src ts c : Z) : Any.t := Any.mk (Note : app_type) ((src, ts, c) : demo_doc).

(** A document of a type nobody registered is kept as it was first stored. *)
Example unregistered_document_never_merges :
  let d := demo_count 7 1 3 in
  let docs := store_all DocumentRegistry.new ∅ [d; demo_count 7 1 5] in
  docs !! any_key d = Some d.
Proof. vm_compute. reflexivity. Qed.
(** A document of 65536 bytes or more is announced with its size modulo
    2^16, and read back as a prefix. *)
Lemma long_document_is_cut {T : app_type} (d : doc T) rest :
  DocumentRegistry.is_app_type (TYPE_ID T) = true → bytes_ok (DocumentType.encode d) →
  decode_header (encode_with_header d ++ rest)
  = Ok (TYPE_ID T, ztake (zlen (DocumentType.encode d) mod 2 ^ 16) (DocumentType.encode d)).
Proof.
  intros Ht Hb. pose proof Ht as Hr. unfold DocumentRegistry.is_app_type in Hr.
  apply andb_true_iff in Hr as [?%Z.leb_le ?%Z.leb_le]. unfold APP_TYPE_MIN, APP_TYPE_MAX in *.
  unfold decode_header, encode_with_header, wrap. set (p := DocumentType.encode d) in *.
  pose proof (Z.mod_pos_bound (zlen p) (2 ^ 16) ltac:(lia)) as Hm.
  pose proof (Z.mod_le (zlen p) (2 ^ 16) ltac:(lia) ltac:(lia)) as Hle.
  set (n := zlen p mod 2 ^ 16) in *.
  rewrite <-!app_assoc. cbn [app]. rd. rewrite Ht. cbn [negb]. rd.
  unfold slice. rewrite (proj2 (Z.leb_le 0 _)), (proj2 (Z.leb_le _ (zlen (p ++ rest)))) by len.
  replace (4 + n - 1 - 1 - 2 - 0) with n by lia. cbn [andb obind]. do 2 f_equal.
Qed.
(** Only 48 bits of the timestamp of an operation name the document. *)
Example late_timestamp_is_misfiled :
  let op := AppOperation.mk 0xC0 0 7 (2 ^ 48 + 1) (le 4 7 ++ le 8 (2 ^ 48 + 1) ++ le 8 3) in
  let docs := (AppDocuments.apply_app_op demo_registry ∅ op).1 in
  AppDocuments.get_app_document docs Count 7 (2 ^ 48 + 1) = None
  ∧ AppDocuments.get_app_document docs Count 7 1 = Some (7, 2 ^ 48 + 1, 3).
Proof. vm_compute. done. Qed.

End RegistryProperties.
