(* ===== verification/Persistence.v ===== *)
(** * The persisted state of src/src/security/persistence.rs: its format, the
    storage it is kept in, and what comes back after a restart. *)

From Stdlib Require Import String.
From stdpp Require Import base numbers list gmap sets.
From S2P Require Import Prelude Crypto Identity Trust.
Open Scope Z_scope.
Open Scope peat_scope.

Definition PERSISTED_STATE_VERSION : Z := 1.
Definition MAGIC : list Z := str "PEAT"%string.

Module PersistenceError.
Inductive t :=
| StorageError (message : list Z) | InvalidFormat | UnsupportedVersion (stored supported : Z)
| NotFound | CryptoError (message : list Z).
#[global] Instance persistence_error_eq_dec : EqDecision t.
Proof. solve_decision. Defined.
End PersistenceError.

(** ** Storage

    A storage [S] changes in place; its methods take it and return it. *)
Class SecureStorage (S : Type) := {
  store : S → list Z → list Z → S * result unit PersistenceError.t;
  retrieve : S → list Z → result (option (list Z)) PersistenceError.t;
  storage_delete : S → list Z → S * result unit PersistenceError.t
}.
Definition exists_key {S} `{!SecureStorage S} (storage : S) (key : list Z)
    : result bool PersistenceError.t :=
  let? v := retrieve storage key in Okay (bool_decide (is_Some v)).

(** A successful write is read back until the key is written or deleted. *)
Class StorageLaws (S : Type) `{!SecureStorage S} : Prop := {
  retrieve_stored : ∀ s key v s', store s key v = (s', Okay tt) → retrieve s' key = Okay (Some v);
  retrieve_deleted : ∀ s key s', storage_delete s key = (s', Okay tt) → retrieve s' key = Okay None
}.

Module MemoryStorage.
Record t := mk { data : gmap (list Z) (list Z) }.
Definition new : t := mk ∅.
Definition memory_store (self : t) (key value : list Z) : t * result unit PersistenceError.t :=
  (mk (<[key := value]> (data self)), Okay tt).
Definition memory_retrieve (self : t) (key : list Z) : result (option (list Z)) PersistenceError.t :=
  Okay (data self !! key).
Definition memory_delete (self : t) (key : list Z) : t * result unit PersistenceError.t :=
  (mk (delete key (data self)), Okay tt).
#[global] Instance memory_storage : SecureStorage t := {
  store := memory_store; retrieve := memory_retrieve; storage_delete := memory_delete
}.
End MemoryStorage.

(** ** The state *)

Module PersistedState.

Record t := mk {
  version : Z; device_private_key : list Z; genesis_data : option (list Z);
  registry_data : list Z; revoked_keys : list (list Z); persisted_at_ms : Z
}.

Definition STORAGE_KEY : list Z := str "hive_persisted_state"%string.

Section ops.
Context `{Crypto} `{!MapOrder Z}.

Definition new (identity : DeviceIdentity.t) (genesis : option MeshGenesis.t) : t :=
  mk PERSISTED_STATE_VERSION (DeviceIdentity.private_key_bytes identity)
    (MeshGenesis.encode <$> genesis) [] [] 0.
Definition with_registry (identity : DeviceIdentity.t) (genesis : option MeshGenesis.t)
    (registry : IdentityRegistry.t) : t :=
  mk PERSISTED_STATE_VERSION (DeviceIdentity.private_key_bytes identity)
    (MeshGenesis.encode <$> genesis) (IdentityRegistry.encode registry) [] 0.

Definition restore_identity (self : t) : result DeviceIdentity.t PersistenceError.t :=
  Okay (DeviceIdentity.from_private_key (device_private_key self)).
Definition restore_genesis (self : t) : outcome (option MeshGenesis.t) :=
  match genesis_data self with Some data => opt (MeshGenesis.decode data) | None => Ok None end.
Definition restore_registry (self : t) : outcome IdentityRegistry.t :=
  if bool_decide (registry_data self = []) then Ok IdentityRegistry.new
  else
    let! decoded := opt (IdentityRegistry.decode (registry_data self)) in
    Ok (default IdentityRegistry.new decoded).

Definition add_revoked_key (self : t) (public_key : list Z) : t :=
  if bool_decide (public_key ∈ revoked_keys self) then self
  else mk (version self) (device_private_key self) (genesis_data self) (registry_data self)
         (revoked_keys self ++ [public_key]) (persisted_at_ms self).
Definition update_registry (self : t) (registry : IdentityRegistry.t) : t :=
  mk (version self) (device_private_key self) (genesis_data self)
    (IdentityRegistry.encode registry) (revoked_keys self) (persisted_at_ms self).
Definition set_persisted_at (self : t) (timestamp_ms : Z) : t :=
  mk (version self) (device_private_key self) (genesis_data self) (registry_data self)
    (revoked_keys self) timestamp_ms.
End ops.

Definition encode (self : t) : list Z :=
  let genesis := default [] (genesis_data self) in
  MAGIC ++ le 4 (version self) ++ device_private_key self ++ le 8 (persisted_at_ms self)
  ++ le 4 (wrap 32 (zlen genesis)) ++ genesis
  ++ le 4 (wrap 32 (zlen (registry_data self))) ++ registry_data self
  ++ le 4 (wrap 32 (zlen (revoked_keys self))) ++ concat (revoked_keys self).

(** [data[offset..offset + 4] != MAGIC] and the other rejections are values
    of the error type; a read out of range would panic. *)
Definition decode (data : list Z) : outcome (result t PersistenceError.t) :=
  let invalid := Ok (Err PersistenceError.InvalidFormat) in
  if zlen data <? 60 then invalid
  else
    let! magic := slice data 0 4 in
    if negb (bool_decide (magic = MAGIC)) then invalid
    else
      let! version := u32_at data 4 in
      if PERSISTED_STATE_VERSION <? version then
        Ok (Err (PersistenceError.UnsupportedVersion version PERSISTED_STATE_VERSION))
      else
        let! device_private_key := slice data 8 40 in
        let! persisted_at_ms := u64_at data 40 in
        let! genesis_len := u32_at data 48 in
        let offset := 52 in
        if zlen data <? offset + genesis_len then invalid
        else
          let! genesis := slice data offset (offset + genesis_len) in
          let genesis_data := if 0 <? genesis_len then Some genesis else None in
          let offset := offset + genesis_len in
          if zlen data <? offset + 4 then invalid
          else
            let! registry_len := u32_at data offset in
            let offset := offset + 4 in
            if zlen data <? offset + registry_len then invalid
            else
              let! registry_data := slice data offset (offset + registry_len) in
              let offset := offset + registry_len in
              if zlen data <? offset + 4 then invalid
              else
                let! revoked_count := u32_at data offset in
                let offset := offset + 4 in
                if zlen data <? offset + revoked_count * 32 then invalid
                else
                  let! st := for_range (Z.to_nat revoked_count) 0 (λ _ '(keys, offset),
                      let! key := slice data offset (offset + 32) in
                      Ok (keys ++ [key], offset + 32)) ([], offset) in
                  Ok (Okay (mk version device_private_key genesis_data registry_data st.1
                              persisted_at_ms)).

(** [save], [load] and [delete] on a storage. *)
Section storage.
Context {S : Type} `{!SecureStorage S}.
Definition save (self : t) (storage : S) : S * result unit PersistenceError.t :=
  store storage STORAGE_KEY (encode self).
Definition load (storage : S) : outcome (result t PersistenceError.t) :=
  match retrieve storage STORAGE_KEY with
  | Err e => Ok (Err e)
  | Okay None => Ok (Err PersistenceError.NotFound)
  | Okay (Some data) => decode data
  end.
Definition delete (storage : S) : S * result unit PersistenceError.t :=
  storage_delete storage STORAGE_KEY.
End storage.

Definition wf (self : t) : Prop :=
  0 ≤ version self ≤ PERSISTED_STATE_VERSION ∧ block 32 (device_private_key self)
  ∧ match genesis_data self with
    | Some g => bytes_ok g ∧ 0 < zlen g < 2 ^ 32 | None => True
    end
  ∧ bytes_ok (registry_data self) ∧ zlen (registry_data self) < 2 ^ 32
  ∧ Forall (block 32) (revoked_keys self) ∧ zlen (revoked_keys self) < 2 ^ 32
  ∧ in_u 64 (persisted_at_ms self).

End PersistedState.

(** * Theorems *)

Module PersistenceProofs.
Import PersistedState.

#[export] Instance memory_laws : StorageLaws MemoryStorage.t.
Proof.
  split.
  - intros s key v s' [= <-]. cbn. unfold MemoryStorage.memory_retrieve. cbn. by rewrite lookup_insert_eq.
  - intros s key s' [= <-]. cbn. unfold MemoryStorage.memory_retrieve. cbn. by rewrite lookup_delete_eq.
Qed.

Lemma foldl_snoc {A} (acc l : list A) : foldl (λ ks k, ks ++ [k]) acc l = acc ++ l.
Proof.
  revert acc. induction l as [|k l IH]; intros acc; cbn; [by rewrite app_nil_r|].
  by rewrite IH, <-app_assoc.
Qed.
Lemma keys_read l pre data off :
  Forall (block 32) l → data = pre ++ concat l → off = zlen pre →
  for_range (length l) 0 (λ _ '(keys, offset),
    let! key := slice data offset (offset + 32) in Ok (keys ++ [key], offset + 32)) ([], off)
  = Ok (l, off + zlen (concat l)).
Proof.
  intros Hl -> ->.
  assert (Hc : flat_map (λ k, k) l = concat l) by (clear; induction l; cbn; congruence).
  erewrite (for_range_entries (λ k, k) (λ keys k, keys ++ [k]) _ (length l) l pre []).
  - rewrite Hc. do 2 f_equal. by rewrite foldl_snoc.
  - done.
  - done.
  - by rewrite Hc, app_nil_r.
  - intros k p q i keys Hin ->. rewrite Forall_forall in Hl. destruct (Hl k Hin) as [? Hk].
    rewrite Hk. rd. done.
Qed.

(** A check that passes. *)
Ltac pass :=
  match goal with |- context [if ?b then Ok (Err _) else _] =>
    replace b with false by (symmetry; bdec) end; cbn [obind].

Lemma state_decode_encode s : wf s → decode (encode s) = Ok (Okay s).
Proof.
  destruct s as [v key genesis reg revoked at_ms].
  intros (Hv & [Hkb Hk] & Hg & Hrb & Hr & Hkeys & Hn & Hat).
  cbn [version device_private_key genesis_data registry_data revoked_keys persisted_at_ms] in *.
  unfold PERSISTED_STATE_VERSION in *.
  assert (Hgen : ∃ g, g = default [] genesis ∧ bytes_ok g ∧ zlen g < 2 ^ 32
    ∧ genesis = if 0 <? zlen g then Some g else None).
  { exists (default [] genesis). destruct genesis as [g|]; cbn; [|done].
    destruct Hg as (? & ? & ?). by rewrite (proj2 (Z.ltb_lt _ _)) by lia. }
  destruct Hgen as (g & Eg & Hgb & Hgl & ->).
  unfold decode, encode. cbv zeta.
  cbn [version device_private_key genesis_data registry_data revoked_keys persisted_at_ms].
  rewrite <-Eg, !wrap_small by lia. clear Eg Hg.
  assert (Hm : zlen MAGIC = 4) by reflexivity. assert (Hmb : bytes_ok MAGIC) by by_decide.
  revert Hm Hmb. generalize MAGIC. intros magic Hm Hmb.
  assert (Hc : zlen (concat revoked) = zlen revoked * 32).
  { clear -Hkeys. induction Hkeys as [|k l [_ Hk] _ IH]; [done|]. cbn. len. }
  pass. rd. rewrite bool_decide_eq_true_2 by done. cbn [negb]. rd. pass. rd. pass. rd.
  rewrite (proj2 (Z.ltb_ge _ _)) by (unfold PERSISTED_STATE_VERSION; lia). do 3 pass.
  rewrite Nat2Z.id.
  rewrite (keys_read revoked (magic ++ le 4 v ++ key ++ le 8 at_ms ++ le 4 (zlen g) ++ g
    ++ le 4 (zlen reg) ++ reg ++ le 4 (zlen revoked))); [done | done | | len].
  by rewrite <-!app_assoc.
Qed.
Lemma state_decode_wp data : bytes_ok data →
  wp (decode data) (λ r, match r with Okay s => wf s | Err _ => True end).
Proof.
  intros Hb. unfold decode. cbv zeta. repeat wp_step; try exact I.
  match goal with |- wp (for_range (Z.to_nat ?n) 0 _ (_, ?o)) _ =>
    apply (wp_for_range _ _ _ _ (λ j st, st.2 = o + 32 * j ∧ Forall (block 32) st.1 ∧ zlen st.1 = j))
  end.
  - split; [cbn; lia|]. split; [constructor | done].
  - intros j [keys off] Hj (Ho & Hk & Hl). cbn [fst snd] in *. subst off. wp_steps. cbn [fst snd].
    split; [lia|]. split; [|len].
    apply Forall_app_2; [done|]. apply Forall_singleton. split; [done | lia].
  - intros [keys off] (_ & Hk & Hl). cbn [fst snd] in *. apply wp_ok.
    unfold wf. cbn [version device_private_key genesis_data registry_data revoked_keys persisted_at_ms].
    bool_hyps. unfold PERSISTED_STATE_VERSION in *. split_and!; try (done || lia || (split; [done|lia])).
    destruct (Z.ltb_spec 0 x1); [|done]. split; [done | lia].
Qed.

(** ** A restart *)

Section restart.
Context `{CryptoLaws} `{!MapOrder Z}.

Lemma genesis_bytes g : MeshGenesis.wf g → bytes_ok (MeshGenesis.encode g)
  ∧ 0 < zlen (MeshGenesis.encode g) < 2 ^ 32.
Proof.
  intros Hg. split; [by apply wire_bytes|].
  destruct Hg as (_ & Hn & _ & [_ Hs] & Hk & _).
  destruct (ed25519_public_key _ Hk) as [[_ Hp] _]. destruct Hk as [_ Hk].
  unfold MeshGenesis.encode, DeviceIdentity.private_key_bytes, DeviceIdentity.public_key. len.
Qed.
Lemma registry_bytes r :
  IdentityRegistry.typed r → Z.of_nat (size (IdentityRegistry.known r)) < 2 ^ 25 →
  bytes_ok (IdentityRegistry.encode r) ∧ 0 < zlen (IdentityRegistry.encode r) < 2 ^ 32.
Proof.
  intros Hr Hn. pose proof (TrustProofs.entries_length r Hr) as Hl.
  unfold IdentityRegistry.encode. split; [|len].
  apply bytes_app; [by_decide|]. apply bytes_app; [by apply le_bytes|].
  apply Forall_flat_map, Forall_forall. intros [k v] Hin.
  apply elem_of_map_iter, Hr in Hin as [Hk ([Hp _] & _ & _ & _ & Hcs)].
  unfold IdentityRegistry.encode_entry.
  repeat (apply bytes_app; [first [done | by apply le_bytes]|]).
  destruct (IdentityRecord.callsign v), (IdentityRecord.token_expires_ms v); try done.
  - destruct Hcs as [[Hcs _] _]. apply bytes_app; [by_decide|].
    apply bytes_app; [done | by apply le_bytes].
  - by_decide.
Qed.

Lemma revoke_all s keys :
  let s' := foldl add_revoked_key s keys in
  version s' = version s ∧ device_private_key s' = device_private_key s
  ∧ genesis_data s' = genesis_data s ∧ registry_data s' = registry_data s
  ∧ persisted_at_ms s' = persisted_at_ms s
  ∧ (∀ k, k ∈ revoked_keys s' ↔ k ∈ revoked_keys s ∨ k ∈ keys)
  ∧ zlen (revoked_keys s') ≤ zlen (revoked_keys s) + zlen keys.
Proof.
  cbv zeta. revert s. induction keys as [|k keys IH]; intros s; cbn [foldl].
  { split_and!; try done; [set_solver | len]. }
  destruct (IH (add_revoked_key s k)) as (-> & -> & -> & -> & -> & Hk & Hl).
  assert (Hadd : ∀ k', k' ∈ revoked_keys (add_revoked_key s k) ↔ k' ∈ revoked_keys s ∨ k' = k).
  { intros k'. unfold add_revoked_key. case_bool_decide; cbn [revoked_keys]; set_solver. }
  split_and!; try (unfold add_revoked_key; by case_bool_decide).
  - intros k'. rewrite Hk, Hadd. set_solver.
  - etrans; [exact Hl|]. unfold add_revoked_key. case_bool_decide; cbn [revoked_keys]; len.
Qed.

(** What was saved is what is loaded after a restart. *)
Lemma state_survives_restart {S : Type} `{!SecureStorage S, !StorageLaws S}
    (storage storage' : S) identity genesis registry revoked at_ms :
  block 32 (DeviceIdentity.signing_key identity) →
  (∀ g, genesis = Some g → MeshGenesis.wf g) →
  IdentityRegistry.typed registry → Z.of_nat (size (IdentityRegistry.known registry)) < 2 ^ 25 →
  Forall (block 32) revoked → zlen revoked < 2 ^ 32 → in_u 64 at_ms →
  save (set_persisted_at (foldl add_revoked_key (with_registry identity genesis registry) revoked)
          at_ms) storage = (storage', Okay tt) →
  ∃ state, load storage' = Ok (Okay state)
    ∧ restore_identity state = Okay identity ∧ restore_genesis state = Ok genesis
    ∧ restore_registry state
      = Ok (IdentityRegistry.mk (IdentityRegistry.known registry)
              IdentityRegistry.DEFAULT_MAX_IDENTITIES)
    ∧ (∀ k, k ∈ revoked_keys state ↔ k ∈ revoked) ∧ persisted_at_ms state = at_ms.
Proof.
  intros Hid Hg Hr Hn Hrev Hnrev Hat Hsave.
  set (s := foldl add_revoked_key (with_registry identity genesis registry) revoked) in *.
  destruct (revoke_all (with_registry identity genesis registry) revoked)
    as (Hv & Hkey & Hgen & Hreg & _ & Hkeys & Hlen). fold s in Hv, Hkey, Hgen, Hreg, Hkeys, Hlen.
  destruct (registry_bytes registry Hr Hn) as (Hrb & Hrl).
  exists (set_persisted_at s at_ms). split_and!.
  - unfold load. rewrite (retrieve_stored _ _ _ _ Hsave). apply state_decode_encode.
    unfold wf. cbn [set_persisted_at version device_private_key genesis_data registry_data
      revoked_keys persisted_at_ms]. rewrite Hv, Hkey, Hgen, Hreg.
    cbn [with_registry version device_private_key genesis_data registry_data revoked_keys] in *.
    unfold PERSISTED_STATE_VERSION. split_and!; try (done || lia).
    + destruct genesis as [g|]; [|done]. by apply genesis_bytes, Hg.
    + apply Forall_forall. intros k Hk%Hkeys. rewrite Forall_forall in Hrev. set_solver.
    + len.
  - unfold restore_identity. cbn. rewrite Hkey. by destruct identity.
  - unfold restore_genesis. cbn. rewrite Hgen. cbn. destruct genesis as [g|]; [|done]. cbn.
    by rewrite (wire_roundtrip g) by eauto.
  - unfold restore_registry. cbn [set_persisted_at registry_data]. rewrite Hreg.
    cbn [with_registry registry_data]. rewrite bool_decide_eq_false_2
      by (intros E; rewrite E in Hrl; cbn in Hrl; lia).
    by rewrite TrustProofs.registry_roundtrip by (done || lia).
  - intros k. cbn. rewrite Hkeys. cbn. set_solver.
  - done.
Qed.
End restart.

End PersistenceProofs.
