(* ===== verification/PeatMesh.v ===== *)
(** * The mesh facade of src/src/peat_mesh.rs: configuration, state and
    operations.  The theorems are in [MeshTransport], [MeshDelta], [MeshNode]
    and [MeshService].

    [PeatMesh] composes the components modelled in the other files.  Its
    methods take [&self] and change components behind locks and atomics; here
    a method is a step of the monad [M], which threads the whole state, and
    whose order of effects is that of the code.  A method that the code
    returns early from with [?] is written with [←?].

    Random nonces, the wall clock ([wall_ms], milliseconds) and the clock that
    seeds the gossip strategy ([clock]) are arguments. *)

From Stdlib Require Import String.
From stdpp Require Import base numbers list gmap.
From S2P Require Import Prelude Crdt Sensor Delta DeltaDoc Document DocSync Chat Crypto Session.
From S2P Require Import Identity Trust PeerGraph PeerManager Config Gossip Relay Observer.
From S2P Require Import Registry Persistence.
Import DocumentType (AppTypes, app_type, doc).
Open Scope Z_scope.
Open Scope peat_scope.

(** ** Configuration *)

Module PeatMeshConfig.

Record t := mk {
  node_id : Z; callsign : list Z; mesh_id : list Z; peripheral_type : PeripheralType.t;
  peer_config : PeerManagerConfig.t; sync_interval_ms : Z; auto_broadcast_events : bool;
  encryption_secret : option (list Z); strict_encryption : bool; enable_relay : bool;
  max_relay_hops : Z; relay_fanout : Z; seen_cache_ttl_ms : Z
}.

Definition new (node_id : Z) (callsign mesh_id : list Z) : t :=
  mk node_id callsign mesh_id PeripheralType.SoldierSensor (PeerManagerConfig.with_mesh_id mesh_id)
    5000 true None false false DEFAULT_MAX_HOPS 2 DEFAULT_SEEN_TTL_MS.

Definition set_node_id (self : t) (node_id : Z) : t :=
  let 'mk _ c m p pc s a e st r h f ttl := self in mk node_id c m p pc s a e st r h f ttl.
Definition with_encryption (self : t) (secret : list Z) : t :=
  let 'mk n c m p pc s a _ st r h f ttl := self in mk n c m p pc s a (Some secret) st r h f ttl.
Definition with_peripheral_type (self : t) (ptype : PeripheralType.t) : t :=
  let 'mk n c m _ pc s a e st r h f ttl := self in mk n c m ptype pc s a e st r h f ttl.
Definition with_sync_interval (self : t) (interval_ms : Z) : t :=
  let 'mk n c m p pc _ a e st r h f ttl := self in mk n c m p pc interval_ms a e st r h f ttl.
Definition set_peer_config (self : t) (peer_config : PeerManagerConfig.t) : t :=
  let 'mk n c m p _ s a e st r h f ttl := self in mk n c m p peer_config s a e st r h f ttl.
Definition with_peer_timeout (self : t) (timeout_ms : Z) : t :=
  set_peer_config self (PeerManagerConfig.peer_timeout (peer_config self) timeout_ms).
Definition with_max_peers (self : t) (max : Z) : t :=
  set_peer_config self (PeerManagerConfig.set_max_peers (peer_config self) max).
Definition with_strict_encryption (self : t) : t :=
  let 'mk n c m p pc s a e _ r h f ttl := self in mk n c m p pc s a e true r h f ttl.
Definition set_relay (self : t) (b : bool) : t :=
  let 'mk n c m p pc s a e st _ h f ttl := self in mk n c m p pc s a e st b h f ttl.
Definition with_relay (self : t) : t := set_relay self true.
Definition with_max_relay_hops (self : t) (max_hops : Z) : t :=
  let 'mk n c m p pc s a e st r _ f ttl := self in mk n c m p pc s a e st r max_hops f ttl.
Definition with_relay_fanout (self : t) (fanout : Z) : t :=
  let 'mk n c m p pc s a e st r h _ ttl := self in mk n c m p pc s a e st r h (Z.max fanout 1) ttl.
Definition with_seen_cache_ttl (self : t) (ttl_ms : Z) : t :=
  let 'mk n c m p pc s a e st r h f _ := self in mk n c m p pc s a e st r h f ttl_ms.

End PeatMeshConfig.

(** ** The result of receiving data *)

Module DataReceivedResult.

Record t := mk {
  source_node : Z; is_emergency : bool; is_ack : bool; counter_changed : bool;
  emergency_changed : bool; total_count : Z; event_timestamp : Z; relay_data : option (list Z);
  origin_node : option Z; hop_count : Z;
  callsign : option (list Z); battery_percent : option Z; heart_rate : option Z;
  event_type : option Z; latitude : option Z; longitude : option Z; altitude : option Z
}.

(** The last seven fields. *)
Definition peripheral_fields (peripheral : option Peripheral.t)
    : option (list Z) * option Z * option Z * option Z * option Z * option Z * option Z :=
  match peripheral with
  | Some p =>
      let callsign :=
        let s := Peripheral.callsign_str p in if bool_decide (s = []) then None else Some s in
      let battery_percent := HealthStatus.battery_percent (Peripheral.health p) in
      let battery := if 0 <? battery_percent then Some battery_percent else None in
      let heart_rate := HealthStatus.heart_rate (Peripheral.health p) in
      let event_type := (λ e, EventType.to_u8 (PeripheralEvent.event_type e))
                          <$> Peripheral.last_event p in
      let '(lat, lon, alt) :=
        match Peripheral.location p with
        | Some loc => (Some (Position.latitude loc), Some (Position.longitude loc),
                       Position.altitude loc)
        | None => (None, None, None)
        end in
      (callsign, battery, heart_rate, event_type, lat, lon, alt)
  | None => (None, None, None, None, None, None, None)
  end.

(** The result of a merge, with what is known of its way here. *)
Definition of_merge (result : MergeResult.t) (relay_data : option (list Z))
    (origin_node : option Z) (hop_count : Z) : t :=
  let '(callsign, battery_percent, heart_rate, event_type, latitude, longitude, altitude) :=
    peripheral_fields (MergeResult.peer_peripheral result) in
  mk (MergeResult.source_node result) (MergeResult.is_emergency result)
    (MergeResult.is_ack result) (MergeResult.counter_changed result)
    (MergeResult.emergency_changed result) (MergeResult.total_count result)
    (default 0 (PeripheralEvent.timestamp <$> MergeResult.event result))
    relay_data origin_node hop_count
    callsign battery_percent heart_rate event_type latitude longitude altitude.

End DataReceivedResult.

(** ** The state *)

Module PeatMesh.

Section state.
Context `{Crypto} `{AppTypes}.

Record t := mk {
  config : PeatMeshConfig.t;
  peer_manager : PeerManager.t;
  document_sync : DocumentSync.t;
  observers : ObserverManager.t;
  last_sync_ms : Z;
  last_cleanup_ms : Z;
  encryption_key : option MeshEncryptionKey.t;
  peer_sessions : option PeerSessionManager.t;
  connection_graph : ConnectionStateGraph.t;
  seen_cache : SeenMessageCache.t;
  gossip_strategy : RandomFanout.t;
  delta_encoder : DeltaEncoder.t;
  identity : option DeviceIdentity.t;
  identity_registry : IdentityRegistry.t;
  peer_peripherals : gmap Z Peripheral.t;
  document_registry : DocumentRegistry.t;
  app_documents : AppDocuments.t
}.

Definition set_config (self : t) (x : PeatMeshConfig.t) : t :=
  mk x (peer_manager self) (document_sync self) (observers self) (last_sync_ms self)
    (last_cleanup_ms self) (encryption_key self) (peer_sessions self) (connection_graph self)
    (seen_cache self) (gossip_strategy self) (delta_encoder self) (identity self)
    (identity_registry self) (peer_peripherals self) (document_registry self)
    (app_documents self).
Definition set_peer_manager (self : t) (x : PeerManager.t) : t :=
  mk (config self) x (document_sync self) (observers self) (last_sync_ms self)
    (last_cleanup_ms self) (encryption_key self) (peer_sessions self) (connection_graph self)
    (seen_cache self) (gossip_strategy self) (delta_encoder self) (identity self)
    (identity_registry self) (peer_peripherals self) (document_registry self)
    (app_documents self).
Definition set_document_sync (self : t) (x : DocumentSync.t) : t :=
  mk (config self) (peer_manager self) x (observers self) (last_sync_ms self)
    (last_cleanup_ms self) (encryption_key self) (peer_sessions self) (connection_graph self)
    (seen_cache self) (gossip_strategy self) (delta_encoder self) (identity self)
    (identity_registry self) (peer_peripherals self) (document_registry self)
    (app_documents self).
Definition set_observers (self : t) (x : ObserverManager.t) : t :=
  mk (config self) (peer_manager self) (document_sync self) x (last_sync_ms self)
    (last_cleanup_ms self) (encryption_key self) (peer_sessions self) (connection_graph self)
    (seen_cache self) (gossip_strategy self) (delta_encoder self) (identity self)
    (identity_registry self) (peer_peripherals self) (document_registry self)
    (app_documents self).
Definition set_last_sync (self : t) (x : Z) : t :=
  mk (config self) (peer_manager self) (document_sync self) (observers self) x
    (last_cleanup_ms self) (encryption_key self) (peer_sessions self) (connection_graph self)
    (seen_cache self) (gossip_strategy self) (delta_encoder self) (identity self)
    (identity_registry self) (peer_peripherals self) (document_registry self)
    (app_documents self).
Definition set_last_cleanup (self : t) (x : Z) : t :=
  mk (config self) (peer_manager self) (document_sync self) (observers self) (last_sync_ms self)
    x (encryption_key self) (peer_sessions self) (connection_graph self) (seen_cache self)
    (gossip_strategy self) (delta_encoder self) (identity self) (identity_registry self)
    (peer_peripherals self) (document_registry self) (app_documents self).
Definition set_encryption_key (self : t) (x : option MeshEncryptionKey.t) : t :=
  mk (config self) (peer_manager self) (document_sync self) (observers self) (last_sync_ms self)
    (last_cleanup_ms self) x (peer_sessions self) (connection_graph self) (seen_cache self)
    (gossip_strategy self) (delta_encoder self) (identity self) (identity_registry self)
    (peer_peripherals self) (document_registry self) (app_documents self).
Definition set_peer_sessions (self : t) (x : option PeerSessionManager.t) : t :=
  mk (config self) (peer_manager self) (document_sync self) (observers self) (last_sync_ms self)
    (last_cleanup_ms self) (encryption_key self) x (connection_graph self) (seen_cache self)
    (gossip_strategy self) (delta_encoder self) (identity self) (identity_registry self)
    (peer_peripherals self) (document_registry self) (app_documents self).
Definition set_connection_graph (self : t) (x : ConnectionStateGraph.t) : t :=
  mk (config self) (peer_manager self) (document_sync self) (observers self) (last_sync_ms self)
    (last_cleanup_ms self) (encryption_key self) (peer_sessions self) x (seen_cache self)
    (gossip_strategy self) (delta_encoder self) (identity self) (identity_registry self)
    (peer_peripherals self) (document_registry self) (app_documents self).
Definition set_seen_cache (self : t) (x : SeenMessageCache.t) : t :=
  mk (config self) (peer_manager self) (document_sync self) (observers self) (last_sync_ms self)
    (last_cleanup_ms self) (encryption_key self) (peer_sessions self) (connection_graph self) x
    (gossip_strategy self) (delta_encoder self) (identity self) (identity_registry self)
    (peer_peripherals self) (document_registry self) (app_documents self).
Definition set_delta_encoder (self : t) (x : DeltaEncoder.t) : t :=
  mk (config self) (peer_manager self) (document_sync self) (observers self) (last_sync_ms self)
    (last_cleanup_ms self) (encryption_key self) (peer_sessions self) (connection_graph self)
    (seen_cache self) (gossip_strategy self) x (identity self) (identity_registry self)
    (peer_peripherals self) (document_registry self) (app_documents self).
Definition set_identity_registry (self : t) (x : IdentityRegistry.t) : t :=
  mk (config self) (peer_manager self) (document_sync self) (observers self) (last_sync_ms self)
    (last_cleanup_ms self) (encryption_key self) (peer_sessions self) (connection_graph self)
    (seen_cache self) (gossip_strategy self) (delta_encoder self) (identity self) x
    (peer_peripherals self) (document_registry self) (app_documents self).
Definition set_peer_peripherals (self : t) (x : gmap Z Peripheral.t) : t :=
  mk (config self) (peer_manager self) (document_sync self) (observers self) (last_sync_ms self)
    (last_cleanup_ms self) (encryption_key self) (peer_sessions self) (connection_graph self)
    (seen_cache self) (gossip_strategy self) (delta_encoder self) (identity self)
    (identity_registry self) x (document_registry self) (app_documents self).
Definition set_document_registry (self : t) (x : DocumentRegistry.t) : t :=
  mk (config self) (peer_manager self) (document_sync self) (observers self) (last_sync_ms self)
    (last_cleanup_ms self) (encryption_key self) (peer_sessions self) (connection_graph self)
    (seen_cache self) (gossip_strategy self) (delta_encoder self) (identity self)
    (identity_registry self) (peer_peripherals self) x (app_documents self).
Definition set_app_documents (self : t) (x : AppDocuments.t) : t :=
  mk (config self) (peer_manager self) (document_sync self) (observers self) (last_sync_ms self)
    (last_cleanup_ms self) (encryption_key self) (peer_sessions self) (connection_graph self)
    (seen_cache self) (gossip_strategy self) (delta_encoder self) (identity self)
    (identity_registry self) (peer_peripherals self) (document_registry self) x.

(** *** Construction *)

Definition build (config : PeatMeshConfig.t) (identity : option DeviceIdentity.t) : t :=
  let node_id := PeatMeshConfig.node_id config in
  let peer_config := PeatMeshConfig.peer_config config in
  mk config (PeerManager.new node_id peer_config)
    (DocumentSync.with_peripheral_type node_id (PeatMeshConfig.callsign config)
       (PeatMeshConfig.peripheral_type config))
    ObserverManager.new 0 0
    (MeshEncryptionKey.from_shared_secret (PeatMeshConfig.mesh_id config)
       <$> PeatMeshConfig.encryption_secret config)
    None
    (ConnectionStateGraph.with_config (PeerManagerConfig.rssi_degraded_threshold peer_config)
       (PeerManagerConfig.lost_timeout_ms peer_config))
    (SeenMessageCache.with_ttl (PeatMeshConfig.seen_cache_ttl_ms config))
    (RandomFanout.new (PeatMeshConfig.relay_fanout config))
    (DeltaEncoder.new node_id) identity IdentityRegistry.new ∅ DocumentRegistry.new ∅.
Definition new (config : PeatMeshConfig.t) : t := build config None.
Definition with_identity (config : PeatMeshConfig.t) (identity : DeviceIdentity.t) : t :=
  build (PeatMeshConfig.set_node_id config (DeviceIdentity.node_id identity)) (Some identity).
Definition from_genesis (genesis : MeshGenesis.t) (identity : DeviceIdentity.t)
    (callsign : list Z) : t :=
  with_identity
    (PeatMeshConfig.with_encryption
       (PeatMeshConfig.new (DeviceIdentity.node_id identity) callsign (MeshGenesis.mesh_id genesis))
       (MeshGenesis.encryption_secret genesis)) identity.

Definition from_persisted (state : PersistedState.t) (callsign : list Z)
    : outcome (result t PersistenceError.t) :=
  match PersistedState.restore_identity state with
  | Err e => Ok (Err e)
  | Okay identity =>
      let! genesis := PersistedState.restore_genesis state in
      let mesh :=
        match genesis with
        | Some gen => from_genesis gen identity callsign
        | None =>
            with_identity (PeatMeshConfig.new (DeviceIdentity.node_id identity) callsign
                             (str "RESTORED"%string)) identity
        end in
      let! restored_registry := PersistedState.restore_registry state in
      Ok (Okay (set_identity_registry mesh restored_registry))
  end.
Definition to_persisted_state `{!MapOrder Z} (self : t) (genesis : option MeshGenesis.t)
    : option PersistedState.t :=
  (λ identity, PersistedState.with_registry identity genesis (identity_registry self))
    <$> identity self.

(** ** The monad *)

Definition M (A : Type) : Type := t → outcome (t * A).
#[global] Instance M_ret : MRet M := λ A a self, Ok (self, a).
#[global] Instance M_bind : MBind M := λ A B k m self, let! r := m self in k r.2 r.1.

Definition gets {A} (f : t → A) : M A := λ self, Ok (self, f self).
Definition modify (f : t → t) : M unit := λ self, Ok (f self, tt).
Definition lift {A} (o : outcome A) : M A := λ self, let! a := o in Ok (self, a).
(** A method of a component that changes it. *)
Definition on {C A} (get : t → C) (set : t → C → t) (f : C → outcome (C * A)) : M A :=
  λ self, let! r := f (get self) in Ok (set self r.1, r.2).
Definition try_bind {A B} (m : M (option A)) (k : A → M (option B)) : M (option B) :=
  x ← m; match x with Some a => k a | None => mret None end.

Definition on_peers {A} (f : PeerManager.t → PeerManager.t * A) : M A :=
  on peer_manager set_peer_manager (λ c, Ok (f c)).
Definition on_graph {A} (f : ConnectionStateGraph.t → outcome (ConnectionStateGraph.t * A)) : M A :=
  on connection_graph set_connection_graph f.
Definition on_doc {A} (f : DocumentSync.t → DocumentSync.t * A) : M A :=
  on document_sync set_document_sync (λ c, Ok (f c)).
Definition on_encoder (f : DeltaEncoder.t → outcome DeltaEncoder.t) : M unit :=
  on delta_encoder set_delta_encoder (λ c, let! c := f c in Ok (c, tt)).

Definition notify (event : PeatEvent.t) : M unit :=
  modify (λ self, set_observers self (ObserverManager.notify (observers self) event)).
Fixpoint notify_each (events : list PeatEvent.t) : M unit :=
  match events with
  | [] => mret tt
  | e :: events => notify e;; notify_each events
  end.
Definition notify_mesh_state_changed : M unit :=
  self ← gets id;
  notify (PeatEvent.MeshStateChanged (PeerManager.peer_count (peer_manager self))
            (PeerManager.connected_count (peer_manager self))).

End state.

Notation "x ←? m ; k" := (try_bind m (λ x, k))
  (at level 20, m at level 100, k at level 200, only parsing) : peat_scope.
Notation "' x ←? m ; k" := (try_bind m (λ x, k))
  (at level 20, x pattern, m at level 100, k at level 200, only parsing) : peat_scope.

Section ops.
Context `{Crypto} `{AppTypes} `{!MapOrder Z} `{!MapOrder (Z * Z * Z)} (legacy_chat : bool).

(** ** Encryption *)

Definition is_encryption_enabled (self : t) : bool := bool_decide (is_Some (encryption_key self)).
Definition is_strict_encryption_enabled (self : t) : bool :=
  PeatMeshConfig.strict_encryption (config self) && is_encryption_enabled self.
Definition enable_encryption (self : t) (secret : list Z) : t :=
  set_encryption_key self
    (Some (MeshEncryptionKey.from_shared_secret (PeatMeshConfig.mesh_id (config self)) secret)).
Definition disable_encryption (self : t) : t := set_encryption_key self None.

Definition encrypt_document (self : t) (nonce plaintext : list Z) : list Z :=
  match encryption_key self with
  | Some key =>
      match MeshEncryptionKey.encrypt_to_bytes key nonce plaintext with
      | Okay ciphertext => [ENCRYPTED_MARKER] ++ [0x00] ++ ciphertext
      | Err _ => plaintext
      end
  | None => plaintext
  end.

(** [data.len() >= 2 && data[0] == marker]. *)
Definition has_marker (data : list Z) (marker : Z) : outcome bool :=
  if 2 <=? zlen data then let! b := u8_at data 0 in Ok (b =? marker) else Ok false.

Definition decrypt_document (data : list Z) (source_hint : option (list Z))
    : M (option (list Z)) :=
  encrypted ← lift (has_marker data ENCRYPTED_MARKER);
  self ← gets id;
  if encrypted : bool then
    encrypted_payload ← lift (slice_from data 2);
    match encryption_key self with
    | Some key =>
        r ← lift (MeshEncryptionKey.decrypt_from_bytes key encrypted_payload);
        match r with
        | Okay plaintext => mret (Some plaintext)
        | Err _ =>
            notify (PeatEvent.SecurityViolation SecurityViolationKind.DecryptionFailed source_hint);;
            mret None
        end
    | None => mret None
    end
  else if is_strict_encryption_enabled self then
    notify (PeatEvent.SecurityViolation SecurityViolationKind.UnencryptedInStrictMode source_hint);;
    mret None
  else mret (Some data).
Definition decrypt_only (data : list Z) : M (option (list Z)) := decrypt_document data None.

(** ** Identity *)

Definition has_identity (self : t) : bool := bool_decide (is_Some (identity self)).
Definition public_key (self : t) : option (list Z) := DeviceIdentity.public_key <$> identity self.
Definition create_attestation (self : t) (now_ms : Z) : option IdentityAttestation.t :=
  (λ id, DeviceIdentity.create_attestation id now_ms) <$> identity self.
Definition verify_peer_identity (attestation : IdentityAttestation.t) : M RegistryResult.t :=
  on identity_registry set_identity_registry
    (λ r, Ok (IdentityRegistry.verify_or_register r attestation)).
Definition is_peer_identity_known (self : t) (node_id : Z) : bool :=
  IdentityRegistry.is_known (identity_registry self) node_id.
Definition peer_public_key (self : t) (node_id : Z) : option (list Z) :=
  IdentityRegistry.get_public_key (identity_registry self) node_id.
Definition known_identity_count (self : t) : Z := IdentityRegistry.len (identity_registry self).
Definition pre_register_peer_identity (self : t) (node_id : Z) (public_key : list Z) (now_ms : Z) : t :=
  set_identity_registry self
    (IdentityRegistry.pre_register (identity_registry self) node_id public_key now_ms).
Definition forget_peer_identity (self : t) (node_id : Z) : t :=
  set_identity_registry self (IdentityRegistry.remove (identity_registry self) node_id).1.
Definition sign (self : t) (data : list Z) : option (list Z) :=
  (λ id, DeviceIdentity.sign id data) <$> identity self.
Definition verify_peer_signature (self : t) (node_id : Z) (data signature : list Z) : bool :=
  match peer_public_key self node_id with
  | Some public_key => verify_signature public_key data signature
  | None => false
  end.

(** ** Multi-hop relay *)

Definition node_id (self : t) : Z := PeatMeshConfig.node_id (config self).
Definition is_relay_enabled (self : t) : bool := PeatMeshConfig.enable_relay (config self).
Definition enable_relay (self : t) : t :=
  set_config self (PeatMeshConfig.set_relay (config self) true).
Definition disable_relay (self : t) : t :=
  set_config self (PeatMeshConfig.set_relay (config self) false).

(** What the relay handler of [Relay] sees of the mesh, and what it changes. *)
Definition relay_view (self : t) : MeshRelay.t :=
  MeshRelay.mk (node_id self) (is_relay_enabled self) (PeatMeshConfig.max_relay_hops (config self))
    (seen_cache self) (connection_graph self).
Definition set_relay_view (self : t) (v : MeshRelay.t) : t :=
  set_connection_graph (set_seen_cache self (MeshRelay.seen_cache v)) (MeshRelay.connection_graph v).
Definition relay_event (e : MeshRelay.event) : PeatEvent.t :=
  match e with
  | MeshRelay.DuplicateMessageDropped origin_node seen_count =>
      PeatEvent.DuplicateMessageDropped origin_node seen_count
  | MeshRelay.MessageTtlExpired origin_node hop_count =>
      PeatEvent.MessageTtlExpired origin_node hop_count
  end.

Definition has_seen_message (self : t) (message_id : Z) : bool :=
  MeshRelay.has_seen_message (relay_view self) message_id.
Definition mark_message_seen (message_id origin now_ms : Z) : M bool :=
  on seen_cache set_seen_cache
    (λ c, SeenMessageCache.check_and_mark c message_id origin now_ms).
Definition seen_cache_size (self : t) : Z := SeenMessageCache.len (seen_cache self).
Definition clear_seen_cache (self : t) : t :=
  set_seen_cache self (SeenMessageCache.clear (seen_cache self)).
Definition wrap_for_relay (self : t) (wall_ms : Z) (payload : list Z) : list Z :=
  MeshRelay.wrap_for_relay (relay_view self) wall_ms payload.
Definition get_relay_targets (self : t) (clock : Z → Z) (exclude_peer : option Z)
    : outcome (list PeatPeer.t) :=
  MeshRelay.get_relay_targets (gossip_strategy self) clock
    (PeerManager.get_connected_peers (peer_manager self)) exclude_peer.

Definition process_relay_envelope (data : list Z) (source_peer now_ms : Z)
    : M (option MeshRelay.Decision.t) :=
  r ← on relay_view set_relay_view (λ v,
    let! r := MeshRelay.process_relay_envelope v data source_peer now_ms in
    let '(v, events, decision) := r in Ok (v, (events, decision)));
  notify_each (map relay_event r.1);;
  mret r.2.

(** ** Building documents *)

Definition build_document (self : t) (nonce : list Z) : list Z :=
  encrypt_document self nonce (DocumentSync.build_document legacy_chat (document_sync self)).
Definition build_relay_document (self : t) (nonce : list Z) (wall_ms : Z) : list Z :=
  wrap_for_relay self wall_ms (build_document self nonce).

(** ** Delta sync *)

Definition register_peer_for_delta (peer_id : Z) : M unit :=
  on_encoder (λ e, Ok (DeltaEncoder.add_peer e peer_id)).
Definition unregister_peer_for_delta (peer_id : Z) : M unit :=
  on_encoder (λ e, Ok (DeltaEncoder.remove_peer e peer_id)).
Definition reset_peer_delta_state (peer_id : Z) : M unit :=
  on_encoder (λ e, Ok (DeltaEncoder.reset_peer e peer_id)).
Definition record_delta_sent (peer_id bytes : Z) : M unit :=
  on_encoder (λ e, DeltaEncoder.record_sent e peer_id bytes).
Definition record_delta_received (peer_id bytes timestamp : Z) : M unit :=
  on_encoder (λ e, DeltaEncoder.record_received e peer_id bytes timestamp).
Definition delta_stats (self : t) : outcome DeltaStats.t := Delta.delta_stats (delta_encoder self).
Definition peer_delta_stats (self : t) (peer_id : Z) : option (Z * Z * Z) :=
  (λ st, (PeerSyncState.bytes_sent st, PeerSyncState.bytes_received st, PeerSyncState.sync_count st))
    <$> DeltaEncoder.get_peer_state (delta_encoder self) peer_id.

Definition app_document_delta_ops (self : t) : list AppOperation.t :=
  AppDocuments.app_document_delta_ops (document_registry self) (app_documents self).

(** The operations of the current state: [counter_time] is the timestamp of a
    count, [peripheral_time] that of a peripheral without an event. *)
Definition emergency_ops (e : EmergencyEvent.t) : list Operation.t :=
  Operation.SetEmergency (EmergencyEvent.source_node e) (EmergencyEvent.timestamp e)
    (EmergencyEvent.all_nodes e)
  :: map (λ acked_node, Operation.AckEmergency acked_node (EmergencyEvent.timestamp e))
       (EmergencyEvent.acked_nodes e).
Definition all_operations (self : t) (counter_time : Z → Z) (peripheral_time : Z)
    : list Operation.t :=
  let doc := document_sync self in
  let peripheral := DocumentSync.peripheral_snapshot doc in
  map (λ '(node_id, count), Operation.IncrementCounter 0 node_id count (counter_time count))
    (DocumentSync.counter_entries doc)
  ++ [Operation.UpdatePeripheral peripheral
        (default peripheral_time (PeripheralEvent.timestamp <$> Peripheral.last_event peripheral))]
  ++ match DocumentSync.emergency_snapshot doc with Some e => emergency_ops e | None => [] end
  ++ map Operation.App (app_document_delta_ops self).

Definition mark_operations_sent (st : PeerSyncState.t) (ops : list Operation.t) : PeerSyncState.t :=
  foldl (λ st op, PeerSyncState.mark_sent st (Operation.key op) (Operation.timestamp op)) st ops.
Definition build_delta_document_for_peer (nonce : list Z) (peer_id now_ms : Z)
    : M (option (list Z)) :=
  self ← gets id;
  let all_operations := all_operations self (λ count, count) 1 in
  let filtered_operations :=
    match DeltaEncoder.get_peer_state (delta_encoder self) peer_id with
    | Some peer_state =>
        filter (λ op, PeerSyncState.needs_send peer_state (Operation.key op)
                        (Operation.timestamp op) = true) all_operations
    | None => all_operations
    end in
  if bool_decide (filtered_operations = []) then mret None
  else
    on_encoder (λ e,
      match DeltaEncoder.get_peer_state e peer_id with
      | Some peer_state =>
          Ok (DeltaEncoder.set_peers e
                (<[peer_id := mark_operations_sent peer_state filtered_operations]>
                   (DeltaEncoder.peers e)))
      | None => Ok e
      end);;
    let delta := foldl DeltaDocument.add_operation (DeltaDocument.new (node_id self) now_ms)
                   filtered_operations in
    encoded ← lift (DeltaDocument.encode delta);
    let result := encrypt_document self nonce encoded in
    record_delta_sent peer_id (zlen result);;
    mret (Some result).

Definition build_full_delta_document (self : t) (nonce : list Z) (now_ms : Z) : outcome (list Z) :=
  let delta := foldl DeltaDocument.add_operation (DeltaDocument.new (node_id self) now_ms)
                 (all_operations self (λ _, now_ms) now_ms) in
  let! encoded := DeltaDocument.encode delta in
  Ok (encrypt_document self nonce encoded).

(** What the operations of a delta document have shown so far. *)
Record delta_seen := mk_seen {
  seen_counter : bool; seen_emergency : bool; is_emergency : bool; is_ack : bool;
  event_timestamp : Z; peer_peripheral : option Peripheral.t
}.
Definition nothing_seen : delta_seen := mk_seen false false false false 0 None.

Definition current_count (self : t) (node : Z) : Z :=
  match List.find (λ e, e.1 =? node) (DocumentSync.counter_entries (document_sync self)) with
  | Some (_, v) => v
  | None => 0
  end.
Definition apply_delta_operation (origin : Z) (acc : delta_seen) (op : Operation.t) : M delta_seen :=
  self ← gets id;
  let 'mk_seen counter_changed emergency_changed is_emergency is_ack event_timestamp
         peer_peripheral := acc in
  match op with
  | Operation.IncrementCounter _ node_id amount _ =>
      mret (mk_seen (if current_count self node_id <? amount then true else counter_changed)
              emergency_changed is_emergency is_ack event_timestamp peer_peripheral)
  | Operation.UpdatePeripheral peripheral timestamp =>
      modify (λ self, set_peer_peripherals self (<[origin := peripheral]> (peer_peripherals self)));;
      mret (mk_seen counter_changed emergency_changed is_emergency is_ack
              (Z.max event_timestamp timestamp) (Some peripheral))
  | Operation.SetEmergency _ timestamp _ =>
      mret (mk_seen counter_changed true true is_ack timestamp peer_peripheral)
  | Operation.AckEmergency _ emergency_timestamp =>
      mret (mk_seen counter_changed true is_emergency true
              (Z.max event_timestamp emergency_timestamp) peer_peripheral)
  | Operation.ClearEmergency emergency_timestamp =>
      mret (mk_seen counter_changed true is_emergency is_ack
              (Z.max event_timestamp emergency_timestamp) peer_peripheral)
  | Operation.App app_op =>
      changed ← on app_documents set_app_documents
        (λ docs, Ok (AppDocuments.apply_app_op (document_registry self) docs app_op));
      notify (PeatEvent.AppDocumentReceived (AppOperation.type_id app_op)
                (AppOperation.source_node app_op)
                (Z.land (AppOperation.timestamp app_op) 0x0000FFFFFFFFFFFF) changed);;
      mret acc
  end.
Fixpoint apply_delta_operations (origin : Z) (acc : delta_seen) (ops : list Operation.t)
    : M delta_seen :=
  match ops with
  | [] => mret acc
  | op :: ops => acc ← apply_delta_operation origin acc op; apply_delta_operations origin acc ops
  end.

(** [EmergencyReceived], else [AckReceived]. *)
Definition notify_event_kind (is_emergency is_ack : bool) (from_node : Z) : M unit :=
  if is_emergency then notify (PeatEvent.EmergencyReceived from_node)
  else if is_ack then notify (PeatEvent.AckReceived from_node)
  else mret tt.
Definition notify_relayed (clock : Z → Z) (relay_data : option (list Z)) (source_node origin hop_count : Z)
    : M unit :=
  if bool_decide (is_Some relay_data) then
    self ← gets id;
    relay_targets ← lift (get_relay_targets self clock (Some source_node));
    notify (PeatEvent.MessageRelayed origin (zlen relay_targets) hop_count)
  else mret tt.

Definition process_delta_document_internal (clock : Z → Z) (source_node : Z) (data : list Z)
    (now_ms : Z) (relay_data : option (list Z)) (origin_node : option Z) (hop_count : Z)
    : M (option DataReceivedResult.t) :=
  delta ←? lift (opt (DeltaDocument.decode data));
  self ← gets id;
  let origin := DeltaDocument.origin_node delta in
  if origin =? node_id self then mret None
  else
    seen ← apply_delta_operations origin nothing_seen (DeltaDocument.operations delta);
    on_peers (λ pm, (PeerManager.record_sync pm source_node now_ms, tt));;
    record_delta_received source_node (zlen data) now_ms;;
    notify_event_kind (is_emergency seen) (is_ack seen) origin;;
    self ← gets id;
    (if seen_counter seen : bool then
       total_count ← lift (DocumentSync.total_count (document_sync self));
       notify (PeatEvent.DocumentSynced origin total_count)
     else mret tt);;
    notify_relayed clock relay_data source_node (default origin origin_node) hop_count;;
    let '(callsign, battery_percent, heart_rate, event_type, latitude, longitude, altitude) :=
      DataReceivedResult.peripheral_fields (peer_peripheral seen) in
    total_count ← lift (DocumentSync.total_count (document_sync self));
    mret (Some (DataReceivedResult.mk origin (is_emergency seen) (is_ack seen) (seen_counter seen)
      (seen_emergency seen) total_count (event_timestamp seen) relay_data origin_node hop_count
      callsign battery_percent heart_rate event_type latitude longitude altitude)).

(** ** Per-peer encryption *)

Definition enable_peer_e2ee (self : t) (random : list Z) : t :=
  match peer_sessions self with
  | None => set_peer_sessions self (Some (PeerSessionManager.new (node_id self) random))
  | Some _ => self
  end.
Definition disable_peer_e2ee (self : t) : t := set_peer_sessions self None.
Definition is_peer_e2ee_enabled (self : t) : bool := bool_decide (is_Some (peer_sessions self)).
Definition peer_e2ee_public_key (self : t) : option (list Z) :=
  PeerSessionManager.our_public_key <$> peer_sessions self.

(** [sessions.as_mut()?], and a method of the manager. *)
Definition on_sessions {A} (f : PeerSessionManager.t → PeerSessionManager.t * option A)
    : M (option A) :=
  on peer_sessions set_peer_sessions (λ sessions, Ok
    match sessions with
    | Some session_mgr => let '(session_mgr, r) := f session_mgr in (Some session_mgr, r)
    | None => (None, None)
    end).
Definition key_exchange_bytes (msg : KeyExchangeMessage.t) : list Z :=
  [KEY_EXCHANGE_MARKER] ++ [0x00] ++ KeyExchangeMessage.encode msg.

Definition initiate_peer_e2ee (peer_node_id now_ms : Z) : M (option (list Z)) :=
  on_sessions (λ session_mgr,
    let '(session_mgr, key_exchange) :=
      PeerSessionManager.initiate_session session_mgr peer_node_id now_ms in
    (session_mgr, Some (key_exchange_bytes key_exchange))).
Definition has_peer_e2ee_session (self : t) (peer_node_id : Z) : bool :=
  match peer_sessions self with
  | Some s => PeerSessionManager.has_session s peer_node_id | None => false
  end.
Definition peer_e2ee_session_state (self : t) (peer_node_id : Z) : option SessionState.t :=
  match peer_sessions self with
  | Some s => PeerSessionManager.session_state s peer_node_id | None => None
  end.
Definition send_peer_e2ee (nonce : list Z) (peer_node_id : Z) (plaintext : list Z) (now_ms : Z)
    : M (option (list Z)) :=
  on_sessions (λ session_mgr,
    let '(session_mgr, r) :=
      PeerSessionManager.encrypt_for_peer session_mgr peer_node_id nonce plaintext now_ms in
    (session_mgr,
     match r with
     | Okay encrypted => Some ([PEER_E2EE_MARKER] ++ [0x00] ++ PeerEncryptedMessage.encode encrypted)
     | Err _ => None
     end)).
Definition close_peer_e2ee (peer_node_id : Z) : M unit :=
  self ← gets id;
  match peer_sessions self with
  | Some session_mgr =>
      modify (λ self, set_peer_sessions self
                        (Some (PeerSessionManager.close_session session_mgr peer_node_id)));;
      notify (PeatEvent.PeerE2eeClosed peer_node_id)
  | None => mret tt
  end.
Definition peer_e2ee_session_count (self : t) : Z :=
  default 0 (PeerSessionManager.session_count <$> peer_sessions self).
Definition peer_e2ee_established_count (self : t) : Z :=
  default 0 (PeerSessionManager.established_count <$> peer_sessions self).

Definition handle_key_exchange (data : list Z) (now_ms : Z) : M (option (list Z)) :=
  marked ← lift (has_marker data KEY_EXCHANGE_MARKER);
  if negb marked then mret None
  else
    payload ← lift (slice_from data 2);
    msg ←? lift (opt (KeyExchangeMessage.decode payload));
    '(response, established) ←? on_sessions (λ session_mgr,
      PeerSessionManager.handle_key_exchange session_mgr msg now_ms);
    (if established : bool then
       notify (PeatEvent.PeerE2eeEstablished (KeyExchangeMessage.sender_node_id msg))
     else mret tt);;
    mret (Some (key_exchange_bytes response)).
Definition handle_peer_e2ee_message (data : list Z) (now_ms : Z) : M (option (list Z)) :=
  marked ← lift (has_marker data PEER_E2EE_MARKER);
  if negb marked then mret None
  else
    payload ← lift (slice_from data 2);
    msg ←? lift (opt (PeerEncryptedMessage.decode payload));
    r ←? on_sessions (λ session_mgr,
      let '(session_mgr, r) := PeerSessionManager.decrypt_from_peer session_mgr msg now_ms in
      (session_mgr, Some r));
    match r with
    | Okay plaintext =>
        notify (PeatEvent.PeerE2eeMessageReceived (PeerEncryptedMessage.sender_node_id msg)
                  plaintext);;
        mret (Some plaintext)
    | Err _ => mret None
    end.

(** ** Configuration *)

Definition callsign (self : t) : list Z := PeatMeshConfig.callsign (config self).
Definition mesh_id (self : t) : list Z := PeatMeshConfig.mesh_id (config self).
Definition device_name (self : t) : list Z :=
  str "PEAT_"%string ++ mesh_id self ++ str "-"%string ++ hex8 (node_id self).
Definition get_peer_peripheral (self : t) (n : Z) : option Peripheral.t := peer_peripherals self !! n.
Definition get_peer_callsign (self : t) (n : Z) : option (list Z) :=
  Peripheral.callsign_str <$> get_peer_peripheral self n.

(** ** Application documents *)

Definition store_app_document {T : app_type} (d : doc T) : M bool :=
  self ← gets id;
  on app_documents set_app_documents
    (λ docs, Ok (AppDocuments.store_app_document (document_registry self) docs d)).
Definition store_app_document_boxed (type_id source_node timestamp : Z) (d : Any.t) : M bool :=
  self ← gets id;
  on app_documents set_app_documents
    (λ docs, Ok (AppDocuments.store_app_document_boxed (document_registry self) docs type_id
                   source_node timestamp d)).
Definition get_app_document (self : t) (T : app_type) (source_node timestamp : Z) : option (doc T) :=
  AppDocuments.get_app_document (app_documents self) T source_node timestamp.
Definition get_all_app_documents_of_type (self : t) (T : app_type) : list (doc T) :=
  AppDocuments.get_all_app_documents_of_type (app_documents self) T.
Definition app_document_keys (self : t) (type_id : Z) : list (Z * Z) :=
  AppDocuments.app_document_keys (app_documents self) type_id.
Definition app_document_count (self : t) : Z := AppDocuments.app_document_count (app_documents self).
Definition add_observer (self : t) (observer : Z) : t :=
  set_observers self (ObserverManager.add (observers self) observer).
Definition remove_observer (self : t) (observer : Z) : t :=
  set_observers self (ObserverManager.remove (observers self) observer).

(** ** User actions *)

Definition send_emergency (nonce : list Z) (timestamp : Z) : M (list Z) :=
  data ← on_doc (λ d, DocumentSync.send_emergency legacy_chat d timestamp);
  notify_mesh_state_changed;;
  self ← gets id;
  mret (encrypt_document self nonce data).
Definition send_ack (nonce : list Z) (timestamp : Z) : M (list Z) :=
  data ← on_doc (λ d, DocumentSync.send_ack legacy_chat d timestamp);
  notify_mesh_state_changed;;
  self ← gets id;
  mret (encrypt_document self nonce data).
Definition broadcast_bytes (self : t) (nonce payload : list Z) : list Z :=
  encrypt_document self nonce payload.
Definition clear_event (self : t) : t :=
  set_document_sync self (DocumentSync.clear_event (document_sync self)).
Definition is_emergency_active (self : t) : bool :=
  DocumentSync.is_emergency_active (document_sync self).
Definition is_ack_active (self : t) : bool := DocumentSync.is_ack_active (document_sync self).
Definition current_event (self : t) : option EventType.t :=
  DocumentSync.current_event (document_sync self).

Definition start_emergency (nonce : list Z) (timestamp : Z) (known_peers : list Z) : M (list Z) :=
  data ← on_doc (λ d, DocumentSync.start_emergency legacy_chat d timestamp known_peers);
  notify_mesh_state_changed;;
  self ← gets id;
  mret (encrypt_document self nonce data).
Definition start_emergency_with_known_peers (nonce : list Z) (timestamp : Z) : M (list Z) :=
  self ← gets id;
  start_emergency nonce timestamp (PeatPeer.node_id <$> PeerManager.get_peers (peer_manager self)).
Definition ack_emergency (nonce : list Z) (timestamp : Z) : M (option (list Z)) :=
  result ← on_doc (λ d, DocumentSync.ack_emergency legacy_chat d timestamp);
  (if bool_decide (is_Some result) then notify_mesh_state_changed else mret tt);;
  self ← gets id;
  mret (encrypt_document self nonce <$> result).
Definition clear_emergency (self : t) : t :=
  set_document_sync self (DocumentSync.clear_emergency (document_sync self)).
Definition has_active_emergency (self : t) : bool :=
  DocumentSync.has_active_emergency (document_sync self).
Definition get_emergency_status (self : t) : option (Z * Z * Z * Z) :=
  DocumentSync.get_emergency_status (document_sync self).
Definition has_peer_acked (self : t) (peer_id : Z) : bool :=
  DocumentSync.has_peer_acked (document_sync self) peer_id.
Definition all_peers_acked (self : t) : bool := DocumentSync.all_peers_acked (document_sync self).

(** The feature legacy-chat.  Two nonces: the document that is encrypted here
    was already encrypted by [build_document]. *)
Definition send_chat (nonce1 nonce2 sender text : list Z) (timestamp : Z) : M (option (list Z)) :=
  added ← on_doc (λ d, DocumentSync.add_chat_message d sender text timestamp);
  self ← gets id;
  mret (if added : bool then Some (encrypt_document self nonce2 (build_document self nonce1))
        else None).
Definition send_chat_reply (nonce1 nonce2 sender text : list Z)
    (reply_to_node reply_to_timestamp timestamp : Z) : M (option (list Z)) :=
  added ← on_doc (λ d, DocumentSync.add_chat_reply d sender text reply_to_node
                         reply_to_timestamp timestamp);
  self ← gets id;
  mret (if added : bool then Some (encrypt_document self nonce2 (build_document self nonce1))
        else None).
Definition chat_count (self : t) : Z := DocumentSync.chat_count (document_sync self).
Definition chat_messages_since (self : t) (since_timestamp : Z)
    : list (Z * Z * list Z * list Z * Z * Z) :=
  DocumentSync.chat_messages_since (document_sync self) since_timestamp.
Definition all_chat_messages (self : t) : list (Z * Z * list Z * list Z * Z * Z) :=
  DocumentSync.all_chat_messages (document_sync self).

(** ** Callbacks of the platform *)

Definition on_ble_discovered (identifier : list Z) (name : option (list Z)) (rssi : Z)
    (mesh_id : option (list Z)) (now_ms : Z) : M (option PeatPeer.t) :=
  '(n, is_new) ←? on_peers (λ pm,
    PeerManager.on_discovered pm identifier name rssi mesh_id now_ms);
  self ← gets id;
  peer ←? mret (PeerManager.get_peer (peer_manager self) n);
  on_graph (λ g, Ok (ConnectionStateGraph.on_discovered g n identifier name mesh_id rssi now_ms,
                     tt));;
  (if is_new : bool then
     notify (PeatEvent.PeerDiscovered peer);; notify_mesh_state_changed
   else mret tt);;
  mret (Some peer).

Definition graph_connected (n now_ms : Z) : M unit :=
  on_graph (λ g, let! g := ConnectionStateGraph.on_connected g n now_ms in Ok (g, tt)).
Definition on_ble_connected (identifier : list Z) (now_ms : Z) : M (option Z) :=
  n ←? on_peers (λ pm, PeerManager.on_connected pm identifier now_ms);
  graph_connected n now_ms;;
  register_peer_for_delta n;;
  notify (PeatEvent.PeerConnected n);;
  notify_mesh_state_changed;;
  mret (Some n).

(** Both notions of a reason have the same six constructors. *)
Definition disconnected (n : Z) (reason : DisconnectReason.t) (wall_ms : Z) : M unit :=
  on_graph (λ g,
    let! g := ConnectionStateGraph.on_disconnected g n reason wall_ms in
    Ok (ConnectionStateGraph.remove_via_peer g n, tt));;
  unregister_peer_for_delta n;;
  notify (PeatEvent.PeerDisconnected n reason);;
  notify_mesh_state_changed.
Definition on_ble_disconnected (identifier : list Z) (reason : DisconnectReason.t) (wall_ms : Z)
    : M (option Z) :=
  '(n, observer_reason) ←? on_peers (λ pm, PeerManager.on_disconnected pm identifier reason);
  disconnected n observer_reason wall_ms;;
  mret (Some n).
Definition on_peer_disconnected (n : Z) (reason : DisconnectReason.t) (wall_ms : Z) : M unit :=
  known ← on_peers (λ pm, PeerManager.on_disconnected_by_node_id pm n reason);
  if known : bool then disconnected n reason wall_ms else mret tt.

(** A peer that is new to the peer manager enters the graph, then connects. *)
Definition graph_incoming (identifier : list Z) (n : Z) (is_new : bool) (now_ms : Z) : M unit :=
  self ← gets id;
  (if is_new then
     on_graph (λ g, Ok (ConnectionStateGraph.on_discovered g n identifier None
                          (Some (mesh_id self)) (-50) now_ms, tt))
   else mret tt);;
  graph_connected n now_ms.
Definition on_incoming_connection (identifier : list Z) (n now_ms : Z) : M bool :=
  is_new ← on_peers (λ pm, PeerManager.on_incoming_connection pm identifier n now_ms);
  graph_incoming identifier n is_new now_ms;;
  register_peer_for_delta n;;
  self ← gets id;
  (match (if is_new : bool then PeerManager.get_peer (peer_manager self) n else None) with
   | Some peer => notify (PeatEvent.PeerDiscovered peer)
   | None => mret tt
   end);;
  notify (PeatEvent.PeerConnected n);;
  notify_mesh_state_changed;;
  mret is_new.

(** ** Received data *)

Definition merge_document (data : list Z) : M (option MergeResult.t) :=
  on document_sync set_document_sync (λ d, DocumentSync.merge_document legacy_chat d data).
Definition store_peer_peripheral (result : MergeResult.t) : M unit :=
  match MergeResult.peer_peripheral result with
  | Some peripheral =>
      modify (λ self, set_peer_peripherals self
        (<[MergeResult.source_node result := peripheral]> (peer_peripherals self)))
  | None => mret tt
  end.
Definition record_sync (n now_ms : Z) : M unit :=
  on_peers (λ pm, (PeerManager.record_sync pm n now_ms, tt)).
Definition notify_merged (result : MergeResult.t) : M unit :=
  notify_event_kind (MergeResult.is_emergency result) (MergeResult.is_ack result)
    (MergeResult.source_node result);;
  if MergeResult.counter_changed result then
    notify (PeatEvent.DocumentSynced (MergeResult.source_node result)
              (MergeResult.total_count result))
  else mret tt.

(** [process_document_data] and [process_document_data_with_identifier]
    differ in the hint they give to [decrypt_document]. *)
Definition process_document_hinted (source_hint : list Z) (clock : Z → Z) (source_node : Z)
    (data : list Z) (now_ms : Z) (relay_data : option (list Z)) (origin_node : option Z)
    (hop_count : Z) : M (option DataReceivedResult.t) :=
  decrypted ←? decrypt_document data (Some source_hint);
  if DeltaDocument.is_delta_document decrypted then
    process_delta_document_internal clock source_node decrypted now_ms relay_data origin_node
      hop_count
  else
    result ←? merge_document decrypted;
    store_peer_peripheral result;;
    record_sync source_node now_ms;;
    notify_merged result;;
    notify_relayed clock relay_data source_node
      (default (MergeResult.source_node result) origin_node) hop_count;;
    mret (Some (DataReceivedResult.of_merge result relay_data origin_node hop_count)).
Definition process_document_data (clock : Z → Z) (source_node : Z) (data : list Z) (now_ms : Z)
    (relay_data : option (list Z)) (origin_node : option Z) (hop_count : Z)
    : M (option DataReceivedResult.t) :=
  process_document_hinted (str "node:"%string ++ hex8 source_node) clock source_node data now_ms
    relay_data origin_node hop_count.
Definition process_document_data_with_identifier (identifier : list Z) (clock : Z → Z)
    (source_node : Z) (data : list Z) (now_ms : Z) (relay_data : option (list Z))
    (origin_node : option Z) (hop_count : Z) : M (option DataReceivedResult.t) :=
  process_document_hinted identifier clock source_node data now_ms relay_data origin_node hop_count.

Definition handle_relay_envelope (clock : Z → Z) (source_node : Z) (data : list Z) (now_ms : Z)
    : M (option DataReceivedResult.t) :=
  decision ←? process_relay_envelope data source_node now_ms;
  let relay_data :=
    if MeshRelay.Decision.should_relay decision then MeshRelay.Decision.relay_data decision
    else None in
  process_document_data clock source_node (MeshRelay.Decision.payload decision) now_ms relay_data
    (Some (MeshRelay.Decision.origin_node decision)) (MeshRelay.Decision.hop_count decision).

(** The duplicate check of the two handlers that decode the envelope
    themselves, and what they relay. *)
Definition accept_envelope (envelope : RelayEnvelope.t) (now_ms : Z) : M (option unit) :=
  is_new ← mark_message_seen (RelayEnvelope.message_id envelope)
             (RelayEnvelope.origin_node envelope) now_ms;
  if negb is_new then
    self ← gets id;
    let seen_count :=
      match SeenMessageCache.get_stats (seen_cache self) (RelayEnvelope.message_id envelope) with
      | Some (_, count, _) => count | None => 1 end in
    notify (PeatEvent.DuplicateMessageDropped (RelayEnvelope.origin_node envelope) seen_count);;
    mret None
  else mret (Some tt).
Definition relay_data_of (envelope : RelayEnvelope.t) : M (option (list Z)) :=
  self ← gets id;
  if RelayEnvelope.can_relay envelope && is_relay_enabled self then
    relay_env ← lift (RelayEnvelope.relay envelope);
    mret (RelayEnvelope.encode <$> relay_env)
  else
    (if negb (RelayEnvelope.can_relay envelope) then
       notify (PeatEvent.MessageTtlExpired (RelayEnvelope.origin_node envelope)
                 (RelayEnvelope.hop_count envelope))
     else mret tt);;
    mret None.
Definition handle_relay_envelope_with_identifier (clock : Z → Z) (source_node : Z)
    (identifier data : list Z) (now_ms : Z) : M (option DataReceivedResult.t) :=
  envelope ←? lift (opt (RelayEnvelope.decode data));
  _ ←? accept_envelope envelope now_ms;
  relay_data ← relay_data_of envelope;
  process_document_data_with_identifier identifier clock source_node
    (RelayEnvelope.payload envelope) now_ms relay_data
    (Some (RelayEnvelope.origin_node envelope)) (RelayEnvelope.hop_count envelope).

(** The marker of a message of at least two bytes. *)
Inductive kind := KeyExchange | PeerE2ee | Envelope | Plain.
Definition kind_of (data : list Z) : outcome kind :=
  if 2 <=? zlen data then
    let! b := u8_at data 0 in
    Ok (if b =? KEY_EXCHANGE_MARKER then KeyExchange
        else if b =? PEER_E2EE_MARKER then PeerE2ee
        else if b =? RELAY_ENVELOPE_MARKER then Envelope else Plain)
  else Ok Plain.

Definition on_ble_data_received (clock : Z → Z) (identifier data : list Z) (now_ms : Z)
    : M (option DataReceivedResult.t) :=
  self ← gets id;
  n ←? mret (PeerManager.get_node_id (peer_manager self) identifier);
  k ← lift (kind_of data);
  match k with
  | KeyExchange => _response ← handle_key_exchange data now_ms; mret None
  | PeerE2ee => _plaintext ← handle_peer_e2ee_message data now_ms; mret None
  | Envelope => handle_relay_envelope_with_identifier clock n identifier data now_ms
  | Plain => process_document_data_with_identifier identifier clock n data now_ms None None 0
  end.
Definition on_ble_data_received_from_node (clock : Z → Z) (n : Z) (data : list Z) (now_ms : Z)
    : M (option DataReceivedResult.t) :=
  k ← lift (kind_of data);
  match k with
  | KeyExchange => _response ← handle_key_exchange data now_ms; mret None
  | PeerE2ee => _plaintext ← handle_peer_e2ee_message data now_ms; mret None
  | Envelope => handle_relay_envelope clock n data now_ms
  | Plain => process_document_data clock n data now_ms None None 0
  end.

Definition APP_LAYER_MARKER : Z := 0xAF.
Definition on_ble_data_received_anonymous (clock : Z → Z) (identifier data : list Z) (now_ms : Z)
    : M (option DataReceivedResult.t) :=
  decrypted ←? decrypt_document data (Some identifier);
  if zlen decrypted <? 8 then mret None
  else
    source_node ← lift (u32_at decrypted 4);
    on_peers (λ pm, (PeerManager.register_identifier pm identifier source_node, tt));;
    if DeltaDocument.is_delta_document decrypted then
      process_delta_document_internal clock source_node decrypted now_ms None None 0
    else if bool_decide (head decrypted = Some APP_LAYER_MARKER) then
      mret (Some (DataReceivedResult.mk source_node false false false false 0 now_ms
                    (Some decrypted) None 0 None None None None None None None))
    else
      result ←? merge_document decrypted;
      record_sync source_node now_ms;;
      notify_merged result;;
      mret (Some (DataReceivedResult.of_merge result None None 0)).

Definition process_incoming_document (clock : Z → Z) (identifier data : list Z) (now_ms : Z)
    (relay_data : option (list Z)) (origin_node : option Z) (hop_count : Z)
    : M (option DataReceivedResult.t) :=
  decrypted ←? decrypt_document data (Some identifier);
  result ←? merge_document decrypted;
  let source_node := MergeResult.source_node result in
  record_sync source_node now_ms;;
  (if bool_decide (origin_node = None) then
     is_new ← on_peers (λ pm,
       PeerManager.on_incoming_connection pm identifier source_node now_ms);
     graph_incoming identifier source_node is_new now_ms
   else mret tt);;
  notify_merged result;;
  notify_relayed clock relay_data source_node (default source_node origin_node) hop_count;;
  mret (Some (DataReceivedResult.of_merge result relay_data origin_node hop_count)).
Definition handle_relay_envelope_with_incoming (clock : Z → Z) (identifier data : list Z)
    (now_ms : Z) : M (option DataReceivedResult.t) :=
  envelope ←? lift (opt (RelayEnvelope.decode data));
  self ← gets id;
  let origin := RelayEnvelope.origin_node envelope in
  (match PeerManager.get_node_id (peer_manager self) identifier with
   | Some source_peer =>
       if negb (origin =? source_peer) && negb (origin =? node_id self) then
         _is_new ← on_graph (λ g, ConnectionStateGraph.on_relay_received g source_peer origin
                                    (RelayEnvelope.hop_count envelope) now_ms);
         mret tt
       else mret tt
   | None => mret tt
   end);;
  _ ←? accept_envelope envelope now_ms;
  relay_data ← relay_data_of envelope;
  process_incoming_document clock identifier (RelayEnvelope.payload envelope) now_ms relay_data
    (Some origin) (RelayEnvelope.hop_count envelope).
Definition on_ble_data (clock : Z → Z) (identifier data : list Z) (now_ms : Z)
    : M (option DataReceivedResult.t) :=
  k ← lift (kind_of data);
  match k with
  | KeyExchange => _response ← handle_key_exchange data now_ms; mret None
  | PeerE2ee => _plaintext ← handle_peer_e2ee_message data now_ms; mret None
  | Envelope => handle_relay_envelope_with_incoming clock identifier data now_ms
  | Plain => process_incoming_document clock identifier data now_ms None None 0
  end.

(** ** Maintenance *)

Definition wrapping_sub_u32 (a b : Z) : Z := wrap 32 (a - b).
(** The first half of both ticks. *)
Definition tick_cleanup (now_ms : Z) : M unit :=
  self ← gets id;
  let now_ms_32 := wrap 32 now_ms in
  let peer_config := PeatMeshConfig.peer_config (config self) in
  if wrap 32 (PeerManagerConfig.cleanup_interval_ms peer_config)
     <=? wrapping_sub_u32 now_ms_32 (last_cleanup_ms self) then
    modify (λ self, set_last_cleanup self now_ms_32);;
    removed ← on_peers (λ pm, PeerManager.cleanup_stale pm now_ms);
    notify_each (map PeatEvent.PeerLost removed);;
    (if bool_decide (removed = []) then mret tt else notify_mesh_state_changed);;
    newly_lost ← on_graph (λ g,
      let '(g, newly_lost) := ConnectionStateGraph.tick g now_ms in
      let '(g, _) := ConnectionStateGraph.cleanup_lost g
                       (PeerManagerConfig.peer_timeout_ms peer_config) now_ms in
      Ok (g, newly_lost));
    notify_each (map PeatEvent.PeerLost (filter (λ n, n ∉ removed) newly_lost))
  else mret tt.
(** The sync is due; then its time is recorded. *)
Definition sync_due (now_ms : Z) : M bool :=
  self ← gets id;
  let now_ms_32 := wrap 32 now_ms in
  if wrap 32 (PeatMeshConfig.sync_interval_ms (config self))
     <=? wrapping_sub_u32 now_ms_32 (last_sync_ms self) then
    modify (λ self, set_last_sync self now_ms_32);;
    mret true
  else mret false.
Definition tick (nonce : list Z) (now_ms : Z) : M (option (list Z)) :=
  tick_cleanup now_ms;;
  due ← sync_due now_ms;
  self ← gets id;
  mret (if (due : bool) && (0 <? PeerManager.connected_count (peer_manager self))
        then Some (build_document self nonce) else None).
Definition tick_with_peer_deltas (nonce : list Z) (now_ms : Z) : M (list (Z * list Z)) :=
  tick_cleanup now_ms;;
  due ← sync_due now_ms;
  self ← gets id;
  mret (if due : bool then
          let encrypted := build_document self nonce in
          map (λ peer, (PeatPeer.node_id peer, encrypted))
            (PeerManager.get_connected_peers (peer_manager self))
        else []).

(** ** Queries *)

Definition get_peers (self : t) : list PeatPeer.t := PeerManager.get_peers (peer_manager self).
Definition get_connected_peers (self : t) : list PeatPeer.t :=
  PeerManager.get_connected_peers (peer_manager self).
Definition get_peer (self : t) (n : Z) : option PeatPeer.t := PeerManager.get_peer (peer_manager self) n.
Definition peer_count (self : t) : Z := PeerManager.peer_count (peer_manager self).
Definition connected_count (self : t) : Z := PeerManager.connected_count (peer_manager self).
Definition matches_mesh (self : t) (device_mesh_id : option (list Z)) : bool :=
  PeerManager.matches_mesh (peer_manager self) device_mesh_id.
Definition get_connection_graph (self : t) : list PeerConnectionState.t :=
  ConnectionStateGraph.get_all (connection_graph self).
Definition get_peer_connection_state (self : t) (n : Z) : option PeerConnectionState.t :=
  ConnectionStateGraph.get_peer (connection_graph self) n.
Definition get_connected_states (self : t) : list PeerConnectionState.t :=
  ConnectionStateGraph.get_connected (connection_graph self).
Definition get_degraded_peers (self : t) : list PeerConnectionState.t :=
  ConnectionStateGraph.get_degraded (connection_graph self).
Definition get_recently_disconnected (self : t) (within_ms now_ms : Z) : list PeerConnectionState.t :=
  ConnectionStateGraph.get_recently_disconnected (connection_graph self) within_ms now_ms.
Definition get_lost_peers (self : t) : list PeerConnectionState.t :=
  ConnectionStateGraph.get_lost (connection_graph self).
Definition get_connection_state_counts (self : t) : StateCountSummary.t :=
  ConnectionStateGraph.state_counts (connection_graph self).
Definition get_indirect_peers (self : t) : list IndirectPeer.t :=
  ConnectionStateGraph.get_indirect_peers (connection_graph self).
Definition get_peer_degree (self : t) (n : Z) : option PeerDegree.t :=
  ConnectionStateGraph.peer_degree (connection_graph self) n.
Definition get_full_state_counts (self : t) : FullStateCountSummary.t :=
  ConnectionStateGraph.full_state_counts (connection_graph self).
Definition get_paths_to_peer (self : t) (n : Z) : list (Z * Z) :=
  ConnectionStateGraph.get_paths_to (connection_graph self) n.
Definition is_peer_known (self : t) (n : Z) : bool :=
  ConnectionStateGraph.is_known (connection_graph self) n.
Definition indirect_peer_count (self : t) : Z :=
  ConnectionStateGraph.indirect_peer_count (connection_graph self).
Definition cleanup_indirect_peers (now_ms : Z) : M (list Z) :=
  on_graph (λ g, Ok (ConnectionStateGraph.cleanup_indirect g now_ms)).
Definition total_count (self : t) : outcome Z := DocumentSync.total_count (document_sync self).
Definition version (self : t) : Z := DocumentSync.version (document_sync self).
Definition peers_needing_sync (self : t) (now_ms : Z) : list PeatPeer.t :=
  PeerManager.peers_needing_sync (peer_manager self) now_ms.

(** The updates of the own peripheral: each forwards to [DocumentSync]. *)
Definition update_doc (self : t) (f : DocumentSync.t → DocumentSync.t) : t :=
  set_document_sync self (f (document_sync self)).
Definition update_health (self : t) (battery_percent : Z) : t :=
  update_doc self (λ d, DocumentSync.update_health d battery_percent).
Definition update_activity (self : t) (activity : Z) : t :=
  update_doc self (λ d, DocumentSync.update_activity d activity).
Definition update_health_full (self : t) (battery_percent activity : Z) : t :=
  update_doc self (λ d, DocumentSync.update_health_full d battery_percent activity).
Definition update_heart_rate (self : t) (heart_rate : Z) : t :=
  update_doc self (λ d, DocumentSync.update_heart_rate d heart_rate).
Definition update_location (self : t) (latitude longitude : Z) (altitude : option Z) : t :=
  update_doc self (λ d, DocumentSync.update_location d latitude longitude altitude).
Definition clear_location (self : t) : t := update_doc self DocumentSync.clear_location.
Definition update_callsign (self : t) (callsign : list Z) : t :=
  update_doc self (λ d, DocumentSync.update_callsign d callsign).
Definition set_peripheral_event (self : t) (event_type : EventType.t) (timestamp : Z) : t :=
  update_doc self (λ d, DocumentSync.set_peripheral_event d event_type timestamp).
Definition clear_peripheral_event (self : t) : t := update_doc self DocumentSync.clear_peripheral_event.
Definition update_peripheral_state (self : t) (callsign : list Z) (battery_percent : Z)
    (heart_rate latitude longitude altitude : option Z) (event_type : option EventType.t)
    (timestamp : Z) : t :=
  update_doc self (λ d, DocumentSync.update_peripheral_state d callsign battery_percent heart_rate
                          latitude longitude altitude event_type timestamp).

(** ** Canned messages *)

(** The first 12 bytes of the identifier; the other four are zero. *)
Definition canned_message_id (source_node timestamp : Z) : Z :=
  from_le (le 4 source_node ++ le 8 timestamp ++ replicate 4 0).
Definition check_canned_message (self : t) (source_node timestamp _ttl_ms : Z) : bool :=
  negb (SeenMessageCache.has_seen (seen_cache self) (canned_message_id source_node timestamp)).
Definition mark_canned_message_seen (source_node timestamp wall_ms : Z) : M unit :=
  _is_new ← on seen_cache set_seen_cache (λ c,
    SeenMessageCache.mark_seen c (canned_message_id source_node timestamp) source_node wall_ms);
  mret tt.
Definition get_connected_peer_identifiers (self : t) : list (list Z) :=
  PeerManager.get_connected_identifiers (peer_manager self).

End ops.

End PeatMesh.
