(* ===== verification/MeshLogic.v ===== *)
(** * Reasoning about the steps of the mesh facade: a weakest precondition for
    the monad of [PeatMesh], and what its shared steps do.

    [mwp O m s Q]: run from [s], [m] returns a value and a state that satisfy
    [Q], or panics when [O] holds.  With [O := False] nothing panics. *)

From Stdlib Require Import String.
From stdpp Require Import base numbers list gmap.
From S2P Require Import Prelude Crdt Sensor Delta DeltaDoc Document DocSync Chat Crypto Session.
From S2P Require Import Identity Trust PeerGraph PeerManager Config Gossip Relay Observer.
From S2P Require Import Registry Persistence PeatMesh.
Import DocumentType (AppTypes, app_type, doc).
Import PeatMesh.
Open Scope Z_scope.
Open Scope peat_scope.

Definition mwp `{AppTypes} (O : Prop) {A} (m : M A) (s : PeatMesh.t) (Q : PeatMesh.t → A → Prop)
    : Prop :=
  match m s with Ok (s', a) => Q s' a | Fail => False | Panic => O end.

Section mwp.
Context `{AppTypes} (O : Prop).
Implicit Types s : PeatMesh.t.

Lemma mwp_mono {A} (m : M A) s (Q Q' : PeatMesh.t → A → Prop) :
  mwp O m s Q → (∀ s' a, Q s' a → Q' s' a) → mwp O m s Q'.
Proof. unfold mwp. destruct (m s) as [[s' a]| |]; auto. Qed.
Lemma mwp_ret {A} (a : A) s (Q : PeatMesh.t → A → Prop) : Q s a → mwp O (mret a) s Q.
Proof. done. Qed.
Lemma mwp_bind {A B} (m : M A) (k : A → M B) s (Q : PeatMesh.t → B → Prop) :
  mwp O m s (λ s' a, mwp O (k a) s' Q) → mwp O (m ≫= k) s Q.
Proof. unfold mwp, mbind, M_bind. by destruct (m s) as [[s' a]| |]. Qed.
Lemma mwp_try {A B} (m : M (option A)) (k : A → M (option B)) s
    (Q : PeatMesh.t → option B → Prop) :
  mwp O m s (λ s' r, match r with Some a => mwp O (k a) s' Q | None => Q s' None end) →
  mwp O (try_bind m k) s Q.
Proof.
  intros Hm. apply mwp_bind. eapply mwp_mono; [exact Hm|]. intros s' [a|] Hr; done.
Qed.
Lemma mwp_gets {A} (f : PeatMesh.t → A) s (Q : PeatMesh.t → A → Prop) :
  Q s (f s) → mwp O (gets f) s Q.
Proof. done. Qed.
Lemma mwp_modify f s (Q : PeatMesh.t → unit → Prop) : Q (f s) tt → mwp O (modify f) s Q.
Proof. done. Qed.
Lemma mwp_lift {A} (o : outcome A) s (Q : PeatMesh.t → A → Prop) :
  match o with Ok a => Q s a | Fail => False | Panic => O end → mwp O (lift o) s Q.
Proof. unfold mwp, lift. by destruct o. Qed.
Lemma mwp_on {C A} (get : PeatMesh.t → C) set (f : C → outcome (C * A)) s
    (Q : PeatMesh.t → A → Prop) :
  match f (get s) with Ok r => Q (set s r.1) r.2 | Fail => False | Panic => O end →
  mwp O (on get set f) s Q.
Proof. unfold mwp, on. by destruct (f (get s)) as [[c a]| |]. Qed.
(** A decoder that cannot panic, whose rejection is [None]. *)
Lemma mwp_lift_opt {A} (o : outcome A) P s (Q : PeatMesh.t → option A → Prop) :
  wp o P → (∀ a, o = Ok a → P a → Q s (Some a)) → Q s None → mwp O (lift (opt o)) s Q.
Proof. intros Ho Ha Hn. apply mwp_lift. destruct o; cbn in *; [auto..|done]. Qed.

Lemma mwp_if {A} (b : bool) (m m' : M A) s (Q : PeatMesh.t → A → Prop) :
  (b = true → mwp O m s Q) → (b = false → mwp O m' s Q) → mwp O (if b then m else m') s Q.
Proof. destruct b; auto. Qed.

(** *** Notifications change the observers only *)

Definition notified s (es : list PeatEvent.t) : PeatMesh.t :=
  set_observers s (ObserverManager.notify_all (observers s) es).

Lemma notified_app s es es' : notified (notified s es) es' = notified s (es ++ es').
Proof. unfold notified. cbn. by rewrite ObserverProofs.notify_all_app. Qed.
Lemma mwp_notify e s (Q : PeatMesh.t → unit → Prop) :
  Q (notified s [e]) tt → mwp O (notify e) s Q.
Proof. done. Qed.
Lemma mwp_notify_each es s (Q : PeatMesh.t → unit → Prop) :
  Q (notified s es) tt → mwp O (notify_each es) s Q.
Proof.
  revert s. induction es as [|e es IH]; intros s HQ; cbn [notify_each].
  - apply mwp_ret. by destruct s.
  - apply mwp_bind, mwp_notify, IH. by rewrite notified_app.
Qed.
Lemma mwp_state_changed s (Q : PeatMesh.t → unit → Prop) :
  (∀ e, Q (notified s [e]) tt) → mwp O notify_mesh_state_changed s Q.
Proof. intros HQ. apply mwp_bind, mwp_gets, mwp_notify, HQ. Qed.

End mwp.

(** One step of a proof about a method, following its text. *)
Ltac mstep :=
  match goal with
  | |- mwp _ (mret _) _ _ => apply mwp_ret
  | |- mwp _ (_ ≫= _) _ _ => apply mwp_bind
  | |- mwp _ (try_bind _ _) _ _ => apply mwp_try
  | |- mwp _ (gets _) _ _ => apply mwp_gets
  | |- mwp _ (modify _) _ _ => apply mwp_modify
  | |- mwp _ (notify _) _ _ => apply mwp_notify
  | |- mwp _ (notify_each _) _ _ => apply mwp_notify_each
  | |- mwp _ notify_mesh_state_changed _ _ => apply mwp_state_changed; intros ?
  | |- mwp _ (on _ _ _) _ _ => apply mwp_on
  | |- mwp _ (on_peers _) _ _ => apply mwp_on
  | |- mwp _ (on_graph _) _ _ => apply mwp_on
  | |- mwp _ (on_doc _) _ _ => apply mwp_on
  | |- mwp _ (on_encoder _) _ _ => apply mwp_on
  | |- mwp _ (lift _) _ _ => apply mwp_lift
  end; cbn beta iota.

(** ** Encryption *)

Section crypt.
Context `{CryptoLaws} `{AppTypes}.
Implicit Types s : PeatMesh.t.

(** [p] under the key of the mesh, as it travels. *)
Definition sealed_with (key : MeshEncryptionKey.t) (data p : list Z) : Prop :=
  ∃ reserved payload, data = ENCRYPTED_MARKER :: reserved :: payload
    ∧ MeshEncryptionKey.decrypt_from_bytes key payload = Ok (Okay p).

Lemma sealed_unique key data p p' : sealed_with key data p → sealed_with key data p' → p = p'.
Proof. intros (r & payload & -> & Hd) (r' & payload' & [= <- <-] & Hd'). congruence. Qed.

Lemma has_marker_cons data m :
  bytes_ok data →
  has_marker data m = Ok (match data with b :: _ :: _ => b =? m | _ => false end).
Proof.
  intros Hb. unfold has_marker. destruct data as [|b [|c data]]; [done..|].
  rewrite (proj2 (Z.leb_le _ _)) by len. inversion Hb. by rewrite u8_at_here by lia.
Qed.
Lemma payload_slice b c data : slice_from (b :: c :: data) 2 = Ok data.
Proof.
  change (b :: c :: data) with ([b; c] ++ data). by apply slice_from_app.
Qed.

Lemma decrypt_from_bytes_ok key data :
  bytes_ok data →
  ∃ r, MeshEncryptionKey.decrypt_from_bytes key data = Ok r ∧ ∀ p, r = Okay p → bytes_ok p.
Proof.
  intros Hb. unfold MeshEncryptionKey.decrypt_from_bytes.
  pose proof (CryptoProofs.encrypted_document_wp data Hb) as Hwp.
  destruct (EncryptedDocument.decode data) as [d| |]; cbn in *; [|by eexists|done].
  eexists. split; [done|]. unfold MeshEncryptionKey.decrypt. intros p Hp.
  destruct (aead_open _ _ _) as [p'|] eqn:Ho; [|done]. injection Hp as <-.
  eapply aead_open_bytes; [|exact Ho]. apply Hwp.
Qed.

Lemma encrypt_document_sealed s key nonce p :
  encryption_key s = Some key → block 32 (MeshEncryptionKey.key key) → block 12 nonce →
  bytes_ok p →
  sealed_with key (encrypt_document s nonce p) p
  ∧ bytes_ok (encrypt_document s nonce p).
Proof.
  intros Hk Hkb Hn Hp. unfold encrypt_document. rewrite Hk.
  destruct (CryptoProofs.mesh_roundtrip key nonce p) as (data & -> & Hb & _ & Hd); [done..|].
  split; [by exists 0, data|]. by repeat apply bytes_cons.
Qed.
Lemma encrypt_document_plain s nonce p : encryption_key s = None → encrypt_document s nonce p = p.
Proof. intros Hk. unfold encrypt_document. by rewrite Hk. Qed.

(** The outcome of [decrypt_document]: a plaintext, or a refusal that only
    the observers see. *)
Lemma mwp_decrypt O s data hint (Q : PeatMesh.t → option (list Z) → Prop) :
  bytes_ok data →
  (∀ key p, encryption_key s = Some key → sealed_with key data p → bytes_ok p → Q s (Some p)) →
  (is_strict_encryption_enabled s = false → head data ≠ Some ENCRYPTED_MARKER ∨ zlen data < 2 →
     Q s (Some data)) →
  (∀ es, Q (notified s es) None) →
  mwp O (decrypt_document data hint) s Q.
Proof.
  intros Hb Hsealed Hplain Hrefused. unfold decrypt_document.
  assert (Hid : notified s [] = s) by by destruct s.
  mstep. mstep. rewrite has_marker_cons by done. mstep. mstep. unfold id.
  assert (Hnot : (match data with b :: _ :: _ => b =? ENCRYPTED_MARKER | _ => false end) = false →
    head data ≠ Some ENCRYPTED_MARKER ∨ zlen data < 2).
  { destruct data as [|b [|c data]]; cbn; [by left | by right |].
    intros ?%Z.eqb_neq. left. by intros [= ?]. }
  apply mwp_if; intros Hm.
  - destruct data as [|b [|c data]]; try done. apply Z.eqb_eq in Hm as ->.
    mstep. mstep. rewrite payload_slice. destruct (encryption_key s) as [key|] eqn:Ek.
    + inversion Hb as [|? ? _ Hb']; subst. inversion Hb' as [|? ? _ Hb'']; subst.
      destruct (decrypt_from_bytes_ok key data Hb'') as ([p|e] & Hr & Hp).
      * mstep. mstep. rewrite Hr. mstep. apply (Hsealed key p); [done| |by apply Hp].
        by exists c, data.
      * mstep. mstep. rewrite Hr. mstep. mstep. mstep. apply Hrefused.
    + mstep. rewrite <-Hid. apply Hrefused.
  - apply mwp_if; intros Hs.
    + mstep. mstep. mstep. apply Hrefused.
    + mstep. by apply Hplain; [|apply Hnot].
Qed.

End crypt.
