(* ===== verification/MeshTransport.v ===== *)
(** * What received bytes can do to a mesh node: theorems about the reception
    methods of src/src/peat_mesh.rs.

    A node takes bytes through four methods.  Each decrypts, perhaps after it
    unwraps a relay envelope, and merges what it finds.  The theorems say what
    bytes that nobody in the mesh produced can do (nothing, in strict mode),
    and that the documents of the members arrive. *)

From Stdlib Require Import String.
From stdpp Require Import base numbers list gmap.
From S2P Require Import Prelude Crdt Sensor Delta DeltaDoc Document DocSync Chat Crypto Session.
From S2P Require Import Identity Trust PeerGraph PeerManager Config Gossip Relay Observer.
From S2P Require Import Registry Persistence PeatMesh MeshLogic.
Import DocumentType (AppTypes, app_type, doc).
Import PeatMesh.
Open Scope Z_scope.
Open Scope peat_scope.

Module Transport.

(** Bytes from the transport, by the method that takes them, with the time. *)
Inductive input :=
| Received (identifier data : list Z) (now_ms : Z)
| FromNode (n : Z) (data : list Z) (now_ms : Z)
| Anonymous (identifier data : list Z) (now_ms : Z)
| Incoming (identifier data : list Z) (now_ms : Z).

Definition bytes (i : input) : list Z :=
  match i with
  | Received _ data _ | FromNode _ data _ | Anonymous _ data _ | Incoming _ data _ => data
  end.

Section transport.
Context `{Crypto} `{AppTypes} `{!MapOrder Z} `{!MapOrder (Z * Z * Z)} (legacy_chat : bool).

Definition receive (clock : Z → Z) (i : input) : M (option DataReceivedResult.t) :=
  match i with
  | Received identifier data now_ms => on_ble_data_received legacy_chat clock identifier data now_ms
  | FromNode n data now_ms => on_ble_data_received_from_node legacy_chat clock n data now_ms
  | Anonymous identifier data now_ms =>
      on_ble_data_received_anonymous legacy_chat clock identifier data now_ms
  | Incoming identifier data now_ms => on_ble_data legacy_chat clock identifier data now_ms
  end.
Fixpoint receive_all (clock : Z → Z) (inputs : list input)
    : M (list (option DataReceivedResult.t)) :=
  match inputs with
  | [] => mret []
  | i :: inputs => r ← receive clock i; rs ← receive_all clock inputs; mret (r :: rs)
  end.

End transport.
End Transport.

Module TransportProofs.
Import Transport.

(** ** What keeps the bookkeeping from overflowing *)

Section inv.
Context `{Crypto} `{AppTypes}.
Implicit Types s : PeatMesh.t.

Definition cache_ok (n : Z) (c : SeenMessageCache.t) : Prop :=
  map_Forall (λ _ e, SeenEntry.count e ≤ n) (SeenMessageCache.cache c).
Definition encoder_ok (bytes : Z) (e : DeltaEncoder.t) : Prop :=
  map_Forall (λ _ st, PeerSyncState.bytes_received st ≤ bytes ∧ PeerSyncState.bytes_sent st ≤ bytes
    ∧ PeerSyncState.sync_count st * 2 ^ 32 ≤ bytes) (DeltaEncoder.peers e).
(** After [n] inputs. *)
Definition books_ok (n : Z) s : Prop :=
  PeerGraphProofs.graph_ok n 0 (connection_graph s) ∧ cache_ok n (seen_cache s)
  ∧ encoder_ok (n * 2 ^ 32) (delta_encoder s)
  ∧ 1 ≤ RandomFanout.fanout (gossip_strategy s) < 2 ^ 64.

(** What the owner configured, and what the node knows about the mesh. *)
Definition setup s := (config s, encryption_key s, gossip_strategy s, document_registry s, identity s).
Definition knowledge s :=
  (document_sync s, peer_peripherals s, app_documents s, peer_manager s, identity_registry s,
   ConnectionStateGraph.peers (connection_graph s)).

Lemma cache_ok_mono n n' c : n ≤ n' → cache_ok n c → cache_ok n' c.
Proof. intros Hn Hc. eapply map_Forall_impl; [exact Hc|]. cbn. lia. Qed.
Lemma encoder_ok_mono n n' e : n ≤ n' → encoder_ok n e → encoder_ok n' e.
Proof. intros Hn Hc. eapply map_Forall_impl; [exact Hc|]. cbn -[Z.pow]. intros; lia. Qed.
Lemma books_ok_mono n n' s : n ≤ n' → books_ok n s → books_ok n' s.
Proof.
  intros Hn (Hg & Hc & He & Hf). split_and!; [|by eapply cache_ok_mono| |lia|lia].
  - by apply (PeerGraphProofs.graph_ok_mono n 0).
  - eapply encoder_ok_mono; [|done]. lia.
Qed.
End inv.

Section steps.
Context `{!MapOrder Z}.

Lemma cleanup_cache_ok n c now : cache_ok n c → cache_ok n (SeenMessageCache.cleanup c now).
Proof.
  intros Hc id e. unfold SeenMessageCache.cleanup. cbn.
  set (live := filter _ (SeenMessageCache.cache c)).
  assert (∀ id e, live !! id = Some e → SeenEntry.count e ≤ n) as Hl.
  { intros id' e' [Hl _]%map_lookup_filter_Some. by apply (Hc id'). }
  destruct (_ <? _); [|apply Hl]. rewrite delete_all_lookup. destruct (decide _); [done|apply Hl].
Qed.
Lemma mark_ok n c id origin now :
  0 ≤ n → n + 1 < 2 ^ 32 → cache_ok n c →
  ∃ c' b, SeenMessageCache.check_and_mark c id origin now = Ok (c', b) ∧ cache_ok (n + 1) c'
    ∧ (SeenMessageCache.cache c !! id = None → b = true).
Proof.
  intros Hn0 Hn Hc. unfold SeenMessageCache.check_and_mark, SeenMessageCache.mark_seen.
  set (c1 := if _ <? _ then _ else c).
  assert (cache_ok n c1) as Hc1 by (unfold c1; destruct (_ <? _); [by apply cleanup_cache_ok|done]).
  assert (SeenMessageCache.cache c !! id = None → SeenMessageCache.cache c1 !! id = None) as Hnone.
  { unfold c1. destruct (_ <? _); [|done]. intros Hid. unfold SeenMessageCache.cleanup. cbn.
    assert (filter (λ e : Z * SeenEntry.t, saturating_sub now (SeenEntry.first_seen_ms e.2)
      < SeenMessageCache.ttl_ms c) (SeenMessageCache.cache c) !! id = None) as Hf
      by (apply map_lookup_filter_None; by left).
    destruct (_ <? _); [|done]. rewrite delete_all_lookup. by destruct (decide _). }
  clearbody c1. apply (cache_ok_mono n (n + 1)) in Hc1 as Hc1'; [|lia].
  destruct (SeenMessageCache.cache c1 !! id) as [e|] eqn:E.
  - apply Hc1 in E. rewrite add_u_ok by lia. eexists _, false. split_and!; [done| |].
    + apply map_Forall_insert_2; [cbn; lia|done].
    + intros Hid. by apply Hnone in Hid.
  - eexists _, true. split_and!; [done| |done]. apply map_Forall_insert_2; [cbn; lia|done].
Qed.
Lemma received_ok n e peer bytes ts :
  0 ≤ n → n + bytes < 2 ^ 64 → 0 ≤ bytes → encoder_ok n e →
  ∃ e', DeltaEncoder.record_received e peer bytes ts = Ok e' ∧ encoder_ok (n + bytes) e'.
Proof.
  intros Hn Hb Hb0 He. unfold DeltaEncoder.record_received.
  assert (encoder_ok (n + bytes) e) as He' by (eapply encoder_ok_mono; [|done]; lia).
  destruct (DeltaEncoder.peers e !! peer) as [st|] eqn:E; [|by eauto].
  apply He in E as (? & ? & ?). rewrite add_u_ok by lia. eexists. split; [done|].
  apply map_Forall_insert_2; [cbn -[Z.pow]; lia|done].
Qed.
(** A delta of less than 2^32 bytes is recorded. *)
Lemma sent_ok n e peer bytes :
  0 ≤ n → n + 2 ^ 32 < 2 ^ 64 → 0 ≤ bytes ≤ 2 ^ 32 → encoder_ok n e →
  ∃ e', DeltaEncoder.record_sent e peer bytes = Ok e' ∧ encoder_ok (n + 2 ^ 32) e'.
Proof.
  intros Hn Hn' Hb He. unfold DeltaEncoder.record_sent.
  assert (encoder_ok (n + 2 ^ 32) e) as He' by (eapply encoder_ok_mono; [|done]; lia).
  destruct (DeltaEncoder.peers e !! peer) as [st|] eqn:E; [|by eauto].
  apply He in E as (? & ? & ?). rewrite !add_u_ok by lia. eexists. split; [done|].
  apply map_Forall_insert_2; [cbn -[Z.pow]; lia|done].
Qed.
End steps.

(** ** One message *)

Section message.
Context `{CryptoLaws} `{AppTypes} `{!MapOrder Z} `{!MapOrder (Z * Z * Z)} (lc : bool) (clock : Z → Z).
Implicit Types s : PeatMesh.t.

(** [data] opens to [p] at a node with this key; a strict node opens nothing
    without a key. *)
Definition opens (key : option MeshEncryptionKey.t) (strict : bool) (data p : list Z) : Prop :=
  (∃ k, key = Some k ∧ sealed_with k data p) ∨ (strict = false ∧ p = data).
Definition opens_at s : list Z → list Z → Prop :=
  opens (encryption_key s) (is_strict_encryption_enabled s).

(** What an envelope tells of the graph is about indirect peers. *)
Lemma relay_keeps_peers g source origin hops now r :
  ConnectionStateGraph.on_relay_received g source origin hops now = Ok r →
  ConnectionStateGraph.peers r.1 = ConnectionStateGraph.peers g.
Proof.
  unfold ConnectionStateGraph.on_relay_received, obind. intros Hr.
  repeat case_match; simplify_eq/=; done.
Qed.

(** Nothing changed but indirect peers, duplicate detection, statistics,
    sessions and what observers were told. *)
Definition quiet (n : Z) s s' : Prop :=
  books_ok n s' ∧ setup s' = setup s ∧ knowledge s' = knowledge s.
(** Or a plaintext from [src] was taken, and at most merged. *)
Definition taken (src : list Z → Prop) s s' : Prop :=
  ∃ p, src p ∧ (document_sync s' = document_sync s
                ∨ ∃ r, DocumentSync.merge_document lc (document_sync s) p = Ok (document_sync s', r)).
Definition handled (src : list Z → Prop) (n : Z) s s' (r : option DataReceivedResult.t) : Prop :=
  books_ok n s' ∧ setup s' = setup s ∧ (knowledge s' = knowledge s ∧ r = None ∨ taken src s s').
Definition overflows (src : list Z → Prop) s : Prop :=
  ∃ p, src p ∧ (DocumentSync.total_count (document_sync s) = Panic
                ∨ DocumentSync.merge_document lc (document_sync s) p = Panic).

Lemma quiet_refl n s : books_ok n s → quiet n s s.
Proof. done. Qed.
Lemma quiet_notified n s s' es : quiet n s s' → quiet n s (notified s' es).
Proof. done. Qed.
Lemma opens_setup s s' : setup s' = setup s → opens_at s' = opens_at s.
Proof.
  unfold setup, opens_at, is_strict_encryption_enabled, is_encryption_enabled.
  by intros [= -> -> _ _ _].
Qed.
Lemma quiet_handled src n s s1 s' r :
  setup s1 = setup s → knowledge s1 = knowledge s → handled src n s1 s' r → handled src n s s' r.
Proof.
  intros Hs Hk (Hb & Hs' & Hr). assert (document_sync s1 = document_sync s) as Hd
    by (unfold knowledge in Hk; congruence).
  split_and!; [done|congruence|]. unfold taken in *. rewrite Hd in Hr.
  destruct Hr as [[? ->]|Hr]; [left; split; congruence|by right].
Qed.
Lemma quiet_overflows src s s1 : knowledge s1 = knowledge s → overflows src s1 → overflows src s.
Proof. unfold knowledge, overflows. by intros [= -> _ _ _ _ _]. Qed.
Lemma mwp_panic O O' {A} (m : M A) s (Q Q' : PeatMesh.t → A → Prop) :
  mwp O m s Q → (O → O') → (∀ s' a, Q s' a → Q' s' a) → mwp O' m s Q'.
Proof. unfold mwp. destruct (m s) as [[s' a]| |]; auto. Qed.

Lemma sum_u_nofail w l a : a ≠ Fail → foldl (λ acc x, let! a := acc in add_u w a x) a l ≠ Fail.
Proof.
  revert a. induction l as [|x l IH]; intros a Ha; cbn; [done|]. apply IH.
  destruct a as [a| |]; cbn; [|done..]. unfold add_u. by destruct (_ <? _).
Qed.
Lemma value_nofail c : GCounter.value c ≠ Fail.
Proof. by apply sum_u_nofail. Qed.
Lemma merge_document_nofail d data : DocumentSync.merge_document lc d data ≠ Fail.
Proof.
  unfold DocumentSync.merge_document, DocumentSync.total_count.
  destruct (PeatDocument.decode lc data) as [r| |]; cbn [opt obind]; [|done..].
  destruct (_ =? _); [done|].
  pose proof (value_nofail (DocumentSync.counter d)).
  destruct (GCounter.value (DocumentSync.counter d)) as [v| |]; cbn [obind]; [|done..].
  pose proof (value_nofail (GCounter.merge (DocumentSync.counter d) (PeatDocument.counter r))).
  destruct (GCounter.value _) as [v'| |]; cbn [obind]; [|done..].
  repeat match goal with |- context [let '(a, b) := ?x in _] => destruct x end.
  match goal with |- context [GCounter.value ?c] =>
    pose proof (value_nofail c); destruct (GCounter.value c) end; done.
Qed.

Lemma mwp_merge O s data (Q : PeatMesh.t → option MergeResult.t → Prop) :
  (DocumentSync.merge_document lc (document_sync s) data = Panic → O) →
  (∀ d r, DocumentSync.merge_document lc (document_sync s) data = Ok (d, r) →
     Q (set_document_sync s d) r) →
  mwp O (merge_document lc data) s Q.
Proof.
  intros HO HQ. unfold merge_document. mstep. pose proof (merge_document_nofail (document_sync s) data).
  destruct (DocumentSync.merge_document _ _ _) as [[d r]| |]; [by apply HQ|done|by apply HO].
Qed.
Lemma mwp_total O s (Q : PeatMesh.t → Z → Prop) :
  (DocumentSync.total_count (document_sync s) = Panic → O) → (∀ n, Q s n) →
  mwp O (lift (DocumentSync.total_count (document_sync s))) s Q.
Proof.
  intros HO HQ. mstep. pose proof (value_nofail (DocumentSync.counter (document_sync s))).
  unfold DocumentSync.total_count in *. destruct (GCounter.value _); [apply HQ|done|by apply HO].
Qed.

(** Telling the application about a message changes nothing else. *)
Lemma mwp_relayed O s rd source origin hops (Q : PeatMesh.t → unit → Prop) :
  1 ≤ RandomFanout.fanout (gossip_strategy s) < 2 ^ 64 → (∀ es, Q (notified s es) tt) →
  mwp O (notify_relayed clock rd source origin hops) s Q.
Proof.
  intros Hf HQ. assert (notified s [] = s) as Hs by by destruct s.
  unfold notify_relayed. apply mwp_if; intros _; [|mstep; rewrite <-Hs; apply HQ].
  mstep. mstep. mstep. mstep. unfold get_relay_targets, MeshRelay.get_relay_targets.
  unfold id. match goal with |- context [select_peers _ _ ?l] =>
    destruct (select_laws (gossip_strategy s) clock l Hf) as (sel & -> & _) end.
  mstep. apply HQ.
Qed.
Lemma mwp_event_kind O s em ack n (Q : PeatMesh.t → unit → Prop) :
  (∀ es, Q (notified s es) tt) → mwp O (notify_event_kind em ack n) s Q.
Proof.
  intros HQ. assert (notified s [] = s) as Hs by by destruct s.
  unfold notify_event_kind. destruct em; [mstep; apply HQ|]. destruct ack; mstep; [apply HQ|].
  rewrite <-Hs. apply HQ.
Qed.
Lemma mwp_merged O s r (Q : PeatMesh.t → unit → Prop) :
  (∀ es, Q (notified s es) tt) → mwp O (notify_merged r) s Q.
Proof.
  intros HQ. unfold notify_merged. mstep. apply mwp_event_kind. intros es.
  apply mwp_if; intros _; mstep; [rewrite notified_app|]; apply HQ.
Qed.

Lemma mwp_delta_ops O origin ops s acc (Q : PeatMesh.t → delta_seen → Prop) :
  (∀ pp docs es acc', Q (notified (set_app_documents (set_peer_peripherals s pp) docs) es) acc') →
  mwp O (apply_delta_operations origin acc ops) s Q.
Proof.
  revert s acc. induction ops as [|op ops IH]; intros s acc HQ; cbn [apply_delta_operations].
  { mstep. specialize (HQ (peer_peripherals s) (app_documents s) [] acc). by destruct s. }
  mstep. unfold apply_delta_operation. mstep. mstep. destruct acc.
  destruct op; repeat mstep; apply IH; intros pp docs es acc'; [..|];
    try (specialize (HQ pp docs es acc'); by destruct s).
  specialize (HQ pp docs ([PeatEvent.AppDocumentReceived (AppOperation.type_id op)
    (AppOperation.source_node op) (Z.land (AppOperation.timestamp op) 0x0000FFFFFFFFFFFF)
    (AppDocuments.apply_app_op (document_registry s) (app_documents s) op).2] ++ es) acc').
  rewrite <-notified_app in HQ. exact HQ.
Qed.

Lemma books_received n s e :
  books_ok n s → encoder_ok ((n + 1) * 2 ^ 32) e → books_ok (n + 1) (set_delta_encoder s e).
Proof.
  intros Hb He. destruct (books_ok_mono n (n + 1) s ltac:(lia) Hb) as (? & ? & _ & ?). done.
Qed.
Lemma handled_none src n s s' : quiet n s s' → handled src n s s' None.
Proof. intros (? & ? & ?). split_and!; auto. Qed.

Lemma mwp_delta src n s source data now rd origin hops :
  books_ok n s → 0 ≤ n → n + 1 < 2 ^ 32 → bytes_ok data → zlen data < 2 ^ 32 → src data →
  mwp (overflows src s)
    (process_delta_document_internal clock source data now rd origin hops) s
    (handled src (n + 1) s).
Proof.
  intros Hb Hn0 Hn Hd Hl Hsrc. unfold process_delta_document_internal.
  assert (quiet (n + 1) s s) as Hq by (apply quiet_refl; eapply books_ok_mono; [|done]; lia).
  mstep. eapply mwp_lift_opt; [by apply DeltaDocProofs.delta_doc_decode_wp| |by apply handled_none].
  intros d Hdec Hwf. mstep. mstep.
  apply mwp_if; intros _; [mstep; by apply handled_none|].
  mstep. apply mwp_delta_ops. intros pp docs es seen. mstep. mstep.
  mstep. unfold record_delta_received. mstep. cbn -[Z.pow].
  destruct (received_ok (n * 2 ^ 32) (delta_encoder s) source (zlen data) now)
    as (e & -> & He); [lia|lia|len|apply Hb|].
  cbn -[Z.pow Z.mul]. mstep. apply mwp_event_kind. intros es2. mstep. mstep. mstep.
  apply (encoder_ok_mono _ ((n + 1) * 2 ^ 32)) in He; [|lia].
  match goal with |- mwp _ _ ?s1 _ => assert (books_ok (n + 1) s1 ∧ setup s1 = setup s
    ∧ document_sync s1 = document_sync s) as Hs1; [|revert Hs1; generalize s1] end.
  { split_and!; [|done..]. by apply (books_received n s e). }
  clear -Hsrc. intros s1 (Hb & Hs & Hd).
  assert (∀ s2, document_sync s2 = document_sync s →
    DocumentSync.total_count (document_sync s2) = Panic → overflows src s) as HO
    by (intros s2 -> ?; exists data; auto).
  apply mwp_mono with (λ s2 _, books_ok (n + 1) s2 ∧ setup s2 = setup s
    ∧ document_sync s2 = document_sync s).
  { apply mwp_if; intros _; [|by mstep]. mstep. apply mwp_total; [by apply HO|]. intros. by mstep. }
  intros s2 _ (Hb2 & Hs2 & Hd2). mstep. apply mwp_relayed; [apply Hb2|]. intros es.
  destruct (DataReceivedResult.peripheral_fields _) as [[[[[[? ?] ?] ?] ?] ?] ?].
  mstep. mstep. unfold id.
  pose proof (value_nofail (DocumentSync.counter (document_sync s1))) as Hnf.
  unfold DocumentSync.total_count in *.
  destruct (GCounter.value _) as [c| |] eqn:Hc; [|done|by apply (HO s1)]. mstep.
  split_and!; [done..|]. right. exists data. split; [done|by left].
Qed.

Lemma handled_taken (src : list Z → Prop) n s s' r p o :
  books_ok n s' → setup s' = setup s → src p →
  DocumentSync.merge_document lc (document_sync s) p = Ok (document_sync s', o) →
  handled src n s s' r.
Proof. intros. split_and!; [done..|]. right. exists p. eauto. Qed.

Lemma mwp_process src n s hint source data now rd origin hops :
  books_ok n s → 0 ≤ n → n + 1 < 2 ^ 32 → bytes_ok data →
  (∀ p, opens_at s data p → src p ∧ zlen p < 2 ^ 32) →
  mwp (overflows src s)
    (process_document_hinted lc hint clock source data now rd origin hops) s
    (handled src (n + 1) s).
Proof.
  intros Hb Hn0 Hn Hd Hsrc. unfold process_document_hinted. mstep.
  assert (books_ok (n + 1) s) as Hb' by (eapply books_ok_mono; [|done]; lia).
  assert (∀ p, opens_at s data p → bytes_ok p → mwp (overflows src s)
    (if DeltaDocument.is_delta_document p
     then process_delta_document_internal clock source p now rd origin hops
     else result ←? merge_document lc p;
          store_peer_peripheral result;;
          record_sync source now;;
          notify_merged result;;
          notify_relayed clock rd source (default (MergeResult.source_node result) origin) hops;;
          mret (Some (DataReceivedResult.of_merge result rd origin hops)))
    s (handled src (n + 1) s)) as Hp.
  { intros p [Hp Hl]%Hsrc Hbp. apply mwp_if; intros _; [by apply mwp_delta|].
    mstep. apply mwp_merge; [intros ?; exists p; auto|]. intros d [r|] Hm.
    2: { by eapply handled_taken. }
    mstep. apply mwp_mono with (λ s1 _, books_ok (n + 1) s1 ∧ setup s1 = setup s
      ∧ document_sync s1 = d).
    { unfold store_peer_peripheral. by destruct (MergeResult.peer_peripheral r); mstep. }
    intros s1 _ (Hb1 & Hs1 & <-). mstep. unfold record_sync. mstep. mstep. apply mwp_merged.
    intros es. mstep. apply mwp_relayed; [apply Hb1|]. intros es'. mstep.
    by eapply (handled_taken src (n + 1) s _ _ p). }
  apply mwp_decrypt; [done| | |].
  - intros k p Hk Hsealed Hbp. apply Hp; [left; eauto|done].
  - intros Hstrict _. apply Hp; [by right|done].
  - intros es. by apply handled_none, quiet_notified.
Qed.

Lemma mwp_accept O n s e now :
  books_ok n s → 0 ≤ n → n + 1 < 2 ^ 32 →
  mwp O (accept_envelope e now) s (λ s' _, quiet (n + 1) s s').
Proof.
  intros Hb Hn0 Hn. unfold accept_envelope, mark_message_seen. mstep. mstep.
  destruct (mark_ok n (seen_cache s) (RelayEnvelope.message_id e) (RelayEnvelope.origin_node e) now)
    as (c & b & -> & Hc & _); [done..|apply Hb|].
  assert (quiet (n + 1) s (set_seen_cache s c)) as Hq.
  { destruct (books_ok_mono n (n + 1) s ltac:(lia) Hb) as (? & _ & ? & ?). done. }
  apply mwp_if; intros _; [mstep; mstep; mstep; mstep; mstep; by apply quiet_notified|by mstep].
Qed.
Lemma mwp_relay_data O s e (Q : PeatMesh.t → option (list Z) → Prop) :
  RelayEnvelope.wf e → (∀ es o, Q (notified s es) o) → mwp O (relay_data_of e) s Q.
Proof.
  intros Hwf HQ. assert (notified s [] = s) as Hs by by destruct s.
  unfold relay_data_of. mstep. mstep. apply mwp_if; intros _.
  - mstep. mstep. rewrite EnvelopeProofs.relay_spec by apply Hwf. mstep. rewrite <-Hs. apply HQ.
  - mstep. apply mwp_if; intros _; mstep; mstep; [|rewrite <-Hs]; apply HQ.
Qed.

(** What an input may open to: itself, or what its envelope carries. *)
Definition carries s (data p : list Z) : Prop :=
  opens_at s data p ∨ ∃ e, RelayEnvelope.decode data = Ok e ∧ opens_at s (RelayEnvelope.payload e) p.
Definition short s (data : list Z) : Prop := ∀ p, carries s data p → zlen p < 2 ^ 32.

Lemma mwp_quiet_process n s s1 hint source e data now rd origin hops :
  quiet n s s1 → 0 ≤ n → n + 1 < 2 ^ 32 → short s data →
  RelayEnvelope.decode data = Ok e → RelayEnvelope.wf e →
  mwp (overflows (carries s data) s)
    (process_document_hinted lc hint clock source (RelayEnvelope.payload e) now rd origin hops) s1
    (handled (carries s data) (n + 1) s).
Proof.
  intros (Hb & Hs & Hk) Hn0 Hn Hshort He Hwf. eapply mwp_panic.
  - apply (mwp_process (carries s data) n s1); [done..|apply Hwf|].
    rewrite (opens_setup s s1) by done. intros p Hp.
    assert (carries s data p) as Hc by (right; eauto). split; [done|by apply Hshort].
  - by apply quiet_overflows.
  - intros s' r. by apply quiet_handled.
Qed.

Lemma mwp_envelope n s source identifier data now :
  books_ok n s → 0 ≤ n → n + 4 < 2 ^ 32 → bytes_ok data → short s data →
  mwp (overflows (carries s data) s)
    (handle_relay_envelope_with_identifier lc clock source identifier data now) s
    (handled (carries s data) (n + 4) s).
Proof.
  intros Hb Hn0 Hn Hd Hs. unfold handle_relay_envelope_with_identifier.
  assert (∀ k s', 0 ≤ k → k ≤ 4 → quiet (n + k) s s' → quiet (n + 4) s s') as Hweak.
  { intros k s' ?? (? & ? & ?). split_and!; [|done..]. eapply books_ok_mono; [|done]. lia. }
  assert (quiet (n + 0) s s) as Hq0 by (rewrite Z.add_0_r; by apply quiet_refl).
  mstep. eapply mwp_lift_opt; [by apply EnvelopeProofs.envelope_decode_wp| |].
  2: { apply handled_none. by eapply Hweak; [| |exact Hq0]. }
  intros e He Hwf. mstep. eapply mwp_mono; [apply (mwp_accept _ n); [done|done|lia]|].
  intros s1 [[]|] Hq1.
  2: { apply handled_none. by eapply Hweak; [| |exact Hq1]. }
  mstep. apply mwp_relay_data; [done|]. intros es rd.
  eapply mwp_mono; [apply (mwp_quiet_process (n + 1) s); try done; lia|].
  intros s' r (Hb' & Hrest). split; [|done]. eapply books_ok_mono; [|done]. lia.
Qed.

Lemma mwp_envelope_from_node n s source data now :
  books_ok n s → 0 ≤ n → n + 4 < 2 ^ 32 → bytes_ok data → short s data →
  mwp (overflows (carries s data) s) (handle_relay_envelope lc clock source data now) s
    (handled (carries s data) (n + 4) s).
Proof.
  intros Hb Hn0 Hn Hd Hs. unfold handle_relay_envelope, process_relay_envelope.
  pose proof (EnvelopeProofs.envelope_decode_wp data Hd) as Hwp.
  destruct (RelayEnvelope.decode data) as [e| |] eqn:He; [| |done]; cbn in Hwp; mstep; mstep; mstep.
  2: { unfold MeshRelay.process_relay_envelope. rewrite He. cbn. repeat mstep.
       apply handled_none. split_and!; [|done..]. apply (books_ok_mono n (n + 4)) in Hb; [exact Hb|lia]. }
  rewrite (RelayProofs.process_spec _ _ _ _ e He) by apply Hwp. unfold RelayProofs.learn.
  assert (∃ g, (if bool_decide (RelayEnvelope.origin_node e = source
        ∨ RelayEnvelope.origin_node e = MeshRelay.node_id (relay_view s))
    then Ok (MeshRelay.connection_graph (relay_view s))
    else let! r := ConnectionStateGraph.on_relay_received
           (MeshRelay.connection_graph (relay_view s)) source
           (RelayEnvelope.origin_node e) (RelayEnvelope.hop_count e) now in Ok r.1) = Ok g
    ∧ PeerGraphProofs.graph_ok (n + 1) 0 g
    ∧ ConnectionStateGraph.peers g = ConnectionStateGraph.peers (connection_graph s))
    as (g & -> & Hg & Hgp).
  { cbn [relay_view MeshRelay.connection_graph]. case_bool_decide.
    - eexists. split_and!; [done| |done]. eapply PeerGraphProofs.graph_ok_mono; [| |apply Hb]; lia.
    - destruct (PeerGraphProofs.relay_ok n 0 (connection_graph s) ltac:(lia)
        (proj1 Hb) source (RelayEnvelope.origin_node e) (RelayEnvelope.hop_count e) now)
        as (r & Hr1 & Hr); [apply Hwp|]. rewrite Hr1. exists r.1.
      split_and!; [done..|by eapply relay_keeps_peers]. }
  cbn [obind MeshRelay.seen_cache relay_view].
  destruct (mark_ok n (seen_cache s) (RelayEnvelope.message_id e) (RelayEnvelope.origin_node e) now)
    as (c & b & -> & Hc & _); [done|lia|apply Hb|]. cbn [obind fst snd].
  set (count := from_option _ _ _). clearbody count.
  assert (∀ v es, MeshRelay.seen_cache v = c → MeshRelay.connection_graph v = g →
    quiet (n + 1) s (notified (set_relay_view s v) es)) as Hq.
  { intros v es <- <-. destruct (books_ok_mono n (n + 1) s ltac:(lia) Hb) as (_ & _ & ? & ?).
    split_and!; [done..|]. unfold knowledge. cbn. by rewrite Hgp. }
  assert (∀ s', quiet (n + 1) s s' → quiet (n + 4) s s') as Hweak.
  { intros s' (? & ? & ?). split_and!; [|done..]. eapply books_ok_mono; [|done]. lia. }
  destruct (RelayProofs.answer (relay_view s) e b count) as [evs [d|]] eqn:Ha;
    cbn [obind fst snd]; mstep; mstep; mstep; [|by apply handled_none, Hweak, Hq].
  assert (MeshRelay.Decision.payload d = RelayEnvelope.payload e) as ->.
  { unfold RelayProofs.answer in Ha. destruct b; [|done].
    by destruct (RelayEnvelope.can_relay e); injection Ha as _ <-. }
  eapply mwp_mono; [apply (mwp_quiet_process (n + 1) s); try done; [by apply Hq|lia..]|].
  intros s' r (Hb' & Hrest). split; [|done]. eapply books_ok_mono; [|done]. lia.
Qed.

(** *** The anonymous method *)

Lemma mwp_anonymous n s identifier data now :
  books_ok n s → 0 ≤ n → n + 4 < 2 ^ 32 → bytes_ok data → short s data →
  mwp (overflows (carries s data) s)
    (on_ble_data_received_anonymous lc clock identifier data now) s
    (handled (carries s data) (n + 4) s).
Proof.
  intros Hb Hn0 Hn Hd Hshort. unfold on_ble_data_received_anonymous. mstep.
  assert (books_ok (n + 4) s) as Hb4 by (eapply books_ok_mono; [|done]; lia).
  assert (∀ s' r, document_sync s' = document_sync s → books_ok (n + 4) s' → setup s' = setup s →
    (∃ p, carries s data p) → handled (carries s data) (n + 4) s s' r) as Hsame.
  { intros s' r Hdoc Hb' Hs' [p Hp]. split_and!; [done..|]. right. exists p. auto. }
  assert (∀ p, opens_at s data p → bytes_ok p → mwp (overflows (carries s data) s)
    (if zlen p <? 8 then mret None
     else
       source_node ← lift (u32_at p 4);
       on_peers (λ pm, (PeerManager.register_identifier pm identifier source_node, tt));;
       if DeltaDocument.is_delta_document p then
         process_delta_document_internal clock source_node p now None None 0
       else if bool_decide (head p = Some APP_LAYER_MARKER) then
         mret (Some (DataReceivedResult.mk source_node false false false false 0 now
                       (Some p) None 0 None None None None None None None))
       else
         result ←? merge_document lc p;
         record_sync source_node now;;
         notify_merged result;;
         mret (Some (DataReceivedResult.of_merge result None None 0)))
    s (handled (carries s data) (n + 4) s)) as Hp.
  { intros p Hp Hbp. assert (carries s data p) as Hc by by left.
    apply mwp_if; intros Hlen; [by apply Hsame; eauto|]. mstep. mstep.
    pose proof (wp_u_at 4 p 4 (λ _, True) ltac:(lia) ltac:(lia) ltac:(lia) Hbp ltac:(done)) as Hu.
    destruct (u32_at p 4) as [source| |] eqn:Hu4; [| |done].
    2: { exfalso. revert Hu4. unfold u_at, slice. by destruct (_ && _). }
    mstep. mstep. set (s1 := set_peer_manager s _).
    apply mwp_if; intros _; [|apply mwp_if; intros _].
    - eapply mwp_panic; [apply (mwp_delta (carries s data) n s1); [done..|lia|done|by apply Hshort|done]
        |done|].
      intros s' r (Hb' & Hs' & Hr). apply (books_ok_mono (n + 1) (n + 4)) in Hb'; [|lia].
      split_and!; [done..|]. right. destruct Hr as [[Hk ->]|Hr]; [|exact Hr].
      exists p. split; [done|]. left. by injection Hk as Hk _ _ _ _ _.
    - apply Hsame; eauto.
    - mstep. apply mwp_merge; [intros ?; exists p; auto|]. intros d [r|] Hm.
      2: { by eapply handled_taken. }
      mstep. unfold record_sync. mstep. mstep. apply mwp_merged. intros es. mstep.
      by eapply (handled_taken _ (n + 4) s _ _ p). }
  apply mwp_decrypt; [done| | |].
  - intros k p Hk Hsealed Hbp. apply Hp; [left; eauto|done].
  - intros Hstrict _. apply Hp; [by right|done].
  - intros es. by apply handled_none, quiet_notified.
Qed.

(** *** A platform that gives only an address *)

Lemma books_graph n s g :
  books_ok n s → PeerGraphProofs.graph_ok n 0 g → books_ok n (set_connection_graph s g).
Proof. intros (_ & ?). by split. Qed.
Lemma mwp_graph_event O n s f e :
  books_ok n s → 0 ≤ n → n + 1 < 2 ^ 32 → GraphEvent.typed e → GraphEvent.bytes e = 0 →
  f (connection_graph s) = (let! g := GraphEvent.apply (connection_graph s) e in Ok (g, tt)) →
  mwp O (on_graph f) s (λ s' _, books_ok (n + 1) s' ∧ ∃ g, s' = set_connection_graph s g).
Proof.
  intros Hb Hn0 Hn Ht Hz Hf. mstep. rewrite Hf.
  destruct (PeerGraphProofs.event_ok n 0 (connection_graph s) ltac:(lia) ltac:(lia) (proj1 Hb) e)
    as (g & -> & Hg); [done|lia|]. rewrite Hz in Hg. cbn. split; [|by eexists].
  apply books_graph; [eapply books_ok_mono; [|done]; lia|done].
Qed.

Lemma mwp_graph_incoming O n s identifier peer is_new now :
  books_ok n s → 0 ≤ n → n + 2 < 2 ^ 32 →
  mwp O (graph_incoming identifier peer is_new now) s
    (λ s' _, books_ok (n + 2) s' ∧ ∃ g, s' = set_connection_graph s g).
Proof.
  intros Hb Hn0 Hn. unfold graph_incoming. mstep. mstep.
  assert (∃ g, s = set_connection_graph s g) as Hrefl by (exists (connection_graph s); by destruct s).
  mstep. apply mwp_mono with (λ s' _, books_ok (n + 1) s' ∧ ∃ g, s' = set_connection_graph s g).
  { apply mwp_if; intros _.
    - by apply (mwp_graph_event _ n _ _ (GraphEvent.Discovered peer identifier None
        (Some (mesh_id s)) (-50) now)); [|lia..| | |].
    - mstep. split; [|done]. eapply books_ok_mono; [|done]. lia. }
  intros s1 _ (Hb1 & g & ->).
  eapply mwp_mono; [by apply (mwp_graph_event _ (n + 1) _ _ (GraphEvent.Connected peer now));
    [|lia..| | |]|].
  intros s' _ (Hb' & g' & ->). split; [by replace (n + 2) with (n + 1 + 1) by lia|]. by exists g'.
Qed.

Lemma mwp_incoming_document src n s identifier data now rd origin hops :
  books_ok n s → 0 ≤ n → n + 2 < 2 ^ 32 → bytes_ok data → (∀ p, opens_at s data p → src p) →
  mwp (overflows src s)
    (process_incoming_document lc clock identifier data now rd origin hops) s
    (handled src (n + 2) s).
Proof.
  intros Hb Hn0 Hn Hd Hsrc. unfold process_incoming_document. mstep.
  assert (books_ok (n + 2) s) as Hb2 by (eapply books_ok_mono; [|done]; lia).
  assert (∀ p, src p → mwp (overflows src s)
    (result ←? merge_document lc p;
     let source_node := MergeResult.source_node result in
     record_sync source_node now;;
     (if bool_decide (origin = None) then
        is_new ← on_peers (λ pm, PeerManager.on_incoming_connection pm identifier source_node now);
        graph_incoming identifier source_node is_new now
      else mret tt);;
     notify_merged result;;
     notify_relayed clock rd source_node (default source_node origin) hops;;
     mret (Some (DataReceivedResult.of_merge result rd origin hops)))
    s (handled src (n + 2) s)) as Hp.
  { intros p Hp. mstep. apply mwp_merge; [intros ?; exists p; auto|]. intros d [r|] Hm.
    2: { by eapply handled_taken. }
    cbv zeta. mstep. unfold record_sync. mstep. mstep.
    set (s1 := set_peer_manager _ _). assert (books_ok n s1) as Hb1 by done.
    apply mwp_mono with (λ s' _, books_ok (n + 2) s' ∧ setup s' = setup s ∧ document_sync s' = d).
    { apply mwp_if; intros _; [|by mstep]. mstep. mstep.
      eapply mwp_mono; [by apply (mwp_graph_incoming _ n)|]. intros s' _ (Hb' & g & ->). done. }
    intros s2 _ (Hb2' & Hs2 & <-). mstep. apply mwp_merged. intros es. mstep.
    apply mwp_relayed; [apply Hb2'|]. intros es'. mstep.
    by eapply (handled_taken src (n + 2) s _ _ p). }
  apply mwp_decrypt; [done| | |].
  - intros k p Hk Hsealed Hbp. apply Hp, Hsrc. left; eauto.
  - intros Hstrict _. apply Hp, Hsrc. by right.
  - intros es. by apply handled_none, quiet_notified.
Qed.

Lemma quiet_weaken n n' s s' : n ≤ n' → quiet n s s' → quiet n' s s'.
Proof. intros Hn (? & ? & ?). split_and!; [|done..]. by eapply books_ok_mono. Qed.
Lemma handled_weaken src n n' s s' r : n ≤ n' → handled src n s s' r → handled src n' s s' r.
Proof. intros Hn (? & ? & ?). split_and!; [|done..]. by eapply books_ok_mono. Qed.

Lemma mwp_incoming_envelope n s identifier data now :
  books_ok n s → 0 ≤ n → n + 4 < 2 ^ 32 → bytes_ok data →
  mwp (overflows (carries s data) s)
    (handle_relay_envelope_with_incoming lc clock identifier data now) s
    (handled (carries s data) (n + 4) s).
Proof.
  intros Hb Hn0 Hn Hd. unfold handle_relay_envelope_with_incoming.
  assert (quiet n s s) as Hq0 by by apply quiet_refl.
  mstep. eapply mwp_lift_opt; [by apply EnvelopeProofs.envelope_decode_wp| |].
  2: { apply handled_none. eapply quiet_weaken; [|exact Hq0]. lia. }
  intros e He Hwf. mstep. mstep. mstep.
  apply mwp_mono with (λ s' _, quiet (n + 1) s s').
  { assert (quiet (n + 1) s s) as Hq1 by (eapply quiet_weaken; [|exact Hq0]; lia).
    destruct (PeerManager.get_node_id _ _) as [source|]; [|by mstep].
    apply mwp_if; intros _; [|by mstep]. mstep. mstep. cbn.
    destruct (PeerGraphProofs.relay_ok n 0 (connection_graph s) ltac:(lia) (proj1 Hb) source
      (RelayEnvelope.origin_node e) (RelayEnvelope.hop_count e) now) as (r & Hr1 & Hr); [apply Hwf|].
    unfold id. rewrite Hr1. split_and!; [apply books_graph; [apply Hq1|done]|done|].
    unfold knowledge. cbn. by rewrite (relay_keeps_peers _ _ _ _ _ _ Hr1). }
  intros s1 _ Hq1. mstep. eapply mwp_mono; [apply (mwp_accept _ (n + 1)); [apply Hq1|lia|lia]|].
  intros s2 [[]|] (Hb2 & Hs2 & Hk2); assert (quiet (n + 1 + 1) s s2) as Hq2
    by (destruct Hq1 as (_ & ? & ?); split_and!; [done|congruence..]).
  2: { apply handled_none. eapply quiet_weaken; [|done]. lia. }
  mstep. apply mwp_relay_data; [done|]. intros es rd.
  eapply mwp_panic.
  - apply (mwp_incoming_document (carries s data) (n + 1 + 1)); [apply Hq2|lia|lia|apply Hwf|].
    rewrite (opens_setup s) by apply Hq2. intros p Hp. right. eauto.
  - apply quiet_overflows. apply Hq2.
  - intros s' r Hh. apply (handled_weaken _ (n + 1 + 1 + 2)); [lia|].
    eapply quiet_handled; [apply Hq2..|done].
Qed.

(** *** Session messages *)

Lemma mwp_sessions O n s {A} (f : PeerSessionManager.t → PeerSessionManager.t * option A) :
  books_ok n s → mwp O (on_sessions f) s (λ s' _, quiet n s s').
Proof. done. Qed.
Lemma mwp_key_exchange O n s data now :
  books_ok n s → bytes_ok data → mwp O (handle_key_exchange data now) s (λ s' _, quiet n s s').
Proof.
  intros Hb Hd. unfold handle_key_exchange. mstep. mstep. rewrite has_marker_cons by done.
  apply mwp_if; intros Hm; [by mstep|]. destruct data as [|m [|z data]]; [done..|].
  mstep. mstep. rewrite payload_slice. mstep.
  inversion Hd as [|? ? _ Hd']; subst. inversion Hd' as [|? ? _ Hd'']; subst.
  eapply mwp_lift_opt; [by apply CryptoProofs.key_exchange_wp| |done].
  intros msg _ _. mstep. eapply mwp_mono; [by apply (mwp_sessions _ n)|].
  intros s1 [[response [|]]|] Hq; [| |done]; repeat mstep; done.
Qed.
Lemma mwp_peer_e2ee O n s data now :
  books_ok n s → bytes_ok data → mwp O (handle_peer_e2ee_message data now) s (λ s' _, quiet n s s').
Proof.
  intros Hb Hd. unfold handle_peer_e2ee_message. mstep. mstep. rewrite has_marker_cons by done.
  apply mwp_if; intros Hm; [by mstep|]. destruct data as [|m [|z data]]; [done..|].
  mstep. mstep. rewrite payload_slice. mstep.
  inversion Hd as [|? ? _ Hd']; subst. inversion Hd' as [|? ? _ Hd'']; subst.
  eapply mwp_lift_opt; [by apply SessionProofs.message_decode_wp| |done].
  intros msg _ _. mstep. eapply mwp_mono; [by apply (mwp_sessions _ n)|].
  intros s1 [[p|e]|] Hq; [| |done]; repeat mstep; done.
Qed.

Lemma kind_of_ok data : bytes_ok data → ∃ k, kind_of data = Ok k.
Proof.
  intros Hd. unfold kind_of. destruct (2 <=? zlen data) eqn:E; [|by eexists].
  destruct data as [|b data]; [done|]. inversion Hd. rewrite u8_at_here by lia. by eexists.
Qed.

(** Whatever the bytes: the bookkeeping survives, the setup stays, and what
    the node knows changes only through a plaintext the bytes open to. *)
Lemma mwp_receive n s i :
  books_ok n s → 0 ≤ n → n + 4 < 2 ^ 32 → bytes_ok (bytes i) → short s (bytes i) →
  mwp (overflows (carries s (bytes i)) s) (receive lc clock i) s
    (handled (carries s (bytes i)) (n + 4) s).
Proof.
  intros Hb Hn0 Hn Hd Hs.
  assert (∀ s', quiet n s s' → handled (carries s (bytes i)) (n + 4) s s' None) as Hnone
    by (intros s' Hq; apply handled_none; eapply quiet_weaken; [|done]; lia).
  assert (∀ hint source now, mwp (overflows (carries s (bytes i)) s)
    (process_document_hinted lc hint clock source (bytes i) now None None 0) s
    (handled (carries s (bytes i)) (n + 4) s)) as Hplain.
  { intros. eapply mwp_mono; [apply (mwp_process (carries s (bytes i)) n); [done|done|lia|done|]|].
    - intros p Hp. assert (carries s (bytes i) p) by by left. split; [done|by apply Hs].
    - intros s' r. apply handled_weaken. lia. }
  destruct (kind_of_ok _ Hd) as [k Hk].
  assert (∀ A (m : M A), mwp (overflows (carries s (bytes i)) s) m s (λ s' _, quiet n s s') →
    mwp (overflows (carries s (bytes i)) s) (m ≫= λ _, mret None) s
      (handled (carries s (bytes i)) (n + 4) s)) as Hsession.
  { intros A m Hm. mstep. eapply mwp_mono; [exact Hm|]. intros s' ? Hq. cbv beta in Hq. mstep. by apply Hnone. }
  destruct i as [id data now|node data now|id data now|id data now]; cbn [bytes receive] in *.
  - unfold on_ble_data_received. mstep. mstep. mstep. mstep.
    destruct (PeerManager.get_node_id _ _) as [source|]; [|by apply Hnone].
    mstep. mstep. rewrite Hk. destruct k.
    + by apply Hsession, mwp_key_exchange.
    + by apply Hsession, mwp_peer_e2ee.
    + by apply mwp_envelope.
    + apply Hplain.
  - unfold on_ble_data_received_from_node. mstep. mstep. rewrite Hk. destruct k.
    + by apply Hsession, mwp_key_exchange.
    + by apply Hsession, mwp_peer_e2ee.
    + by apply mwp_envelope_from_node.
    + apply Hplain.
  - by apply mwp_anonymous.
  - unfold on_ble_data. mstep. mstep. rewrite Hk. destruct k.
    + by apply Hsession, mwp_key_exchange.
    + by apply Hsession, mwp_peer_e2ee.
    + by apply mwp_incoming_envelope.
    + eapply mwp_mono; [apply (mwp_incoming_document (carries s data) n); [done|done|lia|done|]|].
      * intros p Hp. by left.
      * intros s' r. apply handled_weaken. lia.
Qed.

End message.

(** ** The documents of the members *)

Section member.
Context `{CryptoLaws} `{AppTypes} (lc : bool) (nodes : gset Z) (Hnodes : Mesh.mesh_ok nodes).
Implicit Types d : DocumentSync.t.

Lemma optional_section_bytes marker o :
  byte_ok marker → (∀ data, o = Some data → bytes_ok data) →
  bytes_ok (PeatDocument.optional_section marker o).
Proof.
  intros Hm Ho. destruct o as [data|]; [|apply bytes_nil]. cbn. unfold PeatDocument.encode_section.
  specialize (Ho data eq_refl). cbn. auto with bytes.
Qed.
Lemma build_bytes n i d :
  DocSyncProofs.node_inv lc nodes n i d → bytes_ok (DocumentSync.build_document lc d).
Proof.
  intros (_ & _ & _ & Hp & _ & He & Hc). unfold DocumentSync.build_document, PeatDocument.encode.
  do 2 (apply bytes_app; [apply le_bytes; lia|]).
  apply bytes_app; [apply GCounterProofs.gcounter_encode_bytes|].
  apply bytes_app; [|apply bytes_app]; apply optional_section_bytes; try done; intros data; cbn.
  - intros [= <-]. by apply PeripheralProofs.peripheral_encode_bytes.
  - destruct (DocumentSync.emergency d) as [e|] eqn:E; [|done]. intros [= <-].
    apply EmergencyEventProofs.emergency_encode_bytes.
  - unfold PeatDocument.chat_data. destruct lc; [|done]. cbn.
    destruct (DocumentSync.chat d) as [c|] eqn:E; [|done]. cbn.
    destruct (negb _); [|done]. intros [= <-]. apply ChatProofs.chat_crdt_encode_bytes.
    destruct (Hc c eq_refl) as [_ Hok]. apply DocSyncProofs.for_sync_ok, Hok.
Qed.

(** The markers that tell the kinds of messages apart. *)
Definition MARKERS : list Z := [0xAE; 0xAF; 0xB0; 0xB1; 0xB2].
(** The first byte of a document is the low byte of its version. *)
Definition unmistakable d : Prop := wrap 8 (DocumentSync.version d) ∉ MARKERS.

Lemma build_shape n i d :
  DocSyncProofs.node_inv lc nodes n i d →
  ∃ rest, DocumentSync.build_document lc d
    = wrap 8 (DocumentSync.version d) :: rest ∧ 7 ≤ zlen rest
    ∧ u32_at (DocumentSync.build_document lc d) 4 = Ok i.
Proof.
  intros (Hid & Hi & Hv & _). destruct (proj2 Hnodes i Hi).
  unfold DocumentSync.build_document, PeatDocument.encode. cbn [DocumentSync.document
    PeatDocument.version PeatDocument.node_id]. rewrite Hid.
  set (v := DocumentSync.version d). set (rest := GCounter.encode _ ++ _).
  exists (le 3 (v ≫ 8) ++ le 4 i ++ rest). split_and!; [|len|by rd].
  change (le 4 v) with (Z.land v (Z.ones 8) :: le 3 (v ≫ 8)). by rewrite Z.land_ones.
Qed.

Lemma merge_result (d : DocumentSync.t) data doc d' res :
  PeatDocument.decode lc data = Ok doc → DocumentSync.merge_document lc d data = Ok (d', Some res) →
  MergeResult.source_node res = PeatDocument.node_id doc
  ∧ MergeResult.peer_peripheral res = PeatDocument.peripheral doc.
Proof.
  intros Hdec. destruct (decide (PeatDocument.node_id doc = DocumentSync.node_id d)) as [He|Hne].
  { unfold DocumentSync.merge_document. rewrite Hdec. cbn [opt obind]. by rewrite He, Z.eqb_refl. }
  rewrite (DocSyncProofs.merge_document_refines lc d data doc Hdec Hne).
  destruct (PeatDocument.merge lc _ _) as [[doc' ch]| |]; cbn [obind]; [|done..].
  destruct (GCounter.value _); cbn [obind]; [|done..].
  destruct (PeatDocument.merge_counter _ _); cbn [obind]; [|done..]. by intros [= _ <-].
Qed.

End member.

(** ** Delivery *)

Section delivery.
Context `{CryptoLaws} `{AppTypes} `{!MapOrder Z} `{!MapOrder (Z * Z * Z)} (lc : bool) (clock : Z → Z).
Context (nodes : gset Z) (Hnodes : Mesh.mesh_ok nodes) (k i : Z) (a : PeatMesh.t) (nonce : list Z).
Context (Ha : DocSyncProofs.node_inv lc nodes k i (document_sync a)).
Context (Hkey : ∀ key, encryption_key a = Some key → block 32 (MeshEncryptionKey.key key)).
Context (Hnonce : block 12 nonce) (Hversion : unmistakable (document_sync a)).
Implicit Types s : PeatMesh.t.

Abbreviation p := (DocumentSync.build_document lc (document_sync a)).
Abbreviation data := (build_document lc a nonce).

Lemma built_bytes : bytes_ok data.
Proof.
  pose proof (build_bytes lc nodes k i _ Ha) as Hp. unfold build_document.
  destruct (encryption_key a) as [key|] eqn:Ek; [|by rewrite encrypt_document_plain].
  by apply (encrypt_document_sealed a key nonce p Ek (Hkey key eq_refl)).
Qed.
Lemma built_kind : kind_of data = Ok Plain.
Proof.
  pose proof (build_bytes lc nodes k i _ Ha) as Hp. pose proof built_bytes as Hb. revert Hb.
  destruct (build_shape lc nodes Hnodes k i _ Ha) as (rest & Hs & Hl & _). unfold build_document.
  destruct (encryption_key a) as [key|] eqn:Ek.
  - destruct (encrypt_document_sealed a key nonce p Ek (Hkey key eq_refl) Hnonce Hp)
      as [(r & payload & -> & _) _]. intros Hb. unfold kind_of.
    rewrite (proj2 (Z.leb_le _ _)) by len. inversion Hb. by rewrite u8_at_here by lia.
  - rewrite encrypt_document_plain, Hs in * by done. intros Hb. unfold kind_of.
    rewrite (proj2 (Z.leb_le _ _)) by len. inversion Hb. rewrite u8_at_here by lia. cbn [obind].
    unfold unmistakable, MARKERS in Hversion. unfold KEY_EXCHANGE_MARKER, PEER_E2EE_MARKER,
      RELAY_ENVELOPE_MARKER. rewrite !(proj2 (Z.eqb_neq _ _)) by set_solver. done.
Qed.
Lemma built_not_delta : DeltaDocument.is_delta_document p = false.
Proof.
  destruct (build_shape lc nodes Hnodes k i _ Ha) as (rest & -> & _). cbn.
  apply Z.eqb_neq. unfold unmistakable, MARKERS, DELTA_DOCUMENT_MARKER in *. set_solver.
Qed.
Lemma decrypt_built s hint :
  encryption_key s = encryption_key a → decrypt_document data hint s = Ok (s, Some p).
Proof.
  intros Hs. pose proof (build_bytes lc nodes k i _ Ha) as Hp. pose proof built_bytes as Hb.
  revert Hb. destruct (build_shape lc nodes Hnodes k i _ Ha) as (rest & Hsh & Hl & _).
  unfold build_document, decrypt_document, mbind, M_bind, lift, gets.
  destruct (encryption_key a) as [key|] eqn:Ek; intros Hb; rewrite has_marker_cons by done; cbn [obind fst snd].
  - destruct (encrypt_document_sealed a key nonce p Ek (Hkey key eq_refl) Hnonce Hp)
      as [(r & payload & -> & Hd) _]. rewrite Z.eqb_refl, payload_slice. cbn [obind fst snd].
    unfold id. rewrite Hs. cbn. by rewrite Hd.
  - rewrite encrypt_document_plain in * by done.
    assert ((match p with b :: _ :: _ => b =? ENCRYPTED_MARKER | _ => false end) = false) as Hm.
    { rewrite Hsh. destruct rest; [done|]. apply Z.eqb_neq.
      unfold unmistakable, MARKERS, ENCRYPTED_MARKER in *. set_solver. }
    rewrite Hm. unfold is_strict_encryption_enabled, is_encryption_enabled, id. rewrite Hs.
    by rewrite andb_false_r.
Qed.

(** [s] is the receiver when it turns to the document, [d] and [res] what the
    merge gives. *)
Context (s0 : PeatMesh.t) (d : DocumentSync.t) (res : MergeResult.t).
Context (Hmerge : DocumentSync.merge_document lc (document_sync s0) p = Ok (d, Some res)).
Context (Hk : k < 2 ^ 56).

Lemma merged_result :
  MergeResult.source_node res = i
  ∧ MergeResult.peer_peripheral res = Some (DocumentSync.peripheral (document_sync a)).
Proof.
  destruct (DocSyncProofs.document_wf lc nodes Hnodes k i _ Hk Ha) as (Hdec & _ & Hid).
  destruct (merge_result lc (document_sync s0) p _ d res Hdec Hmerge) as [-> ->]. by rewrite Hid.
Qed.

(** What [receive] leaves behind. *)
Definition delivered (stored : bool) (rd : option (list Z)) (o : option Z) (h : Z) s s'
    (r : option DataReceivedResult.t) : Prop :=
  r = Some (DataReceivedResult.of_merge res rd o h) ∧ document_sync s' = d
  ∧ peer_peripherals s' = if stored
      then <[i := DocumentSync.peripheral (document_sync a)]> (peer_peripherals s)
      else peer_peripherals s.

Lemma process_delivers s hint source now rd o h :
  encryption_key s = encryption_key a → document_sync s = document_sync s0 →
  1 ≤ RandomFanout.fanout (gossip_strategy s) < 2 ^ 64 →
  mwp False (process_document_hinted lc hint clock source data now rd o h) s
    (delivered true rd o h s).
Proof.
  intros Hs Hd Hf. destruct merged_result as [Hsrc Hper]. unfold process_document_hinted. mstep.
  unfold mwp at 1. rewrite decrypt_built by done. rewrite built_not_delta.
  mstep. apply mwp_merge; rewrite Hd, Hmerge; [done|]. intros ? ? [= <- <-].
  mstep. unfold store_peer_peripheral. rewrite Hper, Hsrc. mstep. mstep. unfold record_sync. mstep.
  mstep. apply mwp_merged. intros es. mstep. apply mwp_relayed; [done|]. intros es'. by mstep.
Qed.
Lemma incoming_delivers s identifier now rd o h n :
  encryption_key s = encryption_key a → document_sync s = document_sync s0 →
  books_ok n s → 0 ≤ n → n + 2 < 2 ^ 32 →
  mwp False (process_incoming_document lc clock identifier data now rd o h) s
    (delivered false rd o h s).
Proof.
  intros Hs Hd Hb Hn0 Hn. destruct merged_result as [Hsrc Hper].
  unfold process_incoming_document. mstep.
  unfold mwp at 1. rewrite decrypt_built by done.
  mstep. apply mwp_merge; rewrite Hd, Hmerge; [done|]. intros ? ? [= <- <-].
  cbv zeta. mstep. unfold record_sync. mstep. mstep.
  set (s1 := set_peer_manager _ _). assert (books_ok n s1) as Hb1 by done.
  apply mwp_mono with (λ s' _, books_ok (n + 2) s' ∧ document_sync s' = d
    ∧ peer_peripherals s' = peer_peripherals s).
  { apply mwp_if; intros _; [|mstep; split_and!; [eapply books_ok_mono; [|done]; lia|done..]].
    mstep. mstep. eapply mwp_mono; [by apply (mwp_graph_incoming _ n)|].
    intros s' _ (Hb' & g & ->). done. }
  intros s2 _ (Hb2 & Hd2 & Hp2). mstep. apply mwp_merged. intros es. mstep.
  apply mwp_relayed; [apply Hb2|]. intros es'. by mstep.
Qed.

Lemma anonymous_delivers s identifier now :
  encryption_key s = encryption_key a → document_sync s = document_sync s0 →
  mwp False (on_ble_data_received_anonymous lc clock identifier data now) s
    (delivered false None None 0 s).
Proof.
  intros Hs Hd. destruct (build_shape lc nodes Hnodes k i _ Ha) as (rest & Hp & Hl & Hu).
  assert (bool_decide (head p = Some APP_LAYER_MARKER) = false) as Hnapp.
  { rewrite Hp. apply bool_decide_eq_false_2. intros [= E].
    unfold unmistakable, MARKERS in Hversion. rewrite E in Hversion. set_solver. }
  unfold on_ble_data_received_anonymous. mstep. unfold mwp at 1. rewrite decrypt_built by done.
  rewrite (proj2 (Z.ltb_ge (zlen p) 8)) by (rewrite Hp; len). mstep. mstep. rewrite Hu.
  mstep. mstep. rewrite built_not_delta, Hnapp.
  mstep. apply mwp_merge; cbn; rewrite Hd, Hmerge; [done|]. intros ? ? [= <- <-].
  mstep. unfold record_sync. mstep. mstep. apply mwp_merged. intros es. by mstep.
Qed.

(** The document in an envelope. *)
Context (wall : Z) (Hid : in_u 32 (node_id a)).
Context (Hhops : byte_ok (PeatMeshConfig.max_relay_hops (config a))) (Hlen : zlen data < 2 ^ 32).

Definition envelope : RelayEnvelope.t :=
  RelayEnvelope.with_max_hops (RelayEnvelope.broadcast wall (node_id a) data)
    (PeatMeshConfig.max_relay_hops (config a)).
Abbreviation env := (build_relay_document lc a nonce wall).
(** What [s] passes on. *)
Definition passed_on s : option (list Z) :=
  if RelayEnvelope.can_relay envelope && is_relay_enabled s
  then Some (RelayEnvelope.encode (RelayProofs.hop envelope)) else None.

Lemma envelope_wf : RelayEnvelope.wf envelope.
Proof.
  pose proof (RelayProofs.message_id_bound wall) as Hm. pose proof built_bytes as Hb.
  unfold RelayEnvelope.wf, envelope. cbn -[MessageId.new]. split_and!; (done || lia).
Qed.
Lemma env_decode : RelayEnvelope.decode env = Ok envelope.
Proof.
  change env with (RelayEnvelope.encode envelope).
  rewrite <-(app_nil_r (RelayEnvelope.encode _)).
  by apply EnvelopeProofs.envelope_decode_encode, envelope_wf.
Qed.
Lemma env_bytes : bytes_ok env.
Proof. by apply EnvelopeProofs.envelope_encode_bytes, envelope_wf. Qed.
Lemma env_kind : kind_of env = Ok Envelope.
Proof.
  pose proof env_bytes as Hb. change env with (RelayEnvelope.encode envelope) in *.
  unfold RelayEnvelope.encode, kind_of in *. cbn [app] in *. rewrite (proj2 (Z.leb_le _ _)) by len.
  inversion Hb. by rewrite u8_at_here by (unfold RELAY_ENVELOPE_MARKER; lia).
Qed.

Definition fresh s : Prop :=
  SeenMessageCache.cache (seen_cache s) !! RelayEnvelope.message_id envelope = None.

Lemma accept_fresh O n s now :
  books_ok n s → 0 ≤ n → n + 1 < 2 ^ 32 → fresh s →
  mwp O (accept_envelope envelope now) s
    (λ s' r, r = Some tt ∧ books_ok (n + 1) s' ∧ ∃ c, s' = set_seen_cache s c).
Proof.
  intros Hb Hn0 Hn Hfresh. unfold accept_envelope, mark_message_seen. mstep. mstep.
  destruct (mark_ok n (seen_cache s) (RelayEnvelope.message_id envelope)
    (RelayEnvelope.origin_node envelope) now) as (c & b & -> & Hc & Hb'); [done..|apply Hb|].
  rewrite Hb' by done. cbn. split_and!; [done| |by eexists].
  destruct (books_ok_mono n (n + 1) s ltac:(lia) Hb) as (? & _ & ? & ?). done.
Qed.
Lemma relay_data_passed O s (Q : PeatMesh.t → option (list Z) → Prop) :
  (∀ es, Q (notified s es) (passed_on s)) → mwp O (relay_data_of envelope) s Q.
Proof.
  intros HQ. assert (notified s [] = s) as Hs by by destruct s.
  unfold relay_data_of, passed_on in *. mstep. mstep.
  change (is_relay_enabled (id s)) with (is_relay_enabled s).
  apply mwp_if; intros Hc; rewrite Hc in HQ.
  - apply andb_prop in Hc as [Hc _]. mstep. mstep.
    rewrite EnvelopeProofs.relay_spec by apply envelope_wf. rewrite Hc. mstep. rewrite <-Hs. apply HQ.
  - mstep. apply mwp_if; intros _; mstep; mstep; [|rewrite <-Hs]; apply HQ.
Qed.

Lemma envelope_delivers n s source identifier now :
  books_ok n s → 0 ≤ n → n + 1 < 2 ^ 32 → fresh s →
  encryption_key s = encryption_key a → document_sync s = document_sync s0 →
  mwp False (handle_relay_envelope_with_identifier lc clock source identifier env now) s
    (delivered true (passed_on s) (Some (node_id a)) 0 s).
Proof.
  intros Hb Hn0 Hn Hf Hs Hd. unfold handle_relay_envelope_with_identifier. rewrite env_decode.
  mstep. mstep. cbn [opt]. mstep.
  eapply mwp_mono; [by apply (accept_fresh _ n)|]. intros s1 ? (-> & Hb1 & c & ->).
  mstep. apply relay_data_passed. intros es.
  eapply mwp_mono; [by apply process_delivers; [..|apply Hb1]|]. done.
Qed.
Lemma node_envelope_delivers n s source now :
  books_ok n s → 0 ≤ n → n + 1 < 2 ^ 32 → fresh s →
  encryption_key s = encryption_key a → document_sync s = document_sync s0 →
  mwp False (handle_relay_envelope lc clock source env now) s
    (delivered true (passed_on s) (Some (node_id a)) 0 s).
Proof.
  intros Hb Hn0 Hn Hf Hs Hd. unfold handle_relay_envelope, process_relay_envelope.
  mstep. mstep. mstep. rewrite (RelayProofs.process_spec _ _ _ _ _ env_decode)
    by apply envelope_wf. unfold RelayProofs.learn.
  destruct (PeerGraphProofs.relay_ok n 0 (connection_graph s) ltac:(lia) (proj1 Hb) source
    (RelayEnvelope.origin_node envelope) (RelayEnvelope.hop_count envelope) now)
    as (r & Hr & _); [apply envelope_wf|].
  assert (∃ g, (if bool_decide (RelayEnvelope.origin_node envelope = source
        ∨ RelayEnvelope.origin_node envelope = MeshRelay.node_id (relay_view s))
    then Ok (MeshRelay.connection_graph (relay_view s))
    else let! r := ConnectionStateGraph.on_relay_received
           (MeshRelay.connection_graph (relay_view s)) source
           (RelayEnvelope.origin_node envelope) (RelayEnvelope.hop_count envelope) now in
         Ok r.1) = Ok g) as (g & ->).
  { cbn [relay_view MeshRelay.connection_graph]. rewrite Hr. case_bool_decide; by eexists. }
  cbn [obind MeshRelay.seen_cache relay_view].
  destruct (mark_ok n (seen_cache s) (RelayEnvelope.message_id envelope)
    (RelayEnvelope.origin_node envelope) now) as (c & b & -> & Hc & Hb'); [done|lia|apply Hb|].
  rewrite Hb' by done. cbn [obind fst snd RelayProofs.answer].
  unfold passed_on. change (is_relay_enabled s) with (MeshRelay.enable_relay (relay_view s)).
  destruct (RelayEnvelope.can_relay envelope); [destruct (MeshRelay.enable_relay _) eqn:Er|];
    rewrite ?Er; cbn; repeat mstep;
    (eapply mwp_mono; [by apply process_delivers; [..|apply Hb]|done]).
Qed.
Lemma incoming_envelope_delivers n s identifier now :
  books_ok n s → 0 ≤ n → n + 4 < 2 ^ 32 → fresh s →
  encryption_key s = encryption_key a → document_sync s = document_sync s0 →
  mwp False (handle_relay_envelope_with_incoming lc clock identifier env now) s
    (delivered false (passed_on s) (Some (node_id a)) 0 s).
Proof.
  intros Hb Hn0 Hn Hf Hs Hd. unfold handle_relay_envelope_with_incoming. rewrite env_decode.
  mstep. mstep. cbn [opt]. mstep. mstep. mstep.
  apply mwp_mono with (λ s' _, books_ok (n + 1) s' ∧ ∃ g, s' = set_connection_graph s g).
  { assert (books_ok (n + 1) s) as Hb1 by (eapply books_ok_mono; [|done]; lia).
    assert (∃ g, s = set_connection_graph s g) as Hrefl by (exists (connection_graph s); by destruct s).
    destruct (PeerManager.get_node_id _ _) as [source|]; [|by mstep].
    apply mwp_if; intros _; [|by mstep]. mstep. mstep. cbn -[envelope].
    destruct (PeerGraphProofs.relay_ok n 0 (connection_graph s) ltac:(lia) (proj1 Hb) source
      (RelayEnvelope.origin_node envelope) (RelayEnvelope.hop_count envelope) now)
      as (r & Hr & Hg); [apply envelope_wf|].
    unfold id. rewrite Hr. split; [by apply books_graph|by eexists]. }
  intros s1 _ (Hb1 & g & ->). mstep.
  eapply mwp_mono; [by apply (accept_fresh _ (n + 1)); [..|lia| |]; (done || lia)|].
  intros s2 ? (-> & Hb2 & c & ->). mstep. apply relay_data_passed. intros es.
  eapply mwp_mono; [by apply (incoming_delivers _ _ _ _ _ _ (n + 1 + 1)); [..|lia|lia]|]. done.
Qed.

End delivery.

End TransportProofs.

Module TransportProperties.
Import Transport TransportProofs.

Section receive.
Context `{CryptoLaws} `{AppTypes} `{!MapOrder Z} `{!MapOrder (Z * Z * Z)} (lc : bool) (clock : Z → Z).
Implicit Types s : PeatMesh.t.

(** The hypotheses of the first theorems hold of a new node. *)
Lemma new_books_ok config identity n :
  0 ≤ n → PeatMeshConfig.relay_fanout config < 2 ^ 64 → books_ok n (build config identity).
Proof.
  intros Hn Hf. unfold books_ok. cbn. split_and!; [split| | |lia|lia]; apply map_Forall_empty.
Qed.
Lemma new_node_inv nodes config identity :
  Mesh.mesh_ok nodes → PeatMeshConfig.node_id config ∈ nodes →
  Mesh.callsign_in (PeatMeshConfig.callsign config) →
  DocSyncProofs.node_inv lc nodes 0 (PeatMeshConfig.node_id config)
    (document_sync (build config identity)).
Proof.
  intros Hnodes Hi Hcs. destruct (proj2 Hnodes _ Hi) as [Hu Hz]. unfold DocSyncProofs.node_inv. cbn.
  split_and!; try done; try lia. by apply DocSyncProofs.new_peripheral_wf.
Qed.

Lemma merge_member nodes k j (d : DocumentSync.t) p :
  Mesh.mesh_ok nodes → 0 ≤ k → k < 2 ^ 56 → DocSyncProofs.node_inv lc nodes k j d → bytes_ok p →
  (∀ doc, PeatDocument.decode lc p = Ok doc → DocSyncProofs.doc_inv lc nodes k doc) →
  ∃ d' r, DocumentSync.merge_document lc d p = Ok (d', r) ∧ DocSyncProofs.node_inv lc nodes k j d'.
Proof.
  intros Hnodes Hk0 Hk Hd Hb Hp. pose proof (DocumentProofs.document_decode_wp lc p Hb) as Hwp.
  destruct (PeatDocument.decode lc p) as [doc| |] eqn:Hdec; [| |done].
  - destruct (DocSyncProofs.merge_inv lc nodes Hnodes k j d p doc) as (d' & r & ? & ? & _); eauto.
  - exists d, None. split; [|done]. unfold DocumentSync.merge_document. by rewrite Hdec.
Qed.
Lemma member_total nodes k j (d : DocumentSync.t) :
  Mesh.mesh_ok nodes → 0 ≤ k → k < 2 ^ 56 → DocSyncProofs.node_inv lc nodes k j d →
  DocumentSync.total_count d ≠ Panic.
Proof.
  intros Hnodes Hk0 Hk (_ & _ & _ & _ & Hc & _). unfold DocumentSync.total_count.
  rewrite GCounterProofs.value_spec by apply (DocSyncProofs.counts_ok_wf nodes Hnodes k _ Hc Hk).
  by rewrite (proj2 (Z.ltb_lt _ _)) by by apply (DocSyncProofs.counts_ok_total nodes Hnodes k).
Qed.

Lemma opens_bytes s data p : bytes_ok data → opens_at s data p → bytes_ok p.
Proof.
  intros Hb [(key & _ & r & payload & -> & Hd)|[_ ->]]; [|done].
  inversion Hb as [|? ? _ Hb']; subst. inversion Hb' as [|? ? _ Hb'']; subst.
  destruct (decrypt_from_bytes_ok key payload Hb'') as (r' & Hr & Hp). apply Hp. congruence.
Qed.
Lemma carries_bytes s data p : bytes_ok data → carries s data p → bytes_ok p.
Proof.
  intros Hb [Ho|(e & He & Ho)]; [by eapply opens_bytes|]. eapply opens_bytes; [|done].
  pose proof (EnvelopeProofs.envelope_decode_wp data Hb) as Hwp. rewrite He in Hwp. apply Hwp.
Qed.
Lemma carries_setup s s' : setup s' = setup s → carries s' = carries s.
Proof. intros Hs. unfold carries. by rewrite (opens_setup s s' Hs). Qed.

Lemma receive_all_outside inputs : ∀ n s,
  books_ok n s → 0 ≤ n → n + 4 * zlen inputs < 2 ^ 32 →
  Forall (λ i, bytes_ok (bytes i) ∧ ∀ p, ¬ carries s (bytes i) p) inputs →
  mwp False (receive_all lc clock inputs) s (λ s' rs, rs = replicate (length inputs) None
    ∧ setup s' = setup s ∧ knowledge s' = knowledge s).
Proof.
  induction inputs as [|i inputs IH]; intros n s Hb Hn0 Hn Hall; [done|].
  apply Forall_cons in Hall as [[Hi Hno] Hall]. assert (zlen (i :: inputs) = 1 + zlen inputs) as Hl by len.
  cbn [receive_all]. mstep.
  eapply (mwp_panic (overflows lc (carries s (bytes i)) s) False); [|by intros (p & Hp & _); eapply Hno|].
  { apply (mwp_receive lc clock n); [done|done|lia|done|]. intros p Hp. by destruct (Hno p). }
  intros s1 r (Hb1 & Hs1 & [[Hk1 ->]|(p & Hp & _)]); [|by destruct (Hno p)].
  mstep. eapply mwp_mono; [apply (IH (n + 4)); [done|lia..|by rewrite (carries_setup s)]|].
  intros s2 rs (-> & Hs2 & Hk2). mstep. split_and!; [done|congruence..].
Qed.

Lemma receive_member nodes k j n s i :
  Mesh.mesh_ok nodes → 0 ≤ k → k < 2 ^ 56 → DocSyncProofs.node_inv lc nodes k j (document_sync s) →
  books_ok n s → 0 ≤ n → n + 4 < 2 ^ 32 → bytes_ok (bytes i) →
  (∀ p, carries s (bytes i) p → zlen p < 2 ^ 32
    ∧ ∀ doc, PeatDocument.decode lc p = Ok doc → DocSyncProofs.doc_inv lc nodes k doc) →
  mwp False (receive lc clock i) s (λ s' _,
    DocSyncProofs.node_inv lc nodes k j (document_sync s') ∧ setup s' = setup s ∧ books_ok (n + 4) s').
Proof.
  intros Hnodes Hk0 Hk Hd Hb Hn0 Hn Hi Hdocs.
  assert (∀ p, carries s (bytes i) p → ∃ d' r,
    DocumentSync.merge_document lc (document_sync s) p = Ok (d', r)
    ∧ DocSyncProofs.node_inv lc nodes k j d') as Hm.
  { intros p Hp. apply (merge_member nodes); try done; [by eapply carries_bytes|by apply Hdocs]. }
  eapply (mwp_panic (overflows lc (carries s (bytes i)) s) False).
  { apply (mwp_receive lc clock n); [done|done|lia|done|]. intros p Hp. by apply Hdocs. }
  { intros (p & Hp & [Ht|Hpan]); [by apply (member_total nodes k j) in Ht|].
    destruct (Hm p Hp) as (d' & r & Hok & _). congruence. }
  intros s1 r (Hb1 & Hs1 & Hr). split_and!; [|done..].
  destruct Hr as [[Hkn _]|(p & Hp & [->|[r' Hr]])]; [|done|].
  - unfold knowledge in Hkn. by replace (document_sync s1) with (document_sync s) by congruence.
  - destruct (Hm p Hp) as (d' & r'' & Hok & Hinv). rewrite Hr in Hok. by injection Hok as -> _.
Qed.
Lemma receive_all_members nodes k j inputs : ∀ n s,
  Mesh.mesh_ok nodes → 0 ≤ k → k < 2 ^ 56 → DocSyncProofs.node_inv lc nodes k j (document_sync s) →
  books_ok n s → 0 ≤ n → n + 4 * zlen inputs < 2 ^ 32 →
  Forall (λ i, bytes_ok (bytes i) ∧ ∀ p, carries s (bytes i) p → zlen p < 2 ^ 32
    ∧ ∀ doc, PeatDocument.decode lc p = Ok doc → DocSyncProofs.doc_inv lc nodes k doc) inputs →
  mwp False (receive_all lc clock inputs) s (λ s' _,
    DocSyncProofs.node_inv lc nodes k j (document_sync s')
    ∧ setup s' = setup s ∧ books_ok (n + 4 * zlen inputs) s').
Proof.
  induction inputs as [|i inputs IH]; intros n s Hnodes Hk0 Hk Hd Hb Hn0 Hn Hall.
  { cbn [receive_all]. mstep. split_and!; [done..|]. eapply books_ok_mono; [|done]. len. }
  apply Forall_cons in Hall as [[Hi Hdocs] Hall].
  assert (zlen (i :: inputs) = 1 + zlen inputs) as Hl by len. rewrite Hl in *.
  cbn [receive_all]. mstep.
  eapply mwp_mono; [by apply (receive_member nodes k j n); [..|lia| |]|]. intros s1 r (Hd1 & Hs1 & Hb1).
  mstep. eapply mwp_mono; [apply (IH (n + 4)); try done; [lia..|by rewrite (carries_setup s)]|].
  intros s2 rs (Hd2 & Hs2 & Hb2). mstep. split_and!; [done|congruence|].
  by replace (n + 4 * (1 + zlen inputs)) with (n + 4 + 4 * zlen inputs) by lia.
Qed.

End receive.

(** C7: A strict node takes any number of messages from outsiders, through any
    of its four methods: bytes that neither open under the mesh key nor carry,
    in a relay envelope, bytes that do. It survives each of them, returns no
    data, and knows what it knew before: its document, the peripherals and
    application documents of its peers, its peers, the direct peers of its
    connection graph with their states, and the identities it has learnt are
    unchanged. Beyond this, an envelope is looked at before it is
    authenticated: it can add indirect peers and occupy the duplicate cache,
    and a key exchange is not encrypted at all. *)
Theorem outsiders_change_nothing `{CryptoLaws} `{AppTypes} `{!MapOrder Z} `{!MapOrder (Z * Z * Z)}
    legacy_chat clock n s inputs
    (Hbooks : books_ok n s) (Hn : 0 ≤ n ∧ n + 4 * zlen inputs < 2 ^ 32)
    (Hstrict : is_strict_encryption_enabled s = true)
    (Hbytes : Forall (λ i, bytes_ok (bytes i)) inputs)
    (Hout : Forall (λ i, ∀ key p data, encryption_key s = Some key →
       data = bytes i ∨ (∃ e, RelayEnvelope.decode (bytes i) = Ok e ∧ data = RelayEnvelope.payload e) →
       ¬ sealed_with key data p) inputs) :
  ∃ s', receive_all legacy_chat clock inputs s = Ok (s', replicate (length inputs) None)
    ∧ setup s' = setup s ∧ knowledge s' = knowledge s.
Proof.
  assert (Forall (λ i, bytes_ok (bytes i) ∧ ∀ p, ¬ carries s (bytes i) p) inputs) as Hall.
  { apply Forall_and. split; [done|]. eapply Forall_impl; [exact Hout|]. cbn.
    intros i Hi p [[(key & Hk & Hs)|[Hf _]]|(e & He & [(key & Hk & Hs)|[Hf _]])]; try congruence.
    - eapply (Hi key p); eauto.
    - eapply (Hi key p); eauto. }
  pose proof (receive_all_outside legacy_chat clock inputs n s Hbooks ltac:(lia) ltac:(lia) Hall) as Hr.
  unfold mwp in Hr. destruct (receive_all _ _ _ _) as [[s' rs]| |]; [|done..].
  destruct Hr as (-> & ? & ?). by exists s'.
Qed.

(** A node whose members' documents name at most 256 nodes takes any
    messages: as long as whatever they carry, once opened, is shorter than
    2^32 bytes and, if it is a document at all, one a member could have
    built, the node survives every one of them, keeps its setup, and its own
    document stays one the members understand. *)
Theorem members_never_crash_a_node `{CryptoLaws} `{AppTypes} `{!MapOrder Z}
    `{!MapOrder (Z * Z * Z)} legacy_chat clock nodes k j n s inputs
    (Hnodes : Mesh.mesh_ok nodes) (Hk : 0 ≤ k < 2 ^ 56)
    (Hdoc : DocSyncProofs.node_inv legacy_chat nodes k j (document_sync s))
    (Hbooks : books_ok n s) (Hn : 0 ≤ n ∧ n + 4 * zlen inputs < 2 ^ 32)
    (Hbytes : Forall (λ i, bytes_ok (bytes i)) inputs)
    (Hmembers : Forall (λ i, ∀ p, carries s (bytes i) p → zlen p < 2 ^ 32
       ∧ ∀ d, PeatDocument.decode legacy_chat p = Ok d →
              DocSyncProofs.doc_inv legacy_chat nodes k d) inputs) :
  ∃ s' rs, receive_all legacy_chat clock inputs s = Ok (s', rs)
    ∧ DocSyncProofs.node_inv legacy_chat nodes k j (document_sync s')
    ∧ setup s' = setup s ∧ books_ok (n + 4 * zlen inputs) s'.
Proof.
  pose proof (receive_all_members legacy_chat clock nodes k j inputs n s Hnodes (proj1 Hk)
    (proj2 Hk) Hdoc Hbooks (proj1 Hn) (proj2 Hn) ltac:(by apply Forall_and)) as Hr.
  unfold mwp in Hr. destruct (receive_all _ _ _ _) as [[s' rs]| |]; [by exists s', rs|done..].
Qed.

(** A node that sends. *)
Definition sender_ok `{Crypto} `{AppTypes} legacy_chat nodes k i (a : PeatMesh.t) (nonce : list Z)
    : Prop :=
  DocSyncProofs.node_inv legacy_chat nodes k i (document_sync a)
  ∧ (∀ key, encryption_key a = Some key → block 32 (MeshEncryptionKey.key key))
  ∧ block 12 nonce ∧ unmistakable (document_sync a).
(** The method knows the sender of the bytes, or does not need to. *)
Definition expects `{Crypto} `{AppTypes} (s : PeatMesh.t) (i : input) : Prop :=
  match i with
  | Received identifier _ _ => is_Some (PeerManager.get_node_id (peer_manager s) identifier)
  | _ => True
  end.
(** The methods that keep the peripheral of the sender. *)
Definition stores (i : input) : bool :=
  match i with Received _ _ _ | FromNode _ _ _ => true | Anonymous _ _ _ | Incoming _ _ _ => false end.
Definition unwraps (i : input) : Prop := match i with Anonymous _ _ _ => False | _ => True end.

(** A document taken through any of the methods. *)
Lemma document_taken `{CryptoLaws} `{AppTypes} `{!MapOrder Z} `{!MapOrder (Z * Z * Z)}
    legacy_chat clock nodes k n i j a b nonce x :
  Mesh.mesh_ok nodes → 0 ≤ k < 2 ^ 56 → i ≠ j → sender_ok legacy_chat nodes k i a nonce →
  DocSyncProofs.node_inv legacy_chat nodes k j (document_sync b) →
  books_ok n b → 0 ≤ n ∧ n + 4 < 2 ^ 32 → encryption_key b = encryption_key a →
  bytes x = build_document legacy_chat a nonce → expects b x →
  mwp False (receive legacy_chat clock x) b (λ b' r, ∃ res,
    r = Some (DataReceivedResult.of_merge res None None 0)
    ∧ DocumentSync.merge_document legacy_chat (document_sync b)
        (DocumentSync.build_document legacy_chat (document_sync a)) = Ok (document_sync b', Some res)
    ∧ MergeResult.source_node res = i
    ∧ peer_peripherals b' = (if stores x
        then <[i := DocumentSync.peripheral (document_sync a)]> (peer_peripherals b)
        else peer_peripherals b)).
Proof.
  intros Hnodes [Hk0 Hk] Hij (Ha & Hka & Hnonce & Hv) Hb Hbooks Hn Hkey Hx Hexp.
  destruct (DocSyncProofs.document_wf legacy_chat nodes Hnodes k i _ Hk Ha) as (Hdec & Hdi & Hid).
  destruct (DocSyncProofs.merge_inv legacy_chat nodes Hnodes k j _ _ _ Hk0 Hk Hb Hdec Hdi)
    as (d & [res|] & Hm & _ & Hnone & _); [|by destruct Hij; rewrite <-Hid; apply Hnone].
  eapply mwp_mono with (delivered i a d res (stores x) None None 0 b).
  2: { intros b' r (-> & <- & ?). exists res. split_and!; try done.
       by eapply (merged_result legacy_chat nodes Hnodes k i a Ha b _ res). }
  assert (kind_of (bytes x) = Ok Plain) as Hkind by (rewrite Hx; by eapply built_kind).
  destruct x as [ident data now|node data now|ident data now|ident data now]; cbn [bytes receive stores] in *;
    subst data.
  - destruct Hexp as [source Hs]. unfold on_ble_data_received. mstep. mstep. mstep. mstep.
    unfold id. rewrite Hs. mstep. mstep. rewrite Hkind.
    eapply process_delivers; eauto. apply Hbooks.
  - unfold on_ble_data_received_from_node. mstep. mstep. rewrite Hkind.
    eapply process_delivers; eauto. apply Hbooks.
  - eapply anonymous_delivers; eauto.
  - unfold on_ble_data. mstep. mstep. rewrite Hkind.
    eapply (incoming_delivers legacy_chat clock nodes Hnodes k i a nonce Ha Hka Hnonce Hv b d res Hm Hk
      b ident now None None 0 n); try done; lia.
Qed.


(** C8: The same through a relay envelope: a member that has not seen the
    message takes it from any of the three methods that unwrap envelopes and
    merges the document of the author, again unless the low byte of its
    version is one of the message markers. It reports the author as the origin
    and, if relaying is on and a hop is left, hands back the envelope to pass
    on: the same message, one hop later. *)
Theorem envelopes_are_delivered `{CryptoLaws} `{AppTypes} `{!MapOrder Z} `{!MapOrder (Z * Z * Z)}
    legacy_chat clock nodes k n i j a b nonce wall x
    (Hnodes : Mesh.mesh_ok nodes) (Hk : 0 ≤ k < 2 ^ 56) (Hij : i ≠ j)
    (Ha : sender_ok legacy_chat nodes k i a nonce) (Hid : in_u 32 (node_id a))
    (Hhops : byte_ok (PeatMeshConfig.max_relay_hops (config a)))
    (Hlen : zlen (build_document legacy_chat a nonce) < 2 ^ 32)
    (Hb : DocSyncProofs.node_inv legacy_chat nodes k j (document_sync b))
    (Hbooks : books_ok n b) (Hn : 0 ≤ n ∧ n + 4 < 2 ^ 32)
    (Hfresh : fresh legacy_chat a nonce wall b) (Hkey : encryption_key b = encryption_key a)
    (Hx : bytes x = build_relay_document legacy_chat a nonce wall)
    (Hexp : expects b x) (Hunwraps : unwraps x) :
  let e := envelope legacy_chat a nonce wall in
  let relayed := if RelayEnvelope.can_relay e && is_relay_enabled b
                 then Some (RelayEnvelope.encode (RelayProofs.hop e)) else None in
  ∃ b' res, receive legacy_chat clock x b
      = Ok (b', Some (DataReceivedResult.of_merge res relayed (Some (node_id a)) 0))
    ∧ DocumentSync.merge_document legacy_chat (document_sync b)
        (DocumentSync.build_document legacy_chat (document_sync a)) = Ok (document_sync b', Some res)
    ∧ RelayEnvelope.decode (bytes x) = Ok e ∧ RelayEnvelope.wf e.
Proof.
  cbv zeta. destruct Ha as (Ha & Hka & Hnonce & Hv), Hk as [Hk0 Hk], Hn as [Hn0 Hn].
  destruct (DocSyncProofs.document_wf legacy_chat nodes Hnodes k i _ Hk Ha) as (Hdec & Hdi & Hdid).
  destruct (DocSyncProofs.merge_inv legacy_chat nodes Hnodes k j _ _ _ Hk0 Hk Hb Hdec Hdi)
    as (d & [res|] & Hm & _ & Hnone & _); [|by destruct Hij; rewrite <-Hdid; apply Hnone].
  assert (RelayEnvelope.decode (build_relay_document legacy_chat a nonce wall)
    = Ok (envelope legacy_chat a nonce wall)) as Hdecode by by eapply env_decode.
  assert (RelayEnvelope.wf (envelope legacy_chat a nonce wall)) as Hwf by by eapply envelope_wf.
  assert (kind_of (build_relay_document legacy_chat a nonce wall) = Ok Envelope) as Hkind
    by by eapply env_kind.
  rewrite <-Hx in Hdecode, Hkind.
  assert (mwp False (receive legacy_chat clock x) b (delivered i a d res (stores x)
    (passed_on legacy_chat a nonce wall b) (Some (node_id a)) 0 b)) as Hr.
  2: { unfold mwp in Hr. destruct (receive _ _ _ _) as [[b' r]| |]; [|done..].
       destruct Hr as (-> & <- & _). exists b', res.
       split; [reflexivity|]. split; [exact Hm|]. split; [exact Hdecode|exact Hwf]. }
  destruct x as [ident data now|node data now|ident data now|ident data now];
    cbn [bytes receive stores unwraps] in *; subst data; [| |destruct Hunwraps|].
  - destruct Hexp as [source Hs]. unfold on_ble_data_received. mstep. mstep. mstep. mstep.
    unfold id. rewrite Hs. mstep. mstep. rewrite Hkind.
    eapply (envelope_delivers legacy_chat clock nodes Hnodes k i a nonce Ha Hka Hnonce Hv b d res Hm
      Hk wall Hid Hhops Hlen n); first [assumption | lia | reflexivity].
  - unfold on_ble_data_received_from_node. mstep. mstep. rewrite Hkind.
    eapply (node_envelope_delivers legacy_chat clock nodes Hnodes k i a nonce Ha Hka Hnonce Hv b d res
      Hm Hk wall Hid Hhops Hlen n); first [assumption | lia | reflexivity].
  - unfold on_ble_data. mstep. mstep. rewrite Hkind.
    eapply (incoming_envelope_delivers legacy_chat clock nodes Hnodes k i a nonce Ha Hka Hnonce Hv b d
      res Hm Hk wall Hid Hhops Hlen n); first [assumption | lia | reflexivity].
Qed.

(** *** Two nodes of a strict mesh *)

#[local] Existing Instance RegistryProperties.demo_apps.
#[local] Instance triple_order : MapOrder (Z * Z * Z) :=
  {| map_iter V m := map_to_list m; map_iter_perm V m := Permutation_refl _ |}.

Definition demo_config (n : Z) : PeatMeshConfig.t :=
  PeatMeshConfig.with_relay (PeatMeshConfig.with_strict_encryption
    (PeatMeshConfig.with_encryption
       (PeatMeshConfig.new n (str "NODE-"%string ++ [48 + n]) (str "DEMO"%string)) (replicate 32 7))).
Definition demo (n : Z) : PeatMesh.t := PeatMesh.new (demo_config n).
Definition demo_key : MeshEncryptionKey.t :=
  MeshEncryptionKey.from_shared_secret (str "DEMO"%string) (replicate 32 7).
Definition demo_nodes : gset Z := list_to_set [1; 2].
Definition demo_nonce : list Z := replicate 12 9.

Lemma demo_books n : books_ok 0 (demo n).
Proof. by apply new_books_ok. Qed.
Lemma demo_mesh : Mesh.mesh_ok demo_nodes.
Proof. unfold Mesh.mesh_ok. by_decide. Qed.
Lemma demo_inv n : n ∈ [1; 2] → DocSyncProofs.node_inv true demo_nodes 0 n (document_sync (demo n)).
Proof.
  intros Hn. apply new_node_inv; [apply demo_mesh|by apply elem_of_list_to_set|].
  unfold Mesh.callsign_in, Mesh.text_ok. rewrite !elem_of_cons, elem_of_nil in Hn.
  destruct Hn as [->|[->|[]]]; by_decide.
Qed.
Lemma demo_sender n : n ∈ [1; 2] → sender_ok true demo_nodes 0 n (demo n) demo_nonce.
Proof.
  intros Hn. split_and!.
  - by apply demo_inv.
  - intros key [= <-]. apply hkdf_block.
  - by_decide.
  - unfold unmistakable. by_decide.
Qed.


Lemma envelopes_are_delivered_witness :
  let data := build_relay_document true (demo 1) demo_nonce 77 in
  let e := envelope true (demo 1) demo_nonce 77 in
  ∃ b' res, receive true (λ i, i) (Incoming (str "x"%string) data 1000) (demo 2)
      = Ok (b', Some (DataReceivedResult.of_merge res
                        (Some (RelayEnvelope.encode (RelayProofs.hop e))) (Some 1) 0))
    ∧ DocumentSync.merge_document true (document_sync (demo 2))
        (DocumentSync.build_document true (document_sync (demo 1))) = Ok (document_sync b', Some res)
    ∧ RelayEnvelope.decode data = Ok e ∧ RelayEnvelope.wf e.
Proof.
  apply (envelopes_are_delivered true (λ i, i) demo_nodes 0 0 1 2 (demo 1) (demo 2) demo_nonce 77
    (Incoming (str "x"%string) (build_relay_document true (demo 1) demo_nonce 77) 1000)).
  - apply demo_mesh.
  - lia.
  - lia.
  - apply demo_sender. set_solver.
  - by_decide.
  - by_decide.
  - vm_compute. reflexivity.
  - apply demo_inv. set_solver.
  - apply demo_books.
  - lia.
  - reflexivity.
  - reflexivity.
  - reflexivity.
  - exact I.
  - exact I.
Defined.

(** Decides whether a key opens bytes. *)
Definition sealed_check (key : MeshEncryptionKey.t) (data : list Z) : bool :=
  match data with
  | m :: _ :: payload =>
      (m =? ENCRYPTED_MARKER)
      && match MeshEncryptionKey.decrypt_from_bytes key payload with Ok (Okay _) => true | _ => false end
  | _ => false
  end.
Lemma sealed_check_spec key data p : sealed_with key data p → sealed_check key data = true.
Proof. intros (r & payload & -> & Hd). cbn. by rewrite Hd. Qed.

(** Noise, the document of a node without the key, a message of a member with
    a byte added, and an envelope around noise. *)
Definition intruder : PeatMesh.t :=
  PeatMesh.new (PeatMeshConfig.new 66 (str "EVE"%string) (str "DEMO"%string)).
Definition intrusion : list input :=
  [Received (str "x"%string) [1; 2; 3] 10;
   FromNode 66 (build_document true intruder demo_nonce) 20;
   Anonymous (str "y"%string)
     (build_document true (demo 1) demo_nonce ++ [0]) 30;
   Incoming (str "z"%string) (wrap_for_relay intruder 5 [1; 2; 3; 4]) 40].

Lemma outsiders_change_nothing_witness :
  ∃ s', receive_all true (λ i, i) intrusion (demo 2) = Ok (s', replicate 4 None)
    ∧ setup s' = setup (demo 2) ∧ knowledge s' = knowledge (demo 2).
Proof.
  apply (outsiders_change_nothing true (λ i, i) 0 (demo 2) intrusion).
  - apply demo_books.
  - by_decide.
  - reflexivity.
  - by_decide.
  - assert (forallb (λ i, negb (sealed_check demo_key (bytes i))
      && match RelayEnvelope.decode (bytes i) with
         | Ok e => negb (sealed_check demo_key (RelayEnvelope.payload e))
         | _ => true end) intrusion = true) as Hc by (vm_compute; reflexivity).
    apply Forall_forall. intros i Hi key p data Hk.
    change (Some demo_key = Some key) in Hk. injection Hk as <-.
    rewrite forallb_forall in Hc. apply list_elem_of_In, Hc, andb_prop in Hi as [H1 H2].
    intros [->|(e & He & ->)] Hs%sealed_check_spec; [by rewrite Hs in H1|].
    rewrite He, Hs in H2. done.
Defined.

Lemma members_never_crash_a_node_witness :
  let inputs := [FromNode 1 (build_document true (demo 1) demo_nonce) 1000;
                 Anonymous (str "x"%string) (build_document true (demo 1) demo_nonce) 1001] in
  ∃ s' rs, receive_all true (λ i, i) inputs (demo 2) = Ok (s', rs)
    ∧ DocSyncProofs.node_inv true demo_nodes 0 2 (document_sync s')
    ∧ setup s' = setup (demo 2) ∧ books_ok (0 + 4 * zlen inputs) s'.
Proof.
  set (data := build_document true (demo 1) demo_nonce). intros inputs.
  assert (RelayEnvelope.decode data = Fail) as Hdec by (vm_compute; reflexivity).
  assert (∀ p, carries (demo 2) data p → zlen p < 2 ^ 32
    ∧ ∀ d, PeatDocument.decode true p = Ok d → DocSyncProofs.doc_inv true demo_nodes 0 d) as Hdata.
  { pose proof (demo_inv 1 ltac:(set_solver)) as Hinv.
    destruct (encrypt_document_sealed (demo 1) demo_key demo_nonce _ eq_refl (hkdf_block _ _ _) ltac:(by_decide)
      (build_bytes true demo_nodes 0 1 _ Hinv)) as [Hs _].
    destruct (DocSyncProofs.document_wf true demo_nodes demo_mesh 0 1 _ ltac:(lia) Hinv)
      as (Hd & Hi & _).
    intros p [[(key & [= <-] & Hp)|[[=] _]]|(e & He & _)]; [|congruence].
    rewrite <-(sealed_unique _ _ _ _ Hs Hp). split; [by_decide|]. intros d. rewrite Hd. by intros [= <-]. }
  apply (members_never_crash_a_node true (λ i, i) demo_nodes 0 2 0 (demo 2) inputs).
  - apply demo_mesh.
  - lia.
  - apply demo_inv. set_solver.
  - apply demo_books.
  - by_decide.
  - by_decide.
  - repeat (apply Forall_cons; split; [exact Hdata|]). by apply Forall_nil.
Defined.

(** The low byte of the version may be a marker: the document of version 178
    is taken for a delta document, sealed or not, and dropped, and in a mesh
    without a key so are those of versions 174 to 177, for other reasons. *)
Definition updated (a : PeatMesh.t) (version : nat) : PeatMesh.t :=
  Nat.iter (version - 1) (λ a, update_health a 50) a.
Definition heard (a b : PeatMesh.t) : option bool :=
  match receive true (λ i, i) (FromNode 1 (build_document true a demo_nonce) 1000) b with
  | Ok (_, r) => Some (bool_decide (is_Some r)) | _ => None
  end.
Definition plain (n : Z) : PeatMesh.t :=
  PeatMesh.new (PeatMeshConfig.new n (str "NODE-"%string ++ [48 + n]) (str "DEMO"%string)).
Example version_read_as_marker :
  map (λ v, heard (updated (demo 1) v) (demo 2)) [173; 174; 177; 178; 179]%nat
    = [Some true; Some true; Some true; Some false; Some true]
  ∧ map (λ v, heard (updated (plain 1) v) (plain 2)) [173; 174; 175; 176; 177; 178; 179]%nat
    = [Some true; Some false; Some false; Some false; Some false; Some false; Some true].
Proof. vm_compute. done. Qed.

(** Duplicates are detected before anything is authenticated, and the
    identifier of a message is a function of the clock: who guesses it
    suppresses the message, without the key. *)
Example forged_envelope_suppresses_message :
  let forged := wrap_for_relay intruder 77 [1; 2; 3; 4] in
  let real := build_relay_document true (demo 1) demo_nonce 77 in
  match receive_all true (λ i, i) [Incoming (str "z"%string) forged 1000;
                                   Incoming (str "x"%string) real 1001] (demo 2) with
  | Ok (_, rs) => rs = [None; None] | _ => False
  end.
Proof. vm_compute. done. Qed.

(** So are indirect peers: an envelope without the key makes a strict node
    list its origin as reached through whoever delivered it. *)
Example forged_envelope_adds_indirect_peer :
  match receive true (λ i, i) (FromNode 66 (wrap_for_relay (plain 9) 5 [1; 2; 3; 4]) 1000) (demo 2) with
  | Ok (b, r) =>
      r = None ∧ is_strict_encryption_enabled b = true
      ∧ get_indirect_peers (demo 2) = [] ∧ IndirectPeer.node_id <$> get_indirect_peers b = [9]
  | _ => False
  end.
Proof. vm_compute. done. Qed.

(** The anonymous method does not unwrap: in a mesh that is not strict it reads
    bytes 4 to 7 of an envelope, a part of the message identifier, as the
    node the platform address belongs to. *)
Example anonymous_misreads_envelope :
  let data := build_relay_document true (plain 1) demo_nonce 77 in
  match receive true (λ i, i) (Anonymous (str "x"%string) data 1000) (plain 2) with
  | Ok (s, r) => r = None ∧ PeerManager.get_node_id (peer_manager s) (str "x"%string)
                            = Some (from_le (ztake 4 (zdrop 4 data)))
                 ∧ from_le (ztake 4 (zdrop 4 data)) ≠ 1
  | _ => False
  end.
Proof. vm_compute. done. Qed.

End TransportProperties.
