(* ===== verification/MeshDelta.v ===== *)
(** * Delta synchronisation between two mesh nodes: theorems about
    [build_delta_document_for_peer] and [process_delta_document_internal] of
    src/src/peat_mesh.rs. *)

From Stdlib Require Import String Ascii.
From stdpp Require Import base numbers list gmap sets pretty.
From S2P Require Import Prelude Crdt Sensor Delta DeltaDoc Document DocSync Chat Crypto Session.
From S2P Require Import Identity Trust PeerGraph PeerManager Config Gossip Relay Observer.
From S2P Require Import Registry Persistence PeatMesh MeshLogic MeshTransport.
Import DocumentType (AppTypes, app_type, doc).
Import PeatMesh.
Open Scope Z_scope.
Open Scope peat_scope.

Module DeltaSyncProofs.
Import TransportProofs.

(** ** Keys *)

Lemma str_inj s s' : str s = str s' → s = s'.
Proof.
  unfold str. intros H. rewrite <-(string_of_list_ascii_of_string s),
    <-(string_of_list_ascii_of_string s'). f_equal. revert H.
  generalize (list_ascii_of_string s) (list_ascii_of_string s').
  induction l as [|x l IH]; intros [|y l'] H; try done. cbn in H. injection H as Hx Hl.
  f_equal; [|by apply IH]. apply Nat2Z.inj in Hx. rewrite <-(ascii_nat_embedding x), Hx.
  apply ascii_nat_embedding.
Qed.
Lemma dec_inj n n' : dec n = dec n' → n = n'.
Proof. intros H%str_inj. by apply pretty_Z_inj. Qed.

Section sender.
Context `{CryptoLaws} `{AppTypes} `{!MapOrder Z} `{!MapOrder (Z * Z * Z)} (lc : bool).
Implicit Types s : PeatMesh.t.

(** [mark_operations_sent] remembers the time of an operation per key. *)
Lemma marked st ops k :
  match PeerSyncState.last_sent (mark_operations_sent st ops) !! k with
  | Some t => (∃ op, op ∈ ops ∧ Operation.key op = k ∧ Operation.timestamp op = t)
              ∨ PeerSyncState.last_sent st !! k = Some t ∧ ∀ op, op ∈ ops → Operation.key op ≠ k
  | None => PeerSyncState.last_sent st !! k = None ∧ ∀ op, op ∈ ops → Operation.key op ≠ k
  end.
Proof.
  induction ops as [|op ops IH] using rev_ind.
  { cbn. destruct (PeerSyncState.last_sent st !! k) eqn:E; [right|]; (split; [done|set_solver]). }
  unfold mark_operations_sent in *. rewrite foldl_snoc. cbn [PeerSyncState.last_sent PeerSyncState.mark_sent].
  destruct (decide (Operation.key op = k)) as [<-|Hne].
  - rewrite lookup_insert_eq. left. exists op. set_solver.
  - rewrite lookup_insert_ne by done.
    assert (∀ x, x ∈ ops ++ [op] → x ∈ ops ∨ x = op) as Hin by set_solver.
    destruct (_ !! k); [destruct IH as [(x & ? & ? & ?)|[? Hno]]|destruct IH as [? Hno]].
    + left. exists x. set_solver.
    + right. split; [done|]. intros x [?| ->]%Hin; [by apply Hno|done].
    + split; [done|]. intros x [?| ->]%Hin; [by apply Hno|done].
Qed.

(** The operations a peer has not been sent. *)
Definition unsent (st : PeerSyncState.t) (ops : list Operation.t) : list Operation.t :=
  filter (λ op, PeerSyncState.needs_send st (Operation.key op) (Operation.timestamp op) = true) ops.

(** Nothing is pending after what was pending was marked, when a key stands for
    one timestamp. *)
Lemma marked_not_pending st st' ops :
  (∀ x y, x ∈ ops → y ∈ ops → Operation.key x = Operation.key y →
     Operation.timestamp x = Operation.timestamp y) →
  PeerSyncState.last_sent st' = PeerSyncState.last_sent (mark_operations_sent st (unsent st ops)) →
  unsent st' ops = [].
Proof.
  intros Hkeys Hst'. apply ObserverProofs.filter_none. intros op Hop.
  unfold PeerSyncState.needs_send at 1. rewrite Hst'.
  pose proof (marked st (unsent st ops) (Operation.key op)) as Hm.
  destruct (_ !! Operation.key op) as [t|].
  - destruct Hm as [(x & Hx & Hk & <-)|[Hst Hnone]].
    + apply list_elem_of_filter in Hx as [_ Hx]. rewrite (Hkeys x op) by done.
      by rewrite Z.ltb_irrefl.
    + intros Hlt. apply (Hnone op); [|done]. apply list_elem_of_filter. split; [|done].
      unfold PeerSyncState.needs_send. by rewrite Hst.
  - destruct Hm as [Hst Hnone]. intros _. apply (Hnone op); [|done].
    apply list_elem_of_filter. split; [|done]. unfold PeerSyncState.needs_send. by rewrite Hst.
Qed.

(** A key of the own state stands for one timestamp. *)
Lemma own_keys s :
  (∀ x y, x ∈ app_document_delta_ops s → y ∈ app_document_delta_ops s →
     Operation.key (Operation.App x) = Operation.key (Operation.App y) →
     AppOperation.timestamp x = AppOperation.timestamp y) →
  ∀ x y, x ∈ all_operations s (λ count, count) 1 → y ∈ all_operations s (λ count, count) 1 →
    Operation.key x = Operation.key y → Operation.timestamp x = Operation.timestamp y.
Proof.
  intros Happ. set (ts := default 1 (PeripheralEvent.timestamp <$>
    Peripheral.last_event (DocumentSync.peripheral_snapshot (document_sync s)))).
  assert (∀ x, x ∈ all_operations s (λ count, count) 1 →
    (∃ n c, GCounter.counts (DocumentSync.counter (document_sync s)) !! n = Some c
            ∧ x = Operation.IncrementCounter 0 n c c)
    ∨ (∃ p, x = Operation.UpdatePeripheral p ts)
    ∨ (∃ e, DocumentSync.emergency (document_sync s) = Some e
        ∧ (x = Operation.SetEmergency (EmergencyEvent.source_node e) (EmergencyEvent.timestamp e)
                 (EmergencyEvent.all_nodes e)
           ∨ ∃ n, x = Operation.AckEmergency n (EmergencyEvent.timestamp e)))
    ∨ (∃ o, o ∈ app_document_delta_ops s ∧ x = Operation.App o)) as Hshape.
  { intros x Hx. unfold all_operations in Hx. rewrite !elem_of_app in Hx.
    destruct Hx as [([n c] & -> & Hin)%list_elem_of_fmap
      |[->%list_elem_of_singleton|[Hx|(o & -> & Ho)%list_elem_of_fmap]]].
    - left. exists n, c. split; [|done]. by apply elem_of_bt_iter.
    - right. left. eauto.
    - right. right. left. unfold DocumentSync.emergency_snapshot in Hx.
      destruct (DocumentSync.emergency (document_sync s)) as [e|]; [|by apply elem_of_nil in Hx].
      exists e. split; [done|]. apply elem_of_cons in Hx as [->|Hx]; [by left|].
      apply list_elem_of_fmap in Hx as (n & -> & _). right. eauto.
    - right. right. right. eauto. }
  intros x y Hx%Hshape Hy%Hshape Hk.
  destruct Hx as [(n & c & Hc & ->)|[(p & ->)|[(e & He & [->|[n ->]])|(o & Ho & ->)]]],
    Hy as [(n' & c' & Hc' & ->)|[(p' & ->)|[(e' & He' & [->|[n' ->]])|(o' & Ho' & ->)]]];
    cbn [Operation.key str map list_ascii_of_string app] in Hk; try discriminate Hk; try reflexivity.
  - repeat match type of Hk with _ :: ?l = _ :: ?l' => assert (l = l') as Hk' by congruence;
      clear Hk; rename Hk' into Hk end.
    apply app_inv_head in Hk. injection Hk as Hk%dec_inj. cbn. congruence.
  - cbn. congruence.
  - cbn. congruence.
  - cbn. by apply Happ.
Qed.

(** The document a sender builds. *)
Definition delta_of s (now : Z) (ops : list Operation.t) : DeltaDocument.t :=
  DeltaDocument.mk (node_id s) now DeltaFlags.default_flags None ops.
Lemma add_operations d ops :
  foldl DeltaDocument.add_operation d ops
  = DeltaDocument.mk (DeltaDocument.origin_node d) (DeltaDocument.timestamp_ms d)
      (DeltaDocument.flags d) (DeltaDocument.vector_clock d) (DeltaDocument.operations d ++ ops).
Proof.
  revert d. induction ops as [|op ops IH]; intros d; cbn [foldl].
  - rewrite app_nil_r. by destruct d.
  - rewrite IH. cbn. by rewrite <-app_assoc.
Qed.

Lemma mark_operations_stats st ops :
  PeerSyncState.bytes_sent (mark_operations_sent st ops) = PeerSyncState.bytes_sent st
  ∧ PeerSyncState.sync_count (mark_operations_sent st ops) = PeerSyncState.sync_count st
  ∧ PeerSyncState.bytes_received (mark_operations_sent st ops) = PeerSyncState.bytes_received st.
Proof. revert st. induction ops as [|op ops IH]; intros st; [done|]. cbn. apply (IH (PeerSyncState.mark_sent st _ _)). Qed.

Lemma build_delta_spec s nonce peer now st :
  DeltaEncoder.get_peer_state (delta_encoder s) peer = Some st →
  let ops := unsent st (all_operations s (λ count, count) 1) in
  let data := encrypt_document s nonce (DeltaDocProofs.doc_wire (delta_of s now ops)) in
  ops ≠ [] → DeltaDocument.wf (delta_of s now ops) →
  PeerSyncState.bytes_sent st + zlen data < 2 ^ 64 → PeerSyncState.sync_count st + 1 < 2 ^ 32 →
  ∃ e st', build_delta_document_for_peer nonce peer now s = Ok (set_delta_encoder s e, Some data)
    ∧ DeltaEncoder.get_peer_state e peer = Some st'
    ∧ PeerSyncState.last_sent st' = PeerSyncState.last_sent (mark_operations_sent st ops).
Proof.
  intros Hst ops data Hne Hwf Hb Hc. unfold build_delta_document_for_peer, mbind, M_bind, gets, id.
  cbn [obind fst snd]. rewrite Hst. fold (unsent st (all_operations s (λ count, count) 1)). fold ops.
  rewrite bool_decide_eq_false_2 by done. unfold on_encoder, on. cbn [obind fst snd]. rewrite Hst.
  cbn [obind fst snd]. rewrite add_operations. cbn [DeltaDocument.new DeltaDocument.origin_node
    DeltaDocument.timestamp_ms DeltaDocument.flags DeltaDocument.vector_clock
    DeltaDocument.operations app]. change (DeltaDocument.mk _ _ _ _ _) with (delta_of s now ops).
  unfold lift. rewrite DeltaDocProofs.delta_doc_encode by done. cbn [obind fst snd]. fold data.
  unfold record_delta_sent, on_encoder, on, DeltaEncoder.record_sent.
  cbn [set_delta_encoder delta_encoder DeltaEncoder.set_peers DeltaEncoder.peers].
  rewrite lookup_insert_eq. destruct (mark_operations_stats st ops) as (-> & -> & _).
  rewrite !add_u_ok by done. cbn [obind fst snd]. eexists _, _. split; [reflexivity|].
  unfold DeltaEncoder.get_peer_state. cbn. by rewrite lookup_insert_eq.
Qed.
Lemma build_nothing s nonce peer now st :
  DeltaEncoder.get_peer_state (delta_encoder s) peer = Some st →
  unsent st (all_operations s (λ count, count) 1) = [] →
  build_delta_document_for_peer nonce peer now s = Ok (s, None).
Proof.
  intros Hst Hno. unfold build_delta_document_for_peer, mbind, M_bind, gets, id. cbn [obind fst snd].
  rewrite Hst. fold (unsent st (all_operations s (λ count, count) 1)). by rewrite Hno.
Qed.

Local Ltac steps Hcons Hle := repeat (apply Hle || apply le_bytes || apply Hcons).
Lemma op_wire_bytes op : Operation.wf op → bytes_ok (DeltaDocProofs.op_wire op).
Proof.
  intros Hwf. unfold DeltaDocProofs.op_wire.
  assert (∀ x l, byte_ok x → bytes_ok l → bytes_ok ([x] ++ l)) as Hcons
    by (intros; by apply bytes_cons).
  assert (∀ n x l, 0 ≤ n → bytes_ok l → bytes_ok (le n x ++ l)) as Hle
    by (intros; apply bytes_app; [by apply le_bytes|done]).
  destruct op as [c n am t|p t|src t known|n t|t|o]; cbn [Operation.wf Operation.encode] in *.
  - steps Hcons Hle; unfold op_type.INCREMENT_COUNTER; lia.
  - pose proof (PeripheralProofs.peripheral_encode_bytes p (proj1 Hwf)) as Hp. revert Hp.
    generalize (Peripheral.encode p). intros pdata Hp.
    steps Hcons Hle; unfold op_type.UPDATE_PERIPHERAL; (done || lia).
  - destruct Hwf as (_ & _ & Hk & _).
    steps Hcons Hle; [unfold op_type.SET_EMERGENCY; lia..| |].
    + pose proof (wrap_bound 8 (zlen known)). lia.
    + induction Hk; [apply bytes_nil|]. cbn [flat_map]. apply bytes_app; [by apply le_bytes|done].
  - steps Hcons Hle; unfold op_type.ACK_EMERGENCY; lia.
  - steps Hcons Hle; unfold op_type.CLEAR_EMERGENCY; lia.
  - rewrite (DeltaDocProofs.app_encode o Hwf). unfold DeltaDocProofs.app_wire.
    destruct Hwf as (? & ? & _ & _ & ? & _). unfold APP_TYPE_MIN, APP_TYPE_MAX in *.
    steps Hcons Hle; (done || lia).
Qed.
Lemma delta_wire_bytes s now ops :
  Forall Operation.wf ops → bytes_ok (DeltaDocProofs.doc_wire (delta_of s now ops)).
Proof.
  intros Hops. unfold DeltaDocProofs.doc_wire, DeltaDocProofs.doc_header, DeltaDocProofs.doc_clock. cbn.
  apply bytes_cons; [unfold DELTA_DOCUMENT_MARKER; lia|]. apply bytes_cons; [lia|].
  repeat apply bytes_app; try (apply le_bytes; lia).
  induction Hops as [|op ops Hop _ IH]; [apply bytes_nil|]. cbn. apply bytes_app; [|done].
  by apply op_wire_bytes.
Qed.

(** The operations of a member are well-formed. *)
Lemma own_operations_wf nodes k i s counter_time peripheral_time :
  (∀ c, 0 ≤ c ≤ k → in_u 64 (counter_time c)) → in_u 64 peripheral_time →
  Mesh.mesh_ok nodes → (size nodes < 256)%nat → k < 2 ^ 56 →
  DocSyncProofs.node_inv lc nodes k i (document_sync s) →
  Forall AppOperation.wf (app_document_delta_ops s) →
  Forall Operation.wf (all_operations s counter_time peripheral_time).
Proof.
  intros Hct Hpt Hnodes Hsize Hk (_ & _ & _ & Hp & Hc & He & _) Happs. unfold all_operations.
  repeat apply Forall_app_2.
  - apply Forall_fmap, Forall_forall. intros [n c] Hin%elem_of_bt_iter. apply Hc in Hin as [Hn ?].
    destruct (proj2 Hnodes n Hn). pose proof (Hct c ltac:(lia)). cbn. split_and!; lia.
  - apply Forall_singleton. cbn. split; [done|]. unfold DocumentSync.peripheral_snapshot.
    destruct (Peripheral.last_event _) as [ev|] eqn:E; cbn; [|done]. apply Hp in E. apply E.
  - unfold DocumentSync.emergency_snapshot.
    destruct (DocumentSync.emergency (document_sync s)) as [e|] eqn:E; [|by apply Forall_nil].
    specialize (He e eq_refl) as [(? & ? & ? & ? & Ha & _) Hin].
    assert (Forall (λ n, in_u 32 n) (EmergencyEvent.all_nodes e)) as Hall.
    { apply Forall_forall. intros n ([n' b] & -> & Hn%elem_of_bt_iter)%list_elem_of_fmap.
      by apply (Ha n' b). }
    unfold emergency_ops. apply Forall_cons. split.
    + cbn. split_and!; try done; try lia. unfold EmergencyEvent.all_nodes.
      rewrite length_fmap, length_bt_iter, <-size_dom.
      assert (dom (EmergencyEvent.acks e) ⊆ nodes) as Hsub%subseteq_size; [|lia].
      intros n [b Hn]%elem_of_dom. by apply (Hin n b).
    + apply Forall_fmap. eapply Forall_impl; [|intros n Hn; cbn; split; [exact Hn|lia]].
      apply Forall_forall. intros n Hn. rewrite Forall_forall in Hall. apply Hall.
      unfold EmergencyEvent.acked_nodes, EmergencyEvent.all_nodes in *.
      apply list_elem_of_fmap in Hn as (x & -> & [_ Hx]%list_elem_of_filter).
      apply list_elem_of_fmap. eauto.
  - apply Forall_fmap. by eapply Forall_impl; [exact Happs|].
Qed.

Lemma own_operations_few nodes k i s counter_time peripheral_time :
  Mesh.mesh_ok nodes → k < 2 ^ 56 → DocSyncProofs.node_inv lc nodes k i (document_sync s) →
  zlen (all_operations s counter_time peripheral_time) ≤ 514 + zlen (app_document_delta_ops s).
Proof.
  intros Hnodes Hk (_ & _ & _ & _ & Hc & He & _). unfold all_operations.
  destruct (DocSyncProofs.counts_ok_wf nodes Hnodes k _ Hc Hk) as (_ & _ & Hs).
  unfold MAX_COUNTER_ENTRIES in Hs. unfold DocumentSync.counter_entries, GCounter.entries,
    DocumentSync.emergency_snapshot.
  assert (zlen match DocumentSync.emergency (document_sync s) with Some e => emergency_ops e
    | None => [] end ≤ 257) as Hem.
  { destruct (DocumentSync.emergency (document_sync s)) as [e|] eqn:E; [|cbn; lia].
    specialize (He e eq_refl) as [_ Hin]. pose proof (DocSyncProofs.acks_size nodes Hnodes _ Hin).
    assert (length (EmergencyEvent.acked_nodes e) ≤ length (bt_iter (EmergencyEvent.acks e)))%nat as Hl.
    { unfold EmergencyEvent.acked_nodes. rewrite length_fmap. apply length_filter. }
    rewrite length_bt_iter in Hl. unfold emergency_ops. len. }
  pose proof (length_bt_iter (GCounter.counts (DocumentSync.counter (document_sync s)))). len.
Qed.

End sender.

(** ** The receiver *)

Section receiver.
Context `{CryptoLaws} `{AppTypes} `{!MapOrder Z} `{!MapOrder (Z * Z * Z)} (lc : bool) (clock : Z → Z).
Implicit Types s : PeatMesh.t.

(** What an operation changes at a node with this registry: the peripherals
    and the application documents. *)
Definition effect (reg : DocumentRegistry.t) (origin : Z)
    (st : gmap Z Peripheral.t * AppDocuments.t) (op : Operation.t)
    : gmap Z Peripheral.t * AppDocuments.t :=
  match op with
  | Operation.UpdatePeripheral p _ => (<[origin := p]> st.1, st.2)
  | Operation.App o => (st.1, (AppDocuments.apply_app_op reg st.2 o).1)
  | _ => st
  end.
(** What it makes the node report. *)
Definition is_set_emergency (op : Operation.t) : bool :=
  match op with Operation.SetEmergency _ _ _ => true | _ => false end.
Definition counts_ahead s (op : Operation.t) : bool :=
  match op with Operation.IncrementCounter _ n c _ => current_count s n <? c | _ => false end.

Lemma mwp_delta_effect O origin ops s acc (Q : PeatMesh.t → delta_seen → Prop) :
  (∀ es acc', seen_counter acc' = seen_counter acc || existsb (counts_ahead s) ops →
     is_emergency acc' = is_emergency acc || existsb is_set_emergency ops →
     let st := foldl (effect (document_registry s) origin) (peer_peripherals s, app_documents s) ops in
     Q (notified (set_app_documents (set_peer_peripherals s st.1) st.2) es) acc') →
  mwp O (apply_delta_operations origin acc ops) s Q.
Proof.
  revert s acc. induction ops as [|op ops IH]; intros s acc HQ; cbn [apply_delta_operations].
  { mstep. specialize (HQ [] acc). cbn in HQ. rewrite !orb_false_r in HQ. destruct s. by apply HQ. }
  mstep. unfold apply_delta_operation. mstep. mstep. destruct acc as [ctr em emg ack ts pp].
  cbn [existsb foldl seen_counter is_emergency] in HQ.
  destruct op as [c n amount t|p t|src t known|n t|t|o]; repeat mstep; apply IH;
    cbn [seen_counter is_emergency]; intros es acc' Hctr Hem.
  all: try (apply HQ; [rewrite Hctr|rewrite Hem]; cbn; rewrite ?orb_true_r; try done).
  - rewrite orb_assoc. f_equal. change (current_count (id s) n) with (current_count s n).
    destruct (current_count s n <? amount); by rewrite ?orb_true_r, ?orb_false_r.
  - specialize (HQ ([PeatEvent.AppDocumentReceived (AppOperation.type_id o)
      (AppOperation.source_node o) (Z.land (AppOperation.timestamp o) 0x0000FFFFFFFFFFFF)
      (AppDocuments.apply_app_op (document_registry s) (app_documents s) o).2] ++ es) acc').
    rewrite <-notified_app in HQ. apply HQ; [exact Hctr|exact Hem].
Qed.

Lemma mwp_delta_received n s source data d now :
  books_ok n s → 0 ≤ n → n + 1 < 2 ^ 32 → bytes_ok data → zlen data < 2 ^ 32 →
  DocumentSync.total_count (document_sync s) ≠ Panic →
  DeltaDocument.decode data = Ok d → DeltaDocument.origin_node d ≠ node_id s →
  mwp False (process_delta_document_internal clock source data now None None 0) s (λ s' r,
    document_sync s' = document_sync s
    ∧ (peer_peripherals s', app_documents s')
      = foldl (effect (document_registry s) (DeltaDocument.origin_node d))
          (peer_peripherals s, app_documents s) (DeltaDocument.operations d)
    ∧ ∃ res, r = Some res ∧ DataReceivedResult.source_node res = DeltaDocument.origin_node d
      ∧ DataReceivedResult.is_emergency res = existsb is_set_emergency (DeltaDocument.operations d)
      ∧ DataReceivedResult.counter_changed res
        = existsb (counts_ahead s) (DeltaDocument.operations d)).
Proof.
  intros Hb Hn0 Hn Hd Hl Ht Hdec Hne. unfold process_delta_document_internal.
  rewrite Hdec. mstep. mstep. cbn [opt]. mstep. mstep. unfold id.
  rewrite (proj2 (Z.eqb_neq _ _)) by done.
  mstep. apply mwp_delta_effect. cbn [seen_counter is_emergency nothing_seen orb].
  intros es seen Hctr Hem. mstep. mstep. mstep. unfold record_delta_received. mstep. cbn -[Z.pow].
  destruct (received_ok (n * 2 ^ 32) (delta_encoder s) source (zlen data) now)
    as (e & -> & He); [lia|lia|len|apply Hb|].
  cbn -[Z.pow Z.mul foldl]. mstep. apply mwp_event_kind. intros es2. mstep. mstep. mstep.
  match goal with |- mwp _ _ ?s1 _ => assert (document_sync s1 = document_sync s
    ∧ (peer_peripherals s1, app_documents s1)
      = foldl (effect (document_registry s) (DeltaDocument.origin_node d))
          (peer_peripherals s, app_documents s) (DeltaDocument.operations d)) as Hs1;
    [|revert Hs1; generalize s1] end.
  { split; [done|]. cbn -[foldl]. by destruct (foldl _ _ _). }
  clear -Ht Hctr Hem. intros s1 (Hd1 & Heff).
  pose proof (value_nofail (DocumentSync.counter (document_sync s))) as Hnf.
  unfold DocumentSync.total_count in *.
  destruct (GCounter.value (DocumentSync.counter (document_sync s))) as [total| |] eqn:Hv; [|done..].
  apply mwp_mono with (λ s2 _, document_sync s2 = document_sync s
    ∧ peer_peripherals s2 = peer_peripherals s1 ∧ app_documents s2 = app_documents s1).
  { apply mwp_if; intros _; [|by mstep]. mstep. mstep. unfold id. rewrite Hd1, Hv. by mstep. }
  intros s2 _ (Hd2 & Hp2 & Ha2). mstep. mstep.
  destruct (DataReceivedResult.peripheral_fields _) as [[[[[[? ?] ?] ?] ?] ?] ?].
  mstep. mstep. unfold id. rewrite Hd1, Hv. mstep.
  split; [exact Hd2|]. split; [congruence|]. eexists. split; [reflexivity|].
  by rewrite <-Hctr, <-Hem.
Qed.

End receiver.
End DeltaSyncProofs.

Module DeltaSyncProperties.
Import Transport TransportProofs DeltaSyncProofs.

(** A document whose first byte is the delta marker arrives as it was built. *)
Lemma delta_arrives `{CryptoLaws} `{AppTypes} a b nonce p hint :
  bytes_ok p → head p = Some DELTA_DOCUMENT_MARKER →
  (∀ key, encryption_key a = Some key → block 32 (MeshEncryptionKey.key key)) → block 12 nonce →
  encryption_key b = encryption_key a →
  kind_of (encrypt_document a nonce p) = Ok Plain
  ∧ decrypt_document (encrypt_document a nonce p) hint b = Ok (b, Some p).
Proof.
  intros Hp Hhead Hkey Hnonce Hb. unfold kind_of, decrypt_document, mbind, M_bind, lift, gets.
  destruct (encryption_key a) as [key|] eqn:Ek.
  - destruct (encrypt_document_sealed a key nonce p Ek (Hkey key eq_refl) Hnonce Hp)
      as [(r & payload & -> & Hd) Hbytes].
    rewrite has_marker_cons by done. rewrite (proj2 (Z.leb_le _ _)) by len.
    inversion Hbytes. rewrite u8_at_here by lia. split; [done|].
    rewrite Z.eqb_refl, payload_slice. cbn [obind fst snd]. unfold id. rewrite Hb. cbn. by rewrite Hd.
  - rewrite encrypt_document_plain, has_marker_cons by done. destruct p as [|m p]; [done|].
    injection Hhead as ->. split.
    + destruct (2 <=? zlen (DELTA_DOCUMENT_MARKER :: p)); [|done]. inversion Hp. by rewrite u8_at_here.
    + destruct p; cbn; unfold is_strict_encryption_enabled, is_encryption_enabled, id; rewrite Hb;
        by rewrite andb_false_r.
Qed.


#[local] Existing Instance RegistryProperties.demo_apps.
#[local] Existing Instance TransportProperties.triple_order.

(** Node 1 has raised an emergency and knows node 2 as a peer for deltas. *)
Definition alarm_time : Z := MIN_VALID_TIMESTAMP + 1000.
Definition alarmed : PeatMesh.t :=
  let a := TransportProperties.demo 1 in
  set_delta_encoder
    (set_document_sync a (DocumentSync.start_emergency true (document_sync a) alarm_time [2]).1)
    (DeltaEncoder.add_peer (delta_encoder a) 2).


(** The timestamp of a peripheral without an event is the constant 1: once
    sent, no update of its health is sent again as a delta. *)
Example health_update_is_never_resent :
  let a := set_delta_encoder (TransportProperties.demo 1)
             (DeltaEncoder.add_peer (delta_encoder (TransportProperties.demo 1)) 2) in
  match build_delta_document_for_peer TransportProperties.demo_nonce 2 5 a with
  | Ok (a, Some _) =>
      match build_delta_document_for_peer TransportProperties.demo_nonce 2 6 (update_health a 10) with
      | Ok (_, r) => r = None | _ => False end
  | _ => False
  end.
Proof. vm_compute. done. Qed.

(** Two methods mishandle deltas.  The one for platforms that give only an
    address reads them as documents: the marker becomes a version, half of
    the origin and half of the time a node, which is registered as a connected
    peer and reported as the source of the document.  The anonymous one maps
    the address to that node. *)
Example deltas_misread :
  let a := set_delta_encoder (TransportProperties.plain 1)
             (DeltaEncoder.add_peer (delta_encoder (TransportProperties.plain 1)) 2) in
  let ghost := 5 * 2 ^ 16 in
  match build_delta_document_for_peer TransportProperties.demo_nonce 2 5 a with
  | Ok (_, Some data) =>
      match receive true (λ i, i) (Incoming (str "x"%string) data 1000) (TransportProperties.plain 2),
            receive true (λ i, i) (Anonymous (str "x"%string) data 1000) (TransportProperties.plain 2) with
      | Ok (s, r), Ok (s', _) =>
          DataReceivedResult.source_node <$> r = Some ghost
          ∧ PeatPeer.is_connected <$> get_peer s ghost = Some true
          ∧ PeerManager.get_node_id (peer_manager s') (str "x"%string) = Some ghost
      | _, _ => False
      end
  | _ => False
  end.
Proof. vm_compute. done. Qed.

End DeltaSyncProperties.
