(* ===== verification/MeshNode.v ===== *)
(** * A whole mesh of the nodes of src/src/peat_mesh.rs: users, radios and
    clocks drive each node through its public methods, the air carries what
    the nodes broadcast, and outsiders add to it. *)

From Stdlib Require Import String.
From stdpp Require Import base numbers list gmap sets.
From S2P Require Import Prelude Crdt Sensor Delta DeltaDoc Document DocSync Chat Crypto Session.
From S2P Require Import Identity Trust PeerGraph PeerManager Config Gossip Relay Observer.
From S2P Require Import Registry Persistence PeatMesh MeshLogic MeshTransport.
Import DocumentType (AppTypes, app_type, doc).
Import PeatMesh.
Open Scope Z_scope.
Open Scope peat_scope.

(** ** One node *)

Module Node.
Import Mesh.

Section node.
Context `{Crypto} `{AppTypes} `{!MapOrder Z} `{!MapOrder (Z * Z * Z)} (lc : bool).

(** The facade method for an action of the user, and what it broadcasts.
    There is none that counts without a reason. *)
Definition sent (m : M (list Z)) : M (list (list Z)) := data ← m; mret [data].
Definition sent_if (m : M (option (list Z))) : M (list (list Z)) :=
  data ← m; mret (match data with Some data => [data] | None => [] end).
Definition quietly (f : PeatMesh.t → PeatMesh.t) : M (list (list Z)) := modify f;; mret [].
Definition act (nonce : list Z) (o : op) : M (list (list Z)) :=
  match o with
  | SendEmergency ts => sent (send_emergency lc nonce ts)
  | SendAck ts => sent (send_ack lc nonce ts)
  | ClearEvent => quietly clear_event
  | IncrementCounter => mret []
  | UpdateHealthFull b a => quietly (λ s, update_health_full s b a)
  | UpdateHeartRate hr => quietly (λ s, update_heart_rate s hr)
  | UpdateLocation lat lon alt => quietly (λ s, update_location s lat lon alt)
  | ClearLocation => quietly clear_location
  | UpdateCallsign cs => quietly (λ s, update_callsign s cs)
  | SetPeripheralEvent ev ts => quietly (λ s, set_peripheral_event s ev ts)
  | StartEmergency ts peers => sent (start_emergency lc nonce ts peers)
  | AckEmergency ts => sent_if (ack_emergency lc nonce ts)
  | ClearEmergency => quietly clear_emergency
  | AddChatMessage sender text ts => sent_if (send_chat lc nonce nonce sender text ts)
  | Broadcast => self ← gets id; mret [build_document lc self nonce]
  end.

Inductive event :=
| Act (nonce : list Z) (o : op)
| Discovered (identifier : list Z) (name : option (list Z)) (rssi : Z) (mesh_id : option (list Z))
    (now_ms : Z)
| Connected (identifier : list Z) (now_ms : Z)
| Disconnected (identifier : list Z) (reason : DisconnectReason.t) (wall_ms : Z)
| PeerDisconnected (n : Z) (reason : DisconnectReason.t) (wall_ms : Z)
| Accepted (identifier : list Z) (n now_ms : Z)
| Tick (nonce : list Z) (now_ms : Z)
| TickPeers (nonce : list Z) (now_ms : Z).

Definition step (e : event) : M (list (list Z)) :=
  match e with
  | Act nonce o => act nonce o
  | Discovered identifier name rssi mesh_id now_ms =>
      _ ← on_ble_discovered identifier name rssi mesh_id now_ms; mret []
  | Connected identifier now_ms => _ ← on_ble_connected identifier now_ms; mret []
  | Disconnected identifier reason wall_ms =>
      _ ← on_ble_disconnected identifier reason wall_ms; mret []
  | PeerDisconnected n reason wall_ms => on_peer_disconnected n reason wall_ms;; mret []
  | Accepted identifier n now_ms => _ ← on_incoming_connection identifier n now_ms; mret []
  | Tick nonce now_ms => sent_if (tick lc nonce now_ms)
  | TickPeers nonce now_ms => out ← tick_with_peer_deltas lc nonce now_ms; mret (out.*2)
  end.

End node.
End Node.

(** ** The mesh *)

Module Net.

Record t `{Crypto} `{AppTypes} := mk { nodes : gmap Z PeatMesh.t; air : list (list Z) }.

Inductive event :=
| Local (i : Z) (e : Node.event)
| Deliver (i : Z) (via : Transport.input) (index : nat)
| Wrap (index : nat) (message_id hop_count max_hops origin_node : Z) (flags : RelayFlags.t)
| Inject (i : Z) (x : Transport.input).

Definition with_bytes (x : Transport.input) (data : list Z) : Transport.input :=
  match x with
  | Transport.Received identifier _ now => Transport.Received identifier data now
  | Transport.FromNode n _ now => Transport.FromNode n data now
  | Transport.Anonymous identifier _ now => Transport.Anonymous identifier data now
  | Transport.Incoming identifier _ now => Transport.Incoming identifier data now
  end.

Section net.
Context `{Crypto} `{AppTypes} `{!MapOrder Z} `{!MapOrder (Z * Z * Z)} (lc : bool) (clock : Z → Z).

Definition run_at (s : t) (i : Z) {A} (m : M A) (out : A → list (list Z)) : outcome t :=
  match nodes s !! i with
  | Some self => let! r := m self in Ok (mk _ _ (<[i := r.1]> (nodes s)) (air s ++ out r.2))
  | None => Ok s
  end.
(** A node acts and broadcasts; a broadcast reaches a node through one of its
    reception methods; anyone wraps a broadcast into a relay envelope; an
    outsider sends what it likes. *)
Definition step (s : t) (e : event) : outcome t :=
  match e with
  | Local i e => run_at s i (Node.step lc e) id
  | Deliver i via index =>
      match air s !! index with
      | Some data => run_at s i (Transport.receive lc clock (with_bytes via data)) (λ _, [])
      | None => Ok s
      end
  | Wrap index message_id hop_count max_hops origin_node flags =>
      match air s !! index with
      | Some data => Ok (mk _ _ (nodes s) (air s ++ [RelayEnvelope.encode
          (RelayEnvelope.mk message_id hop_count max_hops origin_node flags data)]))
      | None => Ok s
      end
  | Inject i x => run_at s i (Transport.receive lc clock x) (λ _, [])
  end.
Fixpoint run (s : t) (es : list event) : outcome t :=
  match es with
  | [] => Ok s
  | e :: es => let! s := step s e in run s es
  end.

Definition init (ids : gset Z) (configs : Z → PeatMeshConfig.t) : t :=
  mk _ _ (set_to_map (λ i, (i, PeatMesh.new (configs i))) ids) [].

End net.
End Net.

Module NodeProofs.
Import Mesh TransportProofs.

(** ** Callbacks and clocks keep the document *)

Section callbacks.
Context `{Crypto} `{AppTypes} `{!MapOrder Z} `{!MapOrder (Z * Z * Z)}.
Implicit Types s : PeatMesh.t.

(** At most four graph events, and no change of the document. *)
Definition kept (n : Z) s s' : Prop :=
  books_ok n s' ∧ setup s' = setup s ∧ document_sync s' = document_sync s.
Lemma kept_notified n s s' es : kept n s s' → kept n s (notified s' es).
Proof. done. Qed.
Lemma kept_refl n s : books_ok n s → kept n s s.
Proof. done. Qed.
Lemma kept_encoder n s s' e :
  kept n s s' → encoder_ok (n * 2 ^ 32) e → kept n s (set_delta_encoder s' e).
Proof. intros ((? & ? & _ & ?) & ? & ?) He. done. Qed.
Lemma kept_graph n s s' g :
  kept n s s' → PeerGraphProofs.graph_ok n 0 g → kept n s (set_connection_graph s' g).
Proof. intros ((_ & ? & ? & ?) & ? & ?) Hg. done. Qed.
Lemma kept_mono n n' s s' : n ≤ n' → kept n s s' → kept n' s s'.
Proof. intros Hn (? & ? & ?). split_and!; [|done..]. by eapply books_ok_mono. Qed.

Lemma add_peer_ok n e peer : 0 ≤ n → encoder_ok n e → encoder_ok n (DeltaEncoder.add_peer e peer).
Proof.
  intros Hn He. apply map_Forall_insert_2; [|done]. unfold or_insert.
  destruct (DeltaEncoder.peers e !! peer) as [st|] eqn:E; [|cbn -[Z.pow]; lia]. by apply He in E.
Qed.
Lemma remove_peer_ok n e peer : encoder_ok n e → encoder_ok n (DeltaEncoder.remove_peer e peer).
Proof. intros He. by apply map_Forall_delete. Qed.

(** One event of the graph. *)
Lemma mwp_kept_graph O n s s1 f e :
  kept n s s1 → 0 ≤ n → n + 1 < 2 ^ 32 → GraphEvent.typed e → GraphEvent.bytes e = 0 →
  f (connection_graph s1) = (let! g := GraphEvent.apply (connection_graph s1) e in Ok (g, tt)) →
  mwp O (on_graph f) s1 (λ s' _, kept (n + 1) s s').
Proof.
  intros (Hb & Hs & Hd) Hn0 Hn Ht Hz Hf.
  eapply mwp_mono; [by apply (mwp_graph_event _ n _ _ e)|]. by intros s' _ (? & g & ->).
Qed.
Lemma mwp_kept_connected O n s s1 peer now :
  kept n s s1 → 0 ≤ n → n + 1 < 2 ^ 32 → mwp O (graph_connected peer now) s1 (λ s' _, kept (n + 1) s s').
Proof.
  intros Hk Hn0 Hn. by apply (mwp_kept_graph _ n _ _ _ (GraphEvent.Connected peer now)).
Qed.
Lemma mwp_register O n s s1 peer (Q : PeatMesh.t → unit → Prop) :
  kept n s s1 → 0 ≤ n → (∀ s', kept n s s' → Q s' tt) → mwp O (register_peer_for_delta peer) s1 Q.
Proof.
  intros Hk Hn HQ. unfold register_peer_for_delta. mstep. apply HQ, kept_encoder; [done|].
  apply add_peer_ok; [lia|]. apply Hk.
Qed.
Lemma mwp_unregister O n s s1 peer (Q : PeatMesh.t → unit → Prop) :
  kept n s s1 → (∀ s', kept n s s' → Q s' tt) → mwp O (unregister_peer_for_delta peer) s1 Q.
Proof.
  intros Hk HQ. unfold unregister_peer_for_delta. mstep. apply HQ, kept_encoder; [done|].
  apply remove_peer_ok. apply Hk.
Qed.

Lemma mwp_disconnected O n s s1 peer reason wall :
  kept n s s1 → 0 ≤ n → n + 2 < 2 ^ 32 →
  mwp O (disconnected peer reason wall) s1 (λ s' _, kept (n + 2) s s').
Proof.
  intros Hk Hn0 Hn. unfold disconnected. mstep.
  apply mwp_mono with (λ s' _, kept (n + 2) s s').
  { mstep. destruct (PeerGraphProofs.event_ok n 0 (connection_graph s1) ltac:(lia) ltac:(lia)
      (proj1 (proj1 Hk)) (GraphEvent.Disconnected peer reason wall)) as (g & Hg & Hgok);
      [done|cbn; lia|]. cbn [GraphEvent.apply GraphEvent.bytes] in *. rewrite Hg. cbn [obind fst snd].
    destruct (PeerGraphProofs.event_ok (n + 1) 0 g ltac:(lia) ltac:(lia) Hgok
      (GraphEvent.RemoveVia peer)) as (g' & Hg' & Hgok'); [done|cbn; lia|].
    cbn [GraphEvent.apply GraphEvent.bytes] in *. injection Hg' as <-.
    apply kept_graph; [eapply kept_mono; [|done]; lia|].
    by replace (n + 2) with (n + 1 + 1) by lia. }
  intros s2 _ Hk2. mstep. eapply mwp_unregister; [done|]. intros s3 Hk3. mstep. mstep. by mstep.
Qed.

Lemma mwp_tick_cleanup O n s now :
  books_ok n s → 0 ≤ n → n + 2 < 2 ^ 32 → mwp O (tick_cleanup now) s (λ s' _, kept (n + 2) s s').
Proof.
  intros Hb Hn0 Hn. unfold tick_cleanup. mstep. mstep.
  assert (kept (n + 2) s s) as Hk0 by (apply kept_refl; eapply books_ok_mono; [|done]; lia).
  apply mwp_if; intros _; [|by mstep]. mstep. mstep. mstep. mstep. mstep. mstep.
  mstep. set (s1 := notified _ _). assert (kept n s s1) as Hk1 by done.
  apply mwp_mono with (λ s' _, kept n s s'); [apply mwp_if; intros _; by mstep|].
  intros s2 _ Hk2. mstep.
  apply mwp_mono with (λ s' _, kept (n + 2) s s').
  { mstep. destruct (PeerGraphProofs.event_ok n 0 (connection_graph s2) ltac:(lia) ltac:(lia)
      (proj1 (proj1 Hk2)) (GraphEvent.Tick now)) as (g & Hg & Hgok); [done|cbn; lia|].
    cbn [GraphEvent.apply GraphEvent.bytes] in *. destruct (ConnectionStateGraph.tick _ _) as [g1 lost].
    injection Hg as <-. cbn [fst] in *.
    pose proof (PeerGraphProofs.cleanup_lost_ok (n + 1) 0 g1 Hgok
      (PeerManagerConfig.peer_timeout_ms (PeatMeshConfig.peer_config (config (id s)))) now) as Hc.
    destruct (ConnectionStateGraph.cleanup_lost _ _ _) as [g2 gone].
    apply kept_graph; [eapply kept_mono; [|done]; lia|].
    by replace (n + 2) with (n + 1 + 1) by lia. }
  intros s3 lost Hk3. by mstep.
Qed.
Lemma mwp_sync_due O n s s1 now :
  kept n s s1 → mwp O (sync_due now) s1 (λ s' _, kept n s s').
Proof. intros Hk. unfold sync_due. mstep. mstep. apply mwp_if; intros _; repeat mstep; done. Qed.

Lemma mwp_callback O lc n s e :
  books_ok n s → 0 ≤ n → n + 4 < 2 ^ 32 →
  match e with Node.Act _ _ | Node.Tick _ _ | Node.TickPeers _ _ => False | _ => True end →
  mwp O (Node.step lc e) s (λ s' out, kept (n + 4) s s' ∧ out = []).
Proof.
  intros Hb Hn0 Hn He.
  assert (∀ (m : M unit), mwp O m s (λ s' _, kept (n + 4) s s') →
    mwp O (m;; mret ([] : list (list Z))) s (λ s' out, kept (n + 4) s s' ∧ out = [])) as Hunit.
  { intros m Hm. mstep. eapply mwp_mono; [exact Hm|]. intros s' u Hk. by mstep. }
  assert (∀ A (m : M A), mwp O m s (λ s' _, kept (n + 4) s s') →
    mwp O (_ ← m; mret ([] : list (list Z))) s (λ s' out, kept (n + 4) s s' ∧ out = [])) as Hany.
  { intros A m Hm. mstep. eapply mwp_mono; [exact Hm|]. intros s' u Hk. by mstep. }
  assert (kept n s s) as Hk0 by done.
  assert (∀ j s', 0 ≤ j ≤ 4 → kept (n + j) s s' → kept (n + 4) s s') as Hweak
    by (intros j s' ?; apply kept_mono; lia).
  assert (kept (n + 4) s s) as Hk4 by (eapply kept_mono; [|done]; lia).
  destruct e as [nonce o|ident name rssi mid now|ident now|ident reason wall|peer reason wall
    |ident peer now|nonce now|nonce now]; try done; cbn [Node.step]; apply Hany.
  - unfold on_ble_discovered. mstep. mstep. set (s1 := set_peer_manager s _).
    assert (kept n s s1) as Hk1 by done. clearbody s1.
    destruct (PeerManager.on_discovered _ _ _ _ _ _).2 as [[peer is_new]|];
      [|eapply kept_mono; [|exact Hk1]; lia].
    mstep. mstep. mstep. mstep. destruct (PeerManager.get_peer _ _) as [p|];
      [|eapply kept_mono; [|exact Hk1]; lia].
    mstep. eapply mwp_mono.
    { by apply (mwp_kept_graph _ n s s1 _ (GraphEvent.Discovered peer ident name mid rssi now)); [|lia..| | |]. }
    intros s2 ? Hk2. cbv beta in Hk2. apply (Hweak 1) in Hk2; [|lia]. mstep.
    apply mwp_mono with (λ s' _, kept (n + 4) s s'); [apply mwp_if; intros _; repeat mstep; done|].
    intros s3 ? Hk3. cbv beta in Hk3. by mstep.
  - unfold on_ble_connected. mstep. mstep. set (s1 := set_peer_manager s _).
    assert (kept n s s1) as Hk1 by done. clearbody s1.
    destruct (PeerManager.on_connected _ _ _).2 as [peer|]; [|eapply kept_mono; [|exact Hk1]; lia].
    mstep. eapply mwp_mono; [apply (mwp_kept_connected _ n s s1); (done || lia)|].
    intros s2 ? Hk2. cbv beta in Hk2. mstep. eapply mwp_register; [done|lia|]. intros s3 Hk3. apply (Hweak 1) in Hk3; [|lia].
    repeat mstep. done.
  - unfold on_ble_disconnected. mstep. mstep. set (s1 := set_peer_manager s _).
    assert (kept n s s1) as Hk1 by done. clearbody s1.
    destruct (PeerManager.on_disconnected _ _ _).2 as [[peer r]|]; [|eapply kept_mono; [|exact Hk1]; lia].
    mstep. eapply mwp_mono; [apply (mwp_disconnected _ n s s1); (done || lia)|].
    intros s2 ? Hk2. cbv beta in Hk2. apply (Hweak 2) in Hk2; [|lia]. by mstep.
  - unfold on_peer_disconnected. mstep. mstep. set (s1 := set_peer_manager s _).
    assert (kept n s s1) as Hk1 by done. clearbody s1.
    apply mwp_if; intros _; [|mstep; eapply kept_mono; [|exact Hk1]; lia].
    eapply mwp_mono; [apply (mwp_disconnected _ n s s1); (done || lia)|].
    intros s2 ? Hk2. cbv beta in Hk2. apply (Hweak 2); [lia|done].
  - unfold on_incoming_connection. mstep. mstep. set (s1 := set_peer_manager s _).
    assert (kept n s s1) as Hk1 by done. clearbody s1. mstep.
    eapply mwp_mono; [apply (mwp_graph_incoming _ n s1); [apply Hk1|lia|lia]|].
    intros s2 _ (Hb2 & g & ->).
    assert (kept (n + 2) s (set_connection_graph s1 g)) as Hk2.
    { destruct Hk1 as (_ & ? & ?). done. }
    mstep. eapply mwp_register; [exact Hk2|lia|]. intros s3 Hk3. apply (Hweak 2) in Hk3; [|lia].
    mstep. mstep. mstep. apply mwp_mono with (λ s' _, kept (n + 4) s s').
    { destruct (if _ : bool then _ else None); mstep; done. }
    intros s4 ? Hk4'. cbv beta in Hk4'. repeat mstep. done.
Qed.

End callbacks.

(** ** Members of a strict mesh *)

Section member.
Context `{CryptoLaws} `{AppTypes} `{!MapOrder Z} `{!MapOrder (Z * Z * Z)} (lc : bool) (clock : Z → Z).
Context (ids : gset Z) (Hids : mesh_ok ids) (key : MeshEncryptionKey.t).
Context (Hkey : block 32 (MeshEncryptionKey.key key)).
Implicit Types s : PeatMesh.t.

(** A node after [n] events of the mesh. *)
Definition member (n i : Z) s : Prop :=
  books_ok (4 * n) s ∧ DocSyncProofs.node_inv lc ids n i (document_sync s)
  ∧ encryption_key s = Some key ∧ is_strict_encryption_enabled s = true.
(** A broadcast: a sealed document of a member. *)
Definition broadcast_ok (n : Z) (data : list Z) : Prop :=
  bytes_ok data ∧ zlen data < 2 ^ 18 ∧ ∃ p d, sealed_with key data p ∧ zlen p < 2 ^ 17
    ∧ PeatDocument.decode lc p = Ok d ∧ DocSyncProofs.doc_inv lc ids n d.

Lemma doc_inv_mono n n' d :
  n ≤ n' → DocSyncProofs.doc_inv lc ids n d → DocSyncProofs.doc_inv lc ids n' d.
Proof.
  intros Hn (? & ? & ? & ?). split_and!; try done. by eapply DocSyncProofs.counts_ok_mono.
Qed.
Lemma node_inv_mono n n' i d :
  n ≤ n' → DocSyncProofs.node_inv lc ids n i d → DocSyncProofs.node_inv lc ids n' i d.
Proof.
  intros Hn (? & ? & ? & ? & ? & ? & ?). split_and!; try done; try lia.
  by eapply DocSyncProofs.counts_ok_mono.
Qed.
Lemma broadcast_mono n n' data : n ≤ n' → broadcast_ok n data → broadcast_ok n' data.
Proof.
  intros Hn (Hb & Hl & p & d & ? & ? & ? & ?). split_and!; [done..|]. exists p, d.
  split_and!; try done. by eapply doc_inv_mono.
Qed.
Lemma member_mono n n' i s : n ≤ n' → member n i s → member n' i s.
Proof.
  intros Hn (? & ? & ? & ?). split_and!; try done; [|by eapply node_inv_mono].
  eapply books_ok_mono; [|done]. lia.
Qed.
Lemma member_kept n i s s' : member n i s → kept (4 * (n + 1)) s s' → member (n + 1) i s'.
Proof.
  intros (_ & Hd & Hk & Hs) (Hb & Hsetup & Hdoc). split_and!; [done| | |].
  - rewrite Hdoc. eapply node_inv_mono; [|done]. lia.
  - unfold setup in Hsetup. congruence.
  - unfold is_strict_encryption_enabled, is_encryption_enabled, setup in *.
    injection Hsetup as -> -> _ _ _. done.
Qed.

Lemma optional_section_short marker o n :
  (∀ data, o = Some data → zlen data ≤ n) → 0 ≤ n →
  zlen (PeatDocument.optional_section marker o) ≤ n + 4.
Proof.
  intros Ho Hn. destruct o as [data|]; [|cbn; lia]. specialize (Ho data eq_refl). cbn.
  unfold PeatDocument.encode_section. len.
Qed.
Lemma peripheral_short p : Peripheral.wf p → zlen (Peripheral.encode p) ≤ 100.
Proof.
  intros (_ & _ & _ & (Hl & _) & _). unfold Peripheral.encode.
  pose proof (SensorProofs.health_encode_length (Peripheral.health p)).
  assert (zlen match Peripheral.last_event p with
    | Some event => [1] ++ PeripheralEvent.encode event | None => [0] end ≤ 10).
  { destruct (Peripheral.last_event p) as [e|]; [|cbn; lia].
    pose proof (SensorProofs.event_encode_length e). len. }
  assert (zlen match Peripheral.location p with
    | Some loc => [1] ++ Position.encode loc | None => [0] end ≤ 18).
  { destruct (Peripheral.location p) as [l|]; [|cbn; lia].
    pose proof (SensorProofs.position_encode_length l). len. }
  len.
Qed.
Lemma document_short n i d :
  n < 2 ^ 56 → DocSyncProofs.node_inv lc ids n i d → zlen (DocumentSync.build_document lc d) < 2 ^ 17.
Proof.
  intros Hn (_ & _ & _ & Hp & Hc & He & Hch). unfold DocumentSync.build_document, PeatDocument.encode.
  destruct (DocSyncProofs.counts_ok_wf ids Hids n _ Hc Hn) as (_ & _ & Hs).
  unfold MAX_COUNTER_ENTRIES in Hs.
  pose proof (GCounterProofs.gcounter_zlen_encode (DocumentSync.counter d)) as Hctr.
  set (doc := DocumentSync.document lc d).
  change (PeatDocument.counter doc) with (DocumentSync.counter d).
  assert (zlen (PeatDocument.optional_section EXTENDED_MARKER
    (Peripheral.encode <$> PeatDocument.peripheral doc)) ≤ 100 + 4).
  { apply optional_section_short; [|lia]. intros data [= <-]. by apply peripheral_short. }
  assert (zlen (PeatDocument.optional_section EMERGENCY_MARKER
    (EmergencyEvent.encode <$> PeatDocument.emergency doc)) ≤ 1296 + 4).
  { apply optional_section_short; [|lia]. intros data. cbn.
    destruct (DocumentSync.emergency d) as [e|]; [|done]. intros [= <-].
    rewrite EmergencyEventProofs.emergency_zlen_encode.
    pose proof (DocSyncProofs.acks_size ids Hids _ (proj2 (He e eq_refl))). lia. }
  assert (zlen (PeatDocument.optional_section CHAT_MARKER (PeatDocument.chat_data lc doc)) ≤ 2 ^ 16 + 4).
  { apply optional_section_short; [|lia]. unfold PeatDocument.chat_data, doc. cbn.
    destruct lc; [|done]. destruct (DocumentSync.chat d) as [c|]; [|done]. cbn.
    destruct (negb _); [|done]. intros data [= <-]. destruct (Hch c eq_refl) as [_ Hok].
    destruct (DocSyncProofs.for_sync_ok c Hok) as [[Hw _] H8].
    pose proof (DocSyncProofs.chat_bytes_bound _ Hw H8). lia. }
  len.
Qed.

(** What a member broadcasts. *)
Lemma member_sends n i s nonce :
  0 ≤ n → n < 2 ^ 56 → member n i s → block 12 nonce →
  broadcast_ok n (encrypt_document s nonce (DocumentSync.build_document lc (document_sync s))).
Proof.
  intros Hn0 Hn (_ & Hd & Hk & _) Hnonce.
  pose proof (build_bytes lc ids n i _ Hd) as Hb.
  destruct (encrypt_document_sealed s key nonce _ Hk Hkey Hnonce Hb) as [Hs Hbytes].
  destruct (DocSyncProofs.document_wf lc ids Hids n i _ Hn Hd) as (Hdec & Hdi & _).
  pose proof (document_short n i _ Hn Hd) as Hshort. split_and!; [done| |].
  { unfold encrypt_document. rewrite Hk.
    destruct (CryptoProofs.mesh_roundtrip key nonce _ Hkey Hnonce Hb) as (data & -> & _ & Hl & _).
    unfold EncryptedDocument.OVERHEAD in Hl. len. }
  eexists _, _. split_and!; [exact Hs|exact Hshort|exact Hdec|exact Hdi].
Qed.
Lemma member_acts n i s o :
  0 ≤ n → member n i s → op_ok lc ids o →
  member (n + 1) i (set_document_sync s (Mesh.act lc (document_sync s) o)).
Proof.
  intros Hn (Hb & Hd & Hk & Hs) Ho. split_and!; [|by apply DocSyncProofs.act_inv|done..].
  eapply (books_ok_mono (4 * n)); [lia|exact Hb].
Qed.

(** What a user of a node may do: nothing out of range, a fresh nonce of the
    right size, and no chat. *)
Definition action_ok (o : op) : Prop :=
  op_ok lc ids o ∧ match o with AddChatMessage _ _ _ => False | _ => True end.
Lemma mwp_act n i s nonce o :
  0 ≤ n → n + 1 < 2 ^ 56 → member n i s → action_ok o → block 12 nonce →
  mwp False (Node.act lc nonce o) s (λ s' out,
    member (n + 1) i s' ∧ Forall (broadcast_ok (n + 1)) out).
Proof.
  intros Hn0 Hn Hm [Ho Hchat] Hnonce.
  pose proof (member_acts n i s o Hn0 Hm Ho) as Hm'.
  assert (∀ s', member (n + 1) i s' → Forall (broadcast_ok (n + 1))
    [encrypt_document s' nonce (DocumentSync.build_document lc (document_sync s'))]) as Hout.
  { intros s' Hs'. apply Forall_singleton. by apply (member_sends (n + 1) i); [lia|..]. }
  assert (∀ s' d es, d = Mesh.act lc (document_sync s) o → s' = notified (set_document_sync s d) es →
    member (n + 1) i s' ∧ Forall (broadcast_ok (n + 1))
      [encrypt_document s' nonce (DocumentSync.build_document lc d)]) as Hsent.
  { intros s' d es -> ->. split; [exact Hm'|].
    apply (Hout (notified (set_document_sync s (Mesh.act lc (document_sync s) o)) es) Hm'). }
  assert (member (n + 1) i s) as Hsame by (eapply member_mono; [|done]; lia).
  destruct o; cbn [Node.act]; try done.
  all: try (unfold Node.quietly; mstep; mstep; split; [exact Hm'|apply Forall_nil; exact I]).
  - unfold Node.sent, send_emergency. repeat mstep. by eapply Hsent.
  - unfold Node.sent, send_ack. repeat mstep. by eapply Hsent.
  - unfold Node.sent, start_emergency. repeat mstep. by eapply Hsent.
  - unfold Node.sent_if, ack_emergency. mstep. mstep. mstep.
    assert ((DocumentSync.ack_emergency lc (document_sync s) timestamp).2
      = (λ _, DocumentSync.build_document lc
                (DocumentSync.ack_emergency lc (document_sync s) timestamp).1)
        <$> (DocumentSync.ack_emergency lc (document_sync s) timestamp).2) as Hr.
    { unfold DocumentSync.ack_emergency. destruct (DocumentSync.emergency _) as [e|]; [|done].
      destruct (EmergencyEvent.ack _ _) as [e' []]; done. }
    destruct (DocumentSync.ack_emergency lc (document_sync s) timestamp).2 as [data|] eqn:E.
    + injection Hr as ->. mstep. apply mwp_if; intros _; repeat mstep.
      * by eapply Hsent.
      * apply (Hsent _ _ []); [done|]. by destruct s.
    + repeat mstep. split; [exact Hm'|]. by apply Forall_nil.
  - mstep. mstep. mstep. split; [done|]. by apply Hout.
Qed.

Lemma mwp_step n i s e :
  0 ≤ n → n < 2 ^ 29 → member n i s →
  match e with
  | Node.Act nonce o => action_ok o ∧ block 12 nonce
  | Node.Tick nonce _ | Node.TickPeers nonce _ => block 12 nonce
  | _ => True
  end →
  mwp False (Node.step lc e) s (λ s' out, member (n + 1) i s' ∧ Forall (broadcast_ok (n + 1)) out).
Proof.
  intros Hn0 Hn Hm He.
  assert (∀ now, mwp False (tick_cleanup now;; sync_due now) s (λ s' _, kept (4 * (n + 1)) s s')) as Htick.
  { intros now. mstep. eapply mwp_mono; [apply (mwp_tick_cleanup _ (4 * n)); [apply Hm|lia..]|].
    intros s1 ? Hk. cbv beta in Hk. apply (kept_mono _ (4 * (n + 1))) in Hk; [|lia]. by apply mwp_sync_due. }
  assert (∀ s', member (n + 1) i s' → ∀ nonce, block 12 nonce →
    broadcast_ok (n + 1) (build_document lc s' nonce)) as Hout.
  { intros s' Hs' nonce Hnonce. apply (member_sends (n + 1) i); (done || lia). }
  destruct e as [nonce o| | | | | |nonce now|nonce now].
  1: { apply mwp_act; [done|lia|done|apply He..]. }
  1-5: (eapply mwp_mono; [apply (mwp_callback _ lc (4 * n)); [apply Hm|lia|lia|done]|];
    intros s' out [Hk ->]; split; [apply (member_kept n i s); [done|];
      by replace (4 * (n + 1)) with (4 * n + 4) by lia|by apply Forall_nil]).
  - cbn [Node.step]. unfold Node.sent_if, tick. mstep. mstep.
    specialize (Htick now). unfold mwp in Htick |- *.
    unfold mbind, M_bind in Htick |- *. destruct (tick_cleanup now s) as [[s1 []]| |]; [|done..].
    cbn [obind fst snd] in *. destruct (sync_due now s1) as [[s2 due]| |]; [|done..].
    cbn [obind fst snd gets]. unfold id. apply member_kept with (i := i) in Htick; [|done].
    destruct (_ && _); cbn; (split; [done|]); [apply Forall_singleton; by apply Hout|by apply Forall_nil].
  - cbn [Node.step]. unfold tick_with_peer_deltas. mstep. mstep.
    specialize (Htick now). unfold mwp in Htick |- *.
    unfold mbind, M_bind in Htick |- *. destruct (tick_cleanup now s) as [[s1 []]| |]; [|done..].
    cbn [obind fst snd] in *. destruct (sync_due now s1) as [[s2 due]| |]; [|done..].
    cbn [obind fst snd gets]. unfold id. apply member_kept with (i := i) in Htick; [|done].
    split; [done|]. destruct due; [|by apply Forall_nil].
    apply Forall_forall. intros data ([peer x] & -> & Hin)%list_elem_of_fmap.
    apply list_elem_of_fmap in Hin as (p & [= -> ->] & _). by apply Hout.
Qed.

(** ** The air *)

(** Whatever the bytes open to is short, and a document only if a member
    could have built it. *)
Definition harmless (n : Z) (data : list Z) : Prop :=
  bytes_ok data
  ∧ ∀ p, sealed_with key data p
         ∨ (∃ e, RelayEnvelope.decode data = Ok e ∧ sealed_with key (RelayEnvelope.payload e) p) →
    zlen p < 2 ^ 32
    ∧ ∀ d, PeatDocument.decode lc p = Ok d → DocSyncProofs.doc_inv lc ids n d.

Lemma harmless_mono n n' data : n ≤ n' → harmless n data → harmless n' data.
Proof.
  intros Hn [Hb Hp]. split; [done|]. intros p Hc. destruct (Hp p Hc) as [? Hd]. split; [done|].
  intros d Hdec. eapply doc_inv_mono; [done|]. by apply Hd.
Qed.
Lemma envelope_marker data e :
  bytes_ok data → RelayEnvelope.decode data = Ok e → head data = Some RELAY_ENVELOPE_MARKER.
Proof.
  intros Hb. unfold RelayEnvelope.decode. destruct (zlen data <? 28) eqn:El; [done|].
  destruct data as [|m data]; [done|]. inversion Hb. rewrite u8_at_here by lia. cbn [obind].
  destruct (m =? RELAY_ENVELOPE_MARKER) eqn:E; [|done]. apply Z.eqb_eq in E as ->. done.
Qed.
Lemma sealed_head data p : sealed_with key data p → head data = Some ENCRYPTED_MARKER.
Proof. by intros (r & payload & -> & _). Qed.

Lemma broadcast_harmless n data : broadcast_ok n data → harmless n data.
Proof.
  intros (Hb & _ & p & d & Hs & Hl & Hdec & Hd). split; [done|].
  intros p' [Hs'|(e & He & _)].
  - rewrite (sealed_unique key data p' p) by done.
    split; [lia|]. intros d'. rewrite Hdec. by intros [= <-].
  - apply envelope_marker in He; [|done]. apply sealed_head in Hs. rewrite He in Hs. done.
Qed.
Lemma wrapped_harmless n e :
  RelayEnvelope.wf e → harmless n (RelayEnvelope.payload e) → harmless n (RelayEnvelope.encode e).
Proof.
  intros Hwf [Hb Hp].
  assert (RelayEnvelope.decode (RelayEnvelope.encode e) = Ok e) as Hdec.
  { rewrite <-(app_nil_r (RelayEnvelope.encode e)). by apply EnvelopeProofs.envelope_decode_encode. }
  assert (bytes_ok (RelayEnvelope.encode e)) as Hbytes by by apply EnvelopeProofs.envelope_encode_bytes.
  split; [done|]. intros p [Hs|(e' & He & Hs)].
  - apply sealed_head in Hs. apply envelope_marker in Hdec; [|done]. rewrite Hdec in Hs. done.
  - rewrite Hdec in He. injection He as <-. apply Hp. by left.
Qed.

Lemma mwp_hears n i s x :
  0 ≤ n → n < 2 ^ 29 → member n i s → harmless n (Transport.bytes x) →
  mwp False (Transport.receive lc clock x) s (λ s' _, member (n + 1) i s').
Proof.
  intros Hn0 Hn (Hb & Hd & Hk & Hs) [Hbytes Hp].
  eapply mwp_mono.
  - apply (TransportProperties.receive_member lc clock ids n i (4 * n) s x Hids); try done; try lia.
    intros p Hc. apply Hp. unfold carries, opens_at, opens in Hc. rewrite Hk, Hs in Hc.
    destruct Hc as [[(? & [= <-] & ?)|[? _]]|(e & ? & [(? & [= <-] & ?)|[? _]])]; try done; [by left|].
    right. eauto.
  - intros s' r (Hd' & Hsetup & Hb'). split_and!.
    + by replace (4 * (n + 1)) with (4 * n + 4) by lia.
    + eapply node_inv_mono; [|done]. lia.
    + unfold setup in Hsetup. congruence.
    + unfold is_strict_encryption_enabled, is_encryption_enabled, setup in *.
      injection Hsetup as -> -> _ _ _. done.
Qed.

(** ** The mesh *)

Definition net_ok (n : Z) (s : Net.t) : Prop :=
  map_Forall (member n) (Net.nodes s) ∧ Forall (harmless n) (Net.air s)
  ∧ Forall (λ data, zlen data < 2 ^ 18 + 28 * n
      ∧ (broadcast_ok n data ∨ ∃ e, RelayEnvelope.decode data = Ok e)) (Net.air s).
(** What may happen: users stay in range; envelopes are well-formed; an
    outsider has no key. *)
Definition event_ok (e : Net.event) : Prop :=
  match e with
  | Net.Local _ (Node.Act nonce o) => action_ok o ∧ block 12 nonce
  | Net.Local _ (Node.Tick nonce _) | Net.Local _ (Node.TickPeers nonce _) => block 12 nonce
  | Net.Local _ _ | Net.Deliver _ _ _ => True
  | Net.Wrap _ message_id hop_count max_hops origin_node _ =>
      in_u 128 message_id ∧ byte_ok hop_count ∧ byte_ok max_hops ∧ in_u 32 origin_node
  | Net.Inject _ x =>
      bytes_ok (Transport.bytes x)
      ∧ ∀ p, ¬ sealed_with key (Transport.bytes x) p
             ∧ ∀ e, RelayEnvelope.decode (Transport.bytes x) = Ok e →
                    ¬ sealed_with key (RelayEnvelope.payload e) p
  end.
Lemma net_ok_mono n n' (s : Net.t) : n ≤ n' → net_ok n s → net_ok n' s.
Proof.
  intros Hn (Hs & Ha & Hb). split_and!.
  - eapply map_Forall_impl; [exact Hs|]. intros i p. by apply member_mono.
  - eapply Forall_impl; [exact Ha|]. intros data. by apply harmless_mono.
  - eapply Forall_impl; [exact Hb|]. cbn. intros data [? [?|?]]; (split; [lia|]); [left|by right].
    by eapply broadcast_mono.
Qed.

Lemma run_at_ok n (s : Net.t) i {A} (m : M A) out :
  0 ≤ n → net_ok n s →
  (∀ self, Net.nodes s !! i = Some self → mwp False m self (λ self' a,
     member (n + 1) i self' ∧ Forall (broadcast_ok (n + 1)) (out a))) →
  ∃ s' : Net.t, Net.run_at s i m out = Ok s' ∧ net_ok (n + 1) s'.
Proof.
  intros Hn Hs Hm. apply (net_ok_mono n (n + 1)) in Hs as Hs1; [|lia].
  unfold Net.run_at. destruct (Net.nodes s !! i) as [self|] eqn:Hi; [|by exists s].
  specialize (Hm self eq_refl). unfold mwp in Hm.
  destruct (m self) as [[self' a]| |]; [|done..]. destruct Hm as [Hself Hout].
  cbn [obind fst snd]. eexists. split; [done|]. destruct Hs1 as (Hmem & Hair & Hopen). split_and!; cbn.
  - by apply map_Forall_insert_2.
  - apply Forall_app_2; [done|]. eapply Forall_impl; [exact Hout|]. intros data. apply broadcast_harmless.
  - apply Forall_app_2; [done|]. eapply Forall_impl; [exact Hout|]. cbn.
    intros data Hd. split; [|by left]. destruct Hd as (_ & ? & _). lia.
Qed.

Lemma net_step n (s : Net.t) e :
  0 ≤ n → n < 2 ^ 26 → net_ok n s → event_ok e →
  ∃ s' : Net.t, Net.step lc clock s e = Ok s' ∧ net_ok (n + 1) s'.
Proof.
  intros Hn0 Hn Hs He. apply (net_ok_mono n (n + 1)) in Hs as Hs1; [|lia].
  assert (∀ i x, harmless n (Transport.bytes x) →
    ∃ s' : Net.t, Net.run_at s i (Transport.receive lc clock x) (λ _, []) = Ok s' ∧ net_ok (n + 1) s') as Hhear.
  { intros i x Hx. apply (run_at_ok n); [done..|]. intros self Hself.
    eapply mwp_mono; [apply (mwp_hears n i); [done|lia|by apply Hs|done]|].
    intros s' r Hm. split; [done|by apply Forall_nil]. }
  destruct e as [i e|i via index|index mid hops max origin flags|i x]; cbn [Net.step event_ok] in *.
  - apply (run_at_ok n); [done..|]. intros self Hself.
    apply mwp_step; [done|lia|by apply Hs|]. by destruct e.
  - destruct (Net.air s !! index) as [data|] eqn:Hd; [|by exists s]. apply Hhear.
    destruct Hs as (_ & Ha & _). rewrite Forall_lookup in Ha. replace (Transport.bytes _) with data by
      by destruct via. by eapply Ha.
  - destruct (Net.air s !! index) as [data|] eqn:Hd; [|by exists s].
    eexists. split; [done|]. destruct Hs as (_ & Ha & Hl), Hs1 as (Hm1 & Ha1 & Hl1).
    rewrite Forall_lookup in Ha, Hl. specialize (Ha _ _ Hd). specialize (Hl _ _ Hd) as [Hl _].
    set (e := RelayEnvelope.mk mid hops max origin flags data).
    assert (RelayEnvelope.wf e) as Hwf.
    { destruct He as (? & ? & ? & ?), Ha as [? _]. unfold RelayEnvelope.wf, e. cbn.
      split_and!; (done || lia). }
    split_and!; cbn; [done|apply Forall_app_2; [done|]|apply Forall_app_2; [done|]];
      apply Forall_singleton.
    + apply (harmless_mono n); [lia|]. exact (wrapped_harmless n e Hwf Ha).
    + change (zlen (RelayEnvelope.encode e) < 2 ^ 18 + 28 * (n + 1) ∧ (broadcast_ok (n + 1)
        (RelayEnvelope.encode e) ∨ ∃ e', RelayEnvelope.decode (RelayEnvelope.encode e) = Ok e')).
      assert (zlen (RelayEnvelope.encode e) = 28 + zlen data) as ->
        by (unfold RelayEnvelope.encode, e; cbn [RelayEnvelope.payload]; len).
      split; [lia|]. right. exists e. rewrite <-(app_nil_r (RelayEnvelope.encode e)).
      by apply EnvelopeProofs.envelope_decode_encode.
  - apply Hhear. destruct He as [Hb Hno]. split; [done|].
    intros p [Hp|(e & He & Hp)]; exfalso; [by apply (proj1 (Hno p))|by apply (proj2 (Hno p) e He)].
Qed.
Lemma net_run es : ∀ n (s : Net.t),
  0 ≤ n → n + zlen es < 2 ^ 26 → net_ok n s → Forall event_ok es →
  ∃ s' : Net.t, Net.run lc clock s es = Ok s' ∧ net_ok (n + zlen es) s'.
Proof.
  induction es as [|e es IH]; intros n s Hn0 Hn Hs Hes.
  { exists s. split; [done|]. eapply net_ok_mono; [|done]. len. }
  apply Forall_cons in Hes as [He Hes]. assert (zlen (e :: es) = 1 + zlen es) as Hl by len.
  cbn [Net.run]. destruct (net_step n s e) as (s1 & -> & Hs1); [lia|lia|done..|]. cbn [obind].
  destruct (IH (n + 1) s1) as (s2 & -> & Hs2); [lia|lia|done..|].
  exists s2. split; [done|]. by replace (n + zlen (e :: es)) with (n + 1 + zlen es) by lia.
Qed.

End member.
End NodeProofs.

Module NodeProperties.
Import NodeProofs.

(** The nodes of one strict mesh: a secret, a name, and settings in range. *)
Definition configs_ok (ids : gset Z) (mesh_id secret : list Z) (configs : Z → PeatMeshConfig.t)
    : Prop :=
  set_Forall (λ i, PeatMeshConfig.node_id (configs i) = i
    ∧ Mesh.callsign_in (PeatMeshConfig.callsign (configs i))
    ∧ PeatMeshConfig.mesh_id (configs i) = mesh_id
    ∧ PeatMeshConfig.encryption_secret (configs i) = Some secret
    ∧ PeatMeshConfig.strict_encryption (configs i) = true
    ∧ PeatMeshConfig.relay_fanout (configs i) < 2 ^ 64) ids.


#[local] Existing Instance RegistryProperties.demo_apps.
#[local] Existing Instance TransportProperties.triple_order.

Definition demo_events : list Net.event :=
  let nonce := TransportProperties.demo_nonce in
  let ts := MIN_VALID_TIMESTAMP + 1000 in
  let x := str "x"%string in
  [Net.Local 1 (Node.Accepted x 2 5); Net.Local 1 (Node.Act nonce (Mesh.StartEmergency ts [2]));
   Net.Deliver 2 (Transport.Incoming x [] 10) 0; Net.Local 2 (Node.Tick nonce 6000);
   Net.Local 2 (Node.Act nonce (Mesh.AckEmergency (ts + 5)));
   Net.Wrap 2 77 0 3 2 (RelayFlags.mk false true); Net.Deliver 1 (Transport.FromNode 2 [] 20) 3;
   Net.Inject 1 (Transport.Anonymous x [1; 2; 3] 30); Net.Deliver 1 (Transport.Received x [] 40) 1;
   Net.Local 1 (Node.TickPeers nonce 7000); Net.Local 2 (Node.Disconnected x DisconnectReason.LinkLoss 50)].

(** In this run the acknowledgement reaches the source of the emergency,
    through an envelope. *)
Example acknowledgement_relayed :
  match Net.run true (λ i, i) (Net.init (list_to_set [1; 2]) TransportProperties.demo_config) demo_events with
  | Ok s => (λ a, (has_peer_acked a 2, all_peers_acked a)) <$> Net.nodes s !! 1 = Some (true, true)
  | _ => False
  end.
Proof. vm_compute. done. Qed.

End NodeProperties.
