(* ===== verification/MeshConverge.v ===== *)
(** * A mesh of whole nodes comes to agree: what the nodes of MeshNode.v hold
    after each of them has heard of every other. *)

From Stdlib Require Import String.
From stdpp Require Import base numbers list gmap sets.
From S2P Require Import Prelude Crdt Sensor Delta DeltaDoc Document DocSync Chat Crypto Session.
From S2P Require Import Identity Trust PeerGraph PeerManager Config Gossip Relay Observer.
From S2P Require Import Registry Persistence PeatMesh MeshLogic MeshTransport MeshNode.
Import DocumentType (AppTypes, app_type, doc).
Import PeatMesh TransportProofs DocumentProofs.
Open Scope Z_scope.
Open Scope peat_scope.

Module ConvergeProofs.

(** What replicas share: counter, emergency and chat of a node, and of the
    document it sends. *)
Definition holds (d : DocumentSync.t) := shared (DocSyncProofs.view d).
Definition tells (lc : bool) (d : DocumentSync.t) := shared (DocumentSync.document lc d).
(** A chat of at most eight messages is sent whole. *)
Definition told_whole (d : DocumentSync.t) : Prop :=
  ∀ c, DocumentSync.chat d = Some c → Z.of_nat (size (ChatCRDT.messages c)) ≤ CHAT_SYNC_LIMIT.

Lemma tells_holds lc ids n i d :
  DocSyncProofs.node_inv lc ids n i d → told_whole d → tells lc d = holds d.
Proof.
  intros (_ & _ & _ & _ & _ & _ & Hc) Hw. unfold tells, holds, shared. cbn. do 2 f_equal.
  destruct (DocumentSync.chat d) as [c|] eqn:E; [|by destruct lc].
  destruct (Hc c eq_refl) as [-> _]. cbn. unfold ChatCRDT.for_sync.
  by rewrite (proj2 (Z.leb_le _ _)) by by apply Hw.
Qed.

Section document.
Context (lc : bool) (src : Z → Z) (content : Z → ChatMessage.t).
Context (ids : gset Z) (Hids : Mesh.mesh_ok ids) (k : Z) (Hk : 0 ≤ k < 2 ^ 56).
Notation valid := (shared_valid lc src content).
Notation join := shared_join.

(** The merge of a document is the join of what is shared. *)
Lemma merge_meets i j d d1 d' r :
  DocSyncProofs.node_inv lc ids k i d → DocSyncProofs.node_inv lc ids k j d1 → i ≠ j →
  valid (holds d) → valid (tells lc d1) →
  DocumentSync.merge_document lc d (DocumentSync.build_document lc d1) = Ok (d', r) →
  holds d' = join (holds d) (tells lc d1).
Proof.
  intros Hd Hd1 Hij Hv Hv1.
  destruct (DocSyncProofs.document_wf lc ids Hids k j d1 (proj2 Hk) Hd1) as (Hdec & Hdi & Hid).
  assert (DocumentSync.node_id d = i) as Hdid by apply Hd.
  rewrite (DocSyncProofs.merge_document_refines lc d _ _ Hdec) by congruence.
  pose proof (DocSyncProofs.counts_ok_merge ids k _ _ (proj1 (proj2 (proj2 (proj2 (proj2 Hd)))))
    (proj1 (proj2 Hdi))) as Hc.
  pose proof (DocSyncProofs.counts_ok_total ids Hids k _ Hc (proj2 Hk) (proj1 Hk)) as Ht.
  destruct (document_merge_ok lc (DocSyncProofs.view d) (DocumentSync.document lc d1))
    as (ch & _ & ->); [apply Hv|apply Hv1|exact Ht|].
  cbn [obind]. destruct (GCounter.value _) as [total| |]; [|done..]. cbn [obind].
  destruct (PeatDocument.merge_counter _ _) as [cs| |]; [|done..]. cbn [obind].
  intros [= <- _]. unfold holds, tells, shared, shared_join, prod_join. cbn. do 2 f_equal.
  - apply merge_emergency_join.
  - apply (merge_chat_join lc content); [apply Hv|apply Hv1].
Qed.

(** A node does not merge its own document. *)
Lemma merge_own i d d1 d' r :
  DocSyncProofs.node_inv lc ids k i d → DocSyncProofs.node_inv lc ids k i d1 →
  DocumentSync.merge_document lc d (DocumentSync.build_document lc d1) = Ok (d', r) → d' = d.
Proof.
  intros Hd Hd1.
  destruct (DocSyncProofs.document_wf lc ids Hids k i d1 (proj2 Hk) Hd1) as (Hdec & _ & Hid).
  unfold DocumentSync.merge_document. rewrite Hdec. cbn [opt obind].
  rewrite Hid. replace (DocumentSync.node_id d) with i by (symmetry; apply Hd).
  rewrite Z.eqb_refl. by intros [= <- _].
Qed.
End document.

(** ** The nodes *)

Section mesh.
Context `{CryptoLaws} `{AppTypes} `{!MapOrder Z} `{!MapOrder (Z * Z * Z)} (lc : bool) (clock : Z → Z).
Context (src : Z → Z) (content : Z → ChatMessage.t).
Context (ids : gset Z) (Hids : Mesh.mesh_ok ids) (key : MeshEncryptionKey.t).
Context (Hkey : block 32 (MeshEncryptionKey.key key)).
Context (k : Z) (Hk : 0 ≤ k < 2 ^ 28) (nodes : gmap Z PeatMesh.t).
Notation valid := (shared_valid lc src content).
Notation below := (below (join := shared_join)).

(** What each node is when it broadcasts: a member of the strict mesh whose
    document is told from other messages and tells all it holds.  That an
    emergency's time names its source and a message's identifier its content
    is what [valid] says. *)
Definition ready (i : Z) (s : PeatMesh.t) : Prop :=
  NodeProofs.member lc ids key k i s ∧ unmistakable (document_sync s)
  ∧ told_whole (document_sync s) ∧ valid (holds (document_sync s)).
Context (Hnodes : map_Forall ready nodes).

(** What a node hears: whatever it opens to, in an envelope or not, was told
    by a node. *)
Definition opens_to (data p : list Z) : Prop :=
  sealed_with key data p
  ∨ ∃ e, RelayEnvelope.decode data = Ok e ∧ sealed_with key (RelayEnvelope.payload e) p.
Definition hearsay (x : Transport.input) : Prop :=
  bytes_ok (Transport.bytes x)
  ∧ ∀ p, opens_to (Transport.bytes x) p →
      ∃ j a, nodes !! j = Some a ∧ p = DocumentSync.build_document lc (document_sync a).
(** Node [j] is heard: its broadcast arrives, not in an envelope, through a
    method that needs no identifier. *)
Definition heard (j : Z) (x : Transport.input) : Prop :=
  ∃ a nonce, nodes !! j = Some a ∧ block 12 nonce
    ∧ Transport.bytes x = build_document lc a nonce
    ∧ match x with Transport.Received _ _ _ => False | _ => True end.

Lemma ready_tells j a :
  nodes !! j = Some a →
  DocSyncProofs.node_inv lc ids k j (document_sync a)
  ∧ tells lc (document_sync a) = holds (document_sync a)
  ∧ valid (tells lc (document_sync a)).
Proof.
  intros Ha. destruct (Hnodes j a Ha) as ((_ & Hd & _) & _ & Hw & Hv).
  pose proof (tells_holds lc ids k j _ Hd Hw) as E. split_and!; [done|done|by rewrite E].
Qed.

(** Broadcasts are hearsay, and so is hearsay in an envelope. *)
Lemma told_hearsay j a nonce x :
  nodes !! j = Some a → block 12 nonce → Transport.bytes x = build_document lc a nonce → hearsay x.
Proof.
  intros Ha Hnonce Hx. destruct (Hnodes j a Ha) as (Hm & _).
  pose proof (build_bytes lc ids k j _ (proj1 (proj2 Hm))) as Hb. destruct Hm as (_ & _ & Hka & _).
  destruct (encrypt_document_sealed a key nonce _ Hka Hkey Hnonce Hb) as [Hs Hbytes].
  unfold hearsay. rewrite Hx. unfold build_document. split; [done|].
  intros p [Hp|(e & He & _)]; exists j, a; (split; [done|]).
  - by eapply sealed_unique.
  - apply NodeProofs.envelope_marker in He; [|done]. apply NodeProofs.sealed_head in Hs. by rewrite He in Hs.
Qed.
Lemma relayed_hearsay x e y :
  RelayEnvelope.wf e → Transport.bytes y = RelayEnvelope.payload e →
  Transport.bytes x = RelayEnvelope.encode e → hearsay y → hearsay x.
Proof.
  intros Hwf Hy Hx [Hb Hp]. unfold hearsay. rewrite Hx, Hy in *.
  assert (RelayEnvelope.decode (RelayEnvelope.encode e) = Ok e) as Hdec.
  { rewrite <-(app_nil_r (RelayEnvelope.encode e)). by apply EnvelopeProofs.envelope_decode_encode. }
  assert (bytes_ok (RelayEnvelope.encode e)) as Hbytes by by apply EnvelopeProofs.envelope_encode_bytes.
  split; [done|]. intros p [Hs|(e' & He & Hs)].
  - apply NodeProofs.sealed_head in Hs. apply NodeProofs.envelope_marker in Hdec; [|done]. by rewrite Hdec in Hs.
  - apply Hp. left. congruence.
Qed.

#[local] Existing Instance shared_crdt.

(** After [m] receptions. *)
Definition hearing (m i : Z) (s : PeatMesh.t) : Prop :=
  books_ok (4 * (k + m)) s ∧ DocSyncProofs.node_inv lc ids k i (document_sync s)
  ∧ encryption_key s = Some key ∧ is_strict_encryption_enabled s = true
  ∧ valid (holds (document_sync s)).
Lemma ready_hearing i s : nodes !! i = Some s → hearing 0 i s.
Proof.
  intros Hi. destruct (Hnodes i s Hi) as ((Hb & Hd & Hs & Hst) & _ & _ & Hv).
  split_and!; try done. by replace (4 * (k + 0)) with (4 * k) by lia.
Qed.

Lemma carries_opens m i s data p : hearing m i s → carries s data p → opens_to data p.
Proof.
  intros (_ & _ & Hs & Hst & _). unfold carries, opens_at, opens. rewrite Hs, Hst.
  intros [[(? & [= <-] & ?)|[? _]]|(e & ? & [(? & [= <-] & ?)|[? _]])]; try done; [by left|].
  right. eauto.
Qed.
Lemma told_document j a :
  nodes !! j = Some a →
  zlen (DocumentSync.build_document lc (document_sync a)) < 2 ^ 17
  ∧ ∀ d, PeatDocument.decode lc (DocumentSync.build_document lc (document_sync a)) = Ok d →
         DocSyncProofs.doc_inv lc ids k d.
Proof.
  intros Ha. destruct (ready_tells j a Ha) as (Hd & _). split.
  - apply (NodeProofs.document_short lc ids Hids k j); [lia|done].
  - destruct (DocSyncProofs.document_wf lc ids Hids k j _ ltac:(lia) Hd) as (Hdec & Hdi & _).
    rewrite Hdec. by intros d [= <-].
Qed.

(** What one more message does to what a node holds: nothing is lost, a node
    that is heard is taken in, and nothing else is. *)
Definition grows (i : Z) (s s' : PeatMesh.t) (x : Transport.input) : Prop :=
  below (holds (document_sync s)) (holds (document_sync s'))
  ∧ (∀ j a, nodes !! j = Some a → j ≠ i → heard j x →
       below (holds (document_sync a)) (holds (document_sync s')))
  ∧ ∀ z, valid z → below (holds (document_sync s)) z →
       (∀ j a, nodes !! j = Some a → below (holds (document_sync a)) z) →
       below (holds (document_sync s')) z.

Lemma hear_step m i s x :
  0 ≤ m → 4 * (k + m) + 4 < 2 ^ 32 → hearing m i s → hearsay x →
  mwp False (Transport.receive lc clock x) s (λ s' _, hearing (m + 1) i s' ∧ grows i s s' x).
Proof.
  intros Hm Hroom Hs [Hx Hsrc]. pose proof Hs as (Hb & Hd & Hkey' & Hstrict & Hv).
  assert (∀ p, carries s (Transport.bytes x) p → zlen p < 2 ^ 32
    ∧ ∀ d, PeatDocument.decode lc p = Ok d → DocSyncProofs.doc_inv lc ids k d) as Hc.
  { intros p Hp. destruct (Hsrc p (carries_opens m i s _ p Hs Hp)) as (j & a & Ha & ->).
    destruct (told_document j a Ha). split; [lia|done]. }
  assert (∀ j a, nodes !! j = Some a → j ≠ i → heard j x →
    mwp False (Transport.receive lc clock x) s (λ s' _, holds (document_sync s')
      = shared_join (holds (document_sync s)) (holds (document_sync a)))) as Hheard.
  { intros j a Ha Hji (a' & nonce & Ha' & Hnonce & Hbytes & Hway).
    assert (a' = a) as -> by congruence. destruct (ready_tells j a Ha) as (Hda & E & Hva).
    destruct (Hnodes j a Ha) as ((_ & _ & Hka & _) & Hun & _).
    eapply mwp_mono; [apply (TransportProperties.document_taken lc clock ids k (4 * (k + m)) j i a s nonce x)|];
      try done; try lia.
    - split_and!; try done. intros key' E'. by replace key' with key by congruence.
    - congruence.
    - by destruct x.
    - intros s' r (res & _ & Hmerge & _). rewrite <-E.
      by eapply (merge_meets lc src content ids Hids k ltac:(lia) i j). }
  pose proof (TransportProperties.receive_member lc clock ids k i (4 * (k + m)) s x Hids
    ltac:(lia) ltac:(lia) Hd Hb ltac:(lia) Hroom Hx Hc) as Hmember.
  pose proof (mwp_receive lc clock (4 * (k + m)) s x Hb ltac:(lia) Hroom Hx
    (λ p Hp, proj1 (Hc p Hp))) as Hhandled.
  unfold mwp in *. destruct (Transport.receive lc clock x s) as [[s' r]| |]; [|done..].
  destruct Hmember as (Hd' & Hsetup & Hb'), Hhandled as (_ & _ & Hchange).
  assert (holds (document_sync s') = holds (document_sync s)
    ∨ ∃ j a, nodes !! j = Some a ∧ holds (document_sync s')
        = shared_join (holds (document_sync s)) (holds (document_sync a))) as Hholds.
  { destruct Hchange as [[Hkn _]|(p & Hp & [->|[r' Hr]])].
    - left. unfold knowledge in Hkn. congruence.
    - by left.
    - destruct (Hsrc p (carries_opens m i s _ p Hs Hp)) as (j & a & Ha & ->).
      destruct (ready_tells j a Ha) as (Hda & E & Hva). destruct (decide (j = i)) as [->|Hji].
      + left. f_equal. by eapply (merge_own lc ids Hids k ltac:(lia) i).
      + right. exists j, a. split; [done|]. rewrite <-E.
        by eapply (merge_meets lc src content ids Hids k ltac:(lia) i j). }
  assert (∀ j a, nodes !! j = Some a → valid (holds (document_sync a))) as Hva
    by (intros j a Ha; apply (Hnodes j a Ha)).
  split; [|split_and!].
  - unfold setup in Hsetup. split_and!; [|done|congruence| |].
    + by replace (4 * (k + (m + 1))) with (4 * (k + m) + 4) by lia.
    + unfold is_strict_encryption_enabled, is_encryption_enabled in *. by injection Hsetup as -> -> _ _ _.
    + destruct Hholds as [->|(j & a & Ha & ->)]; [done|].
      apply (join_valid (valid := valid)); [done|by eapply Hva].
  - destruct Hholds as [->|(j & a & Ha & ->)]; [by apply (join_idem (valid := valid))|].
    apply (below_join_l (valid := valid)); [done|by eapply Hva].
  - intros j a Ha Hji Hh. specialize (Hheard j a Ha Hji Hh). cbn in Hheard. rewrite Hheard.
    apply (below_join_r (valid := valid)); [done|by eapply Hva].
  - intros z Hz Hle Hall. destruct Hholds as [->|(j & a & Ha & ->)]; [done|].
    apply (join_below (valid := valid)); [done|by eapply Hva|done|done|by eapply Hall].
Qed.

(** A run of receptions: the least of what holds the start and every node
    that was heard, up to all that the nodes hold. *)
Lemma hear_all i xs : ∀ m s,
  0 ≤ m → 4 * (k + m + zlen xs) < 2 ^ 32 → hearing m i s → Forall hearsay xs →
  mwp False (Transport.receive_all lc clock xs) s (λ s' _, hearing (m + zlen xs) i s'
    ∧ below (holds (document_sync s)) (holds (document_sync s'))
    ∧ (∀ j a x, nodes !! j = Some a → j ≠ i → x ∈ xs → heard j x →
         below (holds (document_sync a)) (holds (document_sync s')))
    ∧ ∀ z, valid z → below (holds (document_sync s)) z →
         (∀ j a, nodes !! j = Some a → below (holds (document_sync a)) z) →
         below (holds (document_sync s')) z).
Proof.
  induction xs as [|x xs IH]; intros m s Hm Hroom Hs Hall; cbn [Transport.receive_all].
  { mstep. rewrite Z.add_0_r. split; [done|]. split_and!; [|by intros ??? _ _ ?%elem_of_nil|done].
    apply (join_idem (valid := valid)). apply Hs. }
  apply Forall_cons in Hall as [Hx Hall].
  assert (zlen (x :: xs) = 1 + zlen xs) as Hl by len. rewrite Hl in *.
  mstep. eapply mwp_mono; [apply (hear_step m i s x); try done; len|].
  intros s1 r (Hs1 & Hle1 & Hh1 & Hleast1). mstep.
  eapply mwp_mono; [apply (IH (m + 1)); try done; lia|].
  intros s2 rs (Hs2 & Hle2 & Hh2 & Hleast2). mstep.
  assert (valid (holds (document_sync s)) ∧ valid (holds (document_sync s1))
    ∧ valid (holds (document_sync s2))) as (Hv & Hv1 & Hv2) by (split_and!; [apply Hs|apply Hs1|apply Hs2]).
  split_and!.
  - by replace (m + (1 + zlen xs)) with (m + 1 + zlen xs) by lia.
  - by apply (below_trans (valid := valid) _ (holds (document_sync s1))).
  - intros j a y Ha Hji [->|Hy]%elem_of_cons Hh; [|by eapply Hh2].
    apply (below_trans (valid := valid) _ (holds (document_sync s1))); try done.
    + by apply (Hnodes j a Ha).
    + by eapply Hh1.
  - intros z Hz Hle Ha. apply Hleast2; [done| |done]. by apply Hleast1.
Qed.

(** The least that takes in what all nodes hold. *)
Definition least_of (v : GCounter.t * (option EmergencyEvent.t * option ChatCRDT.t)) : Prop :=
  valid v ∧ map_Forall (λ _ a, below (holds (document_sync a)) v) nodes
  ∧ ∀ z, valid z → map_Forall (λ _ a, below (holds (document_sync a)) z) nodes → below v z.
Lemma least_unique v w : least_of v → least_of w → v = w.
Proof.
  intros (Hv & Hup & Hleast) (Hw & Hup' & Hleast'). apply (below_antisym (valid := valid)); auto.
Qed.

Lemma hear_everyone i s xs :
  nodes !! i = Some s → k + zlen xs < 2 ^ 30 → Forall hearsay xs →
  (∀ j, is_Some (nodes !! j) → i ≠ j → Exists (heard j) xs) →
  ∃ s' rs, Transport.receive_all lc clock xs s = Ok (s', rs)
    ∧ DocSyncProofs.node_inv lc ids k i (document_sync s') ∧ least_of (holds (document_sync s')).
Proof.
  intros Hi Hroom Hsay Hall.
  pose proof (hear_all i xs 0 s ltac:(lia) ltac:(lia) (ready_hearing i s Hi) Hsay) as Hr.
  unfold mwp in Hr. destruct (Transport.receive_all lc clock xs s) as [[s' rs]| |]; [|done..].
  destruct Hr as ((_ & Hd & _ & _ & Hv) & Hown & Hheard & Hleast). exists s', rs.
  split; [done|]. split; [done|]. split; [done|split].
  - intros j a Ha. destruct (decide (j = i)) as [->|Hji]; [by replace a with s by congruence|].
    assert (is_Some (nodes !! j)) as Hj by by eexists.
    specialize (Hall j Hj ltac:(done)). apply Exists_exists in Hall as (x & Hx & Hh).
    by apply (Hheard j a x).
  - intros z Hz Hz'. apply Hleast; [done|by eapply Hz'|done].
Qed.

End mesh.
End ConvergeProofs.

Module ConvergeProperties.
Import ConvergeProofs.


#[local] Existing Instance RegistryProperties.demo_apps.
#[local] Existing Instance TransportProperties.triple_order.

(** Three nodes: one has started an emergency, one has sent a chat message,
    one has counted. *)
Definition trio : gset Z := list_to_set [1; 2; 3].
Definition noon : Z := MIN_VALID_TIMESTAMP + 1000.
Definition does (n : Z) : Mesh.op :=
  if n =? 1 then Mesh.StartEmergency noon [2; 3]
  else if n =? 2 then Mesh.AddChatMessage (str "B"%string) (str "HELLO"%string) noon
  else Mesh.IncrementCounter.
Definition person (n : Z) : PeatMesh.t :=
  let s := TransportProperties.demo n in set_document_sync s (Mesh.act true (document_sync s) (does n)).
Definition hello : ChatMessage.t :=
  default (ChatMessage.new 0 0 [] [])
    (c ← DocumentSync.chat (document_sync (person 2)); snd <$> head (bt_iter (ChatCRDT.messages c))).
Definition people : gmap Z PeatMesh.t := {[1 := person 1; 2 := person 2; 3 := person 3]}.
Definition says (n : Z) : list Z := build_document true (person n) TransportProperties.demo_nonce.
Definition wrapped : RelayEnvelope.t := 
  RelayEnvelope.mk 77 1 3 1 (RelayFlags.mk false true) (says 1).
Definition hears (n : Z) : list Transport.input :=
  let x := str "x"%string in
  if n =? 1 then [Transport.Anonymous x [1; 2; 3] 10; Transport.FromNode 2 (says 2) 11;
                  Transport.Incoming x (says 3) 12; Transport.FromNode 2 (says 2) 13]
  else if n =? 2 then [Transport.Incoming x (says 3) 10; Transport.Received x (says 1) 11;
                       Transport.Anonymous x (says 1) 12; Transport.FromNode 2 (says 2) 13]
  else [Transport.Incoming x (RelayEnvelope.encode wrapped) 10; Transport.Anonymous x (says 1) 11;
        Transport.FromNode 2 (says 2) 12].

Lemma people_lookup n s : people !! n = Some s → n ∈ [1; 2; 3] ∧ s = person n.
Proof.
  unfold people. rewrite !lookup_insert_Some, lookup_singleton_Some, !elem_of_cons. naive_solver.
Qed.
Lemma people_ready :
  map_Forall (ready true (λ _, 1) (λ _, hello) trio TransportProperties.demo_key 1) people.
Proof.
  intros n s [Hn ->]%people_lookup.
  assert (Mesh.mesh_ok trio) as Hids by (unfold Mesh.mesh_ok; by_decide).
  assert (NodeProofs.member true trio TransportProperties.demo_key (0 + 1) n (person n)) as Hm.
  { apply NodeProofs.member_acts; [done|lia| |].
    - split; [apply TransportProperties.demo_books|]. split; [|done].
      apply TransportProperties.new_node_inv; [done|by apply elem_of_list_to_set|].
      unfold Mesh.callsign_in, Mesh.text_ok.
      rewrite !elem_of_cons, elem_of_nil in Hn. destruct Hn as [->|[->|[->|[]]]]; by_decide.
    - rewrite !elem_of_cons, elem_of_nil in Hn. destruct Hn as [->|[->|[->|[]]]]; by_decide. }
  split; [exact Hm|]. clear Hm. rewrite !elem_of_cons, elem_of_nil in Hn.
  destruct Hn as [->|[->|[->|[]]]]; (split; [unfold unmistakable; by_decide|]); (split; [unfold told_whole; by_decide|]);
    unfold shared_valid, GCounter.typed, doc_chat_valid, ChatProofs.chat_valid, EmergencyEventProofs.valid;
    by_decide.
Qed.

Lemma said_hearsay n x :
  n ∈ [1; 2; 3] → Transport.bytes x = says n → hearsay true TransportProperties.demo_key people x.
Proof.
  intros Hn Hx. assert (people !! n = Some (person n)) as Hp
    by (rewrite !elem_of_cons, elem_of_nil in Hn; by destruct Hn as [->|[->|[->|[]]]]).
  eapply (told_hearsay true (λ _, 1) (λ _, hello) trio TransportProperties.demo_key); try done.
  - apply hkdf_block.
  - apply people_ready.
  - by_decide.
Qed.
Lemma noise_hearsay x :
  Transport.bytes x = [1; 2; 3] → hearsay true TransportProperties.demo_key people x.
Proof.
  intros Hx. unfold hearsay, opens_to. rewrite Hx. split; [by_decide|].
  intros p [(r & payload & [=] & _)|(e & He & _)]. vm_compute in He. discriminate He.
Qed.
Lemma said_heard n x :
  n ∈ [1; 2; 3] → Transport.bytes x = says n →
  match x with Transport.Received _ _ _ => False | _ => True end → heard true people n x.
Proof.
  intros Hn Hx Hway. exists (person n), TransportProperties.demo_nonce.
  rewrite !elem_of_cons, elem_of_nil in Hn. split_and!; [|by_decide|done|done].
  by destruct Hn as [->|[->|[->|[]]]].
Qed.
#[local] Ltac said n := apply (said_hearsay n); [by_decide|reflexivity].
#[local] Ltac told :=
  apply Exists_cons_hd; apply said_heard; [by_decide|reflexivity|exact I].

Lemma wrapped_wf : RelayEnvelope.wf wrapped.
Proof.
  assert (bytes_ok (says 1)) as Hb by apply (said_hearsay 1 (Transport.FromNode 1 (says 1) 0)
    ltac:(by_decide) eq_refl).
  assert (zlen (says 1) < 2 ^ 32) as Hl by by vm_compute.
  unfold RelayEnvelope.wf, wrapped. cbn. split_and!; try done; by_decide.
Qed.


(** Afterwards everyone knows of the emergency, has the message and counts
    two events: the alert and the count. *)
Example everyone_knows :
  (λ i, match Transport.receive_all true (λ i, i) (hears i) (person i) with
        | Ok (s, _) => Some (has_active_emergency s, length (all_chat_messages s), total_count s)
        | _ => None
        end) <$> [1; 2; 3] = replicate 3 (Some (true, 1%nat, Ok 2)).
Proof. vm_compute. reflexivity. Qed.

End ConvergeProperties.
