(* ===== verification/MeshService.v ===== *)
(** * Three services of a mesh node of src/src/peat_mesh.rs: end-to-end
    sessions, restart from storage, and the periodic synchronisation. *)

From Stdlib Require Import String.
From stdpp Require Import base numbers list gmap sets.
From S2P Require Import Prelude Crdt Sensor Delta DeltaDoc Document DocSync Chat Crypto Session.
From S2P Require Import Identity Trust PeerGraph PeerManager Config Gossip Relay Observer.
From S2P Require Import Registry Persistence PeatMesh MeshLogic MeshTransport MeshNode.
Import DocumentType (AppTypes, app_type, doc).
Import PeatMesh.
Open Scope Z_scope.
Open Scope peat_scope.

(** ** End-to-end sessions *)

Module E2ee.
Import PeerSessionManager.

Section talk.
Context `{Crypto} `{AppTypes} `{!MapOrder Z} `{!MapOrder (Z * Z * Z)} (lc : bool) (clock : Z → Z).

(** A conversation between the nodes [na] and [nb]; [true]: from [a] to [b]. *)
Fixpoint talk (na nb now : Z) (a b : PeatMesh.t) (lines : list (bool * list Z * list Z))
    : outcome (PeatMesh.t * PeatMesh.t) :=
  match lines with
  | [] => Ok (a, b)
  | (true, nonce, plaintext) :: lines =>
      let! sent := send_peer_e2ee nonce nb plaintext now a in
      let! data := of_option sent.2 in
      let! heard := Transport.receive lc clock (Transport.FromNode na data now) b in
      talk na nb now sent.1 heard.1 lines
  | (false, nonce, plaintext) :: lines =>
      let! sent := send_peer_e2ee nonce na plaintext now b in
      let! data := of_option sent.2 in
      let! heard := Transport.receive lc clock (Transport.FromNode nb data now) a in
      talk na nb now heard.1 sent.1 lines
  end.
(** Both initiate, and each hears the other. *)
Definition meet (na nb now : Z) (a b : PeatMesh.t) : outcome (PeatMesh.t * PeatMesh.t) :=
  let! ia := initiate_peer_e2ee nb now a in
  let! ib := initiate_peer_e2ee na now b in
  let! hello_a := of_option ia.2 in
  let! hello_b := of_option ib.2 in
  let! ra := Transport.receive lc clock (Transport.FromNode nb hello_b now) ia.1 in
  let! rb := Transport.receive lc clock (Transport.FromNode na hello_a now) ib.1 in
  Ok (ra.1, rb.1).
(** What the observers of the side [dir] speaks to are told. *)
Definition spoken (dir : bool) (from : Z) (lines : list (bool * list Z * list Z)) : list PeatEvent.t :=
  map (λ l, PeatEvent.PeerE2eeMessageReceived from l.2) (filter (λ l, l.1.1 = dir) lines).
End talk.
End E2ee.

Module E2eeProofs.
Import PeerSessionManager SessionProofs E2ee.

Section e2ee.
Context `{CryptoLaws} `{AppTypes} `{!MapOrder Z} `{!MapOrder (Z * Z * Z)} (lc : bool) (clock : Z → Z).

(** Both sides have sent their key, and each hears the other's. *)
Lemma mutual_links (a b : t) now n :
  n < 2 ^ 64 → fresh a (our_node_id b) → fresh b (our_node_id a) →
  let '(a1, hello_a) := initiate_session a (our_node_id b) now in
  let '(b1, hello_b) := initiate_session b (our_node_id a) now in
  ∃ a2 b2 ra rb, handle_key_exchange a1 hello_b now = (a2, Some ra)
    ∧ handle_key_exchange b1 hello_a now = (b2, Some rb)
    ∧ ra.2 = true ∧ rb.2 = true ∧ linked n a2 b2
    ∧ our_node_id a2 = our_node_id a ∧ our_node_id b2 = our_node_id b.
Proof.
  intros Hn (Han & Har & Hat & Hai & sa & Hsa & Hak) (Hbn & Hbr & Hbt & Hbi & sb & Hsb & Hbk).
  destruct (initiate_keeps a (our_node_id b) now Hat Han Har) as (Hsa1 & Hida & Hkeya & Ha).
  destruct (initiate_keeps b (our_node_id a) now Hbt Hbn Hbr) as (Hsb1 & Hidb & Hkeyb & Hb).
  destruct (initiate_session a _ _) as [a1 hello_a], (initiate_session b _ _) as [b1 hello_b].
  cbn [fst snd] in *. subst hello_a hello_b. unfold handle_key_exchange, our_public_key.
  cbn [KeyExchangeMessage.sender_node_id KeyExchangeMessage.public_key KeyExchangeMessage.new].
  rewrite Hsa1, Hsb1. cbn [PeerSession.new_initiator PeerSession.state].
  rewrite !decide_True by done. eexists _, _, _, _. split_and!; [reflexivity..| |by cbn|by cbn].
  exists (SharedSecret.derive_session_key (PeerIdentityKey.exchange (identity_key a)
    (x25519_public sb)) (our_node_id a) (our_node_id b)).
  cbn [our_node_id sessions set_sessions]. eexists _, _.
  rewrite Hida, Hidb, !lookup_insert_eq. split; [done|]. split; [done|].
  rewrite Hkeya, Hkeyb, Hak, Hbk. cbn. split_and!; try done; try lia.
  - f_equal. symmetry. by apply CryptoProofs.session_key_agrees.
  - unfold SharedSecret.derive_session_key. destruct (_ <? _); apply hkdf_block.
Qed.

Lemma hello_wf (self : t) peer now :
  fresh self peer →
  KeyExchangeMessage.wf (initiate_session self peer now).2
  ∧ KeyExchangeMessage.sender_node_id (initiate_session self peer now).2 = our_node_id self.
Proof.
  intros (Hn & Hr & Ht & Hi & secret & Hs & Hk).
  destruct (initiate_keeps self peer now Ht Hn Hr) as (_ & _ & _ & ->).
  split; [|done]. split; cbn; [done|]. unfold our_public_key. rewrite Hk. by apply x25519_public_block.
Qed.

(** *** At the facade *)

Implicit Types s : PeatMesh.t.

(** A marked message reaches its handler. *)
Lemma marked_kind m payload :
  byte_ok m → bytes_ok payload → kind_of (m :: 0 :: payload)
    = Ok (if m =? KEY_EXCHANGE_MARKER then KeyExchange else if m =? PEER_E2EE_MARKER then PeerE2ee
          else if m =? RELAY_ENVELOPE_MARKER then Envelope else Plain).
Proof.
  intros Hm Hp. unfold kind_of. rewrite (proj2 (Z.leb_le _ _)) by len. by rewrite u8_at_here.
Qed.

Lemma hears_key_exchange s n now mgr mgr' msg response :
  peer_sessions s = Some mgr → KeyExchangeMessage.wf msg →
  handle_key_exchange mgr msg now = (mgr', Some (response, true)) →
  Transport.receive lc clock (Transport.FromNode n (key_exchange_bytes msg) now) s
  = Ok (notified (set_peer_sessions s (Some mgr'))
          [PeatEvent.PeerE2eeEstablished (KeyExchangeMessage.sender_node_id msg)], None).
Proof.
  intros Hs Hwf Hh. pose proof (wire_bytes msg Hwf) as Hb.
  unfold Transport.receive, on_ble_data_received_from_node, mbind, M_bind, lift.
  change (key_exchange_bytes msg) with (KEY_EXCHANGE_MARKER :: 0 :: KeyExchangeMessage.encode msg).
  rewrite marked_kind; [|by_decide|done]. cbn [obind fst snd Z.eqb].
  unfold PeatMesh.handle_key_exchange, try_bind, mbind, M_bind, lift.
  rewrite has_marker_cons by (do 2 (apply bytes_cons; [by_decide|]); done).
  cbn [obind fst snd]. change (KEY_EXCHANGE_MARKER =? KEY_EXCHANGE_MARKER) with true. cbn [negb].
  rewrite payload_slice. cbn [obind fst snd].
  rewrite (wire_roundtrip msg Hwf). cbn [opt obind fst snd].
  unfold on_sessions, on. rewrite Hs. cbn [obind fst snd]. by rewrite Hh.
Qed.
Lemma hears_message s n now mgr mgr' msg p :
  peer_sessions s = Some mgr → PeerEncryptedMessage.wf msg →
  decrypt_from_peer mgr msg now = (mgr', Okay p) →
  Transport.receive lc clock (Transport.FromNode n
    ([PEER_E2EE_MARKER] ++ [0] ++ PeerEncryptedMessage.encode msg) now) s
  = Ok (notified (set_peer_sessions s (Some mgr'))
          [PeatEvent.PeerE2eeMessageReceived (PeerEncryptedMessage.sender_node_id msg) p], None).
Proof.
  intros Hs Hwf Hh. pose proof (wire_bytes msg Hwf) as Hb.
  unfold Transport.receive, on_ble_data_received_from_node, mbind, M_bind, lift. cbn [app].
  rewrite marked_kind; [|by_decide|done].
  change (PEER_E2EE_MARKER =? KEY_EXCHANGE_MARKER) with false.
  change (PEER_E2EE_MARKER =? PEER_E2EE_MARKER) with true. cbn [obind fst snd].
  unfold handle_peer_e2ee_message, try_bind, mbind, M_bind, lift.
  rewrite has_marker_cons by (do 2 (apply bytes_cons; [by_decide|]); done).
  cbn [obind fst snd]. change (PEER_E2EE_MARKER =? PEER_E2EE_MARKER) with true. cbn [negb].
  rewrite payload_slice. cbn [obind fst snd].
  rewrite (wire_roundtrip msg Hwf). cbn [opt obind fst snd].
  unfold on_sessions, on. rewrite Hs. cbn [obind fst snd]. by rewrite Hh.
Qed.
Lemma initiates s mgr peer now :
  peer_sessions s = Some mgr →
  initiate_peer_e2ee peer now s
  = Ok (set_peer_sessions s (Some (initiate_session mgr peer now).1),
        Some (key_exchange_bytes (initiate_session mgr peer now).2)).
Proof.
  intros Hs. unfold initiate_peer_e2ee, on_sessions, on. rewrite Hs. cbn [obind].
  by destruct (initiate_session mgr peer now).
Qed.

Lemma sends s mgr mgr' n nonce p now msg :
  peer_sessions s = Some mgr → encrypt_for_peer mgr n nonce p now = (mgr', Okay msg) →
  send_peer_e2ee nonce n p now s
  = Ok (set_peer_sessions s (Some mgr'),
        Some ([PEER_E2EE_MARKER] ++ [0] ++ PeerEncryptedMessage.encode msg)).
Proof.
  intros Hs He. unfold send_peer_e2ee, on_sessions, on. rewrite Hs. cbn [obind]. by rewrite He.
Qed.

(** One line of a conversation. *)
Lemma line_runs n a b ma mb nonce p now :
  0 ≤ n → linked (n + 1) ma mb → peer_sessions a = Some ma → peer_sessions b = Some mb →
  block 12 nonce → bytes_ok p →
  ∃ ma' mb' a' data b',
    send_peer_e2ee nonce (our_node_id mb) p now a = Ok (a', Some data)
    ∧ Transport.receive lc clock (Transport.FromNode (our_node_id ma) data now) b = Ok (b', None)
    ∧ peer_sessions a' = Some ma' ∧ peer_sessions b' = Some mb' ∧ linked n ma' mb'
    ∧ our_node_id ma' = our_node_id ma ∧ our_node_id mb' = our_node_id mb
    ∧ observers a' = observers a
    ∧ observers b' = ObserverManager.notify (observers b)
                       (PeatEvent.PeerE2eeMessageReceived (our_node_id ma) p).
Proof.
  intros Hn Hl Ha Hb Hnonce Hp.
  destruct (tell_steps n ma mb nonce p now) as (ma' & mb' & msg & He & Hwf & Hs & Hd & Hl' & Hia & Hib);
    [done..|].
  eexists ma', mb', _, _, _. split_and!; [by eapply sends|by eapply hears_message|..]; try done.
  by rewrite <-Hs.
Qed.

Lemma talk_runs now lines : ∀ a b ma mb,
  peer_sessions a = Some ma → peer_sessions b = Some mb → linked (zlen lines) ma mb →
  Forall (λ l, block 12 l.1.2 ∧ bytes_ok l.2) lines →
  ∃ a' b', E2ee.talk lc clock (our_node_id ma) (our_node_id mb) now a b lines = Ok (a', b')
    ∧ observers a' = ObserverManager.notify_all (observers a) (spoken false (our_node_id mb) lines)
    ∧ observers b' = ObserverManager.notify_all (observers b) (spoken true (our_node_id ma) lines).
Proof.
  induction lines as [|[[dir nonce] p] lines IH]; intros a b ma mb Ha Hb Hl Hlines.
  { by exists a, b. }
  apply Forall_cons in Hlines as [[Hnonce Hp] Hlines]. cbn [fst snd] in Hnonce, Hp.
  assert (linked (zlen lines + 1) ma mb) as Hl1 
    by (replace (zlen lines + 1) with (zlen ((dir, nonce, p) :: lines)) by len; done).
  assert (0 ≤ zlen lines) as Hn by len.
  destruct dir; cbn [E2ee.talk];
    [destruct (line_runs (zlen lines) a b ma mb nonce p now)
       as (ma' & mb' & a' & data & b' & Hsend & Hhear & Ha' & Hb' & Hl' & Hia & Hib & Hoa & Hob)
    |destruct (line_runs (zlen lines) b a mb ma nonce p now)
       as (mb' & ma' & b' & data & a' & Hsend & Hhear & Hb' & Ha' & Hl' & Hib & Hia & Hob & Hoa)];
    try done; try by apply linked_sym.
  all: rewrite Hsend; cbn [obind fst snd of_option]; rewrite Hhear; cbn [obind fst snd].
  all: destruct (IH a' b' ma' mb') as (a2 & b2 & Ht & Hoa2 & Hob2);
    try done; try by apply linked_sym.
  all: rewrite Hia, Hib in *; exists a2, b2; split; [done|].
  all: rewrite Hoa2, Hob2, Hoa, Hob; unfold spoken; by rewrite !filter_cons.
Qed.

Lemma one_side_asks a b ma mb now :
  peer_sessions a = Some ma → peer_sessions b = Some mb →
  fresh ma (our_node_id mb) → fresh mb (our_node_id ma) →
  ∃ a1 hello b1, initiate_peer_e2ee (our_node_id mb) now a = Ok (a1, Some hello)
    ∧ Transport.receive lc clock (Transport.FromNode (our_node_id ma) hello now) b = Ok (b1, None)
    ∧ has_peer_e2ee_session b1 (our_node_id ma) = true
    ∧ has_peer_e2ee_session a1 (our_node_id mb) = false
    ∧ ∀ nonce p now', send_peer_e2ee nonce (our_node_id mb) p now' a1 = Ok (a1, None).
Proof.
  intros Ha Hb Hma (Hbn & Hbr & _).
  pose proof (proj1 (hello_wf ma (our_node_id mb) now Hma)) as Hwf. destruct Hma as (Han & Har & Hat & _).
  destruct (initiate_keeps ma (our_node_id mb) now Hat Han Har) as (Hs & Hid & Hkey & Hmsg).
  rewrite (initiates a ma _ _ Ha). destruct (initiate_session ma _ _) as [ma1 hello].
  cbn [fst snd] in *. subst hello. eexists _, _, _. split; [done|]. split.
  { eapply hears_key_exchange; [done|done|].
    unfold handle_key_exchange. cbn [KeyExchangeMessage.sender_node_id KeyExchangeMessage.new].
      rewrite Hbn, (proj2 (Z.leb_gt _ _)) by lia. reflexivity. }
  unfold has_peer_e2ee_session, has_session. cbn. rewrite lookup_insert_eq, Hs. split_and!; try done.
  intros nonce p now'. unfold send_peer_e2ee, on_sessions, on, encrypt_for_peer. cbn. by rewrite Hs.
Qed.
Lemma both_sides_meet a b ma mb now :
  peer_sessions a = Some ma → peer_sessions b = Some mb →
  fresh ma (our_node_id mb) → fresh mb (our_node_id ma) →
  ∃ a1 b1 ma1 mb1, meet lc clock (our_node_id ma) (our_node_id mb) now a b = Ok (a1, b1)
    ∧ peer_sessions a1 = Some ma1 ∧ peer_sessions b1 = Some mb1
    ∧ our_node_id ma1 = our_node_id ma ∧ our_node_id mb1 = our_node_id mb
    ∧ ∀ n, n < 2 ^ 64 → linked n ma1 mb1.
Proof.
  intros Ha Hb Hma Hmb. unfold meet. rewrite (initiates a ma _ _ Ha), (initiates b mb _ _ Hb).
  pose proof (fun n Hn => mutual_links ma mb now n Hn Hma Hmb) as Hlink.
  pose proof (hello_wf ma _ now Hma) as Hwa. pose proof (hello_wf mb _ now Hmb) as Hwb.
  destruct (initiate_session ma _ _) as [ma1 hello_a] eqn:Hia,
    (initiate_session mb _ _) as [mb1 hello_b] eqn:Hib.
  destruct (Hlink 0) as (ma2 & mb2 & [ra ea] & [rb eb] & Hra & Hrb & Hea & Heb & _ & Hida & Hidb); [done|].
  cbn [snd] in *. subst ea eb. destruct Hwa as [Hwa Hsa], Hwb as [Hwb Hsb].
  cbn [obind fst snd of_option].
  rewrite (hears_key_exchange _ _ now ma1 ma2 hello_b ra) by done. cbn [obind fst snd].
  rewrite (hears_key_exchange _ _ now mb1 mb2 hello_a rb) by done. cbn [obind fst snd].
  eexists _, _, ma2, mb2. split; [done|]. split_and!; try done.
  intros n Hn. destruct (Hlink n Hn) as (? & ? & ? & ? & E1 & E2 & _ & _ & Hl & _).
  rewrite Hra in E1. rewrite Hrb in E2. injection E1 as <- _. injection E2 as <- _. exact Hl.
Qed.

End e2ee.
End E2eeProofs.

Module E2eeProperties.
Import PeerSessionManager SessionProofs E2ee E2eeProofs.

End E2eeProperties.

(** ** Restart *)

Module RestartProperties.

(** C17: a node that saves its state to secure storage and is started again
    from it is the node that [from_genesis] builds, with the identities it had
    learnt: the same key pair and node identifier, the same mesh and the key of
    its mesh.  What else it was told is lost: strict mode and relaying are off,
    and the revoked keys, though loaded, play no part.  Saved without a
    genesis, it is in the mesh RESTORED and sends in clear. *)
Theorem restart_keeps_membership `{CryptoLaws} `{AppTypes} `{!MapOrder Z} {S : Type}
    `{!SecureStorage S, !StorageLaws S} (storage storage' : S) (s : PeatMesh.t) id genesis ps revoked
    at_ms callsign
    (Hid : identity s = Some id) (Hkey : block 32 (DeviceIdentity.signing_key id))
    (Hgenesis : ∀ g, genesis = Some g → MeshGenesis.wf g)
    (Htyped : IdentityRegistry.typed (identity_registry s))
    (Hsize : Z.of_nat (size (IdentityRegistry.known (identity_registry s))) < 2 ^ 25)
    (Hrevoked : Forall (block 32) revoked) (Hlen : zlen revoked < 2 ^ 32) (Hat : in_u 64 at_ms)
    (Hps : to_persisted_state s genesis = Some ps)
    (Hsave : PersistedState.save (PersistedState.set_persisted_at
               (foldl PersistedState.add_revoked_key ps revoked) at_ms) storage
             = (storage', Okay tt)) :
  ∃ state s', PersistedState.load storage' = Ok (Okay state)
    ∧ (∀ k, k ∈ PersistedState.revoked_keys state ↔ k ∈ revoked)
    ∧ from_persisted state callsign = Ok (Okay s')
    ∧ identity s' = Some id ∧ node_id s' = DeviceIdentity.node_id id
    ∧ IdentityRegistry.known (identity_registry s') = IdentityRegistry.known (identity_registry s)
    ∧ is_strict_encryption_enabled s' = false ∧ is_relay_enabled s' = false
    ∧ match genesis with
      | Some g => mesh_id s' = MeshGenesis.mesh_id g
          ∧ encryption_key s' = encryption_key (from_genesis g id callsign)
          ∧ encryption_key s' = Some (MeshEncryptionKey.from_shared_secret (MeshGenesis.mesh_id g)
                                        (MeshGenesis.encryption_secret g))
      | None => mesh_id s' = str "RESTORED"%string ∧ ∀ nonce p, encrypt_document s' nonce p = p
      end.
Proof.
  unfold to_persisted_state in Hps. rewrite Hid in Hps. injection Hps as <-.
  destruct (PersistenceProofs.state_survives_restart storage storage' id genesis (identity_registry s)
    revoked at_ms) as (state & Hload & Hi & Hg & Hr & Hk & _); [done..|].
  exists state. eexists. split; [done|]. split; [done|]. unfold from_persisted.
  rewrite Hi, Hg. cbn [obind]. rewrite Hr. split; [done|]. by destruct genesis.
Qed.
End RestartProperties.

(** ** The periodic synchronisation *)

(** The schedule of [tick] in unbounded time: when the synchronisation was
    last due, when stale peers were last removed, and the peers. *)
Module Schedule.

Record t := mk { sync : Z; cleanup : Z; peers : PeerManager.t }.

Definition clean (every : Z) (s : t) (now : Z) : t :=
  if every <=? now - cleanup s then mk (sync s) now (PeerManager.cleanup_stale (peers s) now).1
  else s.
Definition step (interval every : Z) (s : t) (now : Z) : t * bool :=
  let s := clean every s now in
  if interval <=? now - sync s then (mk now (cleanup s) (peers s), 0 <? PeerManager.connected_count (peers s))
  else (s, false).
Fixpoint run (interval every : Z) (s : t) (times : list Z) : t * list bool :=
  match times with
  | [] => (s, [])
  | now :: times =>
      let '(s, b) := step interval every s now in
      let '(s, bs) := run interval every s times in
      (s, b :: bs)
  end.
(** The times at which the synchronisation is due. *)
Fixpoint due (interval last : Z) (times : list Z) : list Z :=
  match times with
  | [] => []
  | now :: times =>
      if interval <=? now - last then now :: due interval now times else due interval last times
  end.
(** Each time follows the one before within [gap]. *)
Fixpoint paced (gap last : Z) (times : list Z) : Prop :=
  match times with
  | [] => True
  | now :: times => last ≤ now ≤ last + gap ∧ paced gap now times
  end.
(** The distances between the members of a list that starts at [last]. *)
Fixpoint apart (low high last : Z) (times : list Z) : Prop :=
  match times with
  | [] => True
  | now :: times => low ≤ now - last ≤ high ∧ apart low high now times
  end.

Section ticks.
Context `{Crypto} `{AppTypes} `{!MapOrder Z} `{!MapOrder (Z * Z * Z)} (lc : bool).
Fixpoint ticks (nonce : list Z) (times : list Z) : M (list (option (list Z))) :=
  match times with
  | [] => mret []
  | now :: times => r ← tick lc nonce now; rs ← ticks nonce times; mret (r :: rs)
  end.
End ticks.
End Schedule.

Module ScheduleProofs.
Import Schedule TransportProofs NodeProofs.

Lemma due_apart interval gap times : ∀ last prev,
  0 ≤ interval → prev - last < interval ∨ prev = last → paced gap prev times →
  apart interval (interval + gap) last (due interval last times).
Proof.
  induction times as [|now times IH]; intros last prev Hi Hp Hpaced; [done|].
  destruct Hpaced as [Hn Hpaced]. cbn [due].
  destruct (Z.leb_spec interval (now - last)).
  - cbn [apart]. split; [lia|]. apply (IH now now); [done|lia|done].
  - apply (IH last now); [done|lia|done].
Qed.
Lemma due_then_apart interval gap times : ∀ last prev d later,
  0 ≤ interval → paced gap prev times → due interval last times = d :: later →
  apart interval (interval + gap) d later.
Proof.
  induction times as [|now times IH]; intros last prev d later Hi Hpaced; [done|].
  destruct Hpaced as [Hn Hpaced]. cbn [due]. destruct (Z.leb_spec interval (now - last)).
  - intros [= <- <-]. apply (due_apart _ _ _ _ now); [done|by right|done].
  - by apply (IH last now).
Qed.
Lemma due_recently interval gap times : ∀ last prev now,
  0 < interval → last ≤ prev → paced gap prev times → now ∈ times →
  ∃ d, d ∈ last :: due interval last times ∧ d ≤ now < d + interval.
Proof.
  induction times as [|t times IH]; intros last prev now Hi Hl Hpaced Hin; [by apply elem_of_nil in Hin|].
  destruct Hpaced as [Ht Hpaced]. cbn [due]. destruct (Z.leb_spec interval (t - last)); apply elem_of_cons in Hin as [->|Hin].
  - exists t. split; [set_solver|lia].
  - destruct (IH t t now) as (d & Hd & ?); [done..|]. exists d. split; [set_solver|done].
  - exists last. split; [set_solver|lia].
  - by apply (IH last t now); [|lia|..].
Qed.

Lemma step_recent interval every a now :
  sync a ≤ now → cleanup a ≤ now →
  let a' := (step interval every a now).1 in
  sync a' ≤ now ∧ cleanup a' ≤ now ∧ (now - sync a' < interval ∨ now = sync a')
  ∧ (now - cleanup a' < every ∨ now = cleanup a').
Proof.
  intros Hs Hc. unfold step, clean. destruct (Z.leb_spec every (now - cleanup a)); cbn [sync];
    destruct (Z.leb_spec interval (now - sync a)); cbn; lia.
Qed.

Section ticks.
Context `{CryptoLaws} `{AppTypes} `{!MapOrder Z} `{!MapOrder (Z * Z * Z)} (lc : bool).
Implicit Types s : PeatMesh.t.

(** The node keeps the schedule's times modulo 2^32. *)
Definition follows (a : Schedule.t) s : Prop :=
  last_sync_ms s = wrap 32 (sync a) ∧ last_cleanup_ms s = wrap 32 (cleanup a)
  ∧ peer_manager s = peers a.

Lemma elapsed_exact last now : 0 ≤ now - last < 2 ^ 32 →
  wrapping_sub_u32 (wrap 32 now) (wrap 32 last) = now - last.
Proof.
  intros Hn. unfold wrapping_sub_u32, wrap. rewrite <-Zminus_mod. by apply Z.mod_small.
Qed.

Lemma tick_cleanup_follows O a s now :
  follows a s → 0 ≤ now - cleanup a < 2 ^ 32 →
  mwp O (tick_cleanup now) s (λ s' _, follows (clean (wrap 32 (PeerManagerConfig.cleanup_interval_ms
    (PeatMeshConfig.peer_config (config s)))) a now) s').
Proof.
  intros (Hs & Hc & Hp) Hn. unfold tick_cleanup. mstep. mstep. unfold id at 1 2. rewrite Hc, elapsed_exact by done.
  unfold clean. destruct (_ <=? _); [|by mstep].
  mstep. mstep. mstep. mstep. mstep. mstep. mstep.
  match goal with |- mwp _ _ ?s0 _ =>
    assert (follows (mk (sync a) now (PeerManager.cleanup_stale (peers a) now).1) s0) as Hf
      by (split_and!; cbn; [done|done|by rewrite Hp]); generalize dependent s0 end.
  intros s1 Hf. apply mwp_mono with (λ s' _, follows (mk (sync a) now (PeerManager.cleanup_stale (peers a) now).1) s').
  { apply mwp_if; intros _; by mstep. }
  intros s2 _ Hf2. mstep. mstep. destruct (ConnectionStateGraph.tick _ _) as [g lost].
  destruct (ConnectionStateGraph.cleanup_lost _ _ _) as [g' gone]. by mstep.
Qed.

Lemma sync_due_follows a s now interval :
  follows a s → 0 ≤ now - sync a < 2 ^ 32 →
  interval = wrap 32 (PeatMeshConfig.sync_interval_ms (config s)) →
  ∃ s', sync_due now s = Ok (s', interval <=? now - sync a)
    ∧ follows (if interval <=? now - sync a then mk now (cleanup a) (peers a) else a) s'
    ∧ setup s' = setup s ∧ document_sync s' = document_sync s.
Proof.
  intros (Hs & Hc & Hp) Hn ->. unfold sync_due, gets, mbind, M_bind. cbn [obind fst snd]. unfold id.
  rewrite Hs, elapsed_exact by done. destruct (_ <=? _); eexists; (split; [reflexivity|done]).
Qed.

Definition interval_of s : Z := wrap 32 (PeatMeshConfig.sync_interval_ms (config s)).
Definition every_of s : Z :=
  wrap 32 (PeerManagerConfig.cleanup_interval_ms (PeatMeshConfig.peer_config (config s))).

Lemma tick_follows a s now nonce n :
  books_ok n s → 0 ≤ n → n + 2 < 2 ^ 32 → follows a s →
  0 ≤ now - sync a < 2 ^ 32 → 0 ≤ now - cleanup a < 2 ^ 32 →
  let r := Schedule.step (interval_of s) (every_of s) a now in
  ∃ s', tick lc nonce now s = Ok (s', if r.2 then Some (build_document lc s nonce) else None)
    ∧ follows r.1 s' ∧ kept (n + 2) s s'.
Proof.
  intros Hb Hn0 Hn Hf Hsync Hclean. cbv zeta.
  pose proof (mwp_tick_cleanup False n s now Hb Hn0 Hn) as Hk.
  pose proof (tick_cleanup_follows False a s now Hf Hclean) as Hf1.
  unfold tick, mwp, mbind, M_bind in *. destruct (tick_cleanup now s) as [[s1 []]| |]; [|done..].
  cbn [obind fst snd]. destruct Hk as (Hb1 & Hs1 & Hd1).
  assert (config s1 = config s ∧ encryption_key s1 = encryption_key s) as [Hcfg Hkey]
    by (by injection Hs1).
  unfold Schedule.step. fold (every_of s) in Hf1. set (a1 := clean _ a now) in *.
  assert (sync a1 = sync a) as Ha1 by (unfold a1, clean; by destruct (_ <=? _)).
  destruct (sync_due_follows a1 s1 now (interval_of s)) as (s2 & Hdue & Hf2 & Hs2 & Hd2);
    [done|by rewrite Ha1|by unfold interval_of; rewrite Hcfg|].
  pose proof (mwp_sync_due False (n + 2) s s1 now) as Hk2. unfold mwp in Hk2. rewrite Hdue in Hk2 |- *.
  cbn [obind fst snd gets]. unfold id, gets. cbn [obind fst snd].
  assert (build_document lc s2 nonce = build_document lc s nonce) as Hbuild
    by (injection Hs2 as _ Hkey2; unfold build_document, encrypt_document;
        by rewrite Hkey2, Hkey, Hd2, Hd1).
  destruct Hf2 as (? & ? & Hp2). rewrite Hp2, Hbuild.
  eexists. split; [|split; [|apply Hk2; done]]; destruct (_ <=? now - _); by cbn.
Qed.

Lemma ticks_cons nonce now times :
  ticks lc nonce (now :: times)
  = (r ← tick lc nonce now; rs ← ticks lc nonce times; mret (r :: rs)).
Proof. done. Qed.
Lemma schedule_cons interval every a now times :
  Schedule.run interval every a (now :: times)
  = let '(a, b) := Schedule.step interval every a now in
    let '(a, bs) := Schedule.run interval every a times in (a, b :: bs).
Proof. done. Qed.
(** A run is a first tick, then the rest of the run. *)
Lemma ticks_follow nonce interval every gap times : ∀ a s n now,
  books_ok n s → 0 ≤ n → n + 2 * zlen (now :: times) < 2 ^ 32 → follows a s →
  interval_of s = interval → every_of s = every → interval + gap ≤ 2 ^ 32 → every + gap ≤ 2 ^ 32 →
  gap < 2 ^ 32 → 0 ≤ now - sync a < 2 ^ 32 → 0 ≤ now - cleanup a < 2 ^ 32 → paced gap now times →
  let r := Schedule.run interval every a (now :: times) in
  ∃ s', Schedule.ticks lc nonce (now :: times) s
        = Ok (s', map (λ b : bool, if b then Some (build_document lc s nonce) else None) r.2)
    ∧ follows r.1 s' ∧ kept (n + 2 * zlen (now :: times)) s s'.
Proof.
  induction times as [|next times IH]; intros a s n now Hb Hn0 Hn Hf Hi He Hig Heg Hg Hs Hc Hpaced;
    cbv zeta.
  all: destruct (tick_follows a s now nonce n) as (s1 & Ht & Hf1 & Hk1); [done|done|len|done|lia|lia|].
  all: pose proof (step_recent interval every a now ltac:(lia) ltac:(lia)) as (Hs1 & Hc1 & Hrs & Hrc).
  all: rewrite Hi, He in Ht, Hf1; rewrite ticks_cons, schedule_cons; unfold mbind, M_bind; rewrite Ht;
    cbn [obind fst snd].
  all: destruct (Schedule.step interval every a now) as [a1 b]; cbn [fst snd] in *.
  { exists s1. split_and!; [done|done|]. exact Hk1. }
  destruct Hk1 as (Hb1 & Hset & Hd1), Hpaced as [Hnext Hpaced].
  assert (config s1 = config s ∧ encryption_key s1 = encryption_key s) as [Hcfg Hkey]
    by (by injection Hset).
  destruct (IH a1 s1 (n + 2) next) as (s2 & Hts & Hf2 & Hb2 & Hset2 & Hd2);
    try done; try lia; try len; try (unfold interval_of, every_of in *; by rewrite Hcfg).
  rewrite Hts. cbn [obind fst snd]. exists s2.
  assert (build_document lc s1 nonce = build_document lc s nonce) as ->
    by (unfold build_document, encrypt_document; by rewrite Hkey, Hd1).
  destruct (Schedule.run interval every a1 _) as [a2 bs].
  split; [done|split; [done|split; [|split; congruence]]].
  eapply books_ok_mono; [|exact Hb2]. len.
Qed.

End ticks.
End ScheduleProofs.

Module ScheduleProperties.
Import Schedule TransportProofs NodeProofs ScheduleProofs.

(** C16: as long as the application ticks a node within [gap] milliseconds,
    and a period and [gap] together stay within 32 bits, the 32-bit times of
    the node are as good as unbounded ones: [tick] removes stale peers and
    broadcasts the document exactly when the unbounded schedule says so.
    Synchronisations are then due at least a period and at most a period and
    [gap] apart, and at every tick one was due less than a period ago. *)
Theorem tick_follows_schedule `{CryptoLaws} `{AppTypes} `{!MapOrder Z} `{!MapOrder (Z * Z * Z)}
    (lc : bool) (s : PeatMesh.t) (a : Schedule.t) nonce gap n first rest
    (Hbooks : books_ok n s) (Hn : 0 ≤ n) (Hroom : n + 2 * zlen (first :: rest) < 2 ^ 32)
    (Hfollows : follows a s) (Hpositive : 0 < interval_of s)
    (Hinterval : interval_of s + gap ≤ 2 ^ 32) (Hevery : every_of s + gap ≤ 2 ^ 32)
    (Hgap : gap < 2 ^ 32) (Hsync : 0 ≤ first - sync a < 2 ^ 32)
    (Hcleanup : 0 ≤ first - cleanup a < 2 ^ 32) (Hpaced : paced gap first rest) :
  let r := Schedule.run (interval_of s) (every_of s) a (first :: rest) in
  (∃ s', ticks lc nonce (first :: rest) s
         = Ok (s', map (λ b : bool, if b then Some (build_document lc s nonce) else None) r.2)
     ∧ peer_manager s' = peers r.1 ∧ document_sync s' = document_sync s)
  ∧ let times := Schedule.due (interval_of s) (sync a) (first :: rest) in
    (∀ d later, times = d :: later →
       apart (interval_of s) (interval_of s + gap) d later)
    ∧ ∀ now, now ∈ first :: rest → ∃ d, d ∈ sync a :: times ∧ d ≤ now < d + interval_of s.
Proof.
  split.
  - destruct (ticks_follow lc nonce (interval_of s) (every_of s) gap rest a s n first)
      as (s' & Ht & (_ & _ & Hp) & _ & _ & Hd); [done..|].
    by exists s'.
  - cbv zeta. split.
    + intros d later Hdue. cbn [Schedule.due] in Hdue.
      destruct (Z.leb_spec (interval_of s) (first - sync a));
        [|by apply (due_then_apart _ _ rest (sync a) first); [lia|..]].
      injection Hdue as <- <-. apply (due_apart _ _ _ _ first); [lia|by right|done].
    + intros now Hin. apply (due_recently (interval_of s) (2 ^ 32) (first :: rest) (sync a) (sync a));
        [done|done| |done].
      split; [lia|]. revert Hpaced. generalize first. clear -Hgap.
      induction rest as [|t rest IH]; intros now; [done|]. intros [? ?]. split; [lia|auto].
Qed.
End ScheduleProperties.

(** ** The services at work *)

Module ServiceExamples.
Import TransportProofs TransportProperties Schedule ScheduleProofs.
#[local] Existing Instance RegistryProperties.demo_apps.

#[local] Existing Instance triple_order.
#[local] Existing Instances MemoryStorage.memory_storage PersistenceProofs.memory_laws.

Definition talker (n : Z) : PeatMesh.t :=
  set_peer_sessions (demo n) (Some (SessionProperties.sample_node n)).
Definition chat_lines : list (bool * list Z * list Z) :=
  [(true, demo_nonce, [1; 2; 3]); (false, demo_nonce, []); (true, demo_nonce, [255])].
Lemma sample_fresh i j : i ∈ [1; 2] → SessionProofs.fresh (SessionProperties.sample_node i) j.
Proof.
  rewrite !elem_of_cons, elem_of_nil. intros Hi.
  destruct Hi as [->|[->|[]]]; (split_and!; [apply lookup_empty|by vm_compute..|]).
  - exists (replicate 32 1). split; [split; by_decide|done].
  - exists (replicate 32 2). split; [split; by_decide|done].
Qed.


Definition veteran : PeatMesh.t :=
  set_identity_registry
    (from_genesis IdentityProperties.demo_genesis IdentityProperties.demo_identity (str "A"%string))
    (IdentityRegistry.pre_register IdentityRegistry.new 7 (replicate 32 7) 5).
Lemma restart_keeps_membership_witness :
  let id := IdentityProperties.demo_identity in
  let g := IdentityProperties.demo_genesis in
  ∃ ps storage' state s', to_persisted_state veteran (Some g) = Some ps
    ∧ PersistedState.save (PersistedState.set_persisted_at
        (PersistedState.add_revoked_key ps (replicate 32 9)) 77) MemoryStorage.new = (storage', Okay tt)
    ∧ PersistedState.load storage' = Ok (Okay state)
    ∧ from_persisted state (str "A"%string) = Ok (Okay s')
    ∧ node_id s' = DeviceIdentity.node_id id
    ∧ IdentityRegistry.known (identity_registry s') = IdentityRegistry.known (identity_registry veteran)
    ∧ encryption_key s' = encryption_key veteran.
Proof.
  intros id g. eexists _, _.
  destruct (RestartProperties.restart_keeps_membership MemoryStorage.new
    (PersistedState.save (PersistedState.set_persisted_at (PersistedState.add_revoked_key
       (PersistedState.with_registry id (Some g) (identity_registry veteran)) (replicate 32 9)) 77)
       MemoryStorage.new).1
    veteran id (Some g)
    (PersistedState.with_registry id (Some g) (identity_registry veteran)) [replicate 32 9] 77
    (str "A"%string)) as (state & s' & Hl & _ & Hf & _ & Hn & Hk & _ & _ & _ & He & _).
  - reflexivity.
  - split; by_decide.
  - intros g' [= <-]. split_and!; by_decide.
  - by_decide.
  - by vm_compute.
  - repeat constructor; by_decide.
  - by vm_compute.
  - by vm_compute.
  - reflexivity.
  - reflexivity.
  - exists state, s'. split; [reflexivity|]. split; [reflexivity|]. split; [exact Hl|].
    split; [exact Hf|]. split; [exact Hn|]. split; [exact Hk|]. rewrite He. reflexivity.
Defined.

(** A node that has accepted the connection of node 2 at time 1000. *)
Definition host : PeatMesh.t :=
  set_peer_manager (demo 1)
    (PeerManager.on_incoming_connection (peer_manager (demo 1)) (str "x"%string) 2 1000).1.
Lemma tick_follows_schedule_witness :
  let doc := Some (build_document true host demo_nonce) in
  (∃ s', ticks true demo_nonce [1000; 4000; 6000; 9000; 11500] host
         = Ok (s', [None; None; doc; None; doc]) ∧ document_sync s' = document_sync host)
  ∧ Schedule.due 5000 0 [1000; 4000; 6000; 9000; 11500] = [6000; 11500].
Proof.
  intros doc.
  destruct (ScheduleProperties.tick_follows_schedule true host
    (Schedule.mk 0 0 (peer_manager host)) demo_nonce 3000 0 1000 [4000; 6000; 9000; 11500])
    as [(s' & Ht & _ & Hd) _].
  - exact (demo_books 1).
  - lia.
  - by vm_compute.
  - by split_and!.
  - by vm_compute.
  - by vm_compute.
  - by vm_compute.
  - lia.
  - cbn; lia.
  - cbn; lia.
  - cbn; lia.
  - split; [|reflexivity]. exists s'. split; [|exact Hd]. exact Ht.
Defined.

(** After a silence of 2^32 milliseconds the 32-bit time stands where it
    stood: a synchronisation that is long overdue is not due. *)
Example silence_of_49_days_is_not_noticed :
  (∃ s', ticks true demo_nonce [6000] host = Ok (s', [Some (build_document true host demo_nonce)]))
  ∧ ∃ s', ticks true demo_nonce [6000; 6000 + 2 ^ 32] host
          = Ok (s', [Some (build_document true host demo_nonce); None]).
Proof. split; eexists; vm_compute; reflexivity. Qed.

(** What the peers hold of a node that is connected to them, and sends to them
    until the last moment, is removed once the time of its last advertisement
    is too old; nothing then tells the node that its link still stands. *)
Example connected_peer_is_forgotten :
  let heard :=
    (r ← Transport.receive true (λ i, i)
           (Transport.FromNode 2 (build_document true (demo 2) demo_nonce) 46500);
     answer ← tick true demo_nonce 46501; mret (r, answer)) in
  match heard host with
  | Ok (s', (Some _, None)) => connected_count host = 1 ∧ connected_count s' = 0 ∧ get_peers s' = []
  | _ => False
  end.
Proof. vm_compute. split_and!; reflexivity. Qed.

(** What [send_chat] returns was encrypted by [build_document] and is
    encrypted again; a node that receives it finds a message that is marked as
    encrypted where it looks for a document. *)
Example chat_is_encrypted_twice :
  match send_chat true demo_nonce demo_nonce (str "A"%string) (str "HELLO"%string) 1750000000000
          (demo 1) with
  | Ok (s', Some data) =>
      data = encrypt_document s' demo_nonce (build_document true s' demo_nonce)
      ∧ match Transport.receive true (λ i, i) (Transport.FromNode 1 data 10) (demo 2) with
        | Ok (b, None) => all_chat_messages b = []
        | _ => False
        end
      ∧ match Transport.receive true (λ i, i)
                (Transport.FromNode 1 (build_document true s' demo_nonce) 10) (demo 2) with
        | Ok (b, Some _) => length (all_chat_messages b) = 1%nat
        | _ => False
        end
  | _ => False
  end.
Proof. vm_compute. split_and!; reflexivity. Qed.

(** The payload of an application that an unconnected radio delivers is handed
    to the caller decrypted, in the field for bytes to be relayed. *)
Example application_payload_is_relay_data :
  let secret := [APP_LAYER_MARKER; 1; 2; 3; 9; 0; 0; 0; 42] in
  match Transport.receive true (λ i, i)
          (Transport.Anonymous (str "x"%string) (encrypt_document (demo 1) demo_nonce secret) 10) (demo 2) with
  | Ok (_, Some r) =>
      DataReceivedResult.relay_data r = Some secret ∧ DataReceivedResult.source_node r = 9
  | _ => False
  end.
Proof. vm_compute. split; reflexivity. Qed.
End ServiceExamples.
