(* ===== verification/Ble.v ===== *)
(** * The crate root: the errors of src/src/error.rs and the node identifiers
    of src/src/lib.rs with their texts. *)

From Stdlib Require Import String.
From stdpp Require Import base numbers list sets.
From S2P Require Import Prelude.
Open Scope Z_scope.
Open Scope peat_scope.

(** [Uuid::to_string] of the uuid crate. *)
Class UuidText := uuid_text : list Z → list Z.

(** [str::contains] *)
Fixpoint contains (s pattern : list Z) : bool :=
  bool_decide (is_Some (strip_prefix pattern s))
  || match s with [] => false | _ :: s => contains s pattern end.

(** Messages are the bytes of the string. *)
Module BleError.
Inductive t :=
| AdapterNotAvailable | NotPowered | PermissionDenied (msg : list Z) | NotSupported (msg : list Z)
| ConnectionFailed (msg : list Z) | ConnectionLost (msg : list Z) | DiscoveryFailed (msg : list Z)
| GattError (msg : list Z) | CharacteristicNotFound (msg : list Z) | ServiceNotFound (msg : list Z)
| MtuNegotiationFailed (requested actual : Z) | SecurityError (msg : list Z)
| PairingFailed (msg : list Z) | SyncError (msg : list Z) | PlatformError (msg : list Z) | Timeout
| InvalidConfig (msg : list Z) | InvalidState (msg : list Z) | ResourceExhausted (msg : list Z)
| Io (msg : list Z).
#[global] Instance ble_error_eq_dec : EqDecision t.
Proof. solve_decision. Defined.

(** The decimal digits of a 16-bit number. *)
Fixpoint digits (fuel : nat) (n : Z) (rest : list Z) : list Z :=
  match fuel with
  | O => rest
  | S fuel =>
      let rest := 48 + n mod 10 :: rest in
      if n <? 10 then rest else digits fuel (n / 10) rest
  end.
Definition decimal (n : Z) : list Z := digits 5 n [].
(** [Display], in the std build. *)
Definition display (self : t) : list Z :=
  match self with
  | AdapterNotAvailable => str "Bluetooth adapter not available"%string
  | NotPowered => str "Bluetooth is powered off"%string
  | PermissionDenied msg => str "Bluetooth permissions not granted: "%string ++ msg
  | NotSupported msg => str "Feature not supported: "%string ++ msg
  | ConnectionFailed msg => str "Connection failed: "%string ++ msg
  | ConnectionLost msg => str "Connection lost: "%string ++ msg
  | DiscoveryFailed msg => str "Discovery failed: "%string ++ msg
  | GattError msg => str "GATT error: "%string ++ msg
  | CharacteristicNotFound msg => str "Characteristic not found: "%string ++ msg
  | ServiceNotFound msg => str "Service not found: "%string ++ msg
  | MtuNegotiationFailed requested actual =>
      str "MTU negotiation failed: requested "%string ++ decimal requested ++ str ", got "%string
      ++ decimal actual
  | SecurityError msg => str "Security error: "%string ++ msg
  | PairingFailed msg => str "Pairing failed: "%string ++ msg
  | SyncError msg => str "Sync error: "%string ++ msg
  | PlatformError msg => str "Platform error: "%string ++ msg
  | Timeout => str "Operation timed out"%string
  | InvalidConfig msg => str "Invalid configuration: "%string ++ msg
  | InvalidState msg => str "Invalid state: "%string ++ msg
  | ResourceExhausted msg => str "Resource exhausted: "%string ++ msg
  | Io msg => str "I/O error: "%string ++ msg
  end.
End BleError.

(** A node identifier is its number. *)
Module NodeId.

(** [s.trim_start_matches("xy")], for two ASCII characters. *)
Fixpoint trim_start (x y : Z) (s : list Z) : list Z :=
  match s with
  | a :: (b :: rest) as s' => if (a =? x) && (b =? y) then trim_start x y rest else a :: s'
  | _ => s
  end.
(** [s.split(c)], for an ASCII character: never empty. *)
Fixpoint split (c : Z) (s : list Z) : list (list Z) :=
  match s with
  | [] => [[]]
  | a :: s =>
      if a =? c then [] :: split c s
      else match split c s with part :: parts => (a :: part) :: parts | [] => [[a]] end
  end.

Definition parse (s : list Z) : option Z :=
  from_hex 32 (trim_start 48 88 (trim_start 48 120 s)).
Definition from_mac_address (mac : list Z) : outcome Z :=
  let! b2 := u8_at mac 2 in
  let! b3 := u8_at mac 3 in
  let! b4 := u8_at mac 4 in
  let! b5 := u8_at mac 5 in
  Ok (Z.lor (Z.lor (Z.lor (Z.shiftl b2 24) (Z.shiftl b3 16)) (Z.shiftl b4 8)) b5).
Definition from_mac_string (mac_str : list Z) : outcome Z :=
  let parts := split 58 mac_str in
  if negb (zlen parts =? 6) then Fail
  else
    let! mac := of_option (mapM (from_hex 8) parts) in
    from_mac_address mac.
(** [Display]. *)
Definition display (self : Z) : list Z := hex8 self.

(** [{:02X}] of a byte, and the text of an address. *)
Definition hex2 (b : Z) : list Z := [hex_digit (b / 16); hex_digit (b mod 16)].
Fixpoint mac_text (mac : list Z) : list Z :=
  match mac with
  | [] => []
  | [b] => hex2 b
  | b :: mac => hex2 b ++ 58 :: mac_text mac
  end.

End NodeId.

(** * Theorems *)

Module NodeIdProofs.
Import NodeId.

Lemma trim_start_none x y s : (∀ a b rest, s = a :: b :: rest → a = x → b ≠ y) → trim_start x y s = s.
Proof.
  destruct s as [|a [|b rest]]; [done..|]. intros H. cbn [trim_start].
  destruct (Z.eqb_spec a x) as [->|]; [|done]. destruct (Z.eqb_spec b y) as [->|]; [|done].
  by destruct (H x y rest).
Qed.
Lemma hex8_shape n : ∃ a b rest, hex8 n = hex_digit a :: hex_digit b :: rest ∧ 0 ≤ b < 16.
Proof.
  unfold hex8. cbn [map]. eexists _, _, _. split; [done|]. by apply Z.mod_pos_bound.
Qed.
Lemma hex_digit_below b : 0 ≤ b < 16 → hex_digit b < 71.
Proof. unfold hex_digit. destruct (Z.ltb_spec b 10); lia. Qed.
Lemma trim_hex8 y n : 71 ≤ y → trim_start 48 y (hex8 n) = hex8 n.
Proof.
  intros Hy. apply trim_start_none. intros a b rest E _ ->.
  destruct (hex8_shape n) as (a' & b' & rest' & E' & Hb%hex_digit_below).
  rewrite E' in E. injection E as _ E _. lia.
Qed.

Lemma split_part c p s : c ∉ p → split c (p ++ c :: s) = p :: split c s.
Proof.
  induction p as [|a p IH]; intros Hp; cbn [app split]; [by rewrite Z.eqb_refl|].
  rewrite (proj2 (Z.eqb_neq a c)) by set_solver. by rewrite IH by set_solver.
Qed.
Lemma split_last c p : c ∉ p → split c p = [p].
Proof.
  induction p as [|a p IH]; intros Hp; [done|]. cbn [split].
  rewrite (proj2 (Z.eqb_neq a c)) by set_solver. by rewrite IH by set_solver.
Qed.
Lemma hex2_no_colon b : byte_ok b → 58 ∉ hex2 b.
Proof.
  intros Hb. assert (∀ d, 0 ≤ d < 16 → hex_digit d ≠ 58) as Hd
    by (intros d ?; unfold hex_digit; destruct (Z.ltb_spec d 10); lia).
  unfold hex2. rewrite !elem_of_cons, elem_of_nil.
  intros [E|[E|[]]]; symmetry in E; revert E; apply Hd;
    [|by apply Z.mod_pos_bound]. split; [apply Z.div_pos; lia|apply Z.div_lt_upper_bound; lia].
Qed.
Lemma from_hex_hex2 b : byte_ok b → from_hex 8 (hex2 b) = Some b.
Proof.
  intros Hb. unfold hex2.
  assert (0 ≤ b / 16 < 16) as Hd by (split; [apply Z.div_pos; lia|apply Z.div_lt_upper_bound; lia]).
  pose proof (Z.mod_pos_bound b 16 ltac:(lia)) as Hm. pose proof (Z.div_mod b 16 ltac:(lia)) as Hdm.
  rewrite from_hex_digits by done.
  rewrite (hex_digits_cons _ _ _ _ (b / 16)), (hex_digits_cons _ _ _ _ b); try done; try lia.
Qed.
Lemma split_mac_text mac : bytes_ok mac → mac ≠ [] → split 58 (mac_text mac) = map hex2 mac.
Proof.
  induction mac as [|b [|b' mac] IH]; intros Hb Hne; [done|..].
  - apply Forall_cons in Hb as [Hb _]. cbn [mac_text map]. by apply split_last, hex2_no_colon.
  - apply Forall_cons in Hb as [Hb Hmac].
    change (mac_text (b :: b' :: mac)) with (hex2 b ++ 58 :: mac_text (b' :: mac)).
    rewrite split_part by (by apply hex2_no_colon). by rewrite IH.
Qed.

(** A node is read back from its text, and from that with a prefix; an address
    is read from its text as from its bytes, and its last four bytes are the
    identifier, big-endian. *)
Theorem node_id_texts n mac :
  in_u 32 n → bytes_ok mac → zlen mac = 6 → drop 2 mac = be32 n →
  parse (display n) = Some n ∧ parse (48 :: 120 :: display n) = Some n
  ∧ from_mac_string (mac_text mac) = from_mac_address mac
  ∧ from_mac_address mac = Ok n.
Proof.
  intros Hn Hb Hl Hmac. unfold parse, display. split_and!.
  - rewrite !trim_hex8 by lia. by apply from_hex_hex8.
  - change (trim_start 48 120 (48 :: 120 :: hex8 n)) with (trim_start 48 120 (hex8 n)).
    rewrite !trim_hex8 by lia. by apply from_hex_hex8.
  - unfold from_mac_string. rewrite split_mac_text by (done || by intros ->).
    assert (zlen (map hex2 mac) = 6) as -> by (by rewrite length_map). cbn [negb].
    assert (mapM (from_hex 8) (map hex2 mac) = Some mac) as ->; [|done].
    apply mapM_Some. rewrite Forall2_fmap_l. apply Forall_Forall2_diag.
    eapply Forall_impl; [exact Hb|]. intros b. apply from_hex_hex2.
  - change (from_mac_address mac) with (be32_at mac 2).
    assert (zlen (take 2 mac) = 2) as Ht by (rewrite length_take; lia).
    rewrite <-(take_drop 2 mac), Hmac, be32_at_skip by lia. rewrite Ht. by apply be32_end.
Qed.
End NodeIdProofs.
