(* ===== verification/Bindings.v ===== *)
(** * The foreign-function surface of src/src/uniffi_bindings.rs: the enums and
    records that cross it, and the objects [PeatMesh], [DeviceIdentity],
    [MeshGenesis] and [IdentityAttestation] behind it.

    A module has the name of the type of uniffi_bindings.rs it models; the type
    of the crate it converts is named with its file.  An object is the value it
    holds: its methods take [&self] and forward to [PeatMesh], so those that
    change the mesh are steps of the monad of that file.  The lines for
    Android only set up its logger. *)

From Stdlib Require Import String.
From stdpp Require Import base numbers list gmap.
From S2P Require Import Prelude Sensor Crypto Ble Identity Trust PeerGraph Observer Registry PeatMesh.
Import DocumentType (AppTypes).
Import PeatMesh (M, M_ret, M_bind, gets, modify, lift).
Open Scope Z_scope.
Open Scope peat_scope.

(** ** Enums *)

Module PeripheralType.
Inductive t := Unknown | SoldierSensor | FixedSensor | Relay.
Definition of_internal (pt : Sensor.PeripheralType.t) : t :=
  match pt with
  | Sensor.PeripheralType.Unknown => Unknown
  | Sensor.PeripheralType.SoldierSensor => SoldierSensor
  | Sensor.PeripheralType.FixedSensor => FixedSensor
  | Sensor.PeripheralType.Relay => Relay
  end.
Definition to_internal (pt : t) : Sensor.PeripheralType.t :=
  match pt with
  | Unknown => Sensor.PeripheralType.Unknown
  | SoldierSensor => Sensor.PeripheralType.SoldierSensor
  | FixedSensor => Sensor.PeripheralType.FixedSensor
  | Relay => Sensor.PeripheralType.Relay
  end.
End PeripheralType.

Module EventType.
Inductive t := NoEvent | Ping | NeedAssist | Emergency | Moving | InPosition | Ack.
Definition of_internal (et : Sensor.EventType.t) : t :=
  match et with
  | Sensor.EventType.NoEvent => NoEvent
  | Sensor.EventType.Ping => Ping
  | Sensor.EventType.NeedAssist => NeedAssist
  | Sensor.EventType.Emergency => Emergency
  | Sensor.EventType.Moving => Moving
  | Sensor.EventType.InPosition => InPosition
  | Sensor.EventType.Ack => Ack
  end.
Definition to_internal (et : t) : Sensor.EventType.t :=
  match et with
  | NoEvent => Sensor.EventType.NoEvent
  | Ping => Sensor.EventType.Ping
  | NeedAssist => Sensor.EventType.NeedAssist
  | Emergency => Sensor.EventType.Emergency
  | Moving => Sensor.EventType.Moving
  | InPosition => Sensor.EventType.InPosition
  | Ack => Sensor.EventType.Ack
  end.
End EventType.

Definition event_type_from_u8 (value : Z) : option EventType.t :=
  if value =? 0 then Some EventType.NoEvent
  else if value =? 1 then Some EventType.Ping
  else if value =? 2 then Some EventType.NeedAssist
  else if value =? 3 then Some EventType.Emergency
  else if value =? 4 then Some EventType.Moving
  else if value =? 5 then Some EventType.InPosition
  else if value =? 6 then Some EventType.Ack
  else None.

(** The crate has two types of reasons, of the observers and of the platforms,
    with the same constructors: one type in [PeerGraph]. *)
Module DisconnectReason.
Inductive t := LocalRequest | RemoteRequest | Timeout_ | LinkLoss | ConnectionFailed | Unknown.
Definition to_observer (r : t) : PeerGraph.DisconnectReason.t :=
  match r with
  | LocalRequest => PeerGraph.DisconnectReason.LocalRequest
  | RemoteRequest => PeerGraph.DisconnectReason.RemoteRequest
  | Timeout_ => PeerGraph.DisconnectReason.Timeout_
  | LinkLoss => PeerGraph.DisconnectReason.LinkLoss
  | ConnectionFailed => PeerGraph.DisconnectReason.ConnectionFailed
  | Unknown => PeerGraph.DisconnectReason.Unknown
  end.
Definition of_observer (r : PeerGraph.DisconnectReason.t) : t :=
  match r with
  | PeerGraph.DisconnectReason.LocalRequest => LocalRequest
  | PeerGraph.DisconnectReason.RemoteRequest => RemoteRequest
  | PeerGraph.DisconnectReason.Timeout_ => Timeout_
  | PeerGraph.DisconnectReason.LinkLoss => LinkLoss
  | PeerGraph.DisconnectReason.ConnectionFailed => ConnectionFailed
  | PeerGraph.DisconnectReason.Unknown => Unknown
  end.
Definition of_platform (r : PeerGraph.DisconnectReason.t) : t :=
  match r with
  | PeerGraph.DisconnectReason.LocalRequest => LocalRequest
  | PeerGraph.DisconnectReason.RemoteRequest => RemoteRequest
  | PeerGraph.DisconnectReason.Timeout_ => Timeout_
  | PeerGraph.DisconnectReason.LinkLoss => LinkLoss
  | PeerGraph.DisconnectReason.ConnectionFailed => ConnectionFailed
  | PeerGraph.DisconnectReason.Unknown => Unknown
  end.
End DisconnectReason.

Module ConnectionState.
Inductive t := Discovered | Connecting | Connected | Degraded | Disconnecting | Disconnected | Lost.
Definition of_internal (s : PeerGraph.ConnectionState.t) : t :=
  match s with
  | PeerGraph.ConnectionState.Discovered => Discovered
  | PeerGraph.ConnectionState.Connecting => Connecting
  | PeerGraph.ConnectionState.Connected => Connected
  | PeerGraph.ConnectionState.Degraded => Degraded
  | PeerGraph.ConnectionState.Disconnecting => Disconnecting
  | PeerGraph.ConnectionState.Disconnected => Disconnected
  | PeerGraph.ConnectionState.Lost => Lost
  end.
Definition to_internal (s : t) : PeerGraph.ConnectionState.t :=
  match s with
  | Discovered => PeerGraph.ConnectionState.Discovered
  | Connecting => PeerGraph.ConnectionState.Connecting
  | Connected => PeerGraph.ConnectionState.Connected
  | Degraded => PeerGraph.ConnectionState.Degraded
  | Disconnecting => PeerGraph.ConnectionState.Disconnecting
  | Disconnected => PeerGraph.ConnectionState.Disconnected
  | Lost => PeerGraph.ConnectionState.Lost
  end.
End ConnectionState.

(** ** Records *)

(** [as u32] *)
Definition as_u32 (n : Z) : Z := wrap 32 n.

Module PeatPeer.
Record t := mk {
  node_id : Z; identifier : list Z; name : option (list Z); mesh_id : option (list Z);
  rssi : Z; is_connected : bool; last_seen_ms : Z
}.
Definition of_internal (p : PeerGraph.PeatPeer.t) : t :=
  mk (PeerGraph.PeatPeer.node_id p) (PeerGraph.PeatPeer.identifier p) (PeerGraph.PeatPeer.name p)
    (PeerGraph.PeatPeer.mesh_id p) (PeerGraph.PeatPeer.rssi p) (PeerGraph.PeatPeer.is_connected p)
    (PeerGraph.PeatPeer.last_seen_ms p).
End PeatPeer.

Module DataReceivedResult.
Record t := mk {
  source_node : Z; is_emergency : bool; is_ack : bool; counter_changed : bool;
  emergency_changed : bool; total_count : Z; event_timestamp : Z; relay_data : option (list Z);
  origin_node : option Z; hop_count : Z;
  callsign : option (list Z); battery_percent : option Z; heart_rate : option Z;
  event_type : option EventType.t; latitude : option Z; longitude : option Z; altitude : option Z
}.
Definition of_internal (r : PeatMesh.DataReceivedResult.t) : t :=
  let 'PeatMesh.DataReceivedResult.mk source_node is_emergency is_ack counter_changed
         emergency_changed total_count event_timestamp relay_data origin_node hop_count callsign
         battery_percent heart_rate event_type latitude longitude altitude := r in
  mk source_node is_emergency is_ack counter_changed emergency_changed total_count event_timestamp
    relay_data origin_node hop_count callsign battery_percent heart_rate
    (et ← event_type; event_type_from_u8 et) latitude longitude altitude.
End DataReceivedResult.

Module PeerConnectionState.
Record t := mk {
  node_id : Z; identifier : list Z; state : ConnectionState.t;
  discovered_at : Z; connected_at : option Z; disconnected_at : option Z;
  disconnect_reason : option DisconnectReason.t; last_rssi : option Z;
  connection_count : Z; documents_synced : Z; bytes_received : Z; bytes_sent : Z;
  last_seen_ms : Z; name : option (list Z); mesh_id : option (list Z)
}.
(** The graph keeps the reasons of platforms. *)
Definition of_internal (p : PeerGraph.PeerConnectionState.t) : t :=
  let 'PeerGraph.PeerConnectionState.mk node_id identifier state discovered_at connected_at
         disconnected_at disconnect_reason last_rssi connection_count documents_synced
         bytes_received bytes_sent last_seen_ms name mesh_id := p in
  mk node_id identifier (ConnectionState.of_internal state) discovered_at connected_at
    disconnected_at (DisconnectReason.of_platform <$> disconnect_reason) last_rssi connection_count
    documents_synced bytes_received bytes_sent last_seen_ms name mesh_id.
End PeerConnectionState.

Module StateCountSummary.
Record t := mk {
  discovered : Z; connecting : Z; connected : Z; degraded : Z; disconnecting : Z;
  disconnected : Z; lost : Z
}.
Definition of_internal (s : PeerGraph.StateCountSummary.t) : t :=
  let 'PeerGraph.StateCountSummary.mk discovered connecting connected degraded disconnecting
         disconnected lost := s in
  mk (as_u32 discovered) (as_u32 connecting) (as_u32 connected) (as_u32 degraded)
    (as_u32 disconnecting) (as_u32 disconnected) (as_u32 lost).
End StateCountSummary.

Module ViaPeerRoute.
Record t := mk { via_node_id : Z; hop_count : Z }.
End ViaPeerRoute.

Module IndirectPeer.
Record t := mk {
  node_id : Z; min_hops : Z; via_peers : list ViaPeerRoute.t; discovered_at : Z;
  last_seen_ms : Z; messages_received : Z; callsign : option (list Z)
}.
Definition of_internal `{!MapOrder Z} (p : PeerGraph.IndirectPeer.t) : t :=
  let 'PeerGraph.IndirectPeer.mk node_id min_hops via_peers discovered_at last_seen_ms
         messages_received callsign := p in
  mk node_id min_hops (map (λ '(via, hops), ViaPeerRoute.mk via hops) (map_iter via_peers))
    discovered_at last_seen_ms messages_received callsign.
End IndirectPeer.

Module FullStateCountSummary.
Record t := mk { direct : StateCountSummary.t; one_hop : Z; two_hop : Z; three_hop : Z }.
Definition of_internal (s : PeerGraph.FullStateCountSummary.t) : t :=
  mk (StateCountSummary.of_internal (PeerGraph.FullStateCountSummary.direct s))
    (as_u32 (PeerGraph.FullStateCountSummary.one_hop s))
    (as_u32 (PeerGraph.FullStateCountSummary.two_hop s))
    (as_u32 (PeerGraph.FullStateCountSummary.three_hop s)).
End FullStateCountSummary.

(** ** The object [PeatMesh] *)

Module MeshObject.

Section mesh.
Context `{Crypto} `{AppTypes} `{!MapOrder Z} `{!MapOrder (Z * Z * Z)} (legacy_chat : bool).

Definition new (node_id : Z) (callsign mesh_id : list Z) : PeatMesh.t :=
  PeatMesh.new (PeatMeshConfig.new node_id callsign mesh_id).
Definition new_with_peripheral (node_id : Z) (callsign mesh_id : list Z)
    (peripheral_type : PeripheralType.t) : PeatMesh.t :=
  PeatMesh.new (PeatMeshConfig.with_peripheral_type (PeatMeshConfig.new node_id callsign mesh_id)
                  (PeripheralType.to_internal peripheral_type)).
Definition new_from_genesis (callsign : list Z) (identity : DeviceIdentity.t)
    (genesis : MeshGenesis.t) : PeatMesh.t :=
  PeatMesh.from_genesis genesis identity callsign.

(** *** Transport, emergency and acknowledgement *)

Definition decrypt_only (data : list Z) : M (option (list Z)) := PeatMesh.decrypt_only data.
Definition build_document (self : PeatMesh.t) (nonce : list Z) : list Z :=
  PeatMesh.build_document legacy_chat self nonce.
Definition tick (nonce : list Z) (now_ms : Z) : M (option (list Z)) :=
  PeatMesh.tick legacy_chat nonce now_ms.
Definition build_delta_document_for_peer (nonce : list Z) (peer_id now_ms : Z)
    : M (option (list Z)) :=
  PeatMesh.build_delta_document_for_peer nonce peer_id now_ms.
Definition build_full_delta_document (self : PeatMesh.t) (nonce : list Z) (now_ms : Z)
    : outcome (list Z) :=
  PeatMesh.build_full_delta_document self nonce now_ms.
Definition send_emergency (nonce : list Z) (timestamp_ms : Z) : M (list Z) :=
  PeatMesh.send_emergency legacy_chat nonce timestamp_ms.
Definition send_ack (nonce : list Z) (timestamp_ms : Z) : M (list Z) :=
  PeatMesh.send_ack legacy_chat nonce timestamp_ms.
Definition is_emergency_active (self : PeatMesh.t) : bool := PeatMesh.is_emergency_active self.
Definition is_ack_active (self : PeatMesh.t) : bool := PeatMesh.is_ack_active self.
Definition broadcast_bytes (self : PeatMesh.t) (nonce payload : list Z) : list Z :=
  PeatMesh.broadcast_bytes self nonce payload.

(** *** Bluetooth callbacks *)

Definition on_ble_discovered (identifier : list Z) (name : option (list Z)) (rssi : Z)
    (mesh_id : option (list Z)) (now_ms : Z) : M (option PeatPeer.t) :=
  p ← PeatMesh.on_ble_discovered identifier name rssi mesh_id now_ms;
  mret (PeatPeer.of_internal <$> p).
Definition on_ble_connected (identifier : list Z) (now_ms : Z) : M unit :=
  _node_id ← PeatMesh.on_ble_connected identifier now_ms; mret tt.
Definition on_incoming_connection (identifier : list Z) (node_id now_ms : Z) : M bool :=
  PeatMesh.on_incoming_connection identifier node_id now_ms.
Definition on_ble_disconnected (identifier : list Z) (reason : DisconnectReason.t) (wall_ms : Z)
    : M (option Z) :=
  PeatMesh.on_ble_disconnected identifier (DisconnectReason.to_observer reason) wall_ms.
Definition on_ble_data_received (clock : Z → Z) (identifier data : list Z) (now_ms : Z)
    : M (option DataReceivedResult.t) :=
  r ← PeatMesh.on_ble_data_received legacy_chat clock identifier data now_ms;
  mret (DataReceivedResult.of_internal <$> r).
Definition on_ble_data_received_anonymous (clock : Z → Z) (identifier data : list Z) (now_ms : Z)
    : M (option DataReceivedResult.t) :=
  r ← PeatMesh.on_ble_data_received_anonymous legacy_chat clock identifier data now_ms;
  mret (DataReceivedResult.of_internal <$> r).

(** *** Peers *)

Definition peer_count (self : PeatMesh.t) : Z := as_u32 (PeatMesh.peer_count self).
Definition connected_count (self : PeatMesh.t) : Z := as_u32 (PeatMesh.connected_count self).
Definition total_count (self : PeatMesh.t) : outcome Z :=
  let! n := PeatMesh.total_count self in Ok (as_u32 n).
Definition get_peer_callsign (self : PeatMesh.t) (node_id : Z) : option (list Z) :=
  PeatMesh.get_peer_callsign self node_id.
Definition get_connected_peers (self : PeatMesh.t) : list PeatPeer.t :=
  map PeatPeer.of_internal (PeatMesh.get_connected_peers self).
Definition degraded_peer_count (self : PeatMesh.t) : Z :=
  as_u32 (zlen (PeatMesh.get_degraded_peers self)).
Definition recently_disconnected_count (self : PeatMesh.t) (within_ms now_ms : Z) : Z :=
  as_u32 (zlen (PeatMesh.get_recently_disconnected self within_ms now_ms)).
Definition lost_peer_count (self : PeatMesh.t) : Z := as_u32 (zlen (PeatMesh.get_lost_peers self)).
Definition is_peer_known (self : PeatMesh.t) (node_id : Z) : bool :=
  PeatMesh.is_peer_known self node_id.
Definition matches_mesh (self : PeatMesh.t) (device_mesh_id : option (list Z)) : bool :=
  PeatMesh.matches_mesh self device_mesh_id.
Definition get_peer_connection_state (self : PeatMesh.t) (node_id : Z)
    : option PeerConnectionState.t :=
  PeerConnectionState.of_internal <$> PeatMesh.get_peer_connection_state self node_id.
Definition get_degraded_peers (self : PeatMesh.t) : list PeerConnectionState.t :=
  map PeerConnectionState.of_internal (PeatMesh.get_degraded_peers self).
Definition get_lost_peers (self : PeatMesh.t) : list PeerConnectionState.t :=
  map PeerConnectionState.of_internal (PeatMesh.get_lost_peers self).
Definition get_connection_state_counts (self : PeatMesh.t) : StateCountSummary.t :=
  StateCountSummary.of_internal (PeatMesh.get_connection_state_counts self).
Definition get_indirect_peers (self : PeatMesh.t) : list IndirectPeer.t :=
  map IndirectPeer.of_internal (PeatMesh.get_indirect_peers self).
Definition get_full_state_counts (self : PeatMesh.t) : FullStateCountSummary.t :=
  FullStateCountSummary.of_internal (PeatMesh.get_full_state_counts self).

(** *** Location and state *)

Definition update_location (latitude longitude : Z) (altitude : option Z) : M unit :=
  modify (λ self, PeatMesh.update_location self latitude longitude altitude).
Definition clear_location : M unit := modify PeatMesh.clear_location.
Definition update_callsign (callsign : list Z) : M unit :=
  modify (λ self, PeatMesh.update_callsign self callsign).
Definition update_heart_rate (bpm : Z) : M unit :=
  modify (λ self, PeatMesh.update_heart_rate self bpm).
Definition set_peripheral_event (event_type : EventType.t) (timestamp_ms : Z) : M unit :=
  modify (λ self, PeatMesh.set_peripheral_event self (EventType.to_internal event_type) timestamp_ms).
Definition clear_peripheral_event : M unit := modify PeatMesh.clear_peripheral_event.
Definition update_peripheral_state (callsign : list Z) (battery_percent : Z)
    (heart_rate latitude longitude altitude : option Z) (event_type : option EventType.t)
    (timestamp_ms : Z) : M unit :=
  modify (λ self, PeatMesh.update_peripheral_state self callsign battery_percent heart_rate
                    latitude longitude altitude (EventType.to_internal <$> event_type) timestamp_ms).

(** *** Identity *)

Definition has_identity (self : PeatMesh.t) : bool := PeatMesh.has_identity self.
Definition get_public_key (self : PeatMesh.t) : option (list Z) := PeatMesh.public_key self.
Definition create_attestation (self : PeatMesh.t) (timestamp_ms : Z) : option (list Z) :=
  IdentityAttestation.encode <$> PeatMesh.create_attestation self timestamp_ms.
Definition verify_peer_identity (attestation_bytes : list Z) : M bool :=
  decoded ← lift (opt (IdentityAttestation.decode attestation_bytes));
  match decoded with
  | Some attestation =>
      r ← PeatMesh.verify_peer_identity attestation;
      mret (match r with RegistryResult.Registered | RegistryResult.Verified => true | _ => false end)
  | None => mret false
  end.
Definition is_peer_identity_known (self : PeatMesh.t) (node_id : Z) : bool :=
  PeatMesh.is_peer_identity_known self node_id.
Definition known_identity_count (self : PeatMesh.t) : Z := as_u32 (PeatMesh.known_identity_count self).
Definition sign (self : PeatMesh.t) (message : list Z) : option (list Z) := PeatMesh.sign self message.
Definition verify_peer_signature (self : PeatMesh.t) (node_id : Z) (message signature : list Z) : bool :=
  if negb (zlen signature =? 64) then false
  else PeatMesh.verify_peer_signature self node_id message signature.

(** *** Encryption, relay, canned messages and application documents *)

Definition is_encryption_enabled (self : PeatMesh.t) : bool := PeatMesh.is_encryption_enabled self.
Definition is_relay_enabled (self : PeatMesh.t) : bool := PeatMesh.is_relay_enabled self.
Definition check_canned_message (self : PeatMesh.t) (source_node timestamp ttl_ms : Z) : bool :=
  PeatMesh.check_canned_message self source_node timestamp ttl_ms.
Definition mark_canned_message_seen (source_node timestamp wall_ms : Z) : M unit :=
  PeatMesh.mark_canned_message_seen source_node timestamp wall_ms.
Definition get_connected_peer_identifiers (self : PeatMesh.t) : list (list Z) :=
  PeatMesh.get_connected_peer_identifiers self.
Definition app_document_count (self : PeatMesh.t) : Z := as_u32 (PeatMesh.app_document_count self).

End mesh.
End MeshObject.

(** ** Identities *)

Module IdentityObject.
Section identity.
Context `{Crypto}.
(** [random]: the 32 bytes drawn for the key. *)
Definition generate (random : list Z) : DeviceIdentity.t := DeviceIdentity.generate random.
Definition get_public_key (self : DeviceIdentity.t) : list Z := DeviceIdentity.public_key self.
Definition get_private_key (self : DeviceIdentity.t) : list Z := DeviceIdentity.private_key_bytes self.
Definition get_node_id (self : DeviceIdentity.t) : Z := DeviceIdentity.node_id self.
Definition create_attestation (self : DeviceIdentity.t) (timestamp_ms : Z) : list Z :=
  IdentityAttestation.encode (DeviceIdentity.create_attestation self timestamp_ms).
Definition sign (self : DeviceIdentity.t) (message : list Z) : list Z :=
  DeviceIdentity.sign self message.
End identity.
End IdentityObject.

Module GenesisObject.
Section genesis.
Context `{Crypto}.
Definition create (mesh_name : list Z) (founder_identity : DeviceIdentity.t) (random : list Z)
    (now_ms : Z) : MeshGenesis.t :=
  MeshGenesis.create mesh_name founder_identity MembershipPolicy.Open random now_ms.
Definition get_mesh_id (self : MeshGenesis.t) : list Z := MeshGenesis.mesh_id self.
Definition get_encryption_secret (self : MeshGenesis.t) : list Z := MeshGenesis.encryption_secret self.
Definition encode (self : MeshGenesis.t) : list Z := MeshGenesis.encode self.
End genesis.
End GenesisObject.

Module AttestationObject.
Definition verify `{Crypto} (self : IdentityAttestation.t) : bool := IdentityAttestation.verify self.
Definition get_node_id (self : IdentityAttestation.t) : Z := IdentityAttestation.node_id self.
Definition get_public_key (self : IdentityAttestation.t) : list Z := IdentityAttestation.public_key self.
End AttestationObject.

(** ** Functions *)

Definition derive_node_id_from_mac (mac_address : list Z) : outcome Z :=
  let! n := opt (NodeId.from_mac_string mac_address) in Ok (default 0 n).
Definition create_peat_mesh_with_encryption `{Crypto} `{AppTypes} (node_id : Z)
    (callsign mesh_id encryption_secret : list Z) : option PeatMesh.t :=
  if negb (zlen encryption_secret =? 32) then None
  else
    let config := PeatMeshConfig.with_encryption (PeatMeshConfig.new node_id callsign mesh_id)
                    encryption_secret in
    Some (PeatMesh.new config).
(** [from_private_key] never fails. *)
Definition restore_device_identity (private_key : list Z) : outcome (option DeviceIdentity.t) :=
  if zlen private_key <? 32 then Ok None
  else
    let! key_bytes := slice private_key 0 32 in
    Ok (Some (DeviceIdentity.from_private_key key_bytes)).
Definition decode_mesh_genesis (encoded : list Z) : outcome (option MeshGenesis.t) :=
  opt (MeshGenesis.decode encoded).
Definition decode_identity_attestation (encoded : list Z) : outcome (option IdentityAttestation.t) :=
  opt (IdentityAttestation.decode encoded).
