(* ===== verification/ForeignApp.v ===== *)
(** * An application on the other side of the foreign-function surface: it
    creates a mesh object of [Bindings] and calls its methods in any order. *)

From Stdlib Require Import String.
From stdpp Require Import base numbers list gmap sets.
From S2P Require Import Prelude Crdt Sensor Delta DeltaDoc Document DocSync Chat Crypto Session.
From S2P Require Import Identity Trust PeerGraph PeerManager Config Gossip Relay Observer.
From S2P Require Import Registry Persistence PeatMesh MeshLogic MeshTransport MeshDelta MeshNode.
From S2P Require Bindings.
Import DocumentType (AppTypes, app_type, doc).
Import PeatMesh.
Open Scope Z_scope.
Open Scope peat_scope.

Module ForeignApp.
Import Bindings.

(** The methods of the mesh object that change it or can panic; the others
    only read it. *)
Inductive call :=
| DecryptOnly (data : list Z)
| BuildDocument (nonce : list Z)
| Tick (nonce : list Z) (now_ms : Z)
| BuildDelta (nonce : list Z) (peer_id now_ms : Z)
| BuildFullDelta (nonce : list Z) (now_ms : Z)
| SendEmergency (nonce : list Z) (timestamp_ms : Z)
| SendAck (nonce : list Z) (timestamp_ms : Z)
| OnDiscovered (identifier : list Z) (name : option (list Z)) (rssi : Z)
    (mesh_id : option (list Z)) (now_ms : Z)
| OnConnected (identifier : list Z) (now_ms : Z)
| OnIncoming (identifier : list Z) (node_id now_ms : Z)
| OnDisconnected (identifier : list Z) (reason : DisconnectReason.t) (wall_ms : Z)
| OnData (identifier data : list Z) (now_ms : Z)
| OnDataAnonymous (identifier data : list Z) (now_ms : Z)
| TotalCount
| UpdateLocation (latitude longitude : Z) (altitude : option Z)
| ClearLocation
| UpdateCallsign (callsign : list Z)
| UpdateHeartRate (bpm : Z)
| SetPeripheralEvent (event_type : EventType.t) (timestamp_ms : Z)
| ClearPeripheralEvent
| UpdatePeripheralState (callsign : list Z) (battery_percent : Z)
    (heart_rate latitude longitude altitude : option Z) (event_type : option EventType.t)
    (timestamp_ms : Z)
| VerifyPeerIdentity (attestation_bytes : list Z)
| MarkCannedMessageSeen (source_node timestamp wall_ms : Z).

(** What a call returns: [Document] is to be broadcast. *)
Inductive reply :=
| Nothing
| Bytes (data : option (list Z))
| Document (data : list Z)
| Flag (b : bool)
| Node (n : option Z)
| Peer (p : option PeatPeer.t)
| Received (r : option DataReceivedResult.t)
| Count (n : Z).

Section app.
Context `{Crypto} `{AppTypes} `{!MapOrder Z} `{!MapOrder (Z * Z * Z)} (lc : bool) (clock : Z → Z).

Definition replied {A} (f : A → reply) (m : M A) : M reply := a ← m; mret (f a).
Definition perform (c : call) : M reply :=
  match c with
  | DecryptOnly data => replied Bytes (MeshObject.decrypt_only data)
  | BuildDocument nonce => self ← gets id; mret (Document (MeshObject.build_document lc self nonce))
  | Tick nonce now =>
      replied (λ r, match r with Some data => Document data | None => Nothing end)
        (MeshObject.tick lc nonce now)
  | BuildDelta nonce peer now =>
      replied Bytes (MeshObject.build_delta_document_for_peer nonce peer now)
  | BuildFullDelta nonce now =>
      self ← gets id;
      replied (λ data, Bytes (Some data)) (lift (MeshObject.build_full_delta_document self nonce now))
  | SendEmergency nonce ts => replied Document (MeshObject.send_emergency lc nonce ts)
  | SendAck nonce ts => replied Document (MeshObject.send_ack lc nonce ts)
  | OnDiscovered identifier name rssi mesh_id now =>
      replied Peer (MeshObject.on_ble_discovered identifier name rssi mesh_id now)
  | OnConnected identifier now => replied (λ _, Nothing) (MeshObject.on_ble_connected identifier now)
  | OnIncoming identifier n now => replied Flag (MeshObject.on_incoming_connection identifier n now)
  | OnDisconnected identifier reason wall =>
      replied Node (MeshObject.on_ble_disconnected identifier reason wall)
  | OnData identifier data now =>
      replied Received (MeshObject.on_ble_data_received lc clock identifier data now)
  | OnDataAnonymous identifier data now =>
      replied Received (MeshObject.on_ble_data_received_anonymous lc clock identifier data now)
  | TotalCount => self ← gets id; replied Count (lift (MeshObject.total_count self))
  | UpdateLocation lat lon alt => replied (λ _, Nothing) (MeshObject.update_location lat lon alt)
  | ClearLocation => replied (λ _, Nothing) MeshObject.clear_location
  | UpdateCallsign cs => replied (λ _, Nothing) (MeshObject.update_callsign cs)
  | UpdateHeartRate bpm => replied (λ _, Nothing) (MeshObject.update_heart_rate bpm)
  | SetPeripheralEvent et ts => replied (λ _, Nothing) (MeshObject.set_peripheral_event et ts)
  | ClearPeripheralEvent => replied (λ _, Nothing) MeshObject.clear_peripheral_event
  | UpdatePeripheralState cs battery hr lat lon alt et ts =>
      replied (λ _, Nothing) (MeshObject.update_peripheral_state cs battery hr lat lon alt et ts)
  | VerifyPeerIdentity bytes => replied Flag (MeshObject.verify_peer_identity bytes)
  | MarkCannedMessageSeen source ts wall =>
      replied (λ _, Nothing) (MeshObject.mark_canned_message_seen source ts wall)
  end.
Fixpoint run (cs : list call) : M (list reply) :=
  match cs with
  | [] => mret []
  | c :: cs => r ← perform c; rs ← run cs; mret (r :: rs)
  end.

(** The four ways an application creates a mesh object. *)
Inductive created : PeatMesh.t → Prop :=
| Plain n callsign mesh_id : created (MeshObject.new n callsign mesh_id)
| WithPeripheral n callsign mesh_id type :
    created (MeshObject.new_with_peripheral n callsign mesh_id type)
| FromGenesis callsign identity genesis :
    created (MeshObject.new_from_genesis callsign identity genesis)
| Encrypted n callsign mesh_id secret s :
    create_peat_mesh_with_encryption n callsign mesh_id secret = Some s → created s.

(** What the application may pass, to a mesh object in the state [s0] when it
    was created: values in range, fresh nonces of the right size, and from the
    radio whatever opens, if to a document at all, to one of a member. *)
Definition call_ok (ids : gset Z) (k : Z) (s0 : PeatMesh.t) (c : call) : Prop :=
  match c with
  | DecryptOnly data | VerifyPeerIdentity data => bytes_ok data
  | BuildDocument nonce | Tick nonce _ => block 12 nonce
  | BuildDelta nonce _ now | BuildFullDelta nonce now => block 12 nonce ∧ in_u 64 now
  | SendEmergency nonce ts | SendAck nonce ts => block 12 nonce ∧ PeripheralEvent.timestamp_ok ts
  | OnData _ data _ | OnDataAnonymous _ data _ =>
      bytes_ok data ∧ ∀ p, TransportProofs.carries s0 data p →
        zlen p < 2 ^ 32 ∧ ∀ d, PeatDocument.decode lc p = Ok d → DocSyncProofs.doc_inv lc ids k d
  | UpdateLocation lat lon alt => Position.wf (Position.mk lat lon alt None)
  | UpdateCallsign cs => Mesh.callsign_in cs
  | UpdateHeartRate bpm => MIN_HEART_RATE ≤ bpm ≤ MAX_HEART_RATE
  | SetPeripheralEvent _ ts => PeripheralEvent.timestamp_ok ts
  | UpdatePeripheralState cs battery hr lat lon alt _ ts =>
      Mesh.callsign_in cs ∧ 0 ≤ battery ≤ MAX_BATTERY_PERCENT
      ∧ (∀ bpm, hr = Some bpm → MIN_HEART_RATE ≤ bpm ≤ MAX_HEART_RATE)
      ∧ (∀ x y, lat = Some x → lon = Some y → Position.wf (Position.mk x y alt None))
      ∧ PeripheralEvent.timestamp_ok ts
  | _ => True
  end.

End app.
End ForeignApp.

(** * Theorems *)

Module ForeignProofs.
Import Mesh TransportProofs NodeProofs DeltaSyncProofs ForeignApp.

Section app.
Context `{CryptoLaws} `{AppTypes} `{!MapOrder Z} `{!MapOrder (Z * Z * Z)} (lc : bool) (clock : Z → Z).
Context (ids : gset Z) (Hids : mesh_ok ids) (k : Z) (Hk : 0 ≤ k < 2 ^ 55).
Implicit Types s : PeatMesh.t.

(** What no foreign application can change about a mesh object. *)
Definition plainly s : Prop :=
  (∃ config identity, s = build config identity)
  ∧ is_strict_encryption_enabled s = false ∧ is_relay_enabled s = false
  ∧ document_registry s = DocumentRegistry.new
  ∧ PeatMeshConfig.relay_fanout (config s) = 2
  ∧ ∀ key, encryption_key s = Some key → block 32 (MeshEncryptionKey.key key).
Lemma created_plainly s : created s → plainly s.
Proof.
  destruct 1 as [n cs mid|n cs mid ty|cs i g|n cs mid secret s Hs].
  4: { revert Hs. unfold Bindings.create_peat_mesh_with_encryption.
    destruct (negb _); [done|]. intros [= <-].
    split; [by eexists _, _|]. split_and!; [done..|]. intros key [= <-]. apply hkdf_block. }
  all: split; [by eexists _, _|]; split_and!; try done.
  intros key [= <-]. apply hkdf_block.
Qed.

(** A mesh object after [n] calls. *)
Definition driven (s0 : PeatMesh.t) (n : Z) s : Prop :=
  books_ok (4 * n) s ∧ setup s = setup s0
  ∧ DocSyncProofs.node_inv lc ids (k + n) (node_id s0) (document_sync s).
(** A document to broadcast is one that the members of the mesh open and
    understand. *)
Definition reply_ok (s0 : PeatMesh.t) (n : Z) (r : reply) : Prop :=
  match r with
  | Document data =>
      bytes_ok data ∧ ∃ p d, opens_at s0 data p ∧ PeatDocument.decode lc p = Ok d
        ∧ PeatDocument.node_id d = node_id s0 ∧ DocSyncProofs.doc_inv lc ids n d
  | _ => True
  end.

Lemma driven_kept s0 n s s' : driven s0 n s → kept (4 * (n + 1)) s s' → driven s0 (n + 1) s'.
Proof.
  intros (_ & Hs & Hd) (Hb & Hs' & Hdoc). split_and!; [done|congruence|]. rewrite Hdoc.
  eapply (node_inv_mono lc ids); [|exact Hd]. lia.
Qed.
Lemma driven_same s0 n s s' :
  0 ≤ n → driven s0 n s → connection_graph s' = connection_graph s → seen_cache s' = seen_cache s →
  delta_encoder s' = delta_encoder s → setup s' = setup s → document_sync s' = document_sync s →
  driven s0 (n + 1) s'.
Proof.
  intros Hn Hd Hg Hc He Hs Hdoc. apply (driven_kept s0 n s); [done|]. split_and!; [|done..].
  assert (gossip_strategy s' = gossip_strategy s) as Hgs by (unfold setup in Hs; congruence).
  eapply (books_ok_mono (4 * n)); [lia|]. destruct Hd as (Hb & _ & _). unfold books_ok in *.
  by rewrite Hg, Hc, He, Hgs.
Qed.
Lemma driven_doc s0 n s d es :
  0 ≤ n → driven s0 n s →
  DocSyncProofs.node_inv lc ids (k + n + 1) (node_id s0) d →
  driven s0 (n + 1) (notified (set_document_sync s d) es).
Proof.
  intros Hn (Hb & Hs & _) Hd. split_and!; [|done|].
  - by apply (books_ok_mono (4 * n)); [lia|].
  - cbn. by replace (k + (n + 1)) with (k + n + 1) by lia.
Qed.
Lemma driven_member s0 n s :
  node_id s0 ∈ ids → driven s0 n s → node_id s = node_id s0.
Proof. intros _ (_ & Hs & _). unfold node_id. unfold setup in Hs. congruence. Qed.

(** What a call returns once encrypted. *)
Lemma document_reply s0 n s s' nonce :
  plainly s0 → 0 ≤ n → n < 2 ^ 29 → driven s0 n s → setup s' = setup s0 → block 12 nonce →
  reply_ok s0 (k + n) (Document (encrypt_document s' nonce
    (DocumentSync.build_document lc (document_sync s)))).
Proof.
  intros (_ & Hstrict & _ & _ & _ & Hkey) Hn0 Hn (Hb & Hs & Hd) Hs' Hnonce.
  pose proof (build_bytes lc ids (k + n) _ _ Hd) as Hbytes.
  destruct (DocSyncProofs.document_wf lc ids Hids (k + n) _ _ ltac:(lia) Hd) as (Hdec & Hdi & Hid).
  assert (encryption_key s' = encryption_key s0) as Hke by (unfold setup in Hs'; congruence).
  unfold reply_ok, opens_at, opens. destruct (encryption_key s0) as [key|] eqn:E.
  - destruct (encrypt_document_sealed s' key nonce _ Hke (Hkey _ eq_refl) Hnonce Hbytes) as [Hsl Hb'].
    split; [done|]. eexists _, _. split; [by left; eauto|]. done.
  - rewrite encrypt_document_plain by done. split; [done|]. eexists _, _. split; [by right|]. done.
Qed.

(** ** The methods *)

Lemma mwp_replied {A} O (f : A → reply) (m : M A) s (Q : PeatMesh.t → reply → Prop) :
  mwp O m s (λ s' a, Q s' (f a)) → mwp O (replied f m) s Q.
Proof. intros Hm. unfold replied. mstep. eapply mwp_mono; [exact Hm|]. intros s' a ?. by mstep. Qed.
(** What a callback does to the mesh does not depend on what its caller makes
    of the result. *)
Lemma mwp_result {A B} O (m : M A) s (f : A → B) (P : PeatMesh.t → Prop) :
  mwp O (a ← m; mret (f a)) s (λ s' _, P s') → mwp O m s (λ s' _, P s').
Proof. unfold mwp, mbind, M_bind. by destruct (m s) as [[s' a]| |]. Qed.
Lemma mwp_node_callback s0 n s {A} (m : M A) e :
  0 ≤ n → n < 2 ^ 28 → driven s0 n s →
  Node.step lc e = (_ ← m; mret []) →
  match e with Node.Act _ _ | Node.Tick _ _ | Node.TickPeers _ _ => False | _ => True end →
  mwp False m s (λ s' _, driven s0 (n + 1) s').
Proof.
  intros Hn0 Hn Hd He Hc. apply (mwp_result _ m s (λ _, [] : list (list Z))). rewrite <-He.
  eapply mwp_mono; [apply (mwp_callback _ lc (4 * n)); [apply Hd|lia|lia|done]|].
  intros s' out [Hkept _]. apply (driven_kept s0 n s); [done|].
  by replace (4 * (n + 1)) with (4 * n + 4) by lia.
Qed.
Lemma mwp_input s0 n s x :
  0 ≤ n → n < 2 ^ 28 → driven s0 n s →
  bytes_ok (Transport.bytes x) →
  (∀ p, carries s0 (Transport.bytes x) p → zlen p < 2 ^ 32
    ∧ ∀ d, PeatDocument.decode lc p = Ok d → DocSyncProofs.doc_inv lc ids k d) →
  mwp False (Transport.receive lc clock x) s (λ s' _, driven s0 (n + 1) s').
Proof.
  intros Hn0 Hn (Hb & Hs & Hd) Hx Hdocs.
  eapply mwp_mono.
  - apply (TransportProperties.receive_member lc clock ids (k + n) (node_id s0) (4 * n) s x Hids);
      try done; try lia.
    rewrite (TransportProperties.carries_setup s0 s) by done. intros p Hp.
    destruct (Hdocs p Hp) as [? Hdoc]. split; [done|]. intros d Hdec.
    eapply (doc_inv_mono lc ids k); [lia|]. by apply Hdoc.
  - intros s' r (Hd' & Hs' & Hb'). split_and!.
    + by replace (4 * (n + 1)) with (4 * n + 4) by lia.
    + congruence.
    + eapply (node_inv_mono lc ids); [|done]. lia.
Qed.
Lemma mwp_change s0 n s f g :
  0 ≤ n → driven s0 n s → (∀ self, f self = set_document_sync self (g (document_sync self))) →
  DocSyncProofs.node_inv lc ids (k + n + 1) (node_id s0) (g (document_sync s)) →
  mwp False (modify f) s (λ s' _, driven s0 (n + 1) s').
Proof.
  intros Hn Hd Hf Hg. mstep. rewrite Hf.
  pose proof (driven_doc s0 n s (g (document_sync s)) [] Hn Hd Hg) as Hr. by destruct s.
Qed.
(** An action of [Mesh], through the method of the facade that performs it. *)
Lemma mwp_action s0 n s f o :
  0 ≤ n → driven s0 n s → op_ok lc ids o →
  (∀ self, f self = set_document_sync self (Mesh.act lc (document_sync self) o)) →
  mwp False (modify f) s (λ s' _, driven s0 (n + 1) s').
Proof.
  intros Hn Hd Ho Hf. apply (mwp_change s0 n s f (λ d, Mesh.act lc d o)); [done..|].
  apply DocSyncProofs.act_inv; [done|lia|apply Hd|done].
Qed.

Lemma peripheral_state_inv n i self cs battery hr lat lon alt et ts :
  0 ≤ n → DocSyncProofs.node_inv lc ids n i self →
  callsign_in cs → 0 ≤ battery ≤ MAX_BATTERY_PERCENT →
  (∀ bpm, hr = Some bpm → MIN_HEART_RATE ≤ bpm ≤ MAX_HEART_RATE) →
  (∀ x y, lat = Some x → lon = Some y → Position.wf (Position.mk x y alt None)) →
  PeripheralEvent.timestamp_ok ts →
  DocSyncProofs.node_inv lc ids (n + 1) i
    (DocumentSync.update_peripheral_state self cs battery hr lat lon alt et ts).
Proof.
  intros Hn Hi Hcs Hb Hhr Hloc Hts. assert (Peripheral.wf (DocumentSync.peripheral self)) as Hp by apply Hi.
  apply DocSyncProofs.node_inv_weaken, DocSyncProofs.bump_inv, DocSyncProofs.set_peripheral_inv; [done|].
  assert (∀ p, Peripheral.wf p → Peripheral.wf (DocumentSync.set_timestamp p ts)) as Htime
    by (unfold Peripheral.wf; cbn; naive_solver).
  apply Htime. apply (DocSyncProofs.set_callsign_wf _ cs) in Hp; [|done].
  assert (Peripheral.wf (DocumentSync.set_battery
    (Peripheral.set_callsign (DocumentSync.peripheral self) cs) battery)) as Hp1.
  { apply DocSyncProofs.set_health_wf; [done|]. destruct Hp as (_ & _ & _ & _ & Hh & _).
    unfold HealthStatus.wf in *. cbn in *. naive_solver. }
  revert Hp1. generalize (DocumentSync.set_battery
    (Peripheral.set_callsign (DocumentSync.peripheral self) cs) battery). intros p Hp1.
  assert (Peripheral.wf (match hr with Some bpm => DocumentSync.set_heart_rate p bpm | None => p end)) as Hp2
    by (destruct hr; [apply DocSyncProofs.heart_rate_wf; auto|done]).
  revert Hp2. generalize (match hr with Some bpm => DocumentSync.set_heart_rate p bpm | None => p end).
  clear p Hp1. intros p Hp2.
  assert (Peripheral.wf (match lat, lon with
    | Some x, Some y => Peripheral.set_location p x y alt | _, _ => Peripheral.clear_location p end)) as Hp3.
  { destruct lat, lon; first [apply DocSyncProofs.set_location_wf; auto | by apply DocSyncProofs.clear_location_wf]. }
  destruct et; [by apply DocSyncProofs.set_event_wf|done].
Qed.

(** ** Deltas *)

Lemma op_wire_short op : Operation.wf op → zlen (DeltaDocProofs.op_wire op) < 2 ^ 17.
Proof.
  intros Hwf. unfold DeltaDocProofs.op_wire.
  destruct op as [c n am t|p t|src t known|n t|t|o]; cbn [Operation.wf Operation.encode] in *;
    unfold op_type.INCREMENT_COUNTER, op_type.UPDATE_PERIPHERAL, op_type.SET_EMERGENCY,
      op_type.ACK_EMERGENCY, op_type.CLEAR_EMERGENCY.
  - len.
  - pose proof (peripheral_short p (proj1 Hwf)) as Hp. revert Hp.
    generalize (Peripheral.encode p). intros pdata Hp. len.
  - destruct Hwf as (_ & _ & _ & Hl).
    assert (zlen (flat_map (le 4) known) = 4 * zlen known) as Hf.
    { clear. induction known as [|x known IH]; [done|]. cbn [flat_map]. len. }
    len.
  - len.
  - len.
  - rewrite (DeltaDocProofs.app_encode o Hwf). unfold DeltaDocProofs.app_wire.
    destruct Hwf as (_ & _ & _ & _ & _ & Hl). len.
Qed.
Lemma delta_wire_short s now ops :
  Forall Operation.wf ops → zlen ops < 2 ^ 14 → zlen (DeltaDocProofs.doc_wire (delta_of s now ops)) < 2 ^ 31.
Proof.
  intros Hops Hl. unfold DeltaDocProofs.doc_wire, DeltaDocProofs.doc_header, DeltaDocProofs.doc_clock.
  assert (zlen (flat_map DeltaDocProofs.op_wire ops) ≤ zlen ops * (2 ^ 17 - 1)).
  { clear Hl. induction Hops as [|op ops Hop _ IH]; [cbn; lia|]. cbn [flat_map].
    pose proof (op_wire_short op Hop). len. }
  cbn [delta_of DeltaDocument.operations DeltaDocument.vector_clock DeltaDocument.flags
    DeltaDocument.origin_node DeltaDocument.timestamp_ms].
  rewrite app_nil_l. len.
Qed.

Section delta.
Context (Hsize : (size ids < 256)%nat) (s0 : PeatMesh.t) (Hs0 : plainly s0) (n : Z) (s : PeatMesh.t).
Context (Hn0 : 0 ≤ n) (Hn : n < 2 ^ 26) (Hd : driven s0 n s).

Lemma no_app_operations : app_document_delta_ops s = [].
Proof.
  unfold app_document_delta_ops, AppDocuments.app_document_delta_ops.
  assert (document_registry s = DocumentRegistry.new) as ->.
  { destruct Hd as (_ & Hs & _), Hs0 as (_ & _ & _ & Hr & _). unfold setup in Hs. congruence. }
  induction (map_iter _) as [|e l IH]; [done|]. exact IH.
Qed.
Lemma delta_wf ct pt now ops :
  (∀ c, 0 ≤ c ≤ k + n → in_u 64 (ct c)) → in_u 64 pt → in_u 64 now →
  (∀ op, op ∈ ops → op ∈ all_operations s ct pt) → zlen ops ≤ zlen (all_operations s ct pt) →
  DeltaDocument.wf (delta_of s now ops) ∧ bytes_ok (DeltaDocProofs.doc_wire (delta_of s now ops))
  ∧ zlen (DeltaDocProofs.doc_wire (delta_of s now ops)) < 2 ^ 31.
Proof.
  intros Hct Hpt Hnow Hsub Hlen. destruct Hd as (_ & Hs & Hdoc).
  pose proof (own_operations_wf lc ids (k + n) _ s ct pt Hct Hpt Hids Hsize ltac:(lia) Hdoc) as Hwf.
  rewrite no_app_operations in Hwf. specialize (Hwf ltac:(by apply Forall_nil)).
  pose proof (own_operations_few lc ids (k + n) _ s ct pt Hids ltac:(lia) Hdoc) as Hfew.
  rewrite no_app_operations in Hfew. change (zlen []) with 0 in Hfew.
  assert (Forall Operation.wf ops) as Hops.
  { rewrite Forall_forall in *. intros op Hop. by apply Hwf, Hsub. }
  assert (in_u 32 (node_id s)) as Hu.
  { assert (node_id s = node_id s0) as -> by (unfold node_id; unfold setup in Hs; congruence).
    destruct Hdoc as (_ & Hin & _). by destruct (proj2 Hids _ Hin). }
  split; [|split].
  - unfold DeltaDocument.wf, delta_of. cbn [DeltaDocument.origin_node DeltaDocument.timestamp_ms
      DeltaDocument.flags DeltaDocument.vector_clock DeltaDocument.operations].
    split; [done|]. split; [done|]. split; [done|]. split; [done|]. split; [done|]. lia.
  - by apply delta_wire_bytes.
  - apply delta_wire_short; [done|lia].
Qed.
(** Marking what is sent keeps the statistics. *)
Lemma marked_encoder m e peer (ops : list Operation.t) :
  encoder_ok m e →
  ∃ e', (match DeltaEncoder.get_peer_state e peer with
         | Some st => Ok (DeltaEncoder.set_peers e
                            (<[peer := mark_operations_sent st ops]> (DeltaEncoder.peers e)))
         | None => Ok e
         end) = Ok e' ∧ encoder_ok m e'.
Proof.
  intros He. destruct (DeltaEncoder.get_peer_state e peer) as [st|] eqn:E; [|by eexists].
  eexists. split; [done|]. apply map_Forall_insert_2; [|done]. apply He in E.
  by destruct (mark_operations_stats st ops) as (-> & -> & ->).
Qed.
Lemma encrypted_short nonce p :
  encryption_key s = encryption_key s0 → block 12 nonce → bytes_ok p → zlen p < 2 ^ 31 →
  0 ≤ zlen (encrypt_document s nonce p) ≤ 2 ^ 32.
Proof.
  intros Hke Hnonce Hp Hl. unfold encrypt_document. rewrite Hke.
  destruct (encryption_key s0) as [key|] eqn:E; [|len].
  destruct Hs0 as (_ & _ & _ & _ & _ & Hkey).
  destruct (CryptoProofs.mesh_roundtrip key nonce p (Hkey _ E) Hnonce Hp) as (data & -> & _ & Hd' & _).
  unfold EncryptedDocument.OVERHEAD in Hd'. len.
Qed.

Lemma mwp_build_delta nonce peer now :
  block 12 nonce → in_u 64 now →
  mwp False (build_delta_document_for_peer nonce peer now) s (λ s' _, driven s0 (n + 1) s').
Proof.
  intros Hnonce Hnow. unfold build_delta_document_for_peer. mstep. mstep. unfold id.
  set (ops := match DeltaEncoder.get_peer_state _ _ with Some _ => _ | None => _ end).
  destruct (delta_wf (λ count, count) 1 now ops) as (Hwf & Hbytes & Hshort); [intros; lia|lia|done| | |].
  { intros op. unfold ops. destruct (DeltaEncoder.get_peer_state _ _); [|done].
    by intros [_ ?]%list_elem_of_filter. }
  { unfold ops. destruct (DeltaEncoder.get_peer_state _ _) as [st|]; [|done].
    pose proof (length_filter (λ op, PeerSyncState.needs_send st (Operation.key op)
      (Operation.timestamp op) = true) (all_operations s (λ count, count) 1)). lia. }
  clearbody ops. apply mwp_if; intros _; [mstep; by apply driven_same with s|].
  pose proof Hd as ((Hg & Hc & He & Hf) & Hs & Hdoc).
  assert (encryption_key s = encryption_key s0) as Hke by (unfold setup in Hs; congruence).
  pose proof (encrypted_short nonce _ Hke Hnonce Hbytes Hshort) as Hlen.
  destruct (marked_encoder _ _ peer ops He) as (e1 & Hmark & He1).
  mstep. mstep. rewrite Hmark. cbn [obind fst snd].
  rewrite add_operations. cbn [DeltaDocument.new DeltaDocument.origin_node
    DeltaDocument.timestamp_ms DeltaDocument.flags DeltaDocument.vector_clock DeltaDocument.operations app].
  change (DeltaDocument.mk _ _ _ _ _) with (delta_of s now ops).
  mstep. mstep. rewrite DeltaDocProofs.delta_doc_encode by done. mstep. unfold record_delta_sent. mstep.
  destruct (sent_ok (4 * n * 2 ^ 32) e1 peer (zlen (encrypt_document s nonce
    (DeltaDocProofs.doc_wire (delta_of s now ops)))) ltac:(lia) ltac:(lia) Hlen He1) as (e2 & Hrec & He2).
  cbn [set_delta_encoder delta_encoder]. rewrite Hrec. cbn [obind fst snd]. mstep.
  split_and!; [|done|eapply (node_inv_mono lc ids); [|exact Hdoc]; lia].
  destruct (books_ok_mono (4 * n) (4 * (n + 1)) s ltac:(lia) (proj1 Hd)) as (Hg' & Hc' & _ & Hf').
  refine (conj Hg' (conj Hc' (conj _ Hf'))). eapply encoder_ok_mono; [|exact He2]. lia.
Qed.

Lemma full_delta_ok nonce now :
  block 12 nonce → in_u 64 now → ∃ data, build_full_delta_document s nonce now = Ok data.
Proof.
  intros Hnonce Hnow. unfold build_full_delta_document.
  destruct (delta_wf (λ _, now) now now (all_operations s (λ _, now) now)) as (Hwf & _);
    [done..|]. rewrite add_operations. cbn [DeltaDocument.new DeltaDocument.origin_node
    DeltaDocument.timestamp_ms DeltaDocument.flags DeltaDocument.vector_clock DeltaDocument.operations app].
  change (DeltaDocument.mk _ _ _ _ _) with (delta_of s now (all_operations s (λ _, now) now)).
  rewrite DeltaDocProofs.delta_doc_encode by done. cbn [obind]. by eexists.
Qed.

End delta.

(** ** One call *)

Lemma mwp_tick s0 n s nonce now :
  plainly s0 → 0 ≤ n → n < 2 ^ 26 → driven s0 n s → block 12 nonce →
  mwp False (tick lc nonce now) s (λ s' r, driven s0 (n + 1) s'
    ∧ ∀ data, r = Some data → reply_ok s0 (k + (n + 1)) (Document data)).
Proof.
  intros Hp Hn0 Hn Hd Hnonce. unfold tick. mstep.
  eapply mwp_mono; [apply (mwp_tick_cleanup _ (4 * n)); [apply Hd|lia..]|].
  intros s1 ? Hkept. cbv beta in Hkept. mstep.
  apply (kept_mono _ (4 * (n + 1))) in Hkept; [|lia].
  eapply mwp_mono; [by apply mwp_sync_due|]. intros s2 due Hkept2. cbv beta in Hkept2.
  mstep. mstep. mstep. unfold id. apply (driven_kept s0 n s) in Hkept2; [|done]. split; [done|].
  intros data. destruct (_ && _); [|done]. intros [= <-].
  apply (document_reply s0 (n + 1) s2); [done|lia|lia|done|apply Hkept2|done].
Qed.
(** The two methods that raise an event of the own peripheral and broadcast. *)
Lemma mwp_send s0 n s nonce o f (m : M (list Z)) :
  plainly s0 → 0 ≤ n → n < 2 ^ 26 → driven s0 n s → block 12 nonce → op_ok lc ids o →
  f (document_sync s) = (Mesh.act lc (document_sync s) o,
    DocumentSync.build_document lc (Mesh.act lc (document_sync s) o)) →
  m = (data ← on_doc f; notify_mesh_state_changed;; self ← gets id;
       mret (encrypt_document self nonce data)) →
  mwp False m s (λ s' data, driven s0 (n + 1) s' ∧ reply_ok s0 (k + (n + 1)) (Document data)).
Proof.
  intros Hp Hn0 Hn Hd Hnonce Ho Hf ->. mstep. mstep. rewrite Hf. cbn [fst snd].
  set (d := Mesh.act lc (document_sync s) o).
  assert (DocSyncProofs.node_inv lc ids (k + n + 1) (node_id s0) d) as Hdoc
    by (apply DocSyncProofs.act_inv; [done|lia|apply Hd|done]).
  pose proof (λ es, driven_doc s0 n s d es Hn0 Hd Hdoc) as Hd'.
  mstep. mstep. mstep. mstep. mstep. unfold id. split; [apply (Hd' [_])|].
  apply (document_reply s0 (n + 1) (notified (set_document_sync s d) []));
    [done|lia|lia|apply Hd'|exact (proj1 (proj2 (Hd' [_])))|done].
Qed.

Section call.
Context (s0 : PeatMesh.t) (Hp : plainly s0) (Hsize : (size ids < 256)%nat) (n : Z) (s : PeatMesh.t).
Context (Hn0 : 0 ≤ n) (Hn : n < 2 ^ 26) (Hd : driven s0 n s).

Definition survives (m : M reply) : Prop :=
  mwp False m s (λ s' r, driven s0 (n + 1) s' ∧ reply_ok s0 (k + (n + 1)) r).
Lemma survives_quietly {A} (f : A → reply) (m : M A) :
  (∀ a, reply_ok s0 (k + (n + 1)) (f a)) →
  mwp False m s (λ s' _, driven s0 (n + 1) s') → survives (replied f m).
Proof.
  intros Hf Hm. apply mwp_replied. eapply mwp_mono; [exact Hm|]. intros s' a ?. by split.
Qed.
Lemma mwp_mapped {A B} (m : M A) (f : A → B) :
  mwp False m s (λ s' _, driven s0 (n + 1) s') →
  mwp False (a ← m; mret (f a)) s (λ s' _, driven s0 (n + 1) s').
Proof. intros Hm. mstep. eapply mwp_mono; [exact Hm|]. intros s' a ?. by mstep. Qed.
Lemma driven_next : driven s0 (n + 1) s.
Proof. by apply driven_same with s. Qed.

Lemma survives_total : survives (self ← gets id; replied Count (lift (Bindings.MeshObject.total_count self))).
Proof.
  unfold survives. do 2 mstep. apply survives_quietly; [done|]. mstep.
  unfold id, Bindings.MeshObject.total_count, PeatMesh.total_count.
  pose proof (TransportProperties.member_total lc ids (k + n) _ _ Hids ltac:(lia) ltac:(lia)
    (proj2 (proj2 Hd))) as Ht. pose proof (value_nofail (DocumentSync.counter (document_sync s))).
  unfold DocumentSync.total_count in *. pose proof driven_next. by destruct (GCounter.value _).
Qed.
Lemma mwp_verify bytes :
  bytes_ok bytes →
  mwp False (Bindings.MeshObject.verify_peer_identity bytes) s (λ s' _, driven s0 (n + 1) s').
Proof.
  intros Hb. unfold Bindings.MeshObject.verify_peer_identity. mstep.
  eapply mwp_lift_opt; [by apply (wire_safe (enc := IdentityAttestation.encode))| |mstep; apply driven_next].
  intros a _ _. mstep. unfold PeatMesh.verify_peer_identity. mstep. mstep. by apply driven_same with s.
Qed.
Lemma mwp_canned src ts wall :
  mwp False (mark_canned_message_seen src ts wall) s (λ s' _, driven s0 (n + 1) s').
Proof.
  unfold mark_canned_message_seen. mstep. mstep. pose proof Hd as ((_ & Hcache & _) & Hs & Hdoc).
  destruct (mark_ok (4 * n) (seen_cache s) (canned_message_id src ts) src wall
    ltac:(lia) ltac:(lia) Hcache) as (c' & b & Hmark & Hc' & _).
  unfold SeenMessageCache.check_and_mark in Hmark. rewrite Hmark. mstep.
  split_and!; [|done|eapply (node_inv_mono lc ids); [|exact Hdoc]; lia].
  destruct (books_ok_mono (4 * n) (4 * (n + 1)) s ltac:(lia) (proj1 Hd)) as (Hg' & _ & He' & Hf').
  refine (conj Hg' (conj _ (conj He' Hf'))). eapply cache_ok_mono; [|exact Hc']. lia.
Qed.

Local Ltac callback e := by apply (mwp_node_callback s0 n s _ e); [|lia|..].
Local Ltac input x := by apply (mwp_input s0 n s x); [|lia|..].
Local Ltac action o := by apply (mwp_action s0 n s _ o).
Lemma perform_ok c : call_ok lc ids k s0 c → survives (perform lc clock c).
Proof.
  intros Hc. pose proof driven_next as Hnext.
  destruct c as [data|nonce|nonce now|nonce peer now|nonce now|nonce ts|nonce ts|ident name rssi mid now
    |ident now|ident peer now|ident reason wall|ident data now|ident data now| |lat lon alt| |cs|bpm|et ts
    | |cs battery hr lat lon alt et ts|bytes|src ts wall]; cbn [perform call_ok] in *.
  all: try match goal with |- survives (replied _ _) => apply survives_quietly; [done|] end.
  - by apply mwp_decrypt.
  - unfold survives. do 3 mstep. split; [done|].
    apply (document_reply s0 (n + 1) s s); [done|lia|lia|done|apply Hd|done].
  - apply mwp_replied. eapply mwp_mono; [by apply mwp_tick|]. cbv beta. intros s' r [Hd' Hr].
    split; [done|]. destruct r; [by apply Hr|done].
  - destruct Hc. by apply mwp_build_delta.
  - destruct Hc. unfold survives. do 2 mstep. apply survives_quietly; [done|].
    destruct (full_delta_ok Hsize s0 Hp n s Hn Hd nonce now) as (data & Hdata); [done..|].
    mstep. unfold id, Bindings.MeshObject.build_full_delta_document. by rewrite Hdata.
  - destruct Hc. apply mwp_replied. by apply (mwp_send s0 n s nonce (Mesh.SendEmergency ts)
      (λ d, DocumentSync.send_emergency lc d ts)).
  - destruct Hc. apply mwp_replied.
    by apply (mwp_send s0 n s nonce (Mesh.SendAck ts) (λ d, DocumentSync.send_ack lc d ts)).
  - apply mwp_mapped. callback (Node.Discovered ident name rssi mid now).
  - apply mwp_mapped. callback (Node.Connected ident now).
  - callback (Node.Accepted ident peer now).
  - callback (Node.Disconnected ident (Bindings.DisconnectReason.to_observer reason) wall).
  - destruct Hc. apply mwp_mapped. input (Transport.Received ident data now).
  - destruct Hc. apply mwp_mapped. input (Transport.Anonymous ident data now).
  - apply survives_total.
  - action (Mesh.UpdateLocation lat lon alt).
  - action Mesh.ClearLocation.
  - action (Mesh.UpdateCallsign cs).
  - action (Mesh.UpdateHeartRate bpm).
  - action (Mesh.SetPeripheralEvent (Bindings.EventType.to_internal et) ts).
  - action Mesh.ClearEvent.
  - destruct Hc as (? & ? & ? & ? & ?).
    apply (mwp_change s0 n s _ (λ d, DocumentSync.update_peripheral_state d cs battery
      hr lat lon alt (Bindings.EventType.to_internal <$> et) ts));
      [done..|]. apply peripheral_state_inv; [lia|apply Hd|done..].
  - by apply mwp_verify.
  - apply mwp_canned.
Qed.
End call.

(** Fewer than 2^24 events leave the total below 2^32. *)
Lemma total_small n i (d : DocumentSync.t) v :
  0 ≤ n < 2 ^ 24 → DocSyncProofs.node_inv lc ids n i d → DocumentSync.total_count d = Ok v → in_u 32 v.
Proof.
  intros Hn (_ & _ & _ & _ & Hc & _). unfold DocumentSync.total_count.
  rewrite GCounterProofs.value_spec by apply (DocSyncProofs.counts_ok_wf ids Hids n _ Hc ltac:(lia)).
  pose proof (DocSyncProofs.counts_ok_bound ids Hids n _ Hc ltac:(lia) ltac:(lia)) as Hb.
  unfold DocumentProofs.counter_total in Hb. destruct (_ <? _); [|done]. intros [= <-]. lia.
Qed.

(** Any calls, in any order. *)
Lemma app_run_ok s0 cs : plainly s0 → (size ids < 256)%nat → ∀ n s,
  0 ≤ n → n + zlen cs < 2 ^ 26 → driven s0 n s → Forall (call_ok lc ids k s0) cs →
  mwp False (run lc clock cs) s (λ s' rs, driven s0 (n + zlen cs) s'
    ∧ Forall (reply_ok s0 (k + (n + zlen cs))) rs ∧ length rs = length cs).
Proof.
  intros Hp Hsize. induction cs as [|c cs IH]; intros n s Hn0 Hn Hd Hcs; cbn [run].
  { mstep. change (zlen []) with 0. rewrite Z.add_0_r. split_and!; [done|by apply Forall_nil|done]. }
  apply Forall_cons in Hcs as [Hc Hcs]. assert (zlen (c :: cs) = 1 + zlen cs) as Hl by len.
  mstep. eapply mwp_mono; [by apply (perform_ok s0 Hp Hsize n); [|lia|..]|]. cbv beta.
  intros s1 r [Hd1 Hr]. mstep. eapply mwp_mono; [apply (IH (n + 1)); [lia|lia|done..]|]. cbv beta.
  intros s2 rs (Hd2 & Hrs & Hlen). mstep.
  replace (n + zlen (c :: cs)) with (n + 1 + zlen cs) by lia. split_and!; [done| |cbn; congruence].
  apply Forall_cons. split; [|done]. destruct r as [| |data| | | | |]; try done.
  destruct Hr as (? & p & d & ? & ? & ? & ?). split; [done|]. exists p, d. split_and!; [done..|].
  eapply (doc_inv_mono lc ids); [|done]. lia.
Qed.

End app.
End ForeignProofs.

Module ForeignProperties.
Import TransportProofs ForeignApp ForeignProofs.

(** C10: An application across the foreign-function surface cannot crash a
    node.  It creates a mesh object in any of the four ways and calls the
    methods that change it or can panic in any order, up to 2^26 times, with
    values in range; the radio may deliver anything, as long as what opens to
    a document opens to one of the members.  Every call returns, whether it
    decodes, encrypts, merges, ticks, builds a delta or checks an identity;
    the document of the node stays one the members understand, and so is
    every document the application is given to broadcast; what the node was
    created with never changes, so that it is never strict, never relays and
    has no types of application documents; and the total is not cut by its
    conversion to 32 bits before 2^24 events. *)
Theorem foreign_calls_never_panic `{CryptoLaws} `{AppTypes} `{!MapOrder Z} `{!MapOrder (Z * Z * Z)}
    legacy_chat clock ids k s0 calls
    (Hids : Mesh.mesh_ok ids) (Hsize : (size ids < 256)%nat) (Hk : 0 ≤ k < 2 ^ 55)
    (Hcreated : created s0) (Hid : node_id s0 ∈ ids) (Hcallsign : Mesh.callsign_in (callsign s0))
    (Hcalls : Forall (call_ok legacy_chat ids k s0) calls) (Hlen : zlen calls < 2 ^ 26) :
  ∃ s replies, run legacy_chat clock calls s0 = Ok (s, replies)
    ∧ length replies = length calls
    ∧ DocSyncProofs.node_inv legacy_chat ids (k + zlen calls) (node_id s0) (document_sync s)
    ∧ Forall (λ r, ∀ data, r = Document data →
        ∃ p d, opens_at s0 data p ∧ PeatDocument.decode legacy_chat p = Ok d
          ∧ PeatDocument.node_id d = node_id s0
          ∧ DocSyncProofs.doc_inv legacy_chat ids (k + zlen calls) d) replies
    ∧ encryption_key s = encryption_key s0 ∧ config s = config s0
    ∧ is_strict_encryption_enabled s = false ∧ is_relay_enabled s = false
    ∧ (∀ type_id, DocumentRegistry.is_registered (document_registry s) type_id = false)
    ∧ (k + zlen calls < 2 ^ 24 → Bindings.MeshObject.total_count s = PeatMesh.total_count s).
Proof.
  destruct (created_plainly s0 Hcreated) as ((cfg & ident & Hs0) & Hplain).
  assert (plainly s0) as Hp by by apply created_plainly.
  assert (driven legacy_chat ids k s0 0 s0) as Hd0.
  { split_and!; [|done|].
    - rewrite Hs0. apply TransportProperties.new_books_ok; [done|].
      destruct Hplain as (_ & _ & _ & Hf & _). rewrite Hs0 in Hf. cbn in Hf. rewrite Hf. done.
    - eapply (NodeProofs.node_inv_mono legacy_chat ids 0); [lia|]. subst s0.
      by apply TransportProperties.new_node_inv. }
  pose proof (app_run_ok legacy_chat clock ids Hids k Hk s0 calls Hp Hsize 0 s0 ltac:(lia) ltac:(lia) Hd0 Hcalls)
    as Hr. unfold mwp in Hr. destruct (run _ _ _ _) as [[s rs]| |]; [|done..].
  destruct Hr as ((_ & Hs & Hd) & Hrs & Hl). rewrite Z.add_0_l in *.
  unfold setup in Hs. injection Hs as Hcfg Hkey Hgs Hreg Hident.
  destruct Hplain as (Hstrict & Hrelay & Hr0 & _).
  exists s, rs. split_and!; try done.
  - eapply Forall_impl; [exact Hrs|]. cbv beta. intros r Hr data ->. by destruct Hr as (_ & ?).
  - unfold is_strict_encryption_enabled, is_encryption_enabled in *. by rewrite Hcfg, Hkey.
  - unfold is_relay_enabled in *. by rewrite Hcfg.
  - intros type_id. by rewrite Hreg, Hr0.
  - intros Hsmall. unfold Bindings.MeshObject.total_count, PeatMesh.total_count, DocumentSync.total_count.
    destruct (GCounter.value _) as [n| |] eqn:E; [|done..]. cbn [obind]. f_equal.
    apply wrap_small. eapply (total_small legacy_chat ids Hids); [|exact Hd|exact E]. lia.
Qed.

#[local] Existing Instance RegistryProperties.demo_apps.
#[local] Existing Instance TransportProperties.triple_order.

(** A phone of the application, in a mesh with node 2 of [MeshTransport]. *)
Definition phone : PeatMesh.t :=
  PeatMesh.new (PeatMeshConfig.with_encryption
    (PeatMeshConfig.new 1 (str "A"%string) (str "DEMO"%string)) (replicate 32 7)).
Definition told : list Z :=
  build_document true (TransportProperties.demo 2) TransportProperties.demo_nonce.
Definition session : list call :=
  let x := str "x"%string in
  let ts := MIN_VALID_TIMESTAMP + 1000 in
  let nonce := TransportProperties.demo_nonce in
  [VerifyPeerIdentity [1; 2; 3]; OnIncoming x 2 5; SendEmergency nonce ts; OnData x told 10;
   OnDataAnonymous x told 11; MarkCannedMessageSeen 2 77 12; BuildDelta nonce 2 100;
   BuildFullDelta nonce 100; DecryptOnly told;
   UpdatePeripheralState (str "B"%string) 50 (Some 60) (Some 0) (Some 0) None
     (Some Bindings.EventType.Ack) ts;
   Tick nonce 6000; OnDisconnected x Bindings.DisconnectReason.LinkLoss 20; TotalCount;
   BuildDocument nonce].

Lemma told_bytes : bytes_ok told.
Proof. by_decide. Qed.
Lemma told_carried p :
  carries phone told p →
  zlen p < 2 ^ 32 ∧ ∀ d, PeatDocument.decode true p = Ok d →
    DocSyncProofs.doc_inv true TransportProperties.demo_nodes 0 d.
Proof.
  assert (sealed_with TransportProperties.demo_key told
    (DocumentSync.build_document true (document_sync (TransportProperties.demo 2)))) as Hs.
  { apply encrypt_document_sealed; [done|apply hkdf_block|by_decide|by_decide]. }
  intros [[(key & [= <-] & Hp)|[_ ->]]|(e & He & _)].
  - rewrite (sealed_unique _ _ _ _ Hp Hs). split; [by vm_compute|]. intros d Hd.
    destruct (DocSyncProofs.document_wf true TransportProperties.demo_nodes TransportProperties.demo_mesh
      0 2 _ ltac:(lia) (TransportProperties.demo_inv 2 ltac:(set_solver))) as (Hdec & Hdi & _).
    rewrite Hdec in Hd. by injection Hd as <-.
  - split; [by vm_compute|]. intros d Hd. exfalso. vm_compute in Hd. discriminate Hd.
  - exfalso. vm_compute in He. discriminate He.
Qed.
Lemma session_ok : Forall (call_ok true TransportProperties.demo_nodes 0 phone) session.
Proof.
  unfold session. repeat (apply Forall_cons; split); try apply Forall_nil; cbn [call_ok]; try exact I.
  all: try (split; [apply told_bytes|apply told_carried]).
  all: try apply told_bytes.
  all: unfold Mesh.callsign_in, Mesh.text_ok, PeripheralEvent.timestamp_ok; try by_decide.
  split; [by_decide|]. split; [by_decide|]. split; [intros bpm [= <-]; by_decide|].
  split; [|by_decide]. intros a b [= <-] [= <-]. by_decide.
Qed.

Lemma foreign_calls_never_panic_witness :
  ∃ s replies, run true (λ i, i) session phone = Ok (s, replies)
    ∧ length replies = length session
    ∧ DocSyncProofs.node_inv true TransportProperties.demo_nodes (0 + zlen session) (node_id phone)
        (document_sync s)
    ∧ Forall (λ r, ∀ data, r = Document data →
        ∃ p d, opens_at phone data p ∧ PeatDocument.decode true p = Ok d
          ∧ PeatDocument.node_id d = node_id phone
          ∧ DocSyncProofs.doc_inv true TransportProperties.demo_nodes (0 + zlen session) d) replies
    ∧ encryption_key s = encryption_key phone ∧ config s = config phone
    ∧ is_strict_encryption_enabled s = false ∧ is_relay_enabled s = false
    ∧ (∀ type_id, DocumentRegistry.is_registered (document_registry s) type_id = false)
    ∧ (0 + zlen session < 2 ^ 24 → Bindings.MeshObject.total_count s = PeatMesh.total_count s).
Proof.
  apply (foreign_calls_never_panic true (λ i, i) TransportProperties.demo_nodes 0 phone session).
  - apply TransportProperties.demo_mesh.
  - by_decide.
  - lia.
  - by apply (Encrypted 1 (str "A"%string) (str "DEMO"%string) (replicate 32 7)).
  - apply elem_of_list_to_set. left.
  - unfold Mesh.callsign_in, Mesh.text_ok. by_decide.
  - apply session_ok.
  - by vm_compute.
Defined.

(** What the phone is told: the heard document changed its count. *)
Example session_replies :
  match run true (λ i, i) session phone with
  | Ok (s, rs) => Some (omap (λ r, match r with Count n => Some n | _ => None end) rs,
                        map (λ r, match r with Received (Some r) =>
                          Bindings.DataReceivedResult.source_node r | _ => 0 end) rs)
  | _ => None
  end = Some ([1], [0; 0; 0; 2; 2; 0; 0; 0; 0; 0; 0; 0; 0; 0]).
Proof. vm_compute. reflexivity. Qed.

End ForeignProperties.
