(* ===== verification/GattService.v ===== *)
(** * The GATT service: src/src/gatt/service.rs, with the identifiers and
    properties of its characteristics (src/src/gatt/characteristics.rs).

    A handler takes the lock on the state of the service; some call the event
    callback while they hold it, and a callback that then asks the service
    anything waits for ever.  A call of the callback is an entry of [calls]
    with whether the lock was held. *)

From Stdlib Require Import String.
From stdpp Require Import base numbers list gmap sets.
From S2P Require Import Prelude GattProto Crypto Ble.
Open Scope Z_scope.
Open Scope peat_scope.

(** ** Characteristics *)

Module CharacteristicProperties.
Definition READ : Z := 0x02.
Definition WRITE_WITHOUT_RESPONSE : Z := 0x04.
Definition WRITE : Z := 0x08.
Definition NOTIFY : Z := 0x10.
Definition INDICATE : Z := 0x20.
Definition can_read (self : Z) : bool := has_bit self READ.
Definition can_write (self : Z) : bool := has_bit self WRITE.
Definition can_notify (self : Z) : bool := has_bit self NOTIFY.
Definition can_indicate (self : Z) : bool := has_bit self INDICATE.
End CharacteristicProperties.

(** A UUID is its sixteen bytes. *)
Definition PEAT_SERVICE_UUID : list Z :=
  [0xa1; 0xb2; 0xc3; 0xd4; 0xe5; 0xf6; 0x4a; 0x7b; 0x8c; 0x9d; 0x0e; 0x1f; 0x2a; 0x3b; 0x4c; 0x5d].
Definition CHAR_NODE_INFO_UUID : Z := 0x0001.
Definition CHAR_SYNC_STATE_UUID : Z := 0x0002.
Definition CHAR_SYNC_DATA_UUID : Z := 0x0003.
Definition CHAR_COMMAND_UUID : Z := 0x0004.
Definition CHAR_STATUS_UUID : Z := 0x0005.

Module PeatCharacteristicUuids.
Definition derive_uuid (char_id : Z) : list Z :=
  <[3%nat := wrap 8 char_id]> (<[2%nat := wrap 8 (Z.shiftr char_id 8)]> PEAT_SERVICE_UUID).
Definition node_info : list Z := derive_uuid CHAR_NODE_INFO_UUID.
Definition sync_state : list Z := derive_uuid CHAR_SYNC_STATE_UUID.
Definition sync_data : list Z := derive_uuid CHAR_SYNC_DATA_UUID.
Definition command : list Z := derive_uuid CHAR_COMMAND_UUID.
Definition status : list Z := derive_uuid CHAR_STATUS_UUID.
End PeatCharacteristicUuids.

Module CharacteristicDescriptor.
Record t := mk { uuid : list Z; name : list Z; properties : Z; encrypted : bool }.
End CharacteristicDescriptor.

Module PeatCharacteristics.
Import CharacteristicProperties.
Definition node_info : CharacteristicDescriptor.t :=
  CharacteristicDescriptor.mk PeatCharacteristicUuids.node_info (str "Node Info"%string) READ true.
Definition sync_state : CharacteristicDescriptor.t :=
  CharacteristicDescriptor.mk PeatCharacteristicUuids.sync_state (str "Sync State"%string)
    (Z.lor READ NOTIFY) true.
Definition sync_data : CharacteristicDescriptor.t :=
  CharacteristicDescriptor.mk PeatCharacteristicUuids.sync_data (str "Sync Data"%string)
    (Z.lor WRITE INDICATE) true.
Definition command : CharacteristicDescriptor.t :=
  CharacteristicDescriptor.mk PeatCharacteristicUuids.command (str "Command"%string) WRITE true.
Definition status : CharacteristicDescriptor.t :=
  CharacteristicDescriptor.mk PeatCharacteristicUuids.status (str "Status"%string)
    (Z.lor READ NOTIFY) true.
Definition all : list CharacteristicDescriptor.t := [node_info; sync_state; sync_data; command; status].
End PeatCharacteristics.

(** ** The service *)

Module GattEvent.
Inductive t :=
| ClientConnected (address : list Z) | ClientDisconnected (address : list Z)
| NotificationSubscribed (characteristic : list Z)
| NotificationUnsubscribed (characteristic : list Z)
| CommandReceived (command : CommandType.t) (payload : list Z)
| SyncDataReceived (header : SyncDataHeader.t) (payload : list Z)
| MtuChanged (mtu : Z).
End GattEvent.

Module ServiceState.
Record t := mk {
  node_info : NodeInfo.t; sync_state : SyncStateData.t; status : StatusData.t;
  connected_clients : list (list Z); sync_state_subscribers : list (list Z);
  status_subscribers : list (list Z); mtu : Z
}.
Definition new (node_id : Z) (hierarchy_level : HierarchyLevel.t) (capabilities : Z) : t :=
  mk (NodeInfo.new node_id hierarchy_level capabilities) (SyncStateData.new SyncState.Idle)
    StatusData.new [] [] [] 23.
End ServiceState.

Module PeatGattService.
Import ServiceState (node_info, sync_state, status, connected_clients).

(** [callback]: one is set. *)
Record t := mk { state : ServiceState.t; callback : bool; calls : list (GattEvent.t * bool) }.

Definition new (node_id : Z) (hierarchy_level : HierarchyLevel.t) (capabilities : Z) : t :=
  mk (ServiceState.new node_id hierarchy_level capabilities) false [].
Definition set_event_callback (self : t) : t := mk (state self) true (calls self).
Definition service_uuid : list Z := PEAT_SERVICE_UUID.
Definition characteristics : list CharacteristicDescriptor.t := PeatCharacteristics.all.

Definition emit (locked : bool) (self : t) (event : GattEvent.t) : t :=
  mk (state self) (callback self)
    (if callback self then calls self ++ [(event, locked)] else calls self).
Definition with_state (self : t) (s : ServiceState.t) : t := mk s (callback self) (calls self).
Definition set_node_info (self : t) (x : NodeInfo.t) : t :=
  let 'ServiceState.mk _ y st c ss st' m := state self in
  with_state self (ServiceState.mk x y st c ss st' m).
Definition set_sync_state (self : t) (y : SyncStateData.t) : t :=
  let 'ServiceState.mk x _ st c ss st' m := state self in
  with_state self (ServiceState.mk x y st c ss st' m).
Definition set_status (self : t) (st : StatusData.t) : t :=
  let 'ServiceState.mk x y _ c ss st' m := state self in
  with_state self (ServiceState.mk x y st c ss st' m).
Definition set_flags (self : t) (flags : Z) : t :=
  let 'StatusData.mk _ c r u := status (state self) in set_status self (StatusData.mk flags c r u).
Definition set_sync (self : t) (st : SyncState.t) (progress : Z) : t :=
  let 'SyncStateData.mk _ _ pd ls := sync_state (state self) in
  set_sync_state self (SyncStateData.mk st progress pd ls).
Definition set_hierarchy (self : t) (level : HierarchyLevel.t) : t :=
  let 'NodeInfo.mk n v _ c b := node_info (state self) in
  set_node_info self (NodeInfo.mk n v level c b).

(** *** Reads *)
Definition read_node_info (self : t) : list Z := NodeInfo.encode (node_info (state self)).
Definition read_sync_state (self : t) : list Z := SyncStateData.encode (sync_state (state self)).
Definition read_status (self : t) : list Z := StatusData.encode (status (state self)).

(** *** Writes *)

(** [!mask] of a byte. *)
Definition not_u8 (mask : Z) : Z := 255 - mask.
Definition add_flag (self : t) (mask : Z) : t :=
  set_flags self (Z.lor (StatusData.flags (status (state self))) mask).
Definition drop_flag (self : t) (mask : Z) : t :=
  set_flags self (Z.land (StatusData.flags (status (state self))) (not_u8 mask)).
Definition progress (self : t) : Z := SyncStateData.progress (sync_state (state self)).

(** Based on the operation type. *)
Definition handle_sync_data (self : t) (header : SyncDataHeader.t) (payload : list Z)
    : t * option (list Z) :=
  let ack := SyncDataHeader.encode (SyncDataHeader.new SyncDataOp.Ack (SyncDataHeader.seq header)) in
  match SyncDataHeader.op header with
  | SyncDataOp.Document =>
      let self := set_sync self SyncState.Syncing (progress self) in
      (add_flag self StatusFlags.SYNCING, Some ack)
  | SyncDataOp.Vector => (self, Some ack)
  | SyncDataOp.End_ =>
      let self := set_sync self SyncState.Complete 100 in
      let self := drop_flag self StatusFlags.SYNCING in
      (emit true self (GattEvent.SyncDataReceived header payload), None)
  | SyncDataOp.Ack => (self, None)
  end.
Definition write_sync_data (self : t) (data : list Z)
    : outcome (t * result (option (list Z)) BleError.t) :=
  let! header := opt (SyncDataHeader.decode data) in
  match header with
  | None => Ok (self, Err (BleError.GattError (str "Invalid sync data header"%string)))
  | Some header =>
      let! payload := if SyncDataHeader.SIZE <? zlen data
                      then slice_from data SyncDataHeader.SIZE else Ok [] in
      let '(self, answer) := handle_sync_data self header payload in
      Ok (self, Okay answer)
  end.

(** Based on the type of the command. *)
Definition handle_command (self : t) (command : Command.t) : outcome t :=
  match Command.cmd_type command with
  | CommandType.StartSync => Ok (set_sync self SyncState.Syncing 0)
  | CommandType.StopSync => Ok (set_sync self SyncState.Idle (progress self))
  | CommandType.RefreshInfo => Ok self
  | CommandType.SetHierarchy =>
      if bool_decide (Command.payload command = []) then Ok self
      else
        let! b := u8_at (Command.payload command) 0 in
        Ok (set_hierarchy self (HierarchyLevel.from_u8 b))
  | CommandType.Ping => Ok self
  | CommandType.Reset_ => Ok (set_sync_state self (SyncStateData.new SyncState.Idle))
  end.
Definition write_command (self : t) (data : list Z) : outcome (t * result unit BleError.t) :=
  let! command := opt (Command.decode data) in
  match command with
  | None => Ok (self, Err (BleError.GattError (str "Invalid command data"%string)))
  | Some command =>
      let! self := handle_command self command in
      Ok (emit false self (GattEvent.CommandReceived (Command.cmd_type command)
                             (Command.payload command)), Okay tt)
  end.

(** *** Updates *)

Definition update_battery (self : t) (percent : Z) : t :=
  let 'NodeInfo.mk n v l c _ := node_info (state self) in
  let self := set_node_info self (NodeInfo.mk n v l c (Z.min percent 100)) in
  if percent <? 20 then add_flag self StatusFlags.LOW_BATTERY
  else drop_flag self StatusFlags.LOW_BATTERY.
Definition update_hierarchy_level (self : t) (level : HierarchyLevel.t) : t :=
  set_hierarchy self level.
Definition update_sync_progress (self : t) (progress pending_docs : Z) : t :=
  let 'SyncStateData.mk st _ _ ls := sync_state (state self) in
  set_sync_state self (SyncStateData.mk (if 100 <=? progress then SyncState.Complete else st)
                         (Z.min progress 100) pending_docs ls).
Definition set_parent_rssi (self : t) (rssi : Z) : t :=
  let 'StatusData.mk f c _ u := status (state self) in set_status self (StatusData.mk f c rssi u).
Definition update_parent_status (self : t) (connected : bool) (rssi : option Z) : t :=
  if connected then set_parent_rssi (add_flag self StatusFlags.CONNECTED) (default 0 rssi)
  else set_parent_rssi (drop_flag self StatusFlags.CONNECTED) 127.
Definition update_child_count (self : t) (count : Z) : t :=
  let 'StatusData.mk f _ r u := status (state self) in set_status self (StatusData.mk f count r u).
Definition update_uptime (self : t) (minutes : Z) : t :=
  let 'StatusData.mk f c r _ := status (state self) in set_status self (StatusData.mk f c r minutes).

(** *** Connections *)

(** [if !l.contains(&a) { l.push(a) }] and [l.retain(|x| x != a)]. *)
Definition push_new (l : list (list Z)) (a : list Z) : list (list Z) :=
  if bool_decide (a ∈ l) then l else l ++ [a].
Definition retain_others (l : list (list Z)) (a : list Z) : list (list Z) := filter (λ x, x ≠ a) l.
Definition set_clients (self : t) (c ss st' : list (list Z)) : t :=
  let 'ServiceState.mk x y st _ _ _ m := state self in
  with_state self (ServiceState.mk x y st c ss st' m).

Definition on_client_connected (self : t) (address : list Z) : t :=
  let s := state self in
  let self := set_clients self (push_new (connected_clients s) address)
                (ServiceState.sync_state_subscribers s) (ServiceState.status_subscribers s) in
  emit true self (GattEvent.ClientConnected address).
Definition on_client_disconnected (self : t) (address : list Z) : t :=
  let s := state self in
  let self := set_clients self (retain_others (connected_clients s) address)
                (retain_others (ServiceState.sync_state_subscribers s) address)
                (retain_others (ServiceState.status_subscribers s) address) in
  emit true self (GattEvent.ClientDisconnected address).
Definition on_subscribe (self : t) (address characteristic : list Z) : t :=
  let s := state self in
  let self :=
    if bool_decide (characteristic = str "sync_state"%string) then
      set_clients self (connected_clients s)
        (push_new (ServiceState.sync_state_subscribers s) address)
        (ServiceState.status_subscribers s)
    else if bool_decide (characteristic = str "status"%string) then
      set_clients self (connected_clients s) (ServiceState.sync_state_subscribers s)
        (push_new (ServiceState.status_subscribers s) address)
    else self in
  emit true self (GattEvent.NotificationSubscribed characteristic).
Definition on_mtu_changed (self : t) (mtu : Z) : t :=
  let 'ServiceState.mk x y st c ss st' _ := state self in
  emit true (with_state self (ServiceState.mk x y st c ss st' mtu)) (GattEvent.MtuChanged mtu).
Definition mtu (self : t) : Z := ServiceState.mtu (state self).
Definition connected_client_count (self : t) : Z := zlen (connected_clients (state self)).
Definition sync_state_subscribers (self : t) : list (list Z) :=
  ServiceState.sync_state_subscribers (state self).
Definition status_subscribers (self : t) : list (list Z) :=
  ServiceState.status_subscribers (state self).

(** *** Histories *)

Inductive event :=
| WriteSyncData (data : list Z) | WriteCommand (data : list Z)
| UpdateBattery (percent : Z) | UpdateHierarchyLevel (level : HierarchyLevel.t)
| UpdateSyncProgress (progress pending_docs : Z)
| UpdateParentStatus (connected : bool) (rssi : option Z)
| UpdateChildCount (count : Z) | UpdateUptime (minutes : Z)
| ClientConnected (address : list Z) | ClientDisconnected (address : list Z)
| Subscribe (address characteristic : list Z) | MtuChanged (mtu : Z).
Definition step (self : t) (e : event) : outcome t :=
  match e with
  | WriteSyncData data => let! r := write_sync_data self data in Ok r.1
  | WriteCommand data => let! r := write_command self data in Ok r.1
  | UpdateBattery percent => Ok (update_battery self percent)
  | UpdateHierarchyLevel level => Ok (update_hierarchy_level self level)
  | UpdateSyncProgress progress pending_docs => Ok (update_sync_progress self progress pending_docs)
  | UpdateParentStatus connected rssi => Ok (update_parent_status self connected rssi)
  | UpdateChildCount count => Ok (update_child_count self count)
  | UpdateUptime minutes => Ok (update_uptime self minutes)
  | ClientConnected address => Ok (on_client_connected self address)
  | ClientDisconnected address => Ok (on_client_disconnected self address)
  | Subscribe address characteristic => Ok (on_subscribe self address characteristic)
  | MtuChanged mtu => Ok (on_mtu_changed self mtu)
  end.
Fixpoint run (self : t) (es : list event) : outcome t :=
  match es with [] => Ok self | e :: es => let! self := step self e in run self es end.

End PeatGattService.

(** A central that writes what its protocol has queued to the service, and
    feeds its protocol the answers; [fuel] bounds the number of writes. *)
Module GattSession.
Import SyncProtocol.

Fixpoint exchange (fuel : nat) (p : SyncProtocol.t) (s : PeatGattService.t)
    : outcome (SyncProtocol.t * PeatGattService.t) :=
  match fuel with
  | O => Ok (p, s)
  | S fuel =>
      let '(p, m) := next_outgoing p in
      match m with
      | None => Ok (p, s)
      | Some m =>
          let! r := PeatGattService.write_sync_data s (SyncMessage.encode m) in
          match r.2 with
          | Okay (Some answer) =>
              let! r' := process_incoming p answer in
              exchange fuel r'.1 r.1
          | Okay None | Err _ => exchange fuel p r.1
          end
      end
  end.

(** A session: a sync vector, documents, and the end. *)
Fixpoint queue_all (p : SyncProtocol.t) (docs : list (list Z)) : outcome SyncProtocol.t :=
  match docs with [] => Ok p | d :: docs => let! p := queue_document p d in queue_all p docs end.
Definition prepare (p : SyncProtocol.t) (sync_vector : list Z) (docs : list (list Z))
    : outcome SyncProtocol.t :=
  let! p := start_sync p sync_vector in
  let! p := queue_all p docs in
  Ok (end_sync p).

End GattSession.

(** * Theorems *)

Module GattServiceProofs.
Import PeatGattService.

Definition service_ok (self : t) : Prop :=
  let s := state self in
  NodeInfo.wf (ServiceState.node_info s)
  ∧ (NodeInfo.battery_percent (ServiceState.node_info s) ≤ 100
     ∨ NodeInfo.battery_percent (ServiceState.node_info s) = 255)
  ∧ SyncStateData.wf (ServiceState.sync_state s) ∧ progress self ≤ 100
  ∧ StatusData.wf (ServiceState.status s)
  ∧ NoDup (ServiceState.connected_clients s) ∧ NoDup (ServiceState.sync_state_subscribers s)
  ∧ NoDup (ServiceState.status_subscribers s).

Definition typed (e : event) : Prop :=
  match e with
  | WriteSyncData data | WriteCommand data => bytes_ok data
  | UpdateBattery n | UpdateChildCount n => byte_ok n
  | UpdateSyncProgress n d => byte_ok n ∧ in_u 16 d
  | UpdateParentStatus _ rssi => match rssi with Some r => -128 ≤ r < 128 | None => True end
  | UpdateUptime n => in_u 16 n
  | _ => True
  end.

Lemma lor_byte f m : byte_ok f → byte_ok m → byte_ok (Z.lor f m).
Proof.
  intros [Hf0 Hf] [Hm0 Hm]. assert (0 ≤ Z.lor f m) by by apply Z.lor_nonneg. split; [done|].
  change 256 with (2 ^ 8) in *. apply Z.bounded_iff_bits_nonneg; [done..|]. intros l Hl.
  rewrite Z.lor_spec. rewrite Z.bounded_iff_bits_nonneg in Hf, Hm by done. by rewrite Hf, Hm.
Qed.
Lemma land_byte f m : byte_ok f → byte_ok (Z.land f m).
Proof.
  intros [Hf0 Hf]. assert (0 ≤ Z.land f m) by (apply Z.land_nonneg; by left). split; [done|].
  change 256 with (2 ^ 8) in *. apply Z.bounded_iff_bits_nonneg; [done..|]. intros l Hl.
  rewrite Z.land_spec. rewrite Z.bounded_iff_bits_nonneg in Hf by done. by rewrite Hf.
Qed.
Lemma level_of_byte b : byte_ok (HierarchyLevel.to_u8 (HierarchyLevel.from_u8 b)).
Proof. apply CharacteristicProofs.level_byte. Qed.
Lemma push_new_NoDup l a : NoDup l → NoDup (push_new l a).
Proof.
  intros Hl. unfold push_new. case_bool_decide; [done|]. apply NoDup_app.
  split_and!; [done| |apply NoDup_singleton]. intros x Hx ->%list_elem_of_singleton. done.
Qed.
Lemma retain_NoDup l a : NoDup l → NoDup (retain_others l a).
Proof. apply NoDup_filter. Qed.

Lemma opt_cases {A} (o : outcome A) Q :
  wp o Q → opt o = Ok None ∨ ∃ a, o = Ok a ∧ opt o = Ok (Some a) ∧ Q a.
Proof. destruct o as [a| |]; [right; by exists a|by left|done]. Qed.
Lemma header_decode_wp data : bytes_ok data →
  wp (SyncDataHeader.decode data) (λ h, in_u 16 (SyncDataHeader.seq h)).
Proof.
  intros Hb. unfold SyncDataHeader.decode, SyncDataHeader.SIZE. apply wp_reject_if. intros Hl%Z.ltb_ge.
  wp_step. wp_step. wp_step. apply wp_be16_at; [lia..|done|]. intros sq Hsq. by wp_steps.
Qed.
Lemma command_decode_wp data : bytes_ok data →
  wp (Command.decode data) (λ c, bytes_ok (Command.payload c)).
Proof.
  intros Hb. unfold Command.decode. apply wp_reject_if. intros Hl%Z.eqb_neq.
  assert (0 ≤ zlen data) by len. wp_steps. done.
Qed.

(** The service in pieces. *)
Ltac open_service :=
  match goal with
  | self : t |- _ =>
      destruct self as [[[nid ver lvl cap bat] [st pr pd ls] [fl ch rs up] cc ss sts mt] cb cls]
  end;
  unfold service_ok, emit, set_flags, add_flag, drop_flag, set_status, set_sync, set_sync_state,
    set_node_info, set_hierarchy, set_clients, with_state, set_parent_rssi, progress,
    NodeInfo.wf, SyncStateData.wf, StatusData.wf in *;
  cbn in *.

Lemma handle_sync_data_ok self h payload :
  service_ok self → service_ok (handle_sync_data self h payload).1.
Proof.
  destruct h as [op sq n i]. unfold handle_sync_data. intros Hs. cbn [SyncDataHeader.op].
  destruct op; open_service; split_and!; try tauto; try lia;
    first [apply lor_byte; [tauto|by_decide] | apply land_byte; tauto].
Qed.
Lemma handle_command_ok self c :
  bytes_ok (Command.payload c) → service_ok self →
  ∃ s', handle_command self c = Ok s' ∧ service_ok s'.
Proof.
  destruct c as [ty p]. cbn [Command.payload]. intros Hp Hs. unfold handle_command.
  cbn [Command.cmd_type Command.payload].
  destruct ty; try (eexists; split; [done|]; open_service; split_and!; (tauto || lia)).
  destruct p as [|b p]; [by eexists|]. apply Forall_cons in Hp as [Hb _].
  rewrite bool_decide_eq_false_2 by done. rewrite u8_at_here by done. cbn [obind].
  eexists. split; [done|]. open_service. split_and!; tauto.
Qed.
Lemma write_sync_data_cases self data : bytes_ok data →
  (∃ e, write_sync_data self data = Ok (self, Err e)) ∧ SyncDataHeader.decode data = Fail
  ∨ ∃ h payload, SyncDataHeader.decode data = Ok h ∧ write_sync_data self data
      = Ok ((handle_sync_data self h payload).1, Okay (handle_sync_data self h payload).2).
Proof.
  intros Hb. unfold write_sync_data.
  destruct (SyncDataHeader.decode data) as [h| |] eqn:E; cbn [opt obind].
  - right.
    assert (∃ payload, (if SyncDataHeader.SIZE <? zlen data
              then slice_from data SyncDataHeader.SIZE else Ok []) = Ok payload) as [payload ->].
    { destruct (Z.ltb_spec SyncDataHeader.SIZE (zlen data)); [|by eexists].
      unfold slice_from. rewrite slice_ok by (unfold SyncDataHeader.SIZE in *; lia). by eexists. }
    cbn [obind]. exists h, payload. split; [done|]. by destruct (handle_sync_data self h payload).
  - left. split; [by eexists|done].
  - pose proof (header_decode_wp data Hb) as Hwp. by rewrite E in Hwp.
Qed.

Lemma emit_ok b self e : service_ok self → service_ok (emit b self e).
Proof. done. Qed.
Lemma step_ok self e : typed e → service_ok self → ∃ s', step self e = Ok s' ∧ service_ok s'.
Proof.
  intros He Hs. destruct e; cbn [step typed] in *.
  - destruct (write_sync_data_cases self data He) as [[[e' ->] _]|(h & p & _ & ->)].
    + by eexists.
    + eexists. split; [done|]. by apply handle_sync_data_ok.
  - unfold write_command. destruct (opt_cases _ _ (command_decode_wp data He)) as [->|(c & _ & -> & Hc)].
    + by eexists.
    + cbn [obind]. destruct (handle_command_ok self c Hc Hs) as (s' & -> & Hs'). cbn [obind].
      eexists. split; [done|]. by apply emit_ok.
  - eexists. split; [done|]. unfold update_battery. destruct (_ <? 20); open_service;
      split_and!; try tauto; try lia; first [apply lor_byte; [tauto|by_decide] | apply land_byte; tauto].
  - eexists. split; [done|]. unfold update_hierarchy_level. open_service. split_and!; tauto.
  - eexists. split; [done|]. unfold update_sync_progress. open_service. split_and!; try tauto; lia.
  - eexists. split; [done|]. unfold update_parent_status. destruct connected; open_service;
      split_and!; try tauto; try lia;
      first [apply lor_byte; [tauto|by_decide] | apply land_byte; tauto | destruct rssi; cbn; lia].
  - eexists. split; [done|]. unfold update_child_count. open_service. split_and!; tauto.
  - eexists. split; [done|]. unfold update_uptime. open_service. split_and!; tauto.
  - eexists. split; [done|]. unfold on_client_connected. apply emit_ok. open_service.
    split_and!; try tauto. apply push_new_NoDup. tauto.
  - eexists. split; [done|]. unfold on_client_disconnected. apply emit_ok. open_service.
    split_and!; try tauto; apply retain_NoDup; tauto.
  - eexists. split; [done|]. unfold on_subscribe. apply emit_ok.
    repeat case_bool_decide; open_service; split_and!; try tauto; apply push_new_NoDup; tauto.
  - eexists. split; [done|]. unfold on_mtu_changed. open_service. split_and!; tauto.
Qed.
Lemma service_runs es : ∀ self, Forall typed es → service_ok self →
  ∃ s', run self es = Ok s' ∧ service_ok s'.
Proof.
  induction es as [|e es IH]; intros self He Hs; [by exists self|].
  apply Forall_cons in He as [He Hes]. destruct (step_ok self e He Hs) as (s1 & E & Hs1).
  cbn [run]. rewrite E. by apply IH.
Qed.

(** ** The status flags *)

Lemma has_bit_testbit f k : 0 ≤ k → has_bit f (2 ^ k) = Z.testbit f k.
Proof.
  intros Hk. unfold has_bit. rewrite <-(Z.shiftl_1_l k), <-Z.land_comm.
  destruct (Z.testbit f k) eqn:E.
  - apply negb_true_iff, Z.eqb_neq. intros H. apply (f_equal (λ x, Z.testbit x k)) in H.
    rewrite Z.land_spec, Z.shiftl_spec, Z.sub_diag, Z.bits_0, E in H by done. done.
  - apply negb_false_iff, Z.eqb_eq, Z.bits_inj'. intros l Hl. rewrite Z.land_spec, Z.bits_0, Z.shiftl_spec by done.
    destruct (decide (l = k)) as [->|]; [by rewrite E, andb_false_r|].
    assert (Z.testbit 1 (l - k) = false) as ->; [|done].
    destruct (Z.ltb_spec (l - k) 0); [by rewrite Z.testbit_neg_r|].
    change 1 with (2 ^ 0). apply Z.pow2_bits_false. lia.
Qed.

(** What an event says about the flag of a mask. *)
Definition flag_change (e : event) : option (Z * bool) :=
  match e with
  | WriteSyncData data =>
      match SyncDataHeader.decode data with
      | Ok h =>
          match SyncDataHeader.op h with
          | SyncDataOp.Document => Some (StatusFlags.SYNCING, true)
          | SyncDataOp.End_ => Some (StatusFlags.SYNCING, false)
          | _ => None
          end
      | _ => None
      end
  | UpdateBattery percent => Some (StatusFlags.LOW_BATTERY, percent <? 20)
  | UpdateParentStatus connected _ => Some (StatusFlags.CONNECTED, connected)
  | _ => None
  end.
Definition flag_next (mask : Z) (b : bool) (e : event) : bool :=
  match flag_change e with Some (m, v) => if m =? mask then v else b | None => b end.
Definition flags (self : t) : Z := StatusData.flags (ServiceState.status (state self)).

Lemma step_flags self e s' :
  typed e → step self e = Ok s' →
  flags s' = match flag_change e with
             | Some (m, true) => Z.lor (flags self) m
             | Some (m, false) => Z.land (flags self) (not_u8 m)
             | None => flags self
             end.
Proof.
  intros He. destruct e; cbn [step flag_change typed] in *;
    try (intros [= <-]; unfold update_hierarchy_level, update_sync_progress, update_child_count,
      update_uptime, on_client_connected, on_client_disconnected, on_subscribe, on_mtu_changed,
      flags; repeat case_bool_decide; by open_service).
  - destruct (write_sync_data_cases self data He) as [[[e' ->] ->]|(h & p & -> & ->)]; intros [= <-];
      [done|]. unfold handle_sync_data, flags. destruct (SyncDataHeader.op h); by open_service.
  - unfold write_command. destruct (opt_cases _ _ (command_decode_wp data He)) as [->|(c & _ & -> & Hc)];
      cbn [obind]; [by intros [= <-]|].
    destruct (handle_command self c) as [s1| |] eqn:E; [|done..]. cbn [obind]. intros [= <-].
    cbn [fst emit]. revert E. unfold handle_command, flags.
    destruct (Command.cmd_type c); try (by intros [= <-]; open_service).
    destruct (bool_decide _); [by intros [= <-]|]. destruct (u8_at _ _); [|done..].
    cbn [obind]. intros [= <-]. by open_service.
  - intros [= <-]. unfold update_battery, flags. destruct (_ <? 20); by open_service.
  - intros [= <-]. unfold update_parent_status, flags. destruct connected; by open_service.
Qed.
Lemma flag_mask_bits f j k :
  j ∈ [0; 1; 3] → 0 ≤ k < 8 →
  has_bit (Z.lor f (2 ^ j)) (2 ^ k) = (if 2 ^ j =? 2 ^ k then true else has_bit f (2 ^ k))
  ∧ has_bit (Z.land f (not_u8 (2 ^ j))) (2 ^ k) = (if 2 ^ j =? 2 ^ k then false else has_bit f (2 ^ k)).
Proof.
  intros Hj Hk. rewrite !has_bit_testbit, Z.lor_spec, Z.land_spec by lia.
  rewrite !elem_of_cons, elem_of_nil in Hj.
  assert (k = 0 ∨ k = 1 ∨ k = 2 ∨ k = 3 ∨ k = 4 ∨ k = 5 ∨ k = 6 ∨ k = 7) as Hks by lia.
  destruct Hj as [->|[->|[->|[]]]]; destruct Hks as [->|[->|[->|[->|[->|[->|[->| ->]]]]]]]; cbn;
    by rewrite ?orb_false_r, ?orb_true_r, ?andb_true_r, ?andb_false_r.
Qed.
Lemma run_flags es : ∀ self s' k,
  Forall typed es → run self es = Ok s' → 0 ≤ k < 8 →
  has_bit (flags s') (2 ^ k) = foldl (flag_next (2 ^ k)) (has_bit (flags self) (2 ^ k)) es.
Proof.
  induction es as [|e es IH]; intros self s' k He; cbn [run foldl]; [by intros [= <-]|].
  apply Forall_cons in He as [He Hes]. destruct (step self e) as [s1| |] eqn:E; [|done..].
  cbn [obind]. intros Hr Hk. rewrite (IH s1) by done. f_equal.
  rewrite (step_flags self e s1 He E). unfold flag_next. destruct (flag_change e) as [[m v]|] eqn:Ec; [|done].
  assert (∃ j, m = 2 ^ j ∧ j ∈ [0; 1; 3]) as (j & -> & Hj).
  { destruct e; cbn [flag_change] in Ec; try done.
    - destruct (SyncDataHeader.decode data) as [h| |]; [|done..].
      destruct (SyncDataHeader.op h); simplify_eq; exists 1; split; (done || set_solver).
    - simplify_eq. exists 3. split; (done || set_solver).
    - simplify_eq. exists 0. split; (done || set_solver). }
  destruct (flag_mask_bits (flags self) j k Hj Hk) as [Hl Hd]. destruct v; congruence.
Qed.
End GattServiceProofs.

Module GattSessionProofs.
Import SyncProtocol FragmentProofs PeatGattService GattServiceProofs GattSession.

(** What a session sends before its end. *)
Definition sendable (m : SyncMessage.t) : Prop :=
  msg_wf m ∧ (SyncMessage.msg_type m = SyncMessageType.SyncVector
              ∨ SyncMessage.msg_type m = SyncMessageType.Document).

Lemma fragments_sendable ty sq payload mx :
  ty = SyncMessageType.SyncVector ∨ ty = SyncMessageType.Document → in_u 16 sq → 0 < mx →
  ∃ ms, fragment_payload ty sq payload mx = Ok ms ∧ Forall sendable ms.
Proof.
  intros Hty Hsq Hmx. unfold fragment_payload. destruct (_ || _).
  { eexists. split; [done|]. constructor; [|done]. split; [|done]. destruct Hty as [-> | ->]; split_and!; cbn; (done || lia). }
  rewrite (proj2 (Z.eqb_neq mx 0)) by lia. eexists. split; [done|].
  apply Forall_lookup. intros i m Hm. apply list_lookup_imap_Some in Hm as (chunk & _ & ->).
  split; [|done]. destruct Hty as [-> | ->]; split_and!; cbn; first [done | lia | apply (wrap_bound 8); lia].
Qed.

(** A protocol whose queue is [ms]. *)
Definition queued (mx : Z) (ms : list SyncMessage.t) (p : SyncProtocol.t) : Prop :=
  outgoing p = ms ∧ max_payload p = mx ∧ in_u 16 (seq p).
Lemma next_seq_ok mx ms p :
  queued mx ms p → queued mx ms (next_seq p).1 ∧ in_u 16 (next_seq p).2.
Proof. intros (? & ? & ?). split; [|done]. split_and!; cbn; first [done | apply (wrap_bound 16); lia]. Qed.

Lemma queue_document_ok mx ms p d :
  0 < mx → queued mx ms p → Forall sendable ms →
  ∃ p' ms', queue_document p d = Ok p' ∧ queued mx ms' p' ∧ Forall sendable ms'.
Proof.
  intros Hmx Hp Hms. unfold queue_document. cbv zeta.
  assert (queued mx ms (if bool_decide (SyncProtocol.state p = SyncProtocolState.Idle)
    then set_state p SyncProtocolState.SendingDocuments else p)) as Hp1 by (by case_bool_decide).
  destruct (next_seq_ok _ _ _ Hp1) as [Hp2 Hn].
  destruct (next_seq _) as [p2 n]. cbn [fst snd] in *. destruct Hp2 as (Ho & Hm & Hs).
  destruct (fragments_sendable SyncMessageType.Document n d mx) as (fs & Hfs & Hall); [by right|exact Hn|exact Hmx|].
  rewrite Hm, Hfs. cbn [obind]. eexists _, _. split; [reflexivity|].
  split; [split; [reflexivity|split; [exact Hm|exact Hs]]|]. rewrite Ho. by apply Forall_app.
Qed.
Lemma queue_all_ok mx docs : ∀ ms p,
  0 < mx → queued mx ms p → Forall sendable ms →
  ∃ p' ms', queue_all p docs = Ok p' ∧ queued mx ms' p' ∧ Forall sendable ms'.
Proof.
  induction docs as [|d docs IH]; intros ms p Hmx Hp Hms; cbn [queue_all]; [by exists p, ms|].
  destruct (queue_document_ok mx ms p d) as (p1 & ms1 & -> & Hp1 & Hms1); [done..|].
  cbn [obind]. by apply (IH ms1).
Qed.
Lemma prepare_ok p v docs :
  0 < max_payload p → outgoing p = [] →
  ∃ p' ms n, prepare p v docs = Ok p' ∧ Forall sendable ms ∧ in_u 16 n
    ∧ outgoing p' = ms ++ [SyncMessage.new SyncMessageType.EndSync n []].
Proof.
  intros Hmx Ho. unfold prepare, start_sync, next_seq. cbv zeta.
  destruct (fragments_sendable SyncMessageType.SyncVector 0 v (max_payload p)) as (fs & Hfs & Hall);
    [by left|done..|].
  change (max_payload (set_seq _ _)) with (max_payload p).
  change (seq (set_seq (SyncProtocol.set_state p SyncProtocolState.SendingVector) 0)) with 0.
  rewrite Hfs. cbn [obind].
  match goal with |- context [set_outgoing ?q _] => set (p1 := q) end.
  destruct (queue_all_ok (max_payload p) docs fs (set_outgoing p1 (outgoing p1 ++ fs)))
    as (p2 & ms & -> & (Ho2 & _ & Hs2) & Hms); [done| |done|].
  { split; [|split; [reflexivity|by change (in_u 16 1)]]. change (outgoing p1) with (outgoing p).
    by rewrite Ho. }
  cbn [obind]. eexists _, ms, (seq p2). split; [done|]. split; [done|]. split; [done|].
  unfold end_sync, next_seq. change (outgoing p2 ++ [SyncMessage.new SyncMessageType.EndSync (seq p2) []]
    = ms ++ [SyncMessage.new SyncMessageType.EndSync (seq p2) []]). by rewrite Ho2.
Qed.

Lemma written s m :
  msg_wf m →
  let h := SyncDataHeader.mk (SyncMessage.op_of (SyncMessage.msg_type m)) (SyncMessage.seq m)
             (SyncMessage.total_fragments m) (SyncMessage.fragment_index m) in
  write_sync_data s (SyncMessage.encode m)
  = let '(s', answer) := handle_sync_data s h (SyncMessage.payload m) in Ok (s', Okay answer).
Proof.
  intros Hm. cbv zeta. pose proof (message_decode_encode m Hm) as Hd.
  destruct Hm as (_ & Hs & Ht & Hi). unfold write_sync_data. revert Hd. unfold SyncMessage.decode.
  assert (SyncDataHeader.decode (SyncMessage.encode m)
    = Ok (SyncDataHeader.mk (SyncMessage.op_of (SyncMessage.msg_type m)) (SyncMessage.seq m)
        (SyncMessage.total_fragments m) (SyncMessage.fragment_index m))) as ->
    by (by apply CharacteristicProofs.data_header_decode_encode).
  cbn [opt obind]. destruct (if _ <? _ then _ else _) as [payload| |]; [|done..].
  cbn [obind]. intros [= <-]. done.
Qed.
Lemma ack_processed p n :
  in_u 16 n →
  ∃ p', process_incoming p (SyncDataHeader.encode (SyncDataHeader.new SyncDataOp.Ack n)) = Ok (p', None)
    ∧ outgoing p' = outgoing p.
Proof.
  intros Hn. set (m := SyncMessage.new SyncMessageType.Ack n []).
  assert (SyncDataHeader.encode (SyncDataHeader.new SyncDataOp.Ack n) = SyncMessage.encode m) as ->
    by (unfold SyncMessage.encode; by rewrite app_nil_r).
  unfold process_incoming. rewrite message_decode_encode by (split_and!; cbn; (done || lia)). cbn [opt obind].
  eexists. split; [done|]. done.
Qed.

(** A service between the messages of a session: its callback is not called. *)
Lemma answered s m :
  sendable m →
  ∃ s', write_sync_data s (SyncMessage.encode m)
        = Ok (s', Okay (Some (SyncDataHeader.encode
                                (SyncDataHeader.new SyncDataOp.Ack (SyncMessage.seq m)))))
    ∧ calls s' = calls s ∧ callback s' = callback s.
Proof.
  intros [Hm Hty]. rewrite written by done. unfold handle_sync_data.
  destruct Hty as [-> | ->]; cbn; eexists; (split; [done|]); [done|]. by open_service.
Qed.
Lemma ended s h payload :
  SyncDataHeader.op h = SyncDataOp.End_ →
  ∃ s', handle_sync_data s h payload = (s', None)
    ∧ SyncStateData.state (ServiceState.sync_state (PeatGattService.state s')) = SyncState.Complete
    ∧ progress s' = 100 ∧ StatusFlags.is_syncing (flags s') = false
    ∧ calls s' = calls s ++ (if callback s then [(GattEvent.SyncDataReceived h payload, true)] else []).
Proof.
  intros Hop. unfold handle_sync_data. rewrite Hop. eexists. split; [done|].
  assert (∀ f, StatusFlags.is_syncing (Z.land f (not_u8 StatusFlags.SYNCING)) = false) as Hfl
    by (intros f; apply (flag_mask_bits f 1 1); [set_solver|lia]).
  unfold flags. open_service. split_and!; [done|done|apply Hfl|]. destruct cb; [done|by rewrite app_nil_r].
Qed.
Lemma session_runs ms n : ∀ fuel p s,
  Forall sendable ms → in_u 16 n → (length ms < fuel)%nat →
  outgoing p = ms ++ [SyncMessage.new SyncMessageType.EndSync n []] →
  ∃ p' s', exchange fuel p s = Ok (p', s') ∧ outgoing p' = []
    ∧ SyncStateData.state (ServiceState.sync_state (PeatGattService.state s')) = SyncState.Complete
    ∧ progress s' = 100 ∧ StatusFlags.is_syncing (flags s') = false
    ∧ calls s' = calls s ++ (if callback s then
        [(GattEvent.SyncDataReceived (SyncDataHeader.new SyncDataOp.End_ n) [], true)] else []).
Proof.
  induction ms as [|m ms IH]; intros [|fuel] p s Hms Hn Hf Ho; cbn [length] in Hf; try lia;
    cbn [exchange]; unfold next_outgoing at 1; rewrite Ho; cbn [app].
  - rewrite written by (split_and!; cbn; (done || lia)). cbv zeta.
    match goal with |- context [handle_sync_data s ?h ?p] =>
      destruct (ended s h p eq_refl) as (s1 & -> & Hst & Hpr & Hfl & Hca) end.
    cbn [obind snd fst]. exists (set_outgoing p []), s1. by destruct fuel.
  - apply Forall_cons in Hms as [Hm Hms].
    destruct (answered s m Hm) as (s1 & -> & Hc & Hcb). cbn [obind snd fst].
    destruct (ack_processed (set_outgoing p (ms ++ [SyncMessage.new SyncMessageType.EndSync n []]))
      (SyncMessage.seq m)) as (p1 & -> & Ho1); [apply Hm|]. cbn [obind fst].
    destruct (IH fuel p1 s1) as (p' & s' & He & Ho' & Hst & Hpr & Hfl & Hca); [done|done|lia|done|].
    exists p', s'. by rewrite <-Hc, <-Hcb.
Qed.
End GattSessionProofs.

Module GattServiceProperties.
Import PeatGattService GattServiceProofs GattSession GattSessionProofs.

(** C25: whatever bytes clients write and whatever the node reports, no handler
    of the service panics; what a client then reads is well formed and decodes
    to the state of the service, progress is at most 100 and battery at most
    100 or unknown, no client is listed twice; and each flag of the status
    tells what was last said about it: syncing since the last document or end
    that was written, low battery by the last reading, connected by the last
    news of the parent, and no other flag is ever raised. *)
Theorem gatt_service_sound node_id level capabilities cb es
    (Hid : in_u 32 node_id) (Hcap : in_u 16 capabilities) (Htyped : Forall typed es) :
  let start := mk (ServiceState.new node_id level capabilities) cb [] in
  ∃ s, run start es = Ok s
    ∧ NodeInfo.decode (read_node_info s) = Ok (ServiceState.node_info (state s))
    ∧ SyncStateData.decode (read_sync_state s) = Ok (ServiceState.sync_state (state s))
    ∧ StatusData.decode (read_status s) = Ok (ServiceState.status (state s))
    ∧ progress s ≤ 100
    ∧ (NodeInfo.battery_percent (ServiceState.node_info (state s)) ≤ 100
       ∨ NodeInfo.battery_percent (ServiceState.node_info (state s)) = 255)
    ∧ NoDup (ServiceState.connected_clients (state s)) ∧ NoDup (sync_state_subscribers s)
    ∧ NoDup (status_subscribers s)
    ∧ ∀ k, 0 ≤ k < 8 → has_bit (flags s) (2 ^ k) = foldl (flag_next (2 ^ k)) false es.
Proof.
  intros start.
  assert (service_ok start) as Hok.
  { unfold service_ok, start. cbn. split_and!; first [done | lia | by right | constructor]. }
  destruct (service_runs es start Htyped Hok) as (s & Hr & Hn & Hb & Hy & Hp & Hst & ? & ? & ?).
  exists s. split; [done|]. unfold read_node_info, read_sync_state, read_status.
  split; [rewrite <-(app_nil_r (NodeInfo.encode _)); by apply CharacteristicProofs.node_info_decode_encode|].
  split; [rewrite <-(app_nil_r (SyncStateData.encode _));
          by apply CharacteristicProofs.sync_state_data_decode_encode|].
  split; [rewrite <-(app_nil_r (StatusData.encode _));
          by apply CharacteristicProofs.status_data_decode_encode|].
  split_and!; try done. intros k Hk. rewrite (run_flags es start s k) by done.
  done.
Qed.

Lemma gatt_service_sound_witness :
  let a := str "AA"%string in
  let es := [ClientConnected a; ClientConnected a; Subscribe a (str "status"%string);
             WriteSyncData [1; 0; 7; 1; 0; 9]; WriteSyncData [1]; UpdateBattery 12;
             UpdateParentStatus true None; UpdateBattery 120; WriteCommand [16; 2]] in
  ∃ s, run (mk (ServiceState.new 5 HierarchyLevel.Platform 3) true []) es = Ok s
    ∧ progress s ≤ 100 ∧ NoDup (status_subscribers s)
    ∧ has_bit (flags s) StatusFlags.SYNCING = true
    ∧ has_bit (flags s) StatusFlags.LOW_BATTERY = false.
Proof.
  intros a es.
  destruct (gatt_service_sound 5 HierarchyLevel.Platform 3 true es)
    as (s & Hr & _ & _ & _ & Hp & _ & _ & _ & Hs & Hf).
  - by_decide.
  - by_decide.
  - repeat apply Forall_cons_2; try apply Forall_nil_2; by_decide.
  - exists s. split; [exact Hr|]. split; [exact Hp|]. split; [exact Hs|]. split.
    + apply (Hf 1). lia.
    + apply (Hf 3). lia.
Defined.

(** A session written to the service: a sync vector, any documents in any
    number of fragments, and the end.  The service answers every write before
    the end, the client's queue is drained, and the service reports a complete
    sync, at 100 percent and no longer syncing.  But of all that was written
    the application is called with the header of the end alone: the service
    keeps no byte of the vector or the documents. *)
Theorem gatt_session_completes (p : SyncProtocol.t) (s : t) sync_vector docs
    (Hmtu : 0 < SyncProtocol.max_payload p) (Hidle : SyncProtocol.outgoing p = []) :
  ∃ p' n, prepare p sync_vector docs = Ok p' ∧ in_u 16 n
    ∧ ∀ fuel, (length (SyncProtocol.outgoing p') ≤ fuel)%nat →
      ∃ p'' s', exchange fuel p' s = Ok (p'', s') ∧ SyncProtocol.outgoing p'' = []
        ∧ SyncStateData.state (ServiceState.sync_state (state s')) = SyncState.Complete
        ∧ progress s' = 100 ∧ StatusFlags.is_syncing (flags s') = false
        ∧ calls s' = calls s ++ (if callback s then
            [(GattEvent.SyncDataReceived (SyncDataHeader.new SyncDataOp.End_ n) [], true)] else []).
Proof.
  destruct (prepare_ok p sync_vector docs Hmtu Hidle) as (p' & ms & n & Hp & Hms & Hn & Ho).
  exists p', n. split; [done|]. split; [done|]. intros fuel Hf. rewrite Ho, length_app in Hf.
  cbn [length] in Hf. apply (session_runs ms n); [done|done|lia|done].
Qed.

Lemma gatt_session_completes_witness :
  let service := set_event_callback (new 5 HierarchyLevel.Squad 0) in
  ∃ p' n p'' s', prepare SyncProtocol.new [1; 2; 3] [replicate 40 7; [9]] = Ok p'
    ∧ length (SyncProtocol.outgoing p') = 6%nat
    ∧ exchange 6 p' service = Ok (p'', s') ∧ progress s' = 100
    ∧ calls s' = [(GattEvent.SyncDataReceived (SyncDataHeader.new SyncDataOp.End_ n) [], true)].
Proof.
  intros service.
  destruct (gatt_session_completes SyncProtocol.new service [1; 2; 3] [replicate 40 7; [9]])
    as (p' & n & Hp & _ & Hrun).
  - by vm_compute.
  - reflexivity.
  - assert (length (SyncProtocol.outgoing p') = 6%nat) as Hl.
    { revert Hp. vm_compute. by intros [= <-]. }
    destruct (Hrun 6%nat) as (p'' & s' & He & _ & _ & Hpr & _ & Hc); [by rewrite Hl|].
    exists p', n, p'', s'. split; [exact Hp|]. split; [exact Hl|]. split; [exact He|].
    split; [exact Hpr|]. rewrite Hc. reflexivity.
Defined.

(** A sync that a command stops leaves the flag: the service is idle and says
    that it is syncing. *)
Example stopped_sync_is_still_flagged :
  match run (new 5 HierarchyLevel.Squad 0) [WriteSyncData [1; 0; 7; 1; 0]; WriteCommand [2]] with
  | Ok s => SyncStateData.state (ServiceState.sync_state (state s)) = SyncState.Idle
            ∧ StatusFlags.is_syncing (flags s) = true
  | _ => False
  end.
Proof. by vm_compute. Qed.
(** An unknown command is taken for a ping, an unknown operation for a
    document. *)
Example unknown_writes_are_accepted :
  match run (set_event_callback (new 5 HierarchyLevel.Squad 0))
          [WriteCommand [0x77]; WriteSyncData [0x77; 0; 7; 1; 0]] with
  | Ok s => calls s = [(GattEvent.CommandReceived CommandType.Ping [], false)]
            ∧ SyncStateData.state (ServiceState.sync_state (state s)) = SyncState.Syncing
  | _ => False
  end.
Proof. by vm_compute. Qed.
(** A client that never connected is subscribed, and stays so. *)
Example strangers_are_subscribed :
  match run (new 5 HierarchyLevel.Squad 0) [Subscribe [1] (str "sync_state"%string)] with
  | Ok s => connected_client_count s = 0 ∧ sync_state_subscribers s = [[1]]
  | _ => False
  end.
Proof. by vm_compute. Qed.

End GattServiceProperties.
