(* ===== verification/DocStore.v ===== *)
(** * Document stores: src/src/persistence.rs.

    A store keeps one document.  [DocumentStore] is the trait, with what it
    promises in [DocumentStoreLaws]; the three stores of the file are its
    instances.  The file system is the class [FileSystem]; a store that is
    shared is a place in a heap, and its clones are the same place. *)

From Stdlib Require Import String.
From stdpp Require Import base numbers list gmap functions.
From S2P Require Import Prelude Document Crypto Ble.
Open Scope Z_scope.
Open Scope peat_scope.

Class DocumentStore (S : Type) := {
  save : S → PeatDocument.t → S * result unit BleError.t;
  load : S → outcome (result (option PeatDocument.t) BleError.t);
  clear : S → S * result unit BleError.t
}.
(** [storable]: the documents the store can keep. *)
Class DocumentStoreLaws (S : Type) `{!DocumentStore S} (storable : PeatDocument.t → Prop) := {
  save_load s d s' : storable d → save s d = (s', Okay tt) → load s' = Ok (Okay (Some d));
  clear_load s s' : clear s = (s', Okay tt) → load s' = Ok (Okay None)
}.
(** [self.load().ok().flatten().is_some()] *)
Definition has_document {S} `{!DocumentStore S} (self : S) : outcome bool :=
  let! r := load self in
  Ok (match r with Okay (Some _) => true | _ => false end).

Module MemoryStore.
Record t := mk { document : option PeatDocument.t }.
Definition new : t := mk None.
Definition with_document (doc : PeatDocument.t) : t := mk (Some doc).
Definition memory_save (self : t) (doc : PeatDocument.t) : t * result unit BleError.t :=
  (mk (Some doc), Okay tt).
Definition memory_load (self : t) : outcome (result (option PeatDocument.t) BleError.t) :=
  Ok (Okay (document self)).
Definition memory_clear (self : t) : t * result unit BleError.t := (mk None, Okay tt).
#[global] Instance memory_store : DocumentStore t :=
  {| save := memory_save; load := memory_load; clear := memory_clear |}.
#[global] Instance memory_store_laws : DocumentStoreLaws t (λ _, True).
Proof. split; [by intros s d s' _ [= <-]|by intros s s' [= <-]]. Qed.
End MemoryStore.

(** An error of the file system: that there is no such file, or another, with
    its text. *)
Module IoError.
Inductive t := NotFound (text : list Z) | Other (text : list Z).
Definition display (self : t) : list Z := match self with NotFound text | Other text => text end.
End IoError.
Class FileSystem (F : Type) := {
  fs_write : F → list Z → list Z → F * result unit IoError.t;
  fs_read : F → list Z → result (list Z) IoError.t;
  fs_remove : F → list Z → F * result unit IoError.t
}.
Class FileSystemLaws (F : Type) `{!FileSystem F} := {
  write_read fs path data fs' : fs_write fs path data = (fs', Okay tt) → fs_read fs' path = Okay data;
  remove_read fs path fs' :
    fs_remove fs path = (fs', Okay tt) → ∃ text, fs_read fs' path = Err (IoError.NotFound text);
  remove_missing fs path fs' text :
    fs_remove fs path = (fs', Err (IoError.NotFound text)) →
    ∃ text, fs_read fs' path = Err (IoError.NotFound text)
}.

Module FileStore.
Record t (F : Type) := mk { path : list Z; files : F }.
#[global] Arguments mk {F}.
#[global] Arguments path {F}.
#[global] Arguments files {F}.

Section file.
Context (legacy_chat : bool) {F : Type} `{!FileSystem F}.
Definition new (path : list Z) (files : F) : t F := mk path files.
Definition failed (what : list Z) (e : IoError.t) : BleError.t :=
  BleError.NotSupported (str "Failed to "%string ++ what ++ str " document: "%string ++ IoError.display e).
Definition file_save (self : t F) (doc : PeatDocument.t) : t F * result unit BleError.t :=
  let '(files, r) := fs_write (files self) (path self) (PeatDocument.encode legacy_chat doc) in
  (mk (path self) files,
   match r with Okay _ => Okay tt | Err e => Err (failed (str "write"%string) e) end).
Definition file_load (self : t F) : outcome (result (option PeatDocument.t) BleError.t) :=
  match fs_read (files self) (path self) with
  | Okay data => let! doc := opt (PeatDocument.decode legacy_chat data) in Ok (Okay doc)
  | Err (IoError.NotFound _) => Ok (Okay None)
  | Err e => Ok (Err (failed (str "read"%string) e))
  end.
Definition file_clear (self : t F) : t F * result unit BleError.t :=
  let '(files, r) := fs_remove (files self) (path self) in
  (mk (path self) files,
   match r with
   | Okay _ | Err (IoError.NotFound _) => Okay tt
   | Err e => Err (failed (str "clear"%string) e)
   end).
#[global] Instance file_store : DocumentStore (t F) :=
  {| save := file_save; load := file_load; clear := file_clear |}.

#[global] Instance file_store_laws `{!FileSystemLaws F} :
  DocumentStoreLaws (t F) (λ d, PeatDocument.wf legacy_chat d ∧ PeatDocument.sendable d).
Proof.
  split.
  - intros s d s' [Hwf Hs]. cbn. unfold file_save.
    destruct (fs_write _ _ _) as [fs' [[]|e]] eqn:E; [intros [= <-]|done].
    unfold file_load. cbn. by rewrite (write_read _ _ _ _ E), DocumentProofs.document_decode_encode.
  - intros s s'. cbn. unfold file_clear.
    destruct (fs_remove _ _) as [fs' [[]|[text|text]]] eqn:E; [intros [= <-]..|done]; unfold file_load; cbn.
    + by destruct (remove_read _ _ _ E) as [text ->].
    + by destruct (remove_missing _ _ _ _ E) as [text' ->].
Qed.
End file.
End FileStore.

Module SharedStore.
Section shared.
Context {S : Type} `{!DocumentStore S}.

(** What every place holds; a handle is a place, and its clone is the same. *)
Local Notation heap := (nat → S).
Definition new (inner : heap) (place : nat) (store : S) : heap := <[place := store]> inner.
Definition clone (self : nat) : nat := self.
Definition shared_save (self : nat) (inner : heap) (doc : PeatDocument.t)
    : heap * result unit BleError.t :=
  let '(store, r) := save (inner self) doc in (<[self := store]> inner, r).
Definition shared_load (self : nat) (inner : heap)
    : outcome (result (option PeatDocument.t) BleError.t) := load (inner self).
Definition shared_clear (self : nat) (inner : heap) : heap * result unit BleError.t :=
  let '(store, r) := clear (inner self) in (<[self := store]> inner, r).
Definition shared_store (self : nat) : DocumentStore heap :=
  {| save := shared_save self; load := shared_load self; clear := shared_clear self |}.

Lemma shared_store_laws (self : nat) storable `{!DocumentStoreLaws S storable} :
  @DocumentStoreLaws heap (shared_store self) storable.
Proof.
  split; cbn.
  - intros inner d inner' Hd. unfold shared_save, shared_load.
    destruct (save (inner self) d) as [s' r] eqn:E. intros [= <- ->].
    rewrite fn_lookup_insert. by eapply save_load.
  - intros inner inner'. unfold shared_clear, shared_load.
    destruct (clear (inner self)) as [s' r] eqn:E. intros [= <- ->].
    rewrite fn_lookup_insert. by eapply clear_load.
Qed.
End shared.
End SharedStore.

(** * Theorems *)

Module DocStoreProofs.

(** A history of a store: what is saved, or that it is cleared. *)
Fixpoint history {S} `{!DocumentStore S} (s : S) (es : list (option PeatDocument.t)) : option S :=
  match es with
  | [] => Some s
  | e :: es =>
      match (match e with Some d => save s d | None => clear s end) with
      | (s', Okay _) => history s' es
      | (_, Err _) => None
      end
  end.

(** A store in which every call has succeeded holds what was saved last,
    unless it was cleared since. *)
Lemma store_holds_the_last {S} `{!DocumentStore S, !DocumentStoreLaws S storable}
    (s s' : S) es e :
  history s (es ++ [e]) = Some s' → (∀ d, e = Some d → storable d) →
  load s' = Ok (Okay e) ∧ has_document s' = Ok (bool_decide (is_Some e)).
Proof.
  intros Hh Hd. enough (load s' = Ok (Okay e)) as Hl
    by (split; [done|]; unfold has_document; rewrite Hl; by destruct e).
  revert s Hh. induction es as [|x es IH]; intros s; cbn.
  - destruct e as [d|]; [destruct (save s d) as [? [[]|]] eqn:E|destruct (clear s) as [? [[]|]] eqn:E];
      intros [= ->]; [eapply save_load; [by apply Hd|done]|by eapply clear_load].
  - destruct (match x with Some d => save s d | None => clear s end) as [? [[]|]]; [apply IH|done].
Qed.

(** What is saved through one handle of a shared file is loaded through its
    clone, and a store at another place is left as it is. *)
Lemma clones_share {F} `{!FileSystem F, !FileSystemLaws F} legacy_chat (self : nat)
    (inner inner' : nat → FileStore.t F) d :
  PeatDocument.wf legacy_chat d → PeatDocument.sendable d →
  @SharedStore.shared_save _ (FileStore.file_store legacy_chat) self inner d = (inner', Okay tt) →
  @SharedStore.shared_load (FileStore.t F) (FileStore.file_store legacy_chat)
    (SharedStore.clone self) inner' = Ok (Okay (Some d))
  ∧ ∀ other, other ≠ self → inner' other = inner other.
Proof.
  intros Hwf Hs Hsave. split.
  - pose (laws := @SharedStore.shared_store_laws _ (FileStore.file_store legacy_chat) self _
      (FileStore.file_store_laws legacy_chat)).
    by eapply (@save_load _ _ _ laws).
  - intros other Hne. revert Hsave. unfold SharedStore.shared_save.
    destruct (save (inner self) d). intros [= <- _]. by apply fn_lookup_insert_ne.
Qed.

(** A file that was cut is taken for no file: a node that starts from it starts
    afresh and is told nothing. *)
Lemma damaged_file_is_no_document {F} `{!FileSystem F} legacy_chat path (fs : F) data :
  fs_read fs path = Okay data → PeatDocument.decode legacy_chat data = Fail →
  FileStore.file_load legacy_chat (FileStore.new path fs) = Ok (Okay None).
Proof. intros Hr Hd. unfold FileStore.file_load. cbn. by rewrite Hr, Hd. Qed.

End DocStoreProofs.
