(* ===== verification/Adapter.v ===== *)
(** * Adapters: the interface of src/src/platform/mod.rs, its stub, and the
    simulated adapter of src/src/platform/mock.rs.

    An adapter is the code that talks to a radio.  The class [BleAdapter] has
    the operations that src/src/transport.rs uses, on a state [S] that they
    change; [AdapterLaws] says what a write promises.  Connections that were
    handed out share a flag with the adapter that says whether they are alive;
    here a connection is the picture of it when it was handed out. *)

From Stdlib Require Import String.
From stdpp Require Import base numbers list gmap sets.
From S2P Require Import Prelude Crypto Config PeerGraph GattService Ble.
Open Scope Z_scope.
Open Scope peat_scope.

(** What the system of a platform answers; an error is its text. *)
Definition answer (A : Type) : Type := result A (list Z).
(** [result.map_err(|e| error(format!("text: {}", e)))] *)
Definition failed_to {A} (error : list Z → BleError.t) (text : string) (a : answer A)
    : result A BleError.t :=
  match a with Okay x => Okay x | Err e => Err (error (str text ++ str ": "%string ++ e)) end.
(** [?] *)
Definition bind {A B E} (r : result A E) (k : A → result B E) : result B E :=
  match r with Okay a => k a | Err e => Err e end.

Module BleConnection.
Record t := mk { peer_id : Z; is_alive : bool; mtu : Z; phy : BlePhy.t; rssi : option Z }.
End BleConnection.

Class BleAdapter (S : Type) := {
  start : S → S * result unit BleError.t;
  stop : S → S * result unit BleError.t;
  connect : S → Z → S * result BleConnection.t BleError.t;
  disconnect : S → Z → S * result unit BleError.t;
  get_connection : S → Z → option BleConnection.t;
  peer_count : S → Z;
  connected_peers : S → list Z;
  (** peer, characteristic, bytes *)
  write_to_peer : S → Z → list Z → list Z → S * result unit BleError.t
}.

(** [link s p]: the packets that have reached peer [p], oldest first. *)
Class AdapterLaws (S : Type) `{!BleAdapter S} := {
  link : S → Z → list (list Z);
  write_reaches : ∀ s p uuid data s',
    write_to_peer s p uuid data = (s', Okay tt) → link s' p = link s p ++ [data];
  write_fails : ∀ s p uuid data s' e,
    write_to_peer s p uuid data = (s', Err e) → link s' p = link s p
}.

(** The body of [write_to_peer] in the trait. *)
Definition default_write_to_peer {S} (self : S) (peer_id : Z) (char_uuid data : list Z)
    : S * result unit BleError.t :=
  (self, Err (BleError.NotSupported (str "write_to_peer not implemented for this adapter"%string))).

Module StubAdapter.
Record t := mk { powered : bool }.
Definition default_adapter : t := mk false.
Definition init (self : t) : t := mk true.
Definition address : list Z := str "00:00:00:00:00:00"%string.
Definition stub_connect (self : t) (peer_id : Z) : t * result BleConnection.t BleError.t :=
  (self, Err (BleError.NotSupported (str "Stub adapter cannot connect to "%string ++ NodeId.display peer_id))).
Definition max_mtu : Z := 23.
Definition max_connections : Z := 0.
#[global] Instance stub_adapter : BleAdapter t := {
  start s := (s, Okay tt); stop s := (s, Okay tt); connect := stub_connect;
  disconnect s _ := (s, Okay tt); get_connection _ _ := None; peer_count _ := 0;
  connected_peers _ := []; write_to_peer := default_write_to_peer
}.
End StubAdapter.

(** The stubs of src/src/platform/android: the radio is used from Kotlin. *)
Module AndroidConnection.
Definition new_stub (peer_id : Z) : BleConnection.t := BleConnection.mk peer_id false 23 BlePhy.Le1M None.
End AndroidConnection.
Module AndroidAdapter.
Definition t : Type := unit.
Definition new_stub : t := tt.
Definition use_kotlin : BleError.t :=
  BleError.NotSupported (str "Use Kotlin PeatBtle for Android BLE"%string).
Definition init (self : t) : t * result unit BleError.t := (self, Okay tt).
Definition is_powered (_self : t) : bool := true.
Definition address (_self : t) : option (list Z) := None.
Definition start_scan (self : t) : t * result unit BleError.t := (self, Err use_kotlin).
Definition stop_scan (self : t) : t * result unit BleError.t := (self, Err use_kotlin).
Definition start_advertising (self : t) : t * result unit BleError.t := (self, Err use_kotlin).
Definition stop_advertising (self : t) : t * result unit BleError.t := (self, Err use_kotlin).
Definition set_discovery_callback (self : t) (_callback : bool) : t := self.
Definition set_connection_callback (self : t) (_callback : bool) : t := self.
Definition register_gatt_service (self : t) : t * result unit BleError.t := (self, Err use_kotlin).
Definition unregister_gatt_service (self : t) : t * result unit BleError.t := (self, Err use_kotlin).
Definition supports_coded_phy : bool := false.
Definition supports_extended_advertising : bool := false.
Definition max_mtu : Z := 517.
Definition max_connections : Z := 7.
Definition android_adapter : BleAdapter t := {|
  start s := (s, Okay tt); stop s := (s, Okay tt); connect s _ := (s, Err use_kotlin);
  disconnect s _ := (s, Err use_kotlin); get_connection _ _ := None; peer_count _ := 0;
  connected_peers _ := []; write_to_peer := default_write_to_peer
|}.
End AndroidAdapter.

(** ** The simulated network *)

Module DiscoveredDevice.
Record t := mk {
  address : list Z; name : option (list Z); rssi : Z; is_peat_node : bool; node_id : option Z;
  adv_data : list Z
}.
End DiscoveredDevice.
Module AdvertisingNode.
Record t := mk { node_id : Z; address : list Z; name : option (list Z); rssi : Z; adv_data : list Z }.
End AdvertisingNode.
Module DataPacket.
Record t := mk { from : Z; to : Z; data : list Z; timestamp : Z }.
End DataPacket.

Module MockNetwork.

(** Both directions of a connection hold the same flag: [connections] maps a
    pair of nodes to the index of its flag in [alive]. *)
Record t := mk {
  advertising_nodes : gmap Z AdvertisingNode.t;
  connections : gmap (Z * Z) nat;
  alive : list bool;
  data_queue : gmap Z (list DataPacket.t)
}.

Definition new : t := mk ∅ ∅ [] ∅.
Definition start_advertising (self : t) (node_id : Z) (address : list Z) (name : option (list Z)) : t :=
  mk (<[node_id := AdvertisingNode.mk node_id address name (-50) []]> (advertising_nodes self))
    (connections self) (alive self) (data_queue self).
Definition stop_advertising (self : t) (node_id : Z) : t :=
  mk (delete node_id (advertising_nodes self)) (connections self) (alive self) (data_queue self).
Definition discover_nodes `{!MapOrder Z} (self : t) (observer : Z) : list DiscoveredDevice.t :=
  map (λ n, DiscoveredDevice.mk (AdvertisingNode.address n) (AdvertisingNode.name n)
              (AdvertisingNode.rssi n) true (Some (AdvertisingNode.node_id n))
              (AdvertisingNode.adv_data n))
    (filter (λ n, AdvertisingNode.node_id n ≠ observer) (map_iter (advertising_nodes self)).*2).
Definition connect_nodes (self : t) (from to : Z) : t * result unit BleError.t :=
  match advertising_nodes self !! to with
  | None => (self, Err (BleError.ConnectionFailed
              (str "Node "%string ++ NodeId.display to ++ str " is not advertising"%string)))
  | Some _ =>
      let flag := length (alive self) in
      (mk (advertising_nodes self) (<[(to, from) := flag]> (<[(from, to) := flag]> (connections self)))
         (alive self ++ [true]) (data_queue self), Okay tt)
  end.
(** [if let Some(state) = connections.remove(..) { state.alive.store(false) }] *)
Definition remove_connection (self : t) (key : Z * Z) : t :=
  match connections self !! key with
  | Some flag => mk (advertising_nodes self) (delete key (connections self))
                   (<[flag := false]> (alive self)) (data_queue self)
  | None => self
  end.
Definition disconnect_nodes (self : t) (from to : Z) : t :=
  remove_connection (remove_connection self (from, to)) (to, from).
Definition is_connected (self : t) (from to : Z) : bool :=
  match connections self !! (from, to) with
  | Some flag => default false (alive self !! flag)
  | None => false
  end.
Definition send_data (self : t) (from to : Z) (data : list Z) (now : Z) : t * result unit BleError.t :=
  match connections self !! (from, to) with
  | None => (self, Err (BleError.ConnectionFailed (str "No connection from "%string
              ++ NodeId.display from ++ str " to "%string ++ NodeId.display to)))
  | Some _ =>
      let packets := default [] (data_queue self !! to) ++ [DataPacket.mk from to data now] in
      (mk (advertising_nodes self) (connections self) (alive self)
         (<[to := packets]> (data_queue self)), Okay tt)
  end.
Definition receive_data (self : t) (node_id : Z) : t * list DataPacket.t :=
  (mk (advertising_nodes self) (connections self) (alive self) (delete node_id (data_queue self)),
   default [] (data_queue self !! node_id)).
Definition connected_to `{!MapOrder (Z * Z)} (self : t) (node_id : Z) : list Z :=
  map (λ e, e.1.2) (filter (λ e, e.1.1 = node_id) (map_iter (connections self))).
Definition reset (self : t) : t := mk ∅ ∅ (alive self) ∅.

End MockNetwork.

(** ** The simulated adapter *)

Module MockConnection.
Record t := mk { peer_id : Z; mtu : Z; phy : BlePhy.t; rssi : Z; alive : bool }.
Definition new (peer_id mtu : Z) (phy : BlePhy.t) : t := mk peer_id mtu phy (-50) true.
Definition kill (self : t) : t := mk (peer_id self) (mtu self) (phy self) (rssi self) false.
Definition set_rssi (self : t) (rssi : Z) : t := mk (peer_id self) (mtu self) (phy self) rssi (alive self).
Definition set_mtu (self : t) (mtu : Z) : t := mk (peer_id self) mtu (phy self) (rssi self) (alive self).
Definition as_connection (self : t) : BleConnection.t :=
  BleConnection.mk (peer_id self) (alive self) (mtu self) (phy self) (Some (rssi self)).
End MockConnection.

(** The failure rate is the bit pattern of an [f32]; the latencies are
    milliseconds.  The adapter uses neither. *)
Module MockAdapterConfig.
Record t := mk {
  connection_failure_rate : Z; connection_latency : Z; scan_latency : Z; supports_coded_phy : bool;
  supports_extended_advertising : bool; max_mtu : Z; max_connections : Z
}.
Definition default_config : t := mk 0 50 10 true true 517 8.
End MockAdapterConfig.

Module MockEvent.
Inductive t :=
| Initialized | Started | Stopped | ScanStarted | ScanStopped | AdvertisingStarted
| AdvertisingStopped | Connected (n : Z) | Disconnected (n : Z) (reason : DisconnectReason.t)
| GattServiceRegistered | GattServiceUnregistered.
End MockEvent.

Module ConnectionEvent.
Inductive t :=
| Connected (mtu : Z) (phy : BlePhy.t) | Disconnected (reason : DisconnectReason.t)
| ServicesDiscovered (has_peat_service : bool) | DataReceived (data : list Z) | MtuChanged (mtu : Z)
| PhyChanged (phy : BlePhy.t) | RssiUpdated (rssi : Z).
End ConnectionEvent.

Module MockBleAdapter.

(** A callback is set or not; what it is called with is recorded. *)
Record t := mk {
  node_id : Z; config : MockAdapterConfig.t; powered : bool; scanning : bool; advertising : bool;
  address : list Z; discovery_callback : bool; connection_callback : bool;
  connections : gmap Z MockConnection.t; events : list MockEvent.t;
  discovered : list DiscoveredDevice.t; called : list (Z * ConnectionEvent.t)
}.

Definition with_config (node_id : Z) (config : MockAdapterConfig.t) : t :=
  let byte k := NodeId.hex2 (Z.land (Z.shiftr node_id k) 0xFF) in
  mk node_id config false false false
    (str "00:11:22:"%string ++ byte 16 ++ [58] ++ byte 8 ++ [58] ++ byte 0) false false ∅ [] [] [].
Definition new (node_id : Z) : t := with_config node_id MockAdapterConfig.default_config.

Definition set_radio (self : t) (scanning advertising : bool) : t :=
  mk (node_id self) (config self) (powered self) scanning advertising (address self)
    (discovery_callback self) (connection_callback self) (connections self) (events self)
    (discovered self) (called self).
Definition record_event (self : t) (event : MockEvent.t) : t :=
  mk (node_id self) (config self) (powered self) (scanning self) (advertising self) (address self)
    (discovery_callback self) (connection_callback self) (connections self)
    (events self ++ [event]) (discovered self) (called self).
Definition clear_events (self : t) : t :=
  mk (node_id self) (config self) (powered self) (scanning self) (advertising self) (address self)
    (discovery_callback self) (connection_callback self) (connections self) [] (discovered self)
    (called self).
Definition set_connections (self : t) (m : gmap Z MockConnection.t) : t :=
  mk (node_id self) (config self) (powered self) (scanning self) (advertising self) (address self)
    (discovery_callback self) (connection_callback self) m (events self) (discovered self)
    (called self).
Definition set_callbacks (self : t) (discovery connection : bool) : t :=
  mk (node_id self) (config self) (powered self) (scanning self) (advertising self) (address self)
    discovery connection (connections self) (events self) (discovered self) (called self).
Definition discover (self : t) (devices : list DiscoveredDevice.t) : t :=
  if discovery_callback self then
    mk (node_id self) (config self) (powered self) (scanning self) (advertising self) (address self)
      (discovery_callback self) (connection_callback self) (connections self) (events self)
      (discovered self ++ devices) (called self)
  else self.
Definition call (self : t) (n : Z) (event : ConnectionEvent.t) : t :=
  if connection_callback self then
    mk (node_id self) (config self) (powered self) (scanning self) (advertising self) (address self)
      (discovery_callback self) (connection_callback self) (connections self) (events self)
      (discovered self) (called self ++ [(n, event)])
  else self.

Definition trigger_discovery `{!MapOrder Z} (self : t) (network : MockNetwork.t) : t :=
  discover self (MockNetwork.discover_nodes network (node_id self)).
Definition inject_data (self : t) (from : Z) (data : list Z) : t :=
  call self from (ConnectionEvent.DataReceived data).

(** *** [BleAdapter]: the adapter with the network it is part of *)

Definition world : Type := t * MockNetwork.t.

Definition init (self : t) : t :=
  record_event (mk (node_id self) (config self) true (scanning self) (advertising self)
    (address self) (discovery_callback self) (connection_callback self) (connections self)
    (events self) (discovered self) (called self)) MockEvent.Initialized.
Definition is_powered (self : t) : bool := powered self.
Definition mock_start (w : world) : world * result unit BleError.t :=
  ((record_event w.1 MockEvent.Started, w.2), Okay tt).
Definition mock_stop (w : world) : world * result unit BleError.t :=
  let '(self, network) := w in
  ((record_event (set_radio self false false) MockEvent.Stopped,
    MockNetwork.stop_advertising network (node_id self)), Okay tt).
Definition start_scan (self : t) : t :=
  record_event (set_radio self true (advertising self)) MockEvent.ScanStarted.
Definition stop_scan (self : t) : t :=
  record_event (set_radio self false (advertising self)) MockEvent.ScanStopped.
Definition start_advertising (w : world) : world :=
  let '(self, network) := w in
  (record_event (set_radio self (scanning self) true) MockEvent.AdvertisingStarted,
   MockNetwork.start_advertising network (node_id self) (address self) (Some (str "PEAT"%string))).
Definition stop_advertising (w : world) : world :=
  let '(self, network) := w in
  (record_event (set_radio self (scanning self) false) MockEvent.AdvertisingStopped,
   MockNetwork.stop_advertising network (node_id self)).
Definition set_discovery_callback (self : t) (set : bool) : t :=
  set_callbacks self set (connection_callback self).
Definition set_connection_callback (self : t) (set : bool) : t :=
  set_callbacks self (discovery_callback self) set.

Definition mock_connect (w : world) (peer_id : Z) : world * result BleConnection.t BleError.t :=
  let '(self, network) := w in
  if MockAdapterConfig.max_connections (config self) <=? Z.of_nat (size (connections self)) then
    (w, Err (BleError.ConnectionFailed (str "Maximum connections reached"%string)))
  else
    let '(network, r) := MockNetwork.connect_nodes network (node_id self) peer_id in
    match r with
    | Err e => ((self, network), Err e)
    | Okay _ =>
        let conn := MockConnection.new peer_id (MockAdapterConfig.max_mtu (config self)) BlePhy.Le1M in
        let self := set_connections self (<[peer_id := conn]> (connections self)) in
        let self := call self peer_id
                      (ConnectionEvent.Connected (MockConnection.mtu conn) (MockConnection.phy conn)) in
        ((record_event self (MockEvent.Connected peer_id), network),
         Okay (MockConnection.as_connection conn))
    end.
(** [conn.kill()] is seen by the connections handed out. *)
Definition simulate_disconnect (w : world) (peer_id : Z) (reason : DisconnectReason.t) : world :=
  let '(self, network) := w in
  let self := set_connections self (delete peer_id (connections self)) in
  let network := MockNetwork.disconnect_nodes network (node_id self) peer_id in
  let self := call self peer_id (ConnectionEvent.Disconnected reason) in
  (record_event self (MockEvent.Disconnected peer_id reason), network).
Definition mock_disconnect (w : world) (peer_id : Z) : world * result unit BleError.t :=
  (simulate_disconnect w peer_id DisconnectReason.LocalRequest, Okay tt).
Definition mock_get_connection (w : world) (peer_id : Z) : option BleConnection.t :=
  match connections w.1 !! peer_id with
  | Some c => if MockConnection.alive c then Some (MockConnection.as_connection c) else None
  | None => None
  end.
Definition alive_peers `{!MapOrder Z} (w : world) : list (Z * MockConnection.t) :=
  filter (λ e, MockConnection.alive e.2 = true) (map_iter (connections w.1)).
Definition mock_peer_count `{!MapOrder Z} (w : world) : Z := zlen (alive_peers w).
Definition mock_connected_peers `{!MapOrder Z} (w : world) : list Z := (alive_peers w).*1.
Definition register_gatt_service (self : t) : t := record_event self MockEvent.GattServiceRegistered.
Definition unregister_gatt_service (self : t) : t :=
  record_event self MockEvent.GattServiceUnregistered.
(** [now]: the time stamp of the packet. *)
Definition mock_write_to_peer (now : Z) (w : world) (peer_id : Z) (_char_uuid data : list Z)
    : world * result unit BleError.t :=
  let '(network, r) := MockNetwork.send_data w.2 (node_id w.1) peer_id data now in
  ((w.1, network), r).

Definition mock_adapter `{!MapOrder Z} (now : Z) : BleAdapter world := {|
  start := mock_start; stop := mock_stop; connect := mock_connect; disconnect := mock_disconnect;
  get_connection := mock_get_connection; peer_count := mock_peer_count;
  connected_peers := mock_connected_peers; write_to_peer := mock_write_to_peer now
|}.

End MockBleAdapter.

(** * Theorems *)

Module AdapterProofs.
Import MockBleAdapter.

#[export] Instance stub_laws : AdapterLaws StubAdapter.t.
Proof. refine {| link _ _ := [] |}; by intros. Defined.

(** The packets of this adapter in the queue of [p]. *)
Definition sent_to (w : world) (p : Z) : list (list Z) :=
  DataPacket.data <$> filter (λ d, DataPacket.from d = node_id w.1)
                        (default [] (MockNetwork.data_queue w.2 !! p)).
#[export] Instance mock_laws `{!MapOrder Z} now : @AdapterLaws world (mock_adapter now).
Proof.
  refine (Build_AdapterLaws world (mock_adapter now) sent_to _ _).
  - intros w p uuid data w'. cbn. unfold mock_write_to_peer, MockNetwork.send_data.
    destruct (MockNetwork.connections w.2 !! _); [|done]. intros [= <-]. unfold sent_to.
    cbn. rewrite lookup_insert_eq. cbn. rewrite filter_app, fmap_app. do 2 f_equal.
    rewrite filter_cons, decide_True by done. done.
  - intros w p uuid data w' e. cbn. unfold mock_write_to_peer, MockNetwork.send_data.
    destruct (MockNetwork.connections w.2 !! _); [done|]. intros [= <- _]. done.
Defined.

(** In the simulated network a connection has two directions, or none; they
    share a flag, which is up and is theirs alone. *)
Definition network_ok (n : MockNetwork.t) : Prop :=
  ∀ a b flag, MockNetwork.connections n !! (a, b) = Some flag →
    MockNetwork.connections n !! (b, a) = Some flag ∧ MockNetwork.alive n !! flag = Some true
    ∧ ∀ c d, MockNetwork.connections n !! (c, d) = Some flag → (c, d) = (a, b) ∨ (c, d) = (b, a).

Lemma connected_lookup n a b :
  network_ok n →
  MockNetwork.is_connected n a b = bool_decide (is_Some (MockNetwork.connections n !! (a, b))).
Proof.
  intros Hn. unfold MockNetwork.is_connected.
  destruct (MockNetwork.connections n !! (a, b)) as [f|] eqn:E; [|done].
  apply Hn in E as (_ & -> & _). done.
Qed.
Lemma connect_network n a b :
  network_ok n → is_Some (MockNetwork.advertising_nodes n !! b) →
  let n' := (MockNetwork.connect_nodes n a b).1 in
  network_ok n' ∧ ∀ c d, MockNetwork.is_connected n' c d
    = if decide ((c, d) = (a, b) ∨ (c, d) = (b, a)) then true else MockNetwork.is_connected n c d.
Proof.
  intros Hn [x Hx]. unfold MockNetwork.connect_nodes. rewrite Hx. cbn [fst].
  assert (∀ f c d, MockNetwork.connections n !! (c, d) = Some f → (f < length (MockNetwork.alive n))%nat)
    as Hlt by (intros f c d (_ & Ha & _)%Hn; by apply lookup_lt_Some in Ha).
  match goal with |- network_ok ?m ∧ _ => set (n' := m) end.
  assert (network_ok n') as Hn'.
  { intros c d f Hf. unfold n' in *. cbn in Hf |- *.
    rewrite !lookup_insert_Some in Hf. rewrite !lookup_insert_Some.
    setoid_rewrite lookup_insert_Some. setoid_rewrite lookup_insert_Some.
    destruct Hf as [[[= <- <-] <-]|[Hne [[[= <- <-] <-]|[Hne' Hf]]]].
    - split_and!; [|by rewrite lookup_app_r, Nat.sub_diag by done|].
      + destruct (decide ((b, a) = (a, b))) as [E|]; [by left|right]. split; [done|by left].
      + intros c' d' [[<- _]|[_ [[<- _]|[_ Hf]]]]; [by left|by right|]. apply Hlt in Hf. lia.
    - split_and!; [by left|by rewrite lookup_app_r, Nat.sub_diag by done|].
      intros c' d' [[<- _]|[_ [[<- _]|[_ Hf]]]]; [by right|by left|]. apply Hlt in Hf. lia.
    - pose proof (Hlt _ _ _ Hf). destruct (Hn _ _ _ Hf) as (Hs & Ha & Hu).
      split_and!; [|by apply lookup_app_l_Some|].
      + right. split; [intros [= -> ->]; by apply Hne'|right]. split; [|done].
        intros [= -> ->]. by apply Hne.
      + intros c' d' [[_ ?]|[_ [[_ ?]|[_ Hf']]]]; [lia..|]. by apply Hu. }
  split; [done|]. intros c d. rewrite !connected_lookup by done. unfold n'. cbn.
  destruct (decide _) as [Hd|Hd]; [apply bool_decide_eq_true; destruct Hd as [[= -> ->]|[= -> ->]]|
    apply bool_decide_ext].
  - destruct (decide ((b, a) = (a, b))) as [E|]; [rewrite <-E, lookup_insert_eq; by eexists|].
    rewrite lookup_insert_ne, lookup_insert_eq by done. by eexists.
  - rewrite lookup_insert_eq. by eexists.
  - rewrite !lookup_insert_ne; [done|intros E; apply Hd; auto..].
Qed.
Lemma disconnect_network n a b :
  network_ok n →
  let n' := MockNetwork.disconnect_nodes n a b in
  network_ok n' ∧ ∀ c d, MockNetwork.is_connected n' c d
    = if decide ((c, d) = (a, b) ∨ (c, d) = (b, a)) then false else MockNetwork.is_connected n c d.
Proof.
  intros Hn. cbv zeta.
  assert (∃ al, MockNetwork.disconnect_nodes n a b
    = MockNetwork.mk (MockNetwork.advertising_nodes n)
        (delete (b, a) (delete (a, b) (MockNetwork.connections n))) al (MockNetwork.data_queue n)
    ∧ ∀ f, (∀ c d, MockNetwork.connections n !! (c, d) = Some f → (c, d) ≠ (a, b) ∧ (c, d) ≠ (b, a)) →
        al !! f = MockNetwork.alive n !! f) as (al & -> & Hal).
  { destruct n as [adv conns al q]. unfold MockNetwork.disconnect_nodes, MockNetwork.remove_connection.
    cbn [MockNetwork.connections MockNetwork.alive MockNetwork.advertising_nodes MockNetwork.data_queue].
    destruct (conns !! (a, b)) as [f|] eqn:E; cbn [MockNetwork.connections MockNetwork.alive
      MockNetwork.advertising_nodes MockNetwork.data_queue].
    - destruct (Hn a b f E) as (Hs & _ & _). cbn in Hs.
      assert (∀ g, (∀ c d, conns !! (c, d) = Some g → (c, d) ≠ (a, b) ∧ (c, d) ≠ (b, a)) → f ≠ g) as Hne
        by (intros g Hg ->; by destruct (Hg a b E)).
      destruct (decide ((b, a) = (a, b))) as [Eab|Hab].
      + rewrite Eab, lookup_delete_eq. eexists. split; [by rewrite (delete_id (delete _ _)) by apply lookup_delete_eq|].
        intros g Hg. apply list_lookup_insert_ne, Hne. intros c d Hcd. rewrite Eab. by apply Hg.
      + rewrite lookup_delete_ne, Hs by done. eexists. split; [done|].
        intros g Hg. by rewrite !list_lookup_insert_ne by (apply Hne, Hg).
    - assert (conns !! (b, a) = None) as E' by
        (destruct (conns !! (b, a)) as [f|] eqn:E'; [|done]; apply Hn in E' as [E' _]; cbn in E'; congruence).
      rewrite E'. exists al. split; [|done]. by rewrite (delete_id conns), delete_id. }
  match goal with |- network_ok ?m ∧ _ => set (n' := m) end.
  assert (network_ok n') as Hn'.
  { intros c d f Hf. unfold n' in *. cbn in Hf |- *. rewrite !lookup_delete_Some in Hf.
    destruct Hf as (Hne & Hne' & Hf). destruct (Hn _ _ _ Hf) as (Hs & Ha & Hu). split_and!.
    - rewrite !lookup_delete_ne by naive_solver. done.
    - rewrite Hal; [done|]. intros c' d' [->| ->]%Hu; naive_solver.
    - intros c' d'. rewrite !lookup_delete_Some. intros (_ & _ & ?). by apply Hu. }
  split; [done|]. intros c d. rewrite !connected_lookup by done. unfold n'. cbn.
  destruct (decide _) as [Hd|Hd]; [apply bool_decide_eq_false; destruct Hd as [[= -> ->]|[= -> ->]]|
    apply bool_decide_ext].
  - rewrite lookup_delete_is_Some. intros [_ []%lookup_delete_is_Some]. done.
  - rewrite lookup_delete_eq. by intros [].
  - rewrite !lookup_delete_ne; [done|intros E; apply Hd; auto..].
Qed.
End AdapterProofs.
