(* ===== verification/LinuxConnection.v ===== *)
(** * The connection of src/src/platform/linux/connection.rs.

    BlueZ is outside: what a method of the bluer crate answers is an argument.  The queue of writes is used by any
    number of tasks at once: [WriteTasks] has a program counter for each of
    them, and a step of a task is what it does between two points at which
    another task can run. *)

From Stdlib Require Import String Sorting.Sorted.
From stdpp Require Import base numbers list sets sorting.
From S2P Require Import Prelude Crypto Config Ble Adapter.
Open Scope Z_scope.
Open Scope peat_scope.

(** ** Outside code *)

(** [uuid] is what [uuid().await.ok()] gives, the two [_io] what the MTU of
    the acquired end is, [notify] the number of the stream. *)
Module RemoteCharacteristic.
Record t := mk {
  uuid : option (list Z); read : answer (list Z); write : list Z → answer unit;
  write_io : answer Z; notify_io : answer Z; notify : answer Z
}.
End RemoteCharacteristic.
Module RemoteService.
Record t := mk { uuid : option (list Z); characteristics : answer (list RemoteCharacteristic.t) }.
End RemoteService.

(** ** The connection *)

Module QueuedWrite.
(** [complete_tx] is the number of the channel, which is that of the caller. *)
Record t := mk { service_uuid : list Z; char_uuid : list Z; data : list Z; complete_tx : nat }.
End QueuedWrite.
Module WriteQueueState.
Record t := mk { queue : list QueuedWrite.t; write_in_progress : bool }.
End WriteQueueState.

Definition DEFAULT_BLE_MTU : Z := 185.
Definition MIN_BLE_MTU : Z := 23.

Module BluerConnection.

(** [device] is the address of the device in BlueZ. *)
Record t := mk {
  peer_id : Z; device : list Z; alive : bool; mtu : Z; phy : BlePhy.t; rssi : option Z;
  write_queue : WriteQueueState.t; connected_at : Z
}.

(** [device.rssi().await] is an [i16]. *)
Definition update_rssi (self : t) (rssi_answer : answer (option Z)) : t :=
  match rssi_answer with
  | Okay (Some r) => mk (peer_id self) (device self) (alive self) (mtu self) (phy self)
                       (Some (to_i8 (wrap 8 r))) (write_queue self) (connected_at self)
  | _ => self
  end.
Definition new (peer_id : Z) (device : list Z) (rssi_answer : answer (option Z)) (now : Z) : t :=
  update_rssi (mk peer_id device true DEFAULT_BLE_MTU BlePhy.Le1M None (WriteQueueState.mk [] false) now)
    rssi_answer.
Definition set_mtu (self : t) (mtu : Z) : t :=
  mk (peer_id self) (device self) (alive self) mtu (phy self) (rssi self) (write_queue self)
    (connected_at self).
Definition set_phy (self : t) (phy : BlePhy.t) : t :=
  mk (peer_id self) (device self) (alive self) (mtu self) phy (rssi self) (write_queue self)
    (connected_at self).
Definition mark_dead (self : t) : t :=
  mk (peer_id self) (device self) false (mtu self) (phy self) (rssi self) (write_queue self)
    (connected_at self).
Definition set_queue (self : t) (q : WriteQueueState.t) : t :=
  mk (peer_id self) (device self) (alive self) (mtu self) (phy self) (rssi self) q
    (connected_at self).

(** The locks are free when these are called. *)
Definition as_connection (self : t) : BleConnection.t :=
  BleConnection.mk (peer_id self) (alive self) (mtu self) (phy self) (rssi self).
Definition connected_duration (self : t) (now : Z) : Z := now - connected_at self.
Definition write_queue_depth (self : t) : Z := zlen (WriteQueueState.queue (write_queue self)).
Definition write_in_progress (self : t) : bool := WriteQueueState.write_in_progress (write_queue self).

(** *** The remote database *)

Section remote.
Context `{UuidText}.
Context (remote : answer (list RemoteService.t)).

Definition services : result (list RemoteService.t) BleError.t :=
  failed_to BleError.GattError "Failed to get services"%string remote.
Definition find_service (uuid : list Z) : result (option RemoteService.t) BleError.t :=
  bind services (λ services,
    Okay (List.find (λ s, bool_decide (RemoteService.uuid s = Some uuid)) services)).
(** The service, or an error, and its characteristics. *)
Definition characteristics_of (service_uuid : list Z)
    : result (list RemoteCharacteristic.t) BleError.t :=
  bind (find_service service_uuid) (λ service,
  bind (match service with
        | Some s => Okay s
        | None => Err (BleError.ServiceNotFound (uuid_text service_uuid))
        end) (λ service,
    failed_to BleError.GattError "Failed to get characteristics"%string
      (RemoteService.characteristics service))).
Definition is_characteristic (char_uuid : list Z) (c : RemoteCharacteristic.t) : bool :=
  bool_decide (RemoteCharacteristic.uuid c = Some char_uuid).
(** [for char in characteristics { if .. { return k(char) } } Err(..)] *)
Definition on_characteristic {A} (service_uuid char_uuid : list Z)
    (k : RemoteCharacteristic.t → result A BleError.t) : result A BleError.t :=
  bind (characteristics_of service_uuid) (λ characteristics,
    match List.find (is_characteristic char_uuid) characteristics with
    | Some c => k c
    | None => Err (BleError.CharacteristicNotFound (uuid_text char_uuid))
    end).
Definition read_characteristic (service_uuid char_uuid : list Z) : result (list Z) BleError.t :=
  on_characteristic service_uuid char_uuid (λ c,
    failed_to BleError.GattError "Failed to read characteristic"%string (RemoteCharacteristic.read c)).
Definition write_characteristic (service_uuid char_uuid value : list Z) : result unit BleError.t :=
  on_characteristic service_uuid char_uuid (λ c,
    failed_to BleError.GattError "Failed to write characteristic"%string
      (RemoteCharacteristic.write c value)).
Definition subscribe_characteristic (service_uuid char_uuid : list Z) : result Z BleError.t :=
  on_characteristic service_uuid char_uuid (λ c,
    failed_to BleError.GattError "Failed to subscribe to notifications"%string
      (RemoteCharacteristic.notify c)).
(** It only makes BlueZ look. *)
Definition discover_services : result unit BleError.t := Okay tt.

(** [mtu as u16] *)
Definition learned (self : t) (mtu : Z) : t * result Z BleError.t :=
  (set_mtu self (wrap 16 mtu), Okay (wrap 16 mtu)).
Fixpoint acquire_mtu (self : t) (char_uuid : list Z) (characteristics : list RemoteCharacteristic.t)
    : t * result Z BleError.t :=
  match characteristics with
  | [] => (self, Okay (mtu self))
  | c :: rest =>
      if is_characteristic char_uuid c then
        match RemoteCharacteristic.write_io c with
        | Okay mtu => learned self mtu
        | Err _ =>
            match RemoteCharacteristic.notify_io c with
            | Okay mtu => learned self mtu
            | Err _ => acquire_mtu self char_uuid rest
            end
        end
      else acquire_mtu self char_uuid rest
  end.
Definition discover_mtu (self : t) (service_uuid char_uuid : list Z) : t * result Z BleError.t :=
  match characteristics_of service_uuid with
  | Err e => (self, Err e)
  | Okay characteristics => acquire_mtu self char_uuid characteristics
  end.

End remote.
End BluerConnection.

(** ** The tasks that write *)

Module WriteTasks.
Import WriteQueueState.

(** The channel of a caller; [Closed] is a sender that was dropped. *)
Inductive oneshot := Empty | Sent (r : result unit BleError.t) | Closed.

(** Where a call of [write_characteristic_queued] is: at the head of the loop of
    [process_write_queue]; in [write_characteristic]; before the lock is taken
    again; before the waiter is told; at [rx.await]; or it has returned, or its
    future was dropped. *)
Inductive pc :=
| Processing
| Performing (w : QueuedWrite.t)
| Performed (w : QueuedWrite.t) (r : result unit BleError.t)
| Telling (w : QueuedWrite.t) (r : result unit BleError.t)
| Awaiting
| Returned (r : result unit BleError.t)
| Dropped.

(** [submitted] and [performed] are the writes asked for and those carried out
    with what came of them, in the order in which it happened; the code does not
    look at them. *)
Record t := mk {
  conn : BluerConnection.t; tasks : list pc; channels : list oneshot;
  submitted : list QueuedWrite.t; performed : list (QueuedWrite.t * result unit BleError.t)
}.
Definition start (conn : BluerConnection.t) : t := mk conn [] [] [] [].

Definition queue_state (self : t) : WriteQueueState.t := BluerConnection.write_queue (conn self).
Definition set_queue (self : t) (q : list QueuedWrite.t) (in_progress : bool) : t :=
  mk (BluerConnection.set_queue (conn self) (WriteQueueState.mk q in_progress)) (tasks self)
    (channels self) (submitted self) (performed self).
Definition set_task (self : t) (i : nat) (c : pc) : t :=
  mk (conn self) (<[i := c]> (tasks self)) (channels self) (submitted self) (performed self).
Definition set_channel (self : t) (i : nat) (c : oneshot) : t :=
  mk (conn self) (tasks self) (<[i := c]> (channels self)) (submitted self) (performed self).

(** The call up to the loop. *)
Definition write_characteristic_queued (self : t) (service_uuid char_uuid value : list Z) : t :=
  let w := QueuedWrite.mk service_uuid char_uuid value (length (tasks self)) in
  let self := set_queue self (queue (queue_state self) ++ [w])
                (WriteQueueState.write_in_progress (queue_state self)) in
  mk (conn self) (tasks self ++ [Processing]) (channels self ++ [Empty]) (submitted self ++ [w])
    (performed self).

Definition cancelled : result unit BleError.t :=
  Err (BleError.GattError (str "Write was cancelled (connection closed?)"%string)).
Definition cleared : result unit BleError.t :=
  Err (BleError.GattError (str "Write queue cleared (disconnected?)"%string)).

(** The next step of task [i]; [None] when it cannot go on. *)
Definition process_write_queue `{UuidText} (remote : answer (list RemoteService.t)) (self : t) (i : nat)
    : option t :=
  match tasks self !! i with
  | Some Processing =>
      if WriteQueueState.write_in_progress (queue_state self) then Some (set_task self i Awaiting)
      else match queue (queue_state self) with
           | w :: rest => Some (set_task (set_queue self rest true) i (Performing w))
           | [] => Some (set_task self i Awaiting)
           end
  | Some (Performing w) =>
      let r := BluerConnection.write_characteristic remote (QueuedWrite.service_uuid w)
                 (QueuedWrite.char_uuid w) (QueuedWrite.data w) in
      Some (set_task (mk (conn self) (tasks self) (channels self) (submitted self) (performed self ++ [(w, r)]))
              i (Performed w r))
  | Some (Performed w r) =>
      Some (set_task (set_queue self (queue (queue_state self)) false) i (Telling w r))
  | Some (Telling w r) =>
      Some (set_task (set_channel self (QueuedWrite.complete_tx w) (Sent r)) i Processing)
  | Some Awaiting =>
      match channels self !! i with
      | Some (Sent r) => Some (set_task self i (Returned r))
      | Some Closed => Some (set_task self i (Returned cancelled))
      | _ => None
      end
  | _ => None
  end.

(** [while let Some(write) = queue.pop_front() { .. }] under the lock. *)
Definition clear_write_queue (self : t) : t :=
  let q := queue_state self in
  foldl (λ self w, set_channel self (QueuedWrite.complete_tx w) (Sent cleared))
    (set_queue self [] (WriteQueueState.write_in_progress q)) (queue q).
Definition disconnect (self : t) (disconnected : answer unit) : t * result unit BleError.t :=
  let self := clear_write_queue self in
  match failed_to BleError.ConnectionFailed "Failed to disconnect"%string disconnected with
  | Okay _ => (mk (BluerConnection.mark_dead (conn self)) (tasks self) (channels self)
                 (submitted self) (performed self), Okay tt)
  | Err e => (self, Err e)
  end.

(** The future of a caller is dropped at an [await], of which there is none
    before the waiter is told; what it holds is dropped with it. *)
Definition holds (c : pc) : option QueuedWrite.t :=
  match c with Performing w | Performed w _ | Telling w _ => Some w | _ => None end.
Definition drop_task (self : t) (i : nat) : t :=
  match tasks self !! i with
  | Some (Telling _ _) | Some (Returned _) | Some Dropped | None => self
  | Some c =>
      let self := match holds c with
                  | Some w => set_channel self (QueuedWrite.complete_tx w) Closed
                  | None => self
                  end in
      set_task self i Dropped
  end.

End WriteTasks.

(** * Theorems *)

Module WriteTaskProofs.
Import WriteQueueState WriteTasks.

Inductive action :=
| Call (service_uuid char_uuid value : list Z)
| Turn (remote : answer (list RemoteService.t)) (i : nat)
| Clear | Disconnect (disconnected : answer unit) | Drop (i : nat).

Section tasks.
Context `{UuidText}.

Definition step (s : t) (a : action) : t :=
  match a with
  | Call service_uuid char_uuid value => write_characteristic_queued s service_uuid char_uuid value
  | Turn remote i => default s (process_write_queue remote s i)
  | Clear => clear_write_queue s
  | Disconnect disconnected => (disconnect s disconnected).1
  | Drop i => drop_task s i
  end.
Definition run (s : t) (l : list action) : t := foldl step s l.
Definition is_drop (a : action) : bool := match a with Drop _ => true | _ => false end.

Definition pending (s : t) : list QueuedWrite.t := queue (queue_state s).
Definition in_progress (s : t) : bool := WriteQueueState.write_in_progress (queue_state s).
Definition busy (c : pc) : bool := match c with Performing _ | Performed _ _ => true | _ => false end.
Definition unused (conn : BluerConnection.t) : Prop :=
  BluerConnection.write_queue conn = WriteQueueState.mk [] false.
Notation tx := QueuedWrite.complete_tx.

(** *** What a step changes *)

Inductive effect (s : t) : t → Prop :=
| effect_call w : tx w = length (tasks s) →
    effect s (mk (BluerConnection.set_queue (conn s) (WriteQueueState.mk (pending s ++ [w]) (in_progress s)))
                (tasks s ++ [Processing]) (channels s ++ [Empty]) (submitted s ++ [w]) (performed s))
| effect_leave i : tasks s !! i = Some Processing → in_progress s = true ∨ pending s = [] →
    effect s (set_task s i Awaiting)
| effect_begin i w rest : tasks s !! i = Some Processing → in_progress s = false →
    pending s = w :: rest → effect s (set_task (set_queue s rest true) i (Performing w))
| effect_perform i w r remote : tasks s !! i = Some (Performing w) →
    r = BluerConnection.write_characteristic remote (QueuedWrite.service_uuid w)
          (QueuedWrite.char_uuid w) (QueuedWrite.data w) →
    effect s (set_task (mk (conn s) (tasks s) (channels s) (submitted s) (performed s ++ [(w, r)]))
                i (Performed w r))
| effect_release i w r : tasks s !! i = Some (Performed w r) →
    effect s (set_task (set_queue s (pending s) false) i (Telling w r))
| effect_tell i w r : tasks s !! i = Some (Telling w r) →
    effect s (set_task (set_channel s (tx w) (Sent r)) i Processing)
| effect_return i o r : tasks s !! i = Some Awaiting → channels s !! i = Some o →
    o = Sent r ∨ o = Closed ∧ r = cancelled → effect s (set_task s i (Returned r)).

Lemma turn_effect remote s i s' : process_write_queue remote s i = Some s' → effect s s'.
Proof.
  unfold process_write_queue. destruct (tasks s !! i) as [[]|] eqn:Ei; try done.
  - destruct (WriteQueueState.write_in_progress (queue_state s)) eqn:Eb; [|destruct (queue (queue_state s)) eqn:Eq];
      intros [= <-].
    + apply effect_leave; auto.
    + apply effect_leave; auto.
    + by apply effect_begin.
  - intros [= <-]. by eapply effect_perform.
  - intros [= <-]. by apply effect_release.
  - intros [= <-]. by apply effect_tell.
  - destruct (channels s !! i) as [[]|] eqn:Ec; intros [= <-]; eapply effect_return; eauto.
Qed.

(** The queue is emptied, and the waiters of what was in it are told. *)
Record emptied (s s' : t) : Prop := {
  emptied_tasks : tasks s' = tasks s;
  emptied_submitted : submitted s' = submitted s;
  emptied_performed : performed s' = performed s;
  emptied_pending : pending s' = [];
  emptied_progress : in_progress s' = in_progress s;
  emptied_length : length (channels s') = length (channels s);
  emptied_channel i o : channels s' !! i = Some o → channels s !! i = Some o ∨ o = Sent cleared;
  emptied_told i : channels s' !! i = Some Empty → i ∉ tx <$> pending s
}.

Lemma tell_all_spec (q : list QueuedWrite.t) s :
  let s' := foldl (λ self w, set_channel self (tx w) (Sent cleared)) s q in
  tasks s' = tasks s ∧ submitted s' = submitted s ∧ performed s' = performed s
  ∧ conn s' = conn s ∧ length (channels s') = length (channels s)
  ∧ (∀ i o, channels s' !! i = Some o → channels s !! i = Some o ∨ o = Sent cleared)
  ∧ ∀ i, channels s' !! i = Some Empty → channels s !! i = Some Empty ∧ i ∉ tx <$> q.
Proof.
  revert s. induction q as [|w q IH]; intros s; cbn [foldl].
  { cbn. split_and!; try done; [auto|]. intros i Hi. split; [done|apply not_elem_of_nil]. }
  destruct (IH (set_channel s (tx w) (Sent cleared))) as (-> & -> & -> & -> & -> & Ho & He).
  cbn in *. split_and!; try done.
  - by rewrite length_insert.
  - intros i o Hi. apply Ho in Hi as [[(_ & <- & _)|[_ Hi]]%list_lookup_insert_Some| ->]; auto.
  - intros i Hi. apply He in Hi as [[(_ & ? & _)|[Hn Hi]]%list_lookup_insert_Some Hq]; [done|].
    split; [done|]. apply not_elem_of_cons. auto.
Qed.
Lemma clear_emptied s : emptied s (clear_write_queue s).
Proof.
  unfold clear_write_queue. cbv zeta. destruct (tell_all_spec (queue (queue_state s))
    (set_queue s [] (WriteQueueState.write_in_progress (queue_state s)))) as (Et & Es & Ep & Ec & El & Ho & He).
  revert Et Es Ep Ec El Ho He. generalize (foldl (λ self w, set_channel self (tx w) (Sent cleared))
    (set_queue s [] (WriteQueueState.write_in_progress (queue_state s))) (queue (queue_state s))) as s'.
  intros s' Et Es Ep Ec El Ho He. split; try done.
  - unfold pending, queue_state. by rewrite Ec.
  - unfold in_progress, queue_state. by rewrite Ec.
  - intros i Hi. by apply He in Hi as [_ ?].
Qed.
Lemma disconnect_emptied s a : emptied s (disconnect s a).1.
Proof.
  unfold disconnect. destruct (clear_emptied s). by case_match; split.
Qed.

(** What dropping task [i] does. *)
Record dropped (s s' : t) (i : nat) (c : pc) : Prop := {
  dropped_was : tasks s !! i = Some c;
  dropped_tasks : tasks s' = <[i := Dropped]> (tasks s);
  dropped_submitted : submitted s' = submitted s;
  dropped_performed : performed s' = performed s;
  dropped_conn : conn s' = conn s;
  dropped_length : length (channels s') = length (channels s);
  dropped_channel k o : channels s' !! k = Some o → channels s !! k = Some o ∨ o = Closed
}.
Lemma drop_dropped s i : drop_task s i = s ∨ ∃ c, dropped s (drop_task s i) i c.
Proof.
  unfold drop_task. destruct (tasks s !! i) as [c|] eqn:Ei; [|by left].
  destruct c; try (by left); right; eexists; (split; [done|done|done|done|done| |]); cbn;
    try done; try (by left); try (by rewrite length_insert);
    intros k o [(_ & <- & _)|[_ Hk]]%list_lookup_insert_Some; auto.
Qed.

(** *** One write at a time *)

(** What a result that a caller gets can be. *)
Definition outcome_of (s : t) (i : nat) (r : result unit BleError.t) : Prop :=
  r = cancelled ∨ r = cleared ∨ ∃ w, submitted s !! i = Some w ∧ (w, r) ∈ performed s.
Definition busy_at (s : t) (i : nat) : Prop := ∃ c, tasks s !! i = Some c ∧ busy c = true.
Definition exclusive (s : t) : Prop :=
  (∀ i j, busy_at s i → busy_at s j → i = j) ∧ (∀ i, busy_at s i → in_progress s = true).
(** [cur] is being performed. *)
Definition ordered (s : t) (cur : list QueuedWrite.t) : Prop :=
  let l := (performed s).*1 ++ cur ++ pending s in
  StronglySorted lt (tx <$> l) ∧ Forall (λ w, submitted s !! tx w = Some w) l.
Definition in_order (s : t) : Prop :=
  ∃ cur, ordered s cur ∧ ∀ i w, tasks s !! i = Some (Performing w) → cur = [w].
Definition truthful (s : t) : Prop :=
  (∀ i c, tasks s !! i = Some c →
     match c with
     | Performing w => submitted s !! tx w = Some w
     | Performed w r | Telling w r => submitted s !! tx w = Some w ∧ (w, r) ∈ performed s
     | Returned r => outcome_of s i r
     | _ => True
     end)
  ∧ ∀ i r, channels s !! i = Some (Sent r) → outcome_of s i r.
Record well_formed (s : t) : Prop := {
  wf_submitted : length (submitted s) = length (tasks s);
  wf_channels : length (channels s) = length (tasks s);
  wf_exclusive : exclusive s; wf_order : in_order s; wf_truthful : truthful s
}.

Lemma forall_sublist {A} (P : A → Prop) (l l' : list A) : sublist l l' → Forall P l' → Forall P l.
Proof. intros Hl%sublist_subseteq Hf. rewrite Forall_forall in *. auto. Qed.
Lemma sorted_sublist {A} (R : A → A → Prop) (l l' : list A) :
  sublist l l' → StronglySorted R l' → StronglySorted R l.
Proof.
  induction 1 as [|x l l' Hs IH|x l l' Hs IH]; [done| |];
    intros [Hl Hx]%StronglySorted_inv; [|by apply IH].
  constructor; [by apply IH|]. by eapply forall_sublist.
Qed.
Lemma ordered_sub s s' cur cur' : ordered s cur → submitted s `prefix_of` submitted s' →
  sublist ((performed s').*1 ++ cur' ++ pending s') ((performed s).*1 ++ cur ++ pending s) →
  ordered s' cur'.
Proof.
  intros [Hs Hf] Hp Hl. split.
  - eapply sorted_sublist; [|exact Hs]. by rewrite Hl.
  - eapply forall_sublist; [exact Hl|]. eapply Forall_impl; [exact Hf|]. cbn.
    intros w Hw. by eapply prefix_lookup_Some.
Qed.
Lemma outcome_grows s s' i r : outcome_of s i r → submitted s `prefix_of` submitted s' →
  performed s `prefix_of` performed s' → outcome_of s' i r.
Proof.
  intros [->|[->|(w & Hw & Hr)]] Hs [k Hk]; [by left|by right; left|right; right].
  exists w. split; [by eapply prefix_lookup_Some|]. rewrite Hk. set_solver.
Qed.

(** A step leaves the writes in the order they have, and what a task says true,
    when it does so to what it changes. *)
Lemma grows_truthful s s' : truthful s → submitted s `prefix_of` submitted s' →
  performed s `prefix_of` performed s' →
  (∀ i c, tasks s' !! i = Some c → tasks s !! i = Some c
    ∨ match c with
      | Performing w => submitted s' !! tx w = Some w
      | Performed w r | Telling w r => submitted s' !! tx w = Some w ∧ (w, r) ∈ performed s'
      | Returned r => outcome_of s' i r
      | _ => True
      end) →
  (∀ i r, channels s' !! i = Some (Sent r) → channels s !! i = Some (Sent r) ∨ outcome_of s' i r) →
  truthful s'.
Proof.
  intros [Ht Hc] Hs Hp Ht' Hc'. split.
  - intros i c Hi. apply Ht' in Hi as [Hi|]; [|done]. apply Ht in Hi. destruct Hp as [k Hk].
    destruct c; try done; [by eapply prefix_lookup_Some| | |eapply outcome_grows; [done|done|by exists k]].
    all: destruct Hi; split; [by eapply prefix_lookup_Some|rewrite Hk; set_solver].
  - intros i r Hi. apply Hc' in Hi as [Hi|]; [|done]. apply Hc in Hi. by eapply outcome_grows.
Qed.
Lemma idle_no_busy s i : exclusive s → in_progress s = false → ¬ busy_at s i.
Proof. intros [_ Hp] E Hi%Hp. congruence. Qed.

(** The busy tasks when task [i] goes on. *)
Lemma busy_insert s s' i c j : tasks s' = <[i := c]> (tasks s) → busy_at s' j →
  (i = j ∧ busy c = true) ∨ (i ≠ j ∧ busy_at s j).
Proof.
  intros E (c' & Hc & Hb). rewrite E in Hc. apply list_lookup_insert_Some in Hc as [(-> & -> & _)|[Hn Hc]];
    [by left|right]. split; [done|]. by exists c'.
Qed.
Lemma performing_busy s i w : tasks s !! i = Some (Performing w) → busy_at s i.
Proof. intros Hi. by exists (Performing w). Qed.

Lemma exclusive_step s s' i c0 c : exclusive s → tasks s !! i = Some c0 →
  tasks s' = <[i := c]> (tasks s) →
  (busy c = true → in_progress s' = true ∧ (busy c0 = true ∨ in_progress s = false)) →
  (busy c = false → busy c0 = true ∨ in_progress s' = in_progress s) → exclusive s'.
Proof.
  intros He Hi E Hb Hn. assert (∀ j, busy c0 = true → i ≠ j → ¬ busy_at s j) as Ho.
  { intros j H0 Hne Hj. apply Hne, He; [by exists c0|done]. }
  assert (∀ j, i ≠ j → busy_at s j → busy c = false) as Hc.
  { intros j Hne Hj. destruct (busy c) eqn:Ec; [|done]. destruct (Hb eq_refl) as [_ [H0|H0]].
    - by destruct (Ho j H0 Hne).
    - by destruct (idle_no_busy s j He H0). }
  split.
  - intros j k [[<- Hj]|[Hnj Hj]]%(busy_insert _ _ _ _ _ E) [[<- Hk]|[Hnk Hk]]%(busy_insert _ _ _ _ _ E);
      [done| | |by apply He].
    + rewrite (Hc k) in Hj; congruence.
    + rewrite (Hc j) in Hk; congruence.
  - intros j [[<- Hj]|[Hne Hj]]%(busy_insert _ _ _ _ _ E); [by apply Hb|].
    destruct (Hn (Hc j Hne Hj)) as [H0| ->]; [by destruct (Ho j H0 Hne)|by eapply He].
Qed.
(** No task is performing after the step, or only [i]. *)
Lemma order_step s s' i c cur : tasks s' = <[i := c]> (tasks s) → ordered s' cur →
  (∀ w, c = Performing w → cur = [w]) →
  (∀ j w, i ≠ j → tasks s !! j = Some (Performing w) → cur = [w]) → in_order s'.
Proof.
  intros E Ho Hc Hj. exists cur. split; [done|]. intros j w. rewrite E.
  intros [(-> & -> & _)|[Hne Hl]]%list_lookup_insert_Some; [by apply Hc|by eapply Hj].
Qed.

(** A step that only moves task [i], to a place that is not busy. *)
Lemma wf_move s i c0 c chs : well_formed s → tasks s !! i = Some c0 →
  busy c = false → length chs = length (channels s) →
  match c with Performing _ | Performed _ _ | Telling _ _ => False
  | Returned r => outcome_of s i r | _ => True end →
  (∀ k r, chs !! k = Some (Sent r) → channels s !! k = Some (Sent r) ∨ outcome_of s k r) →
  well_formed (mk (conn s) (<[i := c]> (tasks s)) chs (submitted s) (performed s)).
Proof.
  intros [Hl Hlc He (cur & Ho & Hcur) Ht] Hi Hb Hch Hc Hr. split; cbn; try by rewrite length_insert.
  - by rewrite length_insert, Hch.
  - eapply (exclusive_step s _ i c0 c); cbn; try done; [congruence|by right].
  - apply (order_step s _ i c cur); [done|done|by intros w -> |by intros j w _; apply Hcur].
  - eapply grows_truthful; [exact Ht|done|done| |done]. cbn. intros j c'.
    intros [(-> & -> & _)|[Hne Hl']]%list_lookup_insert_Some; [right; by destruct c'|by left].
Qed.

Lemma wf_call s w : well_formed s → tx w = length (tasks s) →
  well_formed (mk (BluerConnection.set_queue (conn s) (WriteQueueState.mk (pending s ++ [w]) (in_progress s)))
    (tasks s ++ [Processing]) (channels s ++ [Empty]) (submitted s ++ [w]) (performed s)).
Proof.
  intros [Hl Hlc [He Hp] (cur & [Ho Hf] & Hcur) Ht] Hw.
  assert (∀ (j : nat) (c : pc), (tasks s ++ [Processing]) !! j = Some c → busy c = true → tasks s !! j = Some c) as Hj.
  { intros j c [Hj|[_ Hj]]%lookup_app_Some Hb; [done|].
    apply list_lookup_singleton_Some in Hj as [_ <-]. done. }
  split; cbn.
  - rewrite !length_app. cbn. lia.
  - rewrite !length_app. cbn. lia.
  - split.
    + intros i j (c & Hi & Hb) (c' & Hj' & Hb'). cbn in *. apply He; [exists c|exists c']; auto.
    + intros i (c & Hi & Hb). cbn in *. apply (Hp i). exists c. auto.
  - exists cur. split; [|intros i w' Hi; cbn in Hi; by apply (Hcur i), Hj].
    unfold ordered, pending; cbn. fold (pending s). rewrite !app_assoc, <-(app_assoc _ cur). split.
    + rewrite fmap_app. apply StronglySorted_app_2; [|done|by repeat constructor].
      intros x y Hx Hy. apply list_elem_of_fmap_1 in Hx as (v & -> & Hv). cbn in Hy.
      apply list_elem_of_singleton in Hy as ->. rewrite Forall_forall in Hf.
      apply Hf, lookup_lt_Some in Hv. lia.
    + apply Forall_app. split.
      * eapply Forall_impl; [exact Hf|]. cbn. intros w' Hw'. by apply lookup_app_l_Some.
      * constructor; [|constructor]. rewrite lookup_app_r, Hw, Hl, Nat.sub_diag by lia. done.
  - eapply grows_truthful; [exact Ht|cbn; by eexists|done| |]; cbn.
    + intros i c [Hi|[_ Hi]]%lookup_app_Some; [by left|right].
      by apply list_lookup_singleton_Some in Hi as [_ <-].
    + intros i r [Hi|[_ Hi]]%lookup_app_Some; [by left|].
      by apply list_lookup_singleton_Some in Hi as [_ ?].
Qed.

Lemma wf_begin s i w rest : well_formed s → tasks s !! i = Some Processing →
  in_progress s = false → pending s = w :: rest →
  well_formed (set_task (set_queue s rest true) i (Performing w)).
Proof.
  intros [Hl Hlc He (cur & Ho & Hcur) Ht] Hi Hp Hq. split; cbn; try by rewrite length_insert.
  - eapply (exclusive_step s _ i Processing (Performing w)); [done..|auto|done].
  - apply (order_step s _ i (Performing w) [w]); [done| |by intros ? [= ->]|].
    + eapply ordered_sub; [exact Ho|done|]. unfold pending at 1; cbn. rewrite Hq. cbn.
      apply sublist_app; [done|]. by apply sublist_inserts_l.
    + intros j w' _ Hj. by destruct (idle_no_busy s j He Hp (performing_busy _ _ _ Hj)).
  - eapply grows_truthful; [exact Ht|done|done| |by left]. intros j c.
    intros [(-> & <- & _)|[Hne Hl']]%list_lookup_insert_Some; [right; cbn|by left].
    destruct Ho as [_ Hf]. rewrite Forall_forall in Hf. apply Hf. rewrite Hq. set_solver.
Qed.
Lemma wf_perform s i w r : well_formed s → tasks s !! i = Some (Performing w) →
  well_formed (set_task (mk (conn s) (tasks s) (channels s) (submitted s) (performed s ++ [(w, r)]))
    i (Performed w r)).
Proof.
  intros [Hl Hlc He (cur & Ho & Hcur) Ht] Hi. rewrite (Hcur i w Hi) in Ho.
  split; cbn; try by rewrite length_insert.
  - eapply (exclusive_step s _ i (Performing w) (Performed w r)); cbn; try done.
    intros _. split; [|by left]. apply He with i. by eapply performing_busy.
  - apply (order_step s _ i (Performed w r) []); [done| |done|].
    + eapply ordered_sub; [exact Ho|done|]. cbn. by rewrite fmap_app, <-app_assoc.
    + intros j w' Hne Hj. destruct Hne. apply He; by eapply performing_busy.
  - eapply grows_truthful; [exact Ht|done|by eexists| |by left]. intros j c.
    intros [(-> & <- & _)|[Hne Hl']]%list_lookup_insert_Some; [right; cbn|by left].
    split; [by destruct Ht as [Ht _]; apply (Ht j _ Hi)|set_solver].
Qed.
Lemma wf_release s i w r : well_formed s → tasks s !! i = Some (Performed w r) →
  well_formed (set_task (set_queue s (pending s) false) i (Telling w r)).
Proof.
  intros [Hl Hlc He (cur & Ho & Hcur) Ht] Hi. split; cbn; try by rewrite length_insert.
  - eapply (exclusive_step s _ i (Performed w r) (Telling w r)); [done..|by left].
  - apply (order_step s _ i (Telling w r) cur); [done|done|done|by intros j w' _; apply Hcur].
  - eapply grows_truthful; [exact Ht|done|done| |by left]. intros j c.
    intros [(-> & <- & _)|[Hne Hl']]%list_lookup_insert_Some; [right; cbn|by left].
    by destruct Ht as [Ht _]; apply (Ht j _ Hi).
Qed.
Lemma wf_emptied s s' : well_formed s → emptied s s' → well_formed s'.
Proof.
  intros [Hl Hlc [He Hp] (cur & Ho & Hcur) Ht] [Et Es Ep Eq Eb El Hc _]. unfold busy_at in *.
  split; [by rewrite Es, Et|by rewrite El, Et| | |].
  - split; unfold busy_at; rewrite Et; [done|]. by rewrite Eb.
  - exists cur. rewrite Et. split; [|done]. eapply ordered_sub; [exact Ho|by rewrite Es|].
    rewrite Ep, Eq, app_nil_r. apply sublist_app; [done|]. by apply sublist_inserts_r.
  - eapply grows_truthful; [exact Ht|by rewrite Es|by rewrite Ep| |]; [rewrite Et; by left|].
    intros i r Hi. apply Hc in Hi as [Hi|[= ->]]; [by left|right]. by right; left.
Qed.

Lemma wf_effect s s' : well_formed s → effect s s' → well_formed s'.
Proof.
  intros Hs He. pose proof (wf_truthful s Hs) as [Ht Hc].
  destruct He as [w Hw|i Hi _|i w rest Hi Hp Hq|i w r remote Hi _|i w r Hi|i w r Hi|i o r Hi Ho Hr].
  - by apply wf_call.
  - apply (wf_move s i Processing Awaiting); auto.
  - by apply wf_begin.
  - by apply wf_perform.
  - by apply wf_release.
  - apply (wf_move s i (Telling w r) Processing); [done..|by cbn; rewrite length_insert|done|].
    intros k r' [(<- & [= ->] & _)|[_ Hk]]%list_lookup_insert_Some; [right|by left].
    right; right. exists w. by apply (Ht i _ Hi).
  - apply (wf_move s i Awaiting (Returned r)); auto. destruct Hr as [->|[-> ->]]; [by apply Hc|by left].
Qed.
Lemma wf_step s a : well_formed s → well_formed (step s a).
Proof.
  intros Hs. destruct a as [sv ch v|remote i| |d|i]; cbn.
  - apply (wf_effect s); [done|].
    exact (effect_call s (QueuedWrite.mk sv ch v (length (tasks s))) eq_refl).
  - destruct (process_write_queue remote s i) eqn:E; [|done]. eapply wf_effect; [done|by eapply turn_effect].
  - eapply wf_emptied; [done|apply clear_emptied].
  - eapply wf_emptied; [done|apply disconnect_emptied].
  - destruct (drop_dropped s i) as [->|[c [Hi Et Es Ep Ec El Hch]]]; [done|].
    destruct (drop_task s i) as [cn ts chs sb pf]. cbn in *. subst.
    apply (wf_move s i c Dropped); auto. intros k r Hk. apply Hch in Hk as [|]; [by left|done].
Qed.
Lemma wf_start conn : unused conn → well_formed (start conn).
Proof.
  intros E. split; [done|done| | |].
  - split; [intros i j (c & Hi & _)|intros i (c & Hi & _)]; done.
  - exists []. split; [|intros i w Hi; done]. unfold ordered, pending, queue_state.
    cbn. rewrite E. split; constructor.
  - split; intros i c Hi; done.
Qed.
Lemma wf_run s l : well_formed s → well_formed (run s l).
Proof. revert s. induction l as [|a l IH]; intros s Hs; [done|]. by apply IH, wf_step. Qed.

(** *** Every write returns *)

Definition active (c : pc) : bool :=
  match c with Processing | Performing _ | Performed _ _ | Telling _ _ => true | _ => false end.
Definition task_with (ts : list pc) (P : pc → Prop) : Prop := ∃ j c, ts !! j = Some c ∧ P c.
Definition holds_for (i : nat) (c : pc) : Prop := ∃ w, holds c = Some w ∧ tx w = i.
(** Whoever waits is waiting for something. *)
Record live (s : t) : Prop := {
  live_waiting i : channels s !! i = Some Empty →
    i ∈ tx <$> pending s ∨ task_with (tasks s) (holds_for i);
  live_queue : pending s ≠ [] → task_with (tasks s) (λ c, active c = true);
  live_progress : in_progress s = true → task_with (tasks s) (λ c, busy c = true);
  live_kept i : tasks s !! i ≠ Some Dropped
}.
Lemma task_other ts (P : pc → Prop) i c0 c : task_with ts P → ts !! i = Some c0 → (P c0 → P c) →
  task_with (<[i := c]> ts) P.
Proof.
  intros (j & c' & Hj & HP) Hi Hc. destruct (decide (i = j)) as [->|Hne].
  - rewrite Hi in Hj. injection Hj as ->. exists j, c. split; [|by apply Hc].
    apply list_lookup_insert_Some. left. split_and!; [done..|by eapply lookup_lt_Some].
  - exists j, c'. split; [|done]. apply list_lookup_insert_Some. by right.
Qed.
Lemma task_here ts (P : pc → Prop) i c0 c : ts !! i = Some c0 → P c → task_with (<[i := c]> ts) P.
Proof.
  intros Hi HP. exists i, c. split; [|done]. apply list_lookup_insert_Some. left.
  split_and!; [done..|by eapply lookup_lt_Some].
Qed.
Lemma task_more ts c (P : pc → Prop) : task_with ts P → task_with (ts ++ [c]) P.
Proof. intros (j & c' & Hj & HP). exists j, c'. split; [by apply lookup_app_l_Some|done]. Qed.
Lemma kept_insert (ts : list pc) (i : nat) c j : c ≠ Dropped → (∀ k, ts !! k ≠ Some Dropped) →
  <[i := c]> ts !! j ≠ Some Dropped.
Proof. intros Hc Hk [(_ & ? & _)|[_ Hj]]%list_lookup_insert_Some; [done|by apply Hk in Hj]. Qed.
(** What holds a write goes on holding it, unless the waiter is told. *)
Lemma holds_keeps i c0 c : holds c0 = None ∨ holds c = holds c0 → holds_for i c0 → holds_for i c.
Proof. intros [E|E] (w & Hw & Ht); [congruence|]. exists w. by rewrite E. Qed.

Lemma live_effect s s' : well_formed s → live s → effect s s' → live s'.
Proof.
  intros Hwf [Hw Hq Hp Hk] He.
  destruct He as [w Htx|i Hi Hor|i w rest Hi Hp0 Hq0|i w r remote Hi _|i w r Hi|i w r Hi|i o r Hi Ho Hr].
  - split; cbn.
    + unfold pending at 1; cbn. intros j [Hj|[Hlt Hj]]%lookup_app_Some.
      * destruct (Hw j Hj) as [Hin|Hin]; [left|right; by apply task_more]. rewrite fmap_app. set_solver.
      * apply list_lookup_singleton_Some in Hj as [Hj _]. left. rewrite fmap_app.
        apply elem_of_app. right. cbn. apply list_elem_of_singleton.
        rewrite Htx, <-(wf_channels s Hwf). lia.
    + intros _. exists (length (tasks s)), Processing. split; [|done].
      by rewrite lookup_app_r, Nat.sub_diag by lia.
    + intros Hpr. by apply task_more, Hp.
    + intros j [Hj|[_ Hj]]%lookup_app_Some; [by apply Hk in Hj|].
      by apply list_lookup_singleton_Some in Hj as [_ ?].
  - split; cbn; [| | |intros; by apply kept_insert].
    + intros j [Hj|Hj]%Hw; [by left|right]. eapply task_other; [done..|]. by apply holds_keeps; left.
    + intros Hne. destruct Hor as [Hpr|?]; [|done]. destruct (Hp Hpr) as (j & c & Hj & Hb).
      exists j, c. split; [|by destruct c]. apply list_lookup_insert_Some. right. split; [|done].
      intros ->. rewrite Hi in Hj. by injection Hj as <-.
    + intros Hpr. eapply task_other; [by apply Hp|done|done].
  - split; cbn; [| | |intros; by apply kept_insert].
    + intros j [Hj|Hj]%Hw; [|right; eapply task_other; [done..|]; by apply holds_keeps; left].
      rewrite Hq0 in Hj. cbn in Hj. apply elem_of_cons in Hj as [->|Hj]; [right|by left].
      eapply task_here; [done|]. by exists w.
    + intros _. by eapply task_here.
    + intros _. by eapply task_here.
  - split; cbn; [| | |intros; by apply kept_insert].
    + intros j [Hj|Hj]%Hw; [by left|right]. eapply task_other; [done..|]. by apply holds_keeps; right.
    + intros _. by eapply task_here.
    + intros _. by eapply task_here.
  - split; cbn; [| |done|intros; by apply kept_insert].
    + intros j [Hj|Hj]%Hw; [by left|right]. eapply task_other; [done..|]. by apply holds_keeps; right.
    + intros _. by eapply task_here.
  - split; cbn; [| | |intros; by apply kept_insert].
    + intros j [(_ & ? & _)|[Hne Hj]]%list_lookup_insert_Some; [done|].
      destruct (Hw j Hj) as [|Hin]; [by left|right]. eapply task_other; [done..|].
      intros (w' & [= <-] & Ht). by rewrite Ht in Hne.
    + intros _. by eapply task_here.
    + intros Hpr. eapply task_other; [by apply Hp|done|done].
  - split; cbn; [| | |intros; by apply kept_insert].
    + intros j [Hj|Hj]%Hw; [by left|right]. eapply task_other; [done..|]. by apply holds_keeps; left.
    + intros Hne. eapply task_other; [by apply Hq|done|done].
    + intros Hpr. eapply task_other; [by apply Hp|done|done].
Qed.

Lemma live_emptied s s' : live s → emptied s s' → live s'.
Proof.
  intros [Hw Hq Hp Hk] [Et Es Ep Eq Eb El Hc He]. split; rewrite ?Et, ?Eq, ?Eb; try done.
  intros i Hi. right. destruct (Hc i _ Hi) as [Hi'|?]; [|done].
  destruct (Hw i Hi') as [Hin|]; [|done]. by destruct (He i Hi).
Qed.
Lemma live_run conn l : unused conn → Forall (λ a, is_drop a = false) l →
  live (run (start conn) l).
Proof.
  intros Hu. induction l as [|a l IH] using rev_ind; intros Hl.
  { split; cbn; [done| | |done]; unfold pending, in_progress, queue_state; cbn; by rewrite Hu. }
  apply Forall_app in Hl as [Hl [Ha _]%Forall_cons]. specialize (IH Hl).
  assert (well_formed (run (start conn) l)) as Hwf by by apply wf_run, wf_start.
  unfold run. rewrite foldl_app. cbn [foldl]. fold (run (start conn) l).
  destruct a as [sv ch v|remote i| |d|i]; cbn in *; [| | | |done].
  - eapply live_effect; [done..|].
    exact (effect_call _ (QueuedWrite.mk sv ch v _) eq_refl).
  - destruct (process_write_queue _ _ _) eqn:E; [|done]. eapply live_effect; [done..|by eapply turn_effect].
  - eapply live_emptied; [done|apply clear_emptied].
  - eapply live_emptied; [done|apply disconnect_emptied].
Qed.

(** Where no task can go on, all have returned. *)
Lemma stuck_returned s : well_formed s → live s →
  (∀ remote i, process_write_queue remote s i = None) →
  ∀ i c, tasks s !! i = Some c → ∃ r, c = Returned r.
Proof.
  intros Hwf [Hw Hq Hp Hk] Hstuck.
  assert (∀ j c, tasks s !! j = Some c → active c = false) as Hidle.
  { intros j c Hj. specialize (Hstuck (Okay []) j). unfold process_write_queue in Hstuck.
    rewrite Hj in Hstuck. destruct c; try done. by repeat case_match. }
  assert (pending s = []) as Hempty.
  { destruct (pending s) eqn:E; [done|]. rewrite <-E in Hq. destruct Hq as (j & c & Hj & Hc); [by rewrite E|].
    by rewrite (Hidle j c Hj) in Hc. }
  intros i c Hi. destruct c as [|w|w r|w r| |r|]; try by apply Hidle in Hi.
  - specialize (Hstuck (Okay []) i). unfold process_write_queue in Hstuck. rewrite Hi in Hstuck.
    destruct (channels s !! i) as [[]|] eqn:Ec; try done.
    + apply Hw in Ec as [Hin|(j & c & Hj & w & Hc & _)]; [by rewrite Hempty in Hin; apply not_elem_of_nil in Hin|].
      apply Hidle in Hj. by destruct c.
    + apply lookup_lt_Some in Hi. apply lookup_ge_None in Ec. rewrite (wf_channels s Hwf) in Ec. lia.
  - by exists r.
  - by apply Hk in Hi.
Qed.

(** What is left to do. *)
Definition weight (c : pc) : nat :=
  match c with
  | Performing _ => 5 | Performed _ _ => 4 | Telling _ _ => 3 | Processing => 2 | Awaiting => 1
  | Returned _ | Dropped => 0
  end.
Definition left_to_do (s : t) : nat := sum_list_with weight (tasks s) + 4 * length (pending s).
Lemma weight_insert ts i c0 c : ts !! i = Some c0 →
  (sum_list_with weight (<[i := c]> ts) + weight c0 = sum_list_with weight ts + weight c)%nat.
Proof.
  revert i. induction ts as [|c1 ts IH]; intros [|i] Hi; try done; cbn in *.
  - injection Hi as ->. lia.
  - rewrite <-!Nat.add_assoc. f_equal. by apply IH.
Qed.
Lemma weight_bound ts : (sum_list_with weight ts ≤ 5 * length ts)%nat.
Proof. induction ts as [|c ts IH]; cbn; [lia|]. destruct c; cbn; lia. Qed.
Lemma left_move s s' i c0 c : tasks s !! i = Some c0 → tasks s' = <[i := c]> (tasks s) →
  (weight c + 4 * length (pending s') < weight c0 + 4 * length (pending s))%nat →
  (left_to_do s' < left_to_do s)%nat.
Proof.
  intros Hi E Hlt. unfold left_to_do. rewrite E. pose proof (weight_insert _ _ _ c Hi). lia.
Qed.
Lemma turn_length remote s i s' : process_write_queue remote s i = Some s' →
  length (tasks s') = length (tasks s).
Proof.
  unfold process_write_queue. repeat case_match; intros [= <-]; cbn; try done; by rewrite length_insert.
Qed.
Lemma turn_shortens remote s i s' : process_write_queue remote s i = Some s' →
  (left_to_do s' < left_to_do s)%nat.
Proof.
  intros Ht. pose proof (turn_length _ _ _ _ Ht) as Hlen.
  destruct (turn_effect _ _ _ _ Ht) as [w Htx|k Hk Hor|k w rest Hk Hp0 Hq0|k w r rm Hk _|k w r Hk|k w r Hk|k o r Hk Ho Hr].
  - cbn in Hlen. rewrite length_app in Hlen. cbn in Hlen. lia.
  - apply (left_move _ _ k Processing Awaiting); [done..|]. change (pending _) with (pending s). cbn. lia.
  - apply (left_move _ _ k Processing (Performing w)); [done..|].
    change (pending _) with rest at 1. rewrite Hq0. cbn. lia.
  - apply (left_move _ _ k (Performing w) (Performed w r)); [done..|]. change (pending _) with (pending s).
    cbn. lia.
  - apply (left_move _ _ k (Performed w r) (Telling w r)); [done..|]. change (pending _) with (pending s).
    cbn. lia.
  - apply (left_move _ _ k (Telling w r) Processing); [done..|]. change (pending _) with (pending s). cbn. lia.
  - apply (left_move _ _ k Awaiting (Returned r)); [done..|]. change (pending _) with (pending s). cbn. lia.
Qed.

(** What was asked for, in the order of the calls. *)
Definition asked (l : list action) : list (list Z * list Z * list Z) :=
  omap (λ a, match a with Call sv ch v => Some (sv, ch, v) | _ => None end) l.
Definition fields (w : QueuedWrite.t) : list Z * list Z * list Z :=
  (QueuedWrite.service_uuid w, QueuedWrite.char_uuid w, QueuedWrite.data w).
(** [r] is what BlueZ made of the write. *)
Definition result_of (w : QueuedWrite.t) (r : result unit BleError.t) : Prop :=
  ∃ remote, r = BluerConnection.write_characteristic remote (QueuedWrite.service_uuid w)
                  (QueuedWrite.char_uuid w) (QueuedWrite.data w).
Definition faithful (s : t) (l : list action) : Prop :=
  fields <$> submitted s = asked l ∧ Forall (λ p, result_of p.1 p.2) (performed s).
Lemma faithful_run conn l : faithful (run (start conn) l) l.
Proof.
  induction l as [|a l IH] using rev_ind; [by split|]. unfold run. rewrite foldl_app. cbn [foldl].
  fold (run (start conn) l). revert IH. generalize (run (start conn) l) as s. intros s [Ha Hp].
  assert (asked (l ++ [a]) = asked l ++ asked [a]) as E by apply omap_app.
  assert (∀ s', submitted s' = submitted s → performed s' = performed s → asked [a] = [] →
    faithful s' (l ++ [a])) as Hsame.
  { intros s' Es Ep En. unfold faithful. by rewrite E, En, app_nil_r, Es, Ep. }
  destruct a as [sv ch v|remote i| |d|i]; cbn.
  - unfold faithful. cbn. rewrite E, fmap_app, Ha. by split.
  - destruct (process_write_queue remote s i) as [s'|] eqn:Et; [|by apply Hsame].
    pose proof (turn_length _ _ _ _ Et) as Hlen.
    destruct (turn_effect _ _ _ _ Et) as [w Hw| | |k w r rm Hk Hr| | |]; try by apply Hsame.
    + cbn in Hlen. rewrite length_app in Hlen. cbn in Hlen. lia.
    + unfold faithful. cbn. rewrite E, app_nil_r. split; [done|]. apply Forall_app. split; [done|].
      constructor; [|done]. by exists rm.
  - destruct (clear_emptied s). by apply Hsame.
  - destruct (disconnect_emptied s d). by apply Hsame.
  - destruct (drop_dropped s i) as [->|[c []]]; by apply Hsame.
Qed.

(** Turns that each go on. *)
Fixpoint turns (s : t) (l : list (answer (list RemoteService.t) * nat)) : option t :=
  match l with
  | [] => Some s
  | (remote, i) :: l => process_write_queue remote s i ≫= λ s, turns s l
  end.
Lemma turns_run s l s' : turns s l = Some s' → s' = run s ((λ p, Turn p.1 p.2) <$> l).
Proof.
  revert s. induction l as [|[remote i] l IH]; intros s; cbn; [by intros [= <-]|].
  destruct (process_write_queue remote s i) as [s1|]; [|done]. apply IH.
Qed.
Lemma turns_shorten s l s' : turns s l = Some s' → (length l + left_to_do s' ≤ left_to_do s)%nat.
Proof.
  revert s. induction l as [|[remote i] l IH]; intros s; cbn; [intros [= <-]; lia|].
  destruct (process_write_queue remote s i) as [s1|] eqn:E; [|done].
  intros Hl%IH. apply turn_shortens in E. lia.
Qed.

Lemma asked_turns schedule : asked ((λ p, Turn p.1 p.2) <$> schedule) = [].
Proof. by induction schedule. Qed.

(** *** A write that is abandoned *)

Definition blocked (s : t) : Prop := in_progress s = true ∧ ∀ i, ¬ busy_at s i.
Lemma blocked_step s a : well_formed s → blocked s →
  blocked (step s a) ∧ performed (step s a) = performed s.
Proof.
  intros Hwf [Hp Hb]. assert (∀ s' i c, in_progress s' = true → tasks s' = <[i := c]> (tasks s) →
    busy c = false → blocked s') as Hmove.
  { intros s' i c Hp' E Hc. split; [done|]. intros j [[_ Hj]|[_ Hj]]%(busy_insert _ _ _ _ _ E); [congruence|].
    by apply (Hb j). }
  destruct a as [sv ch v|remote i| |d|i]; cbn.
  - split; [|done]. split; [done|]. intros j (c & [Hj|[_ Hj]]%lookup_app_Some & Hc);
      [apply (Hb j); by exists c|]. by apply list_lookup_singleton_Some in Hj as [_ <-].
  - destruct (process_write_queue remote s i) as [s'|] eqn:Et; [|done]. cbn.
    pose proof (turn_length _ _ _ _ Et) as Hlen.
    destruct (turn_effect _ _ _ _ Et) as [w Hw|k Hk _|k w rest _ Hp0 _|k w r rm Hk _|k w r Hk|k w r Hk|k o r Hk _ _].
    + cbn in Hlen. rewrite length_app in Hlen. cbn in Hlen. lia.
    + split; [by eapply Hmove|done].
    + congruence.
    + destruct (Hb k). by eapply performing_busy.
    + destruct (Hb k). by exists (Performed w r).
    + split; [by eapply Hmove|done].
    + split; [by eapply Hmove|done].
  - destruct (clear_emptied s) as [Et _ -> _ Ep _ _ _]. split; [|done]. unfold blocked, busy_at.
    by rewrite Et, Ep.
  - destruct (disconnect_emptied s d) as [Et _ -> _ Ep _ _ _]. split; [|done]. unfold blocked, busy_at.
    by rewrite Et, Ep.
  - destruct (drop_dropped s i) as [->|[c [Hi Et _ -> Ec _ _]]]; [done|]. split; [|done].
    apply (Hmove _ i Dropped); [|done|done]. unfold in_progress, queue_state. by rewrite Ec.
Qed.
Lemma blocked_run s l : well_formed s → blocked s → performed (run s l) = performed s.
Proof.
  revert s. induction l as [|a l IH]; intros s Hwf Hb; [done|].
  destruct (blocked_step s a Hwf Hb) as [Hb' <-]. apply IH; [by apply wf_step|done].
Qed.

End tasks.
End WriteTaskProofs.

Module WriteQueueProperties.
Import WriteTasks WriteTaskProofs.

(** C35: However the calls of [write_characteristic_queued], their steps, the
    disconnections and the ends of callers are interleaved, one write at most is
    in progress; the writes carried out are writes that were asked for, each once
    and in the order of the calls; and what a caller gets is what BlueZ made of
    its own write, or that the write was cancelled or cleared. *)
Theorem queued_writes_one_at_a_time `{UuidText} (conn : BluerConnection.t) (l : list action) :
  unused conn →
  let s := run (start conn) l in
  (∀ i j w w', tasks s !! i = Some (Performing w) → tasks s !! j = Some (Performing w') → i = j)
  ∧ fields <$> submitted s = asked l
  ∧ StronglySorted lt (QueuedWrite.complete_tx <$> (performed s).*1)
  ∧ (∀ w r, (w, r) ∈ performed s →
       submitted s !! QueuedWrite.complete_tx w = Some w ∧ result_of w r)
  ∧ ∀ i r, tasks s !! i = Some (Returned r) →
      r = cancelled ∨ r = cleared ∨ ∃ w, submitted s !! i = Some w ∧ (w, r) ∈ performed s.
Proof.
  intros Hu s. destruct (wf_run (start conn) l (wf_start conn Hu)) as [_ _ [He _] (cur & [Ho Hf] & _) [Ht _]].
  destruct (faithful_run conn l) as [Ha Hp]. fold s in He, Ho, Hf, Ht, Ha, Hp. split_and!; [|done| | |].
  - intros i j w w' Hi Hj. apply He; by eapply performing_busy.
  - rewrite fmap_app in Ho. by apply StronglySorted_app in Ho as (_ & Ho & _).
  - intros w r Hin. apply Forall_app in Hf as [Hf _]. split.
    + apply (proj1 (Forall_forall _ _) Hf). by apply (list_elem_of_fmap_2 fst _ (w, r)).
    + by apply (proj1 (Forall_forall _ _) Hp (w, r)).
  - intros i r Hi. exact (Ht i _ Hi).
Qed.

(** C36: No write is left waiting as long as no caller is dropped while it waits:
    in whatever order the callers take their turns, after any calls and
    disconnections, they run out of turns after a bounded number, and when none
    of them can go on they have all returned. *)
Theorem queued_writes_return `{UuidText} (conn : BluerConnection.t) (l : list action)
    (schedule : list (answer (list RemoteService.t) * nat)) s :
  unused conn → Forall (λ a, is_drop a = false) l →
  turns (run (start conn) l) schedule = Some s →
  (length schedule ≤ 5 * length (asked l) + 4 * length (pending (run (start conn) l)))%nat
  ∧ ((∀ remote i, process_write_queue remote s i = None) →
       length (tasks s) = length (asked l) ∧ ∀ i c, tasks s !! i = Some c → ∃ r, c = Returned r).
Proof.
  intros Hu Hl Ht. pose proof (wf_run (start conn) l (wf_start conn Hu)) as Hwf.
  assert (∀ l, length (tasks (run (start conn) l)) = length (asked l)) as Hlen.
  { intros l'. rewrite <-(wf_submitted _ (wf_run (start conn) l' (wf_start conn Hu))).
    destruct (faithful_run conn l') as [<- _]. by rewrite length_fmap. }
  split.
  - apply turns_shorten in Ht. pose proof (weight_bound (tasks (run (start conn) l))) as Hb.
    rewrite Hlen in Hb. unfold left_to_do in Ht at 2. lia.
  - intros Hstuck. apply turns_run in Ht. set (ts := (λ p, Turn p.1 p.2) <$> schedule) in Ht.
    assert (s = run (start conn) (l ++ ts)) as -> by (unfold run in *; by rewrite foldl_app).
    split.
    + rewrite Hlen. assert (asked (l ++ ts) = asked l ++ asked ts) as -> by apply omap_app.
      assert (asked ts = []) as -> by apply asked_turns. by rewrite app_nil_r.
    + apply stuck_returned; [by apply wf_run, wf_start| |done]. apply live_run; [done|].
      apply Forall_app. split; [done|]. apply Forall_fmap, Forall_true. done.
Qed.

(** A caller whose future is dropped in the middle of its write, as by a timeout,
    leaves the flag of the queue set: no write is carried out any more. *)
Theorem dropped_write_blocks `{UuidText} (conn : BluerConnection.t) sv ch v remote (l : list action) :
  unused conn →
  performed (run (start conn) ([Call sv ch v; Turn remote 0; Drop 0] ++ l)) = [].
Proof.
  intros Hu. unfold run. rewrite foldl_app. fold (run (start conn) [Call sv ch v; Turn remote 0; Drop 0]).
  fold (run (run (start conn) [Call sv ch v; Turn remote 0; Drop 0]) l).
  pose proof (wf_run (start conn) [Call sv ch v; Turn remote 0; Drop 0] (wf_start conn Hu)) as Hwf.
  assert (run (start conn) [Call sv ch v; Turn remote 0; Drop 0]
    = mk (BluerConnection.set_queue conn (WriteQueueState.mk [] true)) [Dropped] [Closed]
        [QueuedWrite.mk sv ch v 0] []) as E.
  { cbn. unfold process_write_queue, queue_state. cbn. by rewrite Hu. }
  rewrite E in Hwf |- *. rewrite blocked_run; [done|done|]. split; [done|].
  by intros [|i] (c & [= <-] & ?).
Qed.

(** Two tasks, each with a write to the one characteristic of the device: the
    first writes for both. *)
Definition remote_one : answer (list RemoteService.t) :=
  Okay [RemoteService.mk (Some [1])
    (Okay [RemoteCharacteristic.mk (Some [2]) (Okay []) (λ v, if bool_decide (v = [9]) then Err [33] else Okay tt)
             (Okay 250) (Okay 250) (Okay 0)])].
Definition fresh_connection : BluerConnection.t := BluerConnection.new 7 [1; 2; 3; 4; 5; 6] (Okay (Some (-60))) 0.
Definition two_calls : list action := [Call [1] [2] [5]; Turn remote_one 0; Call [1] [2] [9]; Turn remote_one 1].
Definition turns_of : list (answer (list RemoteService.t) * nat) :=
  (λ i, (remote_one, i)) <$> [0; 0; 0; 0; 0; 0; 0; 0; 0; 1]%nat.
Lemma queued_writes_one_at_a_time_witness :
  let _ : UuidText := λ u, u in
  let s := run (start fresh_connection) (two_calls ++ ((λ p, Turn p.1 p.2) <$> turns_of)) in
  StronglySorted lt (QueuedWrite.complete_tx <$> (performed s).*1)
  ∧ snd <$> performed s
    = [Okay tt; Err (BleError.GattError (str "Failed to write characteristic: !"%string))].
Proof.
  intros u s. split; [|vm_compute; reflexivity].
  exact (proj1 (proj2 (proj2 (queued_writes_one_at_a_time (H := u) fresh_connection
    (two_calls ++ ((λ p, Turn p.1 p.2) <$> turns_of)) eq_refl)))).
Defined.
Lemma queued_writes_return_witness :
  let _ : UuidText := λ u, u in
  ∃ s, turns (run (start fresh_connection) two_calls) turns_of = Some s
    ∧ (length turns_of ≤ 5 * 2 + 4 * 1)%nat
    ∧ tasks s = [Returned (Okay tt);
                 Returned (Err (BleError.GattError (str "Failed to write characteristic: !"%string)))].
Proof.
  intros u. eexists. assert (∀ s, turns (H := u) (run (start fresh_connection) two_calls) turns_of = Some s →
    (length turns_of ≤ 5 * 2 + 4 * 1)%nat) as Hb.
  { intros s E. exact (proj1 (queued_writes_return (H := u) fresh_connection two_calls turns_of s eq_refl
      ltac:(repeat constructor) E)). }
  split; [vm_compute; reflexivity|]. split; [|vm_compute; reflexivity]. eapply Hb. vm_compute. reflexivity.
Defined.

End WriteQueueProperties.
