(* ===== verification/LinuxAdapter.v ===== *)
(** * The adapter of src/src/platform/linux/adapter.rs.

    BlueZ is outside: what it answers is an argument, and an address of it is
    its six bytes.  A handed-out connection shares its state with the adapter:
    [handles] holds those states, each with the tasks that write on it.
    A callback is set or not, and what it is called with is recorded; dropping
    the handle of an advertisement or of the service ends it.  The tasks that
    [start_scan] spawns are listed with the callback each took along. *)

From Stdlib Require Import String.
From stdpp Require Import base numbers list gmap.
From S2P Require Import Prelude Crypto Config PeerGraph GattProto GattService Ble Adapter LinuxConnection.
Open Scope Z_scope.
Open Scope peat_scope.

(** [Address::to_string] of the bluer crate. *)
Class AddressText := address_text : list Z → list Z.

(** ** What the service holds *)

Module GattState.

(** [received] and [commands] are what the callbacks were called with. *)
Record t := mk {
  node_id : option Z; node_info : list Z; sync_state : list Z; status : list Z;
  sync_data_callback : bool; command_callback : bool; peer_mtu : gmap (list Z) Z;
  received : list (list Z); commands : list (list Z)
}.
Definition new : t := mk None [] [] [] false false ∅ [] [].
Definition init (self : t) (node_id : Z) : t :=
  mk (Some node_id) (le 4 node_id) [0x00] [0x00] (sync_data_callback self) (command_callback self)
    (peer_mtu self) (received self) (commands self).
Definition update_peer_mtu (self : t) (address : list Z) (mtu : Z) : t :=
  mk (node_id self) (node_info self) (sync_state self) (status self) (sync_data_callback self)
    (command_callback self) (<[address := mtu]> (peer_mtu self)) (received self) (commands self).
Definition get_peer_mtu (self : t) (address : list Z) : option Z := peer_mtu self !! address.
Definition set_sync_data_callback (self : t) (set : bool) : t :=
  mk (node_id self) (node_info self) (sync_state self) (status self) set (command_callback self)
    (peer_mtu self) (received self) (commands self).
Definition set_sync_state (self : t) (data : list Z) : t :=
  mk (node_id self) (node_info self) data (status self) (sync_data_callback self)
    (command_callback self) (peer_mtu self) (received self) (commands self).

(** The closures of [register_gatt_service]: a request comes with the address
    of the peer and its MTU, a write with its bytes. *)
Definition read_node_info (self : t) (device_address : list Z) (mtu : Z) : t * answer (list Z) :=
  let self := update_peer_mtu self device_address mtu in (self, Okay (node_info self)).
Definition read_sync_state (self : t) (device_address : list Z) (mtu : Z) : t * answer (list Z) :=
  let self := update_peer_mtu self device_address mtu in (self, Okay (sync_state self)).
Definition read_status (self : t) (device_address : list Z) (mtu : Z) : t * answer (list Z) :=
  let self := update_peer_mtu self device_address mtu in (self, Okay (status self)).
Definition write_sync_data (self : t) (data device_address : list Z) (mtu : Z) : t * answer unit :=
  let self := update_peer_mtu self device_address mtu in
  (if sync_data_callback self then
     mk (node_id self) (node_info self) (sync_state self) (status self) (sync_data_callback self)
       (command_callback self) (peer_mtu self) (received self ++ [data]) (commands self)
   else self, Okay tt).
Definition write_command (self : t) (data device_address : list Z) (mtu : Z) : t * answer unit :=
  let self := update_peer_mtu self device_address mtu in
  (if command_callback self then
     mk (node_id self) (node_info self) (sync_state self) (status self) (sync_data_callback self)
       (command_callback self) (peer_mtu self) (received self) (commands self ++ [data])
   else self, Okay tt).
End GattState.

(** What the service declares: which accesses each characteristic has. *)
Module LocalCharacteristic.
Record t := mk {
  uuid : list Z; read : bool; write : bool; write_without_response : bool; notify : bool;
  indicate : bool
}.
Definition application : list t :=
  [mk PeatCharacteristicUuids.node_info true false false false false;
   mk PeatCharacteristicUuids.sync_state true false false true false;
   mk PeatCharacteristicUuids.sync_data false true false false true;
   mk PeatCharacteristicUuids.command false true true false false;
   mk PeatCharacteristicUuids.status true false false true false].
End LocalCharacteristic.

(** ** Advertisements *)

(** Its type is always [Peripheral]. *)
Module Advertisement.
Record t := mk {
  service_uuids : list (list Z); local_name : option (list Z); service_data : gmap (list Z) (list Z);
  discoverable : option bool
}.
End Advertisement.

(** The UUID 0000F47A-0000-1000-8000-00805F9B34FB. *)
Definition service_uuid_16bit : list Z :=
  [0x00; 0x00; 0xF4; 0x7A; 0x00; 0x00; 0x10; 0x00; 0x80; 0x00; 0x00; 0x80; 0x5F; 0x9B; 0x34; 0xFB].

(** What BlueZ knows of a device; an error counts as nothing known. *)
Module DeviceProperties.
Record t := mk { name : option (list Z); rssi : option Z; service_data : option (gmap (list Z) (list Z)) }.
End DeviceProperties.
Module AdapterEvent.
(** [device] is what [adapter.device(addr)] gives. *)
Inductive t :=
| DeviceAdded (addr : list Z) (device : option DeviceProperties.t) | DeviceRemoved (addr : list Z)
| PropertyChanged.
End AdapterEvent.

Module DiscoveryTask.
Record t := mk { callback : bool; shutdown : bool; ended : bool }.
End DiscoveryTask.

(** ** The adapter *)

Module BluerAdapter.

(** [adv_handle] is what is advertised. *)
Record t := mk {
  cached_address : option (list Z); cached_powered : bool; config : option BleConfig.t;
  connections : gmap Z nat; address_to_node : gmap (list Z) Z; node_to_address : gmap Z (list Z);
  handles : list WriteTasks.t; adv_handle : option Advertisement.t; gatt_handle : bool;
  gatt_state : GattState.t; discovery_callback : bool; connection_callback : bool;
  tasks : list DiscoveryTask.t; discovered : list DiscoveredDevice.t;
  told : list (Z * ConnectionEvent.t)
}.

Definition set_config (self : t) (c : option BleConfig.t) : t :=
  mk (cached_address self) (cached_powered self) c (connections self) (address_to_node self)
    (node_to_address self) (handles self) (adv_handle self) (gatt_handle self) (gatt_state self)
    (discovery_callback self) (connection_callback self) (tasks self) (discovered self) (told self).
Definition set_connections (self : t) (cs : gmap Z nat) (hs : list WriteTasks.t) : t :=
  mk (cached_address self) (cached_powered self) (config self) cs (address_to_node self)
    (node_to_address self) hs (adv_handle self) (gatt_handle self) (gatt_state self)
    (discovery_callback self) (connection_callback self) (tasks self) (discovered self) (told self).
Definition set_adv_handle (self : t) (h : option Advertisement.t) : t :=
  mk (cached_address self) (cached_powered self) (config self) (connections self)
    (address_to_node self) (node_to_address self) (handles self) h (gatt_handle self)
    (gatt_state self) (discovery_callback self) (connection_callback self) (tasks self)
    (discovered self) (told self).
Definition set_gatt (self : t) (handle : bool) (state : GattState.t) : t :=
  mk (cached_address self) (cached_powered self) (config self) (connections self)
    (address_to_node self) (node_to_address self) (handles self) (adv_handle self) handle state
    (discovery_callback self) (connection_callback self) (tasks self) (discovered self) (told self).
Definition set_callbacks (self : t) (d c : bool) : t :=
  mk (cached_address self) (cached_powered self) (config self) (connections self)
    (address_to_node self) (node_to_address self) (handles self) (adv_handle self) (gatt_handle self)
    (gatt_state self) d c (tasks self) (discovered self) (told self).
Definition set_tasks (self : t) (ts : list DiscoveryTask.t) : t :=
  mk (cached_address self) (cached_powered self) (config self) (connections self)
    (address_to_node self) (node_to_address self) (handles self) (adv_handle self) (gatt_handle self)
    (gatt_state self) (discovery_callback self) (connection_callback self) ts (discovered self)
    (told self).
Definition report (self : t) (device : DiscoveredDevice.t) : t :=
  mk (cached_address self) (cached_powered self) (config self) (connections self)
    (address_to_node self) (node_to_address self) (handles self) (adv_handle self) (gatt_handle self)
    (gatt_state self) (discovery_callback self) (connection_callback self) (tasks self)
    (discovered self ++ [device]) (told self).
(** [if let Some(ref cb) = *self.connection_callback.read().await { cb(..) }] *)
Definition tell (self : t) (peer_id : Z) (event : ConnectionEvent.t) : t :=
  if connection_callback self then
    mk (cached_address self) (cached_powered self) (config self) (connections self)
      (address_to_node self) (node_to_address self) (handles self) (adv_handle self)
      (gatt_handle self) (gatt_state self) (discovery_callback self) (connection_callback self)
      (tasks self) (discovered self) (told self ++ [(peer_id, event)])
  else self.

(** *** Construction *)

(** What is common to [new] and [with_adapter_name] once there is an adapter. *)
Definition with_adapter (is_powered : answer bool) (set_powered : answer unit)
    (address : option (list Z)) : result t BleError.t :=
  bind (failed_to BleError.PlatformError "Failed to check adapter power"%string is_powered) (λ powered,
  bind (if negb powered
        then failed_to BleError.PlatformError "Failed to power on adapter"%string set_powered
        else Okay tt) (λ _,
    Okay (mk address true None ∅ ∅ ∅ [] None false GattState.new false false [] [] []))).
Definition new (session default_adapter : answer unit) (is_powered : answer bool)
    (set_powered : answer unit) (address : option (list Z)) : result t BleError.t :=
  bind (failed_to BleError.PlatformError "Failed to create BlueZ session"%string session) (λ _,
  bind (match default_adapter with Okay _ => Okay tt | Err _ => Err BleError.AdapterNotAvailable end)
    (λ _, with_adapter is_powered set_powered address)).
Definition with_adapter_name (name : list Z) (session adapter : answer unit) (is_powered : answer bool)
    (set_powered : answer unit) (address : option (list Z)) : result t BleError.t :=
  bind (failed_to BleError.PlatformError "Failed to create BlueZ session"%string session) (λ _,
  bind (match adapter with
        | Okay _ => Okay tt
        | Err e => Err (BleError.PlatformError
            (str "Failed to get adapter '"%string ++ name ++ str "': "%string ++ e))
        end)
    (λ _, with_adapter is_powered set_powered address)).

(** *** Advertisements and discovery *)

Definition build_advertisement (config : BleConfig.t) : Advertisement.t :=
  let mesh_id := MeshConfig.mesh_id (BleConfig.mesh config) in
  let service_data_bytes :=
    be32 (BleConfig.node_id config)
    ++ match from_hex 32 mesh_id with
       | Some mesh_id_int => be32 mesh_id_int
       | None => take 4 mesh_id
       end in
  Advertisement.mk [service_uuid_16bit]
    (Some (str "PEAT-"%string ++ hex8 (BleConfig.node_id config)))
    {[service_uuid_16bit := service_data_bytes]} (Some true).

Definition register_node_address (self : t) (node_id : Z) (address : list Z) : t :=
  mk (cached_address self) (cached_powered self) (config self) (connections self)
    (<[address := node_id]> (address_to_node self)) (<[node_id := address]> (node_to_address self))
    (handles self) (adv_handle self) (gatt_handle self) (gatt_state self) (discovery_callback self)
    (connection_callback self) (tasks self) (discovered self) (told self).
Definition get_node_address (self : t) (node_id : Z) : option (list Z) := node_to_address self !! node_id.

Definition parse_peat_beacon `{AddressText} (address : list Z) (name : option (list Z)) (rssi : Z)
    (service_data : gmap (list Z) (list Z)) : option DiscoveredDevice.t :=
  let is_peat := bool_decide (is_Some (service_data !! PEAT_SERVICE_UUID)) in
  let node_id := (name ≫= strip_prefix (str "PEAT-"%string)) ≫= NodeId.parse in
  Some (DiscoveredDevice.mk (address_text address) name (to_i8 (wrap 8 rssi))
          (is_peat || bool_decide (is_Some node_id)) node_id []).

(** [data[0..4]] as a big-endian number, if there is one. *)
Definition node_of_service_data (service_data : gmap (list Z) (list Z)) : option Z :=
  match (match service_data !! service_uuid_16bit with
         | Some data => Some data
         | None => service_data !! PEAT_SERVICE_UUID
         end) with
  | Some (b0 :: b1 :: b2 :: b3 :: _) =>
      match be32_at [b0; b1; b2; b3] 0 with Ok id => Some id | _ => None end
  | _ => None
  end.
Definition starts_with (p s : list Z) : bool := bool_decide (is_Some (strip_prefix p s)).
(** The device that the loop makes of what is known. *)
Definition device_of `{AddressText} (addr : list Z) (device : DeviceProperties.t) : DiscoveredDevice.t :=
  let name := DeviceProperties.name device in
  let rssi := default 0 (DeviceProperties.rssi device) in
  let service_data := default ∅ (DeviceProperties.service_data device) in
  let has_peat_service := bool_decide (is_Some (service_data !! PEAT_SERVICE_UUID))
    || bool_decide (is_Some (service_data !! service_uuid_16bit)) in
  let name_indicates_peat :=
    match name with
    | Some n => starts_with (str "PEAT_"%string) n || starts_with (str "PEAT-"%string) n
    | None => false
    end in
  let node_id :=
    match (name ≫= λ n, snd <$> MeshConfig.parse_device_name n) with
    | Some id => Some id
    | None => node_of_service_data service_data
    end in
  DiscoveredDevice.mk (address_text addr) name (to_i8 (wrap 8 rssi))
    (has_peat_service || name_indicates_peat) node_id [].
Definition end_task (self : t) (k : nat) : t :=
  set_tasks self (alter (λ d, DiscoveryTask.mk (DiscoveryTask.callback d) (DiscoveryTask.shutdown d) true)
                    k (tasks self)).
(** Task [k] takes an event; [None] is the end of the stream. *)
Definition discovery_event `{AddressText} (self : t) (k : nat) (event : option AdapterEvent.t) : t :=
  match tasks self !! k with
  | Some task =>
      if DiscoveryTask.ended task then self
      else match event with
           | Some (AdapterEvent.DeviceAdded addr (Some device)) =>
               let d := device_of addr device in
               let self := match DiscoveredDevice.node_id d with
                           | Some nid => register_node_address self nid addr
                           | None => self
                           end in
               if DiscoveryTask.callback task then report self d else self
           | Some _ => self
           | None => end_task self k
           end
  | None => self
  end.
(** Task [k] sees the shutdown; [select!] may let it take an event before. *)
Definition discovery_shutdown (self : t) (k : nat) : t :=
  match tasks self !! k with
  | Some task => if DiscoveryTask.shutdown task then end_task self k else self
  | None => self
  end.

Definition get_connection_handle (self : t) (node_id : Z) : option nat := connections self !! node_id.
Definition set_sync_data_callback (self : t) : t :=
  set_gatt self (gatt_handle self) (GattState.set_sync_data_callback (gatt_state self) true).
Definition clear_sync_data_callback (self : t) : t :=
  set_gatt self (gatt_handle self) (GattState.set_sync_data_callback (gatt_state self) false).
Definition update_sync_state (self : t) (data : list Z) : t :=
  set_gatt self (gatt_handle self) (GattState.set_sync_state (gatt_state self) data).
Definition get_sync_state (self : t) : list Z := GattState.sync_state (gatt_state self).
Definition get_peer_mtu (self : t) (address : list Z) : option Z :=
  GattState.get_peer_mtu (gatt_state self) address.
Definition get_all_peer_mtus (self : t) : gmap (list Z) Z := GattState.peer_mtu (gatt_state self).
Definition is_random_address (address : list Z) : outcome bool :=
  match address with [] => Panic | first_byte :: _ => Ok (Z.land first_byte 0xC0 =? 0xC0) end.
Definition set_adapter_alias (set_alias : answer unit) : result unit BleError.t :=
  failed_to BleError.PlatformError "Failed to set adapter alias"%string set_alias.
Definition remove_device (removed : answer unit) : result unit BleError.t :=
  failed_to BleError.ConnectionFailed "Failed to remove device"%string removed.

(** *** [impl BleAdapter] *)

Definition not_initialized : BleError.t := BleError.InvalidState (str "Adapter not initialized"%string).
Definition init (self : t) (config : BleConfig.t) : t * result unit BleError.t :=
  (set_config self (Some config), Okay tt).

(** [?] on a result that comes with the state. *)
Definition and_then {A B} (r : t * result A BleError.t) (k : t → A → t * result B BleError.t)
    : t * result B BleError.t :=
  match r with (self, Okay a) => k self a | (self, Err e) => (self, Err e) end.

(** The filter and the discovery are asked for first; a failed start spawns
    nothing. *)
Definition start_scan (self : t) (set_discovery_filter discover_devices : answer unit)
    : t * result unit BleError.t :=
  match failed_to BleError.DiscoveryFailed "Failed to set discovery filter"%string set_discovery_filter with
  | Err e => (self, Err e)
  | Okay _ =>
      match failed_to BleError.DiscoveryFailed "Failed to start discovery"%string discover_devices with
      | Err e => (self, Err e)
      | Okay _ =>
          (set_tasks self (tasks self ++ [DiscoveryTask.mk (discovery_callback self) false false]), Okay tt)
      end
  end.
Definition stop_scan (self : t) : t * result unit BleError.t := (self, Okay tt).
Definition start_advertising (self : t) (advertise : answer unit) : t * result unit BleError.t :=
  match config self with
  | None => (self, Err not_initialized)
  | Some ble_config =>
      match failed_to BleError.PlatformError "Failed to start advertising"%string advertise with
      | Err e => (self, Err e)
      | Okay _ => (set_adv_handle self (Some (build_advertisement ble_config)), Okay tt)
      end
  end.
Definition stop_advertising (self : t) : t * result unit BleError.t := (set_adv_handle self None, Okay tt).
Definition start (self : t) (advertise set_discovery_filter discover_devices : answer unit)
    : t * result unit BleError.t :=
  match config self with
  | None => (self, Err not_initialized)
  | Some _ =>
      and_then (start_advertising self advertise) (λ self _,
        start_scan self set_discovery_filter discover_devices)
  end.
(** [shutdown_tx.send(())] reaches the tasks that are there. *)
Definition send_shutdown (self : t) : t :=
  set_tasks self (map (λ d, DiscoveryTask.mk (DiscoveryTask.callback d) true (DiscoveryTask.ended d))
                    (tasks self)).
Definition stop (self : t) : t * result unit BleError.t :=
  and_then (stop_advertising self) (λ self _,
  and_then (stop_scan self) (λ self _, (send_shutdown self, Okay tt))).
Definition is_powered (self : t) : bool := cached_powered self.
Definition address (self : t) : option (list Z) := cached_address self.
Definition set_discovery_callback (self : t) (callback : bool) : t :=
  set_callbacks self callback (connection_callback self).
Definition set_connection_callback (self : t) (callback : bool) : t :=
  set_callbacks self (discovery_callback self) callback.

(** The answers of BlueZ while [connect] runs. *)
Module ConnectAnswers.
Record t := mk {
  device : answer unit; connected : answer unit; advertise : answer unit; rssi : answer (option Z);
  now : Z
}.
End ConnectAnswers.

Definition unknown_node (peer_id : Z) : BleError.t :=
  BleError.ConnectionFailed (str "Unknown node ID: "%string ++ NodeId.display peer_id).
(** Advertising pauses while the connection is made. *)
Definition pause_advertising (self : t) : t := set_adv_handle self None.
Definition resume_advertising (self : t) (advertise : answer unit) : t :=
  match config self with
  | Some cfg =>
      match advertise with
      | Okay _ => set_adv_handle self (Some (build_advertisement cfg))
      | Err _ => self
      end
  | None => self
  end.
Definition bluer_connect (answers : ConnectAnswers.t) (self : t) (peer_id : Z)
    : t * result BleConnection.t BleError.t :=
  match get_node_address self peer_id with
  | None => (self, Err (unknown_node peer_id))
  | Some address =>
      match failed_to BleError.ConnectionFailed "Failed to get device"%string (ConnectAnswers.device answers) with
      | Err e => (self, Err e)
      | Okay _ =>
          let had_advertising := bool_decide (is_Some (adv_handle self)) in
          let self := if had_advertising
                      then resume_advertising (pause_advertising self) (ConnectAnswers.advertise answers)
                      else self in
          match failed_to BleError.ConnectionFailed "Failed to connect"%string
                  (ConnectAnswers.connected answers) with
          | Err e => (self, Err e)
          | Okay _ =>
              let connection := BluerConnection.new peer_id address (ConnectAnswers.rssi answers)
                                  (ConnectAnswers.now answers) in
              let self := set_connections self (<[peer_id := length (handles self)]> (connections self))
                            (handles self ++ [WriteTasks.start connection]) in
              let self := tell self peer_id
                (ConnectionEvent.Connected (BluerConnection.mtu connection)
                   (BluerConnection.phy connection)) in
              (self, Okay (BluerConnection.as_connection connection))
          end
      end
  end.
Definition bluer_disconnect (disconnected : answer unit) (self : t) (peer_id : Z)
    : t * result unit BleError.t :=
  let connection := connections self !! peer_id in
  let self := set_connections self (delete peer_id (connections self)) (handles self) in
  match connection ≫= λ k, pair k <$> handles self !! k with
  | Some (k, conn) =>
      let '(conn, r) := WriteTasks.disconnect conn disconnected in
      let self := set_connections self (connections self) (<[k := conn]> (handles self)) in
      match r with
      | Err e => (self, Err e)
      | Okay _ =>
          (tell self peer_id (ConnectionEvent.Disconnected DisconnectReason.LocalRequest), Okay tt)
      end
  | None => (self, Okay tt)
  end.
Definition bluer_get_connection (self : t) (peer_id : Z) : option BleConnection.t :=
  (BluerConnection.as_connection ∘ WriteTasks.conn)
    <$> (connections self !! peer_id ≫= λ k, handles self !! k).
Definition bluer_peer_count (self : t) : Z := Z.of_nat (size (connections self)).
Definition bluer_connected_peers `{!MapOrder Z} (self : t) : list Z := (map_iter (connections self)).*1.

Definition register_gatt_service (self : t) (serve : answer unit) : t * result unit BleError.t :=
  match config self with
  | None => (self, Err not_initialized)
  | Some c =>
      let self := set_gatt self (gatt_handle self) (GattState.init (gatt_state self) (BleConfig.node_id c)) in
      match failed_to BleError.GattError "Failed to register GATT service"%string serve with
      | Err e => (self, Err e)
      | Okay _ => (set_gatt self true (gatt_state self), Okay tt)
      end
  end.
Definition unregister_gatt_service (self : t) : t * result unit BleError.t :=
  (set_gatt self false (gatt_state self), Okay tt).
Definition supports_coded_phy : bool := true.
Definition supports_extended_advertising : bool := true.
Definition max_mtu : Z := 517.
Definition max_connections : Z := 7.

(** [write_to_peer] is the default of the trait. *)
Definition bluer_adapter `{!MapOrder Z} (advertise set_discovery_filter discover_devices : answer unit)
    (connecting : ConnectAnswers.t) (disconnected : answer unit) : BleAdapter t := {|
  Adapter.start s := start s advertise set_discovery_filter discover_devices;
  Adapter.stop := stop; Adapter.connect := bluer_connect connecting;
  Adapter.disconnect := bluer_disconnect disconnected; Adapter.get_connection := bluer_get_connection;
  Adapter.peer_count := bluer_peer_count; Adapter.connected_peers := bluer_connected_peers;
  Adapter.write_to_peer := default_write_to_peer
|}.

End BluerAdapter.

(** * Theorems *)

Module LinuxProofs.
Import BluerAdapter.

Lemma own_name n : in_u 32 n →
  MeshConfig.parse_device_name (str "PEAT-"%string ++ hex8 n) = Some (None, n).
Proof.
  intros Hn. unfold MeshConfig.parse_device_name.
  assert (strip_prefix (str "PEAT_"%string) (str "PEAT-"%string ++ hex8 n) = None) as -> by reflexivity.
  by rewrite strip_prefix_app, from_hex_hex8.
Qed.
(** The first four bytes that a node advertises are its identifier. *)
Lemma own_service_data cfg : in_u 32 (BleConfig.node_id cfg) →
  node_of_service_data (Advertisement.service_data (build_advertisement cfg)) = Some (BleConfig.node_id cfg).
Proof.
  intros Hn. unfold node_of_service_data, build_advertisement. cbn [Advertisement.service_data].
  rewrite lookup_singleton_eq. cbn [be32 app].
  change ([wrap 8 (Z.shiftr (BleConfig.node_id cfg) 24); wrap 8 (Z.shiftr (BleConfig.node_id cfg) 16);
    wrap 8 (Z.shiftr (BleConfig.node_id cfg) 8); wrap 8 (BleConfig.node_id cfg)]) with (be32 (BleConfig.node_id cfg)).
  by rewrite be32_end.
Qed.
(** The name may not have been seen: it can be in a scan response. *)
Definition seen_with (adv : Advertisement.t) (device : DeviceProperties.t) : Prop :=
  DeviceProperties.service_data device = Some (Advertisement.service_data adv)
  ∧ (DeviceProperties.name device = Advertisement.local_name adv ∨ DeviceProperties.name device = None).
Lemma own_device `{AddressText} cfg addr device : in_u 32 (BleConfig.node_id cfg) →
  seen_with (build_advertisement cfg) device →
  device_of addr device = DiscoveredDevice.mk (address_text addr) (DeviceProperties.name device)
    (to_i8 (wrap 8 (default 0 (DeviceProperties.rssi device)))) true (Some (BleConfig.node_id cfg)) [].
Proof.
  intros Hn [Hd Hname]. unfold device_of. rewrite Hd. cbn [default id].
  rewrite own_service_data by done.
  assert (is_Some (Advertisement.service_data (build_advertisement cfg) !! service_uuid_16bit)) as Hs.
  { unfold build_advertisement. cbn [Advertisement.service_data]. rewrite lookup_singleton_eq. eauto. }
  rewrite (bool_decide_eq_true_2 _ Hs), orb_true_r. cbn [orb]. f_equal.
  destruct Hname as [->| ->]; [|done]. unfold build_advertisement.
  cbn [Advertisement.local_name mbind option_bind]. by rewrite own_name.
Qed.

Lemma registered `{AddressText} s k task addr device n : tasks s !! k = Some task →
  DiscoveryTask.ended task = false → DiscoveredDevice.node_id (device_of addr device) = Some n →
  let s' := discovery_event s k (Some (AdapterEvent.DeviceAdded addr (Some device))) in
  get_node_address s' n = Some addr ∧ address_to_node s' !! addr = Some n
  ∧ discovered s' = discovered s ++ (if DiscoveryTask.callback task then [device_of addr device] else [])
  ∧ adv_handle s' = adv_handle s ∧ config s' = config s ∧ handles s' = handles s
  ∧ told s' = told s ∧ connection_callback s' = connection_callback s.
Proof.
  intros Hk He Hn. unfold discovery_event. rewrite Hk, He, Hn. cbn zeta.
  unfold get_node_address. destruct (DiscoveryTask.callback task); cbn; rewrite !lookup_insert_eq, ?app_nil_r; done.
Qed.

(** What is advertised after a connection attempt. *)
Definition advertised_after (answers : ConnectAnswers.t) (s : t) : option Advertisement.t :=
  match adv_handle s, config s, ConnectAnswers.advertise answers with
  | Some _, Some cfg, Okay _ => Some (build_advertisement cfg)
  | _, _, _ => None
  end.
(** A connection to a node that was seen depends on what BlueZ answers alone. *)
Lemma linux_connect_known answers s n addr : get_node_address s n = Some addr →
  ConnectAnswers.device answers = Okay tt → ConnectAnswers.connected answers = Okay tt →
  let conn := BluerConnection.new n addr (ConnectAnswers.rssi answers) (ConnectAnswers.now answers) in
  ∃ s', bluer_connect answers s n = (s', Okay (BluerConnection.as_connection conn))
    ∧ bluer_get_connection s' n = Some (BluerConnection.as_connection conn)
    ∧ handles s' = handles s ++ [WriteTasks.start conn]
    ∧ adv_handle s' = advertised_after answers s
    ∧ told s' = told s ++ (if connection_callback s
                           then [(n, ConnectionEvent.Connected (BluerConnection.mtu conn) (BluerConnection.phy conn))]
                           else []).
Proof.
  intros Ha Hd Hc conn. unfold bluer_connect. rewrite Ha, Hd, Hc. cbn [failed_to]. fold conn. cbn zeta.
  eexists. split; [done|]. unfold bluer_get_connection, tell, advertised_after, resume_advertising.
  destruct s as [ca cp [cfg|] cs an na hs [h|] gh gs dc cc ts ds tl], (ConnectAnswers.advertise answers), cc;
    cbn; rewrite ?lookup_insert_eq; cbn; rewrite ?lookup_app_r, ?Nat.sub_diag, ?app_nil_r by lia; done.
Qed.
(** A failed attempt changes nothing but what is advertised. *)
Lemma connect_failed answers s n s' e : bluer_connect answers s n = (s', Err e) →
  connections s' = connections s ∧ handles s' = handles s ∧ told s' = told s
  ∧ node_to_address s' = node_to_address s ∧ gatt_state s' = gatt_state s
  ∧ (adv_handle s' = adv_handle s ∨ adv_handle s' = advertised_after answers s).
Proof.
  unfold bluer_connect. destruct (get_node_address s n); [|intros [= <- _]; auto 10].
  destruct (failed_to _ _ (ConnectAnswers.device answers)); [|intros [= <- _]; auto 10].
  destruct (failed_to _ _ (ConnectAnswers.connected answers)); [done|]. intros [= <- _].
  unfold advertised_after, resume_advertising.
  destruct s as [ca cp [cfg|] cs an na hs [h|] gh gs dc cc ts ds tl], (ConnectAnswers.advertise answers);
    cbn; auto 10.
Qed.

(** What was started reports to the callback that was set then. *)
Lemma started s advertise filter discover s' : start s advertise filter discover = (s', Okay tt) →
  ∃ cfg, config s = Some cfg ∧ config s' = Some cfg ∧ adv_handle s' = Some (build_advertisement cfg)
    ∧ tasks s' = tasks s ++ [DiscoveryTask.mk (discovery_callback s) false false]
    ∧ discovered s' = discovered s ∧ told s' = told s ∧ connection_callback s' = connection_callback s
    ∧ handles s' = handles s.
Proof.
  unfold start, start_advertising, start_scan. destruct (config s) as [cfg|] eqn:Ec; [|done].
  destruct advertise, filter, discover; intros [= <-]. by exists cfg.
Qed.

(** *** What the code does not do *)

(** Nothing that the transport sends goes out: the adapter has no write of its own. *)
Lemma linux_sends_nothing `{!MapOrder Z} a f d c dc s n uuid data :
  @write_to_peer _ (bluer_adapter a f d c dc) s n uuid data
  = (s, Err (BleError.NotSupported (str "write_to_peer not implemented for this adapter"%string))).
Proof. done. Qed.
(** What the service holds after its registration is too short for what reads it. *)
Lemma served_values_do_not_decode st n :
  let st := GattState.init st n in
  NodeInfo.decode (GattState.node_info st) = Fail
  ∧ SyncStateData.decode (GattState.sync_state st) = Fail ∧ StatusData.decode (GattState.status st) = Fail.
Proof.
  cbn. split; [|done]. unfold NodeInfo.decode. by rewrite zlen_le.
Qed.
(** The task that scans goes on when the scan is stopped. *)
Lemma stopped_scan_reports `{AddressText} s s1 addr device :
  start_scan s (Okay tt) (Okay tt) = (s1, Okay tt) → discovery_callback s = true →
  discovered (discovery_event (stop_scan s1).1 (length (tasks s)) (Some (AdapterEvent.DeviceAdded addr (Some device))))
  = discovered s ++ [device_of addr device].
Proof.
  intros [= <-] Hcb. unfold discovery_event, stop_scan. cbn [fst tasks set_tasks].
  rewrite lookup_app_r, Nat.sub_diag by lia. cbn. rewrite Hcb.
  by destruct (match _ with Some id => Some id | None => _ end).
Qed.
(** A connection that could not be ended is forgotten, and alive. *)
Lemma failed_disconnect_forgets e s n k conn : connections s !! n = Some k → handles s !! k = Some conn →
  BluerConnection.alive (WriteTasks.conn conn) = true →
  let '(s', r) := bluer_disconnect (Err e) s n in
  r = Err (BleError.ConnectionFailed (str "Failed to disconnect: "%string ++ e))
  ∧ bluer_get_connection s' n = None ∧ told s' = told s
  ∧ ∃ conn', handles s' !! k = Some conn' ∧ BluerConnection.alive (WriteTasks.conn conn') = true.
Proof.
  intros Hn Hk Ha. unfold bluer_disconnect. rewrite Hn. cbn [mbind option_bind]. cbn [handles set_connections].
  rewrite Hk. cbn [fmap option_fmap option_map].
  pose proof (WriteTaskProofs.tell_all_spec (WriteQueueState.queue (WriteTasks.queue_state conn))
    (WriteTasks.set_queue conn [] (WriteQueueState.write_in_progress (WriteTasks.queue_state conn))))
    as (_ & _ & _ & Ec & _).
  split_and!; [done| |done|].
  - unfold bluer_get_connection. cbn. by rewrite lookup_delete_eq.
  - eexists. split; [cbn; apply list_lookup_insert_Some; left; split_and!; [done..|by eapply lookup_lt_Some]|].
    unfold WriteTasks.clear_write_queue. cbv zeta. rewrite Ec. by cbn.
Qed.

End LinuxProofs.

Module LinuxProperties.
Import BluerAdapter LinuxProofs.

(** C37: Two Linux nodes find each other: an adapter that was started, and to which
    BlueZ shows the advertisement of another, with the name or without, reports
    it as the node it is; a connection to that node goes to the address it was
    seen at, is handed out and kept, and what was advertised before is
    advertised after it, if BlueZ takes it again. *)
Theorem linux_nodes_find_each_other `{AddressText} (other : BleConfig.t) device addr answers s s1
    advertise filter discover :
  let n := BleConfig.node_id other in
  in_u 32 n → start s advertise filter discover = (s1, Okay tt) →
  seen_with (build_advertisement other) device →
  ConnectAnswers.device answers = Okay tt → ConnectAnswers.connected answers = Okay tt →
  let s2 := discovery_event s1 (length (tasks s)) (Some (AdapterEvent.DeviceAdded addr (Some device))) in
  discovered s2 = discovered s
    ++ (if discovery_callback s then
          [DiscoveredDevice.mk (address_text addr) (DeviceProperties.name device)
             (to_i8 (wrap 8 (default 0 (DeviceProperties.rssi device)))) true (Some n) []]
        else [])
  ∧ ∃ s3 c h, bluer_connect answers s2 n = (s3, Okay c)
    ∧ BleConnection.peer_id c = n ∧ BleConnection.is_alive c = true ∧ BleConnection.mtu c = DEFAULT_BLE_MTU
    ∧ bluer_get_connection s3 n = Some c
    ∧ handles s3 = handles s ++ [h] ∧ BluerConnection.device (WriteTasks.conn h) = addr
    ∧ adv_handle s3 = (match ConnectAnswers.advertise answers with Okay _ => adv_handle s1 | Err _ => None end)
    ∧ told s3 = told s ++ (if connection_callback s
                           then [(n, ConnectionEvent.Connected DEFAULT_BLE_MTU BlePhy.Le1M)] else []).
Proof.
  intros n Hn Hs Hseen Hd Hc s2. destruct (started _ _ _ _ _ Hs) as (cfg & _ & Ec & Eadv & Et & Ed & Etold & Ecb & Eh).
  pose proof (own_device other addr device Hn Hseen) as Edev. fold n in Edev.
  destruct (registered s1 (length (tasks s)) (DiscoveryTask.mk (discovery_callback s) false false) addr device n)
    as (Ha & _ & Ed2 & Ea2 & Ec2 & Eh2 & Et2 & Ecb2).
  { by rewrite Et, lookup_app_r, Nat.sub_diag by lia. }
  { done. }
  { by rewrite Edev. }
  fold s2 in Ha, Ed2, Ea2, Ec2, Eh2, Et2, Ecb2. split; [by rewrite Ed2, Ed, Edev|].
  destruct (linux_connect_known answers s2 n addr Ha Hd Hc) as (s3 & E & Hg & Hh & Hadv & Ht).
  unfold advertised_after in Hadv. rewrite Ea2, Ec2, Ec, Eadv in Hadv.
  set (conn := BluerConnection.new n addr _ _) in *.
  assert (BluerConnection.peer_id conn = n ∧ BluerConnection.alive conn = true
    ∧ BluerConnection.mtu conn = DEFAULT_BLE_MTU ∧ BluerConnection.phy conn = BlePhy.Le1M
    ∧ BluerConnection.device conn = addr) as (Hp & Hal & Hm & Hphy & Hdev).
  { unfold conn, BluerConnection.new, BluerConnection.update_rssi. by repeat case_match. }
  exists s3, (BluerConnection.as_connection conn), (WriteTasks.start conn). split_and!; try done.
  - by rewrite Hh, Eh2, Eh.
  - rewrite Hadv, Eadv. by destruct (ConnectAnswers.advertise answers).
  - by rewrite Ht, Et2, Etold, Ecb2, Ecb, Hm, Hphy.
Qed.

(** The node 0xBEEF of the mesh "29C916FA", seen without its name. *)
Definition beef : BleConfig.t :=
  let c := BleConfig.new 0xBEEF in
  BleConfig.mk (BleConfig.node_id c) (BleConfig.capabilities c) (BleConfig.hierarchy_level c)
    (BleConfig.geohash c) (BleConfig.discovery c) (BleConfig.gatt c)
    (MeshConfig.new (str "29C916FA"%string)) (BleConfig.power_profile c) (BleConfig.phy c) (BleConfig.security c).
Definition this_adapter : t :=
  (init (mk None true None ∅ ∅ ∅ [] None false GattState.new true true [] [] []) (BleConfig.new 0xCAFE)).1.
Definition answers_ok : ConnectAnswers.t := ConnectAnswers.mk (Okay tt) (Okay tt) (Okay tt) (Okay None) 0.
Lemma linux_nodes_find_each_other_witness :
  let _ : AddressText := λ a, a in
  let s1 := (start this_adapter (Okay tt) (Okay tt) (Okay tt)).1 in
  let adv := build_advertisement beef in
  let device := DeviceProperties.mk None (Some (-70)) (Some (Advertisement.service_data adv)) in
  let s2 := discovery_event s1 0 (Some (AdapterEvent.DeviceAdded [1; 2; 3; 4; 5; 6] (Some device))) in
  discovered s2 = [DiscoveredDevice.mk [1; 2; 3; 4; 5; 6] None (-70) true (Some 0xBEEF) []]
  ∧ Advertisement.service_data adv = {[service_uuid_16bit := [0; 0; 0xBE; 0xEF; 0x29; 0xC9; 0x16; 0xFA]]}.
Proof.
  intros u s1 adv device s2. split; [|by vm_compute].
  exact (proj1 (linux_nodes_find_each_other (H := u) beef device [1; 2; 3; 4; 5; 6] answers_ok this_adapter s1
    (Okay tt) (Okay tt) (Okay tt) ltac:(by split) eq_refl (conj eq_refl (or_intror eq_refl)) eq_refl eq_refl)).
Defined.

End LinuxProperties.
