(* ===== verification/WindowsAdapter.v ===== *)
(** * The Windows platform: the watcher, the advertiser, the connection, the
    GATT server and the adapter of src/src/platform/windows.

    WinRT is outside: what it answers is an argument.  A connection is a value
    that is cloned: the clones share the cell with the flag, the MTU and the
    time, which is kept in a list of cells, and each has its own device, service
    and characteristic.  A callback is set or not, and what it is called with is
    recorded. *)

From Stdlib Require Import String.
From stdpp Require Import base numbers list gmap.
From S2P Require Import Prelude Crypto Config PeerGraph GattService Ble Beacon Adapter.
Open Scope Z_scope.
Open Scope peat_scope.

(** A row of calls: the answers are in the order of the calls, and calls for
    which none is given succeed. *)
Fixpoint calls (error : list Z → BleError.t) (texts : list string) (answers : list (answer unit))
    : result unit BleError.t :=
  match texts, answers with
  | text :: texts, a :: answers => bind (failed_to error text a) (λ _, calls error texts answers)
  | _, _ => Okay tt
  end.
(** [str::to_lowercase] of an ASCII text. *)
Definition to_lowercase (s : list Z) : list Z :=
  map (λ c, if (65 <=? c) && (c <=? 90) then c + 32 else c) s.
Definition PEAT_SERVICE_TEXT : list Z := str "f47ac10b-58cc-4372-a567-0e02b2c3d479"%string.

(** ** The scanner *)

Module DiscoveredPeripheral.
Record t := mk {
  address : Z; address_string : list Z; name : option (list Z); rssi : Z; is_peat_node : bool;
  node_id : option Z; adv_data : list Z; timestamp : Z
}.
(** [impl From<DiscoveredPeripheral> for DiscoveredDevice] *)
Definition into_device (p : t) : DiscoveredDevice.t :=
  DiscoveredDevice.mk (address_string p) (name p) (to_i8 (wrap 8 (rssi p))) (is_peat_node p) (node_id p)
    (adv_data p).
End DiscoveredPeripheral.

(** The advertisement of an event.  [None] stands for a call that failed: a
    manufacturer entry is its company with its bytes, a service its text. *)
Module WinAdvertisement.
Record t := mk {
  local_name : option (list Z); manufacturer_data : option (list (option (Z * option (list Z))));
  service_uuids : option (list (option (list Z)))
}.
End WinAdvertisement.
Module ReceivedArgs.
Record t := mk {
  bluetooth_address : answer Z; rssi : answer Z; timestamp : answer Z;
  advertisement : answer WinAdvertisement.t
}.
End ReceivedArgs.

Module WatcherState.
Record t := mk {
  peripherals : gmap Z DiscoveredPeripheral.t; peat_peripherals : list DiscoveredPeripheral.t
}.
Definition default_state : t := mk ∅ [].
End WatcherState.

Module BleWatcher.
Import WatcherState.

Record t := mk { received_token : bool; state : WatcherState.t; is_scanning : bool }.
Definition new (created : answer unit) : result t BleError.t :=
  bind (failed_to BleError.PlatformError "Failed to create watcher"%string created) (λ _,
    Okay (mk false default_state false)).

(** [mode], [received], [started]: the answers of the three calls. *)
Definition start_scan (self : t) (mode received started : answer unit) : t * result unit BleError.t :=
  if is_scanning self then (self, Okay tt)
  else
    match failed_to BleError.PlatformError "Failed to set scanning mode"%string mode with
    | Err e => (self, Err e)
    | Okay _ =>
        match failed_to BleError.PlatformError "Failed to register handler"%string received with
        | Err e => (self, Err e)
        | Okay _ =>
            match failed_to BleError.PlatformError "Failed to start watcher"%string started with
            | Err e => (mk true (state self) false, Err e)
            | Okay _ => (mk true (state self) true, Okay tt)
            end
        end
    end.
Definition stop_scan (self : t) (stopped : answer unit) : t * result unit BleError.t :=
  if negb (is_scanning self) then (self, Okay tt)
  else
    match failed_to BleError.PlatformError "Failed to stop watcher"%string stopped with
    | Err e => (self, Err e)
    | Okay _ => (mk false (state self) false, Okay tt)
    end.
Definition get_peat_peripherals (self : t) : list DiscoveredPeripheral.t := peat_peripherals (state self).
Definition get_all_peripherals `{!MapOrder Z} (self : t) : list DiscoveredPeripheral.t :=
  (map_iter (peripherals (state self))).*2.
Definition clear_peripherals (self : t) : t :=
  mk (received_token self) default_state (is_scanning self).

(** The loop over the manufacturer data: the bytes kept, whether a beacon was
    read, and its node. *)
Definition read_manufacturer (acc : list Z * bool * option Z) (entry : option (Z * option (list Z)))
    : outcome (list Z * bool * option Z) :=
  match entry with
  | Some (company_id, Some bytes) =>
      if company_id =? 0xFFFF then
        let! beacon := opt (PeatBeacon.decode bytes) in
        Ok (match beacon with
            | Some b => (bytes, true, Some (PeatBeacon.node_id b))
            | None => (bytes, acc.1.2, acc.2)
            end)
      else Ok acc
  | _ => Ok acc
  end.
Fixpoint read_manufacturers (acc : list Z * bool * option Z) (entries : list (option (Z * option (list Z))))
    : outcome (list Z * bool * option Z) :=
  match entries with
  | [] => Ok acc
  | e :: entries => let! acc := read_manufacturer acc e in read_manufacturers acc entries
  end.
Definition is_peat_uuid (uuid : option (list Z)) : bool :=
  match uuid with Some text => contains text PEAT_SERVICE_TEXT | None => false end.
(** [if let Some(existing) = .. find(..) { *existing = .. } else { push }] *)
Fixpoint update_or_push (p : DiscoveredPeripheral.t) (l : list DiscoveredPeripheral.t)
    : list DiscoveredPeripheral.t :=
  match l with
  | [] => [p]
  | q :: l =>
      if DiscoveredPeripheral.address q =? DiscoveredPeripheral.address p then p :: l
      else q :: update_or_push p l
  end.
Definition record (state : WatcherState.t) (p : DiscoveredPeripheral.t) : WatcherState.t :=
  WatcherState.mk (<[DiscoveredPeripheral.address p := p]> (peripherals state))
    (if DiscoveredPeripheral.is_peat_node p then update_or_push p (peat_peripherals state)
     else peat_peripherals state).
Definition address_text (address : Z) : list Z :=
  NodeId.mac_text (map (λ k, Z.land (Z.shiftr address k) 0xFF) [40; 32; 24; 16; 8; 0]).

Definition handle_advertisement (state : WatcherState.t) (args : ReceivedArgs.t)
    : outcome (WatcherState.t * result unit BleError.t) :=
  let read := bind (failed_to BleError.PlatformError "Failed to get address"%string
                      (ReceivedArgs.bluetooth_address args)) (λ address,
    bind (failed_to BleError.PlatformError "Failed to get RSSI"%string (ReceivedArgs.rssi args)) (λ rssi,
    bind (failed_to BleError.PlatformError "Failed to get timestamp"%string
            (ReceivedArgs.timestamp args)) (λ timestamp,
    bind (failed_to BleError.PlatformError "Failed to get advertisement"%string
            (ReceivedArgs.advertisement args)) (λ advertisement,
      Okay (address, rssi, timestamp, advertisement))))) in
  match read with
  | Err e => Ok (state, Err e)
  | Okay (address, rssi, timestamp, advertisement) =>
      let name := match WinAdvertisement.local_name advertisement with
                  | Some [] | None => None
                  | Some s => Some s
                  end in
      let! (adv_data, has_beacon, node_id) :=
        read_manufacturers ([], false, None) (default [] (WinAdvertisement.manufacturer_data advertisement)) in
      let is_peat_node := has_beacon
        || existsb is_peat_uuid (default [] (WinAdvertisement.service_uuids advertisement)) in
      Ok (record state (DiscoveredPeripheral.mk address (address_text address) name rssi is_peat_node
                          node_id adv_data timestamp), Okay tt)
  end.
(** The handler; errors are logged. *)
Definition received (self : t) (args : ReceivedArgs.t) : outcome t :=
  let! r := handle_advertisement (state self) args in
  Ok (mk (received_token self) r.1 (is_scanning self)).

End BleWatcher.

(** ** The advertiser *)

Module BleAdvertiser.

(** [sections] and [manufacturer] are what the advertisement of the publisher
    holds. *)
Record t := mk {
  is_advertising : bool; node_id : option Z; sections : list (Z * list Z); manufacturer : list (Z * list Z)
}.
Definition new (created : answer unit) : result t BleError.t :=
  bind (failed_to BleError.PlatformError "Failed to create publisher"%string created) (λ _,
    Okay (mk false None [] [])).

(** Whether the calls whose failure is passed over succeed. *)
Module Filling.
Record t := mk { sections_cleared : bool; data_cleared : bool; section_added : bool; data_added : bool }.
Definition all : t := mk true true true true.
End Filling.
Definition create_service_uuid_section : Z * list Z := (0x03, [0x7A; 0xF4]).
Definition create_peat_beacon_data (node_id : Z) : Z * list Z :=
  (0xFFFF, PeatBeacon.encode (PeatBeacon.new node_id)).
Definition start_advertising (self : t) (id : Z) (advertisement : answer unit) (filling : Filling.t)
    (started : answer unit) : t * result unit BleError.t :=
  if is_advertising self then (self, Okay tt)
  else
    match failed_to BleError.PlatformError "Failed to get advertisement"%string advertisement with
    | Err e => (mk false (Some id) (sections self) (manufacturer self), Err e)
    | Okay _ =>
        let ss := (if Filling.sections_cleared filling then [] else sections self)
          ++ (if Filling.section_added filling then [create_service_uuid_section] else []) in
        let ms := (if Filling.data_cleared filling then [] else manufacturer self)
          ++ (if Filling.data_added filling then [create_peat_beacon_data id] else []) in
        match failed_to BleError.PlatformError "Failed to start publisher"%string started with
        | Err e => (mk false (Some id) ss ms, Err e)
        | Okay _ => (mk true (Some id) ss ms, Okay tt)
        end
    end.
Definition stop_advertising (self : t) (stopped : answer unit) : t * result unit BleError.t :=
  if negb (is_advertising self) then (self, Okay tt)
  else
    match failed_to BleError.PlatformError "Failed to stop publisher"%string stopped with
    | Err e => (self, Err e)
    | Okay _ => (mk false (node_id self) (sections self) (manufacturer self), Okay tt)
    end.

End BleAdvertiser.

(** ** Connections *)

(** What the clones of a connection share. *)
Module Cell.
Record t := mk { mtu : Z; connected : bool; connected_at : option Z }.
End Cell.

(** The answers while a connection is made.  A list is what [Size] and [GetAt]
    give, an element with the text of its identifier. *)
Module Listing.
Definition t : Type := answer (answer (list (answer (answer (list Z))))).
End Listing.
Module ConnectAnswers.
Record t := mk {
  get_device : answer unit; device : answer unit; get_services : answer unit; services : answer unit;
  services_status : answer bool; service_list : Listing.t; get_characteristics : answer unit;
  characteristics : answer unit; characteristics_status : answer bool; characteristic_list : Listing.t;
  now : Z
}.
End ConnectAnswers.
Module ReadAnswers.
Record t := mk {
  read : answer unit; result_ : answer unit; status : answer bool; value : answer unit;
  reader : answer unit; length_ : answer unit; bytes : answer (list Z)
}.
End ReadAnswers.

Definition win_err {A} (msg : string) (a : answer A) : result A BleError.t :=
  failed_to BleError.PlatformError msg a.

Module WinRtConnection.

(** [sync_char] is the index of the characteristic. *)
Record t := mk {
  node_id : Z; address : Z; device : bool; service : bool; sync_char : option nat; cell : nat
}.
Abbreviation heap := (list Cell.t).
Definition new (cells : heap) (node_id address : Z) : heap * t :=
  (cells ++ [Cell.mk 23 false None], mk node_id address false false None (length cells)).

(** [for i in 0..count { .. if uuid_str.contains(..) { found = ..; break } }] *)
Fixpoint search (get_text uuid_text pattern : _) (i : nat) (l : list (answer (answer (list Z))))
    : result (option nat) BleError.t :=
  match l with
  | [] => Okay None
  | x :: l =>
      bind (win_err get_text x) (λ item,
      bind (win_err uuid_text item) (λ uuid,
        if contains (to_lowercase uuid) pattern then Okay (Some i)
        else search get_text uuid_text pattern (S i) l))
  end.
Definition find_in (list_text count_text get_text uuid_text : string) (pattern : list Z) (l : Listing.t)
    : result (option nat) BleError.t :=
  bind (win_err list_text l) (λ sized,
  bind (win_err count_text sized) (λ items, search get_text uuid_text pattern 0 items)).
Definition succeeded (status : bool) (failure : string) : result unit BleError.t :=
  if status then Okay tt else Err (BleError.ConnectionFailed (str failure)).

(** The calls up to the characteristic. *)
Definition discover (a : ConnectAnswers.t) : result (option nat) BleError.t :=
  let failed := @failed_to unit BleError.ConnectionFailed in
  bind (failed "Failed to get device"%string (ConnectAnswers.get_device a)) (λ _,
  bind (failed "Device connection failed"%string (ConnectAnswers.device a)) (λ _,
  bind (failed "Failed to get services"%string (ConnectAnswers.get_services a)) (λ _,
  bind (failed "Service discovery failed"%string (ConnectAnswers.services a)) (λ _,
  bind (win_err "Failed to get status"%string (ConnectAnswers.services_status a)) (λ status,
  bind (succeeded status "GATT service discovery failed"%string) (λ _,
  bind (find_in "Failed to get services"%string "Failed to get count"%string "Failed to get service"%string
          "Failed to get UUID"%string PEAT_SERVICE_TEXT (ConnectAnswers.service_list a)) (λ peat_service,
  bind (match peat_service with
        | Some _ => Okay tt
        | None => Err (BleError.ServiceNotFound (str "Peat service not found on device"%string))
        end) (λ _,
  bind (failed "Failed to get characteristics"%string (ConnectAnswers.get_characteristics a)) (λ _,
  bind (failed "Characteristic discovery failed"%string (ConnectAnswers.characteristics a)) (λ _,
  bind (win_err "Failed to get char status"%string (ConnectAnswers.characteristics_status a)) (λ status,
  bind (succeeded status "GATT characteristic discovery failed"%string) (λ _,
    find_in "Failed to get chars"%string "Failed to get char count"%string "Failed to get char"%string
      "Failed to get char UUID"%string (str "0e02b2c3d003"%string)
      (ConnectAnswers.characteristic_list a))))))))))))).
Definition set_cell (cells : heap) (self : t) (f : Cell.t → Cell.t) : heap := alter f (cell self) cells.
Definition connect_sync (cells : heap) (self : t) (a : ConnectAnswers.t)
    : heap * t * result unit BleError.t :=
  match discover a with
  | Err e => (cells, self, Err e)
  | Okay sync_char =>
      (set_cell cells self (λ c, Cell.mk (Cell.mtu c) true (Some (ConnectAnswers.now a))),
       mk (node_id self) (address self) true true sync_char (cell self), Okay tt)
  end.
(** It is a clone that connects in the background; [joined] is how that ended. *)
Definition connect (cells : heap) (self : t) (a : ConnectAnswers.t) (joined : answer unit)
    : heap * t * result unit BleError.t :=
  let this := self in
  let '(cells, _, r) := connect_sync cells this a in
  (cells, self, bind (failed_to BleError.ConnectionFailed "Task join failed"%string joined) (λ _, r)).
Definition disconnect (cells : heap) (self : t) : heap * t :=
  (set_cell cells self (λ c, Cell.mk (Cell.mtu c) false (Cell.connected_at c)),
   mk (node_id self) (address self) false false None (cell self)).

Definition not_connected : BleError.t := BleError.ConnectionLost (str "Not connected"%string).
Definition read_sync_data_blocking (self : t) (a : ReadAnswers.t) : result (list Z) BleError.t :=
  match sync_char self with
  | None => Err not_connected
  | Some _ =>
      bind (failed_to BleError.GattError "Failed to read"%string (ReadAnswers.read a)) (λ _,
      bind (failed_to BleError.GattError "Read failed"%string (ReadAnswers.result_ a)) (λ _,
      bind (win_err "Failed to get read status"%string (ReadAnswers.status a)) (λ status,
      if negb status then Err (BleError.GattError (str "Read failed with error status"%string))
      else
      bind (win_err "Failed to get read value"%string (ReadAnswers.value a)) (λ _,
      bind (win_err "Failed to create reader"%string (ReadAnswers.reader a)) (λ _,
      bind (win_err "Failed to get buffer length"%string (ReadAnswers.length_ a)) (λ _,
        win_err "Failed to read bytes"%string (ReadAnswers.bytes a)))))))
  end.
Definition read_sync_data (self : t) (a : ReadAnswers.t) (joined : answer unit)
    : result (list Z) BleError.t :=
  bind (failed_to BleError.GattError "Task join failed"%string joined) (λ _, read_sync_data_blocking self a).
(** [written]: whether the status is success; the bytes go with the call. *)
Definition write_sync_data_blocking (self : t) (data : list Z) (answers : list (answer unit))
    (written : bool) : result (list Z) BleError.t :=
  match sync_char self with
  | None => Err not_connected
  | Some _ =>
      bind (calls BleError.GattError ["Failed to create stream"; "Failed to create writer";
              "Failed to write bytes"; "Failed to detach buffer"; "Failed to write"; "Write failed"]%string
              answers) (λ _,
        if written then Okay data
        else Err (BleError.GattError (str "Write failed with error status"%string)))
  end.
Definition write_sync_data (self : t) (data : list Z) (answers : list (answer unit)) (written : bool)
    (joined : answer unit) : result (list Z) BleError.t :=
  bind (failed_to BleError.GattError "Task join failed"%string joined) (λ _,
    write_sync_data_blocking self data answers written).

Definition as_connection (cells : heap) (self : t) : BleConnection.t :=
  let c := default (Cell.mk 23 false None) (cells !! cell self) in
  BleConnection.mk (node_id self) (Cell.connected c) (Cell.mtu c) BlePhy.Le1M None.
Definition connected_duration (cells : heap) (self : t) (now : Z) : Z :=
  match cells !! cell self with
  | Some c => match Cell.connected_at c with Some start => now - start | None => 0 end
  | None => 0
  end.
End WinRtConnection.

(** ** The GATT server *)

Module GattServer.

(** [provider] is set with the service and the characteristics; [received] is
    what the callback for writes was called with. *)
Record t := mk {
  provider : bool; node_id : Z; document_data : list Z; write_callback : bool; is_advertising : bool;
  received : list (list Z)
}.
Definition new (node_id : Z) : t := mk false node_id [] false false [].
Definition create_texts : list string :=
  ["Failed to create params"; "Failed to set properties"; "Failed to set read protection";
   "Failed to set write protection"; "Failed to create characteristic"; "Characteristic creation failed";
   "Failed to get characteristic"]%string.
(** [answers]: those of the calls before, of each characteristic, and of the
    handler. *)
Module InitAnswers.
Record t := mk {
  before : list (answer unit); node_info : list (answer unit); sync_state : list (answer unit);
  sync_data : list (answer unit); handler : answer unit
}.
Definition all : t := mk [] [] [] [] (Okay tt).
End InitAnswers.
Definition create_characteristic_sync (answers : list (answer unit)) : result unit BleError.t :=
  calls BleError.GattError create_texts answers.
Definition setup_write_handler (handler : answer unit) : result unit BleError.t :=
  failed_to BleError.GattError "Failed to set write handler"%string handler.
Definition init_sync (self : t) (a : InitAnswers.t) : t * result unit BleError.t :=
  match bind (calls BleError.GattError ["Failed to create service provider";
                "Service provider creation failed"; "Failed to get provider"; "Failed to get service"]%string
                (InitAnswers.before a)) (λ _,
        bind (create_characteristic_sync (InitAnswers.node_info a)) (λ _,
        bind (create_characteristic_sync (InitAnswers.sync_state a)) (λ _,
        bind (create_characteristic_sync (InitAnswers.sync_data a)) (λ _,
          setup_write_handler (InitAnswers.handler a))))) with
  | Err e => (self, Err e)
  | Okay _ =>
      (mk true (node_id self) (document_data self) (write_callback self) (is_advertising self)
         (received self), Okay tt)
  end.
(** The handler completes the request; the bytes stay where they are. *)
Definition write_requested (self : t) (_data : list Z) : t := self.
Definition not_initialized : BleError.t := BleError.InvalidState (str "Server not initialized"%string).
Definition set_advertising (self : t) (b : bool) : t :=
  mk (provider self) (node_id self) (document_data self) (write_callback self) b (received self).
Definition start_advertising (self : t) (answers : list (answer unit)) : t * result unit BleError.t :=
  if is_advertising self then (self, Okay tt)
  else if negb (provider self) then (self, Err not_initialized)
  else match calls BleError.GattError ["Failed to create advertising params"; "Failed to set discoverable";
                "Failed to set connectable"; "Failed to start advertising"]%string answers with
       | Err e => (self, Err e)
       | Okay _ => (set_advertising self true, Okay tt)
       end.
Definition stop_advertising (self : t) (stopped : answer unit) : t * result unit BleError.t :=
  if negb (is_advertising self) then (self, Okay tt)
  else match (if provider self then failed_to BleError.GattError "Failed to stop advertising"%string stopped
              else Okay tt) with
       | Err e => (self, Err e)
       | Okay _ => (set_advertising self false, Okay tt)
       end.
Definition set_document_data (self : t) (data : list Z) : t :=
  mk (provider self) (node_id self) data (write_callback self) (is_advertising self) (received self).
Definition set_write_callback (self : t) : t :=
  mk (provider self) (node_id self) (document_data self) true (is_advertising self) (received self).

End GattServer.

(** ** The adapter *)

Module WinRtBleAdapter.

Record t := mk {
  watcher : BleWatcher.t; advertiser : BleAdvertiser.t; gatt_server : option GattServer.t;
  config : option BleConfig.t; connections : gmap Z WinRtConnection.t; address_to_node : gmap Z Z;
  node_to_address : gmap Z Z; cells : WinRtConnection.heap; discovery_callback : bool;
  connection_callback : bool; initialized : bool; discovered : list DiscoveredDevice.t;
  told : list (Z * ConnectionEvent.t)
}.
Definition new (watcher_created publisher_created : answer unit) : result t BleError.t :=
  bind (BleWatcher.new watcher_created) (λ watcher,
  bind (BleAdvertiser.new publisher_created) (λ advertiser,
    Okay (mk watcher advertiser None None ∅ ∅ ∅ [] false false false [] []))).

Definition set_radio (self : t) (w : BleWatcher.t) (a : BleAdvertiser.t) (g : option GattServer.t) : t :=
  mk w a g (config self) (connections self) (address_to_node self) (node_to_address self) (cells self)
    (discovery_callback self) (connection_callback self) (initialized self) (discovered self) (told self).
Definition set_config (self : t) (c : option BleConfig.t) (initialized : bool) : t :=
  mk (watcher self) (advertiser self) (gatt_server self) c (connections self) (address_to_node self)
    (node_to_address self) (cells self) (discovery_callback self) (connection_callback self) initialized
    (discovered self) (told self).
Definition set_connections (self : t) (cs : gmap Z WinRtConnection.t) (h : WinRtConnection.heap) : t :=
  mk (watcher self) (advertiser self) (gatt_server self) (config self) cs (address_to_node self)
    (node_to_address self) h (discovery_callback self) (connection_callback self) (initialized self)
    (discovered self) (told self).
Definition set_callbacks (self : t) (d c : bool) : t :=
  mk (watcher self) (advertiser self) (gatt_server self) (config self) (connections self)
    (address_to_node self) (node_to_address self) (cells self) d c (initialized self) (discovered self)
    (told self).
Definition call_back (self : t) (device : DiscoveredDevice.t) : t :=
  mk (watcher self) (advertiser self) (gatt_server self) (config self) (connections self)
    (address_to_node self) (node_to_address self) (cells self) (discovery_callback self)
    (connection_callback self) (initialized self) (discovered self ++ [device]) (told self).
(** [if let Some(ref cb) = *self.connection_callback.read().await { cb(..) }] *)
Definition tell (self : t) (peer_id : Z) (event : ConnectionEvent.t) : t :=
  if connection_callback self then
    mk (watcher self) (advertiser self) (gatt_server self) (config self) (connections self)
      (address_to_node self) (node_to_address self) (cells self) (discovery_callback self)
      (connection_callback self) (initialized self) (discovered self) (told self ++ [(peer_id, event)])
  else self.

Definition register_node_address (self : t) (node_id address : Z) : t :=
  mk (watcher self) (advertiser self) (gatt_server self) (config self) (connections self)
    (<[address := node_id]> (address_to_node self)) (<[node_id := address]> (node_to_address self))
    (cells self) (discovery_callback self) (connection_callback self) (initialized self)
    (discovered self) (told self).
Definition get_node_address (self : t) (node_id : Z) : option Z := node_to_address self !! node_id.
Definition get_address_node (self : t) (address : Z) : option Z := address_to_node self !! address.
Definition report (self : t) (peripheral : DiscoveredPeripheral.t) : t :=
  let self := match DiscoveredPeripheral.node_id peripheral with
              | Some node_id =>
                  register_node_address self node_id (DiscoveredPeripheral.address peripheral)
              | None => self
              end in
  call_back self (DiscoveredPeripheral.into_device peripheral).
Definition process_discoveries (self : t) : t :=
  if discovery_callback self then foldl report self (BleWatcher.get_peat_peripherals (watcher self))
  else self.
(** An advertisement that WinRT delivers. *)
Definition received (self : t) (args : ReceivedArgs.t) : outcome t :=
  let! w := BleWatcher.received (watcher self) args in
  Ok (set_radio self w (advertiser self) (gatt_server self)).

(** *** [impl BleAdapter] *)

(** The answers of the calls of one method, in the order of the calls. *)
Module RadioAnswers.
Record t := mk {
  server : list (answer unit); server_stopped : answer unit; advertisement : answer unit;
  filling : BleAdvertiser.Filling.t; publisher : answer unit; mode : answer unit; handler : answer unit;
  watcher : answer unit
}.
Definition all : t :=
  mk [] (Okay tt) (Okay tt) BleAdvertiser.Filling.all (Okay tt) (Okay tt) (Okay tt) (Okay tt).
End RadioAnswers.

Definition init (self : t) (config : BleConfig.t) (a : GattServer.InitAnswers.t)
    : t * result unit BleError.t :=
  let self := set_config self (Some config) (initialized self) in
  match GattServer.init_sync (GattServer.new (BleConfig.node_id config)) a with
  | (_, Err e) => (self, Err e)
  | (server, Okay _) =>
      (set_config (set_radio self (watcher self) (advertiser self) (Some server)) (Some config) true,
       Okay tt)
  end.
Definition not_initialized : BleError.t := BleError.InvalidState (str "Adapter not initialized"%string).
Definition and_then {A B} (r : t * result A BleError.t) (k : t → A → t * result B BleError.t)
    : t * result B BleError.t :=
  match r with (self, Okay a) => k self a | (self, Err e) => (self, Err e) end.
(** [if let Some(ref mut server) = *self.gatt_server.write().await { .. }] *)
Definition with_server (self : t) (f : GattServer.t → GattServer.t * result unit BleError.t)
    : t * result unit BleError.t :=
  match gatt_server self with
  | Some server =>
      let '(server, r) := f server in (set_radio self (watcher self) (advertiser self) (Some server), r)
  | None => (self, Okay tt)
  end.
Definition with_advertiser (self : t) (r : BleAdvertiser.t * result unit BleError.t)
    : t * result unit BleError.t := (set_radio self (watcher self) r.1 (gatt_server self), r.2).
Definition with_watcher (self : t) (r : BleWatcher.t * result unit BleError.t)
    : t * result unit BleError.t := (set_radio self r.1 (advertiser self) (gatt_server self), r.2).
Definition register_gatt_service (self : t) (a : RadioAnswers.t) : t * result unit BleError.t :=
  with_server self (λ s, GattServer.start_advertising s (RadioAnswers.server a)).
Definition unregister_gatt_service (self : t) (a : RadioAnswers.t) : t * result unit BleError.t :=
  with_server self (λ s, GattServer.stop_advertising s (RadioAnswers.server_stopped a)).
Definition start_advertising (self : t) (a : RadioAnswers.t) : t * result unit BleError.t :=
  match config self with
  | None => (self, Err not_initialized)
  | Some c =>
      with_advertiser self (BleAdvertiser.start_advertising (advertiser self) (BleConfig.node_id c)
        (RadioAnswers.advertisement a) (RadioAnswers.filling a) (RadioAnswers.publisher a))
  end.
Definition stop_advertising (self : t) (a : RadioAnswers.t) : t * result unit BleError.t :=
  with_advertiser self (BleAdvertiser.stop_advertising (advertiser self) (RadioAnswers.publisher a)).
Definition start_scan (self : t) (a : RadioAnswers.t) : t * result unit BleError.t :=
  with_watcher self (BleWatcher.start_scan (watcher self) (RadioAnswers.mode a) (RadioAnswers.handler a)
                       (RadioAnswers.watcher a)).
Definition stop_scan (self : t) (a : RadioAnswers.t) : t * result unit BleError.t :=
  with_watcher self (BleWatcher.stop_scan (watcher self) (RadioAnswers.watcher a)).
Definition start (self : t) (a : RadioAnswers.t) : t * result unit BleError.t :=
  match config self with
  | None => (self, Err not_initialized)
  | Some _ =>
      and_then (register_gatt_service self a) (λ self _,
      and_then (start_advertising self a) (λ self _, start_scan self a))
  end.
Definition stop (self : t) (a : RadioAnswers.t) : t * result unit BleError.t :=
  and_then (stop_scan self a) (λ self _,
  and_then (stop_advertising self a) (λ self _, unregister_gatt_service self a)).
Definition is_powered (self : t) : bool := initialized self.
Definition address (_self : t) : option (list Z) := None.
Definition set_discovery_callback (self : t) (callback : bool) : t :=
  set_callbacks self callback (connection_callback self).
Definition set_connection_callback (self : t) (callback : bool) : t :=
  set_callbacks self (discovery_callback self) callback.

Definition unknown_node (peer_id : Z) : BleError.t :=
  BleError.ConnectionFailed (str "Unknown node ID: "%string ++ NodeId.display peer_id).
Definition win_connect (a : ConnectAnswers.t) (joined : answer unit) (self : t) (peer_id : Z)
    : t * result WinRtConnection.t BleError.t :=
  match get_node_address self peer_id with
  | None => (self, Err (unknown_node peer_id))
  | Some address =>
      let '(cells, connection) := WinRtConnection.new (cells self) peer_id address in
      let '(cells, connection, r) := WinRtConnection.connect cells connection a joined in
      match r with
      | Err e => (set_connections self (connections self) cells, Err e)
      | Okay _ =>
          let self := set_connections self (<[peer_id := connection]> (connections self)) cells in
          let c := WinRtConnection.as_connection cells connection in
          (tell self peer_id (ConnectionEvent.Connected (BleConnection.mtu c) (BleConnection.phy c)),
           Okay connection)
      end
  end.
Definition win_disconnect (self : t) (peer_id : Z) : t * result unit BleError.t :=
  match connections self !! peer_id with
  | Some conn =>
      let '(cells, _) := WinRtConnection.disconnect (cells self) conn in
      let self := set_connections self (delete peer_id (connections self)) cells in
      (tell self peer_id (ConnectionEvent.Disconnected DisconnectReason.LocalRequest), Okay tt)
  | None => (self, Okay tt)
  end.
Definition win_get_connection (self : t) (peer_id : Z) : option WinRtConnection.t :=
  connections self !! peer_id.
Definition win_peer_count (self : t) : Z := Z.of_nat (size (connections self)).
Definition win_connected_peers `{!MapOrder Z} (self : t) : list Z := (map_iter (connections self)).*1.
Definition supports_coded_phy : bool := false.
Definition supports_extended_advertising : bool := true.
Definition max_mtu : Z := 512.
Definition max_connections : Z := 8.

(** [write_to_peer] is the default of the trait; a connection is its picture. *)
Definition win_adapter `{!MapOrder Z} (a : RadioAnswers.t) (connecting : ConnectAnswers.t)
    (joined : answer unit) : BleAdapter t := {|
  Adapter.start s := start s a; Adapter.stop s := stop s a;
  Adapter.connect s n := let '(s, r) := win_connect connecting joined s n in
    (s, bind r (λ c, Okay (WinRtConnection.as_connection (cells s) c)));
  Adapter.disconnect := win_disconnect;
  Adapter.get_connection s n := WinRtConnection.as_connection (cells s) <$> win_get_connection s n;
  Adapter.peer_count := win_peer_count; Adapter.connected_peers := win_connected_peers;
  Adapter.write_to_peer := default_write_to_peer
|}.

End WinRtBleAdapter.

(** * Theorems *)

Module WindowsProofs.
Import WinRtBleAdapter.

(** *** What a node advertises is read back *)

Lemma own_beacon n : in_u 32 n →
  ∃ b, PeatBeacon.decode (PeatBeacon.encode (PeatBeacon.new n)) = Ok b ∧ PeatBeacon.node_id b = n.
Proof.
  intros Hn. pose proof (BeaconProofs.beacon_decode_encode (PeatBeacon.new n) []) as E.
  rewrite app_nil_r in E. eexists. split; [apply E|done].
  destruct Hn. by repeat split.
Qed.
(** What another radio hears of an advertisement. *)
Definition heard_as (adv : BleAdvertiser.t) (w : WinAdvertisement.t) : Prop :=
  WinAdvertisement.manufacturer_data w
  = Some ((λ e, Some (e.1, Some e.2)) <$> BleAdvertiser.manufacturer adv).
Lemma beacon_read adv n w : in_u 32 n →
  BleAdvertiser.manufacturer adv = [BleAdvertiser.create_peat_beacon_data n] → heard_as adv w →
  BleWatcher.read_manufacturers ([], false, None) (default [] (WinAdvertisement.manufacturer_data w))
  = Ok (PeatBeacon.encode (PeatBeacon.new n), true, Some n).
Proof.
  intros Hn Hm ->. rewrite Hm. cbn -[PeatBeacon.encode PeatBeacon.decode].
  destruct (own_beacon n Hn) as (b & -> & <-). done.
Qed.
Lemma advertised self id advertisement filling started self' :
  BleAdvertiser.start_advertising self id advertisement filling started = (self', Okay tt) →
  BleAdvertiser.is_advertising self = false → BleAdvertiser.Filling.data_cleared filling = true →
  BleAdvertiser.Filling.data_added filling = true →
  BleAdvertiser.manufacturer self' = [BleAdvertiser.create_peat_beacon_data id].
Proof.
  unfold BleAdvertiser.start_advertising. intros E Hi Hc Ha. revert E. rewrite Hi, Hc, Ha.
  destruct advertisement, started; by intros [= <-].
Qed.

(** *** The list of the watcher *)

Lemma elem_of_update p l q : q ∈ BleWatcher.update_or_push p l → q = p ∨ q ∈ l.
Proof.
  induction l as [|r l IH]; cbn; [rewrite list_elem_of_singleton; auto|].
  case_match; rewrite !elem_of_cons; naive_solver.
Qed.
Lemma update_has p l : p ∈ BleWatcher.update_or_push p l.
Proof. induction l as [|r l IH]; cbn; [by left|]. case_match; [by left|by right]. Qed.

(** *** Reports *)

Lemma win_reported ps : ∀ s, discovered (foldl report s ps)
  = discovered s ++ (DiscoveredPeripheral.into_device <$> ps).
Proof.
  induction ps as [|p ps IH]; intros s; cbn [foldl fmap list_fmap]; [by rewrite app_nil_r|].
  rewrite IH. unfold report. destruct (DiscoveredPeripheral.node_id p); cbn; by rewrite <-app_assoc.
Qed.
Lemma report_all_same ps : ∀ s, connections (foldl report s ps) = connections s
  ∧ cells (foldl report s ps) = cells s ∧ connection_callback (foldl report s ps) = connection_callback s
  ∧ told (foldl report s ps) = told s.
Proof.
  induction ps as [|p ps IH]; intros s; [done|]. cbn [foldl].
  destruct (IH (report s p)) as (-> & -> & -> & ->). unfold report.
  by destruct (DiscoveredPeripheral.node_id p).
Qed.
(** A node that was listed is registered where it was last listed. *)
Lemma win_registered ps n a : ∀ s,
  (∀ p, p ∈ ps → DiscoveredPeripheral.node_id p = Some n → DiscoveredPeripheral.address p = a) →
  (∃ p, p ∈ ps ∧ DiscoveredPeripheral.node_id p = Some n) ∨ get_node_address s n = Some a →
  get_node_address (foldl report s ps) n = Some a.
Proof.
  induction ps as [|p ps IH]; intros s Hall Hor; cbn [foldl].
  { destruct Hor as [(p & Hp & _)|]; [by apply not_elem_of_nil in Hp|done]. }
  apply IH; [intros q Hq; apply Hall; by right|].
  assert (DiscoveredPeripheral.node_id p = Some n → get_node_address (report s p) n = Some a) as Hhere.
  { intros En. unfold report, get_node_address. rewrite En. cbn. rewrite lookup_insert_eq. f_equal.
    apply Hall; [by left|done]. }
  destruct Hor as [(q & [->|Hq]%elem_of_cons & Hn)|Hs]; [right; by apply Hhere|left; by exists q|].
  destruct (decide (DiscoveredPeripheral.node_id p = Some n)) as [|Hne]; [right; by apply Hhere|right].
  unfold report, get_node_address. destruct (DiscoveredPeripheral.node_id p) as [m|]; [|done]. cbn.
  rewrite lookup_insert_ne; [done|]. by intros ->.
Qed.

(** *** Connections *)

Lemma set_new_cell h n a d sv ch c f :
  WinRtConnection.set_cell (h ++ [c]) (WinRtConnection.mk n a d sv ch (length h)) f = h ++ [f c].
Proof.
  unfold WinRtConnection.set_cell. cbn [WinRtConnection.cell].
  etrans; [by apply alter_app_r_alt|]. by rewrite Nat.sub_diag.
Qed.
(** Every connection handed out is the one that the background task cloned. *)
Lemma connect_empty a joined s n address : get_node_address s n = Some address →
  joined = Okay tt → (∃ c, WinRtConnection.discover a = Okay c) →
  ∃ s' conn, win_connect a joined s n = (s', Okay conn)
    ∧ WinRtConnection.as_connection (cells s') conn = BleConnection.mk n true 23 BlePhy.Le1M None
    ∧ win_get_connection s' n = Some conn ∧ WinRtConnection.sync_char conn = None.
Proof.
  intros Ha -> [c Hc]. unfold win_connect. rewrite Ha. unfold WinRtConnection.connect, WinRtConnection.connect_sync.
  rewrite Hc. cbn [WinRtConnection.new bind failed_to]. do 2 eexists. split; [done|].
  rewrite set_new_cell. unfold tell, WinRtConnection.as_connection, win_get_connection.
  destruct (connection_callback _); cbn; rewrite lookup_app_r, Nat.sub_diag by lia;
    cbn; by rewrite lookup_insert_eq.
Qed.
Lemma empty_reads conn a joined : WinRtConnection.sync_char conn = None →
  ∃ e, WinRtConnection.read_sync_data conn a joined = Err e.
Proof.
  intros E. unfold WinRtConnection.read_sync_data, WinRtConnection.read_sync_data_blocking. rewrite E.
  destruct joined; by eexists.
Qed.
Lemma empty_writes conn data answers written joined : WinRtConnection.sync_char conn = None →
  ∃ e, WinRtConnection.write_sync_data conn data answers written joined = Err e.
Proof.
  intros E. unfold WinRtConnection.write_sync_data, WinRtConnection.write_sync_data_blocking. rewrite E.
  destruct joined; by eexists.
Qed.

End WindowsProofs.

Module WindowsProperties.
Import WinRtBleAdapter WindowsProofs.

(** C38: A Windows node that hears the advertisement of another reports it as the
    node it is, registers it and connects to it, and the connection that is
    handed out says that it is alive; but it is a clone of it that has found the
    service, so that every read and every write on it fails, whatever the system
    answers. *)
Theorem windows_connections_carry_nothing (publisher publisher' : BleAdvertiser.t) n advertisement filling
    started (s : t) args address rssi timestamp w a joined :
  in_u 32 n → BleAdvertiser.is_advertising publisher = false →
  BleAdvertiser.start_advertising publisher n advertisement filling started = (publisher', Okay tt) →
  BleAdvertiser.Filling.data_cleared filling = true → BleAdvertiser.Filling.data_added filling = true →
  args = ReceivedArgs.mk (Okay address) (Okay rssi) (Okay timestamp) (Okay w) →
  heard_as publisher' w → discovery_callback s = true →
  (∀ p, p ∈ BleWatcher.get_peat_peripherals (watcher s) → DiscoveredPeripheral.node_id p = Some n →
     DiscoveredPeripheral.address p = address) →
  joined = Okay tt → (∃ c, WinRtConnection.discover a = Okay c) →
  ∃ s1, received s args = Ok s1 ∧ let s2 := process_discoveries s1 in
    (∃ device, device ∈ drop (length (discovered s)) (discovered s2)
       ∧ DiscoveredDevice.node_id device = Some n ∧ DiscoveredDevice.is_peat_node device = true
       ∧ DiscoveredDevice.address device = BleWatcher.address_text address
       ∧ DiscoveredDevice.rssi device = to_i8 (wrap 8 rssi))
    ∧ ∃ s3 conn, win_connect a joined s2 n = (s3, Okay conn)
      ∧ WinRtConnection.as_connection (cells s3) conn = BleConnection.mk n true 23 BlePhy.Le1M None
      ∧ win_get_connection s3 n = Some conn
      ∧ (∀ ra j, ∃ e, WinRtConnection.read_sync_data conn ra j = Err e)
      ∧ ∀ data answers written j, ∃ e, WinRtConnection.write_sync_data conn data answers written j = Err e.
Proof.
  intros Hn Hadv Hstart Hcl Had -> Hheard Hcb Hlist Hj Ha.
  pose proof (advertised _ _ _ _ _ _ Hstart Hadv Hcl Had) as Hm.
  pose proof (beacon_read _ _ _ Hn Hm Hheard) as Hread.
  unfold received, BleWatcher.received, BleWatcher.handle_advertisement.
  cbn [bind failed_to ReceivedArgs.bluetooth_address ReceivedArgs.rssi ReceivedArgs.timestamp
    ReceivedArgs.advertisement]. rewrite Hread. cbn [obind orb fst snd].
  set (p := DiscoveredPeripheral.mk address _ _ rssi true (Some n) _ timestamp).
  eexists. split; [done|]. cbn zeta. set (s1 := set_radio s _ _ _).
  assert (BleWatcher.get_peat_peripherals (watcher s1)
    = BleWatcher.update_or_push p (BleWatcher.get_peat_peripherals (watcher s))) as El by done.
  assert (process_discoveries s1 = foldl report s1 (BleWatcher.get_peat_peripherals (watcher s1))) as ->.
  { unfold process_discoveries. by change (discovery_callback s1) with (discovery_callback s); rewrite Hcb. }
  rewrite El. set (l := BleWatcher.update_or_push _ _). split.
  - exists (DiscoveredPeripheral.into_device p). rewrite win_reported.
    change (discovered s1) with (discovered s). rewrite drop_app_length. split_and!; [|done..].
    apply list_elem_of_fmap_2, update_has.
  - destruct (connect_empty a joined (foldl report s1 l) n address) as (s3 & conn & Hc & Hp & Hg & He); [|done..|].
    { apply win_registered.
      - intros q [->|Hq]%elem_of_update Hqn; [done|by apply Hlist].
      - left. exists p. split; [apply update_has|done]. }
    exists s3, conn. split_and!; [done..| |]; intros; [by apply empty_reads|by apply empty_writes].
Qed.

(** One node advertises and another hears it. *)
Definition one_service (text : string) : Listing.t := Okay (Okay [Okay (Okay (str text))]).
Definition good_answers : ConnectAnswers.t :=
  ConnectAnswers.mk (Okay tt) (Okay tt) (Okay tt) (Okay tt) (Okay true)
    (one_service "F47AC10B-58CC-4372-A567-0E02B2C3D479"%string) (Okay tt) (Okay tt) (Okay true)
    (one_service "f47ac10b-58cc-4372-a567-0e02b2c3d003"%string) 0.
Definition listening : t :=
  set_callbacks (mk (BleWatcher.mk true WatcherState.default_state true) (BleAdvertiser.mk false None [] [])
    None None ∅ ∅ ∅ [] false false false [] []) true true.
Definition publishing : BleAdvertiser.t :=
  (BleAdvertiser.start_advertising (BleAdvertiser.mk false None [] []) 0xBEEF (Okay tt)
     BleAdvertiser.Filling.all (Okay tt)).1.
Definition heard : ReceivedArgs.t :=
  ReceivedArgs.mk (Okay 0xAABBCCDDEEFF) (Okay (-60)) (Okay 0)
    (Okay (WinAdvertisement.mk None
       (Some ((λ e, Some (e.1, Some e.2)) <$> BleAdvertiser.manufacturer publishing)) None)).
Lemma windows_connections_carry_nothing_witness :
  ∃ s1, received listening heard = Ok s1
    ∧ (∃ device, device ∈ discovered (process_discoveries s1)
        ∧ DiscoveredDevice.address device = str "AA:BB:CC:DD:EE:FF"%string
        ∧ DiscoveredDevice.node_id device = Some 0xBEEF)
    ∧ WinRtConnection.discover good_answers = Okay (Some 0%nat)
    ∧ ∃ s3 conn, win_connect good_answers (Okay tt) (process_discoveries s1) 0xBEEF = (s3, Okay conn)
        ∧ ∃ e, WinRtConnection.write_sync_data conn [1; 2] [] true (Okay tt) = Err e.
Proof.
  destruct (windows_connections_carry_nothing (BleAdvertiser.mk false None [] []) publishing 0xBEEF (Okay tt)
    BleAdvertiser.Filling.all (Okay tt) listening heard 0xAABBCCDDEEFF (-60) 0
    (WinAdvertisement.mk None (Some ((λ e, Some (e.1, Some e.2)) <$> BleAdvertiser.manufacturer publishing)) None)
    good_answers (Okay tt)) as (s1 & E & (d & Hd & Hn & _ & Ha & _) & s3 & conn & Hc & _ & _ & _ & Hw);
    [by split|done..| |done|by exists (Some 0%nat)|].
  { by intros p Hp%not_elem_of_nil. }
  exists s1. split; [done|]. split; [by exists d|]. split; [by vm_compute|].
  exists s3, conn. split; [done|apply Hw].
Defined.

End WindowsProperties.
