(* ===== verification/Esp32.v ===== *)
(** * The ESP32 platform: the callbacks of NimBLE, the statics they work on and
    the adapter of src/src/platform/esp32.rs, as built for the device.

    NimBLE is outside: its return codes are arguments, and the connections,
    cancellations and notifications asked of it are recorded.  The statics are
    one state; a mutex is taken to be free.  A read through a raw pointer that
    leaves the bytes it was given is [Panic]. *)

From Stdlib Require Import String.
From stdpp Require Import base numbers list gmap.
From S2P Require Import Prelude Crypto Config PeerGraph GattService Ble Beacon Discovery Adapter.
Open Scope Z_scope.
Open Scope peat_scope.

Definition PEAT_SERVICE_UUID : list Z :=
  [0x79; 0xd4; 0xc3; 0xb2; 0x02; 0x0e; 0x67; 0xa5; 0x72; 0x43; 0xcc; 0x58; 0x0b; 0xc1; 0x7a; 0xf4].
Definition DOC_CHAR_UUID : list Z :=
  [0x79; 0xd4; 0xc3; 0xb2; 0x02; 0x0e; 0x67; 0xa5; 0x72; 0x43; 0xcc; 0x58; 0x03; 0x00; 0x7a; 0xf4].
Definition PEAT_SERVICE_UUID_16 : Z := 0xF47A.
Definition MAX_DOC_SIZE : Z := 256.
Definition MAX_CONNECTIONS : Z := 4.

(** ** Advertising data *)

(** [*data.add(i)], and [n] of them in a row. *)
Definition at_ (data : list Z) (i : nat) : outcome Z :=
  match data !! i with Some b => Ok b | None => Panic end.
Fixpoint read (n : nat) (data : list Z) (i : nat) : outcome (list Z) :=
  match n with
  | O => Ok []
  | S n => let! b := at_ data i in let! bs := read n data (S i) in Ok (b :: bs)
  end.
(** The loops over the identifiers of a structure, of [n] bytes each. *)
Fixpoint scan (fuel n : nat) (is_peat : list Z → bool) (data : list Z) (i field_len j : nat) : outcome bool :=
  match fuel with
  | O => Fail
  | S fuel =>
      if (j + n <=? field_len + 1)%nat then
        let! uuid := read n data (i + j) in
        if is_peat uuid then Ok true else scan fuel n is_peat data i field_len (j + n)
      else Ok false
  end.
Definition is_peat_16 (uuid : list Z) : bool := from_le uuid =? PEAT_SERVICE_UUID_16.
Definition is_peat_128 (uuid : list Z) : bool := bool_decide (uuid = PEAT_SERVICE_UUID).
Fixpoint fields (fuel : nat) (data : list Z) (i : nat) : outcome bool :=
  match fuel with
  | O => Fail
  | S fuel =>
      if negb (i <? length data)%nat then Ok false
      else
        let! len := at_ data i in
        let field_len := Z.to_nat len in
        if (field_len =? 0)%nat || (length data <=? i + field_len)%nat then Ok false
        else
          let! field_type := at_ data (i + 1) in
          let! short := if ((field_type =? 0x02) || (field_type =? 0x03)) && (3 <=? field_len)%nat
                        then scan (length data) 2 is_peat_16 data i field_len 2 else Ok false in
          if short then Ok true
          else
            let! long := if ((field_type =? 0x06) || (field_type =? 0x07)) && (17 <=? field_len)%nat
                         then scan (length data) 16 is_peat_128 data i field_len 2 else Ok false in
            if long then Ok true else fields fuel data (i + (field_len + 1))
  end.
(** [None] is the null pointer; [len] is the length of the data. *)
Definition has_peat_service (data : option (list Z)) : outcome bool :=
  match data with
  | None => Ok false
  | Some data => if (length data <? 4)%nat then Ok false else fields (S (length data)) data 0
  end.

(** ** The statics *)

Module PeerConnection.
Record t := mk { handle : Z; peer_doc_handle : Z; active : bool; peer_addr : list Z; node_id : Z }.
Definition empty : t := mk 0xFFFF 0 false [0; 0; 0; 0; 0; 0] 0.
End PeerConnection.

Module Command.
Inductive t :=
| ExchangeMtu (handle : Z) | DiscCancel | Connect (addr : list Z) | AdvStop
| Notify (handle doc_handle : Z) (data : list Z).
End Command.

(** Return codes: of [ble_gap_adv_set_fields] and [ble_gap_adv_start], of
    [ble_gap_disc], and of [ble_gap_connect]. *)
Module Codes.
Record t := mk { set_fields : Z; adv_start : Z; disc : Z; connect : Z }.
Definition ok : t := mk 0 0 0 0.
End Codes.
Definition BLE_HS_EALREADY : Z := 2.

(** An [i32] in decimal. *)
Definition decimal_i32 (n : Z) : list Z :=
  if n <? 0 then 45 :: BleError.digits 10 (- n) [] else BleError.digits 10 n [].

Module Nimble.

Record t := mk {
  connections : list PeerConnection.t; num_connections : Z; connected : bool; advertising : bool;
  scanning : bool; powered : bool; doc_char_handle : Z; doc_buffer : list Z; doc_len : Z;
  pending_docs : list (list Z); connecting : bool; our_mac : list Z; device_name : list Z;
  device_name_len : Z; issued : list Command.t
}.
Definition statics : t :=
  mk (replicate 4 PeerConnection.empty) 0 false false false false 0 (replicate 256 0) 0 [] false
    (replicate 6 0) (replicate 20 0) 0 [].

Definition set_links (self : t) (cs : list PeerConnection.t) (n : Z) (c : bool) : t :=
  mk cs n c (advertising self) (scanning self) (powered self) (doc_char_handle self) (doc_buffer self)
    (doc_len self) (pending_docs self) (connecting self) (our_mac self) (device_name self)
    (device_name_len self) (issued self).
Definition set_radio (self : t) (adv scan powered connecting : bool) : t :=
  mk (connections self) (num_connections self) (connected self) adv scan powered (doc_char_handle self)
    (doc_buffer self) (doc_len self) (pending_docs self) connecting (our_mac self) (device_name self)
    (device_name_len self) (issued self).
Definition set_docs (self : t) (handle : Z) (buffer : list Z) (len : Z) (pending : list (list Z)) : t :=
  mk (connections self) (num_connections self) (connected self) (advertising self) (scanning self)
    (powered self) handle buffer len pending (connecting self) (our_mac self) (device_name self)
    (device_name_len self) (issued self).
Definition set_identity (self : t) (mac name : list Z) (name_len : Z) : t :=
  mk (connections self) (num_connections self) (connected self) (advertising self) (scanning self)
    (powered self) (doc_char_handle self) (doc_buffer self) (doc_len self) (pending_docs self)
    (connecting self) mac name name_len (issued self).
Definition issue (self : t) (c : Command.t) : t :=
  mk (connections self) (num_connections self) (connected self) (advertising self) (scanning self)
    (powered self) (doc_char_handle self) (doc_buffer self) (doc_len self) (pending_docs self)
    (connecting self) (our_mac self) (device_name self) (device_name_len self) (issued self ++ [c]).

Definition returned (error : list Z → BleError.t) (what : string) (code : Z) : BleError.t :=
  error (str what ++ str " failed: "%string ++ decimal_i32 code).
Definition start_advertising_internal (self : t) (codes : Codes.t) : t * result unit BleError.t :=
  if negb (Codes.set_fields codes =? 0) then
    (self, Err (returned BleError.PlatformError "ble_gap_adv_set_fields"%string (Codes.set_fields codes)))
  else if negb (Codes.adv_start codes =? 0) && negb (Codes.adv_start codes =? BLE_HS_EALREADY) then
    (self, Err (returned BleError.PlatformError "ble_gap_adv_start"%string (Codes.adv_start codes)))
  else (set_radio self true (scanning self) (powered self) (connecting self), Okay tt).
Definition start_scanning_internal (self : t) (codes : Codes.t) : t * result unit BleError.t :=
  if negb (Codes.disc codes =? 0) && negb (Codes.disc codes =? 2) then
    (self, Err (returned BleError.DiscoveryFailed "ble_gap_disc"%string (Codes.disc codes)))
  else (set_radio self (advertising self) true (powered self) (connecting self), Okay tt).
Definition stop_advertising (self : t) : t * result unit BleError.t :=
  (set_radio (issue self Command.AdvStop) false (scanning self) (powered self) (connecting self), Okay tt).
Definition stop_scanning (self : t) : t * result unit BleError.t :=
  (set_radio (issue self Command.DiscCancel) (advertising self) false (powered self) (connecting self), Okay tt).
(** [let _ = start_advertising_internal(); let _ = start_scanning_internal();] *)
Definition restart (self : t) (codes : Codes.t) : t :=
  (start_scanning_internal (start_advertising_internal self codes).1 codes).1.

(** *** Links *)

(** [for conn in conns.iter_mut() { if !conn.active { ..; break } }], and
    whether one was found. *)
Fixpoint take_slot (conns : list PeerConnection.t) (handle : Z) : list PeerConnection.t * bool :=
  match conns with
  | [] => ([], false)
  | c :: conns =>
      if negb (PeerConnection.active c) then
        (PeerConnection.mk handle (PeerConnection.peer_doc_handle c) true (PeerConnection.peer_addr c)
           (PeerConnection.node_id c) :: conns, true)
      else let '(conns, found) := take_slot conns handle in (c :: conns, found)
  end.
Fixpoint free_slot (conns : list PeerConnection.t) (handle : Z) : list PeerConnection.t * bool :=
  match conns with
  | [] => ([], false)
  | c :: conns =>
      if PeerConnection.active c && (PeerConnection.handle c =? handle) then
        (PeerConnection.mk 0xFFFF (PeerConnection.peer_doc_handle c) false (PeerConnection.peer_addr c)
           (PeerConnection.node_id c) :: conns, true)
      else let '(conns, found) := free_slot conns handle in (c :: conns, found)
  end.
(** [fetch_add] and [fetch_sub] wrap. *)
Definition add_link (self : t) (handle : Z) : t :=
  let '(conns, found) := take_slot (connections self) handle in
  set_links self conns (if found then wrap 16 (num_connections self + 1) else num_connections self) true.
Definition remove_link (self : t) (handle : Z) : t :=
  let '(conns, found) := free_slot (connections self) handle in
  let remaining := if found then wrap 16 (num_connections self - 1) else num_connections self in
  set_links self conns remaining (0 <? remaining).
Definition set_connecting (self : t) (b : bool) : t :=
  set_radio self (advertising self) (scanning self) (powered self) b.

Inductive GapEvent :=
| CONNECT (status handle : Z) | DISCONNECT (handle : Z) | ADV_COMPLETE
| DISC (data : option (list Z)) (addr : list Z) | DISC_COMPLETE | OTHER.
Definition gap_event_handler (self : t) (event : GapEvent) (codes : Codes.t) : outcome t :=
  match event with
  | CONNECT status handle =>
      let self := set_connecting self false in
      if status =? 0 then
        Ok (restart (issue (add_link self handle) (Command.ExchangeMtu handle)) codes)
      else Ok (restart self codes)
  | DISCONNECT handle => Ok (restart (remove_link self handle) codes)
  | ADV_COMPLETE => Ok (start_advertising_internal self codes).1
  | DISC data addr =>
      let! peat := has_peat_service data in
      if peat then
        if (num_connections self <? MAX_CONNECTIONS) && negb (connecting self) then
          let self := issue (issue (set_connecting self true) Command.DiscCancel) (Command.Connect addr) in
          let ret := Codes.connect codes in
          if negb (ret =? 0) && negb (ret =? 14)
          then Ok (start_scanning_internal (set_connecting self false) codes).1
          else Ok self
        else Ok self
      else Ok self
  | DISC_COMPLETE =>
      let self := (start_advertising_internal self codes).1 in
      Ok (if negb (connecting self) then (start_scanning_internal self codes).1 else self)
  | OTHER => Ok self
  end.
Definition on_sync (self : t) (codes : Codes.t) : t :=
  restart (set_radio self (advertising self) (scanning self) true (connecting self)) codes.
Definition on_reset (self : t) : t :=
  set_radio self (advertising self) (scanning self) false (connecting self).

(** *** Documents *)

(** A read is answered with the first bytes of the buffer.  A write comes with
    its bytes, unless there is no buffer, and the code of the copy. *)
Definition gatt_read (self : t) : list Z := ztake (doc_len self) (doc_buffer self).
Definition gatt_write (self : t) (om : option (list Z)) (copied : Z) : t :=
  match om with
  | Some buf =>
      if (0 <? zlen buf) && (zlen buf <=? MAX_DOC_SIZE) && (copied =? 0)
      then set_docs self (doc_char_handle self) (doc_buffer self) (doc_len self) (pending_docs self ++ [buf])
      else self
  | None => self
  end.
Definition set_document (self : t) (data : list Z) : t :=
  if zlen data <=? MAX_DOC_SIZE then
    set_docs self (doc_char_handle self) (data ++ drop (length data) (doc_buffer self)) (zlen data)
      (pending_docs self)
  else self.
Definition take_pending_document (self : t) : t * option (list Z) :=
  match pending_docs self with
  | doc :: rest =>
      (set_docs self (doc_char_handle self) (doc_buffer self) (doc_len self) rest, Some doc)
  | [] => (self, None)
  end.
(** [sent]: for each active link in turn, whether a buffer was had and the code
    of the notification; [None] is no buffer. *)
Fixpoint notify_all (self : t) (conns : list PeerConnection.t) (data : list Z) (sent : list (option Z))
    (count : Z) : t * Z :=
  match conns with
  | [] => (self, count)
  | c :: conns =>
      if PeerConnection.active c then
        match sent with
        | Some code :: sent =>
            let self := issue self (Command.Notify (PeerConnection.handle c) (doc_char_handle self)
                                      (ztake (wrap 16 (zlen data)) data)) in
            notify_all self conns data sent (if code =? 0 then count + 1 else count)
        | None :: sent => notify_all self conns data sent count
        | [] => notify_all self conns data [] count
        end
      else notify_all self conns data sent count
  end.
Definition gossip_document (self : t) (data : list Z) (sent : list (option Z)) : t * Z :=
  let self := set_document self data in
  if negb (doc_char_handle self =? 0) then notify_all self (connections self) data sent 0 else (self, 0).
Definition get_mac_address (self : t) : option (list Z) := Some (NodeId.mac_text (our_mac self)).

(** [port], [count], [add]: the codes of [nimble_port_init],
    [ble_gatts_count_cfg] and [ble_gatts_add_svcs]; [handle] is the one that the
    stack writes for the characteristic. *)
Definition init (self : t) (node_id : Z) (mac : list Z) (port count add handle : Z)
    : t * result unit BleError.t :=
  let name := str "PEAT-"%string ++ hex8 node_id in
  let len := Nat.min (length name) (length (device_name self)) in
  let self := set_identity self mac (take len name ++ drop len (device_name self)) (Z.of_nat len) in
  if negb (port =? 0) then (self, Err (returned BleError.PlatformError "nimble_port_init"%string port))
  else if negb (count =? 0) then (self, Err (returned BleError.GattError "ble_gatts_count_cfg"%string count))
  else if negb (add =? 0) then (self, Err (returned BleError.GattError "ble_gatts_add_svcs"%string add))
  else (set_docs self handle (doc_buffer self) (doc_len self) (pending_docs self), Okay tt).

End Nimble.

(** ** The adapter *)

Module Esp32Connection.
Record t := mk {
  peer_id : Z; conn_handle : Z; address : list Z; mtu : Z; connected_at_ms : Z; current_time_ms : Z;
  alive : bool
}.
Definition new (peer_id conn_handle : Z) (address : list Z) : t := mk peer_id conn_handle address 23 0 0 true.
Definition set_time_ms (self : t) (time_ms : Z) : t :=
  mk (peer_id self) (conn_handle self) (address self) (mtu self)
    (if connected_at_ms self =? 0 then time_ms else connected_at_ms self) time_ms (alive self).
Definition as_connection (self : t) : BleConnection.t :=
  BleConnection.mk (peer_id self) (alive self) (mtu self) BlePhy.Le1M None.
Definition connected_duration (self : t) : Z := saturating_sub (current_time_ms self) (connected_at_ms self).
End Esp32Connection.

Module Esp32AdapterState.
Record t := mk {
  connections : gmap Z Esp32Connection.t; handle_map : gmap Z Z; discovery_callback : bool;
  connection_callback : bool; advertising : bool; scanning : bool; powered : bool
}.
Definition default_state : t := mk ∅ ∅ false false false false false.
Definition set_flags (self : t) (a s p : bool) : t :=
  mk (connections self) (handle_map self) (discovery_callback self) (connection_callback self) a s p.
End Esp32AdapterState.

Module Esp32Adapter.
Import Esp32AdapterState.

Record t := mk {
  state : Esp32AdapterState.t; node_id : Z; device_name : list Z; beacon : option PeatBeacon.t;
  initialized : bool
}.
(** The adapter with the statics. *)
Definition world : Type := t * Nimble.t.

Definition new (node_id : Z) (device_name : list Z) : t := mk default_state node_id device_name None false.
Definition peat_lite (node_id : Z) : t := new node_id (str "PEAT-"%string ++ hex8 node_id).
Definition set_state (self : t) (s : Esp32AdapterState.t) : t :=
  mk s (node_id self) (device_name self) (beacon self) (initialized self).
Definition build_adv_data (beacon : PeatBeacon.t) : list Z :=
  let beacon_data := PeatBeacon.encode_compact beacon in
  [0x02; 0x01; 0x06] ++ [0x03; 0x03] ++ le 2 PEAT_SERVICE_UUID_16BIT
  ++ [wrap 8 (zlen beacon_data + 3); 0x16] ++ le 2 PEAT_SERVICE_UUID_16BIT ++ beacon_data.

Definition take_pending_document (w : world) : world * option (list Z) :=
  let '(n, r) := Nimble.take_pending_document w.2 in ((w.1, n), r).
Definition gossip_document (w : world) (data : list Z) (sent : list (option Z)) : world * Z :=
  let '(n, r) := Nimble.gossip_document w.2 data sent in ((w.1, n), r).
Definition set_document (w : world) (data : list Z) : world := (w.1, Nimble.set_document w.2 data).

(** [?] on a call of the statics, and what the adapter notes after it. *)
Definition noting (w : world) (r : Nimble.t * result unit BleError.t)
    (f : Esp32AdapterState.t → Esp32AdapterState.t) : world * result unit BleError.t :=
  match r with
  | (n, Err e) => ((w.1, n), Err e)
  | (n, Okay _) => ((set_state w.1 (f (state w.1)), n), Okay tt)
  end.
Definition init (w : world) (config : BleConfig.t) (mac : list Z) (port count add handle : Z)
    : world * result unit BleError.t :=
  let self := mk (state w.1) (node_id w.1) (device_name w.1)
                (Some (PeatBeacon.new (BleConfig.node_id config))) (initialized w.1) in
  let powered_on (self : t) := set_state self (set_flags (state self) (advertising (state self))
                                                 (scanning (state self)) true) in
  if initialized self then ((powered_on self, w.2), Okay tt)
  else match Nimble.init w.2 (node_id self) mac port count add handle with
       | (n, Err e) => ((self, n), Err e)
       | (n, Okay _) =>
           ((powered_on (mk (state self) (node_id self) (device_name self) (beacon self) true), n), Okay tt)
       end.
Definition esp_start (codes : Codes.t) (w : world) : world * result unit BleError.t :=
  match Nimble.start_advertising_internal w.2 codes with
  | (n, Err e) => ((w.1, n), Err e)
  | (n, Okay _) => noting (w.1, n) (Nimble.start_scanning_internal n codes) (λ s, s)
  end.
Definition esp_stop (w : world) : world * result unit BleError.t :=
  let n := (Nimble.stop_scanning (Nimble.stop_advertising w.2).1).1 in
  ((set_state w.1 (set_flags (state w.1) false false (powered (state w.1))), n), Okay tt).
Definition is_powered (w : world) : bool := Nimble.powered w.2.
Definition address (w : world) : option (list Z) := Nimble.get_mac_address w.2.
Definition start_scan (w : world) (codes : Codes.t) : world * result unit BleError.t :=
  noting w (Nimble.start_scanning_internal w.2 codes) (λ s, set_flags s (advertising s) true (powered s)).
Definition stop_scan (w : world) : world * result unit BleError.t :=
  noting w (Nimble.stop_scanning w.2) (λ s, set_flags s (advertising s) false (powered s)).
Definition start_advertising (w : world) (codes : Codes.t) : world * result unit BleError.t :=
  noting w (Nimble.start_advertising_internal w.2 codes) (λ s, set_flags s true (scanning s) (powered s)).
Definition stop_advertising (w : world) : world * result unit BleError.t :=
  noting w (Nimble.stop_advertising w.2) (λ s, set_flags s false (scanning s) (powered s)).
Definition set_discovery_callback (w : world) (callback : bool) : world :=
  let s := state w.1 in
  (set_state w.1 (Esp32AdapterState.mk (connections s) (handle_map s) callback (connection_callback s)
                    (advertising s) (scanning s) (powered s)), w.2).
Definition set_connection_callback (w : world) (callback : bool) : world :=
  let s := state w.1 in
  (set_state w.1 (Esp32AdapterState.mk (connections s) (handle_map s) (discovery_callback s) callback
                    (advertising s) (scanning s) (powered s)), w.2).
Definition esp_connect (w : world) (_peer_id : Z) : world * result BleConnection.t BleError.t :=
  (w, Err (BleError.NotSupported (str "ESP32 uses automatic connection via GAP discovery"%string))).
Definition esp_disconnect (w : world) (peer_id : Z) : world * result unit BleError.t :=
  let s := state w.1 in
  match connections s !! peer_id with
  | Some conn =>
      ((set_state w.1 (Esp32AdapterState.mk (delete peer_id (connections s))
          (delete (Esp32Connection.conn_handle conn) (handle_map s)) (discovery_callback s)
          (connection_callback s) (advertising s) (scanning s) (powered s)), w.2), Okay tt)
  | None => (w, Okay tt)
  end.
Definition esp_get_connection (w : world) (peer_id : Z) : option BleConnection.t :=
  (λ c, Esp32Connection.as_connection (Esp32Connection.new (Esp32Connection.peer_id c)
          (Esp32Connection.conn_handle c) (Esp32Connection.address c)))
    <$> connections (state w.1) !! peer_id.
Definition esp_peer_count (w : world) : Z := Nimble.num_connections w.2.
Definition esp_connected_peers `{!MapOrder Z} (w : world) : list Z := (map_iter (connections (state w.1))).*1.
Definition register_gatt_service (w : world) : world * result unit BleError.t := (w, Okay tt).
Definition unregister_gatt_service (w : world) : world * result unit BleError.t := (w, Okay tt).
Definition supports_coded_phy : bool := false.
Definition supports_extended_advertising : bool := false.
Definition max_mtu : Z := 512.
Definition max_connections : Z := 4.

(** [write_to_peer] is the default of the trait. *)
Definition esp32_adapter `{!MapOrder Z} (codes : Codes.t) : BleAdapter world := {|
  Adapter.start := esp_start codes; Adapter.stop := esp_stop; Adapter.connect := esp_connect;
  Adapter.disconnect := esp_disconnect; Adapter.get_connection := esp_get_connection;
  Adapter.peer_count := esp_peer_count; Adapter.connected_peers := esp_connected_peers;
  Adapter.write_to_peer := default_write_to_peer
|}.

End Esp32Adapter.

(** * Theorems *)

Module Esp32Proofs.
Import Nimble.

(** *** The structures of advertising data *)

(** The whole entries of [n] bytes of a list. *)
Fixpoint entries_fuel (fuel n : nat) (l : list Z) : list (list Z) :=
  match fuel with
  | O => []
  | S fuel => if (n <=? length l)%nat then take n l :: entries_fuel fuel n (drop n l) else []
  end.
Definition entries (n : nat) (l : list Z) : list (list Z) := entries_fuel (S (length l)) n l.
(** Length-prefixed structures up to one that is empty or cut off. *)
Fixpoint structures_fuel (fuel : nat) (data : list Z) : list (list Z) :=
  match fuel, data with
  | S fuel, len :: rest =>
      let k := Z.to_nat len in
      if (k =? 0)%nat || (length rest <? k)%nat then []
      else take k rest :: structures_fuel fuel (drop k rest)
  | _, _ => []
  end.
Definition structures (data : list Z) : list (list Z) := structures_fuel (length data) data.
(** A list of identifiers, short or long, with that of the service. *)
Definition lists_peat (s : list Z) : bool :=
  match s with
  | [] => false
  | field_type :: uuids =>
      (bool_decide (field_type = 0x02 ∨ field_type = 0x03)
       && bool_decide ([0x7A; 0xF4] ∈ entries 2 uuids))
      || (bool_decide (field_type = 0x06 ∨ field_type = 0x07)
          && bool_decide (PEAT_SERVICE_UUID ∈ entries 16 uuids))
  end.

Lemma entries_more fuel n l : (0 < n)%nat → (length l < fuel)%nat → entries_fuel fuel n l = entries n l.
Proof.
  intros Hn. unfold entries. revert l.
  assert (∀ f f' l, (length l < f)%nat → (length l < f')%nat → entries_fuel f n l = entries_fuel f' n l) as H.
  { induction f as [|f IH]; intros [|f'] l Hf Hf'; [lia..|]. cbn. destruct (Nat.leb_spec n (length l)); [|done].
    f_equal. apply IH; rewrite length_drop; lia. }
  intros l Hl. apply H; lia.
Qed.
Lemma structures_more fuel data : (length data ≤ fuel)%nat → structures_fuel fuel data = structures data.
Proof.
  unfold structures. assert (∀ f f' l, (length l ≤ f)%nat → (length l ≤ f')%nat →
    structures_fuel f l = structures_fuel f' l) as H.
  { induction f as [|f IH]; intros [|f'] [|x l] Hf Hf'; cbn in *; try done; try lia.
    case_match; [done|]. f_equal. apply IH; rewrite length_drop; lia. }
  intros Hl. by apply H.
Qed.

Lemma read_take n data i : (i + n ≤ length data)%nat → read n data i = Ok (take n (drop i data)).
Proof.
  revert i. induction n as [|n IH]; intros i Hi; [by rewrite take_0|]. cbn [read]. unfold at_.
  destruct (lookup_lt_is_Some_2 data i) as [b Hb]; [lia|]. rewrite Hb. cbn [obind].
  rewrite IH by lia. cbn [obind]. f_equal. by rewrite (drop_S _ _ _ Hb).
Qed.
Lemma scan_entries n t data i field_len : (0 < n)%nat → (i + field_len < length data)%nat →
  ∀ fuel j, (field_len + 1 - j < fuel)%nat →
  scan fuel n t data i field_len j
  = Ok (existsb t (entries_fuel fuel n (take (field_len + 1 - j) (drop (i + j) data)))).
Proof.
  intros Hn Hi. induction fuel as [|fuel IH]; intros j Hj; [lia|]. cbn [scan entries_fuel].
  rewrite length_take, length_drop. destruct (Nat.leb_spec (j + n) (field_len + 1)).
  - rewrite (proj2 (Nat.leb_le n _)) by lia. rewrite read_take by lia. cbn [obind existsb].
    rewrite take_take, Nat.min_l by lia. destruct (t _); [done|]. cbn [orb].
    rewrite IH by lia. rewrite skipn_firstn_comm, drop_drop.
    replace (field_len + 1 - (j + n))%nat with (field_len + 1 - j - n)%nat by lia.
    by replace (i + (j + n))%nat with (i + j + n)%nat by lia.
  - rewrite (proj2 (Nat.leb_gt n _)) by lia. done.
Qed.

Lemma existsb_elem (t : list Z → bool) u l : (∀ x, x ∈ l → t x = bool_decide (x = u)) →
  existsb t l = bool_decide (u ∈ l).
Proof.
  induction l as [|x l IH]; intros Ht; [by rewrite bool_decide_eq_false_2 by apply not_elem_of_nil|].
  cbn. rewrite IH, Ht by set_solver. apply eq_true_iff_eq.
  rewrite orb_true_iff, !bool_decide_eq_true, elem_of_cons. naive_solver.
Qed.
Lemma entries_elem fuel n l x : x ∈ entries_fuel fuel n l → length x = n ∧ x ⊆ l.
Proof.
  revert l. induction fuel as [|fuel IH]; intros l; cbn; [by intros ?%not_elem_of_nil|].
  destruct (Nat.leb_spec n (length l)); [|by intros ?%not_elem_of_nil].
  intros [->|Hx]%elem_of_cons.
  - split; [rewrite length_take; lia|]. apply subseteq_take.
  - destruct (IH _ Hx) as [? Hs]. split; [done|]. etrans; [exact Hs|apply subseteq_drop].
Qed.
Lemma short_uuid x : bytes_ok x → length x = 2%nat → is_peat_16 x = bool_decide (x = [0x7A; 0xF4]).
Proof.
  intros Hb Hl. unfold is_peat_16. apply eq_true_iff_eq. rewrite bool_decide_eq_true, Z.eqb_eq.
  split; [|by intros ->]. intros E.
  assert (x = le 2 (from_le x)) as ->; [|by rewrite E].
  symmetry. by apply Z_to_little_endian_to_Z; rewrite ?Hl.
Qed.

Lemma short_entry data i k x : bytes_ok data → x ∈ entries 2 (take k (drop i data)) →
  is_peat_16 x = bool_decide (x = [0x7A; 0xF4]).
Proof.
  intros Hb [Hx Hin]%entries_elem. apply short_uuid; [|done]. apply Forall_forall. intros b Hbx.
  apply Hin, subseteq_take, subseteq_drop in Hbx. by apply (proj1 (Forall_forall _ _) Hb).
Qed.
Lemma gated_scan n t u data i k (b : bool) : (0 < n)%nat → (i + k < length data)%nat → (0 < k)%nat →
  (∀ x, x ∈ entries n (take (k - 1) (drop (i + 2) data)) → t x = bool_decide (x = u)) →
  (if b && (S n <=? k)%nat then scan (length data) n t data i k 2 else Ok false)
  = Ok (b && bool_decide (u ∈ entries n (take (k - 1) (drop (i + 2) data)))).
Proof.
  intros Hn Hi Hk Ht. destruct b; [|done]. cbn [andb]. destruct (Nat.leb_spec (S n) k).
  - rewrite scan_entries by lia. replace (k + 1 - 2)%nat with (k - 1)%nat by lia.
    rewrite entries_more by (rewrite ?length_take, ?length_drop; lia). by rewrite (existsb_elem _ u).
  - rewrite bool_decide_eq_false_2; [done|]. unfold entries. cbn [entries_fuel].
    rewrite (proj2 (Nat.leb_gt n _)) by (rewrite length_take; lia). apply not_elem_of_nil.
Qed.
Lemma either_type ty a b : (ty =? a) || (ty =? b) = bool_decide (ty = a ∨ ty = b).
Proof. apply eq_true_iff_eq. by rewrite orb_true_iff, !Z.eqb_eq, bool_decide_eq_true. Qed.
Lemma fields_structures data : bytes_ok data → ∀ fuel i, (length data - i < fuel)%nat →
  fields fuel data i = Ok (existsb lists_peat (structures (drop i data))).
Proof.
  intros Hb. induction fuel as [|fuel IH]; intros i Hi; [lia|]. cbn [fields].
  destruct (Nat.ltb_spec i (length data)); cbn [negb]; [|by rewrite drop_ge by lia].
  destruct (lookup_lt_is_Some_2 data i) as [len Hlen]; [lia|]. unfold at_ at 1. rewrite Hlen. cbn [obind].
  rewrite (drop_S _ _ _ Hlen). unfold structures. cbn [length structures_fuel].
  rewrite length_drop. set (k := Z.to_nat len).
  replace (length data <=? i + k)%nat with (length data - S i <? k)%nat
    by (apply eq_true_iff_eq; rewrite Nat.ltb_lt, Nat.leb_le; lia).
  destruct ((k =? 0)%nat || _) eqn:Ec; [done|]. apply orb_false_iff in Ec as [Hk0 Hk].
  apply Nat.eqb_neq in Hk0. apply Nat.ltb_ge in Hk.
  destruct (lookup_lt_is_Some_2 data (i + 1)) as [ty Hty]; [lia|]. unfold at_. rewrite Hty. cbn [obind].
  assert (take k (drop (S i) data) = ty :: take (k - 1) (drop (i + 2) data)) as Es.
  { replace (S i) with (i + 1)%nat by lia. rewrite (drop_S _ _ _ Hty).
    destruct k as [|k']; [lia|]. cbn. do 2 f_equal; [lia|f_equal; lia]. }
  rewrite Es. cbn [existsb lists_peat]. rewrite !either_type.
  rewrite (gated_scan 2 _ [0x7A; 0xF4]) by
    (first [lia | intros x; by apply short_entry]).
  cbn [obind]. destruct (bool_decide _ && bool_decide _); [done|]. cbn [orb].
  rewrite (gated_scan 16 _ PEAT_SERVICE_UUID) by (try lia; done).
  cbn [obind]. destruct (bool_decide _ && bool_decide _); [done|]. cbn [orb].
  rewrite IH by lia. do 2 f_equal. rewrite drop_drop.
  rewrite structures_more by (rewrite length_drop; lia). do 2 f_equal. lia.
Qed.

Lemma structures_elem fuel data s : s ∈ structures_fuel fuel data → (S (length s) ≤ length data)%nat.
Proof.
  revert data. induction fuel as [|fuel IH]; intros [|len rest]; cbn; try by intros ?%not_elem_of_nil.
  destruct ((_ =? 0)%nat || _) eqn:Ec; [by intros ?%not_elem_of_nil|].
  intros [->|Hs]%elem_of_cons; [rewrite length_take; lia|]. apply IH in Hs. rewrite length_drop in Hs. lia.
Qed.
Lemma entries_short n l : (length l < n)%nat → entries n l = [].
Proof. intros Hl. unfold entries. cbn [entries_fuel]. by rewrite (proj2 (Nat.leb_gt _ _)). Qed.
Lemma short_lists_nothing s : (length s < 3)%nat → lists_peat s = false.
Proof.
  destruct s as [|ty uuids]; [done|]. cbn [length]. intros Hl. unfold lists_peat.
  rewrite !entries_short by lia.
  rewrite !(bool_decide_eq_false_2 (_ ∈ [])) by apply not_elem_of_nil. by rewrite !andb_false_r.
Qed.
Lemma finds_structures data : bytes_ok data →
  has_peat_service (Some data) = Ok (existsb lists_peat (structures data)).
Proof.
  intros Hb. unfold has_peat_service. destruct (Nat.ltb_spec (length data) 4).
  - f_equal. symmetry. apply not_true_iff_false. intros (s & Hs & Hp)%existsb_exists.
    apply list_elem_of_In, structures_elem in Hs. rewrite short_lists_nothing in Hp; [done|lia].
  - by rewrite fields_structures by (done || lia).
Qed.
(** A structure as it is sent. *)
Definition frame (s : list Z) : list Z := zlen s :: s.
Definition framed (s : list Z) : Prop := s ≠ [] ∧ (length s ≤ 255)%nat.
Lemma structures_frame s rest : framed s → structures (frame s ++ rest) = s :: structures rest.
Proof.
  intros [Hne _]. unfold frame, structures. cbn [app length structures_fuel]. rewrite Nat2Z.id, length_app.
  rewrite (proj2 (Nat.eqb_neq (length s) 0)) by (by destruct s).
  rewrite (proj2 (Nat.ltb_ge _ _)) by lia. cbn [orb]. rewrite take_app_length, drop_app_length. f_equal.
  apply structures_more. lia.
Qed.
Lemma structures_frames ss rest : Forall framed ss →
  structures (concat (frame <$> ss) ++ rest) = ss ++ structures rest.
Proof.
  induction ss as [|s ss IH]; intros Hs; [done|]. apply Forall_cons in Hs as [Hs Hss].
  cbn [fmap list_fmap concat]. rewrite <-app_assoc, structures_frame by done. by rewrite IH.
Qed.

(** *** What the callbacks and the main loop do *)

Inductive action :=
| Gap (event : GapEvent) (codes : Codes.t) | Sync (codes : Codes.t) | Reset_
| Written (om : option (list Z)) (copied : Z) | Take | SetDocument (data : list Z)
| Gossip (data : list Z) (sent : list (option Z)) | StartAdvertising (codes : Codes.t)
| StopAdvertising | StartScanning (codes : Codes.t) | StopScanning.
Definition step (s : t) (a : action) : outcome t :=
  match a with
  | Gap event codes => gap_event_handler s event codes
  | Sync codes => Ok (on_sync s codes)
  | Reset_ => Ok (on_reset s)
  | Written om copied => Ok (gatt_write s om copied)
  | Take => Ok (take_pending_document s).1
  | SetDocument data => Ok (set_document s data)
  | Gossip data sent => Ok (gossip_document s data sent).1
  | StartAdvertising codes => Ok (start_advertising_internal s codes).1
  | StopAdvertising => Ok (stop_advertising s).1
  | StartScanning codes => Ok (start_scanning_internal s codes).1
  | StopScanning => Ok (stop_scanning s).1
  end.
Fixpoint run (s : t) (l : list action) : outcome t :=
  match l with [] => Ok s | a :: l => let! s := step s a in run s l end.

(** The list without the first [x]. *)
Fixpoint list_remove_first (x : Z) (l : list Z) : list Z :=
  match l with [] => [] | y :: l => if y =? x then l else y :: list_remove_first x l end.
(** What it means: the open links, the documents that came in, and the one that
    is read. *)
Record meaning := Meaning { links : list Z; inbox : list (list Z); served : list Z }.
Definition nothing : meaning := Meaning [] [] [].
Definition open_link (m : meaning) (h : Z) : meaning :=
  if (length (links m) <? 4)%nat then Meaning (h :: links m) (inbox m) (served m) else m.
Definition close_link (m : meaning) (h : Z) : meaning :=
  Meaning (list_remove_first h (links m)) (inbox m) (served m).
Definition fits (data : list Z) : bool := (length data <=? 256)%nat.
Definition means (m : meaning) (a : action) : meaning :=
  match a with
  | Gap (CONNECT status h) _ => if status =? 0 then open_link m h else m
  | Gap (DISCONNECT h) _ => close_link m h
  | Written (Some buf) copied =>
      if bool_decide (buf ≠ []) && fits buf && (copied =? 0)
      then Meaning (links m) (inbox m ++ [buf]) (served m) else m
  | Take => Meaning (links m) (tail (inbox m)) (served m)
  | SetDocument data | Gossip data _ =>
      if fits data then Meaning (links m) (inbox m) data else m
  | _ => m
  end.


Definition open_handles (cs : list PeerConnection.t) : list Z :=
  PeerConnection.handle <$> filter (λ c, PeerConnection.active c = true) cs.
Record stands_for (s : t) (m : meaning) : Prop := {
  sf_slots : length (connections s) = 4%nat;
  sf_links : open_handles (connections s) ≡ₚ links m;
  sf_count : num_connections s = zlen (links m);
  sf_connected : connected s = bool_decide (links m ≠ []);
  sf_buffer : length (doc_buffer s) = 256%nat;
  sf_served : doc_len s = zlen (served m) ∧ served m `prefix_of` doc_buffer s;
  sf_inbox : pending_docs s = inbox m
}.
(** What has to do with links and documents. *)
Definition substance (s : t) :=
  (connections s, num_connections s, connected s, doc_buffer s, doc_len s, pending_docs s).
Lemma stands_same s s' m : stands_for s m → substance s' = substance s → stands_for s' m.
Proof. intros [] [=]. split; congruence. Qed.

Lemma advertising_same s codes : substance (start_advertising_internal s codes).1 = substance s.
Proof. unfold start_advertising_internal. by repeat case_match. Qed.
Lemma scanning_same s codes : substance (start_scanning_internal s codes).1 = substance s.
Proof. unfold start_scanning_internal. by repeat case_match. Qed.
Lemma restart_same s codes : substance (restart s codes) = substance s.
Proof. unfold restart. by rewrite scanning_same, advertising_same. Qed.

Lemma open_handles_cons c cs : open_handles (c :: cs)
  = if PeerConnection.active c then PeerConnection.handle c :: open_handles cs else open_handles cs.
Proof.
  unfold open_handles. rewrite filter_cons. destruct (PeerConnection.active c) eqn:E.
  - by rewrite decide_True.
  - by rewrite decide_False.
Qed.
Lemma open_handles_length cs : (length (open_handles cs) ≤ length cs)%nat.
Proof. unfold open_handles. rewrite length_fmap. apply length_filter. Qed.
Lemma take_slot_spec cs h cs' found : take_slot cs h = (cs', found) →
  length cs' = length cs ∧
  (if found then open_handles cs' ≡ₚ h :: open_handles cs ∧ (length (open_handles cs) < length cs)%nat
   else cs' = cs ∧ length (open_handles cs) = length cs).
Proof.
  revert cs' found. induction cs as [|c cs IH]; intros cs' found; [by intros [= <- <-]|].
  cbn [take_slot]. pose proof (open_handles_length cs). rewrite open_handles_cons.
  destruct (PeerConnection.active c) eqn:Ea; cbn [negb].
  - destruct (take_slot cs h) as [cs1 f1]. destruct (IH _ _ eq_refl) as [Hl Hf].
    intros [= <- <-]. split; [cbn; lia|]. destruct f1; destruct Hf as [Hp Hlt].
    + rewrite open_handles_cons, Ea, Hp. split; [constructor|cbn; lia].
    + subst cs1. split; [done|cbn; lia].
  - intros [= <- <-]. split; [done|]. split; [by rewrite open_handles_cons|cbn; lia].
Qed.
Lemma free_slot_spec cs h cs' found : free_slot cs h = (cs', found) →
  length cs' = length cs ∧
  (if found then open_handles cs ≡ₚ h :: open_handles cs' else cs' = cs ∧ h ∉ open_handles cs).
Proof.
  revert cs' found. induction cs as [|c cs IH]; intros cs' found;
    [by intros [= <- <-]; split_and!; [done|done|apply not_elem_of_nil]|].
  cbn [free_slot]. rewrite open_handles_cons. destruct (PeerConnection.active c) eqn:Ea; cbn [andb].
  - destruct (Z.eqb_spec (PeerConnection.handle c) h) as [<-|Hne].
    + intros [= <- <-]. split; [done|]. by rewrite open_handles_cons.
    + destruct (free_slot cs h) as [cs1 f1]. destruct (IH _ _ eq_refl) as [Hl Hf].
      intros [= <- <-]. split; [cbn; lia|]. destruct f1.
      * rewrite open_handles_cons, Ea, Hf. constructor.
      * destruct Hf as [-> Hn]. split; [done|]. apply not_elem_of_cons. auto.
  - destruct (free_slot cs h) as [cs1 f1]. destruct (IH _ _ eq_refl) as [Hl Hf].
    intros [= <- <-]. split; [cbn; lia|]. destruct f1; [by rewrite open_handles_cons, Ea|].
    by destruct Hf as [-> Hn].
Qed.
Lemma remove_first_perm x l : x ∈ l → x :: list_remove_first x l ≡ₚ l.
Proof.
  induction l as [|y l IH]; [by intros ?%not_elem_of_nil|]. cbn. destruct (Z.eqb_spec y x) as [->|Hne]; [done|].
  intros [->|Hx]%elem_of_cons; [done|]. rewrite <-(IH Hx) at 2. constructor.
Qed.
Lemma remove_first_absent x l : x ∉ l → list_remove_first x l = l.
Proof.
  induction l as [|y l IH]; [done|]. intros [Hne Hx]%not_elem_of_cons. cbn.
  destruct (Z.eqb_spec y x); [congruence|]. by rewrite IH.
Qed.

Lemma few_links s m : stands_for s m → (length (links m) ≤ 4)%nat.
Proof.
  intros []. rewrite <-(Permutation_length sf_links0), <-sf_slots0. apply open_handles_length.
Qed.
Lemma add_stands s m h : stands_for s m → stands_for (add_link s h) (open_link m h).
Proof.
  intros Hs. pose proof (few_links s m Hs) as H4. destruct Hs as [Hsl Hl Hc Hcn Hb Hd Hi].
  unfold add_link, open_link. destruct (take_slot (connections s) h) as [cs found] eqn:E.
  apply take_slot_spec in E as [El Hf]. rewrite <-(Permutation_length Hl).
  destruct found; destruct Hf as [Hp Hlt].
  - rewrite (proj2 (Nat.ltb_lt _ 4)) by lia. split; cbn [set_links connections num_connections connected doc_buffer doc_len pending_docs];
      [by rewrite El|by rewrite Hp, Hl| | |done|done|done].
    + rewrite Hc, wrap_small; [cbn; lia|]. change (2 ^ 16) with 65536. lia.
    + by rewrite bool_decide_eq_true_2.
  - rewrite (proj2 (Nat.ltb_ge _ 4)) by lia. subst cs. split; cbn; try done.
    rewrite bool_decide_eq_true_2; [done|]. intros E. rewrite E in Hl.
    apply Permutation_length in Hl. cbn in Hl. lia.
Qed.
Lemma remove_stands s m h : stands_for s m → stands_for (remove_link s h) (close_link m h).
Proof.
  intros Hs. pose proof (few_links s m Hs) as H4. destruct Hs as [Hsl Hl Hc Hcn Hb Hd Hi].
  unfold remove_link, close_link. destruct (free_slot (connections s) h) as [cs found] eqn:E.
  apply free_slot_spec in E as [El Hf]. destruct found.
  - assert (h ∈ links m) as Hin by (rewrite <-Hl, Hf; by left).
    pose proof (remove_first_perm h (links m) Hin) as Hr.
    assert (open_handles cs ≡ₚ list_remove_first h (links m)) as Hl'.
    { apply (Permutation_cons_inv (a := h)). by rewrite <-Hf, Hl. }
    pose proof (Permutation_length Hr) as Hlen. cbn in Hlen.
    assert (wrap 16 (num_connections s - 1) = zlen (list_remove_first h (links m))) as Ew.
    { rewrite Hc, wrap_small; [lia|]. change (2 ^ 16) with 65536. lia. }
    split; cbn [set_links connections num_connections connected doc_buffer doc_len pending_docs links inbox served];
      [by rewrite El|done|done| |done|done|done]. rewrite Ew. apply eq_true_iff_eq.
    rewrite Z.ltb_lt, bool_decide_eq_true. destruct (list_remove_first h (links m)); cbn; [|split; [done|lia]].
    split; [lia|done].
  - destruct Hf as [-> Hn]. rewrite Hl in Hn. rewrite remove_first_absent by done.
    split; cbn; try done. rewrite Hc. apply eq_true_iff_eq. rewrite Z.ltb_lt, bool_decide_eq_true.
    destruct (links m); cbn; [split; [lia|done]|split; [done|lia]].
Qed.
Lemma set_document_stands s m data : stands_for s m →
  stands_for (set_document s data) (if fits data then Meaning (links m) (inbox m) data else m).
Proof.
  intros [Hsl Hl Hc Hcn Hb Hd Hi]. unfold set_document, fits, MAX_DOC_SIZE.
  replace (zlen data <=? 256) with (length data <=? 256)%nat
    by (apply eq_true_iff_eq; rewrite Nat.leb_le, Z.leb_le; lia).
  destruct (Nat.leb_spec (length data) 256); [|done]. split; cbn; try done.
  - rewrite length_app, length_drop. lia.
  - split; [done|by eexists].
Qed.
Lemma notify_same conns : ∀ s data sent count,
  substance (notify_all s conns data sent count).1 = substance s.
Proof.
  induction conns as [|c conns IH]; intros s data sent count; [done|]. cbn [notify_all].
  destruct (PeerConnection.active c); [|apply IH]. destruct sent as [|[code|] sent]; [apply IH| |apply IH].
  rewrite IH. done.
Qed.
Lemma gap_stands s m event codes : stands_for s m →
  (∀ data addr, event = DISC (Some data) addr → bytes_ok data) →
  ∃ s', gap_event_handler s event codes = Ok s' ∧ stands_for s' (means m (Gap event codes)).
Proof.
  intros Hs Hb. destruct event as [status h|h| |data addr| |]; cbn [gap_event_handler means].
  - assert (stands_for (set_connecting s false) m) as Hs' by by apply (stands_same s).
    destruct (status =? 0); (eexists; split; [done|]).
    + eapply stands_same; [by apply add_stands|]. by rewrite restart_same.
    + eapply stands_same; [exact Hs'|]. by rewrite restart_same.
  - eexists. split; [done|]. eapply stands_same; [by apply remove_stands|]. by rewrite restart_same.
  - eexists. split; [done|]. eapply stands_same; [exact Hs|]. apply advertising_same.
  - assert (∃ b, has_peat_service data = Ok b) as [b ->].
    { destruct data as [data|]; [|by eexists]. unfold has_peat_service.
      destruct (_ <? _)%nat; [by eexists|]. rewrite fields_structures by (first [by eapply Hb | lia]). by eexists. }
    cbn [obind]. destruct b; [|by eexists]. destruct (_ && negb (connecting s)); [|by eexists].
    cbn zeta. destruct (_ && _); (eexists; split; [done|]); eapply stands_same; try exact Hs; [|done].
    by rewrite scanning_same.
  - eexists. split; [done|]. eapply stands_same; [exact Hs|]. destruct (negb _).
    + by rewrite scanning_same, advertising_same.
    + apply advertising_same.
  - by eexists.
Qed.
(** The radio delivers bytes. *)
Definition plausible (a : action) : Prop :=
  match a with Gap (DISC (Some data) _) _ => bytes_ok data | _ => True end.
Lemma step_stands s m a : stands_for s m → plausible a →
  ∃ s', step s a = Ok s' ∧ stands_for s' (means m a).
Proof.
  intros Hs Ha. destruct a as [event codes|codes| |om copied| |data|data sent|codes| |codes|]; cbn [step means].
  - apply gap_stands; [done|]. intros data addr ->. exact Ha.
  - eexists. split; [done|]. eapply stands_same; [exact Hs|]. unfold on_sync. by rewrite restart_same.
  - eexists. split; [done|]. by eapply stands_same.
  - eexists. split; [done|]. destruct om as [buf|]; [|done]. unfold gatt_write, fits, MAX_DOC_SIZE.
    replace ((0 <? zlen buf) && (zlen buf <=? 256)) with (bool_decide (buf ≠ []) && (length buf <=? 256)%nat).
    { destruct Hs as [Hsl Hl Hc Hcn Hb Hd Hi]. destruct (_ && _); [|done]. split; cbn; try done. by rewrite Hi. }
    apply eq_true_iff_eq. rewrite !andb_true_iff, bool_decide_eq_true, Nat.leb_le, Z.ltb_lt, Z.leb_le.
    destruct buf; cbn; [split; [by intros [? _]|lia]|]. split; [intros [_ ?]; lia|intros [_ ?]; split; [done|lia]].
  - eexists. split; [done|]. destruct Hs as [Hsl Hl Hc Hcn Hb Hd Hi]. unfold take_pending_document.
    rewrite <-Hi. destruct (pending_docs s) eqn:E; by split.
  - eexists. split; [done|]. by apply set_document_stands.
  - eexists. split; [done|]. unfold gossip_document. pose proof (set_document_stands s m data Hs) as Hs'.
    destruct (negb _); [|done]. eapply stands_same; [exact Hs'|]. apply notify_same.
  - eexists. split; [done|]. eapply stands_same; [exact Hs|]. apply advertising_same.
  - eexists. split; [done|]. by eapply stands_same.
  - eexists. split; [done|]. eapply stands_same; [exact Hs|]. apply scanning_same.
  - eexists. split; [done|]. by eapply stands_same.
Qed.
Lemma run_stands l : ∀ s m, stands_for s m → Forall plausible l →
  ∃ s', run s l = Ok s' ∧ stands_for s' (foldl means m l).
Proof.
  induction l as [|a l IH]; intros s m Hs Hl; [by exists s|]. apply Forall_cons in Hl as [Ha Hl].
  destruct (step_stands s m a Hs Ha) as (s1 & E & Hs1). cbn [run foldl]. rewrite E. cbn [obind]. by apply IH.
Qed.
Lemma statics_stand : stands_for statics nothing.
Proof. split; try done. split; [done|]. apply prefix_nil. Qed.

(** *** Attempts *)

(** While an attempt is noted as pending, no other is made. *)
Definition is_connect (c : Command.t) : bool := match c with Command.Connect _ => true | _ => false end.
Definition attempts (s : t) : list Command.t := List.filter is_connect (issued s).
Definition no_answer (a : action) : Prop := match a with Gap (CONNECT _ _) _ => False | _ => True end.
Definition waiting (s : t) := (connecting s, attempts s).
Lemma advertising_waiting s codes : waiting (start_advertising_internal s codes).1 = waiting s.
Proof. unfold start_advertising_internal. by repeat case_match. Qed.
Lemma scanning_waiting s codes : waiting (start_scanning_internal s codes).1 = waiting s.
Proof. unfold start_scanning_internal. by repeat case_match. Qed.
Lemma restart_waiting s codes : waiting (restart s codes) = waiting s.
Proof. unfold restart. by rewrite scanning_waiting, advertising_waiting. Qed.
Lemma issue_waiting s c : is_connect c = false → waiting (issue s c) = waiting s.
Proof.
  intros Hc. unfold waiting, attempts. cbn. rewrite List.filter_app. cbn. by rewrite Hc, app_nil_r.
Qed.
Lemma notify_waiting conns : ∀ s data sent count,
  waiting (notify_all s conns data sent count).1 = waiting s.
Proof.
  induction conns as [|c conns IH]; intros s data sent count; [done|]. cbn [notify_all].
  destruct (PeerConnection.active c); [|apply IH]. destruct sent as [|[code|] sent]; [apply IH| |apply IH].
  rewrite IH. by apply issue_waiting.
Qed.
Lemma pending_step s a s' : connecting s = true → no_answer a → step s a = Ok s' → waiting s' = waiting s.
Proof.
  intros Hc Ha E. destruct a as [event codes|codes| |om copied| |data|data sent|codes| |codes|]; cbn [step] in E;
    try injection E as <-.
  - destruct event as [status h|h| |data addr| |]; cbn [gap_event_handler] in E; [done| | | | |].
    + injection E as <-. rewrite restart_waiting. unfold remove_link. by case_match.
    + injection E as <-. apply advertising_waiting.
    + destruct (has_peat_service data) as [[]| |]; try discriminate; cbn [obind] in E.
      * rewrite Hc, andb_false_r in E. by injection E as <-.
      * by injection E as <-.
    + injection E as <-. destruct (negb _); [rewrite scanning_waiting|]; apply advertising_waiting.
    + by injection E as <-.
  - unfold on_sync. by rewrite restart_waiting.
  - done.
  - unfold gatt_write. by repeat case_match.
  - unfold take_pending_document. by case_match.
  - unfold set_document. by case_match.
  - unfold gossip_document. assert (waiting (set_document s data) = waiting s) as E
      by (unfold set_document; by case_match).
    destruct (negb _); [by rewrite notify_waiting|done].
  - apply advertising_waiting.
  - by apply issue_waiting.
  - apply scanning_waiting.
  - by apply issue_waiting.
Qed.
(** A peer that answers the attempt with 14 leaves it pending: until some
    connection is reported no other attempt is made. *)
Lemma refused_attempt_stays s data addr codes l s1 s2 : has_peat_service data = Ok true →
  num_connections s < MAX_CONNECTIONS → connecting s = false → Codes.connect codes = 14 →
  step s (Gap (DISC data addr) codes) = Ok s1 → Forall no_answer l → run s1 l = Ok s2 →
  connecting s2 = true ∧ attempts s2 = attempts s ++ [Command.Connect addr].
Proof.
  intros Hd Hn Hc H14 E Hl. cbn in E. rewrite Hd, (proj2 (Z.ltb_lt _ _) Hn), Hc, H14 in E. cbn in E.
  injection E as <-. set (s1 := issue _ _). assert (connecting s1 = true) as H1 by done.
  assert (attempts s1 = attempts s ++ [Command.Connect addr]) as <-.
  { unfold attempts. cbn. rewrite !List.filter_app. cbn. by rewrite app_nil_r. }
  clearbody s1. revert s1 H1. induction l as [|a l IH]; intros s1 H1; cbn [run]; [by intros [= <-]|].
  apply Forall_cons in Hl as [Ha Hl]. destruct (step s1 a) as [s1'| |] eqn:E; try done. cbn [obind].
  pose proof (pending_step _ _ _ H1 Ha E) as [= Ec Ea]. rewrite <-Ea. apply IH; [done|congruence].
Qed.
(** The data that the adapter builds is not what it looks for. *)
Lemma built_data_not_found : 
  has_peat_service (Some (Esp32Adapter.build_adv_data (PeatBeacon.new 0xBEEF))) = Ok false.
Proof. vm_compute. reflexivity. Qed.

End Esp32Proofs.

Module Esp32Properties.
Import Nimble Esp32Proofs.

(** C39: The scanner of the ESP32 reads nothing outside the bytes it is given,
    whatever they are, and answers as if it had parsed them into structures and
    looked for the short or the long identifier of the service in a list of its
    kind; so it finds a service that is listed in a whole structure, whatever
    comes before and after. *)
Theorem esp32_finds_listed_services (data : list Z) (ss : list (list Z)) (s rest : list Z) :
  bytes_ok data →
  has_peat_service (Some data) = Ok (existsb lists_peat (structures data))
  ∧ (data = concat (frame <$> ss) ++ rest → Forall framed ss → s ∈ ss → lists_peat s = true →
     has_peat_service (Some data) = Ok true).
Proof.
  intros Hb. split; [by apply finds_structures|]. intros E Hss Hs Hp. rewrite finds_structures by done.
  f_equal. rewrite E, structures_frames by done. apply existsb_exists. exists s. split; [|done].
  apply list_elem_of_In. set_solver.
Qed.

(** C40: Whatever the radio and the main loop do, no callback panics, and the
    statics stand for what it means: the table holds the open links, at most
    four, its counter and its flag agree with it and never wrap; the documents
    written by peers wait in the order in which they came, each taken once; and a
    peer reads the document that was set last, of those that fit. *)
Theorem esp32_statics_refine (l : list action) :
  Forall plausible l →
  let m := foldl means nothing l in
  ∃ s, run statics l = Ok s
    ∧ open_handles (connections s) ≡ₚ links m ∧ (length (links m) ≤ 4)%nat
    ∧ num_connections s = zlen (links m) ∧ connected s = bool_decide (links m ≠ [])
    ∧ (take_pending_document s).2 = head (inbox m)
    ∧ gatt_read s = served m.
Proof.
  intros Hl m. destruct (run_stands l statics nothing statics_stand Hl) as (s & E & Hs). fold m in Hs.
  exists s. split; [done|]. pose proof (few_links s m Hs) as H4.
  destruct Hs as [Hsl Hlk Hc Hcn Hb [Hd [k Hk]] Hi]. split_and!; try done.
  - unfold take_pending_document. rewrite <-Hi. by destruct (pending_docs s).
  - unfold gatt_read. rewrite Hd, Hk. by apply ztake_app_exact.
Qed.

(** The data of another ESP32: flags and the complete list of long identifiers. *)
Definition esp32_data : list (list Z) := [[0x01; 0x06]; 0x07 :: PEAT_SERVICE_UUID].
Lemma esp32_finds_listed_services_witness :
  has_peat_service (Some (concat (frame <$> esp32_data) ++ [2; 0x0A])) = Ok true
  ∧ has_peat_service (Some [3; 3; 0x7A; 0xF4]) = Ok true
  ∧ has_peat_service (Some [3; 3; 0xB2; 0xA1]) = Ok false.
Proof.
  split; [|by vm_compute].
  apply (esp32_finds_listed_services (concat (frame <$> esp32_data) ++ [2; 0x0A]) esp32_data
    (0x07 :: PEAT_SERVICE_UUID) [2; 0x0A]); [by_decide|done| |set_solver|by vm_compute].
  by_decide.
Defined.
(** Five centrals connect, one leaves; two documents are written and one taken. *)
Definition a_day : list action :=
  ((λ h, Gap (CONNECT 0 h) Codes.ok) <$> [1; 2; 3; 4; 5])
  ++ [Gap (DISCONNECT 2) Codes.ok; Written (Some [7; 8]) 0; Written (Some [9]) 0; Take; SetDocument [1; 2; 3];
      Gap (DISC (Some [3; 3; 0x7A; 0xF4]) [0; 0; 0; 0; 0; 1]) Codes.ok].
Lemma esp32_statics_refine_witness :
  ∃ s, run statics a_day = Ok s ∧ num_connections s = 3 ∧ (take_pending_document s).2 = Some [9]
    ∧ gatt_read s = [1; 2; 3] ∧ attempts s = [Command.Connect [0; 0; 0; 0; 0; 1]].
Proof.
  destruct (esp32_statics_refine a_day) as (s & E & _ & _ & Hn & _ & Hi & Hr); [repeat constructor; lia|].
  exists s. split; [done|]. split_and!; [by rewrite Hn|by rewrite Hi|by rewrite Hr|].
  vm_compute in E. injection E as <-. vm_compute. reflexivity.
Defined.

End Esp32Properties.
