(* ===== verification/AppleDelegates.v ===== *)
(** * The delegates of src/src/platform/apple/delegates.rs: what CoreBluetooth
    calls, and the events they send to the managers.

    CoreBluetooth is outside.  A call it makes is a value of [CentralCallback],
    [PeripheralCallback] or [PeripheralManagerCallback] with what the code
    reads of its arguments, as numbers and texts.  A peripheral or a central of
    the system is its identifier, which the system keeps for it.  The bounded
    channel of tokio is the class [Channel]. *)

From Stdlib Require Import String.
From stdpp Require Import base numbers list gmap sets.
From S2P Require Import Prelude Crypto Config GattService Ble.
Open Scope Z_scope.
Open Scope peat_scope.

(** ** Outside code *)

(** [mpsc::channel(n)], [Sender::try_send] and [Receiver::try_recv]; both ends
    are one value.  A failed [try_send] leaves the channel as it is. *)
Class Channel (C : Type → Type) := {
  channel : ∀ {A}, Z → C A;
  try_send : ∀ {A}, C A → A → C A;
  try_recv : ∀ {A}, C A → C A * option A
}.
(** Its documentation: a queue that holds at most as many values as it was
    made for, and takes no more while it is full. *)
Class ChannelLaws (C : Type → Type) `{!Channel C} := {
  queued : ∀ {A}, C A → list A;
  room : ∀ {A}, C A → Z;
  queued_channel {A} n : 0 < n → queued (A := A) (channel n) = [] ∧ room (A := A) (channel n) = n;
  queued_send {A} (c : C A) x :
    queued (try_send c x) = (if zlen (queued c) <? room c then queued c ++ [x] else queued c)
    ∧ room (try_send c x) = room c;
  queued_recv {A} (c : C A) :
    (try_recv c).2 = head (queued c) ∧ queued (try_recv c).1 = tail (queued c)
    ∧ room (try_recv c).1 = room c
}.

(** [str::to_uppercase] of an ASCII text, which the texts of UUIDs are. *)
Definition to_uppercase (s : list Z) : list Z :=
  map (λ c, if (97 <=? c) && (c <=? 122) then c - 32 else c) s.

(** The capacity of each channel. *)
Definition CHANNEL_CAPACITY : Z := 100.

(** ** Events *)

Module CentralState.
Inductive t := Unknown | Resetting | Unsupported | Unauthorized | PoweredOff | PoweredOn.
#[global] Instance central_state_eq_dec : EqDecision t.
Proof. solve_decision. Defined.
Definition from_raw (value : Z) : t :=
  if value =? 0 then Unknown
  else if value =? 1 then Resetting
  else if value =? 2 then Unsupported
  else if value =? 3 then Unauthorized
  else if value =? 4 then PoweredOff
  else if value =? 5 then PoweredOn
  else Unknown.
Definition is_ready (self : t) : bool := bool_decide (self = PoweredOn).
End CentralState.

Module CentralEvent.
Inductive t :=
| StateChanged (state : CentralState.t)
| DiscoveredPeripheral (identifier : list Z) (name : option (list Z)) (rssi : Z)
    (advertisement_data : list Z) (service_uuids : list (list Z)) (is_peat_node : bool)
    (node_id : option Z)
| Connected (identifier : list Z)
| Disconnected (identifier : list Z) (error : option (list Z))
| ConnectionFailed (identifier error : list Z).
End CentralEvent.

Module PeripheralEvent.
Inductive t :=
| ServicesDiscovered (identifier : list Z) (error : option (list Z))
| CharacteristicsDiscovered (identifier service_uuid : list Z) (error : option (list Z))
| CharacteristicValueUpdated (identifier characteristic_uuid value : list Z) (error : option (list Z))
| CharacteristicWritten (identifier characteristic_uuid : list Z) (error : option (list Z))
| NotificationStateChanged (identifier characteristic_uuid : list Z) (enabled : bool)
    (error : option (list Z))
| RssiRead (identifier : list Z) (rssi : Z) (error : option (list Z))
| MtuUpdated (identifier : list Z) (mtu : Z).
End PeripheralEvent.

Module PeripheralManagerEvent.
Inductive t :=
| StateChanged (state : CentralState.t)
| ServiceAdded (service_uuid : list Z) (error : option (list Z))
| AdvertisingStarted (error : option (list Z))
| CentralSubscribed (central_identifier characteristic_uuid : list Z)
| CentralUnsubscribed (central_identifier characteristic_uuid : list Z)
| ReadRequest (request_id : Z) (central_identifier characteristic_uuid : list Z) (offset : Z)
| WriteRequest (request_id : Z) (central_identifier characteristic_uuid value : list Z) (offset : Z)
    (response_needed : bool)
| ReadyToUpdateSubscribers.
End PeripheralManagerEvent.

(** ** The calls of CoreBluetooth *)

(** [uuids] is the entry of the advertisement under
    [CBAdvertisementDataServiceUUIDsKey], [raw] the number of a state. *)
Module CentralCallback.
Inductive t :=
| did_update_state (raw : Z)
| did_discover_peripheral (identifier : list Z) (name : option (list Z))
    (uuids : option (list (list Z))) (rssi : Z)
| did_connect_peripheral (identifier : list Z)
| did_disconnect_peripheral (identifier : list Z) (error : option (list Z))
| did_fail_to_connect_peripheral (identifier : list Z) (error : option (list Z)).
End CentralCallback.

Module PeripheralCallback.
Inductive t :=
| did_discover_services (identifier : list Z) (error : option (list Z))
| did_discover_characteristics_for_service (identifier service_uuid : list Z)
    (error : option (list Z))
| did_update_value_for_characteristic (identifier characteristic_uuid : list Z)
    (value : option (list Z)) (error : option (list Z))
| did_write_value_for_characteristic (identifier characteristic_uuid : list Z)
    (error : option (list Z))
| did_update_notification_state_for_characteristic (identifier characteristic_uuid : list Z)
    (is_notifying : bool) (error : option (list Z))
| did_read_rssi (identifier : list Z) (rssi : Z) (error : option (list Z)).
Definition identifier (self : t) : list Z :=
  match self with
  | did_discover_services i _ | did_discover_characteristics_for_service i _ _
  | did_update_value_for_characteristic i _ _ _ | did_write_value_for_characteristic i _ _
  | did_update_notification_state_for_characteristic i _ _ _ | did_read_rssi i _ _ => i
  end.
End PeripheralCallback.

(** A request of a central ([CBATTRequest]). *)
Module CBATTRequest.
Record t := mk {
  central : list Z; characteristic : list Z; offset : Z; value : option (list Z)
}.
End CBATTRequest.
Module PeripheralManagerCallback.
Inductive t :=
| did_update_state (raw : Z)
| did_add_service (service_uuid : list Z) (error : option (list Z))
| did_start_advertising (error : option (list Z))
| is_ready_to_update_subscribers
| did_receive_read_request (request : CBATTRequest.t)
| did_receive_write_requests (requests : list CBATTRequest.t).
End PeripheralManagerCallback.

Module CBATTError.
Inductive t := Success | InvalidOffset | AttributeNotFound | UnlikelyError.
#[global] Instance att_error_eq_dec : EqDecision t.
Proof. solve_decision. Defined.
End CBATTError.
(** [respondToRequest_withResult], with the value set on the request. *)
Module Response.
Record t := mk { request : CBATTRequest.t; value : option (list Z); result : CBATTError.t }.
End Response.

(** ** The delegates *)

(** The loss of an event that finds the channel full is ignored everywhere. *)

Module RustCentralManagerDelegate.
Section delegate.
Context {C : Type → Type} `{!Channel C} `{UuidText}.

Record t := mk { event_tx : C CentralEvent.t; peripherals : gset (list Z) }.
Definition new (event_tx : C CentralEvent.t) : t := mk event_tx ∅.

Definition send (self : t) (event : CentralEvent.t) : t :=
  mk (try_send (event_tx self) event) (peripherals self).

Definition get_peripheral (self : t) (identifier : list Z) : option (list Z) :=
  if bool_decide (identifier ∈ peripherals self) then Some identifier else None.
Definition remove_peripheral (self : t) (identifier : list Z) : t * option (list Z) :=
  (mk (event_tx self) (peripherals self ∖ {[identifier]}), get_peripheral self identifier).

Definition parse_service_uuids (uuids : option (list (list Z))) : list (list Z) :=
  match uuids with Some uuids => uuids | None => [] end.

Definition has_peat_service (service_uuids : list (list Z)) : bool :=
  existsb (λ uuid,
    let upper := to_uppercase uuid in
    bool_decide (upper = to_uppercase (uuid_text PEAT_SERVICE_UUID))
    || bool_decide (upper = str "0000F47A-0000-1000-8000-00805F9B34FB"%string)
    || bool_decide (upper = str "F47A"%string)) service_uuids.
Definition name_indicates_peat (name : option (list Z)) : bool :=
  match name with
  | Some n => bool_decide (is_Some (strip_prefix (str "PEAT_"%string) n))
              || bool_decide (is_Some (strip_prefix (str "PEAT-"%string) n))
  | None => false
  end.

(** The number of [NSNumber::as_i8] is taken modulo 256. *)
Definition did_discover_peripheral (self : t) (identifier : list Z) (name : option (list Z))
    (uuids : option (list (list Z))) (rssi : Z) : t :=
  let rssi_val := to_i8 (wrap 8 rssi) in
  let service_uuids := parse_service_uuids uuids in
  let is_peat_node := has_peat_service service_uuids || name_indicates_peat name in
  let node_id := (name ≫= MeshConfig.parse_device_name) ≫= λ p, Some p.2 in
  send (mk (event_tx self) ({[identifier]} ∪ peripherals self))
    (CentralEvent.DiscoveredPeripheral identifier name rssi_val [] service_uuids is_peat_node node_id).

Definition on_callback (self : t) (callback : CentralCallback.t) : t :=
  match callback with
  | CentralCallback.did_update_state raw =>
      send self (CentralEvent.StateChanged (CentralState.from_raw raw))
  | CentralCallback.did_discover_peripheral identifier name uuids rssi =>
      did_discover_peripheral self identifier name uuids rssi
  | CentralCallback.did_connect_peripheral identifier =>
      send self (CentralEvent.Connected identifier)
  | CentralCallback.did_disconnect_peripheral identifier error =>
      send self (CentralEvent.Disconnected identifier error)
  | CentralCallback.did_fail_to_connect_peripheral identifier error =>
      send self (CentralEvent.ConnectionFailed identifier
                   (default (str "Unknown error"%string) error))
  end.

End delegate.
Arguments t : clear implicits.
End RustCentralManagerDelegate.

Module RustPeripheralDelegate.
Definition event_of (callback : PeripheralCallback.t) : PeripheralEvent.t :=
  match callback with
  | PeripheralCallback.did_discover_services identifier error =>
      PeripheralEvent.ServicesDiscovered identifier error
  | PeripheralCallback.did_discover_characteristics_for_service identifier service_uuid error =>
      PeripheralEvent.CharacteristicsDiscovered identifier service_uuid error
  | PeripheralCallback.did_update_value_for_characteristic identifier uuid value error =>
      PeripheralEvent.CharacteristicValueUpdated identifier uuid (default [] value) error
  | PeripheralCallback.did_write_value_for_characteristic identifier uuid error =>
      PeripheralEvent.CharacteristicWritten identifier uuid error
  | PeripheralCallback.did_update_notification_state_for_characteristic identifier uuid enabled error =>
      PeripheralEvent.NotificationStateChanged identifier uuid enabled error
  | PeripheralCallback.did_read_rssi identifier rssi error =>
      PeripheralEvent.RssiRead identifier (to_i8 (wrap 8 rssi)) error
  end.
Definition on_callback `{Channel C} (event_tx : C PeripheralEvent.t) (callback : PeripheralCallback.t)
    : C PeripheralEvent.t := try_send event_tx (event_of callback).
End RustPeripheralDelegate.

(** A value of which [value] is written at [offset] > 0: cut, or filled up with
    zeros, to the offset. *)
Definition write_at (entry : list Z) (offset : Z) (value : list Z) : list Z :=
  if offset <=? zlen entry then ztake offset entry ++ value
  else entry ++ replicate (Z.to_nat (offset - zlen entry)) 0 ++ value.

Module RustPeripheralManagerDelegate.
Section delegate.
Context {C : Type → Type} `{!Channel C}.

Record t := mk {
  event_tx : C PeripheralManagerEvent.t; characteristic_values : gmap (list Z) (list Z)
}.
Definition new (event_tx : C PeripheralManagerEvent.t) : t := mk event_tx ∅.
Definition send (self : t) (event : PeripheralManagerEvent.t) : t :=
  mk (try_send (event_tx self) event) (characteristic_values self).

Definition set_characteristic_value (self : t) (characteristic_uuid value : list Z) : t :=
  mk (event_tx self) (<[characteristic_uuid := value]> (characteristic_values self)).
Definition get_characteristic_value (self : t) (characteristic_uuid : list Z) : option (list Z) :=
  characteristic_values self !! characteristic_uuid.

(** [&value[offset..]] panics past the end. *)
Definition did_receive_read_request (self : t) (request : CBATTRequest.t)
    : outcome (t * list Response.t) :=
  let characteristic_uuid := CBATTRequest.characteristic request in
  let offset := CBATTRequest.offset request in
  let! response :=
    match characteristic_values self !! characteristic_uuid with
    | Some value =>
        if offset <=? zlen value then
          let! response_data := slice_from value offset in
          Ok (Response.mk request (Some response_data) CBATTError.Success)
        else Ok (Response.mk request None CBATTError.InvalidOffset)
    | None => Ok (Response.mk request None CBATTError.AttributeNotFound)
    end in
  Ok (send self (PeripheralManagerEvent.ReadRequest 0 (CBATTRequest.central request)
                   characteristic_uuid offset), [response]).

Definition store (self : t) (characteristic_uuid : list Z) (offset : Z) (value : list Z) : t :=
  set_characteristic_value self characteristic_uuid
    (if offset =? 0 then value
     else write_at (default [] (characteristic_values self !! characteristic_uuid)) offset value).
Definition write_request (self : t) (i : Z) (request : CBATTRequest.t) : t :=
  let value := default [] (CBATTRequest.value request) in
  let uuid := CBATTRequest.characteristic request in
  let offset := CBATTRequest.offset request in
  send (store self uuid offset value)
    (PeripheralManagerEvent.WriteRequest i (CBATTRequest.central request) uuid value offset true).
Fixpoint write_requests (self : t) (i : Z) (requests : list CBATTRequest.t) : t :=
  match requests with
  | [] => self
  | request :: requests => write_requests (write_request self i request) (i + 1) requests
  end.
Definition did_receive_write_requests (self : t) (requests : list CBATTRequest.t)
    : t * list Response.t :=
  (write_requests self 0 requests,
   match requests with
   | [] => []
   | request :: _ => [Response.mk request None CBATTError.Success]
   end).

Definition on_callback (self : t) (callback : PeripheralManagerCallback.t)
    : outcome (t * list Response.t) :=
  match callback with
  | PeripheralManagerCallback.did_update_state raw =>
      Ok (send self (PeripheralManagerEvent.StateChanged (CentralState.from_raw raw)), [])
  | PeripheralManagerCallback.did_add_service service_uuid error =>
      Ok (send self (PeripheralManagerEvent.ServiceAdded service_uuid error), [])
  | PeripheralManagerCallback.did_start_advertising error =>
      Ok (send self (PeripheralManagerEvent.AdvertisingStarted error), [])
  | PeripheralManagerCallback.is_ready_to_update_subscribers =>
      Ok (send self PeripheralManagerEvent.ReadyToUpdateSubscribers, [])
  | PeripheralManagerCallback.did_receive_read_request request =>
      did_receive_read_request self request
  | PeripheralManagerCallback.did_receive_write_requests requests =>
      Ok (did_receive_write_requests self requests)
  end.

End delegate.
Arguments t : clear implicits.
End RustPeripheralManagerDelegate.

(** * Theorems *)

Module DelegateProofs.
Section channel.
Context {C : Type → Type} `{ChannelLaws C} {A : Type}.
Implicit Types (c : C A).

Definition within c (n : Z) : Prop := room c = n ∧ zlen (queued c) ≤ n.

Lemma within_new n : 0 < n → within (channel n) n ∧ queued (A := A) (channel n) = [].
Proof. intros Hn. destruct (queued_channel (A := A) n Hn) as [Hq Hr]. unfold within. rewrite Hq. split_and!; [done|len|done]. Qed.
Lemma within_send c x n : within c n → within (try_send c x) n.
Proof.
  intros [Hr Hl]. destruct (queued_send c x) as [Hq Hr']. split; [congruence|].
  rewrite Hq, Hr. destruct (Z.ltb_spec (zlen (queued c)) n); len.
Qed.
Lemma send_fits c x n : within c n → zlen (queued c) < n → queued (try_send c x) = queued c ++ [x].
Proof.
  intros [Hr _] Hl. destruct (queued_send c x) as [-> _]. rewrite Hr.
  by rewrite (proj2 (Z.ltb_lt _ _) Hl).
Qed.
Lemma send_from c x y : y ∈ queued (try_send c x) → y ∈ queued c ∨ y = x.
Proof.
  destruct (queued_send c x) as [-> _]. destruct (_ <? _); [|by left].
  rewrite elem_of_app, list_elem_of_singleton. tauto.
Qed.
Lemma recv_empty c n : within c n → queued c = [] →
  ∃ c', try_recv c = (c', None) ∧ within c' n ∧ queued c' = [].
Proof.
  intros [Hr Hl] Hq. destruct (queued_recv c) as (E & Ht & Hr'). rewrite Hq in E, Ht.
  destruct (try_recv c) as [c' o]. cbn in *. subst o. exists c'. unfold within. rewrite Ht. split_and!; [done|congruence|len|done].
Qed.
Lemma recv_next c n x q : within c n → queued c = x :: q →
  ∃ c', try_recv c = (c', Some x) ∧ within c' n ∧ queued c' = q.
Proof.
  intros [Hr Hl] Hq. destruct (queued_recv c) as (E & Ht & Hr'). rewrite Hq in E, Ht, Hl.
  destruct (try_recv c) as [c' o]. cbn in *. subst o. exists c'. unfold within. rewrite Ht. split_and!; [done|congruence|len|done].
Qed.
End channel.

(** *** A channel made of a list. *)

Definition list_channel (A : Type) : Type := list A * Z.
#[export] Instance list_is_channel : Channel list_channel := {
  channel _ n := ([], n);
  try_send _ c x := (if zlen c.1 <? c.2 then c.1 ++ [x] else c.1, c.2);
  try_recv _ c := ((tail c.1, c.2), head c.1)
}.
#[export] Program Instance list_channel_laws : ChannelLaws list_channel := {
  queued _ c := c.1; room _ c := c.2
}.
Solve All Obligations with done.

(** The hyphenated text of a UUID. *)
#[export] Instance hyphenated : UuidText := λ uuid,
  let hex := flat_map (λ b, map (λ d, if d <? 10 then 48 + d else 87 + d) [b / 16; b mod 16]) in
  hex (take 4 uuid) ++ [45] ++ hex (take 2 (drop 4 uuid)) ++ [45] ++ hex (take 2 (drop 6 uuid))
  ++ [45] ++ hex (take 2 (drop 8 uuid)) ++ [45] ++ hex (drop 10 uuid).

(** *** The central delegate *)

Section central.
Context {C : Type → Type} `{ChannelLaws C} `{UuidText}.
Import RustCentralManagerDelegate.
Implicit Types (d : t C).

(** The event a call of CoreBluetooth is turned into, and whom it makes known. *)
Definition event_of (callback : CentralCallback.t) : CentralEvent.t :=
  match callback with
  | CentralCallback.did_update_state raw => CentralEvent.StateChanged (CentralState.from_raw raw)
  | CentralCallback.did_discover_peripheral identifier name uuids rssi =>
      CentralEvent.DiscoveredPeripheral identifier name (to_i8 (wrap 8 rssi)) []
        (parse_service_uuids uuids)
        (has_peat_service (parse_service_uuids uuids) || name_indicates_peat name)
        ((name ≫= MeshConfig.parse_device_name) ≫= λ p, Some p.2)
  | CentralCallback.did_connect_peripheral identifier => CentralEvent.Connected identifier
  | CentralCallback.did_disconnect_peripheral identifier error =>
      CentralEvent.Disconnected identifier error
  | CentralCallback.did_fail_to_connect_peripheral identifier error =>
      CentralEvent.ConnectionFailed identifier (default (str "Unknown error"%string) error)
  end.
Definition found (callback : CentralCallback.t) : gset (list Z) :=
  match callback with
  | CentralCallback.did_discover_peripheral identifier _ _ _ => {[identifier]}
  | _ => ∅
  end.
Lemma on_callback_event d callback :
  event_tx (on_callback d callback) = try_send (event_tx d) (event_of callback)
  ∧ peripherals (on_callback d callback) = found callback ∪ peripherals d.
Proof. destruct callback; (split; [done|]); cbn; set_solver. Qed.

(** What is queued tells only of peripherals that are known. *)
Definition told_known d : Prop :=
  within (event_tx d) CHANNEL_CAPACITY
  ∧ ∀ i name rssi data uuids peat n,
      CentralEvent.DiscoveredPeripheral i name rssi data uuids peat n ∈ queued (event_tx d) →
      i ∈ peripherals d.
Lemma told_known_callback d callback : told_known d → told_known (on_callback d callback).
Proof.
  intros [Hw Hk]. destruct (on_callback_event d callback) as [Ee Ep]. split.
  - rewrite Ee. by apply within_send.
  - intros i name rssi data uuids peat n. rewrite Ee, Ep. intros [Hin|E]%send_from.
    + apply elem_of_union_r. by eapply Hk.
    + apply elem_of_union_l. destruct callback; cbn in E; try discriminate. cbn.
      injection E as <- _ _ _ _ _ _. set_solver.
Qed.
Lemma deliver_known cs : ∀ d, told_known d → told_known (foldl on_callback d cs).
Proof. induction cs as [|c cs IH]; intros d Hd; [done|]. by apply IH, told_known_callback. Qed.
Lemma deliver_grows cs : ∀ d, peripherals d ⊆ peripherals (foldl on_callback d cs).
Proof.
  induction cs as [|c cs IH]; intros d; [done|]. cbn [foldl]. etrans; [|apply IH].
  destruct (on_callback_event d c) as [_ ->]. set_solver.
Qed.
Lemma deliver_fits cs : ∀ d, within (event_tx d) CHANNEL_CAPACITY →
  zlen (queued (event_tx d)) + zlen cs ≤ CHANNEL_CAPACITY →
  queued (event_tx (foldl on_callback d cs)) = queued (event_tx d) ++ map event_of cs.
Proof.
  induction cs as [|c cs IH]; intros d Hw Hl; [cbn; by rewrite app_nil_r|]. cbn [foldl map].
  destruct (on_callback_event d c) as [Ee _].
  assert (queued (event_tx (on_callback d c)) = queued (event_tx d) ++ [event_of c]) as Eq
    by (rewrite Ee; apply (send_fits _ _ _ Hw); len).
  rewrite IH, Eq; [by rewrite <-app_assoc|rewrite Ee; by apply within_send|rewrite Eq; len].
Qed.

End central.
End DelegateProofs.
