(* ===== verification/AppleManagers.v ===== *)
(** * The managers of src/src/platform/apple/central.rs (scanning and
    connecting) and src/src/platform/apple/peripheral.rs (advertising and
    hosting the GATT service).

    The objects of CoreBluetooth behind a manager are the lists [issued] of the
    calls made on them, oldest first.  What a call of [process_events] lets the
    run loop deliver to the delegate is its argument, and so is what the system
    knows of the services of a peripheral. *)

From Stdlib Require Import String.
From stdpp Require Import base numbers list gmap sets.
From S2P Require Import Prelude Crypto Config GattService Ble AppleDelegates.
Open Scope Z_scope.
Open Scope peat_scope.

Definition unknown_peripheral (identifier : list Z) : BleError.t :=
  BleError.ConnectionFailed (str "Unknown peripheral: "%string ++ identifier).

(** What a manager in a state is told to its user; [None]: not decided yet. *)
Definition ready (state : CentralState.t) : option (result unit BleError.t) :=
  match state with
  | CentralState.PoweredOn => Some (Okay tt)
  | CentralState.Unsupported =>
      Some (Err (BleError.NotSupported (str "Bluetooth not supported"%string)))
  | CentralState.Unauthorized =>
      Some (Err (BleError.PlatformError (str "Bluetooth not authorized"%string)))
  | CentralState.PoweredOff =>
      Some (Err (BleError.PlatformError (str "Bluetooth is powered off"%string)))
  | CentralState.Unknown | CentralState.Resetting => None
  end.

(** ** The central role *)

(** A service of a connected peripheral, as the system reports it. *)
Module CBService.
Record t := mk { UUID : list Z; characteristics : option (list (list Z)) }.
End CBService.

(** Calls on [CBCentralManager] and on [CBPeripheral]s. *)
Module CentralCommand.
Inductive t :=
| scanForPeripherals (services : option (list (list Z))) | stopScan
| connectPeripheral (identifier : list Z) | cancelPeripheralConnection (identifier : list Z)
| setDelegate (identifier : list Z)
| discoverServices (identifier : list Z) (services : option (list (list Z)))
| discoverCharacteristics (identifier : list Z) (characteristics : option (list (list Z)))
    (service : list Z)
| readValue (identifier service characteristic : list Z)
| writeValue (identifier service characteristic data : list Z) (write_type : Z)
| setNotifyValue (identifier service characteristic : list Z) (enabled : bool)
| readRSSI (identifier : list Z).
End CentralCommand.

Module PeripheralInfo.
Record t := mk {
  identifier : list Z; name : option (list Z); rssi : Z; is_peat_node : bool; node_id : option Z;
  connected : bool
}.
Definition set_connected (self : t) (connected : bool) : t :=
  mk (identifier self) (name self) (rssi self) (is_peat_node self) (node_id self) connected.
End PeripheralInfo.

(** The nested loops over services and characteristics: the first
    characteristic that matches in a service that matches. *)
Fixpoint find_characteristic (service char : list Z → bool) (services : list CBService.t)
    : option (list Z * list Z) :=
  match services with
  | [] => None
  | s :: services =>
      match (if service (to_uppercase (CBService.UUID s))
             then CBService.characteristics s ≫= List.find (λ c, char (to_uppercase c)) else None) with
      | Some c => Some (CBService.UUID s, c)
      | None => find_characteristic service char services
      end
  end.
Definition same (target uuid : list Z) : bool := bool_decide (uuid = target).
Definition same_or_contains (target uuid : list Z) : bool := same target uuid || contains uuid target.

Module CentralManager.
Section central.
Context {C : Type → Type} `{!Channel C} `{UuidText} `{!MapOrder (list Z)}.
(** [peripheral.services()] *)
Context (cb_services : list Z → option (list CBService.t)).

(** The delegate holds the sending and the manager the receiving end of the
    channel of events; it is kept in the delegate. *)
Record t := mk {
  issued : list CentralCommand.t; delegate : RustCentralManagerDelegate.t C;
  state : CentralState.t; peripherals : gmap (list Z) PeripheralInfo.t; scanning : bool;
  peripheral_delegates : gset (list Z); peripheral_events : C PeripheralEvent.t
}.
Definition new : t :=
  mk [] (RustCentralManagerDelegate.new (channel CHANNEL_CAPACITY)) CentralState.Unknown ∅ false ∅
    (channel CHANNEL_CAPACITY).

Definition issue (self : t) (command : CentralCommand.t) : t :=
  mk (issued self ++ [command]) (delegate self) (state self) (peripherals self) (scanning self)
    (peripheral_delegates self) (peripheral_events self).
Definition set_delegate (self : t) (d : RustCentralManagerDelegate.t C) : t :=
  mk (issued self) d (state self) (peripherals self) (scanning self) (peripheral_delegates self)
    (peripheral_events self).
Definition set_state (self : t) (s : CentralState.t) : t :=
  mk (issued self) (delegate self) s (peripherals self) (scanning self) (peripheral_delegates self)
    (peripheral_events self).
Definition set_peripherals (self : t) (ps : gmap (list Z) PeripheralInfo.t) : t :=
  mk (issued self) (delegate self) (state self) ps (scanning self) (peripheral_delegates self)
    (peripheral_events self).
Definition set_scanning (self : t) (b : bool) : t :=
  mk (issued self) (delegate self) (state self) (peripherals self) b (peripheral_delegates self)
    (peripheral_events self).
Definition set_peripheral_delegates (self : t) (ds : gset (list Z)) : t :=
  mk (issued self) (delegate self) (state self) (peripherals self) (scanning self) ds
    (peripheral_events self).
Definition set_peripheral_events (self : t) (c : C PeripheralEvent.t) : t :=
  mk (issued self) (delegate self) (state self) (peripherals self) (scanning self)
    (peripheral_delegates self) c.

Definition start_scan (self : t) (_config : DiscoveryConfig.t) (service_uuids : option (list (list Z)))
    : t * result unit BleError.t :=
  (set_scanning (issue self (CentralCommand.scanForPeripherals service_uuids)) true, Okay tt).
Definition stop_scan (self : t) : t * result unit BleError.t :=
  (set_scanning (issue self CentralCommand.stopScan) false, Okay tt).
Definition is_scanning (self : t) : bool := scanning self.

Definition get_cb_peripheral (self : t) (identifier : list Z) : option (list Z) :=
  RustCentralManagerDelegate.get_peripheral (delegate self) identifier.
Definition connect (self : t) (identifier : list Z) : t * result unit BleError.t :=
  match get_cb_peripheral self identifier with
  | None => (self, Err (unknown_peripheral identifier))
  | Some peripheral => (issue self (CentralCommand.connectPeripheral peripheral), Okay tt)
  end.
Definition disconnect (self : t) (identifier : list Z) : t * result unit BleError.t :=
  (match get_cb_peripheral self identifier with
   | Some peripheral => issue self (CentralCommand.cancelPeripheralConnection peripheral)
   | None => self
   end, Okay tt).

Definition discover_services (self : t) (identifier : list Z) (service_uuids : option (list (list Z)))
    : t * result unit BleError.t :=
  match get_cb_peripheral self identifier with
  | None => (self, Err (unknown_peripheral identifier))
  | Some peripheral => (issue self (CentralCommand.discoverServices peripheral service_uuids), Okay tt)
  end.
Definition discover_characteristics (self : t) (identifier service_uuid : list Z)
    : t * result unit BleError.t :=
  match get_cb_peripheral self identifier with
  | None => (self, Err (unknown_peripheral identifier))
  | Some peripheral =>
      match List.find (λ s, same (to_uppercase service_uuid) (to_uppercase (CBService.UUID s)))
              (default [] (cb_services peripheral)) with
      | Some service =>
          (issue self (CentralCommand.discoverCharacteristics peripheral None (CBService.UUID service)),
           Okay tt)
      | None => (self, Err (BleError.ConnectionFailed (str "Service "%string ++ service_uuid
                  ++ str " not found on "%string ++ identifier)))
      end
  end.
Definition characteristic_not_found (characteristic_uuid : list Z) : BleError.t :=
  BleError.ConnectionFailed (str "Characteristic "%string ++ characteristic_uuid
                             ++ str " not found"%string).
Definition read_characteristic (self : t) (identifier service_uuid characteristic_uuid : list Z)
    : t * result unit BleError.t :=
  match get_cb_peripheral self identifier with
  | None => (self, Err (unknown_peripheral identifier))
  | Some peripheral =>
      match find_characteristic (same_or_contains (to_uppercase service_uuid))
              (same_or_contains (to_uppercase characteristic_uuid))
              (default [] (cb_services peripheral)) with
      | Some (service, characteristic) =>
          (issue self (CentralCommand.readValue peripheral service characteristic), Okay tt)
      | None => (self, Err (characteristic_not_found characteristic_uuid))
      end
  end.
Definition write_characteristic (self : t)
    (identifier service_uuid characteristic_uuid data : list Z) (with_response : bool)
    : t * result unit BleError.t :=
  match get_cb_peripheral self identifier with
  | None => (self, Err (unknown_peripheral identifier))
  | Some peripheral =>
      match find_characteristic (same (to_uppercase service_uuid))
              (same (to_uppercase characteristic_uuid)) (default [] (cb_services peripheral)) with
      | Some (service, characteristic) =>
          let write_type := if with_response then 0 else 1 in
          (issue self (CentralCommand.writeValue peripheral service characteristic data write_type),
           Okay tt)
      | None => (self, Err (characteristic_not_found characteristic_uuid))
      end
  end.

Definition try_recv_peripheral_event (self : t) : t * option PeripheralEvent.t :=
  let '(rx, event) := try_recv (peripheral_events self) in (set_peripheral_events self rx, event).
Definition setup_peripheral_delegate (self : t) (identifier : list Z) : t * result unit BleError.t :=
  match get_cb_peripheral self identifier with
  | None => (self, Err (unknown_peripheral identifier))
  | Some peripheral =>
      let self := issue self (CentralCommand.setDelegate peripheral) in
      (set_peripheral_delegates self ({[identifier]} ∪ peripheral_delegates self), Okay tt)
  end.
(** A peripheral calls the delegate that was set on it. *)
Definition on_peripheral_callback (self : t) (callback : PeripheralCallback.t) : t :=
  if bool_decide (PeripheralCallback.identifier callback ∈ peripheral_delegates self)
  then set_peripheral_events self
         (RustPeripheralDelegate.on_callback (peripheral_events self) callback)
  else self.

Definition get_peripheral (self : t) (identifier : list Z) : option PeripheralInfo.t :=
  peripherals self !! identifier.
Definition get_discovered_peripherals (self : t) : list PeripheralInfo.t :=
  (map_iter (peripherals self)).*2.
Definition get_peat_peripherals (self : t) : list PeripheralInfo.t :=
  filter (λ p, PeripheralInfo.is_peat_node p = true) (map_iter (peripherals self)).*2.

(** [if let Some(p) = peripherals.get_mut(&identifier) { p.connected = connected }] *)
Definition mark_connected (self : t) (identifier : list Z) (connected : bool) : t :=
  set_peripherals self
    (alter (λ p, PeripheralInfo.set_connected p connected) identifier (peripherals self)).
Definition handle_event (self : t) (event : CentralEvent.t) : t :=
  match event with
  | CentralEvent.StateChanged state => set_state self state
  | CentralEvent.DiscoveredPeripheral identifier name rssi _ _ is_peat_node node_id =>
      set_peripherals self
        (<[identifier := PeripheralInfo.mk identifier name rssi is_peat_node node_id false]>
           (peripherals self))
  | CentralEvent.Connected identifier =>
      mark_connected (setup_peripheral_delegate self identifier).1 identifier true
  | CentralEvent.Disconnected identifier _ => mark_connected self identifier false
  | CentralEvent.ConnectionFailed _ _ => self
  end.
(** The loop takes what is queued: at most the capacity of the channel. *)
Fixpoint drain (fuel : nat) (self : t) : t :=
  match fuel with
  | O => self
  | S fuel =>
      let d := delegate self in
      let '(rx, event) := try_recv (RustCentralManagerDelegate.event_tx d) in
      let self := set_delegate self
        (RustCentralManagerDelegate.mk rx (RustCentralManagerDelegate.peripherals d)) in
      match event with
      | Some event => drain fuel (handle_event self event)
      | None => self
      end
  end.
Definition deliver (self : t) (callbacks : list CentralCallback.t) : t :=
  set_delegate self (foldl RustCentralManagerDelegate.on_callback (delegate self) callbacks).
Definition process_events (self : t) (callbacks : list CentralCallback.t) : t :=
  drain (Z.to_nat CHANNEL_CAPACITY) (deliver self callbacks).
(** The loop ends as soon as the state is decided; [rounds] is what is
    delivered in each of its rounds, and [None] that it is still waiting. *)
Fixpoint wait_ready (self : t) (rounds : list (list CentralCallback.t))
    : t * option (result unit BleError.t) :=
  match rounds with
  | [] => (self, None)
  | callbacks :: rounds =>
      let self := process_events self callbacks in
      match ready (state self) with
      | Some r => (self, Some r)
      | None => wait_ready self rounds
      end
  end.

End central.
Arguments t : clear implicits.
End CentralManager.

(** ** The peripheral role *)

Module CharacteristicPropertiesFlags.
Record t := mk {
  read : bool; write : bool; write_without_response : bool; notify : bool; indicate : bool
}.
Definition readable : t := mk true false false false false.
Definition writable : t := mk false true false false false.
Definition notify_only : t := mk false false false true false.
Definition read_write_notify : t := mk true true false true false.
End CharacteristicPropertiesFlags.
(** The flags of [CBCharacteristicProperties] and [CBAttributePermissions]. *)
Module CBProperty.
Inductive t := Read | Write | WriteWithoutResponse | Notify | Indicate.
End CBProperty.
Module CBPermission.
Inductive t := Readable | Writeable.
End CBPermission.
Definition to_cb_properties (self : CharacteristicPropertiesFlags.t) : list CBProperty.t :=
  (if CharacteristicPropertiesFlags.read self then [CBProperty.Read] else [])
  ++ (if CharacteristicPropertiesFlags.write self then [CBProperty.Write] else [])
  ++ (if CharacteristicPropertiesFlags.write_without_response self
      then [CBProperty.WriteWithoutResponse] else [])
  ++ (if CharacteristicPropertiesFlags.notify self then [CBProperty.Notify] else [])
  ++ (if CharacteristicPropertiesFlags.indicate self then [CBProperty.Indicate] else []).

Module CharacteristicInfo.
Record t := mk { uuid : list Z; properties : CharacteristicPropertiesFlags.t; value : list Z }.
End CharacteristicInfo.
Module ServiceInfo.
Record t := mk { uuid : list Z; is_primary : bool; characteristics : list CharacteristicInfo.t }.
End ServiceInfo.
Module CBMutableCharacteristic.
Record t := mk {
  uuid : list Z; properties : list CBProperty.t; value : option (list Z);
  permissions : list CBPermission.t
}.
End CBMutableCharacteristic.
Module CBMutableService.
Record t := mk { uuid : list Z; primary : bool; characteristics : list CBMutableCharacteristic.t }.
End CBMutableService.

(** Calls on [CBPeripheralManager]. *)
Module PeripheralCommand.
Inductive t :=
| addService (service : CBMutableService.t) | removeAllServices
| startAdvertising (local_name : list Z) (service_uuids : list (list Z)) | stopAdvertising
| updateValue (characteristic : CBMutableCharacteristic.t) (data : list Z)
| respondToRequest (response : Response.t).
End PeripheralCommand.

Module PeripheralManager.
Section peripheral.
Context {C : Type → Type} `{!Channel C} `{UuidText}.

Record t := mk {
  issued : list PeripheralCommand.t; delegate : RustPeripheralManagerDelegate.t C;
  state : CentralState.t; advertising : bool; services : gmap (list Z) ServiceInfo.t;
  subscribers : gmap (list Z) (list (list Z));
  characteristics : gmap (list Z) CBMutableCharacteristic.t; cb_services : list CBMutableService.t
}.
Definition new : t :=
  mk [] (RustPeripheralManagerDelegate.new (channel CHANNEL_CAPACITY)) CentralState.Unknown false
    ∅ ∅ ∅ [].

Definition issue (self : t) (commands : list PeripheralCommand.t) : t :=
  mk (issued self ++ commands) (delegate self) (state self) (advertising self) (services self)
    (subscribers self) (characteristics self) (cb_services self).
Definition set_delegate (self : t) (d : RustPeripheralManagerDelegate.t C) : t :=
  mk (issued self) d (state self) (advertising self) (services self) (subscribers self)
    (characteristics self) (cb_services self).
Definition set_state (self : t) (s : CentralState.t) : t :=
  mk (issued self) (delegate self) s (advertising self) (services self) (subscribers self)
    (characteristics self) (cb_services self).
Definition set_advertising (self : t) (b : bool) : t :=
  mk (issued self) (delegate self) (state self) b (services self) (subscribers self)
    (characteristics self) (cb_services self).
Definition set_services (self : t) (ss : gmap (list Z) ServiceInfo.t) : t :=
  mk (issued self) (delegate self) (state self) (advertising self) ss (subscribers self)
    (characteristics self) (cb_services self).
Definition set_subscribers (self : t) (ss : gmap (list Z) (list (list Z))) : t :=
  mk (issued self) (delegate self) (state self) (advertising self) (services self) ss
    (characteristics self) (cb_services self).
Definition set_cb (self : t) (cs : gmap (list Z) CBMutableCharacteristic.t)
    (ss : list CBMutableService.t) : t :=
  mk (issued self) (delegate self) (state self) (advertising self) (services self)
    (subscribers self) cs ss.

Definition create_characteristic (uuid : list Z) (props : CharacteristicPropertiesFlags.t)
    (value : option (list Z)) : CBMutableCharacteristic.t :=
  CBMutableCharacteristic.mk uuid (to_cb_properties props) value
    ((if CharacteristicPropertiesFlags.read props then [CBPermission.Readable] else [])
     ++ (if CharacteristicPropertiesFlags.write props
            || CharacteristicPropertiesFlags.write_without_response props
         then [CBPermission.Writeable] else [])).

Definition read_notify : CharacteristicPropertiesFlags.t :=
  CharacteristicPropertiesFlags.mk true false false true false.
Definition NODE_INFO : list Z := str "0001"%string.
Definition SYNC_STATE : list Z := str "0002"%string.
Definition SYNC_DATA : list Z := str "0003"%string.
Definition COMMAND : list Z := str "0004"%string.
Definition STATUS : list Z := str "0005"%string.

(** [node_id.as_u32().to_le_bytes()] *)
Definition create_peat_characteristics (node_id : Z) : list CBMutableCharacteristic.t :=
  [create_characteristic NODE_INFO CharacteristicPropertiesFlags.readable (Some (le 4 node_id));
   create_characteristic SYNC_STATE CharacteristicPropertiesFlags.read_write_notify None;
   create_characteristic SYNC_DATA CharacteristicPropertiesFlags.read_write_notify None;
   create_characteristic COMMAND CharacteristicPropertiesFlags.writable None;
   create_characteristic STATUS read_notify None].
Definition service_info (node_id : Z) : ServiceInfo.t :=
  ServiceInfo.mk (uuid_text PEAT_SERVICE_UUID) true
    [CharacteristicInfo.mk NODE_INFO CharacteristicPropertiesFlags.readable (le 4 node_id);
     CharacteristicInfo.mk SYNC_STATE CharacteristicPropertiesFlags.read_write_notify [];
     CharacteristicInfo.mk SYNC_DATA CharacteristicPropertiesFlags.read_write_notify [];
     CharacteristicInfo.mk COMMAND CharacteristicPropertiesFlags.writable [];
     CharacteristicInfo.mk STATUS read_notify []].
Definition register_peat_service (self : t) (node_id : Z) : t * result unit BleError.t :=
  let cb_characteristics := create_peat_characteristics node_id in
  let service := CBMutableService.mk (uuid_text PEAT_SERVICE_UUID) true cb_characteristics in
  let self := set_cb self
    (foldl (λ m c, <[CBMutableCharacteristic.uuid c := c]> m) (characteristics self) cb_characteristics)
    (cb_services self) in
  let self := issue self [PeripheralCommand.addService service] in
  let self := set_cb self (characteristics self) (cb_services self ++ [service]) in
  let self := set_delegate self
    (RustPeripheralManagerDelegate.set_characteristic_value (delegate self) NODE_INFO (le 4 node_id)) in
  (set_services self (<[uuid_text PEAT_SERVICE_UUID := service_info node_id]> (services self)), Okay tt).
Definition unregister_all_services (self : t) : t * result unit BleError.t :=
  let self := issue self [PeripheralCommand.removeAllServices] in
  (set_cb (set_services self ∅) ∅ [], Okay tt).

Definition start_advertising (self : t) (node_id : Z) (_config : DiscoveryConfig.t)
    : t * result unit BleError.t :=
  let local_name := str "PEAT-"%string ++ hex8 node_id in
  let self := issue self [PeripheralCommand.startAdvertising local_name [uuid_text PEAT_SERVICE_UUID]] in
  (set_advertising self true, Okay tt).
Definition stop_advertising (self : t) : t * result unit BleError.t :=
  (set_advertising (issue self [PeripheralCommand.stopAdvertising]) false, Okay tt).

Definition set_characteristic_value (self : t) (characteristic_uuid value : list Z) : t :=
  set_delegate self
    (RustPeripheralManagerDelegate.set_characteristic_value (delegate self) characteristic_uuid value).
Definition get_characteristic_value (self : t) (characteristic_uuid : list Z) : option (list Z) :=
  RustPeripheralManagerDelegate.get_characteristic_value (delegate self) characteristic_uuid.
(** [accepted]: what [updateValue_forCharacteristic_onSubscribedCentrals] answers. *)
Definition send_notification (self : t) (accepted : bool) (characteristic_uuid value : list Z)
    : t * result bool BleError.t :=
  match characteristics self !! characteristic_uuid with
  | None => (self, Err (BleError.PlatformError
                (str "Unknown characteristic: "%string ++ characteristic_uuid)))
  | Some characteristic =>
      (issue self [PeripheralCommand.updateValue characteristic value], Okay accepted)
  end.
Definition get_subscribers (self : t) (characteristic_uuid : list Z) : list (list Z) :=
  default [] (subscribers self !! characteristic_uuid).

(** The inner loop of a write: the first characteristic with that UUID. *)
Fixpoint write_info (characteristic_uuid value : list Z) (offset : Z) (l : list CharacteristicInfo.t)
    : list CharacteristicInfo.t :=
  match l with
  | [] => []
  | c :: l =>
      if bool_decide (CharacteristicInfo.uuid c = characteristic_uuid)
      then CharacteristicInfo.mk (CharacteristicInfo.uuid c) (CharacteristicInfo.properties c)
             (if offset =? 0 then value else write_at (CharacteristicInfo.value c) offset value) :: l
      else c :: write_info characteristic_uuid value offset l
  end.
Definition handle_event (self : t) (event : PeripheralManagerEvent.t) : t :=
  match event with
  | PeripheralManagerEvent.StateChanged state => set_state self state
  | PeripheralManagerEvent.AdvertisingStarted (Some _) => set_advertising self false
  | PeripheralManagerEvent.CentralSubscribed central uuid =>
      set_subscribers self
        (<[uuid := default [] (subscribers self !! uuid) ++ [central]]> (subscribers self))
  | PeripheralManagerEvent.CentralUnsubscribed central uuid =>
      set_subscribers self (alter (filter (λ id, id ≠ central)) uuid (subscribers self))
  | PeripheralManagerEvent.WriteRequest _ _ uuid value offset _ =>
      set_services self
        ((λ s, ServiceInfo.mk (ServiceInfo.uuid s) (ServiceInfo.is_primary s)
                 (write_info uuid value offset (ServiceInfo.characteristics s))) <$> services self)
  | PeripheralManagerEvent.ServiceAdded _ _ | PeripheralManagerEvent.AdvertisingStarted None
  | PeripheralManagerEvent.ReadRequest _ _ _ _ | PeripheralManagerEvent.ReadyToUpdateSubscribers => self
  end.
Fixpoint drain (fuel : nat) (self : t) : t :=
  match fuel with
  | O => self
  | S fuel =>
      let d := delegate self in
      let '(rx, event) := try_recv (RustPeripheralManagerDelegate.event_tx d) in
      let self := set_delegate self (RustPeripheralManagerDelegate.mk rx
                    (RustPeripheralManagerDelegate.characteristic_values d)) in
      match event with
      | Some event => drain fuel (handle_event self event)
      | None => self
      end
  end.
Definition on_callback (self : t) (callback : PeripheralManagerCallback.t) : outcome t :=
  let! r := RustPeripheralManagerDelegate.on_callback (delegate self) callback in
  Ok (issue (set_delegate self r.1) (map PeripheralCommand.respondToRequest r.2)).
Fixpoint deliver (self : t) (callbacks : list PeripheralManagerCallback.t) : outcome t :=
  match callbacks with
  | [] => Ok self
  | callback :: callbacks => let! self := on_callback self callback in deliver self callbacks
  end.
Definition process_events (self : t) (callbacks : list PeripheralManagerCallback.t) : outcome t :=
  let! self := deliver self callbacks in Ok (drain (Z.to_nat CHANNEL_CAPACITY) self).
Fixpoint wait_ready (self : t) (rounds : list (list PeripheralManagerCallback.t))
    : outcome (t * option (result unit BleError.t)) :=
  match rounds with
  | [] => Ok (self, None)
  | callbacks :: rounds =>
      let! self := process_events self callbacks in
      match ready (state self) with
      | Some r => Ok (self, Some r)
      | None => wait_ready self rounds
      end
  end.

End peripheral.
Arguments t : clear implicits.
End PeripheralManager.

(** * Theorems *)

Module CentralProofs.
Import DelegateProofs CentralManager.
Section central.
Context {C : Type → Type} `{ChannelLaws C} `{UuidText} `{!MapOrder (list Z)}.
Implicit Types (m : t C) (rx : C CentralEvent.t).

Definition events m : list CentralEvent.t :=
  queued (RustCentralManagerDelegate.event_tx (delegate m)).
Definition known m : gset (list Z) := RustCentralManagerDelegate.peripherals (delegate m).
Definition set_rx m rx : t C :=
  set_delegate m (RustCentralManagerDelegate.mk rx (known m)).

Lemma handle_set_rx m rx e : handle_event (set_rx m rx) e = set_rx (handle_event m e) rx.
Proof.
  destruct m as [iss d st ps sc ds pe], e; try done. cbn. unfold setup_peripheral_delegate.
  unfold get_cb_peripheral, RustCentralManagerDelegate.get_peripheral, set_rx, known. cbn.
  by destruct (bool_decide _).
Qed.
Lemma handle_all_set_rx es : ∀ m rx,
  foldl handle_event (set_rx m rx) es = set_rx (foldl handle_event m es) rx.
Proof. induction es as [|e es IH]; intros m rx; [done|]. cbn [foldl]. by rewrite handle_set_rx, IH. Qed.
Lemma handle_delegate m e : delegate (handle_event m e) = delegate m.
Proof.
  destruct e; try done. cbn. unfold setup_peripheral_delegate.
  by destruct (get_cb_peripheral _ _).
Qed.
Lemma set_rx_twice m rx rx' : set_rx (set_rx m rx) rx' = set_rx m rx'.
Proof. done. Qed.

Lemma drain_handles fuel : ∀ m, zlen (events m) ≤ Z.of_nat fuel →
  within (RustCentralManagerDelegate.event_tx (delegate m)) CHANNEL_CAPACITY →
  ∃ rx, drain fuel m = set_rx (foldl handle_event m (events m)) rx
    ∧ within rx CHANNEL_CAPACITY ∧ queued rx = [].
Proof.
  induction fuel as [|fuel IH]; intros m Hl Hw.
  - exists (RustCentralManagerDelegate.event_tx (delegate m)).
    destruct (events m) as [|e q] eqn:E; [cbn|len].
    split_and!; [|done..]. by destruct m as [iss [tx ps'] st ps sc ds pe].
  - destruct (events m) as [|e q] eqn:E.
    + destruct (recv_empty _ _ Hw E) as (rx & Er & Hw' & Hq). exists rx. cbn [drain]. rewrite Er.
      by split_and!.
    + destruct (recv_next _ _ _ _ Hw E) as (rx & Er & Hw' & Hq). cbn [drain]. rewrite Er.
      fold (known m). fold (set_rx m rx).
      assert (events (handle_event (set_rx m rx) e) = q) as Eq
        by (unfold events; rewrite handle_delegate; exact Hq).
      destruct (IH (handle_event (set_rx m rx) e)) as (rx' & -> & Hw'' & Hq').
      { rewrite Eq. len. }
      { by rewrite handle_delegate. }
      exists rx'. split_and!; [|done..]. rewrite Eq, handle_set_rx, handle_all_set_rx. done.
Qed.

(** After [process_events] the manager has handled all that was queued and all
    that came, and the channel is empty. *)
Lemma process_events_handles m cs :
  within (RustCentralManagerDelegate.event_tx (delegate m)) CHANNEL_CAPACITY →
  ∃ rx, process_events m cs
      = set_rx (foldl handle_event (deliver m cs) (events (deliver m cs))) rx
    ∧ within rx CHANNEL_CAPACITY ∧ queued rx = [].
Proof.
  intros Hw. unfold process_events.
  assert (within (RustCentralManagerDelegate.event_tx (delegate (deliver m cs))) CHANNEL_CAPACITY) as Hw'.
  { unfold deliver, set_delegate. cbn. clear - Hw. revert Hw. generalize (delegate m) as d.
    induction cs as [|c cs IH]; intros d Hd; [done|]. cbn [foldl]. apply IH.
    destruct (on_callback_event d c) as [-> _]. by apply within_send. }
  apply drain_handles; [|done]. destruct Hw' as [_ Hl]. unfold events.
  change (Z.of_nat (Z.to_nat CHANNEL_CAPACITY)) with CHANNEL_CAPACITY. done.
Qed.

(** The invariant: what is listed or still queued can be connected to. *)
Definition central_ok m : Prop :=
  told_known (delegate m) ∧ dom (peripherals m) ⊆ known m.
Lemma central_ok_new : central_ok new.
Proof.
  destruct (within_new (C := C) (A := CentralEvent.t) CHANNEL_CAPACITY ltac:(done)) as [Hw Hq].
  split; [split|]; cbn; [done| |set_solver]. intros *. rewrite Hq. set_solver.
Qed.
Lemma central_ok_deliver m cs : central_ok m → central_ok (deliver m cs).
Proof.
  intros [Hd Hp]. split; [by apply deliver_known|]. cbn.
  etrans; [apply Hp|]. apply deliver_grows.
Qed.
Lemma handle_peripherals m e i : i ∈ dom (peripherals (handle_event m e)) →
  i ∈ dom (peripherals m)
  ∨ ∃ name rssi data uuids peat n, e = CentralEvent.DiscoveredPeripheral i name rssi data uuids peat n.
Proof.
  destruct e; cbn; try by left.
  - rewrite dom_insert, elem_of_union, elem_of_singleton. intros [->|]; [right; by eauto 7|by left].
  - unfold setup_peripheral_delegate. destruct (get_cb_peripheral _ _); cbn; rewrite dom_alter; by left.
  - rewrite dom_alter. by left.
Qed.
Lemma handle_all_peripherals es : ∀ m i, i ∈ dom (peripherals (foldl handle_event m es)) →
  i ∈ dom (peripherals m)
  ∨ ∃ name rssi data uuids peat n, CentralEvent.DiscoveredPeripheral i name rssi data uuids peat n ∈ es.
Proof.
  induction es as [|e es IH]; intros m i Hi; [by left|]. cbn [foldl] in Hi.
  destruct (IH _ _ Hi) as [Hm|(name & rssi & data & uuids & peat & n & Hin)].
  - destruct (handle_peripherals _ _ _ Hm) as [|(name & rssi & data & uuids & peat & n & ->)]; [by left|].
    right. exists name, rssi, data, uuids, peat, n. by left.
  - right. exists name, rssi, data, uuids, peat, n. by right.
Qed.
Lemma handle_all_delegate es m : delegate (foldl handle_event m es) = delegate m.
Proof. revert m. induction es as [|e es IH]; intros m; [done|]. cbn [foldl]. by rewrite IH, handle_delegate. Qed.
Lemma known_process_events m cs : known m ⊆ known (process_events m cs).
Proof.
  unfold process_events. assert (∀ fuel m', known (drain fuel m') = known m') as Hd.
  { induction fuel as [|fuel IH]; intros m'; [done|]. cbn [drain].
    destruct (try_recv _) as [rx [e|]]; [|done]. rewrite IH. unfold known.
    by rewrite handle_delegate. }
  rewrite Hd. apply deliver_grows.
Qed.
Lemma central_ok_process m cs :
  central_ok m → central_ok (process_events m cs) ∧ events (process_events m cs) = [].
Proof.
  intros Hm. pose proof (central_ok_deliver m cs Hm) as [[Hw Hk] Hp].
  destruct (process_events_handles m cs) as (rx & E & Hrx & Hq); [apply Hm|].
  rewrite E. split; [|done]. split; [split; [done|]|].
  - cbn. intros *. rewrite Hq. set_solver.
  - intros i Hi. cbn in Hi. unfold known, set_rx. cbn. unfold known. rewrite handle_all_delegate.
    apply handle_all_peripherals in Hi as [Hi|(name & rssi & data & uuids & peat & n & Hin)].
    + by apply Hp.
    + by eapply Hk.
Qed.
(** A method that leaves the delegate and the list alone. *)
Lemma central_ok_same m m' : delegate m' = delegate m → peripherals m' = peripherals m →
  central_ok m → central_ok m'.
Proof. intros Ed Ep. unfold central_ok, known. by rewrite Ed, Ep. Qed.

(** The last discovery of a peripheral is what is listed of it, connected or not. *)
Lemma handle_keeps m e i p : peripherals m !! i = Some p →
  (∀ name rssi data uuids peat n, e ≠ CentralEvent.DiscoveredPeripheral i name rssi data uuids peat n) →
  ∃ b, peripherals (handle_event m e) !! i = Some (PeripheralInfo.set_connected p b).
Proof.
  intros Hi Hne. assert (PeripheralInfo.set_connected p (PeripheralInfo.connected p) = p) as Hp
    by by destruct p.
  destruct e as [?|j name rssi data uuids peat n|j|j ?|? ?]; cbn; try by (eexists; rewrite Hi, Hp).
  - exists (PeripheralInfo.connected p). rewrite Hp, lookup_insert_ne; [done|]. intros ->. by eapply Hne.
  - unfold setup_peripheral_delegate.
    destruct (get_cb_peripheral _ _); cbn; (destruct (decide (j = i)) as [->|];
      [rewrite lookup_alter_eq, Hi; by eexists
      |rewrite lookup_alter_ne, Hi by done; exists (PeripheralInfo.connected p); by rewrite Hp]).
  - destruct (decide (j = i)) as [->|];
      [rewrite lookup_alter_eq, Hi; by eexists
      |rewrite lookup_alter_ne, Hi by done; exists (PeripheralInfo.connected p); by rewrite Hp].
Qed.
Lemma handle_all_keeps es : ∀ m i p, peripherals m !! i = Some p →
  (∀ name rssi data uuids peat n, CentralEvent.DiscoveredPeripheral i name rssi data uuids peat n ∉ es) →
  ∃ b, peripherals (foldl handle_event m es) !! i = Some (PeripheralInfo.set_connected p b).
Proof.
  induction es as [|e es IH]; intros m i p Hi Hne.
  - exists (PeripheralInfo.connected p). cbn [foldl]. rewrite Hi. by destruct p.
  - cbn [foldl]. destruct (handle_keeps m e i p Hi) as [b Hb].
    { intros name rssi data uuids peat n ->. eapply Hne. by left. }
    destruct (IH _ _ _ Hb) as [b' Hb'].
    { intros name rssi data uuids peat n Hin. eapply Hne. by right. }
    exists b'. by rewrite Hb'.
Qed.

(** Every peripheral is listed under its identifier. *)
Definition keyed m : Prop := map_Forall (λ i p, PeripheralInfo.identifier p = i) (peripherals m).
Lemma keyed_alter m b i ps : map_Forall (λ i p, PeripheralInfo.identifier p = i) ps →
  keyed (set_peripherals m (alter (λ p, PeripheralInfo.set_connected p b) i ps)).
Proof.
  intros Hk j p. cbn. intros Hj. destruct (decide (i = j)) as [->|Hne].
  - rewrite lookup_alter_eq in Hj. apply fmap_Some in Hj as (p' & Hp' & ->). exact (Hk _ _ Hp').
  - rewrite lookup_alter_ne in Hj by done. by apply Hk.
Qed.
Lemma handle_keyed m e : keyed m → keyed (handle_event m e).
Proof.
  intros Hk. destruct e as [st|i name rssi data uuids peat n|i|i err|i err]; try done.
  - by apply map_Forall_insert_2.
  - cbn. unfold setup_peripheral_delegate. destruct (get_cb_peripheral _ _); by apply keyed_alter.
  - by apply keyed_alter.
Qed.
Lemma process_keyed m cs : keyed m → keyed (process_events m cs).
Proof.
  intros Hk. unfold process_events. assert (keyed (deliver m cs)) as Hd by exact Hk. revert Hd.
  generalize (deliver m cs) as m'. induction (Z.to_nat CHANNEL_CAPACITY) as [|fuel IH]; intros m' Hm'; [done|].
  cbn [drain]. destruct (try_recv _) as [rx [e|]]; [|done]. by apply IH, handle_keyed.
Qed.

End central.
End CentralProofs.

(** *** The GATT server: two copies of every value, the one that is read in the
    delegate and the one in the description of the service. *)

Module ServerProofs.
Import DelegateProofs PeripheralManager.
Section server.
Context {C : Type → Type} `{ChannelLaws C} `{UuidText}.
Implicit Types (m : t C) (rx : C PeripheralManagerEvent.t) (l : list CharacteristicInfo.t).
Implicit Types (vals : gmap (list Z) (list Z)).

Definition events m : list PeripheralManagerEvent.t :=
  queued (RustPeripheralManagerDelegate.event_tx (delegate m)).
Definition values m : gmap (list Z) (list Z) :=
  RustPeripheralManagerDelegate.characteristic_values (delegate m).
Definition set_rx m rx : t C :=
  set_delegate m (RustPeripheralManagerDelegate.mk rx (values m)).

Lemma server_handle_set_rx m rx e : handle_event (set_rx m rx) e = set_rx (handle_event m e) rx.
Proof. by destruct m, e as [| |[]| | | | |]. Qed.
Lemma server_handle_all_set_rx es : ∀ m rx,
  foldl handle_event (set_rx m rx) es = set_rx (foldl handle_event m es) rx.
Proof. induction es as [|e es IH]; intros m rx; [done|]. cbn [foldl]. by rewrite server_handle_set_rx, IH. Qed.
Lemma server_handle_delegate m e : delegate (handle_event m e) = delegate m.
Proof. by destruct e as [| |[]| | | | |]. Qed.
Lemma server_handle_all_delegate es : ∀ m, delegate (foldl handle_event m es) = delegate m.
Proof. induction es as [|e es IH]; intros m; [done|]. cbn [foldl]. by rewrite IH, server_handle_delegate. Qed.

Lemma server_drain_handles fuel : ∀ m, zlen (events m) ≤ Z.of_nat fuel →
  within (RustPeripheralManagerDelegate.event_tx (delegate m)) CHANNEL_CAPACITY →
  ∃ rx, drain fuel m = set_rx (foldl handle_event m (events m)) rx
    ∧ within rx CHANNEL_CAPACITY ∧ queued rx = [].
Proof.
  induction fuel as [|fuel IH]; intros m Hl Hw.
  - exists (RustPeripheralManagerDelegate.event_tx (delegate m)).
    destruct (events m) as [|e q] eqn:E; [cbn|len].
    split_and!; [|done..]. by destruct m as [iss [tx vals] st ad ss sub cs cbs].
  - destruct (events m) as [|e q] eqn:E.
    + destruct (recv_empty _ _ Hw E) as (rx & Er & Hw' & Hq). exists rx. cbn [drain]. rewrite Er.
      by split_and!.
    + destruct (recv_next _ _ _ _ Hw E) as (rx & Er & Hw' & Hq). cbn [drain]. rewrite Er.
      fold (values m). fold (set_rx m rx).
      assert (events (handle_event (set_rx m rx) e) = q) as Eq
        by (unfold events; rewrite server_handle_delegate; exact Hq).
      destruct (IH (handle_event (set_rx m rx) e)) as (rx' & -> & Hw'' & Hq').
      { rewrite Eq. len. }
      { by rewrite server_handle_delegate. }
      exists rx'. split_and!; [|done..]. rewrite Eq, server_handle_set_rx, server_handle_all_set_rx. done.
Qed.

(** *** What is written, as a value of each characteristic *)

Definition written vals (r : CBATTRequest.t) : gmap (list Z) (list Z) :=
  let old := default [] (vals !! CBATTRequest.characteristic r) in
  let value := default [] (CBATTRequest.value r) in
  <[CBATTRequest.characteristic r :=
      ztake (CBATTRequest.offset r)
        (old ++ replicate (Z.to_nat (CBATTRequest.offset r - zlen old)) 0) ++ value]> vals.
Definition requests_of (c : PeripheralManagerCallback.t) : list CBATTRequest.t :=
  match c with PeripheralManagerCallback.did_receive_write_requests rs => rs | _ => [] end.
Definition request_ok (r : CBATTRequest.t) : Prop := 0 ≤ CBATTRequest.offset r.
Definition callback_ok (c : PeripheralManagerCallback.t) : Prop :=
  match c with
  | PeripheralManagerCallback.did_receive_read_request r => request_ok r
  | PeripheralManagerCallback.did_receive_write_requests rs => Forall request_ok rs
  | _ => True
  end.
(** How many events a call sends. *)
Definition weight (c : PeripheralManagerCallback.t) : Z :=
  match c with PeripheralManagerCallback.did_receive_write_requests rs => zlen rs | _ => 1 end.

(** Writing at an offset keeps what was before it, filled up with zeros. *)
Lemma write_at_spec old offset value : 0 ≤ offset →
  (if offset =? 0 then value else write_at old offset value)
  = ztake offset (old ++ replicate (Z.to_nat (offset - zlen old)) 0) ++ value.
Proof.
  intros Ho. unfold write_at, ztake. destruct (Z.eqb_spec offset 0) as [->|Hn]; [done|].
  destruct (Z.leb_spec offset (zlen old)).
  - rewrite take_app_le by lia. done.
  - rewrite take_app_ge, (take_ge (replicate _ _)) by (rewrite ?length_replicate; lia).
    by rewrite <-app_assoc.
Qed.

Definition agree l vals : Prop :=
  Forall (λ c, CharacteristicInfo.value c = default [] (vals !! CharacteristicInfo.uuid c)) l.
Lemma write_info_layout u v o l :
  map CharacteristicInfo.uuid (write_info u v o l) = map CharacteristicInfo.uuid l
  ∧ map CharacteristicInfo.properties (write_info u v o l) = map CharacteristicInfo.properties l.
Proof.
  induction l as [|c l [IHu IHp]]; [done|]. cbn [write_info].
  destruct (bool_decide _); cbn [map]; [done|]. by rewrite IHu, IHp.
Qed.
Lemma agree_other l vals u v : u ∉ map CharacteristicInfo.uuid l →
  agree l vals → agree l (<[u := v]> vals).
Proof.
  intros Hu Hl. apply Forall_forall. intros c Hc. rewrite lookup_insert_ne.
  - by eapply Forall_forall in Hl.
  - intros ->. apply Hu. by apply list_elem_of_fmap_2.
Qed.
Lemma write_info_agrees l vals u v o : NoDup (map CharacteristicInfo.uuid l) → agree l vals →
  agree (write_info u v o l)
    (<[u := if o =? 0 then v else write_at (default [] (vals !! u)) o v]> vals).
Proof.
  induction l as [|c l IH]; [constructor|]. cbn [map write_info].
  intros [Hc Hnd]%NoDup_cons [Ev Hl]%Forall_cons. destruct (bool_decide_reflect
    (CharacteristicInfo.uuid c = u)) as [<-|Hne]; constructor.
  - cbn. rewrite lookup_insert_eq. cbn. by rewrite Ev.
  - by apply agree_other.
  - by rewrite lookup_insert_ne.
  - by apply IH.
Qed.

(** *** The description follows the delegate *)

Definition apply_event (ss : gmap (list Z) ServiceInfo.t) (e : PeripheralManagerEvent.t)
    : gmap (list Z) ServiceInfo.t :=
  match e with
  | PeripheralManagerEvent.WriteRequest _ _ uuid value offset _ =>
      (λ s, ServiceInfo.mk (ServiceInfo.uuid s) (ServiceInfo.is_primary s)
              (write_info uuid value offset (ServiceInfo.characteristics s))) <$> ss
  | _ => ss
  end.
Definition quiet (e : PeripheralManagerEvent.t) : Prop :=
  match e with
  | PeripheralManagerEvent.CentralSubscribed _ _
  | PeripheralManagerEvent.CentralUnsubscribed _ _ => False
  | _ => True
  end.
Lemma handle_all_services es : ∀ m,
  services (foldl handle_event m es) = foldl apply_event (services m) es.
Proof.
  induction es as [|e es IH]; intros m; [done|]. cbn [foldl]. rewrite IH. f_equal.
  by destruct e as [| |[]| | | | |].
Qed.
Lemma handle_all_subscribers es : Forall quiet es → ∀ m,
  subscribers (foldl handle_event m es) = subscribers m.
Proof.
  induction 1 as [|e es He _ IH]; intros m; [done|]. cbn [foldl]. rewrite IH.
  by destruct e as [| |[]| | | | |].
Qed.

Definition layout (l : list CharacteristicInfo.t) : list (list Z * CharacteristicPropertiesFlags.t) :=
  zip (map CharacteristicInfo.uuid l) (map CharacteristicInfo.properties l).
Definition described (ss : gmap (list Z) ServiceInfo.t) vals : Prop :=
  ∃ l, ss = {[uuid_text PEAT_SERVICE_UUID := ServiceInfo.mk (uuid_text PEAT_SERVICE_UUID) true l]}
    ∧ agree l vals
    ∧ map CharacteristicInfo.uuid l = [NODE_INFO; SYNC_STATE; SYNC_DATA; COMMAND; STATUS]
    ∧ map CharacteristicInfo.properties l
      = [CharacteristicPropertiesFlags.readable; CharacteristicPropertiesFlags.read_write_notify;
         CharacteristicPropertiesFlags.read_write_notify; CharacteristicPropertiesFlags.writable;
         read_notify].
Definition server_ok vals m : Prop :=
  within (RustPeripheralManagerDelegate.event_tx (delegate m)) CHANNEL_CAPACITY
  ∧ values m = vals ∧ subscribers m = ∅ ∧ Forall quiet (events m)
  ∧ described (foldl apply_event (services m) (events m)) vals.

Lemma described_write ss vals r i central : request_ok r → described ss vals →
  described (apply_event ss (PeripheralManagerEvent.WriteRequest i central
    (CBATTRequest.characteristic r) (default [] (CBATTRequest.value r)) (CBATTRequest.offset r) true))
    (written vals r).
Proof.
  intros Hr (l & -> & Ha & Hu & Hp). cbn [apply_event]. rewrite map_fmap_singleton. cbn.
  eexists. split_and!; [done| | |].
  - unfold written. rewrite <-write_at_spec by done. apply write_info_agrees; [|done].
    rewrite Hu. by_decide.
  - by rewrite (proj1 (write_info_layout _ _ _ _)).
  - by rewrite (proj2 (write_info_layout _ _ _ _)).
Qed.

(** One event sent by the delegate, which may have changed the values. *)
Lemma server_ok_send vals vals' m e :
  server_ok vals m → zlen (events m) < CHANNEL_CAPACITY → quiet e →
  (∀ ss, described ss vals → described (apply_event ss e) vals') →
  let d := RustPeripheralManagerDelegate.send
             (RustPeripheralManagerDelegate.mk
                (RustPeripheralManagerDelegate.event_tx (delegate m)) vals') e in
  server_ok vals' (set_delegate m d) ∧ zlen (events (set_delegate m d)) = zlen (events m) + 1.
Proof.
  intros (Hw & Hv & Hs & Hq & Hd) Hl He Happly. cbn zeta.
  assert (events (set_delegate m (RustPeripheralManagerDelegate.send
    (RustPeripheralManagerDelegate.mk (RustPeripheralManagerDelegate.event_tx (delegate m)) vals') e))
    = events m ++ [e]) as Ee by (unfold events; cbn; by apply (send_fits _ _ _ Hw)).
  split; [|rewrite Ee; len]. unfold server_ok. rewrite Ee. split_and!.
  - by apply within_send.
  - done.
  - done.
  - apply Forall_app. by split; [|constructor].
  - rewrite foldl_app. by apply Happly.
Qed.
Lemma server_ok_issue vals m cs : server_ok vals m → server_ok vals (issue m cs).
Proof. done. Qed.
Lemma events_issue m cs : events (issue m cs) = events m.
Proof. done. Qed.

Lemma write_requests_ok rs : ∀ vals m i, Forall request_ok rs → server_ok vals m →
  zlen (events m) + zlen rs ≤ CHANNEL_CAPACITY →
  let m' := set_delegate m (RustPeripheralManagerDelegate.write_requests (delegate m) i rs) in
  server_ok (foldl written vals rs) m' ∧ zlen (events m') = zlen (events m) + zlen rs.
Proof.
  induction rs as [|r rs IH]; intros vals m i Hrs Hm Hl.
  - cbn [RustPeripheralManagerDelegate.write_requests foldl].
    assert (set_delegate m (delegate m) = m) as -> by by destruct m. split; [done|len].
  - apply Forall_cons in Hrs as [Hr Hrs]. cbn [RustPeripheralManagerDelegate.write_requests foldl].
    destruct (server_ok_send vals (written vals r) m
      (PeripheralManagerEvent.WriteRequest i (CBATTRequest.central r) (CBATTRequest.characteristic r)
         (default [] (CBATTRequest.value r)) (CBATTRequest.offset r) true) Hm) as [Hm' Hn'];
      [len|done|by intros; apply described_write|].
    destruct Hm as (_ & Hv & _).
    assert (RustPeripheralManagerDelegate.write_request (delegate m) i r
      = RustPeripheralManagerDelegate.send (RustPeripheralManagerDelegate.mk
          (RustPeripheralManagerDelegate.event_tx (delegate m)) (written vals r))
          (PeripheralManagerEvent.WriteRequest i (CBATTRequest.central r) (CBATTRequest.characteristic r)
             (default [] (CBATTRequest.value r)) (CBATTRequest.offset r) true)) as Ew.
    { unfold RustPeripheralManagerDelegate.write_request, RustPeripheralManagerDelegate.store,
        RustPeripheralManagerDelegate.set_characteristic_value, written.
      rewrite write_at_spec by done. unfold values in Hv. by rewrite Hv. }
    rewrite <-Ew in Hm', Hn'.
    destruct (IH _ (set_delegate m (RustPeripheralManagerDelegate.write_request (delegate m) i r))
      (i + 1) Hrs Hm') as [Hm'' Hn'']; [rewrite Hn'; len|].
    split; [exact Hm''|]. etrans; [exact Hn''|]. rewrite Hn'. len.
Qed.

Lemma callback_ok_step vals m c :
  callback_ok c → server_ok vals m → zlen (events m) + weight c ≤ CHANNEL_CAPACITY →
  ∃ m', on_callback m c = Ok m' ∧ server_ok (foldl written vals (requests_of c)) m'
    ∧ zlen (events m') = zlen (events m) + weight c.
Proof.
  intros Hc Hm Hl. assert (∀ e, weight c = 1 → quiet e → (∀ ss, apply_event ss e = ss) →
    let m' := set_delegate m (RustPeripheralManagerDelegate.send (delegate m) e) in
    server_ok vals m' ∧ zlen (events m') = zlen (events m) + weight c) as Hsend.
  { intros e Hw He Hsame. rewrite Hw in Hl |- *.
    assert (delegate m = RustPeripheralManagerDelegate.mk
      (RustPeripheralManagerDelegate.event_tx (delegate m)) vals) as Ed.
    { destruct Hm as (_ & <- & _). unfold values. by destruct (delegate m). }
    assert (zlen (events m) < CHANNEL_CAPACITY) as Hl' by lia.
    pose proof (server_ok_send vals vals m e Hm Hl' He ltac:(intros; by rewrite Hsame)) as Hr.
    cbn zeta in Hr. by rewrite <-Ed in Hr. }
  unfold on_callback. destruct c as [raw|svc err|err| |r|rs];
    cbn [RustPeripheralManagerDelegate.on_callback obind requests_of foldl];
    try (eexists; split; [done|]; rewrite events_issue; by apply Hsend).
  - unfold RustPeripheralManagerDelegate.did_receive_read_request.
    destruct (_ !! _) as [value|]; [destruct (Z.leb_spec (CBATTRequest.offset r) (zlen value))|];
      cbn [obind]; try (eexists; split; [done|]; rewrite events_issue; by apply Hsend).
    unfold callback_ok, request_ok in Hc. unfold slice_from. rewrite slice_ok by lia. cbn [obind].
    eexists; split; [done|]; rewrite events_issue; by apply Hsend.
  - eexists. split; [done|]. rewrite events_issue. cbn [weight] in *.
    by apply write_requests_ok.
Qed.

Definition total_weight (cs : list PeripheralManagerCallback.t) : Z := foldr Z.add 0 (map weight cs).
Lemma deliver_ok cs : ∀ vals m, Forall callback_ok cs → server_ok vals m →
  zlen (events m) + total_weight cs ≤ CHANNEL_CAPACITY →
  ∃ m', deliver m cs = Ok m' ∧ server_ok (foldl written vals (flat_map requests_of cs)) m'.
Proof.
  induction cs as [|c cs IH]; intros vals m Hcs Hm Hl; [by exists m|].
  apply Forall_cons in Hcs as [Hc Hcs]. change (total_weight (c :: cs)) with (weight c + total_weight cs) in Hl.
  assert (0 ≤ total_weight cs) as Hpos.
  { clear. unfold total_weight. induction cs as [|c cs IH]; cbn [map foldr]; [done|].
    destruct c; cbn [weight]; lia. }
  destruct (callback_ok_step vals m c Hc Hm ltac:(lia)) as (m' & E & Hm' & Hn'). cbn [deliver].
  rewrite E. cbn [obind flat_map]. rewrite foldl_app. apply IH; [done..|lia].
Qed.
(** Once the events are handled the description agrees with the delegate. *)
Lemma process_ok cs vals m : Forall callback_ok cs → server_ok vals m → events m = [] →
  total_weight cs ≤ CHANNEL_CAPACITY →
  ∃ m', process_events m cs = Ok m' ∧ server_ok (foldl written vals (flat_map requests_of cs)) m'
    ∧ events m' = [].
Proof.
  intros Hcs Hm He Hl. destruct (deliver_ok cs vals m Hcs Hm) as (m1 & E & Hw & Hv & Hs & Hq & Hd);
    [rewrite He; cbn; lia|].
  destruct (server_drain_handles (Z.to_nat CHANNEL_CAPACITY) m1) as (rx & Ed & Hrx & Hempty); [|done|].
  { change (Z.of_nat (Z.to_nat CHANNEL_CAPACITY)) with CHANNEL_CAPACITY. apply Hw. }
  exists (set_rx (foldl handle_event m1 (events m1)) rx). unfold process_events. rewrite E. cbn [obind].
  rewrite Ed. split; [done|]. assert (events (set_rx (foldl handle_event m1 (events m1)) rx) = []) as Ee by done.
  split; [|done]. unfold server_ok. rewrite Ee. split_and!.
  - done.
  - change (values (foldl handle_event m1 (events m1)) = foldl written vals (flat_map requests_of cs)).
    unfold values. by rewrite server_handle_all_delegate.
  - change (subscribers (foldl handle_event m1 (events m1)) = ∅). by rewrite handle_all_subscribers.
  - constructor.
  - change (described (services (foldl handle_event m1 (events m1)))
      (foldl written vals (flat_map requests_of cs))). by rewrite handle_all_services.
Qed.

(** Rounds of the event loop: what each delivers. *)
Fixpoint serve (rounds : list (list PeripheralManagerCallback.t)) m : outcome (t C) :=
  match rounds with
  | [] => Ok m
  | cs :: rounds => let! m := process_events m cs in serve rounds m
  end.
Definition round_ok (cs : list PeripheralManagerCallback.t) : Prop :=
  Forall callback_ok cs ∧ total_weight cs ≤ CHANNEL_CAPACITY.
Lemma serve_ok rounds : ∀ vals m, Forall round_ok rounds → server_ok vals m → events m = [] →
  ∃ m', serve rounds m = Ok m'
    ∧ server_ok (foldl written vals (flat_map requests_of (concat rounds))) m' ∧ events m' = [].
Proof.
  induction rounds as [|cs rounds IH]; intros vals m Hr Hm He; [by exists m|].
  apply Forall_cons in Hr as [[Hcs Hl] Hr]. destruct (process_ok cs vals m Hcs Hm He Hl) as (m1 & E & Hm1 & He1).
  cbn [serve concat]. rewrite E. cbn [obind]. rewrite flat_map_app, foldl_app. by apply IH.
Qed.

Lemma server_ok_registered n :
  let m := (register_peat_service new n).1 in
  server_ok {[NODE_INFO := le 4 n]} m ∧ events m = [].
Proof.
  destruct (within_new (C := C) (A := PeripheralManagerEvent.t) CHANNEL_CAPACITY ltac:(done)) as [Hw Hq].
  assert (events (register_peat_service new n).1 = []) as He by exact Hq.
  split; [|done]. unfold server_ok. rewrite He. split_and!; [exact Hw|done..|].
  cbn [foldl]. exists (ServiceInfo.characteristics (service_info n)). split_and!; [done| |done..].
  repeat constructor; cbn; by simplify_map_eq.
Qed.

(** What a reading central is answered. *)
Definition answer vals (r : CBATTRequest.t) : Response.t :=
  match vals !! CBATTRequest.characteristic r with
  | None => Response.mk r None CBATTError.AttributeNotFound
  | Some value =>
      if CBATTRequest.offset r <=? zlen value
      then Response.mk r (Some (zdrop (CBATTRequest.offset r) value)) CBATTError.Success
      else Response.mk r None CBATTError.InvalidOffset
  end.
Lemma read_answered m r : request_ok r → ∃ m',
  on_callback m (PeripheralManagerCallback.did_receive_read_request r) = Ok m'
  ∧ issued m' = issued m ++ [PeripheralCommand.respondToRequest (answer (values m) r)].
Proof.
  intros Hr. unfold request_ok in Hr. unfold on_callback, answer, values.
  cbn [RustPeripheralManagerDelegate.on_callback].
  unfold RustPeripheralManagerDelegate.did_receive_read_request.
  destruct (_ !! _) as [value|]; [|by eexists].
  destruct (Z.leb_spec (CBATTRequest.offset r) (zlen value)); [|by eexists].
  unfold slice_from. rewrite slice_ok by lia. cbn [obind]. eexists. split; [done|]. cbn.
  repeat f_equal. apply take_ge. unfold zdrop. rewrite length_drop. lia.
Qed.

(** Nothing that arrives makes the manager panic. *)
Lemma deliver_returns cs : ∀ m, Forall callback_ok cs → ∃ m', deliver m cs = Ok m'.
Proof.
  induction cs as [|c cs IH]; intros m Hcs; [by eexists|].
  apply Forall_cons in Hcs as [Hc Hcs]. cbn [deliver].
  assert (∃ m', on_callback m c = Ok m') as [m' ->]; [|by apply IH].
  destruct c; try by eexists. by edestruct read_answered as (m' & -> & _); [|eexists].
Qed.
Lemma process_events_returns m cs : Forall callback_ok cs → ∃ m', process_events m cs = Ok m'.
Proof. intros Hcs. unfold process_events. destruct (deliver_returns cs m Hcs) as [m' ->]. by eexists. Qed.

End server.
End ServerProofs.

Module ServerProperties.
Import DelegateProofs PeripheralManager ServerProofs.

(** C34: The GATT server on Apple platforms.  After the service is registered
    for a node, centrals read and write in any order, at any offsets, one or
    many requests at a time, at most a hundred between two rounds of the event
    loop.  Nothing panics.  A characteristic holds what was written: a write at
    an offset keeps what comes before it, filled up with zeros, and drops what
    came after.  The description of the service agrees with what is read, value
    by value, and keeps its layout.  Every read is answered at once with the
    value from its offset, with an error beyond its end, and with the error
    that there is no such attribute as long as nothing was written to it, so
    that at first only the node identifier can be read.  Nobody is ever known
    as a subscriber. *)
Theorem gatt_values_are_written {C} `{ChannelLaws C} `{UuidText} n rounds
    (Hrounds : Forall round_ok rounds) :
  let requests := flat_map requests_of (concat rounds) in
  let values := foldl written {[NODE_INFO := le 4 n]} requests in
  ∃ m : PeripheralManager.t C, serve rounds (register_peat_service new n).1 = Ok m
    ∧ (∀ uuid, get_characteristic_value m uuid = values !! uuid)
    ∧ described (services m) values
    ∧ (∀ uuid, get_subscribers m uuid = [])
    ∧ (∀ r, request_ok r → ∃ m',
         on_callback m (PeripheralManagerCallback.did_receive_read_request r) = Ok m'
         ∧ issued m' = issued m ++ [PeripheralCommand.respondToRequest (answer values r)])
    ∧ (requests = [] → ∀ r, CBATTRequest.characteristic r ≠ NODE_INFO →
         Response.result (answer values r) = CBATTError.AttributeNotFound).
Proof.
  cbn zeta. destruct (server_ok_registered (C := C) n) as [Hm0 He0].
  destruct (serve_ok rounds _ _ Hrounds Hm0 He0) as (m & E & (Hw & Hv & Hs & _ & Hd) & He).
  exists m. split_and!; [done| | | | |].
  - intros uuid. by rewrite <-Hv.
  - by rewrite He in Hd.
  - intros uuid. unfold get_subscribers. by rewrite Hs.
  - intros r Hr. rewrite <-Hv. by apply read_answered.
  - intros -> r Hne. cbn [foldl]. unfold answer. by rewrite lookup_singleton_ne.
Qed.

(** Two centrals: a value in two pieces, a gap, and a value cut short. *)
Definition write (uuid : list Z) (offset : Z) (value : list Z) : CBATTRequest.t :=
  CBATTRequest.mk (str "phone"%string) uuid offset (Some value).
Definition session : list (list PeripheralManagerCallback.t) :=
  [[PeripheralManagerCallback.did_update_state 5;
    PeripheralManagerCallback.did_receive_write_requests
      [write SYNC_DATA 0 [1; 2; 3]; write SYNC_DATA 3 [4; 5]; write STATUS 2 [9]]];
   [PeripheralManagerCallback.did_receive_read_request (CBATTRequest.mk (str "watch"%string) SYNC_DATA 9 None);
    PeripheralManagerCallback.did_receive_write_requests [write SYNC_DATA 1 [7]]]].
Lemma requests_ok : Forall round_ok session.
Proof.
  repeat match goal with
    | |- round_ok _ => split
    | |- callback_ok _ => cbn [callback_ok]
    | |- request_ok _ => unfold request_ok; cbn; lia
    | |- Forall _ _ => constructor
    end; done.
Qed.

Lemma gatt_values_are_written_witness :
  ∃ m : PeripheralManager.t list_channel,
    serve session (register_peat_service new 0xAB).1 = Ok m
    ∧ get_characteristic_value m SYNC_DATA = Some [1; 7]
    ∧ get_characteristic_value m STATUS = Some [0; 0; 9]
    ∧ get_characteristic_value m NODE_INFO = Some [0xAB; 0; 0; 0]
    ∧ get_characteristic_value m SYNC_STATE = None.
Proof.
  destruct (gatt_values_are_written (C := list_channel) 0xAB session requests_ok)
    as (m & E & Hv & _).
  exists m. split; [exact E|]. rewrite !Hv. split; [|split; [|split]]; vm_compute; reflexivity.
Defined.

End ServerProperties.
