(* ===== verification/AppleAdapter.v ===== *)
(** * The connections and the adapter of src/src/platform/apple/connection.rs
    and src/src/platform/apple/adapter.rs.

    A connection that was handed out shares its state with the adapter:
    [handles] holds those states, and [connections] and an application refer
    to them by their index.  Callbacks are set or not, and what they are called
    with is recorded.  An asynchronous method is one step. *)

From Stdlib Require Import String.
From stdpp Require Import base numbers list gmap sets.
From S2P Require Import Prelude Crypto Config PeerGraph GattService Ble Adapter.
From S2P Require Import AppleDelegates AppleManagers.
Open Scope Z_scope.
Open Scope peat_scope.

Module CoreBluetoothConnection.

Record t := mk {
  peer_id : Z; identifier : list Z; alive : bool; mtu : Z; phy : BlePhy.t; rssi : option Z;
  services_discovered : bool; connected_at : Z; cb_peripheral : option (list Z)
}.
Definition new (peer_id : Z) (identifier : list Z) (now : Z) : t :=
  mk peer_id identifier true 23 BlePhy.Le1M None false now None.

Definition set_cb_peripheral (self : t) (peripheral : list Z) : t :=
  mk (peer_id self) (identifier self) (alive self) (mtu self) (phy self) (rssi self)
    (services_discovered self) (connected_at self) (Some peripheral).
Definition get_cb_peripheral (self : t) : result (list Z) BleError.t :=
  match cb_peripheral self with
  | Some peripheral => Okay peripheral
  | None => Err (BleError.InvalidState (str "CBPeripheral not set on connection"%string))
  end.
Definition update_connection_state (self : t) (connected : bool) : t :=
  mk (peer_id self) (identifier self) connected (mtu self) (phy self) (rssi self)
    (services_discovered self) (connected_at self) (cb_peripheral self).
Definition update_mtu (self : t) (mtu : Z) : t :=
  mk (peer_id self) (identifier self) (alive self) mtu (phy self) (rssi self)
    (services_discovered self) (connected_at self) (cb_peripheral self).
Definition update_rssi (self : t) (rssi : Z) : t :=
  mk (peer_id self) (identifier self) (alive self) (mtu self) (phy self) (Some rssi)
    (services_discovered self) (connected_at self) (cb_peripheral self).
Definition mark_services_discovered (self : t) : t :=
  mk (peer_id self) (identifier self) (alive self) (mtu self) (phy self) (rssi self)
    true (connected_at self) (cb_peripheral self).
Definition mark_dead (self : t) : t := update_connection_state self false.
Definition disconnect (self : t) : t * result unit BleError.t := (mark_dead self, Okay tt).

Definition as_connection (self : t) : BleConnection.t :=
  BleConnection.mk (peer_id self) (alive self) (mtu self) (phy self) (rssi self).
Definition connected_duration (self : t) (now : Z) : Z := now - connected_at self.

(** *** Waiting for the answer of the system *)

Definition handle_event (self : t) (event : PeripheralEvent.t) : t :=
  match event with
  | PeripheralEvent.MtuUpdated _ mtu => update_mtu self mtu
  | PeripheralEvent.RssiRead _ rssi None => update_rssi self rssi
  | _ => self
  end.
(** The events that come in, with the milliseconds since the wait began;
    [None] is the end of the channel.  [answer] is the event waited for. *)
Definition arrivals : Type := list (Z * option PeripheralEvent.t).
Fixpoint wait {A} (answer : PeripheralEvent.t → option (result A BleError.t)) (timeout : Z)
    (self : t) (arriving : arrivals) : t * result A BleError.t :=
  match arriving with
  | [] => (self, Err BleError.Timeout)
  | (at_ms, event) :: arriving =>
      if timeout <=? at_ms then (self, Err BleError.Timeout)
      else match event with
           | None => (self, Err (BleError.ConnectionFailed (str "Event channel closed"%string)))
           | Some event =>
               match answer event with
               | Some r => (self, r)
               | None => wait answer timeout (handle_event self event) arriving
               end
           end
  end.
Definition answered {A} (failed : list Z) (error : option (list Z)) (a : A) : result A BleError.t :=
  match error with
  | Some e => Err (BleError.GattError (failed ++ str ": "%string ++ e))
  | None => Okay a
  end.
Definition is_for (target uuid : list Z) : bool := same_or_contains target (to_uppercase uuid).

(** A method returns the state, the calls made on the peripheral and the result. *)
Definition op (A : Type) : Type := t * list CentralCommand.t * result A BleError.t.

Definition discover_services (self : t) (service_uuids : option (list (list Z))) (arriving : arrivals)
    : op unit :=
  match get_cb_peripheral self with
  | Err e => (self, [], Err e)
  | Okay p =>
      let calls := [CentralCommand.discoverServices p service_uuids] in
      match wait (λ e, match e with
                       | PeripheralEvent.ServicesDiscovered _ error =>
                           Some (answered (str "Service discovery failed"%string) error tt)
                       | _ => None
                       end) 10000 self arriving with
      | (self, Okay _) => (mark_services_discovered self, calls, Okay tt)
      | (self, Err e) => (self, calls, Err e)
      end
  end.

Section services.
(** [peripheral.services()] *)
Context (cb_services : list Z → option (list CBService.t)).

Definition discover_characteristics (self : t) (service_uuid : list Z)
    (characteristic_uuids : option (list (list Z))) (arriving : arrivals) : op unit :=
  match get_cb_peripheral self with
  | Err e => (self, [], Err e)
  | Okay p =>
      let target := to_uppercase service_uuid in
      match cb_services p with
      | None => (self, [], Err (BleError.InvalidState (str "No services discovered yet"%string)))
      | Some services =>
          match List.find (λ s, same target (to_uppercase (CBService.UUID s))) services with
          | None => (self, [], Err (BleError.ServiceNotFound service_uuid))
          | Some s =>
              let '(self, r) := wait (λ e, match e with
                  | PeripheralEvent.CharacteristicsDiscovered _ svc error =>
                      if same target (to_uppercase svc)
                      then Some (answered (str "Characteristic discovery failed"%string) error tt)
                      else None
                  | _ => None
                  end) 10000 self arriving in
              (self, [CentralCommand.discoverCharacteristics p characteristic_uuids (CBService.UUID s)], r)
          end
      end
  end.

Definition find_cb_characteristic (p service_upper char_upper : list Z)
    : result (list Z * list Z) BleError.t :=
  match cb_services p with
  | None => Err (BleError.InvalidState (str "No services discovered"%string))
  | Some services =>
      match find_characteristic (same_or_contains service_upper) (same_or_contains char_upper)
              services with
      | Some found => Okay found
      | None => Err (BleError.CharacteristicNotFound (service_upper ++ str ":"%string ++ char_upper))
      end
  end.
(** The common part of the methods on a characteristic. *)
Definition on_characteristic {A} (self : t) (service_uuid characteristic_uuid : list Z)
    (call : list Z → list Z → list Z → CentralCommand.t) (k : t → t * result A BleError.t) : op A :=
  match get_cb_peripheral self with
  | Err e => (self, [], Err e)
  | Okay p =>
      match find_cb_characteristic p (to_uppercase service_uuid) (to_uppercase characteristic_uuid) with
      | Err e => (self, [], Err e)
      | Okay (service, characteristic) =>
          let '(self, r) := k self in (self, [call p service characteristic], r)
      end
  end.
Definition read_characteristic (self : t) (service_uuid characteristic_uuid : list Z)
    (arriving : arrivals) : op (list Z) :=
  on_characteristic self service_uuid characteristic_uuid CentralCommand.readValue (λ self,
    wait (λ e, match e with
               | PeripheralEvent.CharacteristicValueUpdated _ uuid value error =>
                   if is_for (to_uppercase characteristic_uuid) uuid
                   then Some (answered (str "Read failed"%string) error value) else None
               | _ => None
               end) 10000 self arriving).
Definition write_characteristic (self : t) (service_uuid characteristic_uuid value : list Z)
    (with_response : bool) (arriving : arrivals) : op unit :=
  on_characteristic self service_uuid characteristic_uuid
    (λ p s c, CentralCommand.writeValue p s c value (if with_response then 0 else 1)) (λ self,
    if negb with_response then (self, Okay tt)
    else wait (λ e, match e with
                    | PeripheralEvent.CharacteristicWritten _ uuid error =>
                        if is_for (to_uppercase characteristic_uuid) uuid
                        then Some (answered (str "Write failed"%string) error tt) else None
                    | _ => None
                    end) 10000 self arriving).
Definition set_notify_value (self : t) (service_uuid characteristic_uuid : list Z) (enabled : bool)
    (arriving : arrivals) : op unit :=
  on_characteristic self service_uuid characteristic_uuid
    (λ p s c, CentralCommand.setNotifyValue p s c enabled) (λ self,
    wait (λ e, match e with
               | PeripheralEvent.NotificationStateChanged _ uuid _ error =>
                   if is_for (to_uppercase characteristic_uuid) uuid
                   then Some (answered (str "Notification state change failed"%string) error tt)
                   else None
               | _ => None
               end) 10000 self arriving).
Definition enable_notifications (self : t) (service_uuid characteristic_uuid : list Z)
    (arriving : arrivals) : op unit :=
  set_notify_value self service_uuid characteristic_uuid true arriving.
Definition disable_notifications (self : t) (service_uuid characteristic_uuid : list Z)
    (arriving : arrivals) : op unit :=
  set_notify_value self service_uuid characteristic_uuid false arriving.

End services.

Definition read_rssi (self : t) (arriving : arrivals) : op unit :=
  match get_cb_peripheral self with
  | Err e => (self, [], Err e)
  | Okay p =>
      let calls := [CentralCommand.readRSSI p] in
      match wait (λ e, match e with
                       | PeripheralEvent.RssiRead _ rssi error =>
                           Some (answered (str "RSSI read failed"%string) error rssi)
                       | _ => None
                       end) 5000 self arriving with
      | (self, Okay rssi) => (update_rssi self rssi, calls, Okay tt)
      | (self, Err e) => (self, calls, Err e)
      end
  end.

(** What is queued when it is called. *)
Fixpoint process_events (self : t) (pending : list PeripheralEvent.t) : t :=
  match pending with
  | [] => self
  | event :: pending =>
      let self :=
        match event with
        | PeripheralEvent.ServicesDiscovered _ None => mark_services_discovered self
        | PeripheralEvent.MtuUpdated _ mtu => update_mtu self mtu
        | PeripheralEvent.RssiRead _ rssi None => update_rssi self rssi
        | _ => self
        end in
      process_events self pending
  end.

End CoreBluetoothConnection.

(** ** The adapter *)

Module CoreBluetoothAdapter.
Section adapter.
Context {C : Type → Type} `{!Channel C} `{UuidText} `{!MapOrder (list Z)} `{!MapOrder Z}.
Context (cb_services : list Z → option (list CBService.t)).

Record t := mk {
  central : CentralManager.t C; peripheral : PeripheralManager.t C; config : option BleConfig.t;
  connections : gmap Z nat; identifier_to_node : gmap (list Z) Z;
  node_to_identifier : gmap Z (list Z); handles : list CoreBluetoothConnection.t;
  discovery_callback : bool; connection_callback : bool;
  discovered : list DiscoveredDevice.t; told : list (Z * ConnectionEvent.t)
}.
Definition new : result t BleError.t :=
  Okay (mk CentralManager.new PeripheralManager.new None ∅ ∅ ∅ [] false false [] []).

Definition set_managers (self : t) (c : CentralManager.t C) (p : PeripheralManager.t C) : t :=
  mk c p (config self) (connections self) (identifier_to_node self) (node_to_identifier self)
    (handles self) (discovery_callback self) (connection_callback self) (discovered self) (told self).
Definition set_config (self : t) (c : option BleConfig.t) : t :=
  mk (central self) (peripheral self) c (connections self) (identifier_to_node self)
    (node_to_identifier self) (handles self) (discovery_callback self) (connection_callback self)
    (discovered self) (told self).
Definition set_connections (self : t) (cs : gmap Z nat) (hs : list CoreBluetoothConnection.t) : t :=
  mk (central self) (peripheral self) (config self) cs (identifier_to_node self)
    (node_to_identifier self) hs (discovery_callback self) (connection_callback self)
    (discovered self) (told self).
Definition set_callbacks (self : t) (d c : bool) : t :=
  mk (central self) (peripheral self) (config self) (connections self) (identifier_to_node self)
    (node_to_identifier self) (handles self) d c (discovered self) (told self).
Definition set_told (self : t) (ds : list DiscoveredDevice.t) (es : list (Z * ConnectionEvent.t)) : t :=
  mk (central self) (peripheral self) (config self) (connections self) (identifier_to_node self)
    (node_to_identifier self) (handles self) (discovery_callback self) (connection_callback self) ds es.

(** A method of the central or of the peripheral manager. *)
Definition via_central {A} (self : t) (r : CentralManager.t C * A) : t * A :=
  (set_managers self r.1 (peripheral self), r.2).
Definition via_peripheral {A} (self : t) (r : PeripheralManager.t C * A) : t * A :=
  (set_managers self (central self) r.1, r.2).
(** [if let Some(ref cb) = *self.connection_callback { cb(peer_id, event) }] *)
Definition tell (self : t) (peer_id : Z) (event : ConnectionEvent.t) : t :=
  if connection_callback self then set_told self (discovered self) (told self ++ [(peer_id, event)])
  else self.
Definition not_initialized : BleError.t := BleError.InvalidState (str "Adapter not initialized"%string).

Definition register_node_identifier (self : t) (node_id : Z) (identifier : list Z) : t :=
  mk (central self) (peripheral self) (config self) (connections self)
    (<[identifier := node_id]> (identifier_to_node self))
    (<[node_id := identifier]> (node_to_identifier self)) (handles self) (discovery_callback self)
    (connection_callback self) (discovered self) (told self).
Definition get_node_identifier (self : t) (node_id : Z) : option (list Z) :=
  node_to_identifier self !! node_id.
Definition get_identifier_node (self : t) (identifier : list Z) : option Z :=
  identifier_to_node self !! identifier.

Definition start_scan_unfiltered (self : t) : t * result unit BleError.t :=
  match config self with
  | None => (self, Err not_initialized)
  | Some c => via_central self (CentralManager.start_scan (central self) (BleConfig.discovery c) None)
  end.
Definition connect_by_identifier (self : t) (identifier : list Z) : t * result unit BleError.t :=
  via_central self (CentralManager.connect (central self) identifier).
Definition get_peripheral_info (self : t) (identifier : list Z) : option PeripheralInfo.t :=
  CentralManager.get_peripheral (central self) identifier.
Definition discover_services (self : t) (identifier : list Z) : t * result unit BleError.t :=
  via_central self (CentralManager.discover_services (central self) identifier
                      (Some [uuid_text PEAT_SERVICE_UUID])).
Definition discover_characteristics (self : t) (identifier : list Z) : t * result unit BleError.t :=
  via_central self (CentralManager.discover_characteristics cb_services (central self) identifier
                      (uuid_text PEAT_SERVICE_UUID)).
Definition read_characteristic (self : t) (identifier characteristic_uuid : list Z)
    : t * result unit BleError.t :=
  via_central self (CentralManager.read_characteristic cb_services (central self) identifier
                      (uuid_text PEAT_SERVICE_UUID) characteristic_uuid).
Definition write_characteristic (self : t) (identifier characteristic_uuid data : list Z)
    (with_response : bool) : t * result unit BleError.t :=
  via_central self (CentralManager.write_characteristic cb_services (central self) identifier
                      (uuid_text PEAT_SERVICE_UUID) characteristic_uuid data with_response).
Definition try_recv_peripheral_event (self : t) : t * option PeripheralEvent.t :=
  via_central self (CentralManager.try_recv_peripheral_event (central self)).

(** *** Events.  The arguments are what the run loop delivers meanwhile. *)

Definition process_events (self : t) (cs : list CentralCallback.t)
    (ps : list PeripheralManagerCallback.t) : outcome t :=
  let self := set_managers self (CentralManager.process_events (central self) cs) (peripheral self) in
  let! p := PeripheralManager.process_events (peripheral self) ps in
  Ok (set_managers self (central self) p).
Definition device_of (p : PeripheralInfo.t) : DiscoveredDevice.t :=
  DiscoveredDevice.mk (PeripheralInfo.identifier p) (PeripheralInfo.name p) (PeripheralInfo.rssi p)
    (PeripheralInfo.is_peat_node p) (PeripheralInfo.node_id p) [].
Definition report (self : t) (p : PeripheralInfo.t) : t :=
  let self :=
    match PeripheralInfo.node_id p with
    | Some node_id => register_node_identifier self node_id (PeripheralInfo.identifier p)
    | None => self
    end in
  set_told self (discovered self ++ [device_of p]) (told self).
Definition poll (self : t) (cs : list CentralCallback.t) (ps : list PeripheralManagerCallback.t)
    : outcome t :=
  let! self := process_events self cs ps in
  let peat_peripherals := CentralManager.get_peat_peripherals (central self) in
  Ok (if discovery_callback self then foldl report self peat_peripherals else self).

(** *** [impl BleAdapter] *)

Definition platform_error (msg : string) : BleError.t := BleError.PlatformError (str msg).
(** The loop of [init].  [round k] is what is delivered in its round [k]; the
    rounds are counted in [attempts], which stays below 51. *)
Fixpoint await_ready (fuel : nat) (attempts : Z)
    (round : Z → list CentralCallback.t * list PeripheralManagerCallback.t) (self : t)
    : outcome (t * result unit BleError.t) :=
  match fuel with
  | O => Fail
  | S fuel =>
      let! self := process_events self (round attempts).1 (round attempts).2 in
      match CentralManager.state (central self) with
      | CentralState.PoweredOn => Ok (self, Okay tt)
      | CentralState.Unsupported =>
          Ok (self, Err (BleError.NotSupported (str "Bluetooth not supported"%string)))
      | CentralState.Unauthorized =>
          Ok (self, Err (platform_error "Bluetooth not authorized - check System Preferences"%string))
      | CentralState.PoweredOff =>
          Ok (self, Err (platform_error "Bluetooth is powered off - please enable it"%string))
      | CentralState.Unknown | CentralState.Resetting =>
          let attempts := attempts + 1 in
          if 50 <? attempts
          then Ok (self, Err (platform_error "Bluetooth failed to initialize (timeout)"%string))
          else await_ready fuel attempts round self
      end
  end.
Definition init (self : t) (config : BleConfig.t)
    (round : Z → list CentralCallback.t * list PeripheralManagerCallback.t)
    : outcome (t * result unit BleError.t) :=
  await_ready 51 0 round (set_config self (Some config)).

(** Failures are only logged. *)
Definition apple_start (self : t) : t * result unit BleError.t :=
  match config self with
  | None => (self, Err not_initialized)
  | Some c =>
      let self := (via_peripheral self (PeripheralManager.register_peat_service (peripheral self)
                                          (BleConfig.node_id c))).1 in
      let self := (via_peripheral self (PeripheralManager.start_advertising (peripheral self)
                                          (BleConfig.node_id c) (BleConfig.discovery c))).1 in
      let self := (via_central self (CentralManager.start_scan (central self)
                                       (BleConfig.discovery c) None)).1 in
      (self, Okay tt)
  end.
(** [?]: the rest is skipped after an error. *)
Definition and_then {A B} (r : t * result A BleError.t) (k : t → A → t * result B BleError.t)
    : t * result B BleError.t :=
  match r with (self, Okay a) => k self a | (self, Err e) => (self, Err e) end.
Definition apple_stop (self : t) : t * result unit BleError.t :=
  and_then (via_central self (CentralManager.stop_scan (central self))) (λ self _,
  and_then (via_peripheral self (PeripheralManager.stop_advertising (peripheral self))) (λ self _,
  via_peripheral self (PeripheralManager.unregister_all_services (peripheral self)))).
Definition is_powered (_self : t) : bool := true.
Definition address (_self : t) : option (list Z) := None.
Definition start_scan (self : t) (config : DiscoveryConfig.t) : t * result unit BleError.t :=
  via_central self (CentralManager.start_scan (central self) config None).
Definition stop_scan (self : t) : t * result unit BleError.t :=
  via_central self (CentralManager.stop_scan (central self)).
Definition start_advertising (self : t) (config_arg : DiscoveryConfig.t) : t * result unit BleError.t :=
  match config self with
  | None => (self, Err not_initialized)
  | Some ble_config =>
      via_peripheral self (PeripheralManager.start_advertising (peripheral self)
                             (BleConfig.node_id ble_config) config_arg)
  end.
Definition stop_advertising (self : t) : t * result unit BleError.t :=
  via_peripheral self (PeripheralManager.stop_advertising (peripheral self)).
Definition set_discovery_callback (self : t) (callback : bool) : t :=
  set_callbacks self callback (connection_callback self).
Definition set_connection_callback (self : t) (callback : bool) : t :=
  set_callbacks self (discovery_callback self) callback.

Definition unknown_node (peer_id : Z) : BleError.t :=
  BleError.ConnectionFailed (str "Unknown node ID: "%string ++ NodeId.display peer_id).
Definition apple_connect (now : Z) (self : t) (peer_id : Z) : t * result BleConnection.t BleError.t :=
  match get_node_identifier self peer_id with
  | None => (self, Err (unknown_node peer_id))
  | Some identifier =>
      and_then (via_central self (CentralManager.connect (central self) identifier)) (λ self _,
        let connection := CoreBluetoothConnection.new peer_id identifier now in
        let self := set_connections self (<[peer_id := length (handles self)]> (connections self))
                      (handles self ++ [connection]) in
        let self := tell self peer_id
          (ConnectionEvent.Connected (CoreBluetoothConnection.mtu connection)
             (CoreBluetoothConnection.phy connection)) in
        (self, Okay (CoreBluetoothConnection.as_connection connection)))
  end.
Definition apple_disconnect (self : t) (peer_id : Z) : t * result unit BleError.t :=
  let connection := connections self !! peer_id in
  let self := set_connections self (delete peer_id (connections self)) (handles self) in
  and_then (match get_node_identifier self peer_id with
            | Some identifier =>
                via_central self (CentralManager.disconnect (central self) identifier)
            | None => (self, Okay tt)
            end) (λ self _,
    (match connection with
     | Some _ => tell self peer_id (ConnectionEvent.Disconnected DisconnectReason.LocalRequest)
     | None => self
     end, Okay tt)).
Definition apple_get_connection (self : t) (peer_id : Z) : option BleConnection.t :=
  CoreBluetoothConnection.as_connection <$> (connections self !! peer_id ≫= λ i, handles self !! i).
Definition apple_peer_count (self : t) : Z := Z.of_nat (size (connections self)).
Definition apple_connected_peers (self : t) : list Z := (map_iter (connections self)).*1.
Definition register_gatt_service (self : t) : t * result unit BleError.t :=
  match config self with
  | None => (self, Err not_initialized)
  | Some c => via_peripheral self (PeripheralManager.register_peat_service (peripheral self)
                                     (BleConfig.node_id c))
  end.
Definition unregister_gatt_service (self : t) : t * result unit BleError.t :=
  via_peripheral self (PeripheralManager.unregister_all_services (peripheral self)).
Definition apple_write_to_peer (self : t) (peer_id : Z) (char_uuid data : list Z)
    : t * result unit BleError.t :=
  match get_node_identifier self peer_id with
  | None => (self, Err (unknown_node peer_id))
  | Some identifier =>
      via_central self (CentralManager.write_characteristic cb_services (central self) identifier
                          (uuid_text PEAT_SERVICE_UUID) (uuid_text char_uuid) data true)
  end.
Definition supports_coded_phy : bool := false.
Definition supports_extended_advertising : bool := false.
Definition max_mtu : Z := 512.
Definition max_connections : Z := 8.

End adapter.
Arguments t : clear implicits.

#[global] Instance apple_adapter {C} `{!Channel C} `{UuidText} `{!MapOrder (list Z)} `{!MapOrder Z}
    (cb_services : list Z → option (list CBService.t)) (now : Z) : BleAdapter (t C) | 100 := {
  start := apple_start; stop := apple_stop; connect := apple_connect now;
  disconnect := apple_disconnect; get_connection := apple_get_connection;
  peer_count := apple_peer_count; connected_peers := apple_connected_peers;
  write_to_peer := apple_write_to_peer cb_services
}.
End CoreBluetoothAdapter.

(** * Theorems *)

Module AppleProofs.
Import DelegateProofs CentralProofs CoreBluetoothAdapter.

(** *** What an application and the system do with the adapter *)

Inductive call :=
| Init (config : BleConfig.t) (round : Z → list CentralCallback.t * list PeripheralManagerCallback.t)
| Start | Stop | StartScan (config : DiscoveryConfig.t) | StopScan | StartScanUnfiltered
| StartAdvertising (config : DiscoveryConfig.t) | StopAdvertising
| SetDiscoveryCallback (callback : bool) | SetConnectionCallback (callback : bool)
| Connect (now peer_id : Z) | Disconnect (peer_id : Z) | ConnectByIdentifier (identifier : list Z)
| DiscoverServices (identifier : list Z)
| DiscoverCharacteristics (services : list Z → option (list CBService.t)) (identifier : list Z)
| ReadCharacteristic (services : list Z → option (list CBService.t)) (identifier uuid : list Z)
| WriteCharacteristic (services : list Z → option (list CBService.t))
    (identifier uuid data : list Z) (with_response : bool)
| WriteToPeer (services : list Z → option (list CBService.t)) (peer_id : Z) (uuid data : list Z)
| RegisterGattService | UnregisterGattService | TryRecvPeripheralEvent
| Poll (cs : list CentralCallback.t) (ps : list PeripheralManagerCallback.t)
| CentralCalls (cs : list CentralCallback.t) | PeripheralCalls (c : PeripheralCallback.t).

Definition call_ok (c : call) : Prop :=
  match c with
  | Init _ round => ∀ k, Forall ServerProofs.callback_ok (round k).2
  | Poll _ ps => Forall ServerProofs.callback_ok ps
  | _ => True
  end.

Section adapter.
Context {C : Type → Type} `{ChannelLaws C} `{UuidText} `{!MapOrder (list Z)} `{!MapOrder Z}.
Implicit Types (s : CoreBluetoothAdapter.t C).

Definition step s (c : call) : outcome (CoreBluetoothAdapter.t C) :=
  match c with
  | Init config round => let! r := init s config round in Ok r.1
  | Start => Ok (apple_start s).1
  | Stop => Ok (apple_stop s).1
  | StartScan config => Ok (start_scan s config).1
  | StopScan => Ok (stop_scan s).1
  | StartScanUnfiltered => Ok (start_scan_unfiltered s).1
  | StartAdvertising config => Ok (start_advertising s config).1
  | StopAdvertising => Ok (stop_advertising s).1
  | SetDiscoveryCallback b => Ok (set_discovery_callback s b)
  | SetConnectionCallback b => Ok (set_connection_callback s b)
  | Connect now n => Ok (apple_connect now s n).1
  | Disconnect n => Ok (apple_disconnect s n).1
  | ConnectByIdentifier i => Ok (connect_by_identifier s i).1
  | DiscoverServices i => Ok (discover_services s i).1
  | DiscoverCharacteristics cb i => Ok (discover_characteristics cb s i).1
  | ReadCharacteristic cb i u => Ok (read_characteristic cb s i u).1
  | WriteCharacteristic cb i u data wr => Ok (write_characteristic cb s i u data wr).1
  | WriteToPeer cb n u data => Ok (apple_write_to_peer cb s n u data).1
  | RegisterGattService => Ok (register_gatt_service s).1
  | UnregisterGattService => Ok (unregister_gatt_service s).1
  | TryRecvPeripheralEvent => Ok (try_recv_peripheral_event s).1
  | Poll cs ps => poll s cs ps
  | CentralCalls cs => Ok (set_managers s (CentralManager.deliver (central s) cs) (peripheral s))
  | PeripheralCalls c =>
      Ok (set_managers s (CentralManager.on_peripheral_callback (central s) c) (peripheral s))
  end.
Fixpoint run s (calls : list call) : outcome (CoreBluetoothAdapter.t C) :=
  match calls with [] => Ok s | c :: calls => let! s := step s c in run s calls end.

(** *** The invariant *)

Definition fresh (h : CoreBluetoothConnection.t) : Prop :=
  ∃ n i now, h = CoreBluetoothConnection.new n i now.
Definition adapter_ok s : Prop :=
  central_ok (central s) ∧ keyed (central s)
  ∧ (∀ n i, node_to_identifier s !! n = Some i → i ∈ known (central s))
  ∧ Forall fresh (handles s)
  ∧ ∀ n k, connections s !! n = Some k →
      ∃ h, handles s !! k = Some h ∧ CoreBluetoothConnection.peer_id h = n.

(** A change of the central manager that forgets no peripheral. *)
Definition keeps (m m' : CentralManager.t C) : Prop :=
  central_ok m → keyed m → central_ok m' ∧ keyed m' ∧ known m ⊆ known m'.
Lemma keeps_same m m' : CentralManager.delegate m' = CentralManager.delegate m →
  CentralManager.peripherals m' = CentralManager.peripherals m → keeps m m'.
Proof.
  intros Ed Ep Hm Hk. split_and!.
  - by apply (central_ok_same m).
  - unfold keyed. by rewrite Ep.
  - unfold known. by rewrite Ed.
Qed.
Lemma keeps_process m cs : keeps m (CentralManager.process_events m cs).
Proof.
  intros Hm Hk. split_and!; [by apply central_ok_process|by apply process_keyed|].
  apply known_process_events.
Qed.
Lemma keeps_deliver m cs : keeps m (CentralManager.deliver m cs).
Proof. intros Hm Hk. split_and!; [by apply central_ok_deliver|done|apply deliver_grows]. Qed.

Lemma ok_managers s m p : keeps (central s) m → adapter_ok s → adapter_ok (set_managers s m p).
Proof.
  intros Hk (Hm & Hkey & Hn & Hh & Hc). destruct (Hk Hm Hkey) as (Hm' & Hkey' & Hg).
  split_and!; [done..| |done|done]. intros n i Hi. apply Hg. by eapply Hn.
Qed.
Lemma ok_central s {A} (r : CentralManager.t C * A) :
  keeps (central s) r.1 → adapter_ok s → adapter_ok (via_central s r).1.
Proof. apply ok_managers. Qed.
Lemma ok_peripheral s {A} (r : PeripheralManager.t C * A) : adapter_ok s → adapter_ok (via_peripheral s r).1.
Proof. apply ok_managers. by apply keeps_same. Qed.
Lemma ok_tell s n e : adapter_ok s → adapter_ok (tell s n e).
Proof. unfold tell. by destruct (connection_callback s). Qed.

Lemma keeps_method m m' : (m' = m ∨ ∃ cmd, m' = CentralManager.issue m cmd) → keeps m m'.
Proof. intros [->|[cmd ->]]; by apply keeps_same. Qed.
Ltac method := apply keeps_method; repeat case_match; cbn; by eauto.
Lemma keeps_connect m i : keeps m (CentralManager.connect m i).1.
Proof. unfold CentralManager.connect. method. Qed.
Lemma keeps_disconnect m i : keeps m (CentralManager.disconnect m i).1.
Proof. unfold CentralManager.disconnect. method. Qed.
Lemma keeps_services m i us : keeps m (CentralManager.discover_services m i us).1.
Proof. unfold CentralManager.discover_services. method. Qed.
Lemma keeps_characteristics cb m i u : keeps m (CentralManager.discover_characteristics cb m i u).1.
Proof. unfold CentralManager.discover_characteristics. method. Qed.
Lemma keeps_read cb m i u c : keeps m (CentralManager.read_characteristic cb m i u c).1.
Proof. unfold CentralManager.read_characteristic. method. Qed.
Lemma keeps_write cb m i u c data wr : keeps m (CentralManager.write_characteristic cb m i u c data wr).1.
Proof. unfold CentralManager.write_characteristic. method. Qed.
Lemma keeps_scan m config us : keeps m (CentralManager.start_scan m config us).1.
Proof. by apply keeps_same. Qed.
Lemma keeps_stop m : keeps m (CentralManager.stop_scan m).1.
Proof. by apply keeps_same. Qed.
Lemma keeps_recv m : keeps m (CentralManager.try_recv_peripheral_event m).1.
Proof. unfold CentralManager.try_recv_peripheral_event. destruct (try_recv _). by apply keeps_same. Qed.
Lemma keeps_callback m c : keeps m (CentralManager.on_peripheral_callback m c).
Proof. unfold CentralManager.on_peripheral_callback. case_match; by apply keeps_same. Qed.
#[local] Hint Resolve keeps_connect keeps_disconnect keeps_services keeps_characteristics keeps_read
  keeps_write keeps_scan keeps_stop keeps_recv keeps_callback keeps_deliver keeps_process : keeps.
#[local] Hint Resolve ok_central ok_peripheral ok_managers ok_tell : keeps.

Lemma ok_process s cs ps : adapter_ok s → Forall ServerProofs.callback_ok ps →
  ∃ s', process_events s cs ps = Ok s' ∧ adapter_ok s'
    ∧ central s' = CentralManager.process_events (central s) cs
    ∧ discovery_callback s' = discovery_callback s ∧ discovered s' = discovered s.
Proof.
  intros Hs Hps. unfold process_events. cbn [peripheral].
  destruct (ServerProofs.process_events_returns (peripheral s) ps Hps) as [p E]. cbn. rewrite E. cbn.
  eexists. split_and!; [done| |done..]. apply (ok_managers s); auto with keeps.
Qed.

(** The rounds of [init] end. *)
Lemma await_ready_ends round (Hround : ∀ k, Forall ServerProofs.callback_ok (round k).2) fuel :
  ∀ attempts s, attempts ≤ 50 → 51 ≤ Z.of_nat fuel + attempts → adapter_ok s →
  ∃ s' r, await_ready fuel attempts round s = Ok (s', r) ∧ adapter_ok s'.
Proof.
  induction fuel as [|fuel IH]; intros attempts s Ha Hf Hs; [lia|]. cbn [await_ready].
  destruct (ok_process s (round attempts).1 (round attempts).2 Hs (Hround _)) as (s' & -> & Hs' & _).
  cbn [obind]. destruct (CentralManager.state (central s')); try by (do 2 eexists).
  all: destruct (Z.ltb_spec 50 (attempts + 1)); [by (do 2 eexists)|apply IH; [lia..|done]].
Qed.

(** *** Reports *)

Lemma ok_report s p : PeripheralInfo.identifier p ∈ known (central s) →
  adapter_ok s → adapter_ok (report s p).
Proof.
  intros Hp (Hm & Hk & Hn & Hh & Hc). unfold report. destruct (PeripheralInfo.node_id p) as [n|];
    (split_and!; [done|done| |done|done]); [|done].
  intros n' i Hi. cbn in Hi. destruct (decide (n = n')) as [->|Hne].
  - rewrite lookup_insert_eq in Hi. by injection Hi as <-.
  - rewrite lookup_insert_ne in Hi by done. by eapply Hn.
Qed.
Lemma report_central s p : central (report s p) = central s.
Proof. unfold report. by destruct (PeripheralInfo.node_id p). Qed.
Lemma report_all_central ps s : central (foldl report s ps) = central s.
Proof.
  revert s. induction ps as [|p ps IH]; intros s; [done|]. cbn [foldl]. by rewrite IH, report_central.
Qed.
Lemma ok_report_all ps : ∀ s, Forall (λ p, PeripheralInfo.identifier p ∈ known (central s)) ps →
  adapter_ok s → adapter_ok (foldl report s ps).
Proof.
  induction ps as [|p ps IH]; intros s Hps Hs; [done|]. apply Forall_cons in Hps as [Hp Hps].
  apply IH; [|by apply ok_report]. by rewrite report_central.
Qed.
Lemma listed_known s p : adapter_ok s → p ∈ CentralManager.get_peat_peripherals (central s) →
  PeripheralInfo.identifier p ∈ known (central s).
Proof.
  intros ((_ & Hd) & Hk & _) Hp. unfold CentralManager.get_peat_peripherals in Hp.
  apply list_elem_of_filter in Hp as [_ Hp]. apply list_elem_of_fmap_1 in Hp as ([i p'] & -> & Hi).
  apply elem_of_map_iter in Hi. cbn. rewrite (Hk _ _ Hi). apply Hd. by eapply elem_of_dom_2.
Qed.
Lemma ok_poll s cs ps : adapter_ok s → Forall ServerProofs.callback_ok ps →
  ∃ s', poll s cs ps = Ok s' ∧ adapter_ok s'.
Proof.
  intros Hs Hps. unfold poll. destruct (ok_process s cs ps Hs Hps) as (s' & -> & Hs' & _). cbn [obind].
  eexists. split; [done|]. destruct (discovery_callback s'); [|done].
  apply ok_report_all; [|done]. apply Forall_forall. intros p Hp. by apply listed_known.
Qed.

(** *** Connections *)

(** Connecting depends on nothing but whether the node was reported, and what
    is handed out on nothing but who it is. *)
Definition handed_out (n : Z) : BleConnection.t := BleConnection.mk n true 23 BlePhy.Le1M None.
Lemma connect_known now s n i : adapter_ok s → node_to_identifier s !! n = Some i →
  ∃ s', apple_connect now s n = (s', Okay (handed_out n)) ∧ adapter_ok s'
    ∧ CentralManager.issued (central s')
      = CentralManager.issued (central s) ++ [CentralCommand.connectPeripheral i]
    ∧ apple_get_connection s' n = Some (handed_out n).
Proof.
  intros (Hm & Hk & Hn & Hh & Hc) Hi. unfold apple_connect, get_node_identifier. rewrite Hi.
  assert (CentralManager.connect (central s) i
    = (CentralManager.issue (central s) (CentralCommand.connectPeripheral i), Okay tt)) as E.
  { unfold CentralManager.connect, CentralManager.get_cb_peripheral,
      RustCentralManagerDelegate.get_peripheral.
    by rewrite bool_decide_eq_true_2 by by apply (Hn n). }
  unfold via_central, and_then. rewrite E. cbn -[tell]. eexists. split_and!; [done| | |].
  - apply ok_tell. split_and!; [by apply (keeps_same (central s))|done|done| |].
    + apply Forall_app. split; [done|]. constructor; [by do 3 eexists|constructor].
    + intros n' k Hk'. cbn in Hk'. destruct (decide (n = n')) as [->|Hne].
      * rewrite lookup_insert_eq in Hk'. injection Hk' as <-. cbn.
        rewrite lookup_app_r, Nat.sub_diag by lia. by eexists.
      * rewrite lookup_insert_ne in Hk' by done. destruct (Hc _ _ Hk') as (h & Hl & Hp).
        exists h. split; [|done]. cbn. by apply lookup_app_l_Some.
  - unfold tell. by destruct (connection_callback _).
  - unfold apple_get_connection, tell. destruct (connection_callback _); cbn;
      rewrite lookup_insert_eq; cbn; by rewrite lookup_app_r, Nat.sub_diag by lia.
Qed.
Lemma ok_connect now s n : adapter_ok s → adapter_ok (apple_connect now s n).1.
Proof.
  intros Hs. destruct (node_to_identifier s !! n) as [i|] eqn:Hi.
  - by destruct (connect_known now s n i Hs Hi) as (s' & -> & Hs' & _).
  - unfold apple_connect, get_node_identifier. by rewrite Hi.
Qed.
Lemma ok_disconnect s n : adapter_ok s → adapter_ok (apple_disconnect s n).1.
Proof.
  intros Hs. assert (adapter_ok (set_connections s (delete n (connections s)) (handles s))) as Hs'.
  { destruct Hs as (Hm & Hk & Hn & Hh & Hc). split_and!; [done..|]. intros n' k Hk'. cbn in Hk'.
    apply lookup_delete_Some in Hk' as [_ Hk']. by apply Hc. }
  unfold apple_disconnect. revert Hs'. generalize (set_connections s (delete n (connections s)) (handles s)) as s'.
  intros s' Hs'. unfold and_then, via_central.
  destruct (get_node_identifier s' n) as [i|]; [|by destruct (connections s !! n); [apply ok_tell|]].
  destruct (CentralManager.disconnect (central s') i) as [m [[]|e]] eqn:E; cbn -[tell].
  - destruct (connections s !! n); [apply ok_tell|];
      (apply ok_managers; [|done]); pose proof (keeps_disconnect (central s') i) as Hk; by rewrite E in Hk.
  - apply ok_managers; [|done]. pose proof (keeps_disconnect (central s') i) as Hk. by rewrite E in Hk.
Qed.
Lemma ok_stop s : adapter_ok s → adapter_ok (apple_stop s).1.
Proof.
  intros Hs. unfold apple_stop, and_then. cbn. by repeat (apply ok_managers; [by apply keeps_same|]).
Qed.
Lemma ok_start s : adapter_ok s → adapter_ok (apple_start s).1.
Proof.
  intros Hs. unfold apple_start. destruct (config s); [|done]. cbn [fst].
  apply ok_central; [apply keeps_scan|]. by do 2 apply ok_peripheral.
Qed.

#[local] Hint Resolve ok_connect ok_disconnect ok_start ok_stop : keeps.
Lemma ok_step s c : adapter_ok s → call_ok c → ∃ s', step s c = Ok s' ∧ adapter_ok s'.
Proof.
  intros Hs Hc. destruct c; cbn [step call_ok] in *;
    try by (eexists; split; [done|]; unfold start_scan_unfiltered, start_advertising,
      connect_by_identifier, discover_services, discover_characteristics, read_characteristic,
      write_characteristic, apple_write_to_peer, register_gatt_service, try_recv_peripheral_event;
      try case_match; auto with keeps).
  - unfold init. edestruct (await_ready_ends round Hc 51 0 (set_config s (Some config0)))
      as (s' & r & -> & Hs'); [lia..|done|]. by eexists.
  - by apply ok_poll.
Qed.
Lemma ok_run calls : ∀ s, adapter_ok s → Forall call_ok calls → ∃ s', run s calls = Ok s' ∧ adapter_ok s'.
Proof.
  induction calls as [|c calls IH]; intros s Hs Hcs; [by eexists|].
  apply Forall_cons in Hcs as [Hc Hcs]. cbn [run]. destruct (ok_step s c Hs Hc) as (s' & -> & Hs').
  cbn [obind]. by apply IH.
Qed.
Lemma ok_new s : new = Okay s → adapter_ok s.
Proof.
  intros E. injection E as <-. split_and!; [apply central_ok_new| | | |].
  - by intros i p.
  - by intros n i.
  - constructor.
  - by intros n k.
Qed.

(** *** Who is registered *)

(** The nodes that can be connected to are those of the devices that were
    reported, each by the address of one of them. *)
Definition reported s : Prop :=
  (∀ n i, node_to_identifier s !! n = Some i →
     ∃ d, d ∈ discovered s ∧ DiscoveredDevice.node_id d = Some n ∧ DiscoveredDevice.address d = i)
  ∧ ∀ d n, d ∈ discovered s → DiscoveredDevice.node_id d = Some n → is_Some (node_to_identifier s !! n).
Definition silent s s' : Prop :=
  node_to_identifier s' = node_to_identifier s ∧ discovered s' = discovered s.
Lemma reported_silent s s' : silent s s' → reported s → reported s'.
Proof. unfold reported. by intros [-> ->]. Qed.
Lemma silent_process s cs ps s' : process_events s cs ps = Ok s' → silent s s'.
Proof. unfold process_events. by destruct (PeripheralManager.process_events _ _); cbn; intros [= <-]. Qed.
Lemma silent_ready round fuel : ∀ attempts s s' r,
  await_ready fuel attempts round s = Ok (s', r) → silent s s'.
Proof.
  induction fuel as [|fuel IH]; intros attempts s s' r; cbn [await_ready]; [done|].
  destruct (process_events s _ _) as [s1| |] eqn:E; cbn [obind]; [|done..]. apply silent_process in E.
  destruct (CentralManager.state (central s1)); try by intros [= <- _].
  all: case_match; [by intros [= <- _]|]; intros [E1 E2]%IH; destruct E; split; congruence.
Qed.
Lemma silent_tell s n e : silent s (tell s n e).
Proof. unfold tell. by destruct (connection_callback s). Qed.
Lemma silent_trans s1 s2 s3 : silent s1 s2 → silent s2 s3 → silent s1 s3.
Proof. intros [] []. split; congruence. Qed.
Lemma silent_connect now s n : silent s (apple_connect now s n).1.
Proof.
  unfold apple_connect, and_then, via_central. destruct (get_node_identifier s n) as [i|]; [|done].
  destruct (CentralManager.connect _ i) as [m [[]|e]]; cbn -[tell]; [|done].
  by eapply silent_trans; [|apply silent_tell].
Qed.
Lemma silent_disconnect s n : silent s (apple_disconnect s n).1.
Proof.
  unfold apple_disconnect, and_then, via_central. generalize (delete n (connections s)) as cs. intros cs.
  destruct (get_node_identifier _ n) as [i|].
  - destruct (CentralManager.disconnect _ i) as [m [[]|e]]; cbn -[tell]; [|done].
    destruct (connections s !! n); [|done]. by eapply silent_trans; [|apply silent_tell].
  - cbn -[tell]. destruct (connections s !! n); [|done]. by eapply silent_trans; [|apply silent_tell].
Qed.
Lemma silent_refl s : silent s s.
Proof. done. Qed.
Lemma silent_config s c : silent s (set_config s c).
Proof. done. Qed.
Lemma silent_callbacks s d c : silent s (set_callbacks s d c).
Proof. done. Qed.
Lemma silent_managers s m p : silent s (set_managers s m p).
Proof. done. Qed.
Lemma silent_central s {A} (r : CentralManager.t C * A) : silent s (via_central s r).1.
Proof. done. Qed.
Lemma silent_peripheral s {A} (r : PeripheralManager.t C * A) : silent s (via_peripheral s r).1.
Proof. done. Qed.
Lemma silent_start s : silent s (apple_start s).1.
Proof.
  unfold apple_start. destruct (config s) as [c|]; [|done]. cbn [fst].
  eapply silent_trans; [|apply silent_central]. eapply silent_trans; [|apply silent_peripheral].
  apply silent_peripheral.
Qed.
Lemma silent_stop s : silent s (apple_stop s).1.
Proof. unfold apple_stop, and_then. cbn. by repeat (eapply silent_trans; [|apply silent_managers]). Qed.
Lemma silent_unfiltered s : silent s (start_scan_unfiltered s).1.
Proof. unfold start_scan_unfiltered. destruct (config s); [apply silent_central|done]. Qed.
Lemma silent_advertising s c : silent s (start_advertising s c).1.
Proof. unfold start_advertising. destruct (config s); [apply silent_peripheral|done]. Qed.
Lemma silent_service s : silent s (register_gatt_service s).1.
Proof. unfold register_gatt_service. destruct (config s); [apply silent_peripheral|done]. Qed.
Lemma silent_write cb s n u data : silent s (apple_write_to_peer cb s n u data).1.
Proof. unfold apple_write_to_peer. destruct (get_node_identifier s n); [apply silent_central|done]. Qed.
#[local] Hint Resolve silent_refl silent_callbacks silent_managers silent_start silent_stop
  silent_unfiltered silent_advertising silent_service silent_write silent_connect silent_disconnect : silent.
#[local] Hint Extern 1 (silent _ (fst (start_scan _ _))) => apply silent_central : silent.
#[local] Hint Extern 1 (silent _ (fst (stop_scan _))) => apply silent_central : silent.
#[local] Hint Extern 1 (silent _ (fst (stop_advertising _))) => apply silent_peripheral : silent.
#[local] Hint Extern 1 (silent _ (set_discovery_callback _ _)) => apply silent_callbacks : silent.
#[local] Hint Extern 1 (silent _ (set_connection_callback _ _)) => apply silent_callbacks : silent.
#[local] Hint Extern 1 (silent _ (fst (connect_by_identifier _ _))) => apply silent_central : silent.
#[local] Hint Extern 1 (silent _ (fst (discover_services _ _))) => apply silent_central : silent.
#[local] Hint Extern 1 (silent _ (fst (discover_characteristics _ _ _))) => apply silent_central : silent.
#[local] Hint Extern 1 (silent _ (fst (read_characteristic _ _ _ _))) => apply silent_central : silent.
#[local] Hint Extern 1 (silent _ (fst (write_characteristic _ _ _ _ _ _))) => apply silent_central : silent.
#[local] Hint Extern 1 (silent _ (fst (unregister_gatt_service _))) => apply silent_peripheral : silent.
#[local] Hint Extern 1 (silent _ (fst (try_recv_peripheral_event _))) => apply silent_central : silent.
Lemma report_reported s p : reported s → reported (report s p).
Proof.
  intros [Hr Hd]. unfold report. destruct (PeripheralInfo.node_id p) as [n|] eqn:Hn; split; cbn.
  - intros n' i [[<- <-]|[_ Hi]]%lookup_insert_Some.
    + exists (device_of p). split; [set_solver|done].
    + destruct (Hr n' i Hi) as (d & Hin & ?). exists d. split; [set_solver|done].
  - intros d n' Hin Hdn. destruct (decide (n = n')) as [->|Hne]; [by rewrite lookup_insert_eq; eexists|].
    rewrite lookup_insert_ne by done.
    apply elem_of_app in Hin as [Hin| ->%list_elem_of_singleton]; [by eapply Hd|].
    cbn in Hdn. congruence.
  - intros n' i Hi. destruct (Hr n' i Hi) as (d & Hin & ?). exists d. split; [set_solver|done].
  - intros d n' [Hin| ->%list_elem_of_singleton]%elem_of_app Hdn; [by eapply Hd|]. cbn in Hdn. congruence.
Qed.
Lemma reports_reported ps : ∀ s, reported s → reported (foldl report s ps).
Proof. induction ps as [|p ps IH]; intros s Hr; [done|]. by apply IH, report_reported. Qed.
Definition if_ok {A} (o : outcome A) (Q : A → Prop) : Prop := match o with Ok a => Q a | _ => True end.
Lemma init_reported s config round : reported s →
  if_ok (init s config round) (λ r, reported r.1).
Proof.
  intros Hr. unfold init. destruct (await_ready _ _ _ _) as [[s1 r]| |] eqn:E1; cbn [if_ok]; [|done..].
  by eapply reported_silent; [by eapply silent_ready|].
Qed.
Lemma poll_reported s cs ps : reported s → if_ok (poll s cs ps) reported.
Proof.
  intros Hr. unfold poll. destruct (process_events s cs ps) as [s1| |] eqn:E1; cbn [obind if_ok]; [|done..].
  apply silent_process in E1. apply (reported_silent s s1 E1) in Hr.
  destruct (discovery_callback s1); [|done]. by apply reports_reported.
Qed.
Lemma step_reported s c : reported s → if_ok (step s c) reported.
Proof.
  intros Hr. destruct c; cbn [step if_ok];
    try by (apply (reported_silent s); [auto with silent|exact Hr]).
  - pose proof (init_reported s config0 round Hr) as Hi. by destruct (init s config0 round).
  - by apply poll_reported.
Qed.
Lemma run_reported calls : ∀ s s', run s calls = Ok s' → reported s → reported s'.
Proof.
  induction calls as [|c calls IH]; intros s s'; cbn [run]; [by intros [= <-]|]. intros E Hr.
  pose proof (step_reported s c Hr) as Hs. destruct (step s c) as [s1| |]; cbn [obind if_ok] in *; [|done..].
  by eapply IH.
Qed.
Lemma new_reported s : new = Okay s → reported s.
Proof. intros E. injection E as <-. split; [by intros n i|]. intros d n Hd. by apply elem_of_nil in Hd. Qed.

(** *** What a poll makes of a discovery *)

Lemma report_all_discovered ps : ∀ s,
  discovered (foldl report s ps) = discovered s ++ map device_of ps.
Proof.
  induction ps as [|p ps IH]; intros s; [cbn; by rewrite app_nil_r|]. cbn [foldl map].
  rewrite IH. assert (discovered (report s p) = discovered s ++ [device_of p]) as ->
    by (unfold report; by destruct (PeripheralInfo.node_id p)). by rewrite <-app_assoc.
Qed.
Lemma report_all_registered ps n : ∀ s,
  (∃ p, p ∈ ps ∧ PeripheralInfo.node_id p = Some n) →
  ∃ p, p ∈ ps ∧ PeripheralInfo.node_id p = Some n
    ∧ node_to_identifier (foldl report s ps) !! n = Some (PeripheralInfo.identifier p).
Proof.
  induction ps as [|p ps IH] using rev_ind; intros s (q & Hq & Hn).
  { by apply not_elem_of_nil in Hq. }
  rewrite foldl_app. cbn [foldl]. destruct (decide (PeripheralInfo.node_id p = Some n)) as [Hp|Hp].
  - exists p. split_and!; [set_solver|done|]. unfold report. rewrite Hp. cbn. by rewrite lookup_insert_eq.
  - apply elem_of_app in Hq as [Hq|Hq%list_elem_of_singleton]; [|by subst].
    destruct (IH s (ex_intro _ q (conj Hq Hn))) as (p' & Hp' & Hn' & Hl).
    exists p'. split_and!; [set_solver|done|]. rewrite <-Hl. unfold report.
    destruct (PeripheralInfo.node_id p) as [n'|]; [|done]. cbn.
    rewrite lookup_insert_ne; [done|]. by intros ->.
Qed.

Lemma named_peat name mesh n : MeshConfig.parse_device_name name = Some (mesh, n) →
  RustCentralManagerDelegate.name_indicates_peat (Some name) = true.
Proof.
  unfold MeshConfig.parse_device_name, RustCentralManagerDelegate.name_indicates_peat.
  destruct (strip_prefix (str "PEAT_"%string) name) eqn:E1; [by rewrite bool_decide_eq_true_2 by eauto|].
  destruct (strip_prefix (str "PEAT-"%string) name) eqn:E2; [|done].
  intros _. rewrite (bool_decide_eq_true_2 (is_Some (Some _))) by eauto. by rewrite orb_true_r.
Qed.

(** A peripheral seen with the name of a node, and not seen again since. *)
Lemma discovery_listed m before i name mesh n uuids rssi after :
  central_ok m →
  let cs := before ++ CentralCallback.did_discover_peripheral i (Some name) uuids rssi :: after in
  zlen (events m) + zlen cs ≤ CHANNEL_CAPACITY →
  Forall (λ c, found c ⊆ ∅ ∨ ∃ j, found c = {[j]} ∧ j ≠ i) after →
  MeshConfig.parse_device_name name = Some (mesh, n) →
  ∃ b, CentralManager.peripherals (CentralManager.process_events m cs) !! i
    = Some (PeripheralInfo.mk i (Some name) (to_i8 (wrap 8 rssi)) true (Some n) b).
Proof.
  intros Hm cs Hl Hafter Hname. destruct Hm as [[Hw _] _].
  destruct (process_events_handles m cs Hw) as (rx & -> & _).
  assert (events (CentralManager.deliver m cs) = events m ++ map event_of cs) as ->
    by (apply deliver_fits; [done|done]).
  unfold cs. rewrite map_app. cbn [map]. rewrite !foldl_app. cbn [foldl].
  generalize (foldl CentralManager.handle_event (foldl CentralManager.handle_event
    (CentralManager.deliver m (before ++ CentralCallback.did_discover_peripheral i (Some name) uuids rssi
      :: after)) (events m)) (map event_of before)) as m'.
  intros m'. set (e := event_of _).
  assert (e = CentralEvent.DiscoveredPeripheral i (Some name) (to_i8 (wrap 8 rssi)) []
    (RustCentralManagerDelegate.parse_service_uuids uuids) true (Some n)) as ->.
  { unfold e, event_of. by rewrite (named_peat _ _ _ Hname), orb_true_r; cbn [mbind option_bind]; rewrite Hname. }
  destruct (handle_all_keeps (map event_of after) (CentralManager.handle_event m'
    (CentralEvent.DiscoveredPeripheral i (Some name) (to_i8 (wrap 8 rssi)) []
       (RustCentralManagerDelegate.parse_service_uuids uuids) true (Some n))) i
    (PeripheralInfo.mk i (Some name) (to_i8 (wrap 8 rssi)) true (Some n) false)) as [b Hb].
  - cbn. by rewrite lookup_insert_eq.
  - intros nm r data us peat k Hin. apply list_elem_of_fmap_1 in Hin as (c & Ec & Hc).
    eapply Forall_forall in Hafter; [|done]. destruct c; cbn in Ec; try discriminate.
    injection Ec as <- _ _ _ _ _. cbn in Hafter. set_solver.
  - by exists b.
Qed.

Definition unseen (i : list Z) (c : CentralCallback.t) : Prop :=
  found c ⊆ ∅ ∨ ∃ j, found c = {[j]} ∧ j ≠ i.
Lemma poll_reports s before i name mesh n uuids rssi after ps :
  adapter_ok s → Forall ServerProofs.callback_ok ps → discovery_callback s = true →
  let cs := before ++ CentralCallback.did_discover_peripheral i (Some name) uuids rssi :: after in
  zlen (events (central s)) + zlen cs ≤ CHANNEL_CAPACITY → Forall (unseen i) after →
  MeshConfig.parse_device_name name = Some (mesh, n) →
  ∃ s' devices, poll s cs ps = Ok s' ∧ discovered s' = discovered s ++ devices
    ∧ DiscoveredDevice.mk i (Some name) (to_i8 (wrap 8 rssi)) true (Some n) [] ∈ devices
    ∧ ((∀ j p, CentralManager.get_peripheral (central s') j = Some p →
          PeripheralInfo.node_id p = Some n → j = i) → node_to_identifier s' !! n = Some i).
Proof.
  intros Hs Hps Hcb cs Hl Hafter Hname. unfold poll.
  destruct (ok_process s cs ps Hs Hps) as (s1 & -> & Hs1 & Ec & Ecb & Ed). cbn [obind].
  rewrite Ecb, Hcb. destruct (discovery_listed (central s) before i name mesh n uuids rssi after)
    as [b Hb]; [by destruct Hs|done..|]. fold cs in Hb. rewrite <-Ec in Hb.
  set (found_devices := CentralManager.get_peat_peripherals (central s1)).
  assert (PeripheralInfo.mk i (Some name) (to_i8 (wrap 8 rssi)) true (Some n) b ∈ found_devices) as Hin.
  { apply list_elem_of_filter. split; [done|].
    apply (list_elem_of_fmap_2' _ _ (i, PeripheralInfo.mk i (Some name) (to_i8 (wrap 8 rssi)) true (Some n) b));
      [|done]. by apply elem_of_map_iter. }
  exists (foldl report s1 found_devices), (map device_of found_devices).
  split_and!; [done|by rewrite report_all_discovered, Ed| |].
  - by apply (list_elem_of_fmap_2' device_of _ _ _ Hin).
  - rewrite report_all_central. intros Hunique.
    destruct (report_all_registered found_devices n s1) as (p & Hp & Hn & Hreg);
      [by eexists; split; [exact Hin|]|]. rewrite Hreg. f_equal.
    apply list_elem_of_filter in Hp as [_ Hp]. apply list_elem_of_fmap_1 in Hp as ([j p'] & -> & Hj).
    apply elem_of_map_iter in Hj. cbn in *. destruct Hs1 as (_ & Hk & _). rewrite (Hk _ _ Hj).
    by eapply Hunique.
Qed.

(** Every operation on a connection fails before it reaches the system. *)
Definition not_set {A} : result A BleError.t :=
  Err (BleError.InvalidState (str "CBPeripheral not set on connection"%string)).
Definition deaf (h : CoreBluetoothConnection.t) : Prop :=
  ∀ cb service char uuids value response arriving,
    CoreBluetoothConnection.discover_services h uuids arriving = (h, [], not_set)
    ∧ CoreBluetoothConnection.discover_characteristics cb h service uuids arriving = (h, [], not_set)
    ∧ CoreBluetoothConnection.read_characteristic cb h service char arriving = (h, [], not_set)
    ∧ CoreBluetoothConnection.write_characteristic cb h service char value response arriving
      = (h, [], not_set)
    ∧ CoreBluetoothConnection.enable_notifications cb h service char arriving = (h, [], not_set)
    ∧ CoreBluetoothConnection.disable_notifications cb h service char arriving = (h, [], not_set)
    ∧ CoreBluetoothConnection.read_rssi h arriving = (h, [], not_set).
Lemma fresh_deaf h : fresh h → deaf h.
Proof. by intros (n & i & now & ->). Qed.
Lemma fresh_handed_out s n c : adapter_ok s → apple_get_connection s n = Some c → c = handed_out n.
Proof.
  intros (_ & _ & _ & Hh & Hc) E. unfold apple_get_connection in E.
  destruct (connections s !! n) as [k|] eqn:Hk; [|done]. destruct (Hc _ _ Hk) as (h & Hl & Hp).
  cbn in E. rewrite Hl in E. injection E as <-. eapply Forall_lookup_1 in Hh as (n' & i & now & Eh); [|done].
  subst h. cbn in Hp. by subst n'.
Qed.

End adapter.
End AppleProofs.

Module AppleProperties.
Import DelegateProofs CentralProofs CoreBluetoothAdapter AppleProofs.

(** C33: What the adapter for Apple platforms promises. After any calls of its
    methods, in any order, whatever CoreBluetooth delivers, none has panicked
    and [init] has ended. The nodes that are registered are those of the
    devices that polls have reported to the callback, each under the address
    of one of them. A registered node is connected to at once, whatever the
    radio says, with one call on the system; any other is an unknown node. A
    connection, however often it was refused or lost, is alive with the
    smallest MTU and no signal strength until it is disconnected, and each of
    its operations fails without reaching the system. And a poll does report:
    as long as the events that wait are not more than the channel holds, a
    hundred, a peripheral that was seen with the name of a node, and not
    since, is given to the callback with that node, and is the one the node is
    connected by unless another claims to be the node too. *)
Theorem apple_adapter_promises {C} `{ChannelLaws C} `{UuidText} `{!MapOrder (list Z)} `{!MapOrder Z}
    (s0 : CoreBluetoothAdapter.t C) calls (Hnew : new = Okay s0) (Hcalls : Forall call_ok calls) :
  ∃ s, run s0 calls = Ok s ∧ reported s
    ∧ (∀ now n, match node_to_identifier s !! n with
         | Some i => ∃ s', apple_connect now s n = (s', Okay (handed_out n))
             ∧ CentralManager.issued (central s')
               = CentralManager.issued (central s) ++ [CentralCommand.connectPeripheral i]
             ∧ apple_get_connection s' n = Some (handed_out n)
         | None => apple_connect now s n = (s, Err (unknown_node n))
         end)
    ∧ (∀ n c, apple_get_connection s n = Some c → c = handed_out n)
    ∧ Forall deaf (handles s)
    ∧ ∀ before i name mesh n uuids rssi after ps,
        let cs := before ++ CentralCallback.did_discover_peripheral i (Some name) uuids rssi :: after in
        discovery_callback s = true → Forall ServerProofs.callback_ok ps →
        zlen (events (central s)) + zlen cs ≤ CHANNEL_CAPACITY → Forall (unseen i) after →
        MeshConfig.parse_device_name name = Some (mesh, n) →
        ∃ s' devices, poll s cs ps = Ok s' ∧ discovered s' = discovered s ++ devices
          ∧ DiscoveredDevice.mk i (Some name) (to_i8 (wrap 8 rssi)) true (Some n) [] ∈ devices
          ∧ ((∀ j p, CentralManager.get_peripheral (central s') j = Some p →
                PeripheralInfo.node_id p = Some n → j = i) → node_to_identifier s' !! n = Some i).
Proof.
  destruct (ok_run calls s0 (ok_new s0 Hnew) Hcalls) as (s & E & Hs). exists s.
  split_and!; [done|by eapply run_reported, new_reported| | | |].
  - intros now n. destruct (node_to_identifier s !! n) as [i|] eqn:Hi.
    + destruct (connect_known now s n i Hs Hi) as (s' & ? & _ & ? & ?). by exists s'.
    + unfold apple_connect, get_node_identifier. by rewrite Hi.
  - intros n c. by apply fresh_handed_out.
  - destruct Hs as (_ & _ & _ & Hh & _). eapply Forall_impl; [exact Hh|apply fresh_deaf].
  - intros before i name mesh n uuids rssi after ps cs Hcb Hps Hl Hafter Hname.
    by eapply poll_reports.
Qed.

(** A node is found and connected to; the system then refuses the connection. *)
Definition watch : list Z := str "6D3B"%string.
Definition session : list call :=
  [Init (BleConfig.new 7) (λ k, (if k =? 2 then [CentralCallback.did_update_state 5] else [], []));
   Start; SetDiscoveryCallback true; SetConnectionCallback true;
   Poll [CentralCallback.did_discover_peripheral watch (Some (str "PEAT_DEMO-0000000B"%string)) None (-60)] [];
   Connect 1000 11; Poll [CentralCallback.did_fail_to_connect_peripheral watch None] []].
Lemma apple_session_ok : Forall call_ok session.
Proof. repeat (constructor; [cbn; try (intros; case_match); by constructor|]). constructor. Qed.

Lemma apple_adapter_promises_witness :
  ∃ s0 s : CoreBluetoothAdapter.t list_channel, new = Okay s0 ∧ run s0 session = Ok s
    ∧ Forall deaf (handles s) ∧ length (handles s) = 1%nat
    ∧ apple_get_connection s 11 = Some (handed_out 11).
Proof.
  destruct (CoreBluetoothAdapter.new (C := list_channel)) as [s0|e] eqn:E0; [|discriminate].
  destruct (apple_adapter_promises s0 session E0 apple_session_ok) as (s & E & _ & _ & _ & Hd & _).
  exists s0, s. split; [done|]. split; [exact E|]. split; [exact Hd|].
  injection E0 as <-. revert E. clear Hd. vm_compute. intros E. injection E as <-.
  split; reflexivity.
Defined.

(** The connection that was refused is listed, and a write to it is refused
    because the identifier of the transport is not the short one. *)
Definition services (_ : list Z) : option (list CBService.t) :=
  Some [CBService.mk (to_uppercase (uuid_text PEAT_SERVICE_UUID)) (Some [str "0003"%string])].
Example transport_uuid_unknown :
  match new (C := list_channel) with
  | Okay s0 =>
      match run s0 session with
      | Ok s =>
          (apple_connected_peers s,
           (apple_write_to_peer services s 11 (be32 3 ++ be16 0 ++ be16 0x1000
              ++ [0x80; 0x00; 0x00; 0x80; 0x5F; 0x9B; 0x34; 0xFB]) [1]).2)
      | _ => ([], Okay tt)
      end
  | Err _ => ([], Okay tt)
  end
  = ([11], Err (CentralManager.characteristic_not_found
                  (str "00000003-0000-1000-8000-00805f9b34fb"%string))).
Proof. vm_compute. reflexivity. Qed.

End AppleProperties.
