(* ===== verification/AppleFfi.v ===== *)
(** * The library for Swift of src/ios/peat-apple-ffi/src/lib.rs: device names,
    the object [PeatAdapter] over the CoreBluetooth adapter (AppleAdapter.v),
    and the object [PeatMeshWrapper] over a node (PeatMesh.v).

    A callback of the application is set or not; [notices] records what it is
    called with, and whether the lock of the state is held meanwhile.  The
    methods of [PeatMeshWrapper] that change the node are steps of the monad of
    PeatMesh.v. *)

From Stdlib Require Import String.
From stdpp Require Import base numbers list gmap sets.
From S2P Require Import Prelude Sensor Crypto Config PeerGraph Observer Ble Adapter.
From S2P Require Import Registry PeatMesh AppleDelegates AppleManagers AppleAdapter.
Import DocumentType (AppTypes).
Import PeatMesh (M, M_ret, M_bind, gets, modify, lift).
Open Scope Z_scope.
Open Scope peat_scope.

(** ** Device names *)

Definition get_default_mesh_id : list Z := DEFAULT_MESH_ID.
Module ParsedDeviceName.
Record t := mk { mesh_id : option (list Z); node_id : Z }.
End ParsedDeviceName.
Definition parse_peat_device_name (name : list Z) : option ParsedDeviceName.t :=
  (λ p, ParsedDeviceName.mk p.1 p.2) <$> MeshConfig.parse_device_name name.
Definition generate_peat_device_name (mesh_id : list Z) (node_id : Z) : list Z :=
  MeshConfig.device_name (MeshConfig.new mesh_id) node_id.
Definition matches_mesh (our_mesh_id : list Z) (device_mesh_id : option (list Z)) : bool :=
  MeshConfig.matches_mesh (MeshConfig.new our_mesh_id) device_mesh_id.

(** ** Records and errors *)

Module BlePhy.
Inductive t := Le1M | Le2M | LeCoded.
Definition of_internal (phy : Config.BlePhy.t) : t :=
  match phy with
  | Config.BlePhy.Le1M => Le1M
  | Config.BlePhy.Le2M => Le2M
  | Config.BlePhy.LeCodedS2 | Config.BlePhy.LeCodedS8 => LeCoded
  end.
End BlePhy.
Module BluetoothState.
Inductive t := Unknown | Resetting | Unsupported | Unauthorized | PoweredOff | PoweredOn.
End BluetoothState.
Module DiscoveredPeer.
Record t := mk {
  identifier : list Z; name : option (list Z); rssi : Z; node_id : option Z; is_peat_node : bool
}.
End DiscoveredPeer.
Module ConnectionInfo.
Record t := mk {
  peer_id : Z; identifier : list Z; mtu : Z; phy : BlePhy.t; rssi : option Z; is_alive : bool
}.
End ConnectionInfo.
Module SyncStats.
Record t := mk {
  document_count : Z; pending_changes : Z; bytes_synced : Z; last_sync_timestamp : option Z
}.
Definition default_stats : t := mk 0 0 0 None.
End SyncStats.

Module PeatError.
Inductive t :=
| NotInitialized | AlreadyInitialized | NotRunning | BluetoothUnavailable | BluetoothUnauthorized
| ConnectionFailed (reason : list Z) | SendFailed (reason : list Z) | Timeout_ | InvalidState
| Internal (message : list Z).
Definition of_ble_error (err : BleError.t) : t :=
  match err with
  | BleError.NotSupported _ => BluetoothUnavailable
  | BleError.ConnectionFailed msg => ConnectionFailed msg
  | BleError.Timeout => Timeout_
  | BleError.PlatformError msg => Internal msg
  | _ => Internal (BleError.display err)
  end.
End PeatError.

(** What the callbacks of the application are called with. *)
Module Notice.
Inductive t :=
| on_peer_discovered (peer : DiscoveredPeer.t)
| on_connected (peer_id : Z) (info : ConnectionInfo.t)
| on_disconnected (peer_id : Z) (reason : list Z).
End Notice.

Module AdapterState.
Record t := mk {
  is_running : bool; is_discovering : bool; is_advertising : bool;
  bluetooth_state : BluetoothState.t; discovered_peers : gmap (list Z) DiscoveredPeer.t;
  connections : gmap Z ConnectionInfo.t; sync_stats : SyncStats.t
}.
Definition default_state : t :=
  mk false false false BluetoothState.Unknown ∅ ∅ SyncStats.default_stats.
Definition set_discovering (self : t) (b : bool) : t :=
  mk (is_running self) b (is_advertising self) (bluetooth_state self) (discovered_peers self)
    (connections self) (sync_stats self).
Definition set_advertising (self : t) (b : bool) : t :=
  mk (is_running self) (is_discovering self) b (bluetooth_state self) (discovered_peers self)
    (connections self) (sync_stats self).
Definition set_discovered (self : t) (ps : gmap (list Z) DiscoveredPeer.t) : t :=
  mk (is_running self) (is_discovering self) (is_advertising self) (bluetooth_state self) ps
    (connections self) (sync_stats self).
Definition set_connections (self : t) (cs : gmap Z ConnectionInfo.t) : t :=
  mk (is_running self) (is_discovering self) (is_advertising self) (bluetooth_state self)
    (discovered_peers self) cs (sync_stats self).
Definition set_stats (self : t) (s : SyncStats.t) : t :=
  mk (is_running self) (is_discovering self) (is_advertising self) (bluetooth_state self)
    (discovered_peers self) (connections self) s.
End AdapterState.

(** ** The adapter *)

Module PeatAdapter.
Import AdapterState.
Section adapter.
Context {C : Type → Type} `{!Channel C} `{UuidText} `{!MapOrder Z}.

Record t := mk {
  node_id : Z; mesh_id : list Z; state : AdapterState.t;
  adapter : option (CoreBluetoothAdapter.t C);
  discovery_callback : bool; connection_callback : bool; data_callback : bool;
  notices : list (bool * Notice.t)
}.
Definition with_mesh_id (node_id : Z) (mesh_id : list Z) : t :=
  mk node_id mesh_id default_state None false false false [].
Definition new (node_id : Z) : t := with_mesh_id node_id DEFAULT_MESH_ID.

Definition set_state (self : t) (s : AdapterState.t) : t :=
  mk (node_id self) (mesh_id self) s (adapter self) (discovery_callback self)
    (connection_callback self) (data_callback self) (notices self).
Definition set_adapter (self : t) (a : option (CoreBluetoothAdapter.t C)) : t :=
  mk (node_id self) (mesh_id self) (state self) a (discovery_callback self)
    (connection_callback self) (data_callback self) (notices self).
Definition set_callbacks (self : t) (d c a : bool) : t :=
  mk (node_id self) (mesh_id self) (state self) (adapter self) d c a (notices self).
(** Calls the callback if it is set; [locked]: the lock of the state is held. *)
Definition notify (self : t) (callback locked : bool) (n : Notice.t) : t :=
  if callback
  then mk (node_id self) (mesh_id self) (state self) (adapter self) (discovery_callback self)
         (connection_callback self) (data_callback self) (notices self ++ [(locked, n)])
  else self.

Definition get_device_name (self : t) : list Z :=
  MeshConfig.device_name (MeshConfig.new (mesh_id self)) (node_id self).
Definition device_matches_mesh (self : t) (device_mesh_id : option (list Z)) : bool :=
  MeshConfig.matches_mesh (MeshConfig.new (mesh_id self)) device_mesh_id.
Definition get_bluetooth_state (self : t) : BluetoothState.t := bluetooth_state (state self).
Definition is_running (self : t) : bool := AdapterState.is_running (state self).
Definition is_discovering (self : t) : bool := AdapterState.is_discovering (state self).
Definition is_advertising (self : t) : bool := AdapterState.is_advertising (state self).

Definition start (self : t) : t * result unit PeatError.t :=
  let s := state self in
  if AdapterState.is_running s then (self, Err PeatError.AlreadyInitialized)
  else match CoreBluetoothAdapter.new with
       | Err e => (self, Err (PeatError.Internal
                    (str "Failed to create adapter: "%string ++ BleError.display e)))
       | Okay a =>
           (set_state (set_adapter self (Some a))
              (AdapterState.mk true (AdapterState.is_discovering s) (AdapterState.is_advertising s)
                 BluetoothState.PoweredOn (discovered_peers s) (connections s) (sync_stats s)), Okay tt)
       end.
Definition stop (self : t) : t * result unit PeatError.t :=
  let s := state self in
  if negb (AdapterState.is_running s) then (self, Err PeatError.NotRunning)
  else (set_state (set_adapter self None)
          (AdapterState.mk false false false (bluetooth_state s) ∅ ∅ (sync_stats s)), Okay tt).

(** A method of the adapter of the platform, when there is one. *)
Definition on_adapter {A} (self : t)
    (f : CoreBluetoothAdapter.t C → CoreBluetoothAdapter.t C * result A BleError.t)
    : t * option BleError.t :=
  match adapter self with
  | Some a =>
      let '(a, r) := f a in
      (set_adapter self (Some a), match r with Okay _ => None | Err e => Some e end)
  | None => (self, None)
  end.
Definition internal (e : BleError.t) : PeatError.t := PeatError.Internal (BleError.display e).
(** [start_discovery], [stop_discovery], [start_advertising], [stop_advertising] *)
Definition switch (self : t)
    (f : CoreBluetoothAdapter.t C → CoreBluetoothAdapter.t C * result unit BleError.t)
    (set : AdapterState.t → AdapterState.t) : t * result unit PeatError.t :=
  if negb (AdapterState.is_running (state self)) then (self, Err PeatError.NotRunning)
  else match on_adapter self f with
       | (self, Some e) => (self, Err (internal e))
       | (self, None) => (set_state self (set (state self)), Okay tt)
       end.
Definition start_discovery (self : t) : t * result unit PeatError.t :=
  switch self (λ a, CoreBluetoothAdapter.start_scan a DiscoveryConfig.default_config)
    (λ s, set_discovering s true).
Definition stop_discovery (self : t) : t * result unit PeatError.t :=
  switch self CoreBluetoothAdapter.stop_scan (λ s, set_discovering s false).
Definition start_advertising (self : t) : t * result unit PeatError.t :=
  switch self (λ a, CoreBluetoothAdapter.start_advertising a DiscoveryConfig.default_config)
    (λ s, set_advertising s true).
Definition stop_advertising (self : t) : t * result unit PeatError.t :=
  switch self CoreBluetoothAdapter.stop_advertising (λ s, set_advertising s false).

Definition connect (now : Z) (self : t) (identifier : list Z) : t * result unit PeatError.t :=
  if negb (AdapterState.is_running (state self)) then (self, Err PeatError.NotRunning)
  else match discovered_peers (state self) !! identifier ≫= DiscoveredPeer.node_id with
       | None => (self, Err (PeatError.ConnectionFailed
                    (str "Peer not found or no node ID"%string)))
       | Some node_id =>
           match on_adapter self (λ a, CoreBluetoothAdapter.apple_connect now a node_id) with
           | (self, Some e) => (self, Err (PeatError.ConnectionFailed (BleError.display e)))
           | (self, None) =>
               let conn_info := ConnectionInfo.mk node_id identifier 247 BlePhy.Le1M None true in
               let self := set_state self
                 (set_connections (state self) (<[node_id := conn_info]> (connections (state self)))) in
               (notify self (connection_callback self) true (Notice.on_connected node_id conn_info),
                Okay tt)
           end
       end.
Definition disconnect (self : t) (peer_id : Z) : t * result unit PeatError.t :=
  if negb (AdapterState.is_running (state self)) then (self, Err PeatError.NotRunning)
  else match on_adapter self (λ a, CoreBluetoothAdapter.apple_disconnect a peer_id) with
       | (self, Some e) => (self, Err (internal e))
       | (self, None) =>
           let self := set_state self
             (set_connections (state self) (delete peer_id (connections (state self)))) in
           (notify self (connection_callback self) true
              (Notice.on_disconnected peer_id (str "User requested"%string)), Okay tt)
       end.
Definition disconnect_all (self : t) : t :=
  foldl (λ self peer_id, (disconnect self peer_id).1) self (map_iter (connections (state self))).*1.

Definition get_discovered_peers `{!MapOrder (list Z)} (self : t) : list DiscoveredPeer.t :=
  (map_iter (discovered_peers (state self))).*2.
Definition get_connections (self : t) : list ConnectionInfo.t :=
  (map_iter (connections (state self))).*2.
Definition get_connection (self : t) (peer_id : Z) : option ConnectionInfo.t :=
  connections (state self) !! peer_id.
Definition get_sync_stats (self : t) : SyncStats.t := sync_stats (state self).

Definition send_data (self : t) (peer_id : Z) (data : list Z) : outcome (t * result unit PeatError.t) :=
  let s := state self in
  if negb (AdapterState.is_running s) then Ok (self, Err PeatError.NotRunning)
  else match connections s !! peer_id with
       | None => Ok (self, Err (PeatError.ConnectionFailed (str "Peer not connected"%string)))
       | Some _ =>
           let stats := sync_stats s in
           let! bytes_synced := add_u 64 (SyncStats.bytes_synced stats) (zlen data) in
           Ok (set_state self (set_stats s (SyncStats.mk (SyncStats.document_count stats)
                 (SyncStats.pending_changes stats) bytes_synced
                 (SyncStats.last_sync_timestamp stats))), Okay tt)
       end.
Fixpoint send_each (self : t) (data : list Z) (peer_ids : list Z)
    : outcome (t * result unit PeatError.t) :=
  match peer_ids with
  | [] => Ok (self, Okay tt)
  | peer_id :: peer_ids =>
      let! r := send_data self peer_id data in
      match r with
      | (self, Okay _) => send_each self data peer_ids
      | (self, Err e) => Ok (self, Err e)
      end
  end.
Definition broadcast_data (self : t) (data : list Z) : outcome (t * result unit PeatError.t) :=
  if negb (AdapterState.is_running (state self)) then Ok (self, Err PeatError.NotRunning)
  else send_each self data (map_iter (connections (state self))).*1.
(** [now]: seconds since 1970; [duration_since] fails before. *)
Definition trigger_sync (now : Z) (self : t) : outcome (t * result unit PeatError.t) :=
  let s := state self in
  if negb (AdapterState.is_running s) then Ok (self, Err PeatError.NotRunning)
  else if bool_decide (connections s = ∅) then Ok (self, Err PeatError.InvalidState)
  else if now <? 0 then Panic
  else let stats := sync_stats s in
       Ok (set_state self (set_stats s (SyncStats.mk (SyncStats.document_count stats)
             (SyncStats.pending_changes stats) (SyncStats.bytes_synced stats) (Some now))), Okay tt).

Definition set_discovery_callback (self : t) : t :=
  set_callbacks self true (connection_callback self) (data_callback self).
Definition set_connection_callback (self : t) : t :=
  set_callbacks self (discovery_callback self) true (data_callback self).
Definition set_data_callback (self : t) : t :=
  set_callbacks self (discovery_callback self) (connection_callback self) true.
Definition process_events (self : t) : t := self.
(** [random] and [uuid] are what the generators return. *)
Definition add_mock_peer (random : Z) (uuid : list Z) (self : t) (name : list Z) (rssi : Z) : t :=
  let node_id := Z.lor random 0x10000000 in
  let peer := DiscoveredPeer.mk uuid (Some name) rssi (Some node_id) true in
  let s := state self in
  let self := set_state self (set_discovered s (<[uuid := peer]> (discovered_peers s))) in
  notify self (discovery_callback self) false (Notice.on_peer_discovered peer).

End adapter.
Arguments t : clear implicits.
End PeatAdapter.

(** ** The node *)

Module MeshPeer.
Record t := mk {
  node_id : Z; identifier : list Z; mesh_id : option (list Z); name : option (list Z); rssi : Z;
  is_connected : bool; last_seen_ms : Z
}.
Definition of_internal (peer : PeatPeer.t) : t :=
  mk (PeatPeer.node_id peer) (PeatPeer.identifier peer) (PeatPeer.mesh_id peer) (PeatPeer.name peer)
    (PeatPeer.rssi peer) (PeatPeer.is_connected peer) (PeatPeer.last_seen_ms peer).
End MeshPeer.
Module MeshSignalStrength.
Inductive t := Excellent | Good | Fair | Weak.
End MeshSignalStrength.
Module MeshDisconnectReason.
Inductive t := LocalRequest | RemoteRequest | Timeout_ | LinkLoss | ConnectionFailed | Unknown.
Definition of_internal (reason : DisconnectReason.t) : t :=
  match reason with
  | DisconnectReason.LocalRequest => LocalRequest
  | DisconnectReason.RemoteRequest => RemoteRequest
  | DisconnectReason.Timeout_ => Timeout_
  | DisconnectReason.LinkLoss => LinkLoss
  | DisconnectReason.ConnectionFailed => ConnectionFailed
  | DisconnectReason.Unknown => Unknown
  end.
Definition to_internal (reason : t) : DisconnectReason.t :=
  match reason with
  | LocalRequest => DisconnectReason.LocalRequest
  | RemoteRequest => DisconnectReason.RemoteRequest
  | Timeout_ => DisconnectReason.Timeout_
  | LinkLoss => DisconnectReason.LinkLoss
  | ConnectionFailed => DisconnectReason.ConnectionFailed
  | Unknown => DisconnectReason.Unknown
  end.
End MeshDisconnectReason.
Module MeshPeripheralType.
Inductive t := Unknown | SoldierSensor | FixedSensor | Relay.
Definition to_internal (pt : t) : PeripheralType.t :=
  match pt with
  | Unknown => PeripheralType.Unknown
  | SoldierSensor => PeripheralType.SoldierSensor
  | FixedSensor => PeripheralType.FixedSensor
  | Relay => PeripheralType.Relay
  end.
End MeshPeripheralType.

Module MeshEvent.
Inductive t :=
| PeerDiscovered (peer : MeshPeer.t) | PeerConnected (node_id : Z)
| PeerDisconnected (node_id : Z) (reason : MeshDisconnectReason.t) | PeerLost (node_id : Z)
| EmergencyReceived (from_node : Z) | AckReceived (from_node : Z)
| DocumentSynced (from_node total_count : Z) | MeshStateChanged (peer_count connected_count : Z).
Definition of_internal (event : PeatEvent.t) : t :=
  match event with
  | PeatEvent.PeerDiscovered peer => PeerDiscovered (MeshPeer.of_internal peer)
  | PeatEvent.PeerConnected node_id => PeerConnected node_id
  | PeatEvent.PeerDisconnected node_id reason =>
      PeerDisconnected node_id (MeshDisconnectReason.of_internal reason)
  | PeatEvent.PeerLost node_id => PeerLost node_id
  | PeatEvent.EmergencyReceived from_node => EmergencyReceived from_node
  | PeatEvent.AckReceived from_node => AckReceived from_node
  | PeatEvent.DocumentSynced from_node total_count => DocumentSynced from_node total_count
  | PeatEvent.MeshStateChanged peer_count connected_count =>
      MeshStateChanged (wrap 32 peer_count) (wrap 32 connected_count)
  | _ => MeshStateChanged 0 0
  end.
End MeshEvent.

Module DataReceivedResult.
Record t := mk {
  source_node : Z; is_emergency : bool; is_ack : bool; counter_changed : bool;
  emergency_changed : bool; total_count : Z; event_timestamp : Z
}.
Definition of_internal (result : PeatMesh.DataReceivedResult.t) : t :=
  mk (PeatMesh.DataReceivedResult.source_node result) (PeatMesh.DataReceivedResult.is_emergency result)
    (PeatMesh.DataReceivedResult.is_ack result) (PeatMesh.DataReceivedResult.counter_changed result)
    (PeatMesh.DataReceivedResult.emergency_changed result)
    (PeatMesh.DataReceivedResult.total_count result)
    (PeatMesh.DataReceivedResult.event_timestamp result).
End DataReceivedResult.
Module EmergencyStatus.
Record t := mk { source_node : Z; timestamp : Z; acked_count : Z; pending_count : Z }.
End EmergencyStatus.

(** What the callback of a Swift observer has been called with. *)
Module SwiftMeshObserver.
Definition heard (callback : Z) (observers : ObserverManager.t) : list MeshEvent.t :=
  map MeshEvent.of_internal (ObserverManager.heard callback observers).
End SwiftMeshObserver.

Module PeatMeshWrapper.
Section mesh.
Context `{Crypto} `{AppTypes} `{!MapOrder Z} `{!MapOrder (Z * Z * Z)} (legacy_chat : bool).

Definition new (node_id : Z) (callsign mesh_id : list Z) (peripheral_type : MeshPeripheralType.t)
    : PeatMesh.t :=
  PeatMesh.new (PeatMeshConfig.with_peripheral_type (PeatMeshConfig.new node_id callsign mesh_id)
                  (MeshPeripheralType.to_internal peripheral_type)).
Definition with_defaults (node_id : Z) (callsign : list Z) : PeatMesh.t :=
  PeatMesh.new (PeatMeshConfig.new node_id callsign DEFAULT_MESH_ID).
Definition node_id (self : PeatMesh.t) : Z := PeatMesh.node_id self.
Definition mesh_id (self : PeatMesh.t) : list Z := PeatMesh.mesh_id self.
Definition device_name (self : PeatMesh.t) : list Z := PeatMesh.device_name self.
Definition add_observer (self : PeatMesh.t) (callback : Z) : PeatMesh.t :=
  PeatMesh.add_observer self callback.

Definition send_emergency (nonce : list Z) (timestamp : Z) : M (list Z) :=
  PeatMesh.send_emergency legacy_chat nonce timestamp.
Definition send_ack (nonce : list Z) (timestamp : Z) : M (list Z) :=
  PeatMesh.send_ack legacy_chat nonce timestamp.
Definition clear_event : M unit := modify PeatMesh.clear_event.
Definition build_document (self : PeatMesh.t) (nonce : list Z) : list Z :=
  PeatMesh.build_document legacy_chat self nonce.
Definition start_emergency (nonce : list Z) (timestamp : Z) (known_peers : list Z) : M (list Z) :=
  PeatMesh.start_emergency legacy_chat nonce timestamp known_peers.
Definition start_emergency_with_known_peers (nonce : list Z) (timestamp : Z) : M (list Z) :=
  PeatMesh.start_emergency_with_known_peers legacy_chat nonce timestamp.
Definition ack_emergency (nonce : list Z) (timestamp : Z) : M (option (list Z)) :=
  PeatMesh.ack_emergency legacy_chat nonce timestamp.
Definition clear_emergency : M unit := modify PeatMesh.clear_emergency.
Definition has_active_emergency (self : PeatMesh.t) : bool := PeatMesh.has_active_emergency self.
Definition get_emergency_status (self : PeatMesh.t) : option EmergencyStatus.t :=
  (λ '(source, ts, acked, pending),
     EmergencyStatus.mk source ts (wrap 32 acked) (wrap 32 pending))
  <$> PeatMesh.get_emergency_status self.
Definition has_peer_acked (self : PeatMesh.t) (peer_id : Z) : bool :=
  PeatMesh.has_peer_acked self peer_id.
Definition all_peers_acked (self : PeatMesh.t) : bool := PeatMesh.all_peers_acked self.

Definition on_ble_discovered (identifier : list Z) (name : option (list Z)) (rssi : Z)
    (mesh_id : option (list Z)) (now_ms : Z) : M (option MeshPeer.t) :=
  p ← PeatMesh.on_ble_discovered identifier name rssi mesh_id now_ms;
  mret (MeshPeer.of_internal <$> p).
Definition on_ble_connected (identifier : list Z) (now_ms : Z) : M (option Z) :=
  PeatMesh.on_ble_connected identifier now_ms.
Definition on_ble_disconnected (identifier : list Z) (reason : MeshDisconnectReason.t) (wall_ms : Z)
    : M (option Z) :=
  PeatMesh.on_ble_disconnected identifier (MeshDisconnectReason.to_internal reason) wall_ms.
Definition on_incoming_connection (identifier : list Z) (node_id now_ms : Z) : M bool :=
  PeatMesh.on_incoming_connection identifier node_id now_ms.
Definition on_ble_data_received (clock : Z → Z) (identifier data : list Z) (now_ms : Z)
    : M (option DataReceivedResult.t) :=
  r ← PeatMesh.on_ble_data_received legacy_chat clock identifier data now_ms;
  mret (DataReceivedResult.of_internal <$> r).
Definition on_ble_data (clock : Z → Z) (identifier data : list Z) (now_ms : Z)
    : M (option DataReceivedResult.t) :=
  r ← PeatMesh.on_ble_data legacy_chat clock identifier data now_ms;
  mret (DataReceivedResult.of_internal <$> r).
Definition tick (nonce : list Z) (now_ms : Z) : M (option (list Z)) :=
  PeatMesh.tick legacy_chat nonce now_ms.

Definition get_peers (self : PeatMesh.t) : list MeshPeer.t :=
  map MeshPeer.of_internal (PeatMesh.get_peers self).
Definition get_connected_peers (self : PeatMesh.t) : list MeshPeer.t :=
  map MeshPeer.of_internal (PeatMesh.get_connected_peers self).
Definition peer_count (self : PeatMesh.t) : Z := wrap 32 (PeatMesh.peer_count self).
Definition connected_count (self : PeatMesh.t) : Z := wrap 32 (PeatMesh.connected_count self).
Definition total_count (self : PeatMesh.t) : outcome Z := PeatMesh.total_count self.
Definition is_emergency_active (self : PeatMesh.t) : bool := PeatMesh.is_emergency_active self.
Definition is_ack_active (self : PeatMesh.t) : bool := PeatMesh.is_ack_active self.
Definition matches_mesh (self : PeatMesh.t) (device_mesh_id : option (list Z)) : bool :=
  PeatMesh.matches_mesh self device_mesh_id.

End mesh.
End PeatMeshWrapper.

(** * Theorems *)

Module AppleAppProofs.
Import AdapterState PeatAdapter.

(** What an application does with the object, and what the radio does meanwhile. *)
Inductive call :=
| Start | Stop | StartDiscovery | StopDiscovery | StartAdvertising | StopAdvertising
| Connect (now : Z) (identifier : list Z) | Disconnect (peer_id : Z) | DisconnectAll
| SendData (peer_id : Z) (data : list Z) | BroadcastData (data : list Z) | TriggerSync (now : Z)
| SetDiscoveryCallback | SetConnectionCallback | SetDataCallback | ProcessEvents
| AddMockPeer (random : Z) (uuid name : list Z) (rssi : Z)
| Radio (cs : list CentralCallback.t).

Section app.
Context {C : Type → Type} `{!Channel C} `{UuidText} `{!MapOrder Z}.
Implicit Types (s : t C) (a : CoreBluetoothAdapter.t C) (r : result unit PeatError.t).

Definition hear a (cs : list CentralCallback.t) : CoreBluetoothAdapter.t C :=
  CoreBluetoothAdapter.set_managers a
    (CentralManager.deliver (CoreBluetoothAdapter.central a) cs) (CoreBluetoothAdapter.peripheral a).
Definition perform s (c : call) : outcome (t C * result unit PeatError.t) :=
  match c with
  | Start => Ok (start s)
  | Stop => Ok (stop s)
  | StartDiscovery => Ok (start_discovery s)
  | StopDiscovery => Ok (stop_discovery s)
  | StartAdvertising => Ok (start_advertising s)
  | StopAdvertising => Ok (stop_advertising s)
  | Connect now identifier => Ok (connect now s identifier)
  | Disconnect peer_id => Ok (disconnect s peer_id)
  | DisconnectAll => Ok (disconnect_all s, Okay tt)
  | SendData peer_id data => send_data s peer_id data
  | BroadcastData data => broadcast_data s data
  | TriggerSync now => trigger_sync now s
  | SetDiscoveryCallback => Ok (set_discovery_callback s, Okay tt)
  | SetConnectionCallback => Ok (set_connection_callback s, Okay tt)
  | SetDataCallback => Ok (set_data_callback s, Okay tt)
  | ProcessEvents => Ok (process_events s, Okay tt)
  | AddMockPeer random uuid name rssi => Ok (add_mock_peer random uuid s name rssi, Okay tt)
  | Radio cs => Ok (set_adapter s ((λ a, hear a cs) <$> adapter s), Okay tt)
  end.
Fixpoint run s (calls : list call) : outcome (t C * list (result unit PeatError.t)) :=
  match calls with
  | [] => Ok (s, [])
  | c :: calls =>
      let! x := perform s c in
      let! y := run x.1 calls in
      Ok (y.1, x.2 :: y.2)
  end.

(** *** The invariant: an adapter that was never initialised *)

Definition uninitialised a : Prop :=
  CoreBluetoothAdapter.config a = None ∧ CoreBluetoothAdapter.node_to_identifier a = ∅
  ∧ CoreBluetoothAdapter.connections a = ∅
  ∧ Forall (λ c, c = PeripheralCommand.stopAdvertising)
      (PeripheralManager.issued (CoreBluetoothAdapter.peripheral a)).
Definition mock (p : DiscoveredPeer.t) : Prop :=
  ∃ random, DiscoveredPeer.node_id p = Some (Z.lor random 0x10000000).
(** A connection is never announced; the lock is held exactly while an
    application is told of a disconnection. *)
Definition unconnected (n : bool * Notice.t) : Prop :=
  match n.2 with
  | Notice.on_peer_discovered p => n.1 = false ∧ mock p
  | Notice.on_connected _ _ => False
  | Notice.on_disconnected _ reason => n.1 = true ∧ reason = str "User requested"%string
  end.
Definition app_ok s : Prop :=
  connections (state s) = ∅ ∧ AdapterState.is_advertising (state s) = false
  ∧ sync_stats (state s) = SyncStats.default_stats
  ∧ map_Forall (λ _ p, mock p) (discovered_peers (state s))
  ∧ Forall unconnected (notices s)
  ∧ match adapter s with
    | Some a => AdapterState.is_running (state s) = true ∧ uninitialised a
    | None => AdapterState.is_running (state s) = false ∧ AdapterState.is_discovering (state s) = false
    end.

Definition not_initialised : PeatError.t :=
  PeatError.Internal (str "Invalid state: Adapter not initialized"%string).
Definition unknown (n : Z) : PeatError.t :=
  PeatError.ConnectionFailed (str "Connection failed: Unknown node ID: "%string ++ NodeId.display n).
Definition not_found : PeatError.t :=
  PeatError.ConnectionFailed (str "Peer not found or no node ID"%string).
(** What the application is answered: never a connection. *)
Definition refused (c : call) r : Prop :=
  match c with
  | StartAdvertising => r = Err PeatError.NotRunning ∨ r = Err not_initialised
  | Connect _ _ => r = Err PeatError.NotRunning ∨ r = Err not_found
      ∨ ∃ random, r = Err (unknown (Z.lor random 0x10000000))
  | SendData _ _ => r = Err PeatError.NotRunning
      ∨ r = Err (PeatError.ConnectionFailed (str "Peer not connected"%string))
  | TriggerSync _ => r = Err PeatError.NotRunning ∨ r = Err PeatError.InvalidState
  | _ => True
  end.

Lemma no_bindings : map_iter (∅ : gmap Z ConnectionInfo.t) = [].
Proof. apply Permutation_nil_r. by rewrite map_iter_perm, map_to_list_empty. Qed.

Lemma uninitialised_new a : CoreBluetoothAdapter.new = Okay a → uninitialised a.
Proof. intros E. injection E as <-. split_and!; [done..|constructor]. Qed.
Lemma uninitialised_scan a config : uninitialised a →
  ∃ a', CoreBluetoothAdapter.start_scan a config = (a', Okay tt) ∧ uninitialised a'.
Proof. by eexists. Qed.
Lemma uninitialised_stop_scan a : uninitialised a →
  ∃ a', CoreBluetoothAdapter.stop_scan a = (a', Okay tt) ∧ uninitialised a'.
Proof. by eexists. Qed.
Lemma uninitialised_advertise a config : uninitialised a →
  CoreBluetoothAdapter.start_advertising a config = (a, Err CoreBluetoothAdapter.not_initialized).
Proof. intros (E & _). unfold CoreBluetoothAdapter.start_advertising. by rewrite E. Qed.
Lemma uninitialised_stop_advertising a : uninitialised a →
  ∃ a', CoreBluetoothAdapter.stop_advertising a = (a', Okay tt) ∧ uninitialised a'.
Proof.
  intros (Hc & Hn & Hs & Hp). eexists. split; [done|]. split_and!; [done..|].
  apply Forall_app. split; [done|]. by constructor.
Qed.
Lemma uninitialised_connect now a n : uninitialised a →
  CoreBluetoothAdapter.apple_connect now a n = (a, Err (CoreBluetoothAdapter.unknown_node n)).
Proof.
  intros (_ & E & _). unfold CoreBluetoothAdapter.apple_connect, CoreBluetoothAdapter.get_node_identifier.
  by rewrite E, lookup_empty.
Qed.
Lemma uninitialised_disconnect a n : uninitialised a →
  ∃ a', CoreBluetoothAdapter.apple_disconnect a n = (a', Okay tt) ∧ uninitialised a'.
Proof.
  intros (Hc & Hn & Hs & Hp). unfold CoreBluetoothAdapter.apple_disconnect,
    CoreBluetoothAdapter.get_node_identifier. cbn. rewrite Hn, Hs, !lookup_empty. cbn.
  eexists. split; [done|]. split_and!; [done..| |done]. cbn. apply delete_empty.
Qed.
Lemma uninitialised_hear a cs : uninitialised a → uninitialised (hear a cs).
Proof. done. Qed.

Lemma on_adapter_some {A} s a f a' (x : result A BleError.t) :
  adapter s = Some a → f a = (a', x) →
  on_adapter s f = (set_adapter s (Some a'), match x with Okay _ => None | Err e => Some e end).
Proof. intros Ha Hf. unfold on_adapter. by rewrite Ha, Hf. Qed.

(** A method that only works while the adapter runs, and there changes nothing
    that matters. *)
Definition fine s s' : Prop := app_ok s' ∧ node_id s' = node_id s ∧ mesh_id s' = mesh_id s.
Lemma switch_fine s f set (Hs : app_ok s)
    (Hf : ∀ a, uninitialised a → ∃ a', f a = (a', Okay tt) ∧ uninitialised a')
    (Hset : ∀ st, connections (set st) = connections st ∧ sync_stats (set st) = sync_stats st
       ∧ AdapterState.is_advertising (set st) = AdapterState.is_advertising st && AdapterState.is_advertising (set st)
       ∧ discovered_peers (set st) = discovered_peers st
       ∧ AdapterState.is_running (set st) = AdapterState.is_running st) :
  ∃ s' r, switch s f set = (s', r) ∧ fine s s'.
Proof.
  pose proof Hs as (Hc & Ha & Hst & Hm & Hn & Hr). unfold switch.
  destruct (adapter s) as [a|] eqn:Ea.
  - destruct Hr as [Er Hu]. rewrite Er. cbn [negb]. destruct (Hf a Hu) as (a' & Hfa & Hu').
    rewrite (on_adapter_some s a f a' _ Ea Hfa). destruct (Hset (state s)) as (E1 & E2 & E3 & E4 & E5).
    do 2 eexists. split; [done|]. split; [|done]. unfold app_ok. cbn.
    rewrite E1, E2, E3, E4, E5, Ha. by split_and!.
  - destruct Hr as [-> _]. by do 2 eexists.
Qed.

Lemma advertise_refused s : app_ok s →
  ∃ s' r, start_advertising s = (s', r) ∧ fine s s' ∧ refused StartAdvertising r.
Proof.
  intros Hs. pose proof Hs as (Hc & Ha & Hst & Hm & Hn & Hr). unfold start_advertising, switch.
  destruct (adapter s) as [a|] eqn:Ea; destruct Hr as [Er Hu]; rewrite Er; cbn [negb].
  - rewrite (on_adapter_some s a _ a (Err CoreBluetoothAdapter.not_initialized) Ea)
      by by apply uninitialised_advertise.
    do 2 eexists. split; [done|]. split; [|by right]. by split_and!.
  - do 2 eexists. split; [done|]. split; [done|by left].
Qed.
Lemma connect_refused now identifier s : app_ok s →
  ∃ s' r, connect now s identifier = (s', r) ∧ fine s s' ∧ refused (Connect now identifier) r.
Proof.
  intros Hs. pose proof Hs as (Hc & Ha & Hst & Hm & Hn & Hr). unfold connect.
  destruct (adapter s) as [a|] eqn:Ea; destruct Hr as [Er Hu]; rewrite Er; cbn [negb];
    [|do 2 eexists; split; [done|]; split; [done|by left]].
  destruct (discovered_peers (state s) !! identifier) as [p|] eqn:Hp; cbn [mbind option_bind];
    [|do 2 eexists; split; [done|]; split; [done|by right; left]].
  destruct (Hm _ _ Hp) as [random ->].
  rewrite (on_adapter_some s a _ a (Err (CoreBluetoothAdapter.unknown_node _)) Ea)
    by by apply uninitialised_connect.
  do 2 eexists. split; [done|]. split; [by split_and!|]. right. right. by exists random.
Qed.
Lemma app_ok_notify s b l n : app_ok s → unconnected (l, n) → app_ok (notify s b l n).
Proof.
  intros (Hc & Ha & Hst & Hm & Hn & Hr) Hu. unfold notify. destruct b; [|by split_and!].
  split_and!; [done..| |done]. apply Forall_app. split; [done|]. by constructor.
Qed.
Lemma fine_notify s s' b l n : fine s s' → unconnected (l, n) → fine s (notify s' b l n).
Proof.
  intros (Hs & Hi & Hm) Hn. split; [by apply app_ok_notify|]. unfold notify. by destruct b.
Qed.
Lemma disconnect_fine s n : app_ok s → ∃ s' r, disconnect s n = (s', r) ∧ fine s s'.
Proof.
  intros Hs. pose proof Hs as (Hc & Ha & Hst & Hm & Hn & Hr). unfold disconnect.
  destruct (adapter s) as [a|] eqn:Ea; destruct Hr as [Er Hu]; rewrite Er; cbn [negb];
    [|by do 2 eexists].
  destruct (uninitialised_disconnect a n Hu) as (a' & E & Hu').
  rewrite (on_adapter_some s a _ a' (Okay tt) Ea E). do 2 eexists. split; [done|].
  apply fine_notify; [|done]. split; [|done]. split_and!; cbn; [|done..].
  rewrite Hc. apply delete_empty.
Qed.
Lemma mock_fine random uuid name rssi s : app_ok s → fine s (add_mock_peer random uuid s name rssi).
Proof.
  intros (Hc & Ha & Hst & Hm & Hn & Hr). unfold add_mock_peer.
  assert (mock (DiscoveredPeer.mk uuid (Some name) rssi (Some (Z.lor random 0x10000000)) true)) as Hmock
    by by exists random.
  apply fine_notify; [|done]. split; [|done]. split_and!; cbn; try done. by apply map_Forall_insert_2.
Qed.

Lemma perform_fine s c : app_ok s → ∃ s' r, perform s c = Ok (s', r) ∧ fine s s' ∧ refused c r.
Proof.
  intros Hs. assert (fine s s) as Hfine by done.
  pose proof Hs as (Hc & Ha & Hst & Hm & Hn & Hr). destruct c; cbn [perform].
  - unfold start. destruct (AdapterState.is_running (state s)) eqn:Er; [by do 2 eexists|].
    destruct CoreBluetoothAdapter.new as [a|e] eqn:En; [|discriminate].
    do 2 eexists. split; [done|]. split; [|done]. split; [|done]. split_and!; cbn; try done.
    split; [done|by apply uninitialised_new].
  - unfold stop. destruct (AdapterState.is_running (state s)) eqn:Er; cbn [negb]; [|by do 2 eexists].
    do 2 eexists. split; [done|]. split; [|done]. split; [|done]. by split_and!.
  - edestruct (switch_fine s) as (s' & r & E & Hf); [done|..|unfold start_discovery; rewrite E; by do 2 eexists].
    + intros a. apply uninitialised_scan.
    + intros st. cbn. by rewrite andb_diag.
  - edestruct (switch_fine s) as (s' & r & E & Hf); [done|..|unfold stop_discovery; rewrite E; by do 2 eexists].
    + apply uninitialised_stop_scan.
    + intros st. cbn. by rewrite andb_diag.
  - destruct (advertise_refused s Hs) as (s' & r & -> & ? & ?). by do 2 eexists.
  - edestruct (switch_fine s) as (s' & r & E & Hf); [done|..|unfold stop_advertising; rewrite E; by do 2 eexists].
    + apply uninitialised_stop_advertising.
    + intros st. cbn. by rewrite andb_false_r.
  - destruct (connect_refused now identifier s Hs) as (s' & r & -> & ? & ?). by do 2 eexists.
  - destruct (disconnect_fine s peer_id Hs) as (s' & r & -> & ?). by do 2 eexists.
  - unfold disconnect_all. rewrite Hc, no_bindings. by do 2 eexists.
  - unfold send_data. rewrite Hc, lookup_empty. destruct (AdapterState.is_running _); cbn [negb];
      do 2 eexists; (split; [done|]; split; [done|]); [by right|by left].
  - unfold broadcast_data. rewrite Hc, no_bindings. destruct (AdapterState.is_running _); by do 2 eexists.
  - unfold trigger_sync. rewrite Hc. destruct (AdapterState.is_running _); cbn [negb];
      do 2 eexists; (split; [done|]; split; [done|]); [by right|by left].
  - by do 2 eexists.
  - by do 2 eexists.
  - by do 2 eexists.
  - by do 2 eexists.
  - do 2 eexists. split; [done|]. split; [|done]. by apply mock_fine.
  - do 2 eexists. split; [done|]. split; [|done]. split; [|done]. split_and!; cbn; try done.
    by destruct (adapter s).
Qed.
Lemma run_fine calls : ∀ s, app_ok s →
  ∃ s' rs, run s calls = Ok (s', rs) ∧ fine s s' ∧ Forall2 refused calls rs.
Proof.
  induction calls as [|c calls IH]; intros s Hs; [by do 2 eexists; split; [done|]; split|].
  destruct (perform_fine s c Hs) as (s1 & r & E & (Hs1 & Hi & Hm) & Hr). cbn [run]. rewrite E. cbn [obind fst snd].
  destruct (IH s1 Hs1) as (s2 & rs & -> & (Hs2 & Hi2 & Hm2) & Hrs). cbn [obind].
  exists s2, (r :: rs). split; [done|]. split; [|by constructor]. split; [done|split; congruence].
Qed.
Lemma app_ok_new n mesh : app_ok (with_mesh_id n mesh).
Proof. by split_and!. Qed.

End app.
End AppleAppProofs.

Module AppleAppProperties.
Import DelegateProofs AdapterState PeatAdapter AppleAppProofs.

(** The adapter that is given to Swift never connects and never advertises.
    Whatever an application calls on it, in any order, and whatever the radio
    hears, no call panics, and every one leaves the object consistent: it has
    an adapter of the platform exactly while it runs, scans only while it runs,
    and every peer it lists was added as a mock.  But it never initialises that
    adapter and never polls it.  So each attempt to advertise is refused; each
    attempt to connect is too, with a node that is not known when the peer is;
    nothing can be sent and no sync is triggered; there is never a connection,
    the statistics stay at zero, and the application is told of no connection.
    It is told only of mock peers, and of disconnections it asked for, the
    latter while the lock of the state is held, so that a callback that calls
    the object again does not return. *)
Theorem ios_adapter_never_connects {C} `{Channel C} `{UuidText} `{!MapOrder Z} n mesh calls :
  ∃ (s : PeatAdapter.t C) replies, run (with_mesh_id n mesh) calls = Ok (s, replies)
    ∧ Forall2 refused calls replies
    ∧ get_connections s = [] ∧ (∀ peer, get_connection s peer = None)
    ∧ is_advertising s = false ∧ get_sync_stats s = SyncStats.default_stats
    ∧ (is_running s = true ↔ is_Some (adapter s))
    ∧ (is_discovering s = true → is_running s = true)
    ∧ map_Forall (λ _ p, mock p) (discovered_peers (state s))
    ∧ Forall unconnected (notices s)
    ∧ node_id s = n ∧ mesh_id s = mesh.
Proof.
  destruct (run_fine calls (with_mesh_id (C := C) n mesh) (app_ok_new n mesh))
    as (s & rs & E & ((Hc & Ha & Hst & Hm & Hn & Hr) & Hi & Hmesh) & Hrs).
  exists s, rs. split_and!; try done.
  - unfold get_connections. by rewrite Hc, no_bindings.
  - intros peer. unfold get_connection. by rewrite Hc.
  - unfold is_running. destruct (adapter s); destruct Hr as [-> _]; [by split; eauto|].
    split; [done|by intros [? ?]].
  - unfold is_discovering, is_running. destruct (adapter s); [by destruct Hr as [-> _]|].
    by destruct Hr as [_ ->].
Qed.

(** A session: a mock peer is found, and everything else is refused. *)
Example a_session :
  (λ x, x.2) <$> (match run (C := list_channel) (new 7)
      [Start; AddMockPeer 5 (str "uuid"%string) (str "PEAT_DEMO-10000005"%string) (-50);
       Connect 0 (str "uuid"%string); Connect 0 (str "other"%string); StartAdvertising; StartDiscovery;
       SendData 0x10000005 [1]; TriggerSync 100; Disconnect 0x10000005; Stop; StopDiscovery]
    with Ok x => Some x | _ => None end)
  = Some [Okay tt; Okay tt; Err (unknown 0x10000005); Err not_found; Err not_initialised; Okay tt;
          Err (PeatError.ConnectionFailed (str "Peer not connected"%string)); Err PeatError.InvalidState;
          Okay tt; Okay tt; Err PeatError.NotRunning].
Proof. vm_compute. reflexivity. Qed.

End AppleAppProperties.
