(* ===== verification/BleTransport.v ===== *)
(** * The transport of src/src/transport.rs: what it can do, and how it sends
    a message over an adapter (Adapter.v) in the chunks of SyncProto.v. *)

From Stdlib Require Import String.
From stdpp Require Import base numbers list gmap sets.
From S2P Require Import Prelude SyncProto Crypto Config PeerGraph GattService Ble Adapter.
Open Scope Z_scope.
Open Scope peat_scope.

Module TransportCapabilities.
Record t := mk {
  max_bandwidth_bps : Z; typical_latency_ms : Z; max_range_meters : Z; bidirectional : bool;
  reliable : bool; battery_impact : Z; supports_broadcast : bool; requires_pairing : bool;
  max_message_size : Z
}.
Definition bluetooth_le : t := mk 250000 30 100 true true 15 true false 512.
Definition bluetooth_le_coded : t := mk 125000 100 400 true true 20 true false 512.
(** [..Self::bluetooth_le()] *)
Definition le_with (max_bandwidth_bps typical_latency_ms max_range_meters : Z) : t :=
  mk max_bandwidth_bps typical_latency_ms max_range_meters (bidirectional bluetooth_le)
    (reliable bluetooth_le) (battery_impact bluetooth_le) (supports_broadcast bluetooth_le)
    (requires_pairing bluetooth_le) (max_message_size bluetooth_le).
Definition for_phy (phy : BlePhy.t) : t :=
  match phy with
  | BlePhy.Le1M => bluetooth_le
  | BlePhy.Le2M => le_with 500000 20 50
  | BlePhy.LeCodedS2 => le_with 250000 50 200
  | BlePhy.LeCodedS8 => bluetooth_le_coded
  end.
Definition default_capabilities : t := bluetooth_le.
End TransportCapabilities.

(** The constructor of the uuid crate from the four fields of a UUID. *)
Class UuidFields := from_fields : Z → Z → Z → list Z → list Z.
(** Its documentation: the fields in order, the first three big-endian. *)
Class UuidLaws `{UuidFields} :=
  from_fields_bytes d1 d2 d3 d4 : from_fields d1 d2 d3 d4 = be32 d1 ++ be16 d2 ++ be16 d3 ++ d4.

Definition ble_uuid_from_u16 `{UuidFields} (short : Z) : list Z :=
  from_fields short 0x0000 0x1000 [0x80; 0x00; 0x00; 0x80; 0x5F; 0x9B; 0x34; 0xFB].

Module BluetoothLETransport.

Record t (A : Type) := mk {
  config : BleConfig.t; adapter : A; capabilities : TransportCapabilities.t
}.
#[global] Arguments mk {A}.
#[global] Arguments config {A}.
#[global] Arguments adapter {A}.
#[global] Arguments capabilities {A}.

Definition new {A} (config : BleConfig.t) (adapter : A) : t A :=
  mk config adapter (TransportCapabilities.for_phy (PhyConfig.preferred_phy (BleConfig.phy config))).
Definition node_id {A} (self : t A) : Z := BleConfig.node_id (config self).
(** The body of [send_to] in the trait. *)
Definition default_send_to {A} (self : t A) (peer_id : Z) (data : list Z) : t A * result Z BleError.t :=
  (self, Err (BleError.NotSupported (str "send_to not implemented"%string))).

Section transport.
Context {A : Type} `{!BleAdapter A} `{UuidFields}.

(** What the adapter answers, with the transport around the adapter it leaves. *)
Definition forward {B} (self : t A) (r : A * B) : t A * B :=
  (mk (config self) r.1 (capabilities self), r.2).
Definition start (self : t A) : t A * result unit BleError.t := forward self (Adapter.start (adapter self)).
Definition stop (self : t A) : t A * result unit BleError.t := forward self (Adapter.stop (adapter self)).
Definition connect (self : t A) (peer_id : Z) : t A * result BleConnection.t BleError.t :=
  forward self (Adapter.connect (adapter self) peer_id).
Definition disconnect (self : t A) (peer_id : Z) : t A * result unit BleError.t :=
  forward self (Adapter.disconnect (adapter self) peer_id).
Definition get_connection (self : t A) (peer_id : Z) : option BleConnection.t :=
  Adapter.get_connection (adapter self) peer_id.
Definition peer_count (self : t A) : Z := Adapter.peer_count (adapter self).
Definition connected_peers (self : t A) : list Z := Adapter.connected_peers (adapter self).
Definition is_connected (self : t A) (peer_id : Z) : bool :=
  match get_connection self peer_id with Some _ => true | None => false end.

(** The loop of [send_to]: the first write that fails ends it. *)
Fixpoint write_chunks (a : A) (peer_id : Z) (char_uuid : list Z) (chunks : list SyncChunk.t)
    : A * result unit BleError.t :=
  match chunks with
  | [] => (a, Okay tt)
  | chunk :: chunks =>
      let '(a, r) := write_to_peer a peer_id char_uuid (SyncChunk.encode chunk) in
      match r with
      | Okay _ => write_chunks a peer_id char_uuid chunks
      | Err e => (a, Err e)
      end
  end.
Definition send_to (self : t A) (peer_id : Z) (data : list Z) : t A * result Z BleError.t :=
  match get_connection self peer_id with
  | None => (self, Err (BleError.ConnectionFailed (str "No connection to "%string ++ NodeId.display peer_id)))
  | Some conn =>
      let chunks := chunk_data data (BleConnection.mtu conn) 0 in
      let char_uuid := ble_uuid_from_u16 CHAR_SYNC_DATA_UUID in
      let '(a, r) := write_chunks (adapter self) peer_id char_uuid chunks in
      (mk (config self) a (capabilities self),
       match r with Okay _ => Okay (zlen data) | Err e => Err e end)
  end.

End transport.
End BluetoothLETransport.

(** * Theorems *)

Module ChunkStreamProofs.
Import ChunkProofs.

Lemma chunk_data_wf data mtu id c :
  in_u 32 id → c ∈ chunk_data data mtu id → ChunkHeader.wf (SyncChunk.header c).
Proof.
  intros Hid. unfold chunk_data. destruct (_ =? 0); [by intros ?%elem_of_nil|].
  destruct (imap _ _) as [|c0 cs] eqn:E.
  - intros ->%list_elem_of_singleton. unfold ChunkHeader.wf. cbn. split_and!; (done || lia).
  - rewrite <-E. intros (i & Hi)%list_elem_of_lookup.
    apply list_lookup_imap_Some in Hi as (p & _ & ->). unfold ChunkHeader.wf.
    cbn [SyncChunk.header ChunkHeader.message_id ChunkHeader.chunk_index ChunkHeader.total_chunks].
    split; [done|split]; apply wrap_bound; lia.
Qed.

Lemma chunk_data_NoDup data mtu id :
  0 ≤ mtu → div_ceil (zlen data) (mtu - CHUNK_HEADER_SIZE) < 2 ^ 16 → NoDup (chunk_data data mtu id).
Proof.
  intros Hm Hlt. destruct (decide (mtu ≤ CHUNK_HEADER_SIZE)) as [|Hgt].
  { unfold chunk_data, saturating_sub. rewrite Z.max_l by lia. apply NoDup_nil_2. }
  destruct (decide (data = [])) as [->|Hne]; [rewrite chunk_data_nil by lia; apply NoDup_singleton|].
  rewrite chunk_data_spec by (lia || done). apply NoDup_alt. intros i j x. unfold chunks_of.
  intros (p & _ & ->)%list_lookup_imap_Some (q & _ & Hq)%list_lookup_imap_Some.
  injection Hq. lia.
Qed.

Lemma chunk_data_some data mtu id :
  CHUNK_HEADER_SIZE < mtu → div_ceil (zlen data) (mtu - CHUNK_HEADER_SIZE) < 2 ^ 16 →
  ∃ pre c, chunk_data data mtu id = pre ++ [c].
Proof.
  intros Hm Hlt. destruct (exists_last (l := chunk_data data mtu id)) as (pre & c & ->); [|by eexists _, _].
  destruct (decide (data = [])) as [->|Hne]; [by rewrite chunk_data_nil|].
  rewrite chunk_data_spec by (lia || done). unfold chunks_of.
  destruct (pieces _ data) eqn:E; [|done]. intros _. apply Hne.
  rewrite <-(pieces_concat (mtu - CHUNK_HEADER_SIZE) data) by lia. by rewrite E.
Qed.

Lemma own_zip id cs ts :
  (∀ c, c ∈ cs → ChunkHeader.message_id (SyncChunk.header c) = id) → length ts = length cs →
  own id (zip cs ts) = cs.
Proof.
  intros Hid Hl. unfold own. rewrite fst_zip by lia. clear Hl.
  induction cs as [|c cs IH]; [done|]. cbn. rewrite decide_True by (apply Hid; set_solver).
  f_equal. apply IH. set_solver.
Qed.

Lemma feed_ids r id trace o :
  (∀ c, c ∈ trace.*1 → ChunkHeader.message_id (SyncChunk.header c) = id) →
  o ∈ (feed r trace).2 → o.1 = id.
Proof.
  induction trace as [|[c now] trace IH] using rev_ind; intros Hid; [by intros ?%elem_of_nil|].
  rewrite fmap_app in Hid. cbn [fmap list_fmap fst] in Hid. rewrite feed_snoc. cbn [snd].
  intros [?| ->%list_elem_of_singleton]%elem_of_app; [apply IH; [intros; apply Hid; set_solver|done]|].
  cbn. apply Hid. set_solver.
Qed.

Lemma feed_more r a b : ∃ more, (feed r (a ++ b)).2 = (feed r a).2 ++ more.
Proof.
  induction b as [|[c now] b [more IH]] using rev_ind; [exists []; by rewrite !app_nil_r|].
  rewrite app_assoc, feed_snoc. cbn [snd]. rewrite IH. eexists. by rewrite <-app_assoc.
Qed.
Lemma feed_length r trace : length (feed r trace).2 = length trace.
Proof.
  induction trace as [|[c now] trace IH] using rev_ind; [done|].
  rewrite feed_snoc. cbn [snd]. rewrite !length_app. cbn. lia.
Qed.

(** A message whose chunks arrive one after the other. *)
Lemma feed_message r data mtu id ts :
  CHUNK_HEADER_SIZE < mtu → div_ceil (zlen data) (mtu - CHUNK_HEADER_SIZE) < 2 ^ 16 →
  ChunkReassembler.partials r !! id = None →
  let cs := chunk_data data mtu id in
  length ts = length cs →
  (feed r (zip cs ts)).2.*2 = replicate (length cs - 1) None ++ [Some data] ∧
  ChunkReassembler.partials (feed r (zip cs ts)).1 !! id = None.
Proof.
  intros Hm Hlt Hr cs Hl. pose proof (λ c, CoordinatorProofs.chunk_data_id data mtu id c) as Hid. fold cs in Hid.
  pose proof (chunk_data_NoDup data mtu id ltac:(unfold CHUNK_HEADER_SIZE in *; lia) Hlt) as Hnd.
  fold cs in Hnd. destruct (chunk_data_some data mtu id Hm Hlt) as (pre & c & Hcs). fold cs in Hcs.
  destruct (exists_last (l := ts)) as (tpre & now & ->); [intros ->; rewrite Hcs, length_app in Hl; cbn in Hl; lia|].
  rewrite Hcs in *. rewrite !length_app in *. cbn [length] in *.
  rewrite zip_with_app by lia. cbn [zip_with]. rewrite feed_snoc. cbn [fst snd].
  assert (own id (zip pre tpre) = pre) as Hown by (apply own_zip; [intros; apply Hid; set_solver|lia]).
  apply NoDup_app in Hnd as (_ & Hnot & _).
  destruct (reassemble r data mtu id (zip pre tpre) c now Hm Hlt Hr) as (Ho & -> & Hnone);
    rewrite ?Hown; fold cs; rewrite ?Hcs.
  { set_solver. } { set_solver. } { intros Hc. apply (Hnot c Hc). set_solver. } { done. }
  split; [|done]. rewrite fmap_app. f_equal. symmetry. apply replicate_as_elem_of. split.
  - rewrite length_fmap, feed_length, length_zip_with. lia.
  - intros o ([i o'] & -> & Hin)%list_elem_of_fmap. apply Ho.
    assert (i = id) as -> by (eapply (feed_ids r id) in Hin; [done|]; intros x;
      rewrite fst_zip by lia; intros; apply Hid; set_solver). done.
Qed.

(** Packets with their arrival times, decoded and handed to a reassembler. *)
Definition decoded (arrivals : list (list Z * Z)) : list (SyncChunk.t * Z) :=
  omap (λ '(b, now), match SyncChunk.decode b with Ok c => Some (c, now) | _ => None end) arrivals.
Lemma decoded_encoded cs arrivals :
  (∀ c, c ∈ cs → ChunkHeader.wf (SyncChunk.header c)) → arrivals.*1 = SyncChunk.encode <$> cs →
  decoded arrivals = zip cs arrivals.*2.
Proof.
  revert arrivals. induction cs as [|c cs IH]; intros [|[b now] arrivals] Hwf; try done.
  cbn. intros [= -> Hrest]. rewrite (proj1 (chunk_decode_encode c ltac:(apply Hwf; set_solver))).
  f_equal. apply IH; [|done]. intros; apply Hwf; set_solver.
Qed.

End ChunkStreamProofs.

Module SendProofs.
Import BluetoothLETransport.

Section send.
Context {A : Type} `{!BleAdapter A, !AdapterLaws A}.

(** What a loop of writes leaves on the link: every chunk when it succeeds,
    the chunks before the one that failed when it does not. *)
Lemma write_chunks_spec a peer uuid cs a' res :
  write_chunks a peer uuid cs = (a', res) →
  ∃ done rest, cs = done ++ rest ∧ link a' peer = link a peer ++ (SyncChunk.encode <$> done) ∧
    match res with Okay _ => rest = [] | Err _ => rest ≠ [] end.
Proof.
  revert a. induction cs as [|c cs IH]; intros a; cbn [write_chunks].
  { intros [= -> <-]. exists [], []. split_and!; [done|by rewrite app_nil_r|done]. }
  destruct (write_to_peer a peer uuid (SyncChunk.encode c)) as [a1 [[]|e]] eqn:E.
  - intros (done & rest & -> & Hlink & Hres)%IH. exists (c :: done), rest. split; [done|].
    split; [|done]. apply write_reaches in E. rewrite Hlink, E. cbn. by rewrite <-app_assoc.
  - intros [= -> <-]. exists [], (c :: cs). split; [done|]. split; [|done].
    apply write_fails in E. by rewrite app_nil_r.
Qed.

End send.
End SendProofs.

Module TransportSendProperties.
Import ChunkStreamProofs SendProofs BluetoothLETransport.

(** C26: Sending. Over any adapter whose writes that succeed reach the peer
    and whose writes that fail do not, a message sent to a connected peer is
    on the link in chunks of the connection's MTU. A peer that holds no chunk
    of an earlier message that was interrupted, whatever the times of arrival,
    gets the message from its reassembler with the last chunk and nothing
    before, when the send succeeds; when a write fails the error is the
    result, and the peer gets nothing. Without a connection nothing is
    written. When the MTU has no room for a payload, nothing is written
    either, and the send reports the bytes as sent. *)
Theorem send_to_delivers {A} `{!BleAdapter A, !AdapterLaws A, !UuidFields}
    (self self' : t A) (peer : Z) (data : list Z) (res : result Z BleError.t) :
  send_to self peer data = (self', res) →
  match get_connection self peer with
  | None => self' = self ∧ ∃ e, res = Err e
  | Some conn =>
      let mtu := BleConnection.mtu conn in
      0 ≤ mtu → div_ceil (zlen data) (mtu - CHUNK_HEADER_SIZE) < 2 ^ 16 →
      ∃ sent, link (adapter self') peer = link (adapter self) peer ++ sent ∧
        if mtu <=? CHUNK_HEADER_SIZE then sent = [] ∧ res = Okay (zlen data)
        else ∀ (r : ChunkReassembler.t) arrivals,
          ChunkReassembler.partials r !! 0 = None → arrivals.*1 = sent →
          let outs := (ChunkProofs.feed r (decoded arrivals)).2.*2 in
          match res with
          | Okay n => n = zlen data ∧ outs = replicate (length sent - 1) None ++ [Some data]
          | Err _ => ∀ o, o ∈ outs → o = None
          end
  end.
Proof.
  unfold send_to. destruct (get_connection self peer) as [conn|]; [|intros [= <- <-]; eauto].
  set (cs := chunk_data data (BleConnection.mtu conn) 0).
  destruct (write_chunks _ _ _ cs) as [a res'] eqn:E. intros [= <- <-]. cbn. intros Hm Hlt.
  apply write_chunks_spec in E as (sent & rest & Hcs & Hlink & Hres).
  exists (SyncChunk.encode <$> sent). split; [done|].
  destruct (Z.leb_spec (BleConnection.mtu conn) CHUNK_HEADER_SIZE) as [Hle|Hgt].
  { assert (cs = []) as Hnil.
    { unfold cs, chunk_data, saturating_sub. by rewrite Z.max_l by lia. }
    rewrite Hnil in Hcs. symmetry in Hcs. apply app_eq_nil in Hcs as [-> ->]. by destruct res'. }
  intros r arrivals Hr Harr.
  assert (∀ c, c ∈ cs → ChunkHeader.wf (SyncChunk.header c)) as Hwf
    by (intros c Hc; eapply (chunk_data_wf _ _ 0); [cbn; lia|exact Hc]).
  rewrite (decoded_encoded sent) by (try done; intros c ?; apply Hwf; rewrite Hcs; set_solver).
  assert (length arrivals = length sent) as Hl
    by (rewrite <-(length_fmap fst), Harr; apply length_fmap).
  set (more := arrivals.*2 ++ replicate (length rest) 0).
  destruct (feed_message r data (BleConnection.mtu conn) 0 more Hgt Hlt Hr) as [Houts _].
  { fold cs. unfold more. rewrite Hcs, !length_app, length_fmap, length_replicate. lia. }
  fold cs in Houts. destruct res' as [[]|e].
  - subst rest. rewrite app_nil_r in Hcs. unfold more in Houts. rewrite app_nil_r, Hcs in Houts.
    by rewrite length_fmap.
  - unfold more in Houts. rewrite Hcs, zip_with_app in Houts by (rewrite length_fmap; lia).
    destruct (feed_more r (zip sent arrivals.*2) (zip rest (replicate (length rest) 0))) as [outs' Hf].
    rewrite Hf, fmap_app in Houts. intros o Ho.
    apply list_elem_of_lookup in Ho as [i Hi]. pose proof (lookup_lt_Some _ _ _ Hi) as Hlt'.
    rewrite length_fmap, feed_length, length_zip_with, length_fmap in Hlt'.
    apply (lookup_app_l_Some _ (outs'.*2)) in Hi. rewrite Houts in Hi.
    assert (1 ≤ length rest)%nat by (destruct rest; [done|cbn; lia]).
    rewrite length_app, lookup_app_l in Hi by (rewrite length_replicate; lia).
    by apply lookup_replicate in Hi as [-> _].
Qed.

(** Two nodes of the simulated network, the second advertising, and the first
    connected to it with an MTU of 11. *)
Definition fields : UuidFields := λ d1 d2 d3 d4, be32 d1 ++ be16 d2 ++ be16 d3 ++ d4.
Definition two_nodes : MockBleAdapter.world * MockBleAdapter.world :=
  let config := MockAdapterConfig.mk 0 50 10 true true 11 8 in
  let two := MockBleAdapter.start_advertising (MockBleAdapter.new 2, MockNetwork.new) in
  let one := (MockBleAdapter.mock_connect (MockBleAdapter.with_config 1 config, two.2) 2).1 in
  (one, (two.1, one.2)).
Definition transport (w : MockBleAdapter.world) : t MockBleAdapter.world :=
  new (BleConfig.new 1) w.
Definition send (w : MockBleAdapter.world) (peer : Z) (data : list Z)
    : t MockBleAdapter.world * result Z BleError.t :=
  @send_to _ (MockBleAdapter.mock_adapter 100) fields (transport w) peer data.

(** Seven bytes in three chunks. *)
Lemma send_to_delivers_witness :
  let '(self', res) := send two_nodes.1 2 [1; 2; 3; 4; 5; 6; 7] in
  ∃ sent, AdapterProofs.sent_to (adapter self') 2 = [] ++ sent ∧
    ∀ (r : ChunkReassembler.t) arrivals,
      ChunkReassembler.partials r !! 0 = None → arrivals.*1 = sent →
      res = Okay 7 ∧
      (ChunkProofs.feed r (decoded arrivals)).2.*2
      = replicate (length sent - 1) None ++ [Some [1; 2; 3; 4; 5; 6; 7]].
Proof.
  destruct (send two_nodes.1 2 [1; 2; 3; 4; 5; 6; 7]) as [self' res] eqn:E.
  assert (res = Okay 7) as -> by (apply (f_equal snd) in E; vm_compute in E; congruence).
  destruct (@send_to_delivers _ (MockBleAdapter.mock_adapter 100) (AdapterProofs.mock_laws 100)
    fields (transport two_nodes.1) self' 2 _ _ E ltac:(vm_compute; congruence) ltac:(reflexivity))
    as (sent & Hlink & H).
  exists sent. split; [exact Hlink|]. intros r arrivals Hr Harr. split; [reflexivity|].
  apply (H r arrivals Hr Harr).
Defined.

(** The identifier of every message is 0: after a message that was cut short by
    a lost connection, the next one completes with the old total, and what it
    returns is neither of them. *)
Example interrupted_message_spoils_the_next :
  let lost := chunk_data [1; 2; 3; 4; 5; 6; 7] 11 0 in
  let next := chunk_data [11; 12; 13; 14; 15; 16; 17; 18; 19; 20] 11 0 in
  (ChunkProofs.feed ChunkReassembler.new ((λ c, (c, 0)) <$> take 1 lost ++ next)).2.*2
  = [None; None; None; Some [11; 12; 13; 14; 15; 16; 17; 18; 19]; None].
Proof. vm_compute. reflexivity. Qed.

(** A message of two chunks after an interrupted one of three is lost. *)
Example interrupted_message_swallows_the_next :
  let lost := chunk_data [1; 2; 3; 4; 5; 6; 7] 11 0 in
  let next := chunk_data [11; 12; 13; 14] 11 0 in
  (ChunkProofs.feed ChunkReassembler.new ((λ c, (c, 0)) <$> take 1 lost ++ next)).2.*2
  = [None; None; None].
Proof. vm_compute. reflexivity. Qed.

(** The characteristic that [send_to] writes to is not one of the service. *)
Lemma send_to_names_no_characteristic `{UuidLaws} :
  ble_uuid_from_u16 CHAR_SYNC_DATA_UUID ∉ CharacteristicDescriptor.uuid <$> PeatCharacteristics.all.
Proof. unfold ble_uuid_from_u16. rewrite from_fields_bytes. by_decide. Qed.
#[global] Instance fields_laws : @UuidLaws fields.
Proof. by intros d1 d2 d3 d4. Qed.

(** Only the node that connected has the connection: the other cannot answer. *)
Example answers_need_a_second_connection :
  let '(one, two) := two_nodes in
  (send one 2 [1]).2 = Okay 1 ∧ ∃ msg, (send two 1 [1]).2 = Err (BleError.ConnectionFailed msg).
Proof. vm_compute. eauto. Qed.

(** With an MTU that only holds a chunk header, a send succeeds and sends nothing. *)
Example no_room_for_a_payload :
  chunk_data [1; 2; 3] CHUNK_HEADER_SIZE 0 = [].
Proof. reflexivity. Qed.

End TransportSendProperties.
