(* ===== verification/Wire.v ===== *)
(** * The wire formats of the program, together: what is proved of each codec
    beside its component. *)

From stdpp Require Import base numbers list gmap.
From S2P Require Import Prelude Crdt Sensor CrdtOp DeltaDoc Chat Document Crypto.
From S2P Require Import Session Beacon Identity Relay.
Open Scope Z_scope.
Open Scope peat_scope.

Module WireProperties.
Import BeaconProofs DocumentProofs.

(** C31: These formats can be read back by the receiver, and no bytes from the
    radio make their decoders panic or return an ill-formed value:
    peripherals, emergencies, chats, relay envelopes, encrypted documents, key
    exchanges, session messages, attestations, membership tokens and mesh
    geneses as they were; beacons, in both sizes, as what the wire carries of
    them; batches of operations with the exact total of their bytes; the mesh
    document with every optional section, and delta documents with a vector
    clock and every kind of operation, both in the size that is announced. *)
Theorem wire_formats `{CryptoLaws} `{!MapOrder Z} :
  WireCodec Peripheral.encode Peripheral.decode Peripheral.wf
  ∧ WireCodec EmergencyEvent.encode EmergencyEvent.decode EmergencyEvent.wf
  ∧ WireCodec ChatCRDT.encode ChatCRDT.decode ChatCRDT.wf
  ∧ WireCodec RelayEnvelope.encode RelayEnvelope.decode RelayEnvelope.wf
  ∧ WireCodec EncryptedDocument.encode EncryptedDocument.decode EncryptedDocument.wf
  ∧ WireCodec KeyExchangeMessage.encode KeyExchangeMessage.decode KeyExchangeMessage.wf
  ∧ WireCodec PeerEncryptedMessage.encode PeerEncryptedMessage.decode PeerEncryptedMessage.wf
  ∧ WireCodec IdentityAttestation.encode IdentityAttestation.decode IdentityAttestation.wf
  ∧ WireCodec MembershipToken.encode MembershipToken.decode MembershipToken.wf
  ∧ WireCodec MeshGenesis.encode MeshGenesis.decode MeshGenesis.wf
  ∧ (∀ b rest, PeatBeacon.typed b →
       PeatBeacon.decode (PeatBeacon.encode b ++ rest) = Ok (carried b)
       ∧ PeatBeacon.decode_compact (PeatBeacon.encode_compact b ++ rest)
         = Ok (carried (PeatBeacon.with_geohash b 0)))
  ∧ (∀ data, bytes_ok data →
       wp (PeatBeacon.decode data) PeatBeacon.wf ∧ wp (PeatBeacon.decode_compact data) PeatBeacon.wf)
  ∧ (∀ ops rest, BatchProofs.batch_wf ops →
       OperationBatch.decode (OperationBatch.encode (OperationBatch.mk ops 0 0) ++ rest)
       = Ok (OperationBatch.mk ops (BatchProofs.batch_sizes ops) 0))
  ∧ (∀ data, bytes_ok data → wp (OperationBatch.decode data) (λ b,
       Forall CrdtOperation.wf (OperationBatch.operations b)
       ∧ OperationBatch.total_bytes b = BatchProofs.batch_sizes (OperationBatch.operations b)))
  ∧ (∀ legacy_chat d, PeatDocument.wf legacy_chat d → PeatDocument.sendable d →
       PeatDocument.decode legacy_chat (PeatDocument.encode legacy_chat d) = Ok d
       ∧ zlen (PeatDocument.encode legacy_chat d) = PeatDocument.encoded_size legacy_chat d)
  ∧ (∀ legacy_chat data, bytes_ok data →
       wp (PeatDocument.decode legacy_chat data) (PeatDocument.wf legacy_chat))
  ∧ (∀ d rest, DeltaDocument.wf d →
       zlen (flat_map DeltaDocProofs.op_wire (DeltaDocument.operations d)) < 2 ^ 64 →
       ∃ bytes, DeltaDocument.encode d = Ok bytes ∧ DeltaDocument.encoded_size d = Ok (zlen bytes)
         ∧ DeltaDocument.decode (bytes ++ rest) = Ok d)
  ∧ (∀ data, bytes_ok data → wp (DeltaDocument.decode data) (λ d,
       DeltaDocument.wf d ∧ DeltaDocument.encode d ≠ Panic)).
Proof.
  repeat (split; [exact _|]). split; [|split; [|split; [|split; [|split; [|split; [|split]]]]]].
  - intros b rest Hb. split; [by apply beacon_decode_encode|].
    by rewrite beacon_compact_decode_encode.
  - intros data Hd. split; [by apply beacon_decode_wp | by apply beacon_compact_wp].
  - intros ops rest Hops. by apply (BatchProofs.batch_decode_encode (OperationBatch.mk ops 0 0)).
  - intros data Hd. eapply wp_mono; [by apply BatchProofs.batch_decode_wp|]. cbn. naive_solver.
  - intros legacy_chat d Hd Hs. split; [by apply document_decode_encode|by rewrite document_size].
  - intros legacy_chat data Hd. by apply document_decode_wp.
  - intros d rest Hd Hs. exists (DeltaDocProofs.doc_wire d).
    split_and!; [by apply DeltaDocProofs.delta_doc_encode|by apply DeltaDocProofs.delta_doc_size|
      by apply DeltaDocProofs.delta_doc_decode_encode].
  - intros data Hd. eapply wp_mono; [by apply DeltaDocProofs.delta_doc_decode_wp|]. intros d Hdec.
    cbv beta in *. split; [done|]. by rewrite DeltaDocProofs.delta_doc_encode.
Qed.

Lemma wire_formats_witness :
  WireCodec MeshGenesis.encode MeshGenesis.decode MeshGenesis.wf
  ∧ PeatBeacon.decode (PeatBeacon.encode (PeatBeacon.peat_lite 7)) = Ok (PeatBeacon.peat_lite 7).
Proof.
  destruct wire_formats as (_ & _ & _ & _ & _ & _ & _ & _ & _ & Hgenesis & Hbeacon & _).
  split; [exact Hgenesis|]. rewrite <-(app_nil_r (PeatBeacon.encode _)).
  apply Hbeacon. apply (bool_decide_unpack _). vm_compute. exact I.
Defined.

End WireProperties.
